(* ===== verification/_CoqProject ===== *)
-Q . S2P
Prelude.v
Arrays.v
RlcPdu.v
RlcSdu.v
TimeStat.v
RlcEntity.v
RlcRxList.v
RlcAmState.v
RlcAmRx.v
RlcAmControl.v
RlcAmTx.v
RlcAmStatus.v
RlcAm.v
RlcAmRxInv.v
RlcAmRxSpec.v
RlcAmWire.v
RlcAmTransfer.v
RlcAmStatusBits.v
RlcAmMissing.v
RlcAmStatusSpec.v
RlcAmTxInv.v
RlcAmTxOps.v
RlcAmSafe.v
RlcAmLimits.v
RlcUm.v
RlcUmSpec.v
RlcUmLinkRx.v
RlcUmLinkTx.v
RlcUmLink.v
RlcTm.v
PdcpSdu.v
PdcpEntity.v
PdcpRx.v
PdcpRoundtrip.v
PdcpControl.v
Sdap.v
SdapSpec.v
SdapList.v
Gf2.v
CrcSimd.v
Crc.v
CrcSpec.v
CrcSimdSpec.v
CrcCheck.v
Snow3g.v
Snow3gSpec.v
Snow3gMac.v
Secu.v
Tbs.v
Segmentation.v
SegmentationSpec.v
TbsSpec.v
RateMatch.v
RateMatchSpec.v
RateMatchPath.v
LdpcSegment.v
Gold.v
Scrambling.v
LdpcSegmentSpec.v
Ulsch.v
UlschSpec.v
Uplink.v
Dlsch.v
Downlink.v
DataQueue.v
DataQueueSpec.v
HashTable.v
F1Ids.v
PdcpUe.v
PdcpUeSpec.v
PdcpLayer.v
RlcConfig.v
RlcAny.v
RlcUe.v
RlcUeSpec.v
RlcLayer.v
RlcLayerSafe.v
RlcLayerLimits.v
RlcPath.v
Stack.v
