(* ===== verification/Prelude.v ===== *)
(** * The NR user plane of OpenAirInterface: SDAP, PDCP, RLC, their security
      algorithms and the coding of the shared channels

    ** The program

    OpenAirInterface is a 5G (and LTE) base station and terminal. A packet of
    the core network or of the terminal's network stack goes down through
      - SDAP (src/openair2/SDAP/nr_sdap): QoS flow to radio bearer, SDAP header;
      - the PDCP layer (src/openair2/LAYER2/nr_pdcp): the bearer of the UE is
        looked up, its entity numbers, ciphers and protects the SDU;
      - a queue served by a thread of its own (nr_pdcp_oai_api.c), so that the
        caller never waits for RLC;
      - the RLC layer (src/openair2/LAYER2/nr_rlc): the bearer is looked up, its
        entity (acknowledged, unacknowledged or transparent mode) buffers the
        SDU, and cuts it into PDUs when the MAC scheduler asks for some;
      - the MAC, which makes transport blocks of the PDUs;
      - the physical layer (src/openair1/PHY): the size of a transport block is
        computed from its grant, the block gets a CRC, is cut into segments with
        CRCs of their own, which are LDPC-coded, rate-matched and interleaved by
        tasks of a thread pool; the receiver reverses all this on soft bits;
    and up the same way on the other side. RRC creates, reconfigures, suspends
    and removes bearers in all three layers; a timer thread gives each layer its
    millisecond tick.

    ** Files and what they model

    Shared:
      - Prelude: outcomes of C code ([Ret], [Exit], [Undef], [Diverge]) and
        [returns], total correctness; integer widths; record update; list and
        bit lemmas; the hint databases and tactics.

    RLC entities (src/openair2/LAYER2/nr_rlc):
      - RlcPdu: nr_rlc_pdu.c, the bit encoder and decoder and the list of
        received PDUs. RlcSdu: nr_rlc_sdu.c, segments that share an SDU through
        a reference count, in a store of addresses.
      - RlcEntity: nr_rlc_entity.h, what the modes share; the calls of the upper
        layers' callbacks are recorded in [events]; sequence-number arithmetic.
        RlcRxList: the walks over the received PDUs of an SN.
      - RlcAmState, RlcAmRx, RlcAmControl, RlcAmTx, RlcAmStatus, RlcAm:
        nr_rlc_entity_am.c, one function of the source a definition, the whole
        entity as the step function [am_step]. RlcAmRxInv, RlcAmRxSpec, RlcAmWire,
        RlcAmTransfer: the receiver against a sender of segments.
        RlcAmStatusBits, RlcAmMissing, RlcAmStatusSpec: STATUS PDUs. RlcAmTxInv,
        RlcAmTxOps, RlcAmSafe: the transmitter and
        the memory safety of the whole. RlcAmLimits: runs outside that contract.
      - RlcUm, RlcUmSpec, RlcUmLinkRx, RlcUmLinkTx, RlcUmLink: nr_rlc_entity_um.c,
        and a sender and a receiver joined by a link that loses nothing.
      - RlcTm: nr_rlc_entity_tm.c.
      - TimeStat: src/common/utils/time_stat.c, the sliding-window
        average the entities keep of their waiting times.

    RLC layer (src/openair2/LAYER2/nr_rlc):
      - RlcConfig: asn1_utils.c and the parts of the RRC messages RLC reads.
        RlcAny: an entity of any mode behind its function pointers.
      - RlcUe: nr_rlc_ue_manager.c and nr_rlc_oai_api.c, the table of UEs and
        bearers, every call into the layer and the callbacks. RlcUeSpec, RlcLayer,
        RlcLayerSafe: its invariants; RlcLayerLimits: where it fails its callers.

    Tables of identities:
      - HashTable: src/common/utils/hashtable/hashtable.c.
      - F1Ids: src/openair2/F1AP/f1ap_ids.c, over the hash table; they answer the
        lookups PDCP and RLC make for the other end of F1.

    PDCP (src/openair2/LAYER2/nr_pdcp):
      - PdcpSdu, PdcpEntity: nr_pdcp_sdu.c and nr_pdcp_entity.c with the wrappers of
        the ciphers. PdcpRx, PdcpRoundtrip, PdcpControl: its reception order, its
        round trip, suspension and re-establishment.
      - PdcpUe, PdcpUeSpec, PdcpLayer: nr_pdcp_ue_manager.c, nr_pdcp_oai_api.c,
        asn1_utils.c and the timer thread: the table of UEs and bearers, every
        call into the layer, the callbacks to SDAP, RLC, F1 and RRC.
      - DataQueue, DataQueueSpec: the two queues to and from RLC with their
        threads, mutex and condition variable, as interleaved steps.

    SDAP (src/openair2/SDAP/nr_sdap): Sdap, SdapSpec, SdapList.

    Security algorithms (src/openair3/SECU):
      - Snow3g: snow3g.c, the cipher SNOW 3G with its lookup tables and the
        algorithms UEA2 and UIA2 over it. Snow3gSpec, Snow3gMac: the reference
        algorithms, from the polynomials of the standard, and the equivalence of
        the tables, the generator and the MAC.
      - Secu: secu_defs.c, the nas_stream_ files and the wrappers of AES. OpenSSL is
        a parameter: functions with the laws of the class [openssl_laws]. The
        whole is an instance of [crypto_laws], the class of what PdcpEntity expects
        of its ciphers and MAC functions.

    Composition: RlcPath, the class [carrier] of what PDCP expects of the layers
    below, and the RLC layers of two nodes with an unacknowledged-mode bearer as an
    instance of it; Stack, the path from SDAP on one node to SDAP on the other,
    over any carrier.

    Physical layer (src/openair1/PHY/CODING): Gf2, polynomials over the two-element
    field; CrcSimd, Crc: crc.h, crcext.h and crc_byte.c; CrcSpec,
    CrcSimdSpec, CrcCheck: every implementation against the polynomial remainder.

    Coding of the shared channel (src/openair1/PHY, src/openair2/LAYER2/NR_MAC_COMMON):
      - Arrays: reads and writes of single elements.
      - Tbs, TbsSpec: nr_compute_tbs_common.c, nr_tbs_tools.c and the helpers of
        nr_common.h, nr_mac_common.c and defs_gNB.h: transport block sizes, base
        graphs, shares of the coded bits. Floating-point values are rounded as the
        source's types do.
      - Segmentation, SegmentationSpec: nr_segmentation.c.
      - RateMatch, RateMatchSpec, RateMatchPath: nr_rate_matching.c, bit selection
        from the circular buffer, interleaving, and both back on soft values.
      - LdpcSegment, LdpcSegmentSpec: nrLDPC_coding_segment_encoder.c and
        nrLDPC_coding_segment_decoder.c. The LDPC library is loaded at run time and
        is a parameter: two functions with the laws of the class [ldpc_codec] (the
        sizes of what they return, and that the decoder finds the code block when
        the signs of its soft input are those of the code word and the CRC the
        decoder is told to check holds). The order in which the pool runs the tasks
        is an arbitrary permutation.
      - Ulsch, UlschSpec, Uplink: nr_ulsch_coding.c in the UE, nr_ulsch_decoding.c in
        the gNB and its verdict on the block in phy_procedures_nr_gNB.c, and the two
        joined.
      - Dlsch, Downlink: nr_dlsch_coding.c in the gNB, the HARQ processes of the UE
        (harq_nr.c, fapi_nr_ue_l1.c, nr_init_ue.c) and nr_dlsch_decoding.c in the UE,
        and the two joined.
      - Gold: [lte_gold_generic] of transport_proto.h, the generator of the
        pseudo-random sequences, and the cache each thread keeps of them (refsig.c),
        as the memory it allocates. Scrambling: nr_scrambling.c and
        scrambling_luts.c, over that cache.

    ** State and operations

    A structure is a record with the fields of the source; its pointers are
    addresses into a store where sharing or freeing matters (the SDUs of RLC, the
    entities of the PDCP and RLC layers) and values elsewhere. An operation is a
    function from the state to an [outcome] of the new state: [Exit] where the
    source calls exit or an assertion fails, [Undef] where C leaves the behaviour
    undefined (a NULL pointer, an index outside an object, a freed object). Calls
    that leave the modelled part are recorded, in order. Integers are [Z] with the
    masks and wrap-around of the source written out. A call into a layer holds the
    layer's lock, and is one step; the threads of the queues are interleaved.

    ** What the theorems show

      - The acknowledged-mode entity goes through every sequence of calls without
        undefined behaviour, whatever STATUS PDUs the peer sends, but for one call
        that is exactly described, a poll timer that expires with nothing waiting,
        and a clash of sequence numbers that takes as many requests as there are
        numbers ([am_entity_safe]); its receiver accepts
        segments in any order and number, delivers an SDU once and unchanged
        ([am_segment_transfer], [am_no_duplicate], [am_receiver_safe]); a STATUS
        report names all that is missing and fits the grant ([am_status_sound],
        [am_status_size_exact]).
      - Unacknowledged and transparent mode: round trip, reassembly, delivery of
        everything once and in order over a link that loses nothing
        ([um_link_delivers]), refinement of a bounded queue ([tm_refines_fifo]).
      - PDCP hands up exactly the SDUs it took below RX_DELIV, in order of COUNT
        ([pdcp_in_order_delivery]), and a session of
        SDUs arrives as sent ([pdcp_session_delivers]). The table of UEs is well
        formed after every sequence of calls and leaks no entity
        ([pdcp_layer_sound]).
      - The queues keep the order and lose no wake-up ([data_queue_fifo],
        [data_queue_drains]).
      - SDAP's list of entities refines a finite map over every sequence of calls,
        and is undefined exactly at the calls stated ([sdap_list_refines_map]); headers and the reflective
        mapping do what 37.324 says on the paths stated.
      - The whole stack delivers: [stack_delivers].
      - The CRC functions compute the remainder of the standard on every path and
        detect every error burst that is not longer than the CRC.
      - The table of UEs of the RLC layer is well formed after every sequence of
        calls and leaks no entity ([rlc_layer_sound]); with acknowledged-mode bearers
        the calls at which the layer can run into undefined behaviour are named, and
        there are no others ([rlc_layer_safe]).
      - The hash table and the F1 tables over it refine finite maps
        ([hashtable_refines_map], [f1_ids_refine_maps]).
      - Every transport block size splits into segments of whole bytes
        ([tbs_whole_segments]), segmentation loses nothing and takes the smallest
        lifting size that fits ([segmentation_roundtrip]), the shares of the coded
        bits add up ([shares_add_up]), rate matching and interleaving bring every
        soft value to its own bit as often as it was sent ([rate_matching_path]), and
        the blocks that UEs encode come out of the gNB's decoder unchanged
        ([uplink_delivers]; for new data, one ULSCH per UE, right-signed soft bits and
        no soft values left behind a limited circular buffer, which the clearing does
        not reach, [stale_soft_bits]). The blocks of a slot that a gNB encodes come
        out unchanged at the UEs, which take all but a block of zeros
        ([downlink_delivers]; for new data, one codeword per UE and right-signed soft
        bits). The cache of pseudo-random sequences answers every call as the
        generator would ([gold_cache_transparent]), with the sequence of 38.211 for
        every key of 31 bits, and unscrambling restores what was scrambled
        ([scrambling_roundtrip]).
      - SNOW 3G as coded is UEA2 and UIA2 of the standard ([snow3g_is_uea2],
        [snow3g_is_uia2]), and what the PDCP entity calls is the algorithm its
        theorems assume ([security_refines_spec]).
      - Where the code does something its comments or the standard do not mean, a
        theorem exhibits it (the last properties of the list), for every state in
        which it happens where that could be said.

    ** Bounds of the modelled loops

    A loop that the source ends by a condition is a fixpoint with a bound that
    cannot be reached: walks over lists have the length of the list
    ([skip_delivered], [free_delivered_head], [remove_old] the size of the ring,
    the status loop one more than the list, [process_nack] the two cursors' lists
    and one more); the passes over a STATUS PDU have the number of its bytes, as
    every NACK takes at least one; the CRC loops have 256 entries and the length
    of the data; the rounds of rate matching around the circular buffer are bounded
    by the number of bits, as every round takes at least one; the walk over the cache
    of sequences by the size of its table. [Diverge], the outcome of a bound that is
    reached, is excluded by every theorem that says [returns]. The drain of a queue takes at most 51 steps
    for an item and 11 more.

    ** Not modelled, and why

    AES-128 is OpenSSL's, a parameter with the laws the round trip needs; the
    derivation of keys calls its HMAC and is left out. MAC scheduling, RRC, F1AP, E1AP, NGAP and X2AP work on
    structures the build generates from ASN.1. Of the physical layer, the LDPC
    library (generated tables and vector code, chosen at run time), the vector variants of the interleaver, the flag that aborts a
    decoding, and modulation, channel estimation and transforms are left out.
    Sockets, tunnel interfaces, logging, time measurements and thread creation are
    calls into the operating system.
*)

From stdpp Require Import base tactics list numbers gmap.
From Stdlib Require Import ZArith Lia Sorted Permutation.

#[global] Open Scope Z_scope.

(** ** Outcomes of C code

    A C function either returns ([Ret]), stops the process on purpose
    ([Exit]: [exit(1)], [AssertFatal], [DevAssert]) or runs into behaviour the
    C standard leaves undefined ([Undef]: NULL dereference, use after free,
    access outside an object). [Diverge] is the bound of a modelled loop
    running out: the theorems that give a result exclude it. *)
Inductive outcome (A : Type) : Type :=
| Ret (a : A)
| Exit
| Undef
| Diverge.
Arguments Ret {A} a.
Arguments Exit {A}.
Arguments Undef {A}.
Arguments Diverge {A}.

#[global] Instance outcome_ret : MRet outcome := @Ret.
#[global] Instance outcome_bind : MBind outcome :=
  fun A B k c => match c with
    | Ret a => k a | Exit => Exit | Undef => Undef | Diverge => Diverge end.
#[global] Instance outcome_fmap : FMap outcome :=
  fun A B f c => match c with
    | Ret a => Ret (f a) | Exit => Exit | Undef => Undef | Diverge => Diverge end.

Lemma bind_Ret_inv {A B} (c : outcome A) (k : A -> outcome B) (b : B) :
  c ≫= k = Ret b -> exists a, c = Ret a /\ k a = Ret b.
Proof. destruct c; cbn; [eauto | discriminate ..]. Qed.

Lemma bind_Ret_l {A B} (a : A) (k : A -> outcome B) : Ret a ≫= k = k a.
Proof. reflexivity. Qed.

Lemma bind_bind {A B C} (c : outcome A) (k : A -> outcome B) (k' : B -> outcome C) :
  (c ≫= k) ≫= k' = c ≫= (fun a => k a ≫= k').
Proof. by destruct c. Qed.

(** [inv_bind H] opens every bind of [H : ... = Ret _]. *)
Ltac inv_bind H :=
  let a := fresh "v" in let Ha := fresh "Hv" in
  match type of H with
  | (_ ≫= _) = Ret _ => apply bind_Ret_inv in H; destruct H as (a & Ha & H)
  end.

(** ** Total correctness

    [returns c Q]: [c] returns, with a value that satisfies [Q]; no exit, no
    undefined behaviour, no loop bound reached. *)
Definition returns {A} (c : outcome A) (Q : A -> Prop) : Prop := exists a, c = Ret a /\ Q a.

Lemma returns_Ret {A} (a : A) (Q : A -> Prop) : Q a -> returns (Ret a) Q.
Proof. intros H. by exists a. Qed.

Lemma returns_bind {A B} (c : outcome A) (k : A -> outcome B) (Q : B -> Prop) :
  returns c (fun a => returns (k a) Q) -> returns (c ≫= k) Q.
Proof. by intros (a & -> & H). Qed.

Lemma returns_mono {A} (c : outcome A) (P Q : A -> Prop) :
  returns c P -> (forall a, P a -> Q a) -> returns c Q.
Proof. intros (a & -> & H) HQ. exists a. auto. Qed.

Lemma returns_seq {A B} (c : outcome A) (k : A -> outcome B) (P : A -> Prop) (Q : B -> Prop) :
  returns c P -> (forall a, P a -> returns (k a) Q) -> returns (c ≫= k) Q.
Proof. intros Hc Hk. apply returns_bind. eapply returns_mono; eauto. Qed.

Lemma returns_and {A} (c : outcome A) (P Q : A -> Prop) :
  returns c P -> (forall a, c = Ret a -> Q a) -> returns c (fun a => P a /\ Q a).
Proof. intros (a & Ha & HP) HQ. exists a. auto. Qed.

Lemma returns_Ret_inv {A} (c : outcome A) (a : A) (Q : A -> Prop) :
  c = Ret a -> returns c Q -> Q a.
Proof. intros -> (b & [= ->] & H). done. Qed.

(** the value of a computation that returns; the type says that it does *)
Definition the {A} (c : outcome A) : match c with Ret _ => A | _ => unit end :=
  match c with Ret a => a | _ => tt end.

Definition is_ret {A} (c : outcome A) : bool := match c with Ret _ => true | _ => false end.

(** ** Functional record update

    [r <| f := v |>] is the record [r] with field [f] set to [v], and
    [r <| f ::= g |>] the one with [g] applied to the field. A record type
    declares its eta-expansion once ([Eta]); the setter of a field is built
    from it when it is used. *)
Class Eta (R : Type) := eta : R -> R.
Class Setter {R T : Type} (proj : R -> T) := set : (T -> T) -> R -> R.
Arguments set {R T} proj {_} _ _.

Ltac build_setter :=
  lazymatch goal with
  | |- @Setter ?R ?T ?p =>
      let inst := constr:(_ : Eta R) in
      let body := eval hnf in (@eta R inst) in
      exact (fun (f : T -> T) (r : R) =>
        ltac:(let t := eval cbv beta in (body r) in
              let t' := eval pattern (p r) in t in
              lazymatch t' with
              | ?F _ => let u := eval cbv beta in (F (f (p r))) in exact u
              end))
  end.
#[global] Hint Extern 1 (Setter _) => build_setter : typeclass_instances.

#[warnings="-postfix-notation-not-level-1"]
Notation "r <| f := v |>" := (set f (fun _ => v) r)
  (at level 12, left associativity, f at level 11, v at level 200,
   format "r  <| f  :=  v |>").
#[warnings="-postfix-notation-not-level-1"]
Notation "r <| f ::= g |>" := (set f g r)
  (at level 12, left associativity, f at level 11, g at level 200,
   format "r  <| f  ::=  g |>").

(** ** Machine integers

    [int] values are kept as [Z]; where the source computes in an unsigned
    type the wrap-around is written out. [%] is C's remainder. *)
Definition u8 (x : Z) : Z := x mod 256.
Definition u32 (x : Z) : Z := x mod 2 ^ 32.
Definition u64 (x : Z) : Z := x mod 2 ^ 64.
Notation "x %% y" := (Z.rem x y) (at level 40, left associativity) : Z_scope.

Lemma u32_range x : 0 <= u32 x < 2 ^ 32.
Proof. apply Z.mod_pos_bound. lia. Qed.

Lemma u32_small x : 0 <= x < 2 ^ 32 -> u32 x = x.
Proof. apply Z.mod_small. Qed.

Lemma u64_range x : 0 <= u64 x < 2 ^ 64.
Proof. apply Z.mod_pos_bound. lia. Qed.

Lemma u64_small x : 0 <= x < 2 ^ 64 -> u64 x = x.
Proof. apply Z.mod_small. Qed.

Lemma rem_mod a b : 0 <= a -> 0 < b -> a %% b = a mod b.
Proof. intros. apply Z.rem_mod_nonneg; lia. Qed.

Lemma rem_range a b : 0 <= a -> 0 < b -> 0 <= a %% b < b.
Proof. intros. apply Z.rem_bound_pos; lia. Qed.

Lemma rem_small a b : 0 <= a < b -> a %% b = a.
Proof. intros. apply Z.rem_small; lia. Qed.

(** successor of a sequence number *)
Lemma rem_succ a b : 0 <= a < b -> (a + 1) %% b = if a + 1 =? b then 0 else a + 1.
Proof.
  intros. destruct (Z.eqb_spec (a + 1) b) as [->|].
  - by rewrite Z.rem_same by lia.
  - apply Z.rem_small. lia.
Qed.

(** slots of entries less than a lap apart differ *)
Lemma mod_window_inj M t a b :
  0 < M -> 0 <= a < M -> 0 <= b < M -> (t + a) mod M = (t + b) mod M -> a = b.
Proof.
  intros HM Ha Hb H. pose proof (Z.div_mod (t + a) M ltac:(lia)) as H1.
  pose proof (Z.div_mod (t + b) M ltac:(lia)) as H2.
  rewrite H in H1. generalize dependent ((t + a) / M). generalize dependent ((t + b) / M).
  intros x H2 y H1. assert (a - b = M * (y - x)) by lia. assert (y - x = 0) by nia. lia.
Qed.

(** ** Byte buffers

    A buffer is the list of its bytes, each in [0, 256). Reading or writing
    outside it is undefined. *)
Definition zlen {A} (l : list A) : Z := Z.of_nat (length l).

Definition rd (b : list Z) (i : Z) : outcome Z :=
  if (i <? 0) then Undef
  else match b !! Z.to_nat i with Some x => Ret x | None => Undef end.

Definition wr (b : list Z) (i : Z) (v : Z) : outcome (list Z) :=
  if (0 <=? i) && (i <? zlen b) then Ret (<[Z.to_nat i := v]> b) else Undef.

(** [memcpy] source: [n] bytes of [b] from offset [off] *)
Definition mem_read (b : list Z) (off n : Z) : outcome (list Z) :=
  if (0 <=? off) && (0 <=? n) && (off + n <=? zlen b)
  then Ret (take (Z.to_nat n) (drop (Z.to_nat off) b)) else Undef.

(** [memcpy] destination: overwrite [b] from offset [off] with [src] *)
Definition mem_write (b : list Z) (off : Z) (src : list Z) : outcome (list Z) :=
  if (0 <=? off) && (off + zlen src <=? zlen b)
  then Ret (take (Z.to_nat off) b ++ src ++ drop (Z.to_nat off + length src) b)
  else Undef.

Definition byte_ok (x : Z) : Prop := 0 <= x < 256.

Lemma zlen_nonneg {A} (l : list A) : 0 <= zlen l.
Proof. unfold zlen. lia. Qed.

Lemma zlen_nil {A} : zlen (@nil A) = 0.
Proof. reflexivity. Qed.

Lemma zlen_cons {A} (x : A) l : zlen (x :: l) = 1 + zlen l.
Proof. unfold zlen. simpl. lia. Qed.

Lemma zlen_app {A} (l1 l2 : list A) : zlen (l1 ++ l2) = zlen l1 + zlen l2.
Proof. unfold zlen. rewrite length_app. lia. Qed.

Lemma zlen_take {A} n (l : list A) : zlen (take n l) = Z.min (Z.of_nat n) (zlen l).
Proof. unfold zlen. rewrite length_take. lia. Qed.

Lemma zlen_drop {A} n (l : list A) : zlen (drop n l) = Z.max 0 (zlen l - Z.of_nat n).
Proof. unfold zlen. rewrite length_drop. lia. Qed.

Lemma rd_0 x l : rd (x :: l) 0 = Ret x.
Proof. reflexivity. Qed.

Lemma mem_read_ok b off n :
  0 <= off -> 0 <= n -> off + n <= zlen b ->
  mem_read b off n = Ret (take (Z.to_nat n) (drop (Z.to_nat off) b)).
Proof.
  intros. unfold mem_read.
  by rewrite (proj2 (Z.leb_le 0 off)), (proj2 (Z.leb_le 0 n)),
     (proj2 (Z.leb_le (off + n) (zlen b))) by lia.
Qed.

Lemma mem_read_inv b off n s :
  mem_read b off n = Ret s ->
  0 <= off /\ 0 <= n /\ off + n <= zlen b /\
  s = take (Z.to_nat n) (drop (Z.to_nat off) b) /\ zlen s = n.
Proof.
  unfold mem_read. destruct (_ && _) eqn:E; [|discriminate]. intros [= <-].
  rewrite !andb_true_iff, !Z.leb_le in E.
  rewrite zlen_take, zlen_drop. repeat split; lia.
Qed.

Lemma mem_write_ok b off src :
  0 <= off -> off + zlen src <= zlen b ->
  mem_write b off src
  = Ret (take (Z.to_nat off) b ++ src ++ drop (Z.to_nat off + length src) b).
Proof.
  intros. unfold mem_write.
  by rewrite (proj2 (Z.leb_le 0 off)), (proj2 (Z.leb_le (off + zlen src) _)) by lia.
Qed.

Lemma to_nat_zlen {A} (l : list A) : Z.to_nat (zlen l) = length l.
Proof. unfold zlen. lia. Qed.

(** a buffer seen as consecutive regions *)
Lemma mem_read_mid a b c off n :
  off = zlen a -> n = zlen b -> mem_read (a ++ b ++ c) off n = Ret b.
Proof.
  intros -> ->. pose proof (zlen_nonneg a). pose proof (zlen_nonneg b). pose proof (zlen_nonneg c).
  rewrite mem_read_ok by (rewrite ?zlen_app; lia).
  rewrite !to_nat_zlen, drop_app_length. by rewrite take_app_length.
Qed.

Lemma mem_read_suffix a b off n : off = zlen a -> n = zlen b -> mem_read (a ++ b) off n = Ret b.
Proof. intros. rewrite <- (app_nil_r b) at 1. by apply mem_read_mid. Qed.

Lemma mem_read_prefix a b n : n = zlen a -> mem_read (a ++ b) 0 n = Ret a.
Proof. intros. by apply (mem_read_mid [] a b). Qed.

Lemma mem_write_suffix a b b' off :
  off = zlen a -> zlen b' = zlen b -> mem_write (a ++ b) off b' = Ret (a ++ b').
Proof.
  intros -> Hb. pose proof (zlen_nonneg a). pose proof (zlen_nonneg b).
  rewrite mem_write_ok by (rewrite ?zlen_app; lia).
  rewrite to_nat_zlen, take_app_length, drop_ge, app_nil_r; [done|].
  unfold zlen in Hb. rewrite length_app. lia.
Qed.

(** ** Automation *)

(** boolean comparisons of the code as propositions *)
Ltac bool_prop :=
  repeat match goal with
  | H : _ && _ = true |- _ => apply andb_true_iff in H; destruct H
  | H : _ || _ = false |- _ => apply orb_false_iff in H; destruct H
  | H : negb _ = true |- _ => apply negb_true_iff in H
  | H : negb _ = false |- _ => apply negb_false_iff in H
  | H : (_ <? _) = true |- _ => apply Z.ltb_lt in H
  | H : (_ <? _) = false |- _ => apply Z.ltb_ge in H
  | H : (_ <=? _) = true |- _ => apply Z.leb_le in H
  | H : (_ <=? _) = false |- _ => apply Z.leb_gt in H
  | H : (_ >? _) = true |- _ => apply Z.gtb_lt in H
  | H : (_ >=? _) = true |- _ => apply Z.geb_le in H
  | H : (_ =? _) = true |- _ => apply Z.eqb_eq in H
  | H : (_ =? _) = false |- _ => apply Z.eqb_neq in H
  end.

Lemma Forall_weaken {A} (P Q : A -> Prop) l :
  (forall x, P x -> Q x) -> Forall P l -> Forall Q l.
Proof. induction 2; constructor; auto. Qed.

(** sum of a measure over a list *)
Fixpoint sumZ {A} (f : A -> Z) (l : list A) : Z :=
  match l with
  | [] => 0
  | x :: l => f x + sumZ f l
  end.

Lemma sumZ_app {A} (f : A -> Z) l1 l2 : sumZ f (l1 ++ l2) = sumZ f l1 + sumZ f l2.
Proof. induction l1 as [|x l1 IH]; simpl; [done | rewrite IH; lia]. Qed.

Lemma sumZ_nonneg {A} (f : A -> Z) l : Forall (fun x => 0 <= f x) l -> 0 <= sumZ f l.
Proof. induction 1; simpl; lia. Qed.

Lemma sumZ_perm {A} (f : A -> Z) l1 l2 : l1 ≡ₚ l2 -> sumZ f l1 = sumZ f l2.
Proof. induction 1; simpl; lia. Qed.

Lemma sumZ_ext {A} (f g : A -> Z) l :
  Forall (fun x => f x = g x) l -> sumZ f l = sumZ g l.
Proof. induction 1; simpl; lia. Qed.

#[global] Instance sumZ_Proper {A} (f : A -> Z) : Proper ((≡ₚ) ==> (=)) (sumZ f).
Proof. intros l1 l2. apply sumZ_perm. Qed.

Lemma sumZ_insert {A} (f : A -> Z) l i x y :
  l !! i = Some y -> sumZ f (<[i := x]> l) = sumZ f l - f y + f x.
Proof.
  revert i. induction l as [|z l IH]; intros [|i] H; simplify_eq/=; [lia|]. rewrite (IH i) by done. lia.
Qed.

Lemma sumZ_lookup_le {A} (f : A -> Z) l i y : (forall x, 0 <= f x) -> l !! i = Some y -> f y <= sumZ f l.
Proof.
  intros Hf. revert i. induction l as [|z l IH]; intros [|i] H; simplify_eq/=.
  - pose proof (sumZ_nonneg f l (proj2 (list.Forall_forall _ _) (fun x _ => Hf x))). lia.
  - specialize (IH i H). specialize (Hf z). lia.
Qed.

(** replacing an element of a list that is mapped and filtered *)
Lemma omap_insert {B C} (f : B -> option C) l i x y : l !! i = Some x ->
  option_list (f x) ++ omap f (<[i := y]> l) ≡ₚ option_list (f y) ++ omap f l.
Proof.
  intros H. rewrite insert_take_drop by (by eapply lookup_lt_Some). rewrite <- (take_drop_middle l i x H) at 3.
  rewrite !omap_app. simpl. destruct (f x), (f y); simpl; solve_Permutation.
Qed.

(** ** Insertion before the first element that passes a test

    The shape of the sorted insertions of the layer-2 lists. *)
Fixpoint insert_before {A} (test : A -> bool) (x : A) (l : list A) : list A :=
  match l with
  | [] => [x]
  | cur :: next => if test cur then x :: cur :: next
                   else cur :: insert_before test x next
  end.

Lemma insert_before_perm {A} (test : A -> bool) x l : insert_before test x l ≡ₚ x :: l.
Proof.
  induction l as [|y l IH]; simpl; [done|]. destruct (test y); [done|].
  rewrite IH. apply Permutation_swap.
Qed.

Lemma insert_before_sorted {A} (R : A -> A -> Prop) (test : A -> bool) x l :
  (forall y, y ∈ l -> test y = true -> R x y) ->
  (forall y, y ∈ l -> test y = false -> R y x) ->
  (forall y z, R x y -> R y z -> R x z) ->
  StronglySorted R l -> StronglySorted R (insert_before test x l).
Proof.
  intros Ht Hf Htr. induction 1 as [|y l Hs IH Hall]; simpl.
  { constructor; constructor. }
  destruct (test y) eqn:E.
  - assert (R x y) by (apply Ht; [left|done]).
    constructor; [by constructor|]. constructor; [done|].
    rewrite Forall_forall in *. eauto.
  - constructor.
    + apply IH; intros z Hz; [apply Ht|apply Hf]; by right.
    + rewrite insert_before_perm. constructor; [|done]. apply Hf; [left|done].
Qed.

Lemma insert_before_ext {A} (t1 t2 : A -> bool) x l :
  Forall (fun y => t1 y = t2 y) l -> insert_before t1 x l = insert_before t2 x l.
Proof.
  induction 1 as [|y l Hy _ IH]; simpl; [done|]. rewrite Hy. destruct (t2 y); congruence.
Qed.

Create HintDb rlc.
Create Rewrite HintDb rlc_len.
#[export] Hint Resolve zlen_nonneg u32_range u64_range rem_range : rlc.
#[export] Hint Rewrite @zlen_app @zlen_cons @zlen_nil @zlen_take @zlen_drop : rlc_len.
