(* ===== verification/Arrays.v ===== *)
(** Arrays whose elements are read and written one by one. *)

From stdpp Require Import base tactics list numbers.
From Stdlib Require Import ZArith Lia.
From S2P Require Import Prelude.

(** [b[i]] of an array that is long enough *)
Definition at_pos (b : list Z) (i : Z) : Z := b !!! Z.to_nat i.

Lemma rd_at b i : 0 <= i < zlen b -> rd b i = Ret (at_pos b i).
Proof.
  intros H. unfold rd, zlen, at_pos in *. rewrite (proj2 (Z.ltb_ge _ _)) by lia.
  destruct (lookup_lt_is_Some_2 b (Z.to_nat i)) as [x Hx]; [lia|]. rewrite Hx. by rewrite (list_lookup_total_correct _ _ _ Hx).
Qed.

Lemma wr_at b i v : 0 <= i < zlen b -> wr b i v = Ret (<[Z.to_nat i := v]> b).
Proof. intros H. unfold wr. by rewrite (proj2 (Z.leb_le _ _)), (proj2 (Z.ltb_lt _ _)) by lia. Qed.

Lemma at_pos_insert_eq b i v : 0 <= i < zlen b -> at_pos (<[Z.to_nat i := v]> b) i = v.
Proof. intros H. unfold at_pos, zlen in *. apply list_lookup_total_insert_eq. lia. Qed.

Lemma at_pos_insert_ne b i j v : 0 <= i -> 0 <= j -> i <> j -> at_pos (<[Z.to_nat i := v]> b) j = at_pos b j.
Proof. intros Hi Hj Hn. unfold at_pos. rewrite list_lookup_total_insert_ne; [done|lia]. Qed.

Lemma wr_next a x y r : wr (a ++ x :: r) (zlen a) y = Ret (a ++ y :: r).
Proof.
  pose proof (zlen_nonneg a). pose proof (zlen_nonneg r). rewrite wr_at by (rewrite zlen_app, zlen_cons; lia).
  unfold zlen. rewrite Nat2Z.id, insert_app_r_alt, Nat.sub_diag by lia. done.
Qed.

Lemma list_eq_at a b : zlen a = zlen b -> (forall i, 0 <= i < zlen a -> at_pos a i = at_pos b i) -> a = b.
Proof.
  unfold zlen, at_pos. intros Hl H. apply list_eq_same_length with (length a); [lia|done|]. intros i x y Hi Hx Hy.
  specialize (H (Z.of_nat i) ltac:(lia)). rewrite Nat2Z.id in H.
  by rewrite (list_lookup_total_correct _ _ _ Hx), (list_lookup_total_correct _ _ _ Hy) in H.
Qed.

(** a piece of an array *)
Lemma piece_at b off n : 0 <= off -> 0 <= n -> off + n <= zlen b ->
  take (Z.to_nat n) (drop (Z.to_nat off) b) = map (at_pos b) (seqZ off n).
Proof.
  intros Ho Hn Hl. unfold zlen in Hl. apply list_eq. intros i. destruct (decide (i < Z.to_nat n)%nat) as [Hi|Hi].
  - rewrite lookup_take_lt, lookup_drop by done. rewrite list_lookup_fmap, lookup_seqZ_lt by lia. simpl. unfold at_pos.
    destruct (lookup_lt_is_Some_2 b (Z.to_nat off + i)) as [x Hx]; [lia|]. rewrite Hx. symmetry. f_equal.
    apply list_lookup_total_correct. rewrite <- Hx. f_equal. lia.
  - rewrite lookup_take_ge, list_lookup_fmap, lookup_seqZ_ge by lia. done.
Qed.

(** [a] is written, the first element of [r] comes next *)
Lemma wr_step a r y : r <> [] -> wr (a ++ r) (zlen a) y = Ret (a ++ y :: drop 1 r).
Proof. destruct r as [|x r]; [done|]. intros _. apply wr_next. Qed.

Lemma wr_offset a r y i : i = zlen a -> r <> [] -> wr (a ++ r) i y = Ret ((a ++ [y]) ++ drop 1 r).
Proof. intros -> Hr. rewrite wr_step by done. by rewrite <- app_assoc. Qed.

Lemma zlen_snoc {A} (a : list A) x : zlen (a ++ [x]) = zlen a + 1.
Proof. rewrite zlen_app, zlen_cons, zlen_nil. lia. Qed.

Lemma zlen_pos_not_nil {A} (l : list A) : 0 < zlen l -> l <> [].
Proof. intros H ->. done. Qed.

Lemma take_lookup_step {A} (l : list A) i n x : l !! i = Some x -> take (S n) (drop i l) = x :: take n (drop (S i) l).
Proof. intros H. by rewrite (drop_S _ _ _ H). Qed.

Lemma zlen_replicate_Z {A} n (x : A) : 0 <= n -> zlen (replicate (Z.to_nat n) x) = n.
Proof. intros H. unfold zlen. rewrite length_replicate. lia. Qed.

(** ** Elements of pieces *)

Lemma at_pos_lookup b i x : 0 <= i -> b !! Z.to_nat i = Some x -> at_pos b i = x.
Proof. intros _ H. by apply list_lookup_total_correct. Qed.

Lemma at_pos_app a b i : 0 <= i -> at_pos (a ++ b) i = if i <? zlen a then at_pos a i else at_pos b (i - zlen a).
Proof.
  intros Hi. unfold at_pos, zlen. rewrite !list_lookup_total_alt. destruct (Z.ltb_spec i (Z.of_nat (length a))).
  - by rewrite lookup_app_l by lia.
  - rewrite lookup_app_r by lia. do 2 f_equal. lia.
Qed.

Lemma at_pos_drop b n i : 0 <= n -> 0 <= i -> at_pos (drop (Z.to_nat n) b) i = at_pos b (n + i).
Proof. intros Hn Hi. unfold at_pos. rewrite !list_lookup_total_alt, lookup_drop. do 2 f_equal. lia. Qed.

Lemma at_pos_take b n i : 0 <= i < n -> at_pos (take (Z.to_nat n) b) i = at_pos b i.
Proof. intros Hi. unfold at_pos. rewrite !list_lookup_total_alt, lookup_take_lt by lia. done. Qed.

Lemma at_pos_replicate n x i : 0 <= i < n -> at_pos (replicate (Z.to_nat n) x) i = x.
Proof. intros Hi. apply at_pos_lookup; [lia|]. apply lookup_replicate. lia. Qed.

Lemma at_pos_map (f : Z -> Z) b i : 0 <= i < zlen b -> at_pos (map f b) i = f (at_pos b i).
Proof.
  intros Hi. unfold at_pos, zlen in *. destruct (lookup_lt_is_Some_2 b (Z.to_nat i)) as [y Hy]; [lia|].
  rewrite (list_lookup_total_correct _ _ _ Hy). apply list_lookup_total_correct. by rewrite list_lookup_fmap, Hy.
Qed.

Lemma zlen_map {A B} (f : A -> B) l : zlen (map f l) = zlen l.
Proof. unfold zlen. by rewrite length_map. Qed.

Lemma mem_write_at b off src : 0 <= off -> off + zlen src <= zlen b ->
  exists b', mem_write b off src = Ret b' /\ zlen b' = zlen b /\
    forall i, 0 <= i -> at_pos b' i = if (off <=? i) && (i <? off + zlen src) then at_pos src (i - off) else at_pos b i.
Proof.
  intros Ho Hl. pose proof (zlen_nonneg src). rewrite mem_write_ok by lia. eexists. split; [done|].
  replace (Z.to_nat off + length src)%nat with (Z.to_nat (off + zlen src)) by (unfold zlen; lia). split.
  - rewrite !zlen_app, zlen_take, zlen_drop. lia.
  - intros i Hi. rewrite at_pos_app, zlen_take by done. rewrite Z2Nat.id, Z.min_l by lia. destruct (Z.ltb_spec i off).
    + rewrite (proj2 (Z.leb_gt off i)) by lia. cbn [andb]. by rewrite at_pos_take.
    + rewrite (proj2 (Z.leb_le off i)) by lia. cbn [andb]. rewrite at_pos_app by lia.
      destruct (Z.ltb_spec (i - off) (zlen src)), (Z.ltb_spec i (off + zlen src)); try lia.
      rewrite at_pos_drop by lia. f_equal. lia.
Qed.

Lemma mem_read_at b off n : 0 <= off -> 0 <= n -> off + n <= zlen b ->
  exists b', mem_read b off n = Ret b' /\ zlen b' = n /\ forall i, 0 <= i < n -> at_pos b' i = at_pos b (off + i).
Proof.
  intros Ho Hn Hl. rewrite mem_read_ok by lia. eexists. split; [done|]. split; [rewrite zlen_take, zlen_drop; lia|].
  intros i Hi. rewrite at_pos_take, at_pos_drop by lia. done.
Qed.
