(* ===== verification/RlcPdu.v ===== *)
(** Bit-level PDU encoder and decoder and the list of received PDUs:
    src/openair2/LAYER2/nr_rlc/nr_rlc_pdu.c and nr_rlc_pdu.h.

    The decoder walks a buffer bit by bit, most significant bit first; the
    encoder shifts bits into the current byte, so that the bits already
    written of an unfinished byte are its low bits. The theorems relate both
    to the bit string [bits_of_bytes] of a buffer. *)

From stdpp Require Import base tactics list numbers gmap.
From Stdlib Require Import ZArith Lia Sorted.
From S2P Require Import Prelude.

(** ** RX PDU management *)

Record nr_rlc_pdu_t := mk_pdu {
  pdu_sn : Z;
  pdu_data : option (list Z);   (** [None] is a NULL [data] pointer *)
  pdu_size : Z;
  pdu_so : Z;
  pdu_is_first : bool;
  pdu_is_last : bool
}.
#[export] Instance pdu_eta : Eta nr_rlc_pdu_t :=
  fun p => mk_pdu (pdu_sn p) (pdu_data p) (pdu_size p) (pdu_so p)
                  (pdu_is_first p) (pdu_is_last p).

(** [data] is the copied block, of [size] bytes *)
Definition nr_rlc_new_pdu (sn so : Z) (is_first is_last : bool)
    (data : list Z) (size : Z) : nr_rlc_pdu_t :=
  mk_pdu sn (Some data) size so is_first is_last.

(** [pdu] comes before [cur]: the test of the insertion loop *)
Definition pdu_before (sn_compare : Z -> Z -> Z) (cur pdu : nr_rlc_pdu_t) : bool :=
  (0 <? sn_compare (pdu_sn cur) (pdu_sn pdu))
  || ((pdu_sn cur =? pdu_sn pdu) && (pdu_so pdu <? pdu_so cur)).

Definition nr_rlc_pdu_list_add (sn_compare : Z -> Z -> Z)
    (l : list nr_rlc_pdu_t) (pdu : nr_rlc_pdu_t) : list nr_rlc_pdu_t :=
  insert_before (fun cur => pdu_before sn_compare cur pdu) pdu l.

(** ** PDU decoder *)

Record nr_rlc_pdu_decoder_t := mk_decoder {
  dec_error : bool;
  dec_byte : Z;
  dec_bit : Z;
  dec_buffer : list Z;
  dec_size : Z
}.
#[export] Instance decoder_eta : Eta nr_rlc_pdu_decoder_t :=
  fun d => mk_decoder (dec_error d) (dec_byte d) (dec_bit d) (dec_buffer d) (dec_size d).

Definition nr_rlc_pdu_decoder_init (buffer : list Z) (size : Z) : nr_rlc_pdu_decoder_t :=
  mk_decoder false 0 0 buffer size.

(** bytes are read through [char *]: a negative [char] has the same bits 0 to 7 *)
Definition get_bit (decoder : nr_rlc_pdu_decoder_t) : outcome (Z * nr_rlc_pdu_decoder_t) :=
  if dec_size decoder <=? dec_byte decoder then
    Ret (0, decoder <| dec_error := true |>)
  else
    b ← rd (dec_buffer decoder) (dec_byte decoder);
    let ret := Z.land (Z.shiftr b (7 - dec_bit decoder)) 1 in
    let decoder := decoder <| dec_bit ::= Z.add 1 |> in
    let decoder :=
      if dec_bit decoder =? 8
      then decoder <| dec_bit := 0 |> <| dec_byte ::= Z.add 1 |>
      else decoder in
    Ret (ret, decoder).

(** the loop of [nr_rlc_pdu_decoder_get_bits]: [n] iterations left *)
Fixpoint get_bits_loop (n : nat) (ret : Z) (decoder : nr_rlc_pdu_decoder_t)
    : outcome (Z * nr_rlc_pdu_decoder_t) :=
  match n with
  | O => Ret (ret, decoder)
  | S n =>
      '(b, decoder) ← get_bit decoder;
      let ret := Z.lor (Z.shiftl ret 1) b in
      if dec_error decoder then Ret (-1, decoder)
      else get_bits_loop n ret decoder
  end.

Definition nr_rlc_pdu_decoder_get_bits (decoder : nr_rlc_pdu_decoder_t) (count : Z)
    : outcome (Z * nr_rlc_pdu_decoder_t) :=
  if 31 <? count then Exit
  else get_bits_loop (Z.to_nat count) 0 decoder.

(** [v = get_bits(d, n); R(d);]: continue with [v], or [goto err] *)
Definition get_bits_R {A} (decoder : nr_rlc_pdu_decoder_t) (count : Z)
    (err : outcome A) (k : Z -> nr_rlc_pdu_decoder_t -> outcome A) : outcome A :=
  '(v, d) ← nr_rlc_pdu_decoder_get_bits decoder count;
  if dec_error d then err else k v d.

Notation "'bits' v , d <- d0 # n 'orelse' e ; k" :=
  (get_bits_R d0 n e (fun v d => k))
  (at level 100, v name, d name, d0 at level 99, n at level 99, e at level 99,
   k at level 200, right associativity).

(** ** PDU encoder *)

Record nr_rlc_pdu_encoder_t := mk_encoder {
  enc_byte : Z;
  enc_bit : Z;
  enc_buffer : list Z;
  enc_size : Z
}.
#[export] Instance encoder_eta : Eta nr_rlc_pdu_encoder_t :=
  fun e => mk_encoder (enc_byte e) (enc_bit e) (enc_buffer e) (enc_size e).

Definition nr_rlc_pdu_encoder_init (buffer : list Z) (size : Z) : nr_rlc_pdu_encoder_t :=
  mk_encoder 0 0 buffer size.

Definition put_bit (encoder : nr_rlc_pdu_encoder_t) (bit : bool)
    : outcome nr_rlc_pdu_encoder_t :=
  if enc_byte encoder =? enc_size encoder then Exit
  else
    b ← rd (enc_buffer encoder) (enc_byte encoder);
    let b := Z.land (Z.shiftl b 1) 255 in          (* unsigned char <<= 1 *)
    let b := if bit then Z.lor b 1 else b in
    buffer ← wr (enc_buffer encoder) (enc_byte encoder) b;
    let encoder := encoder <| enc_buffer := buffer |> <| enc_bit ::= Z.add 1 |> in
    Ret (if enc_bit encoder =? 8
         then encoder <| enc_bit := 0 |> <| enc_byte ::= Z.add 1 |>
         else encoder).

(** the loop of [nr_rlc_pdu_encoder_put_bits]: [n] bits left, [x] the mask of
    the next one *)
Fixpoint put_bits_loop (n : nat) (value x : Z) (encoder : nr_rlc_pdu_encoder_t)
    : outcome nr_rlc_pdu_encoder_t :=
  match n with
  | O => Ret encoder
  | S n =>
      encoder ← put_bit encoder (negb (Z.land value x =? 0));
      put_bits_loop n value (Z.shiftr x 1) encoder
  end.

Definition nr_rlc_pdu_encoder_put_bits (encoder : nr_rlc_pdu_encoder_t) (value count : Z)
    : outcome nr_rlc_pdu_encoder_t :=
  if 31 <? count then Exit
  else if count <? 1 then Undef                    (* 1 << (count - 1) *)
  else put_bits_loop (Z.to_nat count) value (Z.shiftl 1 (count - 1)) encoder.

(** ** The bit string of a buffer *)

Fixpoint bits_of_Z (n : nat) (v : Z) : list bool :=
  match n with
  | O => []
  | S n => Z.testbit v (Z.of_nat n) :: bits_of_Z n v
  end.

Definition bits_of_bytes (b : list Z) : list bool := b ≫= bits_of_Z 8.

Fixpoint bits_val (bs : list bool) : Z :=
  match bs with
  | [] => 0
  | b :: bs => Z.b2z b * 2 ^ zlen bs + bits_val bs
  end.

Lemma length_bits_of_Z n v : length (bits_of_Z n v) = n.
Proof. induction n; simpl; congruence. Qed.

Lemma length_bits_of_bytes b : length (bits_of_bytes b) = (8 * length b)%nat.
Proof.
  induction b as [|x b IH]; [done|].
  change (bits_of_bytes (x :: b)) with (bits_of_Z 8 x ++ bits_of_bytes b).
  rewrite length_app, length_bits_of_Z, IH. simpl. lia.
Qed.

Lemma bits_of_bytes_app b1 b2 :
  bits_of_bytes (b1 ++ b2) = bits_of_bytes b1 ++ bits_of_bytes b2.
Proof. apply bind_app. Qed.

Lemma mod_pow2_succ v n :
  0 <= n -> v mod 2 ^ (n + 1) = Z.b2z (Z.testbit v n) * 2 ^ n + v mod 2 ^ n.
Proof.
  intros Hn. rewrite Z.pow_add_r by lia. rewrite Z.rem_mul_r by lia.
  rewrite Z.testbit_spec' by lia. change (2 ^ 1) with 2. lia.
Qed.

Lemma bits_val_of_Z n v : bits_val (bits_of_Z n v) = v mod 2 ^ Z.of_nat n.
Proof.
  induction n as [|n IH]; simpl bits_val; [by rewrite Z.mod_1_r|].
  unfold zlen. rewrite length_bits_of_Z, IH.
  replace (Z.of_nat (S n)) with (Z.of_nat n + 1) by lia.
  rewrite mod_pow2_succ by lia. done.
Qed.

Lemma bits_val_bound bs : 0 <= bits_val bs < 2 ^ zlen bs.
Proof.
  induction bs as [|b bs IH]; simpl; [done|].
  rewrite zlen_cons. rewrite Z.pow_add_r by (auto with rlc; lia).
  destruct b; simpl Z.b2z; lia.
Qed.

Lemma bits_of_Z_lookup n v i :
  (i < n)%nat -> bits_of_Z n v !! i = Some (Z.testbit v (Z.of_nat (n - 1 - i))).
Proof.
  revert i. induction n as [|n IH]; intros i Hi; [lia|]. simpl.
  destruct i as [|i]; simpl.
  - do 3 f_equal. lia.
  - rewrite IH by lia. do 3 f_equal. lia.
Qed.

Lemma bits_of_bytes_lookup b i j x :
  b !! i = Some x -> (j < 8)%nat ->
  bits_of_bytes b !! (8 * i + j)%nat = Some (Z.testbit x (Z.of_nat (7 - j))).
Proof.
  revert i. induction b as [|y b IH]; intros i Hx Hj; [done|].
  change (bits_of_bytes (y :: b)) with (bits_of_Z 8 y ++ bits_of_bytes b).
  destruct i as [|i]; simpl in Hx.
  - injection Hx as ->. rewrite lookup_app_l by (rewrite length_bits_of_Z; lia).
    rewrite bits_of_Z_lookup by lia. do 2 f_equal.
  - rewrite lookup_app_r by (rewrite length_bits_of_Z; lia).
    rewrite length_bits_of_Z.
    replace (8 * S i + j - 8)%nat with (8 * i + j)%nat by lia. auto.
Qed.

(** ** Decoder specification *)

Ltac dec_simpl := cbv [set dec_error dec_byte dec_bit dec_buffer dec_size].

(** the decoder over the whole of [buf] after [pos] bits *)
Definition dec_at (buf : list Z) (pos : nat) : nr_rlc_pdu_decoder_t :=
  mk_decoder false (Z.of_nat (pos / 8)) (Z.of_nat (pos mod 8)) buf (zlen buf).

Lemma dec_at_0 buf : nr_rlc_pdu_decoder_init buf (zlen buf) = dec_at buf 0.
Proof. reflexivity. Qed.

Lemma dec_at_aligned buf n :
  dec_byte (dec_at buf (8 * n)) = Z.of_nat n.
Proof. unfold dec_at; cbn [dec_byte]. by rewrite Nat.mul_comm, Nat.div_mul. Qed.

Lemma pos_succ (pos : nat) :
  ((pos + 1) / 8 = if (pos mod 8 + 1 =? 8) then pos / 8 + 1 else pos / 8)%nat /\
  ((pos + 1) mod 8 = if (pos mod 8 + 1 =? 8) then 0 else pos mod 8 + 1)%nat.
Proof.
  pose proof (Nat.div_mod_eq pos 8). pose proof (Nat.mod_upper_bound pos 8).
  destruct (Nat.eqb_spec (pos mod 8 + 1) 8); split; symmetry.
  - apply (Nat.div_unique _ _ _ 0); lia.
  - apply (Nat.mod_unique _ _ (pos / 8 + 1)); lia.
  - apply (Nat.div_unique _ _ _ (pos mod 8 + 1)); lia.
  - apply (Nat.mod_unique _ _ (pos / 8)); lia.
Qed.

Lemma rd_ok b i x : b !! i = Some x -> rd b (Z.of_nat i) = Ret x.
Proof.
  intros H. unfold rd. rewrite (proj2 (Z.ltb_ge _ _)) by lia.
  by rewrite Nat2Z.id, H.
Qed.

Lemma land_1_b2z v i : 0 <= i -> Z.land (Z.shiftr v i) 1 = Z.b2z (Z.testbit v i).
Proof.
  intros. change 1 with (Z.ones 1). rewrite Z.land_ones by lia.
  rewrite Z.shiftr_div_pow2 by lia. by rewrite Z.testbit_spec' by lia.
Qed.

Lemma get_bit_spec buf pos :
  (pos < 8 * length buf)%nat ->
  exists b, bits_of_bytes buf !! pos = Some b /\
    get_bit (dec_at buf pos) = Ret (Z.b2z b, dec_at buf (pos + 1)).
Proof.
  intros Hpos.
  pose proof (Nat.div_mod_eq pos 8) as Hdm. pose proof (Nat.mod_upper_bound pos 8) as Hm.
  assert (pos / 8 < length buf)%nat as Hlt by lia.
  destruct (lookup_lt_is_Some_2 buf (pos / 8) Hlt) as [x Hx].
  exists (Z.testbit x (Z.of_nat (7 - pos mod 8))). split.
  { rewrite Hdm at 1. apply bits_of_bytes_lookup; [done|lia]. }
  unfold get_bit. cbn [dec_at dec_size dec_byte dec_buffer dec_bit].
  rewrite (proj2 (Z.leb_gt _ _)) by (unfold zlen; lia).
  rewrite (rd_ok _ _ _ Hx). cbn -[Z.of_nat Z.add Z.testbit Z.shiftr Z.land Z.sub Nat.div Nat.modulo].
  replace (7 - Z.of_nat (pos mod 8)) with (Z.of_nat (7 - pos mod 8)) by lia.
  rewrite land_1_b2z by lia. do 2 f_equal.
  destruct (pos_succ pos) as [Hd Hmd]. unfold dec_at. rewrite Hd, Hmd.
  destruct (Nat.eqb_spec (pos mod 8 + 1) 8).
  - rewrite (proj2 (Z.eqb_eq _ _)) by lia. dec_simpl. f_equal; lia.
  - rewrite (proj2 (Z.eqb_neq _ _)) by lia. dec_simpl. f_equal; lia.
Qed.

Lemma lor_shift_b2z acc b : Z.lor (Z.shiftl acc 1) (Z.b2z b) = 2 * acc + Z.b2z b.
Proof.
  rewrite Z.shiftl_mul_pow2, (Z.mul_comm acc) by lia. change (2 ^ 1) with 2.
  destruct b; cbn [Z.b2z]; [|rewrite Z.lor_0_r; lia].
  apply Z.bits_inj'. intros n Hn. rewrite Z.lor_spec.
  destruct (Z.eq_dec n 0) as [->|].
  - by rewrite Z.testbit_odd_0, Z.testbit_even_0.
  - replace n with (Z.succ (n - 1)) by lia.
    rewrite Z.testbit_odd_succ, Z.testbit_even_succ by lia.
    rewrite (Z.bits_above_log2 1) by (simpl; lia). apply orb_false_r.
Qed.

Lemma get_bits_loop_spec n buf pos acc :
  (pos + n <= 8 * length buf)%nat ->
  get_bits_loop n acc (dec_at buf pos)
  = Ret (acc * 2 ^ Z.of_nat n + bits_val (take n (drop pos (bits_of_bytes buf))),
         dec_at buf (pos + n)).
Proof.
  revert pos acc. induction n as [|n IH]; intros pos acc Hle.
  - simpl. rewrite Nat.add_0_r. do 2 f_equal. lia.
  - destruct (get_bit_spec buf pos ltac:(lia)) as (b & Hb & Hget).
    cbn [get_bits_loop]. rewrite Hget, bind_Ret_l, lor_shift_b2z.
    change (dec_error (dec_at buf (pos + 1))) with false. cbv iota beta.
    rewrite IH by lia. replace (pos + 1 + n)%nat with (pos + S n)%nat by lia.
    do 2 f_equal. rewrite (drop_S _ _ _ Hb). cbn [take bits_val].
    replace (S pos) with (pos + 1)%nat by lia.
    rewrite zlen_take, zlen_drop. unfold zlen. rewrite length_bits_of_bytes.
    replace (Z.min _ _) with (Z.of_nat n) by lia.
    replace (Z.of_nat (S n)) with (Z.of_nat n + 1) by lia.
    rewrite Z.pow_add_r by lia. change (2 ^ 1) with 2. lia.
Qed.

Lemma take_drop_middle_eq {A} (l1 l2 l3 : list A) n p :
  p = length l1 -> n = length l2 -> take n (drop p (l1 ++ l2 ++ l3)) = l2.
Proof. intros -> ->. by rewrite drop_app_length, take_app_length. Qed.

(** reading a field that is there *)
Lemma get_bits_field buf pre post n v pos :
  bits_of_bytes buf = pre ++ bits_of_Z n v ++ post ->
  pos = length pre -> (n <= 31)%nat -> 0 <= v < 2 ^ Z.of_nat n ->
  nr_rlc_pdu_decoder_get_bits (dec_at buf pos) (Z.of_nat n)
  = Ret (v, dec_at buf (pos + n)).
Proof.
  intros Hb -> Hn Hv. unfold nr_rlc_pdu_decoder_get_bits.
  rewrite (proj2 (Z.ltb_ge _ _)) by lia. rewrite Nat2Z.id.
  assert (length pre + n <= 8 * length buf)%nat.
  { rewrite <- length_bits_of_bytes, Hb, !length_app, length_bits_of_Z. lia. }
  rewrite get_bits_loop_spec by done. do 2 f_equal.
  rewrite Hb, take_drop_middle_eq by (done || by rewrite length_bits_of_Z).
  rewrite bits_val_of_Z, Z.mod_small; lia.
Qed.

(** reading past the end sets the error flag and nothing else goes wrong *)
Lemma get_bits_loop_error n buf pos acc :
  (pos <= 8 * length buf < pos + n)%nat ->
  exists d, get_bits_loop n acc (dec_at buf pos) = Ret (-1, d) /\ dec_error d = true.
Proof.
  revert pos acc. induction n as [|n IH]; intros pos acc Hle; [lia|].
  destruct (decide (pos = 8 * length buf)%nat) as [->|].
  - cbn [get_bits_loop]. unfold get_bit.
    rewrite dec_at_aligned. cbn [dec_at dec_size].
    rewrite (proj2 (Z.leb_le _ _)) by (unfold zlen; lia).
    rewrite bind_Ret_l. cbn. eauto.
  - destruct (get_bit_spec buf pos ltac:(lia)) as (b & Hb & Hget).
    cbn [get_bits_loop]. rewrite Hget, bind_Ret_l.
    change (dec_error (dec_at buf (pos + 1))) with false. cbv iota beta.
    apply IH. lia.
Qed.

(** every read of at most 31 bits over a byte buffer returns: it never leaves
    the buffer, and it errs exactly when the bits are not there *)
Lemma get_bits_total buf pos n :
  (pos <= 8 * length buf)%nat -> 0 <= n <= 31 ->
  (exists v, 0 <= v < 2 ^ n /\ (pos + Z.to_nat n <= 8 * length buf)%nat /\
     nr_rlc_pdu_decoder_get_bits (dec_at buf pos) n
     = Ret (v, dec_at buf (pos + Z.to_nat n)))
  \/ ((8 * length buf < pos + Z.to_nat n)%nat /\
      exists d, nr_rlc_pdu_decoder_get_bits (dec_at buf pos) n = Ret (-1, d)
                /\ dec_error d = true).
Proof.
  intros Hpos Hn. unfold nr_rlc_pdu_decoder_get_bits.
  rewrite (proj2 (Z.ltb_ge _ _)) by lia.
  destruct (decide (pos + Z.to_nat n <= 8 * length buf)%nat) as [Hle|Hgt].
  - left. eexists. split; [|split; [done|]]; [|by rewrite get_bits_loop_spec, Z.mul_0_l].
    pose proof (bits_val_bound (take (Z.to_nat n) (drop pos (bits_of_bytes buf)))) as Hb.
    revert Hb. rewrite zlen_take, zlen_drop. unfold zlen. rewrite length_bits_of_bytes.
    rewrite Z.min_l by lia. rewrite Z2Nat.id by lia. lia.
  - right. split; [lia|]. apply get_bits_loop_error. lia.
Qed.

Lemma get_bits_R_total {A} buf pos n (err : outcome A) k (P : outcome A -> Prop) :
  (pos <= 8 * length buf)%nat -> 0 <= n <= 31 ->
  P err ->
  (forall v, 0 <= v < 2 ^ n -> (pos + Z.to_nat n <= 8 * length buf)%nat ->
     P (k v (dec_at buf (pos + Z.to_nat n)))) ->
  P (get_bits_R (dec_at buf pos) n err k).
Proof.
  intros Hpos Hn Herr Hk. unfold get_bits_R.
  destruct (get_bits_total buf pos n Hpos Hn) as [(v & Hv & Hle & ->)|(Hlt & d & -> & He)].
  - rewrite bind_Ret_l. by apply Hk.
  - rewrite bind_Ret_l. by rewrite He.
Qed.

Lemma get_bits_R_field {A} buf pre post n v pos (err : outcome A) k :
  bits_of_bytes buf = pre ++ bits_of_Z n v ++ post ->
  pos = length pre -> (n <= 31)%nat -> 0 <= v < 2 ^ Z.of_nat n ->
  get_bits_R (dec_at buf pos) (Z.of_nat n) err k = k v (dec_at buf (pos + n)).
Proof.
  intros. unfold get_bits_R. erewrite get_bits_field by eassumption. reflexivity.
Qed.

(** reading the next of a sequence of fields *)
Lemma read_step {A} buf pre post m v pos (err : outcome A) k r :
  bits_of_bytes buf = pre ++ bits_of_Z (Z.to_nat m) v ++ post ->
  pos = length pre -> 0 <= m <= 31 -> 0 <= v < 2 ^ m ->
  (bits_of_bytes buf = (pre ++ bits_of_Z (Z.to_nat m) v) ++ post ->
   k v (dec_at buf (length (pre ++ bits_of_Z (Z.to_nat m) v))) = r) ->
  get_bits_R (dec_at buf pos) m err k = r.
Proof.
  intros Hb Hpos Hm Hv Hk. rewrite <- (Z2Nat.id m) by lia.
  erewrite get_bits_R_field; [|exact Hb|exact Hpos|lia|rewrite Z2Nat.id; lia].
  rewrite <- Hk by (by rewrite <- app_assoc). f_equal. f_equal.
  rewrite length_app, length_bits_of_Z. lia.
Qed.

Lemma get_step {A} buf pre post m v pos (k : Z * nr_rlc_pdu_decoder_t -> outcome A) r :
  bits_of_bytes buf = pre ++ bits_of_Z (Z.to_nat m) v ++ post ->
  pos = length pre -> 0 <= m <= 31 -> 0 <= v < 2 ^ m ->
  (bits_of_bytes buf = (pre ++ bits_of_Z (Z.to_nat m) v) ++ post ->
   k (v, dec_at buf (length (pre ++ bits_of_Z (Z.to_nat m) v))) = r) ->
  nr_rlc_pdu_decoder_get_bits (dec_at buf pos) m ≫= k = r.
Proof.
  intros Hb Hpos Hm Hv Hk. rewrite <- (Z2Nat.id m) by lia.
  erewrite get_bits_field; [|exact Hb|exact Hpos|lia|rewrite Z2Nat.id; lia].
  rewrite bind_Ret_l, <- Hk by (by rewrite <- app_assoc). do 3 f_equal.
  rewrite length_app, length_bits_of_Z. lia.
Qed.

(** the two SI bits as one field *)
Lemma si_bits a b :
  bits_of_Z 1 a ++ bits_of_Z 1 b = bits_of_Z 2 (2 * Z.b2z (Z.testbit a 0) + Z.b2z (Z.testbit b 0)).
Proof.
  cbn [bits_of_Z app]. change (Z.of_nat 0) with 0. change (Z.of_nat 1) with 1.
  by destruct (Z.testbit a 0), (Z.testbit b 0).
Qed.

(** SN and, when it is there, SO, as both entities read them *)
Lemma read_sn_so {A} buf rest (is_first : bool) sn so snlen pre (err : outcome A)
    (k : Z -> Z -> nr_rlc_pdu_decoder_t -> outcome A) :
  0 <= snlen <= 31 -> 0 <= sn < 2 ^ snlen -> (if is_first then so = 0 else 0 < so < 2 ^ 16) ->
  bits_of_bytes buf = pre ++ bits_of_Z (Z.to_nat snlen) sn
                      ++ (if is_first then [] else bits_of_Z 16 so) ++ rest ->
  (bits sn, d <- dec_at buf (length pre) # snlen orelse err;
   if negb is_first then
     bits so, d <- d # 16 orelse err;
     if so =? 0 then err else k sn so d
   else k sn 0 d)
  = k sn so (dec_at buf (length pre + Z.to_nat snlen + (if is_first then 0 else 16))).
Proof.
  intros Hl Hsn Hso Hb. eapply read_step; [exact Hb|done|lia|done|]. intros Hb'.
  destruct is_first; simpl negb; cbv iota.
  - rewrite Hso. f_equal. f_equal. rewrite length_app, length_bits_of_Z. lia.
  - eapply read_step; [exact Hb'|done|lia|lia|]. intros _.
    rewrite (proj2 (Z.eqb_neq so 0)) by lia. f_equal. f_equal.
    rewrite !length_app, !length_bits_of_Z. lia.
Qed.

(** ** Encoder specification *)

(** [enc_repr n size bs e]: over a buffer of [n] bytes with [size] usable, the
    bits [bs] have been written *)
Definition enc_repr (n : nat) (size : Z) (bs : list bool) (e : nr_rlc_pdu_encoder_t) : Prop :=
  exists (q k : nat) buf full part,
    e = mk_encoder (Z.of_nat q) (Z.of_nat k) buf size /\
    length buf = n /\ (q <= n)%nat /\ (k < 8)%nat /\
    bs = full ++ part /\ bits_of_bytes (take q buf) = full /\ length part = k /\
    forall x, buf !! q = Some x -> bits_of_Z k x = part.

Lemma enc_repr_init buf size :
  enc_repr (length buf) size [] (nr_rlc_pdu_encoder_init buf size).
Proof. exists 0%nat, 0%nat, buf, [], []. repeat split; done || lia. Qed.

(** after whole bytes, the written bits are the first bytes of the buffer *)
Lemma enc_repr_aligned n size bs e (q : nat) :
  enc_repr n size bs e -> length bs = (8 * q)%nat ->
  enc_byte e = Z.of_nat q /\ enc_bit e = 0 /\ length (enc_buffer e) = n /\
  (q <= n)%nat /\ bits_of_bytes (take q (enc_buffer e)) = bs.
Proof.
  intros (q' & k & buf & full & part & -> & Hbuf & Hq & Hk & -> & Hfull & Hpart & _) Hlen.
  assert (length full = 8 * q')%nat as Hlf.
  { rewrite <- Hfull, length_bits_of_bytes, length_take. lia. }
  rewrite length_app in Hlen. assert (k = 0 /\ q' = q)%nat as [-> ->] by lia.
  destruct part; [|done]. rewrite app_nil_r. simpl. repeat split; first [done|lia].
Qed.

Lemma bits_of_Z_snoc (x : Z) (b : bool) (k : nat) :
  (k < 8)%nat ->
  let x' := Z.land (Z.shiftl x 1) 255 in
  bits_of_Z (S k) (if b then Z.lor x' 1 else x') = bits_of_Z k x ++ [b].
Proof.
  intros Hk x'.
  assert (forall i, 0 <= i < 8 ->
    Z.testbit (if b then Z.lor x' 1 else x') i = if i =? 0 then b else Z.testbit x (i - 1)) as Hbit.
  { intros i Hi.
    assert (Z.testbit x' i = if i =? 0 then false else Z.testbit x (i - 1)) as Hx'.
    { subst x'. change 255 with (Z.ones 8). rewrite Z.land_spec, Z.shiftl_spec by lia.
      rewrite Z.ones_spec_low, andb_true_r by lia.
      destruct (Z.eqb_spec i 0) as [->|]; [by rewrite Z.testbit_neg_r by lia|done]. }
    destruct b; [rewrite Z.lor_spec|]; rewrite Hx'; destruct (Z.eqb_spec i 0) as [->|]; try done.
    rewrite (Z.bits_above_log2 1) by (simpl; lia). apply orb_false_r. }
  induction k as [|k IH].
  - cbn [bits_of_Z]. by rewrite Hbit by lia.
  - change (bits_of_Z (S (S k)) ?y) with (Z.testbit y (Z.of_nat (S k)) :: bits_of_Z (S k) y).
    rewrite IH by lia. rewrite Hbit by lia. rewrite (proj2 (Z.eqb_neq _ _)) by lia.
    cbn [bits_of_Z app]. do 2 f_equal. lia.
Qed.

Lemma take_insert_S (q : nat) (buf : list Z) (x : Z) :
  (q < length buf)%nat -> take (q + 1) (<[q:=x]> buf) = take q buf ++ [x].
Proof.
  intros Hq. rewrite Nat.add_1_r. rewrite (take_S_r _ _ x).
  - by rewrite take_insert_ge by lia.
  - by apply list_lookup_insert_eq.
Qed.

Lemma put_bit_repr n size bs e b :
  enc_repr n size bs e -> 0 <= size <= Z.of_nat n -> zlen bs < 8 * size ->
  exists e', put_bit e b = Ret e' /\ enc_repr n size (bs ++ [b]) e'.
Proof.
  intros (q & k & buf & full & part & -> & Hbuf & Hq & Hk & -> & Hfull & Hpart & Hx) Hs Hlt.
  assert (length full = 8 * q)%nat as Hlf.
  { rewrite <- Hfull, length_bits_of_bytes, length_take. lia. }
  rewrite zlen_app in Hlt. unfold zlen in Hlt.
  assert (q < length buf)%nat as Hql by lia.
  destruct (lookup_lt_is_Some_2 buf q Hql) as [x Hbx].
  unfold put_bit. cbn [enc_byte enc_size enc_buffer].
  rewrite (proj2 (Z.eqb_neq _ _)) by lia.
  rewrite (rd_ok _ _ _ Hbx), bind_Ret_l. unfold wr.
  rewrite (proj2 (Z.leb_le _ _)), (proj2 (Z.ltb_lt _ _)) by (unfold zlen; lia).
  cbn [andb]. rewrite bind_Ret_l, Nat2Z.id. eexists. split; [reflexivity|].
  pose proof (bits_of_Z_snoc x b k Hk) as Hsn. cbv zeta in Hsn.
  set (x' := if b then _ else _) in *.
  rewrite (Hx _ Hbx) in Hsn.
  cbv [set enc_byte enc_bit enc_buffer enc_size].
  destruct (Z.eqb_spec (1 + Z.of_nat k) 8).
  - exists (q + 1)%nat, 0%nat, (<[q:=x']> buf), ((full ++ part) ++ [b]), [].
    rewrite length_insert, app_nil_r. repeat split; try lia.
    + f_equal; lia.
    + rewrite take_insert_S by lia. rewrite bits_of_bytes_app, Hfull.
      rewrite <- app_assoc. f_equal. replace (S k) with 8%nat in Hsn by lia.
      rewrite <- Hsn. unfold bits_of_bytes. simpl. done.
  - exists q, (S k), (<[q:=x']> buf), full, (part ++ [b]).
    rewrite length_insert, length_app, <- app_assoc. repeat split; try (done || (simpl; lia)).
    + f_equal; lia.
    + by rewrite take_insert_ge by lia.
    + intros y. rewrite list_lookup_insert_eq by lia. intros [= <-]. done.
Qed.

Lemma land_pow2_testbit v j : 0 <= j -> negb (Z.land v (2 ^ j) =? 0) = Z.testbit v j.
Proof.
  intros Hj. destruct (Z.testbit v j) eqn:E.
  - apply negb_true_iff, Z.eqb_neq. intros H0.
    assert (Z.testbit (Z.land v (2 ^ j)) j = true) as H1.
    { rewrite Z.land_spec, E, Z.pow2_bits_true by lia. done. }
    rewrite H0, Z.bits_0 in H1. done.
  - apply negb_false_iff, Z.eqb_eq, Z.bits_inj'. intros i Hi.
    rewrite Z.land_spec, Z.bits_0, Z.pow2_bits_eqb by lia.
    destruct (Z.eqb_spec j i) as [->|]; [by rewrite E|apply andb_false_r].
Qed.

Lemma put_bits_loop_repr n size bs e m v :
  enc_repr n size bs e -> 0 <= size <= Z.of_nat n -> zlen bs + Z.of_nat m <= 8 * size ->
  exists e', put_bits_loop m v (Z.shiftl 1 (Z.of_nat m - 1)) e = Ret e'
             /\ enc_repr n size (bs ++ bits_of_Z m v) e'.
Proof.
  revert bs e. induction m as [|m IH]; intros bs e He Hs Hlen.
  - exists e. by rewrite app_nil_r.
  - cbn [put_bits_loop]. replace (Z.of_nat (S m) - 1) with (Z.of_nat m) by lia.
    rewrite Z.shiftl_mul_pow2, Z.mul_1_l, land_pow2_testbit by lia.
    destruct (put_bit_repr _ _ _ _ (Z.testbit v (Z.of_nat m)) He Hs ltac:(lia))
      as (e' & -> & He'). rewrite bind_Ret_l.
    destruct (IH _ _ He' Hs) as (e'' & He'' & Hr).
    { rewrite zlen_app. change (zlen [_]) with 1. lia. }
    exists e''. split; [|by rewrite <- app_assoc in Hr].
    destruct m as [|m]; [exact He''|].
    rewrite <- He''. f_equal.
    replace (Z.of_nat (S m)) with (Z.of_nat m + 1) by lia.
    rewrite Z.shiftr_div_pow2, Z.shiftl_mul_pow2 by lia. rewrite Z.pow_add_r by lia.
    rewrite Z.mul_1_l, Z.div_mul by lia. f_equal. f_equal. lia.
Qed.

Lemma put_bits_repr n size bs e (m : nat) v :
  enc_repr n size bs e -> 0 <= size <= Z.of_nat n -> zlen bs + Z.of_nat m <= 8 * size ->
  (1 <= m <= 31)%nat ->
  exists e', nr_rlc_pdu_encoder_put_bits e v (Z.of_nat m) = Ret e'
             /\ enc_repr n size (bs ++ bits_of_Z m v) e'.
Proof.
  intros He Hs Hl Hm. unfold nr_rlc_pdu_encoder_put_bits.
  rewrite (proj2 (Z.ltb_ge _ _)), (proj2 (Z.ltb_ge _ _)), Nat2Z.id by lia.
  by apply put_bits_loop_repr.
Qed.

(** the same as a triple *)
Lemma put_bits_returns n size bs e (m : Z) v :
  enc_repr n size bs e -> size <= Z.of_nat n -> 1 <= m <= 31 -> zlen bs + m <= 8 * size ->
  returns (nr_rlc_pdu_encoder_put_bits e v m)
    (fun e' => enc_repr n size (bs ++ bits_of_Z (Z.to_nat m) v) e').
Proof.
  intros He Hs Hm Hl. pose proof (zlen_nonneg bs).
  destruct (put_bits_repr n size bs e (Z.to_nat m) v) as (e' & He' & Hr); [done|lia|lia|lia|].
  exists e'. rewrite Z2Nat.id in He' by lia. done.
Qed.

Lemma zlen_bits_of_Z n v : zlen (bits_of_Z n v) = Z.of_nat n.
Proof. unfold zlen. by rewrite length_bits_of_Z. Qed.
#[export] Hint Rewrite zlen_bits_of_Z : rlc_len.

(** [put_steps] runs a sequence of [put_bits]; the sizes are left to [lia] *)
Ltac put_field :=
  apply put_bits_returns;
    [first [apply enc_repr_init | eassumption] | lia | lia
    | autorewrite with rlc_len; simpl Z.to_nat; simpl Z.of_nat; lia].
Ltac put_steps :=
  repeat first
    [ rewrite bind_Ret_l
    | rewrite bind_bind
    | eapply returns_seq; [put_field|let H := fresh "Henc" in intros ? H; simpl Z.to_nat in H] ];
  first [ apply returns_Ret
        | eapply returns_mono; [put_field|let H := fresh "Henc" in intros ? H; simpl Z.to_nat in H] ].


(** ** The received-PDU list stays sorted *)

Section pdu_order.
Context (key : Z -> Z) (sn_compare : Z -> Z -> Z).
Context (Hcmp : forall a b, sn_compare a b = key a - key b).

(** by [sn], then by [so] *)
Definition pdu_le (p q : nr_rlc_pdu_t) : Prop :=
  key (pdu_sn p) < key (pdu_sn q) \/ (pdu_sn p = pdu_sn q /\ pdu_so p <= pdu_so q).

Lemma pdu_le_trans p q r : pdu_le p q -> pdu_le q r -> pdu_le p r.
Proof. unfold pdu_le. intros [?|[-> ?]] [?|[<- ?]]; lia. Qed.

Lemma pdu_list_add_sorted l p :
  (forall q, q ∈ l -> key (pdu_sn q) = key (pdu_sn p) -> pdu_sn q = pdu_sn p) ->
  StronglySorted pdu_le l -> StronglySorted pdu_le (nr_rlc_pdu_list_add sn_compare l p).
Proof.
  intros Hinj. apply insert_before_sorted; [| |eauto using pdu_le_trans].
  - intros q _. unfold pdu_before, pdu_le. rewrite Hcmp, orb_true_iff, andb_true_iff.
    rewrite !Z.ltb_lt, Z.eqb_eq. lia.
  - intros q Hq. unfold pdu_before, pdu_le. rewrite Hcmp, orb_false_iff, andb_false_iff.
    rewrite !Z.ltb_ge, Z.eqb_neq. intros [Hle Hso].
    destruct (Z.eq_dec (key (pdu_sn q)) (key (pdu_sn p))) as [He|]; [|lia].
    right. pose proof (Hinj q Hq He). lia.
Qed.
End pdu_order.

Lemma pdu_list_add_perm cmp l p : nr_rlc_pdu_list_add cmp l p ≡ₚ p :: l.
Proof. apply insert_before_perm. Qed.
