(* ===== verification/RlcSdu.v ===== *)
(** SDUs, SDU segments and their reference counts:
    src/openair2/LAYER2/nr_rlc/nr_rlc_sdu.c and nr_rlc_sdu.h.

    Several segments share one [nr_rlc_sdu_t] through a pointer, and the
    sharing matters: [sn], [retx_count], [ref_count] and [free_count] of the
    SDU are seen by all its segments. The SDUs therefore live in a store
    indexed by their address, segments hold the address, and an access to an
    address that has been freed is undefined. A segment also carries its own
    address, which is what the [tx_end] and [wait_end] pointers hold. Addresses
    are never reused, so that a use after free is always seen. *)

From stdpp Require Import base tactics list numbers gmap.
From Stdlib Require Import ZArith Lia.
From S2P Require Import Prelude.

Record nr_rlc_sdu_t := mk_sdu {
  sdu_sn : Z;
  sdu_upper_layer_id : Z;
  sdu_data : list Z;
  sdu_size : Z;
  sdu_retx_count : Z;
  sdu_ref_count : Z;
  sdu_free_count : Z;
  sdu_time_of_arrival : Z
}.
#[export] Instance sdu_eta : Eta nr_rlc_sdu_t :=
  fun s => mk_sdu (sdu_sn s) (sdu_upper_layer_id s) (sdu_data s) (sdu_size s)
    (sdu_retx_count s) (sdu_ref_count s) (sdu_free_count s) (sdu_time_of_arrival s).

Record nr_rlc_sdu_segment_t := mk_seg {
  seg_addr : nat;               (** address of the segment itself *)
  seg_sdu : nat;                (** [sdu] pointer *)
  seg_size : Z;
  seg_so : Z;
  seg_is_first : bool;
  seg_is_last : bool
}.
#[export] Instance seg_eta : Eta nr_rlc_sdu_segment_t :=
  fun s => mk_seg (seg_addr s) (seg_sdu s) (seg_size s) (seg_so s)
    (seg_is_first s) (seg_is_last s).

(** the store of SDUs, and the next address [malloc] returns *)
Record sdu_heap := mk_heap {
  heap_sdus : gmap nat nr_rlc_sdu_t;
  heap_next : nat
}.
#[export] Instance heap_eta : Eta sdu_heap :=
  fun h => mk_heap (heap_sdus h) (heap_next h).

Definition empty_heap : sdu_heap := mk_heap ∅ 1.

(** [s->sdu] *)
Definition deref (h : sdu_heap) (s : nr_rlc_sdu_segment_t) : outcome nr_rlc_sdu_t :=
  match heap_sdus h !! seg_sdu s with Some u => Ret u | None => Undef end.

(** assignment to the SDU [s->sdu] points to *)
Definition store_sdu (h : sdu_heap) (s : nr_rlc_sdu_segment_t) (u : nr_rlc_sdu_t) : sdu_heap :=
  h <| heap_sdus := <[seg_sdu s := u]> (heap_sdus h) |>.

Definition nr_rlc_new_sdu (h : sdu_heap) (buffer : list Z) (upper_layer_id : Z)
    : nr_rlc_sdu_segment_t * sdu_heap :=
  let size := zlen buffer in
  let a := heap_next h in
  let sdu := mk_sdu (-1) upper_layer_id buffer size (-1) 1 0 0 in
  let ret := mk_seg (S a) a size 0 true true in
  (ret, mk_heap (<[a := sdu]> (heap_sdus h)) (S (S a))).

(** returns whether the SDU has been freed too *)
Definition nr_rlc_free_sdu_segment (h : sdu_heap) (s : nr_rlc_sdu_segment_t)
    : outcome (bool * sdu_heap) :=
  u ← deref h s;
  let u := u <| sdu_free_count ::= Z.add 1 |> in
  if sdu_free_count u =? sdu_ref_count u
  then Ret (true, h <| heap_sdus ::= delete (seg_sdu s) |>)
  else Ret (false, store_sdu h s u).

(** [end->next = sdu], where [end] is the segment at address [a] *)
Fixpoint append_after (a : nat) (l : list nr_rlc_sdu_segment_t) (s : nr_rlc_sdu_segment_t)
    : outcome (list nr_rlc_sdu_segment_t) :=
  match l with
  | [] => Undef
  | x :: l => if (seg_addr x =? a)%nat then Ret [x; s]
              else l' ← append_after a l s; Ret (x :: l')
  end.

(** [list] and [end] as one pair; [None] is a NULL [end] *)
Definition nr_rlc_sdu_segment_list_append (l : list nr_rlc_sdu_segment_t) (e : option nat)
    (s : nr_rlc_sdu_segment_t) : outcome (list nr_rlc_sdu_segment_t * option nat) :=
  match l with
  | [] => Ret ([s], Some (seg_addr s))
  | _ :: _ =>
      match e with
      | None => Undef
      | Some a => l' ← append_after a l s; Ret (l', Some (seg_addr s))
      end
  end.

Fixpoint nr_rlc_free_sdu_segment_list (h : sdu_heap) (l : list nr_rlc_sdu_segment_t)
    : outcome sdu_heap :=
  match l with
  | [] => Ret h
  | cur :: l => '(_, h) ← nr_rlc_free_sdu_segment h cur; nr_rlc_free_sdu_segment_list h l
  end.

(** Lists of SDU segments with an end pointer, and reference counts. *)

(** ** Segments *)

(** a non-empty range of the bytes of its SDU, with the right flags *)
Record seg_ok (u : nr_rlc_sdu_t) (s : nr_rlc_sdu_segment_t) : Prop := mk_seg_ok {
  seg_so_ok : 0 <= seg_so s;
  seg_size_ok : 0 < seg_size s;
  seg_end_ok : seg_so s + seg_size s <= zlen (sdu_data u);
  seg_first_ok : seg_is_first s = (seg_so s =? 0);
  seg_last_ok : seg_is_last s = (seg_so s + seg_size s =? zlen (sdu_data u))
}.

(** its bytes *)
Definition seg_bytes (u : nr_rlc_sdu_t) (s : nr_rlc_sdu_segment_t) : list Z :=
  take (Z.to_nat (seg_size s)) (drop (Z.to_nat (seg_so s)) (sdu_data u)).

Lemma zlen_seg_bytes u s : seg_ok u s -> zlen (seg_bytes u s) = seg_size s.
Proof. intros [H1 H2 H3 _ _]. unfold seg_bytes. rewrite zlen_take, zlen_drop. lia. Qed.

(** ** Lists with an end pointer *)

(** [e] is the address of the last segment of [l], NULL when it is empty; all
    segments are distinct objects below the next free address [n] *)
Record list_end_ok (l : list nr_rlc_sdu_segment_t) (e : option nat) (n : nat) : Prop := mk_list_end_ok {
  end_last : e = option_map seg_addr (last l);
  end_nodup : NoDup (map seg_addr l);
  end_bound : Forall (fun s => (seg_addr s < n)%nat) l
}.

Lemma append_after_last l x s :
  NoDup (map seg_addr (l ++ [x])) -> append_after (seg_addr x) (l ++ [x]) s = Ret (l ++ [x; s]).
Proof.
  induction l as [|y l IH]; simpl; [by rewrite Nat.eqb_refl|].
  intros Hnd. apply NoDup_cons in Hnd as [Hy Hnd].
  destruct (Nat.eqb_spec (seg_addr y) (seg_addr x)) as [Heq|]; [|by rewrite IH].
  destruct Hy. rewrite Heq, map_app. simpl. apply elem_of_app. right. left.
Qed.

Lemma list_append_ok l e n s :
  list_end_ok l e n -> (n <= seg_addr s)%nat ->
  nr_rlc_sdu_segment_list_append l e s = Ret (l ++ [s], Some (seg_addr s)) /\
  list_end_ok (l ++ [s]) (Some (seg_addr s)) (S (seg_addr s)).
Proof.
  intros [He Hnd Hb] Hs. split.
  - destruct l as [|x l _] using rev_ind; [done|]. rewrite last_snoc in He. simpl in He. subst e.
    pose proof (append_after_last l x s Hnd) as Happ. unfold nr_rlc_sdu_segment_list_append.
    destruct (l ++ [x]) eqn:E; [by destruct l|].
    rewrite Happ, bind_Ret_l, <- E. by rewrite <- app_assoc.
  - constructor.
    + by rewrite last_snoc.
    + rewrite map_app. apply NoDup_app. split_and!; [done| |by apply NoDup_singleton].
      intros a Ha. apply list_elem_of_fmap in Ha as (y & -> & Hy). simpl.
      rewrite list_elem_of_singleton. rewrite list.Forall_forall in Hb. specialize (Hb y Hy).
      simpl in Hb. lia.
    + apply Forall_app. split; [|by repeat constructor].
      eapply Forall_weaken; [|exact Hb]. simpl. lia.
Qed.

Lemma list_end_tail s l e n :
  list_end_ok (s :: l) e n ->
  list_end_ok l (match l with [] => None | _ => e end) n.
Proof.
  intros [-> Hnd Hb]. simpl in Hnd. apply NoDup_cons in Hnd as [_ Hnd]. inversion Hb; subst.
  constructor; [by destruct l|done|done].
Qed.

Lemma list_end_mono l e n m : list_end_ok l e n -> (n <= m)%nat -> list_end_ok l e m.
Proof.
  intros [H1 H2 H3] Hm. constructor; [done|done|]. eapply Forall_weaken; [|exact H3]. simpl. lia.
Qed.

Lemma free_list_cons h s l :
  nr_rlc_free_sdu_segment_list h (s :: l)
  = ('(_, h) ← nr_rlc_free_sdu_segment h s; nr_rlc_free_sdu_segment_list h l).
Proof. done. Qed.

(** Ownership of SDUs by their segments: the reference counts of
    src/openair2/LAYER2/nr_rlc/nr_rlc_sdu.c keep an SDU alive as long as one of
    its segments is in a list, so that no list ever holds a dangling pointer. *)

(** number of segments of the SDU at address [a] *)
Definition refs (a : nat) (l : list nr_rlc_sdu_segment_t) : Z :=
  sumZ (fun s => if (seg_sdu s =? a)%nat then 1 else 0) l.

(** every segment of [l] points to a live SDU and is a range of its bytes; no
    SDU has more segments than references *)
Record heap_ok (h : sdu_heap) (l : list nr_rlc_sdu_segment_t) : Prop := mk_heap_ok {
  ho_live : Forall (fun s => exists u, heap_sdus h !! seg_sdu s = Some u /\ seg_ok u s) l;
  ho_refs : forall a u, heap_sdus h !! a = Some u -> refs a l + sdu_free_count u <= sdu_ref_count u;
  ho_fresh : forall a u, heap_sdus h !! a = Some u -> (a < heap_next h)%nat
}.

Lemma refs_nonneg a l : 0 <= refs a l.
Proof. apply sumZ_nonneg, list.Forall_forall. intros s _. destruct (_ =? _)%nat; lia. Qed.

Lemma refs_cons a s l : refs a (s :: l) = (if (seg_sdu s =? a)%nat then 1 else 0) + refs a l.
Proof. done. Qed.

Lemma refs_0 a l s : refs a l = 0 -> s ∈ l -> seg_sdu s <> a.
Proof.
  intros H0 Hs. induction l as [|t l IH]; [by apply not_elem_of_nil in Hs|].
  rewrite refs_cons in H0. pose proof (refs_nonneg a l).
  apply elem_of_cons in Hs as [->|Hs].
  - destruct (Nat.eqb_spec (seg_sdu t) a); [lia|done].
  - apply IH; [|done]. destruct (_ =? _)%nat; lia.
Qed.

Global Instance refs_Proper a : Proper ((≡ₚ) ==> (=)) (refs a).
Proof. intros l l' Hp. unfold refs. by rewrite Hp. Qed.

Lemma heap_ok_perm h l l' : l ≡ₚ l' -> heap_ok h l -> heap_ok h l'.
Proof.
  intros Hp [H1 H2 H3]. constructor; [by rewrite <- Hp| |done]. intros a u Ha. rewrite <- Hp. auto.
Qed.

(** forgetting a segment leaks at worst *)
Lemma heap_ok_tail h s l : heap_ok h (s :: l) -> heap_ok h l.
Proof.
  intros [H1 H2 H3]. constructor; [by inversion H1| |done]. intros a u Ha.
  specialize (H2 a u Ha). rewrite refs_cons in H2. destruct (_ =? _)%nat; lia.
Qed.

Lemma heap_ok_app_r h l l' : heap_ok h (l ++ l') -> heap_ok h l'.
Proof. induction l; [done|]. simpl. intros H%heap_ok_tail. auto. Qed.

Lemma heap_ok_deref h l s : heap_ok h l -> s ∈ l -> exists u, deref h s = Ret u /\ seg_ok u s.
Proof.
  intros [H1 _ _] Hs. rewrite list.Forall_forall in H1. destruct (H1 s Hs) as (u & Hu & Hok).
  exists u. unfold deref. by rewrite Hu.
Qed.

Lemma deref_lookup h s u : deref h s = Ret u -> heap_sdus h !! seg_sdu s = Some u.
Proof. unfold deref. destruct (_ !! _); congruence. Qed.

Lemma seg_ok_data u u' s : sdu_data u' = sdu_data u -> seg_ok u s -> seg_ok u' s.
Proof. intros Hd [H1 H2 H3 H4 H5]. constructor; rewrite ?Hd; done. Qed.

(** an SDU may be changed as long as its bytes stay and its references suffice *)
Lemma heap_ok_set h l s u u' :
  heap_ok h l -> heap_sdus h !! seg_sdu s = Some u -> sdu_data u' = sdu_data u ->
  refs (seg_sdu s) l + sdu_free_count u' <= sdu_ref_count u' -> heap_ok (store_sdu h s u') l.
Proof.
  intros [H1 H2 H3] Hu Hd Hc.
  assert (Hl : forall a v, heap_sdus (store_sdu h s u') !! a = Some v ->
    (a = seg_sdu s /\ v = u') \/ heap_sdus h !! a = Some v).
  { intros a v. simpl. destruct (decide (seg_sdu s = a)) as [<-|E].
    - rewrite lookup_insert_eq. intros [= <-]. by left.
    - rewrite lookup_insert_ne by done. by right. }
  constructor.
  - eapply Forall_weaken; [|exact H1]. intros t (v & Hv & Hok). simpl.
    destruct (decide (seg_sdu t = seg_sdu s)) as [E|E].
    + rewrite E in *. exists u'. rewrite lookup_insert_eq. split; [done|].
      eapply seg_ok_data; [|exact Hok]. congruence.
    + exists v. by rewrite lookup_insert_ne.
  - intros a v [[-> ->]|Ha]%Hl; [done|by apply H2].
  - intros a v [[-> _]|Ha]%Hl; [by eapply H3|by eapply H3].
Qed.

Lemma heap_ok_store h l s u u' :
  heap_ok h l -> deref h s = Ret u -> sdu_data u' = sdu_data u ->
  sdu_ref_count u' = sdu_ref_count u -> sdu_free_count u' = sdu_free_count u ->
  heap_ok (store_sdu h s u') l.
Proof.
  intros Hok Hu%deref_lookup Hd Hr Hf. eapply heap_ok_set; [done|done|done|].
  rewrite Hr, Hf. by apply (ho_refs _ _ Hok).
Qed.

(** freeing a segment: the SDU goes with its last segment, never before *)
Lemma heap_ok_free h s l :
  heap_ok h (s :: l) ->
  returns (nr_rlc_free_sdu_segment h s) (fun '(_, h') => heap_ok h' l /\ heap_next h' = heap_next h).
Proof.
  intros Hok. destruct (heap_ok_deref h (s :: l) s Hok ltac:(left)) as (u & Hu & Hs).
  unfold nr_rlc_free_sdu_segment. rewrite Hu, bind_Ret_l.
  pose proof (ho_refs _ _ Hok _ _ (deref_lookup _ _ _ Hu)) as Hr.
  rewrite refs_cons, Nat.eqb_refl in Hr. pose proof (refs_nonneg (seg_sdu s) l) as Hn.
  change (sdu_free_count (u <| sdu_free_count ::= Z.add 1 |>)) with (1 + sdu_free_count u).
  change (sdu_ref_count (u <| sdu_free_count ::= Z.add 1 |>)) with (sdu_ref_count u).
  pose proof (heap_ok_tail _ _ _ Hok) as Hl.
  destruct (Z.eqb_spec (1 + sdu_free_count u) (sdu_ref_count u)) as [E|E]; apply returns_Ret; (split; [|done]).
  - assert (H0 : refs (seg_sdu s) l = 0) by lia. destruct Hl as [H1 H2 H3]. constructor; simpl.
    + rewrite list.Forall_forall in *. intros t Ht. destruct (H1 t Ht) as (v & Hv & Hok').
      exists v. split; [|done]. rewrite lookup_delete_ne; [done|]. intros E'. by apply (refs_0 _ _ _ H0 Ht).
    + intros a v [_ Ha]%lookup_delete_Some. by apply H2.
    + intros a v [_ Ha]%lookup_delete_Some. by eapply H3.
  - eapply heap_ok_set; [done|by apply deref_lookup|done|]. simpl. lia.
Qed.

(** a new SDU with its only segment *)
Lemma heap_ok_new h l buffer id :
  heap_ok h l -> 0 < zlen buffer ->
  let '(s, h') := nr_rlc_new_sdu h buffer id in
  heap_ok h' (s :: l) /\ seg_addr s = S (heap_next h) /\ heap_next h' = S (S (heap_next h)).
Proof.
  intros [H1 H2 H3] Hb. simpl. split; [|done]. set (a := heap_next h).
  assert (Hnew : heap_sdus h !! a = None).
  { destruct (heap_sdus h !! a) as [u|] eqn:E; [|done]. specialize (H3 _ _ E). unfold a in *. lia. }
  assert (Hne : forall t, t ∈ l -> seg_sdu t <> a).
  { rewrite list.Forall_forall in H1. intros t Ht E. destruct (H1 t Ht) as (u & Hu & _). congruence. }
  constructor; simpl.
  - constructor.
    + eexists. rewrite lookup_insert_eq. split; [done|]. constructor; simpl; try lia; done || by rewrite Z.eqb_refl.
    + rewrite list.Forall_forall in *. intros t Ht. destruct (H1 t Ht) as (u & Hu & Hok).
      exists u. split; [|done]. rewrite lookup_insert_ne; [done|]. by intros <-%symmetry; apply (Hne t).
  - intros b v. rewrite refs_cons. simpl. destruct (decide (a = b)) as [<-|E].
    + rewrite lookup_insert_eq, Nat.eqb_refl. intros [= <-]. simpl.
      assert (refs a l = 0); [|lia]. clear -Hne. induction l as [|t l IH]; [done|]. rewrite refs_cons.
      rewrite (proj2 (Nat.eqb_neq _ _)) by (apply Hne; left). rewrite IH; [lia|]. intros s Hs. apply Hne. by right.
    + rewrite lookup_insert_ne, (proj2 (Nat.eqb_neq _ _)) by done. apply H2.
  - intros b v. destruct (decide (a = b)) as [<-|E]; [unfold a; lia|].
    rewrite lookup_insert_ne by done. intros Hv. specialize (H3 _ _ Hv). lia.
Qed.

(** ** Segments as objects

    The segments of all lists of an entity are distinct objects. *)
Record owned (h : sdu_heap) (l : list nr_rlc_sdu_segment_t) : Prop := mk_owned {
  own_heap : heap_ok h l;
  own_nodup : NoDup (map seg_addr l);
  own_bound : Forall (fun s => (seg_addr s < heap_next h)%nat) l
}.

Lemma owned_perm h l l' : l ≡ₚ l' -> owned h l -> owned h l'.
Proof.
  intros Hp [H1 H2 H3]. constructor; [by eapply heap_ok_perm| |by rewrite <- Hp].
  change (map seg_addr l') with (seg_addr <$> l'). by rewrite <- Hp.
Qed.

Global Instance owned_Proper h : Proper ((≡ₚ) ==> iff) (owned h).
Proof. intros l l' Hp. split; apply owned_perm; [done|by symmetry]. Qed.

Lemma owned_tail h s l : owned h (s :: l) -> owned h l.
Proof.
  intros [H1 H2 H3]. simpl in H2. apply NoDup_cons in H2 as [_ H2]. inversion H3; subst.
  constructor; [by eapply heap_ok_tail|done|done].
Qed.

Lemma owned_app_r h l l' : owned h (l ++ l') -> owned h l'.
Proof. induction l; [done|]. simpl. intros H%owned_tail. auto. Qed.

Lemma owned_app_l h l l' : owned h (l ++ l') -> owned h l.
Proof. rewrite (Permutation_app_comm l l'). apply owned_app_r. Qed.

Lemma owned_deref h l s : owned h l -> s ∈ l -> exists u, deref h s = Ret u /\ seg_ok u s.
Proof. intros [H _ _]. by apply heap_ok_deref. Qed.

Lemma owned_free h s l :
  owned h (s :: l) ->
  returns (nr_rlc_free_sdu_segment h s) (fun '(_, h') => owned h' l /\ heap_next h' = heap_next h).
Proof.
  intros Ho. eapply returns_mono; [apply heap_ok_free, Ho|]. intros [b h'] [Hok Hn]. split; [|done].
  apply owned_tail in Ho as [_ H2 H3]. constructor; [done|done|]. by rewrite Hn.
Qed.

Lemma owned_store h l s u u' :
  owned h l -> deref h s = Ret u -> sdu_data u' = sdu_data u ->
  sdu_ref_count u' = sdu_ref_count u -> sdu_free_count u' = sdu_free_count u ->
  owned (store_sdu h s u') l.
Proof.
  intros [H1 H2 H3] Hu Hd Hr Hf. constructor; [by eapply heap_ok_store|done|done].
Qed.

Lemma owned_new h l buffer id :
  owned h l -> 0 < zlen buffer ->
  let '(s, h') := nr_rlc_new_sdu h buffer id in
  owned h' (s :: l) /\ (heap_next h <= seg_addr s < heap_next h')%nat /\
  seg_size s = zlen buffer.
Proof.
  intros [H1 H2 H3] Hb. pose proof (heap_ok_new h l buffer id H1 Hb) as Hnew.
  simpl in *. destruct Hnew as (Hok & _ & _). split; [|simpl; lia]. constructor; [done| |].
  - simpl. constructor; [|done]. intros (t & Ht & Hin)%list_elem_of_fmap.
    rewrite list.Forall_forall in H3. specialize (H3 t Hin). simpl in H3. lia.
  - constructor; [simpl; lia|]. eapply Forall_weaken; [|exact H3]. simpl. lia.
Qed.

(** all segments of a list can be freed *)
Lemma owned_free_list l : forall h l',
  owned h (l ++ l') ->
  returns (nr_rlc_free_sdu_segment_list h l) (fun h' => owned h' l').
Proof.
  induction l as [|s l IH]; intros h l' Ho; simpl; [by apply returns_Ret|].
  eapply returns_seq; [by apply owned_free|]. intros [b h'] [Ho' _]. by apply IH.
Qed.

(** an address is that of one segment *)
Lemma owned_last_addr h l s l' :
  owned h (l ++ s :: l') ->
  option_map seg_addr (last (l ++ s :: l')) = Some (seg_addr s) -> l' = [].
Proof.
  intros Ho Hl. destruct l' as [|x l' _] using rev_ind; [done|exfalso].
  rewrite app_comm_cons, app_assoc, last_snoc in Hl. injection Hl as Hl.
  apply owned_app_r in Ho. destruct Ho as [_ Hnd _]. simpl in Hnd. apply NoDup_cons in Hnd as [Hs _].
  apply Hs. rewrite <- Hl, map_app. apply elem_of_app. right. left.
Qed.

(** ** Splitting a segment

    The SDU counts one reference more, the second part is a new object. *)
Definition seg_head (s : nr_rlc_sdu_segment_t) (k : Z) : nr_rlc_sdu_segment_t :=
  s <| seg_size := k |> <| seg_is_last := false |>.

Definition seg_tail (s : nr_rlc_sdu_segment_t) (k : Z) (a : nat) : nr_rlc_sdu_segment_t :=
  s <| seg_addr := a |> <| seg_size := seg_size s - k |> <| seg_so := seg_so s + k |>
    <| seg_is_first := false |>.

Lemma seg_split_ok u s k a :
  seg_ok u s -> 0 < k < seg_size s -> seg_ok u (seg_head s k) /\ seg_ok u (seg_tail s k a).
Proof.
  intros [H1 H2 H3 H4 H5] Hk. split; constructor; cbn; try lia; try done.
  rewrite H5. f_equal. lia.
Qed.

Lemma heap_ok_split h s l u k a :
  heap_ok h (s :: l) -> deref h s = Ret u -> 0 < k < seg_size s ->
  heap_ok (store_sdu h s (u <| sdu_ref_count ::= Z.add 1 |>)) (seg_head s k :: seg_tail s k a :: l).
Proof.
  intros Hok Hu Hk. pose proof (deref_lookup _ _ _ Hu) as Hlu.
  pose proof (ho_refs _ _ Hok _ _ Hlu) as Hr. rewrite refs_cons, Nat.eqb_refl in Hr.
  destruct (heap_ok_deref h (s :: l) s Hok ltac:(left)) as (u' & Hu' & Hs).
  rewrite Hu in Hu'. injection Hu' as <-.
  assert (Hl : heap_ok (store_sdu h s (u <| sdu_ref_count ::= Z.add 1 |>)) l).
  { eapply heap_ok_set; [by eapply heap_ok_tail|done|done|simpl; lia]. }
  destruct (seg_split_ok u s k a Hs Hk) as [Hh Ht]. destruct Hl as [H1 H2 H3].
  assert (Hd : forall t, seg_ok u t -> seg_ok (u <| sdu_ref_count ::= Z.add 1 |>) t).
  { intros t. by apply seg_ok_data. }
  constructor; [|..|done].
  - constructor; [|constructor; [|done]]; (eexists; split; [apply lookup_insert_eq|by apply Hd]).
  - intros b v Hb. rewrite !refs_cons. cbn [seg_head seg_tail seg_sdu set].
    destruct (Nat.eqb_spec (seg_sdu s) b) as [<-|E].
    + simpl in Hb. rewrite lookup_insert_eq in Hb. injection Hb as <-. simpl. lia.
    + specialize (H2 b v Hb). lia.
Qed.

Lemma owned_split h s l u k :
  owned h (s :: l) -> deref h s = Ret u -> 0 < k < seg_size s ->
  owned (store_sdu h s (u <| sdu_ref_count ::= Z.add 1 |>) <| heap_next ::= S |>)
    (seg_head s k :: seg_tail s k (heap_next h) :: l).
Proof.
  intros [H1 H2 H3] Hu Hk. pose proof (heap_ok_split h s l u k (heap_next h) H1 Hu Hk) as [G1 G2 G3].
  constructor; [constructor; [exact G1|exact G2|]| |].
  - intros b v Hb. specialize (G3 b v Hb). simpl in *. lia.
  - simpl in *. apply NoDup_cons in H2 as [Hs Hl]. inversion H3 as [|? ? Hsn Hln]; subst.
    rewrite list.Forall_forall in Hln.
    assert (Hfresh : heap_next h ∉ map seg_addr l).
    { intros (t & Ht & Hin)%list_elem_of_fmap. specialize (Hln t Hin). simpl in Hln. lia. }
    constructor; [|by constructor]. intros [E|E]%elem_of_cons; [|done]. cbn in E. lia.
  - simpl in *. inversion H3 as [|? ? Hsn Hln]; subst. simpl in Hsn.
    constructor; [simpl; lia|]. constructor; [simpl; lia|].
    eapply Forall_weaken; [|exact Hln]. simpl. lia.
Qed.
