(* ===== verification/TimeStat.v ===== *)
(** Sliding-window average of timed values: src/common/utils/time_stat.c.

    The ring buffer of (time, value) pairs is kept as the code has it: [head]
    and [tail] indexes into [buffer], doubled when it is full. *)

From stdpp Require Import base tactics list numbers.
From Stdlib Require Import ZArith Lia.
From S2P Require Import Prelude.

Record time_value_t := mk_time_value { tv_time : Z; tv_value : Z }.

Record time_ring_t := mk_time_ring {
  ring_head : Z;
  ring_tail : Z;
  ring_buffer : list time_value_t;
  ring_maxsize : Z;
  ring_size : Z
}.
#[export] Instance time_ring_eta : Eta time_ring_t :=
  fun r => mk_time_ring (ring_head r) (ring_tail r) (ring_buffer r)
             (ring_maxsize r) (ring_size r).

Record time_average_t := mk_time_average {
  ta_duration : Z;
  ta_r : time_ring_t;
  ta_accumulated_value : Z
}.
#[export] Instance time_average_eta : Eta time_average_t :=
  fun t => mk_time_average (ta_duration t) (ta_r t) (ta_accumulated_value t).

Definition ring_get (r : time_ring_t) (i : Z) : outcome time_value_t :=
  if (0 <=? i) then
    match ring_buffer r !! Z.to_nat i with Some v => Ret v | None => Undef end
  else Undef.

Definition time_average_new (duration initial_size : Z) : outcome time_average_t :=
  if negb (Z.land initial_size (initial_size - 1) =? 0) then Exit
  else Ret (mk_time_average duration
              (mk_time_ring (initial_size - 1) 0
                 (replicate (Z.to_nat initial_size) (mk_time_value 0 0)) initial_size 0) 0).

Definition time_average_reset (t : time_average_t) : time_average_t :=
  t <| ta_r := ta_r t <| ring_head := ring_maxsize (ta_r t) - 1 |>
                     <| ring_tail := 0 |> <| ring_size := 0 |> |>
    <| ta_accumulated_value := 0 |>.

(** the loop runs at most [ring_size] times *)
Fixpoint remove_old_loop (fuel : nat) (t : time_average_t) (time : Z)
    : outcome time_average_t :=
  let r := ta_r t in
  if ring_size r =? 0 then Ret t
  else
    v ← ring_get r (ring_tail r);
    if tv_time v <? u64 (time - ta_duration t) then
      match fuel with
      | O => Diverge
      | S fuel =>
          let r := r <| ring_size ::= Z.add (-1) |>
                     <| ring_tail := (ring_tail r + 1) %% ring_maxsize r |> in
          remove_old_loop fuel
            (t <| ta_accumulated_value := u64 (ta_accumulated_value t - tv_value v) |>
               <| ta_r := r |>) time
      end
    else Ret t.

Definition remove_old (t : time_average_t) (time : Z) : outcome time_average_t :=
  remove_old_loop (Z.to_nat (ring_size (ta_r t))) t time.

(** doubling a full buffer: [realloc] leaves the new half unspecified (here:
    zeroes), and the wrapped part [0..head] moves behind the old end *)
Definition ring_grow (r : time_ring_t) : time_ring_t :=
  let r := r <| ring_buffer ::= (fun b => b ++ replicate (Z.to_nat (ring_maxsize r)) (mk_time_value 0 0)) |>
             <| ring_maxsize ::= Z.mul 2 |> in
  if ring_head r <? ring_tail r then
    let n := Z.to_nat (ring_head r + 1) in
    let s := Z.to_nat (ring_size r) in
    let b := ring_buffer r in
    r <| ring_buffer := take s b ++ take n b ++ drop (s + n) b |>
      <| ring_head := ring_head r + ring_size r |>
  else r.

Definition time_average_add (t : time_average_t) (time value : Z) : outcome time_average_t :=
  t ← remove_old t time;
  let r := ta_r t in
  let r := if ring_size r =? ring_maxsize r then ring_grow r else r in
  let head := (ring_head r + 1) %% ring_maxsize r in
  if (0 <=? head) && (head <? zlen (ring_buffer r)) then
    Ret (t <| ta_r := r <| ring_head := head |>
                        <| ring_buffer ::= <[Z.to_nat head := mk_time_value time value]> |>
                        <| ring_size ::= Z.add 1 |> |>
           <| ta_accumulated_value := u64 (ta_accumulated_value t + value) |>)
  else Undef.

(** the quotient is a [double] in the source: its numerator and denominator *)
Definition time_average_get_average (t : time_average_t) (time : Z)
    : outcome ((Z * Z) * time_average_t) :=
  t ← remove_old t time;
  Ret (if ring_size (ta_r t) =? 0 then (0, 1)
       else (ta_accumulated_value t, ring_size (ta_r t)), t).

(** The ring buffer of [time_average_t] implements a queue of timed values: old
    entries leave at the front, new ones enter at the back, and the average is
    over what the queue holds. *)

(** ** The abstract queue *)

(** entries older than the window leave, from the front *)
Fixpoint drop_old (duration time : Z) (q : list time_value_t) : list time_value_t :=
  match q with
  | [] => []
  | v :: q' => if tv_time v <? u64 (time - duration) then drop_old duration time q' else q
  end.

(** ** Representation *)

(** index in the buffer of the [i]-th entry of the queue *)
Definition slot (r : time_ring_t) (i : Z) : nat := Z.to_nat ((ring_tail r + i) mod ring_maxsize r).

Record ring_repr (r : time_ring_t) (q : list time_value_t) : Prop := mk_ring_repr {
  ring_cap : 0 < ring_maxsize r;
  ring_len : zlen (ring_buffer r) = ring_maxsize r;
  ring_fits : ring_size r = zlen q /\ zlen q <= ring_maxsize r;
  ring_tail_ok : 0 <= ring_tail r < ring_maxsize r;
  ring_head_ok : ring_head r = (ring_tail r + zlen q - 1) mod ring_maxsize r;
  ring_slots : forall i v, q !! i = Some v -> ring_buffer r !! slot r (Z.of_nat i) = Some v
}.

(** the accumulated value is the sum of the queue, in 64 bits *)
Record avg_repr (t : time_average_t) (q : list time_value_t) : Prop := mk_avg_repr {
  avg_ring : ring_repr (ta_r t) q;
  avg_sum : ta_accumulated_value t = u64 (sumZ tv_value q)
}.

Lemma ring_get_front r v q : ring_repr r (v :: q) -> ring_get r (ring_tail r) = Ret v.
Proof.
  intros [H1 H2 H3 H4 H5 H6]. unfold ring_get. rewrite (proj2 (Z.leb_le _ _)) by lia.
  specialize (H6 0%nat v eq_refl). unfold slot in H6. rewrite Z.add_0_r, Z.mod_small in H6 by lia.
  by rewrite H6.
Qed.

Definition ring_pop (r : time_ring_t) : time_ring_t :=
  r <| ring_size ::= Z.add (-1) |> <| ring_tail := (ring_tail r + 1) %% ring_maxsize r |>.

Lemma ring_pop_repr r v q : ring_repr r (v :: q) -> ring_repr (ring_pop r) q.
Proof.
  intros [H1 H2 [H3 H3'] H4 H5 H6]. rewrite zlen_cons in *.
  assert (Ht : (ring_tail r + 1) %% ring_maxsize r = (ring_tail r + 1) mod ring_maxsize r)
    by (apply rem_mod; lia).
  constructor; simpl; rewrite ?Ht; try done.
  - split; lia.
  - apply Z.mod_pos_bound. lia.
  - rewrite H5, <- (Z.add_sub_assoc (_ mod _)), Zplus_mod_idemp_l. f_equal. lia.
  - intros i x Hi. specialize (H6 (S i) x Hi). unfold slot in *. simpl. rewrite Ht, Zplus_mod_idemp_l.
    rewrite <- H6. do 2 f_equal. f_equal. lia.
Qed.

Lemma u64_sub a b : u64 (u64 a - b) = u64 (a - b).
Proof. unfold u64. by rewrite Zminus_mod_idemp_l. Qed.

Lemma u64_add a b : u64 (u64 a + b) = u64 (a + b).
Proof. unfold u64. by rewrite Zplus_mod_idemp_l. Qed.

Lemma remove_old_loop_repr fuel : forall t q time,
  avg_repr t q -> (length q <= fuel)%nat ->
  returns (remove_old_loop fuel t time) (fun t' =>
    avg_repr t' (drop_old (ta_duration t) time q) /\ ta_duration t' = ta_duration t).
Proof.
  induction fuel as [|fuel IH]; intros t q time H Hf;
    pose proof H as [Hr Hs]; pose proof (ring_fits _ _ Hr) as [Hsz _].
  { destruct q; simpl in Hf; [|lia]. simpl. rewrite Hsz. by apply returns_Ret. }
  cbn [remove_old_loop]. destruct q as [|v q].
  { rewrite Hsz. by apply returns_Ret. }
  rewrite zlen_cons in Hsz. pose proof (zlen_nonneg q).
  rewrite (proj2 (Z.eqb_neq _ _)) by lia. rewrite (ring_get_front _ _ _ Hr), bind_Ret_l.
  cbn [drop_old]. destruct (tv_time v <? u64 (time - ta_duration t)); [|by apply returns_Ret].
  fold (ring_pop (ta_r t)). eapply returns_mono; [apply (IH _ q)|].
  - split; [by eapply ring_pop_repr|]. simpl. rewrite Hs. simpl. rewrite u64_sub. f_equal. lia.
  - simpl in Hf. lia.
  - simpl. auto.
Qed.

Lemma remove_old_repr t q time :
  avg_repr t q ->
  returns (remove_old t time) (fun t' =>
    avg_repr t' (drop_old (ta_duration t) time q) /\ ta_duration t' = ta_duration t).
Proof.
  intros Hr. apply remove_old_loop_repr; [done|]. destruct Hr as [[_ _ [-> _] _ _ _] _].
  unfold zlen. lia.
Qed.

(** ** Growing a full ring *)

(** a ring of twice the size with the same entries, no longer wrapped *)
Lemma ring_unrolled r r' q :
  ring_repr r q -> zlen q = ring_maxsize r ->
  ring_maxsize r' = 2 * ring_maxsize r -> ring_tail r' = ring_tail r -> ring_size r' = ring_size r ->
  ring_head r' = ring_tail r + ring_maxsize r - 1 -> zlen (ring_buffer r') = 2 * ring_maxsize r ->
  (forall i, 0 <= i < ring_maxsize r ->
     ring_buffer r' !! Z.to_nat (ring_tail r + i) = ring_buffer r !! slot r i) ->
  ring_repr r' q.
Proof.
  intros [H1 H2 [H3 _] H4 H5 H6] Hq HM Ht Hs Hh Hl Hb.
  constructor; rewrite ?HM, ?Ht, ?Hs, ?Hh; try lia.
  - rewrite Hq. symmetry. apply Z.mod_small. lia.
  - intros i v Hi. pose proof (lookup_lt_Some _ _ _ Hi). unfold zlen in Hq.
    unfold slot. rewrite HM, Ht, Z.mod_small by lia. rewrite Hb by lia. by apply H6.
Qed.

Lemma full_head r q :
  ring_repr r q -> zlen q = ring_maxsize r ->
  ring_head r = if ring_tail r =? 0 then ring_maxsize r - 1 else ring_tail r - 1.
Proof.
  intros [H1 H2 [H3 _] H4 H5 H6] Hq. rewrite H5, Hq. destruct (Z.eqb_spec (ring_tail r) 0) as [->|].
  - rewrite Z.add_0_l. apply Z.mod_small. lia.
  - replace (ring_tail r + ring_maxsize r - 1) with (ring_tail r - 1 + 1 * ring_maxsize r) by lia.
    rewrite Z.mod_add by lia. apply Z.mod_small. lia.
Qed.

Lemma ring_grow_repr r q :
  ring_repr r q -> ring_size r = ring_maxsize r ->
  ring_repr (ring_grow r) q /\ ring_size (ring_grow r) < ring_maxsize (ring_grow r).
Proof.
  intros Hr Hfull. pose proof Hr as [H1 H2 [H3 _] H4 _ _]. rewrite H3 in Hfull.
  pose proof (full_head _ _ Hr Hfull) as Hh.
  assert (Hlen : length (ring_buffer r) = Z.to_nat (ring_maxsize r)) by (unfold zlen in H2; lia).
  unfold ring_grow. simpl. rewrite Hh, H3, Hfull. set (M := ring_maxsize r) in *.
  destruct (Z.eqb_spec (ring_tail r) 0) as [Ht|Ht].
  - rewrite (proj2 (Z.ltb_ge _ _)) by lia. split; [|simpl; fold M; lia].
    apply (ring_unrolled r); simpl; fold M; try done; try lia.
    + rewrite zlen_app, H2. unfold zlen. rewrite length_replicate. lia.
    + intros i Hi. unfold slot. fold M. rewrite Z.mod_small by lia. rewrite lookup_app_l; [done|lia].
  - rewrite (proj2 (Z.ltb_lt _ _)) by lia. split; [|simpl; fold M; lia].
    replace (ring_tail r - 1 + 1) with (ring_tail r) by lia.
    rewrite (take_app_length' (ring_buffer r)), (take_app_le (ring_buffer r)) by lia.
    apply (ring_unrolled r); simpl; fold M; try done; try lia.
    + unfold zlen. rewrite !length_app, length_take, length_drop, length_app, length_replicate. lia.
    + intros i Hi. unfold slot. fold M. destruct (Z.lt_ge_cases (ring_tail r + i) M).
      * rewrite Z.mod_small by lia. rewrite lookup_app_l; [done|lia].
      * rewrite lookup_app_r by lia. rewrite lookup_app_l by (rewrite length_take; lia).
        rewrite lookup_take_lt by lia.
        replace (ring_tail r + i) with (ring_tail r + i - M + 1 * M) at 2 by lia.
        rewrite Z.mod_add, Z.mod_small by lia. f_equal. lia.
Qed.

(** ** Adding a value *)

Lemma ring_push_repr r q v :
  ring_repr r q -> ring_size r < ring_maxsize r ->
  let head := (ring_head r + 1) %% ring_maxsize r in
  0 <= head < zlen (ring_buffer r) /\
  ring_repr (r <| ring_head := head |> <| ring_buffer ::= <[Z.to_nat head := v]> |>
               <| ring_size ::= Z.add 1 |>) (q ++ [v]).
Proof.
  intros [H1 H2 [H3 H3'] H4 H5 H6] Hroom head.
  pose proof (Z.mod_pos_bound (ring_tail r + zlen q - 1) (ring_maxsize r) H1).
  assert (Hhead : head = (ring_tail r + zlen q) mod ring_maxsize r).
  { subst head. rewrite rem_mod by lia. rewrite H5, Zplus_mod_idemp_l. f_equal. lia. }
  pose proof (Z.mod_pos_bound (ring_tail r + zlen q) (ring_maxsize r) H1) as Hb.
  split; [lia|]. assert (zlen (q ++ [v]) = zlen q + 1) as Hl by (rewrite zlen_app; done).
  constructor; simpl; try rewrite Hl; try done; try lia.
  - unfold zlen in *. by rewrite length_insert.
  - rewrite Hhead. f_equal. lia.
  - intros i x Hi. unfold slot. simpl.
    apply lookup_app_Some in Hi as [Hi|[Hge Hi]].
    + pose proof (lookup_lt_Some _ _ _ Hi). rewrite list_lookup_insert_ne; [by apply H6|].
      rewrite Hhead. intros Heq. apply Z2Nat.inj in Heq; [|lia|apply Z.mod_pos_bound; lia].
      apply (mod_window_inj (ring_maxsize r) (ring_tail r) (zlen q) (Z.of_nat i)) in Heq; unfold zlen in *; lia.
    + apply list_lookup_singleton_Some in Hi as [Hi ->].
      replace (Z.of_nat i) with (zlen q) by (unfold zlen; lia). rewrite <- Hhead.
      apply list_lookup_insert_eq. unfold zlen in *. lia.
Qed.

Lemma add_repr t q time value :
  avg_repr t q ->
  returns (time_average_add t time value) (fun t' =>
    avg_repr t' (drop_old (ta_duration t) time q ++ [mk_time_value time value]) /\
    ta_duration t' = ta_duration t).
Proof.
  intros Hr. unfold time_average_add. eapply returns_seq; [by apply remove_old_repr|].
  intros t1 [[Hr1 Hs1] Hd1]. set (q1 := drop_old _ _ q) in *.
  set (r := if ring_size (ta_r t1) =? _ then _ else _).
  assert (ring_repr r q1 /\ ring_size r < ring_maxsize r) as [Hrr Hroom].
  { subst r. destruct (Z.eqb_spec (ring_size (ta_r t1)) (ring_maxsize (ta_r t1))).
    - by apply ring_grow_repr.
    - split; [done|]. destruct Hr1 as [_ _ [? ?] _ _ _]. lia. }
  clearbody r. destruct (ring_push_repr r q1 (mk_time_value time value) Hrr Hroom) as [Hh Hpush].
  cbv zeta. rewrite (proj2 (Z.leb_le _ _)), (proj2 (Z.ltb_lt _ _)) by lia. simpl andb. cbv iota.
  apply returns_Ret. split; [|done]. split; [exact Hpush|]. simpl.
  rewrite Hs1, u64_add, sumZ_app. simpl. do 2 f_equal. lia.
Qed.

(** a history of additions, with their times and values *)
Fixpoint add_all (t : time_average_t) (l : list time_value_t) : outcome time_average_t :=
  match l with
  | [] => Ret t
  | v :: l => t ← time_average_add t (tv_time v) (tv_value v); add_all t l
  end.

Definition queue_add (duration : Z) (q : list time_value_t) (v : time_value_t) : list time_value_t :=
  drop_old duration (tv_time v) q ++ [v].

Lemma add_all_repr l : forall t q,
  avg_repr t q ->
  returns (add_all t l) (fun t' =>
    avg_repr t' (fold_left (queue_add (ta_duration t)) l q) /\ ta_duration t' = ta_duration t).
Proof.
  induction l as [|v l IH]; intros t q Hr; simpl; [by apply returns_Ret|].
  eapply returns_seq; [by apply add_repr|]. intros t1 [Hr1 Hd1]. rewrite <- Hd1. apply IH.
  rewrite Hd1. by destruct v.
Qed.

Lemma new_repr duration n :
  0 < n -> Z.land n (n - 1) = 0 ->
  returns (time_average_new duration n) (fun t => avg_repr t [] /\ ta_duration t = duration).
Proof.
  intros Hn Hp. unfold time_average_new. rewrite Hp. apply returns_Ret. split; [|done]. split; [|done].
  constructor; simpl; try done; try lia.
  - unfold zlen. rewrite length_replicate. lia.
  - split; [done|unfold zlen; simpl; lia].
  - apply Z.mod_unique with (-1); [lia|unfold zlen; simpl; lia].
Qed.

(** C9: the growing ring buffer behind the waiting-time measurement behaves as
    a queue for any sequence of additions and any initial power-of-two
    capacity: entries older than the window are dropped from the front, the new
    value is appended, the ring never overruns or indexes outside its buffer,
    and the average returned is the 64-bit sum of the queue over its length. *)
Theorem time_average_is_queue duration n l now :
  0 < n -> Z.land n (n - 1) = 0 ->
  let q := fold_left (queue_add duration) l [] in
  let q' := drop_old duration now q in
  returns (t ← time_average_new duration n; t ← add_all t l; time_average_get_average t now)
    (fun '(avg, t') => avg_repr t' q' /\
       avg = if bool_decide (q' = []) then (0, 1) else (u64 (sumZ tv_value q'), zlen q')).
Proof.
  intros Hn Hp. simpl. eapply returns_seq; [by apply new_repr|]. intros t [Hr Hd].
  eapply returns_seq; [by apply add_all_repr|]. intros t1 [Hr1 Hd1].
  unfold time_average_get_average. eapply returns_seq; [by apply remove_old_repr|].
  intros t' [Hr' Hd']. rewrite Hd1, Hd in *. apply returns_Ret. split; [done|].
  destruct Hr' as [[_ _ [-> _] _ _ _] ->]. destruct (drop_old duration now _) as [|v q]; [done|].
  rewrite zlen_cons, (proj2 (Z.eqb_neq _ _)) by (pose proof (zlen_nonneg q); lia).
  by rewrite bool_decide_false.
Qed.

Lemma time_average_is_queue_witness :
  returns (t ← time_average_new 10 1; t ← add_all t [mk_time_value 0 5; mk_time_value 8 7; mk_time_value 15 9];
           time_average_get_average t 16)
    (fun '(avg, t') => avg_repr t' [mk_time_value 8 7; mk_time_value 15 9] /\ avg = (16, 2)).
Proof.
  eapply returns_mono; [apply (time_average_is_queue 10 1 [mk_time_value 0 5; mk_time_value 8 7; mk_time_value 15 9] 16);
                        reflexivity|].
  intros [avg t'] [H1 H2]. split; [exact H1|]. rewrite H2. vm_compute. reflexivity.
Defined.
