(* ===== verification/RlcEntity.v ===== *)
(** What the three kinds of RLC entities have in common:
    src/openair2/LAYER2/nr_rlc/nr_rlc_entity.h.

    The callbacks an entity is given ([deliver_sdu], [sdu_successful_delivery],
    [max_retx_reached]) are the upper layers: the model records the calls, in
    order, in [events]. Counters have the width the source gives them. *)

From stdpp Require Import base tactics list numbers gmap.
From Stdlib Require Import ZArith Lia.
From S2P Require Import Prelude TimeStat.

Definition NR_SDU_MAX : Z := 16000.

Inductive nr_rlc_mode_t := NR_RLC_AM | NR_RLC_UM | NR_RLC_TM.

Record nr_rlc_statistics_t := mk_stats {
  mode : nr_rlc_mode_t;
  txpdu_pkts : Z;
  txpdu_bytes : Z;
  txpdu_wt_ms : Z;
  txpdu_dd_pkts : Z;
  txpdu_dd_bytes : Z;
  txpdu_retx_pkts : Z;
  txpdu_retx_bytes : Z;
  txpdu_segmented : Z;
  txpdu_status_pkts : Z;
  txpdu_status_bytes : Z;
  txbuf_occ_bytes : Z;
  txbuf_occ_pkts : Z;
  rxpdu_pkts : Z;
  rxpdu_bytes : Z;
  rxpdu_dup_pkts : Z;
  rxpdu_dup_bytes : Z;
  rxpdu_dd_pkts : Z;
  rxpdu_dd_bytes : Z;
  rxpdu_ow_pkts : Z;
  rxpdu_ow_bytes : Z;
  rxpdu_status_pkts : Z;
  rxpdu_status_bytes : Z;
  rxbuf_occ_bytes : Z;
  rxbuf_occ_pkts : Z;
  txsdu_pkts : Z;
  txsdu_bytes : Z;                    (** 64 bits *)
  stat_txsdu_avg_time_to_tx : Z * Z;  (** a [double]: numerator, denominator *)
  txsdu_wt_us : Z;
  rxsdu_pkts : Z;
  rxsdu_bytes : Z;                    (** 64 bits *)
  rxsdu_dd_pkts : Z;
  rxsdu_dd_bytes : Z
}.
#[export] Instance stats_eta : Eta nr_rlc_statistics_t :=
  fun s => mk_stats (mode s) (txpdu_pkts s) (txpdu_bytes s) (txpdu_wt_ms s)
    (txpdu_dd_pkts s) (txpdu_dd_bytes s) (txpdu_retx_pkts s) (txpdu_retx_bytes s)
    (txpdu_segmented s) (txpdu_status_pkts s) (txpdu_status_bytes s)
    (txbuf_occ_bytes s) (txbuf_occ_pkts s) (rxpdu_pkts s) (rxpdu_bytes s)
    (rxpdu_dup_pkts s) (rxpdu_dup_bytes s) (rxpdu_dd_pkts s) (rxpdu_dd_bytes s)
    (rxpdu_ow_pkts s) (rxpdu_ow_bytes s) (rxpdu_status_pkts s) (rxpdu_status_bytes s)
    (rxbuf_occ_bytes s) (rxbuf_occ_pkts s) (txsdu_pkts s) (txsdu_bytes s)
    (stat_txsdu_avg_time_to_tx s) (txsdu_wt_us s) (rxsdu_pkts s) (rxsdu_bytes s)
    (rxsdu_dd_pkts s) (rxsdu_dd_bytes s).

(** all counters zero, as [calloc] leaves them *)
Definition zero_stats (m : nr_rlc_mode_t) : nr_rlc_statistics_t :=
  mk_stats m 0 0 0 0 0 0 0 0 0 0 0 0 0 0 0 0 0 0 0 0 0 0 0 0 0 0 (0, 1) 0 0 0 0 0.

(** [counter += n] on a [uint32_t] and on a [uint64_t] *)
Definition add32 (n x : Z) : Z := u32 (x + n).
Definition add64 (n x : Z) : Z := u64 (x + n).

Record nr_rlc_entity_buffer_status_t := mk_bstatus {
  bs_status_size : Z;
  bs_tx_size : Z;
  bs_retx_size : Z
}.
#[export] Instance bstatus_eta : Eta nr_rlc_entity_buffer_status_t :=
  fun b => mk_bstatus (bs_status_size b) (bs_tx_size b) (bs_retx_size b).

(** calls to the callbacks of the upper layers *)
Inductive rlc_event :=
| DeliverSdu (sdu : list Z)
| SduSuccessfulDelivery (sdu_id : Z)
| MaxRetxReached.

Record nr_rlc_entity_t := mk_common {
  events : list rlc_event;
  bstatus : nr_rlc_entity_buffer_status_t;
  stats : nr_rlc_statistics_t;
  txsdu_avg_time_to_tx : time_average_t;
  avg_time_is_on : bool
}.
#[export] Instance common_eta : Eta nr_rlc_entity_t :=
  fun c => mk_common (events c) (bstatus c) (stats c) (txsdu_avg_time_to_tx c)
             (avg_time_is_on c).

Definition emit (ev : rlc_event) (c : nr_rlc_entity_t) : nr_rlc_entity_t :=
  c <| events ::= (fun l => l ++ [ev]) |>.

(** the measure of the time an SDU waited before its first transmission *)
Definition account_waiting_time (c : nr_rlc_entity_t) (time_now time_of_arrival : Z)
    : outcome nr_rlc_entity_t :=
  if avg_time_is_on c then
    ta ← time_average_add (txsdu_avg_time_to_tx c) time_now (u64 (time_now - time_of_arrival));
    Ret (c <| txsdu_avg_time_to_tx := ta |>)
  else Ret c.

(** Arithmetic of sequence numbers: distances from the base of a window. *)

(** distance from [base] to [a], modulo [M]; the body of the [modulus_rx] and
    [modulus_tx] functions of the entities *)
Definition dist (base M a : Z) : Z := let r := a - base in if r <? 0 then r + M else r.

Section dist.
Context (M base : Z) (Hb : 0 <= base < M).

Lemma dist_mod a : 0 <= a < M -> dist base M a = (a - base) mod M.
Proof using Hb.
  intros Ha. unfold dist. destruct (Z.ltb_spec (a - base) 0).
  - apply Z.mod_unique with (-1); lia.
  - symmetry. apply Z.mod_small. lia.
Qed.

Lemma dist_range a : 0 <= a < M -> 0 <= dist base M a < M.
Proof using Hb. intros. rewrite dist_mod by done. apply Z.mod_pos_bound. lia. Qed.

Lemma dist_base : dist base M base = 0.
Proof using Type. unfold dist. rewrite Z.sub_diag. done. Qed.

Lemma dist_inj a b : 0 <= a < M -> 0 <= b < M -> dist base M a = dist base M b -> a = b.
Proof using Hb.
  intros. unfold dist in *.
  destruct (Z.ltb_spec (a - base) 0), (Z.ltb_spec (b - base) 0); lia.
Qed.

Lemma dist_0 a : 0 <= a < M -> dist base M a = 0 -> a = base.
Proof using Hb. intros Ha H. apply dist_inj; [done|done|]. by rewrite dist_base. Qed.

Lemma dist_succ a :
  0 <= a < M -> dist base M a + 1 < M ->
  0 <= (a + 1) %% M < M /\ dist base M ((a + 1) %% M) = dist base M a + 1.
Proof using Hb.
  intros Ha Hd. rewrite rem_succ by done. unfold dist in *.
  destruct (Z.eqb_spec (a + 1) M); repeat case_match; bool_prop; lia.
Qed.

(** distances from a base moved forward by [dist base M b] *)
Lemma dist_shift b a :
  0 <= b < M -> 0 <= a < M -> dist base M b <= dist base M a ->
  dist b M a = dist base M a - dist base M b.
Proof using Hb. intros. unfold dist in *. repeat case_match; bool_prop; lia. Qed.

(** ... and of the SNs the base has passed *)
Lemma dist_passed b a :
  0 <= b < M -> 0 <= a < M -> dist base M a < dist base M b ->
  dist b M a = dist base M a - dist base M b + M.
Proof using Hb. intros. unfold dist in *. repeat case_match; bool_prop; lia. Qed.
End dist.

(** distance to an SN given as an offset from the base *)
Lemma dist_offset M base k : 0 <= base < M -> 0 <= k < M -> dist base M ((base + k) %% M) = k.
Proof.
  intros Hb Hk. rewrite rem_mod by lia.
  rewrite (dist_mod M base Hb) by (apply Z.mod_pos_bound; lia).
  rewrite Zminus_mod_idemp_l. replace (base + k - base) with k by lia. apply Z.mod_small. lia.
Qed.
