(* ===== verification/RlcRxList.v ===== *)
(** Walks over the list of received PDUs that the acknowledged and the
    unacknowledged mode entities have in common (the same static functions in
    nr_rlc_entity_am.c and nr_rlc_entity_um.c): the PDUs of an SN, whether they
    make a complete SDU, and the reassembly of that SDU. *)

From stdpp Require Import base tactics list numbers gmap.
From Stdlib Require Import ZArith Lia Sorted.
From S2P Require Import Prelude RlcPdu TimeStat RlcEntity.

(** the part of the list that starts with the first PDU of [sn] *)
Fixpoint find_sn (l : list nr_rlc_pdu_t) (sn : Z) : list nr_rlc_pdu_t :=
  match l with
  | [] => []
  | p :: next => if pdu_sn p =? sn then p :: next else find_sn next sn
  end.

Definition data_is_null (l : list nr_rlc_pdu_t) : bool :=
  match l with
  | p :: _ => match pdu_data p with None => true | Some _ => false end
  | [] => false
  end.

(** second loop of [sdu_full] *)
Fixpoint full_loop (l : list nr_rlc_pdu_t) (sn last_byte : Z) : bool :=
  match l with
  | [] => false
  | p :: next =>
      if pdu_sn p =? sn then
        if last_byte + 1 <? pdu_so p then false
        else if pdu_is_last p then true
        else full_loop next sn (Z.max last_byte (pdu_so p + pdu_size p - 1))
      else false
  end.

(** second loop of [sdu_has_missing_bytes] *)
Fixpoint missing_bytes_loop (l : list nr_rlc_pdu_t) (sn last_byte : Z) : bool :=
  match l with
  | [] => false
  | p :: next =>
      if pdu_sn p =? sn then
        if last_byte + 1 <? pdu_so p then true
        else missing_bytes_loop next sn (Z.max last_byte (pdu_so p + pdu_size p - 1))
      else false
  end.

(** the reassembly loop, from the first PDU of [sn]: the PDUs with their data
    freed, the bytes of the SDU so far ([so] of them), the [bad_sdu] flag and
    [rx_size]. [free_data] is what the loop does to a PDU it is done with. *)
Fixpoint reassemble_loop (free_data : nr_rlc_pdu_t -> nr_rlc_pdu_t) (l : list nr_rlc_pdu_t) (sn so : Z) (sdu : list Z)
    (bad_sdu : bool) (rx_size : Z)
    : outcome (list nr_rlc_pdu_t * Z * list Z * bool * Z) :=
  match l with
  | [] => Ret ([], so, sdu, bad_sdu, rx_size)
  | pdu :: next =>
      if pdu_sn pdu =? sn then
        let len := pdu_size pdu - (so - pdu_so pdu) in
        let bad_sdu := bad_sdu || (NR_SDU_MAX <? so + len) in
        '(so, sdu) ←
          (if negb bad_sdu && (0 <? len) then
             match pdu_data pdu with
             | None => Undef
             | Some data =>
                 bytes ← mem_read data (so - pdu_so pdu) len;
                 Ret (so + len, sdu ++ bytes)
             end
           else Ret (so, sdu));
        '(next, so, sdu, bad_sdu, rx_size) ←
          reassemble_loop free_data next sn so sdu bad_sdu (rx_size - pdu_size pdu);
        Ret (free_data pdu :: next, so, sdu, bad_sdu, rx_size)
      else Ret (l, so, sdu, bad_sdu, rx_size)
  end.

(** [go to first segment of sn], then the loop *)
Fixpoint reassemble_from (free_data : nr_rlc_pdu_t -> nr_rlc_pdu_t) (l : list nr_rlc_pdu_t) (sn : Z) (rx_size : Z)
    : outcome (list nr_rlc_pdu_t * Z * list Z * bool * Z) :=
  match l with
  | [] => Undef
  | pdu :: next =>
      if pdu_sn pdu =? sn then reassemble_loop free_data l sn 0 [] false rx_size
      else '(next, so, sdu, bad_sdu, rx_size) ← reassemble_from free_data next sn rx_size;
           Ret (pdu :: next, so, sdu, bad_sdu, rx_size)
  end.

(** Reassembly of an SDU from the received PDUs of its SN, shared by the
    acknowledged and the unacknowledged mode: when the PDUs are pieces of one
    SDU, [full_loop] tells whether they cover it, and the reassembly loop
    rebuilds it. *)

(** ** The PDUs of an SN are next to each other *)

Definition has_sn (sn : Z) (p : nr_rlc_pdu_t) : Prop := pdu_sn p = sn.
Definition other_sn (sn : Z) (p : nr_rlc_pdu_t) : Prop := pdu_sn p <> sn.

(** [l] is [b ++ k ++ a] with the PDUs of [sn] in [k] *)
Record sn_block (sn : Z) (l b k a : list nr_rlc_pdu_t) : Prop := mk_sn_block {
  blk_eq : l = b ++ k ++ a;
  blk_before : Forall (other_sn sn) b;
  blk_in : Forall (has_sn sn) k;
  blk_after : Forall (other_sn sn) a
}.

Lemma sorted_sn_block key l sn :
  StronglySorted (pdu_le key) l -> exists b k a, sn_block sn l b k a.
Proof.
  induction 1 as [|p l Hs (b & k & a & [-> Hb Hk Ha]) Hall]; [by exists [], [], []|].
  destruct (decide (pdu_sn p = sn)) as [Hp|Hp].
  - destruct k as [|q k].
    { exists [], [p], (b ++ a). split; simpl; auto. by apply Forall_app. }
    destruct b as [|r b]; [by exists [], (p :: q :: k), a; split; simpl; auto|]. exfalso.
    inversion Hall as [|? ? Hpr _]; subst. inversion Hb as [|? ? Hr _]; subst.
    inversion Hk as [|? ? Hq _]; subst. unfold other_sn, has_sn in *.
    inversion Hs as [|? ? _ Hr']; subst. rewrite list.Forall_forall in Hr'.
    specialize (Hr' q). destruct Hpr as [Hpr|[Hpr _]]; [|congruence].
    destruct Hr' as [Hrq|[Hrq _]]; [|rewrite Hq in Hrq; lia|congruence].
    rewrite elem_of_app. right. left.
  - exists (p :: b), k, a. split; simpl; auto.
Qed.

Lemma find_sn_none sn l : Forall (other_sn sn) l -> find_sn l sn = [].
Proof. induction 1 as [|p l Hp _ IH]; simpl; [done|]. by rewrite (proj2 (Z.eqb_neq _ _) Hp). Qed.

Lemma find_sn_block {sn l b k a} :
  sn_block sn l b k a -> find_sn l sn = if decide (k = []) then [] else k ++ a.
Proof.
  intros [-> Hb Hk Ha]. induction Hb as [|p b Hp _ IH]; simpl.
  - destruct Hk as [|q k Hq _]; simpl; [by apply find_sn_none|].
    by rewrite (proj2 (Z.eqb_eq _ _) Hq).
  - by rewrite (proj2 (Z.eqb_neq _ _) Hp).
Qed.

(** ** Pieces of an SDU *)

Record piece (sdu : list Z) (p : nr_rlc_pdu_t) : Prop := mk_piece {
  piece_so : 0 <= pdu_so p;
  piece_size : 0 < pdu_size p;
  piece_end : pdu_so p + pdu_size p <= zlen sdu;
  piece_last : pdu_is_last p = (pdu_so p + pdu_size p =? zlen sdu);
  piece_data : forall d, pdu_data p = Some d ->
    d = take (Z.to_nat (pdu_size p)) (drop (Z.to_nat (pdu_so p)) sdu);
  piece_first : pdu_is_first p = (pdu_so p =? 0)
}.

Definition pdu_end (p : nr_rlc_pdu_t) : Z := pdu_so p + pdu_size p.

(** end of the bytes covered without a gap from byte [n] on *)
Fixpoint contig (k : list nr_rlc_pdu_t) (n : Z) : Z :=
  match k with
  | [] => n
  | p :: k => if n <? pdu_so p then n else contig k (Z.max n (pdu_end p))
  end.

Lemma contig_ge k n : n <= contig k n.
Proof.
  revert n. induction k as [|p k IH]; intros n; simpl; [lia|].
  destruct (n <? pdu_so p); [lia|]. specialize (IH (Z.max n (pdu_end p))). lia.
Qed.

Section pieces.
Context (sdu : list Z).
Let len := zlen sdu.

Lemma contig_le k n : Forall (piece sdu) k -> n <= len -> contig k n <= len.
Proof using Type.
  intros Hk. revert n. induction Hk as [|p k [] _ IH]; intros n Hn; simpl; [done|].
  destruct (n <? pdu_so p); [lia|]. apply IH. unfold pdu_end. lia.
Qed.

Lemma contig_full k : Forall (piece sdu) k -> contig k len = len.
Proof using Type. intros Hk. pose proof (contig_le k len Hk). pose proof (contig_ge k len). lia. Qed.

Lemma full_loop_piece sn k a n :
  Forall (piece sdu) k -> Forall (has_sn sn) k -> Forall (other_sn sn) a ->
  0 <= n < len -> full_loop (k ++ a) sn (n - 1) = (contig k n =? len).
Proof using Type.
  intros Hk Hsn Ha. revert n. induction Hk as [|p k Hp Hk IH]; intros n Hn; simpl.
  - rewrite (proj2 (Z.eqb_neq _ _)) by lia. destruct Ha as [|q a Hq]; simpl; [done|].
    by rewrite (proj2 (Z.eqb_neq _ _)).
  - inversion Hsn as [|? ? Hp' Hk']; subst. rewrite Hp', Z.eqb_refl.
    replace (n - 1 + 1) with n by lia.
    destruct (Z.ltb_spec n (pdu_so p)) as [Hgap|Hno]; [symmetry; apply Z.eqb_neq; lia|].
    destruct Hp as [Hso Hsz Hend Hlast _]. rewrite Hlast. fold len in Hend |- *. unfold pdu_end.
    destruct (Z.eqb_spec (pdu_so p + pdu_size p) len) as [->|Hne].
    + rewrite Z.max_r, contig_full by (done || lia). symmetry. apply Z.eqb_refl.
    + rewrite <- IH by (done || lia). f_equal. lia.
Qed.

Lemma take_extend n e :
  0 <= n <= e -> e <= len ->
  take (Z.to_nat n) sdu ++ take (Z.to_nat (e - n)) (drop (Z.to_nat n) sdu) = take (Z.to_nat e) sdu.
Proof using Type.
  intros Hn He. rewrite take_take_drop. f_equal. lia.
Qed.

(** one step of the copy: what is new in the piece extends the prefix *)
Lemma copy_piece p n d :
  piece sdu p -> pdu_data p = Some d -> pdu_so p <= n < pdu_end p ->
  mem_read d (n - pdu_so p) (pdu_end p - n)
  = Ret (take (Z.to_nat (pdu_end p - n)) (drop (Z.to_nat n) sdu)).
Proof using Type.
  intros [Hso Hsz Hend _ Hd] Hdata Hn. unfold pdu_end in *. rewrite (Hd _ Hdata).
  rewrite mem_read_ok by (rewrite ?zlen_take, ?zlen_drop; lia).
  rewrite List.skipn_firstn_comm, drop_drop, take_take.
  repeat f_equal; lia.
Qed.

Lemma reassemble_loop_piece fd sn k a n sz :
  Forall (piece sdu) k -> Forall (has_sn sn) k -> Forall (other_sn sn) a ->
  Forall (fun p => pdu_data p <> None) k ->
  0 <= n <= len -> len <= NR_SDU_MAX -> contig k n = len ->
  reassemble_loop fd (k ++ a) sn n (take (Z.to_nat n) sdu) false sz
  = Ret (map fd k ++ a, len, sdu, false, sz - sumZ pdu_size k).
Proof using Type.
  intros Hk Hsn Ha Hdat. revert n sz. induction Hk as [|p k Hp Hk IH]; intros n sz Hn Hmax Hc; simpl.
  - simpl in Hc. subst n. rewrite Z.sub_0_r. unfold len. rewrite to_nat_zlen, take_ge by lia.
    destruct Ha as [|q a Hq]; simpl; [done|]. by rewrite (proj2 (Z.eqb_neq _ _)).
  - inversion Hsn as [|? ? Hp' Hk']; subst. inversion Hdat as [|? ? Hd Hdat']; subst.
    rewrite Hp', Z.eqb_refl. simpl in Hc. pose proof Hp as [Hso Hsz Hend _ _]. fold len in Hend.
    replace (pdu_size p - (n - pdu_so p)) with (pdu_end p - n) by (unfold pdu_end; lia).
    destruct (Z.ltb_spec n (pdu_so p)) as [Hgap|Hno]; [exfalso; unfold len in *; lia|].
    replace (n + (pdu_end p - n)) with (pdu_end p) by lia. simpl orb.
    rewrite (proj2 (Z.ltb_ge _ _)) by (unfold pdu_end; lia). simpl andb.
    destruct (pdu_data p) as [d|] eqn:Ed; [|done].
    destruct (Z.ltb_spec 0 (pdu_end p - n)) as [Hnew|Hold].
    + rewrite copy_piece by (done || lia). rewrite !bind_Ret_l.
      rewrite take_extend by (unfold pdu_end in *; lia).
      rewrite Z.max_r in Hc by lia. rewrite IH by (try done; unfold pdu_end in *; lia).
      by rewrite bind_Ret_l, Z.sub_add_distr.
    + rewrite bind_Ret_l. rewrite Z.max_l in Hc by lia. rewrite IH by done.
      by rewrite bind_Ret_l, Z.sub_add_distr.
Qed.
End pieces.

(** ** The PDUs of an SN in a list *)

Definition of_sn (sn : Z) (l : list nr_rlc_pdu_t) : list nr_rlc_pdu_t :=
  filter (fun p => pdu_sn p = sn) l.

Lemma of_sn_all sn l : Forall (has_sn sn) l -> of_sn sn l = l.
Proof.
  induction 1 as [|p l Hp _ IH]; [done|]. unfold of_sn in *.
  rewrite filter_cons_True by done. by rewrite IH.
Qed.

Lemma of_sn_none sn l : Forall (other_sn sn) l -> of_sn sn l = [].
Proof.
  induction 1 as [|p l Hp _ IH]; [done|]. unfold of_sn in *. by rewrite filter_cons_False.
Qed.

Lemma of_sn_app sn l1 l2 : of_sn sn (l1 ++ l2) = of_sn sn l1 ++ of_sn sn l2.
Proof. apply list.filter_app. Qed.

Lemma of_sn_block {sn l b k a} : sn_block sn l b k a -> of_sn sn l = k.
Proof.
  intros [-> Hb Hk Ha]. rewrite !of_sn_app, (of_sn_none _ b), (of_sn_all _ k), (of_sn_none _ a) by done.
  by rewrite app_nil_r.
Qed.

Lemma of_sn_other sn sn' k : sn' <> sn -> Forall (has_sn sn) k -> of_sn sn' k = [].
Proof.
  intros Hne Hk. apply of_sn_none. eapply Forall_weaken; [|exact Hk].
  unfold has_sn, other_sn. congruence.
Qed.

Lemma of_sn_map (f : nr_rlc_pdu_t -> nr_rlc_pdu_t) sn k :
  (forall p, pdu_sn (f p) = pdu_sn p) -> of_sn sn (map f k) = map f (of_sn sn k).
Proof.
  intros Hf. induction k as [|p k IH]; [done|]. unfold of_sn in *. simpl.
  destruct (decide (pdu_sn p = sn)) as [Hp|Hp].
  - by rewrite !filter_cons_True, IH by (rewrite ?Hf; done).
  - by rewrite !filter_cons_False, IH by (rewrite ?Hf; done).
Qed.

(** changes to a block that keep SN and offset keep the order *)
Lemma sorted_map_block (f : nr_rlc_pdu_t -> nr_rlc_pdu_t) key b k a :
  (forall p, pdu_sn (f p) = pdu_sn p /\ pdu_so (f p) = pdu_so p) ->
  StronglySorted (pdu_le key) (b ++ k ++ a) -> StronglySorted (pdu_le key) (b ++ map f k ++ a).
Proof.
  intros Hf.
  assert (Hl : forall p q, pdu_le key p q -> pdu_le key (f p) q).
  { intros p q. unfold pdu_le. by destruct (Hf p) as [-> ->]. }
  assert (Hr : forall p q, pdu_le key p q -> pdu_le key p (f q)).
  { intros p q. unfold pdu_le. by destruct (Hf q) as [-> ->]. }
  induction b as [|p b IH]; simpl.
  - induction k as [|p k IH]; simpl; [done|]. inversion 1 as [|? ? Hs Hall]; subst.
    constructor; [auto|]. rewrite Forall_app, Forall_map. rewrite Forall_app in Hall. destruct Hall as [H1 H2].
    split; (eapply Forall_weaken; [|eassumption]); simpl; auto.
  - inversion 1 as [|? ? Hs Hall]; subst. constructor; [auto|].
    rewrite !Forall_app, Forall_map. rewrite !Forall_app in Hall. destruct Hall as (H1 & H2 & H3).
    split_and!; [done| |done]. eapply Forall_weaken; [|exact H2]. simpl. auto.
Qed.

Lemma of_sn_add cmp l p sn :
  pdu_sn p <> sn -> of_sn sn (nr_rlc_pdu_list_add cmp l p) = of_sn sn l.
Proof.
  intros Hp. unfold nr_rlc_pdu_list_add, of_sn. induction l as [|q l IH]; simpl.
  - by rewrite filter_cons_False.
  - destruct (pdu_before cmp q p); [by rewrite filter_cons_False|].
    rewrite !filter_cons. by rewrite IH.
Qed.

Lemma of_sn_add_perm cmp l p sn :
  pdu_sn p = sn -> of_sn sn (nr_rlc_pdu_list_add cmp l p) ≡ₚ p :: of_sn sn l.
Proof.
  intros Hp. unfold of_sn. rewrite pdu_list_add_perm. by rewrite filter_cons_True.
Qed.

Lemma contig_map (f : nr_rlc_pdu_t -> nr_rlc_pdu_t) k n :
  (forall p, pdu_so (f p) = pdu_so p /\ pdu_size (f p) = pdu_size p) ->
  contig (map f k) n = contig k n.
Proof.
  intros Hf. revert n. induction k as [|p k IH]; intros n; simpl; [done|].
  unfold pdu_end. destruct (Hf p) as [-> ->]. by rewrite IH.
Qed.

(** the SDU of an SN was delivered: its data is gone *)
Definition delivered_in (l : list nr_rlc_pdu_t) (sn : Z) : bool := data_is_null (find_sn l sn).

Lemma delivered_in_of_sn key l sn :
  StronglySorted (pdu_le key) l -> delivered_in l sn = data_is_null (of_sn sn l).
Proof.
  intros Hs. destruct (sorted_sn_block _ _ sn Hs) as (b & k & a & Hblk).
  unfold delivered_in. rewrite (find_sn_block Hblk), (of_sn_block Hblk).
  by destruct k as [|p k].
Qed.

Lemma delivered_in_elem l sn : delivered_in l sn = true -> exists p, p ∈ l /\ pdu_sn p = sn.
Proof.
  unfold delivered_in. induction l as [|p l IH]; simpl; [done|].
  destruct (Z.eqb_spec (pdu_sn p) sn) as [Hp|Hp].
  - intros _. exists p. split; [left|done].
  - intros H. destruct (IH H) as (q & ? & ?). exists q. split; [by right|done].
Qed.

(** reassembly of a complete SDU, from the list of the entity *)
Lemma reassemble_from_block sdu fd sn l b k a sz :
  sn_block sn l b k a -> Forall (piece sdu) k -> Forall (fun p => pdu_data p <> None) k ->
  k <> [] -> zlen sdu <= NR_SDU_MAX -> contig k 0 = zlen sdu ->
  reassemble_from fd l sn sz = Ret (b ++ map fd k ++ a, zlen sdu, sdu, false, sz - sumZ pdu_size k).
Proof.
  intros [-> Hb Hk Ha] Hp Hd Hne Hmax Hc. induction Hb as [|q b Hq _ IH].
  - destruct k as [|p k]; [done|]. inversion Hk as [|? ? Hpsn _]; subst.
    cbn [app reassemble_from]. rewrite (proj2 (Z.eqb_eq _ _) Hpsn).
    apply (reassemble_loop_piece sdu fd sn (p :: k) a 0); try done.
    pose proof (zlen_nonneg sdu). lia.
  - cbn [app reassemble_from]. by rewrite (proj2 (Z.eqb_neq _ _) Hq), IH.
Qed.
