(* ===== verification/RlcAmState.v ===== *)
(** State of an acknowledged-mode RLC entity, its sequence-number arithmetic
    and its sorted list of segments:
    src/openair2/LAYER2/nr_rlc/nr_rlc_entity_am.h and the first functions of
    nr_rlc_entity_am.c. *)

From stdpp Require Import base tactics list numbers gmap.
From Stdlib Require Import ZArith Lia.
From S2P Require Import Prelude TimeStat RlcPdu RlcSdu RlcEntity.

Record nr_rlc_entity_am_t := mk_am {
  common : nr_rlc_entity_t;
  (* configuration *)
  t_poll_retransmit : Z;
  t_reassembly : Z;
  t_status_prohibit : Z;
  poll_pdu : Z;                 (** -1 means infinity *)
  poll_byte : Z;                (** -1 means infinity *)
  max_retx_threshold : Z;
  sn_field_length : Z;
  sn_modulus : Z;
  window_size : Z;
  (* runtime rx *)
  rx_next : Z;
  rx_next_status_trigger : Z;
  rx_highest_status : Z;
  rx_next_highest : Z;
  status_triggered : bool;
  (* runtime tx *)
  tx_next : Z;
  tx_next_ack : Z;
  poll_sn : Z;
  pdu_without_poll : Z;
  byte_without_poll : Z;
  force_poll : bool;
  t_current : Z;
  t_log_buffer_full : Z;
  sdu_rejected : Z;
  (* timers: time of activation, 0 means not active *)
  t_poll_retransmit_start : Z;
  t_reassembly_start : Z;
  t_status_prohibit_start : Z;
  (* rx management *)
  rx_list : list nr_rlc_pdu_t;
  rx_size : Z;
  rx_maxsize : Z;
  (* tx management; a NULL end pointer is [None] *)
  tx_list : list nr_rlc_sdu_segment_t;
  tx_end : option nat;
  tx_size : Z;
  tx_maxsize : Z;
  wait_list : list nr_rlc_sdu_segment_t;
  wait_end : option nat;
  retransmit_list : list nr_rlc_sdu_segment_t;
  (* the SDUs the segments point to *)
  heap : sdu_heap
}.
#[export] Instance am_eta : Eta nr_rlc_entity_am_t :=
  fun e => mk_am (common e) (t_poll_retransmit e) (t_reassembly e) (t_status_prohibit e)
    (poll_pdu e) (poll_byte e) (max_retx_threshold e) (sn_field_length e) (sn_modulus e)
    (window_size e) (rx_next e) (rx_next_status_trigger e) (rx_highest_status e)
    (rx_next_highest e) (status_triggered e) (tx_next e) (tx_next_ack e) (poll_sn e)
    (pdu_without_poll e) (byte_without_poll e) (force_poll e) (t_current e)
    (t_log_buffer_full e) (sdu_rejected e) (t_poll_retransmit_start e)
    (t_reassembly_start e) (t_status_prohibit_start e) (rx_list e) (rx_size e)
    (rx_maxsize e) (tx_list e) (tx_end e) (tx_size e) (tx_maxsize e) (wait_list e)
    (wait_end e) (retransmit_list e) (heap e).

(** updates of the nested records *)
Definition upd_stats (f : nr_rlc_statistics_t -> nr_rlc_statistics_t)
    (e : nr_rlc_entity_am_t) : nr_rlc_entity_am_t :=
  e <| common ::= (fun c => c <| stats ::= f |>) |>.

Definition add_bs_tx (n : Z) (e : nr_rlc_entity_am_t) : nr_rlc_entity_am_t :=
  e <| common ::= (fun c => c <| bstatus ::= (fun b => b <| bs_tx_size ::= Z.add n |>) |>) |>.

Definition add_bs_retx (n : Z) (e : nr_rlc_entity_am_t) : nr_rlc_entity_am_t :=
  e <| common ::= (fun c => c <| bstatus ::= (fun b => b <| bs_retx_size ::= Z.add n |>) |>) |>.

Definition am_emit (ev : rlc_event) (e : nr_rlc_entity_am_t) : nr_rlc_entity_am_t :=
  e <| common ::= emit ev |>.

Definition compute_pdu_header_size (entity : nr_rlc_entity_am_t)
    (sdu : nr_rlc_sdu_segment_t) : Z :=
  let header_size := 2 in
  let header_size :=
    if sn_field_length entity =? 18 then header_size + 1 else header_size in
  if negb (seg_is_first sdu) then header_size + 2 else header_size.

(** ** Sequence numbers *)

Definition modulus_rx (entity : nr_rlc_entity_am_t) (a : Z) : Z :=
  let r := a - rx_next entity in
  if r <? 0 then r + sn_modulus entity else r.

Definition modulus_tx (entity : nr_rlc_entity_am_t) (a : Z) : Z :=
  let r := a - tx_next_ack entity in
  if r <? 0 then r + sn_modulus entity else r.

Definition sn_in_recv_window (entity : nr_rlc_entity_am_t) (sn : Z) : bool :=
  modulus_rx entity sn <? window_size entity.

Definition sn_compare_rx (entity : nr_rlc_entity_am_t) (a b : Z) : Z :=
  modulus_rx entity a - modulus_rx entity b.

Definition sn_compare_tx (entity : nr_rlc_entity_am_t) (a b : Z) : Z :=
  modulus_tx entity a - modulus_tx entity b.

(** ** Sorted insertion of a segment

    The comparison follows the [sdu] pointers of both segments. *)
Fixpoint nr_rlc_tx_sdu_segment_list_add (entity : nr_rlc_entity_am_t)
    (l : list nr_rlc_sdu_segment_t) (sdu_segment : nr_rlc_sdu_segment_t)
    : outcome (list nr_rlc_sdu_segment_t) :=
  match l with
  | [] => Ret [sdu_segment]
  | cur :: next =>
      u ← deref (heap entity) cur;
      v ← deref (heap entity) sdu_segment;
      if (0 <? sn_compare_tx entity (sdu_sn u) (sdu_sn v))
         || ((sdu_sn u =? sdu_sn v) && (seg_so sdu_segment <? seg_so cur))
      then Ret (sdu_segment :: cur :: next)
      else l' ← nr_rlc_tx_sdu_segment_list_add entity next sdu_segment;
           Ret (cur :: l')
  end.

(** ** Constructors of the entity: nr_rlc_entity.c *)

Definition new_nr_rlc_entity_am (rx_maxsize tx_maxsize t_poll_retransmit t_reassembly
    t_status_prohibit poll_pdu poll_byte max_retx_threshold sn_field_length : Z)
    : outcome nr_rlc_entity_am_t :=
  if negb ((sn_field_length =? 12) || (sn_field_length =? 18)) then Exit
  else
    ta ← time_average_new (100 * 1000) 1024;
    let sn_modulus := Z.shiftl 1 sn_field_length in
    Ret (mk_am
      (mk_common [] (mk_bstatus 0 0 0) (zero_stats NR_RLC_AM) ta false)
      t_poll_retransmit t_reassembly t_status_prohibit poll_pdu poll_byte
      max_retx_threshold sn_field_length sn_modulus (Z.quot sn_modulus 2)
      0 0 0 0 false 0 0 0 0 0 false 0 0 0 0 0 0
      [] 0 rx_maxsize [] None 0 tx_maxsize [] None [] empty_heap).

Definition nr_rlc_entity_am_reconfigure (entity : nr_rlc_entity_am_t)
    (v_t_poll_retransmit v_t_reassembly v_t_status_prohibit v_poll_pdu v_poll_byte
     v_max_retx_threshold : Z) (v_sn_field_length : option Z) : nr_rlc_entity_am_t :=
  let entity := entity <| t_poll_retransmit := v_t_poll_retransmit |>
                       <| t_reassembly := v_t_reassembly |>
                       <| t_status_prohibit := v_t_status_prohibit |>
                       <| poll_pdu := v_poll_pdu |>
                       <| poll_byte := v_poll_byte |>
                       <| max_retx_threshold := v_max_retx_threshold |> in
  match v_sn_field_length with
  | Some n => entity <| sn_field_length := n |>
  | None => entity
  end.
