(* ===== verification/RlcAmRx.v ===== *)
(** Reception of data PDUs by an acknowledged-mode entity: reassembly,
    delivery and the reception actions of 38.322 5.2.3.2
    (src/openair2/LAYER2/nr_rlc/nr_rlc_entity_am.c). *)

From stdpp Require Import base tactics list numbers gmap.
From Stdlib Require Import ZArith Lia.
From S2P Require Import Prelude TimeStat RlcPdu RlcSdu RlcEntity RlcRxList RlcAmState.

(** the loop of [segment_already_received] *)
Fixpoint already_received_loop (l : list nr_rlc_pdu_t) (sn so size : Z) : Z :=
  match l with
  | [] => size
  | p :: next =>
      if 0 <? size then
        if pdu_sn p =? sn then
          if (pdu_so p <=? so) && (so <? pdu_so p + pdu_size p) then
            let covered := pdu_size p - (so - pdu_so p) in
            already_received_loop next sn (so + covered) (size - covered)
          else if (pdu_so p <=? so + size - 1) && (so + size - 1 <? pdu_so p + pdu_size p) then
            let covered := size - (pdu_so p - so) in
            already_received_loop next sn so (size - covered)
          else already_received_loop next sn so size
        else already_received_loop next sn so size
      else size
  end.

Definition segment_already_received (entity : nr_rlc_entity_am_t) (sn so size : Z) : bool :=
  already_received_loop (rx_list entity) sn so size <=? 0.

Definition sdu_full (entity : nr_rlc_entity_am_t) (sn : Z) : bool :=
  let l := find_sn (rx_list entity) sn in
  if data_is_null l then false else full_loop l sn (-1).

Definition sdu_delivered (entity : nr_rlc_entity_am_t) (sn : Z) : bool :=
  data_is_null (find_sn (rx_list entity) sn).

Definition sdu_has_missing_bytes (entity : nr_rlc_entity_am_t) (sn : Z) : bool :=
  let l := find_sn (rx_list entity) sn in
  if data_is_null l then false else missing_bytes_loop l sn (-1).

(** [free(pdu->data); pdu->data = NULL;] *)
Definition free_data (pdu : nr_rlc_pdu_t) : nr_rlc_pdu_t := pdu <| pdu_data := None |>.

Definition reassemble_and_deliver (entity : nr_rlc_entity_am_t) (sn : Z)
    : outcome nr_rlc_entity_am_t :=
  '(l, so, sdu, bad_sdu, size) ← reassemble_from free_data (rx_list entity) sn (rx_size entity);
  let entity := entity <| rx_list := l |> <| rx_size := size |> in
  if (bad_sdu : bool) then Ret entity
  else Ret (upd_stats (fun s => s <| txsdu_pkts ::= add32 1 |>)
              (am_emit (DeliverSdu sdu) entity)).

(** [while (sdu_delivered(entity, sn)) sn = (sn + 1) % sn_modulus] *)
Fixpoint skip_delivered (fuel : nat) (entity : nr_rlc_entity_am_t) (sn : Z) : outcome Z :=
  if sdu_delivered entity sn then
    match fuel with
    | O => Diverge
    | S fuel => skip_delivered fuel entity ((sn + 1) %% sn_modulus entity)
    end
  else Ret sn.

(** PDUs of [sn] at the head of the list, freed *)
Fixpoint drop_sn (l : list nr_rlc_pdu_t) (sn : Z) : list nr_rlc_pdu_t :=
  match l with
  | [] => []
  | p :: next => if pdu_sn p =? sn then drop_sn next sn else l
  end.

(** advance [rx_next] over the delivered SDUs at the head of the list *)
Fixpoint free_delivered_head (fuel : nat) (modulus : Z) (l : list nr_rlc_pdu_t) (rx_next : Z)
    : outcome (list nr_rlc_pdu_t * Z) :=
  match l with
  | p :: next =>
      if data_is_null l && (pdu_sn p =? rx_next) then
        match fuel with
        | O => Diverge
        | S fuel => free_delivered_head fuel modulus (drop_sn next rx_next)
                      ((rx_next + 1) %% modulus)
        end
      else Ret (l, rx_next)
  | [] => Ret (l, rx_next)
  end.

(** reassembly and the two windows, when the SDU is complete *)
Definition deliver_actions (entity : nr_rlc_entity_am_t) (x : Z)
    : outcome nr_rlc_entity_am_t :=
  entity ← reassemble_and_deliver entity x;
  entity ←
    (if x =? rx_highest_status entity then
       sn ← skip_delivered (length (rx_list entity)) entity (rx_highest_status entity);
       Ret (entity <| rx_highest_status := sn |>)
     else Ret entity);
  if x =? rx_next entity then
    '(l, sn) ← free_delivered_head (length (rx_list entity)) (sn_modulus entity)
                 (rx_list entity) (rx_next entity);
    Ret (entity <| rx_list := l |> <| rx_next := sn |>)
  else Ret entity.

(** stop, then possibly start, t_reassembly *)
Definition stop_t_reassembly (entity : nr_rlc_entity_am_t) : nr_rlc_entity_am_t :=
  if negb (t_reassembly_start entity =? 0) then
    if (rx_next_status_trigger entity =? rx_next entity)
       || ((rx_next_status_trigger entity =? (rx_next entity + 1) %% sn_modulus entity)
           && negb (sdu_has_missing_bytes entity (rx_next entity)))
       || (negb (sn_in_recv_window entity (rx_next_status_trigger entity))
           && negb (rx_next_status_trigger entity
                    =? (rx_next entity + window_size entity) %% sn_modulus entity))
    then entity <| t_reassembly_start := 0 |>
    else entity
  else entity.

Definition start_t_reassembly (entity : nr_rlc_entity_am_t) : nr_rlc_entity_am_t :=
  if t_reassembly_start entity =? 0 then
    if (0 <? sn_compare_rx entity (rx_next_highest entity)
               ((rx_next entity + 1) %% sn_modulus entity))
       || ((rx_next_highest entity =? (rx_next entity + 1) %% sn_modulus entity)
           && sdu_has_missing_bytes entity (rx_next entity))
    then entity <| t_reassembly_start := t_current entity |>
                <| rx_next_status_trigger := rx_next_highest entity |>
    else entity
  else entity.

Definition reception_actions (entity : nr_rlc_entity_am_t) (x : Z)
    : outcome nr_rlc_entity_am_t :=
  let entity :=
    if 0 <=? sn_compare_rx entity x (rx_next_highest entity)
    then entity <| rx_next_highest := (x + 1) %% sn_modulus entity |>
    else entity in
  entity ← (if sdu_full entity x then deliver_actions entity x else Ret entity);
  Ret (start_t_reassembly (stop_t_reassembly entity)).
