(* ===== verification/RlcAmControl.v ===== *)
(** Reception of STATUS PDUs by an acknowledged-mode entity:
    [process_control_pdu] of src/openair2/LAYER2/nr_rlc/nr_rlc_entity_am.c.

    The function reads the PDU twice: a first pass only checks it, a second
    pass walks the wait list and the retransmit list together, in SN order, and
    moves or frees their segments. The cursors of the second pass are kept in
    the record [ctl]; the [goto]s are the three results of
    [process_next_pdu]. *)

From stdpp Require Import base tactics list numbers gmap.
From Stdlib Require Import ZArith Lia.
From S2P Require Import Prelude RlcPdu RlcSdu TimeStat RlcEntity RlcRxList RlcAmState RlcAmRx.

(** ** First pass: validation *)

(** [so_end] and [e2 = -1] stand for all bytes to the end of the SDU *)
Definition so_overlap (s1 e1 s2 e2 : Z) : bool :=
  if s1 <? s2 then
    if (e1 =? -1) || (s2 <=? e1) then true else false
  else if (e2 =? -1) || (s1 <=? e2) then true else false.

(** one NACK block of a STATUS PDU *)
Record nack_block := mk_nack {
  nack_sn : Z;
  nack_e1 : Z;
  nack_so_start : Z;
  nack_so_end : Z;
  nack_range : Z
}.

(** number of reserved bits after the E bits of a NACK block *)
Definition nack_r_bits (entity : nr_rlc_entity_am_t) : Z :=
  if sn_field_length entity =? 18 then 3 else 1.

(** read a NACK block, [goto err] ([err]) on a truncated PDU *)
Definition read_nack_R {A} (entity : nr_rlc_entity_am_t) (d : nr_rlc_pdu_decoder_t)
    (err : outcome A) (k : nack_block -> nr_rlc_pdu_decoder_t -> outcome A) : outcome A :=
  bits sn, d <- d # sn_field_length entity orelse err;
  bits e1, d <- d # 1 orelse err;
  bits e2, d <- d # 1 orelse err;
  bits e3, d <- d # 1 orelse err;
  bits r, d <- d # nack_r_bits entity orelse err;
  let with_range so_start so_end d :=
    let so_end := if so_end =? 65535 then -1 else so_end in
    if negb (e3 =? 0) then
      bits range, d <- d # 8 orelse err;
      k (mk_nack sn e1 so_start so_end range) d
    else k (mk_nack sn e1 so_start so_end 1) d in
  if negb (e2 =? 0) then
    bits so_start, d <- d # 16 orelse err;
    bits so_end, d <- d # 16 orelse err;
    with_range so_start so_end d
  else with_range 0 65535 d.

(** what the checks remember of the previous NACK *)
Record prev_nack := mk_prev_nack { prev_nack_sn : Z; prev_so_start : Z; prev_so_end : Z }.

(** checks of the [i]-th SN of a range, for [n] more of them: [false] is
    [goto err]. The loop of the source leaves [prev] as it is. *)
Fixpoint check_range (n : nat) (i : Z) (entity : nr_rlc_entity_am_t) (ack_sn : Z)
    (b : nack_block) (prev : prev_nack) : bool :=
  match n with
  | O => true
  | S n =>
      let cur_nack_sn := (nack_sn b + i) %% sn_modulus entity in
      let cur_so_start := if i =? 0 then nack_so_start b else 0 in
      let bad_order :=
        if negb (prev_nack_sn prev =? -1) then
          let cmp := sn_compare_tx entity cur_nack_sn (prev_nack_sn prev) in
          (cmp <? 0) || ((cmp =? 0) && ((prev_so_end prev =? -1)
                                         || (cur_so_start <=? prev_so_end prev)))
        else false in
      if bad_order then false
      else if 0 <? sn_compare_tx entity cur_nack_sn ack_sn then false
      else check_range n (i + 1) entity ack_sn b prev
  end.

(** [while (e1)] of the first pass; a block takes at least two bytes *)
Fixpoint check_nacks (fuel : nat) (entity : nr_rlc_entity_am_t) (d : nr_rlc_pdu_decoder_t)
    (e1 ack_sn : Z) (prev : prev_nack) : outcome bool :=
  if e1 =? 0 then Ret true
  else
    match fuel with
    | O => Diverge
    | S fuel =>
        read_nack_R entity d (Ret false) (fun b d =>
          if check_range (Z.to_nat (nack_range b)) 0 entity ack_sn b prev
          then check_nacks fuel entity d (nack_e1 b) ack_sn prev
          else Ret false)
    end.

(** the whole first pass: [false] when the PDU is discarded *)
Definition check_control_pdu (entity : nr_rlc_entity_am_t) (buffer : list Z) : outcome bool :=
  let d := nr_rlc_pdu_decoder_init buffer (zlen buffer) in
  let err := Ret false in
  bits dc, d <- d # 1 orelse err;
  bits cpt, d <- d # 3 orelse err;
  if negb (cpt =? 0) then err else
  bits ack_sn, d <- d # sn_field_length entity orelse err;
  bits e1, d <- d # 1 orelse err;
  bits r, d <- d # (if sn_field_length entity =? 18 then 1 else 7) orelse err;
  if 0 <? sn_compare_tx entity ack_sn (tx_next entity) then Ret false
  else check_nacks (length buffer) entity d e1 ack_sn (mk_prev_nack (-1) 0 0).

(** ** Second pass: the walk over both lists *)

(** where [end_wait_list] and [prev_wait_list] point to *)
Inductive wait_ptr := HeadWaitList | WaitSegment (a : nat).

Record ctl := mk_ctl {
  c_entity : nr_rlc_entity_am_t;
  (** wait list up to and including [prev_wait_list] *)
  c_wait_done : list nr_rlc_sdu_segment_t;
  (** wait list from [cur_wait_list] on; [[]] is a NULL cursor *)
  c_wait_cur : list nr_rlc_sdu_segment_t;
  (** what [prev_wait_list->next] still holds after the cursor was set to NULL *)
  c_wait_left : list nr_rlc_sdu_segment_t;
  c_end_wait_list : option wait_ptr;
  (** new retransmit list up to and including [new_retransmit_list] *)
  c_retx_new : list nr_rlc_sdu_segment_t;
  (** what [new_retransmit_list->next] holds *)
  c_retx_next : list nr_rlc_sdu_segment_t;
  c_retx_cur : list nr_rlc_sdu_segment_t
}.
#[export] Instance ctl_eta : Eta ctl :=
  fun c => mk_ctl (c_entity c) (c_wait_done c) (c_wait_cur c) (c_wait_left c)
    (c_end_wait_list c) (c_retx_new c) (c_retx_next c) (c_retx_cur c).

Definition prev_wait_ptr (c : ctl) : wait_ptr :=
  match last (c_wait_done c) with None => HeadWaitList | Some s => WaitSegment (seg_addr s) end.

(** [if (cur_wait_list == entity->wait_end) end_wait_list = prev_wait_list] *)
Definition unlink_wait (c : ctl) (cur : nr_rlc_sdu_segment_t) : ctl :=
  if match wait_end (c_entity c) with Some a => (seg_addr cur =? a)%nat | None => false end
  then c <| c_end_wait_list := Some (prev_wait_ptr c) |>
  else c.

(** append a segment to the new retransmit list *)
Definition push_retx (s : nr_rlc_sdu_segment_t) (c : ctl) : ctl :=
  c <| c_retx_new ::= (fun l => l ++ [s]) |> <| c_retx_next := [] |>.

(** free an acknowledged segment; report the SDU when it was the last one *)
Definition ack_segment (entity : nr_rlc_entity_am_t) (cur : nr_rlc_sdu_segment_t)
    : outcome nr_rlc_entity_am_t :=
  u ← deref (heap entity) cur;
  '(freed, h) ← nr_rlc_free_sdu_segment (heap entity) cur;
  let entity := entity <| heap := h |> in
  if (freed : bool) then
    Ret (am_emit (SduSuccessfulDelivery (sdu_upper_layer_id u))
           (upd_stats (fun s => s <| txsdu_bytes ::= add64 (sdu_size u) |>)
              (entity <| tx_size ::= Z.add (- sdu_size u) |>)))
  else Ret entity.

(** an overlapping NACK of a segment of the wait list: count the
    retransmission, report when there were too many, account the buffer *)
Definition nack_segment (entity : nr_rlc_entity_am_t) (cur : nr_rlc_sdu_segment_t)
    : outcome nr_rlc_entity_am_t :=
  u ← deref (heap entity) cur;
  let u := u <| sdu_retx_count ::= Z.add 1 |> in
  let entity := entity <| heap := store_sdu (heap entity) cur u |> in
  let entity :=
    if max_retx_threshold entity * sdu_ref_count u <=? sdu_retx_count u
    then am_emit MaxRetxReached entity else entity in
  Ret (add_bs_retx (compute_pdu_header_size entity cur + seg_size cur) entity).

Inductive next_pdu_result := NextPdu | DoneNack | ListsOver.

Record nack_t := mk_cur_nack { cur_nack_sn : Z; cur_so_start : Z; cur_so_end : Z }.

Definition segment_overlaps (n : nack_t) (u : nr_rlc_sdu_t) (s : nr_rlc_sdu_segment_t) : bool :=
  (sdu_sn u =? cur_nack_sn n)
  && so_overlap (cur_so_start n) (cur_so_end n) (seg_so s) (seg_so s + seg_size s - 1).

(** the segment is after the NACK: it can not be classified yet *)
Definition segment_after_nack (entity : nr_rlc_entity_am_t) (n : nack_t) (u : nr_rlc_sdu_t)
    (s : nr_rlc_sdu_segment_t) : bool :=
  let cmp := sn_compare_tx entity (sdu_sn u) (cur_nack_sn n) in
  (0 <? cmp) || ((cmp =? 0) && (cur_so_start n <? seg_so s)).

(** [process_wait_list_head] *)
Definition process_wait_list_head (c : ctl) (cur : nr_rlc_sdu_segment_t)
    (next : list nr_rlc_sdu_segment_t) (n : nack_t) (ack_sn : Z)
    : outcome (next_pdu_result * ctl) :=
  u ← deref (heap (c_entity c)) cur;
  if segment_overlaps n u cur then
    let c := push_retx cur (unlink_wait c cur) in
    entity ← nack_segment (c_entity c) cur;
    Ret (NextPdu, c <| c_entity := entity |> <| c_wait_cur := next |>)
  else if segment_after_nack (c_entity c) n u cur then Ret (DoneNack, c)
  else if sn_compare_tx (c_entity c) (sdu_sn u) ack_sn <? 0 then
    let c := unlink_wait c cur in
    entity ← ack_segment (c_entity c) cur;
    Ret (NextPdu, c <| c_entity := entity |> <| c_wait_cur := next |>)
  else if 0 <? sn_compare_tx (c_entity c) (sdu_sn u) ack_sn then
    Ret (NextPdu, c <| c_wait_left := cur :: next |> <| c_wait_cur := [] |>)
  else
    Ret (NextPdu, c <| c_wait_done ::= (fun l => l ++ [cur]) |> <| c_wait_cur := next |>).

(** [process_retransmit_list_head] *)
Definition process_retransmit_list_head (c : ctl) (cur : nr_rlc_sdu_segment_t)
    (next : list nr_rlc_sdu_segment_t) (n : nack_t) (ack_sn : Z)
    : outcome (next_pdu_result * ctl) :=
  u ← deref (heap (c_entity c)) cur;
  if segment_overlaps n u cur then
    Ret (NextPdu, push_retx cur c <| c_retx_cur := next |>)
  else if segment_after_nack (c_entity c) n u cur then Ret (DoneNack, c)
  else if sn_compare_tx (c_entity c) (sdu_sn u) ack_sn <? 0 then
    let entity := add_bs_retx (- (compute_pdu_header_size (c_entity c) cur + seg_size cur))
                    (c_entity c) in
    entity ← ack_segment entity cur;
    Ret (NextPdu, c <| c_entity := entity |> <| c_retx_cur := next |>)
  else
    match c_wait_cur c with
    | [] => Ret (ListsOver, c <| c_retx_next := cur :: next |> <| c_retx_cur := [] |>)
    | _ :: _ => Ret (NextPdu, push_retx cur c <| c_retx_cur := next |>)
    end.

(** [process_next_pdu]: the smallest segment of both lists *)
Definition process_next_pdu (c : ctl) (n : nack_t) (ack_sn : Z)
    : outcome (next_pdu_result * ctl) :=
  match c_wait_cur c, c_retx_cur c with
  | [], [] => Ret (ListsOver, c)
  | [], r :: rs => process_retransmit_list_head c r rs n ack_sn
  | w :: ws, [] => process_wait_list_head c w ws n ack_sn
  | w :: ws, r :: rs =>
      uw ← deref (heap (c_entity c)) w;
      ur ← deref (heap (c_entity c)) r;
      let cmp := sn_compare_tx (c_entity c) (sdu_sn uw) (sdu_sn ur) in
      if (cmp <? 0) || ((cmp =? 0) && (seg_so w <? seg_so r))
      then process_wait_list_head c w ws n ack_sn
      else process_retransmit_list_head c r rs n ack_sn
  end.

(** one NACK: [true] when the lists are over *)
Fixpoint process_nack (fuel : nat) (c : ctl) (n : nack_t) (ack_sn : Z)
    : outcome (bool * ctl) :=
  match fuel with
  | O => Diverge
  | S fuel =>
      '(r, c) ← process_next_pdu c n ack_sn;
      match r with
      | NextPdu => process_nack fuel c n ack_sn
      | DoneNack => Ret (false, c)
      | ListsOver => Ret (true, c)
      end
  end.

(** each round but the last takes a segment from one of the cursors *)
Definition nack_fuel (c : ctl) : nat :=
  S (length (c_wait_cur c) + length (c_retx_cur c)).

(** [for (i = 0; i < range; i++)], [k] SNs left *)
Fixpoint process_range (k : nat) (i : Z) (c : ctl) (b : nack_block) (ack_sn : Z)
    : outcome ctl :=
  match k with
  | O => Ret c
  | S k =>
      let n := mk_cur_nack ((nack_sn b + i) %% sn_modulus (c_entity c))
                 (if i =? 0 then nack_so_start b else 0)
                 (if i =? nack_range b - 1 then nack_so_end b else -1) in
      '(lists_over, c) ← process_nack (nack_fuel c) c n ack_sn;
      if (lists_over : bool) then Ret c
      else process_range k (i + 1) c b ack_sn
  end.

(** the second pass reads without checking the decoder *)
Definition read_nack (entity : nr_rlc_entity_am_t) (d : nr_rlc_pdu_decoder_t)
    : outcome (nack_block * nr_rlc_pdu_decoder_t) :=
  '(sn, d) ← nr_rlc_pdu_decoder_get_bits d (sn_field_length entity);
  '(e1, d) ← nr_rlc_pdu_decoder_get_bits d 1;
  '(e2, d) ← nr_rlc_pdu_decoder_get_bits d 1;
  '(e3, d) ← nr_rlc_pdu_decoder_get_bits d 1;
  '(_, d) ← nr_rlc_pdu_decoder_get_bits d (nack_r_bits entity);
  '(so_start, so_end, d) ←
    (if negb (e2 =? 0) then
       '(so_start, d) ← nr_rlc_pdu_decoder_get_bits d 16;
       '(so_end, d) ← nr_rlc_pdu_decoder_get_bits d 16;
       Ret (so_start, so_end, d)
     else Ret (0, 65535, d));
  '(range, d) ← (if negb (e3 =? 0) then nr_rlc_pdu_decoder_get_bits d 8 else Ret (1, d));
  Ret (mk_nack sn e1 so_start (if so_end =? 65535 then -1 else so_end) range, d).

(** t_poll_retransmit stops when a NACK is for [poll_sn] *)
Definition stop_poll_if_nacked (entity : nr_rlc_entity_am_t) (b : nack_block)
    : nr_rlc_entity_am_t :=
  if (sn_compare_tx entity (nack_sn b) (poll_sn entity) <=? 0)
     && (sn_compare_tx entity (poll_sn entity)
           ((nack_sn b + nack_range b) %% sn_modulus entity) <? 0)
  then entity <| t_poll_retransmit_start := 0 |>
  else entity.

(** [while (e1)] of the second pass *)
Fixpoint process_nacks (fuel : nat) (c : ctl) (d : nr_rlc_pdu_decoder_t) (e1 ack_sn : Z)
    : outcome ctl :=
  if e1 =? 0 then Ret c
  else
    match fuel with
    | O => Diverge
    | S fuel =>
        '(b, d) ← read_nack (c_entity c) d;
        c ← process_range (Z.to_nat (nack_range b)) 0 c b ack_sn;
        let c := c <| c_entity ::= (fun e => stop_poll_if_nacked e b) |> in
        process_nacks fuel c d (nack_e1 b) ack_sn
    end.

(** ** Third part: the segments below [ack_sn] that no NACK classified *)

Fixpoint ack_wait_list (c : ctl) (l : list nr_rlc_sdu_segment_t) (ack_sn : Z) : outcome ctl :=
  match l with
  | [] => Ret (c <| c_wait_cur := [] |>)
  | cur :: next =>
      u ← deref (heap (c_entity c)) cur;
      if sn_compare_tx (c_entity c) (sdu_sn u) ack_sn <? 0 then
        let c := unlink_wait c cur in
        entity ← ack_segment (c_entity c) cur;
        ack_wait_list (c <| c_entity := entity |>) next ack_sn
      else Ret (c <| c_wait_cur := l |>)
  end.

Fixpoint ack_retransmit_list (c : ctl) (l : list nr_rlc_sdu_segment_t) (ack_sn : Z)
    : outcome ctl :=
  match l with
  | [] => Ret (c <| c_retx_cur := [] |>)
  | cur :: next =>
      u ← deref (heap (c_entity c)) cur;
      if sn_compare_tx (c_entity c) (sdu_sn u) ack_sn <? 0 then
        let entity := add_bs_retx (- (compute_pdu_header_size (c_entity c) cur + seg_size cur))
                        (c_entity c) in
        entity ← ack_segment entity cur;
        ack_retransmit_list (c <| c_entity := entity |>) next ack_sn
      else Ret (c <| c_retx_cur := l |>)
  end.

(** store the lists back and update [wait_end] *)
Definition store_lists (c : ctl) : nr_rlc_entity_am_t :=
  let c := c <| c_retx_next := c_retx_cur c |> in
  let entity := c_entity c
    <| wait_list := c_wait_done c ++ c_wait_cur c ++ c_wait_left c |>
    <| retransmit_list := c_retx_new c ++ c_retx_next c |> in
  match c_end_wait_list c with
  | None => entity
  | Some HeadWaitList => entity <| wait_end := None |>
  | Some (WaitSegment a) => entity <| wait_end := Some a |>
  end.

(** the smallest SN not acknowledged yet *)
Definition lower_to_head (entity : nr_rlc_entity_am_t) (l : list nr_rlc_sdu_segment_t)
    (sn : Z) : outcome Z :=
  match l with
  | [] => Ret sn
  | s :: _ =>
      u ← deref (heap entity) s;
      Ret (if sn_compare_tx entity (sdu_sn u) sn <? 0 then sdu_sn u else sn)
  end.

Definition update_tx_next_ack (entity : nr_rlc_entity_am_t) (ack_sn : Z)
    : outcome nr_rlc_entity_am_t :=
  sn ← lower_to_head entity (wait_list entity) (tx_next entity);
  sn ← lower_to_head entity (retransmit_list entity) sn;
  let sn := if sn_compare_tx entity ack_sn sn <? 0 then ack_sn else sn in
  Ret (entity <| tx_next_ack := sn |>).

(** the second pass and what follows it *)
Definition process_valid_control_pdu (entity : nr_rlc_entity_am_t) (buffer : list Z)
    : outcome nr_rlc_entity_am_t :=
  let d := nr_rlc_pdu_decoder_init buffer (zlen buffer) in
  '(_, d) ← nr_rlc_pdu_decoder_get_bits d 1;
  '(_, d) ← nr_rlc_pdu_decoder_get_bits d 3;
  '(ack_sn, d) ← nr_rlc_pdu_decoder_get_bits d (sn_field_length entity);
  '(e1, d) ← nr_rlc_pdu_decoder_get_bits d 1;
  '(_, d) ← nr_rlc_pdu_decoder_get_bits d (if sn_field_length entity =? 18 then 1 else 7);
  let entity :=
    if sn_compare_tx entity (poll_sn entity) ack_sn <? 0
    then entity <| t_poll_retransmit_start := 0 |> else entity in
  let c := mk_ctl entity [] (wait_list entity) [] None [] [] (retransmit_list entity) in
  c ← process_nacks (length buffer) c d e1 ack_sn;
  c ← ack_wait_list c (c_wait_cur c) ack_sn;
  c ← ack_retransmit_list c (c_retx_cur c) ack_sn;
  update_tx_next_ack (store_lists c) ack_sn.

Definition process_control_pdu (entity : nr_rlc_entity_am_t) (buffer : list Z)
    : outcome nr_rlc_entity_am_t :=
  valid ← check_control_pdu entity buffer;
  if (valid : bool) then process_valid_control_pdu entity buffer else Ret entity.

(** STATUS PDUs of arbitrary content: the validation pass of
    [process_control_pdu] always ends, within the bytes received. *)

Section total.
Context (e : nr_rlc_entity_am_t) (Hlen : sn_field_length e = 12 \/ sn_field_length e = 18).

(** one NACK block: an error, or at least two bytes further in the buffer *)
Lemma read_nack_total {A} buf pos (err : outcome A) k (P : outcome A -> Prop) :
  (pos <= 8 * length buf)%nat -> P err ->
  (forall b pos', (pos + 16 <= pos' <= 8 * length buf)%nat -> P (k b (dec_at buf pos'))) ->
  P (read_nack_R e (dec_at buf pos) err k).
Proof using Hlen.
  intros Hpos Herr Hk. unfold read_nack_R, nack_r_bits.
  destruct Hlen as [Hl|Hl]; rewrite Hl; cbn [Z.eqb Pos.eqb].
  all: do 5 (apply get_bits_R_total; [lia|lia|done|intros ? ? ?]).
  all: case_match; case_match; repeat (apply get_bits_R_total; [lia|lia|done|intros ? ? ?]);
    apply Hk; lia.
Qed.

Lemma check_nacks_total fuel buf pos e1 ack_sn prev :
  (pos <= 8 * length buf)%nat -> (8 * length buf < pos + 16 * fuel)%nat ->
  returns (check_nacks fuel e (dec_at buf pos) e1 ack_sn prev) (fun _ => True).
Proof using Hlen.
  revert pos e1. induction fuel as [|fuel IH]; intros pos e1 Hpos Hf; simpl;
    (destruct (e1 =? 0); [by apply returns_Ret|]); [lia|].
  apply (read_nack_total buf pos _ _ (fun c => returns c (fun _ => True))); [done|by apply returns_Ret|].
  intros b pos' Hpos'. destruct (check_range _ _ _ _ _ _); [|by apply returns_Ret]. apply IH; lia.
Qed.

Lemma check_control_returns buffer : returns (check_control_pdu e buffer) (fun _ => True).
Proof using Hlen.
  unfold check_control_pdu. rewrite dec_at_0.
  assert (Herr : returns (Ret false) (fun _ : bool => True)) by (by apply returns_Ret).
  set (P := fun c : outcome bool => returns c (fun _ => True)). change (P (Ret false)) in Herr.
  match goal with |- returns ?c _ => change (P c) end.
  do 2 (apply get_bits_R_total; [lia|lia|done|intros ? ? ?]). case_match; [exact Herr|].
  do 2 (apply get_bits_R_total; [lia|lia|done|intros ? ? ?]).
  apply get_bits_R_total; [lia|destruct (_ =? 18); lia|done|]. intros ? _ Hpos.
  destruct (0 <? _); [exact Herr|]. apply check_nacks_total; [lia|].
  destruct Hlen as [Hl|Hl]; rewrite Hl in *; cbn [Z.eqb Pos.eqb] in *; lia.
Qed.
End total.

(** C10: whatever bytes arrive, the validation pass over a STATUS PDU ends, reads
    only bytes of the PDU and answers: it neither runs off the buffer nor loops
    nor aborts; a PDU it refuses leaves the entity as it was. *)
Theorem am_control_validation_total e buffer :
  sn_field_length e = 12 \/ sn_field_length e = 18 ->
  exists valid, check_control_pdu e buffer = Ret valid /\
    (valid = false -> process_control_pdu e buffer = Ret e).
Proof.
  intros Hlen. destruct (check_control_returns e Hlen buffer) as (valid & Hv & _).
  exists valid. split; [done|]. intros ->. unfold process_control_pdu. by rewrite Hv.
Qed.

Definition fresh_am : nr_rlc_entity_am_t :=
  the (new_nr_rlc_entity_am 100000 100000 45 35 0 (-1) (-1) 8 12).

(** a truncated NACK list *)
Lemma am_control_validation_total_witness :
  exists valid, check_control_pdu fresh_am [0; 0; 128; 255; 255] = Ret valid /\
    (valid = false -> process_control_pdu fresh_am [0; 0; 128; 255; 255] = Ret fresh_am).
Proof. apply am_control_validation_total. left. reflexivity. Defined.

(** Entry point for received PDUs of an acknowledged-mode entity:
    [nr_rlc_entity_am_recv_pdu] of
    src/openair2/LAYER2/nr_rlc/nr_rlc_entity_am.c. *)

(** label [discard] *)
Definition recv_discard (entity : nr_rlc_entity_am_t) (p size : Z) : nr_rlc_entity_am_t :=
  let entity := if negb (p =? 0) then entity <| status_triggered := true |> else entity in
  upd_stats (fun s => s <| rxpdu_dd_pkts ::= add32 1 |> <| rxpdu_dd_bytes ::= add32 size |>) entity.

(** the header of a data PDU and the block of data behind it *)
Record data_pdu := mk_data_pdu {
  dp_p : Z;
  dp_sn : Z;
  dp_so : Z;
  dp_is_first : bool;
  dp_is_last : bool;
  dp_byte : Z                   (** bytes of header read *)
}.

(** accept or discard a decoded data PDU *)
Definition recv_data_pdu (entity : nr_rlc_entity_am_t) (buffer : list Z) (h : data_pdu)
    : outcome nr_rlc_entity_am_t :=
  let size := zlen buffer in
  let data_size := size - dp_byte h in
  let p := dp_p h in
  let sn := dp_sn h in
  let discard e := Ret (recv_discard e p size) in
  if data_size <=? 0 then discard entity
  else if rx_maxsize entity <? rx_size entity + data_size then discard entity
  else if negb (sn_in_recv_window entity sn) then
    discard (upd_stats (fun s => s <| rxpdu_ow_pkts ::= add32 1 |>
                                   <| rxpdu_ow_bytes ::= add32 size |>) entity)
  else if segment_already_received entity sn (dp_so h) data_size then
    discard (upd_stats (fun s => s <| rxpdu_dup_pkts ::= add32 1 |>
                                   <| rxpdu_dup_bytes ::= add32 size |>) entity)
  else
    data ← mem_read buffer (size - data_size) data_size;
    let pdu := nr_rlc_new_pdu sn (dp_so h) (dp_is_first h) (dp_is_last h) data data_size in
    let entity := entity <| rx_size ::= Z.add data_size |> in
    let entity := entity <| rx_list := nr_rlc_pdu_list_add (sn_compare_rx entity)
                                         (rx_list entity) pdu |> in
    entity ← reception_actions entity (pdu_sn pdu);
    Ret (if negb (p =? 0) then entity <| status_triggered := true |> else entity).

Definition nr_rlc_entity_am_recv_pdu (entity : nr_rlc_entity_am_t) (buffer : list Z)
    : outcome nr_rlc_entity_am_t :=
  let size := zlen buffer in
  let entity := upd_stats (fun s => s <| rxpdu_pkts ::= add32 1 |>
                                      <| rxpdu_bytes ::= add32 size |>) entity in
  let err p := Ret (recv_discard entity p size) in
  let d := nr_rlc_pdu_decoder_init buffer size in
  bits dc, d <- d # 1 orelse err 0;
  if dc =? 0 then process_control_pdu entity buffer else
  bits p, d <- d # 1 orelse err (-1);           (* get_bits returns -1 in error *)
  bits si, d <- d # 2 orelse err p;
  let is_first := Z.land si 2 =? 0 in
  let is_last := Z.land si 1 =? 0 in
  let read_sn d :=
    bits sn, d <- d # sn_field_length entity orelse err p;
    if negb is_first then
      bits so, d <- d # 16 orelse err p;
      if so =? 0 then err p
      else recv_data_pdu entity buffer (mk_data_pdu p sn so is_first is_last (dec_byte d))
    else recv_data_pdu entity buffer (mk_data_pdu p sn 0 is_first is_last (dec_byte d)) in
  if sn_field_length entity =? 18 then
    bits r, d <- d # 2 orelse err p;
    read_sn d
  else read_sn d.
