(* ===== verification/RlcAmTx.v ===== *)
(** Transmission of data PDUs by an acknowledged-mode entity: segmentation,
    serialisation, polling, first transmission and retransmission
    (src/openair2/LAYER2/nr_rlc/nr_rlc_entity_am.c). *)

From stdpp Require Import base tactics list numbers gmap.
From Stdlib Require Import ZArith Lia.
From S2P Require Import Prelude TimeStat RlcPdu RlcSdu RlcEntity RlcAmState.

Definition is_window_stalling (entity : nr_rlc_entity_am_t) : bool :=
  negb ((sn_compare_tx entity (tx_next_ack entity) (tx_next entity) <=? 0)
        && (sn_compare_tx entity (tx_next entity)
              ((tx_next_ack entity + window_size entity) %% sn_modulus entity) <? 0)).

(** set the P bit of the PDU in [buffer] and start t_poll_retransmit *)
Definition include_poll (entity : nr_rlc_entity_am_t) (buffer : list Z)
    : outcome (nr_rlc_entity_am_t * list Z) :=
  b ← rd buffer 0;
  buffer ← wr buffer 0 (Z.lor b 64);
  Ret (entity <| pdu_without_poll := 0 |>
              <| byte_without_poll := 0 |>
              <| poll_sn := (tx_next entity - 1 + sn_modulus entity) %% sn_modulus entity |>
              <| t_poll_retransmit_start := t_current entity |>,
       buffer).

Definition list_is_null {A} (l : list A) : bool :=
  match l with [] => true | _ :: _ => false end.

Definition check_poll_after_pdu_assembly (entity : nr_rlc_entity_am_t) : bool :=
  let transmission_buffer_empty := list_is_null (tx_list entity) in
  let retransmission_buffer_empty := list_is_null (retransmit_list entity) in
  (transmission_buffer_empty && retransmission_buffer_empty) || is_window_stalling entity.

(** bit [b] of a C [int] used as a boolean *)
Definition int_of_bool (b : bool) : Z := if b then 1 else 0.

(** the header of a data PDU *)
Definition serialize_header (entity : nr_rlc_entity_am_t) (sdu : nr_rlc_sdu_segment_t)
    (buffer : list Z) (bufsize : Z) : outcome nr_rlc_pdu_encoder_t :=
  let enc := nr_rlc_pdu_encoder_init buffer bufsize in
  enc ← nr_rlc_pdu_encoder_put_bits enc 1 1;
  enc ← nr_rlc_pdu_encoder_put_bits enc 0 1;
  enc ← nr_rlc_pdu_encoder_put_bits enc (1 - int_of_bool (seg_is_first sdu)) 1;
  enc ← nr_rlc_pdu_encoder_put_bits enc (1 - int_of_bool (seg_is_last sdu)) 1;
  enc ← (if sn_field_length entity =? 18
         then nr_rlc_pdu_encoder_put_bits enc 0 2 else Ret enc);
  u ← deref (heap entity) sdu;
  enc ← nr_rlc_pdu_encoder_put_bits enc (sdu_sn u) (sn_field_length entity);
  if negb (seg_is_first sdu)
  then nr_rlc_pdu_encoder_put_bits enc (seg_so sdu) 16 else Ret enc.

(** returns the size of the PDU; [bufsize] is the size of [buffer] *)
Definition serialize_sdu (entity : nr_rlc_entity_am_t) (sdu : nr_rlc_sdu_segment_t)
    (buffer : list Z) (bufsize : Z) (p : bool)
    : outcome (Z * nr_rlc_entity_am_t * list Z) :=
  enc ← serialize_header entity sdu buffer bufsize;
  u ← deref (heap entity) sdu;
  bytes ← mem_read (sdu_data u) (seg_so sdu) (seg_size sdu);
  buffer ← mem_write (enc_buffer enc) (enc_byte enc) bytes;
  '(entity, buffer) ← (if p then include_poll entity buffer else Ret (entity, buffer));
  Ret (enc_byte enc + seg_size sdu, entity, buffer).

(** [sdu] shortened to fit into [pdu_size] bytes, and the new segment with the
    rest of it, at a fresh address *)
Definition resegment (sdu : nr_rlc_sdu_segment_t) (entity : nr_rlc_entity_am_t) (pdu_size : Z)
    : outcome (nr_rlc_sdu_segment_t * nr_rlc_sdu_segment_t * nr_rlc_entity_am_t) :=
  u ← deref (heap entity) sdu;
  let h := store_sdu (heap entity) sdu (u <| sdu_ref_count ::= Z.add 1 |>) in
  let pdu_header_size := compute_pdu_header_size entity sdu in
  let next := sdu <| seg_addr := heap_next h |> in
  let h := h <| heap_next ::= S |> in
  let over_size := pdu_header_size + seg_size sdu - pdu_size in
  let sdu := sdu <| seg_size := seg_size sdu - over_size |> <| seg_is_last := false |> in
  let next := next <| seg_size := over_size |>
                   <| seg_so := seg_so sdu + seg_size sdu |>
                   <| seg_is_first := false |> in
  Ret (sdu, next, entity <| heap := h |>).

(** the segment [wait_end] points to *)
Fixpoint find_addr (a : nat) (l : list nr_rlc_sdu_segment_t) : outcome nr_rlc_sdu_segment_t :=
  match l with
  | [] => Undef
  | s :: l => if (seg_addr s =? a)%nat then Ret s else find_addr a l
  end.

(** the end of the wait list comes before [sdu]: the speedup test *)
Definition after_wait_end (entity : nr_rlc_entity_am_t) (sdu : nr_rlc_sdu_segment_t)
    : outcome bool :=
  match wait_end entity with
  | None => Ret true
  | Some a =>
      u ← deref (heap entity) sdu;
      last ← find_addr a (wait_list entity);
      v ← deref (heap entity) last;
      let cmp := sn_compare_tx entity (sdu_sn u) (sdu_sn v) in
      Ret ((0 <? cmp) || ((cmp =? 0) && (seg_so last <? seg_so sdu)))
  end.

(** put a transmitted segment in the wait list *)
Definition put_in_wait_list (entity : nr_rlc_entity_am_t) (sdu : nr_rlc_sdu_segment_t)
    : outcome nr_rlc_entity_am_t :=
  at_end ← after_wait_end entity sdu;
  if (at_end : bool) then
    '(l, e) ← nr_rlc_sdu_segment_list_append (wait_list entity) (wait_end entity) sdu;
    Ret (entity <| wait_list := l |> <| wait_end := e |>)
  else
    l ← nr_rlc_tx_sdu_segment_list_add entity (wait_list entity) sdu;
    let entity := entity <| wait_list := l |> in
    Ret (match l with
         | [s] => entity <| wait_end := Some (seg_addr s) |>
         | _ => entity
         end).

(** [if (entity->force_poll) { p = 1; force_poll = 0; }] *)
Definition apply_force_poll (entity : nr_rlc_entity_am_t) (p : bool)
    : bool * nr_rlc_entity_am_t :=
  if force_poll entity then (true, entity <| force_poll := false |>) else (p, entity).

Definition generate_retx_pdu (entity : nr_rlc_entity_am_t) (buffer : list Z)
    : outcome (Z * nr_rlc_entity_am_t * list Z) :=
  let size := zlen buffer in
  match retransmit_list entity with
  | [] => Undef
  | sdu :: rest =>
      let pdu_header_size := compute_pdu_header_size entity sdu in
      if size <? pdu_header_size + 1 then Ret (0, entity, buffer)
      else
        let entity := entity <| retransmit_list := rest |> in
        let pdu_size := pdu_header_size + seg_size sdu in
        let entity := add_bs_retx (- pdu_size) entity in
        '(sdu, entity) ←
          (if size <? pdu_size then
             '(sdu, next_sdu, entity) ← resegment sdu entity size;
             let entity := entity <| retransmit_list := next_sdu :: retransmit_list entity |> in
             let entity := add_bs_retx (compute_pdu_header_size entity next_sdu
                                        + seg_size next_sdu) entity in
             Ret (sdu, upd_stats (fun s => s <| txpdu_segmented ::= add32 1 |>) entity)
           else Ret (sdu, entity));
        entity ← put_in_wait_list entity sdu;
        let p := check_poll_after_pdu_assembly entity in
        let '(p, entity) := apply_force_poll entity p in
        '(ret_size, entity, buffer) ← serialize_sdu entity sdu buffer size p;
        Ret (ret_size,
             upd_stats (fun s => s <| txpdu_pkts ::= add32 1 |>
                                   <| txpdu_bytes ::= add32 ret_size |>
                                   <| txpdu_retx_pkts ::= add32 1 |>
                                   <| txpdu_retx_bytes ::= add32 ret_size |>) entity,
             buffer)
  end.

(** give the SDU its SN at its first transmission *)
Definition assign_sn (entity : nr_rlc_entity_am_t) (sdu : nr_rlc_sdu_segment_t)
    : outcome nr_rlc_entity_am_t :=
  u ← deref (heap entity) sdu;
  if sdu_sn u =? -1 then
    Ret (entity <| heap := store_sdu (heap entity) sdu (u <| sdu_sn := tx_next entity |>) |>
                <| tx_next := (tx_next entity + 1) %% sn_modulus entity |>)
  else Ret entity.

(** polling decision for a new PDU of [size] data bytes *)
Definition poll_new_pdu (entity : nr_rlc_entity_am_t) (size : Z)
    : bool * nr_rlc_entity_am_t :=
  let entity := entity <| pdu_without_poll ::= Z.add 1 |>
                       <| byte_without_poll ::= Z.add size |> in
  let p :=
    if (negb (poll_pdu entity =? -1) && (poll_pdu entity <=? pdu_without_poll entity))
       || (negb (poll_byte entity =? -1) && (poll_byte entity <=? byte_without_poll entity))
    then true else check_poll_after_pdu_assembly entity in
  apply_force_poll entity p.

(** [time_now] is the clock, read when the waiting time is measured *)
Definition generate_tx_pdu (entity : nr_rlc_entity_am_t) (buffer : list Z) (time_now : Z)
    : outcome (Z * nr_rlc_entity_am_t * list Z) :=
  let size := zlen buffer in
  if is_window_stalling entity then Ret (0, entity, buffer)
  else
    match tx_list entity with
    | [] => Ret (0, entity, buffer)
    | sdu :: rest =>
        let pdu_header_size := compute_pdu_header_size entity sdu in
        if size <? pdu_header_size + 1 then Ret (0, entity, buffer)
        else
          let entity := entity <| tx_list := rest |> in
          let entity := if list_is_null rest then entity <| tx_end := None |> else entity in
          let pdu_size := pdu_header_size + seg_size sdu in
          let entity := add_bs_tx (- pdu_size) entity in
          entity ← assign_sn entity sdu;
          '(sdu, entity) ←
            (if size <? pdu_size then
               '(sdu, next_sdu, entity) ← resegment sdu entity size;
               let entity := entity <| tx_list := next_sdu :: tx_list entity |> in
               let entity := match tx_end entity with
                             | None => entity <| tx_end := Some (seg_addr next_sdu) |>
                             | Some _ => entity
                             end in
               let entity := upd_stats (fun s => s <| txpdu_segmented ::= add32 1 |>) entity in
               Ret (sdu, add_bs_tx (compute_pdu_header_size entity next_sdu
                                    + seg_size next_sdu) entity)
             else Ret (sdu, entity));
          entity ← put_in_wait_list entity sdu;
          let '(p, entity) := poll_new_pdu entity (seg_size sdu) in
          '(ret_size, entity, buffer) ← serialize_sdu entity sdu buffer size p;
          let entity := upd_stats (fun s => s <| txpdu_pkts ::= add32 1 |>
                                              <| txpdu_bytes ::= add32 ret_size |>) entity in
          u ← deref (heap entity) sdu;
          c ← account_waiting_time (common entity) time_now (sdu_time_of_arrival u);
          Ret (ret_size, entity <| common := c |>, buffer)
    end.

(** ** SDUs from the upper layer *)

Definition nr_rlc_entity_am_recv_sdu (entity : nr_rlc_entity_am_t) (buffer : list Z)
    (sdu_id time_now : Z) : outcome nr_rlc_entity_am_t :=
  let size := zlen buffer in
  let entity := upd_stats (fun s => s <| rxsdu_pkts ::= add32 1 |>) entity in
  if NR_SDU_MAX <? size then Exit
  else
    let entity :=
      if negb (sdu_rejected entity =? 0)
         && (u64 (t_log_buffer_full entity + 1000) <? t_current entity)
      then entity <| sdu_rejected := 0 |> <| t_log_buffer_full := t_current entity |>
      else entity in
    if tx_maxsize entity <? tx_size entity + size then
      Ret (entity <| sdu_rejected ::= Z.add 1 |>)
    else
      let entity := entity <| tx_size ::= Z.add size |> in
      let entity := upd_stats (fun s => s <| rxsdu_bytes ::= add64 size |>) entity in
      let '(sdu, h) := nr_rlc_new_sdu (heap entity) buffer sdu_id in
      let entity := entity <| heap := h |> in
      '(l, e) ← nr_rlc_sdu_segment_list_append (tx_list entity) (tx_end entity) sdu;
      let entity := entity <| tx_list := l |> <| tx_end := e |> in
      let entity := add_bs_tx (compute_pdu_header_size entity sdu + seg_size sdu) entity in
      if avg_time_is_on (common entity) then
        u ← deref (heap entity) sdu;
        Ret (entity <| heap := store_sdu (heap entity) sdu
                                 (u <| sdu_time_of_arrival := time_now |>) |>)
      else Ret entity.

Definition nr_rlc_entity_am_available_tx_space (entity : nr_rlc_entity_am_t) : Z :=
  tx_maxsize entity - tx_size entity.

(** ** Discard (38.322 5.4) *)

(** split the list at the first segment of SDU [sdu_id]: the segments before
    it, the segment, and the rest *)
Fixpoint find_sdu_id (h : sdu_heap) (l : list nr_rlc_sdu_segment_t) (sdu_id : Z)
    : outcome (option (list nr_rlc_sdu_segment_t * nr_rlc_sdu_segment_t
                       * list nr_rlc_sdu_segment_t)) :=
  match l with
  | [] => Ret None
  | cur :: next =>
      u ← deref h cur;
      if sdu_upper_layer_id u =? sdu_id then Ret (Some ([], cur, next))
      else
        r ← find_sdu_id h next sdu_id;
        Ret (match r with
             | None => None
             | Some (before, s, after) => Some (cur :: before, s, after)
             end)
  end.

Definition nr_rlc_entity_am_discard_sdu (entity : nr_rlc_entity_am_t) (sdu_id : Z)
    : outcome nr_rlc_entity_am_t :=
  r ← find_sdu_id (heap entity) (tx_list entity) sdu_id;
  match r with
  | None => Ret entity
  | Some (before, cur, after) =>
      if negb (seg_is_first cur) || negb (seg_is_last cur) then Ret entity
      else
        let entity := entity <| tx_list := before ++ after |> in
        let entity :=
          if match tx_end entity with Some a => (a =? seg_addr cur)%nat | None => false end
          then entity <| tx_end := option_map seg_addr (last before) |>
          else entity in
        let entity := add_bs_tx (- (compute_pdu_header_size entity cur + seg_size cur)) entity in
        u ← deref (heap entity) cur;
        let entity := entity <| tx_size ::= Z.add (- sdu_size u) |> in
        '(_, h) ← nr_rlc_free_sdu_segment (heap entity) cur;
        Ret (entity <| heap := h |>)
  end.
