(* ===== verification/RlcAmStatus.v ===== *)
(** Status reporting of an acknowledged-mode entity: the search for missing
    data, the STATUS PDU and its size
    (src/openair2/LAYER2/nr_rlc/nr_rlc_entity_am.c, status reporting). *)

From stdpp Require Import base tactics list numbers gmap.
From Stdlib Require Import ZArith Lia.
From S2P Require Import Prelude TimeStat RlcPdu RlcSdu RlcEntity RlcAmState.

Record missing_data_t := mk_missing {
  m_sn_start : Z;               (** -1: no more missing part to report *)
  m_so_start : Z;
  m_sn_end : Z;
  m_so_end : Z;
  m_next : list nr_rlc_pdu_t    (** the list [next] points to; [[]] is NULL *)
}.
#[export] Instance missing_eta : Eta missing_data_t :=
  fun m => mk_missing (m_sn_start m) (m_so_start m) (m_sn_end m) (m_so_end m) (m_next m).

(** nothing to report: only [sn_start] is set in the source *)
Definition no_missing : missing_data_t := mk_missing (-1) 0 0 0 [].

(** [sn] is not below [rx_highest_status]: out of the reporting window *)
Definition out_of_report (entity : nr_rlc_entity_am_t) (sn : Z) : bool :=
  sn_compare_rx entity (rx_highest_status entity) sn <=? 0.

Definition last_reported_sn (entity : nr_rlc_entity_am_t) : Z :=
  (rx_highest_status entity - 1 + sn_modulus entity) %% sn_modulus entity.

(** label [set_end_different_sdu]: the missing part from [sn_start]/[so_start]
    up to [cur], the head of [next] *)
Definition set_end_different_sdu (entity : nr_rlc_entity_am_t) (sn_start so_start : Z)
    (cur : nr_rlc_pdu_t) (next : list nr_rlc_pdu_t) : missing_data_t :=
  let '(sn_end, so_end) :=
    if pdu_is_first cur
    then ((pdu_sn cur - 1 + sn_modulus entity) %% sn_modulus entity, 65535)
    else (pdu_sn cur, pdu_so cur - 1) in
  if out_of_report entity sn_end
  then mk_missing sn_start so_start (last_reported_sn entity) 65535 []
  else mk_missing sn_start so_start sn_end so_end next.

(** label [next_pdu]: [cur] is the current PDU, [next] the list behind it *)
Fixpoint next_missing_loop (entity : nr_rlc_entity_am_t) (cur : nr_rlc_pdu_t)
    (next : list nr_rlc_pdu_t) (max_so : Z) (last_reached : bool) : missing_data_t :=
  let sn := pdu_sn cur in
  let max_so := Z.max max_so (pdu_so cur + pdu_size cur - 1) in
  let last_reached := last_reached || pdu_is_last cur in
  match next with
  | [] =>
      let '(sn_start, so_start) :=
        match pdu_data cur with
        | None => ((pdu_sn cur + 1) %% sn_modulus entity, 0)
        | Some _ => if last_reached then ((pdu_sn cur + 1) %% sn_modulus entity, 0)
                    else (pdu_sn cur, max_so + 1)
        end in
      if out_of_report entity sn_start then no_missing
      else mk_missing sn_start so_start (last_reported_sn entity) 65535 []
  | cur' :: next' =>
      if (pdu_sn cur' =? sn) && (pdu_so cur' - 1 <=? max_so) then
        next_missing_loop entity cur' next' max_so last_reached
      else if (pdu_sn cur' =? (sn + 1) %% sn_modulus entity) && last_reached
              && pdu_is_first cur' then
        next_missing_loop entity cur' next' 0 false
      else if pdu_sn cur' =? sn then
        if out_of_report entity sn then no_missing
        else mk_missing sn (max_so + 1) sn (pdu_so cur' - 1) next
      else
        let '(sn_start, so_start) :=
          if last_reached then ((sn + 1) %% sn_modulus entity, 0) else (sn, max_so + 1) in
        if out_of_report entity sn_start then no_missing
        else set_end_different_sdu entity sn_start so_start cur' next
  end.

Definition next_missing (entity : nr_rlc_entity_am_t) (cur : nr_rlc_pdu_t)
    (next : list nr_rlc_pdu_t) (check_head : bool) : missing_data_t :=
  if check_head && (negb (pdu_sn cur =? rx_next entity) || negb (pdu_is_first cur)) then
    if out_of_report entity (rx_next entity) then no_missing
    else set_end_different_sdu entity (rx_next entity) 0 cur (cur :: next)
  else next_missing_loop entity cur next 0 false.

Definition nack_size (entity : nr_rlc_entity_am_t) (m : missing_data_t) : Z :=
  let nack_length := 2 + (if sn_field_length entity =? 18 then 1 else 0) in
  if m_sn_start m =? m_sn_end m then
    if (m_so_start m =? 0) && (m_so_end m =? 65535) then nack_length
    else nack_length + 4
  else if (m_so_start m =? 0) && (m_so_end m =? 65535) then nack_length + 1
  else nack_length + 5.

Definition get_e1_position (entity : nr_rlc_entity_am_t) (encoder : nr_rlc_pdu_encoder_t)
    : Z * Z :=
  if sn_field_length entity =? 18 then (enc_byte encoder + 2, 5)
  else (enc_byte encoder + 1, 3).

(** the NACK for the SNs from [sn_start] on, [sn_count] of them left: a range
    holds at most 255 SNs *)
Definition cut_range (entity : nr_rlc_entity_am_t) (m : missing_data_t) (sn_start sn_count : Z)
    : Z * missing_data_t :=
  let cur_sn_count := if 255 <? sn_count then 255 else sn_count in
  let so_start := if sn_start =? m_sn_start m then m_so_start m else 0 in
  let '(sn_end, so_end) :=
    if cur_sn_count =? sn_count then (m_sn_end m, m_so_end m)
    else ((sn_start + 254) %% sn_modulus entity, 65535) in
  (cur_sn_count, mk_missing sn_start so_start sn_end so_end []).

(** bits E2 and E3 of a NACK block *)
Definition nack_e2_e3 (n : missing_data_t) : bool * bool :=
  if m_sn_start n =? m_sn_end n then
    if (m_so_start n =? 0) && (m_so_end n =? 65535) then (false, false) else (true, false)
  else if (m_so_start n =? 0) && (m_so_end n =? 65535) then (false, true) else (true, true).

Definition bit_of (b : bool) : Z := if b then 1 else 0.

(** one NACK block; also returns the address of [so_end] when there is one *)
Definition put_nack (entity : nr_rlc_entity_am_t) (enc : nr_rlc_pdu_encoder_t)
    (n : missing_data_t) (cur_sn_count : Z)
    : outcome (nr_rlc_pdu_encoder_t * option Z) :=
  let '(e2, e3) := nack_e2_e3 n in
  let r_bits := if sn_field_length entity =? 18 then 3 else 1 in
  enc ← nr_rlc_pdu_encoder_put_bits enc (m_sn_start n) (sn_field_length entity);
  enc ← nr_rlc_pdu_encoder_put_bits enc 0 1;
  enc ← nr_rlc_pdu_encoder_put_bits enc (bit_of e2) 1;
  enc ← nr_rlc_pdu_encoder_put_bits enc (bit_of e3) 1;
  enc ← nr_rlc_pdu_encoder_put_bits enc 0 r_bits;
  '(enc, so_end_address) ←
    (if e2 then
       enc ← nr_rlc_pdu_encoder_put_bits enc (m_so_start n) 16;
       let a := enc_byte enc in
       enc ← nr_rlc_pdu_encoder_put_bits enc (m_so_end n) 16;
       Ret (enc, Some a)
     else Ret (enc, None));
  enc ← (if e3 then nr_rlc_pdu_encoder_put_bits enc cur_sn_count 8 else Ret enc);
  Ret (enc, so_end_address).

(** the variables [generate_missing] changes through pointers *)
Record gen_state := mk_gen {
  g_encoder : nr_rlc_pdu_encoder_t;
  g_e1_byte : Z;
  g_e1_bit : Z;
  g_truncated : bool;
  g_so_end_address : option Z
}.
#[export] Instance gen_eta : Eta gen_state :=
  fun g => mk_gen (g_encoder g) (g_e1_byte g) (g_e1_bit g) (g_truncated g) (g_so_end_address g).

(** [while (sn_count)]; returns the last nack generated and [m->next] *)
Fixpoint generate_missing_loop (fuel : nat) (entity : nr_rlc_entity_am_t) (m : missing_data_t)
    (sn_start sn_count last_nack_generated : Z) (g : gen_state)
    : outcome (Z * list nr_rlc_pdu_t * gen_state) :=
  if sn_count =? 0 then Ret (last_nack_generated, m_next m, g)
  else
    match fuel with
    | O => Diverge
    | S fuel =>
        let '(cur_sn_count, n) := cut_range entity m sn_start sn_count in
        let enc := g_encoder g in
        if enc_size enc <? enc_byte enc + nack_size entity n then
          Ret (last_nack_generated, [], g <| g_truncated := true |>)
        else
          b ← rd (enc_buffer enc) (g_e1_byte g);
          buffer ← wr (enc_buffer enc) (g_e1_byte g)
                     (Z.land (Z.lor b (Z.shiftl 1 (g_e1_bit g))) 255);
          let enc := enc <| enc_buffer := buffer |> in
          let '(e1_byte, e1_bit) := get_e1_position entity enc in
          '(enc, so_end_address) ← put_nack entity enc n cur_sn_count;
          let last_nack :=
            if snd (nack_e2_e3 n) then sn_start + cur_sn_count - 1 else sn_start in
          generate_missing_loop fuel entity m
            ((sn_start + cur_sn_count) %% sn_modulus entity) (sn_count - cur_sn_count) last_nack
            (mk_gen enc e1_byte e1_bit (g_truncated g) so_end_address)
    end.

Definition missing_sn_count (entity : nr_rlc_entity_am_t) (m : missing_data_t) : Z :=
  (m_sn_end m - m_sn_start m + sn_modulus entity) %% sn_modulus entity + 1.

(** each round takes 255 SNs, or all that are left *)
Definition range_fuel (sn_count : Z) : nat := S (Z.to_nat (sn_count / 255)).

Definition generate_missing (entity : nr_rlc_entity_am_t) (m : missing_data_t) (g : gen_state)
    : outcome (Z * list nr_rlc_pdu_t * gen_state) :=
  let sn_count := missing_sn_count entity m in
  generate_missing_loop (range_fuel sn_count) entity m (m_sn_start m) sn_count (-1) g.

(** [so_end_address[0] = so_end_address[1] = 0xff] *)
Definition force_so_end (g : gen_state) : outcome gen_state :=
  match g_truncated g, g_so_end_address g with
  | true, Some a =>
      buffer ← wr (enc_buffer (g_encoder g)) a 255;
      buffer ← wr buffer (a + 1) 255;
      Ret (g <| g_encoder ::= (fun enc => enc <| enc_buffer := buffer |>) |>)
  | _, _ => Ret g
  end.

(** [while (cur != NULL)] of [generate_status]; returns [last_nack] *)
Fixpoint status_loop (fuel : nat) (entity : nr_rlc_entity_am_t) (cur : list nr_rlc_pdu_t)
    (check_head : bool) (last_nack : Z) (g : gen_state) : outcome (Z * gen_state) :=
  match cur with
  | [] => Ret (last_nack, g)
  | p :: next =>
      match fuel with
      | O => Diverge
      | S fuel =>
          let m := next_missing entity p next check_head in
          if m_sn_start m =? -1 then Ret (last_nack, g)
          else
            '(ln, next, g) ← generate_missing entity m (g <| g_truncated := false |>);
            let last_nack := if negb (ln =? -1) then ln else last_nack in
            g ← force_so_end g;
            status_loop fuel entity next false last_nack g
      end
  end.

(** put ACK_SN in the first bytes *)
Definition put_ack_sn (entity : nr_rlc_entity_am_t) (buffer : list Z) (ack_sn : Z)
    : outcome (list Z) :=
  if sn_field_length entity =? 12 then
    buffer ← wr buffer 0 (Z.land (Z.shiftr ack_sn 8) 255);
    wr buffer 1 (Z.land ack_sn 255)
  else
    buffer ← wr buffer 0 (Z.land (Z.shiftr ack_sn 14) 255);
    buffer ← wr buffer 1 (Z.land (Z.shiftr ack_sn 6) 255);
    b ← rd buffer 2;
    wr buffer 2 (Z.land (Z.lor b (Z.shiftl (Z.land ack_sn 63) 2)) 255).

Definition generate_status (entity : nr_rlc_entity_am_t) (buffer : list Z)
    : outcome (Z * nr_rlc_entity_am_t * list Z) :=
  let size := zlen buffer in
  if size <? 3 then Ret (0, entity, buffer)
  else
    let last_nack := (rx_next entity - 1 + sn_modulus entity) %% sn_modulus entity in
    enc ← nr_rlc_pdu_encoder_put_bits (nr_rlc_pdu_encoder_init buffer size) 0 (8 * 3);
    let e1_bit := if sn_field_length entity =? 18 then 1 else 7 in
    '(last_nack, g) ← status_loop (S (length (rx_list entity))) entity (rx_list entity) true
                        last_nack (mk_gen enc 2 e1_bit false None);
    let ack_sn := (last_nack + 1) %% sn_modulus entity in
    buffer ← put_ack_sn entity (enc_buffer (g_encoder g)) ack_sn;
    let n := enc_byte (g_encoder g) in
    let entity := entity <| status_triggered := false |>
                         <| t_status_prohibit_start := t_current entity |> in
    Ret (n, upd_stats (fun s => s <| txpdu_pkts ::= add32 1 |>
                                  <| txpdu_bytes ::= add32 n |>
                                  <| txpdu_status_pkts ::= add32 1 |>
                                  <| txpdu_status_bytes ::= add32 n |>) entity, buffer).

Definition status_to_report (entity : nr_rlc_entity_am_t) : bool :=
  status_triggered entity
  && ((t_status_prohibit_start entity =? 0)
      || (u64 (t_status_prohibit entity) <? u64 (t_current entity - t_status_prohibit_start entity))).

(** ** The size of the STATUS PDU, for the buffer status *)

(** size of one NACK block, from its fields *)
Definition nack_field_size (entity : nr_rlc_entity_am_t) (n : missing_data_t) : Z :=
  let r_bits := if sn_field_length entity =? 18 then 3 else 1 in
  if m_sn_start n =? m_sn_end n then
    if (m_so_start n =? 0) && (m_so_end n =? 65535)
    then Z.quot (sn_field_length entity + 3 + r_bits) 8
    else Z.quot (sn_field_length entity + 3 + r_bits + 16 * 2) 8
  else if (m_so_start n =? 0) && (m_so_end n =? 65535)
  then Z.quot (sn_field_length entity + 3 + r_bits + 8) 8
  else Z.quot (sn_field_length entity + 3 + r_bits + 16 * 2 + 8) 8.

(** returns the number of ranges, [m->next] and [*size] *)
Fixpoint missing_size_loop (fuel : nat) (entity : nr_rlc_entity_am_t) (m : missing_data_t)
    (sn_start sn_count range_count size maxsize : Z)
    : outcome (Z * list nr_rlc_pdu_t * Z) :=
  if sn_count =? 0 then Ret (range_count, m_next m, size)
  else
    match fuel with
    | O => Diverge
    | S fuel =>
        let '(cur_sn_count, n) := cut_range entity m sn_start sn_count in
        if maxsize <? size + nack_size entity n then Ret (range_count, [], size)
        else missing_size_loop fuel entity m ((sn_start + cur_sn_count) %% sn_modulus entity)
               (sn_count - cur_sn_count) (range_count + 1)
               (size + nack_field_size entity n) maxsize
    end.

Definition missing_size (entity : nr_rlc_entity_am_t) (m : missing_data_t) (size maxsize : Z)
    : outcome (Z * list nr_rlc_pdu_t * Z) :=
  let sn_count := missing_sn_count entity m in
  missing_size_loop (range_fuel sn_count) entity m (m_sn_start m) sn_count 0 size maxsize.

Fixpoint status_size_loop (fuel : nat) (entity : nr_rlc_entity_am_t) (cur : list nr_rlc_pdu_t)
    (nack_count size maxsize : Z) : outcome Z :=
  match cur with
  | [] => Ret size
  | p :: next =>
      match fuel with
      | O => Diverge
      | S fuel =>
          let m := next_missing entity p next (nack_count =? 0) in
          if m_sn_start m =? -1 then Ret size
          else
            '(n, next, size) ← missing_size entity m size maxsize;
            status_size_loop fuel entity next (nack_count + n) size maxsize
      end
  end.

Definition status_size (entity : nr_rlc_entity_am_t) (maxsize : Z) : outcome Z :=
  if maxsize <? 3 then Ret 0
  else status_size_loop (S (length (rx_list entity))) entity (rx_list entity) 0 3 maxsize.

Definition nr_rlc_entity_am_buffer_status (entity : nr_rlc_entity_am_t) (maxsize : Z)
    : outcome nr_rlc_entity_buffer_status_t :=
  n ← (if status_to_report entity then status_size entity maxsize else Ret 0);
  Ret (mk_bstatus n (bs_tx_size (bstatus (common entity)))
         (bs_retx_size (bstatus (common entity)))).
