(* ===== verification/RlcAm.v ===== *)
(** Timers, generation of PDUs, re-establishment and the whole acknowledged-mode
    entity (src/openair2/LAYER2/nr_rlc/nr_rlc_entity_am.c): its operations as
    one step function. *)

From stdpp Require Import base tactics list numbers gmap.
From Stdlib Require Import ZArith Lia.
From S2P Require Import Prelude TimeStat RlcPdu RlcSdu RlcEntity RlcRxList RlcAmState RlcAmRx.
From S2P Require Import RlcAmControl RlcAmTx RlcAmStatus.

(** [buffer] has the [size] bytes offered by the MAC *)
Definition nr_rlc_entity_am_generate_pdu (entity : nr_rlc_entity_am_t) (buffer : list Z)
    (time_now : Z) : outcome (Z * nr_rlc_entity_am_t * list Z) :=
  let retx_or_tx '(entity, buffer) :=
    '(ret, entity, buffer) ←
      (if negb (list_is_null (retransmit_list entity)) then generate_retx_pdu entity buffer
       else Ret (0, entity, buffer));
    if negb (ret =? 0) then Ret (ret, entity, buffer)
    else generate_tx_pdu entity buffer time_now in
  if status_to_report entity then
    '(ret, entity, buffer) ← generate_status entity buffer;
    if negb (ret =? 0) then Ret (ret, entity, buffer)
    else retx_or_tx (entity, buffer)
  else retx_or_tx (entity, buffer).

(** ** Timers *)

(** the [do ... while] that moves the segments of [retransmit_sn] from the head
    [cur] of the wait list to the retransmit list *)
Fixpoint retransmit_sn_loop (entity : nr_rlc_entity_am_t) (cur : nr_rlc_sdu_segment_t)
    (next : list nr_rlc_sdu_segment_t) (retransmit_sn : Z) : outcome nr_rlc_entity_am_t :=
  let entity := entity <| wait_list := next |> in
  let entity := if list_is_null next then entity <| wait_end := None |> else entity in
  let entity := add_bs_retx (compute_pdu_header_size entity cur + seg_size cur) entity in
  l ← nr_rlc_tx_sdu_segment_list_add entity (retransmit_list entity) cur;
  let entity := entity <| retransmit_list := l |> in
  match next with
  | [] => Ret entity
  | cur' :: next' =>
      u ← deref (heap entity) cur';
      if sdu_sn u =? retransmit_sn
      then retransmit_sn_loop entity cur' next' retransmit_sn
      else Ret entity
  end.

Definition check_t_poll_retransmit (entity : nr_rlc_entity_am_t)
    : outcome nr_rlc_entity_am_t :=
  if (t_poll_retransmit_start entity =? 0)
     || (t_current entity <=? u64 (t_poll_retransmit_start entity + t_poll_retransmit entity))
  then Ret entity
  else
    let entity := entity <| t_poll_retransmit_start := 0 |> <| force_poll := true |> in
    if negb (check_poll_after_pdu_assembly entity) then Ret entity
    else
      match wait_list entity with
      | [] => Undef                                   (* cur is NULL *)
      | cur :: next =>
          u ← deref (heap entity) cur;
          let u := u <| sdu_retx_count ::= Z.add 1 |> in
          let entity := entity <| heap := store_sdu (heap entity) cur u |> in
          entity ← retransmit_sn_loop entity cur next (sdu_sn u);
          Ret (if max_retx_threshold entity <=? sdu_retx_count u
               then am_emit MaxRetxReached entity else entity)
      end.

Definition check_t_reassembly (entity : nr_rlc_entity_am_t) : outcome nr_rlc_entity_am_t :=
  if (t_reassembly_start entity =? 0)
     || (t_current entity <=? u64 (t_reassembly_start entity + t_reassembly entity))
  then Ret entity
  else
    let entity := entity <| t_reassembly_start := 0 |> in
    sn ← skip_delivered (length (rx_list entity)) entity (rx_next_status_trigger entity);
    let entity := entity <| rx_highest_status := sn |> <| status_triggered := true |> in
    let after := (rx_highest_status entity + 1) %% sn_modulus entity in
    Ret (if (0 <? sn_compare_rx entity (rx_next_highest entity) after)
            || ((rx_next_highest entity =? after)
                && sdu_has_missing_bytes entity (rx_highest_status entity))
         then entity <| t_reassembly_start := t_current entity |>
                     <| rx_next_status_trigger := rx_next_highest entity |>
         else entity).

Definition nr_rlc_entity_am_set_time (entity : nr_rlc_entity_am_t) (now : Z)
    : outcome nr_rlc_entity_am_t :=
  let entity := entity <| t_current := now |> in
  entity ← check_t_poll_retransmit entity;
  check_t_reassembly entity.

(** ** Re-establishment *)

Definition clear_entity (entity : nr_rlc_entity_am_t) : outcome nr_rlc_entity_am_t :=
  let entity := entity
    <| rx_next := 0 |> <| rx_next_status_trigger := 0 |> <| rx_highest_status := 0 |>
    <| rx_next_highest := 0 |> <| status_triggered := false |>
    <| tx_next := 0 |> <| tx_next_ack := 0 |> <| poll_sn := 0 |>
    <| pdu_without_poll := 0 |> <| byte_without_poll := 0 |> <| force_poll := false |>
    <| t_current := 0 |> <| t_log_buffer_full := 0 |> <| sdu_rejected := 0 |>
    <| t_poll_retransmit_start := 0 |> <| t_reassembly_start := 0 |>
    <| t_status_prohibit_start := 0 |>
    <| rx_list := [] |> <| rx_size := 0 |> in
  h ← nr_rlc_free_sdu_segment_list (heap entity) (tx_list entity);
  h ← nr_rlc_free_sdu_segment_list h (wait_list entity);
  h ← nr_rlc_free_sdu_segment_list h (retransmit_list entity);
  Ret (entity
    <| heap := h |>
    <| tx_list := [] |> <| tx_end := None |> <| tx_size := 0 |>
    <| wait_list := [] |> <| wait_end := None |> <| retransmit_list := [] |>
    <| common ::= (fun c => c <| bstatus ::= (fun b => b <| bs_tx_size := 0 |>
                                                         <| bs_retx_size := 0 |>) |>) |>).

Definition nr_rlc_entity_am_reestablishment (entity : nr_rlc_entity_am_t)
    : outcome nr_rlc_entity_am_t := clear_entity entity.

(** the entity itself is freed: what is left of its SDUs *)
Definition nr_rlc_entity_am_delete (entity : nr_rlc_entity_am_t) : outcome sdu_heap :=
  entity ← clear_entity entity;
  Ret (heap entity).

(** ** The entity as one machine *)

(** the calls the MAC and the upper layers make; [GeneratePdu] brings the
    buffer to fill and the clock *)
Inductive am_op :=
| RecvPdu (buffer : list Z)
| RecvSdu (buffer : list Z) (sdu_id time_now : Z)
| GeneratePdu (buffer : list Z) (time_now : Z)
| SetTime (now : Z)
| DiscardSdu (sdu_id : Z)
| Reestablishment.

Definition am_step (entity : nr_rlc_entity_am_t) (op : am_op) : outcome nr_rlc_entity_am_t :=
  match op with
  | RecvPdu buffer => nr_rlc_entity_am_recv_pdu entity buffer
  | RecvSdu buffer sdu_id time_now => nr_rlc_entity_am_recv_sdu entity buffer sdu_id time_now
  | GeneratePdu buffer time_now =>
      '(_, entity, _) ← nr_rlc_entity_am_generate_pdu entity buffer time_now; Ret entity
  | SetTime now => nr_rlc_entity_am_set_time entity now
  | DiscardSdu sdu_id => nr_rlc_entity_am_discard_sdu entity sdu_id
  | Reestablishment => nr_rlc_entity_am_reestablishment entity
  end.

Fixpoint am_run (entity : nr_rlc_entity_am_t) (ops : list am_op) : outcome nr_rlc_entity_am_t :=
  match ops with
  | [] => Ret entity
  | op :: ops => entity ← am_step entity op; am_run entity ops
  end.
