(* ===== verification/RlcAmRxInv.v ===== *)
(** The receiving side of an acknowledged-mode entity fed by a sender that
    segments SDUs: which bytes are discarded as already received, the state
    invariant of the reception buffer and window, and the delivery of exactly
    the SDUs that were sent. *)

From stdpp Require Import base tactics list numbers.
From Stdlib Require Import ZArith Lia Sorted.
From S2P Require Import Prelude TimeStat RlcPdu RlcSdu RlcEntity RlcRxList.
From S2P Require Import RlcAmState RlcAmRx RlcAmControl.

(** ** Duplicate detection *)

Lemma already_received_done l sn so size :
  size <= 0 -> already_received_loop l sn so size = size.
Proof. intros H. destruct l; simpl; [done|]. by rewrite (proj2 (Z.ltb_ge 0 size)). Qed.

(** C13: [segment_already_received] never makes the receiver drop a byte it does
    not have: when it answers yes, every byte of the segment is in some PDU of
    that SN in the reception list. *)
Lemma already_received_sound entity sn so size :
  segment_already_received entity sn so size = true ->
  forall i, so <= i < so + size ->
  exists p, p ∈ rx_list entity /\ pdu_sn p = sn /\ pdu_so p <= i < pdu_so p + pdu_size p.
Proof.
  unfold segment_already_received. rewrite Z.leb_le. generalize (rx_list entity) as l. intros l.
  revert so size. induction l as [|p l IH]; intros so size H i Hi; simpl in H; [lia|].
  destruct (Z.ltb_spec 0 size); [|lia].
  assert (Hlater : forall so' size', already_received_loop l sn so' size' <= 0 ->
    so' <= i < so' + size' ->
    exists q, q ∈ p :: l /\ pdu_sn q = sn /\ pdu_so q <= i < pdu_so q + pdu_size q).
  { intros so' size' H' Hi'. destruct (IH _ _ H' i Hi') as (q & ? & ?). exists q. split; [by right|done]. }
  destruct (Z.eqb_spec (pdu_sn p) sn) as [Hsn|]; [|by eapply Hlater].
  destruct ((pdu_so p <=? so) && _) eqn:E1; bool_prop.
  - destruct (Z.lt_ge_cases i (pdu_so p + pdu_size p)).
    + exists p. split; [left|]. lia.
    + eapply Hlater; [exact H|]. lia.
  - destruct ((pdu_so p <=? so + size - 1) && _) eqn:E2; bool_prop; [|by eapply Hlater].
    apply andb_false_iff in E1. destruct (Z.lt_ge_cases i (pdu_so p)).
    + eapply Hlater; [exact H|]. lia.
    + exists p. split; [left|]. lia.
Qed.

Lemma already_received_other b l sn so size :
  Forall (other_sn sn) b ->
  already_received_loop (b ++ l) sn so size = already_received_loop l sn so size.
Proof.
  induction 1 as [|p b Hp _ IH]; simpl; [done|].
  destruct (Z.ltb_spec 0 size); [|by rewrite already_received_done].
  by rewrite (proj2 (Z.eqb_neq _ _) Hp).
Qed.

Lemma already_received_covered k a sn so size n len :
  Forall (has_sn sn) k -> contig k n = len -> n <= so -> so + size <= len ->
  already_received_loop (k ++ a) sn so size <= 0.
Proof.
  intros Hk. revert n so size. induction Hk as [|p k Hp _ IH]; intros n so size Hc Hn Hlen; simpl in *.
  { rewrite already_received_done; lia. }
  destruct (Z.ltb_spec 0 size); [|lia]. rewrite (proj2 (Z.eqb_eq _ _) Hp).
  destruct (Z.ltb_spec n (pdu_so p)); [lia|].
  destruct ((pdu_so p <=? so) && _) eqn:E1; bool_prop.
  - eapply IH; [exact Hc| |]; unfold pdu_end; lia.
  - apply andb_false_iff in E1.
    destruct ((pdu_so p <=? so + size - 1) && _) eqn:E2; bool_prop;
      [destruct E1; bool_prop; lia|].
    eapply IH; [exact Hc| |lia]. unfold pdu_end. destruct E1; bool_prop; lia.
Qed.

(** a complete SDU covers every segment of it *)
Lemma already_received_complete key l sn (sdu : list Z) so size :
  StronglySorted (pdu_le key) l -> contig (of_sn sn l) 0 = zlen sdu ->
  0 <= so -> so + size <= zlen sdu -> already_received_loop l sn so size <= 0.
Proof.
  intros Hs Hc Hso Hlen. destruct (sorted_sn_block _ _ sn Hs) as (b & k & a & Hblk).
  rewrite (of_sn_block Hblk) in Hc. destruct Hblk as [-> Hb Hk Ha].
  rewrite already_received_other by done. by eapply already_received_covered.
Qed.

(** ** The reception buffer *)

(** the SDUs of the sender, by SN *)
Definition sdu_map := Z -> list Z.

Definition stored (p : nr_rlc_pdu_t) : Z := match pdu_data p with Some _ => pdu_size p | None => 0 end.

(** the PDUs of an SN: all waiting, or all delivered and then complete *)
Definition block_ok (sdu : list Z) (k : list nr_rlc_pdu_t) : Prop :=
  Forall (fun p => pdu_data p <> None) k \/
  (Forall (fun p => pdu_data p = None) k /\ contig k 0 = zlen sdu).

Record buf_ok (S : sdu_map) (key : Z -> Z) (l : list nr_rlc_pdu_t) : Prop := mk_buf_ok {
  buf_sorted : StronglySorted (pdu_le key) l;
  buf_pieces : Forall (fun p => piece (S (pdu_sn p)) p) l;
  buf_blocks : forall sn, block_ok (S sn) (of_sn sn l)
}.

Lemma of_sn_pieces S l sn :
  Forall (fun p => piece (S (pdu_sn p)) p) l -> Forall (piece (S sn)) (of_sn sn l).
Proof.
  rewrite !list.Forall_forall. intros H p Hp. apply list_elem_of_filter in Hp as [<- Hp]. auto.
Qed.

Lemma of_sn_in sn l : Forall (has_sn sn) (of_sn sn l).
Proof. rewrite list.Forall_forall. intros p Hp. by apply list_elem_of_filter in Hp as [? _]. Qed.

Section buf.
Context (S : sdu_map).

Lemma block_delivered sn l :
  Forall (fun p => piece (S (pdu_sn p)) p) l -> block_ok (S sn) (of_sn sn l) ->
  data_is_null (of_sn sn l) = true ->
  Forall (fun p => pdu_data p = None) (of_sn sn l) /\ contig (of_sn sn l) 0 = zlen (S sn).
Proof using Type.
  intros _ [Hd|?] Hn; [exfalso|done]. destruct Hd as [|p k Hp]; simpl in Hn; [done|].
  by destruct (pdu_data p).
Qed.

(** a segment that is not already received belongs to an SDU not delivered *)
Lemma new_not_delivered key l sn so size :
  buf_ok S key l -> 0 <= so -> so + size <= zlen (S sn) ->
  0 < already_received_loop l sn so size -> delivered_in l sn = false.
Proof using Type.
  intros [Hs Hp Hb] Hso Hlen Hnew. rewrite (delivered_in_of_sn _ _ _ Hs).
  destruct (data_is_null (of_sn sn l)) eqn:E; [exfalso|done].
  destruct (block_delivered _ _ Hp (Hb sn) E) as [_ Hc].
  pose proof (already_received_complete _ _ _ _ _ size Hs Hc Hso Hlen). lia.
Qed.

Lemma buf_add cmp key l p :
  (forall a b, cmp a b = key a - key b) ->
  (forall q, q ∈ l -> key (pdu_sn q) = key (pdu_sn p) -> pdu_sn q = pdu_sn p) ->
  buf_ok S key l -> piece (S (pdu_sn p)) p -> pdu_data p <> None ->
  delivered_in l (pdu_sn p) = false ->
  buf_ok S key (nr_rlc_pdu_list_add cmp l p).
Proof using Type.
  intros Hcmp Hinj [Hs Hp Hb] Hnew Hdata Hnd. constructor.
  - by apply pdu_list_add_sorted.
  - rewrite pdu_list_add_perm. by constructor.
  - intros sn. destruct (decide (pdu_sn p = sn)) as [<-|Hne]; [|by rewrite of_sn_add].
    left. rewrite of_sn_add_perm by done. constructor; [done|].
    rewrite (delivered_in_of_sn _ _ _ Hs) in Hnd.
    destruct (Hb (pdu_sn p)) as [?|[Hnone _]]; [done|].
    destruct Hnone as [|q k Hq]; [constructor|]. simpl in Hnd. by rewrite Hq in Hnd.
Qed.

Lemma sorted_free key b k a :
  StronglySorted (pdu_le key) (b ++ k ++ a) ->
  StronglySorted (pdu_le key) (b ++ map free_data k ++ a).
Proof using Type. by apply sorted_map_block. Qed.

Lemma buf_free key sn l b k a :
  sn_block sn l b k a -> buf_ok S key l -> contig k 0 = zlen (S sn) ->
  buf_ok S key (b ++ map free_data k ++ a).
Proof using Type.
  intros Hblk [Hs Hp Hb] Hc. pose proof (of_sn_block Hblk) as Hk.
  destruct Hblk as [-> Hbb Hkk Haa]. constructor.
  - by apply sorted_free.
  - rewrite !Forall_app, Forall_map in *. destruct Hp as (? & Hpk & ?). split_and!; try done.
    eapply Forall_weaken; [|exact Hpk]. intros p [H1 H2 H3 H4 _]. by constructor.
  - intros sn'. specialize (Hb sn'). rewrite !of_sn_app, of_sn_map in * by done.
    destruct (decide (sn' = sn)) as [->|Hne].
    + rewrite (of_sn_none _ b), (of_sn_none _ a), (of_sn_all _ k), app_nil_r by done.
      right. simpl. rewrite contig_map by done. split; [|done].
      rewrite Forall_map. by apply Forall_true.
    + rewrite (of_sn_other sn sn' k) in * by done. done.
Qed.

(** a suffix whose SNs do not occur before it *)
Lemma buf_suffix key b l :
  (forall p q, p ∈ b -> q ∈ l -> pdu_sn p <> pdu_sn q) -> buf_ok S key (b ++ l) -> buf_ok S key l.
Proof using Type.
  intros Hdis [Hs Hp Hb]. constructor.
  - clear - Hs. induction b as [|p b IH]; [done|]. inversion Hs; auto.
  - by apply Forall_app in Hp as [_ ?].
  - intros sn. specialize (Hb sn). rewrite of_sn_app in Hb.
    destruct (of_sn sn l) as [|q k] eqn:E; [left; constructor|].
    rewrite of_sn_none in Hb; [done|]. rewrite list.Forall_forall. intros p Hpb Hsn.
    assert (q ∈ of_sn sn l) as Hq by (rewrite E; left).
    apply list_elem_of_filter in Hq as [Hq1 Hq2]. apply (Hdis p q Hpb Hq2). congruence.
Qed.

(** another base of the window *)
Lemma buf_rekey key key' c l :
  Forall (fun p => key' (pdu_sn p) = key (pdu_sn p) - c) l -> buf_ok S key l -> buf_ok S key' l.
Proof using Type.
  intros Hk [Hs Hp Hb]. constructor; [|done|done]. clear Hp Hb.
  induction Hs as [|p l Hs IH Hall]; [constructor|]. inversion Hk as [|? ? Hkp Hkl]; subst.
  constructor; [auto|]. rewrite list.Forall_forall in *. intros q Hq.
  specialize (Hall q Hq). specialize (Hkl q Hq). unfold pdu_le in *. lia.
Qed.
End buf.

(** ** The two walks that move the window *)

Section walks.
Context (M base B : Z) (Hbase : 0 <= base < M) (HB : 0 <= B < M).
Let key := dist base M.

(** the SNs of the buffer are in the window, below [B] *)
Definition in_window (l : list nr_rlc_pdu_t) : Prop :=
  Forall (fun p => 0 <= pdu_sn p < M /\ key (pdu_sn p) < B) l.

Definition above (x : Z) (l : list nr_rlc_pdu_t) : nat :=
  length (filter (fun p => x <= key (pdu_sn p)) l).

Lemma above_le x l : (above (x + 1) l <= above x l)%nat.
Proof using Type.
  unfold above. induction l as [|q l IH]; [done|]. rewrite !filter_cons.
  repeat case_decide; simpl; lia.
Qed.

Lemma above_succ x p l : p ∈ l -> key (pdu_sn p) = x -> (above (x + 1) l < above x l)%nat.
Proof using Type.
  intros Hp Hx. induction l as [|q l IH]; [by apply not_elem_of_nil in Hp|].
  pose proof (above_le x l) as Hle. unfold above in *. rewrite !filter_cons.
  apply elem_of_cons in Hp as [<-|Hp].
  - rewrite decide_False by lia. rewrite decide_True by lia. simpl. lia.
  - specialize (IH Hp). repeat case_decide; simpl; lia.
Qed.

Lemma skip_delivered_ok entity fuel sn :
  rx_next entity = base -> sn_modulus entity = M -> in_window (rx_list entity) ->
  0 <= sn < M -> key sn <= B -> (above (key sn) (rx_list entity) <= fuel)%nat ->
  exists sn', skip_delivered fuel entity sn = Ret sn' /\ sdu_delivered entity sn' = false /\
              0 <= sn' < M /\ key sn <= key sn' <= B.
Proof using All.
  intros Hn HM Hw. revert sn. induction fuel as [|fuel IH]; intros sn Hsn Hk Hf; simpl;
    destruct (sdu_delivered entity sn) eqn:E; try (exists sn; split_and!; done || lia).
  all: destruct (delivered_in_elem _ _ E) as (p & Hp & <-).
  all: pose proof (above_succ (key (pdu_sn p)) p _ Hp eq_refl) as Ha.
  { lia. }
  unfold in_window in Hw. rewrite list.Forall_forall in Hw. destruct (Hw p Hp) as [_ Hlt].
  rewrite HM. destruct (dist_succ M base Hbase (pdu_sn p) Hsn) as [Hr Hd]; [fold key; lia|].
  destruct (IH ((pdu_sn p + 1) %% M)) as (sn' & Hrun & Hnd & Hr' & Hk');
    [done|unfold key; rewrite Hd; fold key; lia|unfold key in *; rewrite Hd; lia|].
  exists sn'. split_and!; try done; try lia. unfold key in *. lia.
Qed.

Lemma drop_sn_split l sn :
  StronglySorted (pdu_le key) l -> in_window l -> 0 <= sn < M ->
  Forall (fun p => key sn <= key (pdu_sn p)) l ->
  exists k, l = k ++ drop_sn l sn /\ Forall (has_sn sn) k /\
            Forall (fun p => key sn < key (pdu_sn p)) (drop_sn l sn).
Proof using All.
  intros Hs Hw Hsn Hge. induction Hs as [|p l Hs IH Hall]; simpl; [by exists []|].
  inversion Hge as [|? ? Hp Hge']; inversion Hw as [|? ? Hpw Hw']; subst.
  destruct (Z.eqb_spec (pdu_sn p) sn) as [Heq|Hne].
  - destruct (IH Hw' Hge') as (k & Hl & Hk & Hrest). exists (p :: k).
    split_and!; [|by constructor|done]. simpl. by rewrite <- Hl.
  - exists []. assert (key (pdu_sn p) <> key sn).
    { intros Heq. apply Hne. apply (dist_inj M base Hbase); [apply Hpw|done|done]. }
    split_and!; [done|constructor|]. constructor; [lia|].
    eapply Forall_weaken; [|exact Hall]. intros q [Hlt|[Heq _]]; [lia|]. rewrite <- Heq. lia.
Qed.

Lemma not_delivered_above l sn :
  Forall (fun p => key sn < key (pdu_sn p)) l -> delivered_in l sn = false.
Proof using Type.
  intros H. unfold delivered_in. rewrite find_sn_none; [done|].
  eapply Forall_weaken; [|exact H]. intros p Hp <-. lia.
Qed.

Lemma not_delivered_head p l :
  pdu_data p <> None -> delivered_in (p :: l) (pdu_sn p) = false.
Proof using Type.
  intros Hp. unfold delivered_in. simpl. rewrite Z.eqb_refl. simpl. by destruct (pdu_data p).
Qed.

(** what [free_delivered_head] does: it frees delivered SDUs [d] from the head
    of the list and stops at the first SN that is not delivered *)
Definition head_walk (l : list nr_rlc_pdu_t) (rn : Z) (r : outcome (list nr_rlc_pdu_t * Z)) : Prop :=
  exists d l' rn',
    r = Ret (l', rn') /\ l = d ++ l' /\ Forall (fun p => pdu_data p = None) d /\
    0 <= rn' < M /\ key rn <= key rn' <= B /\
    Forall (fun p => key (pdu_sn p) < key rn') d /\
    Forall (fun p => key rn' <= key (pdu_sn p)) l' /\ delivered_in l' rn' = false /\
    (forall sn, 0 <= sn < M -> key rn <= key sn < key rn' -> delivered_in l sn = true).

Lemma head_walk_stop l rn :
  0 <= rn < M -> key rn <= B -> Forall (fun p => key rn <= key (pdu_sn p)) l ->
  delivered_in l rn = false -> head_walk l rn (Ret (l, rn)).
Proof using Type. intros. exists [], l, rn. simpl. split_and!; try done; lia. Qed.

(** the head is not a delivered PDU of [rn] *)
Lemma head_not_delivered p l rn :
  StronglySorted (pdu_le key) (p :: l) -> in_window (p :: l) -> 0 <= rn < M ->
  Forall (fun p => key rn <= key (pdu_sn p)) (p :: l) ->
  pdu_data p <> None \/ pdu_sn p <> rn -> delivered_in (p :: l) rn = false.
Proof using All.
  intros Hs Hw Hrn Hge Hor. destruct (decide (pdu_sn p = rn)) as [<-|Hne].
  - apply not_delivered_head. by destruct Hor.
  - apply not_delivered_above. destruct (drop_sn_split (p :: l) rn) as (k & _ & _ & Hd); try done.
    simpl in Hd. by rewrite (proj2 (Z.eqb_neq _ _)) in Hd.
Qed.

Lemma delivered_in_skip k l sn :
  Forall (other_sn sn) k -> delivered_in (k ++ l) sn = delivered_in l sn.
Proof using Type.
  unfold delivered_in. induction 1 as [|p k Hp _ IH]; simpl; [done|].
  by rewrite (proj2 (Z.eqb_neq _ _) Hp).
Qed.

Lemma head_walk_cons k l rn r :
  0 <= rn < M -> key rn + 1 <= B -> Forall (has_sn rn) k -> Forall (fun p => pdu_data p = None) k ->
  k <> [] -> head_walk l ((rn + 1) %% M) r -> head_walk (k ++ l) rn r.
Proof using All.
  intros Hrn HkB Hk Hn Hne (d & l' & rn' & -> & -> & Hd & Hr & Hkk & Hlt & Hge & Hnd & Hall).
  destruct (dist_succ M base Hbase rn Hrn) as [_ Hsucc]; [fold key; lia|]. fold key in Hsucc.
  exists (k ++ d), l', rn'. split_and!; try done; try lia.
  - by rewrite app_assoc.
  - by apply Forall_app.
  - apply Forall_app. split; [|done]. eapply Forall_weaken; [|exact Hk].
    intros p ->. lia.
  - intros sn Hsn Hbetween. destruct (decide (sn = rn)) as [->|Hsrn].
    + destruct Hk as [|p k Hp _]; [done|]. unfold delivered_in. simpl.
      rewrite (proj2 (Z.eqb_eq _ _) Hp). simpl. inversion Hn as [|? ? Hnone _]; subst.
      by rewrite Hnone.
    + rewrite delivered_in_skip; [|eapply Forall_weaken; [|exact Hk]; unfold has_sn, other_sn; congruence].
      apply Hall; [done|]. rewrite Hsucc. split; [|lia].
      destruct (Z.eq_dec (key sn) (key rn)) as [Heq|]; [|lia].
      destruct Hsrn. by apply (dist_inj M base Hbase).
Qed.

(** a delivered head: its SDU's PDUs, freed in one go *)
Lemma delivered_head_split S p l rn :
  buf_ok S key (p :: l) -> in_window (p :: l) -> 0 <= rn < M ->
  Forall (fun p => key rn <= key (pdu_sn p)) (p :: l) ->
  pdu_sn p = rn -> pdu_data p = None ->
  exists k, p :: l = (p :: k) ++ drop_sn l rn /\ Forall (has_sn rn) (p :: k) /\
    Forall (fun p => pdu_data p = None) (p :: k) /\
    Forall (fun q => key rn < key (pdu_sn q)) (drop_sn l rn) /\ buf_ok S key (drop_sn l rn).
Proof using All.
  intros Hbuf Hw Hrn Hge Hsn Hd. pose proof Hbuf as [Hs _ Hblk]. specialize (Hblk rn).
  destruct (drop_sn_split (p :: l) rn Hs Hw Hrn Hge) as (k & Hl & Hkk & Hrest).
  simpl in Hl, Hrest. rewrite (proj2 (Z.eqb_eq _ _) Hsn) in Hl, Hrest.
  set (l' := drop_sn l rn) in *.
  destruct k as [|q k].
  { simpl in Hl. rewrite <- Hl in Hrest. inversion Hrest as [|? ? Hlt _]; subst. lia. }
  simpl in Hl. injection Hl as <- Hl. exists k. rewrite Hl in Hblk, Hbuf |- *.
  assert (Hl' : of_sn rn l' = []).
  { apply of_sn_none. eapply Forall_weaken; [|exact Hrest]. intros q Hq <-. lia. }
  change (p :: k ++ l') with ((p :: k) ++ l') in Hblk, Hbuf.
  rewrite of_sn_app, Hl', app_nil_r, (of_sn_all _ (p :: k)) in Hblk by done.
  split_and!; try done.
  - destruct Hblk as [Hno|[? _]]; [|done]. by inversion Hno.
  - eapply buf_suffix; [|exact Hbuf]. intros x y Hx Hy.
    rewrite list.Forall_forall in Hkk, Hrest. specialize (Hkk x Hx). specialize (Hrest y Hy).
    intros Heq. rewrite <- Heq, Hkk in Hrest. simpl in Hrest. lia.
Qed.

Lemma free_delivered_head_ok S fuel l rn :
  buf_ok S key l -> in_window l -> 0 <= rn < M -> key rn <= B ->
  Forall (fun p => key rn <= key (pdu_sn p)) l -> (length l <= fuel)%nat ->
  head_walk l rn (free_delivered_head fuel M l rn).
Proof using All.
  revert l rn. induction fuel as [|fuel IH]; intros [|p l] rn Hbuf Hw Hrn Hk Hge Hf;
    try (by apply head_walk_stop); [simpl in Hf; lia|].
  pose proof (head_not_delivered p l rn (buf_sorted _ _ _ Hbuf) Hw Hrn Hge) as Hstop.
  cbn [free_delivered_head data_is_null].
  destruct (pdu_data p) as [dat|] eqn:Ed; [apply head_walk_stop; auto|]. simpl andb.
  destruct (Z.eqb_spec (pdu_sn p) rn) as [Hsn|Hne]; [|apply head_walk_stop; auto].
  destruct (delivered_head_split S p l rn) as (k & Hl & Hkk & Hkd & Hrest & Hbuf'); try done.
  rewrite Hl. assert (key rn < B) by (inversion Hw as [|? ? [_ ?] _]; subst; lia).
  destruct (dist_succ M base Hbase rn Hrn) as [Hr' Hsucc]; [fold key; lia|]. fold key in Hsucc.
  apply head_walk_cons; [done|lia|done|done|done|]. apply IH; [done| |done|lia| |].
  - unfold in_window in *. rewrite Hl, Forall_app in Hw. apply Hw.
  - eapply Forall_weaken; [|exact Hrest]. simpl. lia.
  - apply (f_equal length) in Hl. simpl in Hl, Hf. rewrite length_app in Hl. lia.
Qed.
End walks.

Definition demo_seg_store : nr_rlc_entity_am_t :=
  the (new_nr_rlc_entity_am 100000 100000 45 35 0 (-1) (-1) 8 12)
  <| rx_list := [nr_rlc_new_pdu 3 0 true false [1; 2; 3] 3; nr_rlc_new_pdu 3 3 false false [4; 5] 2] |>.

Lemma already_received_sound_witness :
  segment_already_received demo_seg_store 3 1 4 = true /\
  exists p, p ∈ rx_list demo_seg_store /\ pdu_sn p = 3 /\ pdu_so p <= 4 < pdu_so p + pdu_size p.
Proof.
  split; [reflexivity|].
  apply (already_received_sound demo_seg_store 3 1 4); [reflexivity|lia].
Defined.
