(* ===== verification/RlcAmRxSpec.v ===== *)
(** The receiving side of an acknowledged-mode entity: its state invariant and
    what the reception of a data PDU does, when the PDUs are pieces of the
    SDUs of a sender. *)

From stdpp Require Import base tactics list numbers.
From Stdlib Require Import ZArith Lia Sorted.
From S2P Require Import Prelude TimeStat RlcPdu RlcSdu RlcEntity RlcRxList.
From S2P Require Import RlcAmState RlcAmRx RlcAmControl RlcAmRxInv.

(** the window without the claim that its edges are not delivered *)
Record am_rx_core (S : sdu_map) (e : nr_rlc_entity_am_t) : Prop := mk_am_rx_core {
  rx_cfg : sn_modulus e = 2 * window_size e /\ 0 < window_size e;
  rx_next_range : 0 <= rx_next e < sn_modulus e;
  rx_hs_range : 0 <= rx_highest_status e < sn_modulus e;
  rx_nh_range : 0 <= rx_next_highest e < sn_modulus e;
  rx_order : modulus_rx e (rx_highest_status e) <= modulus_rx e (rx_next_highest e) <= window_size e;
  rx_buf : buf_ok S (modulus_rx e) (rx_list e);
  rx_window : in_window (sn_modulus e) (rx_next e) (modulus_rx e (rx_next_highest e)) (rx_list e);
  rx_sdu_len : forall sn, zlen (S sn) <= NR_SDU_MAX;
  rx_size_eq : rx_size e = sumZ stored (rx_list e);
  rx_size_max : rx_size e <= rx_maxsize e
}.

(** State invariant of the receiver (38.322 7.1): RX_Next <= RX_Highest_Status
    <= RX_Next_Highest within a window; the buffer is sorted, holds pieces of
    SDUs of SNs in the window, accounts for its bytes, and SDUs once delivered
    keep only their headers; RX_Next and RX_Highest_Status are not delivered. *)
Record am_rx_inv (S : sdu_map) (e : nr_rlc_entity_am_t) : Prop := mk_am_rx_inv {
  rx_core : am_rx_core S e;
  rx_next_open : sdu_delivered e (rx_next e) = false;
  rx_hs_open : sdu_delivered e (rx_highest_status e) = false
}.

Definition am_events (e : nr_rlc_entity_am_t) : list rlc_event := events (common e).

(** the receiver's part of the state *)
Definition rx_part (e : nr_rlc_entity_am_t) :=
  (sn_modulus e, window_size e, rx_next e, rx_highest_status e, rx_next_highest e, rx_list e,
   rx_size e, rx_maxsize e).

(** t_reassembly waits for an SN above RX_Next *)
Definition timer_ok (e : nr_rlc_entity_am_t) : Prop :=
  t_reassembly_start e <> 0 ->
  0 <= rx_next_status_trigger e < sn_modulus e /\
  0 < modulus_rx e (rx_next_status_trigger e) <= modulus_rx e (rx_next_highest e).

(** what the delivery of an SDU leaves alone: the timer, the configuration and
    the transmitting side *)
Definition timer_part (e : nr_rlc_entity_am_t) :=
  (t_reassembly_start e, rx_next_status_trigger e, rx_next_highest e, sn_modulus e, window_size e).

Definition tx_rest (e : nr_rlc_entity_am_t) :=
  (heap e, tx_list e, tx_end e, wait_list e, wait_end e, retransmit_list e,
   txsdu_avg_time_to_tx (common e), sn_field_length e, sn_modulus e, tx_next e).

Lemma deliver_actions_frame e x e' :
  deliver_actions e x = Ret e' -> tx_rest e' = tx_rest e /\ timer_part e' = timer_part e.
Proof.
  set (f := fun e0 => (tx_rest e0, timer_part e0)). intros H.
  assert (f e' = f e) as [= H1 H2]; [|unfold tx_rest, timer_part; split; congruence].
  unfold deliver_actions, reassemble_and_deliver in H. inv_bind H. inv_bind H.
  inv_bind Hv. destruct v1 as [[[[l so] sdu] bad] sz].
  assert (f v = f e) as <- by (destruct bad; injection Hv as <-; done).
  assert (f v0 = f v) as <-.
  { destruct (x =? rx_highest_status v); [|by injection Hv0 as <-].
    inv_bind Hv0. by injection Hv0 as <-. }
  destruct (x =? rx_next v0); [|by injection H as <-].
  inv_bind H. destruct v1. by injection H as <-.
Qed.

Lemma rx_part_core S e e' : rx_part e' = rx_part e -> am_rx_core S e -> am_rx_core S e'.
Proof.
  unfold rx_part. intros [= H1 H2 H3 H4 H5 H6 H7 H8] [C1 C2 C3 C4 C5 C6 C7 C8 C9 C10].
  assert (Hm : modulus_rx e' = modulus_rx e) by (unfold modulus_rx; by rewrite H1, H3).
  constructor; rewrite ?Hm, ?H1, ?H2, ?H3, ?H4, ?H5, ?H6, ?H7, ?H8; done.
Qed.

Lemma rx_part_inv S e e' : rx_part e' = rx_part e -> am_rx_inv S e -> am_rx_inv S e'.
Proof.
  intros Hp [Hc Hn Hh]. split; [by eapply rx_part_core|..];
    unfold sdu_delivered in *; unfold rx_part in Hp; injection Hp as _ _ H1 H2 _ H3 _ _; congruence.
Qed.

Lemma modulus_rx_dist e : modulus_rx e = dist (rx_next e) (sn_modulus e).
Proof. done. Qed.

Section core.
Context {S : sdu_map} {e : nr_rlc_entity_am_t} (Hc : am_rx_core S e).

Lemma core_modulus : modulus_rx e (rx_next_highest e) < sn_modulus e.
Proof using Hc. destruct Hc as [[HM HW] _ _ _ Ho _ _ _ _ _]. lia. Qed.

Lemma core_key_nonneg sn : 0 <= sn < sn_modulus e -> 0 <= modulus_rx e sn < sn_modulus e.
Proof using Hc. intros. apply dist_range; [apply Hc|done]. Qed.

Lemma core_inj p q :
  0 <= p < sn_modulus e -> 0 <= q < sn_modulus e -> modulus_rx e p = modulus_rx e q -> p = q.
Proof using Hc. apply (dist_inj (sn_modulus e) (rx_next e)). apply Hc. Qed.

Lemma delivered_of_sn sn : sdu_delivered e sn = data_is_null (of_sn sn (rx_list e)).
Proof using Hc. apply (delivered_in_of_sn (modulus_rx e)). apply Hc. Qed.
End core.

(** ** Storing a PDU *)

Definition store_pdu (e : nr_rlc_entity_am_t) (p : nr_rlc_pdu_t) : nr_rlc_entity_am_t :=
  e <| rx_size ::= Z.add (pdu_size p) |>
    <| rx_list := nr_rlc_pdu_list_add (sn_compare_rx e) (rx_list e) p |>.

Definition raise_next_highest (e : nr_rlc_entity_am_t) (x : Z) : nr_rlc_entity_am_t :=
  if 0 <=? sn_compare_rx e x (rx_next_highest e)
  then e <| rx_next_highest := (x + 1) %% sn_modulus e |> else e.

Section store.
Context (S : sdu_map) (e : nr_rlc_entity_am_t) (p : nr_rlc_pdu_t) (Hinv : am_rx_inv S e).
Context (Hp : piece (S (pdu_sn p)) p) (Hd : pdu_data p <> None).
Context (Hsn : 0 <= pdu_sn p < sn_modulus e) (Hw : sn_in_recv_window e (pdu_sn p) = true).
Context (Hnew : segment_already_received e (pdu_sn p) (pdu_so p) (pdu_size p) = false).
Context (Hsz : rx_size e + pdu_size p <= rx_maxsize e).

Let l' := nr_rlc_pdu_list_add (sn_compare_rx e) (rx_list e) p.

Lemma store_not_delivered : sdu_delivered e (pdu_sn p) = false.
Proof using Hinv Hp Hnew.
  destruct Hinv as [Hc _ _]. destruct Hp as [Hso _ Hend _ _].
  unfold segment_already_received in Hnew. apply Z.leb_gt in Hnew.
  by eapply new_not_delivered; [apply Hc| | |].
Qed.

Lemma store_buf : buf_ok S (modulus_rx e) l'.
Proof using Hinv Hp Hd Hsn Hnew.
  pose proof store_not_delivered. destruct Hinv as [Hc _ _].
  apply buf_add; [done| |apply Hc|done|done|done].
  intros q Hq. pose proof (rx_window _ _ Hc) as Hwin. unfold in_window in Hwin.
  rewrite list.Forall_forall in Hwin. destruct (Hwin q Hq) as [Hqr _].
  intros Heq. by eapply core_inj.
Qed.

Lemma store_delivered sn : delivered_in l' sn = sdu_delivered e sn.
Proof using Hinv Hp Hd Hsn Hnew.
  pose proof store_not_delivered as Hnd. pose proof store_buf as [Hs _ Hb].
  rewrite (delivered_in_of_sn _ _ _ Hs). destruct Hinv as [Hc _ _].
  rewrite (delivered_of_sn Hc). destruct (decide (pdu_sn p = sn)) as [<-|Hne].
  - rewrite (delivered_of_sn Hc) in Hnd. rewrite Hnd.
    pose proof (of_sn_add_perm (sn_compare_rx e) (rx_list e) p _ eq_refl) as Hperm. fold l' in Hperm.
    destruct (Hb (pdu_sn p)) as [Hdat|[Hdat _]].
    + destruct Hdat as [|q k Hq]; [done|]. simpl. by destruct (pdu_data q).
    + rewrite Hperm in Hdat. inversion Hdat; congruence.
  - subst l'. by rewrite of_sn_add.
Qed.

Lemma raised_next_highest :
  let e' := raise_next_highest (store_pdu e p) (pdu_sn p) in
  0 <= rx_next_highest e' < sn_modulus e /\
  modulus_rx e (rx_next_highest e') = Z.max (modulus_rx e (rx_next_highest e)) (modulus_rx e (pdu_sn p) + 1).
Proof using Hinv Hsn Hw.
  destruct Hinv as [[[HM HW] Hnr _ Hnhr Ho _ _ _ _ _] _ _]. unfold raise_next_highest.
  unfold sn_in_recv_window in Hw. apply Z.ltb_lt in Hw.
  change (sn_compare_rx (store_pdu e p)) with (sn_compare_rx e).
  change (rx_next_highest (store_pdu e p)) with (rx_next_highest e).
  unfold sn_compare_rx. destruct (Z.leb_spec 0 (modulus_rx e (pdu_sn p) - modulus_rx e (rx_next_highest e))).
  - destruct (dist_succ (sn_modulus e) (rx_next e) Hnr (pdu_sn p) Hsn) as [Hr Hdist].
    { change (modulus_rx e (pdu_sn p) + 1 < sn_modulus e). lia. }
    change (dist (rx_next e) (sn_modulus e)) with (modulus_rx e) in Hdist. simpl. lia.
  - simpl. lia.
Qed.

Lemma raised_rest :
  let e1 := raise_next_highest (store_pdu e p) (pdu_sn p) in
  tx_rest e1 = tx_rest e /\ (timer_ok e -> timer_ok e1).
Proof using Hinv Hsn Hw.
  pose proof raised_next_highest as [_ Hnk]. intros e1. fold e1 in Hnk.
  assert (Hf : tx_rest e1 = tx_rest e /\ modulus_rx e1 = modulus_rx e /\ sn_modulus e1 = sn_modulus e /\
    t_reassembly_start e1 = t_reassembly_start e /\ rx_next_status_trigger e1 = rx_next_status_trigger e)
    by (subst e1; unfold raise_next_highest; by destruct (0 <=? _)).
  destruct Hf as (F1 & F2 & F3 & F4 & F5). split; [done|]. unfold timer_ok. rewrite F2, F3, F4, F5.
  intros Ht Hon. specialize (Ht Hon). lia.
Qed.

Lemma store_inv : am_rx_inv S (raise_next_highest (store_pdu e p) (pdu_sn p)).
Proof using All.
  pose proof store_buf as Hbuf. pose proof store_delivered as Hdel.
  pose proof raised_next_highest as [Hnr Hnk]. set (e' := raise_next_highest _ _) in *.
  assert (Hrest : sn_modulus e' = sn_modulus e /\ window_size e' = window_size e /\
    rx_next e' = rx_next e /\ rx_highest_status e' = rx_highest_status e /\ rx_list e' = l' /\
    rx_size e' = pdu_size p + rx_size e /\ rx_maxsize e' = rx_maxsize e /\
    modulus_rx e' = modulus_rx e).
  { subst e'. unfold raise_next_highest. by destruct (0 <=? _). }
  clearbody e'. destruct Hrest as (H1 & H2 & H3 & H4 & H5 & H6 & H7 & H8).
  unfold sn_in_recv_window in Hw. apply Z.ltb_lt in Hw.
  destruct Hinv as [[C1 C2 C3 C4 C5 C6 C7 C8 C9 C10] Hn Hh]. split; [constructor|..];
    unfold sdu_delivered; rewrite ?H1, ?H2, ?H3, ?H4, ?H5, ?H7, ?H8; fold (delivered_in l' (rx_next e)); try done.
  - rewrite Hnk. lia.
  - unfold in_window in *. subst l'. rewrite pdu_list_add_perm. rewrite Hnk.
    change (dist (rx_next e) (sn_modulus e)) with (modulus_rx e) in *. constructor; [lia|].
    eapply Forall_weaken; [|exact C7]. simpl. lia.
  - rewrite H6. subst l'. rewrite pdu_list_add_perm. simpl. rewrite C9. unfold stored at 2.
    by destruct (pdu_data p).
  - lia.
  - fold (delivered_in l' (rx_next e)). by rewrite Hdel.
  - fold (delivered_in l' (rx_highest_status e)). by rewrite Hdel.
Qed.
End store.

(** ** Delivering a complete SDU *)

Lemma sum_stored_some k : Forall (fun p => pdu_data p <> None) k -> sumZ stored k = sumZ pdu_size k.
Proof.
  intros H. apply sumZ_ext. eapply Forall_weaken; [|exact H]. intros p Hp. unfold stored.
  cbv beta in Hp. by destruct (pdu_data p).
Qed.

Lemma sum_stored_none k : Forall (fun p => pdu_data p = None) k -> sumZ stored k = 0.
Proof.
  induction 1 as [|p k Hp _ IH]; simpl; [done|]. unfold stored at 1. rewrite Hp. lia.
Qed.

Lemma in_window_free M base B b k a :
  in_window M base B (b ++ k ++ a) -> in_window M base B (b ++ map free_data k ++ a).
Proof. unfold in_window. rewrite !Forall_app, Forall_map. done. Qed.

Section deliver.
Context (S : sdu_map) (e : nr_rlc_entity_am_t) (x : Z) (Hc : am_rx_core S e).

(** [sdu_full]: the PDUs received for [x] cover its SDU, not yet delivered *)
Lemma sdu_full_spec :
  sdu_full e x = negb (sdu_delivered e x) && bool_decide (of_sn x (rx_list e) <> [])
                 && (contig (of_sn x (rx_list e)) 0 =? zlen (S x)).
Proof using Hc.
  pose proof (rx_buf _ _ Hc) as [Hs Hp Hb].
  destruct (sorted_sn_block _ _ x Hs) as (b & k & a & Hblk).
  pose proof (of_sn_pieces _ _ x Hp) as Hpk. rewrite (of_sn_block Hblk) in *.
  unfold sdu_full, sdu_delivered. rewrite (find_sn_block Hblk). destruct Hblk as [_ _ Hk Ha].
  destruct k as [|p k]; [done|]. rewrite decide_False by done.
  destruct (data_is_null ((p :: k) ++ a)); [done|]. simpl negb. rewrite bool_decide_true by done.
  change (-1) with (0 - 1). apply full_loop_piece; try done.
  inversion Hpk as [|? ? [] _]; subst. lia.
Qed.

Lemma reassemble_ok :
  sdu_full e x = true ->
  exists e1, reassemble_and_deliver e x = Ret e1 /\ am_rx_core S e1 /\
    am_events e1 = am_events e ++ [DeliverSdu (S x)] /\ rx_next e1 = rx_next e /\
    rx_highest_status e1 = rx_highest_status e /\ sn_modulus e1 = sn_modulus e /\
    rx_next_highest e1 = rx_next_highest e /\ window_size e1 = window_size e /\
    forall sn, sn <> x -> sdu_delivered e1 sn = sdu_delivered e sn.
Proof using Hc.
  rewrite sdu_full_spec. intros Hf. bool_prop. rename H into Hnd, H0 into Hfull, H1 into Hne.
  apply bool_decide_eq_true in Hne. rewrite (delivered_of_sn Hc) in Hnd.
  pose proof Hc as [C1 C2 C3 C4 C5 Hbuf C7 C8 C9 C10]. pose proof Hbuf as [Hs Hp Hb].
  destruct (sorted_sn_block _ _ x Hs) as (b & k & a & Hblk). pose proof (of_sn_block Hblk) as Hk.
  pose proof (of_sn_pieces _ _ x Hp) as Hpk. specialize (Hb x). rewrite Hk in *.
  assert (Hsome : Forall (fun p => pdu_data p <> None) k).
  { destruct Hb as [?|[Hnone _]]; [done|]. destruct Hnone as [|q k Hq]; [done|].
    simpl in Hnd. by rewrite Hq in Hnd. }
  unfold reassemble_and_deliver.
  rewrite (reassemble_from_block (S x) free_data x _ b k a _ Hblk) by done.
  rewrite bind_Ret_l. eexists. split; [reflexivity|].
  pose proof (buf_free S _ x _ b k a Hblk Hbuf Hfull) as Hbuf'.
  pose proof Hblk as [Hl Hbo _ Hao].
  split_and!; [|done..|].
  - constructor; simpl; try done.
    + rewrite Hl in C7. by apply in_window_free in C7.
    + rewrite C9, Hl, !sumZ_app, (sum_stored_some k) by done.
      rewrite (sum_stored_none (map free_data k)); [lia|]. rewrite Forall_map. by apply Forall_true.
    + assert (0 <= sumZ pdu_size k); [|lia]. apply sumZ_nonneg.
      eapply Forall_weaken; [|exact Hpk]. intros q []. lia.
  - intros sn Hsn. rewrite (delivered_of_sn Hc). unfold sdu_delivered. simpl.
    fold (delivered_in (b ++ map free_data k ++ a) sn).
    rewrite (delivered_in_of_sn _ _ _ (buf_sorted _ _ _ Hbuf')).
    rewrite Hl, !of_sn_app, of_sn_map, (of_sn_other x sn k) by (done || apply Hblk). done.
Qed.
End deliver.

(** ** Moving the window *)

Lemma core_set_hs S e hs :
  am_rx_core S e -> 0 <= hs < sn_modulus e ->
  modulus_rx e hs <= modulus_rx e (rx_next_highest e) ->
  am_rx_core S (e <| rx_highest_status := hs |>).
Proof.
  intros [C1 C2 C3 C4 C5 C6 C7 C8 C9 C10] Hr Hk. constructor; try done.
  change (modulus_rx (e <| rx_highest_status := hs |>)) with (modulus_rx e). simpl. lia.
Qed.

Lemma above_length M base x l : (above M base x l <= length l)%nat.
Proof. apply length_filter. Qed.

(** RX_Highest_Status moves to the first SN from [x] on that is not delivered *)
Lemma move_highest_status S e :
  am_rx_core S e ->
  exists sn, skip_delivered (length (rx_list e)) e (rx_highest_status e) = Ret sn /\
    am_rx_core S (e <| rx_highest_status := sn |>) /\ sdu_delivered e sn = false /\
    modulus_rx e (rx_highest_status e) <= modulus_rx e sn.
Proof.
  intros Hc. pose proof Hc as [_ C2 C3 C4 C5 _ C7 _ _ _]. pose proof (core_modulus Hc).
  pose proof (core_key_nonneg Hc _ C4).
  destruct (skip_delivered_ok (sn_modulus e) (rx_next e) (modulus_rx e (rx_next_highest e)) C2
              ltac:(lia) e (length (rx_list e)) (rx_highest_status e))
    as (sn & Hrun & Hnd & Hr & Hk); [done|done|done|done|apply C5|apply above_length|].
  exists sn. split_and!; [done| |done|apply Hk]. apply core_set_hs; [done|done|apply Hk].
Qed.

(** RX_Next moved to [sn], the delivered PDUs [d] below it freed *)
Lemma advance_base S e d l sn :
  am_rx_core S e -> rx_list e = d ++ l -> 0 <= sn < sn_modulus e ->
  Forall (fun p => pdu_data p = None) d ->
  Forall (fun p => modulus_rx e (pdu_sn p) < modulus_rx e sn) d ->
  Forall (fun p => modulus_rx e sn <= modulus_rx e (pdu_sn p)) l ->
  modulus_rx e sn <= modulus_rx e (rx_highest_status e) ->
  am_rx_core S (e <| rx_list := l |> <| rx_next := sn |>) /\
  delivered_in l (rx_highest_status e) = delivered_in (rx_list e) (rx_highest_status e).
Proof.
  intros Hc Hl Hr Hd Hlt Hge Hhs. pose proof Hc as [C1 C2 C3 C4 C5 Hbuf Hwin C8 C9 C10].
  pose proof (core_key_nonneg Hc _ Hr).
  assert (Hkey : forall a, 0 <= a < sn_modulus e -> modulus_rx e sn <= modulus_rx e a ->
    dist sn (sn_modulus e) a = modulus_rx e a - modulus_rx e sn)
    by (intros a Ha Hle; by apply dist_shift).
  unfold in_window in Hwin. rewrite Hl in Hwin, Hbuf, C9. apply Forall_app in Hwin as [_ Hwl].
  assert (Hrek : Forall (fun p => dist sn (sn_modulus e) (pdu_sn p)
                          = modulus_rx e (pdu_sn p) - modulus_rx e sn) l).
  { rewrite list.Forall_forall in *. intros p Hp. apply Hkey; [apply Hwl|apply Hge]; done. }
  set (e' := e <| rx_list := l |> <| rx_next := sn |>).
  assert (Hm : modulus_rx e' = dist sn (sn_modulus e)) by done.
  split; [constructor; rewrite ?Hm; try done|].
  - simpl. rewrite !Hkey by (done || lia). lia.
  - simpl. eapply buf_rekey; [exact Hrek|]. eapply buf_suffix; [|exact Hbuf].
    intros p q Hp Hq Heq. rewrite list.Forall_forall in Hlt, Hge.
    specialize (Hlt p Hp). specialize (Hge q Hq). rewrite Heq in Hlt. simpl in *. lia.
  - simpl. rewrite Hkey by (done || lia). unfold in_window. rewrite list.Forall_forall in *.
    intros p Hp. destruct (Hwl p Hp) as [Hpr Hpk]. split; [done|].
    specialize (Hrek p Hp). cbv beta in Hrek. rewrite Hrek.
    change (modulus_rx e (pdu_sn p) < modulus_rx e (rx_next_highest e)) in Hpk. lia.
  - simpl. rewrite C9, sumZ_app, (sum_stored_none d) by done. lia.
  - rewrite Hl. symmetry. apply delivered_in_skip. eapply Forall_weaken; [|exact Hlt].
    intros p Hp Heq. unfold other_sn in *. cbv beta in Hp. rewrite Heq in Hp. lia.
Qed.

(** RX_Next moves over the delivered SDUs at the head of the buffer *)
Lemma move_rx_next S e :
  am_rx_core S e -> sdu_delivered e (rx_highest_status e) = false ->
  exists l sn,
    free_delivered_head (length (rx_list e)) (sn_modulus e) (rx_list e) (rx_next e) = Ret (l, sn) /\
    am_rx_inv S (e <| rx_list := l |> <| rx_next := sn |>) /\
    modulus_rx e sn <= modulus_rx e (rx_next_highest e).
Proof.
  intros Hc Hhs. pose proof Hc as [C1 C2 C3 C4 C5 Hbuf Hwin C8 C9 C10].
  pose proof (core_modulus Hc) as HB. pose proof (core_key_nonneg Hc _ C4) as HB0.
  destruct (free_delivered_head_ok (sn_modulus e) (rx_next e) (modulus_rx e (rx_next_highest e)) C2
              ltac:(lia) S (length (rx_list e)) (rx_list e) (rx_next e))
    as (d & l & sn & Hrun & Hl & Hd & Hr & Hk & Hlt & Hge & Hnd & Hall); try done.
  { rewrite dist_base. lia. }
  { rewrite dist_base. eapply Forall_weaken; [|exact Hwin]. intros p [Hp _].
    apply (core_key_nonneg Hc _ Hp). }
  exists l, sn. split; [exact Hrun|].
  change (dist (rx_next e) (sn_modulus e)) with (modulus_rx e) in *.
  assert (Hhs' : modulus_rx e sn <= modulus_rx e (rx_highest_status e)).
  { destruct (Z.lt_ge_cases (modulus_rx e (rx_highest_status e)) (modulus_rx e sn)) as [Hbad|]; [|lia].
    exfalso. unfold sdu_delivered in Hhs. fold (delivered_in (rx_list e) (rx_highest_status e)) in Hhs.
    rewrite (Hall _ C3) in Hhs; [done|]. rewrite modulus_rx_dist, dist_base, <- modulus_rx_dist.
    pose proof (core_key_nonneg Hc _ C3). lia. }
  destruct (advance_base S e d l sn) as [Hc' Hdel]; try done. split; [|lia].
  split; [done|exact Hnd|]. change (delivered_in l (rx_highest_status e) = false). by rewrite Hdel.
Qed.

Lemma deliver_actions_ok S e x :
  am_rx_inv S e -> sdu_full e x = true ->
  exists e', deliver_actions e x = Ret e' /\ am_rx_inv S e' /\
             am_events e' = am_events e ++ [DeliverSdu (S x)] /\
             modulus_rx e (rx_next e') <= modulus_rx e (rx_next_highest e).
Proof.
  intros [Hc Hn Hh] Hf. pose proof (core_key_nonneg Hc _ (rx_nh_range _ _ Hc)) as HB.
  destruct (reassemble_ok S e x Hc Hf) as (e1 & Hr & Hc1 & Hev & H1 & H2 & H3 & H4 & H5 & Hdel).
  unfold deliver_actions. rewrite Hr, bind_Ret_l.
  assert (exists e2, (if x =? rx_highest_status e1 then
       sn ← skip_delivered (length (rx_list e1)) e1 (rx_highest_status e1);
       Ret (e1 <| rx_highest_status := sn |>) else Ret e1) = Ret e2 /\
       am_rx_core S e2 /\ sdu_delivered e2 (rx_highest_status e2) = false /\
       am_events e2 = am_events e1 /\ rx_next e2 = rx_next e1 /\
       (rx_next_highest e2 = rx_next_highest e1 /\ modulus_rx e2 = modulus_rx e1) /\
       (forall sn, sdu_delivered e2 sn = sdu_delivered e1 sn)) as (e2 & -> & Hc2 & Hh2 & Hev2 & Hn2 & [Hh3 Hm2] & Hdel2).
  { destruct (Z.eqb_spec x (rx_highest_status e1)) as [Heq|Hne].
    - destruct (move_highest_status S e1 Hc1) as (sn & -> & Hc2 & Hnd & _). rewrite bind_Ret_l. eauto 12.
    - exists e1. split_and!; try done. rewrite Hdel by congruence. by rewrite H2. }
  rewrite bind_Ret_l. destruct (Z.eqb_spec x (rx_next e2)) as [Heq|Hne].
  - destruct (move_rx_next S e2 Hc2 Hh2) as (l & sn & -> & Hinv & Hle). rewrite bind_Ret_l.
    eexists. split_and!; [done|done|rewrite <- Hev, <- Hev2; done|]. simpl.
    assert (Hm : modulus_rx e2 = modulus_rx e) by (rewrite Hm2; unfold modulus_rx; by rewrite H1, H3).
    by rewrite Hm, Hh3, H4 in Hle.
  - exists e2. split_and!; [done| |congruence|rewrite Hn2, H1, modulus_rx_dist, dist_base; apply HB].
    split; [done| |done].
    rewrite Hdel2, Hdel by congruence. by rewrite Hn2, H1.
Qed.

(** ** Reception of a data PDU *)

Lemma timers_rx_part e : rx_part (start_t_reassembly (stop_t_reassembly e)) = rx_part e /\
  am_events (start_t_reassembly (stop_t_reassembly e)) = am_events e.
Proof. unfold start_t_reassembly, stop_t_reassembly. by repeat case_match. Qed.

(** after RX_Next has moved forward, the timer runs for an SN above it or is
    stopped *)
Lemma stop_timer_ok S e e2 :
  am_rx_core S e -> timer_ok e -> timer_part e2 = timer_part e -> 0 <= rx_next e2 < sn_modulus e ->
  modulus_rx e (rx_next e2) <= modulus_rx e (rx_next_highest e) ->
  timer_ok (stop_t_reassembly e2).
Proof.
  intros Hc Ht [= E1 E2 E3 E4 E5] Hr Hd. pose proof Hc as [[HM HW] C2 _ C4 [_ C5] _ _ _ _ _].
  unfold stop_t_reassembly. destruct (t_reassembly_start e2 =? 0) eqn:Est; simpl.
  { intros H. apply Z.eqb_eq in Est. congruence. }
  destruct (_ || _) eqn:Estop; [done|]. intros _.
  apply orb_false_elim in Estop as [[Eq _]%orb_false_elim Ewin]. apply Z.eqb_neq in Eq.
  rewrite E1 in Est. apply Z.eqb_neq in Est. destruct (Ht Est) as [Htr Hta].
  rewrite E2, E3, E4. rewrite E2, E4 in Ewin. rewrite E2 in Eq. split; [done|]. unfold sn_in_recv_window in Ewin. rewrite E5 in Ewin.
  assert (Hm2 : forall a, modulus_rx e2 a = dist (rx_next e2) (sn_modulus e) a).
  { intros a. rewrite modulus_rx_dist. by rewrite E4. }
  rewrite !Hm2. rewrite Hm2 in Ewin. change (modulus_rx e) with (dist (rx_next e) (sn_modulus e)) in *.
  destruct (Z.le_gt_cases (dist (rx_next e) (sn_modulus e) (rx_next e2))
              (dist (rx_next e) (sn_modulus e) (rx_next_status_trigger e))) as [Hle|Hgt].
  - rewrite !(dist_shift _ _ C2 (rx_next e2)) by (done || lia).
    enough (dist (rx_next e) (sn_modulus e) (rx_next e2)
            <> dist (rx_next e) (sn_modulus e) (rx_next_status_trigger e)) by lia.
    intros Heq. by apply (dist_inj _ _ C2) in Heq; [|done|done].
  - exfalso.
    assert (Hfar : window_size e < dist (rx_next e2) (sn_modulus e) (rx_next_status_trigger e))
      by (rewrite (dist_passed _ _ C2) by (done || lia); lia).
    rewrite (proj2 (Z.ltb_ge _ _)) in Ewin by lia. simpl in Ewin.
    apply negb_false_iff, Z.eqb_eq in Ewin. rewrite Ewin, dist_offset in Hfar by lia. lia.
Qed.

Lemma start_timer_ok e :
  0 <= rx_next e < sn_modulus e -> 0 <= rx_next_highest e < sn_modulus e -> 1 < sn_modulus e ->
  timer_ok e -> timer_ok (start_t_reassembly e).
Proof.
  intros Hr Hn HM Ht. unfold start_t_reassembly. destruct (t_reassembly_start e =? 0); [|done].
  destruct (_ || _) eqn:Estart; [|done]. intros _. simpl. split; [done|].
  set (k := modulus_rx e). change (0 < k (rx_next_highest e) <= k (rx_next_highest e)).
  assert (H1k : k ((rx_next e + 1) %% sn_modulus e) = 1) by (apply dist_offset; lia).
  enough (0 < k (rx_next_highest e)) by lia. apply orb_prop in Estart as [Hs|[Hs _]%andb_prop].
  - apply Z.ltb_lt in Hs. unfold sn_compare_rx in Hs. fold k in Hs. lia.
  - apply Z.eqb_eq in Hs. rewrite Hs. lia.
Qed.

Lemma timers_ok S e e2 :
  am_rx_core S e -> timer_ok e -> timer_part e2 = timer_part e -> 0 <= rx_next e2 < sn_modulus e ->
  modulus_rx e (rx_next e2) <= modulus_rx e (rx_next_highest e) ->
  timer_ok (start_t_reassembly (stop_t_reassembly e2)).
Proof.
  intros Hc Ht Hp Hr Hd. pose proof (stop_timer_ok S e e2 Hc Ht Hp Hr Hd) as Hstop.
  pose proof Hc as [[HM HW] _ _ C4 _ _ _ _ _ _]. unfold timer_part in Hp. injection Hp as _ _ E3 E4 _.
  assert (H3 : rx_next (stop_t_reassembly e2) = rx_next e2 /\
    rx_next_highest (stop_t_reassembly e2) = rx_next_highest e2 /\
    sn_modulus (stop_t_reassembly e2) = sn_modulus e2) by (unfold stop_t_reassembly; by repeat case_match).
  destruct H3 as (H1 & H2 & H3).
  apply start_timer_ok; rewrite ?H1, ?H2, ?H3, ?E3, ?E4; done || lia.
Qed.

(** the SDU the reception of [p] completes, if it does *)
Definition completes (S : sdu_map) (e : nr_rlc_entity_am_t) (p : nr_rlc_pdu_t) : bool :=
  contig (of_sn (pdu_sn p) (nr_rlc_pdu_list_add (sn_compare_rx e) (rx_list e) p)) 0
  =? zlen (S (pdu_sn p)).

Lemma reception_ok S e p :
  am_rx_inv S e -> piece (S (pdu_sn p)) p -> pdu_data p <> None ->
  0 <= pdu_sn p < sn_modulus e -> sn_in_recv_window e (pdu_sn p) = true ->
  segment_already_received e (pdu_sn p) (pdu_so p) (pdu_size p) = false ->
  rx_size e + pdu_size p <= rx_maxsize e ->
  exists e', reception_actions (store_pdu e p) (pdu_sn p) = Ret e' /\ am_rx_inv S e' /\
    am_events e' = am_events e ++ (if completes S e p then [DeliverSdu (S (pdu_sn p))] else []) /\
    tx_rest e' = tx_rest e /\ (timer_ok e -> timer_ok e').
Proof.
  intros Hinv Hp Hd Hsn Hw Hnew Hsz. pose proof (store_inv S e p Hinv Hp Hd Hsn Hw Hnew Hsz) as Hinv1.
  unfold reception_actions. fold (raise_next_highest (store_pdu e p) (pdu_sn p)).
  set (e1 := raise_next_highest (store_pdu e p) (pdu_sn p)) in *.
  assert (Hrest : rx_list e1 = nr_rlc_pdu_list_add (sn_compare_rx e) (rx_list e) p /\
    am_events e1 = am_events e) by (subst e1; unfold raise_next_highest; by destruct (0 <=? _)).
  pose proof (raised_rest S e p Hinv Hsn Hw) as Hrest1. fold e1 in Hrest1.
  assert (Hdone : forall e2, am_rx_inv S e2 -> tx_rest e2 = tx_rest e1 -> timer_part e2 = timer_part e1 ->
    modulus_rx e1 (rx_next e2) <= modulus_rx e1 (rx_next_highest e1) ->
    tx_rest (start_t_reassembly (stop_t_reassembly e2)) = tx_rest e /\
    (timer_ok e -> timer_ok (start_t_reassembly (stop_t_reassembly e2)))).
  { intros e2 Hi2 Hf Htp Hle. split.
    - rewrite <- (proj1 Hrest1), <- Hf. unfold start_t_reassembly, stop_t_reassembly. by repeat case_match.
    - intros Ht. apply (timers_ok S e1); [apply Hinv1|by apply Hrest1|done| |done].
      pose proof (rx_next_range _ _ (rx_core _ _ Hi2)). unfold timer_part in Htp. congruence. }
  clearbody e1. destruct Hrest as [Hl Hev].
  assert (Hfull : sdu_full e1 (pdu_sn p) = completes S e p).
  { rewrite (sdu_full_spec S e1 _ (rx_core _ _ Hinv1)), Hl. unfold completes, sdu_delivered. rewrite Hl.
    rewrite (store_delivered S e p Hinv Hp Hd Hsn Hnew (pdu_sn p) : data_is_null _ = _).
    rewrite (store_not_delivered S e p Hinv Hp Hnew).
    rewrite bool_decide_true; [done|]. intros Hnil.
    pose proof (of_sn_add_perm (sn_compare_rx e) (rx_list e) p _ eq_refl) as Hperm.
    rewrite Hnil in Hperm. by apply Permutation_nil_cons in Hperm. }
  rewrite Hfull. destruct (completes S e p).
  - destruct (deliver_actions_ok S e1 (pdu_sn p) Hinv1 Hfull) as (e2 & Hrun & Hinv2 & Hev2 & Hle).
    destruct (deliver_actions_frame _ _ _ Hrun) as [Hf Htp].
    rewrite Hrun, bind_Ret_l. eexists. split; [done|]. destruct (timers_rx_part e2) as [Ht1 Ht2].
    split; [by eapply rx_part_inv|]. split; [rewrite Ht2; congruence|by apply Hdone].
  - rewrite bind_Ret_l. eexists. split; [done|]. destruct (timers_rx_part e1) as [Ht1 Ht2].
    split; [by eapply rx_part_inv|]. split; [rewrite Ht2, app_nil_r; congruence|].
    apply Hdone; try done. rewrite modulus_rx_dist, dist_base, <- modulus_rx_dist.
    apply (core_key_nonneg (rx_core _ _ Hinv1)), (rx_nh_range _ _ (rx_core _ _ Hinv1)).
Qed.
