(* ===== verification/RlcAmWire.v ===== *)
(** Data PDUs on the wire: what [serialize_sdu] writes for a segment is what
    [nr_rlc_entity_am_recv_pdu] reads, header fields and data. *)

From stdpp Require Import base tactics list numbers.
From Stdlib Require Import ZArith Lia Sorted.
From S2P Require Import Prelude TimeStat RlcPdu RlcSdu RlcEntity RlcRxList.
From S2P Require Import RlcAmState RlcAmRx RlcAmControl RlcAmTx RlcAmRxInv.
From S2P Require Import RlcAmRxSpec.

(** the bits of the header of a data PDU (38.322 6.2.2.4) *)
Definition am_header_bits (snlen : Z) (p is_first is_last : bool) (sn so : Z) : list bool :=
  bits_of_Z 1 1 ++ bits_of_Z 1 (Z.b2z p) ++
  bits_of_Z 1 (1 - int_of_bool is_first) ++ bits_of_Z 1 (1 - int_of_bool is_last) ++
  (if snlen =? 18 then bits_of_Z 2 0 else []) ++
  bits_of_Z (Z.to_nat snlen) sn ++
  (if is_first then [] else bits_of_Z 16 so).

Definition am_header_len (snlen : Z) (is_first : bool) : Z :=
  (if snlen =? 18 then 3 else 2) + (if is_first then 0 else 2).

Lemma am_header_len_seg e s :
  compute_pdu_header_size e s = am_header_len (sn_field_length e) (seg_is_first s).
Proof. unfold compute_pdu_header_size, am_header_len. by destruct (_ =? 18), (seg_is_first s). Qed.

Lemma length_am_header snlen p f l sn so :
  snlen = 12 \/ snlen = 18 ->
  length (am_header_bits snlen p f l sn so) = (8 * Z.to_nat (am_header_len snlen f))%nat.
Proof. by intros [-> | ->]; unfold am_header_bits; rewrite !length_app; destruct f. Qed.

(** ** Writing *)

Section write.
Context (e : nr_rlc_entity_am_t) (s : nr_rlc_sdu_segment_t) (u : nr_rlc_sdu_t).
Context (buffer : list Z) (size : Z).
Context (Hlen : sn_field_length e = 12 \/ sn_field_length e = 18).
Context (Hu : deref (heap e) s = Ret u).
Let hs := am_header_len (sn_field_length e) (seg_is_first s).
Context (Hsize : hs <= size <= zlen buffer).

Lemma serialize_header_spec :
  returns (serialize_header e s buffer size) (fun enc =>
    enc_repr (length buffer) size
      (am_header_bits (sn_field_length e) false (seg_is_first s) (seg_is_last s) (sdu_sn u) (seg_so s))
      enc).
Proof using All.
  assert (Hs : size <= Z.of_nat (length buffer)) by apply Hsize.
  assert (H8 : hs <= size) by apply Hsize. subst hs. unfold am_header_len in H8.
  unfold serialize_header, am_header_bits. rewrite Hu.
  destruct Hlen as [Hl|Hl]; rewrite Hl in *; destruct (seg_is_first s); cbn [Z.eqb Pos.eqb negb] in *.
  all: put_steps.
  all: rewrite <- !app_assoc in *; rewrite ?app_nil_r; assumption.
Qed.

Lemma hs_range : 2 <= hs <= 5.
Proof using Type.
  clear Hsize. unfold hs, am_header_len. destruct (_ =? 18), (seg_is_first s); lia.
Qed.

(** the written PDU: header and the segment's bytes of the SDU *)
Definition is_pdu (p : bool) (pdu : list Z) : Prop :=
  exists hdr,
    pdu = hdr ++ take (Z.to_nat (seg_size s)) (drop (Z.to_nat (seg_so s)) (sdu_data u)) /\
    zlen hdr = hs /\
    bits_of_bytes hdr = am_header_bits (sn_field_length e) p (seg_is_first s) (seg_is_last s)
                          (sdu_sn u) (seg_so s).

Lemma serialize_no_poll :
  0 <= seg_so s -> 0 <= seg_size s -> seg_so s + seg_size s <= zlen (sdu_data u) ->
  hs + seg_size s <= size ->
  returns (serialize_sdu e s buffer size false) (fun '(n, e', buffer') =>
    n = hs + seg_size s /\ e' = e /\ zlen buffer' = zlen buffer /\
    is_pdu false (take (Z.to_nat n) buffer')).
Proof using All.
  intros Hso Hsz Hend Hfit. unfold serialize_sdu.
  pose proof hs_range as Hhs.
  eapply returns_seq; [apply serialize_header_spec|]. intros enc Henc.
  destruct (enc_repr_aligned _ _ _ _ (Z.to_nat hs) Henc) as (Hb & _ & Hl & Hle & Hbits);
    [by apply length_am_header|].
  rewrite Hu, bind_Ret_l, mem_read_ok, bind_Ret_l by done.
  set (bytes := take _ (drop _ (sdu_data u))).
  assert (Hby : zlen bytes = seg_size s) by (subst bytes; rewrite zlen_take, zlen_drop; lia).
  assert (Hbl : zlen (enc_buffer enc) = zlen buffer) by (unfold zlen; by rewrite Hl).
  rewrite Hb, Z2Nat.id by lia. rewrite mem_write_ok, !bind_Ret_l by lia.
  apply returns_Ret. split_and!; [lia|done| |].
  - rewrite !zlen_app, zlen_take, zlen_drop. unfold zlen in *. lia.
  - exists (take (Z.to_nat hs) (enc_buffer enc)). split_and!; [|rewrite zlen_take; lia|done].
    rewrite app_assoc, take_app_le by (rewrite length_app, length_take; unfold zlen in *; lia).
    rewrite take_ge; [done|]. rewrite length_app, length_take. unfold zlen in *. lia.
Qed.

(** the P bit is set in the byte already written *)
Lemma set_poll_bit b t f l sn so :
  bits_of_bytes (b :: t) = am_header_bits (sn_field_length e) false f l sn so ->
  bits_of_bytes (Z.lor b 64 :: t) = am_header_bits (sn_field_length e) true f l sn so.
Proof using Type.
  unfold am_header_bits, bits_of_bytes. cbn [mbind list_bind].
  assert (H8 : forall x, bits_of_Z 8 x = map (Z.testbit x) [7; 6; 5; 4; 3; 2; 1; 0]) by done.
  assert (H64 : map (Z.testbit (Z.lor b 64)) [7; 6; 5; 4; 3; 2; 1; 0]
                = map (fun i => Z.testbit b i || (i =? 6)) [7; 6; 5; 4; 3; 2; 1; 0]).
  { cbn [map]. by rewrite !Z.lor_spec. }
  rewrite !H8, H64. change (bits_of_Z 1 1) with [true]. change (bits_of_Z 1 (Z.b2z false)) with [false].
  change (bits_of_Z 1 (Z.b2z true)) with [true]. generalize (Z.testbit b), (t ≫= bits_of_Z 8).
  match goal with |- forall _ _, _ = _ ++ _ ++ ?r -> _ => generalize r end.
  intros r g tl. cbn [map app Z.eqb Pos.eqb]. rewrite !orb_false_r, orb_true_r.
  intros H. injection H as H7 _ Hr. by rewrite H7, <- Hr.
Qed.

(** [e'] is [e] after the poll was put in the PDU *)
Definition polled (p : bool) (e' : nr_rlc_entity_am_t) : Prop :=
  e' = if p then e <| pdu_without_poll := 0 |> <| byte_without_poll := 0 |>
                   <| poll_sn := (tx_next e - 1 + sn_modulus e) %% sn_modulus e |>
                   <| t_poll_retransmit_start := t_current e |>
       else e.

Lemma serialize_poll_split :
  serialize_sdu e s buffer size true
  = ('(n, e, buf) ← serialize_sdu e s buffer size false;
     '(e, buf) ← include_poll e buf; Ret (n, e, buf)).
Proof using All.
  unfold serialize_sdu. destruct (serialize_header e s buffer size) as [enc| | |]; [|done..].
  rewrite !bind_Ret_l. destruct (deref (heap e) s) as [v| | |]; [|done..]. rewrite !bind_Ret_l.
  destruct (mem_read _ _ _) as [bytes| | |]; [|done..]. rewrite !bind_Ret_l.
  destruct (mem_write _ _ _) as [buf| | |]; [|done..]. done.
Qed.

Lemma serialize_sdu_spec p :
  0 <= seg_so s -> 0 <= seg_size s -> seg_so s + seg_size s <= zlen (sdu_data u) ->
  hs + seg_size s <= size ->
  returns (serialize_sdu e s buffer size p) (fun '(n, e', buffer') =>
    n = hs + seg_size s /\ polled p e' /\ zlen buffer' = zlen buffer /\
    is_pdu p (take (Z.to_nat n) buffer')).
Proof using All.
  intros Hso Hsz Hend Hfit. pose proof hs_range.
  destruct (serialize_no_poll Hso Hsz Hend Hfit) as ([[n e0] buf] & Hrun & Hn & -> & Hbl & Hpdu).
  destruct p; [|by exists (n, e, buf)]. rewrite serialize_poll_split, Hrun, bind_Ret_l.
  destruct Hpdu as (hdr & Htake & Hhl & Hbits).
  destruct hdr as [|b t]; [rewrite zlen_nil in Hhl; lia|].
  destruct buf as [|b' buf]; [by rewrite take_nil in Htake|].
  assert (Hn' : Z.to_nat n = S (Z.to_nat (n - 1))) by lia.
  rewrite Hn' in Htake. simpl in Htake. injection Htake as -> Htake.
  unfold include_poll. rewrite rd_0, bind_Ret_l. unfold wr.
  rewrite zlen_cons, (proj2 (Z.ltb_lt 0 _)) by (pose proof (zlen_nonneg buf); lia).
  cbn [andb Z.leb Z.compare Z.to_nat]. rewrite !bind_Ret_l. apply returns_Ret.
  split_and!; [done|done|done|]. exists (Z.lor b 64 :: t). rewrite Hn'. simpl. rewrite Htake.
  split_and!; [done|done|by apply set_poll_bit].
Qed.
End write.

(** ** Reading *)

Section read.
Context (rx : nr_rlc_entity_am_t) (pdu : list Z) (rest : list bool).
Context (p is_first is_last : bool) (sn so : Z).
Context (Hlen : sn_field_length rx = 12 \/ sn_field_length rx = 18).
Context (Hbits : bits_of_bytes pdu
                 = am_header_bits (sn_field_length rx) p is_first is_last sn so ++ rest).
Context (Hsn : 0 <= sn < 2 ^ sn_field_length rx).
Context (Hso : if is_first then so = 0 else 0 < so < 2 ^ 16).

Definition count_pdu (e : nr_rlc_entity_am_t) (size : Z) : nr_rlc_entity_am_t :=
  upd_stats (fun s => s <| rxpdu_pkts ::= add32 1 |> <| rxpdu_bytes ::= add32 size |>) e.

Lemma recv_pdu_header :
  nr_rlc_entity_am_recv_pdu rx pdu
  = recv_data_pdu (count_pdu rx (zlen pdu)) pdu
      (mk_data_pdu (Z.b2z p) sn so is_first is_last (am_header_len (sn_field_length rx) is_first)).
Proof using All.
  unfold nr_rlc_entity_am_recv_pdu. fold (count_pdu rx (zlen pdu)). set (e := count_pdu rx (zlen pdu)).
  change (sn_field_length e) with (sn_field_length rx). rewrite dec_at_0.
  unfold am_header_bits in Hbits. rewrite (app_assoc (bits_of_Z 1 (1 - int_of_bool is_first))) in Hbits.
  rewrite si_bits in Hbits. rewrite <- !app_assoc in Hbits.
  set (si := 2 * _ + _) in Hbits.
  assert (Hsi : 0 <= si < 4 /\ (Z.land si 2 =? 0) = is_first /\ (Z.land si 1 =? 0) = is_last)
    by (subst si; by destruct is_first, is_last).
  destruct Hsi as (Hsi & Hf & Hl).
  eapply (read_step pdu [] _ 1 1); [exact Hbits|done|lia|lia|]. intros Hb1. simpl Z.eqb. cbv iota.
  eapply read_step; [exact Hb1|done|lia|destruct p; simpl; lia|]. intros Hb2.
  eapply read_step; [exact Hb2|done|lia|lia|]. intros Hb3. cbv zeta. rewrite Hf, Hl.
  set (k := fun sn so d => recv_data_pdu e pdu
              (mk_data_pdu (Z.b2z p) sn so is_first is_last (dec_byte d))).
  destruct Hlen as [H12|H18].
  - rewrite H12 in Hb3 |- *. simpl Z.eqb in Hb3 |- *. cbv iota.
    etransitivity; [rewrite <- H12 in Hb3 |- *; apply (read_sn_so pdu rest is_first sn so (sn_field_length rx) _ _ k); [lia|done|done|exact Hb3]|].
    unfold k. rewrite H12. by destruct is_first.
  - rewrite H18 in Hb3 |- *. simpl Z.eqb in Hb3 |- *. cbv iota.
    eapply read_step; [exact Hb3|done|lia|lia|]. intros Hb4.
    etransitivity; [rewrite <- H18 in Hb4 |- *; apply (read_sn_so pdu rest is_first sn so (sn_field_length rx) _ _ k); [lia|done|done|exact Hb4]|].
    unfold k. rewrite H18. by destruct is_first.
Qed.
End read.

(** ** Transfer of a segment *)

(** the receiver keeps a segment: there is room, it is in the window, and not
    all of it is there already *)
Definition accepts (e : nr_rlc_entity_am_t) (sn so size : Z) : bool :=
  (rx_size e + size <=? rx_maxsize e) && sn_in_recv_window e sn
  && negb (segment_already_received e sn so size).

Lemma recv_discard_ok S e e0 p size :
  am_rx_inv S e -> rx_part e0 = rx_part e -> am_events e0 = am_events e ->
  tx_rest e0 = tx_rest e -> timer_part e0 = timer_part e ->
  am_rx_inv S (recv_discard e0 p size) /\ am_events (recv_discard e0 p size) = am_events e ++ [] /\
  (false = false -> rx_part (recv_discard e0 p size) = rx_part e) /\
  tx_rest (recv_discard e0 p size) = tx_rest e /\ (timer_ok e -> timer_ok (recv_discard e0 p size)).
Proof.
  intros Hinv Hp Hev Hf Ht. unfold recv_discard. rewrite app_nil_r. split_and!.
  - eapply rx_part_inv; [|exact Hinv]. rewrite <- Hp. by destruct (p =? 0).
  - rewrite <- Hev. by destruct (p =? 0).
  - intros _. rewrite <- Hp. by destruct (p =? 0).
  - rewrite <- Hf. by destruct (p =? 0).
  - unfold rx_part, timer_part in *. injection Hp as P1 _ P2 _ _ _ _ _. injection Ht as T1 T2 T3 _ _.
    intros Hok Hon. assert (Hon' : t_reassembly_start e <> 0) by (destruct (p =? 0); simpl in Hon; congruence).
    specialize (Hok Hon'). unfold modulus_rx in *. destruct (p =? 0); simpl; by rewrite P1, P2, T2, T3.
Qed.

Lemma recv_data_ok S e buffer h :
  let size := zlen buffer - dp_byte h in
  let pdu := nr_rlc_new_pdu (dp_sn h) (dp_so h) (dp_is_first h) (dp_is_last h)
               (drop (Z.to_nat (dp_byte h)) buffer) size in
  am_rx_inv S e -> 0 <= dp_byte h -> 0 <= dp_sn h < sn_modulus e -> piece (S (dp_sn h)) pdu ->
  returns (recv_data_pdu e buffer h) (fun e' =>
    am_rx_inv S e' /\
    am_events e' = am_events e ++
      (if accepts e (dp_sn h) (dp_so h) size && completes S e pdu
       then [DeliverSdu (S (dp_sn h))] else []) /\
    (accepts e (dp_sn h) (dp_so h) size = false -> rx_part e' = rx_part e) /\
    tx_rest e' = tx_rest e /\ (timer_ok e -> timer_ok e')).
Proof.
  intros size pdu Hinv Hby Hsn Hp. pose proof Hp as [_ Hsz _ _ _]. simpl in Hsz.
  unfold recv_data_pdu, accepts. fold size.
  rewrite (proj2 (Z.leb_gt size 0)) by done.
  destruct (Z.ltb_spec (rx_maxsize e) (rx_size e + size)) as [Hfull|Hroom].
  { rewrite (proj2 (Z.leb_gt _ _)) by done. apply returns_Ret. by apply recv_discard_ok. }
  rewrite (proj2 (Z.leb_le _ _)) by done. cbn [andb].
  destruct (sn_in_recv_window e (dp_sn h)) eqn:Hw; cbn [negb andb];
    [|apply returns_Ret; by apply recv_discard_ok].
  destruct (segment_already_received e (dp_sn h) (dp_so h) size) eqn:Hdup; cbn [negb andb];
    [apply returns_Ret; by apply recv_discard_ok|].
  replace (zlen buffer - size) with (dp_byte h) by (subst size; lia).
  rewrite mem_read_ok by (subst size; lia). rewrite bind_Ret_l.
  rewrite take_ge by (rewrite length_drop; subst size; unfold zlen; lia). fold pdu.
  destruct (reception_ok S e pdu) as (e' & Hrun & Hinv' & Hev & Hf & Ht); try done.
  match goal with |- returns (?c ≫= _) _ => change c with (reception_actions (store_pdu e pdu) (pdu_sn pdu)) end.
  rewrite Hrun, bind_Ret_l. apply returns_Ret. split; [|split; [|split; [done|]]].
  - eapply rx_part_inv; [|exact Hinv']. by destruct (dp_p h =? 0).
  - etransitivity; [|exact Hev]. by destruct (dp_p h =? 0).
  - split; [rewrite <- Hf; by destruct (dp_p h =? 0)|]. intros Hok. specialize (Ht Hok). by destruct (dp_p h =? 0).
Qed.

(** the piece the receiver stores for it *)
Definition seg_piece (u : nr_rlc_sdu_t) (s : nr_rlc_sdu_segment_t) : nr_rlc_pdu_t :=
  nr_rlc_new_pdu (sdu_sn u) (seg_so s) (seg_is_first s) (seg_is_last s)
    (take (Z.to_nat (seg_size s)) (drop (Z.to_nat (seg_so s)) (sdu_data u))) (seg_size s).

Lemma seg_piece_ok u s : seg_ok u s -> piece (sdu_data u) (seg_piece u s).
Proof. intros [H1 H2 H3 H4 H5]. constructor; simpl; try done. by intros d [= <-]. Qed.

(** reception of a PDU written for a segment *)
Lemma recv_segment S tx rx u s p pdu :
  is_pdu tx s u p pdu -> seg_ok u s -> S (sdu_sn u) = sdu_data u ->
  sn_field_length tx = sn_field_length rx ->
  sn_field_length rx = 12 \/ sn_field_length rx = 18 ->
  sn_modulus rx = 2 ^ sn_field_length rx -> 0 <= sdu_sn u < sn_modulus rx -> am_rx_inv S rx ->
  returns (nr_rlc_entity_am_recv_pdu rx pdu) (fun rx' =>
    (am_rx_inv S rx' /\
     am_events rx' = am_events rx ++
       (if accepts rx (sdu_sn u) (seg_so s) (seg_size s) && completes S rx (seg_piece u s)
        then [DeliverSdu (sdu_data u)] else []) /\
     (accepts rx (sdu_sn u) (seg_so s) (seg_size s) = false -> rx_part rx' = rx_part rx)) /\
    tx_rest rx' = tx_rest rx /\ (timer_ok rx -> timer_ok rx')).
Proof.
  intros (hdr & -> & Hhl & Hbits) Hs HS Hlt Hlen HM Hsn Hinv. rewrite Hlt in Hhl, Hbits.
  pose proof Hs as [H1 H2 H3 H4 H5].
  assert (zlen (sdu_data u) <= NR_SDU_MAX) by (rewrite <- HS; apply Hinv).
  set (data := take _ (drop _ (sdu_data u))).
  assert (Hdl : zlen data = seg_size s) by (subst data; rewrite zlen_take, zlen_drop; lia).
  rewrite (recv_pdu_header rx (hdr ++ data) (bits_of_bytes data) p (seg_is_first s) (seg_is_last s)
             (sdu_sn u) (seg_so s)).
  - set (hl := am_header_len _ _) in *. set (e1 := count_pdu rx _).
    assert (Hsize : zlen (hdr ++ data) - hl = seg_size s) by (rewrite zlen_app; lia).
    assert (Hdrop : drop (Z.to_nat hl) (hdr ++ data) = data)
      by (rewrite <- Hhl, to_nat_zlen; apply drop_app_length).
    pose proof (recv_data_ok S e1 (hdr ++ data)
      (mk_data_pdu (Z.b2z p) (sdu_sn u) (seg_so s) (seg_is_first s) (seg_is_last s) hl)) as Hok.
    cbn [dp_byte dp_sn dp_so dp_is_first dp_is_last] in Hok. rewrite Hsize, Hdrop, HS in Hok.
    eapply returns_mono; [apply Hok|]; [| |done|by apply seg_piece_ok|].
    + by eapply rx_part_inv; [|exact Hinv].
    + rewrite <- Hhl. apply zlen_nonneg.
    + intros e' (Hinv' & Hev & Hpart & Hf & Ht). split; [|split; [exact Hf|exact Ht]].
      split; [exact Hinv'|]. split; [exact Hev|exact Hpart].
  - done.
  - by rewrite bits_of_bytes_app, Hbits.
  - by rewrite <- HM.
  - rewrite H4. unfold NR_SDU_MAX in *. destruct (Z.eqb_spec (seg_so s) 0); lia.
Qed.
