(* ===== verification/RlcAmTransfer.v ===== *)
(** Acknowledged mode end to end in one direction: segments written by a
    sender, received in any order and any number of times. *)

From stdpp Require Import base tactics list numbers.
From Stdlib Require Import ZArith Lia Sorted.
From S2P Require Import Prelude TimeStat RlcPdu RlcSdu RlcEntity RlcRxList.
From S2P Require Import RlcAmState RlcAmRx RlcAmControl RlcAmTx RlcAmRxInv.
From S2P Require Import RlcAmRxSpec RlcAmWire.

(** [pdu] was written by some sender with [len]-bit SNs for a segment of an SDU
    that has SN [sn] and is [S sn] *)
Definition sent (S : sdu_map) (len : Z) (pdu : list Z) : Prop :=
  exists tx s u p, is_pdu tx s u p pdu /\ seg_ok u s /\ S (sdu_sn u) = sdu_data u /\
    sn_field_length tx = len /\ 0 <= sdu_sn u < 2 ^ len.

(** configuration of an entity *)
Definition am_config_ok (e : nr_rlc_entity_am_t) : Prop :=
  (sn_field_length e = 12 \/ sn_field_length e = 18) /\ sn_modulus e = 2 ^ sn_field_length e.

Fixpoint recv_all (e : nr_rlc_entity_am_t) (pdus : list (list Z)) : outcome nr_rlc_entity_am_t :=
  match pdus with
  | [] => Ret e
  | pdu :: pdus => e ← nr_rlc_entity_am_recv_pdu e pdu; recv_all e pdus
  end.

Lemma recv_sent S rx pdu :
  sent S (sn_field_length rx) pdu -> am_config_ok rx -> am_rx_inv S rx ->
  returns (nr_rlc_entity_am_recv_pdu rx pdu) (fun rx' =>
    am_rx_inv S rx' /\ tx_rest rx' = tx_rest rx /\ (timer_ok rx -> timer_ok rx') /\
    (am_events rx' = am_events rx \/ exists sn, am_events rx' = am_events rx ++ [DeliverSdu (S sn)])).
Proof.
  intros (tx & s & u & p & Hpdu & Hs & HS & Hl & Hsn) [Hlen HM] Hinv.
  eapply returns_mono; [eapply recv_segment; try done; by rewrite HM|].
  intros rx' [(Hinv' & -> & _) [Hrest Ht]]. split_and!; [done|done|done|].
  destruct (_ && _); [right; exists (sdu_sn u); by rewrite HS|left; apply app_nil_r].
Qed.

(** C4: an acknowledged-mode receiver fed with any sequence of data PDUs that a
    sender wrote for segments of its SDUs, in any order, with any losses and
    repetitions, never runs into undefined behaviour, keeps its state
    invariant, and hands up only SDUs that were sent. *)
Theorem am_receiver_safe S pdus : forall rx,
  am_config_ok rx -> am_rx_inv S rx -> Forall (sent S (sn_field_length rx)) pdus ->
  returns (recv_all rx pdus) (fun rx' =>
    am_rx_inv S rx' /\
    exists sns, am_events rx' = am_events rx ++ map (fun sn => DeliverSdu (S sn)) sns).
Proof.
  induction pdus as [|pdu pdus IH]; intros rx Hcfg Hinv Hsent; simpl.
  { apply returns_Ret. split; [done|]. exists []. by rewrite app_nil_r. }
  inversion Hsent as [|? ? Hpdu Hsent']; subst.
  eapply returns_seq; [by apply (recv_sent S)|]. intros rx1 (Hinv1 & Hc & _ & Hev).
  unfold tx_rest in Hc. injection Hc as _ _ _ _ _ _ _ H1 H2 _.
  eapply returns_mono; [apply IH|].
  - unfold am_config_ok. by rewrite H1, H2.
  - done.
  - by rewrite H1.
  - intros rx' [Hinv' [sns Hsns]]. split; [done|].
    destruct Hev as [Hev|[sn Hev]]; rewrite Hsns, Hev; [by exists sns|].
    exists (sn :: sns). by rewrite <- app_assoc.
Qed.

(** C6: the PDU an acknowledged-mode sender serialises for a segment fits the
    grant it was given and is decoded by the receiver to the same SN, offset,
    first/last flags, poll bit and bytes: the receiver hands the SDU up exactly
    when the segment is acceptable and closes the last gap of its SDU, and
    otherwise delivers nothing. *)
Theorem am_segment_transfer S tx rx s u buffer size p :
  am_config_ok rx -> am_rx_inv S rx -> sn_field_length tx = sn_field_length rx ->
  deref (heap tx) s = Ret u -> seg_ok u s -> S (sdu_sn u) = sdu_data u ->
  0 <= sdu_sn u < 2 ^ sn_field_length rx ->
  compute_pdu_header_size tx s + seg_size s <= size <= zlen buffer ->
  returns (serialize_sdu tx s buffer size p) (fun '(n, tx', buffer') =>
    n = compute_pdu_header_size tx s + seg_size s /\
    returns (nr_rlc_entity_am_recv_pdu rx (take (Z.to_nat n) buffer')) (fun rx' =>
      am_rx_inv S rx' /\
      am_events rx' = am_events rx ++
        (if accepts rx (sdu_sn u) (seg_so s) (seg_size s) && completes S rx (seg_piece u s)
         then [DeliverSdu (sdu_data u)] else []))).
Proof.
  intros [Hlen HM] Hinv Hl Hu Hs HS Hsn Hsize. pose proof Hs as [H1 H2 H3 _ _].
  rewrite am_header_len_seg in Hsize |- *.
  eapply returns_mono; [apply (serialize_sdu_spec tx s u buffer size); try done; try lia; by rewrite Hl|].
  intros [[n tx'] buf'] (Hn & _ & _ & Hpdu). split; [done|].
  eapply returns_mono; [eapply recv_segment; try done; by rewrite HM|].
  by intros rx' [(? & ? & _) _].
Qed.

(** C8: nothing is delivered twice while its SN is in the window: a receiver
    that has delivered the SDU of an SN, or whose window has moved past it,
    leaves its buffer, its window and its upper layer alone when another
    segment of that SDU arrives. *)
Theorem am_no_duplicate S rx pdu tx s u p :
  am_config_ok rx -> am_rx_inv S rx -> sn_field_length tx = sn_field_length rx ->
  is_pdu tx s u p pdu -> seg_ok u s -> S (sdu_sn u) = sdu_data u ->
  0 <= sdu_sn u < 2 ^ sn_field_length rx ->
  sdu_delivered rx (sdu_sn u) = true \/ sn_in_recv_window rx (sdu_sn u) = false ->
  returns (nr_rlc_entity_am_recv_pdu rx pdu) (fun rx' =>
    am_events rx' = am_events rx /\ rx_part rx' = rx_part rx).
Proof.
  intros [Hlen HM] Hinv Hl Hpdu Hs HS Hsn Hor.
  eapply returns_mono; [eapply (recv_segment S tx rx u s); try done; by rewrite HM|].
  intros rx' [(_ & -> & Hpart) _].
  assert (accepts rx (sdu_sn u) (seg_so s) (seg_size s) = false) as Hno;
    [|rewrite Hno in *; split; [apply app_nil_r|by apply Hpart]].
  unfold accepts. destruct Hor as [Hdel| ->]; [|by rewrite andb_false_r].
  destruct (segment_already_received rx _ _ _) eqn:E; [by rewrite andb_false_r|].
  pose proof (store_not_delivered S rx (seg_piece u s) Hinv) as Hnd. simpl in Hnd.
  rewrite Hnd in Hdel; [done| |done]. rewrite HS. by apply seg_piece_ok.
Qed.

(** ** Example: one SDU in two segments *)

Definition demo_am : nr_rlc_entity_am_t :=
  the (new_nr_rlc_entity_am 100000 100000 45 35 0 (-1) (-1) 8 12).

Definition demo_map : sdu_map := fun sn => if sn =? 0 then [1; 2; 3; 4; 5] else [].

Definition demo_sdu : nr_rlc_sdu_t := mk_sdu 0 7 [1; 2; 3; 4; 5] 5 (-1) 2 0 0.
Definition demo_head : nr_rlc_sdu_segment_t := mk_seg 2 1 2 0 true false.
Definition demo_tail : nr_rlc_sdu_segment_t := mk_seg 3 1 3 2 false true.
Definition demo_tx : nr_rlc_entity_am_t := demo_am <| heap := mk_heap {[1%nat := demo_sdu]} 4 |>.

(** the PDUs of the two segments; the second one polls *)
Definition demo_pdu_head : list Z := [144; 0; 1; 2].
Definition demo_pdu_tail : list Z := [224; 0; 0; 2; 3; 4; 5].

Lemma demo_am_inv : am_rx_inv demo_map demo_am.
Proof.
  split; [constructor|..]; try (vm_compute; repeat split; congruence).
  - split; [constructor|constructor|]. intros sn. left. constructor.
  - constructor.
  - intros sn. unfold demo_map. destruct (sn =? 0); vm_compute; congruence.
Qed.

Lemma demo_config : am_config_ok demo_am.
Proof. split; [by left|reflexivity]. Qed.

Lemma demo_head_ok : seg_ok demo_sdu demo_head.
Proof. by constructor. Qed.
Lemma demo_tail_ok : seg_ok demo_sdu demo_tail.
Proof. by constructor. Qed.

Lemma demo_pdu_head_ok : is_pdu demo_tx demo_head demo_sdu false demo_pdu_head.
Proof. exists [144; 0]. split_and!; reflexivity. Qed.
Lemma demo_pdu_tail_ok : is_pdu demo_tx demo_tail demo_sdu true demo_pdu_tail.
Proof. exists [224; 0; 0; 2]. split_and!; reflexivity. Qed.

Lemma demo_sent : Forall (sent demo_map (sn_field_length demo_am)) [demo_pdu_tail; demo_pdu_head; demo_pdu_tail].
Proof.
  assert (sent demo_map 12 demo_pdu_tail).
  { exists demo_tx, demo_tail, demo_sdu, true.
    split; [apply demo_pdu_tail_ok|]. split; [apply demo_tail_ok|]. done. }
  assert (sent demo_map 12 demo_pdu_head).
  { exists demo_tx, demo_head, demo_sdu, false.
    split; [apply demo_pdu_head_ok|]. split; [apply demo_head_ok|]. done. }
  by repeat constructor.
Qed.

Lemma am_receiver_safe_witness :
  returns (recv_all demo_am [demo_pdu_tail; demo_pdu_head; demo_pdu_tail]) (fun rx' =>
    am_rx_inv demo_map rx' /\
    exists sns, am_events rx' = am_events demo_am ++ map (fun sn => DeliverSdu (demo_map sn)) sns).
Proof. exact (am_receiver_safe demo_map _ demo_am demo_config demo_am_inv demo_sent). Defined.

(** in this run the SDU comes out once *)
Example demo_delivered_once :
  is_ret (e ← recv_all demo_am [demo_pdu_tail; demo_pdu_head; demo_pdu_tail];
          match am_events e with [DeliverSdu [1; 2; 3; 4; 5]] => Ret tt | _ => Undef end) = true.
Proof. vm_compute. reflexivity. Qed.

Lemma am_segment_transfer_witness :
  returns (serialize_sdu demo_tx demo_tail (replicate 10 0) 10 true) (fun '(n, tx', buffer') =>
    n = 7 /\
    returns (nr_rlc_entity_am_recv_pdu demo_am (take (Z.to_nat n) buffer')) (fun rx' =>
      am_rx_inv demo_map rx')).
Proof.
  eapply returns_mono;
    [apply (am_segment_transfer demo_map demo_tx demo_am demo_tail demo_sdu (replicate 10 0) 10 true)|].
  - exact demo_config.
  - exact demo_am_inv.
  - reflexivity.
  - reflexivity.
  - exact demo_tail_ok.
  - reflexivity.
  - vm_compute. split; congruence.
  - vm_compute. split; congruence.
  - intros [[n tx'] buf] [Hn H]. split; [exact Hn|]. eapply returns_mono; [exact H|]. by intros rx' [? _].
Defined.

Lemma am_no_duplicate_witness :
  returns (nr_rlc_entity_am_recv_pdu (demo_am <| rx_next := 1 |> <| rx_highest_status := 1 |>
                                              <| rx_next_highest := 1 |>) demo_pdu_tail)
    (fun rx' => am_events rx' = []).
Proof.
  set (rx := demo_am <| rx_next := 1 |> <| rx_highest_status := 1 |> <| rx_next_highest := 1 |>).
  eapply returns_mono;
    [apply (am_no_duplicate demo_map rx demo_pdu_tail demo_tx demo_tail demo_sdu true)|].
  - exact demo_config.
  - split; [constructor|..]; try (vm_compute; repeat split; congruence).
    + split; [constructor|constructor|]. intros sn. left. constructor.
    + constructor.
    + apply (rx_sdu_len _ _ (rx_core _ _ demo_am_inv)).
  - reflexivity.
  - exact demo_pdu_tail_ok.
  - exact demo_tail_ok.
  - reflexivity.
  - vm_compute. split; congruence.
  - right. reflexivity.
  - intros rx' [H _]. exact H.
Defined.
