(* ===== verification/RlcAmStatusBits.v ===== *)
(** The bits of a STATUS PDU: what [generate_status] writes, block by block, and
    what the sender of the data reads back. *)

From stdpp Require Import base tactics list numbers gmap.
From Stdlib Require Import ZArith Lia.
From S2P Require Import Prelude TimeStat RlcPdu RlcSdu RlcEntity RlcAmState RlcAmControl RlcAmStatus.

(** ** The format (38.322 6.2.2.5) *)

(** the content of a NACK block *)
Record nack := mk_nack_fields {
  nk_sn : Z;
  nk_e2 : bool;          (** SOstart and SOend are there *)
  nk_e3 : bool;          (** NACK range is there *)
  nk_so_start : Z;
  nk_so_end : Z;
  nk_range : Z
}.

Definition r_bits (snlen : Z) : nat := if snlen =? 18 then 3 else 1.

Definition nack_bits (snlen : Z) (e1 : bool) (b : nack) : list bool :=
  bits_of_Z (Z.to_nat snlen) (nk_sn b) ++ [e1] ++ [nk_e2 b] ++ [nk_e3 b]
  ++ bits_of_Z (r_bits snlen) 0
  ++ (if nk_e2 b then bits_of_Z 16 (nk_so_start b) ++ bits_of_Z 16 (nk_so_end b) else [])
  ++ (if nk_e3 b then bits_of_Z 8 (nk_range b) else []).

Definition header_bits (snlen ack_sn : Z) (e1 : bool) : list bool :=
  bits_of_Z 4 0 ++ bits_of_Z (Z.to_nat snlen) ack_sn ++ [e1]
  ++ bits_of_Z (if snlen =? 18 then 1 else 7) 0.

(** the blocks, the E1 bit of the last being [more] *)
Fixpoint chain (snlen : Z) (bs : list nack) (more : bool) : list bool :=
  match bs with
  | [] => []
  | b :: bs => nack_bits snlen (match bs with [] => more | _ => true end) b ++ chain snlen bs more
  end.

Definition status_bits (snlen ack_sn : Z) (bs : list nack) (more : bool) : list bool :=
  header_bits snlen ack_sn (match bs with [] => more | _ => true end) ++ chain snlen bs more.

(** bytes of a block *)
Definition nack_bytes (snlen : Z) (b : nack) : Z :=
  (if snlen =? 18 then 3 else 2) + (if nk_e2 b then 4 else 0) + (if nk_e3 b then 1 else 0).

Definition sn_len_ok (snlen : Z) : Prop := snlen = 12 \/ snlen = 18.

Lemma length_nack_bits snlen e1 b :
  sn_len_ok snlen -> zlen (nack_bits snlen e1 b) = 8 * nack_bytes snlen b.
Proof. by intros [-> | ->]; unfold nack_bits, nack_bytes; destruct (nk_e2 b), (nk_e3 b). Qed.

Lemma length_header_bits snlen ack e1 :
  sn_len_ok snlen -> zlen (header_bits snlen ack e1) = 24.
Proof. by intros [-> | ->]. Qed.

Lemma chain_snoc snlen bs b more :
  chain snlen (bs ++ [b]) more = chain snlen bs true ++ nack_bits snlen more b.
Proof.
  induction bs as [|c bs IH]; simpl; [by rewrite app_nil_r|].
  rewrite IH, app_assoc. f_equal. f_equal. by destruct bs.
Qed.

Lemma status_snoc snlen ack bs b more :
  status_bits snlen ack (bs ++ [b]) more = status_bits snlen ack bs true ++ nack_bits snlen more b.
Proof.
  unfold status_bits. rewrite chain_snoc, app_assoc. do 2 f_equal. by destruct bs.
Qed.

Definition status_len (snlen : Z) (bs : list nack) : Z := 3 + sumZ (nack_bytes snlen) bs.

Lemma length_chain snlen bs more :
  sn_len_ok snlen -> zlen (chain snlen bs more) = 8 * sumZ (nack_bytes snlen) bs.
Proof.
  intros H. induction bs as [|b bs IH]; simpl; [done|].
  rewrite zlen_app, length_nack_bits, IH by done. lia.
Qed.

Lemma length_status_bits snlen ack bs more :
  sn_len_ok snlen -> zlen (status_bits snlen ack bs more) = 8 * status_len snlen bs.
Proof.
  intros H. unfold status_bits, status_len. rewrite zlen_app, length_header_bits, length_chain by done. lia.
Qed.

(** ** Setting bits of bytes already written *)

Lemma set_bit_byte x j :
  0 <= j <= 7 ->
  bits_of_Z 8 (Z.land (Z.lor x (Z.shiftl 1 j)) 255) = <[Z.to_nat (7 - j) := true]> (bits_of_Z 8 x).
Proof.
  intros Hj. apply list_eq. intros i. rewrite list_lookup_insert.
  destruct (decide (i < 8)%nat) as [Hi|Hi].
  - rewrite !bits_of_Z_lookup by done.
    change 255 with (Z.ones 8). rewrite Z.land_spec, Z.lor_spec, Z.ones_spec_low, andb_true_r by lia.
    rewrite Z.shiftl_1_l, Z.pow2_bits_eqb by lia. rewrite length_bits_of_Z.
    destruct (Z.eqb_spec j (Z.of_nat (8 - 1 - i))).
    + rewrite decide_True by lia. by rewrite orb_true_r.
    + rewrite decide_False by lia. by rewrite orb_false_r.
  - rewrite decide_False by (rewrite ?length_bits_of_Z; lia).
    rewrite !lookup_ge_None_2; rewrite ?length_bits_of_Z; lia || done.
Qed.

Lemma write_byte_bits buf i v :
  (i < length buf)%nat ->
  bits_of_bytes (<[i := v]> buf)
  = take (8 * i) (bits_of_bytes buf) ++ bits_of_Z 8 v ++ drop (8 * i + 8) (bits_of_bytes buf).
Proof.
  revert i. induction buf as [|x buf IH]; intros i Hi; [simpl in Hi; lia|].
  change (bits_of_bytes (x :: buf)) with (bits_of_Z 8 x ++ bits_of_bytes buf).
  destruct i as [|i].
  - change (<[0%nat := v]> (x :: buf)) with (v :: buf).
    change (bits_of_bytes (v :: buf)) with (bits_of_Z 8 v ++ bits_of_bytes buf). done.
  - change (<[S i := v]> (x :: buf)) with (x :: <[i := v]> buf).
    change (bits_of_bytes (x :: ?b)) with (bits_of_Z 8 x ++ bits_of_bytes b).
    rewrite IH by (simpl in Hi; lia).
    rewrite take_app_ge, drop_app_ge by (rewrite length_bits_of_Z; lia).
    rewrite length_bits_of_Z, <- app_assoc.
    replace (8 * S i - 8)%nat with (8 * i)%nat by lia.
    by replace (8 * S i + 8 - 8)%nat with (8 * i + 8)%nat by lia.
Qed.

(** [buffer[i] |= 1 << j] on bits [pre ++ x :: post], the bit being at [pre] *)
Lemma set_bit_bits buf i j pre x post b :
  buf !! i = Some b -> 0 <= j <= 7 -> bits_of_bytes buf = pre ++ x :: post ->
  length pre = (8 * i + Z.to_nat (7 - j))%nat ->
  bits_of_bytes (<[i := Z.land (Z.lor b (Z.shiftl 1 j)) 255]> buf) = pre ++ true :: post.
Proof.
  intros Hb Hj Hbits Hpre.
  assert (exists a c, buf = a ++ b :: c /\ length a = i) as (a & c & -> & Hi).
  { exists (take i buf), (drop (S i) buf). rewrite take_drop_middle by done. split; [done|].
    apply length_take_le. apply lookup_lt_Some in Hb. lia. }
  assert (Hla : length (bits_of_bytes a) = (8 * i)%nat) by (rewrite length_bits_of_bytes; lia).
  rewrite write_byte_bits by (rewrite length_app; simpl; lia). rewrite set_bit_byte by lia.
  replace (pre ++ true :: post) with (<[length pre := true]> (pre ++ x :: post))
    by (by rewrite <- (Nat.add_0_r (length pre)), insert_app_r).
  rewrite <- Hbits, Hpre, bits_of_bytes_app.
  change (bits_of_bytes (b :: c)) with (bits_of_Z 8 b ++ bits_of_bytes c).
  rewrite take_app_length' by done.
  rewrite (app_assoc (bits_of_bytes a) (bits_of_Z 8 b)).
  rewrite drop_app_length' by (rewrite length_app, length_bits_of_Z; lia).
  rewrite <- app_assoc, <- Hla, insert_app_r, insert_app_l by (rewrite length_bits_of_Z; lia). done.
Qed.

(** ** Writing a block *)

Definition nack_of (m : missing_data_t) (count : Z) : nack :=
  let '(e2, e3) := nack_e2_e3 m in
  mk_nack_fields (m_sn_start m) e2 e3 (m_so_start m) (m_so_end m) count.

Lemma nack_size_bytes e m count :
  nack_size e m = nack_bytes (sn_field_length e) (nack_of m count).
Proof.
  unfold nack_size, nack_bytes, nack_of, nack_e2_e3.
  destruct (sn_field_length e =? 18), (m_sn_start m =? m_sn_end m), (_ && _); reflexivity.
Qed.

Lemma nack_field_size_eq e m :
  sn_len_ok (sn_field_length e) -> nack_field_size e m = nack_size e m.
Proof.
  unfold nack_field_size, nack_size.
  by intros [-> | ->]; destruct (m_sn_start m =? m_sn_end m), (_ && _).
Qed.

Lemma nack_bytes_pos snlen b : 0 < nack_bytes snlen b.
Proof. unfold nack_bytes. destruct (snlen =? 18), (nk_e2 b), (nk_e3 b); lia. Qed.

(** the encoder over [buf] at byte [q] *)
Definition enc_at (buf : list Z) (q : Z) : nr_rlc_pdu_encoder_t := mk_encoder q 0 buf (zlen buf).

Lemma enc_at_repr buf q :
  0 <= q <= zlen buf ->
  enc_repr (length buf) (zlen buf) (bits_of_bytes (take (Z.to_nat q) buf)) (enc_at buf q).
Proof.
  intros Hq. unfold zlen in Hq.
  exists (Z.to_nat q), 0%nat, buf, (bits_of_bytes (take (Z.to_nat q) buf)), [].
  unfold enc_at. rewrite Z2Nat.id, app_nil_r by lia. repeat split; done || lia.
Qed.

Lemma repr_enc_at n size bs enc q :
  enc_repr n size bs enc -> size = Z.of_nat n -> zlen bs = 8 * q ->
  exists buf, enc = enc_at buf q /\ length buf = n /\ 0 <= q <= zlen buf /\
    bits_of_bytes (take (Z.to_nat q) buf) = bs.
Proof.
  intros He -> Hbs. pose proof (zlen_nonneg bs).
  destruct (enc_repr_aligned _ _ _ _ (Z.to_nat q) He ltac:(unfold zlen in *; lia))
    as (Hq & Hb & Hl & Hle & Hbits).
  exists (enc_buffer enc). destruct He as (? & ? & buf & ? & ? & -> & _). simpl in *.
  unfold enc_at, zlen. repeat split; [|done|lia|lia|done]. f_equal; lia.
Qed.

Lemma repr_enc_byte n size bs enc q :
  enc_repr n size bs enc -> size = Z.of_nat n -> zlen bs = 8 * q -> enc_byte enc = q.
Proof. intros He Hs Hq. by destruct (repr_enc_at _ _ _ _ _ He Hs Hq) as (buf & -> & _). Qed.

(** ends the proof that a block was written, from what is known of the encoder *)
Ltac block_written :=
  cbv beta in *;
  lazymatch goal with
  | H : enc_repr _ _ _ ?x |- exists _, ?x = enc_at _ ?q /\ _ =>
      let buf := fresh "buf'" in let Hb := fresh "Hb" in
      destruct (repr_enc_at _ _ _ _ q H eq_refl) as (buf & -> & ? & ? & Hb);
      [autorewrite with rlc_len; simpl Z.to_nat; simpl Z.of_nat; lia|];
      exists buf; split_and!;
      [reflexivity | done | rewrite Hb, <- ?app_assoc; reflexivity
      | first [ reflexivity
              | f_equal; eapply repr_enc_byte;
                [eassumption | reflexivity
                | autorewrite with rlc_len; simpl Z.to_nat; simpl Z.of_nat; lia] ] ]
  end.

Lemma put_nack_ok e buf q m count :
  let b := nack_of m count in
  let q' := q + nack_size e m in
  sn_len_ok (sn_field_length e) -> 0 <= q -> q' <= zlen buf ->
  returns (put_nack e (enc_at buf q) m count) (fun '(enc, a) =>
    exists buf', enc = enc_at buf' q' /\ length buf' = length buf /\
      bits_of_bytes (take (Z.to_nat q') buf')
      = bits_of_bytes (take (Z.to_nat q) buf) ++ nack_bits (sn_field_length e) false b /\
      a = if nk_e2 b then Some (q' - 2 - (if nk_e3 b then 1 else 0)) else None).
Proof.
  intros b q' Hlen Hq Hq'.
  assert (Hsz : q' = q + nack_bytes (sn_field_length e) b) by (unfold q'; by rewrite (nack_size_bytes e m count)).
  pose proof (enc_at_repr buf q ltac:(pose proof (nack_bytes_pos (sn_field_length e) b); lia)) as Henc.
  assert (Hbl : zlen (bits_of_bytes (take (Z.to_nat q) buf)) = 8 * q).
  { unfold zlen in *. rewrite length_bits_of_bytes, length_take.
    pose proof (nack_bytes_pos (sn_field_length e) b). lia. }
  assert (Hn : zlen buf <= Z.of_nat (length buf)) by (unfold zlen; lia).
  rewrite Hsz in Hq'. clearbody q'. subst q'.
  set (W := bits_of_bytes (take (Z.to_nat q) buf)) in *. clearbody W.
  unfold put_nack, nack_bits, nack_bytes, r_bits in *. subst b. unfold nack_of in *.
  destruct (nack_e2_e3 m) as [e2 e3].
  cbn [nk_sn nk_e2 nk_e3 nk_so_start nk_so_end nk_range] in *.
  destruct Hlen as [Hl|Hl]; rewrite Hl in *; cbn [Z.eqb Pos.eqb] in *; destruct e2, e3.
  all: put_steps.
  all: block_written.
Qed.

(** ** The PDU under construction *)

(** where the SOend field of the last block is *)
Definition so_end_addr (snlen : Z) (bs : list nack) : option Z :=
  match last bs with
  | Some b => if nk_e2 b then Some (status_len snlen bs - 2 - (if nk_e3 b then 1 else 0)) else None
  | None => None
  end.

(** where the E1 bit of the last block is, or that of the header *)
Definition e1_pos (snlen : Z) (bs : list nack) : Z :=
  match last bs with
  | Some b => 8 * (status_len snlen bs - nack_bytes snlen b) + snlen
  | None => 4 + snlen
  end.

(** the blocks [bs] are in the buffer of [n] bytes, the last E1 bit is clear
    and [g] knows where it is *)
Record status_repr (snlen : Z) (n : nat) (bs : list nack) (g : gen_state) : Prop := mk_status_repr {
  sr_buf : exists buf, g_encoder g = enc_at buf (status_len snlen bs) /\ length buf = n /\
    status_len snlen bs <= Z.of_nat n /\
    bits_of_bytes (take (Z.to_nat (status_len snlen bs)) buf) = status_bits snlen 0 bs false;
  sr_e1 : 0 <= g_e1_bit g <= 7 /\ 8 * g_e1_byte g + 7 - g_e1_bit g = e1_pos snlen bs;
  sr_so_end : g_so_end_address g = so_end_addr snlen bs
}.

Lemma status_len_pos snlen bs : 3 <= status_len snlen bs.
Proof.
  unfold status_len. enough (0 <= sumZ (nack_bytes snlen) bs) by lia.
  apply sumZ_nonneg, list.Forall_forall. intros b _. pose proof (nack_bytes_pos snlen b). lia.
Qed.

Lemma status_len_snoc snlen bs b :
  status_len snlen (bs ++ [b]) = status_len snlen bs + nack_bytes snlen b.
Proof. unfold status_len. rewrite sumZ_app. simpl. lia. Qed.

Lemma e1_split snlen bs :
  sn_len_ok snlen ->
  exists pre post, zlen pre = e1_pos snlen bs /\
    forall more, status_bits snlen 0 bs more = pre ++ more :: post.
Proof.
  intros Hl. unfold e1_pos. destruct bs as [|b bs _] using rev_ind.
  - exists (bits_of_Z 4 0 ++ bits_of_Z (Z.to_nat snlen) 0). eexists. split.
    + rewrite zlen_app, !zlen_bits_of_Z. by destruct Hl as [-> | ->].
    + intros more. unfold status_bits, header_bits. simpl chain. rewrite app_nil_r, <- app_assoc. reflexivity.
  - rewrite last_snoc. exists (status_bits snlen 0 bs true ++ bits_of_Z (Z.to_nat snlen) (nk_sn b)).
    eexists. split; [|intros more; rewrite status_snoc; unfold nack_bits; rewrite <- app_assoc; reflexivity].
    rewrite status_len_snoc, zlen_app, length_status_bits, zlen_bits_of_Z by done.
    by destruct Hl as [-> | ->]; simpl Z.of_nat; lia.
Qed.

(** [encoder->buffer[*e1_byte] |= 1 << *e1_bit] *)
Lemma set_e1_ok snlen n bs g buf :
  sn_len_ok snlen -> status_repr snlen n bs g -> g_encoder g = enc_at buf (status_len snlen bs) ->
  exists b buf', rd buf (g_e1_byte g) = Ret b /\
    wr buf (g_e1_byte g) (Z.land (Z.lor b (Z.shiftl 1 (g_e1_bit g))) 255) = Ret buf' /\
    length buf' = length buf /\
    bits_of_bytes (take (Z.to_nat (status_len snlen bs)) buf') = status_bits snlen 0 bs true.
Proof.
  intros Hl [(buf0 & Henc & <- & Hfit & Hbits) (Hbit & Hpos) _] Henc'.
  destruct (e1_split snlen bs Hl) as (pre & post & Hpre & Hst). rewrite <- Hpos in Hpre.
  rewrite Henc in Henc'. injection Henc' as ->.
  pose proof (length_status_bits snlen 0 bs false Hl) as Hlen. rewrite Hst, zlen_app, zlen_cons in Hlen.
  pose proof (zlen_nonneg pre). pose proof (zlen_nonneg post). pose proof (status_len_pos snlen bs).
  set (q := status_len snlen bs) in *. set (i := Z.to_nat (g_e1_byte g)).
  assert (Hi : (i < Z.to_nat q)%nat /\ 0 <= g_e1_byte g) by (unfold i; lia). destruct Hi as [Hi Hi0].
  destruct (lookup_lt_is_Some_2 buf i ltac:(lia)) as [b Hb].
  exists b, (<[i := Z.land (Z.lor b (Z.shiftl 1 (g_e1_bit g))) 255]> buf). split_and!.
  - rewrite <- (Z2Nat.id (g_e1_byte g)) by done. by apply rd_ok.
  - unfold wr. rewrite (proj2 (Z.leb_le _ _)), (proj2 (Z.ltb_lt _ _)) by (unfold zlen; lia). done.
  - apply length_insert.
  - rewrite take_insert_lt by lia. rewrite Hst in *.
    apply (set_bit_bits _ i _ pre false post b); [by rewrite lookup_take_lt by lia|done|done|].
    unfold zlen in *. lia.
Qed.

(** the state after a block has been added *)
Lemma block_added e n bs m count buf q' a t :
  let snlen := sn_field_length e in
  let b := nack_of m count in
  sn_len_ok snlen -> length buf = n -> q' = status_len snlen bs + nack_size e m -> q' <= zlen buf ->
  bits_of_bytes (take (Z.to_nat q') buf) = status_bits snlen 0 bs true ++ nack_bits snlen false b ->
  a = (if nk_e2 b then Some (q' - 2 - (if nk_e3 b then 1 else 0)) else None) ->
  status_repr snlen n (bs ++ [b])
    (mk_gen (enc_at buf q') (status_len snlen bs + (if snlen =? 18 then 2 else 1))
       (if snlen =? 18 then 5 else 3) t a).
Proof.
  intros snlen b Hl Hbuf Hq' Hfit Hbits ->. rewrite (nack_size_bytes e m count) in Hq'.
  fold snlen b in Hq'. assert (Hq : q' = status_len snlen (bs ++ [b])) by (by rewrite status_len_snoc).
  constructor; simpl.
  - exists buf. rewrite <- Hq. split_and!; [done|done|unfold zlen in *; lia|].
    by rewrite status_snoc.
  - unfold e1_pos. rewrite last_snoc, status_len_snoc. split; [destruct (snlen =? 18); lia|].
    by destruct Hl as [-> | ->]; simpl; lia.
  - unfold so_end_addr. rewrite last_snoc, <- Hq. done.
Qed.

(** ** Overwriting fields *)

Lemma write_byte_at buf i v P F Q :
  bits_of_bytes buf = P ++ F ++ Q -> length P = (8 * i)%nat -> length F = 8%nat ->
  bits_of_bytes (<[i := v]> buf) = P ++ bits_of_Z 8 v ++ Q.
Proof.
  intros Hb HP HF. pose proof (length_bits_of_bytes buf) as Hl. rewrite Hb, !length_app in Hl.
  rewrite write_byte_bits, Hb by lia. rewrite take_app_length' by done.
  rewrite app_assoc, (app_assoc P F), drop_app_length' by (rewrite length_app; lia).
  by rewrite <- app_assoc.
Qed.

Lemma bits_of_Z_split n k v :
  bits_of_Z (n + k) v = bits_of_Z n (Z.shiftr v (Z.of_nat k)) ++ bits_of_Z k v.
Proof.
  induction n as [|n IH]; simpl; [done|]. rewrite IH, Z.shiftr_spec by lia. do 2 f_equal. lia.
Qed.

Lemma bits_of_Z_land255 v : bits_of_Z 8 (Z.land v 255) = bits_of_Z 8 v.
Proof.
  change 255 with (Z.ones 8). cbn [bits_of_Z].
  by rewrite !Z.land_spec, !Z.ones_spec_low, !andb_true_r by lia.
Qed.

Lemma bits_of_Z_small n k v : 0 <= v < 2 ^ Z.of_nat k -> bits_of_Z n (Z.shiftr v (Z.of_nat k)) = bits_of_Z n 0.
Proof. intros Hv. by rewrite Z.shiftr_div_pow2, Z.div_small by lia. Qed.

(** the third byte of the header with 18-bit SNs: 6 bits of ACK_SN, E1, R *)
Lemma or_ack_low b ack e1 r :
  bits_of_Z 8 b = bits_of_Z 6 0 ++ [e1; r] ->
  bits_of_Z 8 (Z.land (Z.lor b (Z.shiftl (Z.land ack 63) 2)) 255) = bits_of_Z 6 ack ++ [e1; r].
Proof.
  rewrite bits_of_Z_land255. intros Hb. apply list_eq. intros i.
  destruct (decide (i < 8)%nat) as [Hi|Hi];
    [|rewrite !lookup_ge_None_2; rewrite ?length_app, ?length_bits_of_Z; simpl; lia || done].
  pose proof (f_equal (fun l => l !! i) Hb) as Hbi. cbv beta in Hbi.
  rewrite bits_of_Z_lookup in Hbi |- * by done. rewrite Z.lor_spec, Z.shiftl_spec by lia.
  change 63 with (Z.ones 6). rewrite Z.land_spec. destruct (decide (i < 6)%nat).
  - rewrite lookup_app_l, bits_of_Z_lookup in Hbi |- * by (rewrite ?length_bits_of_Z; lia).
    apply (inj Some) in Hbi. rewrite Hbi, Z.bits_0, Z.ones_spec_low, andb_true_r by lia. cbn [orb].
    do 2 f_equal. lia.
  - rewrite lookup_app_r, length_bits_of_Z in Hbi |- * by (rewrite length_bits_of_Z; lia).
    rewrite <- Hbi.
    rewrite (Z.testbit_neg_r ack) by lia. by rewrite orb_false_r.
Qed.

Lemma wr_ok buf i v : 0 <= i < zlen buf -> wr buf i v = Ret (<[Z.to_nat i := v]> buf).
Proof.
  intros Hi. unfold wr. by rewrite (proj2 (Z.leb_le _ _)), (proj2 (Z.ltb_lt _ _)) by lia.
Qed.

(** *** SOend of the last block *)

Definition set_so_end (v : Z) (b : nack) : nack :=
  mk_nack_fields (nk_sn b) (nk_e2 b) (nk_e3 b) (nk_so_start b) v (nk_range b).

Lemma so_end_split snlen bs b :
  sn_len_ok snlen -> nk_e2 b = true ->
  exists P Q a, so_end_addr snlen (bs ++ [b]) = Some a /\ zlen P = 8 * a /\
    3 <= a /\ a + 2 <= status_len snlen (bs ++ [b]) /\
    forall v, status_bits snlen 0 (bs ++ [set_so_end v b]) false = P ++ bits_of_Z 16 v ++ Q.
Proof.
  intros Hl He2. pose proof (status_len_pos snlen bs).
  exists (status_bits snlen 0 bs true ++ bits_of_Z (Z.to_nat snlen) (nk_sn b) ++ [false] ++ [true]
            ++ [nk_e3 b] ++ bits_of_Z (r_bits snlen) 0 ++ bits_of_Z 16 (nk_so_start b)).
  exists (if nk_e3 b then bits_of_Z 8 (nk_range b) else []). eexists.
  unfold so_end_addr. rewrite last_snoc, He2, status_len_snoc. split; [reflexivity|].
  unfold nack_bytes, r_bits. rewrite He2. autorewrite with rlc_len. rewrite length_status_bits by done.
  split_and!.
  - destruct Hl as [-> | ->], (nk_e3 b); simpl; lia.
  - destruct (snlen =? 18), (nk_e3 b); lia.
  - destruct (snlen =? 18), (nk_e3 b); lia.
  - intros v. rewrite status_snoc. unfold nack_bits, r_bits. simpl nk_e2. rewrite He2.
    by rewrite <- !app_assoc.
Qed.

Lemma write_two_bytes buf i P F Q :
  bits_of_bytes buf = P ++ F ++ Q -> zlen P = 8 * i -> zlen F = 16 -> 0 <= i ->
  bits_of_bytes (<[Z.to_nat (i + 1) := 255]> (<[Z.to_nat i := 255]> buf)) = P ++ bits_of_Z 16 65535 ++ Q.
Proof.
  intros Hb HP HF Hi. unfold zlen in *. rewrite <- (take_drop 8 F), <- app_assoc in Hb.
  rewrite (write_byte_at _ _ 255 (P ++ bits_of_Z 8 255) (drop 8 F) Q);
    [by rewrite <- app_assoc| |rewrite length_app, length_bits_of_Z; lia|rewrite length_drop; lia].
  rewrite (write_byte_at _ _ 255 P (take 8 F) (drop 8 F ++ Q)); [by rewrite <- app_assoc|done|lia|].
  rewrite length_take. lia.
Qed.

(** [so_end_address[0] = so_end_address[1] = 0xff] *)
Lemma force_so_end_ok snlen n bs b g :
  sn_len_ok snlen -> status_repr snlen n (bs ++ [b]) g -> nk_e2 b = true -> g_truncated g = true ->
  returns (force_so_end g) (fun g' => status_repr snlen n (bs ++ [set_so_end 65535 b]) g').
Proof.
  intros Hl [(buf & Henc & <- & Hfit & Hbits) He1 Hso] He2 Ht.
  destruct (so_end_split snlen bs b Hl He2) as (P & Q & a & Ha & HP & Ha3 & Hle & Hst).
  assert (Hlen : status_len snlen (bs ++ [set_so_end 65535 b]) = status_len snlen (bs ++ [b]))
    by (by rewrite !status_len_snoc).
  unfold force_so_end. rewrite Ht, Hso, Ha, Henc.
  set (q := status_len snlen (bs ++ [b])) in *.
  rewrite wr_ok by (unfold zlen; simpl; lia). rewrite bind_Ret_l.
  rewrite wr_ok by (unfold zlen; rewrite length_insert; simpl; lia). rewrite bind_Ret_l.
  apply returns_Ret. constructor; simpl.
  - exists (<[Z.to_nat (a + 1) := 255]> (<[Z.to_nat a := 255]> buf)). rewrite Hlen. split_and!.
    + rewrite Henc. unfold enc_at, zlen. by rewrite !length_insert.
    + by rewrite !length_insert.
    + done.
    + rewrite !take_insert_lt by lia. rewrite Hst. eapply write_two_bytes; [|done| |lia].
      * rewrite Hbits. rewrite <- (Hst (nk_so_end b)). by destruct b.
      * apply zlen_bits_of_Z.
  - revert He1. unfold e1_pos. rewrite !last_snoc, Hlen. done.
  - rewrite Hso. unfold so_end_addr. by rewrite !last_snoc, Hlen.
Qed.

(** *** ACK_SN *)

(** two bytes of a field written one after the other *)
Lemma write_ack_bytes buf v w R :
  bits_of_bytes buf = bits_of_Z 8 0 ++ bits_of_Z 8 0 ++ R ->
  bits_of_bytes (<[1%nat := Z.land w 255]> (<[0%nat := Z.land v 255]> buf))
  = bits_of_Z 8 v ++ bits_of_Z 8 w ++ R.
Proof.
  intros Hb.
  rewrite (write_byte_at _ 1 _ (bits_of_Z 8 (Z.land v 255)) (bits_of_Z 8 0) R); [| |done|done].
  - by rewrite !bits_of_Z_land255.
  - by rewrite (write_byte_at _ 0 _ [] (bits_of_Z 8 0) (bits_of_Z 8 0 ++ R)).
Qed.

Lemma byte_of_bits buf i b :
  buf !! i = Some b -> take 8 (drop (8 * i) (bits_of_bytes buf)) = bits_of_Z 8 b.
Proof.
  intros Hb. rewrite <- (take_drop_middle buf i b Hb) at 1. rewrite bits_of_bytes_app.
  change (bits_of_bytes (b :: ?l)) with (bits_of_Z 8 b ++ bits_of_bytes l).
  apply lookup_lt_Some in Hb.
  apply take_drop_middle_eq; [rewrite length_bits_of_bytes, length_take; lia|by rewrite length_bits_of_Z].
Qed.

Lemma ack_bits12 ack : 0 <= ack < 2 ^ 12 ->
  bits_of_Z 8 (Z.shiftr ack 8) ++ bits_of_Z 8 ack = bits_of_Z 4 0 ++ bits_of_Z 12 ack.
Proof.
  intros Hack. rewrite <- (bits_of_Z_small 4 12 ack Hack).
  rewrite <- (bits_of_Z_split 4 12), <- (bits_of_Z_split 8 8). done.
Qed.

Lemma ack_bits18 ack : 0 <= ack < 2 ^ 18 ->
  bits_of_Z 8 (Z.shiftr ack 14) ++ bits_of_Z 8 (Z.shiftr ack 6) ++ bits_of_Z 6 ack
  = bits_of_Z 4 0 ++ bits_of_Z 18 ack.
Proof.
  intros Hack. rewrite <- (bits_of_Z_small 4 18 ack Hack), <- (bits_of_Z_split 4 18).
  rewrite <- (bits_of_Z_split 8 6), <- (bits_of_Z_split 8 14). done.
Qed.

Lemma put_ack_ok e bs buf ack :
  let snlen := sn_field_length e in
  let q := Z.to_nat (status_len snlen bs) in
  sn_len_ok snlen -> 0 <= ack < 2 ^ snlen -> status_len snlen bs <= zlen buf ->
  bits_of_bytes (take q buf) = status_bits snlen 0 bs false ->
  returns (put_ack_sn e buf ack) (fun buf' =>
    length buf' = length buf /\ bits_of_bytes (take q buf') = status_bits snlen ack bs false).
Proof.
  intros snlen q Hl Hack Hfit Hbits. pose proof (status_len_pos snlen bs) as Hq.
  assert (Hq3 : (3 <= q)%nat) by lia. unfold status_bits, header_bits in *.
  set (e1 := match bs with [] => false | _ => true end) in *. set (tail := chain snlen bs false) in *.
  assert (Hlen1 : forall i v, length (<[i := v]> buf) = length buf) by (intros; apply length_insert).
  unfold put_ack_sn. fold snlen. destruct Hl as [Hl|Hl]; rewrite Hl in *; cbn [Z.eqb Pos.eqb] in *.
  - rewrite wr_ok by lia. rewrite bind_Ret_l, wr_ok by (unfold zlen in *; rewrite Hlen1; lia).
    apply returns_Ret. split; [by rewrite length_insert|]. rewrite !take_insert_lt by lia.
    rewrite (write_ack_bytes _ _ _ ([e1] ++ bits_of_Z 7 0 ++ tail) Hbits).
    rewrite app_assoc, ack_bits12 by done. by rewrite <- !app_assoc.
  - rewrite wr_ok by lia. rewrite bind_Ret_l, wr_ok by (unfold zlen in *; rewrite Hlen1; lia).
    rewrite bind_Ret_l. change (Z.to_nat 0) with 0%nat. change (Z.to_nat 1) with 1%nat.
    pose proof (write_ack_bytes _ (Z.shiftr ack 14) (Z.shiftr ack 6)
      ((bits_of_Z 6 0 ++ [e1; false]) ++ tail) Hbits) as Hw.
    set (buf1 := <[1%nat := _]> _) in Hw. set (buf2 := <[1%nat := _]> _).
    assert (Hb2 : take q buf2 = buf1) by (unfold buf1, buf2; by rewrite !take_insert_lt by lia).
    assert (Hl2 : length buf2 = length buf) by (unfold buf2; rewrite length_insert; apply Hlen1).
    destruct (lookup_lt_is_Some_2 buf2 2) as [b Hb]; [unfold zlen in Hfit; lia|].
    rewrite (rd_ok buf2 2 b Hb : rd buf2 2 = Ret b), bind_Ret_l.
    rewrite wr_ok by (unfold zlen in *; rewrite Hl2; lia). apply returns_Ret.
    split; [by rewrite length_insert|]. rewrite take_insert_lt by lia. rewrite Hb2.
    change (Z.to_nat 2) with 2%nat. rewrite app_assoc in Hw.
    rewrite (write_byte_at _ 2 _ _ _ _ Hw) by done.
    rewrite or_ack_low with (e1 := e1) (r := false).
    + rewrite <- app_assoc. rewrite !app_assoc. rewrite <- (app_assoc (bits_of_Z 8 (Z.shiftr ack 14))).
      rewrite ack_bits18 by done. by rewrite <- !app_assoc.
    + assert (Hb1 : buf1 !! 2%nat = Some b) by (rewrite <- Hb2, lookup_take_lt by lia; done).
      rewrite <- (byte_of_bits _ _ _ Hb1), Hw. by apply take_drop_middle_eq.
Qed.

(** ** Reading it back *)

(** the block as the sender of the data sees it *)
Definition nk_count (b : nack) : Z := if nk_e3 b then nk_range b else 1.

Definition block_of (e1 : bool) (b : nack) : nack_block :=
  mk_nack (nk_sn b) (Z.b2z e1) (if nk_e2 b then nk_so_start b else 0)
    (if nk_e2 b then if nk_so_end b =? 65535 then -1 else nk_so_end b else -1) (nk_count b).

Record nack_ok (snlen : Z) (b : nack) : Prop := mk_nack_ok {
  nko_sn : 0 <= nk_sn b < 2 ^ snlen;
  nko_so_start : 0 <= nk_so_start b <= 65535;
  nko_so_end : 0 <= nk_so_end b <= 65535;
  nko_range : 1 <= nk_range b <= 255
}.

Lemma one_bit (b : bool) : [b] = bits_of_Z 1 (Z.b2z b).
Proof. by destruct b. Qed.

(** reads the next field of a sequence, whose bits are known *)
Ltac get_field Hb :=
  eapply get_step; [exact Hb | reflexivity | lia | first [lia | match goal with |- 0 <= Z.b2z ?b < _ => destruct b end; cbn; lia] |];
  clear Hb; intros Hb; cbv beta iota.

Lemma read_nack_ok e buf pre e1 b rest :
  sn_len_ok (sn_field_length e) -> nack_ok (sn_field_length e) b ->
  bits_of_bytes buf = pre ++ nack_bits (sn_field_length e) e1 b ++ rest ->
  read_nack e (dec_at buf (length pre))
  = Ret (block_of e1 b, dec_at buf (length (pre ++ nack_bits (sn_field_length e) e1 b))).
Proof.
  intros Hl [H1 H2 H3 H4] Hb. unfold read_nack, block_of, nack_r_bits, nk_count.
  unfold nack_bits, r_bits in *. rewrite !one_bit in *. destruct b as [sn e2 e3 so_start so_end range].
  cbn [nk_sn nk_e2 nk_e3 nk_so_start nk_so_end nk_range] in *.
  destruct Hl as [Hl|Hl]; rewrite Hl in *; cbn [Z.eqb Pos.eqb] in *; destruct e2, e3; rewrite <- !app_assoc in Hb.
  all: do 5 get_field Hb; cbn [Z.b2z negb Z.eqb]; rewrite ?bind_bind, ?bind_Ret_l.
  all: repeat (get_field Hb; rewrite ?bind_bind, ?bind_Ret_l); cbv beta iota.
  all: repeat (get_field Hb; rewrite ?bind_bind, ?bind_Ret_l).
  all: do 2 f_equal; rewrite <- ?app_assoc, ?app_nil_r; reflexivity.
Qed.

(** the reads of the second pass of [process_control_pdu], in one go *)
Fixpoint read_blocks (fuel : nat) (e : nr_rlc_entity_am_t) (d : nr_rlc_pdu_decoder_t) (e1 : Z)
    : outcome (list nack_block) :=
  if e1 =? 0 then Ret []
  else
    match fuel with
    | O => Diverge
    | S fuel =>
        '(b, d) ← read_nack e d;
        bs ← read_blocks fuel e d (nack_e1 b);
        Ret (b :: bs)
    end.

Definition read_status (e : nr_rlc_entity_am_t) (pdu : list Z) : outcome (Z * list nack_block) :=
  let d := nr_rlc_pdu_decoder_init pdu (zlen pdu) in
  '(_, d) ← nr_rlc_pdu_decoder_get_bits d 1;
  '(_, d) ← nr_rlc_pdu_decoder_get_bits d 3;
  '(ack_sn, d) ← nr_rlc_pdu_decoder_get_bits d (sn_field_length e);
  '(e1, d) ← nr_rlc_pdu_decoder_get_bits d 1;
  '(_, d) ← nr_rlc_pdu_decoder_get_bits d (if sn_field_length e =? 18 then 1 else 7);
  bs ← read_blocks (length pdu) e d e1;
  Ret (ack_sn, bs).

Definition more_blocks (bs : list nack) : bool := match bs with [] => false | _ => true end.

Fixpoint blocks_of (bs : list nack) : list nack_block :=
  match bs with
  | [] => []
  | b :: bs => block_of (more_blocks bs) b :: blocks_of bs
  end.

Lemma read_blocks_ok e buf bs : forall fuel pre,
  sn_len_ok (sn_field_length e) -> Forall (nack_ok (sn_field_length e)) bs ->
  bits_of_bytes buf = pre ++ chain (sn_field_length e) bs false -> (length bs <= fuel)%nat ->
  read_blocks fuel e (dec_at buf (length pre)) (Z.b2z (more_blocks bs)) = Ret (blocks_of bs).
Proof.
  induction bs as [|b bs IH]; intros fuel pre Hl Hok Hb Hf; [by destruct fuel|].
  destruct fuel as [|fuel]; [simpl in Hf; lia|]. inversion Hok as [|? ? Hb1 Hok']; subst.
  cbn [read_blocks more_blocks Z.b2z Z.eqb]. cbn [chain] in Hb.
  rewrite (read_nack_ok e buf pre _ b _ Hl Hb1 Hb), bind_Ret_l.
  change (nack_e1 (block_of ?x b)) with (Z.b2z x).
  change (match bs with [] => false | _ => true end) with (more_blocks bs) in *.
  rewrite IH; [by rewrite bind_Ret_l|done|done|by rewrite <- app_assoc|simpl in Hf; lia].
Qed.

(** the number of blocks is at most that of the bytes *)
Lemma length_status_blocks snlen bs : Z.of_nat (length bs) + 3 <= status_len snlen bs.
Proof.
  unfold status_len. induction bs as [|b bs IH]; simpl; [lia|].
  pose proof (nack_bytes_pos snlen b). lia.
Qed.

Lemma read_status_ok e pdu ack bs :
  sn_len_ok (sn_field_length e) -> Forall (nack_ok (sn_field_length e)) bs ->
  0 <= ack < 2 ^ sn_field_length e ->
  bits_of_bytes pdu = status_bits (sn_field_length e) ack bs false ->
  read_status e pdu = Ret (ack, blocks_of bs).
Proof.
  intros Hl Hok Hack Hb. unfold read_status. rewrite dec_at_0.
  assert (Hf : (length bs <= length pdu)%nat).
  { pose proof (length_status_bits (sn_field_length e) ack bs false Hl) as Hs. rewrite <- Hb in Hs.
    unfold zlen in Hs. rewrite length_bits_of_bytes in Hs.
    pose proof (length_status_blocks (sn_field_length e) bs). lia. }
  unfold status_bits, header_bits in Hb. change (match bs with [] => false | _ => true end) with (more_blocks bs) in Hb.
  rewrite one_bit in Hb. change (bits_of_Z 4 0) with (bits_of_Z 1 0 ++ bits_of_Z 3 0) in Hb.
  rewrite <- !app_assoc in Hb. change 0%nat with (length (@nil bool)). rewrite <- (app_nil_l (bits_of_Z 1 0 ++ _)) in Hb.
  pose proof (read_blocks_ok e pdu bs (length pdu)) as Hblocks.
  destruct Hl as [Hl|Hl]; rewrite Hl in *; cbn [Z.eqb Pos.eqb] in *.
  all: do 5 get_field Hb.
  all: rewrite Hblocks; [by rewrite bind_Ret_l|by (left + right)|done|exact Hb|done].
Qed.
