(* ===== verification/RlcAmMissing.v ===== *)
(** The search for missing data: every byte the receiver does not have, below
    RX_Highest_Status, is in one of the parts that successive calls of
    [next_missing] return. *)

From stdpp Require Import base tactics list numbers sorting.
From Stdlib Require Import ZArith Lia Sorted.
From S2P Require Import Prelude TimeStat RlcPdu RlcSdu RlcEntity RlcRxList.
From S2P Require Import RlcAmState RlcAmRx RlcAmControl RlcAmRxInv RlcAmRxSpec RlcAmStatus.

(** byte [so] of SDU [sn] is in a PDU of [l] *)
Definition have (l : list nr_rlc_pdu_t) (sn so : Z) : Prop :=
  exists p, p ∈ l /\ pdu_sn p = sn /\ pdu_so p <= so < pdu_end p.

(** ** Positions: an SN by its distance from RX_Next, and a byte of its SDU *)

Definition pos_le (k1 b1 k2 b2 : Z) : Prop := k1 < k2 \/ (k1 = k2 /\ b1 <= b2).
Definition pos_lt (k1 b1 k2 b2 : Z) : Prop := k1 < k2 \/ (k1 = k2 /\ b1 < b2).

(** what is covered without a gap is there *)
Lemma contig_have k sn n so :
  Forall (has_sn sn) k -> n <= so < contig k n -> have k sn so.
Proof.
  intros Hk. revert n. induction Hk as [|p k Hp _ IH]; intros n Hso; simpl in Hso; [lia|].
  destruct (Z.ltb_spec n (pdu_so p)); [lia|].
  destruct (Z.lt_ge_cases so (pdu_end p)).
  - exists p. split; [left|]. split; [done|lia].
  - destruct (IH (Z.max n (pdu_end p)) ltac:(lia)) as (q & Hq & ?). exists q. split; [by right|done].
Qed.

Ltac part_simpl := cbn [m_sn_start m_so_start m_sn_end m_so_end m_next].

Section missing.
Context {S : sdu_map} {e : nr_rlc_entity_am_t} (Hc : am_rx_core S e).
Abbreviation M := (sn_modulus e).
Abbreviation key := (modulus_rx e).
Abbreviation hs := (modulus_rx e (rx_highest_status e)).

Definition valid (sn so : Z) : Prop := 0 <= sn < M /\ 0 <= so < zlen (S sn).

(** *** Sequence numbers by their distance *)

Lemma hs_key : 0 <= hs <= window_size e /\ window_size e < M.
Proof using Hc.
  pose proof (core_key_nonneg Hc _ (rx_hs_range _ _ Hc)). destruct Hc as [[HM HW] _ _ _ Ho _ _ _ _ _]. lia.
Qed.

Lemma key_succ sn :
  0 <= sn < M -> key sn + 1 < M -> 0 <= (sn + 1) %% M < M /\ key ((sn + 1) %% M) = key sn + 1.
Proof using Hc. apply dist_succ. apply Hc. Qed.

Lemma key_pred sn :
  0 <= sn < M -> 0 < key sn -> 0 <= (sn - 1 + M) %% M < M /\ key ((sn - 1 + M) %% M) = key sn - 1.
Proof using Hc.
  intros Hs Hk. pose proof (rx_next_range _ _ Hc).
  assert (Hr : (sn - 1 + M) %% M = if sn =? 0 then M - 1 else sn - 1).
  { rewrite rem_mod by lia. destruct (Z.eqb_spec sn 0) as [->|].
    - rewrite Z.mod_small; lia.
    - symmetry. apply (Z.mod_unique _ _ 1); lia. }
  rewrite Hr. unfold modulus_rx in *. destruct (Z.eqb_spec sn 0); repeat case_match; bool_prop; lia.
Qed.

Lemma key_add sn c :
  0 <= sn < M -> 0 <= c -> key sn + c < M ->
  0 <= (sn + c) %% M < M /\ key ((sn + c) %% M) = key sn + c.
Proof using Hc.
  intros Hs Hc0 Hk. pose proof (core_key_nonneg Hc _ Hs). pose proof (rx_next_range _ _ Hc).
  assert (Hr : (sn + c) %% M = if sn + c <? M then sn + c else sn + c - M).
  { rewrite rem_mod by lia. destruct (Z.ltb_spec (sn + c) M).
    - apply Z.mod_small. lia.
    - symmetry. apply (Z.mod_unique _ _ 1); lia. }
  rewrite Hr. unfold modulus_rx in *. destruct (Z.ltb_spec (sn + c) M); repeat case_match; bool_prop; lia.
Qed.

Lemma out_of_report_key sn : out_of_report e sn = (hs <=? key sn).
Proof using Type.
  unfold out_of_report, sn_compare_rx. apply eq_true_iff_eq. rewrite !Z.leb_le. lia.
Qed.

Lemma last_reported_key :
  0 < hs -> 0 <= last_reported_sn e < M /\ key (last_reported_sn e) = hs - 1.
Proof using Hc. apply key_pred. apply Hc. Qed.

Lemma key_eq sn sn' : 0 <= sn < M -> 0 <= sn' < M -> key sn = key sn' -> sn = sn'.
Proof using Hc. apply (core_inj Hc). Qed.

(** *** The result of a call *)

(** a part that is missing below RX_Highest_Status *)
Record part_ok (m : missing_data_t) : Prop := mk_part_ok {
  part_start : 0 <= m_sn_start m < M;
  part_end : 0 <= m_sn_end m < M;
  part_order : key (m_sn_start m) <= key (m_sn_end m) < hs;
  part_so_start : 0 <= m_so_start m <= 65535;
  part_so_end : 0 <= m_so_end m <= 65535;
  part_nonempty : key (m_sn_start m) = key (m_sn_end m) -> m_so_start m <= m_so_end m
}.

(** the search goes on behind the part, or there is nothing more below
    RX_Highest_Status *)
Definition goes_on (l : list nr_rlc_pdu_t) (m : missing_data_t) : Prop :=
  (m_next m = [] /\ key (m_sn_end m) = hs - 1 /\ m_so_end m = 65535) \/
  exists p l' b, m_next m = p :: l' /\ l = b ++ p :: l' /\
    forall k so, 0 <= so <= 65535 ->
      pos_lt (key (m_sn_end m)) (m_so_end m) k so <-> pos_le (key (pdu_sn p)) (pdu_so p) k so.

(** everything from position [k]/[b] up to [k']/[b'] is there *)
Definition upto (k b k' b' : Z) : Prop :=
  forall sn so, valid sn so -> pos_le k b (key sn) so -> pos_lt (key sn) so k' b' ->
    have (rx_list e) sn so.

(** from [k]/[b] on everything is there up to the part returned, or up to
    RX_Highest_Status when none is *)
Definition reports (l : list nr_rlc_pdu_t) (k b : Z) (m : missing_data_t) : Prop :=
  (m_sn_start m = -1 /\ upto k b hs 0) \/
  (part_ok m /\ goes_on l m /\ upto k b (key (m_sn_start m)) (m_so_start m)).

Lemma upto_weaken k b k1 b1 k2 b2 : pos_le k2 b2 k1 b1 -> upto k b k1 b1 -> upto k b k2 b2.
Proof using Type. intros Hp Hu sn so Hv Hge Hlt. apply Hu; [done|done|]. unfold pos_le, pos_lt in *. lia. Qed.

Lemma upto_trans k b k1 b1 k2 b2 : upto k b k1 b1 -> upto k1 b1 k2 b2 -> upto k b k2 b2.
Proof using Type.
  intros H1 H2 sn so Hv Hge Hlt. destruct (decide (pos_lt (key sn) so k1 b1)) as [Hb|Hb].
  - by apply H1.
  - apply H2; [done| |done]. unfold pos_le, pos_lt in *. lia.
Qed.

Lemma reports_trans l l' k b k1 b1 m :
  upto k b k1 b1 -> reports l k1 b1 m -> reports (l' ++ l) k b m.
Proof using Type.
  intros Hu [[Hm Hr]|(Hm & Hg & Hr)]; [left|right].
  - split; [done|]. by eapply upto_trans.
  - split_and!; [done| |by eapply upto_trans].
    destruct Hg as [Hg|(p & r & c & Hn & -> & Hp)]; [by left|right].
    exists p, r, (l' ++ c). by rewrite <- app_assoc.
Qed.

(** *** The end of a part *)

Lemma set_end_ok b cur next sn_start so_start :
  0 <= sn_start < M -> key sn_start < hs -> 0 <= so_start <= 65535 ->
  0 <= pdu_sn cur < M -> 0 <= pdu_so cur <= 65535 -> pdu_is_first cur = (pdu_so cur =? 0) ->
  pos_lt (key sn_start) so_start (key (pdu_sn cur)) (pdu_so cur) ->
  let m := set_end_different_sdu e sn_start so_start cur (cur :: next) in
  m_sn_start m = sn_start /\ m_so_start m = so_start /\ part_ok m /\ goes_on (b ++ cur :: next) m.
Proof using Hc.
  intros Hs Hk Hso Hcur Hcso Hf Hlt. unfold set_end_different_sdu. rewrite Hf.
  pose proof (core_key_nonneg Hc _ Hs). destruct (last_reported_key ltac:(lia)) as [Hlr Hlk].
  destruct (Z.eqb_spec (pdu_so cur) 0) as [H0|H0]; unfold pos_lt in Hlt.
  - destruct (key_pred (pdu_sn cur) Hcur ltac:(lia)) as [Hpr Hpk].
    rewrite out_of_report_key, Hpk. destruct (Z.leb_spec hs (key (pdu_sn cur) - 1)).
    + split_and!; [done|done| |by left]. constructor; part_simpl; rewrite ?Hlk; lia.
    + split_and!; [done|done| |]; [constructor; part_simpl; rewrite ?Hpk; lia|].
      right. exists cur, next, b. part_simpl. split_and!; [done|done|]. intros k so Hle.
      rewrite Hpk. unfold pos_lt, pos_le. lia.
  - rewrite out_of_report_key. destruct (Z.leb_spec hs (key (pdu_sn cur))).
    + split_and!; [done|done| |by left]. constructor; part_simpl; rewrite ?Hlk; lia.
    + split_and!; [done|done| |]; [constructor; part_simpl; lia|].
      right. exists cur, next, b. part_simpl. split_and!; [done|done|]. intros k so Hle.
      unfold pos_lt, pos_le. lia.
Qed.

(** *** A PDU of the list *)

Lemma pdu_facts p :
  p ∈ rx_list e ->
  0 <= pdu_sn p < M /\ 0 <= key (pdu_sn p) /\ key (pdu_sn p) + 1 < M /\ piece (S (pdu_sn p)) p /\
  zlen (S (pdu_sn p)) <= NR_SDU_MAX.
Proof using Hc.
  intros Hp. pose proof (rx_window _ _ Hc) as Hw. unfold in_window in Hw. rewrite list.Forall_forall in Hw.
  destruct (Hw p Hp) as [Hr Hk]. pose proof (core_key_nonneg Hc _ Hr).
  pose proof (buf_pieces _ _ _ (rx_buf _ _ Hc)) as Hpc. rewrite list.Forall_forall in Hpc.
  change (dist (rx_next e) M) with key in Hk.
  pose proof (rx_order _ _ Hc). destruct (rx_cfg _ _ Hc).
  split; [done|]. split; [lia|]. split; [lia|]. split; [by apply Hpc|apply Hc].
Qed.

(** all of a delivered SDU is there *)
Lemma delivered_have p so :
  p ∈ rx_list e -> pdu_data p = None -> 0 <= so < zlen (S (pdu_sn p)) ->
  have (rx_list e) (pdu_sn p) so.
Proof using Hc.
  intros Hp Hd Hso. destruct (buf_blocks _ _ _ (rx_buf _ _ Hc) (pdu_sn p)) as [Hb|[_ Hb]].
  - rewrite list.Forall_forall in Hb. destruct (Hb p); [|done]. apply list_elem_of_filter. done.
  - destruct (contig_have (of_sn (pdu_sn p) (rx_list e)) (pdu_sn p) 0 so (of_sn_in _ _) ltac:(lia))
      as (q & Hq & ?).
    exists q. split; [|done]. by apply list_elem_of_filter in Hq as [_ ?].
Qed.

(** *** The walk over the list *)

(** [cur] is reached, with everything of its SDU from [lo] to [max_so] there *)
Record walk (b : list nr_rlc_pdu_t) (cur : nr_rlc_pdu_t) (next : list nr_rlc_pdu_t)
    (lo max_so : Z) (last_reached : bool) : Prop := mk_walk {
  walk_list : rx_list e = b ++ cur :: next;
  walk_lo : 0 <= lo <= pdu_so cur;
  walk_have : forall so, lo <= so <= max_so -> have (rx_list e) (pdu_sn cur) so;
  walk_max : 0 <= max_so <= NR_SDU_MAX;
  walk_gap : pdu_so cur = lo \/ pdu_so cur <= max_so + 1;
  walk_last : last_reached = true -> zlen (S (pdu_sn cur)) <= max_so + 1
}.

Lemma walk_start b cur next : rx_list e = b ++ cur :: next -> walk b cur next (pdu_so cur) 0 false.
Proof using Hc.
  intros HL. assert (Hin : cur ∈ rx_list e) by (rewrite HL; apply elem_of_app; right; left).
  destruct (pdu_facts cur Hin) as (_ & _ & _ & [Hso Hsz _ _ _ _] & _).
  constructor; [done|lia| |unfold NR_SDU_MAX; lia|by left|done].
  intros so Hle. exists cur. unfold pdu_end. split_and!; [done|done|lia|lia].
Qed.

Section walk_step.
Context {b : list nr_rlc_pdu_t} {cur : nr_rlc_pdu_t} {next : list nr_rlc_pdu_t}.
Context {lo max_so : Z} {last_reached : bool} (Hw : walk b cur next lo max_so last_reached).
Let max' := Z.max max_so (pdu_so cur + pdu_size cur - 1).
Let last' := last_reached || pdu_is_last cur.

Lemma walk_in : cur ∈ rx_list e.
Proof using Hw. rewrite (walk_list _ _ _ _ _ _ Hw). apply elem_of_app. right. left. Qed.

Lemma walk_max' : 0 <= max' <= NR_SDU_MAX.
Proof using Hc Hw.
  destruct (pdu_facts cur walk_in) as (_ & _ & _ & [] & ?). destruct (walk_max _ _ _ _ _ _ Hw). unfold max'. lia.
Qed.

Lemma walk_have' so : lo <= so <= max' -> have (rx_list e) (pdu_sn cur) so.
Proof using Hc Hw.
  intros Hso. destruct (Z.le_gt_cases so max_so).
  - by apply (walk_have _ _ _ _ _ _ Hw); lia.
  - exists cur. destruct (walk_gap _ _ _ _ _ _ Hw); unfold max', pdu_end in *;
      (split_and!; [apply walk_in|done|lia|lia]).
Qed.

Lemma walk_last' : last' = true -> zlen (S (pdu_sn cur)) <= max' + 1.
Proof using Hc Hw.
  destruct (pdu_facts cur walk_in) as (_ & _ & _ & [_ _ _ Hl _ _] & _). unfold last', max'.
  intros [E|E]%orb_true_iff; [pose proof (walk_last _ _ _ _ _ _ Hw E); lia|].
  rewrite Hl in E. bool_prop. lia.
Qed.

(** what is there without a gap *)
Lemma walk_partial : upto (key (pdu_sn cur)) lo (key (pdu_sn cur)) (max' + 1).
Proof using Hc Hw.
  intros sn so [Hsn Hso] Hge Hlt. destruct (pdu_facts cur walk_in) as (Hr & _).
  assert (key sn = key (pdu_sn cur) /\ lo <= so <= max') as [Hk Hin] by (unfold pos_le, pos_lt in *; lia).
  rewrite (key_eq _ _ Hsn Hr Hk). by apply walk_have'.
Qed.

(** the whole of the SDU, when its end has been reached or it was delivered *)
Lemma walk_full :
  last' = true \/ pdu_data cur = None -> upto (key (pdu_sn cur)) lo (key (pdu_sn cur) + 1) 0.
Proof using Hc Hw.
  intros Hl sn so [Hsn Hso] Hge Hlt. destruct (pdu_facts cur walk_in) as (Hr & _).
  assert (key sn = key (pdu_sn cur) /\ lo <= so) as [Hk Hin] by (unfold pos_le, pos_lt in *; lia).
  pose proof (key_eq _ _ Hsn Hr Hk). subst sn. destruct Hl as [Hl|Hd].
  - apply walk_have'. pose proof (walk_last' Hl). lia.
  - by apply delivered_have; [apply walk_in|..].
Qed.
End walk_step.

Lemma upto_refl k b : upto k b k b.
Proof using Type. intros sn so _ H1 H2. unfold pos_le, pos_lt in *. lia. Qed.

Lemma reports_app l l' k b m : reports l k b m -> reports (l' ++ l) k b m.
Proof using Type. apply reports_trans, upto_refl. Qed.

(** missing from [sn_start] to the end of the reporting window *)
Lemma reports_tail l k b sn_start so_start :
  0 <= sn_start < M -> 0 <= so_start <= 65535 -> upto k b (key sn_start) so_start ->
  reports l k b (if out_of_report e sn_start then no_missing
                 else mk_missing sn_start so_start (last_reported_sn e) 65535 []).
Proof using Hc.
  intros Hs Hso Hu. pose proof (core_key_nonneg Hc _ Hs). rewrite out_of_report_key.
  destruct (Z.leb_spec hs (key sn_start)).
  - left. split; [done|]. eapply upto_weaken; [|done]. unfold pos_le. lia.
  - destruct (last_reported_key ltac:(lia)) as [Hlr Hlk]. right. split_and!; [|by left|done].
    constructor; part_simpl; rewrite ?Hlk; lia.
Qed.

(** missing from [sn_start] to the next PDU of the list *)
Lemma reports_between b cur next k c sn_start so_start :
  0 <= sn_start < M -> 0 <= so_start <= 65535 -> cur ∈ rx_list e ->
  pos_lt (key sn_start) so_start (key (pdu_sn cur)) (pdu_so cur) ->
  upto k c (key sn_start) so_start ->
  reports (b ++ cur :: next) k c
    (if out_of_report e sn_start then no_missing
     else set_end_different_sdu e sn_start so_start cur (cur :: next)).
Proof using Hc.
  intros Hs Hso Hin Hlt Hu. pose proof (core_key_nonneg Hc _ Hs). rewrite out_of_report_key.
  destruct (pdu_facts cur Hin) as (Hr & _ & _ & [Hp1 Hp2 Hp3 _ _ Hp4] & Hmax). unfold NR_SDU_MAX in Hmax.
  destruct (Z.leb_spec hs (key sn_start)).
  - left. split; [done|]. eapply upto_weaken; [|done]. unfold pos_le. lia.
  - destruct (set_end_ok b cur next sn_start so_start) as (H1 & H2 & H3 & H4); try done; [lia|].
    right. rewrite H1, H2. done.
Qed.

Lemma walk_order b cur cur' next lo max_so last_reached :
  walk b cur (cur' :: next) lo max_so last_reached -> pdu_le key cur cur'.
Proof using Hc.
  intros Hw. pose proof (buf_sorted _ _ _ (rx_buf _ _ Hc)) as Hs.
  rewrite (walk_list _ _ _ _ _ _ Hw) in Hs. apply StronglySorted_app_1_r in Hs.
  inversion Hs as [|? ? _ Hall]; subst. by inversion Hall.
Qed.

Lemma next_missing_loop_ok next : forall b cur lo max_so last_reached,
  walk b cur next lo max_so last_reached ->
  reports next (key (pdu_sn cur)) lo (next_missing_loop e cur next max_so last_reached).
Proof using Hc.
  induction next as [|cur' next IH]; intros b cur lo max_so lr Hw; cbn [next_missing_loop].
  all: pose proof (walk_partial Hw) as Hpart; pose proof (walk_full Hw) as Hfull.
  all: pose proof (walk_max' Hw) as Hmax; unfold NR_SDU_MAX in Hmax.
  all: destruct (pdu_facts cur (walk_in Hw)) as (Hr & Hk0 & Hk1 & _ & _).
  all: destruct (key_succ _ Hr Hk1) as [Hsr Hsk].
  all: set (max' := Z.max _ _) in *; set (last' := lr || _) in *.
  - destruct (pdu_data cur) as [d|] eqn:Ed; [destruct last' eqn:El|].
    all: apply reports_tail; rewrite ?Hsk; [done|lia|first [done|by apply Hfull; auto]].
  - pose proof (walk_order _ _ _ _ _ _ _ Hw) as Hle.
    assert (HL : rx_list e = (b ++ [cur]) ++ cur' :: next)
      by (rewrite <- app_assoc; apply (walk_list _ _ _ _ _ _ Hw)).
    assert (Hin' : cur' ∈ rx_list e) by (rewrite HL; apply elem_of_app; right; left).
    destruct (pdu_facts cur' Hin') as (Hr' & _ & _ & [Hso' Hsz' Hend' _ _ Hf'] & Hmx').
    unfold NR_SDU_MAX in Hmx'. pose proof (walk_lo _ _ _ _ _ _ Hw) as Hlo.
    destruct (Z.eqb_spec (pdu_sn cur') (pdu_sn cur)) as [Hsn|Hsn]; cbn [andb].
    + rewrite (proj2 (Z.eqb_neq (pdu_sn cur') _)) by (intros E; rewrite <- E, Hsn in Hsk; lia).
      cbn [andb]. destruct Hle as [Hlt|[_ Hle]]; [rewrite Hsn in Hlt; lia|].
      destruct (Z.leb_spec (pdu_so cur' - 1) max') as [Hgap|Hgap].
      * apply (reports_app next [cur']). rewrite <- Hsn. apply (IH (b ++ [cur])).
        constructor; [done|lia| |done|right; lia|]; rewrite Hsn.
        -- apply (walk_have' Hw).
        -- apply (walk_last' Hw).
      * rewrite out_of_report_key. destruct (Z.leb_spec hs (key (pdu_sn cur))).
        -- left. split; [done|]. eapply upto_weaken; [|done]. unfold pos_le. lia.
        -- right. part_simpl. split_and!; [constructor; part_simpl; lia| |done].
           right. exists cur', next, []. part_simpl. split_and!; [done|done|]. intros k so Hs.
           rewrite Hsn. unfold pos_lt, pos_le. lia.
    + destruct Hle as [Hlt|[Heq _]]; [|by rewrite Heq in Hsn].
      destruct (Z.eqb_spec (pdu_sn cur') ((pdu_sn cur + 1) %% M)) as [Hnext|Hnext]; cbn [andb];
        [destruct last' eqn:El; cbn [andb]; [destruct (pdu_is_first cur') eqn:Ef|]|destruct last' eqn:El].
      * apply (reports_trans next [cur'] _ _ (key (pdu_sn cur')) (pdu_so cur')).
        -- rewrite Hnext, Hsk. symmetry in Hf'. bool_prop. rewrite Hf'. apply Hfull. by left.
        -- apply (IH (b ++ [cur])). by apply walk_start.
      * apply (reports_between []); [done|lia|done| |rewrite Hsk; apply Hfull; by left].
        rewrite Hnext. symmetry in Hf'. bool_prop. unfold pos_lt. lia.
      * apply (reports_between []); [done|lia|done|unfold pos_lt; lia|done].
      * apply (reports_between []); [done|lia|done| |rewrite Hsk; apply Hfull; by left].
        assert (key (pdu_sn cur') <> key (pdu_sn cur) + 1); [|unfold pos_lt; lia].
        rewrite <- Hsk. intros E. by apply Hnext, key_eq.
      * apply (reports_between []); [done|lia|done|unfold pos_lt; lia|done].
Qed.

(** one call: the search starts before the list, or at its head *)
Lemma next_missing_ok b cur next (check_head : bool) :
  rx_list e = b ++ cur :: next -> (check_head = true -> b = []) ->
  reports (if check_head then cur :: next else next)
    (if check_head then 0 else key (pdu_sn cur)) (if check_head then 0 else pdu_so cur)
    (next_missing e cur next check_head).
Proof using Hc.
  intros HL Hb. unfold next_missing. pose proof (walk_start _ _ _ HL) as Hw.
  pose proof (next_missing_loop_ok _ _ _ _ _ _ Hw) as Hloop.
  destruct check_head; cbn [andb]; [|done].
  destruct (pdu_facts cur (walk_in Hw)) as (Hr & Hk0 & _ & [Hso _ _ _ _ Hf] & _).
  pose proof (rx_next_range _ _ Hc) as Hrn.
  assert (Hkn : key (rx_next e) = 0) by (unfold modulus_rx; by rewrite Z.sub_diag).
  destruct (Z.eqb_spec (pdu_sn cur) (rx_next e)) as [Hsn|Hsn]; cbn [negb orb].
  - rewrite Hsn, Hkn in Hloop. rewrite Hf. destruct (Z.eqb_spec (pdu_so cur) 0) as [H0|H0]; cbn [negb].
    + rewrite H0 in Hloop. by apply (reports_app next [cur]).
    + apply (reports_between []); [done|lia|by apply (walk_in Hw)| |rewrite Hkn; apply upto_refl].
      rewrite Hsn, Hkn. unfold pos_lt. lia.
  - apply (reports_between []); [done|lia|by apply (walk_in Hw)| |rewrite Hkn; apply upto_refl].
    rewrite Hkn. assert (key (pdu_sn cur) <> 0); [|unfold pos_lt; lia].
    rewrite <- Hkn. intros E. by apply Hsn, key_eq.
Qed.
End missing.
