(* ===== verification/RlcAmStatusSpec.v ===== *)
(** STATUS reports of an acknowledged-mode receiver: the report fits the grant,
    has the size announced in the buffer status, and NACKs every byte that is
    missing below its ACK_SN. *)

From stdpp Require Import base tactics list numbers gmap.
From Stdlib Require Import ZArith Lia Sorted.
From S2P Require Import Prelude TimeStat RlcPdu RlcSdu RlcEntity RlcRxList.
From S2P Require Import RlcAmState RlcAmRx RlcAmControl RlcAmRxInv RlcAmRxSpec.
From S2P Require Import RlcAmWire RlcAmTransfer RlcAmStatus RlcAmStatusBits RlcAmMissing.

(** ** What a block says *)

(** block [b] reports byte [so] of SDU [sn] missing; SOstart is for the first
    SDU of the range, SOend for the last, and 65535 is the end of the SDU *)
Definition nacks (M : Z) (b : nack) (sn so : Z) : Prop :=
  exists i, 0 <= i < nk_count b /\ sn = (nk_sn b + i) %% M /\
    (nk_e2 b = true -> i = 0 -> nk_so_start b <= so) /\
    (nk_e2 b = true -> i = nk_count b - 1 -> nk_so_end b = 65535 \/ so <= nk_so_end b).

Lemma nacks_to_end M b sn so : nacks M b sn so -> nacks M (set_so_end 65535 b) sn so.
Proof. intros (i & Hi & Hsn & Hs & _). exists i. split_and!; [apply Hi|apply Hi|done|done|by left]. Qed.

Section status.
Context {S : sdu_map} {e : nr_rlc_entity_am_t} (Hc : am_rx_core S e).
Context (Hl : sn_len_ok (sn_field_length e)) (HM : sn_modulus e = 2 ^ sn_field_length e).
Abbreviation M := (sn_modulus e).
Abbreviation key := (modulus_rx e).
Abbreviation hs := (modulus_rx e (rx_highest_status e)).
Abbreviation snlen := (sn_field_length e).

(** byte [so] of [sn] is in part [m] *)
Definition in_part (m : missing_data_t) (sn so : Z) : Prop :=
  key (m_sn_start m) <= key sn <= key (m_sn_end m) /\
  (key sn = key (m_sn_start m) -> m_so_start m <= so) /\
  (key sn = key (m_sn_end m) -> m_so_end m = 65535 \/ so <= m_so_end m).

Lemma M_large : 255 < M.
Proof using Hl HM. rewrite HM. destruct Hl as [-> | ->]; lia. Qed.

(** ** A range of at most 255 SNs *)

Section cut.
Context {m : missing_data_t} (Hm : part_ok (e := e) m).
Context (sn_start sn_count : Z) (Hs : 0 <= sn_start < M) (Hge : key (m_sn_start m) <= key sn_start).
Context (Hcount : sn_count = key (m_sn_end m) - key sn_start + 1) (Hpos : 0 < sn_count).
Let c := (cut_range e m sn_start sn_count).1.
Let n := (cut_range e m sn_start sn_count).2.
Let b := nack_of n c.

Lemma cut_count : c = Z.min 255 sn_count.
Proof using Type. unfold c, cut_range. destruct (Z.ltb_spec 255 sn_count); case_match; simpl; lia. Qed.

Lemma cut_same : m_sn_start n = sn_start /\ (m_sn_end n = sn_start <-> c = 1).
Proof using Hc Hl HM Hm Hs Hge Hcount Hpos.
  pose proof M_large. pose proof (hs_key Hc) as [Hh1 Hh2]. destruct Hm as [Hm1 Hm2 Hm3 _ _ _].
  unfold c, n, cut_range. destruct (Z.ltb_spec 255 sn_count).
  - rewrite (proj2 (Z.eqb_neq 255 sn_count)) by lia. simpl. split; [done|].
    split; [|lia]. intros E. destruct (key_add Hc sn_start 254 Hs ltac:(lia) ltac:(lia)) as [_ Hk].
    rewrite E in Hk. lia.
  - rewrite Z.eqb_refl. simpl. split; [done|]. split.
    + intros E. rewrite E in Hcount. lia.
    + intros E. eapply (key_eq Hc); [done|done|lia].
Qed.

Lemma cut_sos :
  (m_so_start n = if sn_start =? m_sn_start m then m_so_start m else 0) /\
  m_so_end n = (if c =? sn_count then m_so_end m else 65535).
Proof using Type.
  unfold c, n, cut_range. destruct (255 <? sn_count);
    [destruct (255 =? sn_count) eqn:E|destruct (sn_count =? sn_count) eqn:E]; cbn [fst snd m_so_start m_so_end]; by rewrite ?E.
Qed.

Lemma cut_nack : nk_sn b = sn_start /\ nk_count b = c /\ nk_so_start b = m_so_start n /\
  nk_so_end b = m_so_end n /\ nk_range b = c.
Proof using Hc Hl HM Hm Hs Hge Hcount Hpos.
  destruct cut_same as [Hst Hsame]. unfold b, nk_count, nack_of, nack_e2_e3. rewrite Hst.
  destruct (Z.eqb_spec sn_start (m_sn_end n)) as [E|E], (_ && _); cbn; split_and!; try done;
    symmetry; apply Hsame; congruence.
Qed.

Lemma cut_ok : nack_ok snlen b.
Proof using Hc Hl HM Hm Hs Hge Hcount Hpos.
  destruct cut_nack as (H1 & _ & H2 & H3 & H4). destruct cut_sos as [H5 H6]. pose proof cut_count.
  destruct Hm as [_ _ _ Hso Hse _]. constructor.
  - by rewrite H1, <- HM.
  - rewrite H2, H5. destruct (sn_start =? _); lia.
  - rewrite H3, H6. destruct (c =? _); lia.
  - lia.
Qed.

(** an SN of the range, by its index *)
Lemma cut_index sn :
  0 <= sn < M -> key sn_start <= key sn < key sn_start + c ->
  sn = (sn_start + (key sn - key sn_start)) %% M.
Proof using Hc Hm Hs.
  intros Hsn Hk. pose proof (core_key_nonneg Hc _ Hsn).
  destruct (key_add Hc sn_start (key sn - key sn_start) Hs ltac:(lia) ltac:(lia)) as [Hr He].
  eapply (key_eq Hc); [done|done|lia].
Qed.

Lemma cut_nacks sn so :
  0 <= sn < M -> 0 <= so -> key sn_start <= key sn < key sn_start + c -> in_part m sn so ->
  nacks M b sn so.
Proof using Hc Hl HM Hm Hs Hge Hcount Hpos.
  intros Hsn Hso Hk (_ & Hp1 & Hp2). destruct cut_nack as (H1 & H2 & H3 & H4 & _).
  destruct cut_sos as [H5 H6]. exists (key sn - key sn_start).
  rewrite H1, H2, H3, H4, H5, H6. split_and!; [lia|lia|by apply cut_index| |].
  - intros _ Hi. destruct (Z.eqb_spec sn_start (m_sn_start m)) as [E|]; [|done].
    apply Hp1. rewrite <- E. lia.
  - intros _ Hi. destruct (Z.eqb_spec c sn_count); [|by left]. apply Hp2. lia.
Qed.

Lemma cut_last sn so :
  0 <= sn < M -> 0 <= so -> key sn = key sn_start + c - 1 ->
  (key sn = key (m_sn_start m) -> m_so_start m <= so) -> nacks M (set_so_end 65535 b) sn so.
Proof using Hc Hl HM Hm Hs Hge Hcount Hpos.
  intros Hsn Hso Hk Hp1. destruct cut_nack as (H1 & H2 & H3 & H4 & _). pose proof cut_count.
  destruct cut_sos as [H5 H6]. exists (key sn - key sn_start).
  change (nk_count (set_so_end 65535 b)) with (nk_count b).
  cbn [set_so_end nk_sn nk_e2 nk_so_start nk_so_end].
  rewrite H1, H2, H3, H5. split_and!; [lia|lia|apply cut_index; [done|lia]| |by left].
  intros _ Hi. destruct (Z.eqb_spec sn_start (m_sn_start m)) as [E|]; [|done]. apply Hp1. rewrite <- E. lia.
Qed.
End cut.

(** ** The blocks of one part *)

(** [new] reports part [m] from distance [k0] to below [kf] *)
Record made (m : missing_data_t) (k0 kf : Z) (new : list nack) : Prop := mk_made {
  made_ok : Forall (nack_ok snlen) new;
  made_range : k0 <= kf <= key (m_sn_end m) + 1;
  made_covers : forall sn so, 0 <= sn < M -> 0 <= so -> k0 <= key sn < kf -> in_part m sn so ->
    Exists (fun b => nacks M b sn so) new;
  made_last : forall sn so b, last new = Some b -> 0 <= sn < M -> 0 <= so -> key sn = kf - 1 ->
    (key sn = key (m_sn_start m) -> m_so_start m <= so) -> nacks M (set_so_end 65535 b) sn so;
  made_none : new = [] -> kf = k0
}.

Lemma made_nil m k0 : k0 <= key (m_sn_end m) + 1 -> made m k0 k0 [].
Proof using Type. intros Hk. constructor; [constructor|lia|lia|done|done]. Qed.

Section parts.
Context {m : missing_data_t} (Hm : part_ok (e := e) m) (N : nat).

Lemma made_cons sn_start sn_count kf new :
  0 <= sn_start < M -> key (m_sn_start m) <= key sn_start ->
  sn_count = key (m_sn_end m) - key sn_start + 1 -> 0 < sn_count ->
  let '(c, n) := cut_range e m sn_start sn_count in
  made m (key sn_start + c) kf new -> made m (key sn_start) kf (nack_of n c :: new).
Proof using Hc Hl HM Hm.
  intros Hs Hge Hcnt Hpos.
  pose proof (cut_count (m := m) sn_start sn_count) as Hcc.
  pose proof (cut_ok Hm sn_start sn_count Hs Hge Hcnt Hpos) as Hok.
  pose proof (cut_nacks Hm sn_start sn_count Hs Hge Hcnt Hpos) as Hnk.
  pose proof (cut_last Hm sn_start sn_count Hs Hge Hcnt Hpos) as Hlast.
  destruct (cut_range e m sn_start sn_count) as [c n]. cbn [fst snd] in *.
  intros [H1 H2 H3 H4 H5]. constructor; [by constructor|lia| | |done].
  - intros sn so Hsn Hso Hk Hp. destruct (Z.lt_ge_cases (key sn) (key sn_start + c)).
    + left. by apply Hnk; [..|lia|].
    + right. by apply H3; [..|lia|].
  - intros sn so b Hb Hsn Hso Hk Hp. destruct new as [|b' new].
    + injection Hb as <-. specialize (H5 eq_refl). by apply Hlast; [..|lia|].
    + by apply H4.
Qed.

(** one block written *)
Lemma add_block bs g n c :
  status_repr snlen N bs g -> status_len snlen bs + nack_size e n <= Z.of_nat N ->
  exists buf b buf' g', g_encoder g = enc_at buf (status_len snlen bs) /\ zlen buf = Z.of_nat N /\
    rd buf (g_e1_byte g) = Ret b /\
    wr buf (g_e1_byte g) (Z.land (Z.lor b (Z.shiftl 1 (g_e1_bit g))) 255) = Ret buf' /\
    (let enc := g_encoder g <| enc_buffer := buf' |> in
     let '(e1_byte, e1_bit) := get_e1_position e enc in
     exists enc' a, put_nack e enc n c = Ret (enc', a) /\
       g' = mk_gen enc' e1_byte e1_bit (g_truncated g) a) /\
    status_repr snlen N (bs ++ [nack_of n c]) g'.
Proof using Hl.
  intros Hr Hfit. pose proof Hr as [(buf & Henc & Hbuf & _ & _) _ _].
  destruct (set_e1_ok _ _ _ _ _ Hl Hr Henc) as (b & buf' & Hrd & Hwr & Hlen & Hbits).
  pose proof (status_len_pos snlen bs).
  assert (Hz : zlen buf' = Z.of_nat N) by (unfold zlen; lia).
  destruct (put_nack_ok e buf' (status_len snlen bs) n c Hl ltac:(lia) ltac:(lia))
    as ([enc' a] & Hput & buf2 & -> & Hlen2 & Hbits2 & Ha).
  exists buf, b, buf'.
  exists (mk_gen (enc_at buf2 (status_len snlen bs + nack_size e n))
            (status_len snlen bs + (if snlen =? 18 then 2 else 1))
            (if snlen =? 18 then 5 else 3) (g_truncated g) a).
  split_and!; [done|unfold zlen; lia|done|done| |].
  - rewrite Henc. replace (enc_at buf (status_len snlen bs) <| enc_buffer := buf' |>)
      with (enc_at buf' (status_len snlen bs)) by (unfold enc_at, zlen; by rewrite Hlen).
    unfold get_e1_position. destruct (snlen =? 18); eexists _, _; (split; [exact Hput|reflexivity]).
  - apply block_added; [done|congruence|done|unfold zlen in *; lia| |done].
    by rewrite Hbits2, Hbits.
Qed.

(** how [generate_missing] and [missing_size] end, [bs] being written already
    and [ln] the last NACK so far: the same blocks, the same continuation *)
Record generated (bs : list nack) (k0 ln : Z) (new : list nack) (kf ln' : Z)
    (next : list nr_rlc_pdu_t) (g' : gen_state) : Prop := mk_generated {
  gen_repr : status_repr snlen N (bs ++ new) g';
  gen_made : made m k0 kf new;
  gen_none : new = [] -> ln' = ln;
  gen_some : new <> [] -> 0 <= ln' /\ 0 <= (ln' + 1) %% M < M /\ key ((ln' + 1) %% M) = kf;
  gen_next : if g_truncated g' then next = [] /\ kf <= key (m_sn_end m)
    else next = m_next m /\ kf = key (m_sn_end m) + 1
}.

Lemma generated_none bs k ln next g :
  status_repr snlen N bs g -> k <= key (m_sn_end m) + 1 ->
  (if g_truncated g then next = [] /\ k <= key (m_sn_end m)
   else next = m_next m /\ k = key (m_sn_end m) + 1) ->
  generated bs k ln [] k ln next g.
Proof using Type. intros Hr Hk Hn. constructor; [by rewrite app_nil_r|by apply made_nil|done|done|done]. Qed.

(** a flag is no part of the representation *)
Lemma repr_truncated bs g t :
  status_repr snlen N bs g -> status_repr snlen N bs (g <| g_truncated := t |>).
Proof using Type. intros [H1 H2 H3]. constructor; [exact H1|exact H2|exact H3]. Qed.

Lemma generate_missing_loop_ok fuel : forall sn_start sn_count bs g ln rc,
  status_repr snlen N bs g -> g_truncated g = false -> 0 <= sn_start < M ->
  key (m_sn_start m) <= key sn_start -> sn_count = key (m_sn_end m) - key sn_start + 1 ->
  0 <= sn_count <= 255 * Z.of_nat fuel ->
  exists new kf ln' next g',
    generate_missing_loop fuel e m sn_start sn_count ln g = Ret (ln', next, g') /\
    missing_size_loop fuel e m sn_start sn_count rc (status_len snlen bs) (Z.of_nat N)
    = Ret (rc + zlen new, next, status_len snlen (bs ++ new)) /\
    generated bs (key sn_start) ln new kf ln' next g'.
Proof using Hc Hl HM Hm.
  induction fuel as [|fuel IH]; intros sn_start sn_count bs g ln rc Hr Ht Hs Hge Hcnt Hf;
    cbn [generate_missing_loop missing_size_loop]; (destruct (Z.eqb_spec sn_count 0) as [H0|H0]; [|]).
  1,3: exists [], (key sn_start), ln, (m_next m), g; rewrite app_nil_r, Z.add_0_r;
    split_and!; [done|done|apply generated_none; [done|lia|rewrite Ht; split; [done|lia]]].
  { lia. }
  pose proof (cut_count (m := m) sn_start sn_count) as Hcc.
  pose proof (made_cons sn_start sn_count) as Hcons.
  destruct (cut_nack Hm sn_start sn_count Hs Hge Hcnt ltac:(lia)) as (_ & Hnc & _).
  destruct (cut_range e m sn_start sn_count) as [c n]. cbn [fst snd] in *.
  pose proof Hr as [(buf0 & Henc0 & Hb0 & Hfit0 & _) _ _].
  rewrite (nack_field_size_eq e n Hl). rewrite Henc0.
  change (enc_size (enc_at buf0 ?q)) with (zlen buf0). change (enc_byte (enc_at buf0 ?q)) with q.
  change (enc_buffer (enc_at buf0 ?q)) with buf0.
  assert (Hz : zlen buf0 = Z.of_nat N) by (unfold zlen; lia). rewrite Hz.
  destruct (Z.ltb_spec (Z.of_nat N) (status_len snlen bs + nack_size e n)) as [Hfull|Hroom].
  { exists [], (key sn_start), ln, [], (g <| g_truncated := true |>). rewrite app_nil_r, Z.add_0_r.
    split_and!; [done|done|]. apply generated_none; [by apply repr_truncated|lia|split; [done|lia]]. }
  destruct (add_block bs g n c Hr Hroom) as (buf & b & buf' & g1 & Henc & _ & Hrd & Hwr & Hput & Hr1).
  rewrite Henc in Henc0. injection Henc0 as ->. rewrite Hrd, bind_Ret_l, Hwr, bind_Ret_l.
  rewrite Henc in Hput. cbv zeta in Hput |- *. destruct (get_e1_position e _) as [e1_byte e1_bit].
  destruct Hput as (enc' & a & -> & ->). rewrite bind_Ret_l.
  replace (if (nack_e2_e3 n).2 then sn_start + c - 1 else sn_start) with (sn_start + c - 1)
    by (revert Hnc; unfold nk_count, nack_of; destruct (nack_e2_e3 n) as [? []]; cbn; lia).
  pose proof (hs_key Hc) as [Hh1 Hh2]. pose proof (part_order _ Hm) as Hpo.
  destruct (key_add Hc sn_start c Hs ltac:(lia) ltac:(lia)) as [Hs' Hk'].
  destruct (IH ((sn_start + c) %% M) (sn_count - c) (bs ++ [nack_of n c])
              (mk_gen enc' e1_byte e1_bit (g_truncated g) a) (sn_start + c - 1) (rc + 1))
    as (new & kf & ln' & next & g' & Hgen & Hsize & [Hrep Hmade Hnone Hsome Hnext]);
    [done|done|done|lia|lia|lia|].
  rewrite Hk' in Hmade. rewrite status_len_snoc, <- nack_size_bytes in Hsize. rewrite <- app_assoc in *.
  exists (nack_of n c :: new), kf, ln', next, g'. split_and!; [exact Hgen| |].
  - rewrite Hsize, zlen_cons. do 2 f_equal. f_equal. lia.
  - constructor; [done|by apply Hcons; [..|lia|]|done| |done]. intros _.
    destruct new as [|b' new]; [|by apply Hsome]. rewrite (Hnone eq_refl).
    replace (sn_start + c - 1 + 1) with (sn_start + c) by lia. rewrite (made_none _ _ _ _ Hmade eq_refl).
    split_and!; [lia|lia|lia|done].
Qed.

Lemma missing_count : missing_sn_count e m = key (m_sn_end m) - key (m_sn_start m) + 1.
Proof using Hc HM Hm.
  pose proof (rx_next_range _ _ Hc). destruct Hm as [Hs He Ho _ _ _]. unfold missing_sn_count. f_equal.
  rewrite rem_mod by lia. unfold modulus_rx in *. symmetry.
  destruct (Z.leb_spec (m_sn_start m) (m_sn_end m));
    [apply (Z.mod_unique _ _ 1)|apply (Z.mod_unique _ _ 0)]; repeat case_match; bool_prop; lia.
Qed.

Lemma generate_missing_ok bs g :
  status_repr snlen N bs g -> g_truncated g = false ->
  exists new kf ln' next g',
    generate_missing e m g = Ret (ln', next, g') /\
    missing_size e m (status_len snlen bs) (Z.of_nat N)
    = Ret (zlen new, next, status_len snlen (bs ++ new)) /\
    generated bs (key (m_sn_start m)) (-1) new kf ln' next g'.
Proof using Hc Hl HM Hm.
  intros Hr Ht. unfold generate_missing, missing_size. rewrite missing_count.
  destruct Hm as [Hs He Ho _ _ _].
  apply (generate_missing_loop_ok _ _ _ _ _ (-1) 0); [done|done|done|lia|done|].
  unfold range_fuel. pose proof (Z.div_mod (key (m_sn_end m) - key (m_sn_start m) + 1) 255).
  pose proof (Z.mod_pos_bound (key (m_sn_end m) - key (m_sn_start m) + 1) 255). lia.
Qed.
End parts.

(** ** The whole report *)

(** byte [so] of [sn] is not in the reception list *)
Definition lacks (sn so : Z) : Prop := valid (S := S) (e := e) sn so /\ ~ have (rx_list e) sn so.

Definition reported (bs : list nack) (sn so : Z) : Prop := Exists (fun b => nacks M b sn so) bs.

(** the state of the loop: everything missing before position [kF]/[bF] is
    reported, and the last block is for the SN before the one ACK_SN will be *)
Record progress (bs : list nack) (last_nack kF bF : Z) : Prop := mk_progress {
  pr_ok : Forall (nack_ok snlen) bs;
  pr_ack : 0 <= (last_nack + 1) %% M < M /\ key ((last_nack + 1) %% M) <= hs;
  pr_near : key ((last_nack + 1) %% M) - 1 <= kF;
  pr_reported : forall sn so, lacks sn so -> pos_lt (key sn) so kF bF -> reported bs sn so;
  pr_last : forall sn so, lacks sn so -> key sn = key ((last_nack + 1) %% M) - 1 ->
    pos_le kF bF (key sn) so ->
    exists b, last bs = Some b /\ nacks M (set_so_end 65535 b) sn so
}.

(** the report is complete below ACK_SN *)
Record complete (bs : list nack) (last_nack : Z) : Prop := mk_complete {
  cp_ok : Forall (nack_ok snlen) bs;
  cp_ack : 0 <= (last_nack + 1) %% M < M /\ key ((last_nack + 1) %% M) <= hs;
  cp_reported : forall sn so, lacks sn so -> key sn < key ((last_nack + 1) %% M) -> reported bs sn so
}.

Lemma lacks_so sn so : lacks sn so -> 0 <= sn < M /\ 0 <= so <= 65535.
Proof using Hc.
  intros [[Hsn Hso] _]. pose proof (rx_sdu_len _ _ Hc sn) as Hlen. unfold NR_SDU_MAX in Hlen. lia.
Qed.

(** nothing is missing from the position reached on *)
Lemma progress_done bs last_nack kF bF :
  progress bs last_nack kF bF -> upto (S := S) (e := e) kF bF hs 0 -> complete bs last_nack.
Proof using Hc.
  intros [H1 H2 _ H4 _] Hu. constructor; [done|done|]. intros sn so Hla Hk.
  destruct (decide (pos_lt (key sn) so kF bF)) as [Hlt|Hge]; [by apply H4|].
  exfalso. pose proof (lacks_so _ _ Hla). destruct Hla as [Hv Hnot]. apply Hnot, Hu; [done|..];
    unfold pos_lt, pos_le in *; lia.
Qed.

Lemma reported_app bs new sn so : reported bs sn so -> reported (bs ++ new) sn so.
Proof using Type. unfold reported. rewrite Exists_app. auto. Qed.

(** a part completely reported takes the loop to the next position *)
Lemma progress_part bs new m last_nack ln' kF bF kF' bF' :
  progress bs last_nack kF bF -> part_ok (e := e) m -> made m (key (m_sn_start m)) (key (m_sn_end m) + 1) new ->
  0 <= (ln' + 1) %% M < M -> key ((ln' + 1) %% M) = key (m_sn_end m) + 1 ->
  upto (S := S) (e := e) kF bF (key (m_sn_start m)) (m_so_start m) ->
  (forall k so, 0 <= so <= 65535 -> pos_lt (key (m_sn_end m)) (m_so_end m) k so <-> pos_le kF' bF' k so) ->
  0 <= bF' <= 65535 -> progress (bs ++ new) ln' kF' bF'.
Proof using Hc.
  intros [H1 H2 H3 H4 H5] Hm [Hok _ Hcov Hlast Hnone] Hr Hk Hu Hgo Hb'.
  pose proof (part_order _ Hm). pose proof (part_nonempty _ Hm) as Hne.
  assert (Hnew : new <> []) by (intros ->; specialize (Hnone eq_refl); lia).
  constructor.
  - by apply Forall_app.
  - rewrite Hk. lia.
  - rewrite Hk. destruct (Hgo kF' bF' Hb') as [_ Hx]. unfold pos_lt, pos_le in Hx. lia.
  - intros sn so Hla Hlt. destruct (lacks_so _ _ Hla) as [Hsn Hso].
    destruct (decide (pos_lt (key sn) so kF bF)); [by apply reported_app, H4|].
    destruct (decide (pos_lt (key sn) so (key (m_sn_start m)) (m_so_start m))) as [Hb|Hb].
    { exfalso. destruct Hla as [Hv Hnot]. apply Hnot, Hu; [done| |done]. unfold pos_lt, pos_le in *; lia. }
    apply Exists_app. right. pose proof (Hgo (key sn) so Hso) as Hx. unfold pos_lt, pos_le in *.
    apply Hcov; [done|lia|lia|]. unfold in_part. lia.
  - intros sn so Hla Hks Hge. destruct (lacks_so _ _ Hla) as [Hsn Hso].
    destruct new as [|b0 new _] using rev_ind; [done|].
    exists b0. split; [by rewrite app_assoc, last_snoc|].
    apply Hlast; [by rewrite last_snoc|done|lia|lia|].
    intros Hks'. apply (Hgo _ _ Hso) in Hge. unfold pos_lt in Hge. lia.
Qed.

(** after a truncation the last block reports the rest of its last SDU *)
Lemma force_reports N bs g :
  status_repr snlen N bs g -> g_truncated g = true -> Forall (nack_ok snlen) bs ->
  exists bs' g', force_so_end g = Ret g' /\ status_repr snlen N bs' g' /\
    Forall (nack_ok snlen) bs' /\ status_len snlen bs' = status_len snlen bs /\
    (forall sn so, reported bs sn so -> reported bs' sn so) /\
    (forall b sn so, last bs = Some b -> nacks M (set_so_end 65535 b) sn so -> reported bs' sn so).
Proof using Hl.
  intros Hr Ht Hok. destruct bs as [|b bs _] using rev_ind.
  { exists [], g. unfold force_so_end. rewrite (sr_so_end _ _ _ _ Hr), Ht. done. }
  destruct (nk_e2 b) eqn:E2.
  - destruct (force_so_end_ok _ _ _ _ _ Hl Hr E2 Ht) as (g' & Hf & Hr').
    exists (bs ++ [set_so_end 65535 b]), g'. apply Forall_app in Hok as [Hok Hb]. inversion Hb as [|? ? [] _]; subst.
    split_and!; [done|done| |by rewrite !status_len_snoc| |].
    + apply Forall_app. split; [done|]. constructor; [|done]. constructor; cbn; lia || done.
    + intros sn so [Hx|Hx]%Exists_app; apply Exists_app; [by left|right].
      left. apply nacks_to_end. by inversion Hx as [? ? Hn|? ? Hn]; [|inversion Hn].
    + intros b' sn so. rewrite last_snoc. intros [= <-] Hn. apply Exists_app. right. by left.
  - exists (bs ++ [b]), g. unfold force_so_end. rewrite (sr_so_end _ _ _ _ Hr). unfold so_end_addr.
    rewrite last_snoc, E2, Ht. split_and!; [done|done|done|done|done|].
    intros b' sn so [= <-] (i & Hi & Hsn & _ & _).
    apply Exists_app. right. left. exists i. by rewrite E2.
Qed.

(** a part reported up to [kf]: what is missing before ACK_SN is reported *)
Lemma complete_truncated bs new bs' m last_nack ln' kF bF kf :
  progress bs last_nack kF bF -> part_ok (e := e) m -> made m (key (m_sn_start m)) kf new ->
  kf <= key (m_sn_end m) -> upto (S := S) (e := e) kF bF (key (m_sn_start m)) (m_so_start m) ->
  (new = [] -> ln' = -1) -> (new <> [] -> 0 <= ln' /\ 0 <= (ln' + 1) %% M < M /\ key ((ln' + 1) %% M) = kf) ->
  Forall (nack_ok snlen) bs' -> (forall sn so, reported (bs ++ new) sn so -> reported bs' sn so) ->
  (forall b sn so, last (bs ++ new) = Some b -> nacks M (set_so_end 65535 b) sn so -> reported bs' sn so) ->
  complete bs' (if negb (ln' =? -1) then ln' else last_nack).
Proof using Hc.
  intros [H1 H2 H3 H4 H5] Hm [Hok Hrng Hcov Hlast Hnone] Hkf Hu Hl0 Hl1 Hok' Hrep Hto.
  pose proof (part_order _ Hm). destruct (decide (new = [])) as [->|Hnew].
  - rewrite (Hl0 eq_refl), Z.eqb_refl. cbn [negb]. constructor; [done|done|]. intros sn so Hla Hk.
    destruct (lacks_so _ _ Hla) as [Hsn Hso]. rewrite app_nil_r in *.
    destruct (decide (pos_lt (key sn) so kF bF)) as [Hlt|Hge]; [by apply Hrep, H4|].
    destruct (H5 sn so Hla) as (b & Hb & Hn); [unfold pos_lt in *; lia|unfold pos_lt, pos_le in *; lia|].
    by eapply Hto.
  - destruct (Hl1 Hnew) as (Hge0 & Hr & Hk). rewrite (proj2 (Z.eqb_neq ln' (-1))) by lia. cbn [negb].
    constructor; [done|lia|]. intros sn so Hla Hks. apply Hrep.
    destruct (lacks_so _ _ Hla) as [Hsn Hso].
    destruct (decide (pos_lt (key sn) so kF bF)); [by apply reported_app, H4|].
    destruct (decide (pos_lt (key sn) so (key (m_sn_start m)) (m_so_start m))) as [Hb|Hb].
    { exfalso. destruct Hla as [Hv Hnot]. apply Hnot, Hu; [done| |done]. unfold pos_lt, pos_le in *; lia. }
    apply Exists_app. right. unfold pos_lt in *. apply Hcov; [done|lia|lia|]. unfold in_part. lia.
Qed.

(** ** The loop over the reception list *)

(** where the loop goes on after a part has been reported *)
Lemma next_position b p next (check : bool) m bs new last_nack ln' kF bF :
  rx_list e = b ++ p :: next -> part_ok (e := e) m ->
  goes_on (e := e) (if check then p :: next else next) m ->
  progress bs last_nack kF bF -> upto (S := S) (e := e) kF bF (key (m_sn_start m)) (m_so_start m) ->
  made m (key (m_sn_start m)) (key (m_sn_end m) + 1) new ->
  0 <= (ln' + 1) %% M < M -> key ((ln' + 1) %% M) = key (m_sn_end m) + 1 ->
  (exists b', rx_list e = b' ++ m_next m) /\
  (length (m_next m) <= length next + (if check then 1 else 0))%nat /\
  match m_next m with
  | [] => complete (bs ++ new) ln'
  | p' :: _ => progress (bs ++ new) ln' (key (pdu_sn p')) (pdu_so p')
  end.
Proof using Hc.
  intros HL Hm Hgo Hp Hu Hmade Hlr Hlk.
  destruct Hgo as [(Hn & Hke & Hse)|(p' & l' & c & Hn & Hsuf & Hgo)]; rewrite Hn.
  - split; [exists (rx_list e); by rewrite app_nil_r|]. split; [simpl; lia|].
    apply (progress_done _ _ hs 0); [|apply upto_refl].
    eapply progress_part; [exact Hp|done|done|done|done|done| |lia].
    intros k so Hso. rewrite Hke, Hse. unfold pos_lt, pos_le. lia.
  - assert (HL' : rx_list e = (b ++ (if check then c else p :: c)) ++ p' :: l').
    { rewrite HL, <- app_assoc. destruct check; [by rewrite Hsuf|]. cbn. by rewrite Hsuf. }
    split; [by eexists|]. split.
    { pose proof (f_equal length Hsuf) as Hlen. rewrite length_app in Hlen. destruct check; simpl in *; lia. }
    assert (Hin : p' ∈ rx_list e) by (rewrite HL'; apply elem_of_app; right; left).
    destruct (pdu_facts Hc p' Hin) as (_ & _ & _ & [Hp1 Hp2 Hp3 _ _ _] & Hmx). unfold NR_SDU_MAX in Hmx.
    by eapply progress_part; [exact Hp|..|lia].
Qed.

Lemma status_loop_ok N fuel : forall b l (check_head : bool) last_nack g bs,
  rx_list e = b ++ l -> (check_head = true -> b = [] /\ bs = []) -> (check_head = false -> bs <> []) ->
  (length l + (if check_head then 1 else 0) <= fuel)%nat -> status_repr snlen N bs g ->
  match l with
  | [] => complete bs last_nack
  | p :: _ => progress bs last_nack (if check_head then 0 else key (pdu_sn p))
                (if check_head then 0 else pdu_so p)
  end ->
  exists bs' last' g',
    status_loop fuel e l check_head last_nack g = Ret (last', g') /\
    status_size_loop fuel e l (zlen bs) (status_len snlen bs) (Z.of_nat N) = Ret (status_len snlen bs') /\
    status_repr snlen N bs' g' /\ complete bs' last'.
Proof using Hc Hl HM.
  induction fuel as [|fuel IH]; intros b l check last_nack g bs HL Hch Hch' Hf Hr Hp;
    (destruct l as [|p next]; [by exists bs, last_nack, g|]); [simpl in Hf; lia|].
  cbn [status_loop status_size_loop].
  replace (zlen bs =? 0) with check
    by (destruct check; [by destruct (Hch eq_refl) as [_ ->]|by destruct bs; [destruct (Hch' eq_refl)|]]).
  pose proof (next_missing_ok Hc b p next check HL (fun E => proj1 (Hch E))) as Hrep.
  set (m := next_missing e p next check) in *.
  destruct Hrep as [[Hm Hu]|(Hm & Hgo & Hu)].
  { rewrite Hm. cbn. exists bs, last_nack, g. split_and!; [done|done|done|]. by eapply progress_done. }
  rewrite (proj2 (Z.eqb_neq (m_sn_start m) (-1))) by (pose proof (part_start _ Hm); lia).
  destruct (generate_missing_ok Hm N bs (g <| g_truncated := false |>))
    as (new & kf & ln' & nxt & g1 & Hgen & Hsize & [Hr1 Hmade Hnone Hsome Hnext]).
  { by apply repr_truncated. }
  { done. }
  rewrite Hgen, Hsize, !bind_Ret_l. rewrite <- zlen_app.
  destruct (g_truncated g1) eqn:Et.
  - destruct Hnext as [-> Hkf].
    destruct (force_reports N (bs ++ new) g1 Hr1 Et) as (bs' & g2 & Hfo & Hr2 & Hok2 & Hlen2 & Hmono & Hto).
    { apply Forall_app. split; [apply Hp|apply Hmade]. }
    rewrite Hfo, bind_Ret_l. destruct fuel; (exists bs'; eexists _, g2; split_and!; [reflexivity| |done|];
      [cbn; by rewrite Hlen2|]; by eapply complete_truncated).
  - destruct Hnext as [-> ->].
    replace (force_so_end g1) with (Ret g1) by (unfold force_so_end; by rewrite Et). rewrite bind_Ret_l.
    assert (Hnew : new <> []) by (intros E; pose proof (made_none _ _ _ _ Hmade E); pose proof (part_order _ Hm); lia).
    destruct (Hsome Hnew) as (Hln0 & Hlr & Hlk). rewrite (proj2 (Z.eqb_neq ln' (-1))) by lia. cbn [negb].
    destruct (next_position _ _ _ _ _ _ _ _ ln' _ _ HL Hm Hgo Hp Hu Hmade Hlr Hlk) as ([b' HL'] & Hlen & Hp').
    apply (IH b'); [done|done|by intros _ [_ ?]%app_nil|simpl in Hf; lia|done|exact Hp'].
Qed.

(** ** The STATUS PDU *)

Lemma first_bytes buffer :
  3 <= zlen buffer ->
  returns (nr_rlc_pdu_encoder_put_bits (nr_rlc_pdu_encoder_init buffer (zlen buffer)) 0 (8 * 3))
    (fun enc => status_repr snlen (length buffer) []
       (mk_gen enc 2 (if snlen =? 18 then 1 else 7) false None)).
Proof using Hl.
  intros Hlen. eapply returns_mono; [apply put_bits_returns;
    [apply enc_repr_init|unfold zlen; lia|lia|rewrite zlen_nil; lia]|].
  intros enc Henc. cbv beta in Henc. rewrite app_nil_l in Henc.
  destruct (repr_enc_at _ _ _ _ 3 Henc eq_refl eq_refl) as (buf & -> & Hbuf & Hq & Hbits).
  constructor.
  - exists buf. cbn [g_encoder]. unfold status_len. cbn [sumZ]. rewrite Z.add_0_r.
    split_and!; [done|done|unfold zlen in *; lia|]. rewrite Hbits. by destruct Hl as [-> | ->].
  - cbn. destruct Hl as [-> | ->]; cbn; lia.
  - done.
Qed.

Lemma start_ack : ((rx_next e - 1 + M) %% M + 1) %% M = rx_next e /\ key (rx_next e) = 0.
Proof using Hc Hl HM.
  pose proof (rx_next_range _ _ Hc) as Hr. pose proof M_large.
  pose proof (Z.mod_pos_bound (rx_next e - 1 + M) M).
  split; [|unfold modulus_rx; by rewrite Z.sub_diag].
  rewrite (rem_mod (rx_next e - 1 + M)), rem_mod by lia.
  rewrite Zplus_mod_idemp_l. replace (rx_next e - 1 + M + 1) with (rx_next e + 1 * M) by lia.
  rewrite Z_mod_plus_full, Z.mod_small; lia.
Qed.

Lemma progress_start : progress [] ((rx_next e - 1 + M) %% M) 0 0.
Proof using Hc Hl HM.
  pose proof (rx_next_range _ _ Hc) as Hr. pose proof (hs_key Hc) as [Hh _]. destruct start_ack as [Hn Hk].
  constructor; rewrite ?Hn, ?Hk.
  - constructor.
  - lia.
  - lia.
  - intros sn so Hla. destruct (lacks_so _ _ Hla) as [Hsn Hso]. pose proof (core_key_nonneg Hc _ Hsn).
    unfold pos_lt. lia.
  - intros sn so Hla. destruct (lacks_so _ _ Hla) as [Hsn Hso]. pose proof (core_key_nonneg Hc _ Hsn). lia.
Qed.

Lemma generate_status_ok buffer :
  3 <= zlen buffer ->
  exists e' buf ack bs,
    let n := status_len snlen bs in
    generate_status e buffer = Ret (n, e', buf) /\ status_size e (zlen buffer) = Ret n /\
    length buf = length buffer /\ n <= zlen buffer /\
    bits_of_bytes (take (Z.to_nat n) buf) = status_bits snlen ack bs false /\
    Forall (nack_ok snlen) bs /\ 0 <= ack < M /\ key ack <= hs /\
    (forall sn so, lacks sn so -> key sn < key ack -> reported bs sn so) /\
    rx_part e' = rx_part e /\ tx_rest e' = tx_rest e /\ timer_part e' = timer_part e.
Proof using Hc Hl HM.
  intros Hlen. unfold generate_status, status_size. rewrite (proj2 (Z.ltb_ge _ _)) by lia.
  destruct (first_bytes buffer Hlen) as (enc & -> & Hr). rewrite bind_Ret_l.
  destruct (status_loop_ok (length buffer) (Datatypes.S (length (rx_list e))) [] (rx_list e) true
              ((rx_next e - 1 + M) %% M) (mk_gen enc 2 (if snlen =? 18 then 1 else 7) false None) [] eq_refl) as (bs & last' & g & Hloop & Hsize & Hrg & Hcp);
    [done|done|lia|exact Hr| |].
  { pose proof progress_start as Hps. destruct (rx_list e); [|exact Hps].
    destruct Hps as [P1 P2 _ _ _]. constructor; [done|done|]. intros sn so Hla Hk.
    destruct start_ack as [Hn Hk0]. rewrite Hn, Hk0 in Hk. destruct (lacks_so _ _ Hla) as [Hsn _]. pose proof (core_key_nonneg Hc _ Hsn). lia. }
  rewrite Hloop, bind_Ret_l. change (zlen buffer) with (Z.of_nat (length buffer)) at 1.
  pose proof Hrg as [(buf & Henc & Hbuf & Hfit & Hbits) _ _]. destruct Hcp as [C1 [C2 C3] C4].
  assert (C2' : 0 <= (last' + 1) %% M < 2 ^ snlen) by (rewrite <- HM; lia). rewrite Henc. cbn [enc_at enc_buffer enc_byte].
  destruct (put_ack_ok e bs buf ((last' + 1) %% M) Hl C2' ltac:(unfold zlen; lia) Hbits)
    as (buf' & -> & Hlen' & Hbits'). rewrite bind_Ret_l.
  eexists _, buf', ((last' + 1) %% M), bs. split; [reflexivity|]. split; [exact Hsize|].
  split_and!; [congruence|unfold zlen; lia|done|done|lia|lia|done|done|done|done|done].
Qed.
End status.

(** ** Between receiver and sender *)

(** byte [so] of [sn] is reported missing by a block as the sender reads it *)
Definition block_nacks (M : Z) (b : nack_block) (sn so : Z) : Prop :=
  exists i, 0 <= i < nack_range b /\ sn = (nack_sn b + i) %% M /\
    (i = 0 -> nack_so_start b <= so) /\
    (i = nack_range b - 1 -> nack_so_end b = -1 \/ so <= nack_so_end b).

Lemma nacks_block M b e1 sn so : 0 <= so -> nacks M b sn so -> block_nacks M (block_of e1 b) sn so.
Proof.
  intros Hso (i & Hi & Hsn & Hs & He). exists i. cbn [block_of nack_range nack_sn nack_so_start nack_so_end].
  split_and!; [lia|lia|done| |].
  - destruct (nk_e2 b); [auto|lia].
  - destruct (nk_e2 b); [|by left]. intros Hl. destruct (He eq_refl Hl) as [->|Hle]; [by left|].
    destruct (nk_so_end b =? 65535); auto.
Qed.

Lemma reported_blocks M bs sn so :
  0 <= so -> Exists (fun b => nacks M b sn so) bs -> Exists (fun b => block_nacks M b sn so) (blocks_of bs).
Proof.
  intros Hso. induction 1 as [b bs Hb|b bs _ IH]; [left; by apply nacks_block|by right].
Qed.

(** C30: a STATUS PDU fits the grant it is generated for and has exactly the
    size the entity announces in its buffer status for a grant of that size;
    generating it never exits, never writes outside the buffer and leaves the
    reception state alone. *)
Theorem am_status_size_exact S rx buffer :
  am_config_ok rx -> am_rx_inv S rx ->
  returns (generate_status rx buffer) (fun '(n, rx', buffer') =>
    status_size rx (zlen buffer) = Ret n /\ 0 <= n <= zlen buffer /\
    zlen buffer' = zlen buffer /\ am_rx_inv S rx').
Proof.
  intros [Hl HM] Hinv. destruct (Z.lt_ge_cases (zlen buffer) 3) as [Hs|Hs].
  - unfold generate_status, status_size. rewrite (proj2 (Z.ltb_lt _ _)) by lia. apply returns_Ret.
    pose proof (zlen_nonneg buffer). by split_and!; [|lia|lia|..].
  - destruct (generate_status_ok (rx_core _ _ Hinv) Hl HM buffer ltac:(lia))
      as (rx' & buf & ack & bs & -> & Hsz & Hlen & Hle & _ & _ & _ & _ & _ & Hpart & _).
    apply returns_Ret. pose proof (status_len_pos (sn_field_length rx) bs).
    split_and!; [done|lia|done|unfold zlen; congruence|by eapply rx_part_inv].
Qed.

(** C3: the sender of the data reads from a STATUS PDU an ACK_SN not above
    RX_Highest_Status, and NACKs for every byte the receiver lacks of every SDU
    below ACK_SN, also when the grant was too small for the whole report: what
    is not NACKed may safely be released. *)
Theorem am_status_sound S rx tx buffer :
  am_config_ok rx -> am_rx_inv S rx -> sn_field_length tx = sn_field_length rx -> 3 <= zlen buffer ->
  returns (generate_status rx buffer) (fun '(n, _, buffer') =>
    returns (read_status tx (take (Z.to_nat n) buffer')) (fun '(ack, blocks) =>
      0 <= ack < sn_modulus rx /\ modulus_rx rx ack <= modulus_rx rx (rx_highest_status rx) /\
      forall sn so, 0 <= sn < sn_modulus rx -> 0 <= so < zlen (S sn) ->
        modulus_rx rx sn < modulus_rx rx ack -> ~ have (rx_list rx) sn so ->
        Exists (fun b => block_nacks (sn_modulus rx) b sn so) blocks)).
Proof.
  intros [Hl HM] Hinv Htx Hs.
  destruct (generate_status_ok (rx_core _ _ Hinv) Hl HM buffer Hs)
    as (rx' & buf & ack & bs & -> & _ & _ & _ & Hbits & Hok & Hack & Hhs & Hrep & _).
  apply returns_Ret. exists (ack, blocks_of bs). split.
  - rewrite <- Htx in *. by apply read_status_ok; [..|rewrite <- HM|].
  - split_and!; [lia|lia|done|]. intros sn so Hsn Hso Hk Hnot. apply reported_blocks; [lia|].
    by apply Hrep.
Qed.

(** ** Example: the second segment of an SDU has been received *)

Definition demo_gap : nr_rlc_entity_am_t :=
  demo_am <| rx_list := [seg_piece demo_sdu demo_tail] |> <| rx_size := 3 |>
          <| rx_next_highest := 1 |> <| rx_highest_status := 1 |>.

Lemma demo_gap_inv : am_rx_inv demo_map demo_gap.
Proof.
  split; [constructor|..]; try (vm_compute; repeat split; congruence).
  - split.
    + by repeat constructor.
    + constructor; [|constructor]. by apply (seg_piece_ok demo_sdu), demo_tail_ok.
    + intros sn. left. unfold of_sn. cbn -[demo_sdu]. case_decide; repeat constructor. done.
  - by repeat constructor.
  - apply (rx_sdu_len _ _ (rx_core _ _ demo_am_inv)).
Qed.

Lemma am_status_size_exact_witness :
  returns (generate_status demo_gap (replicate 10 0)) (fun '(n, rx', buffer') =>
    status_size demo_gap 10 = Ret n /\ 0 <= n <= 10 /\ zlen buffer' = 10 /\ am_rx_inv demo_map rx').
Proof. exact (am_status_size_exact demo_map demo_gap (replicate 10 0) demo_config demo_gap_inv). Defined.

(** the first two bytes of SDU 0 are NACKed *)
Lemma am_status_sound_witness :
  returns (generate_status demo_gap (replicate 10 0)) (fun '(n, _, buffer') =>
    returns (read_status demo_tx (take (Z.to_nat n) buffer')) (fun '(ack, blocks) =>
      modulus_rx demo_gap ack <= 1 /\
      (0 < modulus_rx demo_gap ack -> Exists (fun b => block_nacks 4096 b 0 1) blocks))).
Proof.
  eapply returns_mono;
    [apply (am_status_sound demo_map demo_gap demo_tx (replicate 10 0)); [exact demo_config|exact demo_gap_inv| |]|].
  - reflexivity.
  - vm_compute. congruence.
  - intros [[n rx'] buf]. intros H. eapply returns_mono; [exact H|]. intros [ack blocks] (_ & Hack & Hrep).
    split; [exact Hack|]. intros Hk. apply (Hrep 0 1); [vm_compute; split; congruence|vm_compute; split; congruence|exact Hk|].
    intros (p & Hp & Hsn & Hso). apply list_elem_of_singleton in Hp. subst p. destruct Hso as [Hso _]. vm_compute in Hso. by apply Hso.
Defined.

(** the report of this receiver: ACK_SN 1, NACK of SDU 0 from byte 0 to byte 1 *)
Example demo_gap_report :
  returns (generate_status demo_gap (replicate 10 0)) (fun '(n, _, buffer') =>
    take (Z.to_nat n) buffer' = [0; 1; 128; 0; 4; 0; 0; 0; 1]).
Proof. eexists. split; vm_compute; reflexivity. Qed.
