(* ===== verification/RlcAmTxInv.v ===== *)
(** Memory safety of the transmitting side of an acknowledged-mode entity, and
    of the processing of STATUS PDUs with arbitrary content: every segment in a
    list points to a live SDU, the end pointers are right, nothing is freed
    twice. *)

From stdpp Require Import base tactics list numbers gmap list_tactics.
From Stdlib Require Import ZArith Lia.
From S2P Require Import Prelude RlcPdu RlcSdu TimeStat RlcEntity RlcAmState RlcAmControl RlcAmTx RlcAmRxSpec.

(** The transmitting side of an acknowledged-mode entity. *)

(** ** The transmit window *)

(** The transmit window is stalled exactly when AM_Window_Size SNs are in
    flight: TX_Next is a window or more ahead of TX_Next_Ack, modulo the SN
    space. *)
Lemma am_stalling_iff entity :
  sn_modulus entity = 2 * window_size entity -> 0 < window_size entity ->
  0 <= tx_next_ack entity < sn_modulus entity -> 0 <= tx_next entity < sn_modulus entity ->
  is_window_stalling entity
  = (window_size entity <=? (tx_next entity - tx_next_ack entity) mod sn_modulus entity).
Proof.
  intros HM HW Ha Hn. unfold is_window_stalling, sn_compare_tx.
  change (modulus_tx entity) with (dist (tx_next_ack entity) (sn_modulus entity)).
  rewrite dist_base, dist_offset by lia. rewrite dist_mod by done.
  pose proof (Z.mod_pos_bound (tx_next entity - tx_next_ack entity) (sn_modulus entity) ltac:(lia)).
  rewrite (proj2 (Z.leb_le (0 - _) 0)) by lia. simpl andb.
  destruct (Z.ltb_spec ((tx_next entity - tx_next_ack entity) mod sn_modulus entity - window_size entity) 0),
    (Z.leb_spec (window_size entity) ((tx_next entity - tx_next_ack entity) mod sn_modulus entity)); done || lia.
Qed.

Lemma am_stalling_iff_witness :
  is_window_stalling (the (new_nr_rlc_entity_am 100 100 45 35 0 (-1) (-1) 8 12)
                        <| tx_next := 10 |> <| tx_next_ack := 2058 |>) = true.
Proof.
  rewrite am_stalling_iff; [reflexivity|reflexivity|reflexivity|split; vm_compute; congruence|].
  split; vm_compute; congruence.
Defined.

(** ** The invariant *)

Definition am_segs (e : nr_rlc_entity_am_t) : list nr_rlc_sdu_segment_t :=
  tx_list e ++ wait_list e ++ retransmit_list e.

Definition end_of (l : list nr_rlc_sdu_segment_t) : option nat := option_map seg_addr (last l).

Record am_tx_inv (e : nr_rlc_entity_am_t) : Prop := mk_am_tx_inv {
  tx_owned : owned (heap e) (am_segs e);
  tx_end_ok : tx_end e = end_of (tx_list e);
  wait_end_ok : wait_end e = end_of (wait_list e);
  tx_avg_ok : exists q, avg_repr (txsdu_avg_time_to_tx (common e)) q
}.

(** what the transmitting side leaves alone when it handles segments *)
Definition tx_frame (e : nr_rlc_entity_am_t) :=
  (tx_list e, tx_end e, wait_list e, wait_end e, retransmit_list e,
   txsdu_avg_time_to_tx (common e), avg_time_is_on (common e),
   (sn_field_length e, sn_modulus e, window_size e), (tx_next e, tx_next_ack e, poll_sn e), rx_part e, timer_part e).

(** the receiving side and the configuration are as before *)
Definition keeps_rx (e e' : nr_rlc_entity_am_t) : Prop :=
  rx_part e' = rx_part e /\ sn_field_length e' = sn_field_length e /\ timer_part e' = timer_part e.

Lemma keeps_rx_trans e1 e2 e3 : keeps_rx e1 e2 -> keeps_rx e2 e3 -> keeps_rx e1 e3.
Proof. unfold keeps_rx. intuition congruence. Qed.

(** ** Acknowledged and not acknowledged segments *)

Lemma ack_segment_ok e s l :
  owned (heap e) (s :: l) ->
  returns (ack_segment e s) (fun e' => owned (heap e') l /\ tx_frame e' = tx_frame e).
Proof.
  intros Ho. destruct (owned_deref _ _ s Ho ltac:(left)) as (u & Hu & _).
  unfold ack_segment. rewrite Hu, bind_Ret_l.
  eapply returns_seq; [by apply owned_free|]. intros [b h'] [Ho' _].
  destruct b; by apply returns_Ret.
Qed.

Lemma nack_segment_ok e s l :
  owned (heap e) l -> s ∈ l ->
  returns (nack_segment e s) (fun e' => owned (heap e') l /\ tx_frame e' = tx_frame e).
Proof.
  intros Ho Hs. destruct (owned_deref _ _ s Ho Hs) as (u & Hu & _).
  unfold nack_segment. rewrite Hu, bind_Ret_l. apply returns_Ret.
  destruct (_ <=? _); (split; [|done]); by eapply owned_store.
Qed.

(** ** The cursors over both lists *)

Definition ctl_wait (c : ctl) : list nr_rlc_sdu_segment_t :=
  c_wait_done c ++ c_wait_cur c ++ c_wait_left c.

Definition ctl_segs (c : ctl) : list nr_rlc_sdu_segment_t :=
  tx_list (c_entity c) ++ ctl_wait c ++ (c_retx_new c ++ c_retx_cur c).

(** [end_wait_list] is set once the last segment has left the wait list *)
Definition ctl_end (c : ctl) : Prop :=
  match c_end_wait_list c with
  | None => wait_end (c_entity c) = end_of (ctl_wait c)
  | Some p => p = prev_wait_ptr c /\ c_wait_cur c = [] /\ c_wait_left c = []
  end.

Record ctl_ok (c : ctl) : Prop := mk_ctl_ok {
  co_owned : owned (heap (c_entity c)) (ctl_segs c);
  co_left : c_wait_left c = [] \/ c_wait_cur c = [];
  co_end : ctl_end c
}.

(** what the walk does not change of the entity *)
Definition walk_frame (c c' : ctl) : Prop := tx_frame (c_entity c') = tx_frame (c_entity c).

Lemma end_of_app l x l' : end_of (l ++ x :: l') = end_of (x :: l').
Proof. unfold end_of. by rewrite last_app_cons. Qed.

Lemma end_of_cons x l : l <> [] -> end_of (x :: l) = end_of l.
Proof. by destruct l. Qed.

(** taking a segment out of a list: it was the last one, or the end stays *)
Lemma end_of_remove h before cur after :
  owned h (before ++ cur :: after) ->
  match end_of (before ++ cur :: after) with
  | Some a => if (seg_addr cur =? a)%nat then after = []
              else after <> [] /\ end_of (before ++ after) = Some a
  | None => False
  end.
Proof.
  intros Ho. destruct (decide (after = [])) as [->|Hn].
  - unfold end_of. rewrite last_snoc. simpl. by rewrite Nat.eqb_refl.
  - assert (Hc : end_of (before ++ cur :: after) = end_of (before ++ after)).
    { rewrite end_of_app, end_of_cons by done. destruct after; [done|]. by rewrite end_of_app. }
    destruct (end_of (before ++ cur :: after)) as [a|] eqn:Ea.
    + destruct (Nat.eqb_spec (seg_addr cur) a) as [<-|]; [|done].
      by pose proof (owned_last_addr _ _ _ _ Ho Ea).
    + unfold end_of in Ea. rewrite last_app_cons, last_cons in Ea. by destruct (last after).
Qed.

(** taking the head of the wait cursor out of the list keeps the end right *)
Lemma unlink_end c cur next :
  ctl_ok c -> c_wait_cur c = cur :: next ->
  ctl_end (unlink_wait c cur <| c_wait_cur := next |>).
Proof.
  intros [Ho Hleft Hend] Hcur. destruct Hleft as [Hleft|Hleft]; [|congruence].
  unfold ctl_end in Hend. destruct (c_end_wait_list c) as [p|] eqn:Ep.
  { destruct Hend as (_ & Hn & _). congruence. }
  assert (Hw : ctl_wait c = c_wait_done c ++ cur :: next)
    by (unfold ctl_wait; by rewrite Hcur, Hleft, app_nil_r).
  pose proof (end_of_remove (heap (c_entity c)) (c_wait_done c) cur next) as Hrem.
  rewrite <- Hw, <- Hend in Hrem. specialize (Hrem (owned_app_l _ _ _ (owned_app_r _ _ _ Ho))).
  unfold unlink_wait. destruct (wait_end (c_entity c)) as [a|] eqn:Ea; [|done].
  destruct (seg_addr cur =? a)%nat.
  - subst next. by split_and!.
  - unfold ctl_end, ctl_wait. simpl. by rewrite Ep, Ea, Hleft, app_nil_r, (proj2 Hrem).
Qed.

Lemma unlink_eq c cur :
  unlink_wait c cur = c <| c_end_wait_list := c_end_wait_list (unlink_wait c cur) |>.
Proof.
  unfold unlink_wait. destruct c. by destruct (match wait_end _ with Some _ => _ | None => _ end).
Qed.

(** a state of the walk where the head of the wait cursor has been taken out *)
Lemma unlink_ok c cur next c' :
  ctl_ok c -> c_wait_cur c = cur :: next -> walk_frame c c' ->
  c_wait_done c' = c_wait_done c -> c_wait_left c' = c_wait_left c -> c_wait_cur c' = next ->
  c_end_wait_list c' = c_end_wait_list (unlink_wait c cur) ->
  owned (heap (c_entity c')) (ctl_segs c') -> ctl_ok c'.
Proof.
  intros Hc Hcur Hf Hd Hl Hn He Ho. pose proof (unlink_end c cur next Hc Hcur) as Hend.
  constructor; [done| |].
  - left. rewrite Hl. destruct (co_left _ Hc) as [H|H]; [done|congruence].
  - unfold walk_frame, tx_frame in Hf. rewrite unlink_eq in Hend. simpl in Hend.
    unfold ctl_end, ctl_wait, prev_wait_ptr in *. simpl in Hend. rewrite He, Hd, Hl, Hn.
    destruct (c_end_wait_list (unlink_wait c cur)); [done|congruence].
Qed.

(** a state of the walk where the wait list has not changed *)
Lemma keep_wait_ok c c' :
  ctl_ok c -> walk_frame c c' ->
  c_wait_done c' = c_wait_done c -> c_wait_left c' = c_wait_left c -> c_wait_cur c' = c_wait_cur c ->
  c_end_wait_list c' = c_end_wait_list c ->
  owned (heap (c_entity c')) (ctl_segs c') -> ctl_ok c'.
Proof.
  intros [_ Hl Hend] Hf E1 E2 E3 E4 Ho. constructor; [done|by rewrite E2, E3|].
  unfold walk_frame, tx_frame in Hf. unfold ctl_end, ctl_wait, prev_wait_ptr in *.
  rewrite E1, E2, E3, E4. destruct (c_end_wait_list c); [done|congruence].
Qed.

Definition cursors (c : ctl) : nat := (length (c_wait_cur c) + length (c_retx_cur c))%nat.

(** what a round of the walk promises *)
Record round_ok (c : ctl) (r : next_pdu_result) (c' : ctl) : Prop := mk_round_ok {
  ro_ok : ctl_ok c';
  ro_frame : walk_frame c c';
  ro_less : r = NextPdu -> (cursors c' < cursors c)%nat
}.

(** the state after the head of the wait cursor has left the wait list *)
Lemma wait_taken c cur next e' retx :
  ctl_ok c -> c_wait_cur c = cur :: next -> tx_frame e' = tx_frame (c_entity c) ->
  owned (heap e') (tx_list (c_entity c) ++ (c_wait_done c ++ next ++ c_wait_left c) ++ retx ++ c_retx_cur c) ->
  forall rn, round_ok c NextPdu (mk_ctl e' (c_wait_done c) next (c_wait_left c)
    (c_end_wait_list (unlink_wait c cur)) retx rn (c_retx_cur c)).
Proof.
  intros Hc Hcur Hf Ho rn. constructor; [|done|].
  - eapply unlink_ok; [done|exact Hcur|done..|]. unfold ctl_segs, ctl_wait. simpl.
    replace (tx_list e') with (tx_list (c_entity c)) by (unfold tx_frame in Hf; congruence). done.
  - intros _. unfold cursors. simpl. rewrite Hcur. simpl. lia.
Qed.

Lemma wait_head_ok c cur next n ack_sn :
  ctl_ok c -> c_wait_cur c = cur :: next ->
  returns (process_wait_list_head c cur next n ack_sn) (fun '(r, c') => round_ok c r c').
Proof.
  intros Hc Hcur. pose proof Hc as [Ho Hleft Hend].
  assert (Hp : ctl_segs c ≡ₚ cur :: (tx_list (c_entity c) ++ (c_wait_done c ++ next ++ c_wait_left c)
                                      ++ c_retx_new c ++ c_retx_cur c)).
  { unfold ctl_segs, ctl_wait. rewrite Hcur. simpl. solve_Permutation. }
  rewrite Hp in Ho. destruct (owned_deref _ _ cur Ho ltac:(left)) as (u & Hu & _).
  unfold process_wait_list_head. rewrite Hu, bind_Ret_l. case_match; [|case_match; [|case_match; [|case_match]]].
  - rewrite unlink_eq. eapply returns_seq; [eapply (nack_segment_ok (c_entity c)); [exact Ho|left]|].
    intros e' [Ho' Hf]. apply returns_Ret. apply (wait_taken c cur next e' _ Hc Hcur Hf).
    eapply owned_perm; [|exact Ho']. solve_Permutation.
  - apply returns_Ret. by constructor.
  - rewrite unlink_eq. eapply returns_seq; [eapply (ack_segment_ok (c_entity c)); exact Ho|].
    intros e' [Ho' Hf]. apply returns_Ret. by apply (wait_taken c cur next e' _ Hc Hcur Hf).
  - apply returns_Ret. destruct Hleft as [Hleft|Hleft]; [|congruence]. constructor; [constructor| |].
    + eapply owned_perm; [|exact (co_owned _ Hc)]. unfold ctl_segs, ctl_wait. simpl.
      by rewrite Hcur, Hleft, app_nil_r.
    + by right.
    + unfold ctl_end, ctl_wait in *. simpl. destruct (c_end_wait_list c).
      * destruct Hend as (_ & Hn & _). congruence.
      * by rewrite Hend, Hcur, Hleft, app_nil_r.
    + done.
    + intros _. unfold cursors. simpl. rewrite Hcur. simpl. lia.
  - apply returns_Ret. destruct Hleft as [Hleft|Hleft]; [|congruence]. constructor; [constructor| |].
    + eapply owned_perm; [|exact (co_owned _ Hc)]. unfold ctl_segs, ctl_wait. simpl.
      rewrite Hcur. solve_Permutation.
    + by left.
    + unfold ctl_end, ctl_wait in *. simpl. destruct (c_end_wait_list c).
      * destruct Hend as (_ & Hn & _). congruence.
      * rewrite Hend, Hcur. by rewrite <- app_assoc.
    + done.
    + intros _. unfold cursors. simpl. rewrite Hcur. simpl. lia.
Qed.

Lemma retx_head_ok c cur next n ack_sn :
  ctl_ok c -> c_retx_cur c = cur :: next ->
  returns (process_retransmit_list_head c cur next n ack_sn) (fun '(r, c') => round_ok c r c').
Proof.
  intros Hc Hcur. pose proof Hc as [Ho _ _].
  assert (Hp : ctl_segs c ≡ₚ cur :: (tx_list (c_entity c) ++ ctl_wait c ++ c_retx_new c ++ next)).
  { unfold ctl_segs. rewrite Hcur. solve_Permutation. }
  assert (Hless : (length (c_wait_cur c) + length next < cursors c)%nat).
  { unfold cursors. rewrite Hcur. simpl. lia. }
  rewrite Hp in Ho. destruct (owned_deref _ _ cur Ho ltac:(left)) as (u & Hu & _).
  assert (Hpush : round_ok c NextPdu (push_retx cur c <| c_retx_cur := next |>)).
  { constructor; [|done|done]. eapply keep_wait_ok; [done..|]. eapply owned_perm; [|exact Ho].
    unfold ctl_segs, ctl_wait. simpl. solve_Permutation. }
  unfold process_retransmit_list_head. rewrite Hu, bind_Ret_l. case_match; [by apply returns_Ret|].
  case_match; [apply returns_Ret; by constructor|]. case_match; [|case_match; [|by apply returns_Ret]].
  - eapply returns_seq; [eapply ack_segment_ok; exact Ho|]. intros e' [Ho' Hf].
    change (tx_frame (add_bs_retx _ _)) with (tx_frame (c_entity c)) in Hf.
    apply returns_Ret. constructor; [|done|done]. eapply keep_wait_ok; [done..|].
    unfold ctl_segs, ctl_wait in *. simpl.
    replace (tx_list e') with (tx_list (c_entity c)) by (unfold tx_frame in Hf; congruence). done.
  - apply returns_Ret. constructor; [|done|done]. eapply keep_wait_ok; [done..|].
    apply owned_tail in Ho. rewrite !app_assoc in Ho. apply owned_app_l in Ho.
    unfold ctl_segs, ctl_wait in *. simpl. by rewrite app_nil_r, !app_assoc in *.
Qed.

Lemma next_pdu_ok c n ack_sn :
  ctl_ok c -> returns (process_next_pdu c n ack_sn) (fun '(r, c') => round_ok c r c').
Proof.
  intros Hc. unfold process_next_pdu.
  destruct (c_wait_cur c) as [|w ws] eqn:Ew, (c_retx_cur c) as [|r rs] eqn:Er.
  - apply returns_Ret. by constructor.
  - by apply retx_head_ok.
  - by apply wait_head_ok.
  - assert (Hin : w ∈ ctl_segs c /\ r ∈ ctl_segs c).
    { unfold ctl_segs, ctl_wait. rewrite Ew, Er. set_solver. }
    destruct (owned_deref _ _ _ (co_owned _ Hc) (proj1 Hin)) as (uw & -> & _).
    destruct (owned_deref _ _ _ (co_owned _ Hc) (proj2 Hin)) as (ur & -> & _).
    rewrite !bind_Ret_l. case_match; [by apply wait_head_ok|by apply retx_head_ok].
Qed.

(** one NACK: the fuel is enough, since every round takes a segment *)
Lemma process_nack_ok fuel : forall c n ack_sn,
  ctl_ok c -> (cursors c < fuel)%nat ->
  returns (process_nack fuel c n ack_sn) (fun '(_, c') => ctl_ok c' /\ walk_frame c c').
Proof.
  induction fuel as [|fuel IH]; intros c n ack_sn Hc Hf; [lia|]. simpl.
  eapply returns_seq; [by apply next_pdu_ok|]. intros [r c'] [Hc' Hw Hl].
  destruct r; [|by apply returns_Ret..]. specialize (Hl eq_refl).
  eapply returns_mono; [apply IH; [done|lia]|]. intros [b c''] [Hc'' Hw'].
  split; [done|]. unfold walk_frame in *. congruence.
Qed.

Lemma process_range_ok k : forall i c b ack_sn,
  ctl_ok c -> returns (process_range k i c b ack_sn) (fun c' => ctl_ok c' /\ walk_frame c c').
Proof.
  induction k as [|k IH]; intros i c b ack_sn Hc; cbn [process_range]; [by apply returns_Ret|].
  eapply returns_seq; [apply process_nack_ok; [done|unfold nack_fuel, cursors; lia]|].
  intros [over c'] [Hc' Hw]. destruct over; [by apply returns_Ret|].
  eapply returns_mono; [by apply IH|]. intros c'' [Hc'' Hw']. split; [done|]. unfold walk_frame in *. congruence.
Qed.

(** ** The second pass reads what the first pass has checked *)

Lemma get_bits_R_valid d n k :
  get_bits_R d n (Ret false) k = Ret true ->
  exists v d', nr_rlc_pdu_decoder_get_bits d n = Ret (v, d') /\ k v d' = Ret true.
Proof.
  unfold get_bits_R. intros H. inv_bind H. destruct v as [v d']. exists v, d'. split; [done|].
  by destruct (dec_error d').
Qed.

Ltac read_same H :=
  let v := fresh "v" in let d := fresh "d" in let E := fresh "E" in
  apply get_bits_R_valid in H; destruct H as (v & d & E & H); rewrite E; clear E;
  rewrite ?bind_Ret_l; cbv beta.

Lemma read_nack_valid e e' d k :
  sn_field_length e' = sn_field_length e ->
  read_nack_R e d (Ret false) k = Ret true ->
  exists b d', read_nack e' d = Ret (b, d') /\ k b d' = Ret true.
Proof.
  intros Hl H. unfold read_nack_R, read_nack, nack_r_bits in *. rewrite Hl.
  do 5 read_same H. destruct (negb _); [do 2 read_same H|]; rewrite ?bind_Ret_l;
    (destruct (negb _); [read_same H|]; rewrite ?bind_Ret_l; eauto).
Qed.

Lemma process_nacks_ok e fuel : forall c d e1 ack_sn prev,
  ctl_ok c -> sn_field_length (c_entity c) = sn_field_length e ->
  check_nacks fuel e d e1 ack_sn prev = Ret true ->
  returns (process_nacks fuel c d e1 ack_sn) (fun c' => ctl_ok c' /\ walk_frame c c').
Proof.
  induction fuel as [|fuel IH]; intros c d e1 ack_sn prev Hc Hl H; simpl in *;
    (destruct (e1 =? 0); [by apply returns_Ret|]); [done|].
  destruct (read_nack_valid _ _ _ _ Hl H) as (b & d' & -> & Hk). rewrite bind_Ret_l.
  destruct (check_range _ _ _ _ _ _); [|done].
  eapply returns_seq; [by apply process_range_ok|]. intros c' [Hc' Hw].
  set (c2 := c' <| c_entity ::= (fun e0 => stop_poll_if_nacked e0 b) |>).
  assert (Hw2 : walk_frame c' c2).
  { unfold walk_frame. simpl. unfold stop_poll_if_nacked. by destruct (_ && _). }
  assert (Hh : heap (c_entity c2) = heap (c_entity c')).
  { simpl. unfold stop_poll_if_nacked. by destruct (_ && _). }
  assert (Hs : ctl_segs c2 = ctl_segs c').
  { unfold walk_frame, tx_frame in Hw2. unfold ctl_segs. simpl in *. f_equal. congruence. }
  assert (Hc2 : ctl_ok c2).
  { eapply keep_wait_ok; [exact Hc'|done..|]. rewrite Hh, Hs. apply Hc'. }
  eapply returns_mono; [eapply (IH c2); [done| |exact Hk]|].
  - unfold walk_frame, tx_frame in Hw, Hw2. congruence.
  - intros c3 [Hc3 Hw3]. split; [done|]. unfold walk_frame in *. congruence.
Qed.

(** ** The rest of the function *)

Lemma unlink_cur c cur l :
  c_end_wait_list (unlink_wait (c <| c_wait_cur := l |>) cur) = c_end_wait_list (unlink_wait c cur).
Proof. unfold unlink_wait. simpl. by destruct (match wait_end _ with Some _ => _ | None => _ end). Qed.

Lemma ack_wait_ok l : forall c ack_sn,
  ctl_ok (c <| c_wait_cur := l |>) ->
  returns (ack_wait_list c l ack_sn) (fun c' => ctl_ok c' /\ walk_frame c c').
Proof.
  induction l as [|cur next IH]; intros c ack_sn Hc; simpl; [by apply returns_Ret|].
  pose proof (co_owned _ Hc) as Ho.
  assert (Hp : ctl_segs (c <| c_wait_cur := cur :: next |>) ≡ₚ
    cur :: (tx_list (c_entity c) ++ (c_wait_done c ++ next ++ c_wait_left c) ++ c_retx_new c ++ c_retx_cur c)).
  { unfold ctl_segs, ctl_wait. simpl. solve_Permutation. }
  rewrite Hp in Ho. simpl in Ho.
  destruct (owned_deref _ _ cur Ho ltac:(left)) as (u & -> & _). rewrite bind_Ret_l.
  case_match; [|by apply returns_Ret].
  rewrite unlink_eq. eapply returns_seq; [eapply (ack_segment_ok (c_entity c)); exact Ho|].
  intros e' [Ho' Hf]. eapply returns_mono; [eapply IH|].
  - eapply (wait_taken (c <| c_wait_cur := cur :: next |>) cur next e' (c_retx_new c) Hc eq_refl Hf) in Ho'.
    rewrite unlink_cur in Ho'. exact (ro_ok _ _ _ Ho').
  - intros c' [Hc' Hw]. split; [done|]. unfold walk_frame in *. simpl in Hw. congruence.
Qed.

Lemma ack_retx_ok l : forall c ack_sn,
  ctl_ok (c <| c_retx_cur := l |>) ->
  returns (ack_retransmit_list c l ack_sn) (fun c' => ctl_ok c' /\ walk_frame c c').
Proof.
  induction l as [|cur next IH]; intros c ack_sn Hc; simpl; [by apply returns_Ret|].
  pose proof (co_owned _ Hc) as Ho.
  assert (Hp : ctl_segs (c <| c_retx_cur := cur :: next |>) ≡ₚ
    cur :: (tx_list (c_entity c) ++ ctl_wait c ++ c_retx_new c ++ next)).
  { unfold ctl_segs, ctl_wait. simpl. solve_Permutation. }
  rewrite Hp in Ho. simpl in Ho.
  destruct (owned_deref _ _ cur Ho ltac:(left)) as (u & -> & _). rewrite bind_Ret_l.
  case_match; [|by apply returns_Ret].
  eapply returns_seq; [eapply ack_segment_ok; exact Ho|]. intros e' [Ho' Hf].
  change (tx_frame (add_bs_retx _ _)) with (tx_frame (c_entity c)) in Hf.
  eapply returns_mono; [eapply IH|].
  - eapply keep_wait_ok; [exact Hc|done..|]. unfold ctl_segs, ctl_wait in *. simpl in *.
    replace (tx_list e') with (tx_list (c_entity c)) by (unfold tx_frame in Hf; congruence). done.
  - intros c' [Hc' Hw]. split; [done|]. unfold walk_frame in *. simpl in Hw. congruence.
Qed.

Lemma store_lists_ok c :
  ctl_ok c -> (exists q, avg_repr (txsdu_avg_time_to_tx (common (c_entity c))) q) ->
  tx_end (c_entity c) = end_of (tx_list (c_entity c)) ->
  am_tx_inv (store_lists c) /\ keeps_rx (c_entity c) (store_lists c).
Proof.
  intros [Ho Hl Hend] Hq Htx. unfold store_lists. unfold ctl_end in Hend.
  split; [|by destruct (c_end_wait_list _) as [[|a]|]].
  destruct (c_end_wait_list c) as [p|] eqn:Ep; simpl; rewrite Ep.
  - destruct Hend as (-> & Hcur & Hleft). unfold prev_wait_ptr.
    assert (Hw : c_wait_done c ++ c_wait_cur c ++ c_wait_left c = c_wait_done c).
    { by rewrite Hcur, Hleft, !app_nil_r. }
    destruct (last (c_wait_done c)) as [s|] eqn:Es.
    all: constructor; [exact Ho|exact Htx| |exact Hq].
    all: simpl; unfold end_of; by rewrite Hw, Es.
  - by constructor.
Qed.

Lemma lower_to_head_ok e l sn :
  owned (heap e) l -> returns (lower_to_head e l sn) (fun _ => True).
Proof.
  intros Ho. destruct l as [|s l]; [by apply returns_Ret|]. simpl.
  destruct (owned_deref _ _ s Ho ltac:(left)) as (u & -> & _). by apply returns_Ret.
Qed.

Lemma update_ack_ok e ack_sn :
  am_tx_inv e ->
  returns (update_tx_next_ack e ack_sn) (fun e' => am_tx_inv e' /\ keeps_rx e e').
Proof.
  intros [Ho He Hw Hq]. unfold update_tx_next_ack.
  eapply returns_seq; [eapply lower_to_head_ok, owned_app_l, owned_app_r, Ho|]. intros sn _.
  eapply returns_seq; [eapply lower_to_head_ok, owned_app_r, owned_app_r, Ho|]. intros sn' _.
  by apply returns_Ret.
Qed.

(** the initial state of the walk *)
Lemma start_ok e :
  am_tx_inv e -> ctl_ok (mk_ctl e [] (wait_list e) [] None [] [] (retransmit_list e)).
Proof.
  intros [Ho He Hw Hq]. constructor; [|by left|].
  - unfold ctl_segs, ctl_wait. simpl. by rewrite app_nil_r.
  - unfold ctl_end, ctl_wait. simpl. by rewrite app_nil_r.
Qed.

(** what a checked PDU gives to read in the second pass *)
Lemma control_valid e buffer :
  check_control_pdu e buffer = Ret true ->
  exists ack_sn e1 d prev, check_nacks (length buffer) e d e1 ack_sn prev = Ret true /\
    process_valid_control_pdu e buffer =
      (let e' := if sn_compare_tx e (poll_sn e) ack_sn <? 0
                 then e <| t_poll_retransmit_start := 0 |> else e in
       c ← process_nacks (length buffer)
             (mk_ctl e' [] (wait_list e') [] None [] [] (retransmit_list e')) d e1 ack_sn;
       c ← ack_wait_list c (c_wait_cur c) ack_sn;
       c ← ack_retransmit_list c (c_retx_cur c) ack_sn;
       update_tx_next_ack (store_lists c) ack_sn).
Proof.
  intros H. unfold check_control_pdu in H. unfold process_valid_control_pdu.
  do 2 read_same H. destruct (negb _); [done|]. do 3 read_same H.
  destruct (0 <? _); [done|]. by do 4 eexists.
Qed.

Lemma control_pdu_ok e buffer :
  sn_field_length e = 12 \/ sn_field_length e = 18 -> am_tx_inv e ->
  returns (process_control_pdu e buffer) (fun e' => am_tx_inv e' /\ keeps_rx e e').
Proof.
  intros Hlen Hinv. unfold process_control_pdu.
  destruct (check_control_returns e Hlen buffer) as (valid & Hv & _). rewrite Hv, bind_Ret_l.
  destruct valid; [|by apply returns_Ret].
  destruct (control_valid e buffer Hv) as (ack_sn & e1 & d & prev & Hn & ->). cbv zeta.
  set (e' := if sn_compare_tx e (poll_sn e) ack_sn <? 0 then _ else e).
  assert (He' : am_tx_inv e' /\ keeps_rx e e').
  { unfold e'. destruct (_ <? 0); [|done]. split; [|done]. by destruct Hinv. }
  destruct He' as [Hi Hr]. clearbody e'.
  eapply returns_seq; [eapply process_nacks_ok; [by apply start_ok|apply Hr|exact Hn]|].
  intros c [Hc Hw]. eapply returns_seq; [apply ack_wait_ok; by destruct c|].
  intros c2 [Hc2 Hw2]. eapply returns_seq; [apply ack_retx_ok; by destruct c2|].
  intros c3 [Hc3 Hw3]. unfold walk_frame in *. rewrite Hw2, Hw in Hw3. simpl in Hw3.
  unfold tx_frame in Hw3. destruct (store_lists_ok c3 Hc3) as [Hs Hrx].
  - replace (txsdu_avg_time_to_tx (common (c_entity c3))) with (txsdu_avg_time_to_tx (common e')) by congruence.
    apply Hi.
  - replace (tx_list (c_entity c3)) with (tx_list e') by congruence.
    replace (tx_end (c_entity c3)) with (tx_end e') by congruence. apply Hi.
  - eapply returns_mono; [by apply update_ack_ok|]. intros e4 [Hi4 Hk4]. split; [done|].
    eapply keeps_rx_trans; [exact Hr|]. eapply keeps_rx_trans; [|exact Hk4].
    eapply keeps_rx_trans; [|exact Hrx]. unfold keeps_rx. split_and!; congruence.
Qed.
