(* ===== verification/RlcAmTxOps.v ===== *)
(** Memory safety of the transmissions and retransmissions of an
    acknowledged-mode entity: segmentation keeps the ownership of the SDUs, a
    transmitted segment enters the wait list with the end pointer right, and a
    PDU never exceeds the grant. *)

From stdpp Require Import base tactics list numbers gmap list_tactics.
From Stdlib Require Import ZArith Lia.
From S2P Require Import Prelude TimeStat RlcPdu RlcSdu RlcEntity.
From S2P Require Import RlcAmState RlcAmTx RlcAmRxSpec RlcAmWire RlcAmTxInv.

(** ** Lists with an end pointer *)

Lemma owned_nodup h l : owned h l -> NoDup (map seg_addr l).
Proof. by intros [_ H _]. Qed.

Lemma append_end l s :
  NoDup (map seg_addr l) ->
  nr_rlc_sdu_segment_list_append l (end_of l) s = Ret (l ++ [s], Some (seg_addr s)).
Proof.
  intros Hnd. destruct l as [|x l _] using rev_ind; [done|]. unfold end_of. rewrite last_snoc.
  pose proof (append_after_last l x s Hnd) as Ha. unfold nr_rlc_sdu_segment_list_append.
  destruct (l ++ [x]) eqn:E; [by destruct l|]. simpl option_map. cbv iota.
  rewrite Ha, bind_Ret_l, <- E. by rewrite <- app_assoc.
Qed.

Lemma end_of_snoc l s : end_of (l ++ [s]) = Some (seg_addr s).
Proof. unfold end_of. by rewrite last_snoc. Qed.

Lemma find_addr_last l x :
  NoDup (map seg_addr (l ++ [x])) -> find_addr (seg_addr x) (l ++ [x]) = Ret x.
Proof.
  induction l as [|y l IH]; simpl; [by rewrite Nat.eqb_refl|].
  intros [Hy Hnd]%NoDup_cons. destruct (Nat.eqb_spec (seg_addr y) (seg_addr x)) as [E|]; [|by apply IH].
  destruct Hy. rewrite E, map_app. apply elem_of_app. right. left.
Qed.

(** the test of the sorted insertion: [s] comes before [t] *)
Definition goes_before (e : nr_rlc_entity_am_t) (u v : nr_rlc_sdu_t) (t s : nr_rlc_sdu_segment_t) : bool :=
  (0 <? sn_compare_tx e (sdu_sn u) (sdu_sn v)) || ((sdu_sn u =? sdu_sn v) && (seg_so s <? seg_so t)).

Lemma list_add_ok e s v : forall l,
  deref (heap e) s = Ret v -> Forall (fun t => exists u, deref (heap e) t = Ret u) l ->
  returns (nr_rlc_tx_sdu_segment_list_add e l s) (fun l' =>
    l' ≡ₚ s :: l /\
    (forall x u, last l = Some x -> deref (heap e) x = Ret u -> goes_before e u v x s = true ->
       last l' = Some x)).
Proof.
  intros l Hv. induction 1 as [|t l [u Hu] Hl IH]; simpl; [by apply returns_Ret|].
  rewrite Hu, Hv, !bind_Ret_l. fold (goes_before e u v t s). destruct (goes_before e u v t s) eqn:Eb.
  - apply returns_Ret. split; [done|]. intros x w Hx _ _. by rewrite <- Hx.
  - eapply returns_seq; [exact IH|]. intros l' [Hp Hlast]. apply returns_Ret. split; [rewrite Hp; constructor|].
    intros x w Hx Hw Hb. destruct l as [|y l].
    + simpl in Hx. injection Hx as ->. congruence.
    + rewrite last_cons_cons in Hx. specialize (Hlast x w Hx Hw Hb). rewrite last_cons. by rewrite Hlast.
Qed.

(** ** The wait list *)

(** [t] of the wait list and [s] with SN [sn] are never mistaken for each
    other: segments of one SDU have different offsets, different SDUs different
    SNs *)
Definition apart (e : nr_rlc_entity_am_t) (s : nr_rlc_sdu_segment_t) (sn : Z) (t : nr_rlc_sdu_segment_t)
    : Prop :=
  if (seg_sdu t =? seg_sdu s)%nat then seg_so t <> seg_so s
  else forall v, deref (heap e) t = Ret v -> sn_compare_tx e sn (sdu_sn v) <> 0.

Lemma compare_swap e a b : sn_compare_tx e a b = - sn_compare_tx e b a.
Proof. unfold sn_compare_tx. lia. Qed.

(** a segment that does not go to the end goes before the last one *)
Lemma not_at_end e s t u v :
  deref (heap e) s = Ret u -> deref (heap e) t = Ret v -> apart e s (sdu_sn u) t ->
  (0 <? sn_compare_tx e (sdu_sn u) (sdu_sn v))
    || ((sn_compare_tx e (sdu_sn u) (sdu_sn v) =? 0) && (seg_so t <? seg_so s)) = false ->
  goes_before e v u t s = true.
Proof.
  intros Hu Hv Ha. unfold goes_before. rewrite (compare_swap e (sdu_sn v)). unfold apart in Ha.
  destruct (Nat.eqb_spec (seg_sdu t) (seg_sdu s)) as [E|E].
  - assert (v = u) as -> by (unfold deref in *; rewrite E in Hv; congruence).
    rewrite Z.eqb_refl. unfold sn_compare_tx. rewrite Z.sub_diag. simpl.
    intros H%Z.ltb_ge. apply Z.ltb_lt. lia.
  - specialize (Ha v Hv). intros [H _]%orb_false_elim. apply Z.ltb_ge in H.
    rewrite (proj2 (Z.ltb_lt 0 _)) by lia. done.
Qed.

Lemma put_in_wait_list_ok e s u rest :
  owned (heap e) (s :: wait_list e ++ rest) -> wait_end e = end_of (wait_list e) ->
  deref (heap e) s = Ret u -> Forall (apart e s (sdu_sn u)) (wait_list e) ->
  returns (put_in_wait_list e s) (fun e' => exists l, l ≡ₚ s :: wait_list e /\
    e' = e <| wait_list := l |> <| wait_end := end_of l |>).
Proof.
  intros Ho He Hu Ha. unfold put_in_wait_list, after_wait_end.
  assert (Hnd : NoDup (map seg_addr (wait_list e))) by (eapply owned_nodup, owned_app_l, owned_tail, Ho).
  assert (Happ : returns ('(l, e0) ← nr_rlc_sdu_segment_list_append (wait_list e) (wait_end e) s;
     Ret (e <| wait_list := l |> <| wait_end := e0 |>)) (fun e' => exists l, l ≡ₚ s :: wait_list e /\
    e' = e <| wait_list := l |> <| wait_end := end_of l |>)).
  { rewrite He, append_end by done. apply returns_Ret. exists (wait_list e ++ [s]).
    rewrite end_of_snoc. split; [|done]. by rewrite (Permutation_app_comm _ [s]). }
  destruct (wait_list e) as [|t l _] eqn:Ew using rev_ind; [by rewrite He in *|].
  rewrite He, end_of_snoc in *. rewrite Hu, find_addr_last, !bind_Ret_l by done.
  destruct (owned_deref _ _ t Ho ltac:(set_solver)) as (v & Hv & _). rewrite Hv, !bind_Ret_l.
  rewrite Forall_app, Forall_singleton in Ha. destruct Ha as [_ Ha].
  destruct (_ || _) eqn:Eb; [exact Happ|]. clear Happ.
  assert (Hall : Forall (fun x => exists w, deref (heap e) x = Ret w) (l ++ [t])).
  { apply list.Forall_forall. intros x Hx. destruct (owned_deref _ _ x Ho) as (w & Hw & _); [|by eauto].
    apply elem_of_cons. right. by apply elem_of_app; left. }
  eapply returns_seq; [by apply (list_add_ok e s u)|]. intros l' [Hp Hlast]. apply returns_Ret.
  specialize (Hlast t v (last_snoc _ _) Hv (not_at_end e s t u v Hu Hv Ha Eb)).
  exists l'. split; [done|]. assert (Hend : end_of l' = wait_end e).
  { unfold end_of. rewrite Hlast. by rewrite He. }
  assert (Hl2 : (2 <= length l')%nat) by (rewrite Hp; simpl; rewrite length_app; simpl; lia).
  destruct l' as [|? [|? ?]]; [simpl in Hl2; lia..|]. rewrite Hend. by destruct e.
Qed.

(** ** Frames *)

(** what the invariant speaks of, and the receiving side *)
Definition tx_view (e : nr_rlc_entity_am_t) :=
  (heap e, tx_list e, tx_end e, wait_list e, wait_end e, retransmit_list e,
   txsdu_avg_time_to_tx (common e), sn_field_length e, timer_part e, rx_part e).

Lemma view_inv e e' : tx_view e' = tx_view e -> am_tx_inv e -> am_tx_inv e' /\ keeps_rx e e'.
Proof.
  intros Hv [Ho He Hw Hq]. assert (Hr : rx_part e' = rx_part e) by exact (f_equal snd Hv).
  unfold tx_view in Hv. split; [|split; [done|split; congruence]].
  assert (heap e' = heap e) as E1 by congruence. assert (tx_list e' = tx_list e) as E2 by congruence.
  assert (wait_list e' = wait_list e) as E3 by congruence.
  assert (retransmit_list e' = retransmit_list e) as E4 by congruence.
  assert (txsdu_avg_time_to_tx (common e') = txsdu_avg_time_to_tx (common e)) as E5 by congruence.
  constructor; [unfold am_segs; by rewrite E1, E2, E3, E4|congruence|congruence|by rewrite E5].
Qed.

Lemma serialize_ok e s u buffer p :
  sn_field_length e = 12 \/ sn_field_length e = 18 -> deref (heap e) s = Ret u -> seg_ok u s ->
  compute_pdu_header_size e s + seg_size s <= zlen buffer ->
  returns (serialize_sdu e s buffer (zlen buffer) p) (fun '(n, e', buffer') =>
    tx_view e' = tx_view e /\ zlen buffer' = zlen buffer /\
    n = compute_pdu_header_size e s + seg_size s /\ 0 < n <= zlen buffer).
Proof.
  intros Hl Hu [H1 H2 H3 _ _] Hfit. rewrite am_header_len_seg in *.
  pose proof (hs_range e s) as Hr. cbv zeta in Hr.
  eapply returns_mono; [eapply (serialize_sdu_spec e s u buffer (zlen buffer) Hl Hu); lia|].
  intros [[n e'] b'] (-> & -> & Hb & _). split_and!; [by destruct p|done|done|lia|lia].
Qed.

(** other SDUs are left alone *)
Definition same_others (h h' : sdu_heap) (s : nr_rlc_sdu_segment_t) : Prop :=
  forall t, seg_sdu t <> seg_sdu s -> deref h' t = deref h t.

Lemma store_others h s u : same_others h (store_sdu h s u) s.
Proof. intros t Ht. unfold deref, store_sdu. simpl. by rewrite lookup_insert_ne. Qed.

Lemma deref_store h s t u :
  seg_sdu t = seg_sdu s -> deref (store_sdu h s u) t = Ret u.
Proof. intros E. unfold deref, store_sdu. simpl. by rewrite E, lookup_insert_eq. Qed.

Lemma apart_heap e e' s s' sn l :
  same_others (heap e) (heap e') s -> seg_sdu s' = seg_sdu s -> seg_so s' = seg_so s ->
  (forall a b, sn_compare_tx e' a b = sn_compare_tx e a b) ->
  Forall (apart e s sn) l -> Forall (apart e' s' sn) l.
Proof.
  intros Hh E1 E2 Hc. apply Forall_weaken. intros t. unfold apart. rewrite E1, E2.
  destruct (Nat.eqb_spec (seg_sdu t) (seg_sdu s)) as [E|E]; [done|]. intros Ha v Hv. rewrite Hc.
  apply Ha. by rewrite <- Hh.
Qed.

(** ** Segmentation *)

Lemma resegment_ok e s u l size :
  owned (heap e) (s :: l) -> deref (heap e) s = Ret u ->
  let k := size - compute_pdu_header_size e s in 0 < k < seg_size s ->
  exists h, let next := seg_tail s k (heap_next (heap e)) in
    resegment s e size = Ret (seg_head s k, next, e <| heap := h |>) /\
    owned h (seg_head s k :: next :: l) /\ same_others (heap e) h s /\
    deref h s = Ret (u <| sdu_ref_count ::= Z.add 1 |>).
Proof.
  intros Ho Hu k Hk. unfold resegment. rewrite Hu, bind_Ret_l. eexists. split; [|split; [|split]].
  - do 3 f_equal; unfold seg_head, seg_tail, set; cbn; f_equal; lia.
  - by apply owned_split.
  - apply store_others.
  - by apply deref_store.
Qed.

(** ** A segment ready to be sent *)

(** [s] has left its list, may have been shortened, and fits in [n] bytes *)
Record ready (e : nr_rlc_entity_am_t) (s : nr_rlc_sdu_segment_t) (n : Z) : Prop := mk_ready {
  rd_owned : owned (heap e) (s :: am_segs e);
  rd_tx_end : tx_end e = end_of (tx_list e);
  rd_wait_end : wait_end e = end_of (wait_list e);
  rd_avg : exists q, avg_repr (txsdu_avg_time_to_tx (common e)) q;
  rd_fits : compute_pdu_header_size e s + seg_size s <= n;
  rd_apart : forall u, deref (heap e) s = Ret u -> Forall (apart e s (sdu_sn u)) (wait_list e)
}.

Lemma put_ready e s n :
  ready e s n ->
  returns (put_in_wait_list e s) (fun e' =>
    am_tx_inv e' /\ keeps_rx e e' /\ heap e' = heap e /\ s ∈ wait_list e').
Proof.
  intros [Ho He Hw Hq _ Ha]. destruct (owned_deref _ _ s Ho ltac:(left)) as (u & Hu & _).
  eapply returns_mono; [eapply (put_in_wait_list_ok e s u (tx_list e ++ retransmit_list e)); [|done|done|by apply Ha]|].
  - eapply owned_perm; [|exact Ho]. unfold am_segs. solve_Permutation.
  - intros e' (l & Hp & ->). split; [|split; [done|split; [done|simpl; rewrite Hp; left]]].
    constructor; [|exact He|done|exact Hq]. simpl. eapply owned_perm; [|exact Ho].
    unfold am_segs. simpl. rewrite Hp. solve_Permutation.
Qed.

(** the PDU of a segment of the wait list is written *)
Lemma serialize_wait_ok e s buffer p :
  sn_field_length e = 12 \/ sn_field_length e = 18 -> am_tx_inv e -> s ∈ wait_list e ->
  compute_pdu_header_size e s + seg_size s <= zlen buffer ->
  returns (serialize_sdu e s buffer (zlen buffer) p) (fun '(n, e', buffer') =>
    tx_view e' = tx_view e /\ zlen buffer' = zlen buffer /\ 0 < n <= zlen buffer).
Proof.
  intros Hl Hinv Hs Hfit.
  destruct (owned_deref _ _ s (tx_owned _ Hinv)) as (u & Hu & Hok).
  { apply elem_of_app. right. by apply elem_of_app; left. }
  eapply returns_mono; [by eapply serialize_ok|]. intros [[n e'] b]. tauto.
Qed.

(** what a generation of a data PDU promises *)
Definition sent_ok (e : nr_rlc_entity_am_t) (buffer : list Z)
    : Z * nr_rlc_entity_am_t * list Z -> Prop :=
  fun '(n, e', buffer') =>
    am_tx_inv e' /\ keeps_rx e e' /\ 0 <= n <= zlen buffer /\ zlen buffer' = zlen buffer /\
    (n = 0 -> e' = e /\ buffer' = buffer).

Lemma nothing_sent e buffer : am_tx_inv e -> sent_ok e buffer (0, e, buffer).
Proof. intros H. pose proof (zlen_nonneg buffer). unfold sent_ok. split_and!; done || lia. Qed.

(** ** Retransmission *)

Lemma retx_ready e s rest size :
  am_tx_inv e -> retransmit_list e = s :: rest ->
  (forall u, deref (heap e) s = Ret u -> Forall (apart e s (sdu_sn u)) (wait_list e)) ->
  compute_pdu_header_size e s < size ->
  let e1 := add_bs_retx (- (compute_pdu_header_size e s + seg_size s)) (e <| retransmit_list := rest |>) in
  returns (if size <? compute_pdu_header_size e s + seg_size s then
     '(sdu, next_sdu, entity) ← resegment s e1 size;
     let entity := entity <| retransmit_list := next_sdu :: retransmit_list entity |> in
     let entity := add_bs_retx (compute_pdu_header_size entity next_sdu + seg_size next_sdu) entity in
     Ret (sdu, upd_stats (fun s => s <| txpdu_segmented ::= add32 1 |>) entity)
   else Ret (s, e1)) (fun '(s', e') => ready e' s' size /\ keeps_rx e e').
Proof.
  intros [Ho He Hw Hq] Hr Ha Hsize e1.
  assert (Ho1 : owned (heap e1) (s :: am_segs e1)).
  { eapply owned_perm; [|exact Ho]. unfold am_segs. rewrite Hr. simpl. solve_Permutation. }
  destruct (Z.ltb_spec size (compute_pdu_header_size e s + seg_size s)) as [Hlt|Hge].
  - destruct (owned_deref _ _ s Ho1 ltac:(left)) as (u & Hu & _).
    destruct (resegment_ok e1 s u (am_segs e1) size Ho1 Hu) as (h & -> & Hoh & Hoth & Hd).
    { change (compute_pdu_header_size e1 s) with (compute_pdu_header_size e s). lia. }
    change (compute_pdu_header_size e1 s) with (compute_pdu_header_size e s) in *.
    set (k := size - compute_pdu_header_size e s) in *. rewrite bind_Ret_l. apply returns_Ret.
    split; [|done]. constructor; [|exact He|exact Hw|exact Hq|..].
    + eapply owned_perm; [|exact Hoh]. unfold am_segs. simpl. solve_Permutation.
    + change (compute_pdu_header_size e (seg_head s k) + k <= size).
      change (compute_pdu_header_size e (seg_head s k)) with (compute_pdu_header_size e s). lia.
    + intros u' Hu'. simpl in Hu'. change (deref h s = Ret u') in Hu'. rewrite Hd in Hu'. injection Hu' as <-.
      eapply (apart_heap e); [exact Hoth|done|done|done|]. exact (Ha u Hu).
  - apply returns_Ret. split; [|done]. by constructor.
Qed.

Lemma generate_retx_ok e s rest buffer :
  sn_field_length e = 12 \/ sn_field_length e = 18 -> am_tx_inv e -> retransmit_list e = s :: rest ->
  (forall u, deref (heap e) s = Ret u -> Forall (apart e s (sdu_sn u)) (wait_list e)) ->
  returns (generate_retx_pdu e buffer) (sent_ok e buffer).
Proof.
  intros Hl Hinv Hr Ha. unfold generate_retx_pdu. rewrite Hr.
  destruct (Z.ltb_spec (zlen buffer) (compute_pdu_header_size e s + 1)) as [Hlt|Hge].
  { apply returns_Ret. by apply nothing_sent. }
  eapply returns_seq; [apply (retx_ready e s rest); [done|done|done|lia]|]. intros [s' e2] [Hrd Hk2].
  eapply returns_seq; [by eapply put_ready|]. intros e3 (Hi3 & Hk3 & Hh3 & Hs3).
  pose proof (keeps_rx_trans _ _ _ Hk2 Hk3) as Hk. pose proof (rd_fits _ _ _ Hrd) as Hfit.
  destruct (apply_force_poll e3 _) as [p e4] eqn:Ef.
  assert (Hv4 : tx_view e4 = tx_view e3).
  { unfold apply_force_poll in Ef. destruct (force_poll e3); by injection Ef as <- <-. }
  destruct (view_inv _ _ Hv4 Hi3) as [Hi4 Hk4]. pose proof (keeps_rx_trans _ _ _ Hk Hk4) as (Hr4 & Hl4 & Ht4).
  eapply returns_seq; [apply (serialize_wait_ok e4 s' buffer p); [by rewrite Hl4|done|..]|].
  - unfold tx_view in Hv4. by replace (wait_list e4) with (wait_list e3) by congruence.
  - unfold compute_pdu_header_size in *. rewrite Hl4. destruct Hk2 as (_ & Hl2 & _). by rewrite <- Hl2.
  - intros [[n e5] b] (Hv5 & Hb & Hn). apply returns_Ret. destruct (view_inv _ _ Hv5 Hi4) as [Hi5 Hk5].
    split; [by destruct Hi5|]. split; [|split; [lia|split; [done|lia]]].
    eapply keeps_rx_trans; [by split_and!|exact Hk5].
Qed.

(** ** First transmission *)

(** the SN of an SDU that is being transmitted *)
Definition tx_sn (e : nr_rlc_entity_am_t) (u : nr_rlc_sdu_t) : Z :=
  if sdu_sn u =? -1 then tx_next e else sdu_sn u.

(** the SDU has its SN, and nothing else of it has changed *)
Lemma assign_sn_ok e s u l :
  owned (heap e) l -> s ∈ l -> deref (heap e) s = Ret u ->
  returns (assign_sn e s) (fun e' => exists h n,
    e' = e <| heap := h |> <| tx_next := n |> /\ owned h l /\ same_others (heap e) h s /\
    (forall u', deref h s = Ret u' -> sdu_sn u' = tx_sn e u)).
Proof.
  intros Ho Hs Hu. unfold assign_sn, tx_sn. rewrite Hu, bind_Ret_l.
  destruct (sdu_sn u =? -1) eqn:Esn; apply returns_Ret.
  - do 2 eexists. split; [done|]. split_and!; [by eapply owned_store|apply store_others|].
    intros u' Hu'. rewrite deref_store in Hu' by done. by injection Hu' as <-.
  - exists (heap e), (tx_next e). split; [by destruct e|]. split_and!; [done|done|].
    intros u' Hu'. congruence.
Qed.

(** the part of [generate_tx_pdu] that cuts the segment to the grant *)
Lemma tx_cut_ok e s size :
  ready e s (compute_pdu_header_size e s + seg_size s) -> compute_pdu_header_size e s < size ->
  returns (if size <? compute_pdu_header_size e s + seg_size s then
     '(sdu, next_sdu, entity) ← resegment s e size;
     let entity := entity <| tx_list := next_sdu :: tx_list entity |> in
     let entity := match tx_end entity with
                   | None => entity <| tx_end := Some (seg_addr next_sdu) |>
                   | Some _ => entity
                   end in
     let entity := upd_stats (fun s => s <| txpdu_segmented ::= add32 1 |>) entity in
     Ret (sdu, add_bs_tx (compute_pdu_header_size entity next_sdu + seg_size next_sdu) entity)
   else Ret (s, e)) (fun '(s', e') => ready e' s' size /\ keeps_rx e e').
Proof.
  intros [Ho He Hw Hq _ Ha] Hsize.
  destruct (Z.ltb_spec size (compute_pdu_header_size e s + seg_size s)) as [Hlt|Hge];
    [|apply returns_Ret; split; by constructor].
  destruct (owned_deref _ _ s Ho ltac:(left)) as (u & Hu & _).
  destruct (resegment_ok e s u (am_segs e) size Ho Hu ltac:(lia)) as (h & -> & Hoh & Hoth & Hd).
  set (k := size - compute_pdu_header_size e s) in *.
  set (next := seg_tail s k (heap_next (heap e))) in *. rewrite bind_Ret_l. apply returns_Ret. cbv zeta.
  simpl tx_list. simpl tx_end. set (e0 := e <| heap := h |> <| tx_list := next :: tx_list e |>).
  assert (Hpair : exists w, match tx_end e with
      | Some _ => e0 | None => e0 <| tx_end := Some (seg_addr next) |> end = e0 <| tx_end := w |> /\
      w = end_of (next :: tx_list e)).
  { destruct (tx_list e) as [|x l] eqn:El.
    - rewrite He. by eexists.
    - exists (tx_end e). rewrite end_of_cons by done. destruct (tx_end e) as [a|] eqn:Ea.
      + split; [|done]. unfold e0. by destruct e; simpl in *; subst.
      + exfalso. unfold end_of in He. rewrite last_cons in He. by destruct (last l). }
  destruct Hpair as (w & -> & Hend). split; [|done]. constructor; [|exact Hend|exact Hw|exact Hq|..].
  - eapply owned_perm; [|exact Hoh]. unfold am_segs. simpl. solve_Permutation.
  - change (compute_pdu_header_size e (seg_head s k) + k <= size).
    change (compute_pdu_header_size e (seg_head s k)) with (compute_pdu_header_size e s). lia.
  - intros u' Hu'. simpl in Hu'. change (deref h s = Ret u') in Hu'. rewrite Hd in Hu'. injection Hu' as <-.
    eapply (apart_heap e); [exact Hoth|done|done|done|]. exact (Ha u Hu).
Qed.

(** the segment is taken off the transmit list and its SDU gets an SN *)
Lemma tx_taken_ok e s u rest :
  am_tx_inv e -> tx_list e = s :: rest -> deref (heap e) s = Ret u ->
  Forall (apart e s (tx_sn e u)) (wait_list e) ->
  let e1 := e <| tx_list := rest |> in
  let e2 := if list_is_null rest then e1 <| tx_end := None |> else e1 in
  let e3 := add_bs_tx (- (compute_pdu_header_size e s + seg_size s)) e2 in
  returns (assign_sn e3 s) (fun e' =>
    ready e' s (compute_pdu_header_size e' s + seg_size s) /\ keeps_rx e e').
Proof.
  intros [Ho He Hw Hq] Ht Hu Ha e1 e2 e3.
  assert (Hend : tx_end e3 = end_of rest).
  { unfold e3, e2, e1. destruct rest; [done|]. simpl. by rewrite He, Ht. }
  assert (H3 : heap e3 = heap e /\ am_segs e3 = rest ++ wait_list e ++ retransmit_list e /\
    tx_list e3 = rest /\ wait_list e3 = wait_list e /\ wait_end e3 = wait_end e /\ tx_next e3 = tx_next e /\
    common e3 = common e <| bstatus := bstatus (common e3) |> /\ keeps_rx e e3 /\
    tx_next_ack e3 = tx_next_ack e).
  { unfold e3, e2, e1. by destruct (list_is_null rest). }
  clearbody e3. clear e1 e2. destruct H3 as (H1 & H2 & Htx & H3 & H4 & H6 & H7 & Hk & H8).
  assert (Hcmp : forall a b, sn_compare_tx e3 a b = sn_compare_tx e a b).
  { intros a b. destruct Hk as [Hk _]. unfold rx_part in Hk. injection Hk as Hm _.
    unfold sn_compare_tx, modulus_tx. by rewrite Hm, H8. }
  assert (Ho3 : owned (heap e3) (s :: am_segs e3)).
  { rewrite H1, H2. eapply owned_perm; [|exact Ho]. unfold am_segs. by rewrite Ht. }
  rewrite <- H1 in Hu.
  eapply returns_mono; [by apply (assign_sn_ok e3 s u _ Ho3 ltac:(left))|].
  intros e4 (h & n & -> & Ho4 & Hoth & Hsn). split; [|done].
  constructor; [exact Ho4|by rewrite <- Htx in Hend| | |done|].
  - simpl. by rewrite H4, H3.
  - simpl. rewrite H7. exact Hq.
  - simpl. intros u' Hu'. rewrite (Hsn u' Hu'), H3. unfold tx_sn. rewrite H6. fold (tx_sn e u).
    eapply (apart_heap e); [rewrite <- H1; exact Hoth|done|done|exact Hcmp|done].
Qed.

Lemma account_ok c time_now arrival q :
  avg_repr (txsdu_avg_time_to_tx c) q ->
  returns (account_waiting_time c time_now arrival) (fun c' =>
    exists q', avg_repr (txsdu_avg_time_to_tx c') q').
Proof.
  intros Hq. unfold account_waiting_time. destruct (avg_time_is_on c); [|by apply returns_Ret; eexists].
  eapply returns_seq; [by apply add_repr|]. intros t' [Hr _]. apply returns_Ret. by eexists.
Qed.

Lemma poll_new_view e size : tx_view (poll_new_pdu e size).2 = tx_view e.
Proof. unfold poll_new_pdu, apply_force_poll. by case_match. Qed.

Lemma generate_tx_ok e buffer time_now :
  sn_field_length e = 12 \/ sn_field_length e = 18 -> am_tx_inv e ->
  (forall s rest u, tx_list e = s :: rest -> deref (heap e) s = Ret u ->
     Forall (apart e s (tx_sn e u)) (wait_list e)) ->
  returns (generate_tx_pdu e buffer time_now) (sent_ok e buffer).
Proof.
  intros Hl Hinv Ha. unfold generate_tx_pdu.
  destruct (is_window_stalling e); [apply returns_Ret; by apply nothing_sent|].
  destruct (tx_list e) as [|s rest] eqn:Et; [apply returns_Ret; by apply nothing_sent|].
  destruct (Z.ltb_spec (zlen buffer) (compute_pdu_header_size e s + 1)) as [Hlt|Hge].
  { apply returns_Ret. by apply nothing_sent. }
  destruct (owned_deref _ _ s (tx_owned _ Hinv)) as (u & Hu & _).
  { unfold am_segs. rewrite Et. left. }
  eapply returns_seq; [apply (tx_taken_ok e s u rest Hinv Et Hu (Ha s rest u eq_refl Hu))|].
  intros e1 [Hr1 Hk1].
  assert (Hh1 : compute_pdu_header_size e1 s = compute_pdu_header_size e s).
  { unfold compute_pdu_header_size. destruct Hk1 as (_ & Hk1 & _). by rewrite Hk1. }
  rewrite <- Hh1 in *. eapply returns_seq; [apply (tx_cut_ok e1 s); [done|lia]|].
  intros [s' e2] [Hrd Hk2]. eapply returns_seq; [by eapply put_ready|].
  intros e3 (Hi3 & Hk3 & Hh3 & Hs3).
  pose proof (keeps_rx_trans _ _ _ Hk1 (keeps_rx_trans _ _ _ Hk2 Hk3)) as Hk.
  pose proof (rd_fits _ _ _ Hrd) as Hfit. pose proof (poll_new_view e3 (seg_size s')) as Hv4.
  destruct (poll_new_pdu e3 (seg_size s')) as [p e4]. simpl in Hv4.
  destruct (view_inv _ _ Hv4 Hi3) as [Hi4 Hk4]. pose proof (keeps_rx_trans _ _ _ Hk Hk4) as (Hr4 & Hl4 & Ht4).
  eapply returns_seq; [apply (serialize_wait_ok e4 s' buffer p); [by rewrite Hl4|done|..]|].
  - unfold tx_view in Hv4. by replace (wait_list e4) with (wait_list e3) by congruence.
  - unfold compute_pdu_header_size in *. rewrite Hl4. destruct Hk1 as (_ & Hl1 & _), Hk2 as (_ & Hl2 & _).
    by rewrite <- Hl1, <- Hl2.
  - intros [[n e5] b] (Hv5 & Hb & Hn). destruct (view_inv _ _ Hv5 Hi4) as [Hi5 Hk5].
    destruct (owned_deref (heap e5) (am_segs e5) s' (tx_owned _ Hi5)) as (u5 & Hu5 & _).
    { unfold tx_view in Hv4, Hv5. unfold am_segs. replace (wait_list e5) with (wait_list e3) by congruence.
      apply elem_of_app. right. by apply elem_of_app; left. }
    change (heap (upd_stats _ e5)) with (heap e5). rewrite Hu5, bind_Ret_l.
    destruct (tx_avg_ok _ Hi5) as [q Hq].
    eapply returns_seq; [by apply (account_ok _ time_now (sdu_time_of_arrival u5) q)|]. intros c [q' Hq'].
    apply returns_Ret. split; [constructor; [apply Hi5..|by exists q']|].
    split; [|split; [lia|split; [done|lia]]]. eapply keeps_rx_trans; [by split_and!|exact Hk5].
Qed.

(** ** SDUs from the upper layer *)

Lemma recv_sdu_ok e buffer id time_now :
  am_tx_inv e -> 0 < zlen buffer <= NR_SDU_MAX ->
  returns (nr_rlc_entity_am_recv_sdu e buffer id time_now) (fun e' => am_tx_inv e' /\ keeps_rx e e').
Proof.
  intros Hinv Hb. unfold nr_rlc_entity_am_recv_sdu. rewrite (proj2 (Z.ltb_ge _ _)) by lia. cbv zeta.
  set (e0 := if negb _ && _ then _ else _).
  assert (Hv0 : tx_view e0 = tx_view e) by (unfold e0; by destruct (negb _ && _)).
  destruct (view_inv _ _ Hv0 Hinv) as [Hi0 Hk0]. clearbody e0.
  destruct (tx_maxsize e0 <? tx_size e0 + zlen buffer).
  { apply returns_Ret. split; [by destruct Hi0|done]. }
  destruct Hi0 as [Ho He Hw Hq]. pose proof (owned_new (heap e0) (am_segs e0) buffer id Ho ltac:(lia)) as Hnew.
  change (heap (upd_stats _ _)) with (heap e0).
  destruct (nr_rlc_new_sdu (heap e0) buffer id) as [s h]. destruct Hnew as (Hoh & _ & _).
  simpl tx_list. simpl tx_end.
  rewrite He, append_end by (eapply owned_nodup, owned_app_l, Ho). rewrite bind_Ret_l.
  set (e1 := add_bs_tx _ _).
  assert (Hi1 : am_tx_inv e1).
  { constructor; [|simpl; by rewrite end_of_snoc|exact Hw|exact Hq].
    eapply owned_perm; [|exact Hoh]. unfold am_segs. simpl. solve_Permutation. }
  assert (Hk1 : keeps_rx e0 e1) by done. assert (Hs1 : s ∈ am_segs e1).
  { unfold am_segs. simpl. apply elem_of_app. left. apply elem_of_app. right. left. }
  pose proof (keeps_rx_trans _ _ _ Hk0 Hk1) as Hk. clearbody e1.
  destruct (avg_time_is_on (common e1)); [|by apply returns_Ret].
  destruct (owned_deref _ _ s (tx_owned _ Hi1) Hs1) as (u & Hu & _). rewrite Hu, bind_Ret_l.
  apply returns_Ret. split; [|done]. destruct Hi1 as [Ho1 He1 Hw1 Hq1].
  constructor; [by eapply owned_store|done|done|done].
Qed.

(** ** Discard *)

Lemma find_sdu_id_ok h id : forall l,
  Forall (fun t => exists u, deref h t = Ret u) l ->
  returns (find_sdu_id h l id) (fun r => match r with
    | None => True
    | Some (before, s, after) => l = before ++ s :: after
    end).
Proof.
  induction 1 as [|t l [u Hu] _ IH]; simpl; [by apply returns_Ret|]. rewrite Hu, bind_Ret_l.
  destruct (_ =? _); [by apply returns_Ret|]. eapply returns_seq; [exact IH|].
  intros [[[b s] a]|] Hr; apply returns_Ret; [by rewrite Hr|done].
Qed.

Lemma discard_sdu_ok e id :
  am_tx_inv e -> returns (nr_rlc_entity_am_discard_sdu e id) (fun e' => am_tx_inv e' /\ keeps_rx e e').
Proof.
  intros [Ho He Hw Hq]. unfold nr_rlc_entity_am_discard_sdu.
  eapply returns_seq; [apply find_sdu_id_ok|].
  { apply list.Forall_forall. intros t Ht. destruct (owned_deref _ _ t Ho) as (u & Hu & _); [|by eauto].
    by apply elem_of_app; left. }
  intros [[[before cur] after]|] Hr; [|apply returns_Ret; by split].
  destruct (_ || _); [apply returns_Ret; by split|]. cbv zeta.
  set (e0 := e <| tx_list := before ++ after |>).
  set (e1 := if match tx_end e0 with Some a => (a =? seg_addr cur)%nat | None => false end
             then e0 <| tx_end := option_map seg_addr (last before) |> else e0).
  assert (Hp : am_segs e ≡ₚ cur :: (before ++ after) ++ wait_list e ++ retransmit_list e).
  { unfold am_segs. rewrite Hr. solve_Permutation. }
  rewrite Hp in Ho.
  assert (Hown : owned (heap e) (before ++ cur :: after)).
  { eapply (owned_app_l _ _ (wait_list e ++ retransmit_list e)), owned_perm; [|exact Ho]. solve_Permutation. }
  assert (H1 : heap e1 = heap e /\ am_segs e1 = (before ++ after) ++ wait_list e ++ retransmit_list e /\
    tx_end e1 = end_of (tx_list e1) /\ wait_end e1 = end_of (wait_list e1) /\ common e1 = common e /\
    keeps_rx e e1).
  { pose proof (end_of_remove _ _ _ _ Hown) as Hrem. unfold e1, e0. simpl tx_end. rewrite He, Hr.
    destruct (end_of (before ++ cur :: after)) as [a|] eqn:Ea; [|done]. rewrite Nat.eqb_sym.
    destruct (seg_addr cur =? a)%nat.
    - subst after. rewrite app_nil_r. by repeat split.
    - repeat split; simpl; [|done]. rewrite (proj2 Hrem), He, Hr. done. }
  clearbody e1. destruct H1 as (H1 & H2 & H3 & H4 & H5 & Hk).
  destruct (owned_deref _ _ cur Ho ltac:(left)) as (u & Hu & _).
  change (heap (add_bs_tx _ e1)) with (heap e1). rewrite H1, Hu, bind_Ret_l.
  change (heap (add_bs_tx _ e1 <| tx_size ::= _ |>)) with (heap e1). rewrite H1.
  eapply returns_seq; [by apply owned_free|]. intros [b h] [Hoh _]. apply returns_Ret.
  split; [|done]. constructor; [|done|done|simpl; by rewrite H5].
  rewrite <- H2 in Hoh. exact Hoh.
Qed.
