(* ===== verification/RlcAmSafe.v ===== *)
(** The whole acknowledged-mode entity: every call of the MAC and of the upper
    layers keeps the invariants of both sides, whatever STATUS PDUs the peer sends,
    up to two exactly described events: t_poll_retransmit expires with nothing to
    retransmit, or the sequence numbers have all been used and one of them collides. *)

From stdpp Require Import base tactics list numbers gmap list_tactics.
From Stdlib Require Import ZArith Lia.
From S2P Require Import Prelude TimeStat RlcPdu RlcSdu RlcEntity RlcRxList.
From S2P Require Import RlcAmState RlcAmRx RlcAmControl RlcAmTx RlcAmStatus RlcAm RlcAmRxInv.
From S2P Require Import RlcAmRxSpec RlcAmWire RlcAmTransfer RlcAmStatusSpec RlcAmTxInv RlcAmTxOps.

(** ** The invariant of an entity *)

(** [S] is what the peer sends *)
Record am_inv (S : sdu_map) (e : nr_rlc_entity_am_t) : Prop := mk_am_inv {
  ai_config : am_config_ok e;
  ai_rx : am_rx_inv S e;
  ai_timer : timer_ok e;
  ai_tx : am_tx_inv e
}.

(** the transmitting side has changed, the receiving side has not *)
Lemma tx_step S e e' :
  am_inv S e -> am_tx_inv e' -> keeps_rx e e' -> am_inv S e'.
Proof.
  intros [[Hl HM] Hr Ht _] Hx (Hp & Hs & Htp). constructor; [|by eapply rx_part_inv| |done].
  - unfold rx_part in Hp. split; [by rewrite Hs|]. rewrite Hs. congruence.
  - unfold rx_part in Hp. unfold timer_part in Htp. injection Hp as P1 _ P2 _ _ _ _ _.
    injection Htp as T1 T2 T3 _ _. unfold timer_ok, modulus_rx. by rewrite P1, P2, T1, T2, T3.
Qed.

(** the receiving side has changed, the transmitting side has not *)
Lemma rx_step S e e' :
  am_inv S e -> am_rx_inv S e' -> timer_ok e' -> tx_rest e' = tx_rest e -> am_inv S e'.
Proof.
  intros [[Hl HM] _ _ [Ho He Hw Hq]] Hr Ht [= E1 E2 E3 E4 E5 E6 E7 E8 E9 _]. constructor; [|done|done|].
  - split; congruence.
  - constructor; [unfold am_segs; by rewrite E1, E2, E4, E6|congruence|congruence|by rewrite E7].
Qed.

(** ** Reception *)

(** the D/C bit says control PDU *)
Definition is_status (buffer : list Z) : bool :=
  match buffer with [] => true | b :: _ => negb (Z.testbit b 7) end.

Lemma recv_status_split e buffer :
  is_status buffer = true ->
  nr_rlc_entity_am_recv_pdu e buffer = Ret (recv_discard (count_pdu e (zlen buffer)) 0 (zlen buffer)) \/
  nr_rlc_entity_am_recv_pdu e buffer = process_control_pdu (count_pdu e (zlen buffer)) buffer.
Proof.
  intros Hs. unfold nr_rlc_entity_am_recv_pdu. fold (count_pdu e (zlen buffer)).
  destruct buffer as [|b buffer]; [by left|right].
  assert (Hb : bits_of_bytes (b :: buffer) = [] ++ bits_of_Z 1 0 ++
    (bits_of_Z 7 b ++ bits_of_bytes buffer)).
  { change (bits_of_bytes (b :: buffer)) with (Z.testbit b 7 :: bits_of_Z 7 b ++ bits_of_bytes buffer).
    cbn [is_status] in Hs. apply negb_true_iff in Hs. by rewrite Hs. }
  rewrite dec_at_0. eapply (read_step _ [] _ 1 0); [exact Hb|done|lia|lia|]. intros _. done.
Qed.

Lemma recv_status_ok S e buffer :
  am_inv S e -> is_status buffer = true ->
  returns (nr_rlc_entity_am_recv_pdu e buffer) (am_inv S).
Proof.
  intros Hinv Hs. set (e0 := count_pdu e (zlen buffer)).
  assert (Hi0 : am_inv S e0).
  { eapply tx_step; [exact Hinv|by destruct (ai_tx _ _ Hinv)|done]. }
  destruct (recv_status_split e buffer Hs) as [->| ->]; fold e0.
  - apply returns_Ret. eapply tx_step; [exact Hi0|by destruct (ai_tx _ _ Hi0)|done].
  - eapply returns_mono; [apply control_pdu_ok; [apply Hi0|apply Hi0]|].
    intros e' [Hx Hk]. by eapply tx_step.
Qed.

Lemma recv_data_pdu_ok S e buffer :
  am_inv S e -> sent S (sn_field_length e) buffer ->
  returns (nr_rlc_entity_am_recv_pdu e buffer) (am_inv S).
Proof.
  intros Hinv Hs. eapply returns_mono; [apply (recv_sent S); [done|apply Hinv|apply Hinv]|].
  intros e' (Hr & Hf & Ht & _). eapply rx_step; [done|done|apply Ht, Hinv|done].
Qed.

(** ** Generation of PDUs *)

(** the segments in flight can be told apart from the one to be sent next *)
Definition next_apart (e : nr_rlc_entity_am_t) : Prop :=
  (forall s rest u, retransmit_list e = s :: rest -> deref (heap e) s = Ret u ->
     Forall (apart e s (sdu_sn u)) (wait_list e)) /\
  (forall s rest u, tx_list e = s :: rest -> deref (heap e) s = Ret u ->
     Forall (apart e s (tx_sn e u)) (wait_list e)).

Lemma generate_data_ok S e buffer time_now :
  am_inv S e -> next_apart e ->
  returns ('(ret, entity, buffer) ←
      (if negb (list_is_null (retransmit_list e)) then generate_retx_pdu e buffer
       else Ret (0, e, buffer));
    if negb (ret =? 0) then Ret (ret, entity, buffer)
    else generate_tx_pdu entity buffer time_now) (fun '(n, e', buffer') =>
    am_inv S e' /\ 0 <= n <= zlen buffer /\ zlen buffer' = zlen buffer).
Proof.
  intros Hinv [Hretx Htx].
  eapply returns_seq with (P := sent_ok e buffer).
  - destruct (retransmit_list e) as [|s rest] eqn:Er; simpl.
    + apply returns_Ret, nothing_sent, Hinv.
    + apply (generate_retx_ok e s rest); [apply Hinv|apply Hinv|done|]. intros u. by apply (Hretx s rest).
  - intros [[n e1] b1] (Hi1 & Hk1 & Hn & Hb & H0). destruct (Z.eqb_spec n 0) as [->|Hne]; simpl.
    + destruct (H0 eq_refl) as [-> ->]. eapply returns_mono; [apply generate_tx_ok; [apply Hinv|done|done]|].
      intros [[m e2] b2] (Hi2 & Hk2 & Hm & Hb2 & _). split_and!; [by eapply tx_step|lia|lia|done].
    + apply returns_Ret. split_and!; [by eapply tx_step|lia|lia|done].
Qed.

Lemma generate_pdu_ok S e buffer time_now :
  am_inv S e -> next_apart e ->
  returns (nr_rlc_entity_am_generate_pdu e buffer time_now) (fun '(n, e', buffer') =>
    am_inv S e' /\ 0 <= n <= zlen buffer /\ zlen buffer' = zlen buffer).
Proof.
  intros Hinv Hap. unfold nr_rlc_entity_am_generate_pdu.
  destruct (status_to_report e); [|by apply generate_data_ok].
  destruct (Z.lt_ge_cases (zlen buffer) 3) as [Hs|Hs].
  - unfold generate_status. rewrite (proj2 (Z.ltb_lt _ _)) by lia. rewrite bind_Ret_l. by apply generate_data_ok.
  - destruct (ai_config _ _ Hinv) as [Hl HM].
    destruct (generate_status_ok (rx_core _ _ (ai_rx _ _ Hinv)) Hl HM buffer ltac:(lia))
      as (e' & buf & ack & bs & -> & _ & Hlen & Hle & _ & _ & _ & _ & _ & Hpart & Hrest & Htp).
    rewrite bind_Ret_l. pose proof (RlcAmStatusBits.status_len_pos (sn_field_length e) bs).
    rewrite (proj2 (Z.eqb_neq _ _)) by lia. apply returns_Ret.
    split; [|split; [lia|unfold zlen; congruence]].
    eapply rx_step; [exact Hinv|by eapply rx_part_inv; [|apply Hinv]| |done].
    pose proof (ai_timer _ _ Hinv) as Ht. unfold rx_part in Hpart. unfold timer_part in Htp.
    injection Hpart as P1 _ P2 _ _ _ _ _. injection Htp as T1 T2 T3 _ _.
    unfold timer_ok, modulus_rx. by rewrite P1, P2, T1, T2, T3.
Qed.

(** ** Timers *)

(** t_poll_retransmit moves the segments of one SN to the retransmit list *)
Lemma retransmit_sn_loop_ok sn : forall next e cur,
  owned (heap e) (tx_list e ++ (cur :: next) ++ retransmit_list e) ->
  tx_end e = end_of (tx_list e) -> (next <> [] -> wait_end e = end_of next) ->
  (exists q, avg_repr (txsdu_avg_time_to_tx (common e)) q) ->
  returns (retransmit_sn_loop e cur next sn) (fun e' => am_tx_inv e' /\ keeps_rx e e').
Proof.
  induction next as [|cur' next IH]; intros e cur Ho He Hw Hq; cbn [retransmit_sn_loop].
  all: destruct (owned_deref _ _ cur Ho) as (u & Hu & _);
    [apply elem_of_app; right; left|].
  all: set (e1 := add_bs_retx _ _).
  all: assert (Hall : Forall (fun t => exists v, deref (heap e1) t = Ret v) (retransmit_list e1))
    by (apply list.Forall_forall; intros t Ht; destruct (owned_deref _ _ t Ho) as (v & Hv & _);
        [apply elem_of_app; right; apply elem_of_app; by right|by exists v]).
  all: eapply returns_seq; [apply (list_add_ok e1 cur u); [exact Hu|exact Hall]|]; intros l [Hp _].
  - apply returns_Ret. split; [|done]. constructor; [|exact He|done|exact Hq].
    eapply owned_perm; [|exact Ho]. unfold am_segs. simpl. rewrite Hp. simpl. solve_Permutation.
  - destruct (owned_deref _ _ cur' Ho) as (u' & Hu' & _).
    { apply elem_of_app. right. right. left. }
    change (heap (e1 <| retransmit_list := l |>)) with (heap e). rewrite Hu', bind_Ret_l.
    assert (Ho' : owned (heap e) (tx_list e ++ (cur' :: next) ++ l)).
    { eapply owned_perm; [|exact Ho]. rewrite Hp. simpl. solve_Permutation. }
    destruct (sdu_sn u' =? sn).
    + eapply returns_mono; [apply IH|]; [exact Ho'|exact He| |exact Hq|done].
      intros Hn. simpl. rewrite Hw by done. by rewrite end_of_cons.
    + apply returns_Ret. split; [|done]. constructor; [exact Ho'|exact He|simpl; by apply Hw|exact Hq].
Qed.

(** an expiry of t_poll_retransmit finds a segment to retransmit *)
Definition poll_safe (e : nr_rlc_entity_am_t) (now : Z) : Prop :=
  t_poll_retransmit_start e = 0 \/ now <= u64 (t_poll_retransmit_start e + t_poll_retransmit e) \/
  check_poll_after_pdu_assembly e = false \/ wait_list e <> [].

Lemma check_poll_ok e :
  am_tx_inv e -> poll_safe e (t_current e) ->
  returns (check_t_poll_retransmit e) (fun e' => am_tx_inv e' /\ keeps_rx e e').
Proof.
  intros [Ho He Hw Hq] Hsafe. unfold check_t_poll_retransmit.
  destruct (Z.eqb_spec (t_poll_retransmit_start e) 0) as [H0|H0]; [by apply returns_Ret|].
  destruct (Z.leb_spec (t_current e) (u64 (t_poll_retransmit_start e + t_poll_retransmit e))) as [H1|H1];
    [by apply returns_Ret|]. cbn [orb].
  set (e1 := e <| t_poll_retransmit_start := 0 |> <| force_poll := true |>).
  change (check_poll_after_pdu_assembly e1) with (check_poll_after_pdu_assembly e).
  change (wait_list e1) with (wait_list e).
  destruct (check_poll_after_pdu_assembly e) eqn:Ep; simpl negb; cbv iota; [|apply returns_Ret; by split].
  destruct (wait_list e) as [|cur next] eqn:Ewl.
  { exfalso. destruct Hsafe as [?|[?|[?|?]]]; first [congruence|lia]. }
  destruct (owned_deref _ _ cur Ho) as (u & Hu & _).
  { unfold am_segs. rewrite Ewl. apply elem_of_app. right. left. }
  change (heap e1) with (heap e). rewrite Hu, bind_Ret_l.
  eapply returns_seq; [apply retransmit_sn_loop_ok|].
  - simpl. eapply owned_store; [|exact Hu|done..]. unfold am_segs in Ho. by rewrite Ewl in Ho.
  - exact He.
  - intros Hn. simpl. by rewrite Hw, end_of_cons.
  - exact Hq.
  - intros e2 [Hi2 Hk2]. apply returns_Ret. destruct (_ <=? _); [|by split].
    split; [by destruct Hi2|]. by eapply keeps_rx_trans.
Qed.

Lemma check_reassembly_ok S e :
  am_inv S e -> returns (check_t_reassembly e) (am_inv S).
Proof.
  intros Hinv. pose proof Hinv as [[Hl HM] Hr Ht Hx]. unfold check_t_reassembly.
  destruct (Z.eqb_spec (t_reassembly_start e) 0) as [H0|H0]; [by apply returns_Ret|].
  destruct (_ <=? _); [by apply returns_Ret|]. cbn [orb]. cbv zeta.
  destruct (Ht H0) as [Htr Htk]. pose proof Hr as [Hc Hn _].
  pose proof Hc as [[HMW HW] C2 C3 C4 C5 _ C7 _ _ _]. pose proof (core_modulus Hc).
  set (e0 := e <| t_reassembly_start := 0 |>).
  destruct (skip_delivered_ok (sn_modulus e) (rx_next e) (modulus_rx e (rx_next_highest e)) C2
              ltac:(pose proof (core_key_nonneg Hc _ C4); lia) e0 (length (rx_list e0)) (rx_next_status_trigger e0))
    as (sn & -> & Hnd & Hsn & Hk); [done|done|exact C7|exact Htr|apply Htk|apply above_length|].
  rewrite bind_Ret_l. apply returns_Ret.
  change (dist (rx_next e) (sn_modulus e)) with (modulus_rx e) in Hk.
  set (e1 := e0 <| rx_highest_status := sn |> <| status_triggered := true |>).
  assert (Hr1 : am_rx_inv S e1).
  { assert (Hc1 : am_rx_core S (e <| rx_highest_status := sn |>)) by (apply core_set_hs; [done|done|apply Hk]).
    split; [by eapply rx_part_core; [|exact Hc1]|exact Hn|exact Hnd]. }
  destruct (_ || _) eqn:Ec.
  - eapply rx_step; [exact Hinv|by eapply rx_part_inv; [|exact Hr1]| |done].
    intros _. split; [exact C4|]. change (0 < modulus_rx e (rx_next_highest e) <= modulus_rx e (rx_next_highest e)).
    lia.
  - eapply rx_step; [exact Hinv|exact Hr1|by intros|done].
Qed.

Lemma set_time_ok S e now :
  am_inv S e -> poll_safe e now -> returns (nr_rlc_entity_am_set_time e now) (am_inv S).
Proof.
  intros Hinv Hsafe. unfold nr_rlc_entity_am_set_time. set (e0 := e <| t_current := now |>).
  assert (Hi0 : am_inv S e0) by (eapply tx_step; [exact Hinv|by destruct (ai_tx _ _ Hinv)|done]).
  eapply returns_seq; [apply check_poll_ok; [apply Hi0|exact Hsafe]|].
  intros e1 [Hx1 Hk1]. apply check_reassembly_ok. by eapply tx_step.
Qed.

(** ** Re-establishment *)

Definition sdus_bounded (S : sdu_map) : Prop := forall sn, zlen (S sn) <= NR_SDU_MAX.

(** an entity with nothing received satisfies the receiver's invariant for
    whatever the peer is going to send *)
Lemma empty_rx_inv S e :
  sdus_bounded S -> sn_modulus e = 2 * window_size e -> 0 < window_size e ->
  rx_next e = 0 -> rx_highest_status e = 0 -> rx_next_highest e = 0 -> rx_list e = [] ->
  rx_size e = 0 -> 0 <= rx_maxsize e -> am_rx_inv S e.
Proof.
  intros HS HM HW E1 E2 E3 E4 E5 Hmax.
  assert (Hk : modulus_rx e 0 = 0) by (unfold modulus_rx; rewrite E1; done).
  split; [constructor|..]; rewrite ?E1, ?E2, ?E3, ?E4, ?E5, ?Hk; try done; try lia.
  - split; [constructor|constructor|]. intros sn. left. constructor.
  - constructor.
  - unfold sdu_delivered. by rewrite E4.
  - unfold sdu_delivered. by rewrite E4.
Qed.

Lemma rx_maxsize_nonneg S e : am_rx_core S e -> 0 <= rx_maxsize e.
Proof.
  intros [_ _ _ _ _ [_ Hp _] _ _ Hs Hm]. enough (0 <= rx_size e) by lia. rewrite Hs.
  apply sumZ_nonneg. eapply Forall_weaken; [|exact Hp]. intros p [_ Hsz _ _ _]. unfold stored.
  destruct (pdu_data p); lia.
Qed.

(** the peer starts again at SN 0, with other SDUs *)
Lemma reestablishment_ok S S' e :
  am_inv S e -> sdus_bounded S' -> returns (nr_rlc_entity_am_reestablishment e) (am_inv S').
Proof.
  intros [Hcfg Hr Ht [Ho He Hw Hq]] HS'. unfold nr_rlc_entity_am_reestablishment, clear_entity.
  eapply returns_seq; [apply (owned_free_list (tx_list e) _ (wait_list e ++ retransmit_list e)), Ho|].
  intros h1 Ho1. eapply returns_seq; [by apply (owned_free_list (wait_list e) _ (retransmit_list e))|].
  intros h2 Ho2. eapply returns_seq.
  { apply (owned_free_list (retransmit_list e) _ []). by rewrite app_nil_r. }
  intros h3 Ho3. apply returns_Ret. destruct (rx_cfg _ _ (rx_core _ _ Hr)) as [HM HW].
  constructor; [exact Hcfg| |by intros|by constructor].
  apply empty_rx_inv; try done. exact (rx_maxsize_nonneg S e (rx_core _ _ Hr)).
Qed.

(** a new entity *)
Lemma new_am_inv S rx_max tx_max tpr tr tsp pp pb mrt snlen :
  snlen = 12 \/ snlen = 18 -> sdus_bounded S -> 0 <= rx_max ->
  returns (new_nr_rlc_entity_am rx_max tx_max tpr tr tsp pp pb mrt snlen) (am_inv S).
Proof.
  intros Hl HS Hmax. unfold new_nr_rlc_entity_am.
  assert (negb ((snlen =? 12) || (snlen =? 18)) = false) as -> by (by destruct Hl as [-> | ->]).
  eapply returns_seq; [by apply new_repr|]. intros ta [Hta _]. apply returns_Ret. constructor.
  - split; [exact Hl|]. simpl. rewrite Z.shiftl_mul_pow2 by lia. lia.
  - by apply empty_rx_inv; try done; destruct Hl as [-> | ->].
  - by intros ?.
  - constructor; [|done|done|by eexists]. constructor; [constructor|constructor|constructor]; simpl.
    + constructor.
    + intros a u Ha. by rewrite lookup_empty in Ha.
    + intros a u Ha. by rewrite lookup_empty in Ha.
Qed.

(** ** Sequence numbers in flight

    As long as an SN has not been given out twice, the segments of the lists are
    distinct pieces of SDUs with distinct SNs, whatever the peer reports. *)

(** SDUs that are still there have the SNs they had *)
Definition sns_kept (h h' : sdu_heap) : Prop :=
  forall s u', deref h' s = Ret u' -> exists u, deref h s = Ret u /\ sdu_sn u' = sdu_sn u.

#[export] Instance sns_kept_PreOrder : PreOrder sns_kept.
Proof.
  split; [intros h s u Hu; by exists u|]. intros h1 h2 h3 H12 H23 s u Hu.
  destruct (H23 s u Hu) as (v & Hv & ->). destruct (H12 s v Hv) as (w & Hw & ->). by exists w.
Qed.

Lemma store_sns h s u u' : deref h s = Ret u -> sdu_sn u' = sdu_sn u -> sns_kept h (store_sdu h s u').
Proof.
  intros Hu Hsn t v Hv. destruct (decide (seg_sdu t = seg_sdu s)) as [E|E].
  - rewrite deref_store in Hv by done. injection Hv as <-. exists u. split; [|done]. unfold deref in *. by rewrite E.
  - rewrite store_others in Hv by done. by exists v.
Qed.

Lemma free_sns h s b h' : nr_rlc_free_sdu_segment h s = Ret (b, h') -> sns_kept h h'.
Proof.
  unfold nr_rlc_free_sdu_segment. intros H. inv_bind H. case_match; injection H as _ <-; [|by eapply store_sns].
  intros t u. unfold deref. simpl. destruct (decide (seg_sdu s = seg_sdu t)) as [<-|E].
  - by rewrite lookup_delete_eq.
  - rewrite lookup_delete_ne by done. destruct (_ !! _); [|done]. intros [= <-]. eauto.
Qed.

(** segments have left the lists or have moved from the wait list to the retransmit list *)
Record shrinks (e e' : nr_rlc_entity_am_t) : Prop := mk_shrinks {
  sh_tx : tx_list e' ⊆ tx_list e;
  sh_sent : wait_list e' ++ retransmit_list e' ⊆ wait_list e ++ retransmit_list e;
  sh_heap : sns_kept (heap e) (heap e');
  sh_next : tx_next e' = tx_next e;
  sh_modulus : sn_modulus e' = sn_modulus e
}.

#[export] Instance shrinks_PreOrder : PreOrder shrinks.
Proof.
  split; [by intros e; constructor|]. intros e1 e2 e3 [A1 A2 A3 A4 A5] [B1 B2 B3 B4 B5].
  constructor; [by etrans..|congruence|congruence].
Qed.

(** *** STATUS PDUs *)

Lemma ack_segment_sns e s e' :
  ack_segment e s = Ret e' -> tx_frame e' = tx_frame e /\ sns_kept (heap e) (heap e').
Proof.
  unfold ack_segment. intros H. do 2 inv_bind H. destruct v0 as [b h].
  apply free_sns in Hv0. destruct b; by injection H as <-.
Qed.

Lemma nack_segment_sns e s e' :
  nack_segment e s = Ret e' -> tx_frame e' = tx_frame e /\ sns_kept (heap e) (heap e').
Proof.
  unfold nack_segment. intros H. inv_bind H. injection H as <-.
  split; [by destruct (_ <=? _)|]. trans (heap e); [done|]. destruct (_ <=? _); by eapply store_sns.
Qed.

Definition ctl_sent (c : ctl) : list nr_rlc_sdu_segment_t := ctl_wait c ++ c_retx_new c ++ c_retx_cur c.

(** the walk takes segments out of the lists, and adds none *)
Record walks (c c' : ctl) : Prop := mk_walks {
  wk_frame : walk_frame c c';
  wk_sent : ctl_sent c' ⊆ ctl_sent c;
  wk_heap : sns_kept (heap (c_entity c)) (heap (c_entity c'))
}.

#[export] Instance walks_PreOrder : PreOrder walks.
Proof.
  split; [by intros c; constructor|]. intros c1 c2 c3 [A1 A2 A3] [B1 B2 B3].
  constructor; [unfold walk_frame in *; congruence|by etrans..].
Qed.

(** membership in the lists of the walk, once the cursors are known *)
Ltac in_cursors :=
  let x := fresh "x" in unfold ctl_sent, ctl_wait; intros x; simpl;
  repeat match goal with H : _ = _ :: _ |- _ => rewrite H end;
  repeat rewrite ?elem_of_app, ?elem_of_cons, ?list_elem_of_singleton, ?elem_of_nil; tauto.

Lemma wait_head_walks c cur next n ack_sn r c' :
  c_wait_cur c = cur :: next -> process_wait_list_head c cur next n ack_sn = Ret (r, c') -> walks c c'.
Proof.
  intros Hc H. unfold process_wait_list_head in H. inv_bind H.
  case_match; [|case_match; [|case_match; [|case_match]]].
  - inv_bind H. injection H as _ <-. rewrite unlink_eq in *. apply nack_segment_sns in Hv0 as [Hf Hh].
    constructor; [done|in_cursors|done].
  - by injection H as _ <-.
  - inv_bind H. injection H as _ <-. rewrite unlink_eq in *. apply ack_segment_sns in Hv0 as [Hf Hh].
    constructor; [done|in_cursors|done].
  - injection H as _ <-. constructor; [done|in_cursors|done].
  - injection H as _ <-. constructor; [done|in_cursors|done].
Qed.

Lemma retx_head_walks c cur next n ack_sn r c' :
  c_retx_cur c = cur :: next -> process_retransmit_list_head c cur next n ack_sn = Ret (r, c') -> walks c c'.
Proof.
  intros Hc H. unfold process_retransmit_list_head in H. inv_bind H.
  case_match; [|case_match; [|case_match; [|case_match]]].
  - injection H as _ <-. constructor; [done|in_cursors|done].
  - by injection H as _ <-.
  - inv_bind H. injection H as _ <-. apply ack_segment_sns in Hv0 as [Hf Hh]. constructor; [done|in_cursors|done].
  - injection H as _ <-. constructor; [done|in_cursors|done].
  - injection H as _ <-. constructor; [done|in_cursors|done].
Qed.

Lemma next_pdu_walks c n ack_sn r c' : process_next_pdu c n ack_sn = Ret (r, c') -> walks c c'.
Proof.
  unfold process_next_pdu. intros H.
  destruct (c_wait_cur c) eqn:Ew, (c_retx_cur c) eqn:Er.
  - by injection H as _ <-.
  - by eapply retx_head_walks.
  - by eapply wait_head_walks.
  - do 2 inv_bind H. case_match; [by eapply wait_head_walks|by eapply retx_head_walks].
Qed.

Lemma process_nack_walks fuel : forall c n ack_sn b c', process_nack fuel c n ack_sn = Ret (b, c') -> walks c c'.
Proof.
  induction fuel as [|fuel IH]; intros c n ack_sn b c' H; [done|]. simpl in H. inv_bind H.
  destruct v as [r c1]. trans c1; [by eapply next_pdu_walks|]. destruct r; [by eapply IH|by injection H as _ <-..].
Qed.

Lemma process_range_walks k : forall i c b ack_sn c', process_range k i c b ack_sn = Ret c' -> walks c c'.
Proof.
  induction k as [|k IH]; intros i c b ack_sn c' H; cbn [process_range] in H; [by injection H as <-|]. inv_bind H.
  destruct v as [over c1]. trans c1; [by eapply process_nack_walks|]. destruct over; [by injection H as <-|by eapply IH].
Qed.

Lemma process_nacks_walks fuel : forall c d e1 ack_sn c', process_nacks fuel c d e1 ack_sn = Ret c' -> walks c c'.
Proof.
  induction fuel as [|fuel IH]; intros c d e1 ack_sn c' H; simpl in H; (case_match; [by injection H as <-|]); [done|].
  inv_bind H. destruct v as [b d']. inv_bind H. trans v; [by eapply process_range_walks|].
  etrans; [|by eapply IH]. constructor; [|done|]; simpl; unfold walk_frame, stop_poll_if_nacked; simpl; by destruct (_ && _).
Qed.

Lemma ack_wait_walks l : forall c ack_sn c',
  ack_wait_list c l ack_sn = Ret c' -> walks (c <| c_wait_cur := l |>) c'.
Proof.
  induction l as [|cur next IH]; intros c ack_sn c' H; simpl in H; [by injection H as <-|]. inv_bind H.
  case_match; [|by injection H as <-]. inv_bind H. apply ack_segment_sns in Hv0 as [Hf Hh]. apply IH in H.
  etrans; [|exact H]. rewrite unlink_eq in *. constructor; [done|in_cursors|done].
Qed.

Lemma ack_retx_walks l : forall c ack_sn c',
  ack_retransmit_list c l ack_sn = Ret c' -> walks (c <| c_retx_cur := l |>) c'.
Proof.
  induction l as [|cur next IH]; intros c ack_sn c' H; simpl in H; [by injection H as <-|]. inv_bind H.
  case_match; [|by injection H as <-]. inv_bind H. apply ack_segment_sns in Hv0 as [Hf Hh]. apply IH in H.
  etrans; [|exact H]. constructor; [done|in_cursors|done].
Qed.

Lemma store_lists_shrinks c c' :
  walks c c' -> ctl_sent c = wait_list (c_entity c) ++ retransmit_list (c_entity c) ->
  shrinks (c_entity c) (store_lists c').
Proof.
  intros [Hf Hs Hh] Hc. rewrite Hc in Hs. unfold ctl_sent, ctl_wait in Hs. unfold walk_frame, tx_frame in Hf.
  destruct c' as [e' wd wc wl en rn rx rc]. unfold store_lists. simpl in *. rewrite <- !app_assoc in Hs.
  destruct en as [[|a]|]; constructor; simpl; rewrite <- ?app_assoc; try done; try congruence.
  all: by replace (tx_list e') with (tx_list (c_entity c)) by congruence.
Qed.

Lemma update_ack_shrinks e ack_sn e' : update_tx_next_ack e ack_sn = Ret e' -> shrinks e e'.
Proof. unfold update_tx_next_ack. intros H. do 2 inv_bind H. injection H as <-. by constructor. Qed.

Lemma control_pdu_shrinks e buffer e' : process_control_pdu e buffer = Ret e' -> shrinks e e'.
Proof.
  unfold process_control_pdu. intros H. inv_bind H. destruct v; [|by injection H as <-].
  unfold process_valid_control_pdu in H. do 5 (inv_bind H; destruct v as [? ?]).
  set (e1 := if _ <? 0 then _ else e) in H. assert (Hs1 : shrinks e e1) by (unfold e1; by destruct (_ <? 0)).
  trans e1; [done|]. clearbody e1. apply bind_Ret_inv in H as (c1 & H1 & H).
  apply bind_Ret_inv in H as (c2 & H2 & H). apply bind_Ret_inv in H as (c3 & H3 & H).
  etrans; [|by eapply update_ack_shrinks].
  eapply (store_lists_shrinks (mk_ctl e1 [] (wait_list e1) [] None [] [] (retransmit_list e1))).
  - etrans; [by eapply process_nacks_walks|]. etrans; [|by eapply ack_retx_walks].
    apply ack_wait_walks in H2. etrans; [|etrans; [exact H2|]]; [by destruct c1|by destruct c2].
  - unfold ctl_sent, ctl_wait. simpl. by rewrite app_nil_r.
Qed.

(** *** Timers *)

Lemma list_add_elems e s : forall l l', nr_rlc_tx_sdu_segment_list_add e l s = Ret l' -> l' ⊆ s :: l.
Proof.
  induction l as [|t l IH]; intros l' H; simpl in H; [by injection H as <-|]. do 2 inv_bind H.
  case_match; [by injection H as <-|]. inv_bind H. injection H as <-. apply IH in Hv1.
  intros x. specialize (Hv1 x). rewrite !elem_of_cons in *. tauto.
Qed.

Lemma retransmit_sn_loop_shrinks sn : forall next e cur e',
  retransmit_sn_loop e cur next sn = Ret e' -> shrinks (e <| wait_list := cur :: next |>) e'.
Proof.
  induction next as [|cur' next IH]; intros e cur e' H; cbn [retransmit_sn_loop list_is_null] in H; inv_bind H;
    apply list_add_elems in Hv; simpl in Hv.
  - injection H as <-. constructor; simpl; [done|done|done..].
  - assert (Hs : (cur' :: next) ++ v ⊆ (cur :: cur' :: next) ++ retransmit_list e).
    { intros x. specialize (Hv x). rewrite !elem_of_app, !elem_of_cons in *. tauto. }
    inv_bind H. case_match; [apply IH in H; etrans; [|exact H]|injection H as <-]; by constructor.
Qed.

Lemma check_poll_shrinks e e' : check_t_poll_retransmit e = Ret e' -> shrinks e e'.
Proof.
  unfold check_t_poll_retransmit. intros H. case_match; [by injection H as <-|].
  case_match; [by injection H as <-|]. simpl in H. destruct (wait_list e) as [|cur next] eqn:Ew; [done|].
  do 2 inv_bind H. apply retransmit_sn_loop_shrinks in Hv0. trans v0.
  - etrans; [|exact Hv0]. constructor; simpl; [done|by rewrite Ew|by eapply store_sns|done..].
  - injection H as <-. destruct (max_retx_threshold v0 <=? _); by constructor.
Qed.

Lemma rest_shrinks e e' : tx_rest e' = tx_rest e -> shrinks e e'.
Proof.
  intros [= E1 E2 _ E4 _ E6 _ _ E9 E10]. constructor; [by rewrite E2|by rewrite E4, E6|by rewrite E1|done|done].
Qed.

Lemma check_reassembly_shrinks e e' : check_t_reassembly e = Ret e' -> shrinks e e'.
Proof.
  unfold check_t_reassembly. intros H. apply rest_shrinks. case_match; [by injection H as <-|]. inv_bind H.
  injection H as <-. clear H0. by case_match.
Qed.

Lemma set_time_shrinks e now e' : nr_rlc_entity_am_set_time e now = Ret e' -> shrinks e e'.
Proof.
  unfold nr_rlc_entity_am_set_time. intros H. inv_bind H. etrans; [|by eapply check_reassembly_shrinks].
  etrans; [|by eapply check_poll_shrinks]. done.
Qed.

(** *** Discard *)

Lemma find_sdu_id_split h id : forall l b s a, find_sdu_id h l id = Ret (Some (b, s, a)) -> l = b ++ s :: a.
Proof.
  induction l as [|t l IH]; intros b s a H; simpl in H; [done|]. inv_bind H. case_match; [by injection H as <- <- <-|].
  inv_bind H. destruct v0 as [[[b' s'] a']|]; [|done]. injection H as <- <- <-. by rewrite (IH _ _ _ Hv0).
Qed.

Lemma discard_shrinks e id e' : nr_rlc_entity_am_discard_sdu e id = Ret e' -> shrinks e e'.
Proof.
  unfold nr_rlc_entity_am_discard_sdu. intros H. inv_bind H. destruct v as [[[before cur] after]|]; [|by injection H as <-].
  apply find_sdu_id_split in Hv. case_match; [by injection H as <-|]. do 2 inv_bind H. destruct v0 as [b h].
  injection H as <-. apply free_sns in Hv1. simpl in Hv1. destruct (match tx_end _ with Some _ => _ | None => _ end).
  all: constructor; simpl; [rewrite Hv; intros x; rewrite !elem_of_app, elem_of_cons; tauto|done..].
Qed.

(** *** The numbering *)

Definition disjoint_segs (l : list nr_rlc_sdu_segment_t) : Prop :=
  forall s t, s ∈ l -> t ∈ l -> seg_addr s <> seg_addr t -> seg_sdu s = seg_sdu t ->
    seg_so s + seg_size s <= seg_so t \/ seg_so t + seg_size t <= seg_so s.

(** [n] SNs have been given out, out of [M]: the next one is [next] *)
Record numbers (M n next : Z) (h : sdu_heap) (tx sent : list nr_rlc_sdu_segment_t) : Prop := mk_numbers {
  nb_range : 0 <= n <= M;
  nb_next : next = n mod M;
  nb_sn : forall s u, s ∈ tx ++ sent -> deref h s = Ret u -> sdu_sn u = -1 \/ 0 <= sdu_sn u < n;
  nb_sent : forall s u, s ∈ sent -> deref h s = Ret u -> sdu_sn u <> -1;
  nb_distinct : forall s t u v, s ∈ tx ++ sent -> t ∈ tx ++ sent -> seg_sdu s <> seg_sdu t ->
    deref h s = Ret u -> deref h t = Ret v -> sdu_sn u <> -1 -> sdu_sn u <> sdu_sn v;
  nb_disjoint : disjoint_segs (tx ++ sent)
}.

Definition numbered (n : Z) (e : nr_rlc_entity_am_t) : Prop :=
  numbers (sn_modulus e) n (tx_next e) (heap e) (tx_list e) (wait_list e ++ retransmit_list e).

Lemma deref_same h s t : seg_sdu s = seg_sdu t -> deref h s = deref h t.
Proof. unfold deref. by intros ->. Qed.

(** pieces of the same SDUs *)
Definition pieces_of (l' l : list nr_rlc_sdu_segment_t) : Prop :=
  forall x, x ∈ l' -> exists y, y ∈ l /\ seg_sdu y = seg_sdu x.

Lemma numbers_sub M n next h h' tx tx' sent sent' :
  numbers M n next h tx sent -> sns_kept h h' -> pieces_of (tx' ++ sent') (tx ++ sent) ->
  (forall s u, s ∈ sent' -> deref h' s = Ret u -> sdu_sn u <> -1) -> disjoint_segs (tx' ++ sent') ->
  numbers M n next h' tx' sent'.
Proof.
  intros [H1 H2 H3 H4 H5 H6] Hh Hp Hs Hd.
  assert (Hold : forall s u, s ∈ tx' ++ sent' -> deref h' s = Ret u ->
    exists t v, t ∈ tx ++ sent /\ seg_sdu t = seg_sdu s /\ deref h t = Ret v /\ sdu_sn v = sdu_sn u).
  { intros s u Hin Hu. destruct (Hp s Hin) as (t & Ht & E). destruct (Hh s u Hu) as (v & Hv & ->).
    exists t, v. by rewrite (deref_same h t s E). }
  constructor; [done|done| |done| |done].
  - intros s u Hin Hu. destruct (Hold s u Hin Hu) as (t & v & Ht & _ & Hv & <-). by eapply H3.
  - intros s t u v Hsin Htin Hne Hu Hv Hn1. destruct (Hold s u Hsin Hu) as (s0 & u0 & Hs0 & E0 & Hu0 & F0).
    destruct (Hold t v Htin Hv) as (t0 & v0 & Ht0 & E1 & Hv0 & F1). rewrite <- F0, <- F1 in *.
    by eapply (H5 s0 t0); [..|congruence|done|done|].
Qed.

Lemma shrinks_numbered n e e' : shrinks e e' -> numbered n e -> numbered n e'.
Proof.
  intros [S1 S2 S3 S4 S5] H. unfold numbered. rewrite S4, S5.
  assert (Hin : forall x, x ∈ tx_list e' ++ wait_list e' ++ retransmit_list e' ->
    x ∈ tx_list e ++ wait_list e ++ retransmit_list e).
  { intros x [Hx|Hx]%elem_of_app; apply elem_of_app; [left; by apply S1|right; by apply S2]. }
  eapply numbers_sub; [exact H|done| | |].
  - intros x Hx. exists x. split; [by apply Hin|done].
  - intros s u Hs Hu. destruct (S3 s u Hu) as (v & Hv & ->). eapply (nb_sent _ _ _ _ _ _ H s); [by apply S2|done].
  - intros s t Hs Ht. apply (nb_disjoint _ _ _ _ _ _ H); by apply Hin.
Qed.

(** *** New SDUs *)

Lemma recv_sdu_numbered n e buffer id time_now e' :
  am_tx_inv e -> nr_rlc_entity_am_recv_sdu e buffer id time_now = Ret e' -> numbered n e -> numbered n e'.
Proof.
  intros Hinv H Hn. unfold nr_rlc_entity_am_recv_sdu in H. case_match; [done|]. cbv zeta in H.
  set (e0 := if negb _ && _ then _ else _) in H.
  assert (Hv : (heap e0, tx_list e0, tx_end e0, wait_list e0, retransmit_list e0, tx_next e0, sn_modulus e0) =
    (heap e, tx_list e, tx_end e, wait_list e, retransmit_list e, tx_next e, sn_modulus e)).
  { unfold e0. by destruct (negb _ && _). }
  clearbody e0. injection Hv as E1 E2 E3 E4 E5 E6 E7.
  case_match; [injection H as <-; unfold numbered in *; simpl; by rewrite E1, E2, E4, E5, E6, E7|].
  simpl in H. rewrite E2, E3, (tx_end_ok _ Hinv), append_end in H by (eapply owned_nodup, owned_app_l, Hinv).
  rewrite bind_Ret_l in H. set (s := mk_seg _ _ _ _ _ _) in H. set (e1 := add_bs_tx _ _) in H.
  assert (Hnew : numbered n e1).
  { unfold numbered. simpl. rewrite E1, E4, E5, E6, E7. set (h := mk_heap _ _).
    pose proof (own_heap _ _ (tx_owned _ Hinv)) as Hok. set (l := wait_list e ++ retransmit_list e) in *.
    assert (Hfresh : forall t, t ∈ tx_list e ++ l -> seg_sdu t <> seg_sdu s /\ deref h t = deref (heap e) t).
    { intros t Ht. destruct (heap_ok_deref _ _ t Hok Ht) as (u & Hu & _). pose proof (deref_lookup _ _ _ Hu) as Hl.
      assert (Hne : seg_sdu t <> seg_sdu s).
      { intros Eq. rewrite Eq in Hl. apply (ho_fresh _ _ Hok) in Hl. simpl in Hl. rewrite E1 in Hl. lia. }
      split; [done|]. unfold deref, h. simpl. by rewrite lookup_insert_ne by (simpl in Hne; congruence). }
    assert (Hs : forall u, deref h s = Ret u -> sdu_sn u = -1).
    { intros u. unfold deref, h. simpl. rewrite E1, lookup_insert_eq. by intros [= <-]. }
    assert (Hin : forall t, t ∈ (tx_list e ++ [s]) ++ l -> t = s \/ t ∈ tx_list e ++ l).
    { intros t. rewrite !elem_of_app, list_elem_of_singleton. tauto. }
    destruct Hn as [N1 N2 N3 N4 N5 N6]. constructor; [done|done|..].
    - intros t u [->|Ht]%Hin Hu; [left; by apply Hs|]. destruct (Hfresh t Ht) as [_ E]. rewrite E in Hu. by eapply N3.
    - intros t u Ht Hu. assert (Ht' : t ∈ tx_list e ++ l) by (apply elem_of_app; by right).
      destruct (Hfresh t Ht') as [_ E]. rewrite E in Hu. by eapply N4.
    - intros t1 t2 u v [->|G1]%Hin [->|G2]%Hin Hne Hu Hv Hsn; [done| | |].
      + by rewrite (Hs u Hu) in Hsn.
      + rewrite (Hs v Hv). done.
      + destruct (Hfresh t1 G1) as [_ F1], (Hfresh t2 G2) as [_ F2]. rewrite F1 in Hu. rewrite F2 in Hv.
        by eapply (N5 t1 t2).
    - intros t1 t2 [->|G1]%Hin [->|G2]%Hin Ha Hsdu; [done| | |by apply N6].
      + by destruct (Hfresh t2 G2).
      + by destruct (Hfresh t1 G1). }
  case_match; [|by injection H as <-]. inv_bind H. injection H as <-.
  eapply shrinks_numbered; [|exact Hnew]. constructor; [done|done|by eapply store_sns|done|done].
Qed.

(** *** Transmissions *)

(** what the numbering depends on *)
Definition num_view (e : nr_rlc_entity_am_t) :=
  (heap e, tx_list e, wait_list e, retransmit_list e, tx_next e, sn_modulus e).

Lemma view_numbered n e e' : num_view e' = num_view e -> numbered n e -> numbered n e'.
Proof. intros [= E1 E2 E3 E4 E5 E6]. unfold numbered. by rewrite E1, E2, E3, E4, E5, E6. Qed.

Lemma append_elems l en s l' en' :
  nr_rlc_sdu_segment_list_append l en s = Ret (l', en') -> l' ⊆ s :: l.
Proof.
  assert (Ha : forall l a l', append_after a l s = Ret l' -> l' ⊆ s :: l).
  { clear. induction l as [|x l IH]; intros a l' H; simpl in H; [done|].
    case_match; [injection H as <-|inv_bind H; injection H as <-; apply IH in Hv].
    - intros y. rewrite !elem_of_cons, elem_of_nil. tauto.
    - intros y. specialize (Hv y). rewrite !elem_of_cons in *. tauto. }
  unfold nr_rlc_sdu_segment_list_append. intros H. repeat case_match; try done; try inv_bind H; injection H as <- _; try done.
  by eapply Ha.
Qed.

Lemma put_in_wait_view e s e' :
  put_in_wait_list e s = Ret e' ->
  wait_list e' ⊆ s :: wait_list e /\ num_view e' = num_view (e <| wait_list := wait_list e' |>).
Proof.
  unfold put_in_wait_list. intros H. inv_bind H. destruct v.
  - inv_bind H. destruct v as [l en]. injection H as <-. split; [by eapply append_elems|done].
  - inv_bind H. apply list_add_elems in Hv0. destruct v as [|x [|y l]]; by injection H as <-.
Qed.

Lemma serialize_view e s buffer size p n e' buffer' :
  serialize_sdu e s buffer size p = Ret (n, e', buffer') -> num_view e' = num_view e.
Proof.
  unfold serialize_sdu. intros H. do 4 inv_bind H. inv_bind H. destruct v3 as [e1 b1]. injection H as _ <- _.
  destruct p; [|by injection Hv3 as <- _]. unfold include_poll in Hv3. do 2 inv_bind Hv3. by injection Hv3 as <- _.
Qed.

(** a segment is cut in two: its head goes, its tail stays *)
Lemma split_disjoint l l' s k a :
  disjoint_segs l -> s ∈ l -> 0 < k < seg_size s ->
  (forall x, x ∈ l' -> x = seg_head s k \/ x = seg_tail s k a \/ (x ∈ l /\ seg_addr x <> seg_addr s)) ->
  disjoint_segs l'.
Proof.
  intros Hd Hs Hk Hl x y Hx Hy.
  destruct (Hl x Hx) as [->|[->|[Hx' Hxs]]], (Hl y Hy) as [->|[->|[Hy' Hys]]]; simpl; try done; intros Ha He; try lia.
  - destruct (Hd s y Hs Hy'); [done|done|lia|lia].
  - destruct (Hd s y Hs Hy'); [done|done|lia|lia].
  - destruct (Hd x s Hx' Hs); [done|done|lia|lia].
  - destruct (Hd x s Hx' Hs); [done|done|lia|lia].
  - by apply Hd.
Qed.

Lemma resegment_view e s size s' next e' :
  resegment s e size = Ret (s', next, e') ->
  let k := size - compute_pdu_header_size e s in
  s' = seg_head s k /\ next = seg_tail s k (heap_next (heap e)) /\ sns_kept (heap e) (heap e') /\
  num_view e' = num_view (e <| heap := heap e' |>).
Proof.
  unfold resegment. intros H. inv_bind H. injection H as <- <- <-. cbv zeta.
  set (hs := compute_pdu_header_size e s). split_and!; [| | |done].
  - unfold seg_head, set. cbn. f_equal; lia.
  - unfold seg_tail, set. cbn. f_equal; lia.
  - eapply (store_sns _ _ _ _ Hv). done.
Qed.

(** the lists around a segment [s], which is sent, whole or cut *)
Lemma sent_numbers M n nx h h' tx tx' sent sent' s :
  numbers M n nx h tx sent -> NoDup (map seg_addr (tx ++ sent)) -> s ∈ tx ++ sent -> sns_kept h h' ->
  (forall u, deref h s = Ret u -> sdu_sn u <> -1) ->
  (forall x, x ∈ tx' ++ sent' -> x = s \/ (x ∈ tx ++ sent /\ seg_addr x <> seg_addr s)) \/
  (exists k a, 0 < k < seg_size s /\
    forall x, x ∈ tx' ++ sent' -> x = seg_head s k \/ x = seg_tail s k a \/ (x ∈ tx ++ sent /\ seg_addr x <> seg_addr s)) ->
  (forall x, x ∈ sent' -> x ∈ sent \/ seg_sdu x = seg_sdu s) ->
  numbers M n nx h' tx' sent'.
Proof.
  intros Hn Hnd Hs Hh Hsn Hcut Hsent. eapply numbers_sub; [exact Hn|done| | |].
  - intros x Hx. destruct Hcut as [Hall|(k & a & _ & Hall)].
    + destruct (Hall x Hx) as [->|[? _]]; eauto.
    + destruct (Hall x Hx) as [->|[->|[? _]]]; [by exists s..|eauto].
  - intros x u Hx Hu. destruct (Hh x u Hu) as (v & Hv & ->). destruct (Hsent x Hx) as [Hin|E].
    + by eapply (nb_sent _ _ _ _ _ _ Hn).
    + apply Hsn. by rewrite <- (deref_same h x s E).
  - destruct Hcut as [Hall|(k & a & Hk & Hall)].
    + intros x y Hx Hy. apply (nb_disjoint _ _ _ _ _ _ Hn).
      * by destruct (Hall x Hx) as [->|[? _]].
      * by destruct (Hall y Hy) as [->|[? _]].
    + eapply split_disjoint; [apply (nb_disjoint _ _ _ _ _ _ Hn)|exact Hs|exact Hk|exact Hall].
Qed.

Lemma other_addr (a b : list nr_rlc_sdu_segment_t) s x :
  NoDup (map seg_addr (a ++ s :: b)) -> x ∈ a ++ b -> seg_addr x <> seg_addr s.
Proof.
  rewrite map_app. simpl. intros Hnd Hx E. apply NoDup_app in Hnd as (_ & H1 & H2).
  apply NoDup_cons in H2 as [H2 _]. apply elem_of_app in Hx as [Hx|Hx].
  - apply (H1 (seg_addr x)); [by apply list_elem_of_fmap_2|]. rewrite E. left.
  - apply H2. rewrite <- E. by apply list_elem_of_fmap_2.
Qed.

(** a segment that is sent joins the wait list *)
Lemma sent_in_wait n e s e' :
  put_in_wait_list e s = Ret e' ->
  numbers (sn_modulus e) n (tx_next e) (heap e) (tx_list e) (s :: wait_list e ++ retransmit_list e) -> numbered n e'.
Proof.
  intros H Hn. destruct (put_in_wait_view _ _ _ H) as [Hw Hv]. apply (view_numbered n _ _ Hv).
  assert (Hin : forall x, x ∈ wait_list e' ++ retransmit_list e -> x ∈ s :: wait_list e ++ retransmit_list e).
  { intros x. specialize (Hw x). rewrite !elem_of_cons, !elem_of_app in *. tauto. }
  unfold numbered. simpl. eapply numbers_sub; [exact Hn|done| | |].
  - intros x [Hx|Hx]%elem_of_app; exists x; (split; [|done]); apply elem_of_app; [by left|right; by apply Hin].
  - intros x u Hx. apply (nb_sent _ _ _ _ _ _ Hn). by apply Hin.
  - intros x y Hx Hy. apply (nb_disjoint _ _ _ _ _ _ Hn); apply elem_of_app;
      [apply elem_of_app in Hx as [?|?]|apply elem_of_app in Hy as [?|?]]; (by left) || (right; by apply Hin).
Qed.

Lemma generate_retx_numbered n e buffer m e' b' :
  am_tx_inv e -> generate_retx_pdu e buffer = Ret (m, e', b') -> numbered n e -> numbered n e'.
Proof.
  intros Hinv H Hn. unfold generate_retx_pdu in H. destruct (retransmit_list e) as [|s rest] eqn:Er; [done|].
  case_match eqn:Esz; [by injection H as _ <- _|]. cbv zeta in H. apply Z.ltb_ge in Esz.
  apply bind_Ret_inv in H as ([s1 e1] & H1 & H). apply bind_Ret_inv in H as (e2 & H2 & H).
  destruct (apply_force_poll e2 _) as [p e3] eqn:Ef. apply bind_Ret_inv in H as ([[r e4] b4] & H4 & H).
  injection H as _ <- _. apply serialize_view in H4.
  assert (Hv3 : num_view e3 = num_view e2).
  { unfold apply_force_poll in Ef. destruct (force_poll e2); by injection Ef as _ <-. }
  eapply (view_numbered n e2); [etrans; [exact H4|exact Hv3]|]. apply (sent_in_wait n _ _ _ H2).
  pose proof (owned_nodup _ _ (tx_owned _ Hinv)) as Hnd. unfold am_segs in Hnd. rewrite Er in Hnd.
  unfold numbered in Hn. rewrite Er in Hn.
  assert (Hs : s ∈ tx_list e ++ wait_list e ++ s :: rest).
  { rewrite !elem_of_app, elem_of_cons. tauto. }
  assert (Hsn : forall u, deref (heap e) s = Ret u -> sdu_sn u <> -1).
  { intros u. apply (nb_sent _ _ _ _ _ _ Hn). rewrite elem_of_app, elem_of_cons. tauto. }
  assert (Hoth : forall x, x ∈ tx_list e ++ wait_list e ++ rest -> seg_addr x <> seg_addr s).
  { intros x Hx. rewrite app_assoc in Hx, Hnd. by eapply other_addr. }
  case_match eqn:Ecut.
  - apply Z.ltb_lt in Ecut. apply bind_Ret_inv in H1 as ([[sh nx] e5] & H5 & H1). injection H1 as <- <-.
    apply resegment_view in H5 as (-> & -> & Hh & Hv5). unfold num_view in Hv5. simpl in Hv5.
    injection Hv5 as V2 V3 V4 V5 V6. simpl. rewrite V2, V3, V4, V5, V6.
    change (compute_pdu_header_size (add_bs_retx _ _) s) with (compute_pdu_header_size e s) in *.
    eapply (sent_numbers _ n _ (heap e) _ (tx_list e) _ (wait_list e ++ s :: rest)); [done|done|done|done|done| |].
    + right. exists (zlen buffer - compute_pdu_header_size e s), (heap_next (heap e)). split; [lia|].
      intros x. rewrite !elem_of_app, !elem_of_cons, !elem_of_app, !elem_of_cons.
      specialize (Hoth x). rewrite !elem_of_app in Hoth. tauto.
    + intros x. rewrite !elem_of_cons, !elem_of_app, !elem_of_cons. intros [->|[?|[->|?]]]; tauto.
  - injection H1 as <- <-. simpl.
    eapply (sent_numbers _ n _ (heap e) _ (tx_list e) _ (wait_list e ++ s :: rest)); [done|done|done|done|done| |].
    + left. intros x. rewrite !elem_of_app, !elem_of_cons, !elem_of_app.
      specialize (Hoth x). rewrite !elem_of_app in Hoth. tauto.
    + intros x. rewrite !elem_of_cons, !elem_of_app, !elem_of_cons. intros [->|[?|?]]; tauto.
Qed.

(** the SDU of [s] gets the next SN *)
Lemma next_sn_numbers M n nx h tx sent s u :
  numbers M n nx h tx sent -> n < M -> deref h s = Ret u -> sdu_sn u = -1 ->
  numbers M (n + 1) ((nx + 1) %% M) (store_sdu h s (u <| sdu_sn := nx |>)) tx sent.
Proof.
  intros [H1 -> H3 H4 H5 H6] HM Hu Hsn. rewrite (Z.mod_small n M) by lia. set (h' := store_sdu _ _ _).
  assert (Hd : forall t v, deref h' t = Ret v ->
    (seg_sdu t = seg_sdu s /\ sdu_sn v = n) \/ (seg_sdu t <> seg_sdu s /\ deref h t = Ret v)).
  { intros t v Hv. destruct (decide (seg_sdu t = seg_sdu s)) as [E|E].
    - left. unfold h' in Hv. rewrite deref_store in Hv by done. by injection Hv as <-.
    - right. unfold h' in Hv. by rewrite store_others in Hv. }
  constructor; [lia|by rewrite rem_mod by lia| | | |done].
  - intros t v Ht [[_ ->]|[_ Hv]]%Hd; [lia|]. destruct (H3 t v Ht Hv); lia.
  - intros t v Ht [[_ ->]|[_ Hv]]%Hd; [lia|]. by eapply H4.
  - intros t1 t2 v1 v2 Ht1 Ht2 Hne [[E1 F1]|[E1 F1]]%Hd [[E2 F2]|[E2 F2]]%Hd Hn1; [congruence| | |].
    + destruct (H3 t2 v2 Ht2 F2); lia.
    + destruct (H3 t1 v1 Ht1 F1); lia.
    + by eapply (H5 t1 t2).
Qed.

Lemma assign_numbers n e s u e' tx sent :
  assign_sn e s = Ret e' -> deref (heap e) s = Ret u ->
  numbers (sn_modulus e) n (tx_next e) (heap e) tx sent -> s ∈ tx ++ sent ->
  num_view e' = num_view (e <| heap := heap e' |> <| tx_next := tx_next e' |>) /\
  exists n', n <= n' <= n + 1 /\ (sn_modulus e < n' \/
    (numbers (sn_modulus e) n' (tx_next e') (heap e') tx sent /\ forall v, deref (heap e') s = Ret v -> sdu_sn v <> -1)).
Proof.
  unfold assign_sn. intros H Hu Hn Hs. rewrite Hu, bind_Ret_l in H. destruct (Z.eqb_spec (sdu_sn u) (-1)) as [E|E].
  - injection H as <-. split; [done|]. exists (n + 1). split; [lia|]. pose proof (nb_range _ _ _ _ _ _ Hn).
    destruct (Z.lt_ge_cases n (sn_modulus e)); [right|left; lia]. split; [by apply next_sn_numbers|].
    intros v Hv. simpl in Hv. rewrite deref_store in Hv by done. injection Hv as <-. simpl.
    rewrite (nb_next _ _ _ _ _ _ Hn). pose proof (Z.mod_pos_bound n (sn_modulus e) ltac:(lia)). lia.
  - injection H as <-. split; [by destruct e|]. exists n. split; [lia|]. right. split; [done|]. congruence.
Qed.

Lemma assign_header e s e' x : assign_sn e s = Ret e' -> compute_pdu_header_size e' x = compute_pdu_header_size e x.
Proof. unfold assign_sn. intros H. inv_bind H. case_match; by injection H as <-. Qed.

Lemma poll_new_num_view e size : num_view (poll_new_pdu e size).2 = num_view e.
Proof. unfold poll_new_pdu, apply_force_poll. by case_match. Qed.

Lemma generate_tx_numbered n e buffer time_now m e' b' :
  am_tx_inv e -> generate_tx_pdu e buffer time_now = Ret (m, e', b') -> numbered n e ->
  exists n', n <= n' <= n + 1 /\ (sn_modulus e < n' \/ numbered n' e').
Proof.
  intros Hinv H Hn. assert (Hsame : exists n', n <= n' <= n + 1 /\ (sn_modulus e < n' \/ numbered n' e)).
  { exists n. split; [lia|by right]. }
  unfold generate_tx_pdu in H. case_match; [by injection H as _ <- _|].
  destruct (tx_list e) as [|s rest] eqn:Et; [by injection H as _ <- _|].
  case_match eqn:Esz; [by injection H as _ <- _|]. cbv zeta in H. apply Z.ltb_ge in Esz. clear Hsame.
  set (e0 := add_bs_tx _ _) in H.
  assert (Hv0 : num_view e0 = num_view (e <| tx_list := rest |>)) by (unfold e0; by destruct (list_is_null rest)).
  assert (Hhs : forall x, compute_pdu_header_size e0 x = compute_pdu_header_size e x)
    by (unfold e0; by destruct (list_is_null rest)).
  clearbody e0. apply bind_Ret_inv in H as (e1 & H1 & H). apply bind_Ret_inv in H as ([s2 e2] & H2 & H).
  apply bind_Ret_inv in H as (e3 & H3 & H).
  pose proof (poll_new_num_view e3 (seg_size s2)) as Hv4.
  destruct (poll_new_pdu e3 (seg_size s2)) as [p e4]. simpl in Hv4.
  apply bind_Ret_inv in H as ([[r e5] b5] & H5 & H). apply serialize_view in H5. do 2 inv_bind H. injection H as _ <- _.
  unfold num_view in Hv0. simpl in Hv0. injection Hv0 as V1 V2 V3 V4 V5 V6.
  destruct (owned_deref _ _ s (tx_owned _ Hinv)) as (u & Hu & _); [unfold am_segs; rewrite Et; left|].
  unfold numbered in Hn. rewrite Et in Hn.
  assert (Hs : s ∈ (s :: rest) ++ wait_list e ++ retransmit_list e) by left.
  destruct (assign_numbers n e0 s u e1 (s :: rest) (wait_list e ++ retransmit_list e) H1) as (Hview & n' & Hn' & Ha);
    [by rewrite V1|by rewrite V1, V5, V6|done|].
  exists n'. split; [done|]. rewrite V6 in Ha. destruct Ha as [Ha|[Ha Hsn]]; [by left|right].
  eapply (view_numbered n' e3); [etrans; [exact H5|exact Hv4]|]. apply (sent_in_wait n' _ _ _ H3).
  unfold num_view in Hview. simpl in Hview. injection Hview as W2 W3 W4 W6.
  pose proof (owned_nodup _ _ (tx_owned _ Hinv)) as Hnd. unfold am_segs in Hnd. rewrite Et in Hnd.
  assert (Hoth : forall x, x ∈ rest ++ wait_list e ++ retransmit_list e -> seg_addr x <> seg_addr s).
  { intros x Hx. by eapply (other_addr [] _ s x). }
  case_match eqn:Ecut.
  - apply Z.ltb_lt in Ecut. apply bind_Ret_inv in H2 as ([[sh nx] e6] & H6 & H2). injection H2 as <- <-.
    apply resegment_view in H6 as (-> & -> & Hh & Hv6). unfold num_view in Hv6. simpl in Hv6.
    injection Hv6 as X2 X3 X4 X5 X6.
    assert (Hk1 : compute_pdu_header_size e1 s = compute_pdu_header_size e s).
    { rewrite <- Hhs. by apply (assign_header _ s). }
    rewrite Hk1 in *. set (k := zlen buffer - compute_pdu_header_size e s) in *.
    set (tl := seg_tail s k (heap_next (heap e1))) in *.
    set (e7 := add_bs_tx _ _).
    assert (Hv7 : num_view e7 = num_view (e6 <| tx_list := tl :: tx_list e6 |>)).
    { unfold e7. simpl. by destruct (tx_end e6). }
    clearbody e7. unfold num_view in Hv7. simpl in Hv7. injection Hv7 as Y1 Y2 Y3 Y4 Y5 Y6.
    rewrite Y1, Y2, Y3, Y4, Y5, Y6, X2, X3, X4, X5, X6, W2, W3, W4, W6, V2, V3, V4, V6.
    eapply (sent_numbers _ n' _ (heap e1) _ (s :: rest) _ (wait_list e ++ retransmit_list e)); [done|done|done|done|done| |].
    + right. exists k, (heap_next (heap e1)). split; [unfold k; lia|].
      intros x. rewrite !elem_of_app, !elem_of_cons, !elem_of_app.
      specialize (Hoth x). rewrite !elem_of_app in Hoth. tauto.
    + intros x. rewrite !elem_of_cons. intros [->|?]; tauto.
  - injection H2 as <- <-. rewrite W2, W3, W4, W6, V2, V3, V4, V6.
    eapply (sent_numbers _ n' _ (heap e1) _ (s :: rest) _ (wait_list e ++ retransmit_list e)); [done|done|done|done|done| |].
    + left. intros x. rewrite !elem_of_app, !elem_of_cons, !elem_of_app.
      specialize (Hoth x). rewrite !elem_of_app in Hoth. tauto.
    + intros x. rewrite !elem_of_cons. intros [->|?]; tauto.
Qed.

(** *** No two segments in flight are mistaken for each other *)

Lemma compare_apart e a b :
  0 <= a < sn_modulus e -> 0 <= b < sn_modulus e -> a <> b -> sn_compare_tx e a b <> 0.
Proof.
  intros Ha Hb Hne. unfold sn_compare_tx, modulus_tx.
  destruct (Z.ltb_spec (a - tx_next_ack e) 0), (Z.ltb_spec (b - tx_next_ack e) 0); lia.
Qed.

Lemma apart_numbered n e s u :
  am_tx_inv e -> numbered n e -> s ∈ tx_list e ++ retransmit_list e -> deref (heap e) s = Ret u -> sdu_sn u <> -1 ->
  Forall (apart e s (sdu_sn u)) (wait_list e).
Proof.
  intros Hinv [N1 N2 N3 N4 N5 N6] Hs Hu Hsn. apply list.Forall_forall. intros t Ht.
  assert (Hin : s ∈ tx_list e ++ wait_list e ++ retransmit_list e /\ t ∈ tx_list e ++ wait_list e ++ retransmit_list e).
  { rewrite !elem_of_app in *. tauto. }
  destruct Hin as [Hsin Htin]. pose proof (tx_owned _ Hinv) as Ho.
  destruct (owned_deref _ _ s Ho Hsin) as (u' & Hu' & [_ Hss _ _ _]).
  destruct (owned_deref _ _ t Ho Htin) as (v & Hv & [_ Hts _ _ _]). unfold apart. case_match eqn:E.
  - apply Nat.eqb_eq in E. assert (Ha : seg_addr s <> seg_addr t).
    { pose proof (owned_nodup _ _ Ho) as Hnd. unfold am_segs in Hnd.
      apply list_elem_of_split in Ht as (l1 & l2 & Ht). rewrite Ht in Hnd. rewrite <- app_assoc, app_assoc in Hnd. simpl in Hnd.
      eapply (other_addr _ _ t s Hnd). rewrite !elem_of_app in *. tauto. }
    destruct (N6 s t Hsin Htin Ha (eq_sym E)); lia.
  - apply Nat.eqb_neq in E. intros w Hw. rewrite Hv in Hw. injection Hw as <-.
    assert (Htn : sdu_sn v <> -1) by (apply (N4 t); [rewrite elem_of_app; tauto|done]).
    destruct (N3 s u Hsin Hu) as [?|Hus]; [done|]. destruct (N3 t v Htin Hv) as [?|Hvs]; [done|].
    apply compare_apart; [lia|lia|]. by eapply (N5 s t).
Qed.

Lemma numbered_next_apart n e : am_tx_inv e -> numbered n e -> n < sn_modulus e -> next_apart e.
Proof.
  intros Hinv Hn HM. split; intros s rest u El Hu.
  - apply (apart_numbered n); [done|done|rewrite El, elem_of_app, elem_of_cons; tauto|done|].
    apply (nb_sent _ _ _ _ _ _ Hn s); [|done]. rewrite El, elem_of_app, elem_of_cons. tauto.
  - unfold tx_sn. case_match eqn:E.
    + apply Z.eqb_eq in E. destruct Hn as [N1 N2 N3 N4 N5 N6]. apply list.Forall_forall. intros t Ht.
      assert (Htin : t ∈ wait_list e ++ retransmit_list e) by (apply elem_of_app; by left).
      unfold apart. case_match eqn:Es.
      * apply Nat.eqb_eq in Es. destruct (N4 t u Htin); [|done]. by rewrite (deref_same _ t s Es).
      * intros v Hv. destruct (N3 t v) as [Hm|Hvs]; [rewrite elem_of_app; tauto|done|by destruct (N4 t v Htin Hv)|].
        rewrite N2, Z.mod_small by lia. apply compare_apart; lia.
    + apply Z.eqb_neq in E. apply (apart_numbered n); [done|done|rewrite El; left|done|done].
Qed.

#[export] Instance apart_dec e s sn t : Decision (apart e s sn t).
Proof.
  unfold apart. destruct (_ =? _)%nat; [apply _|]. destruct (deref (heap e) t) as [v| | |]; [|by left; intros..].
  destruct (decide (sn_compare_tx e sn (sdu_sn v) <> 0)) as [H|H]; [left; congruence|right].
  intros Hv. by destruct (H (Hv v eq_refl)).
Defined.

#[export] Instance next_apart_dec e : Decision (next_apart e).
Proof.
  apply and_dec.
  - destruct (retransmit_list e) as [|s rest]; [by left|].
    destruct (deref (heap e) s) as [u| | |] eqn:Eu; [|left; intros ? ? ? [= <- <-]; congruence..].
    destruct (decide (Forall (apart e s (sdu_sn u)) (wait_list e))) as [H|H]; [left|right].
    + intros ? ? ? [= <- <-] Hu. congruence.
    + intros Ha. by apply H, (Ha s rest u).
  - destruct (tx_list e) as [|s rest]; [by left|].
    destruct (deref (heap e) s) as [u| | |] eqn:Eu; [|left; intros ? ? ? [= <- <-]; congruence..].
    destruct (decide (Forall (apart e s (tx_sn e u)) (wait_list e))) as [H|H]; [left|right].
    + intros ? ? ? [= <- <-] Hu. congruence.
    + intros Ha. by apply H, (Ha s rest u).
Defined.

(** *** The numbering over all calls *)

Lemma recv_sdu_modulus e buffer id time_now e' :
  nr_rlc_entity_am_recv_sdu e buffer id time_now = Ret e' -> sn_modulus e' = sn_modulus e.
Proof.
  unfold nr_rlc_entity_am_recv_sdu. intros H. case_match; [done|]. cbv zeta in H.
  set (e0 := if negb _ && _ then _ else _) in H.
  assert (E : sn_modulus e0 = sn_modulus e) by (unfold e0; by destruct (negb _ && _)). clearbody e0. rewrite <- E.
  case_match; [by injection H as <-|]. destruct (nr_rlc_new_sdu _ _ _) as [s h]. inv_bind H. destruct v as [l en].
  case_match; [inv_bind H|]; by injection H as <-.
Qed.

Lemma assign_modulus e s e' : assign_sn e s = Ret e' -> sn_modulus e' = sn_modulus e.
Proof. unfold assign_sn. intros H. inv_bind H. case_match; by injection H as <-. Qed.

Lemma put_in_wait_modulus e s e' : put_in_wait_list e s = Ret e' -> sn_modulus e' = sn_modulus e.
Proof. intros H. destruct (put_in_wait_view _ _ _ H) as [_ Hv]. unfold num_view in Hv. simpl in Hv. congruence. Qed.

Lemma serialize_modulus e s buffer size p n e' buffer' :
  serialize_sdu e s buffer size p = Ret (n, e', buffer') -> sn_modulus e' = sn_modulus e.
Proof. intros H%serialize_view. unfold num_view in H. congruence. Qed.

Lemma resegment_modulus e s size s' next e' :
  resegment s e size = Ret (s', next, e') -> sn_modulus e' = sn_modulus e.
Proof. intros H%resegment_view. destruct H as (_ & _ & _ & H). unfold num_view in H. simpl in H. congruence. Qed.

Lemma generate_retx_modulus e buffer m e' b' :
  generate_retx_pdu e buffer = Ret (m, e', b') -> sn_modulus e' = sn_modulus e.
Proof.
  intros H. unfold generate_retx_pdu in H. destruct (retransmit_list e) as [|s rest] eqn:Er; [done|].
  case_match; [by injection H as _ <- _|]. cbv zeta in H.
  apply bind_Ret_inv in H as ([s1 e1] & H1 & H). apply bind_Ret_inv in H as (e2 & H2 & H).
  destruct (apply_force_poll e2 _) as [p e3] eqn:Ef. apply bind_Ret_inv in H as ([[r e4] b4] & H4 & H).
  injection H as _ <- _. simpl. rewrite (serialize_modulus _ _ _ _ _ _ _ _ H4).
  assert (sn_modulus e3 = sn_modulus e2) as ->.
  { unfold apply_force_poll in Ef. destruct (force_poll e2); by injection Ef as _ <-. }
  rewrite (put_in_wait_modulus _ _ _ H2). case_match; [|by injection H1 as _ <-].
  apply bind_Ret_inv in H1 as ([[sh nx] e5] & H5 & H1). injection H1 as _ <-. by apply resegment_modulus in H5.
Qed.

Lemma generate_tx_modulus e buffer time_now m e' b' :
  generate_tx_pdu e buffer time_now = Ret (m, e', b') -> sn_modulus e' = sn_modulus e.
Proof.
  unfold generate_tx_pdu. intros H. case_match; [by injection H as _ <- _|].
  destruct (tx_list e) as [|s rest] eqn:Et; [by injection H as _ <- _|].
  case_match; [by injection H as _ <- _|]. cbv zeta in H. set (e0 := add_bs_tx _ _) in H.
  assert (E : sn_modulus e0 = sn_modulus e) by (unfold e0; by destruct (list_is_null rest)). clearbody e0. rewrite <- E.
  apply bind_Ret_inv in H as (e1 & G1 & H). apply bind_Ret_inv in H as ([s2 e2] & G2 & H).
  apply bind_Ret_inv in H as (e3 & G3 & H). pose proof (poll_new_num_view e3 (seg_size s2)) as Hv4.
  destruct (poll_new_pdu e3 (seg_size s2)) as [p e4]. simpl in Hv4.
  apply bind_Ret_inv in H as ([[r e5] b5] & H5 & H). do 2 inv_bind H. injection H as _ <- _. simpl.
  rewrite (serialize_modulus _ _ _ _ _ _ _ _ H5). unfold num_view in Hv4. replace (sn_modulus e4) with (sn_modulus e3) by congruence.
  rewrite (put_in_wait_modulus _ _ _ G3). rewrite <- (assign_modulus _ _ _ G1).
  case_match; [|by injection G2 as _ <-].
  apply bind_Ret_inv in G2 as ([[sh nx] e6] & H6 & G2). injection G2 as _ <-. apply resegment_modulus in H6.
  simpl. by destruct (tx_end e6).
Qed.

(** at most [k] SNs have been given out since the last re-establishment *)
Definition numbering (k : Z) (e : nr_rlc_entity_am_t) : Prop :=
  sn_modulus e < k \/ exists n, n <= k /\ numbered n e.

Lemma numbering_mono k k' e : k <= k' -> numbering k e -> numbering k' e.
Proof. intros Hk [H|(n & Hn & H)]; [left; lia|right; exists n; split; [lia|done]]. Qed.

Lemma view_numbering k e e' : num_view e' = num_view e -> numbering k e -> numbering k e'.
Proof.
  intros Hv [H|(n & Hn & H)].
  - left. unfold num_view in Hv. by replace (sn_modulus e') with (sn_modulus e) by congruence.
  - right. exists n. split; [done|]. by eapply view_numbered.
Qed.

Lemma shrinks_numbering k e e' : shrinks e e' -> numbering k e -> numbering k e'.
Proof.
  intros Hs [H|(n & Hn & H)]; [left; by rewrite (sh_modulus _ _ Hs)|right]. exists n. split; [done|].
  by eapply shrinks_numbered.
Qed.

(** two segments in flight can be mistaken for each other only after all SNs have been given out *)
Lemma collision_late k e : am_tx_inv e -> numbering k e -> ~ next_apart e -> sn_modulus e <= k.
Proof.
  intros Hinv [H|(n & Hn & H)] Ha; [lia|]. destruct (Z.lt_ge_cases n (sn_modulus e)); [|lia].
  destruct Ha. by eapply numbered_next_apart.
Qed.

Lemma generate_data_numbering S k e buffer time_now m e' b' :
  am_inv S e -> next_apart e -> numbering k e ->
  ('(ret, entity, buffer) ←
      (if negb (list_is_null (retransmit_list e)) then generate_retx_pdu e buffer
       else Ret (0, e, buffer));
    if negb (ret =? 0) then Ret (ret, entity, buffer)
    else generate_tx_pdu entity buffer time_now) = Ret (m, e', b') ->
  numbering (k + 1) e' /\ sn_modulus e' = sn_modulus e.
Proof.
  intros Hinv [Hretx Htx] Hk H. apply bind_Ret_inv in H as ([[r e1] b1] & H1 & H).
  assert (He1 : numbering k e1 /\ sn_modulus e1 = sn_modulus e /\ (r = 0 -> e1 = e)).
  { destruct (retransmit_list e) as [|s rest] eqn:Er; simpl in H1; [by injection H1 as <- <- _|].
    pose proof (generate_retx_modulus _ _ _ _ _ H1) as HM. split_and!; [|done|].
    - destruct Hk as [Hk|(n & Hn & Hk)]; [left; by rewrite HM|right]. exists n. split; [done|].
      by eapply generate_retx_numbered; [apply Hinv|..].
    - pose proof (generate_retx_ok e s rest buffer) as Hret. apply (returns_Ret_inv _ _ _ H1) in Hret;
        [|apply Hinv|apply Hinv|done|intros u; by apply (Hretx s rest)].
      destruct Hret as (_ & _ & _ & _ & H0). intros Hr. by destruct (H0 Hr). }
  destruct He1 as (Hk1 & HM1 & H0). destruct (Z.eqb_spec r 0) as [->|Hne]; simpl in H.
  - rewrite (H0 eq_refl) in *. pose proof (generate_tx_modulus _ _ _ _ _ _ H) as HM. split; [|done].
    destruct Hk as [Hk|(n & Hn & Hk)]; [left; lia|].
    destruct (generate_tx_numbered n e b1 time_now m e' b') as (n' & Hn' & [Hb|Hb]); [apply Hinv|done|done| |].
    + left. lia.
    + right. exists n'. split; [lia|done].
  - injection H as _ <- _. split; [|done]. eapply numbering_mono; [|exact Hk1]. lia.
Qed.

Lemma generate_numbering S k e buffer time_now m e' b' :
  am_inv S e -> next_apart e -> numbering k e ->
  nr_rlc_entity_am_generate_pdu e buffer time_now = Ret (m, e', b') ->
  numbering (k + 1) e' /\ sn_modulus e' = sn_modulus e.
Proof.
  intros Hinv Hap Hk H. unfold nr_rlc_entity_am_generate_pdu in H.
  destruct (status_to_report e); [|by eapply generate_data_numbering].
  destruct (Z.lt_ge_cases (zlen buffer) 3) as [Hs|Hs].
  - unfold generate_status in H. rewrite (proj2 (Z.ltb_lt _ _)) in H by lia. rewrite bind_Ret_l in H.
    exact (generate_data_numbering S k e buffer time_now m e' b' Hinv Hap Hk H).
  - destruct (ai_config _ _ Hinv) as [Hl HM].
    destruct (generate_status_ok (rx_core _ _ (ai_rx _ _ Hinv)) Hl HM buffer ltac:(lia))
      as (e1 & buf & ack & bs & Hg & _ & Hlen & Hle & _ & _ & _ & _ & _ & _ & Hrest & _).
    rewrite Hg, bind_Ret_l in H. pose proof (RlcAmStatusBits.status_len_pos (sn_field_length e) bs).
    rewrite (proj2 (Z.eqb_neq _ _)) in H by lia. injection H as _ <- _. apply rest_shrinks in Hrest.
    split; [|apply Hrest]. eapply numbering_mono; [|by eapply shrinks_numbering]. lia.
Qed.

Lemma empty_numbered e : 0 < sn_modulus e -> tx_next e = 0 -> tx_list e = [] -> wait_list e = [] -> retransmit_list e = [] ->
  numbered 0 e.
Proof.
  intros HM E1 E2 E3 E4. unfold numbered. rewrite E1, E2, E3, E4. simpl.
  constructor; [lia|by rewrite Z.mod_0_l by lia|..]; simpl.
  - by intros s u Hs%not_elem_of_nil.
  - by intros s u Hs%not_elem_of_nil.
  - by intros s t u v Hs%not_elem_of_nil.
  - by intros s t Hs%not_elem_of_nil.
Qed.

Lemma clear_lists e e' : clear_entity e = Ret e' ->
  (tx_next e', tx_list e', wait_list e', retransmit_list e', sn_modulus e') = (0, [], [], [], sn_modulus e).
Proof.
  unfold clear_entity. intros H. do 3 inv_bind H. clear Hv Hv0 Hv1. destruct e. cbn in H. by injection H as <-.
Qed.

#[local] Strategy opaque [clear_entity].

Lemma reestablishment_numbering S e e' :
  am_inv S e -> nr_rlc_entity_am_reestablishment e = Ret e' -> numbering 0 e' /\ sn_modulus e' = sn_modulus e.
Proof.
  unfold nr_rlc_entity_am_reestablishment. intros Hinv H. pose proof (clear_lists e e' H) as E. injection E as E1 E2 E3 E4 E5.
  split; [|done]. right. exists 0. split; [lia|].
  apply empty_numbered; [|done..]. rewrite E5. destruct (rx_cfg _ _ (rx_core _ _ (ai_rx _ _ Hinv))). lia.
Qed.

(** ** All calls *)

(** what the peer and the upper layer give: data PDUs are pieces of the peer's
    SDUs (STATUS PDUs may be anything), SDUs are neither empty nor too long *)
Definition input_ok (L : Z) (S : sdu_map) (op : am_op) : Prop :=
  match op with
  | RecvPdu buffer => is_status buffer = true \/ sent S L buffer
  | RecvSdu buffer _ _ => 0 < zlen buffer <= NR_SDU_MAX
  | _ => True
  end.

(** what the peer sends changes only with a re-establishment *)
Definition peer_after (S : sdu_map) (op : am_op) (S' : sdu_map) : Prop :=
  match op with Reestablishment => sdus_bounded S' | _ => S' = S end.

Fixpoint inputs_ok (L : Z) (S : sdu_map) (ops : list am_op) : Prop :=
  match ops with
  | [] => True
  | op :: ops => input_ok L S op /\ exists S', peer_after S op S' /\ inputs_ok L S' ops
  end.

(** the PDUs asked for since the last re-establishment, [k] at the start *)
Definition pdus_after (k : Z) (op : am_op) : Z :=
  match op with GeneratePdu _ _ => k + 1 | Reestablishment => 0 | _ => k end.

Definition pdus_since (k : Z) (ops : list am_op) : Z := foldl pdus_after k ops.

(** t_poll_retransmit expires, a poll is due, and no PDU waits for its acknowledgement *)
Definition poll_finds_nothing (e : nr_rlc_entity_am_t) (now : Z) : Prop :=
  t_poll_retransmit_start e <> 0 /\ u64 (t_poll_retransmit_start e + t_poll_retransmit e) < now /\
  check_poll_after_pdu_assembly e = true /\ wait_list e = [].

#[export] Instance poll_finds_nothing_dec e now : Decision (poll_finds_nothing e now).
Proof. unfold poll_finds_nothing. destruct (wait_list e); apply _. Defined.

Lemma poll_safe_iff e now : poll_safe e now <-> ~ poll_finds_nothing e now.
Proof.
  unfold poll_safe, poll_finds_nothing. split.
  - intros H (H1 & H2 & H3 & H4). destruct H as [?|[?|[?|?]]]; first [lia|congruence].
  - intros H. destruct (decide (t_poll_retransmit_start e = 0)); [by left|].
    destruct (Z.le_gt_cases now (u64 (t_poll_retransmit_start e + t_poll_retransmit e))); [by right; left|].
    destruct (check_poll_after_pdu_assembly e); [|by right; right; left]. right; right; right. intros E. apply H.
    split_and!; [done|lia|done|done].
Qed.

(** there the code reads through NULL *)
Lemma poll_null e now : poll_finds_nothing e now -> nr_rlc_entity_am_set_time e now = Undef.
Proof.
  intros (H1 & H2 & H3 & H4). unfold nr_rlc_entity_am_set_time, check_t_poll_retransmit.
  change (t_poll_retransmit_start (e <| t_current := now |>)) with (t_poll_retransmit_start e).
  rewrite (proj2 (Z.eqb_neq _ _)) by done.
  change (t_current (e <| t_current := now |>)) with now.
  change (t_poll_retransmit (e <| t_current := now |>)) with (t_poll_retransmit e).
  rewrite (proj2 (Z.leb_gt _ _)) by done. cbn [orb]. cbv zeta. set (e1 := e <| t_current := now |> <| t_poll_retransmit_start := 0 |> <| force_poll := true |>).
  change (check_poll_after_pdu_assembly e1) with (check_poll_after_pdu_assembly e). rewrite H3.
  change (wait_list e1) with (wait_list e). by rewrite H4.
Qed.

(** what a call relies on in the state it finds *)
Definition state_ok (e : nr_rlc_entity_am_t) (op : am_op) : Prop :=
  match op with
  | GeneratePdu _ _ => next_apart e
  | SetTime now => poll_safe e now
  | _ => True
  end.

Lemma am_step_ok S S' e op :
  am_inv S e -> input_ok (sn_field_length e) S op -> state_ok e op -> peer_after S op S' ->
  returns (am_step e op) (am_inv S').
Proof.
  intros Hinv Hin Hst Hpeer. destruct op as [buffer|buffer id t|buffer t|now|id| ]; simpl in *; subst.
  - destruct Hin; [by apply recv_status_ok|by apply recv_data_pdu_ok].
  - eapply returns_mono; [apply recv_sdu_ok; [apply Hinv|done]|]. intros e' [Hx Hk]. by eapply tx_step.
  - eapply returns_seq; [by apply (generate_pdu_ok S)|]. intros [[n e'] b] (Hi & _). by apply returns_Ret.
  - by apply set_time_ok.
  - eapply returns_mono; [apply discard_sdu_ok, Hinv|]. intros e' [Hx Hk]. by eapply tx_step.
  - by eapply reestablishment_ok.
Qed.

Lemma recv_pdu_shrinks S e buffer e' :
  am_inv S e -> is_status buffer = true \/ sent S (sn_field_length e) buffer ->
  nr_rlc_entity_am_recv_pdu e buffer = Ret e' -> shrinks e e'.
Proof.
  intros Hinv [Hs|Hs] H.
  - destruct (recv_status_split e buffer Hs) as [E|E]; rewrite E in H.
    + injection H as <-. by apply rest_shrinks.
    + etrans; [|by eapply control_pdu_shrinks]. by apply rest_shrinks.
  - apply rest_shrinks. by apply (returns_Ret_inv _ _ _ H (recv_sent S e buffer Hs (ai_config _ _ Hinv) (ai_rx _ _ Hinv))).
Qed.

Lemma am_step_numbering S k e op e' :
  am_inv S e -> input_ok (sn_field_length e) S op -> state_ok e op -> numbering k e -> am_step e op = Ret e' ->
  numbering (pdus_after k op) e' /\ sn_modulus e' = sn_modulus e.
Proof.
  intros Hinv Hin Hst Hk H.
  assert (Hsh : shrinks e e' -> numbering k e' /\ sn_modulus e' = sn_modulus e).
  { intros Hs. split; [by eapply shrinks_numbering|apply Hs]. }
  destruct op as [buffer|buffer id t|buffer t|now|id| ]; simpl in *.
  - apply Hsh. by eapply recv_pdu_shrinks.
  - pose proof (recv_sdu_modulus _ _ _ _ _ H) as HM. split; [|done].
    destruct Hk as [Hk|(n & Hn & Hk)]; [left; by rewrite HM|right]. exists n. split; [done|].
    by eapply recv_sdu_numbered; [apply Hinv|..].
  - apply bind_Ret_inv in H as ([[m e1] b1] & H1 & H). injection H as <-. by eapply generate_numbering.
  - apply Hsh. by eapply set_time_shrinks.
  - apply Hsh. by eapply discard_shrinks.
  - by eapply reestablishment_numbering.
Qed.

(** the length of the SNs does not change *)
Lemma same_length S S' e e' : am_inv S e -> am_inv S' e' -> sn_modulus e' = sn_modulus e ->
  sn_field_length e' = sn_field_length e.
Proof.
  intros Hi Hi' E. destruct (ai_config _ _ Hi) as [Hl HM], (ai_config _ _ Hi') as [Hl' HM'].
  rewrite HM, HM' in E. clear HM HM'. destruct Hl as [Hl|Hl], Hl' as [Hl'|Hl']; rewrite Hl, Hl' in *; done.
Qed.

(** the two ways out: the call [op] is made in the state [e], after [k] requests for a PDU *)
Definition am_hazard (k : Z) (e : nr_rlc_entity_am_t) (op : am_op) : Prop :=
  match op with
  | SetTime now => poll_finds_nothing e now /\ am_step e op = Undef
  | GeneratePdu _ _ => ~ next_apart e /\ sn_modulus e <= k
  | _ => False
  end.

Lemma state_or_hazard S k e op : am_inv S e -> numbering k e -> state_ok e op \/ am_hazard k e op.
Proof.
  intros Hinv Hk. destruct op as [| |buffer t|now| |]; simpl; auto.
  - destruct (decide (next_apart e)) as [Ha|Ha]; [by left|right]. split; [done|]. by eapply collision_late; [apply Hinv|..].
  - destruct (decide (poll_finds_nothing e now)) as [Hp|Hp]; [right|left; by apply poll_safe_iff].
    split; [done|by apply poll_null].
Qed.

(** C2: from any state that satisfies its invariant, an acknowledged-mode entity
    goes through every sequence of calls of the MAC and of the upper layers, with
    STATUS PDUs of arbitrary content, data PDUs that are pieces of a peer's SDUs,
    and non-empty SDUs: it never dereferences a freed or NULL SDU, never frees one
    twice, never writes outside a buffer, no loop fails to end, and the invariants
    of both sides hold afterwards. Two things can end this, and no other. At a
    [SetTime] call t_poll_retransmit expires while a poll is due and no PDU waits for
    an acknowledgement: then, and the theorem says so, the code reads through NULL
    (nr_rlc_entity_am.c:1889). Or a PDU is asked for when the segment to be sent has
    the SN, or the SDU and offset, of one that still waits: this takes at least as
    many requests since the last re-establishment as there are SNs (2^12 or 2^18). *)
Theorem am_entity_safe ops : forall S k e,
  am_inv S e -> numbering k e -> inputs_ok (sn_field_length e) S ops ->
  returns (am_run e ops) (fun e' => exists S', am_inv S' e') \/
  exists before op after e1 S1, ops = before ++ op :: after /\ am_run e before = Ret e1 /\ am_inv S1 e1 /\
    am_hazard (pdus_since k before) e1 op.
Proof.
  induction ops as [|op ops IH]; intros S k e Hinv Hk Hok; simpl; [left; apply returns_Ret; by exists S|].
  destruct Hok as [Hin (S' & Hpeer & Hnext)].
  destruct (state_or_hazard S k e op Hinv Hk) as [Hst|Hhaz]; [|right; by exists [], op, ops, e, S].
  destruct (am_step_ok S S' e op Hinv Hin Hst Hpeer) as (e1 & He1 & Hinv1).
  destruct (am_step_numbering S k e op e1 Hinv Hin Hst Hk He1) as [Hk1 HM].
  rewrite He1, bind_Ret_l. rewrite <- (same_length S S' e e1 Hinv Hinv1 HM) in Hnext.
  destruct (IH S' _ e1 Hinv1 Hk1 Hnext) as [Hret|(before & op' & after & e2 & S2 & -> & Hrun & H)]; [by left|right].
  exists (op :: before), op', after, e2, S2. split; [done|]. simpl. by rewrite He1, bind_Ret_l.
Qed.

(** ** Example: an SDU is sent in two segments, the first one is NACKed and sent again *)

Lemma demo_bounded : sdus_bounded demo_map.
Proof. intros sn. unfold demo_map. destruct (sn =? 0); vm_compute; congruence. Qed.

Lemma demo_entity_inv : am_inv demo_map demo_am.
Proof.
  apply (returns_Ret_inv (new_nr_rlc_entity_am 100000 100000 45 35 0 (-1) (-1) 8 12));
    [vm_compute; reflexivity|]. apply new_am_inv; [by left|exact demo_bounded|lia].
Qed.

Lemma demo_numbering : numbering 0 demo_am.
Proof. right. exists 0. split; [done|]. by apply empty_numbered. Qed.

Definition demo_calls : list am_op :=
  [RecvSdu [1; 2; 3; 4; 5] 7 0; GeneratePdu (replicate 4 0) 0; GeneratePdu (replicate 9 0) 0;
   RecvPdu [0; 1; 128; 0; 4; 0; 0; 0; 1]; RecvPdu [0; 255; 255]; GeneratePdu (replicate 9 0) 0;
   SetTime 10; DiscardSdu 7; RecvPdu demo_pdu_tail; Reestablishment].

Lemma demo_inputs_ok : inputs_ok (sn_field_length demo_am) demo_map demo_calls.
Proof.
  assert (Hs : forall op ops, input_ok 12 demo_map op -> peer_after demo_map op demo_map -> inputs_ok 12 demo_map ops ->
    inputs_ok 12 demo_map (op :: ops)).
  { intros op ops H1 H2 H3. split; [done|]. by exists demo_map. }
  unfold demo_calls. repeat (apply Hs; [|by first [reflexivity|exact demo_bounded]|]); try exact I; try (by left).
  - vm_compute. split; congruence.
  - right. exact (proj1 (proj1 (Forall_cons _ _ _) demo_sent)).
Qed.

Lemma am_entity_safe_witness :
  returns (am_run demo_am demo_calls) (fun e' => exists S', am_inv S' e') \/
  exists before op after e1 S1, demo_calls = before ++ op :: after /\ am_run demo_am before = Ret e1 /\ am_inv S1 e1 /\
    am_hazard (pdus_since 0 before) e1 op.
Proof. exact (am_entity_safe demo_calls demo_map 0 demo_am demo_entity_inv demo_numbering demo_inputs_ok). Defined.
