(* ===== verification/RlcAmLimits.v ===== *)
(** Runs of an acknowledged-mode entity outside the contract of the previous
    files: what the code does with PDUs no sender of segments would write, and
    after losses that stall the transmit window. *)

From stdpp Require Import base tactics list numbers.
From Stdlib Require Import ZArith Lia Sorted.
From S2P Require Import Prelude TimeStat RlcPdu RlcSdu RlcEntity RlcRxList RlcAmState RlcAmRx RlcAmControl RlcAmTx.
From S2P Require Import RlcAm RlcAmRxInv RlcAmRxSpec RlcAmWire RlcAmTransfer.

Definition limits_am : nr_rlc_entity_am_t :=
  the (new_nr_rlc_entity_am 100000 100000 45 35 0 (-1) (-1) 8 12).

(** ** Segments behind the end of their SDU *)

(** a data PDU of [sn] with the bytes [d] *)
Definition data_pdu_of (e : nr_rlc_entity_am_t) (p is_first is_last : bool) (sn so : Z) (d pdu : list Z) : Prop :=
  exists hdr, pdu = hdr ++ d /\ zlen hdr = am_header_len (sn_field_length e) is_first /\
    bits_of_bytes hdr = am_header_bits (sn_field_length e) p is_first is_last sn so.

Lemma recv_data_pdu_of e p (f l : bool) sn so d pdu :
  sn_field_length e = 12 \/ sn_field_length e = 18 -> 0 <= sn < 2 ^ sn_field_length e ->
  (if f then so = 0 else 0 < so < 2 ^ 16) -> data_pdu_of e p f l sn so d pdu -> 0 < zlen d ->
  rx_size e + zlen d <= rx_maxsize e -> sn_in_recv_window e sn = true -> segment_already_received e sn so (zlen d) = false ->
  exists e0, rx_part e0 = rx_part e /\ sn_field_length e0 = sn_field_length e /\
    nr_rlc_entity_am_recv_pdu e pdu =
      reception_actions (store_pdu e0 (nr_rlc_new_pdu sn so f l d (zlen d))) sn ≫=
        (fun e' => Ret (if negb (Z.b2z p =? 0) then e' <| status_triggered := true |> else e')).
Proof.
  intros Hlen Hsn Hso (hdr & -> & Hh & Hbits) Hd Hroom Hwin Hnew. exists (count_pdu e (zlen (hdr ++ d))). split; [done|]. split; [done|].
  rewrite (recv_pdu_header e (hdr ++ d) (bits_of_bytes d) p f l sn so) by (done || by rewrite bits_of_bytes_app, Hbits).
  set (e0 := count_pdu _ _). unfold recv_data_pdu. cbn [dp_byte dp_sn dp_so dp_is_first dp_is_last dp_p].
  assert (Hs : zlen (hdr ++ d) - am_header_len (sn_field_length e) f = zlen d) by (rewrite zlen_app; lia). rewrite Hs.
  rewrite (proj2 (Z.leb_gt (zlen d) 0)) by done.
  change (rx_maxsize e0) with (rx_maxsize e). change (rx_size e0) with (rx_size e). rewrite (proj2 (Z.ltb_ge _ _)) by lia.
  change (sn_in_recv_window e0 sn) with (sn_in_recv_window e sn). rewrite Hwin. cbn [negb].
  change (segment_already_received e0 sn so (zlen d)) with (segment_already_received e sn so (zlen d)). rewrite Hnew.
  pose proof (zlen_app hdr d). pose proof (zlen_nonneg hdr). rewrite mem_read_ok by lia. rewrite bind_Ret_l.
  assert (take (Z.to_nat (zlen d)) (drop (Z.to_nat (zlen (hdr ++ d) - zlen d)) (hdr ++ d)) = d) as ->; [|done].
  replace (zlen (hdr ++ d) - zlen d) with (zlen hdr) by (rewrite zlen_app; lia).
  rewrite !to_nat_zlen, drop_app_length. by apply take_ge.
Qed.

Section behind.
Context (S : sdu_map) (e : nr_rlc_entity_am_t) (sn so : Z) (d1 d2 : list Z) (p1 p2 : bool) (far short : list Z).
Context (Hcfg : am_config_ok e) (Hinv : am_rx_inv S e) (Hsn : 0 <= sn < 2 ^ sn_field_length e).
Context (Hwin : sn_in_recv_window e sn = true) (Hnone : of_sn sn (rx_list e) = []).
Context (Hfar : data_pdu_of e p1 false false sn so d1 far) (Hshort : data_pdu_of e p2 true true sn 0 d2 short).
Context (Hd1 : 0 < zlen d1) (Hd2 : 0 < zlen d2 < so) (Hmax : so + zlen d1 <= NR_SDU_MAX).
Context (Hroom : rx_size e + zlen d1 + zlen d2 <= rx_maxsize e).

Let q1 := nr_rlc_new_pdu sn so false false d1 (zlen d1).
Let q2 := nr_rlc_new_pdu sn 0 true true d2 (zlen d2).
Let l1 := nr_rlc_pdu_list_add (sn_compare_rx e) (rx_list e) q1.
Let l2 := nr_rlc_pdu_list_add (sn_compare_rx e) l1 q2.

Lemma others_only : Forall (other_sn sn) (rx_list e).
Proof using Hnone.
  rewrite list.Forall_forall. intros q Hq Heq. assert (Hin : q ∈ of_sn sn (rx_list e)) by by apply list_elem_of_filter.
  rewrite Hnone in Hin. by apply not_elem_of_nil in Hin.
Qed.

Lemma key_sn l q : Forall (fun q => q ∈ rx_list e \/ pdu_sn q = sn) l -> pdu_sn q = sn ->
  forall r, r ∈ l -> modulus_rx e (pdu_sn r) = modulus_rx e (pdu_sn q) -> pdu_sn r = pdu_sn q.
Proof using Hcfg Hinv Hsn.
  intros Hl Hq r Hr Heq. rewrite list.Forall_forall in Hl. destruct (Hl r Hr) as [Hin|Hs]; [|congruence].
  pose proof (rx_window _ _ (rx_core _ _ Hinv)) as Hw. unfold in_window in Hw. rewrite list.Forall_forall in Hw.
  destruct (Hw r Hin) as [Hrange _]. destruct Hcfg as [_ HM]. eapply core_inj; [apply Hinv|done| |done]. by rewrite Hq, HM.
Qed.

Lemma l1_sorted : StronglySorted (pdu_le (modulus_rx e)) l1.
Proof using Hcfg Hinv Hsn.
  apply pdu_list_add_sorted; [done| |apply (rx_buf _ _ (rx_core _ _ Hinv))]. apply key_sn; [|done].
  rewrite list.Forall_forall. by left.
Qed.

Lemma l2_sorted : StronglySorted (pdu_le (modulus_rx e)) l2.
Proof using Hcfg Hinv Hsn.
  apply pdu_list_add_sorted; [done| |exact l1_sorted]. apply key_sn; [|done]. unfold l1. rewrite pdu_list_add_perm. constructor; [by right|].
  rewrite list.Forall_forall. by left.
Qed.

Lemma l1_block : exists b a, sn_block sn l1 b [q1] a.
Proof using Hcfg Hinv Hsn Hnone.
  destruct (sorted_sn_block _ _ sn l1_sorted) as (b & k & a & Hb). exists b, a. enough (k = [q1]) as <- by done.
  rewrite <- (of_sn_block Hb). pose proof (of_sn_add_perm (sn_compare_rx e) (rx_list e) q1 sn eq_refl) as Hp. rewrite Hnone in Hp.
  by apply Permutation_singleton_r.
Qed.

Lemma l2_block : exists b a, sn_block sn l2 b [q2; q1] a.
Proof using All.
  destruct (sorted_sn_block _ _ sn l2_sorted) as (b & k & a & Hb). exists b, a. enough (k = [q2; q1]) as <- by done.
  destruct l1_block as (b1 & a1 & Hb1). pose proof (of_sn_add_perm (sn_compare_rx e) l1 q2 sn eq_refl) as Hp.
  rewrite (of_sn_block Hb1) in Hp. fold l2 in Hp. rewrite (of_sn_block Hb) in Hp.
  symmetry in Hp. apply Permutation_length_2_inv in Hp as [->|Hk]; [done|]. exfalso.
  pose proof l2_sorted as Hs. destruct Hb as [-> _ _ _]. rewrite Hk in Hs.
  assert (Hle : pdu_le (modulus_rx e) q1 q2).
  { clear -Hs. induction b as [|r b IH]; simpl in Hs; inversion Hs as [|? ? Hs' Hall]; subst; [by inversion Hall|by apply IH]. }
  destruct Hle as [Hlt|[_ Hlt]]; simpl in Hlt; lia.
Qed.

(** the first PDU waits for the bytes before it *)
Lemma far_stored : exists e1, nr_rlc_entity_am_recv_pdu e far = Ret e1 /\ rx_list e1 = l1 /\ rx_size e1 = zlen d1 + rx_size e /\
  rx_maxsize e1 = rx_maxsize e /\ sn_modulus e1 = sn_modulus e /\ window_size e1 = window_size e /\ rx_next e1 = rx_next e /\
  sn_field_length e1 = sn_field_length e.
Proof using Hcfg Hinv Hsn Hwin Hnone Hfar Hd1 Hd2 Hmax Hroom.
  destruct Hcfg as [Hlen HM]. unfold NR_SDU_MAX in Hmax. pose proof (zlen_nonneg d2).
  destruct (recv_data_pdu_of e p1 false false sn so d1 far) as (e0 & Hp & Hl & ->); try done; try lia.
  { unfold segment_already_received. rewrite <- (app_nil_r (rx_list e)), already_received_other by exact others_only. apply Z.leb_gt. simpl. lia. }
  unfold rx_part in Hp. injection Hp as P1 P2 P3 _ _ P6 P7 P8. fold q1. unfold reception_actions.
  set (e1 := if 0 <=? _ then _ else _).
  assert (Hcmp : forall a b, sn_compare_rx e0 a b = sn_compare_rx e a b) by (intros; unfold sn_compare_rx, modulus_rx; by rewrite P1, P3).
  assert (E : rx_list e1 = l1 /\ rx_size e1 = zlen d1 + rx_size e /\ rx_maxsize e1 = rx_maxsize e /\ sn_modulus e1 = sn_modulus e /\
    window_size e1 = window_size e /\ rx_next e1 = rx_next e /\ sn_field_length e1 = sn_field_length e).
  { assert (Hadd : nr_rlc_pdu_list_add (sn_compare_rx e0) (rx_list e) q1 = l1).
    { unfold l1, nr_rlc_pdu_list_add. apply insert_before_ext, Forall_true. intros c. unfold pdu_before. by rewrite Hcmp. }
    unfold e1. destruct (0 <=? _); cbn; rewrite ?P1, ?P2, ?P3, ?P6, ?P7, ?P8, ?Hl; split_and!; done. }
  clearbody e1. destruct E as (E1 & E2 & E3 & E4 & E5 & E6 & E7).
  assert (Hfull : sdu_full e1 sn = false).
  { unfold sdu_full. rewrite E1. destruct l1_block as (b & a & Hb). rewrite (find_sn_block Hb). cbn [decide app data_is_null pdu_data q1 nr_rlc_new_pdu].
    rewrite decide_False by done. cbn [app data_is_null pdu_data full_loop pdu_sn pdu_so q1 nr_rlc_new_pdu].
    rewrite Z.eqb_refl, (proj2 (Z.ltb_lt _ _)) by lia. done. }
  rewrite Hfull, !bind_Ret_l. eexists. split; [reflexivity|].
  destruct (timers_rx_part e1) as [Ht _]. unfold rx_part in Ht. injection Ht as T1 T2 T3 _ _ T6 T7 T8.
  assert (T9 : sn_field_length (start_t_reassembly (stop_t_reassembly e1)) = sn_field_length e1)
    by (unfold start_t_reassembly, stop_t_reassembly; by repeat case_match).
  set (e2 := start_t_reassembly (stop_t_reassembly e1)) in *. clearbody e2.
  destruct (negb _); cbn; split_and!; congruence.
Qed.

(** the reassembly reads before the start of the first one *)
Lemma reassembly_before l b a sz :
  sn_block sn l b [q2; q1] a -> reassemble_from free_data l sn sz = Undef.
Proof using e Hd1 Hd2 Hmax.
  intros [-> Hb _ _]. induction Hb as [|q b Hq _ IH].
  - pose proof (zlen_nonneg d2). unfold NR_SDU_MAX in Hmax. cbn [app reassemble_from reassemble_loop q2 nr_rlc_new_pdu pdu_sn pdu_size pdu_so pdu_data]. rewrite Z.eqb_refl.
    rewrite !Z.sub_0_r, Z.add_0_l. cbn [orb]. unfold NR_SDU_MAX.
    rewrite (proj2 (Z.ltb_ge 16000 (zlen d2))), (proj2 (Z.ltb_lt 0 (zlen d2))) by lia. cbn [negb andb].
    rewrite mem_read_ok by lia. rewrite !bind_Ret_l. cbn [orb q1 nr_rlc_new_pdu pdu_sn pdu_size pdu_so pdu_data]. rewrite Z.eqb_refl.
    rewrite (proj2 (Z.ltb_ge 16000 _)), (proj2 (Z.ltb_lt 0 _)) by lia. cbn [negb andb].
    unfold mem_read. rewrite (proj2 (Z.leb_gt 0 (zlen d2 - so))) by lia. done.
  - rewrite <- app_comm_cons. cbn [reassemble_from]. by rewrite (proj2 (Z.eqb_neq _ _) Hq), IH.
Qed.

Lemma short_undefined e1 : rx_list e1 = l1 -> rx_size e1 = zlen d1 + rx_size e ->
  rx_maxsize e1 = rx_maxsize e -> sn_modulus e1 = sn_modulus e -> window_size e1 = window_size e -> rx_next e1 = rx_next e ->
  sn_field_length e1 = sn_field_length e -> nr_rlc_entity_am_recv_pdu e1 short = Undef.
Proof using All.
  intros E1 E2 E3 E4 E5 E6 E7. destruct Hcfg as [Hlen HM]. pose proof (zlen_nonneg d1).
  destruct (recv_data_pdu_of e1 p2 true true sn 0 d2 short) as (e0 & Hp & _ & ->); rewrite ?E2, ?E3, ?E7; try done; try lia.
  { unfold data_pdu_of. by rewrite E7. }
  { rewrite <- Hwin. unfold sn_in_recv_window, modulus_rx. by rewrite E4, E5, E6. }
  { destruct l1_block as (b & a & [Hl Hb _ Ha]). unfold segment_already_received. rewrite E1, Hl. change ([q1] ++ a) with (q1 :: a).
    rewrite already_received_other by done. apply Z.leb_gt. cbn [already_received_loop q1 nr_rlc_new_pdu pdu_sn pdu_so pdu_size].
    rewrite (proj2 (Z.ltb_lt 0 _)), Z.eqb_refl, (proj2 (Z.leb_gt so 0)), (proj2 (Z.leb_gt so _)) by lia. cbn [andb].
    rewrite <- (app_nil_r a), already_received_other by done. simpl. lia. }
  unfold rx_part in Hp. injection Hp as P1 P2 P3 _ _ P6 P7 P8. fold q2. unfold reception_actions.
  set (e2 := if 0 <=? _ then _ else _).
  assert (Hcmp : forall a b, sn_compare_rx e0 a b = sn_compare_rx e a b) by (intros; unfold sn_compare_rx, modulus_rx; by rewrite P1, P3, E4, E6).
  assert (Hl : rx_list e2 = l2).
  { assert (Hadd : nr_rlc_pdu_list_add (sn_compare_rx e0) l1 q2 = l2).
    { unfold l2, nr_rlc_pdu_list_add. apply insert_before_ext, Forall_true. intros c. unfold pdu_before. by rewrite Hcmp. }
    unfold e2. destruct (0 <=? _); cbn; by rewrite P6, E1. }
  clearbody e2. destruct l2_block as (b & a & Hb).
  assert (Hfull : sdu_full e2 sn = true).
  { unfold sdu_full. rewrite Hl, (find_sn_block Hb). rewrite decide_False by done.
    cbn [app data_is_null full_loop q2 nr_rlc_new_pdu pdu_data pdu_sn pdu_so pdu_is_last]. by rewrite Z.eqb_refl. }
  rewrite Hfull. unfold deliver_actions, reassemble_and_deliver. by rewrite Hl, (reassembly_before _ b a).
Qed.
End behind.

(** C37: reassembly trusts the segment marked last to end the SDU. In every state of an
    acknowledged-mode receiver, two data PDUs of any SN of the window of which nothing
    has been received yet, a segment at offset [so] and then a complete SDU of fewer
    than [so] bytes, make [reassemble_and_deliver] compute a negative offset into the
    segment's data and copy from before the start of its buffer. (There must be room for
    both in the reception buffer, and the segment must end within the largest SDU.) *)
Theorem am_reassembly_overread S e sn so d1 d2 p1 p2 far short :
  am_config_ok e -> am_rx_inv S e -> 0 <= sn < 2 ^ sn_field_length e -> sn_in_recv_window e sn = true -> of_sn sn (rx_list e) = [] ->
  data_pdu_of e p1 false false sn so d1 far -> data_pdu_of e p2 true true sn 0 d2 short ->
  0 < zlen d1 -> 0 < zlen d2 < so -> so + zlen d1 <= NR_SDU_MAX -> rx_size e + zlen d1 + zlen d2 <= rx_maxsize e ->
  am_run e [RecvPdu far; RecvPdu short] = Undef.
Proof.
  intros Hcfg Hinv Hsn Hwin Hnone Hfar Hshort Hd1 Hd2 Hmax Hroom. cbn [am_run am_step].
  destruct (far_stored S e sn so d1 d2 p1 far) as (e1 & -> & E); try done. rewrite bind_Ret_l.
  by rewrite (short_undefined S e sn so d1 d2 p1 p2 far short) by (done || apply E).
Qed.

Lemma am_reassembly_overread_witness :
  am_run demo_am [RecvPdu [176; 0; 0; 100; 1; 2; 3]; RecvPdu [128; 0; 1; 2; 3]] = Undef.
Proof.
  apply (am_reassembly_overread demo_map demo_am 0 100 [1; 2; 3] [1; 2; 3] false false).
  - exact demo_config.
  - exact demo_am_inv.
  - vm_compute. split; congruence.
  - reflexivity.
  - reflexivity.
  - exists [176; 0; 0; 100]. split_and!; reflexivity.
  - exists [128; 0]. split_and!; reflexivity.
  - reflexivity.
  - split; reflexivity.
  - vm_compute. congruence.
  - vm_compute. congruence.
Defined.

(** ** NACKs out of order *)

(** three one-byte SDUs sent, SN 0 to 2 waiting for an answer *)
Definition three_sent : list am_op :=
  [SetTime 1; RecvSdu [1] 10 0; RecvSdu [2] 11 0; RecvSdu [3] 12 0;
   GeneratePdu [0; 0; 0] 0; GeneratePdu [0; 0; 0] 0; GeneratePdu [0; 0; 0] 0].

(** STATUS PDU: ACK_SN 3, NACK of SN 2, then of SN 0 *)
Definition status_unordered : list Z := [0; 3; 128; 0; 40; 0; 0].

(** the check that NACKs come in increasing order never rejects anything:
    the variable that remembers the previous NACK is not set in the validation
    pass. A STATUS PDU that NACKs SN 2 and then SN 0 is accepted, SN 0 is
    treated as acknowledged, its successful delivery is reported to the upper
    layer, and it is never retransmitted. *)
Lemma am_nack_order_unchecked :
  returns (am_run limits_am (three_sent ++ [RecvPdu status_unordered])) (fun e =>
    events (common e) = [SduSuccessfulDelivery 10; SduSuccessfulDelivery 11] /\
    length (retransmit_list e) = 1%nat /\ wait_list e = []).
Proof. eexists. split; [vm_compute; reflexivity|]. vm_compute. split_and!; reflexivity. Qed.

(** ** t_poll_retransmit with nothing to retransmit *)

(** expiry of t_poll_retransmit takes the first segment of the wait list
    without a test: whenever the timer has run out, the window is stalled (or
    both buffers are empty) and no segment is waiting, a NULL pointer is
    dereferenced. *)
Lemma am_poll_retransmit_null entity :
  t_poll_retransmit_start entity <> 0 ->
  u64 (t_poll_retransmit_start entity + t_poll_retransmit entity) < t_current entity ->
  check_poll_after_pdu_assembly entity = true -> wait_list entity = [] ->
  check_t_poll_retransmit entity = Undef.
Proof.
  intros Hs Ht Hp Hw. unfold check_t_poll_retransmit.
  rewrite (proj2 (Z.eqb_neq _ _)), (proj2 (Z.leb_gt _ _)) by done. simpl orb. cbv iota zeta.
  change (check_poll_after_pdu_assembly (entity <| t_poll_retransmit_start := 0 |> <| force_poll := true |>))
    with (check_poll_after_pdu_assembly entity). rewrite Hp. simpl. by rewrite Hw.
Qed.

(** an entity that sent a whole window, of which SN 1 to 2047 are acknowledged
    and SN 0 is to be retransmitted *)
Definition stalled_am : nr_rlc_entity_am_t :=
  limits_am <| tx_next := 2048 |> <| t_current := 1 |> <| tx_size := 1 |>
            <| heap := mk_heap {[1%nat := mk_sdu 0 10 [1] 1 0 1 0 0]} 3 |>
            <| retransmit_list := [mk_seg 2 1 1 0 true true] |>.

(** STATUS PDU cut short by a small grant: ACK_SN 1, NACK of SN 0 *)
Definition status_nack_0 : list Z := [0; 1; 128; 0; 0].

(** SN 0 is retransmitted with a poll, lost again, and the timer expires *)
Definition stalled_now : nr_rlc_entity_am_t :=
  the (am_run stalled_am [GeneratePdu [0; 0; 0] 0; RecvPdu status_nack_0]).

Lemma am_poll_retransmit_null_witness :
  check_t_poll_retransmit (stalled_now <| t_current := 100 |>) = Undef.
Proof.
  apply (am_poll_retransmit_null (stalled_now <| t_current := 100 |>)).
  - vm_compute. congruence.
  - vm_compute. reflexivity.
  - vm_compute. reflexivity.
  - vm_compute. reflexivity.
Defined.
