(* ===== verification/RlcUm.v ===== *)
(** The unacknowledged-mode RLC entity:
    src/openair2/LAYER2/nr_rlc/nr_rlc_entity_um.c and nr_rlc_entity_um.h. *)

From stdpp Require Import base tactics list numbers gmap.
From Stdlib Require Import ZArith Lia.
From S2P Require Import Prelude TimeStat RlcPdu RlcSdu RlcEntity RlcRxList.

Record nr_rlc_entity_um_t := mk_um {
  um_common : nr_rlc_entity_t;
  um_t_reassembly : Z;
  um_sn_field_length : Z;
  um_sn_modulus : Z;
  um_window_size : Z;
  um_rx_next_highest : Z;
  um_rx_next_reassembly : Z;
  um_rx_timer_trigger : Z;
  um_tx_next : Z;
  um_t_current : Z;
  um_t_log_buffer_full : Z;
  um_sdu_rejected : Z;
  um_t_reassembly_start : Z;
  um_rx_list : list nr_rlc_pdu_t;
  um_rx_size : Z;
  um_rx_maxsize : Z;
  um_tx_list : list nr_rlc_sdu_segment_t;
  um_tx_end : option nat;
  um_tx_size : Z;
  um_tx_maxsize : Z;
  um_heap : sdu_heap            (** the SDUs the segments point to *)
}.
#[export] Instance um_eta : Eta nr_rlc_entity_um_t :=
  fun e => mk_um (um_common e) (um_t_reassembly e) (um_sn_field_length e) (um_sn_modulus e)
    (um_window_size e) (um_rx_next_highest e) (um_rx_next_reassembly e)
    (um_rx_timer_trigger e) (um_tx_next e) (um_t_current e) (um_t_log_buffer_full e)
    (um_sdu_rejected e) (um_t_reassembly_start e) (um_rx_list e) (um_rx_size e)
    (um_rx_maxsize e) (um_tx_list e) (um_tx_end e) (um_tx_size e) (um_tx_maxsize e)
    (um_heap e).

Definition upd_stats (f : nr_rlc_statistics_t -> nr_rlc_statistics_t)
    (e : nr_rlc_entity_um_t) : nr_rlc_entity_um_t :=
  e <| um_common ::= (fun c => c <| stats ::= f |>) |>.

Definition add_bs_tx (n : Z) (e : nr_rlc_entity_um_t) : nr_rlc_entity_um_t :=
  e <| um_common ::= (fun c => c <| bstatus ::= (fun b => b <| bs_tx_size ::= Z.add n |>) |>) |>.

Definition um_emit (ev : rlc_event) (e : nr_rlc_entity_um_t) : nr_rlc_entity_um_t :=
  e <| um_common ::= emit ev |>.

Definition compute_pdu_header_size (entity : nr_rlc_entity_um_t)
    (sdu : nr_rlc_sdu_segment_t) : Z :=
  let header_size := 1 in
  let header_size :=
    if negb (seg_is_first sdu && seg_is_last sdu) && (um_sn_field_length entity =? 12)
    then header_size + 1 else header_size in
  if negb (seg_is_first sdu) then header_size + 2 else header_size.

(** ** Reception *)

Definition modulus_rx (entity : nr_rlc_entity_um_t) (a : Z) : Z :=
  let r := a - (um_rx_next_highest entity - um_window_size entity) in
  let r := if r <? 0 then r + um_sn_modulus entity else r in
  r %% um_sn_modulus entity.

Definition sn_compare_rx (entity : nr_rlc_entity_um_t) (a b : Z) : Z :=
  modulus_rx entity a - modulus_rx entity b.

Definition sdu_full (entity : nr_rlc_entity_um_t) (sn : Z) : bool :=
  let l := find_sn (um_rx_list entity) sn in
  if data_is_null l then false else full_loop l sn (-1).

Definition sdu_delivered (entity : nr_rlc_entity_um_t) (sn : Z) : bool :=
  data_is_null (find_sn (um_rx_list entity) sn).

Definition sdu_has_missing_bytes (entity : nr_rlc_entity_um_t) (sn : Z) : bool :=
  let l := find_sn (um_rx_list entity) sn in
  if data_is_null l then false else missing_bytes_loop l sn (-1).

(** as in acknowledged mode, but [pdu->size] is also reset *)
Definition free_data (pdu : nr_rlc_pdu_t) : nr_rlc_pdu_t :=
  pdu <| pdu_data := None |> <| pdu_size := 0 |>.

Definition reassemble_and_deliver (entity : nr_rlc_entity_um_t) (sn : Z)
    : outcome nr_rlc_entity_um_t :=
  '(l, so, sdu, bad_sdu, size) ← reassemble_from free_data (um_rx_list entity) sn (um_rx_size entity);
  let entity := entity <| um_rx_list := l |> <| um_rx_size := size |> in
  if (bad_sdu : bool) then Ret entity
  else Ret (upd_stats (fun s => s <| txsdu_pkts ::= add32 1 |> <| txsdu_bytes ::= add64 so |>)
              (um_emit (DeliverSdu sdu) entity)).

(** [while (sdu_delivered(entity, sn)) sn = (sn + 1) % sn_modulus] *)
Fixpoint skip_delivered (fuel : nat) (entity : nr_rlc_entity_um_t) (sn : Z) : outcome Z :=
  if sdu_delivered entity sn then
    match fuel with
    | O => Diverge
    | S fuel => skip_delivered fuel entity ((sn + 1) %% um_sn_modulus entity)
    end
  else Ret sn.

(** discard the PDUs at the head of the list that are out of the reassembly
    window *)
Fixpoint discard_out_of_window (entity : nr_rlc_entity_um_t) (l : list nr_rlc_pdu_t)
    : nr_rlc_entity_um_t :=
  match l with
  | [] => entity <| um_rx_list := [] |>
  | p :: next =>
      if 0 <=? sn_compare_rx entity (pdu_sn p) (um_rx_next_highest entity) then
        let entity := entity <| um_rx_size ::= Z.add (- pdu_size p) |> in
        let entity := upd_stats (fun s => s <| rxpdu_dd_pkts ::= add32 1 |>
                                            <| rxpdu_dd_bytes ::= add32 (pdu_size p) |>
                                            <| rxpdu_ow_pkts ::= add32 1 |>
                                            <| rxpdu_ow_bytes ::= add32 (pdu_size p) |>) entity in
        discard_out_of_window entity next
      else entity <| um_rx_list := l |>
  end.

(** the SDU is not full: the reassembly window may move *)
Definition not_full_actions (entity : nr_rlc_entity_um_t) (x : Z) : outcome nr_rlc_entity_um_t :=
  if 0 <=? sn_compare_rx entity x (um_rx_next_highest entity) then
    let entity := entity <| um_rx_next_highest := (x + 1) %% um_sn_modulus entity |> in
    let entity := discard_out_of_window entity (um_rx_list entity) in
    if 0 <=? sn_compare_rx entity (um_rx_next_reassembly entity) (um_rx_next_highest entity) then
      sn ← skip_delivered (length (um_rx_list entity)) entity
             ((um_rx_next_highest entity - um_window_size entity + um_sn_modulus entity)
              %% um_sn_modulus entity);
      Ret (entity <| um_rx_next_reassembly := sn |>)
    else Ret entity
  else Ret entity.

Definition full_actions (entity : nr_rlc_entity_um_t) (x : Z) : outcome nr_rlc_entity_um_t :=
  entity ← reassemble_and_deliver entity x;
  if x =? um_rx_next_reassembly entity then
    sn ← skip_delivered (length (um_rx_list entity)) entity (um_rx_next_reassembly entity);
    Ret (entity <| um_rx_next_reassembly := sn |>)
  else Ret entity.

Definition stop_t_reassembly (entity : nr_rlc_entity_um_t) : nr_rlc_entity_um_t :=
  if negb (um_t_reassembly_start entity =? 0) then
    if (sn_compare_rx entity (um_rx_timer_trigger entity) (um_rx_next_reassembly entity) <=? 0)
       || (0 <? sn_compare_rx entity (um_rx_timer_trigger entity) (um_rx_next_highest entity))
       || ((um_rx_next_highest entity
              =? (um_rx_next_reassembly entity + 1) %% um_sn_modulus entity)
           && negb (sdu_has_missing_bytes entity (um_rx_next_reassembly entity)))
    then entity <| um_t_reassembly_start := 0 |>
    else entity
  else entity.

Definition start_t_reassembly (entity : nr_rlc_entity_um_t) : nr_rlc_entity_um_t :=
  if um_t_reassembly_start entity =? 0 then
    let after := (um_rx_next_reassembly entity + 1) %% um_sn_modulus entity in
    if (0 <? sn_compare_rx entity (um_rx_next_highest entity) after)
       || ((um_rx_next_highest entity =? after)
           && sdu_has_missing_bytes entity (um_rx_next_reassembly entity))
    then entity <| um_t_reassembly_start := um_t_current entity |>
                <| um_rx_timer_trigger := um_rx_next_highest entity |>
    else entity
  else entity.

Definition reception_actions (entity : nr_rlc_entity_um_t) (x : Z)
    : outcome nr_rlc_entity_um_t :=
  entity ← (if sdu_full entity x then full_actions entity x else not_full_actions entity x);
  Ret (start_t_reassembly (stop_t_reassembly entity)).

Definition recv_discard (entity : nr_rlc_entity_um_t) (size : Z) : nr_rlc_entity_um_t :=
  upd_stats (fun s => s <| rxpdu_dd_pkts ::= add32 1 |> <| rxpdu_dd_bytes ::= add32 size |>) entity.

(** a decoded segment, [byte] bytes of header read *)
Definition recv_segment (entity : nr_rlc_entity_um_t) (buffer : list Z)
    (sn so : Z) (is_first is_last : bool) (byte : Z) : outcome nr_rlc_entity_um_t :=
  let size := zlen buffer in
  let data_size := size - byte in
  if data_size <=? 0 then Ret (recv_discard entity size)
  else if um_rx_maxsize entity <? um_rx_size entity + data_size
  then Ret (recv_discard entity size)
  else if sn_compare_rx entity sn (um_rx_next_reassembly entity) <? 0
  then Ret (recv_discard entity size)
  else
    data ← mem_read buffer (size - data_size) data_size;
    let pdu := nr_rlc_new_pdu sn so is_first is_last data data_size in
    let entity := entity <| um_rx_size ::= Z.add data_size |> in
    let entity := entity <| um_rx_list := nr_rlc_pdu_list_add (sn_compare_rx entity)
                                            (um_rx_list entity) pdu |> in
    reception_actions entity (pdu_sn pdu).

Definition nr_rlc_entity_um_recv_pdu (entity : nr_rlc_entity_um_t) (buffer : list Z)
    : outcome nr_rlc_entity_um_t :=
  let size := zlen buffer in
  let entity := upd_stats (fun s => s <| rxpdu_pkts ::= add32 1 |>
                                      <| rxpdu_bytes ::= add32 size |>) entity in
  let err := Ret (recv_discard entity size) in
  let d := nr_rlc_pdu_decoder_init buffer size in
  bits si, d <- d # 2 orelse err;
  let is_first := Z.land si 2 =? 0 in
  let is_last := Z.land si 1 =? 0 in
  if is_first && is_last then
    if size <? 2 then err
    else
      sdu ← mem_read buffer 1 (size - 1);
      Ret (upd_stats (fun s => s <| txsdu_pkts ::= add32 1 |>
                                 <| txsdu_bytes ::= add64 (size - 1) |>)
             (um_emit (DeliverSdu sdu) entity))
  else
    let read_sn d :=
      bits sn, d <- d # um_sn_field_length entity orelse err;
      if negb is_first then
        bits so, d <- d # 16 orelse err;
        if so =? 0 then err
        else recv_segment entity buffer sn so is_first is_last (dec_byte d)
      else recv_segment entity buffer sn 0 is_first is_last (dec_byte d) in
    if um_sn_field_length entity =? 12 then
      bits r, d <- d # 2 orelse err;
      read_sn d
    else read_sn d.

(** ** Transmission *)

Definition int_of_bool (b : bool) : Z := if b then 1 else 0.

Definition serialize_sdu (entity : nr_rlc_entity_um_t) (sdu : nr_rlc_sdu_segment_t)
    (buffer : list Z) (bufsize : Z) : outcome (Z * list Z) :=
  let enc := nr_rlc_pdu_encoder_init buffer bufsize in
  enc ← nr_rlc_pdu_encoder_put_bits enc (1 - int_of_bool (seg_is_first sdu)) 1;
  enc ← nr_rlc_pdu_encoder_put_bits enc (1 - int_of_bool (seg_is_last sdu)) 1;
  u ← deref (um_heap entity) sdu;
  enc ←
    (if seg_is_first sdu && seg_is_last sdu then nr_rlc_pdu_encoder_put_bits enc 0 6
     else
       enc ← (if um_sn_field_length entity =? 12
              then nr_rlc_pdu_encoder_put_bits enc 0 2 else Ret enc);
       nr_rlc_pdu_encoder_put_bits enc (sdu_sn u) (um_sn_field_length entity));
  enc ← (if negb (seg_is_first sdu)
         then nr_rlc_pdu_encoder_put_bits enc (seg_so sdu) 16 else Ret enc);
  bytes ← mem_read (sdu_data u) (seg_so sdu) (seg_size sdu);
  buffer ← mem_write (enc_buffer enc) (enc_byte enc) bytes;
  Ret (enc_byte enc + seg_size sdu, buffer).

(** [None] for the new segment: no room for one data byte; [ref_count] has
    been incremented all the same *)
Definition resegment (sdu : nr_rlc_sdu_segment_t) (entity : nr_rlc_entity_um_t) (pdu_size : Z)
    : outcome (nr_rlc_sdu_segment_t * option nr_rlc_sdu_segment_t * nr_rlc_entity_um_t) :=
  u ← deref (um_heap entity) sdu;
  let h := store_sdu (um_heap entity) sdu (u <| sdu_ref_count ::= Z.add 1 |>) in
  let pdu_header_size := compute_pdu_header_size entity (sdu <| seg_is_last := false |>) in
  if pdu_size <? pdu_header_size + 1 then Ret (sdu, None, entity <| um_heap := h |>)
  else
    let next := sdu <| seg_addr := heap_next h |> in
    let h := h <| heap_next ::= S |> in
    let over_size := pdu_header_size + seg_size sdu - pdu_size in
    let sdu := sdu <| seg_size := seg_size sdu - over_size |> <| seg_is_last := false |> in
    let next := next <| seg_size := over_size |>
                     <| seg_so := seg_so sdu + seg_size sdu |>
                     <| seg_is_first := false |> in
    let entity := upd_stats (fun s => s <| txpdu_segmented ::= add32 1 |>)
                    (entity <| um_heap := h |>) in
    Ret (sdu, Some next, entity).

(** after the (possible) segmentation: serialise, account and free *)
Definition send_segment (entity : nr_rlc_entity_um_t) (sdu : nr_rlc_sdu_segment_t)
    (buffer : list Z) (time_now : Z) : outcome (Z * nr_rlc_entity_um_t * list Z) :=
  let size := zlen buffer in
  let entity :=
    if negb (seg_is_first sdu) && seg_is_last sdu
    then entity <| um_tx_next := (um_tx_next entity + 1) %% um_sn_modulus entity |>
    else entity in
  '(ret, buffer) ← serialize_sdu entity sdu buffer size;
  let entity := entity <| um_tx_size ::= Z.add (- seg_size sdu) |> in
  let entity := upd_stats (fun s => s <| txpdu_pkts ::= add32 1 |>
                                      <| txpdu_bytes ::= add32 size |>) entity in
  u ← deref (um_heap entity) sdu;
  c ← account_waiting_time (um_common entity) time_now (sdu_time_of_arrival u);
  '(_, h) ← nr_rlc_free_sdu_segment (um_heap entity) sdu;
  Ret (ret, entity <| um_common := c |> <| um_heap := h |>, buffer).

Definition generate_tx_pdu (entity : nr_rlc_entity_um_t) (buffer : list Z) (time_now : Z)
    : outcome (Z * nr_rlc_entity_um_t * list Z) :=
  let size := zlen buffer in
  match um_tx_list entity with
  | [] => Ret (0, entity, buffer)
  | sdu :: rest =>
      let pdu_header_size := compute_pdu_header_size entity sdu in
      if size <? pdu_header_size + 1 then Ret (0, entity, buffer)
      else
        let entity := entity <| um_tx_list := rest |> in
        let entity := match rest with [] => entity <| um_tx_end := None |> | _ => entity end in
        u ← deref (um_heap entity) sdu;
        let entity := entity <| um_heap := store_sdu (um_heap entity) sdu
                                             (u <| sdu_sn := um_tx_next entity |>) |> in
        let pdu_size := pdu_header_size + seg_size sdu in
        let entity := add_bs_tx (- pdu_size) entity in
        if size <? pdu_size then
          '(sdu, next_sdu, entity) ← resegment sdu entity size;
          match next_sdu with
          | None => Ret (0, entity, buffer)
          | Some next_sdu =>
              let entity := entity <| um_tx_list := next_sdu :: um_tx_list entity |> in
              let entity := match um_tx_end entity with
                            | None => entity <| um_tx_end := Some (seg_addr next_sdu) |>
                            | Some _ => entity
                            end in
              let entity := upd_stats (fun s => s <| txpdu_segmented ::= add32 1 |>) entity in
              let entity := add_bs_tx (compute_pdu_header_size entity next_sdu
                                       + seg_size next_sdu) entity in
              send_segment entity sdu buffer time_now
          end
        else send_segment entity sdu buffer time_now
  end.

Definition nr_rlc_entity_um_buffer_status (entity : nr_rlc_entity_um_t) (maxsize : Z)
    : nr_rlc_entity_buffer_status_t :=
  mk_bstatus 0 (bs_tx_size (bstatus (um_common entity))) 0.

Definition nr_rlc_entity_um_generate_pdu (entity : nr_rlc_entity_um_t) (buffer : list Z)
    (time_now : Z) : outcome (Z * nr_rlc_entity_um_t * list Z) :=
  generate_tx_pdu entity buffer time_now.

Definition nr_rlc_entity_um_recv_sdu (entity : nr_rlc_entity_um_t) (buffer : list Z)
    (sdu_id time_now : Z) : outcome nr_rlc_entity_um_t :=
  let size := zlen buffer in
  let entity := upd_stats (fun s => s <| rxsdu_pkts ::= add32 1 |>
                                      <| rxsdu_bytes ::= add64 size |>) entity in
  if NR_SDU_MAX <? size then Exit
  else
    let entity :=
      if negb (um_sdu_rejected entity =? 0)
         && (u64 (um_t_log_buffer_full entity + 1000) <? um_t_current entity)
      then entity <| um_sdu_rejected := 0 |> <| um_t_log_buffer_full := um_t_current entity |>
      else entity in
    if um_tx_maxsize entity <? um_tx_size entity + size then
      Ret (upd_stats (fun s => s <| rxsdu_dd_pkts ::= add32 1 |>
                                 <| rxsdu_dd_bytes ::= add32 size |>)
             (entity <| um_sdu_rejected ::= Z.add 1 |>))
    else
      let entity := entity <| um_tx_size ::= Z.add size |> in
      let '(sdu, h) := nr_rlc_new_sdu (um_heap entity) buffer sdu_id in
      let entity := entity <| um_heap := h |> in
      '(l, e) ← nr_rlc_sdu_segment_list_append (um_tx_list entity) (um_tx_end entity) sdu;
      let entity := entity <| um_tx_list := l |> <| um_tx_end := e |> in
      let entity := add_bs_tx (compute_pdu_header_size entity sdu + seg_size sdu) entity in
      if avg_time_is_on (um_common entity) then
        u ← deref (um_heap entity) sdu;
        Ret (entity <| um_heap := store_sdu (um_heap entity) sdu
                                    (u <| sdu_time_of_arrival := time_now |>) |>)
      else Ret entity.

(** ** Timers *)

(** discard the segments at the head of the list below [rx_next_reassembly];
    [rx_size] is left alone *)
Fixpoint discard_old_segments (entity : nr_rlc_entity_um_t) (cur : list nr_rlc_pdu_t)
    : nr_rlc_entity_um_t :=
  match cur with
  | [] => entity
  | p :: next =>
      if sn_compare_rx entity (pdu_sn p) (um_rx_next_reassembly entity) <? 0 then
        let entity := entity <| um_rx_list := next |> in
        let entity := upd_stats (fun s => s <| rxpdu_dd_pkts ::= add32 1 |>
                                            <| rxpdu_dd_bytes ::= add32 (pdu_size p) |>) entity in
        discard_old_segments entity next
      else entity
  end.

Definition check_t_reassembly (entity : nr_rlc_entity_um_t) : outcome nr_rlc_entity_um_t :=
  if (um_t_reassembly_start entity =? 0)
     || (um_t_current entity <=? u64 (um_t_reassembly_start entity + um_t_reassembly entity))
  then Ret entity
  else
    let entity := entity <| um_t_reassembly_start := 0 |> in
    sn ← skip_delivered (length (um_rx_list entity)) entity (um_rx_timer_trigger entity);
    let entity := entity <| um_rx_next_reassembly := sn |> in
    let entity := discard_old_segments entity (um_rx_list entity) in
    Ret (if (0 <? sn_compare_rx entity (um_rx_next_highest entity)
                    ((um_rx_next_reassembly entity + 1) %% um_sn_modulus entity))
            || ((um_rx_next_highest entity =? um_rx_next_reassembly entity + 1)
                && sdu_has_missing_bytes entity (um_rx_next_reassembly entity))
         then entity <| um_t_reassembly_start := um_t_current entity |>
                     <| um_rx_timer_trigger := um_rx_next_highest entity |>
         else entity).

Definition nr_rlc_entity_um_set_time (entity : nr_rlc_entity_um_t) (now : Z)
    : outcome nr_rlc_entity_um_t :=
  check_t_reassembly (entity <| um_t_current := now |>).

(** ** Discard and re-establishment *)

Fixpoint find_sdu_id (h : sdu_heap) (l : list nr_rlc_sdu_segment_t) (sdu_id : Z)
    : outcome (option (list nr_rlc_sdu_segment_t * nr_rlc_sdu_segment_t
                       * list nr_rlc_sdu_segment_t)) :=
  match l with
  | [] => Ret None
  | cur :: next =>
      u ← deref h cur;
      if sdu_upper_layer_id u =? sdu_id then Ret (Some ([], cur, next))
      else
        r ← find_sdu_id h next sdu_id;
        Ret (match r with
             | None => None
             | Some (before, s, after) => Some (cur :: before, s, after)
             end)
  end.

Definition nr_rlc_entity_um_discard_sdu (entity : nr_rlc_entity_um_t) (sdu_id : Z)
    : outcome nr_rlc_entity_um_t :=
  r ← find_sdu_id (um_heap entity) (um_tx_list entity) sdu_id;
  match r with
  | None => Ret entity
  | Some (before, cur, after) =>
      if negb (seg_is_first cur) || negb (seg_is_last cur) then Ret entity
      else
        let entity := entity <| um_tx_list := before ++ after |> in
        let entity :=
          if match um_tx_end entity with Some a => (a =? seg_addr cur)%nat | None => false end
          then entity <| um_tx_end := option_map seg_addr (last before) |>
          else entity in
        let entity := add_bs_tx (- (compute_pdu_header_size entity cur + seg_size cur)) entity in
        '(_, h) ← nr_rlc_free_sdu_segment (um_heap entity) cur;
        Ret (entity <| um_heap := h |>)
  end.

Definition clear_entity (entity : nr_rlc_entity_um_t) : outcome nr_rlc_entity_um_t :=
  let entity := entity
    <| um_rx_next_highest := 0 |> <| um_rx_next_reassembly := 0 |> <| um_rx_timer_trigger := 0 |>
    <| um_tx_next := 0 |> <| um_t_current := 0 |>
    <| um_t_log_buffer_full := 0 |> <| um_sdu_rejected := 0 |>
    <| um_t_reassembly_start := 0 |> <| um_rx_list := [] |> <| um_rx_size := 0 |> in
  h ← nr_rlc_free_sdu_segment_list (um_heap entity) (um_tx_list entity);
  Ret (entity <| um_heap := h |> <| um_tx_list := [] |> <| um_tx_end := None |>
              <| um_tx_size := 0 |>
              <| um_common ::= (fun c => c <| bstatus ::= (fun b => b <| bs_tx_size := 0 |>) |>) |>).

Definition nr_rlc_entity_um_reestablishment (entity : nr_rlc_entity_um_t)
    : outcome nr_rlc_entity_um_t := clear_entity entity.

Definition nr_rlc_entity_um_delete (entity : nr_rlc_entity_um_t) : outcome sdu_heap :=
  entity ← clear_entity entity; Ret (um_heap entity).

Definition nr_rlc_entity_um_available_tx_space (entity : nr_rlc_entity_um_t) : Z :=
  um_tx_maxsize entity - um_tx_size entity.

Definition new_nr_rlc_entity_um (rx_maxsize tx_maxsize t_reassembly sn_field_length : Z)
    : outcome nr_rlc_entity_um_t :=
  if negb ((sn_field_length =? 6) || (sn_field_length =? 12)) then Exit
  else
    ta ← time_average_new (100 * 1000) 1024;
    let sn_modulus := Z.shiftl 1 sn_field_length in
    Ret (mk_um (mk_common [] (mk_bstatus 0 0 0) (zero_stats NR_RLC_UM) ta false)
           t_reassembly sn_field_length sn_modulus (Z.quot sn_modulus 2)
           0 0 0 0 0 0 0 0 [] 0 rx_maxsize [] None 0 tx_maxsize empty_heap).

Definition nr_rlc_entity_um_reconfigure (entity : nr_rlc_entity_um_t) (v_t_reassembly : Z)
    (v_sn_field_length : option Z) : nr_rlc_entity_um_t :=
  let entity := entity <| um_t_reassembly := v_t_reassembly |> in
  match v_sn_field_length with
  | Some n => entity <| um_sn_field_length := n |>
  | None => entity
  end.
