(* ===== verification/RlcUmSpec.v ===== *)
(** Unacknowledged mode on the wire: what [serialize_sdu] writes for a segment
    is what [nr_rlc_entity_um_recv_pdu] reads; an SDU in one PDU is delivered at
    once, and pieces that cover their SDU are put together again. *)

From stdpp Require Import base tactics list numbers gmap.
From Stdlib Require Import ZArith Lia Sorted.
From S2P Require Import Prelude TimeStat RlcPdu RlcSdu RlcEntity RlcRxList.
From S2P Require Import RlcUm.

(** the bits of the header of an unacknowledged-mode PDU (38.322 6.2.2.3) *)
Definition um_header_bits (snlen : Z) (is_first is_last : bool) (sn so : Z) : list bool :=
  bits_of_Z 1 (1 - int_of_bool is_first) ++ bits_of_Z 1 (1 - int_of_bool is_last) ++
  (if is_first && is_last then bits_of_Z 6 0
   else (if snlen =? 12 then bits_of_Z 2 0 else []) ++ bits_of_Z (Z.to_nat snlen) sn) ++
  (if is_first then [] else bits_of_Z 16 so).

Definition um_header_len (snlen : Z) (is_first is_last : bool) : Z :=
  if is_first && is_last then 1
  else (if snlen =? 12 then 2 else 1) + (if is_first then 0 else 2).

Lemma um_header_len_seg e s :
  compute_pdu_header_size e s = um_header_len (um_sn_field_length e) (seg_is_first s) (seg_is_last s).
Proof.
  unfold compute_pdu_header_size, um_header_len. by destruct (_ =? 12), (seg_is_first s), (seg_is_last s).
Qed.

Lemma length_um_header snlen f l sn so :
  snlen = 6 \/ snlen = 12 ->
  length (um_header_bits snlen f l sn so) = (8 * Z.to_nat (um_header_len snlen f l))%nat.
Proof. by intros [-> | ->]; unfold um_header_bits; rewrite !length_app; destruct f, l. Qed.

Section write.
Context (e : nr_rlc_entity_um_t) (s : nr_rlc_sdu_segment_t) (u : nr_rlc_sdu_t).
Context (buffer : list Z) (size : Z).
Context (Hlen : um_sn_field_length e = 6 \/ um_sn_field_length e = 12).
Context (Hu : deref (um_heap e) s = Ret u) (Hs : seg_ok u s).
Let hs := um_header_len (um_sn_field_length e) (seg_is_first s) (seg_is_last s).
Context (Hsize : hs + seg_size s <= size <= zlen buffer).

Lemma um_hs_range : 1 <= hs <= 4.
Proof using Type.
  clear Hsize. unfold hs, um_header_len. destruct (_ =? 12), (seg_is_first s), (seg_is_last s); simpl; lia.
Qed.

(** the header: a sequence of [put_bits] *)
Definition um_put_header (enc : nr_rlc_pdu_encoder_t) : outcome nr_rlc_pdu_encoder_t :=
  enc ← nr_rlc_pdu_encoder_put_bits enc (1 - int_of_bool (seg_is_first s)) 1;
  enc ← nr_rlc_pdu_encoder_put_bits enc (1 - int_of_bool (seg_is_last s)) 1;
  enc ←
    (if seg_is_first s && seg_is_last s then nr_rlc_pdu_encoder_put_bits enc 0 6
     else
       enc ← (if um_sn_field_length e =? 12
              then nr_rlc_pdu_encoder_put_bits enc 0 2 else Ret enc);
       nr_rlc_pdu_encoder_put_bits enc (sdu_sn u) (um_sn_field_length e));
  if negb (seg_is_first s)
  then nr_rlc_pdu_encoder_put_bits enc (seg_so s) 16 else Ret enc.

Lemma um_put_header_spec :
  returns (um_put_header (nr_rlc_pdu_encoder_init buffer size)) (fun enc =>
    enc_repr (length buffer) size
      (um_header_bits (um_sn_field_length e) (seg_is_first s) (seg_is_last s) (sdu_sn u) (seg_so s)) enc).
Proof using Hlen Hs Hsize.
  assert (Hsb : size <= Z.of_nat (length buffer)) by apply Hsize.
  assert (H8 : hs + 1 <= size) by (destruct Hs; lia). subst hs. unfold um_header_len in H8.
  unfold um_put_header, um_header_bits.
  destruct Hlen as [Hl|Hl]; rewrite Hl in *; destruct (seg_is_first s), (seg_is_last s);
    cbn [Z.eqb Pos.eqb negb andb] in *.
  all: put_steps.
  all: rewrite <- !app_assoc in *; rewrite ?app_nil_r; assumption.
Qed.

(** the written PDU *)
Definition um_is_pdu (pdu : list Z) : Prop :=
  exists hdr, pdu = hdr ++ seg_bytes u s /\ zlen hdr = hs /\
    bits_of_bytes hdr = um_header_bits (um_sn_field_length e) (seg_is_first s) (seg_is_last s)
                          (sdu_sn u) (seg_so s).

Lemma um_serialize_split :
  serialize_sdu e s buffer size
  = (enc ← um_put_header (nr_rlc_pdu_encoder_init buffer size);
     bytes ← mem_read (sdu_data u) (seg_so s) (seg_size s);
     buffer ← mem_write (enc_buffer enc) (enc_byte enc) bytes;
     Ret (enc_byte enc + seg_size s, buffer)).
Proof using Hu.
  unfold serialize_sdu, um_put_header. rewrite Hu.
  destruct (nr_rlc_pdu_encoder_put_bits (nr_rlc_pdu_encoder_init buffer size) _ 1) as [a| | |]; [|done..].
  rewrite !bind_Ret_l. destruct (nr_rlc_pdu_encoder_put_bits a _ 1) as [c| | |]; [|done..].
  rewrite !bind_Ret_l. by rewrite bind_bind.
Qed.

Lemma um_serialize_spec :
  returns (serialize_sdu e s buffer size) (fun '(n, buffer') =>
    n = hs + seg_size s /\ zlen buffer' = zlen buffer /\ um_is_pdu (take (Z.to_nat n) buffer')).
Proof using All.
  rewrite um_serialize_split. pose proof um_hs_range as Hhs. pose proof Hs as [Hso Hsz Hend _ _].
  eapply returns_seq; [apply um_put_header_spec|]. intros enc Henc.
  destruct (enc_repr_aligned _ _ _ _ (Z.to_nat hs) Henc) as (Hb & _ & Hl & Hle & Hbits);
    [by apply length_um_header|].
  rewrite mem_read_ok, bind_Ret_l by lia. fold (seg_bytes u s).
  pose proof (zlen_seg_bytes u s Hs) as Hby.
  assert (Hbl : zlen (enc_buffer enc) = zlen buffer) by (unfold zlen; by rewrite Hl).
  rewrite Hb, Z2Nat.id by lia. rewrite mem_write_ok, !bind_Ret_l by lia.
  apply returns_Ret. split_and!; [lia| |].
  - rewrite !zlen_app, zlen_take, zlen_drop. unfold zlen in *. lia.
  - exists (take (Z.to_nat hs) (enc_buffer enc)). split_and!; [|rewrite zlen_take; lia|done].
    rewrite app_assoc, take_app_le by (rewrite length_app, length_take; unfold zlen in *; lia).
    rewrite take_ge; [done|]. rewrite length_app, length_take. unfold zlen in *. lia.
Qed.
End write.

(** ** Reading *)

Definition um_count_pdu (e : nr_rlc_entity_um_t) (size : Z) : nr_rlc_entity_um_t :=
  upd_stats (fun s => s <| rxpdu_pkts ::= add32 1 |> <| rxpdu_bytes ::= add32 size |>) e.

Section read.
Context (rx : nr_rlc_entity_um_t) (pdu : list Z) (rest : list bool).
Context (is_first is_last : bool) (sn so : Z).
Context (Hlen : um_sn_field_length rx = 6 \/ um_sn_field_length rx = 12).
Context (Hsn : 0 <= sn < 2 ^ um_sn_field_length rx).
Context (Hso : if is_first then so = 0 else 0 < so < 2 ^ 16).

Context (Hbits : bits_of_bytes pdu
                 = um_header_bits (um_sn_field_length rx) is_first is_last sn so ++ rest).

Lemma um_recv_header :
  nr_rlc_entity_um_recv_pdu rx pdu
  = let e := um_count_pdu rx (zlen pdu) in
    if is_first && is_last then
      if zlen pdu <? 2 then Ret (recv_discard e (zlen pdu))
      else
        sdu ← mem_read pdu 1 (zlen pdu - 1);
        Ret (upd_stats (fun s => s <| txsdu_pkts ::= add32 1 |>
                                   <| txsdu_bytes ::= add64 (zlen pdu - 1) |>)
               (um_emit (DeliverSdu sdu) e))
    else recv_segment e pdu sn so is_first is_last
           (um_header_len (um_sn_field_length rx) is_first is_last).
Proof using All.
  unfold nr_rlc_entity_um_recv_pdu. fold (um_count_pdu rx (zlen pdu)). cbv zeta.
  set (e := um_count_pdu rx (zlen pdu)).
  change (um_sn_field_length e) with (um_sn_field_length rx). rewrite dec_at_0.
  unfold um_header_bits in Hbits. rewrite (app_assoc (bits_of_Z 1 (1 - int_of_bool is_first))) in Hbits.
  rewrite si_bits in Hbits. rewrite <- !app_assoc in Hbits.
  set (si := 2 * _ + _) in Hbits.
  assert (Hsi : 0 <= si < 4 /\ (Z.land si 2 =? 0) = is_first /\ (Z.land si 1 =? 0) = is_last)
    by (subst si; by destruct is_first, is_last).
  destruct Hsi as (Hsi & Hf & Hl).
  eapply (read_step pdu [] _ 2 si); [exact Hbits|done|lia|lia|]. intros Hb1. rewrite Hf, Hl.
  destruct (is_first && is_last) eqn:Ew; [done|].
  set (k := fun sn so d => recv_segment e pdu sn so is_first is_last (dec_byte d)).
  destruct Hlen as [H6|H12].
  - rewrite H6 in Hb1 |- *. simpl Z.eqb in Hb1 |- *. cbv iota. rewrite app_nil_l in Hb1.
    etransitivity; [rewrite <- H6 in Hb1 |- *; apply (read_sn_so pdu rest is_first sn so (um_sn_field_length rx) _ _ k); [lia|done|done|exact Hb1]|].
    unfold k, um_header_len. rewrite H6, Ew. by destruct is_first.
  - rewrite H12 in Hb1 |- *. simpl Z.eqb in Hb1 |- *. cbv iota. rewrite <- !app_assoc in Hb1.
    eapply read_step; [rewrite <- app_assoc; exact Hb1|done|lia|lia|]. intros Hb2.
    etransitivity; [rewrite <- H12 in Hb2 |- *; apply (read_sn_so pdu rest is_first sn so (um_sn_field_length rx) _ _ k); [lia|done|done|exact Hb2]|].
    unfold k, um_header_len. rewrite H12, Ew. by destruct is_first.
Qed.
End read.

(** ** Transfer *)

Definition um_events (e : nr_rlc_entity_um_t) : list rlc_event := events (um_common e).

Lemma whole_bytes u s : seg_ok u s -> seg_is_first s && seg_is_last s = true -> seg_bytes u s = sdu_data u.
Proof.
  intros [H1 H2 H3 H4 H5]. rewrite H4, H5, andb_true_iff, !Z.eqb_eq. intros [Hso Hend].
  unfold seg_bytes. rewrite Hso, drop_0, take_ge; [done|]. unfold zlen in *. lia.
Qed.

(** a PDU serialised by an unacknowledged-mode sender is read back by its
    peer: an SDU sent whole is handed up at once, unchanged and without an SN;
    a segment is passed to reassembly with the SN, offset, flags and bytes the
    sender put in it. *)
Theorem um_pdu_roundtrip tx rx s u buffer size :
  um_sn_field_length tx = um_sn_field_length rx ->
  um_sn_field_length rx = 6 \/ um_sn_field_length rx = 12 ->
  deref (um_heap tx) s = Ret u -> seg_ok u s -> zlen (sdu_data u) <= NR_SDU_MAX ->
  0 <= sdu_sn u < 2 ^ um_sn_field_length rx ->
  compute_pdu_header_size tx s + seg_size s <= size <= zlen buffer ->
  returns (serialize_sdu tx s buffer size) (fun '(n, buffer') =>
    n = compute_pdu_header_size tx s + seg_size s /\
    let pdu := take (Z.to_nat n) buffer' in
    if seg_is_first s && seg_is_last s
    then returns (nr_rlc_entity_um_recv_pdu rx pdu) (fun rx' =>
           um_events rx' = um_events rx ++ [DeliverSdu (sdu_data u)])
    else exists h,
      nr_rlc_entity_um_recv_pdu rx pdu
      = recv_segment (um_count_pdu rx (zlen pdu)) pdu (sdu_sn u) (seg_so s)
          (seg_is_first s) (seg_is_last s) h /\
      drop (Z.to_nat h) pdu = seg_bytes u s /\ zlen pdu - h = seg_size s).
Proof.
  intros Hl Hlen Hu Hs Hmax Hsn Hsize. rewrite um_header_len_seg in Hsize |- *.
  eapply returns_mono; [apply (um_serialize_spec tx s u buffer size); [by rewrite Hl|done|done|done]|].
  intros [n buf'] (Hn & _ & hdr & Hpdu & Hhl & Hbits). split; [done|]. cbv zeta. rewrite Hpdu.
  pose proof (zlen_seg_bytes u s Hs) as Hby. pose proof Hs as [H1 H2 H3 H4 H5]. rewrite Hl in Hhl, Hbits.
  rewrite (um_recv_header rx _ (bits_of_bytes (seg_bytes u s)) (seg_is_first s) (seg_is_last s)
             (sdu_sn u) (seg_so s)); [|done|done| |by rewrite bits_of_bytes_app, Hbits].
  2: { rewrite H4. unfold NR_SDU_MAX in Hmax. destruct (Z.eqb_spec (seg_so s) 0); lia. }
  cbv zeta. destruct (seg_is_first s && seg_is_last s) eqn:Ew.
  - unfold um_header_len in Hhl. rewrite Ew in Hhl.
    rewrite zlen_app, (proj2 (Z.ltb_ge _ _)) by lia.
    rewrite mem_read_suffix by lia. rewrite bind_Ret_l. apply returns_Ret.
    by rewrite (whole_bytes u s) by done.
  - eexists. split; [reflexivity|]. rewrite <- Hhl, to_nat_zlen, drop_app_length, zlen_app. split; [done|lia].
Qed.

(** ** Reassembly *)

Section reassembly.
Context (key : Z -> Z) (e : nr_rlc_entity_um_t) (x : Z) (sdu : list Z).
Context (Hs : StronglySorted (pdu_le key) (um_rx_list e)) (Hne : of_sn x (um_rx_list e) <> []).
Context (Hp : Forall (piece sdu) (of_sn x (um_rx_list e))).
Context (Hd : Forall (fun p => pdu_data p <> None) (of_sn x (um_rx_list e))).

Lemma um_full_ok : sdu_full e x = (contig (of_sn x (um_rx_list e)) 0 =? zlen sdu).
Proof using All.
  destruct (sorted_sn_block _ _ x Hs) as (b & k & a & Hblk).
  pose proof (of_sn_block Hblk) as Hk. rewrite Hk in *.
  unfold sdu_full. rewrite (find_sn_block Hblk), decide_False by done.
  destruct k as [|p k]; [done|]. inversion Hd as [|? ? Hdp _]; subst.
  simpl data_is_null. destruct (pdu_data p); [|done]. change (-1) with (0 - 1).
  apply full_loop_piece; [done|apply Hblk|apply Hblk|]. inversion Hp as [|? ? [] _]; subst. lia.
Qed.

Lemma um_reassemble_ok : zlen sdu <= NR_SDU_MAX -> contig (of_sn x (um_rx_list e)) 0 = zlen sdu ->
  exists b k a, sn_block x (um_rx_list e) b k a /\ k = of_sn x (um_rx_list e) /\
    reassemble_and_deliver e x =
      Ret (upd_stats (fun s => s <| txsdu_pkts ::= add32 1 |> <| txsdu_bytes ::= add64 (zlen sdu) |>)
        (um_emit (DeliverSdu sdu) (e <| um_rx_list := b ++ map free_data k ++ a |>
                                     <| um_rx_size := um_rx_size e - sumZ pdu_size k |>))).
Proof using All.
  intros Hmax Hc. destruct (sorted_sn_block _ _ x Hs) as (b & k & a & Hblk).
  pose proof (of_sn_block Hblk) as Hk. rewrite Hk in *. exists b, k, a. split; [done|]. split; [done|].
  unfold reassemble_and_deliver. by rewrite (reassemble_from_block sdu free_data x _ b k a _ Hblk).
Qed.
End reassembly.

(** a block without data makes its SN a delivered one *)
Lemma freed_delivered x l b k a : sn_block x l b k a -> k <> [] ->
  data_is_null (find_sn (b ++ map free_data k ++ a) x) = true.
Proof.
  intros [_ Hb Hkx _] Hne. destruct Hkx as [|p k Hpx _]; [done|].
  clear - Hb Hpx. induction Hb as [|q b Hq _ IH]; simpl.
  - by rewrite (proj2 (Z.eqb_eq _ _) Hpx).
  - by rewrite (proj2 (Z.eqb_neq _ _) Hq).
Qed.

(** reassembly in unacknowledged mode: when the PDUs in the buffer for an SN
    are pieces of one SDU, [sdu_full] holds exactly when they cover it, and then
    the SDU is rebuilt and handed up unchanged, its bytes are taken off the
    buffer account, and the SN counts as delivered. *)
Theorem um_reassembly_correct key e x sdu :
  StronglySorted (pdu_le key) (um_rx_list e) -> of_sn x (um_rx_list e) <> [] ->
  Forall (piece sdu) (of_sn x (um_rx_list e)) ->
  Forall (fun p => pdu_data p <> None) (of_sn x (um_rx_list e)) -> zlen sdu <= NR_SDU_MAX ->
  sdu_full e x = (contig (of_sn x (um_rx_list e)) 0 =? zlen sdu) /\
  (sdu_full e x = true ->
   returns (reassemble_and_deliver e x) (fun e' =>
     um_events e' = um_events e ++ [DeliverSdu sdu] /\ sdu_delivered e' x = true /\
     um_rx_size e' = um_rx_size e - sumZ pdu_size (of_sn x (um_rx_list e)))).
Proof.
  intros Hs Hne Hp Hd Hmax. pose proof (um_full_ok key e x sdu Hs Hne Hp Hd) as Hfull.
  split; [done|]. rewrite Hfull, Z.eqb_eq. intros Hc.
  destruct (um_reassemble_ok key e x sdu Hs Hne Hp Hd Hmax Hc) as (b & k & a & Hblk & Hk & ->).
  apply returns_Ret. split_and!; [done| |by rewrite <- Hk].
  apply (freed_delivered _ _ _ _ _ Hblk). by rewrite Hk.
Qed.

(** ** Examples *)

Definition demo_um : nr_rlc_entity_um_t := the (new_nr_rlc_entity_um 100000 100000 100 12).
Definition demo_um_sdu : nr_rlc_sdu_t := mk_sdu 5 7 [1; 2; 3; 4; 5] 5 (-1) 2 0 0.
Definition demo_um_tail : nr_rlc_sdu_segment_t := mk_seg 3 1 3 2 false true.
Definition demo_um_tx : nr_rlc_entity_um_t := demo_um <| um_heap := mk_heap {[1%nat := demo_um_sdu]} 4 |>.

Lemma um_pdu_roundtrip_witness :
  returns (serialize_sdu demo_um_tx demo_um_tail (replicate 10 0) 10) (fun '(n, buffer') =>
    n = 7 /\ take (Z.to_nat n) buffer' = [128; 5; 0; 2; 3; 4; 5]) /\
  returns (serialize_sdu demo_um_tx demo_um_tail (replicate 10 0) 10) (fun '(n, buffer') =>
    exists h, nr_rlc_entity_um_recv_pdu demo_um (take (Z.to_nat n) buffer')
      = recv_segment (um_count_pdu demo_um (zlen (take (Z.to_nat n) buffer')))
          (take (Z.to_nat n) buffer') 5 2 false true h).
Proof.
  split; [eexists; split; [vm_compute; reflexivity|split; reflexivity]|].
  eapply returns_mono;
    [apply (um_pdu_roundtrip demo_um_tx demo_um demo_um_tail demo_um_sdu (replicate 10 0) 10)|].
  - reflexivity.
  - right. reflexivity.
  - reflexivity.
  - by constructor.
  - vm_compute. congruence.
  - vm_compute. split; congruence.
  - vm_compute. split; congruence.
  - intros [n buf'] [_ (h & Hr & _)]. exists h. exact Hr.
Defined.

(** both segments of an SDU in the buffer *)
Definition demo_um_full : nr_rlc_entity_um_t :=
  demo_um <| um_rx_list := [nr_rlc_new_pdu 5 0 true false [1; 2] 2; nr_rlc_new_pdu 5 2 false true [3; 4; 5] 3] |>
          <| um_rx_size := 5 |>.

Lemma um_reassembly_correct_witness :
  sdu_full demo_um_full 5 = true /\
  returns (reassemble_and_deliver demo_um_full 5) (fun e' =>
    um_events e' = [DeliverSdu [1; 2; 3; 4; 5]] /\ um_rx_size e' = 0).
Proof.
  destruct (um_reassembly_correct (modulus_rx demo_um_full) demo_um_full 5 [1; 2; 3; 4; 5]) as [Hf Hr].
  - constructor; [constructor; constructor|]. constructor; [|constructor]. right. vm_compute. split; congruence.
  - discriminate.
  - assert (Hp : forall so n f l d, 0 <= so -> 0 < n -> so + n <= 5 -> l = (so + n =? 5) -> f = (so =? 0) ->
      d = take (Z.to_nat n) (drop (Z.to_nat so) [1; 2; 3; 4; 5]) ->
      piece [1; 2; 3; 4; 5] (nr_rlc_new_pdu 5 so f l d n)).
    { intros so n f l d ? ? ? -> -> ->. constructor; simpl; try done. by intros ? [= <-]. }
    vm_compute of_sn. constructor; [apply Hp; reflexivity || lia|].
    constructor; [apply Hp; reflexivity || lia|constructor].
  - by repeat constructor.
  - vm_compute. congruence.
  - assert (Hfull : sdu_full demo_um_full 5 = true) by reflexivity.
    split; [exact Hfull|]. eapply returns_mono; [exact (Hr Hfull)|]. intros e' (He & _ & Hs).
    split; [exact He|]. rewrite Hs. reflexivity.
Defined.

(** C39: a grant of two bytes loses an SDU on a bearer with 12-bit SNs. In every state
    where the next SDU to send is whole and has more than one byte, the one-byte header
    of the whole SDU makes the entity take it off its queue, the two-byte header of its
    first segment then leaves no room for data, and the call returns 0 with nothing
    written: the SDU is gone from the queue and from the buffer status, it is neither
    sent nor put back, nothing is reported to the upper layer, its memory stays
    allocated with no segment pointing to it and one reference too many, and its bytes
    stay in the account [tx_size] that limits new SDUs. *)
Theorem um_two_byte_grant_loses_sdu entity sdu rest u buffer time_now :
  um_sn_field_length entity = 12 -> um_tx_list entity = sdu :: rest -> seg_is_first sdu = true -> seg_is_last sdu = true ->
  1 < seg_size sdu -> deref (um_heap entity) sdu = Ret u -> Forall (fun s => seg_sdu s <> seg_sdu sdu) rest -> zlen buffer = 2 ->
  exists entity', nr_rlc_entity_um_generate_pdu entity buffer time_now = Ret (0, entity', buffer) /\
    um_tx_list entity' = rest /\ um_tx_size entity' = um_tx_size entity /\ um_events entity' = um_events entity /\
    bs_tx_size (bstatus (um_common entity')) = bs_tx_size (bstatus (um_common entity)) - (1 + seg_size sdu) /\
    deref (um_heap entity') sdu = Ret (u <| sdu_sn := um_tx_next entity |> <| sdu_ref_count ::= Z.add 1 |>) /\
    (forall s, s ∈ um_tx_list entity' -> seg_sdu s <> seg_sdu sdu).
Proof.
  intros Hl Ht Hf Hlast Hs Hu Hrest Hb. unfold nr_rlc_entity_um_generate_pdu, generate_tx_pdu. rewrite Ht, Hb.
  assert (Hh : forall e, compute_pdu_header_size e sdu = 1) by (intros e; unfold compute_pdu_header_size; by rewrite Hf, Hlast).
  rewrite Hh. change (2 <? 1 + 1) with false. cbv iota. set (e1 := match rest with [] => _ | _ => _ end).
  assert (E : um_heap e1 = um_heap entity /\ um_tx_next e1 = um_tx_next entity /\ um_sn_field_length e1 = 12 /\ um_tx_list e1 = rest /\
    um_tx_size e1 = um_tx_size entity /\ um_common e1 = um_common entity) by (unfold e1; by destruct rest).
  clearbody e1. destruct E as (E1 & E2 & E3 & E4 & E5 & E6). rewrite E1, Hu, bind_Ret_l, E2.
  rewrite (proj2 (Z.ltb_lt 2 _)) by lia. unfold resegment. set (e2 := add_bs_tx _ _).
  assert (Hu2 : deref (um_heap e2) sdu = Ret (u <| sdu_sn := um_tx_next entity |>)) by (unfold deref; cbn; by rewrite lookup_insert_eq).
  rewrite Hu2, bind_Ret_l. assert (Hh2 : compute_pdu_header_size e2 (sdu <| seg_is_last := false |>) = 2).
  { unfold compute_pdu_header_size. cbn. by rewrite Hf, E3. }
  rewrite Hh2. change (2 <? 2 + 1) with true. cbv iota. rewrite bind_Ret_l. eexists. split; [reflexivity|].
  assert (Hw : um_tx_list e2 = rest) by exact E4. split_and!.
  - exact E4.
  - exact E5.
  - unfold um_events. cbn. by rewrite E6.
  - cbn. rewrite E6. lia.
  - unfold deref. cbn. by rewrite lookup_insert_eq.
  - intros s Hin. rewrite list.Forall_forall in Hrest. apply Hrest. by rewrite <- Hw.
Qed.

Lemma um_two_byte_grant_loses_sdu_witness : exists entity sdu u entity',
  nr_rlc_entity_um_recv_sdu demo_um [1; 2; 3] 9 0 = Ret entity /\ um_tx_list entity = [sdu] /\ sdu_data u = [1; 2; 3] /\
  nr_rlc_entity_um_generate_pdu entity [0; 0] 0 = Ret (0, entity', [0; 0]) /\ um_tx_list entity' = [] /\ um_tx_size entity' = 3 /\
  deref (um_heap entity') sdu = Ret (u <| sdu_sn := um_tx_next entity |> <| sdu_ref_count ::= Z.add 1 |>).
Proof.
  destruct (nr_rlc_entity_um_recv_sdu demo_um [1; 2; 3] 9 0) as [entity| | |] eqn:E; try by vm_compute in E.
  assert (Hsize : um_tx_size entity = 3) by (vm_compute in E; by injection E as <-).
  set (sdu := mk_seg 2 1 3 0 true true). set (u := mk_sdu (-1) 9 [1; 2; 3] 3 (-1) 1 0 0).
  destruct (um_two_byte_grant_loses_sdu entity sdu [] u [0; 0] 0) as (entity' & H1 & H2 & H3 & _ & _ & H4 & _);
    [vm_compute in E; injection E as <-; done ..|constructor|done|].
  exists entity, sdu, u, entity'. split_and!; [done|vm_compute in E; by injection E as <-|done|exact H1|exact H2|by rewrite H3|exact H4].
Defined.
