(* ===== verification/RlcUmLinkRx.v ===== *)
(** The receiver of an unacknowledged-mode link that loses and reorders nothing:
    its state while the segments of one SDU after the other come in, and that
    the SDU is handed up with its last segment. *)

From stdpp Require Import base tactics list numbers.
From Stdlib Require Import ZArith Lia Sorted.
From S2P Require Import Prelude TimeStat RlcPdu RlcSdu RlcEntity RlcRxList.
From S2P Require Import RlcUm RlcUmSpec.

(** ** Configuration *)

Record um_config_ok (e : nr_rlc_entity_um_t) : Prop := {
  uc_len : um_sn_field_length e = 6 \/ um_sn_field_length e = 12;
  uc_modulus : um_sn_modulus e = 2 ^ um_sn_field_length e;
  uc_window : um_sn_modulus e = 2 * um_window_size e
}.

Definition um_config (e : nr_rlc_entity_um_t) : Z * Z * Z * Z :=
  (um_sn_field_length e, um_sn_modulus e, um_window_size e, um_rx_maxsize e).

Lemma um_config_ok_eq e e' : um_config e' = um_config e -> um_config_ok e -> um_config_ok e'.
Proof. intros [= E1 E2 E3 _] [H1 H2 H3]. constructor; congruence. Qed.

(** position of an SN in the reassembly window that ends before [h] *)
Definition um_key (w h a : Z) : Z := (a - h + w) mod (2 * w).

Section key.
Context (w : Z) (Hw : 0 < w).

Lemma um_key_range h a : 0 <= um_key w h a < 2 * w.
Proof using Hw. apply Z.mod_pos_bound. lia. Qed.

Lemma um_key_self h : um_key w h h = w.
Proof using Hw. unfold um_key. rewrite Z.sub_diag. apply Z.mod_small. lia. Qed.

Lemma um_key_inj h a b : 0 <= a < 2 * w -> 0 <= b < 2 * w -> um_key w h a = um_key w h b -> a = b.
Proof using Hw.
  intros Ha Hb E. unfold um_key in E.
  rewrite <- (Z.mod_small a (2 * w)), <- (Z.mod_small b (2 * w)) by done.
  replace a with (a - h + w + (h - w)) by lia. replace b with (b - h + w + (h - w)) by lia.
  rewrite (Zplus_mod (a - h + w)), (Zplus_mod (b - h + w)), E. done.
Qed.

(** the window moves by one: every position goes down, the oldest SN leaves *)
Lemma um_key_next h a : 0 <= h < 2 * w ->
  um_key w ((h + 1) %% (2 * w)) a = if um_key w h a =? 0 then 2 * w - 1 else um_key w h a - 1.
Proof using Hw.
  intros Hh. rewrite rem_mod by lia. unfold um_key.
  assert (E : (a - (h + 1) mod (2 * w) + w) mod (2 * w) = ((a - h + w) mod (2 * w) - 1) mod (2 * w)).
  { rewrite Zminus_mod_idemp_l. replace (a - h + w - 1) with (a + w - (h + 1)) by lia.
    rewrite <- (Zminus_mod_idemp_r (a + w) (h + 1)). f_equal. lia. }
  rewrite E. pose proof (Z.mod_pos_bound (a - h + w) (2 * w) ltac:(lia)) as Hr.
  set (k := (a - h + w) mod (2 * w)) in *. destruct (Z.eqb_spec k 0) as [->|].
  - symmetry. apply (Z.mod_unique _ _ (-1)); lia.
  - apply Z.mod_small. lia.
Qed.
End key.

Lemma modulus_rx_key e a :
  um_config_ok e -> 0 <= um_rx_next_highest e < um_sn_modulus e -> 0 <= a < um_sn_modulus e ->
  modulus_rx e a = um_key (um_window_size e) (um_rx_next_highest e) a.
Proof.
  intros [_ _ Hw] Hh Ha. unfold modulus_rx, um_key. rewrite Hw in *.
  replace (a - (um_rx_next_highest e - um_window_size e)) with (a - um_rx_next_highest e + um_window_size e) by lia.
  set (w := um_window_size e) in *. set (r := a - um_rx_next_highest e + w).
  destruct (Z.ltb_spec r 0); rewrite rem_mod by lia; [|done].
  rewrite <- (Z.mod_add r 1) by lia. f_equal. lia.
Qed.

(** ** In step with the sender *)

(** the first [so] bytes of [sdu], sent with SN [x], are in the buffer; whatever
    else it holds is what is left of delivered SDUs *)
Record um_rx_sync (e : nr_rlc_entity_um_t) (x : Z) (sdu : list Z) (so : Z) : Prop := {
  rs_config : um_config_ok e;
  rs_x : 0 <= x < um_sn_modulus e;
  rs_reasm : um_rx_next_reassembly e = x;
  rs_highest : um_rx_next_highest e = if so =? 0 then x else (x + 1) %% um_sn_modulus e;
  rs_sorted : StronglySorted (pdu_le (um_key (um_window_size e) (um_rx_next_highest e))) (um_rx_list e);
  rs_window : Forall (fun p => 0 <= pdu_sn p < um_sn_modulus e /\
    um_key (um_window_size e) (um_rx_next_highest e) (pdu_sn p) < um_window_size e /\
    (pdu_sn p <> x -> pdu_size p = 0)) (um_rx_list e);
  rs_pieces : Forall (fun p => piece sdu p /\ pdu_data p <> None /\ pdu_end p <= so) (of_sn x (um_rx_list e));
  rs_contig : contig (of_sn x (um_rx_list e)) 0 = so;
  rs_sum : sumZ pdu_size (of_sn x (um_rx_list e)) = so;
  rs_size : um_rx_size e = so
}.

Lemma config_window_pos e : um_config_ok e -> 0 < um_window_size e.
Proof.
  intros [H1 H2 H3]. assert (0 < um_sn_modulus e) by (rewrite H2; apply Z.pow_pos_nonneg; lia). lia.
Qed.

(** with nothing received yet it does not matter which SDU comes next *)
Lemma sync_0_empty e x sdu : um_rx_sync e x sdu 0 -> of_sn x (um_rx_list e) = [].
Proof.
  intros H. pose proof (config_window_pos e (rs_config _ _ _ _ H)) as Hw. pose proof (rs_highest _ _ _ _ H) as Hh.
  simpl in Hh. apply of_sn_none. eapply Forall_weaken; [|exact (rs_window _ _ _ _ H)].
  intros p (_ & Hk & _) Hp. unfold has_sn in Hp. rewrite Hp, Hh, um_key_self in Hk by done. lia.
Qed.

Lemma sync_0_any e x sdu sdu' : um_rx_sync e x sdu 0 -> um_rx_sync e x sdu' 0.
Proof. intros H. pose proof (sync_0_empty _ _ _ H) as He. destruct H. constructor; try done. by rewrite He. Qed.

(** ** Storing the next segment *)

Lemma pdu_le_other key l x p :
  (forall q, q ∈ l -> key (pdu_sn p) <= key (pdu_sn q)) -> key x < key (pdu_sn p) -> of_sn x (p :: l) = [].
Proof.
  intros Hl Hp. apply of_sn_none. constructor; [intros E; unfold has_sn in E; subst; lia|].
  apply list.Forall_forall. intros q Hq E. unfold has_sn in E. subst. specialize (Hl q Hq). lia.
Qed.

Lemma sorted_head_le key p l : StronglySorted (pdu_le key) (p :: l) -> forall q, q ∈ l -> key (pdu_sn p) <= key (pdu_sn q).
Proof.
  intros Hs q Hq. inversion Hs as [|? ? _ Hall]; subst. rewrite list.Forall_forall in Hall.
  destruct (Hall q Hq) as [|[-> _]]; lia.
Qed.

(** a segment behind all those of its SN is stored behind them *)
Lemma of_sn_add_last key cmp l p :
  (forall a b, cmp a b = key a - key b) -> StronglySorted (pdu_le key) l ->
  Forall (fun q => pdu_so q <= pdu_so p) (of_sn (pdu_sn p) l) ->
  of_sn (pdu_sn p) (nr_rlc_pdu_list_add cmp l p) = of_sn (pdu_sn p) l ++ [p].
Proof.
  intros Hcmp Hs. unfold nr_rlc_pdu_list_add. induction Hs as [|q l Hs IH Hall]; intros Hso.
  { unfold of_sn. cbn. by rewrite decide_True. }
  cbn [insert_before]. unfold pdu_before at 1. rewrite Hcmp.
  destruct ((0 <? _) || _) eqn:E.
  - apply orb_true_iff in E. assert (Hgt : key (pdu_sn p) < key (pdu_sn q)).
    { destruct E as [E|E]; bool_prop; [lia|]. unfold of_sn in Hso. rewrite filter_cons_True in Hso by done. inversion Hso; lia. }
    rewrite (pdu_le_other key l (pdu_sn p) q); [|by apply sorted_head_le; constructor|done].
    change (p :: q :: l) with ([p] ++ q :: l). rewrite of_sn_app, (pdu_le_other key l (pdu_sn p) q); [|by apply sorted_head_le; constructor|done].
    unfold of_sn. cbn. by rewrite decide_True.
  - change (q :: insert_before _ p l) with ([q] ++ insert_before (fun cur => pdu_before cmp cur p) p l).
    change (q :: l) with ([q] ++ l) in *. rewrite of_sn_app in Hso. apply Forall_app in Hso as [_ Hso].
    by rewrite !of_sn_app, IH, app_assoc.
Qed.

Lemma contig_snoc k p n so :
  Forall (fun q => pdu_end q <= so) k -> Forall (fun q => 0 < pdu_size q) k ->
  contig k n = so -> pdu_so p = so -> 0 < pdu_size p -> contig (k ++ [p]) n = so + pdu_size p.
Proof.
  intros Hk Hz. revert n. induction k as [|q k IH]; intros n Hc Hp Hs; simpl in *.
  - rewrite (proj2 (Z.ltb_ge _ _)) by lia. unfold pdu_end. lia.
  - inversion Hk; inversion Hz; subst. unfold pdu_end in *. destruct (Z.ltb_spec n (pdu_so q)) as [Hg|Hg]; [lia|]. auto.
Qed.

Lemma sorted_weaken {A} (R1 R2 : A -> A -> Prop) l :
  StronglySorted R1 l -> (forall p q, p ∈ l -> q ∈ l -> R1 p q -> R2 p q) -> StronglySorted R2 l.
Proof.
  induction 1 as [|p l Hs IH Hall]; intros Hw; constructor.
  - apply IH. intros q r Hq Hr. apply Hw; by right.
  - rewrite list.Forall_forall in *. intros q Hq. apply Hw; [left|by right|auto].
Qed.

(** another key that agrees on the stored SNs up to the order *)
Lemma sorted_rekey k1 k2 l :
  StronglySorted (pdu_le k1) l ->
  (forall p q, p ∈ l -> q ∈ l -> k1 (pdu_sn p) < k1 (pdu_sn q) -> k2 (pdu_sn p) < k2 (pdu_sn q)) ->
  StronglySorted (pdu_le k2) l.
Proof. intros Hs Hk. eapply sorted_weaken; [exact Hs|]. intros p q Hp Hq [H|H]; [left; by apply Hk|by right]. Qed.

(** ** Parts that stay *)

(** the fields the invariant speaks of, but for the list and the window *)
Definition um_rx_rest (e : nr_rlc_entity_um_t) := (um_config e, um_events e).

Lemma timers_frame e :
  let e' := start_t_reassembly (stop_t_reassembly e) in
  um_rx_rest e' = um_rx_rest e /\ um_rx_list e' = um_rx_list e /\ um_rx_size e' = um_rx_size e /\
  um_rx_next_reassembly e' = um_rx_next_reassembly e /\ um_rx_next_highest e' = um_rx_next_highest e.
Proof. unfold start_t_reassembly, stop_t_reassembly. repeat case_match; done. Qed.

(** ** The window moves *)

Lemma discard_frame l : forall e,
  Forall (fun p => 0 <= sn_compare_rx e (pdu_sn p) (um_rx_next_highest e) -> pdu_size p = 0) l ->
  exists pre suf, l = pre ++ suf /\
    Forall (fun p => 0 <= sn_compare_rx e (pdu_sn p) (um_rx_next_highest e)) pre /\
    (forall p suf', suf = p :: suf' -> sn_compare_rx e (pdu_sn p) (um_rx_next_highest e) < 0) /\
    let e' := discard_out_of_window e l in
    um_rx_rest e' = um_rx_rest e /\ um_rx_list e' = suf /\ um_rx_size e' = um_rx_size e /\
    um_rx_next_reassembly e' = um_rx_next_reassembly e /\ um_rx_next_highest e' = um_rx_next_highest e.
Proof.
  induction l as [|p l IH]; intros e Hz.
  { by exists [], []. }
  cbn [discard_out_of_window]. destruct (Z.leb_spec 0 (sn_compare_rx e (pdu_sn p) (um_rx_next_highest e))) as [Hc|Hc].
  - inversion Hz as [|? ? Hp Hl]; subst. specialize (Hp Hc). set (e1 := upd_stats _ _).
    destruct (IH e1 Hl) as (pre & suf & -> & Hpre & Hsuf & H). exists (p :: pre), suf.
    split; [done|]. split; [by constructor|]. split; [done|]. cbv zeta in H |- *.
    destruct H as (H1 & H2 & H3 & H4 & H5). rewrite H1, H2, H3, H4, H5. split_and!; try done. simpl. rewrite Hp. done.
  - exists [], (p :: l). split_and!; try done. intros q suf' [= <- _]. done.
Qed.

Lemma sorted_suffix {A} (R : A -> A -> Prop) l l' : StronglySorted R (l ++ l') -> StronglySorted R l'.
Proof. induction l; [done|]. inversion 1; auto. Qed.

(** what stays in the buffer when the window moves from [x] to [h] *)
Lemma window_suffix w x h suf :
  0 < w -> (forall a, um_key w h a = if um_key w x a =? 0 then 2 * w - 1 else um_key w x a - 1) ->
  StronglySorted (pdu_le (um_key w x)) suf ->
  (forall p suf', suf = p :: suf' -> um_key w h (pdu_sn p) < w) ->
  forall q, q ∈ suf -> um_key w h (pdu_sn q) = um_key w x (pdu_sn q) - 1.
Proof.
  intros Hw Hnext Hs Hhead q Hq. rewrite Hnext. destruct (Z.eqb_spec (um_key w x (pdu_sn q)) 0) as [Ez|]; [|done].
  exfalso. destruct suf as [|q0 suf]; [by apply not_elem_of_nil in Hq|]. specialize (Hhead q0 suf eq_refl).
  rewrite Hnext in Hhead. pose proof (um_key_range w Hw x (pdu_sn q0)).
  destruct (Z.eqb_spec (um_key w x (pdu_sn q0)) 0); [lia|].
  apply elem_of_cons in Hq as [->|Hq]; [lia|]. pose proof (sorted_head_le _ _ _ Hs q Hq). lia.
Qed.

(** moving the window from [x] to the next SN [h] drops a prefix of the buffer
    without PDUs of [x]; the rest stays sorted and inside the window *)
Lemma moved_window w M x h L pre suf :
  0 < w -> 0 <= x < M -> M = 2 * w ->
  (forall a, um_key w h a = if um_key w x a =? 0 then 2 * w - 1 else um_key w x a - 1) ->
  StronglySorted (pdu_le (um_key w x)) L ->
  Forall (fun q => 0 <= pdu_sn q < M /\ (pdu_sn q <> x -> pdu_size q = 0) /\ um_key w x (pdu_sn q) <= w) L ->
  L = pre ++ suf -> Forall (fun q => w <= um_key w h (pdu_sn q)) pre ->
  (forall q suf', suf = q :: suf' -> um_key w h (pdu_sn q) < w) ->
  of_sn x suf = of_sn x L /\ StronglySorted (pdu_le (um_key w h)) suf /\
  Forall (fun q => 0 <= pdu_sn q < M /\ um_key w h (pdu_sn q) < w /\ (pdu_sn q <> x -> pdu_size q = 0)) suf.
Proof.
  intros Hw Hx HM Hnext Hs Hin -> Hpre Hhead. apply Forall_app in Hin as [_ Hin]. apply sorted_suffix in Hs.
  pose proof (window_suffix w x h suf Hw Hnext Hs Hhead) as Hpos. split_and!.
  - rewrite of_sn_app, (of_sn_none x pre); [done|]. eapply Forall_weaken; [|exact Hpre]. intros q Hq Eq.
    unfold has_sn in Eq. simpl in Hq. rewrite Eq, Hnext, um_key_self, (proj2 (Z.eqb_neq w 0)) in Hq by lia. lia.
  - eapply sorted_rekey; [exact Hs|]. intros q r Hq Hr. rewrite !Hpos by done. lia.
  - rewrite list.Forall_forall in *. intros q Hq. destruct (Hin q Hq) as (? & ? & ?).
    rewrite Hpos by done. split_and!; done || lia.
Qed.

(** after a delivery the next SN is the first that is not delivered *)
Lemma skip_one e x b k a :
  sn_block x (b ++ k ++ a) b k a -> k <> [] -> um_rx_list e = b ++ map free_data k ++ a ->
  Forall (other_sn ((x + 1) %% um_sn_modulus e)) (um_rx_list e) ->
  skip_delivered (length (um_rx_list e)) e x = Ret ((x + 1) %% um_sn_modulus e).
Proof.
  intros Hblk Hne HL Hoth.
  assert (Hd : sdu_delivered e x = true) by (unfold sdu_delivered; rewrite HL; by apply (freed_delivered x _ b k a Hblk)).
  assert (Hnd : sdu_delivered e ((x + 1) %% um_sn_modulus e) = false)
    by (unfold sdu_delivered; rewrite find_sn_none; done).
  destruct (length (um_rx_list e)) as [|m] eqn:El.
  { exfalso. rewrite HL, !length_app, length_map in El. destruct k; [done|simpl in El; lia]. }
  cbn [skip_delivered]. rewrite Hd. destruct m; cbn [skip_delivered]; by rewrite Hnd.
Qed.

(** the buffer with the block of [x] freed holds only what delivered SDUs leave *)
Lemma freed_window (Q : nr_rlc_pdu_t -> Prop) x b k a :
  (forall p, Q p -> Q (free_data p)) -> sn_block x (b ++ k ++ a) b k a ->
  Forall (fun q => Q q /\ (pdu_sn q <> x -> pdu_size q = 0)) (b ++ k ++ a) ->
  Forall (fun q => Q q /\ pdu_size q = 0) (b ++ map free_data k ++ a).
Proof.
  intros HQ [_ Hb _ Ha] H. rewrite !Forall_app, Forall_map in *. destruct H as (H1 & H2 & H3). split_and!.
  - rewrite list.Forall_forall in *. intros q Hq. destruct (H1 q Hq) as [? Hz]. split; [done|]. apply Hz, (Hb q Hq).
  - eapply Forall_weaken; [|exact H2]. intros q [? _]. split; [auto|done].
  - rewrite list.Forall_forall in *. intros q Hq. destruct (H3 q Hq) as [? Hz]. split; [done|]. apply Hz, (Ha q Hq).
Qed.

Lemma so_nonneg e x sdu so : um_rx_sync e x sdu so -> 0 <= so.
Proof. intros Hsync. rewrite <- (rs_contig _ _ _ _ Hsync). apply contig_ge. Qed.

Lemma highest_range e x sdu so : um_rx_sync e x sdu so -> 0 <= um_rx_next_highest e < um_sn_modulus e.
Proof.
  intros []. rewrite rs_highest0. destruct (so =? 0); [done|]. apply rem_range; lia.
Qed.

Section store.
Context (e : nr_rlc_entity_um_t) (x : Z) (sdu : list Z) (so : Z) (Hsync : um_rx_sync e x sdu so).
Context (n : Z) (data : list Z) (Hn : 0 < n) (Hend : so + n <= zlen sdu).
Context (Hdata : data = take (Z.to_nat n) (drop (Z.to_nat so) sdu)).
Let p := nr_rlc_new_pdu x so (so =? 0) (so + n =? zlen sdu) data n.

(** the entity with the segment in its buffer *)
Definition um_stored : nr_rlc_entity_um_t :=
  let e1 := e <| um_rx_size ::= Z.add n |> in
  e1 <| um_rx_list := nr_rlc_pdu_list_add (sn_compare_rx e1) (um_rx_list e1) p |>.

Lemma stored_piece : piece sdu p.
Proof using All.
  pose proof (so_nonneg _ _ _ _ Hsync). constructor; try done. by intros d [= <-].
Qed.

Lemma stored_of_sn : of_sn x (um_rx_list um_stored) = of_sn x (um_rx_list e) ++ [p].
Proof using All.
  pose proof (highest_range _ _ _ _ Hsync). destruct Hsync. change x with (pdu_sn p).
  apply (of_sn_add_last (modulus_rx e)); [done| |].
  - eapply sorted_rekey; [exact rs_sorted0|]. intros q r Hq Hr. rewrite list.Forall_forall in rs_window0.
    destruct (rs_window0 q Hq) as [? _]. destruct (rs_window0 r Hr) as [? _]. by rewrite !modulus_rx_key.
  - eapply Forall_weaken; [|exact rs_pieces0]. intros q ([] & _ & He). unfold pdu_end in He. simpl. lia.
Qed.

Lemma stored_sorted : StronglySorted (pdu_le (um_key (um_window_size e) (um_rx_next_highest e))) (um_rx_list um_stored).
Proof using All.
  pose proof (highest_range _ _ _ _ Hsync) as Hh. destruct Hsync. pose proof (config_window_pos _ rs_config0) as Hw.
  pose proof (uc_window _ rs_config0) as HM. rewrite list.Forall_forall in rs_window0.
  eapply sorted_rekey; [apply (pdu_list_add_sorted (modulus_rx e)); [done| |]|].
  - intros q Hq. destruct (rs_window0 q Hq) as [? _]. rewrite !modulus_rx_key by done.
    intros E. apply um_key_inj in E; [done|done|lia|simpl; lia].
  - eapply sorted_rekey; [exact rs_sorted0|]. intros q r Hq Hr.
    destruct (rs_window0 q Hq) as [? _]. destruct (rs_window0 r Hr) as [? _]. by rewrite !modulus_rx_key.
  - assert (Hin : forall q, q ∈ um_rx_list um_stored -> 0 <= pdu_sn q < um_sn_modulus e).
    { intros q Hq. unfold um_stored in Hq. simpl in Hq. rewrite pdu_list_add_perm in Hq.
      apply elem_of_cons in Hq as [->|Hq]; [done|by destruct (rs_window0 q Hq)]. }
    intros q r Hq Hr. rewrite !modulus_rx_key by auto. done.
Qed.

Lemma stored_pieces :
  Forall (fun q => piece sdu q /\ pdu_data q <> None /\ pdu_end q <= so + n) (of_sn x (um_rx_list um_stored)) /\
  contig (of_sn x (um_rx_list um_stored)) 0 = so + n /\ sumZ pdu_size (of_sn x (um_rx_list um_stored)) = so + n.
Proof using All.
  rewrite stored_of_sn. destruct Hsync. split_and!.
  - apply Forall_app. split.
    + eapply Forall_weaken; [|exact rs_pieces0]. intros q (? & ? & ?). split_and!; [done|done|lia].
    + constructor; [|constructor]. split_and!; [apply stored_piece|done|done].
  - change n with (pdu_size p) at 1. apply contig_snoc; try done.
    + eapply Forall_weaken; [|exact rs_pieces0]. by intros q (? & ? & ?).
    + eapply Forall_weaken; [|exact rs_pieces0]. by intros q ([] & ? & ?).
  - rewrite sumZ_app, rs_sum0. simpl. lia.
Qed.
End store.

(** ** Reception of a segment *)

(** the invariant only speaks of these fields *)
Lemma sync_eq e e' x sdu so :
  um_config e' = um_config e -> um_rx_list e' = um_rx_list e -> um_rx_size e' = um_rx_size e ->
  um_rx_next_reassembly e' = um_rx_next_reassembly e -> um_rx_next_highest e' = um_rx_next_highest e ->
  um_rx_sync e x sdu so -> um_rx_sync e' x sdu so.
Proof.
  intros Hc Hl Hs Hr Hh []. pose proof (um_config_ok_eq e e' Hc rs_config0) as Hc'. injection Hc as E1 E2 E3 E4.
  constructor; rewrite ?E2, ?E3, ?Hl, ?Hs, ?Hr, ?Hh; done.
Qed.

Section recv.
Context (e : nr_rlc_entity_um_t) (x : Z) (sdu : list Z) (so : Z) (Hsync : um_rx_sync e x sdu so).
Context (n : Z) (data : list Z) (Hn : 0 < n) (Hend : so + n <= zlen sdu) (Hmax : zlen sdu <= NR_SDU_MAX).
Context (Hdata : data = take (Z.to_nat n) (drop (Z.to_nat so) sdu)).
Let e1 := um_stored e x sdu so n data.

Lemma stored_full : sdu_full e1 x = (so + n =? zlen sdu).
Proof using All.
  destruct (stored_pieces e x sdu so Hsync n data Hn Hend Hdata) as (Hp & Hc & _).
  pose proof (stored_sorted e x sdu so Hsync n data Hn Hend Hdata) as Hs.
  pose proof (stored_of_sn e x sdu so Hsync n data Hn Hend Hdata) as Ho. fold e1 in Hp, Hc, Hs, Ho.
  rewrite (um_full_ok _ e1 x sdu Hs), Hc; [done| | |].
  - rewrite Ho. by destruct (of_sn x (um_rx_list e)).
  - eapply Forall_weaken; [|exact Hp]. by intros q (? & _).
  - eapply Forall_weaken; [|exact Hp]. by intros q (_ & ? & _).
Qed.

(** every PDU in the buffer is within the window, the new one too *)
Lemma stored_window : 0 < so ->
  Forall (fun q => 0 <= pdu_sn q < um_sn_modulus e /\
    um_key (um_window_size e) (um_rx_next_highest e) (pdu_sn q) < um_window_size e /\
    (pdu_sn q <> x -> pdu_size q = 0)) (um_rx_list e1).
Proof using All.
  intros Hso. destruct Hsync. pose proof (config_window_pos _ rs_config0) as Hw. pose proof (uc_window _ rs_config0) as HM.
  unfold e1, um_stored. cbn [um_rx_list]. simpl. rewrite pdu_list_add_perm. constructor; [|done]. simpl.
  split; [done|]. split; [|done]. rewrite rs_highest0, (proj2 (Z.eqb_neq so 0)), HM, um_key_next, um_key_self by lia.
  rewrite (proj2 (Z.eqb_neq _ 0)) by lia. lia.
Qed.

(** the last segment *)
Lemma recv_last : 0 < so -> so + n = zlen sdu ->
  returns (full_actions e1 x) (fun e' =>
    (forall sdu', um_rx_sync e' ((x + 1) %% um_sn_modulus e) sdu' 0) /\
    um_config e' = um_config e /\ um_events e' = um_events e ++ [DeliverSdu sdu]).
Proof using All.
  intros Hso Hl. destruct (stored_pieces e x sdu so Hsync n data Hn Hend Hdata) as (Hp & Hc & Hsum).
  pose proof (stored_sorted e x sdu so Hsync n data Hn Hend Hdata) as Hs.
  pose proof (stored_of_sn e x sdu so Hsync n data Hn Hend Hdata) as Ho. pose proof (stored_window Hso) as Hwin.
  fold e1 in Hp, Hc, Hsum, Hs, Ho.
  destruct (um_reassemble_ok _ e1 x sdu Hs) as (b & k & a & Hblk & Hk & Hre).
  { rewrite Ho. by destruct (of_sn x (um_rx_list e)). }
  { eapply Forall_weaken; [|exact Hp]. by intros q (? & _). }
  { eapply Forall_weaken; [|exact Hp]. by intros q (_ & ? & _). }
  { done. }
  { lia. }
  assert (Hkne : k <> []) by (rewrite Hk, Ho; by destruct (of_sn x (um_rx_list e))).
  unfold full_actions. rewrite Hre, bind_Ret_l. replace (sumZ pdu_size k) with (so + n) by (rewrite Hk; lia).
  set (L := b ++ map free_data k ++ a). set (e2 := upd_stats _ _).
  assert (HL : um_rx_list e2 = L) by done. destruct Hsync. pose proof (config_window_pos _ rs_config0) as Hw.
  pose proof (uc_window _ rs_config0) as HM. set (x' := (x + 1) %% um_sn_modulus e).
  assert (Hx' : 0 <= x' < um_sn_modulus e) by (apply rem_range; lia).
  assert (HH : um_rx_next_highest e = x') by (rewrite rs_highest0, (proj2 (Z.eqb_neq so 0)) by lia; done).
  pose proof Hblk as Hblk'. rewrite (blk_eq _ _ _ _ _ Hblk) in Hblk', Hwin, Hs.
  assert (HwL : Forall (fun q => (0 <= pdu_sn q < um_sn_modulus e /\
    um_key (um_window_size e) x' (pdu_sn q) < um_window_size e) /\ pdu_size q = 0) L).
  { apply (freed_window _ x); [done|done|]. rewrite HH in Hwin. eapply Forall_weaken; [|exact Hwin]. by intros q (? & ? & ?). }
  assert (Hother : Forall (other_sn x') L).
  { eapply Forall_weaken; [|exact HwL]. intros q [[_ Hkey] _] E. unfold has_sn in E.
    rewrite E, um_key_self in Hkey by done. lia. }
  change (um_rx_next_reassembly e2) with (um_rx_next_reassembly e). rewrite rs_reasm0, Z.eqb_refl, HL.
  rewrite <- HL, (skip_one e2 x b k a Hblk' Hkne HL Hother), bind_Ret_l. apply returns_Ret. split; [|done]. intros sdu'.
  assert (Hof : of_sn x' L = []) by (by apply of_sn_none).
  change ((x + 1) %% um_sn_modulus e2) with x'. set (e3 := e2 <| um_rx_next_reassembly := x' |>).
  assert (Hh3 : um_rx_next_highest e3 = x') by exact HH.
  constructor; rewrite ?Hh3; change (um_rx_list e3) with L; rewrite ?Hof; try done.
  - by apply (um_config_ok_eq e).
  - change (um_window_size e3) with (um_window_size e). unfold L. apply sorted_map_block; [done|].
    rewrite <- HH. exact Hs.
  - eapply Forall_weaken; [|exact HwL]. by intros q [[? ?] ?].
  - change (um_rx_size e3) with (n + um_rx_size e - (so + n)). lia.
Qed.

(** what the invariant says of the buffer with the segment in it *)
Lemma stored_sync : 0 < so -> um_rx_sync e1 x sdu (so + n).
Proof using All.
  intros Hso. destruct (stored_pieces e x sdu so Hsync n data Hn Hend Hdata) as (Hp & Hc & Hsum).
  pose proof (stored_sorted e x sdu so Hsync n data Hn Hend Hdata) as Hs. pose proof (stored_window Hso) as Hwin.
  destruct Hsync. constructor; try done.
  - by apply (um_config_ok_eq e).
  - rewrite (proj2 (Z.eqb_neq (so + n) 0)) by lia. change (um_rx_next_highest e1) with (um_rx_next_highest e).
    by rewrite rs_highest0, (proj2 (Z.eqb_neq so 0)) by lia.
  - change (um_rx_size e1) with (n + um_rx_size e). lia.
Qed.

(** a middle segment does not move the window *)
Lemma recv_middle : 0 < so -> not_full_actions e1 x = Ret e1.
Proof using All.
  intros Hso. unfold not_full_actions, sn_compare_rx. pose proof (highest_range _ _ _ _ Hsync) as Hh. destruct Hsync.
  pose proof (config_window_pos _ rs_config0) as Hw. pose proof (uc_window _ rs_config0) as HM.
  change (modulus_rx e1) with (modulus_rx e). change (um_rx_next_highest e1) with (um_rx_next_highest e).
  rewrite !modulus_rx_key, um_key_self by done.
  rewrite rs_highest0, (proj2 (Z.eqb_neq so 0)), HM, um_key_next, um_key_self, (proj2 (Z.eqb_neq _ 0)) by lia.
  by rewrite (proj2 (Z.leb_gt _ _)) by lia.
Qed.

(** the first segment moves the window and drops what is left of the SDU that
    is now outside it *)
Lemma recv_first : so = 0 -> n < zlen sdu ->
  returns (not_full_actions e1 x) (fun e' => um_rx_sync e' x sdu n /\ um_rx_rest e' = um_rx_rest e).
Proof using All.
  intros E0 Hlt. destruct (stored_pieces e x sdu so Hsync n data Hn Hend Hdata) as (Hp & Hc & Hsum).
  pose proof (stored_sorted e x sdu so Hsync n data Hn Hend Hdata) as Hs. fold e1 in Hp, Hc, Hsum, Hs.
  destruct Hsync. rewrite E0 in rs_highest0. simpl in rs_highest0.
  pose proof (config_window_pos _ rs_config0) as Hw. pose proof (uc_window _ rs_config0) as HM.
  set (w := um_window_size e) in *. set (h := (x + 1) %% um_sn_modulus e).
  assert (Hh : 0 <= h < um_sn_modulus e) by (apply rem_range; lia).
  assert (Hin : Forall (fun q => 0 <= pdu_sn q < um_sn_modulus e /\ (pdu_sn q <> x -> pdu_size q = 0) /\
    um_key w x (pdu_sn q) <= w) (um_rx_list e1)).
  { unfold e1, um_stored. simpl. rewrite pdu_list_add_perm. constructor; simpl.
    - rewrite um_key_self by done. split_and!; done || lia.
    - eapply Forall_weaken; [|exact rs_window0]. rewrite rs_highest0. intros q (? & ? & ?). split_and!; done || lia. }
  assert (Hall : forall q, q ∈ um_rx_list e1 -> 0 <= pdu_sn q < um_sn_modulus e)
    by (rewrite list.Forall_forall in Hin; intros q Hq; by apply Hin).
  assert (Hnext : forall a, um_key w h a = if um_key w x a =? 0 then 2 * w - 1 else um_key w x a - 1).
  { intros a. unfold h. rewrite HM. apply um_key_next; lia. }
  set (e2 := e1 <| um_rx_next_highest := h |>). assert (Hc2 : um_config_ok e2) by (by apply (um_config_ok_eq e)).
  assert (Hcmp : forall a, 0 <= a < um_sn_modulus e -> sn_compare_rx e2 a h = um_key w h a - w).
  { intros a Ha. unfold sn_compare_rx. rewrite !modulus_rx_key by done. change (um_rx_next_highest e2) with h.
    by rewrite um_key_self by done. }
  assert (Hx : um_key w h x = w - 1) by (rewrite Hnext, um_key_self, (proj2 (Z.eqb_neq w 0)) by lia; done).
  unfold not_full_actions. change (um_rx_next_highest e1) with (um_rx_next_highest e). rewrite rs_highest0.
  replace (sn_compare_rx e1 x x) with 0 by (unfold sn_compare_rx; lia). cbv iota. simpl (0 <=? 0). cbv iota.
  change (um_sn_modulus e1) with (um_sn_modulus e). fold h. fold e2.
  destruct (discard_frame (um_rx_list e2) e2) as (pre & suf & El & Hpre & Hsuf & H).
  { change (um_rx_list e2) with (um_rx_list e1). eapply Forall_weaken; [|exact Hin].
    intros q (Hq & Hz & _) Hge. apply Hz. intros Eq. change (um_rx_next_highest e2) with h in Hge.
    rewrite Hcmp, Eq, Hx in Hge by done. lia. }
  change (um_rx_next_highest e2) with h in *. change (um_rx_list e2) with (um_rx_list e1) in El, H.
  set (e3 := discard_out_of_window e2 _) in *. destruct H as (H1 & H2 & H3 & H4 & H5).
  change (um_rx_next_reassembly e2) with (um_rx_next_reassembly e) in H4. rewrite rs_reasm0 in H4.
  pose proof (um_config_ok_eq e e3) as Hc3. assert (H1' : um_rx_rest e3 = um_rx_rest e) by exact H1.
  injection H1 as C1 C2 C3 C4 C5.
  specialize (Hc3 ltac:(unfold um_config; congruence) rs_config0).
  assert (HW3 : um_window_size e3 = w) by exact C3. assert (HM3 : um_sn_modulus e3 = um_sn_modulus e) by exact C2.
  rewrite H4, H5. replace (sn_compare_rx e3 x h) with (-1).
  2: { unfold sn_compare_rx. rewrite !modulus_rx_key by (rewrite ?HM3, ?H5; done). rewrite H5, HW3.
       rewrite Hx, um_key_self by done. lia. }
  simpl (0 <=? -1). cbv iota. apply returns_Ret. split; [|done].
  destruct (moved_window w (um_sn_modulus e) x h (um_rx_list e1) pre suf) as (Hof & Hsorted & Hwin); try done.
  { rewrite <- rs_highest0. exact Hs. }
  { rewrite list.Forall_forall in *. intros q Hq. specialize (Hpre q Hq). rewrite Hcmp in Hpre; [lia|]. apply Hall.
    rewrite El. apply elem_of_app. by left. }
  { intros q suf' Eq. pose proof (Hsuf q suf' Eq) as Hlt'. rewrite Hcmp in Hlt'; [lia|]. apply Hall.
    rewrite El, Eq. apply elem_of_app. right. left. }
  rewrite E0 in Hp, Hc, Hsum. rewrite Z.add_0_l in Hp, Hc, Hsum.
  constructor; rewrite ?H2, ?H3, ?H4, ?H5, ?HM3, ?HW3, ?Hof; try done.
  - by rewrite (proj2 (Z.eqb_neq n 0)) by lia.
  - change (um_rx_size e2) with (n + um_rx_size e). lia.
Qed.
End recv.

(** the receiver after [so + n] bytes of the SDU: in the middle of it, or done *)
Definition um_rx_after (e e' : nr_rlc_entity_um_t) (x : Z) (sdu : list Z) (sent : Z) : Prop :=
  um_config e' = um_config e /\
  if sent =? zlen sdu
  then (forall sdu', um_rx_sync e' ((x + 1) %% um_sn_modulus e) sdu' 0) /\
       um_events e' = um_events e ++ [DeliverSdu sdu]
  else um_rx_sync e' x sdu sent /\ um_events e' = um_events e.

Lemma timers_after e e' x sdu sent :
  um_rx_after e e' x sdu sent -> um_rx_after e (start_t_reassembly (stop_t_reassembly e')) x sdu sent.
Proof.
  destruct (timers_frame e') as (H1 & H2 & H3 & H4 & H5). set (e2 := start_t_reassembly _) in *.
  assert (Hc : um_config e2 = um_config e') by exact (f_equal fst H1).
  assert (He : um_events e2 = um_events e') by exact (f_equal snd H1).
  unfold um_rx_after. rewrite Hc, He. intros [H H']. split; [done|]. destruct (sent =? zlen sdu).
  - destruct H' as [H' ?]. split; [|done]. intros sdu'. eapply sync_eq; [exact Hc|done..|apply H'].
  - destruct H' as [H' ?]. split; [|done]. eapply sync_eq; [exact Hc|done..|apply H'].
Qed.

Lemma recv_segment_ok e x sdu so hdr data n :
  um_rx_sync e x sdu so -> 0 < n -> so + n <= zlen sdu -> zlen sdu <= NR_SDU_MAX -> zlen sdu <= um_rx_maxsize e ->
  data = take (Z.to_nat n) (drop (Z.to_nat so) sdu) -> (so = 0 -> n < zlen sdu) ->
  returns (recv_segment e (hdr ++ data) x so (so =? 0) (so + n =? zlen sdu) (zlen hdr))
    (fun e' => um_rx_after e e' x sdu (so + n)).
Proof.
  intros Hsync Hn Hend Hmax Hroom Hdata Hnw. pose proof (so_nonneg _ _ _ _ Hsync) as Hso.
  assert (Hlen : zlen data = n).
  { rewrite Hdata, zlen_take, zlen_drop. lia. }
  unfold recv_segment. rewrite zlen_app, Hlen. replace (zlen hdr + n - zlen hdr) with n by lia.
  rewrite (rs_size _ _ _ _ Hsync), (rs_reasm _ _ _ _ Hsync).
  rewrite (proj2 (Z.leb_gt n 0)), (proj2 (Z.ltb_ge _ (so + n))) by lia.
  replace (sn_compare_rx e x x) with 0 by (unfold sn_compare_rx; lia). simpl (0 <? 0).
  rewrite mem_read_suffix, bind_Ret_l by lia. unfold reception_actions.
  change (pdu_sn _) with x. fold (um_stored e x sdu so n data).
  rewrite (stored_full e x sdu so Hsync n data Hn Hend Hmax Hdata).
  eapply (returns_seq _ _ (fun e' => um_rx_after e e' x sdu (so + n)));
    [|intros e' He'; apply returns_Ret; by apply timers_after].
  unfold um_rx_after. destruct (Z.eqb_spec (so + n) (zlen sdu)) as [Hl|Hl].
  - eapply returns_mono; [apply (recv_last e x sdu so Hsync n data); try done; lia|]. intros e' (H1 & H2 & H3). auto.
  - destruct (Z.eq_dec so 0) as [E0|E0].
    + eapply returns_mono; [apply (recv_first e x sdu so Hsync n data); try done; lia|]. intros e' [H1 [= H2 H3 H4 H5 H6]].
      rewrite E0, Z.add_0_l. unfold um_config, um_events. split; [congruence|]. by split.
    + rewrite (recv_middle e x sdu so Hsync n data) by (done || lia). apply returns_Ret. split; [done|]. split; [|done].
      apply (stored_sync e x sdu so Hsync n data); done || lia.
Qed.
