(* ===== verification/RlcUmLinkTx.v ===== *)
(** The sender of an unacknowledged-mode link: the queue of SDUs it represents,
    of which the first may be partly sent, and that every grant that has room
    for a header and a byte sends the next bytes of it. *)

From stdpp Require Import base tactics list numbers gmap.
From Stdlib Require Import ZArith Lia Sorted.
From S2P Require Import Prelude TimeStat RlcPdu RlcSdu RlcEntity RlcRxList.
From S2P Require Import RlcUm RlcUmSpec RlcUmLinkRx.

(** ** The heap under the queue *)

(** segment [s] is the rest of the SDU [d] from byte [so] on *)
Definition um_holds (h : sdu_heap) (so : Z) (s : nr_rlc_sdu_segment_t) (d : list Z) : Prop :=
  exists u, deref h s = Ret u /\ sdu_data u = d /\ seg_ok u s /\ seg_so s = so /\ so + seg_size s = zlen d.

(** the SDUs of the segments of [l] keep their bytes *)
Definition keeps_data (l : list nr_rlc_sdu_segment_t) (h h' : sdu_heap) : Prop :=
  forall t u, t ∈ l -> deref h t = Ret u -> exists u', deref h' t = Ret u' /\ sdu_data u' = sdu_data u.

Lemma keeps_data_trans l h1 h2 h3 : keeps_data l h1 h2 -> keeps_data l h2 h3 -> keeps_data l h1 h3.
Proof.
  intros H1 H2 t u Ht Hu. destruct (H1 t u Ht Hu) as (u2 & Hu2 & E2). destruct (H2 t u2 Ht Hu2) as (u3 & Hu3 & E3).
  exists u3. split; [done|congruence].
Qed.

Lemma holds_keeps l h h' so s d : keeps_data l h h' -> s ∈ l -> um_holds h so s d -> um_holds h' so s d.
Proof.
  intros Hk Hs (u & Hu & <- & Hok & H). destruct (Hk s u Hs Hu) as (u' & Hu' & E).
  exists u'. rewrite E. split; [done|]. split; [done|]. split; [by apply (seg_ok_data u)|done].
Qed.

Lemma keeps_data_store l h s u u' : deref h s = Ret u -> sdu_data u' = sdu_data u -> keeps_data l h (store_sdu h s u').
Proof.
  intros Hu Hd t v _ Ht. unfold deref, store_sdu in *. simpl.
  destruct (Nat.eq_dec (seg_sdu s) (seg_sdu t)) as [E|E].
  - rewrite E, lookup_insert_eq. exists u'. split; [done|]. rewrite E in Hu.
    destruct (heap_sdus h !! seg_sdu t); congruence.
  - rewrite lookup_insert_ne by done. by exists v.
Qed.

(** freeing a segment leaves the SDUs of the others alone *)
Lemma keeps_data_free h s l : owned h (s :: l) ->
  returns (nr_rlc_free_sdu_segment h s) (fun '(_, h') => owned h' l /\ keeps_data l h h').
Proof.
  intros Ho. eapply returns_mono; [eapply returns_and; [apply owned_free, Ho|]|].
  - intros r E. exact E.
  - intros [b h'] [[Ho' _] E]. split; [done|]. destruct (owned_deref h _ s Ho ltac:(left)) as (u & Hu & _).
    unfold nr_rlc_free_sdu_segment in E. rewrite Hu, bind_Ret_l in E.
    case_match; injection E as <- <-; [|by eapply keeps_data_store]. intros t v Ht Hv.
    destruct (owned_deref _ _ t Ho' Ht) as (v' & Hv' & _). exists v'. split; [done|].
    unfold deref in *. simpl in Hv'. destruct (Nat.eq_dec (seg_sdu s) (seg_sdu t)) as [Es|Es].
    + by rewrite Es, lookup_delete_eq in Hv'.
    + rewrite lookup_delete_ne in Hv' by done. congruence.
Qed.

(** ** Serialisation and release of a segment *)

(** [pdu] carries the segment [s] of [u] *)
Definition um_carries (len : Z) (u : nr_rlc_sdu_t) (s : nr_rlc_sdu_segment_t) (pdu : list Z) : Prop :=
  exists hdr, pdu = hdr ++ seg_bytes u s /\ zlen hdr = um_header_len len (seg_is_first s) (seg_is_last s) /\
    bits_of_bytes hdr = um_header_bits len (seg_is_first s) (seg_is_last s) (sdu_sn u) (seg_so s).

Definition um_avg_ok (e : nr_rlc_entity_um_t) : Prop := exists q, avg_repr (txsdu_avg_time_to_tx (um_common e)) q.

Lemma um_account_ok e time_now arrival : um_avg_ok e ->
  returns (account_waiting_time (um_common e) time_now arrival) (fun c => um_avg_ok (e <| um_common := c |>)).
Proof.
  intros [q Hq]. unfold account_waiting_time. destruct (avg_time_is_on (um_common e)); [|apply returns_Ret; by exists q].
  eapply returns_seq; [by apply add_repr|]. intros t' [Hr _]. apply returns_Ret. by eexists.
Qed.

(** SN of the next SDU after a segment *)
Definition next_sn (e : nr_rlc_entity_um_t) (s : nr_rlc_sdu_segment_t) : Z :=
  if negb (seg_is_first s) && seg_is_last s then (um_tx_next e + 1) %% um_sn_modulus e else um_tx_next e.

(** the transmitter's fields after a segment was sent *)
Record um_sent (e e' : nr_rlc_entity_um_t) (s : nr_rlc_sdu_segment_t) : Prop := {
  se_config : um_config e' = um_config e;
  se_next : um_tx_next e' = next_sn e s;
  se_list : um_tx_list e' = um_tx_list e;
  se_end : um_tx_end e' = um_tx_end e;
  se_size : um_tx_size e' = um_tx_size e - seg_size s;
  se_max : um_tx_maxsize e' = um_tx_maxsize e;
  se_avg : um_avg_ok e';
  se_own : owned (um_heap e') (um_tx_list e);
  se_data : keeps_data (um_tx_list e) (um_heap e) (um_heap e')
}.

Lemma send_segment_ok e s u buffer time_now :
  um_config_ok e -> um_avg_ok e -> owned (um_heap e) (s :: um_tx_list e) -> deref (um_heap e) s = Ret u ->
  um_header_len (um_sn_field_length e) (seg_is_first s) (seg_is_last s) + seg_size s <= zlen buffer ->
  returns (send_segment e s buffer time_now) (fun '(n, e', buffer') =>
    0 < n /\ um_carries (um_sn_field_length e) u s (take (Z.to_nat n) buffer') /\ um_sent e e' s).
Proof.
  intros Hc Hav Ho Hu Hsize. destruct (owned_deref _ _ s Ho ltac:(left)) as (u0 & Hu0 & Hok).
  assert (u0 = u) as -> by congruence. unfold send_segment.
  set (e1 := if negb (seg_is_first s) && seg_is_last s
    then e <| um_tx_next := (um_tx_next e + 1) %% um_sn_modulus e |> else e). cbv zeta.
  assert (H1 : um_config e1 = um_config e /\ um_heap e1 = um_heap e /\ um_tx_list e1 = um_tx_list e /\
    um_tx_end e1 = um_tx_end e /\ um_tx_size e1 = um_tx_size e /\ um_tx_maxsize e1 = um_tx_maxsize e /\
    um_common e1 = um_common e /\ um_tx_next e1 = next_sn e s).
  { unfold e1, next_sn. by destruct (negb _ && _). }
  clearbody e1. destruct H1 as (C & Eh & El & Ee & Es & Em & Ec & En). injection C as C1 C2 C3 C4.
  pose proof (um_serialize_spec e1 s u buffer (zlen buffer)) as Hser.
  rewrite C1, Eh in Hser. specialize (Hser (uc_len _ Hc) Hu Hok ltac:(lia)).
  eapply returns_seq; [exact Hser|]. intros [n buffer'] (Hn & _ & Hpdu).
  set (e2 := e1 <| um_tx_size ::= _ |>). set (e3 := upd_stats _ e2).
  change (um_heap e3) with (um_heap e1). rewrite Eh, Hu, bind_Ret_l.
  assert (Hav3 : um_avg_ok e3). { destruct Hav as [q Hq]. exists q. simpl. by rewrite Ec. }
  eapply returns_seq; [by apply (um_account_ok e3)|]. intros c Hcav.
  eapply returns_seq; [by apply (keeps_data_free _ s (um_tx_list e))|]. intros [b h'] [Ho' Hk]. apply returns_Ret.
  split. { unfold um_header_len in Hn. pose proof (seg_size_ok _ _ Hok). repeat case_match; lia. }
  split; [unfold um_is_pdu in Hpdu; rewrite C1 in Hpdu; exact Hpdu|].
  constructor; simpl; try done; try lia; unfold um_config; simpl; congruence.
Qed.

(** ** The queue *)

Definition um_segs (h : sdu_heap) (l : list nr_rlc_sdu_segment_t) (q : list (list Z)) (so : Z) : Prop :=
  match l, q with
  | [], [] => so = 0
  | s :: l, d :: q => um_holds h so s d /\ Forall2 (um_holds h 0) l q
  | _, _ => False
  end.

(** the SDUs [q] are queued, the first [so] bytes of the first one are sent *)
Record um_tx_sync (e : nr_rlc_entity_um_t) (q : list (list Z)) (so : Z) : Prop := {
  tq_config : um_config_ok e;
  tq_next : 0 <= um_tx_next e < um_sn_modulus e;
  tq_own : owned (um_heap e) (um_tx_list e);
  tq_end : um_tx_end e = option_map seg_addr (last (um_tx_list e));
  tq_segs : um_segs (um_heap e) (um_tx_list e) q so;
  tq_size : um_tx_size e = sumZ zlen q - so;
  tq_avg : um_avg_ok e;
  tq_sdu : Forall (fun d => 0 < zlen d <= NR_SDU_MAX) q
}.

Lemma segs_keep h h' l q so : keeps_data l h h' -> um_segs h l q so -> um_segs h' l q so.
Proof.
  intros Hk. unfold um_segs. destruct l as [|s l], q as [|d q]; try done. intros [Hs Hl].
  split; [eapply holds_keeps; [done|left|done]|].
  apply Forall2_same_length_lookup. apply Forall2_same_length_lookup in Hl as [Hlen Hl]. split; [done|].
  intros i t c Ht Hc. eapply holds_keeps; [exact Hk| |by eapply Hl]. right. by eapply list_elem_of_lookup_2.
Qed.

Lemma whole_segs h l q : Forall2 (um_holds h 0) l q -> um_segs h l q 0.
Proof. destruct 1; done. Qed.

(** header of a segment cut off an SDU: at most four bytes, no shorter than the
    one the SDU would have had *)
Lemma cut_header e s :
  compute_pdu_header_size e s <= compute_pdu_header_size e (s <| seg_is_last := false |>) <= 4.
Proof. unfold compute_pdu_header_size. simpl. repeat case_match; simpl in *; bool_prop; try lia; destruct (seg_is_first s), (seg_is_last s); simpl in *; try done; lia. Qed.

(** the next bytes of the queue: [k] bytes from [so] on of the first SDU *)
Record um_next (tx tx' : nr_rlc_entity_um_t) (d : list Z) (q : list (list Z)) (so k : Z) (pdu : list Z) : Prop := {
  nx_range : 0 < k /\ so + k <= zlen d;
  nx_pdu : exists u s, um_carries (um_sn_field_length tx) u s pdu /\ sdu_data u = d /\ sdu_sn u = um_tx_next tx /\
    seg_ok u s /\ seg_so s = so /\ seg_size s = k;
  nx_sync : if so + k =? zlen d then um_tx_sync tx' q 0 else um_tx_sync tx' (d :: q) (so + k);
  nx_sn : um_tx_next tx' = if negb (so =? 0) && (so + k =? zlen d) then (um_tx_next tx + 1) %% um_sn_modulus tx
                           else um_tx_next tx;
  nx_config : um_config tx' = um_config tx;
  nx_max : um_tx_maxsize tx' = um_tx_maxsize tx
}.

(** segment [s], the next bytes of the queue of [tx], is off the list of [e] *)
Record um_ready (tx e : nr_rlc_entity_um_t) (d : list Z) (q : list (list Z)) (so : Z)
    (s : nr_rlc_sdu_segment_t) (u : nr_rlc_sdu_t) : Prop := {
  re_config : um_config e = um_config tx;
  re_next : um_tx_next e = um_tx_next tx;
  re_end : um_tx_end e = option_map seg_addr (last (um_tx_list e));
  re_size : um_tx_size e = um_tx_size tx;
  re_max : um_tx_maxsize e = um_tx_maxsize tx;
  re_avg : um_avg_ok e;
  re_own : owned (um_heap e) (s :: um_tx_list e);
  re_deref : deref (um_heap e) s = Ret u;
  re_data : sdu_data u = d;
  re_sn : sdu_sn u = um_tx_next tx;
  re_so : seg_so s = so;
  re_rest : if so + seg_size s =? zlen d then um_segs (um_heap e) (um_tx_list e) q 0
            else um_segs (um_heap e) (um_tx_list e) (d :: q) (so + seg_size s)
}.

Lemma sent_next tx e e' q d so s u :
  um_tx_sync tx (d :: q) so -> um_ready tx e d q so s u -> seg_ok u s -> um_sent e e' s ->
  (if so + seg_size s =? zlen d then um_tx_sync e' q 0 else um_tx_sync e' (d :: q) (so + seg_size s)) /\
  um_tx_next e' = (if negb (so =? 0) && (so + seg_size s =? zlen d) then (um_tx_next tx + 1) %% um_sn_modulus tx
                   else um_tx_next tx).
Proof.
  intros Htx [Hc Hn Hend Hsz Hm _ _ _ <- _ <- Hsegs] Hok [S1 S2 S3 S4 S5 S6 S7 S8 S9]. destruct Htx.
  pose proof Hok as [_ _ _ Hf Hla]. injection Hc as C1 C2 C3 C4.
  assert (Hnext : um_tx_next e' = if negb (seg_so s =? 0) && (seg_so s + seg_size s =? zlen (sdu_data u))
    then (um_tx_next tx + 1) %% um_sn_modulus tx else um_tx_next tx).
  { rewrite S2. unfold next_sn. by rewrite Hn, C2, Hf, Hla. }
  split; [|done].
  assert (Hc' : um_config e' = um_config tx) by (rewrite S1; unfold um_config; congruence).
  assert (Hr : 0 <= um_tx_next e' < um_sn_modulus e').
  { injection Hc' as _ -> _ _. rewrite Hnext. destruct (_ && _); [apply rem_range; lia|done]. }
  inversion tq_sdu0 as [|? ? Hd Hq]; subst.
  destruct (_ =? zlen (sdu_data u)) eqn:E; constructor; rewrite ?S3, ?S4; try done;
    try (by apply (um_config_ok_eq tx)); try (by eapply segs_keep).
  all: rewrite S5, Hsz, tq_size0; simpl; bool_prop; lia.
Qed.

Lemma ready_sent tx e d q so s u buffer time_now :
  um_tx_sync tx (d :: q) so -> um_ready tx e d q so s u ->
  um_header_len (um_sn_field_length tx) (seg_is_first s) (seg_is_last s) + seg_size s <= zlen buffer ->
  returns (send_segment e s buffer time_now) (fun '(n, tx', buffer') =>
    0 < n /\ exists k, um_next tx tx' d q so k (take (Z.to_nat n) buffer')).
Proof.
  intros Htx Hre Hsize. pose proof Hre as [Hc _ _ _ Hm Hav Ho Hu Hd Hsn Hso _].
  assert (Hlen : um_sn_field_length e = um_sn_field_length tx) by (injection Hc; done).
  destruct (owned_deref _ _ s Ho ltac:(left)) as (u0 & Hu0 & Hok). assert (u0 = u) as -> by congruence.
  pose proof (um_config_ok_eq tx e Hc (tq_config _ _ _ Htx)) as Hcfg.
  eapply returns_mono; [apply (send_segment_ok e s u); try done; by rewrite Hlen|].
  intros [[n e'] buffer'] (Hn & Hpdu & Hsent). split; [done|]. exists (seg_size s).
  destruct (sent_next tx e e' q d so s u Htx Hre Hok Hsent) as [H1 H2]. pose proof Hok as [? ? ? _ _].
  constructor; try done.
  - split; [done|]. by rewrite <- Hd, <- Hso.
  - exists u, s. rewrite <- Hlen. done.
  - by rewrite (se_config _ _ _ Hsent).
  - by rewrite (se_max _ _ _ Hsent).
Qed.

(** an SDU that does not fit is cut in two; the rest goes back to the head of
    the queue *)
Lemma ready_split tx e d q so s u buffer time_now :
  um_tx_sync tx (d :: q) so -> um_ready tx e d q so s u -> 5 <= zlen buffer ->
  so + seg_size s = zlen d -> zlen buffer < compute_pdu_header_size tx s + seg_size s ->
  returns ('(sdu, next_sdu, entity) ← resegment s e (zlen buffer);
    match next_sdu with
    | None => Ret (0, entity, buffer)
    | Some next_sdu =>
        let entity := entity <| um_tx_list := next_sdu :: um_tx_list entity |> in
        let entity := match um_tx_end entity with
                      | None => entity <| um_tx_end := Some (seg_addr next_sdu) |>
                      | Some _ => entity
                      end in
        let entity := upd_stats (fun s => s <| txpdu_segmented ::= add32 1 |>) entity in
        let entity := add_bs_tx (compute_pdu_header_size entity next_sdu + seg_size next_sdu) entity in
        send_segment entity sdu buffer time_now
    end) (fun '(n, tx', buffer') => 0 < n /\ exists k, um_next tx tx' d q so k (take (Z.to_nat n) buffer')).
Proof.
  intros Htx [Hc Hn Hend Hsz Hm Hav Ho Hu Hd Hsn Hso Hrest] Hg Hlast Hbig.
  rewrite Hlast, Z.eqb_refl in Hrest. pose proof (cut_header tx s) as Hhs.
  destruct (owned_deref _ _ s Ho ltac:(left)) as (u0 & Hu0 & Hok). assert (u0 = u) as -> by congruence.
  unfold resegment. rewrite Hu, bind_Ret_l. cbv zeta.
  assert (Hhdr : compute_pdu_header_size e = compute_pdu_header_size tx).
  { unfold compute_pdu_header_size. by injection Hc as -> _ _ _. }
  rewrite Hhdr. set (hs := compute_pdu_header_size tx (s <| seg_is_last := false |>)) in *.
  rewrite (proj2 (Z.ltb_ge _ _)) by lia. set (k := zlen buffer - hs).
  assert (Hk : 0 < k < seg_size s) by (unfold k; lia).
  pose proof (owned_split _ _ _ u k Ho Hu Hk) as Ho'.
  set (u2 := u <| sdu_ref_count ::= Z.add 1 |>) in *. set (h2 := store_sdu (um_heap e) s u2 <| heap_next ::= S |>) in *.
  replace (seg_size s - (hs + seg_size s - zlen buffer)) with k by (unfold k; lia).
  replace (hs + seg_size s - zlen buffer) with (seg_size s - k) by (unfold k; lia).
  rewrite bind_Ret_l. cbv iota.
  set (nxt := seg_tail s k (heap_next (um_heap e))) in *. set (hd := seg_head s k) in *.
  match goal with |- context [?x :: um_tx_list _] => change x with nxt end.
  change (s <| seg_size := k |> <| seg_is_last := false |>) with hd.
  set (e4 := upd_stats _ (e <| um_heap := h2 |>) <| um_tx_list := _ |>).
  assert (H4 : um_config e4 = um_config e /\ um_heap e4 = h2 /\ um_tx_list e4 = nxt :: um_tx_list e /\
    um_tx_next e4 = um_tx_next e /\ um_tx_size e4 = um_tx_size e /\ um_tx_maxsize e4 = um_tx_maxsize e /\
    um_avg_ok e4 /\ um_tx_end e4 = um_tx_end e) by by split_and!.
  clearbody e4. set (e3 := add_bs_tx _ _).
  destruct (seg_split_ok u2 s k (heap_next (um_heap e))) as [Hok1 Hok2]; [by apply (seg_ok_data u)|done|].
  assert (H3 : um_config e3 = um_config e /\ um_heap e3 = h2 /\ um_tx_list e3 = nxt :: um_tx_list e /\
    um_tx_next e3 = um_tx_next e /\ um_tx_size e3 = um_tx_size e /\ um_tx_maxsize e3 = um_tx_maxsize e /\
    um_avg_ok e3 /\ um_tx_end e3 = option_map seg_addr (last (nxt :: um_tx_list e))).
  { destruct H4 as (? & ? & ? & ? & ? & ? & ? & He4). rewrite Hend in He4. unfold e3. rewrite last_cons.
    destruct (last (um_tx_list e)) as [z|] eqn:Hz; cbn in He4; rewrite He4; cbn; by split_and!. }
  clear H4. clearbody e3. destruct H3 as (C3 & E1 & E2 & E3 & E4 & E5 & E6 & E7).
  apply (ready_sent tx e3 d q so hd u2); [done| |].
  2: { rewrite <- (um_header_len_seg tx hd). change (compute_pdu_header_size tx hd) with hs. simpl. unfold k. lia. }
  constructor; rewrite ?E1, ?E2; try congruence; try done.
  - unfold deref. simpl. by rewrite lookup_insert_eq.
  - simpl seg_size. rewrite (proj2 (Z.eqb_neq _ _)) by lia. split.
    + exists u2. split; [unfold deref; simpl; by rewrite lookup_insert_eq|]. split; [done|]. split; [done|].
      simpl. split; [by rewrite Hso|lia].
    + assert (Hkd : keeps_data (um_tx_list e) (um_heap e) h2) by (by apply (keeps_data_store _ _ _ u u2)).
      apply (segs_keep _ _ _ _ _ Hkd) in Hrest. clear -Hrest.
      destruct (um_tx_list e), q; try done. destruct Hrest. by constructor.
Qed.

Lemma generate_next tx d q so buffer time_now :
  um_tx_sync tx (d :: q) so -> 5 <= zlen buffer ->
  returns (nr_rlc_entity_um_generate_pdu tx buffer time_now) (fun '(n, tx', buffer') =>
    0 < n /\ exists k, um_next tx tx' d q so k (take (Z.to_nat n) buffer')).
Proof.
  intros Htx Hg. pose proof Htx as [Hc Hnx Ho Hend Hsegs Hsz Hav Hsdu].
  unfold nr_rlc_entity_um_generate_pdu, generate_tx_pdu. destruct (um_tx_list tx) as [|s rest] eqn:El; [done|].
  destruct Hsegs as [(u & Hu & Hd & Hok & Hso & Hlast) Hrest].
  pose proof (cut_header tx s) as Hhs. rewrite (proj2 (Z.ltb_ge _ _)) by lia. cbv zeta.
  set (e1 := match rest with [] => _ | _ => _ end).
  assert (H1 : um_config e1 = um_config tx /\ um_heap e1 = um_heap tx /\ um_tx_list e1 = rest /\
    um_tx_next e1 = um_tx_next tx /\ um_tx_size e1 = um_tx_size tx /\ um_tx_maxsize e1 = um_tx_maxsize tx /\
    um_common e1 = um_common tx /\ um_tx_end e1 = option_map seg_addr (last rest)).
  { split_and!; unfold e1; by destruct rest. }
  clearbody e1. destruct H1 as (C & Eh & E1l & En & E1s & Em & Ec & Ee).
  rewrite Eh, Hu, bind_Ret_l. set (u1 := u <| sdu_sn := um_tx_next e1 |>).
  set (h1 := store_sdu (um_heap tx) s u1). set (e2 := add_bs_tx _ _).
  assert (Hu1 : deref h1 s = Ret u1) by (unfold deref, h1, store_sdu; simpl; by rewrite lookup_insert_eq).
  assert (Ho1 : owned h1 (s :: rest)) by (by eapply owned_store).
  assert (Hk1 : keeps_data (s :: rest) (um_heap tx) h1) by (by eapply keeps_data_store).
  assert (Hrest1 : Forall2 (um_holds h1 0) rest q).
  { assert (Hs : um_segs (um_heap tx) (s :: rest) (d :: q) so) by (split; [by exists u|done]).
    apply (segs_keep _ _ _ _ _ Hk1) in Hs. apply Hs. }
  assert (Hav2 : um_avg_ok e2) by (destruct Hav as [qa Hqa]; exists qa; simpl; by rewrite Ec).
  assert (Hready : um_ready tx e2 d q so s u1).
  { constructor; try done; change (um_tx_list e2) with (um_tx_list e1); rewrite E1l; try done.
    rewrite Hlast, Z.eqb_refl. by apply whole_segs. }
  assert (Hh2 : um_heap e2 = h1) by done. clearbody e2.
  destruct (Z.ltb_spec (zlen buffer) (compute_pdu_header_size tx s + seg_size s)) as [Hsplit|Hfit].
  - by apply (ready_split tx e2 d q so s u1).
  - apply (ready_sent tx e2 d q so s u1); [done|done|by rewrite <- um_header_len_seg].
Qed.

(** ** A new SDU *)

(** the queue with one more segment behind the others *)
Lemma um_tx_sync_snoc e e3 q so h' s buffer :
  um_tx_sync e q so -> 0 < zlen buffer <= NR_SDU_MAX ->
  keeps_data (um_tx_list e) (um_heap e) h' -> um_holds h' 0 s buffer ->
  um_config e3 = um_config e -> um_tx_next e3 = um_tx_next e ->
  um_tx_list e3 = um_tx_list e ++ [s] -> um_tx_end e3 = Some (seg_addr s) ->
  um_tx_size e3 = zlen buffer + um_tx_size e -> um_avg_ok e3 -> owned (um_heap e3) (um_tx_list e ++ [s]) ->
  keeps_data (um_tx_list e ++ [s]) h' (um_heap e3) -> um_tx_sync e3 (q ++ [buffer]) so.
Proof.
  intros [Hc Hnx Ho Hend Hsegs Hsz Hav Hsdu] Hb Hkd Hs F1 F2 F3 F4 F5 F6 F7 F8.
  injection F1 as G1 G2 G3 G4. constructor; rewrite ?F3; try done.
  - apply (um_config_ok_eq e); [unfold um_config; congruence|done].
  - by rewrite F2, G2.
  - by rewrite F4, last_snoc.
  - apply (segs_keep _ _ _ _ _ F8). apply (segs_keep _ _ _ _ _ Hkd) in Hsegs.
    destruct (um_tx_list e) as [|t l], q as [|d q]; try done; simpl in *; [by subst|].
    destruct Hsegs as [? ?]. split; [done|]. apply Forall2_app; [done|by constructor].
  - rewrite F5, Hsz, sumZ_app. simpl. lia.
  - apply Forall_app. split; [done|]. by constructor.
Qed.

Lemma um_recv_sdu_ok e q so buffer id time_now :
  um_tx_sync e q so -> 0 < zlen buffer <= NR_SDU_MAX -> um_tx_size e + zlen buffer <= um_tx_maxsize e ->
  returns (nr_rlc_entity_um_recv_sdu e buffer id time_now) (fun e' =>
    um_tx_sync e' (q ++ [buffer]) so /\ um_config e' = um_config e /\ um_tx_next e' = um_tx_next e /\
    um_tx_maxsize e' = um_tx_maxsize e).
Proof.
  intros Hsync Hb Hroom. pose proof Hsync as [Hc Hnx Ho Hend Hsegs Hsz Hav Hsdu]. unfold nr_rlc_entity_um_recv_sdu. cbv zeta.
  rewrite (proj2 (Z.ltb_ge _ _)) by lia. set (e1 := if _ && _ then _ else _).
  assert (H1 : um_config e1 = um_config e /\ um_heap e1 = um_heap e /\ um_tx_list e1 = um_tx_list e /\
    um_tx_end e1 = um_tx_end e /\ um_tx_size e1 = um_tx_size e /\ um_tx_maxsize e1 = um_tx_maxsize e /\
    um_tx_next e1 = um_tx_next e /\ txsdu_avg_time_to_tx (um_common e1) = txsdu_avg_time_to_tx (um_common e))
    by (unfold e1; destruct (_ && _); by split_and!).
  clearbody e1. destruct H1 as (C1 & H1 & H2 & H3 & H4 & H5 & H6 & H7).
  rewrite H4, H5, (proj2 (Z.ltb_ge _ _)) by done.
  pose proof (owned_new (um_heap e) (um_tx_list e) buffer id Ho ltac:(lia)) as Hnew. simpl um_heap. rewrite H1.
  destruct (nr_rlc_new_sdu (um_heap e) buffer id) as [s h'] eqn:En. destruct Hnew as (Ho' & Haddr & Hss).
  simpl um_tx_list. simpl um_tx_end. rewrite H2, H3.
  assert (Hle : list_end_ok (um_tx_list e) (um_tx_end e) (heap_next (um_heap e)))
    by (constructor; [done|apply Ho|apply Ho]).
  destruct (list_append_ok _ _ _ s Hle ltac:(lia)) as [-> Hle']. rewrite bind_Ret_l. cbv beta zeta.
  assert (Hkd : keeps_data (um_tx_list e) (um_heap e) h').
  { injection En as <- <-. intros t u Ht Hu. exists u. split; [|done]. unfold deref in *. simpl.
    rewrite lookup_insert_ne; [done|]. intros Et. destruct (heap_sdus (um_heap e) !! seg_sdu t) eqn:E; [|done].
    pose proof (ho_fresh _ _ (own_heap _ _ Ho) _ _ E). lia. }
  assert (Hs : um_holds h' 0 s buffer).
  { injection En as <- <-. eexists. split; [unfold deref; simpl; by rewrite lookup_insert_eq|].
    split; [done|]. split; [constructor; simpl; try done; try lia; by rewrite Z.add_0_l, Z.eqb_refl|done]. }
  set (e2 := add_bs_tx _ _).
  assert (Hperm : owned h' (um_tx_list e ++ [s])) by (rewrite <- Permutation_cons_append; exact Ho').
  assert (Hav2 : um_avg_ok e2). { destruct Hav as [qa Hqa]. exists qa. simpl. by rewrite H7. }
  destruct (avg_time_is_on _).
  - destruct (owned_deref _ _ s Ho' ltac:(left)) as (u & Hu & _). change (um_heap e2) with h'. rewrite Hu, bind_Ret_l.
    apply returns_Ret. split_and!; try done. apply (um_tx_sync_snoc e _ q so h' s buffer); try done.
    + simpl. lia.
    + by eapply owned_store.
    + by eapply keeps_data_store.
  - apply returns_Ret. split_and!; try done. apply (um_tx_sync_snoc e _ q so h' s buffer); try done; [simpl; lia|].
    intros t u _ Hu. by exists u.
Qed.
