(* ===== verification/RlcUmLink.v ===== *)
(** An unacknowledged-mode sender and receiver joined by a link that loses and
    reorders nothing: with any sequence of SDUs and grants of five bytes or more
    every SDU comes out once, whole and in order, and after as many grants as
    there are bytes nothing is left. *)

From stdpp Require Import base tactics list numbers gmap.
From Stdlib Require Import ZArith Lia Sorted.
From S2P Require Import Prelude RlcPdu RlcSdu TimeStat RlcEntity RlcRxList RlcUm RlcUmSpec RlcUmLinkRx RlcUmLinkTx.

(** ** The link *)

(** a grant of [size] bytes: what the sender puts in it goes to the receiver *)
Definition um_tti (tx rx : nr_rlc_entity_um_t) (size now : Z) : outcome (nr_rlc_entity_um_t * nr_rlc_entity_um_t) :=
  '(n, tx, buffer) ← nr_rlc_entity_um_generate_pdu tx (replicate (Z.to_nat size) 0) now;
  if 0 <? n then rx ← nr_rlc_entity_um_recv_pdu rx (take (Z.to_nat n) buffer); Ret (tx, rx)
  else Ret (tx, rx).

Inductive um_op :=
| UmSdu (buffer : list Z) (id now : Z)
| UmGrant (size now : Z).

Fixpoint um_run (tx rx : nr_rlc_entity_um_t) (ops : list um_op) : outcome (nr_rlc_entity_um_t * nr_rlc_entity_um_t) :=
  match ops with
  | [] => Ret (tx, rx)
  | UmSdu buffer id now :: ops => tx ← nr_rlc_entity_um_recv_sdu tx buffer id now; um_run tx rx ops
  | UmGrant size now :: ops => '(tx, rx) ← um_tti tx rx size now; um_run tx rx ops
  end.

(** both ends in step: [q] is queued, [so] bytes of its head have arrived *)
Record um_link (tx rx : nr_rlc_entity_um_t) (q : list (list Z)) (so : Z) : Prop := {
  li_tx : um_tx_sync tx q so;
  li_rx : match q with
          | d :: _ => um_rx_sync rx (um_tx_next tx) d so
          | [] => forall d, um_rx_sync rx (um_tx_next tx) d 0
          end;
  li_len : um_sn_field_length rx = um_sn_field_length tx;
  li_room : Forall (fun d => zlen d <= um_rx_maxsize rx) q
}.

Definition same_room (tx rx tx' rx' : nr_rlc_entity_um_t) : Prop :=
  um_tx_maxsize tx' = um_tx_maxsize tx /\ um_rx_maxsize rx' = um_rx_maxsize rx.

Definition bytes_left (q : list (list Z)) (so : Z) : Z := sumZ zlen q - so.

(** ** One grant *)

(** what the receiver makes of the next bytes of the queue *)
Lemma recv_next tx tx' rx d q so k pdu :
  um_link tx rx (d :: q) so -> um_next tx tx' d q so k pdu ->
  returns (nr_rlc_entity_um_recv_pdu rx pdu) (fun rx' =>
    um_config rx' = um_config rx /\
    if so + k =? zlen d
    then (forall d', um_rx_sync rx' (um_tx_next tx') d' 0) /\ um_events rx' = um_events rx ++ [DeliverSdu d]
    else um_rx_sync rx' (um_tx_next tx') d (so + k) /\ um_events rx' = um_events rx).
Proof.
  intros [Htx Hrx Hlen Hroom] [[Hk Hend] (u & s & (hdr & Hpdu & Hhl & Hbits) & Hd & Hsn & Hok & Hso & Hsz) _ Hnx _ _].
  pose proof (Forall_inv (tq_sdu _ _ _ Htx)) as Hmax. pose proof (Forall_inv Hroom) as Hrm. simpl in Hmax, Hrm.
  pose proof (rs_config _ _ _ _ Hrx) as Hc. pose proof (uc_len _ Hc) as Hl. pose proof (so_nonneg _ _ _ _ Hrx) as Hs0.
  pose proof Hok as [_ _ _ Hf Hla]. rewrite <- Hlen in Hhl, Hbits. rewrite Hd, Hso, Hsz in Hla. rewrite Hso in Hf.
  assert (HM : um_sn_modulus rx = um_sn_modulus tx).
  { by rewrite (uc_modulus _ Hc), Hlen, <- (uc_modulus _ (tq_config _ _ _ Htx)). }
  pose proof (zlen_seg_bytes u s Hok) as Hby.
  rewrite (um_recv_header rx pdu (bits_of_bytes (seg_bytes u s)) (seg_is_first s) (seg_is_last s) (sdu_sn u) (seg_so s));
    [|done| | |by rewrite Hpdu, bits_of_bytes_app, Hbits].
  2: { rewrite <- (uc_modulus _ Hc), Hsn. apply (rs_x _ _ _ _ Hrx). }
  2: { rewrite Hf, Hso. unfold NR_SDU_MAX in Hmax. destruct (Z.eqb_spec so 0); lia. }
  cbv zeta. rewrite Hf, Hla, Hsn, Hso. rewrite Hf, Hla in Hhl. set (rx1 := um_count_pdu rx (zlen pdu)).
  assert (Hrx1 : um_rx_sync rx1 (um_tx_next tx) d so) by (by eapply sync_eq; [..|exact Hrx]).
  destruct ((so =? 0) && (so + k =? zlen d)) eqn:Ew.
  - bool_prop. assert (Hkd : k = zlen d) by lia. unfold um_header_len in Hhl.
    rewrite (proj2 (Z.eqb_eq so 0)), (proj2 (Z.eqb_eq (so + k) (zlen d))) in Hhl by lia. simpl in Hhl.
    rewrite (proj2 (Z.eqb_eq (so + k) (zlen d))) by lia.
    rewrite Hpdu, zlen_app, (proj2 (Z.ltb_ge _ _)) by lia. rewrite mem_read_suffix by lia. rewrite bind_Ret_l.
    apply returns_Ret. split; [done|]. rewrite (whole_bytes u s), Hd by (done || by rewrite Hf, Hla; apply andb_true_iff; split; apply Z.eqb_eq; lia).
    split; [|done]. rewrite Hnx, (proj2 (Z.eqb_eq so 0)) by done. simpl. intros d'.
    replace so with 0 in Hrx1 by lia. eapply sync_eq; [..|apply (sync_0_any _ _ _ d' Hrx1)]; done.
  - rewrite <- Hhl, Hpdu. eapply returns_mono; [apply (recv_segment_ok rx1 (um_tx_next tx) d so hdr (seg_bytes u s) k); try done; try lia|].
    + unfold seg_bytes. by rewrite Hd, Hso, Hsz.
    + intros rx' [Hcf H]. split; [done|]. destruct (so + k =? zlen d) eqn:El; [|by rewrite Hnx, andb_false_r].
      rewrite Hnx. rewrite andb_true_r in Ew. rewrite Ew. simpl. by rewrite <- HM.
Qed.

Lemma tti_ok tx rx d q so size now :
  um_link tx rx (d :: q) so -> 5 <= size ->
  returns (um_tti tx rx size now) (fun '(tx', rx') =>
    same_room tx rx tx' rx' /\
    ((um_link tx' rx' q 0 /\ um_events rx' = um_events rx ++ [DeliverSdu d]) \/
     exists k, 0 < k < zlen d - so /\ um_link tx' rx' (d :: q) (so + k) /\ um_events rx' = um_events rx)).
Proof.
  intros Hli Hg. unfold um_tti. pose proof Hli as [Htx Hrx Hlen Hroom].
  eapply returns_seq; [apply generate_next; [exact Htx|unfold zlen; rewrite length_replicate; lia]|].
  intros [[n tx'] buffer] (Hn & k & Hnext). rewrite (proj2 (Z.ltb_lt _ _)) by done.
  eapply returns_seq; [by eapply recv_next|]. intros rx' [Hc H]. apply returns_Ret.
  destruct Hnext as [[Hk Hend] _ Hsy _ Hcf Hm]. injection Hc as C1 C2 C3 C4. injection Hcf as D1 D2 D3 D4.
  split; [done|]. destruct (Z.eqb_spec (so + k) (zlen d)).
  - left. destruct H as [H1 H2]. split; [|done]. constructor; [done| |congruence|].
    + destruct q; auto.
    + rewrite C4. by inversion Hroom.
  - right. exists k. destruct H as [H1 H2]. split; [lia|]. split; [|done]. constructor; [done|done|congruence|by rewrite C4].
Qed.

Lemma tti_idle tx rx size now : um_link tx rx [] 0 -> um_tti tx rx size now = Ret (tx, rx).
Proof.
  intros [Htx _ _ _]. pose proof (tq_segs _ _ _ Htx) as Hs. unfold um_tti, nr_rlc_entity_um_generate_pdu, generate_tx_pdu.
  unfold um_segs in Hs. by destruct (um_tx_list tx).
Qed.

(** ** Runs *)

Definition grants_of (l : list (Z * Z)) : list um_op := map (fun '(size, now) => UmGrant size now) l.

Definition arrivals (ops : list um_op) : list (list Z) :=
  omap (fun op => match op with UmSdu buffer _ _ => Some buffer | UmGrant _ _ => None end) ops.

(** SDUs of a size the entities take, grants of at least five bytes *)
Definition um_op_ok (max : Z) (op : um_op) : Prop :=
  match op with
  | UmSdu buffer _ _ => 0 < zlen buffer <= NR_SDU_MAX /\ zlen buffer <= max
  | UmGrant size _ => 5 <= size
  end.

(** the head of the queue is not sent completely *)
Lemma head_left tx rx d q so : um_link tx rx (d :: q) so -> 0 <= so < zlen d.
Proof.
  intros [Htx _ _ _]. pose proof (tq_segs _ _ _ Htx) as Hs. unfold um_segs in Hs.
  destruct (um_tx_list tx) as [|s l]; [done|]. destruct Hs as [(u & _ & <- & [] & <- & ?) _]. lia.
Qed.

Lemma link_empty tx rx so : um_link tx rx [] so -> so = 0.
Proof. intros [Htx _ _ _]. pose proof (tq_segs _ _ _ Htx) as Hs. unfold um_segs in Hs. by destruct (um_tx_list tx). Qed.

Lemma sum_zlen_nonneg (q : list (list Z)) : 0 <= sumZ zlen q.
Proof. apply sumZ_nonneg, list.Forall_forall. intros. apply zlen_nonneg. Qed.

Lemma same_room_trans tx1 rx1 tx2 rx2 tx3 rx3 :
  same_room tx1 rx1 tx2 rx2 -> same_room tx2 rx2 tx3 rx3 -> same_room tx1 rx1 tx3 rx3.
Proof. intros [? ?] [? ?]. split; congruence. Qed.

(** enough grants empty the queue *)
Lemma grants_deliver gs : forall tx rx q so,
  um_link tx rx q so -> Forall (fun g => 5 <= g.1) gs -> bytes_left q so <= zlen gs ->
  returns (um_run tx rx (grants_of gs)) (fun '(tx', rx') =>
    um_link tx' rx' [] 0 /\ um_events rx' = um_events rx ++ map DeliverSdu q /\ same_room tx rx tx' rx').
Proof.
  unfold bytes_left. induction gs as [|[size now] gs IH]; intros tx rx q so Hli Hg Hb; cbn [grants_of map um_run].
  - apply returns_Ret. rewrite zlen_nil in Hb. destruct q as [|d q].
    + rewrite (link_empty _ _ _ Hli) in Hli. split; [done|]. by rewrite app_nil_r.
    + pose proof (head_left _ _ _ _ _ Hli). pose proof (sum_zlen_nonneg q). simpl in Hb. lia.
  - inversion Hg as [|? ? Hsize Hg']; subst. simpl in Hsize. rewrite zlen_cons in Hb. destruct q as [|d q].
    + pose proof (link_empty _ _ _ Hli) as ->. rewrite tti_idle by done. rewrite bind_Ret_l.
      apply (IH _ _ [] 0); [done|done|]. simpl. pose proof (zlen_nonneg gs). lia.
    + pose proof (head_left _ _ _ _ _ Hli) as Hh. simpl in Hb.
      eapply returns_seq; [by apply (tti_ok _ _ d q so)|]. intros [tx' rx'] (Hm & [[Hli' He]|(k & Hk & Hli' & He)]).
      * eapply returns_mono; [apply (IH tx' rx' q 0); [done|done|lia]|].
        intros [tx2 rx2] (H1 & H2 & H3). split; [done|]. split; [by rewrite H2, He, <- app_assoc|by eapply same_room_trans].
      * eapply returns_mono; [apply (IH tx' rx' (d :: q) (so + k)); [done|done|simpl; lia]|].
        intros [tx2 rx2] (H1 & H2 & H3). split; [done|]. split; [by rewrite H2, He|by eapply same_room_trans].
Qed.

(** SDUs and grants in any order *)
Lemma run_in_order ops : forall tx rx q so,
  um_link tx rx q so -> Forall (um_op_ok (um_rx_maxsize rx)) ops ->
  bytes_left q so + sumZ zlen (arrivals ops) <= um_tx_maxsize tx ->
  returns (um_run tx rx ops) (fun '(tx', rx') => exists handed pend so',
    q ++ arrivals ops = handed ++ pend /\ um_events rx' = um_events rx ++ map DeliverSdu handed /\
    um_link tx' rx' pend so' /\ bytes_left pend so' <= bytes_left q so + sumZ zlen (arrivals ops) /\
    same_room tx rx tx' rx').
Proof.
  unfold bytes_left. induction ops as [|op ops IH]; intros tx rx q so Hli Hops Hroom; cbn [um_run arrivals omap].
  { apply returns_Ret. exists [], q, so. rewrite !app_nil_r. split_and!; [done|done|done|simpl; lia|done]. }
  inversion Hops as [|? ? Hop Hops']; subst. destruct op as [buffer id now|size now]; simpl in Hop.
  - destruct Hop as [Hb Hmx]. change (arrivals (UmSdu buffer id now :: ops)) with (buffer :: arrivals ops) in *.
    simpl in Hroom. pose proof (sum_zlen_nonneg (arrivals ops)). pose proof Hli as [Htx Hrx Hlen Hrm].
    eapply returns_seq; [apply (um_recv_sdu_ok tx q so); [done|done|rewrite (tq_size _ _ _ Htx); lia]|].
    intros tx' (Htx' & Hc & Hn & Hm). injection Hc as C1 C2 C3 C4.
    eapply returns_mono; [apply (IH tx' rx (q ++ [buffer]) so)|].
    + constructor; [done| |congruence|apply Forall_app; split; [done|by constructor]].
      rewrite Hn. destruct q; [|done]. simpl. rewrite (link_empty _ _ _ Hli). apply Hrx.
    + done.
    + rewrite sumZ_app, Hm. simpl. lia.
    + intros [tx2 rx2] (handed & pend & so' & H1 & H2 & H3 & H4 & H5). exists handed, pend, so'.
      split; [by rewrite <- H1, <- app_assoc|]. split_and!; [done|done| |by eapply (same_room_trans _ _ tx' rx)].
      rewrite sumZ_app in H4. simpl in *. lia.
  - change (arrivals (UmGrant size now :: ops)) with (arrivals ops) in *. destruct q as [|d q].
    + pose proof (link_empty _ _ _ Hli) as ->. rewrite tti_idle by done. rewrite bind_Ret_l. by apply IH.
    + pose proof (head_left _ _ _ _ _ Hli) as Hh. simpl in Hroom.
      eapply returns_seq; [by apply (tti_ok _ _ d q so)|].
      intros [tx' rx'] (Hroom' & Hcase). destruct Hroom' as [Hm Hrm].
      assert (Hr : same_room tx rx tx' rx') by done. destruct Hcase as [[Hli' He]|(k & Hk & Hli' & He)].
      * eapply returns_mono; [apply (IH tx' rx' q 0); [done|by rewrite Hrm|lia]|].
        intros [tx2 rx2] (handed & pend & so' & H1 & H2 & H3 & H4 & H5). exists (d :: handed), pend, so'.
        split; [simpl; by rewrite H1|]. split; [by rewrite H2, He, <- app_assoc|].
        split_and!; [done|simpl; lia|by eapply same_room_trans].
      * eapply returns_mono; [apply (IH tx' rx' (d :: q) (so + k)); [done|by rewrite Hrm|simpl; lia]|].
        intros [tx2 rx2] (handed & pend & so' & H1 & H2 & H3 & H4 & H5). exists handed, pend, so'.
        split; [done|]. split; [by rewrite H2, He|]. split_and!; [done|simpl in *; lia|by eapply same_room_trans].
Qed.

(** C29: an unacknowledged-mode bearer over a link that loses and reorders nothing
    delivers: whatever the order of SDUs and grants (of five bytes or more, so
    that every grant has room for a segment), what was handed up so far is a
    prefix of what was handed in, unchanged and in order; and once the sender has
    had a grant for each byte everything has been handed up, both buffers are
    empty and nothing is left to send. *)
Theorem um_link_delivers tx rx ops :
  um_link tx rx [] 0 -> Forall (um_op_ok (um_rx_maxsize rx)) ops ->
  sumZ zlen (arrivals ops) <= um_tx_maxsize tx ->
  returns (um_run tx rx ops) (fun '(tx1, rx1) =>
    (exists handed pend, arrivals ops = handed ++ pend /\ um_events rx1 = um_events rx ++ map DeliverSdu handed) /\
    forall gs, Forall (fun g => 5 <= g.1) gs -> sumZ zlen (arrivals ops) <= zlen gs ->
      returns (um_run tx1 rx1 (grants_of gs)) (fun '(tx2, rx2) =>
        um_events rx2 = um_events rx ++ map DeliverSdu (arrivals ops) /\
        um_tx_list tx2 = [] /\ um_tx_size tx2 = 0 /\ um_rx_size rx2 = 0)).
Proof.
  intros Hli Hops Hroom. eapply returns_mono; [apply (run_in_order ops tx rx [] 0); done|].
  intros [tx1 rx1] (handed & pend & so & H1 & H2 & H3 & H4 & _). simpl in H1. split; [by exists handed, pend|].
  intros gs Hg Hn. eapply returns_mono; [apply (grants_deliver gs tx1 rx1 pend so); [done|done|]|].
  { unfold bytes_left in *. simpl in H4. lia. }
  intros [tx2 rx2] ([Htx Hrx _ _] & He & _). split; [by rewrite He, H2, H1, map_app, app_assoc|].
  pose proof (tq_segs _ _ _ Htx) as Hs. unfold um_segs in Hs. pose proof (tq_size _ _ _ Htx).
  pose proof (rs_size _ _ _ _ (Hrx [])). destruct (um_tx_list tx2); [|done]. split_and!; done.
Qed.

(** ** Example: two new entities with 12-bit SNs, an SDU in segments and a whole one *)

Lemma demo_um_link : um_link demo_um demo_um [] 0.
Proof.
  assert (Hc : um_config_ok demo_um) by (constructor; [by right|done|done]).
  constructor; [|intros d|done|constructor].
  - constructor; try done.
    + constructor; [|constructor|constructor]. constructor; [constructor|done|done].
    + exists []. destruct (new_repr (100 * 1000) 1024 ltac:(lia) eq_refl) as (t & [= <-] & H & _). exact H.
  - constructor; try done; constructor.
Qed.

Definition demo_um_ops : list um_op :=
  [UmSdu [1; 2; 3; 4; 5; 6; 7; 8] 1 0; UmGrant 6 0; UmSdu [9; 10] 2 0; UmGrant 7 0].

Lemma um_link_delivers_witness :
  returns (um_run demo_um demo_um demo_um_ops) (fun '(tx1, rx1) =>
    returns (um_run tx1 rx1 (grants_of (replicate 10 (5, 0)))) (fun '(tx2, rx2) =>
      um_events rx2 = [DeliverSdu [1; 2; 3; 4; 5; 6; 7; 8]; DeliverSdu [9; 10]] /\ um_tx_list tx2 = [])).
Proof.
  eapply returns_mono; [apply um_link_delivers|].
  - exact demo_um_link.
  - repeat constructor; vm_compute; congruence.
  - vm_compute. congruence.
  - intros [tx1 rx1] [_ H]. specialize (H (replicate 10 (5, 0)) ltac:(repeat constructor; vm_compute; congruence)
      ltac:(vm_compute; congruence)). eapply returns_mono; [exact H|]. intros [tx2 rx2] (H1 & H2 & _). by split.
Defined.

(** The clock of an unacknowledged-mode entity: sending leaves the reassembly timer
    alone, receiving starts it at the current time or not at all, so that giving
    the entity the same time again changes nothing. *)

(** ** Sending *)

(** what sending does not touch *)
Definition um_rx_frame (e : nr_rlc_entity_um_t) :=
  (um_t_reassembly e, um_t_current e, um_t_reassembly_start e, um_events e).

Lemma recv_sdu_frame e b i t e' : nr_rlc_entity_um_recv_sdu e b i t = Ret e' -> um_rx_frame e' = um_rx_frame e.
Proof.
  unfold nr_rlc_entity_um_recv_sdu. intros H. destruct (NR_SDU_MAX <? zlen b); [done|]. cbv zeta in H.
  set (e1 := if negb _ && _ then _ else _) in H.
  assert (E : um_rx_frame e1 = um_rx_frame e) by (subst e1; by destruct (negb _ && _)). clearbody e1. rewrite <- E.
  destruct (um_tx_maxsize e1 <? _); [by injection H as <-|]. destruct (nr_rlc_new_sdu _ _ _) as [sdu h].
  inv_bind H. destruct v as [l en]. destruct (avg_time_is_on _); [inv_bind H|]; by injection H as <-.
Qed.

Lemma account_events c now t c' : account_waiting_time c now t = Ret c' -> events c' = events c.
Proof. unfold account_waiting_time. intros H. destruct (avg_time_is_on c); [inv_bind H|]; by injection H as <-. Qed.

Lemma send_segment_frame e s b t n e' b' : send_segment e s b t = Ret (n, e', b') -> um_rx_frame e' = um_rx_frame e.
Proof.
  unfold send_segment. intros H. cbv zeta in H. set (e1 := if _ && _ then _ else _) in H.
  assert (E : um_rx_frame e1 = um_rx_frame e) by (subst e1; by destruct (negb _ && _)). clearbody e1. rewrite <- E.
  inv_bind H. destruct v as [r b1]. inv_bind H. inv_bind H. inv_bind H. destruct v1 as [f h]. injection H as _ <- _.
  apply account_events in Hv1. unfold um_rx_frame, um_events in *. simpl in *. by rewrite Hv1.
Qed.

Lemma resegment_frame s e n s' nx e' : resegment s e n = Ret (s', nx, e') -> um_rx_frame e' = um_rx_frame e.
Proof.
  unfold resegment. intros H. repeat (first [case_match|inv_bind H]; try (injection H as _ _ <-; done)); try done.
Qed.

Lemma generate_frame e b t n e' b' : nr_rlc_entity_um_generate_pdu e b t = Ret (n, e', b') -> um_rx_frame e' = um_rx_frame e.
Proof.
  unfold nr_rlc_entity_um_generate_pdu, generate_tx_pdu. intros H. destruct (um_tx_list e) as [|s rest]; [by injection H as _ <- _|].
  destruct (_ <? _); [by injection H as _ <- _|]. cbv zeta in H.
  set (e1 := match rest with [] => _ | _ => _ end) in H.
  assert (E : um_rx_frame e1 = um_rx_frame e) by (subst e1; by destruct rest). clearbody e1. rewrite <- E.
  inv_bind H. set (e2 := add_bs_tx _ _) in H. assert (E2 : um_rx_frame e2 = um_rx_frame e1) by done. clearbody e2. rewrite <- E2.
  destruct (_ <? _) in H; [|by apply send_segment_frame in H]. inv_bind H. destruct v0 as [[s' [nx|]] e3].
  - apply resegment_frame in Hv0. apply send_segment_frame in H. rewrite H, <- Hv0. by destruct (um_tx_end _).
  - injection H as _ <- _. by apply resegment_frame in Hv0.
Qed.

(** ** Receiving *)

(** the timer is off, or was started now *)
Definition um_fresh (e : nr_rlc_entity_um_t) : Prop :=
  um_t_reassembly_start e = 0 \/ um_t_reassembly_start e = um_t_current e.

(** what receiving does to the clock and the timer *)
Record um_timed (e e' : nr_rlc_entity_um_t) : Prop := {
  ut_period : um_t_reassembly e' = um_t_reassembly e;
  ut_now : um_t_current e' = um_t_current e;
  ut_fresh : um_fresh e -> um_fresh e'
}.

Lemma timed_same e e' : um_t_reassembly e' = um_t_reassembly e -> um_t_current e' = um_t_current e ->
  um_t_reassembly_start e' = um_t_reassembly_start e -> um_timed e e'.
Proof. intros H1 H2 H3. constructor; [done|done|]. unfold um_fresh. by rewrite H2, H3. Qed.

Lemma timed_trans e1 e2 e3 : um_timed e1 e2 -> um_timed e2 e3 -> um_timed e1 e3.
Proof. intros [? ? ?] [? ? ?]. constructor; [congruence|congruence|auto]. Qed.

Lemma timers_timed e : um_timed e (start_t_reassembly (stop_t_reassembly e)).
Proof.
  apply (timed_trans _ (stop_t_reassembly e)).
  - constructor; unfold stop_t_reassembly, um_fresh; repeat case_match; auto.
  - constructor; unfold start_t_reassembly, um_fresh; repeat case_match; auto.
Qed.

Lemma discard_timed l : forall e, um_timed e (discard_out_of_window e l).
Proof.
  induction l as [|p l IH]; intros e; cbn [discard_out_of_window]; [by apply timed_same|].
  destruct (_ <=? _); [|by apply timed_same]. cbv zeta. eapply timed_trans; [|apply IH]. by apply timed_same.
Qed.

Lemma not_full_timed e x e' : not_full_actions e x = Ret e' -> um_timed e e'.
Proof.
  unfold not_full_actions. intros H. destruct (_ <=? _) in H; [|injection H as <-; by apply timed_same]. cbv zeta in H.
  set (e1 := discard_out_of_window _ _) in H.
  assert (T : um_timed e e1) by (eapply timed_trans; [|apply discard_timed]; by apply timed_same). clearbody e1.
  destruct (_ <=? _) in H; [|by injection H as <-]. inv_bind H. injection H as <-.
  eapply timed_trans; [exact T|by apply timed_same].
Qed.

Lemma full_timed e x e' : full_actions e x = Ret e' -> um_timed e e'.
Proof.
  unfold full_actions, reassemble_and_deliver. intros H. inv_bind H. inv_bind Hv.
  destruct v0 as [[[[l so] sdu] bad] size].
  assert (T : um_timed e v) by (destruct bad; injection Hv as <-; by apply timed_same).
  destruct (_ =? _) in H; [|by injection H as <-]. inv_bind H. injection H as <-.
  eapply timed_trans; [exact T|by apply timed_same].
Qed.

Lemma recv_segment_timed e b sn so f l k e' : recv_segment e b sn so f l k = Ret e' -> um_timed e e'.
Proof.
  unfold recv_segment. intros H. cbv zeta in H.
  repeat (destruct (_ : bool) in H; [injection H as <-; by apply timed_same|]).
  inv_bind H. unfold reception_actions in H. inv_bind H. injection H as <-. eapply timed_trans; [|apply timers_timed].
  destruct (sdu_full _ _) in Hv0; [apply full_timed in Hv0|apply not_full_timed in Hv0];
    (eapply timed_trans; [|exact Hv0]; by apply timed_same).
Qed.

Lemma get_bits_R_inv {A} d n (err : outcome A) k a : get_bits_R d n err k = Ret a -> err = Ret a \/ exists v d', k v d' = Ret a.
Proof. unfold get_bits_R. intros H. inv_bind H. destruct v as [v d']. destruct (dec_error d'); eauto. Qed.

Lemma recv_pdu_timed e b e' : nr_rlc_entity_um_recv_pdu e b = Ret e' -> um_timed e e'.
Proof.
  unfold nr_rlc_entity_um_recv_pdu. intros H. cbv zeta in H. set (e1 := upd_stats _ e) in H.
  assert (T : um_timed e e1) by (by apply timed_same). clearbody e1. eapply timed_trans; [exact T|]. clear T.
  repeat first
    [ injection H as <-; by apply timed_same
    | by eapply recv_segment_timed
    | apply get_bits_R_inv in H as [H|(? & ? & H)]
    | inv_bind H
    | destruct (_ : bool) in H ].
Qed.

(** the same time again *)
Lemma set_time_same e now :
  um_t_reassembly_start e = 0 \/ um_t_reassembly_start e = now -> 0 <= um_t_reassembly e -> 0 <= now ->
  now + um_t_reassembly e < 2 ^ 64 -> nr_rlc_entity_um_set_time e now = Ret (e <| um_t_current := now |>).
Proof.
  intros Hs Hr Hn Hb. unfold nr_rlc_entity_um_set_time, check_t_reassembly. simpl.
  destruct Hs as [->| ->]; [done|]. unfold u64. rewrite Z.mod_small, (proj2 (Z.leb_le _ _)) by lia. by rewrite orb_true_r.
Qed.
