(* ===== verification/RlcTm.v ===== *)
(** The transparent-mode RLC entity:
    src/openair2/LAYER2/nr_rlc/nr_rlc_entity_tm.c and nr_rlc_entity_tm.h. *)

From stdpp Require Import base tactics list numbers gmap.
From Stdlib Require Import ZArith Lia.
From S2P Require Import Prelude RlcPdu RlcSdu TimeStat RlcEntity.

Record nr_rlc_entity_tm_t := mk_tm {
  tm_common : nr_rlc_entity_t;
  tm_t_current : Z;
  tm_t_log_buffer_full : Z;
  tm_sdu_rejected : Z;
  tm_tx_list : list nr_rlc_sdu_segment_t;
  tm_tx_end : option nat;
  tm_tx_size : Z;
  tm_tx_maxsize : Z;
  tm_heap : sdu_heap            (** the SDUs the segments point to *)
}.
#[export] Instance tm_eta : Eta nr_rlc_entity_tm_t :=
  fun e => mk_tm (tm_common e) (tm_t_current e) (tm_t_log_buffer_full e) (tm_sdu_rejected e)
    (tm_tx_list e) (tm_tx_end e) (tm_tx_size e) (tm_tx_maxsize e) (tm_heap e).

Definition upd_stats (f : nr_rlc_statistics_t -> nr_rlc_statistics_t)
    (e : nr_rlc_entity_tm_t) : nr_rlc_entity_tm_t :=
  e <| tm_common ::= (fun c => c <| stats ::= f |>) |>.

Definition add_bs_tx (n : Z) (e : nr_rlc_entity_tm_t) : nr_rlc_entity_tm_t :=
  e <| tm_common ::= (fun c => c <| bstatus ::= (fun b => b <| bs_tx_size ::= Z.add n |>) |>) |>.

Definition nr_rlc_entity_tm_recv_pdu (entity : nr_rlc_entity_tm_t) (buffer : list Z)
    : nr_rlc_entity_tm_t :=
  let size := zlen buffer in
  let entity := upd_stats (fun s => s <| rxpdu_pkts ::= add32 1 |>
                                      <| rxpdu_bytes ::= add32 size |>) entity in
  let entity := entity <| tm_common ::= emit (DeliverSdu buffer) |> in
  upd_stats (fun s => s <| txsdu_pkts ::= add32 1 |> <| txsdu_bytes ::= add64 size |>) entity.

Definition generate_tx_pdu (entity : nr_rlc_entity_tm_t) (buffer : list Z) (time_now : Z)
    : outcome (Z * nr_rlc_entity_tm_t * list Z) :=
  let size := zlen buffer in
  match tm_tx_list entity with
  | [] => Ret (0, entity, buffer)
  | sdu :: rest =>
      if size <? seg_size sdu then Ret (0, entity, buffer)
      else
        let entity := entity <| tm_tx_list := rest |> in
        let entity := match rest with [] => entity <| tm_tx_end := None |> | _ => entity end in
        let ret := seg_size sdu in
        u ← deref (tm_heap entity) sdu;
        bytes ← mem_read (sdu_data u) 0 (seg_size sdu);
        buffer ← mem_write buffer 0 bytes;
        let entity := entity <| tm_tx_size ::= Z.add (- seg_size sdu) |> in
        let entity := upd_stats (fun s => s <| txpdu_pkts ::= add32 1 |>
                                            <| txpdu_bytes ::= add32 size |>) entity in
        c ← account_waiting_time (tm_common entity) time_now (sdu_time_of_arrival u);
        let entity := add_bs_tx (- seg_size sdu) (entity <| tm_common := c |>) in
        '(_, h) ← nr_rlc_free_sdu_segment (tm_heap entity) sdu;
        Ret (ret, entity <| tm_heap := h |>, buffer)
  end.

Definition nr_rlc_entity_tm_buffer_status (entity : nr_rlc_entity_tm_t) (maxsize : Z)
    : nr_rlc_entity_buffer_status_t :=
  mk_bstatus 0 (bs_tx_size (bstatus (tm_common entity))) 0.

Definition nr_rlc_entity_tm_generate_pdu (entity : nr_rlc_entity_tm_t) (buffer : list Z)
    (time_now : Z) : outcome (Z * nr_rlc_entity_tm_t * list Z) :=
  generate_tx_pdu entity buffer time_now.

Definition nr_rlc_entity_tm_recv_sdu (entity : nr_rlc_entity_tm_t) (buffer : list Z)
    (sdu_id time_now : Z) : outcome nr_rlc_entity_tm_t :=
  let size := zlen buffer in
  let entity := upd_stats (fun s => s <| rxsdu_pkts ::= add32 1 |>
                                      <| rxsdu_bytes ::= add64 size |>) entity in
  if NR_SDU_MAX <? size then Exit
  else
    let entity :=
      if negb (tm_sdu_rejected entity =? 0)
         && (u64 (tm_t_log_buffer_full entity + 1000) <? tm_t_current entity)
      then entity <| tm_sdu_rejected := 0 |> <| tm_t_log_buffer_full := tm_t_current entity |>
      else entity in
    if tm_tx_maxsize entity <? tm_tx_size entity + size then
      Ret (upd_stats (fun s => s <| rxsdu_dd_pkts ::= add32 1 |>
                                 <| rxsdu_dd_bytes ::= add32 size |>)
             (entity <| tm_sdu_rejected ::= Z.add 1 |>))
    else
      let entity := entity <| tm_tx_size ::= Z.add size |> in
      let '(sdu, h) := nr_rlc_new_sdu (tm_heap entity) buffer sdu_id in
      let entity := entity <| tm_heap := h |> in
      '(l, e) ← nr_rlc_sdu_segment_list_append (tm_tx_list entity) (tm_tx_end entity) sdu;
      let entity := entity <| tm_tx_list := l |> <| tm_tx_end := e |> in
      let entity := add_bs_tx (seg_size sdu) entity in
      if avg_time_is_on (tm_common entity) then
        u ← deref (tm_heap entity) sdu;
        Ret (entity <| tm_heap := store_sdu (tm_heap entity) sdu
                                    (u <| sdu_time_of_arrival := time_now |>) |>)
      else Ret entity.

Definition nr_rlc_entity_tm_set_time (entity : nr_rlc_entity_tm_t) (now : Z)
    : nr_rlc_entity_tm_t := entity <| tm_t_current := now |>.

Definition nr_rlc_entity_tm_discard_sdu (entity : nr_rlc_entity_tm_t) (sdu_id : Z)
    : nr_rlc_entity_tm_t := entity.

Definition clear_entity (entity : nr_rlc_entity_tm_t) : outcome nr_rlc_entity_tm_t :=
  let entity := entity <| tm_t_current := 0 |> <| tm_t_log_buffer_full := 0 |>
                       <| tm_sdu_rejected := 0 |> in
  h ← nr_rlc_free_sdu_segment_list (tm_heap entity) (tm_tx_list entity);
  Ret (entity <| tm_heap := h |> <| tm_tx_list := [] |> <| tm_tx_end := None |>
              <| tm_tx_size := 0 |>
              <| tm_common ::= (fun c => c <| bstatus ::= (fun b => b <| bs_tx_size := 0 |>) |>) |>).

Definition nr_rlc_entity_tm_reestablishment (entity : nr_rlc_entity_tm_t)
    : outcome nr_rlc_entity_tm_t := clear_entity entity.

Definition nr_rlc_entity_tm_delete (entity : nr_rlc_entity_tm_t) : outcome sdu_heap :=
  entity ← clear_entity entity; Ret (tm_heap entity).

Definition nr_rlc_entity_tm_available_tx_space (entity : nr_rlc_entity_tm_t) : Z :=
  tm_tx_maxsize entity - tm_tx_size entity.

Definition new_nr_rlc_entity_tm (tx_maxsize : Z) : outcome nr_rlc_entity_tm_t :=
  ta ← time_average_new (100 * 1000) 1024;
  Ret (mk_tm (mk_common [] (mk_bstatus 0 0 0) (zero_stats NR_RLC_TM) ta false)
         0 0 0 [] None 0 tx_maxsize empty_heap).

(** A transparent-mode entity is a bounded first-in first-out queue of SDUs:
    refinement of the linked list of segments and its counters by a list of
    byte strings. *)

(** segment [s] holds the whole SDU [d], and is its only reference *)
Definition tm_holds (h : sdu_heap) (s : nr_rlc_sdu_segment_t) (d : list Z) : Prop :=
  seg_size s = zlen d /\
  exists u, heap_sdus h !! seg_sdu s = Some u /\ sdu_data u = d /\
            sdu_ref_count u = 1 /\ sdu_free_count u = 0.

(** [e] represents the queue [q]: one live SDU per entry, nothing leaked, exact
    byte counts *)
Record tm_repr (e : nr_rlc_entity_tm_t) (q : list (list Z)) : Prop := mk_tm_repr {
  tm_entries : Forall2 (tm_holds (tm_heap e)) (tm_tx_list e) q;
  tm_sdus : NoDup (map seg_sdu (tm_tx_list e));
  tm_live : forall a, is_Some (heap_sdus (tm_heap e) !! a) <-> a ∈ map seg_sdu (tm_tx_list e);
  tm_bound : Forall (fun s => (seg_sdu s < heap_next (tm_heap e))%nat) (tm_tx_list e);
  tm_list_end : list_end_ok (tm_tx_list e) (tm_tx_end e) (heap_next (tm_heap e));
  tm_size : tm_tx_size e = sumZ zlen q;
  tm_occupancy : bs_tx_size (bstatus (tm_common e)) = sumZ zlen q;
  tm_avg_off : avg_time_is_on (tm_common e) = false
}.

Lemma tm_new_repr maxsize : returns (new_nr_rlc_entity_tm maxsize) (fun e => tm_repr e [] /\ tm_tx_maxsize e = maxsize).
Proof.
  unfold new_nr_rlc_entity_tm. eexists. split; [reflexivity|]. split; [|done].
  constructor; simpl; try done; try constructor.
  - by intros [x Hx].
  - intros Hx. by apply not_elem_of_nil in Hx.
  - done.
  - constructor.
  - constructor.
Qed.

Lemma Forall2_impl_in {A B} (P Q : A -> B -> Prop) l k :
  Forall2 P l k -> (forall x y, x ∈ l -> y ∈ k -> P x y -> Q x y) -> Forall2 Q l k.
Proof.
  induction 1 as [|x y l k Hxy _ IH]; intros H; constructor.
  - apply H; [left|left|done].
  - apply IH. intros. apply H; [by right|by right|done].
Qed.

(** ** An SDU from the upper layer *)

Lemma tm_holds_other h s d a u :
  seg_sdu s <> a -> tm_holds h s d ->
  tm_holds (mk_heap (<[a := u]> (heap_sdus h)) (S (S (heap_next h)))) s d.
Proof.
  intros Hne [Hs (v & Hv & H)]. split; [done|]. exists v. simpl. by rewrite lookup_insert_ne.
Qed.

Lemma tm_accept e q buffer id now :
  tm_repr e q -> zlen buffer <= NR_SDU_MAX -> tm_tx_size e + zlen buffer <= tm_tx_maxsize e ->
  returns (nr_rlc_entity_tm_recv_sdu e buffer id now) (fun e' =>
    tm_repr e' (q ++ [buffer]) /\ tm_tx_maxsize e' = tm_tx_maxsize e).
Proof.
  intros [He Hn Hl Hb Hend Hs Ho Ha] Hmax Hfit. unfold nr_rlc_entity_tm_recv_sdu.
  rewrite (proj2 (Z.ltb_ge _ _)) by done. cbv zeta.
  set (e1 := if negb _ && _ then _ else _).
  assert (Hsame : tm_tx_list e1 = tm_tx_list e /\ tm_tx_end e1 = tm_tx_end e /\ tm_heap e1 = tm_heap e /\
    tm_tx_size e1 = tm_tx_size e /\ tm_tx_maxsize e1 = tm_tx_maxsize e /\
    bs_tx_size (bstatus (tm_common e1)) = bs_tx_size (bstatus (tm_common e)) /\
    avg_time_is_on (tm_common e1) = false) by (subst e1; by destruct (negb _ && _)).
  clearbody e1. destruct Hsame as (H1 & H2 & H3 & H4 & H5 & H6 & H7).
  rewrite H4, H5, (proj2 (Z.ltb_ge _ _)) by done. unfold nr_rlc_new_sdu. simpl. rewrite H1, H2, H3.
  set (s := mk_seg _ _ _ _ _ _). set (n := heap_next (tm_heap e)) in *.
  destruct (list_append_ok (tm_tx_list e) (tm_tx_end e) n s) as [-> Hend']; [done|simpl; lia|].
  rewrite bind_Ret_l. simpl. rewrite H7. apply returns_Ret. split; [|done].
  assert (Hfresh : n ∉ map seg_sdu (tm_tx_list e)).
  { intros Hin. apply list_elem_of_fmap in Hin as (x & Hx & Hin).
    rewrite list.Forall_forall in Hb. specialize (Hb x Hin). simpl in Hb. lia. }
  constructor; simpl; rewrite ?map_app, ?sumZ_app; simpl; fold n.
  - apply Forall2_app; [|constructor; [|constructor]].
    + eapply Forall2_impl_in; [exact He|]. intros x d Hx _ Hh. apply tm_holds_other; [|done].
      intros Heq. apply Hfresh. apply list_elem_of_fmap. eauto.
    + split; [done|]. eexists. split; [apply lookup_insert_eq|]. done.
  - apply NoDup_app. split_and!; [done| |apply NoDup_singleton].
    intros a Hin. rewrite list_elem_of_singleton. by intros ->.
  - intros a. rewrite elem_of_app, list_elem_of_singleton, <- Hl, lookup_insert_is_Some.
    destruct (decide (n = a)); intuition congruence.
  - apply Forall_app. split; [|by repeat constructor; lia]. eapply Forall_weaken; [|exact Hb]. simpl. lia.
  - done.
  - lia.
  - rewrite H6. lia.
  - done.
Qed.

(** ** A PDU for the MAC *)

Lemma tm_send e d q buffer now :
  tm_repr e (d :: q) -> zlen d <= zlen buffer ->
  returns (nr_rlc_entity_tm_generate_pdu e buffer now) (fun '(n, e', buffer') =>
    n = zlen d /\ take (Z.to_nat n) buffer' = d /\ zlen buffer' = zlen buffer /\ tm_repr e' q /\
    tm_tx_maxsize e' = tm_tx_maxsize e).
Proof.
  intros [He Hn Hl Hb Hend Hs Ho Ha] Hfit. unfold nr_rlc_entity_tm_generate_pdu, generate_tx_pdu.
  destruct (tm_tx_list e) as [|s l] eqn:Etx; [inversion He|].
  inversion He as [|? ? ? ? [Hsz (u & Hu & Hd & Hrc & Hfc)] He']; subst.
  rewrite Hsz, (proj2 (Z.ltb_ge _ _)) by done. cbv zeta.
  set (e1 := match l with [] => _ | _ => _ end).
  assert (Hsame : tm_heap e1 = tm_heap e /\ tm_tx_size e1 = tm_tx_size e /\ tm_common e1 = tm_common e /\
    tm_tx_maxsize e1 = tm_tx_maxsize e /\ tm_tx_list e1 = l /\
    tm_tx_end e1 = match l with [] => None | _ => tm_tx_end e end) by (subst e1; by destruct l).
  clearbody e1. destruct Hsame as (H1 & H2 & H3 & H4 & H5 & H6).
  unfold deref. rewrite H1, Hu, bind_Ret_l. pose proof (zlen_nonneg (sdu_data u)).
  rewrite mem_read_ok by lia. rewrite drop_0, to_nat_zlen, take_ge, bind_Ret_l by done.
  rewrite mem_write_ok by lia. rewrite bind_Ret_l. unfold account_waiting_time. simpl.
  rewrite H3, Ha, bind_Ret_l. simpl. rewrite H1. unfold nr_rlc_free_sdu_segment, deref. rewrite Hu, bind_Ret_l.
  simpl. rewrite Hrc, Hfc. simpl. apply returns_Ret. simpl in Hn. apply NoDup_cons in Hn as [Hns Hnl].
  split_and!; [done| | | |done].
  - rewrite to_nat_zlen. apply take_app_length.
  - rewrite !zlen_app, zlen_drop. simpl. unfold zlen in *. simpl. lia.
  - constructor; simpl; rewrite ?H5, ?H6; try done.
    + eapply Forall2_impl_in; [exact He'|]. intros x d Hx _ [Hxs (v & Hv & Hvd)].
      split; [done|]. exists v. split; [|done]. simpl. rewrite lookup_delete_ne; [done|].
      intros Heq. apply Hns. rewrite Heq. apply list_elem_of_fmap. eauto.
    + intros a. rewrite lookup_delete_is_Some, Hl. simpl. rewrite elem_of_cons. split; [intuition congruence|].
      intros Hin. split; [|by right]. intros <-. done.
    + by inversion Hb.
    + by apply list_end_tail in Hend.
    + rewrite H2, Hs. simpl. lia.
    + rewrite Ho. simpl. lia.
Qed.

(** ** Refinement *)

Inductive tm_op := TmSdu (buffer : list Z) | TmGrant (size : nat).

(** the entity: an SDU from above, or a grant from the MAC and the PDU it yields *)
Definition tm_exec (e : nr_rlc_entity_tm_t) (op : tm_op) : outcome (nr_rlc_entity_tm_t * list (list Z)) :=
  match op with
  | TmSdu buffer => e ← nr_rlc_entity_tm_recv_sdu e buffer 0 0; Ret (e, [])
  | TmGrant size =>
      '(n, e, buffer) ← nr_rlc_entity_tm_generate_pdu e (replicate size 0) 0;
      Ret (e, [take (Z.to_nat n) buffer])
  end.

Fixpoint tm_exec_all (e : nr_rlc_entity_tm_t) (ops : list tm_op)
    : outcome (nr_rlc_entity_tm_t * list (list Z)) :=
  match ops with
  | [] => Ret (e, [])
  | op :: ops =>
      '(e, out) ← tm_exec e op;
      '(e, outs) ← tm_exec_all e ops;
      Ret (e, out ++ outs)
  end.

(** the queue: an SDU enters if it fits, a grant takes the first SDU if it is
    large enough for the whole of it *)
Definition fifo_step (maxsize : Z) (q : list (list Z)) (op : tm_op) : list (list Z) * list (list Z) :=
  match op with
  | TmSdu d => if sumZ zlen q + zlen d <=? maxsize then (q ++ [d], []) else (q, [])
  | TmGrant n =>
      match q with
      | [] => ([], [[]])
      | d :: q' => if zlen d <=? Z.of_nat n then (q', [d]) else (q, [[]])
      end
  end.

Fixpoint fifo_run (maxsize : Z) (q : list (list Z)) (ops : list tm_op) : list (list Z) * list (list Z) :=
  match ops with
  | [] => (q, [])
  | op :: ops =>
      let '(q, out) := fifo_step maxsize q op in
      let '(q, outs) := fifo_run maxsize q ops in (q, out ++ outs)
  end.

Definition op_ok (op : tm_op) : Prop :=
  match op with TmSdu d => zlen d <= NR_SDU_MAX | TmGrant _ => True end.

Lemma tm_reject e q buffer id now :
  tm_repr e q -> zlen buffer <= NR_SDU_MAX -> tm_tx_maxsize e < tm_tx_size e + zlen buffer ->
  returns (nr_rlc_entity_tm_recv_sdu e buffer id now) (fun e' =>
    tm_repr e' q /\ tm_tx_maxsize e' = tm_tx_maxsize e).
Proof.
  intros [He Hn Hl Hb Hend Hs Ho Ha] Hmax Hfull. unfold nr_rlc_entity_tm_recv_sdu.
  rewrite (proj2 (Z.ltb_ge _ _)) by done. cbv zeta.
  destruct (negb _ && _); rewrite (proj2 (Z.ltb_lt _ _)) by done; apply returns_Ret; by split.
Qed.

Lemma tm_step_refines e q op :
  tm_repr e q -> op_ok op ->
  returns (tm_exec e op) (fun '(e', out) =>
    tm_repr e' (fifo_step (tm_tx_maxsize e) q op).1 /\ out = (fifo_step (tm_tx_maxsize e) q op).2 /\
    tm_tx_maxsize e' = tm_tx_maxsize e).
Proof.
  intros Hr Hok. destruct op as [d|n]; simpl in *.
  - pose proof (tm_size _ _ Hr) as Hsz. rewrite <- Hsz.
    destruct (Z.leb_spec (tm_tx_size e + zlen d) (tm_tx_maxsize e)); eapply returns_seq.
    + by apply tm_accept.
    + intros e' [? ?]. by apply returns_Ret.
    + by apply tm_reject.
    + intros e' [? ?]. by apply returns_Ret.
  - assert (Hn : zlen (replicate n 0) = Z.of_nat n) by (unfold zlen; by rewrite length_replicate).
    destruct q as [|d q].
    { pose proof (tm_entries _ _ Hr) as He. inversion He as [Hnil|]; subst.
      unfold nr_rlc_entity_tm_generate_pdu, generate_tx_pdu. rewrite <- Hnil. by apply returns_Ret. }
    destruct (Z.leb_spec (zlen d) (Z.of_nat n)) as [Hfit|Hno].
    + eapply returns_seq; [apply (tm_send e d q); [done|lia]|].
      intros [[m e'] buf] (_ & Ht & _ & Hr' & Hm). apply returns_Ret. simpl. by rewrite Ht.
    + pose proof (tm_entries _ _ Hr) as He. inversion He as [|s ? l ? [Hsz _] _ Htx]; subst.
      unfold nr_rlc_entity_tm_generate_pdu, generate_tx_pdu. rewrite <- Htx, Hsz, Hn.
      rewrite (proj2 (Z.ltb_lt _ _)) by done. by apply returns_Ret.
Qed.

(** C7: a transparent-mode entity refines a bounded queue: for every sequence of
    SDUs and grants, the PDUs it hands to the MAC are those of the queue, whole
    and in order; SDUs that do not fit are refused, none is lost, duplicated,
    cut or leaked, and the byte counters are exact throughout. *)
Theorem tm_refines_fifo ops : forall e q,
  tm_repr e q -> Forall op_ok ops ->
  returns (tm_exec_all e ops) (fun '(e', outs) =>
    tm_repr e' (fifo_run (tm_tx_maxsize e) q ops).1 /\
    outs = (fifo_run (tm_tx_maxsize e) q ops).2).
Proof.
  induction ops as [|op ops IH]; intros e q Hr Hok; simpl; [by apply returns_Ret|].
  inversion Hok; subst. eapply returns_seq; [by apply tm_step_refines|].
  intros [e1 out] (Hr1 & -> & Hm). destruct (fifo_step _ q op) as [q1 out]. simpl in Hr1.
  eapply returns_seq; [by apply (IH e1 q1)|]. intros [e' outs] [Hr' ->]. rewrite Hm in *.
  apply returns_Ret. by destruct (fifo_run _ q1 ops).
Qed.

Definition demo_tm : nr_rlc_entity_tm_t := the (new_nr_rlc_entity_tm 4).

Lemma demo_tm_repr : tm_repr demo_tm [].
Proof.
  destruct (tm_new_repr 4) as (e & He & Hr & _). by injection He as <-.
Qed.

Lemma tm_refines_fifo_witness :
  returns (tm_exec_all demo_tm [TmSdu [1; 2]; TmSdu [3]; TmSdu [4; 5]; TmGrant 2; TmGrant 8; TmGrant 8])
    (fun '(e', outs) => tm_repr e' [] /\ outs = [[1; 2]; [3]; []]).
Proof.
  eapply returns_mono; [apply (tm_refines_fifo
    [TmSdu [1; 2]; TmSdu [3]; TmSdu [4; 5]; TmGrant 2; TmGrant 8; TmGrant 8] demo_tm [])|].
  - exact demo_tm_repr.
  - repeat constructor; vm_compute; congruence.
  - intros [e' outs] [Hr Ho]. split; [exact Hr|exact Ho].
Defined.
