(* ===== verification/PdcpSdu.v ===== *)
(** Received PDCP SDUs and their list, sorted by COUNT:
    src/openair2/LAYER2/nr_pdcp/nr_pdcp_sdu.c. *)

From stdpp Require Import base tactics list numbers.
From Stdlib Require Import ZArith Lia Sorted.
From S2P Require Import Prelude.

(** nr_pdcp_integrity_data.h *)
Record nr_pdcp_integrity_data_t := mk_integrity_data {
  mi_count : Z;
  mi_mac : list Z;
  mi_header_size : Z;
  mi_header : list Z
}.

Record nr_pdcp_sdu_t := mk_pdcp_sdu {
  psdu_count : Z;
  psdu_buffer : list Z;
  psdu_size : Z;
  psdu_msg_integrity : nr_pdcp_integrity_data_t
}.

Definition nr_pdcp_new_sdu (count : Z) (buffer : list Z)
    (msg_integrity : nr_pdcp_integrity_data_t) : nr_pdcp_sdu_t :=
  mk_pdcp_sdu count buffer (zlen buffer) msg_integrity.

Definition nr_pdcp_sdu_list_add (l : list nr_pdcp_sdu_t) (sdu : nr_pdcp_sdu_t)
    : list nr_pdcp_sdu_t :=
  insert_before (fun cur => psdu_count sdu <? psdu_count cur) sdu l.

Fixpoint nr_pdcp_sdu_in_list (l : list nr_pdcp_sdu_t) (count : Z) : bool :=
  match l with
  | [] => false
  | s :: l => if psdu_count s =? count then true else nr_pdcp_sdu_in_list l count
  end.

(** ** The list stays strictly sorted *)

Definition count_lt (a b : nr_pdcp_sdu_t) : Prop := psdu_count a < psdu_count b.

Lemma pdcp_in_list_spec l count :
  nr_pdcp_sdu_in_list l count = false <-> Forall (fun s => psdu_count s <> count) l.
Proof.
  induction l as [|s l IH]; simpl; [split; auto|].
  destruct (Z.eqb_spec (psdu_count s) count) as [He|Hne].
  - split; [done|]. inversion 1; done.
  - rewrite IH. split; [by constructor|]. by inversion 1.
Qed.

Lemma pdcp_list_add_sorted l sdu :
  nr_pdcp_sdu_in_list l (psdu_count sdu) = false ->
  StronglySorted count_lt l -> StronglySorted count_lt (nr_pdcp_sdu_list_add l sdu).
Proof.
  intros Hin. apply pdcp_in_list_spec in Hin. rewrite list.Forall_forall in Hin.
  apply insert_before_sorted; unfold count_lt.
  - intros y _. rewrite Z.ltb_lt. done.
  - intros y Hy. rewrite Z.ltb_ge. specialize (Hin y Hy). lia.
  - lia.
Qed.

Lemma pdcp_list_add_perm l sdu : nr_pdcp_sdu_list_add l sdu ≡ₚ sdu :: l.
Proof. apply insert_before_perm. Qed.
