(* ===== verification/PdcpEntity.v ===== *)
(** The PDCP entity: src/openair2/LAYER2/nr_pdcp/nr_pdcp_entity.c and .h, with
    the cipher and integrity wrappers nr_pdcp_security_nea{1,2}.c and
    nr_pdcp_integrity_nia{1,2}.c.

    The keystream generators and MAC functions under the wrappers (AES-128 of
    OpenSSL, SNOW 3G) are a parameter: the record [crypto], which the file Secu
    fills with the algorithms of src/openair3/SECU. The calls of the
    [deliver_sdu] callback are recorded in [events]. *)

From stdpp Require Import base tactics list numbers.
From Stdlib Require Import ZArith Lia.
From S2P Require Import Prelude PdcpSdu.

Definition SHORT_SN_SIZE : Z := 12.
Definition LONG_SN_SIZE : Z := 18.
Definition SHORT_PDCP_HEADER_SIZE : Z := 2.
Definition LONG_PDCP_HEADER_SIZE : Z := 3.
Definition PDCP_INTEGRITY_SIZE : Z := 4.

Inductive nr_pdcp_entity_type_t := NR_PDCP_DRB_AM | NR_PDCP_DRB_UM | NR_PDCP_SRB.
#[export] Instance pdcp_type_eq_dec : EqDecision nr_pdcp_entity_type_t.
Proof. solve_decision. Defined.

(** ** Security *)

(** the primitives: key, count, bearer, direction, message *)
Record crypto := mk_crypto {
  snow3g_encrypt : list Z -> Z -> Z -> Z -> list Z -> list Z;
  aes_ctr_encrypt : list Z -> Z -> Z -> Z -> list Z -> list Z;
  snow3g_mac : list Z -> Z -> Z -> Z -> list Z -> list Z;
  aes_cmac : list Z -> Z -> Z -> Z -> list Z -> list Z       (** 16 bytes *)
}.

(** an unsigned 32-bit value passed as [int] *)
Definition s32 (x : Z) : Z := if x <? 2 ^ 31 then x else x - 2 ^ 32.

Definition nr_pdcp_security_nea2_cipher (C : crypto) (key buffer : list Z)
    (bearer count direction : Z) : outcome (list Z) :=
  if negb ((0 <? zlen buffer) && (-1 <? bearer) && (bearer <? 32)
           && (-1 <? direction) && (direction <? 2) && (-1 <? count)) then Exit
  else Ret (aes_ctr_encrypt C key count (bearer - 1) direction buffer).

Definition nr_pdcp_security_nea1_cipher (C : crypto) (key buffer : list Z)
    (bearer count direction : Z) : outcome (list Z) :=
  Ret (snow3g_encrypt C key count (bearer - 1) direction buffer).

Definition nr_pdcp_integrity_nia2_integrity (C : crypto) (key buffer : list Z)
    (bearer count direction : Z) : outcome (list Z) :=
  if negb ((0 <? bearer) && (bearer <? 33) && (-1 <? count)) then Exit
  else Ret (take 4 (aes_cmac C key count (bearer - 1) direction buffer)).

Definition nr_pdcp_integrity_nia1_integrity (C : crypto) (key buffer : list Z)
    (bearer count direction : Z) : outcome (list Z) :=
  Ret (snow3g_mac C key count (bearer - 1) direction buffer).

Record nr_pdcp_entity_security_keys_and_algos_t := mk_keys {
  integrity_algorithm : Z;
  ciphering_algorithm : Z;
  integrity_key : list Z;
  ciphering_key : list Z
}.
#[export] Instance keys_eta : Eta nr_pdcp_entity_security_keys_and_algos_t :=
  fun k => mk_keys (integrity_algorithm k) (ciphering_algorithm k) (integrity_key k)
             (ciphering_key k).

(** the function pointer [cipher] with its [security_context]: for nea2 the
    context is a pointer to the key inside the entity, for nea1 a copy of it *)
Inductive cipher_t := CipherNea1 (key : list Z) | CipherNea2.
Inductive integrity_t := IntegrityNia1 (key : list Z) | IntegrityNia2 (key : list Z).

Record nr_pdcp_statistics_t := mk_pdcp_stats {
  txpdu_pkts : Z; txpdu_bytes : Z; txpdu_sn : Z;
  rxpdu_pkts : Z; rxpdu_bytes : Z; rxpdu_sn : Z;
  rxpdu_oo_pkts : Z; rxpdu_oo_bytes : Z; rxpdu_dd_pkts : Z; rxpdu_dd_bytes : Z;
  rxpdu_ro_count : Z; txsdu_pkts : Z; txsdu_bytes : Z;
  rxsdu_pkts : Z; rxsdu_bytes : Z; stat_mode : Z
}.
#[export] Instance pdcp_stats_eta : Eta nr_pdcp_statistics_t :=
  fun s => mk_pdcp_stats (txpdu_pkts s) (txpdu_bytes s) (txpdu_sn s) (rxpdu_pkts s)
    (rxpdu_bytes s) (rxpdu_sn s) (rxpdu_oo_pkts s) (rxpdu_oo_bytes s) (rxpdu_dd_pkts s)
    (rxpdu_dd_bytes s) (rxpdu_ro_count s) (txsdu_pkts s) (txsdu_bytes s) (rxsdu_pkts s)
    (rxsdu_bytes s) (stat_mode s).

Definition add32 (n x : Z) : Z := u32 (x + n).

(** a call of [deliver_sdu] *)
Record pdcp_event := PdcpDeliverSdu {
  ev_buf : list Z;
  ev_msg_integrity : nr_pdcp_integrity_data_t
}.

Record nr_pdcp_entity_t := mk_pdcp {
  type : nr_pdcp_entity_type_t;
  rb_id : Z;
  pdusession_id : Z;
  has_sdap_rx : bool;
  has_sdap_tx : bool;
  sn_size : Z;
  t_reordering : Z;
  discard_timer : Z;
  sn_max : Z;
  window_size : Z;
  tx_next : Z;
  rx_next : Z;
  rx_deliv : Z;
  rx_reord : Z;
  t_current : Z;
  t_reordering_start : Z;
  has_ciphering : bool;
  has_integrity : bool;
  security_keys_and_algos : nr_pdcp_entity_security_keys_and_algos_t;
  cipher : option cipher_t;
  free_security : bool;         (** the function pointer is not NULL *)
  integrity : option integrity_t;
  free_integrity : bool;
  is_gnb : bool;
  rx_list : list nr_pdcp_sdu_t;
  rx_size : Z;
  rx_maxsize : Z;
  stats : nr_pdcp_statistics_t;
  entity_suspended : bool;
  events : list pdcp_event
}.
#[export] Instance pdcp_eta : Eta nr_pdcp_entity_t :=
  fun e => mk_pdcp (type e) (rb_id e) (pdusession_id e) (has_sdap_rx e) (has_sdap_tx e)
    (sn_size e) (t_reordering e) (discard_timer e) (sn_max e) (window_size e) (tx_next e)
    (rx_next e) (rx_deliv e) (rx_reord e) (t_current e) (t_reordering_start e)
    (has_ciphering e) (has_integrity e) (security_keys_and_algos e) (cipher e)
    (free_security e) (integrity e) (free_integrity e) (is_gnb e) (rx_list e) (rx_size e)
    (rx_maxsize e) (stats e) (entity_suspended e) (events e).

Definition upd_stats (f : nr_pdcp_statistics_t -> nr_pdcp_statistics_t) (e : nr_pdcp_entity_t)
    : nr_pdcp_entity_t := e <| stats ::= f |>.

(** [entity->cipher(...)]; calling a NULL pointer is undefined *)
Definition call_cipher (C : crypto) (entity : nr_pdcp_entity_t) (buffer : list Z)
    (count direction : Z) : outcome (list Z) :=
  match cipher entity with
  | None => Undef
  | Some (CipherNea1 key) =>
      nr_pdcp_security_nea1_cipher C key buffer (rb_id entity) (s32 count) direction
  | Some CipherNea2 =>
      nr_pdcp_security_nea2_cipher C (ciphering_key (security_keys_and_algos entity)) buffer
        (rb_id entity) (s32 count) direction
  end.

Definition call_integrity (C : crypto) (entity : nr_pdcp_entity_t) (buffer : list Z)
    (count direction : Z) : outcome (list Z) :=
  match integrity entity with
  | None => Undef
  | Some (IntegrityNia1 key) =>
      nr_pdcp_integrity_nia1_integrity C key buffer (rb_id entity) (s32 count) direction
  | Some (IntegrityNia2 key) =>
      nr_pdcp_integrity_nia2_integrity C key buffer (rb_id entity) (s32 count) direction
  end.

Definition nr_max_pdcp_pdu_size (sdu_size : Z) : Z :=
  sdu_size + LONG_PDCP_HEADER_SIZE + PDCP_INTEGRITY_SIZE.

(** ** Reception *)

(** deliver the head of the list *)
Definition deliver_head (entity : nr_pdcp_entity_t) (cur : nr_pdcp_sdu_t)
    (next : list nr_pdcp_sdu_t) : nr_pdcp_entity_t :=
  let entity := entity <| events ::= (fun l => l ++ [PdcpDeliverSdu (psdu_buffer cur)
                                                       (psdu_msg_integrity cur)]) |> in
  let entity := entity <| rx_list := next |> <| rx_size ::= Z.add (- psdu_size cur) |> in
  upd_stats (fun s => s <| txsdu_pkts ::= add32 1 |>
                        <| txsdu_bytes ::= add32 (psdu_size cur) |>) entity.

(** deliver from [count] up to the first discontinuity; returns the next count *)
Fixpoint deliver_consecutive (entity : nr_pdcp_entity_t) (l : list nr_pdcp_sdu_t) (count : Z)
    : Z * nr_pdcp_entity_t :=
  match l with
  | [] => (count, entity)
  | cur :: next =>
      if count =? psdu_count cur
      then deliver_consecutive (deliver_head entity cur next) next (u32 (count + 1))
      else (count, entity)
  end.

(** SN of a received PDU and the size of its header; reads the header bytes
    before the size of the PDU is checked *)
Definition read_sn (entity : nr_pdcp_entity_t) (buffer : list Z) : outcome (Z * Z) :=
  if sn_size entity =? SHORT_SN_SIZE then
    b0 ← rd buffer 0; b1 ← rd buffer 1;
    Ret (Z.lor (Z.shiftl (Z.land b0 15) 8) b1, SHORT_PDCP_HEADER_SIZE)
  else
    b0 ← rd buffer 0; b1 ← rd buffer 1; b2 ← rd buffer 2;
    Ret (Z.lor (Z.lor (Z.shiftl (Z.land b0 3) 16) (Z.shiftl b1 8)) b2, LONG_PDCP_HEADER_SIZE).

(** COUNT of a received PDU (38.323 5.2.2.1), in [uint32_t] *)
Definition compute_rcvd_count (entity : nr_pdcp_entity_t) (rcvd_sn : Z) : Z :=
  let rx_deliv_sn := Z.land (rx_deliv entity) (sn_max entity) in
  let rx_deliv_hfn := Z.shiftr (rx_deliv entity) (sn_size entity) in
  let rcvd_hfn :=
    if rcvd_sn <? rx_deliv_sn - window_size entity then u32 (rx_deliv_hfn + 1)
    else if rx_deliv_sn + window_size entity <=? rcvd_sn then u32 (rx_deliv_hfn - 1)
    else rx_deliv_hfn in
  Z.lor (u32 (Z.shiftl rcvd_hfn (sn_size entity))) rcvd_sn.

Definition has_mac_i (entity : nr_pdcp_entity_t) : bool :=
  has_integrity entity || bool_decide (type entity = NR_PDCP_SRB).

Definition rx_drop (entity : nr_pdcp_entity_t) (size : Z) : nr_pdcp_entity_t :=
  upd_stats (fun s => s <| rxpdu_dd_pkts ::= add32 1 |> <| rxpdu_dd_bytes ::= add32 size |>) entity.

(** stop and restart t-Reordering *)
Definition update_t_reordering (entity : nr_pdcp_entity_t) : nr_pdcp_entity_t :=
  let entity :=
    if negb (t_reordering_start entity =? 0) && (rx_reord entity <=? rx_deliv entity)
    then entity <| t_reordering_start := 0 |> else entity in
  if (t_reordering_start entity =? 0) && (rx_deliv entity <? rx_next entity)
  then entity <| rx_reord := rx_next entity |> <| t_reordering_start := t_current entity |>
  else entity.

(** store an accepted SDU and deliver what became consecutive *)
Definition store_and_deliver (entity : nr_pdcp_entity_t) (sdu : nr_pdcp_sdu_t)
    (size header_size : Z) : nr_pdcp_entity_t :=
  let rcvd_count := psdu_count sdu in
  let entity := entity <| rx_list := nr_pdcp_sdu_list_add (rx_list entity) sdu |>
                       <| rx_size ::= Z.add (size - header_size) |> in
  let entity :=
    if rx_next entity <=? rcvd_count then entity <| rx_next := u32 (rcvd_count + 1) |>
    else entity in
  let entity :=
    if rcvd_count =? rx_deliv entity then
      let '(count, entity) := deliver_consecutive entity (rx_list entity) (rx_deliv entity) in
      entity <| rx_deliv := count |>
    else entity in
  update_t_reordering entity.

(** the MAC-I of a deciphered PDU is right, or integrity is not active *)
Definition check_mac (C : crypto) (entity : nr_pdcp_entity_t) (buffer : list Z)
    (rcvd_count integrity_size : Z) : outcome bool :=
  if has_integrity entity then
    msg ← mem_read buffer 0 (zlen buffer - integrity_size);
    mac ← call_integrity C entity msg rcvd_count (if is_gnb entity then 0 else 1);
    mac' ← mem_read buffer (zlen buffer - integrity_size) PDCP_INTEGRITY_SIZE;
    Ret (bool_decide (mac = mac'))
  else Ret true.

(** decipher from offset [off] to the end of the PDU *)
Definition decipher (C : crypto) (entity : nr_pdcp_entity_t) (buffer : list Z)
    (off rcvd_count : Z) : outcome (list Z) :=
  if has_ciphering entity then
    text ← mem_read buffer off (zlen buffer - off);
    text ← call_cipher C entity text rcvd_count (if is_gnb entity then 0 else 1);
    mem_write buffer off text
  else Ret buffer.

(** what some RRC procedures need of the message *)
Definition store_msg_integrity (entity : nr_pdcp_entity_t) (buffer : list Z)
    (rcvd_count header_size : Z) : outcome nr_pdcp_integrity_data_t :=
  if has_mac_i entity then
    mac ← mem_read buffer (zlen buffer - 4) 4;
    header ← mem_read buffer 0 header_size;
    Ret (mk_integrity_data rcvd_count mac header_size header)
  else Ret (mk_integrity_data 0 [0; 0; 0; 0] 0 [0; 0; 0]).

(** the D/C bit of a DRB PDU is forced to data *)
Definition force_data_bit (entity : nr_pdcp_entity_t) (buffer : list Z) : outcome (list Z) :=
  b0 ← rd buffer 0;
  if negb (bool_decide (type entity = NR_PDCP_SRB)) && (Z.land b0 128 =? 0)
  then wr buffer 0 (Z.lor b0 128) else Ret buffer.

Definition nr_pdcp_entity_recv_pdu (C : crypto) (entity : nr_pdcp_entity_t) (buffer : list Z)
    : outcome nr_pdcp_entity_t :=
  let size := zlen buffer in
  if entity_suspended entity then Ret entity
  else if size <? 1 then Ret entity
  else
    buffer ← force_data_bit entity buffer;
    let entity := upd_stats (fun s => s <| rxpdu_pkts ::= add32 1 |>
                                        <| rxpdu_bytes ::= add32 size |>) entity in
    let sdap_header_size := if has_sdap_rx entity then 1 else 0 in
    '(rcvd_sn, header_size) ← read_sn entity buffer;
    let entity := upd_stats (fun s => s <| rxpdu_sn := rcvd_sn |>) entity in
    let integrity_size := if has_mac_i entity then PDCP_INTEGRITY_SIZE else 0 in
    if size <? header_size + sdap_header_size + integrity_size + 1
    then Ret (rx_drop entity size)
    else
      let rcvd_count := compute_rcvd_count entity rcvd_sn in
      msg_integrity ← store_msg_integrity entity buffer rcvd_count header_size;
      buffer ← decipher C entity buffer (header_size + sdap_header_size) rcvd_count;
      mac_ok ← check_mac C entity buffer rcvd_count integrity_size;
      if negb (mac_ok : bool) then Ret (rx_drop entity size)
      else if (rcvd_count <? rx_deliv entity) || nr_pdcp_sdu_in_list (rx_list entity) rcvd_count
      then Ret (rx_drop entity size)
      else
        data ← mem_read buffer header_size (size - header_size - integrity_size);
        Ret (store_and_deliver entity (nr_pdcp_new_sdu rcvd_count data msg_integrity)
               size header_size).

(** ** Transmission *)

(** the header of a data PDU *)
Definition put_header (entity : nr_pdcp_entity_t) (sn : Z) : list Z :=
  let dc_bit := match type entity with NR_PDCP_SRB => 0 | _ => 128 end in
  if sn_size entity =? SHORT_SN_SIZE
  then [Z.lor dc_bit (Z.land (Z.shiftr sn 8) 15); Z.land sn 255]
  else [Z.lor dc_bit (Z.land (Z.shiftr sn 16) 3); Z.land (Z.shiftr sn 8) 255; Z.land sn 255].

(** returns the size (-1 when suspended) and the bytes put in [pdu_buffer] *)
Definition nr_pdcp_entity_process_sdu (C : crypto) (entity : nr_pdcp_entity_t) (buffer : list Z)
    (sdu_id pdu_max_size : Z) : outcome (Z * nr_pdcp_entity_t * list Z) :=
  let size := zlen buffer in
  if pdu_max_size <? nr_max_pdcp_pdu_size size then Exit
  else if entity_suspended entity then Ret (-1, entity, [])
  else
    let entity := upd_stats (fun s => s <| rxsdu_pkts ::= add32 1 |>
                                        <| rxsdu_bytes ::= add32 size |>) entity in
    let count := tx_next entity in
    let sn := Z.land (tx_next entity) (sn_max entity) in
    let sdap_header_size := if has_sdap_tx entity then 1 else 0 in
    let direction := if is_gnb entity then 1 else 0 in
    let header := put_header entity sn in
    let header_size := zlen header in
    let integrity_size := if has_mac_i entity then PDCP_INTEGRITY_SIZE else 0 in
    let buf := header ++ buffer in
    buf ←
      (if has_integrity entity then
         mac ← call_integrity C entity buf count direction;
         Ret (buf ++ mac)
       else if integrity_size =? PDCP_INTEGRITY_SIZE then Ret (buf ++ [0; 0; 0; 0])
       else Ret buf);
    buf ←
      (if has_ciphering entity then
         text ← mem_read buf (header_size + sdap_header_size)
                  (size + integrity_size - sdap_header_size);
         text ← call_cipher C entity text count direction;
         mem_write buf (header_size + sdap_header_size) text
       else Ret buf);
    let ret := header_size + size + integrity_size in
    let entity := entity <| tx_next := u32 (tx_next entity + 1) |> in
    Ret (ret, upd_stats (fun s => s <| txpdu_pkts ::= add32 1 |>
                                    <| txpdu_bytes ::= add32 ret |>
                                    <| txpdu_sn := sn |>) entity, buf).

Definition nr_pdcp_entity_check_integrity (C : crypto) (entity : nr_pdcp_entity_t)
    (buffer : list Z) (msg_integrity : nr_pdcp_integrity_data_t) : outcome bool :=
  if negb (has_integrity entity) then Ret false
  else
    header ← mem_read (mi_header msg_integrity) 0 (mi_header_size msg_integrity);
    mac ← call_integrity C entity (header ++ buffer) (mi_count msg_integrity)
            (if is_gnb entity then 0 else 1);
    Ret (bool_decide (mac = mi_mac msg_integrity)).

(** ** Configuration *)

Definition set_integrity (entity : nr_pdcp_entity_t) (alg : Z) : outcome nr_pdcp_entity_t :=
  if alg =? 0 then Ret (entity <| has_integrity := false |> <| free_integrity := false |>)
  else if alg =? -1 then Ret entity
  else
    let entity := entity <| has_integrity := true |> in
    let key := integrity_key (security_keys_and_algos entity) in
    if alg =? 2
    then Ret (entity <| integrity := Some (IntegrityNia2 key) |> <| free_integrity := true |>)
    else if alg =? 1
    then Ret (entity <| integrity := Some (IntegrityNia1 key) |> <| free_integrity := true |>)
    else Exit.

Definition set_ciphering (entity : nr_pdcp_entity_t) (alg : Z) : outcome nr_pdcp_entity_t :=
  if alg =? 0 then Ret (entity <| has_ciphering := false |> <| free_security := false |>)
  else if alg =? -1 then Ret entity
  else
    let entity := entity <| has_ciphering := true |> in
    let key := ciphering_key (security_keys_and_algos entity) in
    if alg =? 2
    then Ret (entity <| cipher := Some CipherNea2 |> <| free_security := true |>)
    else if alg =? 1
    then Ret (entity <| cipher := Some (CipherNea1 key) |> <| free_security := true |>)
    else Exit.

Definition nr_pdcp_entity_set_security (entity : nr_pdcp_entity_t)
    (parameters : nr_pdcp_entity_security_keys_and_algos_t) : outcome nr_pdcp_entity_t :=
  let entity :=
    if negb (integrity_algorithm parameters =? -1)
    then entity <| security_keys_and_algos ::= (fun k =>
                     k <| integrity_algorithm := integrity_algorithm parameters |>
                       <| integrity_key := integrity_key parameters |>) |>
    else entity in
  let entity :=
    if negb (ciphering_algorithm parameters =? -1)
    then entity <| security_keys_and_algos ::= (fun k =>
                     k <| ciphering_algorithm := ciphering_algorithm parameters |>
                       <| ciphering_key := ciphering_key parameters |>) |>
    else entity in
  entity ← set_integrity entity (integrity_algorithm parameters);
  set_ciphering entity (ciphering_algorithm parameters).

(** ** Timers *)

(** deliver all SDUs with [count < rx_reord] *)
Fixpoint deliver_below (entity : nr_pdcp_entity_t) (l : list nr_pdcp_sdu_t)
    : nr_pdcp_entity_t :=
  match l with
  | [] => entity
  | cur :: next =>
      if psdu_count cur <? rx_reord entity
      then deliver_below (deliver_head entity cur next) next
      else entity
  end.

Definition check_t_reordering (entity : nr_pdcp_entity_t) : nr_pdcp_entity_t :=
  if t_reordering entity =? -1 then entity
  else if (t_reordering_start entity =? 0)
          || (t_current entity <=? u64 (t_reordering_start entity + t_reordering entity))
  then entity
  else
    let entity := entity <| t_reordering_start := 0 |> in
    let entity := deliver_below entity (rx_list entity) in
    let '(count, entity) := deliver_consecutive entity (rx_list entity) (rx_reord entity) in
    let entity := entity <| rx_deliv := count |> in
    if rx_deliv entity <? rx_next entity
    then entity <| rx_reord := rx_next entity |> <| t_reordering_start := t_current entity |>
    else entity.

Definition nr_pdcp_entity_set_time (entity : nr_pdcp_entity_t) (now : Z) : nr_pdcp_entity_t :=
  check_t_reordering (entity <| t_current := now |>).

Fixpoint deliver_all_loop (entity : nr_pdcp_entity_t) (l : list nr_pdcp_sdu_t)
    : nr_pdcp_entity_t :=
  match l with
  | [] => entity
  | cur :: next => deliver_all_loop (deliver_head entity cur next) next
  end.

Definition deliver_all_sdus (entity : nr_pdcp_entity_t) : nr_pdcp_entity_t :=
  deliver_all_loop entity (rx_list entity).

(** ** Suspend, re-establish, release *)

(** the two halves of a suspension: the first hands SDUs up *)
Definition suspend_flush (entity : nr_pdcp_entity_t) : nr_pdcp_entity_t :=
  let entity := entity <| tx_next := 0 |> in
  if negb (t_reordering_start entity =? 0)
  then deliver_all_sdus (entity <| t_reordering_start := 0 |>) else entity.

Definition suspend_reset (entity : nr_pdcp_entity_t) : nr_pdcp_entity_t :=
  entity <| rx_next := 0 |> <| rx_deliv := 0 |> <| entity_suspended := true |>.

Definition nr_pdcp_entity_suspend (entity : nr_pdcp_entity_t) : nr_pdcp_entity_t :=
  suspend_reset (suspend_flush entity).

Fixpoint free_rx_loop (entity : nr_pdcp_entity_t) (l : list nr_pdcp_sdu_t) : nr_pdcp_entity_t :=
  match l with
  | [] => entity
  | cur :: next => free_rx_loop (rx_drop entity (psdu_size cur)) next
  end.

Definition free_rx_list (entity : nr_pdcp_entity_t) : nr_pdcp_entity_t :=
  free_rx_loop entity (rx_list entity) <| rx_list := [] |> <| rx_size := 0 |>.

Definition nr_pdcp_entity_reestablish_drb_am (entity : nr_pdcp_entity_t)
    (parameters : nr_pdcp_entity_security_keys_and_algos_t) : outcome nr_pdcp_entity_t :=
  entity ← nr_pdcp_entity_set_security entity parameters;
  Ret (entity <| entity_suspended := false |>).

Definition nr_pdcp_entity_reestablish_drb_um (entity : nr_pdcp_entity_t)
    (parameters : nr_pdcp_entity_security_keys_and_algos_t) : outcome nr_pdcp_entity_t :=
  let entity := entity <| tx_next := 0 |> in
  let entity :=
    if negb (t_reordering_start entity =? 0) then deliver_all_sdus entity else entity in
  let entity := entity <| t_reordering_start := 0 |> <| rx_next := 0 |> <| rx_deliv := 0 |> in
  entity ← nr_pdcp_entity_set_security entity parameters;
  Ret (entity <| entity_suspended := false |>).

Definition nr_pdcp_entity_reestablish_srb (entity : nr_pdcp_entity_t)
    (parameters : nr_pdcp_entity_security_keys_and_algos_t) : outcome nr_pdcp_entity_t :=
  let entity := free_rx_list (entity <| tx_next := 0 |>) in
  let entity := entity <| t_reordering_start := 0 |> <| rx_next := 0 |> <| rx_deliv := 0 |> in
  entity ← nr_pdcp_entity_set_security entity parameters;
  Ret (entity <| entity_suspended := false |>).

(** the [reestablish_entity] pointer, set by the type of the entity *)
Definition reestablish_entity (entity : nr_pdcp_entity_t)
    (parameters : nr_pdcp_entity_security_keys_and_algos_t) : outcome nr_pdcp_entity_t :=
  match type entity with
  | NR_PDCP_DRB_AM => nr_pdcp_entity_reestablish_drb_am entity parameters
  | NR_PDCP_DRB_UM => nr_pdcp_entity_reestablish_drb_um entity parameters
  | NR_PDCP_SRB => nr_pdcp_entity_reestablish_srb entity parameters
  end.

Definition nr_pdcp_entity_release (entity : nr_pdcp_entity_t) : nr_pdcp_entity_t :=
  deliver_all_sdus entity.

Definition nr_pdcp_entity_get_stats (entity : nr_pdcp_entity_t) : nr_pdcp_statistics_t :=
  stats entity.

Definition new_nr_pdcp_entity (type : nr_pdcp_entity_type_t) (is_gnb : bool)
    (rb_id pdusession_id : Z) (has_sdap_rx has_sdap_tx : bool)
    (sn_size t_reordering discard_timer : Z)
    (parameters : nr_pdcp_entity_security_keys_and_algos_t) : outcome nr_pdcp_entity_t :=
  nr_pdcp_entity_set_security
    (mk_pdcp type rb_id pdusession_id has_sdap_rx has_sdap_tx sn_size t_reordering discard_timer
       (Z.shiftl 1 sn_size - 1) (Z.shiftl 1 (sn_size - 1)) 0 0 0 0 0 0 false false
       (mk_keys 0 0 (replicate 16 0) (replicate 16 0)) None false None false is_gnb
       [] 0 0 (mk_pdcp_stats 0 0 0 0 0 0 0 0 0 0 0 0 0 0 0 0) false [])
    parameters.
