(* ===== verification/PdcpRx.v ===== *)
(** Reception side of the PDCP entity: reconstruction of COUNT, order of
    delivery and the reordering buffer. *)

From stdpp Require Import base tactics list numbers relations.
From Stdlib Require Import ZArith Lia Sorted.
From S2P Require Import Prelude PdcpSdu PdcpEntity.

(** ** Well-formed entities *)

Definition pdcp_config_ok (e : nr_pdcp_entity_t) : Prop :=
  (sn_size e = SHORT_SN_SIZE \/ sn_size e = LONG_SN_SIZE) /\
  sn_max e = 2 ^ sn_size e - 1 /\ window_size e = 2 ^ (sn_size e - 1).

(** state variables of 38.323 7.1 and the reordering buffer: what is stored is
    sorted by COUNT without duplicates and lies in [rx_deliv, rx_next), with
    [rx_deliv] itself still missing; while something is missing t-Reordering
    runs *)
Record pdcp_rx_inv (e : nr_pdcp_entity_t) : Prop := mk_pdcp_rx_inv {
  inv_rx_deliv : 0 <= rx_deliv e <= rx_next e;
  inv_rx_next : rx_next e < 2 ^ 32;
  inv_rx_sorted : StronglySorted count_lt (rx_list e);
  inv_rx_range : Forall (fun s => rx_deliv e < psdu_count s < rx_next e) (rx_list e);
  inv_rx_reord : t_reordering_start e = 0 \/ rx_deliv e < rx_reord e <= rx_next e;
  inv_rx_timer : rx_deliv e < rx_next e -> t_reordering_start e <> 0
}.

(** ** COUNT *)

Lemma lor_shiftl_low h n s :
  0 <= n -> 0 <= s < 2 ^ n -> Z.lor (Z.shiftl h n) s = h * 2 ^ n + s.
Proof.
  intros Hn Hs. rewrite Z.shiftl_mul_pow2 by lia.
  assert (Z.land (h * 2 ^ n) s = 0) as Hl.
  { destruct (Z.eq_dec s 0) as [->|]; [apply Z.land_0_r|].
    apply Z.bits_inj'. intros i Hi. rewrite Z.land_spec, Z.bits_0.
    destruct (Z.lt_ge_cases i n) as [Hlt|Hge]; [by rewrite Z.mul_pow2_bits_low by lia|].
    rewrite (Z.bits_above_log2 s), andb_false_r; [done|lia|].
    apply Z.lt_le_trans with n; [apply Z.log2_lt_pow2|]; lia. }
  rewrite <- Z.lxor_lor by done. symmetry. by apply Z.add_nocarry_lxor.
Qed.

Lemma land_mask x n : 0 <= n -> Z.land x (2 ^ n - 1) = x mod 2 ^ n.
Proof. intros. rewrite <- Z.land_ones by lia. by rewrite Z.ones_equiv. Qed.

Section count.
Context (e : nr_pdcp_entity_t) (Hcfg : pdcp_config_ok e).

Lemma config_sn_size : 12 <= sn_size e <= 18.
Proof using Hcfg.
  destruct Hcfg as ([-> | ->] & _ & _); unfold SHORT_SN_SIZE, LONG_SN_SIZE; lia.
Qed.

Lemma config_window : 2 ^ sn_size e = 2 * window_size e /\ 0 < window_size e.
Proof using Hcfg.
  pose proof config_sn_size. destruct Hcfg as (_ & _ & ->).
  replace (sn_size e) with (1 + (sn_size e - 1)) at 1 by lia.
  rewrite Z.pow_add_r by lia. lia.
Qed.

Lemma rcvd_count_window c :
  0 <= rx_deliv e -> 0 <= c < 2 ^ 32 ->
  rx_deliv e - window_size e <= c < rx_deliv e + window_size e ->
  compute_rcvd_count e (c mod 2 ^ sn_size e) = c.
Proof using Hcfg.
  intros Hd Hc Hw. pose proof config_sn_size as Hn. destruct config_window as [HM HW].
  unfold compute_rcvd_count. destruct Hcfg as (_ & -> & _).
  rewrite land_mask, Z.shiftr_div_pow2 by lia.
  set (M := 2 ^ sn_size e) in *. set (W := window_size e) in *. set (d := rx_deliv e) in *.
  pose proof (Z.div_mod c M ltac:(lia)). pose proof (Z.mod_pos_bound c M ltac:(lia)).
  pose proof (Z.div_mod d M ltac:(lia)). pose proof (Z.mod_pos_bound d M ltac:(lia)).
  assert (0 <= c / M) by (apply Z.div_pos; lia).
  assert (c / M < 2 ^ 32).
  { apply Z.div_lt_upper_bound; [lia|]. nia. }
  match goal with |- Z.lor (u32 (Z.shiftl ?h _)) _ = _ => assert (h = c / M) as Hh end.
  { destruct (Z.ltb_spec (c mod M) (d mod M - W)) as [Hlo|Hlo].
    - assert (c / M = d / M + 1) by nia. rewrite u32_small; lia.
    - destruct (Z.leb_spec (d mod M + W) (c mod M)) as [Hhi|Hhi].
      + assert (c / M = d / M - 1) by nia. rewrite u32_small; lia.
      + nia. }
  rewrite Hh. rewrite u32_small.
  - rewrite lor_shiftl_low by (fold M; lia). fold M. lia.
  - rewrite Z.shiftl_mul_pow2 by lia. fold M. lia.
Qed.

(** the header carries COUNT modulo the SN size *)
Lemma read_sn_put_header (e' : nr_pdcp_entity_t) (sn : Z) rest :
  sn_size e' = sn_size e -> 0 <= sn < 2 ^ sn_size e ->
  read_sn e (put_header e' sn ++ rest) = Ret (sn, zlen (put_header e' sn)).
Proof using Hcfg.
  intros Hs Hsn. unfold read_sn, put_header. rewrite Hs.
  assert (forall dc m k, 0 <= k <= 7 -> m = Z.ones k -> (dc = 0 \/ dc = 128) ->
    forall x, Z.land (Z.lor dc (Z.land x m)) m = x mod 2 ^ k) as Hdc.
  { intros dc m k Hk -> Hdc x. rewrite Z.land_lor_distr_l, <- Z.land_assoc, Z.land_diag.
    rewrite !Z.land_ones by lia.
    assert (dc mod 2 ^ k = 0) as ->; [|done].
    destruct Hdc as [-> | ->]; [apply Z.mod_0_l; lia|].
    replace 128 with (2 ^ (7 - k) * 2 ^ k); [apply Z.mod_mul; lia|].
    rewrite <- Z.pow_add_r by lia. replace (7 - k + k) with 7 by lia. done. }
  assert (Hdc' : match type e' with NR_PDCP_SRB => 0 | _ => 128 end = 0 \/
                 match type e' with NR_PDCP_SRB => 0 | _ => 128 end = 128)
    by (destruct (type e'); auto).
  assert (forall x, Z.land x 255 = x mod 2 ^ 8) as H255
    by (intros; change 255 with (Z.ones 8); apply Z.land_ones; lia).
  assert (forall x, 0 <= x < 2 ^ 16 ->
    Z.lor (Z.shiftl (x / 2 ^ 8) 8) (x mod 2 ^ 8) = x) as Hcat.
  { intros x Hx. rewrite lor_shiftl_low by (try apply Z.mod_pos_bound; lia).
    rewrite Z.mul_comm. symmetry. apply Z.div_mod. lia. }
  destruct Hcfg as ([Hz | Hz] & _ & _); rewrite Hz in *; unfold SHORT_SN_SIZE, LONG_SN_SIZE in *.
  - cbn [Z.eqb Pos.eqb app]. unfold rd. simpl.
    rewrite (Hdc _ _ 4) by (done || lia). do 2 f_equal.
    rewrite H255, Z.shiftr_div_pow2 by lia.
    rewrite (Z.mod_small (sn / 2 ^ 8)); [apply Hcat; lia|].
    split; [apply Z.div_pos; lia|apply Z.div_lt_upper_bound; lia].
  - cbn [Z.eqb Pos.eqb app]. unfold rd. simpl.
    rewrite (Hdc _ _ 2) by (done || lia). do 2 f_equal.
    rewrite !H255, !Z.shiftr_div_pow2 by lia.
    rewrite (Z.mod_small (sn / 2 ^ 16));
      [|split; [apply Z.div_pos; lia|apply Z.div_lt_upper_bound; lia]].
    rewrite <- Z.lor_assoc.
    assert (sn mod 2 ^ 8 = (sn mod 2 ^ 16) mod 2 ^ 8) as ->.
    { change (2 ^ 16) with (2 ^ 8 * 2 ^ 8). rewrite Z.rem_mul_r by lia.
      rewrite Z.mul_comm, Z.mod_add by lia. by rewrite Z.mod_mod by lia. }
    assert ((sn / 2 ^ 8) mod 2 ^ 8 = (sn mod 2 ^ 16) / 2 ^ 8) as ->.
    { change (2 ^ 16) with (2 ^ 8 * 2 ^ 8). rewrite Z.rem_mul_r by lia.
      rewrite Z.add_comm, Z.mul_comm, Z.div_add_l by lia.
      rewrite (Z.div_small (sn mod 2 ^ 8)) by (apply Z.mod_pos_bound; lia). lia. }
    rewrite Hcat by (apply Z.mod_pos_bound; lia).
    rewrite lor_shiftl_low by (try apply Z.mod_pos_bound; lia).
    rewrite Z.mul_comm. symmetry. apply Z.div_mod. lia.
Qed.
End count.

(** ** Delivery *)

Definition ev_of (s : nr_pdcp_sdu_t) : pdcp_event :=
  PdcpDeliverSdu (psdu_buffer s) (psdu_msg_integrity s).

(** the entity after the SDUs [pre] have been delivered and [post] is left *)
Definition delivered (e : nr_pdcp_entity_t) (pre post : list nr_pdcp_sdu_t) (sz : Z)
    (st : nr_pdcp_statistics_t) : nr_pdcp_entity_t :=
  e <| events := events e ++ map ev_of pre |> <| rx_list := post |>
    <| rx_size := sz |> <| stats := st |>.

Lemma delivered_cons e cur next pre post sz st :
  delivered (deliver_head e cur next) pre post sz st = delivered e (cur :: pre) post sz st.
Proof.
  transitivity (e <| events := (events e ++ [ev_of cur]) ++ map ev_of pre |>
                  <| rx_list := post |> <| rx_size := sz |> <| stats := st |>); [reflexivity|].
  rewrite <- app_assoc. reflexivity.
Qed.

Lemma delivered_nil e l : rx_list e = l -> delivered e [] l (rx_size e) (stats e) = e.
Proof. intros <-. unfold delivered. simpl map. rewrite app_nil_r. by destruct e. Qed.

Lemma deliver_consecutive_spec e l count :
  rx_list e = l -> Forall (fun s => psdu_count s < 2 ^ 32 - 1) l -> 0 <= count ->
  exists pre post sz st,
    l = pre ++ post /\
    map psdu_count pre = seqZ count (zlen pre) /\
    (forall s post', post = s :: post' -> psdu_count s <> count + zlen pre) /\
    deliver_consecutive e l count = (count + zlen pre, delivered e pre post sz st).
Proof.
  revert e count. induction l as [|cur l IH]; intros e count Hl Hr Hc.
  - exists [], [], (rx_size e), (stats e). rewrite delivered_nil, zlen_nil, Z.add_0_r by done.
    repeat split; done.
  - inversion Hr as [|? ? Hcur Hr']; subst. simpl.
    destruct (Z.eqb_spec count (psdu_count cur)) as [->|Hne].
    + rewrite u32_small by lia.
      destruct (IH (deliver_head e cur l) (psdu_count cur + 1))
        as (pre & post & sz & st & -> & Hm & Hp & ->); [done|done|lia|].
      exists (cur :: pre), post, sz, st. rewrite delivered_cons, zlen_cons.
      repeat split; [|intros s post' ->; specialize (Hp s post' eq_refl); lia|f_equal; lia].
      rewrite seqZ_cons by (pose proof (zlen_nonneg pre); lia).
      cbn [map]. rewrite Hm. do 2 f_equal; lia.
    + exists [], (cur :: l), (rx_size e), (stats e).
      rewrite delivered_nil, zlen_nil, Z.add_0_r by done. repeat split; try done.
      intros s post' [= <- <-]. congruence.
Qed.

Lemma deliver_below_spec e l :
  rx_list e = l -> StronglySorted count_lt l ->
  exists pre post sz st,
    l = pre ++ post /\ Forall (fun s => psdu_count s < rx_reord e) pre /\
    Forall (fun s => rx_reord e <= psdu_count s) post /\
    deliver_below e l = delivered e pre post sz st.
Proof.
  revert e. induction l as [|cur l IH]; intros e Hl Hs.
  - exists [], [], (rx_size e), (stats e). rewrite delivered_nil by done. auto.
  - inversion Hs as [|? ? Hs' Hall]; subst. simpl.
    destruct (Z.ltb_spec (psdu_count cur) (rx_reord e)) as [Hlt|Hge].
    + destruct (IH (deliver_head e cur l)) as (pre & post & sz & st & -> & Hp & Hq & ->);
        [done|done|]. exists (cur :: pre), post, sz, st. rewrite delivered_cons.
      repeat split; try done. by constructor.
    + exists [], (cur :: l), (rx_size e), (stats e). rewrite delivered_nil by done.
      repeat split; try done. constructor; [done|].
      eapply Forall_weaken; [|exact Hall]. unfold count_lt. simpl. lia.
Qed.

Lemma sorted_app_inv {A} (R : A -> A -> Prop) l1 l2 :
  StronglySorted R (l1 ++ l2) ->
  StronglySorted R l2 /\ Forall (fun x => Forall (R x) l2) l1.
Proof.
  induction l1 as [|x l1 IH]; simpl; [auto|]. inversion 1 as [|? ? Hs Hall]; subst.
  destruct (IH Hs) as [? ?]. split; [done|]. constructor; [|done].
  by apply Forall_app in Hall as [_ ?].
Qed.

(** what is left after a consecutive run is above the next COUNT *)
Lemma post_above pre post d :
  StronglySorted count_lt (pre ++ post) -> Forall (fun s => d <= psdu_count s) (pre ++ post) ->
  map psdu_count pre = seqZ d (zlen pre) ->
  (forall s post', post = s :: post' -> psdu_count s <> d + zlen pre) ->
  Forall (fun s => d + zlen pre < psdu_count s) post.
Proof.
  intros Hs Hd Hm Hhd. destruct (sorted_app_inv _ _ _ Hs) as [Hsp Hpp].
  destruct post as [|s post]; [constructor|].
  assert (d + zlen pre <= psdu_count s) as Hle.
  { destruct (decide (pre = [])) as [->|Hne].
    - rewrite zlen_nil. simpl in Hd. inversion Hd; lia.
    - assert (In (d + zlen pre - 1) (map psdu_count pre)) as Hin.
      { rewrite Hm. apply list_elem_of_In, elem_of_seqZ.
        destruct pre; [done|]. rewrite zlen_cons. pose proof (zlen_nonneg pre). lia. }
      apply in_map_iff in Hin as (p & Hp & Hin).
      rewrite List.Forall_forall in Hpp. specialize (Hpp p Hin). inversion Hpp; subst.
      unfold count_lt in *. lia. }
  specialize (Hhd s post eq_refl). inversion Hsp as [|? ? ? Hall]; subst.
  constructor; [lia|]. eapply Forall_weaken; [|exact Hall]. unfold count_lt. simpl. lia.
Qed.

(** the last COUNT of a consecutive run *)
Lemma pre_below pre d n :
  map psdu_count pre = seqZ d (zlen pre) -> Forall (fun s => psdu_count s < n) pre ->
  d <= n -> d + zlen pre <= n.
Proof.
  intros Hm Hf Hd. destruct (decide (pre = [])) as [->|Hne]; [rewrite zlen_nil; lia|].
  assert (In (d + zlen pre - 1) (map psdu_count pre)) as Hin.
  { rewrite Hm. apply list_elem_of_In, elem_of_seqZ.
    destruct pre; [done|]. rewrite zlen_cons. pose proof (zlen_nonneg pre). lia. }
  apply in_map_iff in Hin as (p & Hp & Hin). rewrite List.Forall_forall in Hf.
  specialize (Hf p Hin). lia.
Qed.

(** ** One accepted SDU *)

(** [e'] is [e] after the SDUs [pre] of the buffer, whose COUNTs follow
    [rx_deliv e], were handed up in order; [post] stays in the buffer *)
Definition in_order_step (e e' : nr_pdcp_entity_t) (buf pre post : list nr_pdcp_sdu_t) : Prop :=
  buf = pre ++ post /\
  map psdu_count pre = seqZ (rx_deliv e) (zlen pre) /\
  events e' = events e ++ map ev_of pre /\
  rx_list e' = post /\
  rx_deliv e' = rx_deliv e + zlen pre.

Lemma update_t_reordering_fields e :
  rx_list (update_t_reordering e) = rx_list e /\ events (update_t_reordering e) = events e /\
  rx_deliv (update_t_reordering e) = rx_deliv e /\ rx_next (update_t_reordering e) = rx_next e.
Proof. unfold update_t_reordering. by do 2 case_match. Qed.

(** the timer runs iff something is missing, with a valid [rx_reord] *)
Lemma update_t_reordering_timer e :
  0 < t_current e -> rx_deliv e <= rx_next e ->
  t_reordering_start e = 0 \/ rx_reord e <= rx_next e ->
  let e' := update_t_reordering e in
  (t_reordering_start e' = 0 \/ rx_deliv e' < rx_reord e' <= rx_next e') /\
  (rx_deliv e' < rx_next e' -> t_reordering_start e' <> 0).
Proof.
  intros Ht Hd Hr. unfold update_t_reordering. simpl.
  destruct (Z.eqb_spec (t_reordering_start e) 0) as [E|E]; simpl;
    [rewrite E; simpl|destruct (Z.leb_spec (rx_reord e) (rx_deliv e)); simpl;
                      [|destruct (Z.eqb_spec (t_reordering_start e) 0); simpl]];
    repeat (case_match; bool_prop; simpl); lia.
Qed.

Section store.
Context (e : nr_pdcp_entity_t) (sdu : nr_pdcp_sdu_t) (size hs : Z).
Context (Hinv : pdcp_rx_inv e).
Context (Hnew : nr_pdcp_sdu_in_list (rx_list e) (psdu_count sdu) = false).
Context (Hlo : rx_deliv e <= psdu_count sdu) (Hhi : psdu_count sdu < 2 ^ 32 - 1).

Let l' := nr_pdcp_sdu_list_add (rx_list e) sdu.

Lemma stored_range :
  StronglySorted count_lt l' /\
  Forall (fun s => rx_deliv e <= psdu_count s < 2 ^ 32 - 1) l' /\
  Forall (fun s => psdu_count s < Z.max (rx_next e) (psdu_count sdu + 1)) l'.
Proof using Hinv Hnew Hlo Hhi.
  destruct Hinv as [Hd Hn Hs Hr _ _]. split_and!.
  - by apply pdcp_list_add_sorted.
  - subst l'. rewrite pdcp_list_add_perm. constructor; [lia|].
    eapply Forall_weaken; [|exact Hr]. simpl. lia.
  - subst l'. rewrite pdcp_list_add_perm. constructor; [lia|].
    eapply Forall_weaken; [|exact Hr]. simpl. lia.
Qed.

(** all of [store_and_deliver] but the timer *)
Lemma store_before_timer :
  exists e3 pre post,
    store_and_deliver e sdu size hs = update_t_reordering e3 /\
    in_order_step e e3 l' pre post /\
    Forall (fun s => rx_deliv e3 < psdu_count s) post /\
    rx_next e3 = Z.max (rx_next e) (psdu_count sdu + 1) /\
    t_current e3 = t_current e /\ t_reordering_start e3 = t_reordering_start e /\
    rx_reord e3 = rx_reord e.
Proof using Hinv Hnew Hlo Hhi.
  destruct stored_range as (Hs & Hr & _). pose proof (inv_rx_deliv _ Hinv) as Hd0.
  unfold store_and_deliver.
  set (e1 := e <| rx_list := _ |> <| rx_size ::= _ |>).
  set (e2 := if rx_next e1 <=? _ then _ else _).
  assert (rx_next e2 = Z.max (rx_next e) (psdu_count sdu + 1)) as Hn2.
  { subst e2 e1. simpl. destruct (Z.leb_spec (rx_next e) (psdu_count sdu)); simpl;
      [rewrite u32_small|]; lia. }
  assert (rx_list e2 = l' /\ rx_deliv e2 = rx_deliv e /\ events e2 = events e /\
    t_current e2 = t_current e /\ t_reordering_start e2 = t_reordering_start e /\
    rx_reord e2 = rx_reord e) as (Hl2 & Hd2 & He2 & Ht2).
  { subst e2 e1. by destruct (rx_next _ <=? _). }
  clearbody e2. clear e1. rewrite Hd2.
  destruct (Z.eqb_spec (psdu_count sdu) (rx_deliv e)) as [Heq|Hne].
  - destruct (deliver_consecutive_spec e2 l' (rx_deliv e)) as
      (pre & post & sz & st & Hsplit & Hm & Hh & Hrun); [done| |destruct Hinv; lia|].
    { eapply Forall_weaken; [|exact Hr]. simpl. lia. }
    rewrite Hl2, Hrun. eexists _, pre, post. split; [reflexivity|].
    unfold in_order_step. simpl. rewrite He2, Hn2. split_and!; try done; try apply Ht2.
    eapply post_above; [by rewrite <- Hsplit| |done|done].
    rewrite <- Hsplit. eapply Forall_weaken; [|exact Hr]. simpl. lia.
  - exists e2, [], l'. split; [reflexivity|].
    unfold in_order_step. rewrite Hd2, He2, Hl2, Hn2, zlen_nil.
    simpl. rewrite app_nil_r, Z.add_0_r. split_and!; try done; try apply Ht2.
    subst l'. rewrite pdcp_list_add_perm. constructor; [lia|].
    eapply Forall_weaken; [|apply (inv_rx_range _ Hinv)]. simpl. lia.
Qed.

Lemma store_and_deliver_spec :
  0 < t_current e ->
  exists pre post,
    let e' := store_and_deliver e sdu size hs in
    in_order_step e e' l' pre post /\ pdcp_rx_inv e' /\
    rx_next e' = Z.max (rx_next e) (psdu_count sdu + 1).
Proof using Hinv Hnew Hlo Hhi.
  intros Htc. destruct stored_range as (Hs & Hr & Hn). pose proof Hinv as [Hd0 Hn0 _ _ Hro _].
  destruct store_before_timer as (e3 & pre & post & -> & Hstep & Hpost & Hn3 & Htc3 & Hts3 & Hro3).
  destruct Hstep as (Hsplit & Hm & Hev & Hl3 & Hd3). exists pre, post. cbv zeta.
  destruct (update_t_reordering_fields e3) as (Hu1 & Hu2 & Hu3 & Hu4).
  pose proof Hs as Hs'. rewrite Hsplit in Hs', Hn. apply sorted_app_inv in Hs' as [Hsp _].
  apply Forall_app in Hn as [Hnp Hnq].
  assert (rx_deliv e3 <= rx_next e3).
  { rewrite Hd3, Hn3. eapply pre_below; [done| |lia]. exact Hnp. }
  destruct (update_t_reordering_timer e3) as [Ht1 Ht2]; [lia|done|rewrite Hts3, Hro3; lia|].
  split_and!; [..|congruence].
  - unfold in_order_step. by rewrite Hu1, Hu2, Hu3.
  - constructor; [..|exact Ht1|exact Ht2]; rewrite ?Hu1, ?Hu3, ?Hu4, ?Hl3.
    + pose proof (zlen_nonneg pre). lia.
    + lia.
    + done.
    + rewrite Hn3. rewrite list.Forall_forall in *. intros s Hin. split; auto.
Qed.
End store.

(** ** Expiry of t-Reordering *)

Lemma delivered_delivered e pre1 mid sz1 st1 pre2 post sz st :
  delivered (delivered e pre1 mid sz1 st1) pre2 post sz st = delivered e (pre1 ++ pre2) post sz st.
Proof.
  transitivity (e <| events := (events e ++ map ev_of pre1) ++ map ev_of pre2 |>
                  <| rx_list := post |> <| rx_size := sz |> <| stats := st |>); [reflexivity|].
  unfold delivered. by rewrite map_app, app_assoc.
Qed.

Lemma run_below pre d n :
  map psdu_count pre = seqZ d n -> Forall (fun s => psdu_count s < d + n) pre.
Proof.
  intros Hm. rewrite List.Forall_forall. intros s Hs.
  assert (In (psdu_count s) (seqZ d n)) as Hin by (rewrite <- Hm; by apply in_map).
  apply list_elem_of_In, elem_of_seqZ in Hin. lia.
Qed.

(** everything below [rx_reord] and then the run that starts there is handed up *)
Lemma expiry_delivery e :
  StronglySorted count_lt (rx_list e) ->
  Forall (fun s => psdu_count s < rx_next e) (rx_list e) ->
  0 <= rx_reord e <= rx_next e -> rx_next e < 2 ^ 32 ->
  exists pre post cnt sz st,
    deliver_consecutive (deliver_below e (rx_list e)) (rx_list (deliver_below e (rx_list e)))
      (rx_reord (deliver_below e (rx_list e))) = (cnt, delivered e pre post sz st) /\
    rx_list e = pre ++ post /\ Forall (fun s => psdu_count s < cnt) pre /\
    Forall (fun s => cnt < psdu_count s) post /\ rx_reord e <= cnt <= rx_next e.
Proof.
  intros Hs Hn Hro Hn32.
  destruct (deliver_below_spec e (rx_list e)) as (pre1 & mid & sz1 & st1 & Hsp & Hpre1 & Hmid & ->);
    [done|done|].
  rewrite Hsp in Hs, Hn. apply sorted_app_inv in Hs as [Hsm _]. apply Forall_app in Hn as [_ Hnm].
  destruct (deliver_consecutive_spec (delivered e pre1 mid sz1 st1) mid (rx_reord e))
    as (pre2 & post & sz & st & -> & Hm & Hh & Hrun); [done| |lia|].
  { eapply Forall_weaken; [|exact Hnm]. simpl. lia. }
  exists (pre1 ++ pre2), post, (rx_reord e + zlen pre2), sz, st.
  apply Forall_app in Hnm as [Hn2 _].
  pose proof (zlen_nonneg pre2). simpl. rewrite Hrun, delivered_delivered, Hsp, app_assoc.
  split_and!; [done|done| | |lia|].
  - apply Forall_app. split; [eapply Forall_weaken; [|exact Hpre1]; simpl; lia|by apply run_below].
  - by eapply post_above.
  - by eapply pre_below; [| |lia].
Qed.

Lemma check_t_reordering_spec e :
  pdcp_rx_inv e -> 0 < t_current e ->
  exists pre post,
    let e' := check_t_reordering e in
    rx_list e = pre ++ post /\ rx_list e' = post /\ events e' = events e ++ map ev_of pre /\
    Forall (fun s => psdu_count s < rx_deliv e') pre /\
    rx_deliv e <= rx_deliv e' /\ rx_next e' = rx_next e /\ pdcp_rx_inv e'.
Proof.
  intros Hinv Htc. unfold check_t_reordering.
  destruct (t_reordering e =? -1) eqn:E1;
    [|destruct (_ || _) eqn:E2]; [exists [], (rx_list e); simpl; rewrite app_nil_r; by split_and! ..|].
  bool_prop. destruct Hinv as [Hd Hn Hs Hr [?|Hro] _]; [lia|].
  destruct (expiry_delivery (e <| t_reordering_start := 0 |>))
    as (pre & post & cnt & sz & st & Hrun & Hsp & Hpre & Hpost & Hcnt);
    [done|eapply Forall_weaken; [|exact Hr]; simpl; lia|simpl; lia|done|].
  simpl in Hsp, Hcnt. rewrite Hrun. rewrite Hsp in Hs, Hr.
  apply sorted_app_inv in Hs as [Hsp' _]. apply Forall_app in Hr as [_ Hr].
  exists pre, post. simpl. destruct (Z.ltb_spec cnt (rx_next e)) as [Hlt|Hge]; simpl.
  all: split_and!; try done; try lia; constructor; simpl; try done; try lia.
  all: rewrite list.Forall_forall in *; intros s Hin; specialize (Hpost s Hin);
    specialize (Hr s Hin); simpl in *; lia.
Qed.

(** ** Reception of a PDU *)

(** the entity without its receive and transmit state: what the configuration,
    security and suspension operations set *)
Definition config (e : nr_pdcp_entity_t) : nr_pdcp_entity_t :=
  e <| tx_next := 0 |> <| rx_next := 0 |> <| rx_deliv := 0 |> <| rx_reord := 0 |>
    <| t_current := 0 |> <| t_reordering_start := 0 |> <| rx_list := [] |> <| rx_size := 0 |>
    <| stats := mk_pdcp_stats 0 0 0 0 0 0 0 0 0 0 0 0 0 0 0 0 |> <| events := [] |>.

(** the outcomes of a reception: dropped, or accepted and stored; [recv_frame]
    lists what a drop leaves alone *)
Definition recv_frame (e e' : nr_pdcp_entity_t) : Prop :=
  rx_list e' = rx_list e /\ events e' = events e /\ rx_deliv e' = rx_deliv e /\
  rx_next e' = rx_next e /\ rx_reord e' = rx_reord e /\
  t_reordering_start e' = t_reordering_start e /\ t_current e' = t_current e /\
  tx_next e' = tx_next e /\ config e' = config e.

Lemma recv_frame_inv e e' : recv_frame e e' -> pdcp_rx_inv e -> pdcp_rx_inv e'.
Proof.
  intros (Hl & _ & Hd & Hn & Hr & Ht & _) [H1 H2 H3 H4 H5 H6].
  constructor; by rewrite ?Hl, ?Hd, ?Hn, ?Hr, ?Ht.
Qed.

(** storing and delivering leaves configuration, time and transmitter alone *)
Definition same_side (e e' : nr_pdcp_entity_t) : Prop :=
  config e' = config e /\ t_current e' = t_current e /\ tx_next e' = tx_next e.

Lemma update_t_reordering_side e : same_side e (update_t_reordering e).
Proof. unfold update_t_reordering. by do 2 case_match. Qed.

Lemma deliver_consecutive_side e l n : same_side e (deliver_consecutive e l n).2.
Proof.
  revert e n. induction l as [|s l IH]; intros e n; simpl; [done|].
  destruct (n =? psdu_count s); [|done].
  destruct (IH (deliver_head e s l) (u32 (n + 1))) as (H1 & H2 & H3). by split_and!.
Qed.

Lemma store_and_deliver_side e sdu size hs : same_side e (store_and_deliver e sdu size hs).
Proof.
  unfold store_and_deliver. set (e1 := e <| rx_list := _ |> <| rx_size ::= _ |>).
  set (e2 := if rx_next e1 <=? _ then _ else _).
  assert (same_side e e2) as (Ha & Hb & Hc) by (subst e2; by destruct (rx_next e1 <=? _)).
  match goal with |- same_side e (update_t_reordering ?e3) =>
    destruct (update_t_reordering_side e3) as (Ha' & Hb' & Hc'); assert (same_side e2 e3) end.
  { destruct (psdu_count sdu =? rx_deliv e2); [|done].
    pose proof (deliver_consecutive_side e2 (rx_list e2) (rx_deliv e2)) as H.
    by destruct (deliver_consecutive _ _ _). }
  destruct H as (H1 & H2 & H3). unfold same_side.
  split_and!; congruence.
Qed.

(** the COUNT the entity reconstructs for a PDU *)
Definition pdu_count (e : nr_pdcp_entity_t) (buffer : list Z) : outcome Z :=
  buffer ← force_data_bit e buffer;
  '(sn, _) ← read_sn e buffer;
  Ret (compute_rcvd_count e sn).

(** What the entity takes of a PDU: nothing, when it is suspended, the PDU too short, its
    MAC-I wrong, or its COUNT already delivered or stored; else the SDU, deciphered,
    with the COUNT the window gives it. *)
Definition accepted_sdu (C : crypto) (e : nr_pdcp_entity_t) (buffer : list Z) : outcome (option nr_pdcp_sdu_t) :=
  if entity_suspended e || (zlen buffer <? 1) then Ret None
  else
    let mac_size := if has_mac_i e then PDCP_INTEGRITY_SIZE else 0 in
    let sdap_size := if has_sdap_rx e then 1 else 0 in
    pdu ← force_data_bit e buffer;
    '(sn, header_size) ← read_sn e pdu;
    if zlen buffer <? header_size + sdap_size + mac_size + 1 then Ret None
    else
      let count := compute_rcvd_count e sn in
      integrity ← store_msg_integrity e pdu count header_size;
      clear ← decipher C e pdu (header_size + sdap_size) count;
      mac_ok ← check_mac C e clear count mac_size;
      if negb (mac_ok : bool) || ((count <? rx_deliv e) || nr_pdcp_sdu_in_list (rx_list e) count) then Ret None
      else data ← mem_read clear header_size (zlen buffer - header_size - mac_size);
           Ret (Some (nr_pdcp_new_sdu count data integrity)).

Lemma recv_pdu_cases C e buffer e' :
  nr_pdcp_entity_recv_pdu C e buffer = Ret e' ->
  (recv_frame e e' /\ accepted_sdu C e buffer = Ret None) \/
  exists e1 sdu hs,
    recv_frame e e1 /\ accepted_sdu C e buffer = Ret (Some sdu) /\ pdu_count e buffer = Ret (psdu_count sdu) /\
    rx_deliv e <= psdu_count sdu /\ nr_pdcp_sdu_in_list (rx_list e) (psdu_count sdu) = false /\
    e' = store_and_deliver e1 sdu (zlen buffer) hs.
Proof.
  unfold nr_pdcp_entity_recv_pdu, accepted_sdu.
  destruct (entity_suspended e); [intros [= <-]; by left|]. cbn [orb].
  destruct (zlen buffer <? 1); [intros [= <-]; by left|]. cbv zeta.
  intros H. inv_bind H. inv_bind H. destruct v0 as [rcvd_sn hs].
  match goal with H : read_sn _ v = _ |- _ => change (read_sn e v = Ret (rcvd_sn, hs)) in H; rename H into Hsn end.
  rewrite Hv, bind_Ret_l, Hsn, bind_Ret_l. unfold upd_stats in H; cbn in H.
  destruct (zlen buffer <? _) in H |- *; [injection H as <-; by left|].
  do 3 inv_bind H.
  match goal with |- (_ /\ ?a = _) \/ _ => assert (Ha : a = (if negb v2 || ((compute_rcvd_count e rcvd_sn <? rx_deliv e) ||
      nr_pdcp_sdu_in_list (rx_list e) (compute_rcvd_count e rcvd_sn)) then Ret None
    else data ← mem_read v1 hs (zlen buffer - hs - (if has_mac_i e then PDCP_INTEGRITY_SIZE else 0));
         Ret (Some (nr_pdcp_new_sdu (compute_rcvd_count e rcvd_sn) data v0)))) end.
  { etrans; [exact (f_equal (fun c => c ≫= _) Hv0)|rewrite bind_Ret_l].
    etrans; [exact (f_equal (fun c => c ≫= _) Hv1)|rewrite bind_Ret_l].
    by etrans; [exact (f_equal (fun c => c ≫= _) Hv2)|rewrite bind_Ret_l]. }
  rewrite Ha. clear Ha. destruct v2; simpl in H |- *; [|injection H as <-; by left].
  change (compute_rcvd_count _ rcvd_sn) with (compute_rcvd_count e rcvd_sn) in H.
  destruct ((_ <? _) || _) eqn:E in H |- *; [injection H as <-; by left|].
  apply orb_false_iff in E as [E1 E2]. apply Z.ltb_ge in E1.
  inv_bind H. injection H as <-. right. eexists _, (nr_pdcp_new_sdu (compute_rcvd_count e rcvd_sn) v2 v0), hs.
  split; [|split; [|split; [|split; [exact E1|split; [exact E2|reflexivity]]]]]; [done|by etrans; [exact (f_equal (fun c => c ≫= _) Hv3)|]|].
  unfold pdu_count. by rewrite Hv, bind_Ret_l, Hsn.
Qed.

Definition count_of_pdu_ok (e : nr_pdcp_entity_t) (buffer : list Z) : Prop :=
  forall c, pdu_count e buffer = Ret c -> c < 2 ^ 32 - 1.

(** ** Runs of the receiver *)

(** [handed_up e acc e' l]: between [e] and [e'], where the SDUs [acc] were taken, the
    SDUs [l] were handed to the upper layer. They are in strictly increasing order of
    COUNT, and are exactly those of the SDUs stored or taken whose COUNT the window has
    passed; the others are stored. *)
Definition handed_up (e : nr_pdcp_entity_t) (acc : list nr_pdcp_sdu_t) (e' : nr_pdcp_entity_t) (l : list nr_pdcp_sdu_t) : Prop :=
  events e' = events e ++ map ev_of l /\ StronglySorted count_lt l /\ rx_list e ++ acc ≡ₚ l ++ rx_list e' /\
  Forall (fun s => rx_deliv e <= psdu_count s < rx_deliv e') l /\ Forall (fun s => rx_deliv e' < psdu_count s) (rx_list e') /\
  rx_deliv e <= rx_deliv e'.

(** a run of received PDUs and timer ticks, with the SDUs that are taken, in the order
    of their arrival *)
Inductive pdcp_rx_run (C : crypto) : nr_pdcp_entity_t -> list nr_pdcp_sdu_t -> nr_pdcp_entity_t -> Prop :=
| run_start e : pdcp_rx_run C e [] e
| run_recv e buffer got e1 acc e' :
    0 < t_current e -> count_of_pdu_ok e buffer -> accepted_sdu C e buffer = Ret got ->
    nr_pdcp_entity_recv_pdu C e buffer = Ret e1 -> pdcp_rx_run C e1 acc e' -> pdcp_rx_run C e (option_list got ++ acc) e'
| run_time e now acc e' : 0 < now -> pdcp_rx_run C (nr_pdcp_entity_set_time e now) acc e' -> pdcp_rx_run C e acc e'.

Lemma run_sorted l d n : map psdu_count l = seqZ d n -> StronglySorted count_lt l.
Proof.
  revert d n. induction l as [|s l IH]; intros d n Hm; [constructor|].
  assert (0 < n).
  { destruct (Z.lt_ge_cases 0 n); [done|]. rewrite seqZ_nil in Hm by lia. done. }
  rewrite seqZ_cons in Hm by done. simpl in Hm. injection Hm as Hs Hm.
  constructor; [by eapply IH|]. rewrite List.Forall_forall. intros y Hy.
  assert (In (psdu_count y) (seqZ (Z.succ d) (Z.pred n))) as Hin by (rewrite <- Hm; by apply in_map).
  apply list_elem_of_In, elem_of_seqZ in Hin. unfold count_lt. lia.
Qed.

Lemma run_from l d n : map psdu_count l = seqZ d n -> Forall (fun s => d <= psdu_count s) l.
Proof.
  intros Hm. rewrite List.Forall_forall. intros s Hs.
  assert (In (psdu_count s) (seqZ d n)) as Hin by (rewrite <- Hm; by apply in_map).
  apply list_elem_of_In, elem_of_seqZ in Hin. lia.
Qed.

Lemma sorted_app {A} (R : A -> A -> Prop) l1 l2 :
  StronglySorted R l1 -> StronglySorted R l2 -> Forall (fun x => Forall (R x) l2) l1 ->
  StronglySorted R (l1 ++ l2).
Proof.
  induction 1 as [|x l1 Hs IH Hall]; simpl; [done|]. intros H2 Hx. inversion Hx; subst.
  constructor; [auto|]. by apply Forall_app.
Qed.

Lemma sorted_app_l {A} (R : A -> A -> Prop) l1 l2 :
  StronglySorted R (l1 ++ l2) -> StronglySorted R l1.
Proof.
  induction l1 as [|x l1 IH]; simpl; [constructor|]. inversion 1 as [|? ? Hs Hall]; subst.
  apply Forall_app in Hall as [? _]. constructor; auto.
Qed.

Lemma inv_above e : pdcp_rx_inv e -> Forall (fun s => rx_deliv e < psdu_count s) (rx_list e).
Proof. intros [_ _ _ Hr _ _]. eapply Forall_weaken; [|exact Hr]. simpl. lia. Qed.

Lemma handed_up_nothing e e' : pdcp_rx_inv e -> recv_frame e e' -> handed_up e [] e' [].
Proof.
  intros Hinv (Hl & Hev & Hd & _). unfold handed_up. rewrite Hl, Hev, Hd, !app_nil_r. simpl.
  split_and!; try done; try constructor. by apply inv_above.
Qed.

(** what one PDU leads to *)
Lemma recv_handed_up C e buffer got e' :
  pdcp_rx_inv e -> 0 < t_current e -> count_of_pdu_ok e buffer -> accepted_sdu C e buffer = Ret got ->
  nr_pdcp_entity_recv_pdu C e buffer = Ret e' -> pdcp_rx_inv e' /\ exists l, handed_up e (option_list got) e' l.
Proof.
  intros Hinv Ht Hc Hgot H. apply recv_pdu_cases in H as [[Hf Ha]|(e1 & sdu & hs & Hf & Ha & Hcnt & Hlo & Hnew & ->)].
  { rewrite Ha in Hgot. injection Hgot as <-. split; [by eapply recv_frame_inv|]. exists []. by apply handed_up_nothing. }
  rewrite Ha in Hgot. injection Hgot as <-. pose proof (recv_frame_inv _ _ Hf Hinv) as Hinv1.
  destruct Hf as (Hl & Hev & Hd & Hn & _ & _ & Htc & _ & _).
  destruct (store_and_deliver_spec e1 sdu (zlen buffer) hs)
    as (pre & post & Hstep & Hinv' & _); simpl; rewrite ?Hl, ?Hd, ?Htc; auto.
  destruct Hstep as (Hsp & Hm & Hev' & Hp & Hd'). rewrite Hd in Hm, Hd'. rewrite Hev in Hev'. rewrite Hl in Hsp.
  split; [done|]. exists pre. pose proof (zlen_nonneg pre). split_and!; [done|by eapply run_sorted| | |by apply inv_above|lia].
  - rewrite Hp, <- Hsp, pdcp_list_add_perm. simpl. symmetry. apply Permutation_cons_append.
  - pose proof (run_from _ _ _ Hm) as H1. pose proof (run_below _ _ _ Hm) as H2. rewrite list.Forall_forall in *.
    intros s Hs. specialize (H1 s Hs). specialize (H2 s Hs). simpl in *. lia.
Qed.

(** what a tick leads to *)
Lemma time_handed_up e now :
  pdcp_rx_inv e -> 0 < now ->
  pdcp_rx_inv (nr_pdcp_entity_set_time e now) /\ exists l, handed_up e [] (nr_pdcp_entity_set_time e now) l.
Proof.
  intros Hinv Hnow. assert (Hinv0 : pdcp_rx_inv (e <| t_current := now |>)) by (destruct Hinv; by constructor).
  destruct (check_t_reordering_spec _ Hinv0 Hnow) as (pre & post & Hl & Hl' & Hev & Hp & Hd & _ & Hinv'). simpl in Hl.
  split; [done|]. exists pre. destruct Hinv as [_ _ Hs Hr _ _]. rewrite Hl in Hs, Hr. apply Forall_app in Hr as [Hr _].
  split_and!; [done|by eapply sorted_app_l|by rewrite app_nil_r, Hl, <- Hl'| |by apply inv_above|done].
  rewrite list.Forall_forall in *. intros s Hin. specialize (Hr s Hin). specialize (Hp s Hin).
  cbv beta in *. unfold nr_pdcp_entity_set_time. split; [lia|apply Hp].
Qed.

Lemma handed_up_trans e1 a1 e2 l1 a2 e3 l2 :
  handed_up e1 a1 e2 l1 -> handed_up e2 a2 e3 l2 -> handed_up e1 (a1 ++ a2) e3 (l1 ++ l2).
Proof.
  intros (Hev1 & Hs1 & Hp1 & Hr1 & _ & Hd1) (Hev2 & Hs2 & Hp2 & Hr2 & Ha2 & Hd2).
  split_and!; [|apply sorted_app; [done|done|]| |apply Forall_app; split|done|lia].
  - by rewrite Hev2, Hev1, map_app, app_assoc.
  - rewrite list.Forall_forall in *. intros x Hx. rewrite list.Forall_forall. intros y Hy.
    specialize (Hr1 x Hx). specialize (Hr2 y Hy). unfold count_lt. simpl in *. lia.
  - by rewrite app_assoc, Hp1, <- app_assoc, Hp2, app_assoc.
  - eapply Forall_weaken; [|exact Hr1]. simpl. lia.
  - eapply Forall_weaken; [|exact Hr2]. simpl. lia.
Qed.

(** C1: over any sequence of received PDUs and timer ticks, the SDUs the PDCP entity
    hands to the upper layer are in strictly increasing order of the COUNT they were
    received with, each once, and they are exactly the SDUs the entity took (those with
    a valid MAC-I whose COUNT was neither delivered nor stored) that lie below the new
    RX_DELIV: the rest is still in the reordering buffer, whose invariant is kept. The
    COUNTs stay below the last one, 2^32 - 1, and the clock is positive. *)
Theorem pdcp_in_order_delivery C e acc e' :
  pdcp_rx_run C e acc e' -> pdcp_rx_inv e ->
  pdcp_rx_inv e' /\ exists l, handed_up e acc e' l.
Proof.
  induction 1 as [e|e buffer got e1 acc e' Ht Hc Hgot H _ IH|e now acc e' Hnow _ IH]; intros Hinv.
  - split; [done|]. exists []. by apply handed_up_nothing.
  - destruct (recv_handed_up _ _ _ _ _ Hinv Ht Hc Hgot H) as [Hinv1 [l1 H1]]. destruct (IH Hinv1) as [Hinv' [l2 H2]].
    split; [done|]. exists (l1 ++ l2). by eapply handed_up_trans.
  - destruct (time_handed_up _ _ Hinv Hnow) as [Hinv1 [l1 H1]]. destruct (IH Hinv1) as [Hinv' [l2 H2]].
    split; [done|]. exists (l1 ++ l2). by eapply (handed_up_trans _ []).
Qed.

(** ** Example runs *)

(** a DRB without security, 12-bit SN, t-Reordering 10 ms *)
Definition no_security : nr_pdcp_entity_security_keys_and_algos_t :=
  mk_keys 0 0 (replicate 16 0) (replicate 16 0).

Definition no_crypto : crypto :=
  mk_crypto (fun _ _ _ _ m => m) (fun _ _ _ _ m => m) (fun _ _ _ _ _ => [0; 0; 0; 0])
    (fun _ _ _ _ _ => replicate 16 0).

Definition demo_drb : nr_pdcp_entity_t := Eval vm_compute in
  the (new_nr_pdcp_entity NR_PDCP_DRB_UM false 1 1 false false 12 10 0 no_security).

Definition demo_at (now : Z) : nr_pdcp_entity_t := nr_pdcp_entity_set_time demo_drb now.

Definition demo_recv (e : nr_pdcp_entity_t) (pdu : list Z) := nr_pdcp_entity_recv_pdu no_crypto e pdu.

Definition demo_1 : nr_pdcp_entity_t := Eval vm_compute in the (demo_recv (demo_at 1) [128; 1; 7]).
Definition demo_2 : nr_pdcp_entity_t := Eval vm_compute in the (demo_recv demo_1 [128; 0; 5]).

Lemma demo_inv : pdcp_rx_inv (demo_at 1).
Proof. constructor; simpl; try lia; constructor. Qed.

Ltac count_ok := let H := fresh in intros ? H; vm_compute in H; injection H as <-; reflexivity.

(** two PDUs received in the wrong order come out in the right one *)
Lemma pdcp_in_order_delivery_witness :
  map ev_buf (events demo_2) = [[5]; [7]] /\
  exists mi0 mi1, pdcp_rx_inv demo_2 /\
    exists l, handed_up (demo_at 1) [nr_pdcp_new_sdu 1 [7] mi1; nr_pdcp_new_sdu 0 [5] mi0] demo_2 l.
Proof.
  split; [reflexivity|]. eexists _, _.
  apply (pdcp_in_order_delivery no_crypto); [|exact demo_inv].
  apply (run_recv _ _ [128; 1; 7] (Some _) demo_1 [_]); [reflexivity|count_ok|vm_compute; reflexivity|vm_compute; reflexivity|].
  apply (run_recv _ _ [128; 0; 5] (Some _) demo_2 []); [reflexivity|count_ok|vm_compute; reflexivity|vm_compute; reflexivity|].
  apply run_start.
Defined.
