(* ===== verification/PdcpRoundtrip.v ===== *)
(** What one PDCP entity sends its peer accepts: the PDU built by
    [nr_pdcp_entity_process_sdu] goes through the security, COUNT and header
    processing of [nr_pdcp_entity_recv_pdu] and gives the SDU back. *)

From stdpp Require Import base tactics list numbers.
From Stdlib Require Import ZArith Lia Sorted.
From S2P Require Import Prelude PdcpSdu PdcpEntity PdcpRx.

(** What the entity relies on in the cryptographic primitives: the ciphers are
    stream ciphers (applying one twice with the same inputs gives the message
    back, of the same length), the MACs have their documented sizes. *)
Class crypto_laws (C : crypto) : Prop := {
  snow3g_involutive : forall key count bearer dir m,
    snow3g_encrypt C key count bearer dir (snow3g_encrypt C key count bearer dir m) = m;
  aes_ctr_involutive : forall key count bearer dir m,
    aes_ctr_encrypt C key count bearer dir (aes_ctr_encrypt C key count bearer dir m) = m;
  snow3g_length : forall key count bearer dir m,
    zlen (snow3g_encrypt C key count bearer dir m) = zlen m;
  aes_ctr_length : forall key count bearer dir m,
    zlen (aes_ctr_encrypt C key count bearer dir m) = zlen m;
  snow3g_mac_length : forall key count bearer dir m, zlen (snow3g_mac C key count bearer dir m) = 4;
  aes_cmac_length : forall key count bearer dir m, zlen (aes_cmac C key count bearer dir m) = 16
}.

(** two ends of a radio bearer *)
Record peers (tx rx : nr_pdcp_entity_t) : Prop := mk_peers {
  peer_config_tx : pdcp_config_ok tx;
  peer_config_rx : pdcp_config_ok rx;
  peer_type : type tx = type rx;
  peer_rb_id : rb_id tx = rb_id rx /\ 1 <= rb_id tx < 32;
  peer_sn_size : sn_size tx = sn_size rx;
  peer_sdap : has_sdap_tx tx = has_sdap_rx rx;
  peer_side : is_gnb tx = negb (is_gnb rx);
  peer_ciphering : has_ciphering tx = has_ciphering rx;
  peer_integrity : has_integrity tx = has_integrity rx;
  peer_cipher : cipher tx = cipher rx /\ (has_ciphering tx = true -> cipher tx <> None);
  peer_mac : integrity tx = integrity rx /\ (has_integrity tx = true -> integrity tx <> None);
  peer_keys : security_keys_and_algos tx = security_keys_and_algos rx
}.

Section security.
Context (C : crypto) `{!crypto_laws C} (tx rx : nr_pdcp_entity_t) (Hp : peers tx rx).
Context (count dir : Z) (Hcount : 0 <= count < 2 ^ 31) (Hdir : dir = 0 \/ dir = 1).

Lemma s32_count : s32 count = count.
Proof using Hcount. unfold s32. destruct (Z.ltb_spec count (2 ^ 31)); lia. Qed.

Lemma cipher_inverse m :
  has_ciphering tx = true -> 0 < zlen m ->
  exists m', zlen m' = zlen m /\ call_cipher C tx m count dir = Ret m' /\
             call_cipher C rx m' count dir = Ret m.
Proof using All.
  intros Hc Hm. destruct Hp as [_ _ _ [Hrb Hrb'] _ _ _ _ _ [Hci Hno] _ Hk].
  unfold call_cipher. rewrite <- Hci, <- Hrb, <- Hk, s32_count. specialize (Hno Hc).
  destruct (cipher tx) as [[key|]|]; [| |done].
  - exists (snow3g_encrypt C key count (rb_id tx - 1) dir m). unfold nr_pdcp_security_nea1_cipher.
    by rewrite snow3g_length, snow3g_involutive.
  - exists (aes_ctr_encrypt C (ciphering_key (security_keys_and_algos tx)) count
              (rb_id tx - 1) dir m).
    unfold nr_pdcp_security_nea2_cipher. rewrite aes_ctr_length, aes_ctr_involutive.
    rewrite (proj2 (Z.ltb_lt 0 (zlen m))), (proj2 (Z.ltb_lt (-1) (rb_id tx))),
      (proj2 (Z.ltb_lt (rb_id tx) 32)), (proj2 (Z.ltb_lt (-1) count)),
      (proj2 (Z.ltb_lt (-1) dir)), (proj2 (Z.ltb_lt dir 2)) by lia. done.
Qed.

Lemma integrity_same m :
  has_integrity tx = true ->
  exists mac, zlen mac = 4 /\ call_integrity C tx m count dir = Ret mac /\
              call_integrity C rx m count dir = Ret mac.
Proof using All.
  intros Hc. destruct Hp as [_ _ _ [Hrb Hrb'] _ _ _ _ _ _ [Hi Hno] _].
  unfold call_integrity. rewrite <- Hi, <- Hrb, s32_count. specialize (Hno Hc).
  destruct (integrity tx) as [[key|key]|]; [| |done].
  - exists (snow3g_mac C key count (rb_id tx - 1) dir m). unfold nr_pdcp_integrity_nia1_integrity.
    by rewrite snow3g_mac_length.
  - exists (take 4 (aes_cmac C key count (rb_id tx - 1) dir m)).
    unfold nr_pdcp_integrity_nia2_integrity.
    rewrite (proj2 (Z.ltb_lt 0 (rb_id tx))), (proj2 (Z.ltb_lt (rb_id tx) 33)),
      (proj2 (Z.ltb_lt (-1) count)) by lia.
    by rewrite zlen_take, aes_cmac_length.
Qed.
End security.

(** ** Building a PDU *)

(** the MAC-I field: the MAC, zeros on an SRB without integrity, or nothing *)
Definition mac_field (C : crypto) (e : nr_pdcp_entity_t) (msg : list Z) (count dir : Z)
    (tail : list Z) : Prop :=
  if has_integrity e then call_integrity C e msg count dir = Ret tail /\ zlen tail = 4
  else tail = if has_mac_i e then [0; 0; 0; 0] else [].

Lemma mac_field_length C e msg count dir tail :
  mac_field C e msg count dir tail -> zlen tail = if has_mac_i e then 4 else 0.
Proof.
  unfold mac_field, has_mac_i. destruct (has_integrity e); [by intros [_ ->]|].
  intros ->. simpl. by case_bool_decide.
Qed.

Lemma put_header_length e sn : 2 <= zlen (put_header e sn) <= 3.
Proof. unfold put_header. destruct (_ =? _); unfold zlen; simpl; lia. Qed.

(** ciphering leaves the head [a] of the buffer in clear *)
Definition ciphered (C : crypto) (e : nr_pdcp_entity_t) (b : list Z) (count dir : Z)
    (b' : list Z) : Prop :=
  if has_ciphering e then call_cipher C e b count dir = Ret b' /\ zlen b' = zlen b else b' = b.

Lemma mac_step C e msg count dir tail :
  mac_field C e msg count dir tail ->
  (if has_integrity e then
     mac ← call_integrity C e msg count dir; Ret (msg ++ mac)
   else if (if has_mac_i e then PDCP_INTEGRITY_SIZE else 0) =? PDCP_INTEGRITY_SIZE
        then Ret (msg ++ [0; 0; 0; 0])
   else Ret msg) = Ret (msg ++ tail).
Proof.
  unfold mac_field. destruct (has_integrity e); [by intros [-> _]|].
  intros ->. destruct (has_mac_i e); simpl; [done|by rewrite app_nil_r].
Qed.

Lemma cipher_step C e a b count dir off n b' :
  off = zlen a -> n = zlen b -> ciphered C e b count dir b' ->
  (if has_ciphering e then
     text ← mem_read (a ++ b) off n;
     text ← call_cipher C e text count dir;
     mem_write (a ++ b) off text
   else Ret (a ++ b)) = Ret (a ++ b').
Proof.
  intros Hoff Hn. unfold ciphered. destruct (has_ciphering e); [|by intros ->].
  intros [Hc Hl]. rewrite mem_read_suffix by done. rewrite bind_Ret_l, Hc, bind_Ret_l.
  by apply mem_write_suffix.
Qed.

(** length of the part left in clear behind the PDCP header: the SDAP header *)
Definition clear_len (has_sdap : bool) : nat := if has_sdap then 1 else 0.

Lemma clear_len_Z (b : bool) : (if b then 1 else 0) = Z.of_nat (clear_len b).
Proof. by destruct b. Qed.

Lemma regions (hdr sdu tail : list Z) k :
  (hdr ++ sdu) ++ tail = (hdr ++ take k sdu) ++ drop k sdu ++ tail.
Proof. rewrite <- !app_assoc, (app_assoc (take k sdu)). by rewrite take_drop. Qed.

Lemma ciphered_length C e b count dir b' : ciphered C e b count dir b' -> zlen b' = zlen b.
Proof. unfold ciphered. destruct (has_ciphering e); [by intros [_ ?]|by intros ->]. Qed.

Lemma process_sdu_spec C e sdu id max tail b' :
  let hdr := put_header e (Z.land (tx_next e) (sn_max e)) in
  let dir := if is_gnb e then 1 else 0 in
  let clear := clear_len (has_sdap_tx e) in
  entity_suspended e = false -> nr_max_pdcp_pdu_size (zlen sdu) <= max ->
  Z.of_nat clear < zlen sdu ->
  mac_field C e (hdr ++ sdu) (tx_next e) dir tail ->
  ciphered C e (drop clear sdu ++ tail) (tx_next e) dir b' ->
  let pdu := (hdr ++ take clear sdu) ++ b' in
  exists st, nr_pdcp_entity_process_sdu C e sdu id max
    = Ret (zlen pdu, e <| tx_next := u32 (tx_next e + 1) |> <| stats := st |>, pdu).
Proof.
  intros hdr dir clear Hsus Hmax Hcl Hmac Hci pdu.
  pose proof (mac_field_length _ _ _ _ _ _ Hmac) as Htl.
  pose proof (ciphered_length _ _ _ _ _ _ Hci) as Hb'.
  assert (Htake : zlen (take clear sdu) = Z.of_nat clear) by (rewrite zlen_take; lia).
  assert (Hdrop : zlen (drop clear sdu) = zlen sdu - Z.of_nat clear) by (rewrite zlen_drop; lia).
  unfold nr_pdcp_entity_process_sdu. rewrite (proj2 (Z.ltb_ge max _)), Hsus by done.
  rewrite clear_len_Z. set (e1 := upd_stats _ e).
  pose proof (mac_step C e1 _ _ _ _ Hmac) as Hm1. cbv zeta.
  change (has_sdap_tx e1) with (has_sdap_tx e). fold clear.
  change (put_header e1 (Z.land (tx_next e1) (sn_max e1))) with hdr.
  change (tx_next e1) with (tx_next e) in *. change (is_gnb e1) with (is_gnb e). fold dir.
  rewrite Hm1, bind_Ret_l, (regions _ _ _ clear).
  rewrite (cipher_step C e1 _ _ (tx_next e) dir _ _ b'); [| | |exact Hci].
  - rewrite bind_Ret_l. eexists.
    match goal with |- Ret (?r, _, _) = _ => assert (r = zlen pdu) as ->; [|reflexivity] end.
    subst pdu. rewrite !zlen_app, Hb', zlen_app, Htake, Hdrop, Htl.
    change (has_mac_i e1) with (has_mac_i e). destruct (has_mac_i e); unfold PDCP_INTEGRITY_SIZE; lia.
  - by rewrite zlen_app, Htake.
  - rewrite zlen_app, Hdrop, Htl. change (has_mac_i e1) with (has_mac_i e).
    destruct (has_mac_i e); unfold PDCP_INTEGRITY_SIZE; lia.
Qed.

(** ** Accepting it *)

Lemma force_data_header e e' sn rest :
  type e = type e' -> force_data_bit e (put_header e' sn ++ rest) = Ret (put_header e' sn ++ rest).
Proof.
  intros Ht. unfold force_data_bit, put_header. rewrite Ht.
  assert (H : forall x, (Z.land (Z.lor 128 x) 128 =? 0) = false).
  { intros x. apply Z.eqb_neq. rewrite Z.land_lor_distr_l. intros [H _]%Z.lor_eq_0_iff. done. }
  destruct (sn_size e' =? _), (type e'); cbn [app]; rewrite rd_0, bind_Ret_l, ?H; reflexivity.
Qed.

Lemma check_mac_ok C e msg count dir tail :
  dir = (if is_gnb e then 0 else 1) -> mac_field C e msg count dir tail ->
  check_mac C e (msg ++ tail) count (if has_mac_i e then PDCP_INTEGRITY_SIZE else 0) = Ret true.
Proof.
  intros -> Hm. pose proof (mac_field_length _ _ _ _ _ _ Hm) as Hl. revert Hm.
  unfold check_mac, mac_field, has_mac_i in *. destruct (has_integrity e); [|done].
  intros [Hc _]. simpl in *. unfold PDCP_INTEGRITY_SIZE.
  rewrite mem_read_prefix by (rewrite zlen_app; lia). rewrite bind_Ret_l, Hc, bind_Ret_l.
  rewrite mem_read_suffix by (rewrite ?zlen_app; lia). rewrite bind_Ret_l.
  by rewrite bool_decide_true.
Qed.

Lemma store_msg_integrity_ok e hdr body count :
  (if has_mac_i e then 4 else 0) <= zlen body ->
  exists mi, store_msg_integrity e (hdr ++ body) count (zlen hdr) = Ret mi.
Proof.
  intros Hb. unfold store_msg_integrity. destruct (has_mac_i e); [|eauto].
  pose proof (zlen_nonneg hdr).
  rewrite (mem_read_ok _ _ 4) by (rewrite ?zlen_app; lia).
  rewrite bind_Ret_l, mem_read_prefix by done. rewrite bind_Ret_l. eauto.
Qed.

Lemma decipher_ok C e a b' count dir b :
  dir = (if is_gnb e then 0 else 1) -> ciphered C e b' count dir b ->
  decipher C e (a ++ b') (zlen a) count = Ret (a ++ b).
Proof.
  intros -> Hc. unfold decipher. apply cipher_step; [done|rewrite zlen_app; lia|done].
Qed.

Section path.
Context (C : crypto) (e : nr_pdcp_entity_t) (buffer b1 b2 data : list Z) (sn hs : Z).
Context (mi : nr_pdcp_integrity_data_t).
Let c := compute_rcvd_count e sn.
Let sdap := if has_sdap_rx e then 1 else 0.
Let isz := if has_mac_i e then PDCP_INTEGRITY_SIZE else 0.

Context (Hsus : entity_suspended e = false) (Hsz : 1 <= zlen buffer).
Context (Hforce : force_data_bit e buffer = Ret b1) (Hsn : read_sn e b1 = Ret (sn, hs)).
Context (Hlen : hs + sdap + isz + 1 <= zlen buffer).
Context (Hmi : store_msg_integrity e b1 c hs = Ret mi).
Context (Hdec : decipher C e b1 (hs + sdap) c = Ret b2).
Context (Hmac : check_mac C e b2 c isz = Ret true).
Context (Hlo : rx_deliv e <= c) (Hnew : nr_pdcp_sdu_in_list (rx_list e) c = false).
Context (Hdata : mem_read b2 hs (zlen buffer - hs - isz) = Ret data).

(** the accepting path through [nr_pdcp_entity_recv_pdu] *)
Lemma recv_pdu_path :
  exists e1, recv_frame e e1 /\
    nr_pdcp_entity_recv_pdu C e buffer
    = Ret (store_and_deliver e1 (nr_pdcp_new_sdu c data mi) (zlen buffer) hs).
Proof using All.
  unfold nr_pdcp_entity_recv_pdu.
  rewrite Hsus, (proj2 (Z.ltb_ge (zlen buffer) 1)), Hforce, bind_Ret_l by lia. cbv zeta.
  set (e1 := upd_stats _ e). change (read_sn e1 b1) with (read_sn e b1).
  rewrite Hsn, bind_Ret_l. set (e2 := upd_stats _ e1). exists e2. split; [done|].
  change (has_sdap_rx e1) with (has_sdap_rx e). fold sdap.
  change (has_mac_i e2) with (has_mac_i e). fold isz.
  rewrite (proj2 (Z.ltb_ge (zlen buffer) _)) by lia.
  change (compute_rcvd_count e2 sn) with c.
  change (store_msg_integrity e2) with (store_msg_integrity e). rewrite Hmi, bind_Ret_l.
  change (decipher C e2) with (decipher C e). rewrite Hdec, bind_Ret_l.
  change (check_mac C e2) with (check_mac C e). rewrite Hmac, bind_Ret_l. simpl negb. cbv iota.
  change (rx_deliv e2) with (rx_deliv e). change (rx_list e2) with (rx_list e).
  rewrite (proj2 (Z.ltb_ge c (rx_deliv e))), Hnew, Hdata by done. done.
Qed.
End path.

Lemma recv_pdu_decipher_exit C e buffer b1 sn hs mi :
  entity_suspended e = false -> 1 <= zlen buffer ->
  force_data_bit e buffer = Ret b1 -> read_sn e b1 = Ret (sn, hs) ->
  hs + (if has_sdap_rx e then 1 else 0) + (if has_mac_i e then PDCP_INTEGRITY_SIZE else 0) + 1
    <= zlen buffer ->
  store_msg_integrity e b1 (compute_rcvd_count e sn) hs = Ret mi ->
  decipher C e b1 (hs + (if has_sdap_rx e then 1 else 0)) (compute_rcvd_count e sn) = Exit ->
  nr_pdcp_entity_recv_pdu C e buffer = Exit.
Proof.
  intros Hsus Hsz Hforce Hsn Hlen Hmi Hdec. unfold nr_pdcp_entity_recv_pdu.
  rewrite Hsus, (proj2 (Z.ltb_ge (zlen buffer) 1)), Hforce, bind_Ret_l by lia. cbv zeta.
  set (e1 := upd_stats _ e). change (read_sn e1 b1) with (read_sn e b1).
  rewrite Hsn, bind_Ret_l. set (e2 := upd_stats _ e1).
  change (has_mac_i e2) with (has_mac_i e). change (has_sdap_rx e1) with (has_sdap_rx e).
  rewrite (proj2 (Z.ltb_ge (zlen buffer) _)) by lia.
  change (store_msg_integrity e2 b1 (compute_rcvd_count e2 sn) hs)
    with (store_msg_integrity e b1 (compute_rcvd_count e sn) hs). rewrite Hmi, bind_Ret_l.
  change (decipher C e2 b1 (hs + (if has_sdap_rx e then 1 else 0)) (compute_rcvd_count e2 sn))
    with (decipher C e b1 (hs + (if has_sdap_rx e then 1 else 0)) (compute_rcvd_count e sn)).
  by rewrite Hdec.
Qed.

Section accept.
Context (C : crypto) (tx rx : nr_pdcp_entity_t) (sdu tail b' : list Z).
Let c := tx_next tx.
Let hdr := put_header tx (Z.land c (sn_max tx)).
Let dir := if is_gnb rx then 0 else 1.
Let clear := clear_len (has_sdap_rx rx).
Let pdu := (hdr ++ take clear sdu) ++ b'.

Context (Hp : peers tx rx) (Hsus : entity_suspended rx = false).
Context (Hsdu : Z.of_nat clear < zlen sdu).
Context (Hc : 0 <= c < 2 ^ 32) (Hlo : rx_deliv rx <= c) (Hhi : c < rx_deliv rx + window_size rx).
Context (Hd : 0 <= rx_deliv rx) (Hnew : nr_pdcp_sdu_in_list (rx_list rx) c = false).
Context (Hmac : mac_field C rx (hdr ++ sdu) c dir tail).
Context (Hci : ciphered C rx b' c dir (drop clear sdu ++ tail)).

Lemma pdu_lengths :
  zlen (take clear sdu) = Z.of_nat clear /\ zlen pdu = zlen hdr + zlen sdu + zlen tail.
Proof using Hsdu Hci.
  pose proof (ciphered_length _ _ _ _ _ _ Hci) as Hb'.
  assert (zlen (take clear sdu) = Z.of_nat clear) as Ht by (rewrite zlen_take; lia).
  split; [done|]. subst pdu. rewrite !zlen_app, Ht, <- Hb', zlen_app, zlen_drop. lia.
Qed.

Lemma pdu_sn :
  read_sn rx pdu = Ret (c mod 2 ^ sn_size rx, zlen hdr) /\
  compute_rcvd_count rx (c mod 2 ^ sn_size rx) = c.
Proof using Hp Hc Hlo Hhi Hd.
  destruct Hp as [(_ & Hmaxt & _) Hcfg _ _ Hsn _ _ _ _ _ _ _].
  pose proof (config_sn_size rx Hcfg). destruct (config_window rx Hcfg).
  assert (Hland : Z.land c (sn_max tx) = c mod 2 ^ sn_size rx)
    by (rewrite Hmaxt, Hsn; apply land_mask; lia).
  subst pdu hdr. rewrite Hland, <- app_assoc. split.
  - apply read_sn_put_header; [done|done|]. apply Z.mod_pos_bound. lia.
  - apply rcvd_count_window; [done|done|done|lia].
Qed.

Lemma recv_pdu_accepts :
  exists rx1 mi,
    recv_frame rx rx1 /\
    nr_pdcp_entity_recv_pdu C rx pdu
    = Ret (store_and_deliver rx1 (nr_pdcp_new_sdu c sdu mi) (zlen pdu) (zlen hdr)).
Proof using All.
  pose proof (mac_field_length _ _ _ _ _ _ Hmac) as Htl. pose proof (zlen_nonneg tail).
  pose proof (put_header_length tx (Z.land c (sn_max tx))) as Hhl. fold hdr in Hhl.
  destruct pdu_lengths as [Htake Hpl]. destruct pdu_sn as [Hsn Hcnt].
  assert (Hisz : (if has_mac_i rx then PDCP_INTEGRITY_SIZE else 0) = zlen tail) by done.
  destruct (store_msg_integrity_ok rx hdr (take clear sdu ++ b') c) as [mi Hmi].
  { rewrite <- Htl. subst pdu. rewrite <- app_assoc, zlen_app in Hpl. lia. }
  rewrite app_assoc in Hmi. fold pdu in Hmi.
  edestruct (recv_pdu_path C rx pdu pdu ((hdr ++ sdu) ++ tail) sdu) as (e1 & Hf & Hr);
    [done|lia| |exact Hsn| |rewrite Hcnt; exact Hmi|..]; rewrite ?Hcnt, ?Hisz, ?clear_len_Z; fold clear.
  - subst pdu. rewrite <- app_assoc. apply force_data_header. by destruct Hp.
  - lia.
  - rewrite (regions _ _ _ clear). rewrite <- Htake, <- zlen_app. by eapply decipher_ok.
  - rewrite <- Hisz. by eapply check_mac_ok.
  - done.
  - done.
  - rewrite <- app_assoc. apply mem_read_mid; [done|lia].
  - rewrite Hcnt in Hr. eauto.
Qed.
End accept.

(** ** Round trip *)

Section roundtrip.
Context (C : crypto) `{!crypto_laws C} (tx rx : nr_pdcp_entity_t) (sdu : list Z) (id max : Z).
Let c := tx_next tx.

Context (Hp : peers tx rx) (Htx : entity_suspended tx = false) (Hrx : entity_suspended rx = false).
Context (Hmax : nr_max_pdcp_pdu_size (zlen sdu) <= max).
Context (Hsdu : Z.of_nat (clear_len (has_sdap_tx tx)) < zlen sdu).
Context (Hc : 0 <= c < 2 ^ 31) (Hd : 0 <= rx_deliv rx).
Context (Hlo : rx_deliv rx <= c) (Hhi : c < rx_deliv rx + window_size rx).
Context (Hnew : nr_pdcp_sdu_in_list (rx_list rx) c = false).

Lemma peer_security :
  let hdr := put_header tx (Z.land c (sn_max tx)) in
  let dir := if is_gnb tx then 1 else 0 in
  let clear := clear_len (has_sdap_tx tx) in
  exists tail b',
    mac_field C tx (hdr ++ sdu) c dir tail /\ mac_field C rx (hdr ++ sdu) c dir tail /\
    ciphered C tx (drop clear sdu ++ tail) c dir b' /\
    ciphered C rx b' c dir (drop clear sdu ++ tail).
Proof using All.
  intros hdr dir clear.
  assert (Hdir : dir = 0 \/ dir = 1) by (subst dir; destruct (is_gnb tx); auto).
  assert (exists tail, mac_field C tx (hdr ++ sdu) c dir tail /\
                       mac_field C rx (hdr ++ sdu) c dir tail) as (tail & Hm1 & Hm2).
  { pose proof (integrity_same C tx rx Hp c dir Hc Hdir (hdr ++ sdu)) as Hi.
    unfold mac_field, has_mac_i. rewrite <- (peer_integrity _ _ Hp), <- (peer_type _ _ Hp).
    destruct (has_integrity tx); [|eauto]. destruct (Hi eq_refl) as (mac & ? & ? & ?). eauto. }
  exists tail. pose proof (cipher_inverse C tx rx Hp c dir Hc Hdir (drop clear sdu ++ tail)) as Hci.
  unfold ciphered. rewrite <- (peer_ciphering _ _ Hp).
  destruct (has_ciphering tx); [|eauto].
  destruct Hci as (b' & ? & ? & ?); [done| |eauto 10].
  rewrite zlen_app, zlen_drop. pose proof (zlen_nonneg tail). subst clear. lia.
Qed.

Lemma peer_dir : (if is_gnb tx then 1 else 0) = (if is_gnb rx then 0 else 1).
Proof using Hp. rewrite (peer_side _ _ Hp). by destruct (is_gnb rx). Qed.

Lemma roundtrip_step :
  exists st pdu rx1 mi hs,
    nr_pdcp_entity_process_sdu C tx sdu id max
    = Ret (zlen pdu, tx <| tx_next := u32 (c + 1) |> <| stats := st |>, pdu) /\
    zlen pdu <= nr_max_pdcp_pdu_size (zlen sdu) /\
    recv_frame rx rx1 /\
    nr_pdcp_entity_recv_pdu C rx pdu
    = Ret (store_and_deliver rx1 (nr_pdcp_new_sdu c sdu mi) (zlen pdu) hs).
Proof using All.
  destruct peer_security as (tail & b' & Hm1 & Hm2 & Hc1 & Hc2).
  pose proof peer_dir as Hdir. pose proof (peer_sdap _ _ Hp) as Hsdap.
  destruct (process_sdu_spec C tx sdu id max tail b') as [st Hproc]; try done.
  rewrite Hdir in Hm2, Hc2. rewrite Hsdap in *.
  destruct (recv_pdu_accepts C tx rx sdu tail b') as (rx1 & mi & Hf & Hrecv); try done; [subst c; lia|].
  eexists st, _, rx1, mi, _. split_and!; [exact Hproc| |exact Hf|exact Hrecv].
  destruct (pdu_lengths C tx rx sdu tail b') as [_ Hpl]; [done|done|]. rewrite Hpl.
  pose proof (mac_field_length _ _ _ _ _ _ Hm2) as Htl. rewrite Htl.
  pose proof (put_header_length tx (Z.land (tx_next tx) (sn_max tx))).
  unfold nr_max_pdcp_pdu_size, LONG_PDCP_HEADER_SIZE, PDCP_INTEGRITY_SIZE.
  destruct (has_mac_i rx); lia.
Qed.
End roundtrip.

Lemma peers_config tx rx tx' rx' :
  config tx' = config tx -> config rx' = config rx -> peers tx rx -> peers tx' rx'.
Proof.
  intros Ht Hr.
  assert (Hf : forall {A} (f : nr_pdcp_entity_t -> A), (forall e, f (config e) = f e) ->
                 f tx' = f tx /\ f rx' = f rx).
  { intros A f H. by rewrite <- (H tx'), Ht, H, <- (H rx'), Hr, H. }
  intros [H1 H2 H3 H4 H5 H6 H7 H8 H9 H10 H11 H12].
  destruct (Hf _ type ltac:(done)), (Hf _ rb_id ltac:(done)), (Hf _ sn_size ltac:(done)),
    (Hf _ has_sdap_tx ltac:(done)), (Hf _ has_sdap_rx ltac:(done)), (Hf _ is_gnb ltac:(done)),
    (Hf _ has_ciphering ltac:(done)), (Hf _ has_integrity ltac:(done)), (Hf _ cipher ltac:(done)),
    (Hf _ integrity ltac:(done)), (Hf _ security_keys_and_algos ltac:(done)),
    (Hf _ sn_max ltac:(done)), (Hf _ window_size ltac:(done)).
  constructor; unfold pdcp_config_ok in *; congruence.
Qed.

(** a stored SDU is handed up at once iff it is the one awaited *)
Lemma stored_sdu_fate e sdu size hs :
  pdcp_rx_inv e -> 0 < t_current e -> nr_pdcp_sdu_in_list (rx_list e) (psdu_count sdu) = false ->
  rx_deliv e <= psdu_count sdu < 2 ^ 32 - 1 ->
  let e' := store_and_deliver e sdu size hs in
  pdcp_rx_inv e' /\
  if psdu_count sdu =? rx_deliv e
  then exists pre', events e' = events e ++ ev_of sdu :: map ev_of pre' /\
                    sdu :: rx_list e ≡ₚ sdu :: pre' ++ rx_list e' /\
                    rx_deliv e' = rx_deliv e + 1 + zlen pre'
  else events e' = events e /\ rx_list e' ≡ₚ sdu :: rx_list e /\ rx_deliv e' = rx_deliv e.
Proof.
  intros Hinv Ht Hnew [Hlo Hhi] e'.
  destruct (store_and_deliver_spec e sdu size hs Hinv Hnew Hlo Hhi Ht)
    as (pre & post & (Hl & Hm & Hev & Hpost & Hd) & Hinv' & Hn). fold e' in Hev, Hpost, Hd, Hinv'.
  split; [done|]. pose proof (pdcp_list_add_perm (rx_list e) sdu) as Hperm. rewrite Hl in Hperm.
  pose proof (inv_rx_range _ Hinv) as Hr. rewrite list.Forall_forall in Hr.
  destruct pre as [|s pre].
  - rewrite zlen_nil, Z.add_0_r in Hd. simpl in Hperm, Hev. rewrite app_nil_r in Hev.
    destruct (Z.eqb_spec (psdu_count sdu) (rx_deliv e)) as [Heq|Hne].
    + pose proof (inv_rx_range _ Hinv') as Hr'. rewrite Hpost, Hperm in Hr'. inversion Hr'; lia.
    + by rewrite Hpost.
  - rewrite zlen_cons in Hm, Hd. pose proof (zlen_nonneg pre).
    rewrite seqZ_cons in Hm by lia. injection Hm as Hs Hm.
    assert (s ∈ sdu :: rx_list e) as Hin by (rewrite <- Hperm; left).
    apply elem_of_cons in Hin as [->|Hin]; [|specialize (Hr s Hin); simpl in Hr; lia].
    rewrite (proj2 (Z.eqb_eq _ _)) by done. exists pre. rewrite Hpost.
    split_and!; [done|by rewrite <- Hperm|lia].
Qed.

(** a PDU built by one PDCP entity from an SDU is accepted by its peer, for
    every cipher and integrity setting they share, whenever its COUNT is in the
    receive window and not yet received: the SDU comes out of the peer at once,
    unchanged, when it is the next one in sequence, and is buffered unchanged
    otherwise. *)
Theorem pdcp_roundtrip C `{!crypto_laws C} tx rx sdu id max :
  let c := tx_next tx in
  peers tx rx -> entity_suspended tx = false -> entity_suspended rx = false ->
  pdcp_rx_inv rx -> 0 < t_current rx ->
  nr_max_pdcp_pdu_size (zlen sdu) <= max ->
  Z.of_nat (clear_len (has_sdap_tx tx)) < zlen sdu ->
  rx_deliv rx <= c < rx_deliv rx + window_size rx -> c < 2 ^ 31 ->
  nr_pdcp_sdu_in_list (rx_list rx) c = false ->
  exists tx' pdu rx' mi,
    nr_pdcp_entity_process_sdu C tx sdu id max = Ret (zlen pdu, tx', pdu) /\
    tx_next tx' = c + 1 /\ zlen pdu <= nr_max_pdcp_pdu_size (zlen sdu) /\
    nr_pdcp_entity_recv_pdu C rx pdu = Ret rx' /\ pdcp_rx_inv rx' /\
    if c =? rx_deliv rx
    then exists more, events rx' = events rx ++ PdcpDeliverSdu sdu mi :: more
    else nr_pdcp_new_sdu c sdu mi ∈ rx_list rx'.
Proof.
  intros c Hp Htx Hrx Hinv Ht Hmax Hsdu [Hlo Hhi] Hc Hnew.
  pose proof (inv_rx_deliv _ Hinv) as Hd.
  destruct (roundtrip_step C tx rx sdu id max)
    as (st & pdu & rx1 & mi & hs & Hproc & Hlen & Hf & Hrecv); auto; [subst c; lia|lia|].
  pose proof (recv_frame_inv _ _ Hf Hinv) as Hinv1.
  destruct Hf as (Hl & Hev & Hd1 & _ & _ & _ & Ht1 & _).
  destruct (stored_sdu_fate rx1 (nr_pdcp_new_sdu c sdu mi) (zlen pdu) hs) as [Hinv' Hfate];
    [done|lia|by rewrite Hl|rewrite Hd1; simpl; lia|].
  eexists _, pdu, _, mi. split; [exact Hproc|]. split; [simpl; rewrite u32_small; lia|].
  split; [done|]. split; [exact Hrecv|]. split; [done|].
  rewrite Hd1, Hev in Hfate. simpl psdu_count in Hfate.
  destruct (c =? rx_deliv rx).
  - destruct Hfate as (pre & Heq & _). exists (map ev_of pre). exact Heq.
  - destruct Hfate as (_ & Heq & _). eapply elem_of_Permutation_proper; [exact Heq|]. left.
Qed.

(** ** A session over a link without loss *)

(** send the SDUs of a list one after the other and hand each PDU to the peer *)
Fixpoint session (C : crypto) (tx rx : nr_pdcp_entity_t) (sdus : list (list Z))
    : outcome (nr_pdcp_entity_t * nr_pdcp_entity_t) :=
  match sdus with
  | [] => Ret (tx, rx)
  | sdu :: sdus =>
      '(_, tx, pdu) ← nr_pdcp_entity_process_sdu C tx sdu 0 (nr_max_pdcp_pdu_size (zlen sdu));
      rx ← nr_pdcp_entity_recv_pdu C rx pdu;
      session C tx rx sdus
  end.

(** a PDU is longer than its SDU *)
Lemma process_sdu_longer C e sdu id max e' pdu :
  nr_pdcp_entity_process_sdu C e sdu id max = Ret (zlen pdu, e', pdu) -> zlen sdu < zlen pdu.
Proof.
  unfold nr_pdcp_entity_process_sdu. intros H. case_match; [done|]. case_match.
  { injection H as H _ _. pose proof (zlen_nonneg pdu). lia. }
  inv_bind H. inv_bind H. injection H as <- _ _.
  match goal with |- context [zlen (put_header ?a ?b)] => pose proof (put_header_length a b) end.
  destruct (has_mac_i _); unfold PDCP_INTEGRITY_SIZE; lia.
Qed.

(** both ends agree on the next COUNT and nothing is missing *)
Record in_sync (tx rx : nr_pdcp_entity_t) : Prop := mk_in_sync {
  sync_peers : peers tx rx;
  sync_active : entity_suspended tx = false /\ entity_suspended rx = false;
  sync_inv : pdcp_rx_inv rx /\ 0 < t_current rx;
  sync_count : rx_deliv rx = tx_next tx;
  sync_empty : rx_list rx = []
}.

Lemma session_step C `{!crypto_laws C} tx rx sdu :
  in_sync tx rx -> tx_next tx < 2 ^ 31 ->
  Z.of_nat (clear_len (has_sdap_tx tx)) < zlen sdu ->
  exists tx' rx' pdu,
    nr_pdcp_entity_process_sdu C tx sdu 0 (nr_max_pdcp_pdu_size (zlen sdu))
    = Ret (zlen pdu, tx', pdu) /\
    nr_pdcp_entity_recv_pdu C rx pdu = Ret rx' /\
    map ev_buf (events rx') = map ev_buf (events rx) ++ [sdu] /\
    in_sync tx' rx' /\ tx_next tx' = tx_next tx + 1 /\ has_sdap_tx tx' = has_sdap_tx tx /\
    zlen sdu < zlen pdu <= nr_max_pdcp_pdu_size (zlen sdu).
Proof.
  intros [Hp [Htx Hrx] [Hinv Ht] Hcnt Hnil] Hc Hsdu. pose proof (inv_rx_deliv _ Hinv) as Hd.
  destruct (config_window rx) as [_ Hw]; [by destruct Hp|].
  destruct (roundtrip_step C tx rx sdu 0 (nr_max_pdcp_pdu_size (zlen sdu)))
    as (st & pdu & rx1 & mi & hs & Hproc & Hlen & Hf & Hrecv); auto; try lia; [by rewrite Hnil|].
  pose proof (recv_frame_inv _ _ Hf Hinv) as Hinv1.
  destruct Hf as (Hl & Hev & Hd1 & _ & _ & _ & Ht1 & _ & Hcfg1).
  set (sdu' := nr_pdcp_new_sdu (tx_next tx) sdu mi) in *.
  destruct (stored_sdu_fate rx1 sdu' (zlen pdu) hs) as [Hinv' Hfate];
    [done|lia|by rewrite Hl, Hnil|rewrite Hd1; simpl; lia|].
  destruct (store_and_deliver_side rx1 sdu' (zlen pdu) hs) as (Hcfg & Htc & _).
  rewrite (proj2 (Z.eqb_eq (psdu_count sdu') (rx_deliv rx1))) in Hfate by (simpl; congruence).
  destruct Hfate as (pre & Hev' & Hperm & Hd'). rewrite Hl, Hnil in Hperm.
  apply Permutation_cons_inv in Hperm. symmetry in Hperm.
  apply Permutation_nil_r, app_eq_nil in Hperm as [-> Hnil'].
  eexists _, _, pdu. split; [exact Hproc|]. split; [exact Hrecv|].
  rewrite Hev', Hev. split_and!; [by rewrite map_app| |simpl; rewrite u32_small; lia|done|by eapply process_sdu_longer|done].
  constructor; [|split; [done|]| | |done].
  - eapply peers_config; [| |exact Hp]; [done|congruence].
  - change (entity_suspended (config (store_and_deliver rx1 sdu' (zlen pdu) hs)) = false).
    by rewrite Hcfg, Hcfg1.
  - split; [done|lia].
  - rewrite Hd', Hd1, zlen_nil. simpl. rewrite u32_small; lia.
Qed.

(** C5: over a link that loses nothing, every SDU handed to one PDCP entity
    comes out of its peer, unchanged, once and in order, as long as COUNT stays
    below 2^31; no assertion fires and nothing undefined is executed. *)
Theorem pdcp_session_delivers C `{!crypto_laws C} sdus : forall tx rx,
  in_sync tx rx -> tx_next tx + zlen sdus <= 2 ^ 31 ->
  Forall (fun sdu => Z.of_nat (clear_len (has_sdap_tx tx)) < zlen sdu) sdus ->
  exists tx' rx',
    session C tx rx sdus = Ret (tx', rx') /\ in_sync tx' rx' /\
    map ev_buf (events rx') = map ev_buf (events rx) ++ sdus.
Proof.
  induction sdus as [|sdu sdus IH]; intros tx rx Hsync Hc Hf.
  { exists tx, rx. by rewrite app_nil_r. }
  inversion Hf as [|? ? Hsdu Hf']; subst. rewrite zlen_cons in Hc. pose proof (zlen_nonneg sdus).
  destruct (session_step C tx rx sdu Hsync) as (tx1 & rx1 & pdu & Hproc & Hrecv & Hev & Hsync1 & Hn & Hs & _);
    [lia|done|].
  destruct (IH tx1 rx1 Hsync1) as (tx' & rx' & Hrun & Hsync' & Hev'); [lia|by rewrite Hs|].
  exists tx', rx'. cbn [session]. rewrite Hproc, bind_Ret_l, Hrecv, bind_Ret_l, Hrun.
  split_and!; [done|done|]. by rewrite Hev', Hev, <- app_assoc.
Qed.

(** ** A concrete cipher *)

(** a toy stream cipher and MAC with the shape of the real ones *)
Definition toy_stream (key : list Z) (count bearer dir : Z) (m : list Z) : list Z :=
  map (fun x => Z.lxor x (Z.land (sumZ id key + count + bearer + dir) 255)) m.

Definition toy_mac (n : nat) (key : list Z) (count bearer dir : Z) (m : list Z) : list Z :=
  replicate n (Z.land (sumZ id key + count + bearer + dir + sumZ id m) 255).

Definition toy_crypto : crypto :=
  mk_crypto toy_stream toy_stream (toy_mac 4) (toy_mac 16).

Lemma toy_involutive key count bearer dir m :
  toy_stream key count bearer dir (toy_stream key count bearer dir m) = m.
Proof.
  unfold toy_stream. rewrite map_map. rewrite <- (map_id m) at 2. apply map_ext. intros x.
  by rewrite Z.lxor_assoc, Z.lxor_nilpotent, Z.lxor_0_r.
Qed.

#[export] Instance toy_laws : crypto_laws toy_crypto.
Proof.
  constructor; simpl; intros; try apply toy_involutive;
    unfold toy_stream, zlen; by rewrite ?length_map.
Qed.

Definition demo_keys : nr_pdcp_entity_security_keys_and_algos_t :=
  mk_keys 2 2 (replicate 16 3) (replicate 16 5).

(** an SRB with NIA2 and NEA2, gNB side and UE side *)
Definition demo_gnb : nr_pdcp_entity_t := Eval vm_compute in
  the (new_nr_pdcp_entity NR_PDCP_SRB true 1 0 false false 12 10 0 demo_keys).
Definition demo_ue : nr_pdcp_entity_t := Eval vm_compute in
  nr_pdcp_entity_set_time
    (the (new_nr_pdcp_entity NR_PDCP_SRB false 1 0 false false 12 10 0 demo_keys)) 1.

Lemma demo_sync : in_sync demo_gnb demo_ue.
Proof.
  constructor; [|by split| |done|done].
  - constructor; try done; unfold pdcp_config_ok; try (repeat split; auto; lia); by split.
  - split; [|done]. constructor; simpl; try lia; constructor.
Qed.

Lemma pdcp_session_delivers_witness :
  exists tx' rx', session toy_crypto demo_gnb demo_ue [[1; 2]; [3]] = Ret (tx', rx') /\
    in_sync tx' rx' /\ map ev_buf (events rx') = [[1; 2]; [3]].
Proof.
  apply (pdcp_session_delivers toy_crypto [[1; 2]; [3]] demo_gnb demo_ue demo_sync).
  - vm_compute. discriminate.
  - repeat constructor.
Defined.

Lemma pdcp_roundtrip_witness :
  exists tx' pdu rx' mi,
    nr_pdcp_entity_process_sdu toy_crypto demo_gnb [1; 2; 3] 0 10 = Ret (zlen pdu, tx', pdu) /\
    tx_next tx' = 1 /\ zlen pdu <= 10 /\
    nr_pdcp_entity_recv_pdu toy_crypto demo_ue pdu = Ret rx' /\ pdcp_rx_inv rx' /\
    exists more, events rx' = PdcpDeliverSdu [1; 2; 3] mi :: more.
Proof.
  destruct demo_sync as [Hp [Ht Hr] [Hinv Hc] _ _].
  apply (pdcp_roundtrip toy_crypto demo_gnb demo_ue [1; 2; 3] 0 10 Hp Ht Hr Hinv Hc);
    try reflexivity; try (split; reflexivity); cbn; lia.
Defined.
