(* ===== verification/PdcpControl.v ===== *)
(** Suspension, re-establishment and release of a PDCP entity, and what the
    reconstruction of COUNT does below the first hyper frame. *)

From stdpp Require Import base tactics list numbers.
From Stdlib Require Import ZArith Lia Sorted.
From S2P Require Import Prelude PdcpSdu PdcpEntity PdcpRx PdcpRoundtrip.

(** ** Flushing the reordering buffer *)

Lemma deliver_all_spec e :
  exists sz st, deliver_all_sdus e = delivered e (rx_list e) [] sz st.
Proof.
  unfold deliver_all_sdus. assert (Hl : rx_list e = rx_list e) by done.
  revert Hl. generalize (rx_list e) at 2 3 4 as l. intros l. revert e.
  induction l as [|s l IH]; intros e Hl; simpl.
  - exists (rx_size e), (stats e). by rewrite delivered_nil.
  - destruct (IH (deliver_head e s l)) as (sz & st & ->); [done|].
    exists sz, st. by rewrite delivered_cons.
Qed.

Lemma suspend_spec e :
  pdcp_rx_inv e ->
  let e1 := nr_pdcp_entity_suspend e in
  events e1 = events e ++ map ev_of (rx_list e) /\ rx_list e1 = [] /\
  tx_next e1 = 0 /\ rx_next e1 = 0 /\ rx_deliv e1 = 0 /\ t_reordering_start e1 = 0 /\
  entity_suspended e1 = true /\ type e1 = type e.
Proof.
  intros Hinv. unfold nr_pdcp_entity_suspend, suspend_reset, suspend_flush. simpl.
  destruct (Z.eqb_spec (t_reordering_start e) 0) as [E|E]; simpl.
  - assert (rx_list e = []) as ->.
    { destruct (rx_list e) as [|s l] eqn:El; [done|]. exfalso.
      pose proof (inv_rx_range _ Hinv) as Hr. rewrite El in Hr. inversion Hr; subst.
      apply (inv_rx_timer _ Hinv); [lia|done]. }
    by rewrite app_nil_r.
  - destruct (deliver_all_spec (e <| tx_next := 0 |> <| t_reordering_start := 0 |>))
      as (sz & st & ->). done.
Qed.

(** the state that the security configuration does not touch *)
Definition dyn_state (e : nr_pdcp_entity_t) :=
  (tx_next e, rx_next e, rx_deliv e, rx_reord e, t_reordering_start e, t_current e, rx_list e,
   events e, entity_suspended e, type e).

Lemma set_security_dyn e p e' :
  nr_pdcp_entity_set_security e p = Ret e' -> dyn_state e' = dyn_state e.
Proof.
  unfold nr_pdcp_entity_set_security. intros H. inv_bind H. revert Hv H.
  unfold set_integrity, set_ciphering.
  repeat case_match; intros; simplify_eq; done.
Qed.

(** suspending an entity hands every buffered SDU to the upper layer in
    order of COUNT, resets the COUNT state of both directions, and makes the
    entity ignore PDUs and refuse SDUs until it is re-established; a
    re-established AM bearer starts from a valid empty reception state. *)
Theorem pdcp_suspend_flushes C e parameters e2 :
  pdcp_rx_inv e ->
  let e1 := nr_pdcp_entity_suspend e in
  reestablish_entity e1 parameters = Ret e2 -> type e = NR_PDCP_DRB_AM ->
  events e1 = events e ++ map ev_of (rx_list e) /\ rx_list e1 = [] /\
  tx_next e1 = 0 /\ rx_next e1 = 0 /\ rx_deliv e1 = 0 /\
  (forall pdu, nr_pdcp_entity_recv_pdu C e1 pdu = Ret e1) /\
  (forall sdu id, nr_pdcp_entity_process_sdu C e1 sdu id (nr_max_pdcp_pdu_size (zlen sdu))
                  = Ret (-1, e1, [])) /\
  entity_suspended e2 = false /\ pdcp_rx_inv e2 /\ rx_list e2 = [] /\ tx_next e2 = 0.
Proof.
  intros Hinv e1 Hre Hty. destruct (suspend_spec e Hinv) as (Hev & Hl & Htx & Hn & Hd & Hts & Hsus & Hty').
  fold e1 in Hev, Hl, Htx, Hn, Hd, Hts, Hsus, Hty'. clearbody e1.
  assert (Hr2 : dyn_state e2 = dyn_state (e1 <| entity_suspended := false |>)).
  { unfold reestablish_entity in Hre. rewrite Hty', Hty in Hre.
    unfold nr_pdcp_entity_reestablish_drb_am in Hre. inv_bind Hre. injection Hre as <-.
    apply set_security_dyn in Hv. unfold dyn_state in *. simpl. congruence. }
  injection Hr2 as Htx2 Hn2 Hd2 Hro2 Hts2 _ Hl2 _ Hs2 _. simpl in *.
  split_and!; try done; try congruence.
  - intros pdu. unfold nr_pdcp_entity_recv_pdu. by rewrite Hsus.
  - intros sdu sid. unfold nr_pdcp_entity_process_sdu.
    rewrite (proj2 (Z.ltb_ge _ _)) by lia. by rewrite Hsus.
  - constructor; rewrite ?Hn2, ?Hd2, ?Hts2, ?Hl2, ?Hn, ?Hd, ?Hl, ?Hts; try lia; try constructor; auto.
Qed.

(** ** COUNT below the first hyper frame *)

Lemma hfn_zero_count e sn :
  pdcp_config_ok e -> 0 <= rx_deliv e -> rx_deliv e + window_size e <= sn < 2 ^ sn_size e ->
  compute_rcvd_count e sn = 2 ^ 32 - 2 ^ sn_size e + sn.
Proof.
  intros Hcfg Hd Hsn. pose proof (config_sn_size e Hcfg). destruct (config_window e Hcfg) as [HM HW].
  unfold compute_rcvd_count. destruct Hcfg as (_ & -> & _).
  rewrite land_mask, Z.shiftr_div_pow2 by lia.
  rewrite (Z.mod_small (rx_deliv e)), (Z.div_small (rx_deliv e)) by lia.
  rewrite (proj2 (Z.ltb_ge sn _)), (proj2 (Z.leb_le _ sn)) by lia.
  change (u32 (0 - 1)) with (Z.ones 32).
  assert (u32 (Z.shiftl (Z.ones 32) (sn_size e)) = Z.shiftl (2 ^ (32 - sn_size e) - 1) (sn_size e)) as ->.
  { unfold u32. rewrite !Z.shiftl_mul_pow2, Z.ones_equiv by lia.
    replace (Z.pred (2 ^ 32) * 2 ^ sn_size e)
      with ((2 ^ (32 - sn_size e) - 1) * 2 ^ sn_size e + (2 ^ sn_size e - 1) * 2 ^ 32).
    - rewrite Z.mod_add by lia. apply Z.mod_small.
      assert (2 ^ 32 = 2 ^ (32 - sn_size e) * 2 ^ sn_size e) by (rewrite <- Z.pow_add_r by lia; f_equal; lia).
      assert (0 < 2 ^ (32 - sn_size e)) by (apply Z.pow_pos_nonneg; lia). nia.
    - replace (2 ^ 32) with (2 ^ (32 - sn_size e) * 2 ^ sn_size e)
        by (rewrite <- Z.pow_add_r by lia; f_equal; lia). lia. }
  rewrite lor_shiftl_low by lia.
  replace (2 ^ 32) with (2 ^ (32 - sn_size e) * 2 ^ sn_size e)
    by (rewrite <- Z.pow_add_r by lia; f_equal; lia). lia.
Qed.

(** C38: while the receiver is still in the first hyper frame, a PDU whose SN
    lies a window or more above RX_DELIV gets a hyper frame number of minus one
    in 32-bit arithmetic, so a COUNT of at least 2^31; on a bearer ciphered
    with NEA2 a single such PDU, however short its payload, makes the cipher
    wrapper's assertion on a non-negative COUNT stop the process. *)
Theorem pdcp_first_hfn_nea2_abort C e sn body :
  pdcp_config_ok e -> entity_suspended e = false ->
  has_ciphering e = true -> cipher e = Some CipherNea2 ->
  0 <= rx_deliv e -> rx_deliv e + window_size e <= sn < 2 ^ sn_size e ->
  (if has_sdap_rx e then 1 else 0) + (if has_mac_i e then 4 else 0) + 1 <= zlen body ->
  nr_pdcp_entity_recv_pdu C e (put_header e sn ++ body) = Exit.
Proof.
  intros Hcfg Hsus Hci Hnea Hd Hsn Hbody. pose proof (put_header_length e sn) as Hh.
  pose proof (config_sn_size e Hcfg) as Hsz. destruct (config_window e Hcfg) as [HM HW].
  destruct (store_msg_integrity_ok e (put_header e sn) body (compute_rcvd_count e sn)) as [mi Hmi].
  { destruct (has_sdap_rx e); lia. }
  apply recv_pdu_decipher_exit with (put_header e sn ++ body) sn (zlen (put_header e sn)) mi.
  - done.
  - rewrite zlen_app. destruct (has_sdap_rx e), (has_mac_i e); lia.
  - by apply force_data_header.
  - apply read_sn_put_header; [done|done|lia].
  - rewrite zlen_app. unfold PDCP_INTEGRITY_SIZE. lia.
  - done.
  - unfold decipher, call_cipher. rewrite Hci, Hnea.
    rewrite mem_read_ok by (rewrite ?zlen_app; destruct (has_sdap_rx e), (has_mac_i e); lia).
    rewrite bind_Ret_l. unfold nr_pdcp_security_nea2_cipher. rewrite hfn_zero_count by done.
    assert (2 ^ sn_size e <= 2 ^ 18) by (apply Z.pow_le_mono_r; lia). unfold s32.
    rewrite (proj2 (Z.ltb_ge _ (2 ^ 31))), (proj2 (Z.ltb_ge (-1) (_ - 2 ^ 32))) by lia.
    by rewrite andb_false_r.
Qed.

Definition demo_drb_nea2 : nr_pdcp_entity_t := Eval vm_compute in
  the (new_nr_pdcp_entity NR_PDCP_DRB_AM false 1 1 false false 12 10 0
         (mk_keys 0 2 (replicate 16 3) (replicate 16 5))).

(** three bytes with SN 4095 stop a receiver that has just been set up *)
Lemma pdcp_first_hfn_nea2_abort_witness :
  nr_pdcp_entity_recv_pdu toy_crypto demo_drb_nea2 [143; 255; 0] = Exit.
Proof.
  apply (pdcp_first_hfn_nea2_abort toy_crypto demo_drb_nea2 4095 [0]); try reflexivity.
  - unfold pdcp_config_ok. auto.
  - split; [done|reflexivity].
Defined.

Definition demo_drb_am : nr_pdcp_entity_t := Eval vm_compute in
  the (nr_pdcp_entity_recv_pdu no_crypto
         (nr_pdcp_entity_set_time
            (the (new_nr_pdcp_entity NR_PDCP_DRB_AM false 1 1 false false 12 10 0 no_security)) 1)
         [128; 1; 7]).

Lemma demo_drb_am_inv : pdcp_rx_inv demo_drb_am.
Proof.
  constructor; simpl; try lia; [constructor; constructor|constructor; [simpl; lia|constructor]].
Qed.

Definition demo_suspended : nr_pdcp_entity_t := Eval vm_compute in
  nr_pdcp_entity_suspend demo_drb_am.
Definition demo_restarted : nr_pdcp_entity_t := Eval vm_compute in
  the (reestablish_entity demo_suspended no_security).

Lemma pdcp_suspend_flushes_witness :
  map ev_buf (events demo_suspended) = [[7]] /\
  (forall pdu, nr_pdcp_entity_recv_pdu no_crypto (nr_pdcp_entity_suspend demo_drb_am) pdu
               = Ret (nr_pdcp_entity_suspend demo_drb_am)) /\ pdcp_rx_inv demo_restarted.
Proof.
  split; [reflexivity|].
  assert (H : reestablish_entity (nr_pdcp_entity_suspend demo_drb_am) no_security
              = Ret demo_restarted) by (vm_compute; reflexivity).
  destruct (pdcp_suspend_flushes no_crypto demo_drb_am no_security _ demo_drb_am_inv H eq_refl)
    as (_ & _ & _ & _ & _ & Hr & _ & _ & Hinv & _).
  by split.
Defined.
