(* ===== verification/Sdap.v ===== *)
(** NR SDAP, the top of the user plane: mapping of QoS flows (QFI) to data radio
    bearers (DRB), SDAP headers, end markers, and the list of entities
    (src/openair2/SDAP/nr_sdap/nr_sdap_entity.c, nr_sdap_entity.h and nr_sdap.c).

    PDCP below and GTP-U and NAS above are reached by calls; the calls are
    recorded as events, and whether PDCP takes an SDU is a parameter. *)

From stdpp Require Import base tactics list numbers.
From Stdlib Require Import ZArith Lia.
From S2P Require Import Prelude.

Definition SDAP_HDR_UL_DATA_PDU : Z := 1.
Definition SDAP_HDR_UL_CTRL_PDU : Z := 0.
Definition SDAP_HDR_LENGTH : Z := 1.
Definition SDAP_MAX_QFI : Z := 64.
Definition AVLBL_DRB : Z := 5.
Definition SDAP_NO_MAPPING_RULE : Z := 0.
Definition SDAP_REFLECTIVE_MAPPING : Z := 1.
Definition NGAP_MAX_PDU_SESSION : Z := 256.
(** MAX_DRBS_PER_UE times MAX_MOBILES_PER_ENB *)
Definition SDAP_MAX_NUM_OF_ENTITIES : Z := 32 * 40.

(** ** Headers

    The bit fields are laid out from the low bit on. *)
Record nr_sdap_dl_hdr_t := mk_dl_hdr { dl_QFI : Z; RQI : Z; RDI : Z }.
Record nr_sdap_ul_hdr_t := mk_ul_hdr { ul_QFI : Z; ul_R : Z; DC : Z }.

Definition dl_hdr_byte (h : nr_sdap_dl_hdr_t) : Z := dl_QFI h + 64 * RQI h + 128 * RDI h.
Definition dl_hdr_of (b : Z) : nr_sdap_dl_hdr_t :=
  mk_dl_hdr (Z.land b 63) (Z.land (Z.shiftr b 6) 1) (Z.land (Z.shiftr b 7) 1).
Definition ul_hdr_byte (h : nr_sdap_ul_hdr_t) : Z := ul_QFI h + 64 * ul_R h + 128 * DC h.
Definition ul_hdr_of (b : Z) : nr_sdap_ul_hdr_t :=
  mk_ul_hdr (Z.land b 63) (Z.land (Z.shiftr b 6) 1) (Z.land (Z.shiftr b 7) 1).

(** ** Entities *)

Record qfi2drb_t := mk_qfi2drb { drb_id : Z; has_sdap_rx : bool; has_sdap_tx : bool }.
#[export] Instance qfi2drb_eta : Eta qfi2drb_t :=
  fun q => mk_qfi2drb (drb_id q) (has_sdap_rx q) (has_sdap_tx q).

Record nr_sdap_entity_t := mk_sdap {
  sdap_ue_id : Z;
  default_drb : Z;
  sdap_pdusession_id : Z;
  qfi2drb_table : list qfi2drb_t
}.
#[export] Instance sdap_eta : Eta nr_sdap_entity_t :=
  fun e => mk_sdap (sdap_ue_id e) (default_drb e) (sdap_pdusession_id e) (qfi2drb_table e).

(** [qfi2drb_table[qfi]]; the table has SDAP_MAX_QFI rows *)
Definition rule_at (e : nr_sdap_entity_t) (qfi : Z) : outcome qfi2drb_t :=
  if qfi <? 0 then Undef
  else match qfi2drb_table e !! Z.to_nat qfi with Some q => Ret q | None => Undef end.

Definition set_rule (e : nr_sdap_entity_t) (qfi : Z) (q : qfi2drb_t) : outcome nr_sdap_entity_t :=
  _ ← rule_at e qfi;
  Ret (e <| qfi2drb_table ::= <[Z.to_nat qfi := q]> |>).

(** the calls an entity makes *)
Inductive sdap_event :=
| PdcpDataReq (rb_id : Z) (sdu : list Z)               (** nr_pdcp_data_req_drb *)
| GtpSend (ue_id pdusession_id : Z) (buf : list Z)     (** gtpv1uSendDirect *)
| NasWrite (buf : list Z).                             (** write to the NAS socket *)

(** ** QFI to DRB mapping *)

Definition nr_sdap_qfi2drb_map_update (e : nr_sdap_entity_t) (qfi drb : Z) (rx tx : bool)
    : outcome nr_sdap_entity_t :=
  if (qfi <? SDAP_MAX_QFI) && (0 <? qfi) && (0 <? drb) && (drb <=? AVLBL_DRB)
  then set_rule e qfi (mk_qfi2drb drb rx tx)
  else Ret e.

Definition nr_sdap_qfi2drb_map_del (e : nr_sdap_entity_t) (qfi : Z) : outcome nr_sdap_entity_t :=
  q ← rule_at e qfi;
  set_rule e qfi (q <| drb_id := SDAP_NO_MAPPING_RULE |>).

(** returns the DRB; a flow without rule gets the default DRB as its rule *)
Definition nr_sdap_qfi2drb_map (e : nr_sdap_entity_t) (qfi : Z) : outcome (Z * nr_sdap_entity_t) :=
  q ← rule_at e qfi;
  if negb (drb_id q =? 0) then Ret (drb_id q, e)
  else if negb (default_drb e =? 0) then
    e' ← nr_sdap_qfi2drb_map_update e qfi (default_drb e) (has_sdap_rx q) (has_sdap_tx q);
    Ret (default_drb e', e')
  else Ret (0, e).

(** ** End markers *)

Definition nr_sdap_construct_ctrl_pdu (qfi : Z) : nr_sdap_ul_hdr_t :=
  mk_ul_hdr (Z.land qfi 63) 0 SDAP_HDR_UL_CTRL_PDU.

Inductive ctrl_pdu_map := SDAP_CTRL_PDU_MAP_DEF_DRB | SDAP_CTRL_PDU_MAP_RULE_DRB.

Definition nr_sdap_map_ctrl_pdu (e : nr_sdap_entity_t) (map_type : ctrl_pdu_map) (dl_qfi : Z)
    : outcome (Z * nr_sdap_entity_t) :=
  match map_type with
  | SDAP_CTRL_PDU_MAP_DEF_DRB => Ret (default_drb e, e)
  | SDAP_CTRL_PDU_MAP_RULE_DRB => nr_sdap_qfi2drb_map e dl_qfi
  end.

Definition nr_pdcp_submit_sdap_ctrl_pdu (drb : Z) (ctrl_pdu : nr_sdap_ul_hdr_t) : list sdap_event :=
  [PdcpDataReq drb [ul_hdr_byte ctrl_pdu]].

Definition nr_sdap_submit_ctrl_pdu (drb : Z) (ctrl_pdu : nr_sdap_ul_hdr_t) : list sdap_event :=
  if negb (drb =? 0) then nr_pdcp_submit_sdap_ctrl_pdu drb ctrl_pdu else [].

(** construct, map and submit, as every place does that sends an end marker *)
Definition send_end_marker (e : nr_sdap_entity_t) (map_type : ctrl_pdu_map) (qfi : Z)
    : outcome (nr_sdap_entity_t * list sdap_event) :=
  '(drb, e) ← nr_sdap_map_ctrl_pdu e map_type qfi;
  Ret (e, nr_sdap_submit_ctrl_pdu drb (nr_sdap_construct_ctrl_pdu qfi)).

(** ** Transmission *)

Section tx.
(** whether PDCP takes the SDU for the DRB *)
Context (pdcp_accepts : Z -> list Z -> bool).

Definition nr_sdap_tx_entity (e : nr_sdap_entity_t) (is_gnb : bool) (rb_id : Z) (sdu : list Z)
    (qfi : Z) (rqi : bool) : outcome (bool * nr_sdap_entity_t * list sdap_event) :=
  '(pdcp_entity, e) ← nr_sdap_qfi2drb_map e qfi;
  '(sdap_drb_id, pdcp_ent_has_sdap) ←
    (if negb (pdcp_entity =? 0) then
       q ← rule_at e qfi; Ret (pdcp_entity, has_sdap_tx q)
     else Ret (rb_id, false));
  if negb pdcp_ent_has_sdap then
    Ret (pdcp_accepts sdap_drb_id sdu, e, [PdcpDataReq sdap_drb_id sdu])
  else if (zlen sdu =? 0) || (8999 <? zlen sdu) then Ret (false, e, [])
  else
    let hdr :=
      if is_gnb then dl_hdr_byte (mk_dl_hdr (Z.land qfi 63) (Z.b2z rqi) 0)
      else ul_hdr_byte (mk_ul_hdr (Z.land qfi 63) 0 (Z.b2z rqi)) in
    let pdu := hdr :: sdu in
    Ret (pdcp_accepts sdap_drb_id pdu, e, [PdcpDataReq sdap_drb_id pdu]).
End tx.

(** ** Reception *)

(** 5.3.2 Reflective mapping *)
Definition reflective_mapping (e : nr_sdap_entity_t) (pdcp_entity qfi : Z)
    : outcome (nr_sdap_entity_t * list sdap_event) :=
  q ← rule_at e qfi;
  '(e, ev1) ←
    (if (drb_id q =? 0) && negb (default_drb e =? 0)
     then send_end_marker e SDAP_CTRL_PDU_MAP_DEF_DRB qfi else Ret (e, []));
  q ← rule_at e qfi;
  '(e, ev2) ←
    (if negb (pdcp_entity =? drb_id q)
     then send_end_marker e SDAP_CTRL_PDU_MAP_RULE_DRB qfi else Ret (e, []));
  q ← rule_at e qfi;
  e ← set_rule e qfi (q <| drb_id := pdcp_entity |>);
  Ret (e, ev1 ++ ev2).

Definition nr_sdap_rx_entity (e : nr_sdap_entity_t) (pdcp_entity : Z) (is_gnb with_header : bool)
    (pdusession_id ue_id : Z) (buf : list Z) : outcome (nr_sdap_entity_t * list sdap_event) :=
  if is_gnb then
    offset ← (if with_header then _ ← rd buf 0; Ret SDAP_HDR_LENGTH else Ret 0);
    sdu ← mem_read buf offset (zlen buf - offset);
    Ret (e, [GtpSend ue_id pdusession_id sdu])
  else
    '(e, ev, offset) ←
      (if with_header then
         b ← rd buf 0;
         let sdap_hdr := dl_hdr_of b in
         '(e, ev) ← (if RDI sdap_hdr =? SDAP_REFLECTIVE_MAPPING
                     then reflective_mapping e pdcp_entity (dl_QFI sdap_hdr) else Ret (e, []));
         Ret (e, ev, SDAP_HDR_LENGTH)
       else Ret (e, [], 0));
    sdu ← mem_read buf offset (zlen buf - offset);
    Ret (e, ev ++ [NasWrite sdu]).

(** ** Configuration *)

(** presence of the headers and the lists of flows, as RRC gives them; the lists
    hold pointers to separate objects *)
Record NR_SDAP_Config_t := mk_sdap_config {
  sdap_HeaderDL_present : bool;
  sdap_HeaderUL_present : bool;
  mappedQoS_FlowsToAdd : option (list Z);
  mappedQoS_FlowsToRelease : option (list Z)
}.

Definition is_sdap_rx (is_gnb : bool) (c : NR_SDAP_Config_t) : bool :=
  if is_gnb then sdap_HeaderUL_present c else sdap_HeaderDL_present c.

Definition is_sdap_tx (is_gnb : bool) (c : NR_SDAP_Config_t) : bool :=
  if is_gnb then sdap_HeaderDL_present c else sdap_HeaderUL_present c.

(** one round of [nr_sdap_ue_qfi2drb_config] *)
Definition qfi2drb_config_one (e : nr_sdap_entity_t) (qfi drb_identity : Z) (rx tx : bool)
    : outcome (nr_sdap_entity_t * list sdap_event) :=
  '(e, ev1) ←
    (if negb (default_drb e =? 0) then
       q ← rule_at e qfi;
       if drb_id q =? SDAP_NO_MAPPING_RULE
       then send_end_marker e SDAP_CTRL_PDU_MAP_DEF_DRB qfi else Ret (e, [])
     else Ret (e, []));
  q ← rule_at e qfi;
  '(e, ev2) ←
    (if negb (drb_id q =? drb_identity) && has_sdap_tx q
     then send_end_marker e SDAP_CTRL_PDU_MAP_RULE_DRB qfi else Ret (e, []));
  e ← nr_sdap_qfi2drb_map_update e qfi drb_identity rx tx;
  Ret (e, ev1 ++ ev2).

(** [for (i = 0; i < count; i++)] over the array [qfis], [n] rounds left *)
Fixpoint nr_sdap_ue_qfi2drb_config (n : nat) (i : Z) (e : nr_sdap_entity_t) (qfis : list Z)
    (drb_identity : Z) (rx tx : bool) : outcome (nr_sdap_entity_t * list sdap_event) :=
  match n with
  | O => Ret (e, [])
  | S n =>
      qfi ← rd qfis i;
      '(e, ev) ← qfi2drb_config_one e (u8 qfi) drb_identity rx tx;
      '(e, evs) ← nr_sdap_ue_qfi2drb_config n (i + 1) e qfis drb_identity rx tx;
      Ret (e, ev ++ evs)
  end.

(** [qfi2drb_map_update] for the first [n] entries from [i] on *)
Fixpoint map_update_all (n : nat) (i : Z) (e : nr_sdap_entity_t) (qfis : list Z) (drb : Z)
    (rx tx : bool) : outcome nr_sdap_entity_t :=
  match n with
  | O => Ret e
  | S n =>
      qfi ← rd qfis i;
      e ← nr_sdap_qfi2drb_map_update e (u8 qfi) drb rx tx;
      map_update_all n (i + 1) e qfis drb rx tx
  end.

Fixpoint map_delete_all (n : nat) (i : Z) (e : nr_sdap_entity_t) (qfis : list Z)
    : outcome nr_sdap_entity_t :=
  match n with
  | O => Ret e
  | S n =>
      qfi ← rd qfis i;
      e ← nr_sdap_qfi2drb_map_del e (u8 qfi);
      map_delete_all n (i + 1) e qfis
  end.

(** ** The list of entities *)

Definition is_entity (ue_id pdusession_id : Z) (e : nr_sdap_entity_t) : bool :=
  (sdap_ue_id e =? ue_id) && (sdap_pdusession_id e =? pdusession_id).

Fixpoint nr_sdap_get_entity (l : list nr_sdap_entity_t) (ue_id pdusession_id : Z)
    : option nr_sdap_entity_t :=
  match l with
  | [] => None
  | e :: next => if is_entity ue_id pdusession_id e then Some e
                 else nr_sdap_get_entity next ue_id pdusession_id
  end.

(** the entity [nr_sdap_get_entity] finds is changed in place *)
Fixpoint put_entity (l : list nr_sdap_entity_t) (ue_id pdusession_id : Z) (e' : nr_sdap_entity_t)
    : list nr_sdap_entity_t :=
  match l with
  | [] => []
  | e :: next => if is_entity ue_id pdusession_id e then e' :: next
                 else e :: put_entity next ue_id pdusession_id e'
  end.

Definition empty_table : list qfi2drb_t := replicate 64 (mk_qfi2drb 0 false false).

(** [qfis] is the array [mapped_qfi_2_add] points to, [n] its announced count *)
Definition new_nr_sdap_entity (l : list nr_sdap_entity_t) (is_gnb rx tx : bool)
    (ue_id pdusession_id : Z) (is_defaultDRB : bool) (drb_identity : Z) (qfis : list Z) (n : nat)
    : outcome (list nr_sdap_entity_t * list sdap_event) :=
  match nr_sdap_get_entity l ue_id pdusession_id with
  | Some existing =>
      if is_gnb then Ret (l, [])
      else
        '(e, ev) ← nr_sdap_ue_qfi2drb_config n 0 existing qfis drb_identity rx tx;
        Ret (put_entity l ue_id pdusession_id e, ev)
  | None =>
      let e := mk_sdap ue_id 0 pdusession_id empty_table in
      e ← (if is_defaultDRB
           then map_update_all n 0 (e <| default_drb := drb_identity |>) qfis drb_identity rx tx
           else Ret e);
      Ret (e :: l, [])
  end.

Definition release_rule (drb : Z) (q : qfi2drb_t) : qfi2drb_t :=
  if drb_id q =? drb then q <| drb_id := SDAP_NO_MAPPING_RULE |> else q.

Definition nr_sdap_release_drb (l : list nr_sdap_entity_t) (ue_id drb pdusession_id : Z)
    : list nr_sdap_entity_t :=
  match nr_sdap_get_entity l ue_id pdusession_id with
  | Some e => put_entity l ue_id pdusession_id (e <| qfi2drb_table ::= map (release_rule drb) |>)
  | None => l
  end.

(** the walk of [nr_sdap_delete_entity] behind the head: [entityPtr] is the head
    of [cur]; [None] when the entity is not found *)
Fixpoint delete_walk (upperBound : Z) (cur : list nr_sdap_entity_t) (ue_id pdusession_id : Z)
    : option (list nr_sdap_entity_t) :=
  match cur with
  | [] => None
  | e :: next =>
      if is_entity ue_id pdusession_id e then Some next
      else if upperBound <? SDAP_MAX_NUM_OF_ENTITIES
      then rest ← delete_walk (upperBound + 1) next ue_id pdusession_id; Some (e :: rest)
      else None
  end.

Definition nr_sdap_delete_entity (l : list nr_sdap_entity_t) (ue_id pdusession_id : Z)
    : outcome (bool * list nr_sdap_entity_t) :=
  match l with
  | [] => if 0 <? pdusession_id * (pdusession_id - NGAP_MAX_PDU_SESSION) then Ret (false, [])
          else Undef                                        (* entityPtr is NULL *)
  | _ :: _ =>
      match delete_walk 0 l ue_id pdusession_id with
      | Some l' => Ret (true, l')
      | None => Ret (false, l)
      end
  end.

(** entities of the UE at the head of the list *)
Fixpoint delete_ue_head (l : list nr_sdap_entity_t) (ue_id : Z) : bool * list nr_sdap_entity_t :=
  match l with
  | e :: next => if sdap_ue_id e =? ue_id then (true, (delete_ue_head next ue_id).2) else (false, l)
  | [] => (false, [])
  end.

(** the rest of the list; the first argument of the code's loop is not of the UE *)
Fixpoint delete_ue_rest (l : list nr_sdap_entity_t) (ue_id : Z) : bool * list nr_sdap_entity_t :=
  match l with
  | [] => (false, [])
  | e :: next =>
      let '(ret, next) := delete_ue_rest next ue_id in
      if sdap_ue_id e =? ue_id then (true, next) else (ret, e :: next)
  end.

Definition nr_sdap_delete_ue_entities (l : list nr_sdap_entity_t) (ue_id : Z)
    : bool * list nr_sdap_entity_t :=
  let '(ret1, l) := delete_ue_head l ue_id in
  let '(ret2, l) := delete_ue_rest l ue_id in
  (ret1 || ret2, l).

(** [(NR_QFI_t * )list.array[0]], the object the first pointer points to, and the
    count, cut to [uint8_t] *)
Definition first_object (l : option (list Z)) : outcome (list Z * nat) :=
  match l with
  | None | Some [] => Undef                                 (* NULL *)
  | Some (qfi :: qfis) => Ret ([qfi], Z.to_nat (u8 (zlen (qfi :: qfis))))
  end.

Definition nr_reconfigure_sdap_entity (l : list nr_sdap_entity_t) (c : NR_SDAP_Config_t)
    (ue_id pdusession_id drb : Z) : outcome (list nr_sdap_entity_t * list sdap_event) :=
  match nr_sdap_get_entity l ue_id pdusession_id with
  | None => Ret (l, [])
  | Some e =>
      '(qfis, n) ← first_object (mappedQoS_FlowsToAdd c);
      '(e, ev) ← nr_sdap_ue_qfi2drb_config n 0 e qfis (u8 drb) (is_sdap_rx false c) (is_sdap_tx false c);
      e ← match mappedQoS_FlowsToRelease c with
          | None => Ret e
          | Some _ =>
              '(qfis, n) ← first_object (mappedQoS_FlowsToRelease c);
              map_delete_all n 0 e qfis
          end;
      Ret (put_entity l ue_id pdusession_id e, ev)
  end.

(** ** The interface to the layers around: nr_sdap.c *)

Definition sdap_data_req (pdcp_accepts : Z -> list Z -> bool) (l : list nr_sdap_entity_t)
    (ue_id : Z) (is_gnb : bool) (rb_id : Z) (sdu : list Z) (qfi : Z) (rqi : bool) (pdusession_id : Z)
    : outcome (bool * list nr_sdap_entity_t * list sdap_event) :=
  match nr_sdap_get_entity l ue_id pdusession_id with
  | None => Ret (false, l, [])
  | Some e =>
      '(ret, e, ev) ← nr_sdap_tx_entity pdcp_accepts e is_gnb rb_id sdu qfi rqi;
      Ret (ret, put_entity l ue_id pdusession_id e, ev)
  end.

Definition sdap_data_ind (l : list nr_sdap_entity_t) (pdcp_entity : Z) (is_gnb with_header : bool)
    (pdusession_id ue_id : Z) (buf : list Z) : outcome (list nr_sdap_entity_t * list sdap_event) :=
  match nr_sdap_get_entity l ue_id pdusession_id with
  | None => Ret (l, [])
  | Some e =>
      '(e, ev) ← nr_sdap_rx_entity e pdcp_entity is_gnb with_header pdusession_id ue_id buf;
      Ret (put_entity l ue_id pdusession_id e, ev)
  end.
