(* ===== verification/SdapSpec.v ===== *)
(** SDAP: headers are transparent, the mapping of QoS flows to bearers stays
    within its table, and the list of entities is a finite map from UE and PDU
    session to entity. *)

From stdpp Require Import base tactics list numbers gmap.
From Stdlib Require Import ZArith Lia.
From S2P Require Import Prelude Sdap.

(** ** The table of rules *)

(** the bearers a configured rule may name: [nr_sdap_qfi2drb_map_update] checks them *)
Definition bearer (d : Z) : Prop := 0 <= d <= AVLBL_DRB.

(** a table of 64 rows whose bearers, and the default bearer, are among [Bs] *)
Record sdap_rules (Bs : Z -> Prop) (e : nr_sdap_entity_t) : Prop := mk_sdap_ok {
  so_length : length (qfi2drb_table e) = 64%nat;
  so_default : Bs (default_drb e);
  so_rules : Forall (fun q => Bs (drb_id q)) (qfi2drb_table e)
}.
Arguments so_length {Bs e} _.
Arguments so_default {Bs e} _.
Arguments so_rules {Bs e} _.

Abbreviation sdap_ok := (sdap_rules bearer).

(** sets of bearers that hold those of the configuration *)
Class Bearers (Bs : Z -> Prop) : Prop := bearers_configured d : bearer d -> Bs d.

#[export] Instance Bearers_bearer : Bearers bearer := fun _ H => H.
#[export] Instance Bearers_any : Bearers (fun _ => True) := fun _ _ => I.

Lemma bearer_0 : bearer 0.
Proof. unfold bearer, AVLBL_DRB. lia. Qed.

(** the entity is the same for the list of entities *)
Definition same_key (e e' : nr_sdap_entity_t) : Prop :=
  sdap_ue_id e' = sdap_ue_id e /\ sdap_pdusession_id e' = sdap_pdusession_id e.

Definition keeps_in (Bs : Z -> Prop) (e e' : nr_sdap_entity_t) : Prop :=
  sdap_rules Bs e' /\ same_key e e'.

Abbreviation keeps := (keeps_in bearer).

Section rules.
Context {Bs : Z -> Prop} `{!Bearers Bs}.
Implicit Types e : nr_sdap_entity_t.

Lemma keeps_refl e : sdap_rules Bs e -> keeps_in Bs e e.
Proof. done. Qed.

Lemma keeps_trans e1 e2 e3 : keeps_in Bs e1 e2 -> keeps_in Bs e2 e3 -> keeps_in Bs e1 e3.
Proof. unfold keeps_in, same_key. intuition congruence. Qed.

Lemma rule_at_ok e qfi :
  sdap_rules Bs e -> 0 <= qfi < SDAP_MAX_QFI ->
  exists q, rule_at e qfi = Ret q /\ qfi2drb_table e !! Z.to_nat qfi = Some q /\ Bs (drb_id q).
Proof.
  intros [Hl _ Hr] Hq. unfold rule_at. rewrite (proj2 (Z.ltb_ge _ _)) by lia.
  destruct (lookup_lt_is_Some_2 (qfi2drb_table e) (Z.to_nat qfi)) as [q Hx];
    [rewrite Hl; unfold SDAP_MAX_QFI in *; lia|].
  rewrite Hx. exists q. split_and!; [done|done|]. rewrite list.Forall_lookup in Hr. apply (Hr _ _ Hx).
Qed.

Lemma set_rule_ok e qfi q :
  sdap_rules Bs e -> 0 <= qfi < SDAP_MAX_QFI -> Bs (drb_id q) ->
  set_rule e qfi q = Ret (e <| qfi2drb_table ::= <[Z.to_nat qfi := q]> |>) /\
  keeps_in Bs e (e <| qfi2drb_table ::= <[Z.to_nat qfi := q]> |>).
Proof.
  intros Hok Hq Hd. destruct (rule_at_ok e qfi Hok Hq) as (q0 & E & _). unfold set_rule. rewrite E.
  split; [done|]. split; [|done]. destruct Hok as [Hl Hdef Hr]. constructor; [|done|]; simpl.
  - by rewrite length_insert.
  - by apply Forall_insert.
Qed.

(** reading a rule after one has been changed *)
Lemma rule_after e qfi q qfi' :
  sdap_rules Bs e -> 0 <= qfi < SDAP_MAX_QFI -> 0 <= qfi' < SDAP_MAX_QFI ->
  rule_at (e <| qfi2drb_table ::= <[Z.to_nat qfi := q]> |>) qfi' = if qfi =? qfi' then Ret q else rule_at e qfi'.
Proof.
  intros Hok Hq Hq'. unfold rule_at. rewrite (proj2 (Z.ltb_ge _ _)) by lia. simpl.
  destruct (Z.eqb_spec qfi qfi') as [->|Hne].
  - rewrite list_lookup_insert_eq; [done|]. rewrite (so_length Hok). unfold SDAP_MAX_QFI in *. lia.
  - rewrite list_lookup_insert_ne by lia. done.
Qed.

Lemma map_update_keeps e qfi drb rx tx :
  sdap_rules Bs e -> returns (nr_sdap_qfi2drb_map_update e qfi drb rx tx) (keeps_in Bs e).
Proof.
  intros Hok. unfold nr_sdap_qfi2drb_map_update.
  destruct (_ && _) eqn:E; [|apply returns_Ret; by apply keeps_refl].
  rewrite !andb_true_iff, !Z.ltb_lt, Z.leb_le in E. destruct E as [[[E1 E2] E3] E4].
  destruct (set_rule_ok e qfi (mk_qfi2drb drb rx tx) Hok) as [-> Hk];
    [lia|apply bearers_configured; split; simpl; lia|by apply returns_Ret].
Qed.

(** the DRB of a flow and the entity afterwards: from then on the rule is fixed *)
Lemma map_ok e qfi :
  sdap_rules Bs e -> 0 <= qfi < SDAP_MAX_QFI ->
  returns (nr_sdap_qfi2drb_map e qfi) (fun '(drb, e') => keeps_in Bs e e' /\ Bs drb).
Proof.
  intros Hok Hq. unfold nr_sdap_qfi2drb_map. destruct (rule_at_ok e qfi Hok Hq) as (q & -> & _ & Hd).
  rewrite bind_Ret_l. destruct (negb (drb_id q =? 0)); [apply returns_Ret; by split; [apply keeps_refl|]|].
  destruct (negb (default_drb e =? 0)).
  - eapply returns_seq; [by apply map_update_keeps|]. intros e' Hk. apply returns_Ret.
    split; [done|]. apply Hk.
  - apply returns_Ret. split; [by apply keeps_refl|apply bearers_configured, bearer_0].
Qed.

Lemma end_marker_ok e m qfi :
  sdap_rules Bs e -> 0 <= qfi < SDAP_MAX_QFI -> returns (send_end_marker e m qfi) (fun '(e', _) => keeps_in Bs e e').
Proof.
  intros Hok Hq. unfold send_end_marker, nr_sdap_map_ctrl_pdu. destruct m.
  - rewrite bind_Ret_l. apply returns_Ret. by apply keeps_refl.
  - eapply returns_seq; [by apply map_ok|]. intros [drb e'] [Hk _]. by apply returns_Ret.
Qed.

Lemma map_del_ok e qfi :
  sdap_rules Bs e -> 0 <= qfi < SDAP_MAX_QFI -> returns (nr_sdap_qfi2drb_map_del e qfi) (keeps_in Bs e).
Proof.
  intros Hok Hq. unfold nr_sdap_qfi2drb_map_del. destruct (rule_at_ok e qfi Hok Hq) as (q & -> & _).
  rewrite bind_Ret_l. destruct (set_rule_ok e qfi (q <| drb_id := SDAP_NO_MAPPING_RULE |>) Hok Hq) as [-> Hk];
    [apply bearers_configured, bearer_0|by apply returns_Ret].
Qed.

Lemma optional_marker (b : bool) e m qfi :
  sdap_rules Bs e -> 0 <= qfi < SDAP_MAX_QFI ->
  returns (if b then send_end_marker e m qfi else Ret (e, [])) (fun '(e', _) => keeps_in Bs e e').
Proof.
  intros Hok Hq. destruct b; [by apply end_marker_ok|apply returns_Ret; by apply keeps_refl].
Qed.

Lemma config_one_ok e qfi drb rx tx :
  sdap_rules Bs e -> 0 <= qfi < SDAP_MAX_QFI ->
  returns (qfi2drb_config_one e qfi drb rx tx) (fun '(e', _) => keeps_in Bs e e').
Proof.
  intros Hok Hq. unfold qfi2drb_config_one. destruct (rule_at_ok e qfi Hok Hq) as (q & Hr & _).
  eapply (returns_seq _ _ (fun '(e', _) => keeps_in Bs e e')).
  { destruct (negb (default_drb e =? 0)); [|apply returns_Ret; by apply keeps_refl].
    rewrite Hr, bind_Ret_l. by apply (optional_marker (drb_id q =? SDAP_NO_MAPPING_RULE)). }
  intros [e1 ev1] Hk1. destruct (rule_at_ok e1 qfi (proj1 Hk1) Hq) as (q1 & -> & _). rewrite bind_Ret_l.
  eapply returns_seq; [apply (optional_marker _ e1 _ qfi (proj1 Hk1) Hq)|]. intros [e2 ev2] Hk2.
  eapply returns_seq; [apply (map_update_keeps e2), (proj1 Hk2)|]. intros e3 Hk3. apply returns_Ret.
  eauto using keeps_trans.
Qed.

(** the [n] flows are those of the array RRC gives, all below SDAP_MAX_QFI *)
Definition qfis_ok (qfis : list Z) (n : nat) : Prop :=
  (n <= length qfis)%nat /\ Forall (fun qfi => u8 qfi < SDAP_MAX_QFI) (take n qfis).

Lemma rd_qfi qfis i n :
  qfis_ok qfis n -> 0 <= i < Z.of_nat n -> exists qfi, rd qfis i = Ret qfi /\ 0 <= u8 qfi < SDAP_MAX_QFI.
Proof.
  intros [Hl Hf] Hi. destruct (lookup_lt_is_Some_2 qfis (Z.to_nat i)) as [q Hq]; [lia|].
  exists q. unfold rd. rewrite (proj2 (Z.ltb_ge _ _)), Hq by lia. split; [done|].
  split; [apply Z.mod_pos_bound; lia|]. rewrite list.Forall_lookup in Hf. apply (Hf (Z.to_nat i)).
  by rewrite lookup_take_lt by lia.
Qed.

Lemma config_ok qfis drb rx tx m : forall n i e,
  qfis_ok qfis m -> 0 <= i -> i + Z.of_nat n <= Z.of_nat m -> sdap_rules Bs e ->
  returns (nr_sdap_ue_qfi2drb_config n i e qfis drb rx tx) (fun '(e', _) => keeps_in Bs e e').
Proof.
  induction n as [|n IH]; intros i e Hf Hi Hn Hok; simpl; [apply returns_Ret; by apply keeps_refl|].
  destruct (rd_qfi qfis i m Hf ltac:(lia)) as (qfi & -> & Hq). rewrite bind_Ret_l.
  eapply returns_seq; [by apply config_one_ok|]. intros [e1 ev] Hk1.
  eapply returns_seq; [apply (IH (i + 1) e1); [done|lia|lia|apply Hk1]|]. intros [e2 evs] Hk2.
  apply returns_Ret. eauto using keeps_trans.
Qed.

Lemma update_all_ok qfis drb rx tx : forall n i e,
  0 <= i -> i + Z.of_nat n <= zlen qfis -> sdap_rules Bs e ->
  returns (map_update_all n i e qfis drb rx tx) (keeps_in Bs e).
Proof.
  induction n as [|n IH]; intros i e Hi Hn Hok; simpl; [apply returns_Ret; by apply keeps_refl|].
  destruct (lookup_lt_is_Some_2 qfis (Z.to_nat i)) as [qfi Hq]; [unfold zlen in Hn; lia|].
  unfold rd. rewrite (proj2 (Z.ltb_ge _ _)), Hq, bind_Ret_l by lia.
  eapply returns_seq; [by apply map_update_keeps|]. intros e1 Hk1.
  eapply returns_mono; [apply (IH (i + 1) e1); [lia|lia|apply Hk1]|]. intros e2 Hk2. eauto using keeps_trans.
Qed.

Lemma delete_all_ok qfis m : forall n i e,
  qfis_ok qfis m -> 0 <= i -> i + Z.of_nat n <= Z.of_nat m -> sdap_rules Bs e ->
  returns (map_delete_all n i e qfis) (keeps_in Bs e).
Proof.
  induction n as [|n IH]; intros i e Hf Hi Hn Hok; simpl; [apply returns_Ret; by apply keeps_refl|].
  destruct (rd_qfi qfis i m Hf ltac:(lia)) as (qfi & -> & Hq). rewrite bind_Ret_l.
  eapply returns_seq; [by apply map_del_ok|]. intros e1 Hk1.
  eapply returns_mono; [apply (IH (i + 1) e1); [done|lia|lia|apply Hk1]|]. intros e2 Hk2. eauto using keeps_trans.
Qed.

(** ** Reflective mapping *)

Lemma reflective_ok e drb qfi :
  sdap_rules Bs e -> 0 <= qfi < SDAP_MAX_QFI -> Bs drb ->
  returns (reflective_mapping e drb qfi) (fun '(e', _) => keeps_in Bs e e' /\
    exists q, rule_at e' qfi = Ret q /\ drb_id q = drb).
Proof.
  intros Hok Hq Hd. unfold reflective_mapping. destruct (rule_at_ok e qfi Hok Hq) as (q & -> & _).
  rewrite bind_Ret_l. eapply returns_seq; [by apply optional_marker|]. intros [e1 ev1] Hk1.
  destruct (rule_at_ok e1 qfi (proj1 Hk1) Hq) as (q1 & -> & _). rewrite bind_Ret_l.
  eapply returns_seq; [apply (optional_marker _ e1 _ qfi (proj1 Hk1) Hq)|]. intros [e2 ev2] Hk2.
  destruct (rule_at_ok e2 qfi (proj1 Hk2) Hq) as (q2 & -> & _). rewrite bind_Ret_l.
  destruct (set_rule_ok e2 qfi (q2 <| drb_id := drb |>) (proj1 Hk2) Hq) as [-> Hk3]; [done|].
  apply returns_Ret. split; [eauto using keeps_trans|]. eexists.
  rewrite (rule_after e2) by (done || apply Hk2). by rewrite Z.eqb_refl.
Qed.

End rules.

(** ** Headers *)

Lemma hdr_fields qfi b c :
  0 <= qfi < 64 -> (b = 0 \/ b = 1) -> (c = 0 \/ c = 1) ->
  let byte := qfi + 64 * b + 128 * c in
  Z.land byte 63 = qfi /\ Z.land (Z.shiftr byte 6) 1 = b /\ Z.land (Z.shiftr byte 7) 1 = c.
Proof.
  intros Hq Hb Hc byte. change 63 with (Z.ones 6). change 1 with (Z.ones 1).
  rewrite !Z.land_ones, !Z.shiftr_div_pow2 by lia. subst byte.
  change (2 ^ 6) with 64. change (2 ^ 7) with 128. change (2 ^ 1) with 2.
  destruct Hb as [-> | ->], Hc as [-> | ->]; Z.to_euclidean_division_equations; lia.
Qed.

Lemma land_63 qfi : 0 <= qfi < SDAP_MAX_QFI -> Z.land qfi 63 = qfi.
Proof.
  intros H. change 63 with (Z.ones 6). rewrite Z.land_ones by lia. apply Z.mod_small. exact H.
Qed.

Lemma b2z_01 (b : bool) : Z.b2z b = 0 \/ Z.b2z b = 1.
Proof. destruct b; auto. Qed.

(** a DL PDU as the gNB builds it leaves the UE's rules alone *)
Lemma dl_hdr_roundtrip qfi rqi :
  0 <= qfi < SDAP_MAX_QFI ->
  dl_hdr_of (dl_hdr_byte (mk_dl_hdr (Z.land qfi 63) (Z.b2z rqi) 0)) = mk_dl_hdr qfi (Z.b2z rqi) 0.
Proof.
  intros Hq. unfold dl_hdr_of, dl_hdr_byte. cbn [dl_QFI RQI RDI]. rewrite (land_63 qfi) by done.
  destruct (hdr_fields qfi (Z.b2z rqi) 0 Hq (b2z_01 rqi) (or_introl eq_refl)) as (E1 & E2 & E3).
  by rewrite E1, E2, E3.
Qed.

(** ** The layers above and below see the SDU unchanged *)

(** the bearer a flow is sent on, and whether PDUs have a header there *)
Lemma tx_bearer {Bs} `{!Bearers Bs} e qfi :
  sdap_rules Bs e -> 0 <= qfi < SDAP_MAX_QFI ->
  returns (nr_sdap_qfi2drb_map e qfi) (fun '(drb, e') => keeps_in Bs e e' /\
    exists q', rule_at e' qfi = Ret q').
Proof.
  intros Hok Hq. eapply returns_mono; [by apply map_ok|]. intros [drb e'] [Hk _]. split; [done|].
  destruct (rule_at_ok e' qfi (proj1 Hk) Hq) as (q' & Hr & _). by exists q'.
Qed.

(** a PDU without header *)
Lemma rx_plain e drb gnb ps ue sdu :
  nr_sdap_rx_entity e drb gnb false ps ue sdu =
  Ret (e, [if gnb then GtpSend ue ps sdu else NasWrite sdu]).
Proof.
  assert (Hm : mem_read sdu 0 (zlen sdu - 0) = Ret sdu).
  { pose proof (zlen_nonneg sdu). rewrite mem_read_ok by lia. rewrite Z.sub_0_r, to_nat_zlen.
    cbn [drop Z.to_nat]. by rewrite firstn_all. }
  unfold nr_sdap_rx_entity. destruct gnb; by rewrite bind_Ret_l, Hm.
Qed.

Lemma read_after_header b (sdu : list Z) : mem_read (b :: sdu) 1 (zlen (b :: sdu) - 1) = Ret sdu.
Proof.
  rewrite mem_read_ok by (rewrite ?zlen_cons; pose proof (zlen_nonneg sdu); lia).
  rewrite zlen_cons. replace (1 + zlen sdu - 1) with (zlen sdu) by lia.
  change (Z.to_nat 1) with 1%nat. cbn [drop]. by rewrite to_nat_zlen, firstn_all.
Qed.

(** the PDU [nr_sdap_tx_entity] builds *)
Definition sdap_pdu (gnb hdr : bool) (qfi : Z) (rqi : bool) (sdu : list Z) : list Z :=
  if hdr then
    (if gnb then dl_hdr_byte (mk_dl_hdr (Z.land qfi 63) (Z.b2z rqi) 0)
     else ul_hdr_byte (mk_ul_hdr (Z.land qfi 63) 0 (Z.b2z rqi))) :: sdu
  else sdu.

Lemma sdap_pdu_length gnb hdr qfi rqi sdu : zlen (sdap_pdu gnb hdr qfi rqi sdu) = zlen sdu + Z.b2z hdr.
Proof. destruct hdr; simpl; [rewrite zlen_cons|]; lia. Qed.

(** the peer finds the SDU in it *)
Lemma rx_sdap_pdu rx drb gnb hdr qfi rqi ps ue sdu : 0 <= qfi < SDAP_MAX_QFI ->
  nr_sdap_rx_entity rx drb (negb gnb) hdr ps ue (sdap_pdu gnb hdr qfi rqi sdu) =
  Ret (rx, [if gnb then NasWrite sdu else GtpSend ue ps sdu]).
Proof.
  intros Hq. destruct hdr; simpl sdap_pdu; [|rewrite rx_plain; by destruct gnb].
  unfold nr_sdap_rx_entity. destruct gnb; cbn [negb]; rewrite rd_0, !bind_Ret_l.
  - rewrite dl_hdr_roundtrip by done. cbn [RDI Z.eqb Pos.eqb SDAP_REFLECTIVE_MAPPING].
    rewrite !bind_Ret_l. unfold SDAP_HDR_LENGTH. by rewrite read_after_header.
  - unfold SDAP_HDR_LENGTH. by rewrite read_after_header.
Qed.

(** both directions keep the table, for SDUs and PDUs of any content *)
Lemma tx_ok {Bs} `{!Bearers Bs} acc e gnb rb sdu qfi rqi :
  sdap_rules Bs e -> 0 <= qfi < SDAP_MAX_QFI ->
  returns (nr_sdap_tx_entity acc e gnb rb sdu qfi rqi) (fun '(_, e', _) => keeps_in Bs e e').
Proof.
  intros Hok Hq. unfold nr_sdap_tx_entity. eapply returns_seq; [apply (tx_bearer e qfi Hok Hq)|].
  intros [drb e'] (Hk & q' & Hr). eapply (returns_seq _ _ (fun _ => True)).
  { destruct (negb (drb =? 0)); [rewrite Hr, bind_Ret_l|]; by apply returns_Ret. }
  intros [d hdr] _. destruct hdr; simpl negb; cbv iota; [destruct (_ || _)|]; by apply returns_Ret.
Qed.

Lemma rx_ok {Bs} `{!Bearers Bs} e drb gnb hdr ps ue buf :
  sdap_rules Bs e -> Bs drb -> (hdr = true -> buf <> []) ->
  returns (nr_sdap_rx_entity e drb gnb hdr ps ue buf) (fun '(e', _) => keeps_in Bs e e').
Proof.
  intros Hok Hd Hb. destruct hdr; [|rewrite rx_plain; apply returns_Ret; by apply keeps_refl].
  destruct buf as [|b sdu]; [by destruct (Hb eq_refl)|]. unfold nr_sdap_rx_entity. rewrite rd_0.
  destruct gnb; rewrite !bind_Ret_l.
  - unfold SDAP_HDR_LENGTH. rewrite read_after_header. apply returns_Ret. by apply keeps_refl.
  - eapply (returns_seq _ _ (fun '(e', _, o) => keeps_in Bs e e' /\ o = 1)).
    + eapply (returns_seq _ _ (fun '(e', _) => keeps_in Bs e e')).
      * destruct (_ =? _); [|apply returns_Ret; by apply keeps_refl].
        eapply returns_mono; [apply (reflective_ok e drb); [done| |done]|]; [|by intros [e' ev] [Hk _]].
        unfold dl_hdr_of. cbn [dl_QFI]. change 63 with (Z.ones 6). rewrite Z.land_ones by lia.
        exact (Z.mod_pos_bound b 64 eq_refl).
      * intros [e' ev] Hk. by apply returns_Ret.
    + intros [[e' ev] o] [Hk ->]. rewrite read_after_header. by apply returns_Ret.
Qed.


(** ** Reflective mapping decides the uplink bearer *)

(** only the rule of [qfi] has changed *)
Definition other_rules_kept (qfi : Z) (e e' : nr_sdap_entity_t) : Prop :=
  forall q', 0 <= q' < SDAP_MAX_QFI -> q' <> qfi -> rule_at e' q' = rule_at e q'.

Lemma marker_others (b : bool) e m qfi e' ev :
  sdap_ok e -> 0 <= qfi < SDAP_MAX_QFI ->
  (if b then send_end_marker e m qfi else Ret (e, [])) = Ret (e', ev) -> other_rules_kept qfi e e'.
Proof.
  intros Hok Hq H q' Hq' Hne. destruct b; [|by injection H as <- _].
  unfold send_end_marker, nr_sdap_map_ctrl_pdu in H. destruct m; [by injection H as <- _|].
  unfold nr_sdap_qfi2drb_map in H. destruct (rule_at_ok e qfi Hok Hq) as (q & Hr & _).
  rewrite Hr, bind_Ret_l in H. destruct (negb (drb_id q =? 0)); [by injection H as <- _|].
  destruct (negb (default_drb e =? 0)); [|by injection H as <- _]. unfold nr_sdap_qfi2drb_map_update in H.
  destruct (_ && _); [|by injection H as <- _].
  pose proof (so_default Hok).
  destruct (set_rule_ok e qfi (mk_qfi2drb (default_drb e) (has_sdap_rx q) (has_sdap_tx q)) Hok Hq) as [Es _]; [done|].
  rewrite Es in H. injection H as <- _. rewrite rule_after by done. by rewrite (proj2 (Z.eqb_neq _ _)) by lia.
Qed.

Lemma reflective_others e drb qfi e' ev :
  sdap_ok e -> 0 <= qfi < SDAP_MAX_QFI -> 0 <= drb <= AVLBL_DRB ->
  reflective_mapping e drb qfi = Ret (e', ev) -> other_rules_kept qfi e e'.
Proof.
  intros Hok Hq Hd. unfold reflective_mapping. destruct (rule_at_ok e qfi Hok Hq) as (q & -> & _).
  rewrite bind_Ret_l. intros H. inv_bind H. destruct v as [e1 ev1].
  pose proof (marker_others _ _ _ _ _ _ Hok Hq Hv) as H1.
  pose proof (returns_Ret_inv _ _ _ Hv (optional_marker _ e _ qfi Hok Hq)) as [Hok1 _].
  destruct (rule_at_ok e1 qfi Hok1 Hq) as (q1 & Hr1 & _). rewrite Hr1, bind_Ret_l in H.
  inv_bind H. destruct v as [e2 ev2]. pose proof (marker_others _ _ _ _ _ _ Hok1 Hq Hv0) as H2.
  pose proof (returns_Ret_inv _ _ _ Hv0 (optional_marker _ e1 _ qfi Hok1 Hq)) as [Hok2 _].
  destruct (rule_at_ok e2 qfi Hok2 Hq) as (q2 & Hr2 & _). rewrite Hr2, bind_Ret_l in H.
  destruct (set_rule_ok e2 qfi (q2 <| drb_id := drb |>) Hok2 Hq) as [Es _]; [done|].
  rewrite Es, bind_Ret_l in H. injection H as <- _. intros q' Hq' Hne.
  rewrite rule_after by done. rewrite (proj2 (Z.eqb_neq _ _)) by lia. by rewrite H2, H1.
Qed.

(** a downlink PDU that asks for reflective mapping makes the UE send the
    flow's uplink SDUs on the bearer the PDU came on, and changes the bearer of no
    other flow; the SDU itself is handed up unchanged. *)
Theorem sdap_reflective_rule e drb qfi rqi ps ue sdu acc rb sdu' rqi' :
  sdap_ok e -> 0 <= qfi < SDAP_MAX_QFI -> 0 < drb <= AVLBL_DRB ->
  let pdu := dl_hdr_byte (mk_dl_hdr qfi (Z.b2z rqi) 1) :: sdu in
  returns (nr_sdap_rx_entity e drb false true ps ue pdu) (fun '(e', ev) =>
    sdap_ok e' /\ other_rules_kept qfi e e' /\ last ev = Some (NasWrite sdu) /\
    (0 < zlen sdu' < 9000 ->
     returns (nr_sdap_tx_entity acc e' false rb sdu' qfi rqi') (fun '(_, e2, evs) =>
       e2 = e' /\ exists pdu', evs = [PdcpDataReq drb pdu']))).
Proof.
  intros Hok Hq Hd pdu. unfold nr_sdap_rx_entity, pdu. rewrite rd_0, bind_Ret_l.
  destruct (hdr_fields qfi (Z.b2z rqi) 1 Hq (b2z_01 rqi) (or_intror eq_refl)) as (E1 & E2 & E3).
  unfold dl_hdr_of, dl_hdr_byte. cbn [dl_QFI RQI RDI]. rewrite E1, E3. cbn [Z.eqb Pos.eqb SDAP_REFLECTIVE_MAPPING].
  destruct (reflective_ok e drb qfi Hok Hq ltac:(split; lia)) as ([e' ev] & Hr & [Hok' _] & q & Hrule & Hdrb).
  rewrite Hr, !bind_Ret_l. unfold SDAP_HDR_LENGTH. rewrite read_after_header, bind_Ret_l. apply returns_Ret.
  split; [done|]. split; [by eapply reflective_others; [..|exact Hr]; try done; lia|].
  split; [apply last_snoc|]. intros Hs. unfold nr_sdap_tx_entity, nr_sdap_qfi2drb_map. rewrite Hrule, bind_Ret_l.
  rewrite (proj2 (Z.eqb_neq (drb_id q) 0)) by lia. cbn [negb]. rewrite bind_Ret_l.
  rewrite (proj2 (Z.eqb_neq (drb_id q) 0)) by lia. cbn [negb]. rewrite Hrule, !bind_Ret_l, Hdrb.
  destruct (has_sdap_tx q); cbn [negb]; [|apply returns_Ret; eauto].
  rewrite (proj2 (Z.eqb_neq _ _)), (proj2 (Z.ltb_ge _ _)) by lia. apply returns_Ret. eauto.
Qed.

(** ** Error paths *)

(** With a default bearer configured, a reflective-mapping PDU for a flow
    without rule makes the UE send the same end marker twice on the default
    bearer, where 37.324 5.3.2 asks for one. *)
Lemma sdap_reflective_two_markers e drb qfi q :
  sdap_ok e -> 0 < qfi < SDAP_MAX_QFI -> 0 < drb <= AVLBL_DRB -> default_drb e <> 0 ->
  rule_at e qfi = Ret q -> drb_id q = SDAP_NO_MAPPING_RULE ->
  let marker := PdcpDataReq (default_drb e) [ul_hdr_byte (nr_sdap_construct_ctrl_pdu qfi)] in
  returns (reflective_mapping e drb qfi) (fun '(_, ev) => ev = [marker; marker]).
Proof.
  intros Hok Hq Hd Hdef Hr H0 marker. unfold reflective_mapping, SDAP_NO_MAPPING_RULE in *.
  rewrite Hr, bind_Ret_l, H0. rewrite (proj2 (Z.eqb_neq (default_drb e) 0)) by done. cbn [Z.eqb negb andb].
  unfold send_end_marker. cbn [nr_sdap_map_ctrl_pdu]. rewrite !bind_Ret_l, Hr, bind_Ret_l, H0.
  rewrite (proj2 (Z.eqb_neq drb 0)) by lia. cbn [negb]. unfold nr_sdap_qfi2drb_map. rewrite Hr, bind_Ret_l, H0. cbn [Z.eqb negb].
  rewrite (proj2 (Z.eqb_neq (default_drb e) 0)) by done. cbn [negb].
  pose proof (so_default Hok : 0 <= default_drb e <= AVLBL_DRB) as Hdr. unfold nr_sdap_qfi2drb_map_update.
  rewrite (proj2 (Z.ltb_lt qfi _)), (proj2 (Z.ltb_lt 0 qfi)), (proj2 (Z.ltb_lt 0 (default_drb e))),
    (proj2 (Z.leb_le (default_drb e) _)) by lia. cbn [andb].
  destruct (set_rule_ok e qfi (mk_qfi2drb (default_drb e) (has_sdap_rx q) (has_sdap_tx q)) Hok ltac:(lia))
    as [-> Hk]; [done|]. rewrite !bind_Ret_l.
  destruct (rule_at_ok _ qfi (proj1 Hk) ltac:(lia)) as (q2 & -> & _). rewrite bind_Ret_l.
  destruct (set_rule_ok _ qfi (q2 <| drb_id := drb |>) (proj1 Hk) ltac:(lia)) as [-> _]; [split; simpl; lia|].
  rewrite bind_Ret_l. apply returns_Ret. unfold nr_sdap_submit_ctrl_pdu. cbn [default_drb set].
  by rewrite (proj2 (Z.eqb_neq (default_drb e) 0)).
Qed.

(** ** Examples *)

(** a UE entity with default bearer 1 and flow 5 on bearer 2, with headers *)
Definition demo_ue : nr_sdap_entity_t :=
  mk_sdap 17 1 3 (<[5%nat := mk_qfi2drb 2 true true]> empty_table).

Definition demo_gnb : nr_sdap_entity_t :=
  mk_sdap 17 1 3 (<[5%nat := mk_qfi2drb 1 true true]> empty_table).

Lemma demo_ue_ok : sdap_ok demo_ue.
Proof.
  constructor; [done|vm_compute; split; congruence|].
  apply (bool_decide_unpack (Forall (fun q => 0 <= drb_id q <= AVLBL_DRB) _)). by vm_compute.
Qed.

Lemma demo_gnb_ok : sdap_ok demo_gnb.
Proof.
  constructor; [done|vm_compute; split; congruence|].
  apply (bool_decide_unpack (Forall (fun q => 0 <= drb_id q <= AVLBL_DRB) _)). by vm_compute.
Qed.


Lemma sdap_reflective_rule_witness :
  returns (nr_sdap_rx_entity demo_ue 4 false true 3 17 (dl_hdr_byte (mk_dl_hdr 5 0 1) :: [1; 2]))
    (fun '(e', ev) =>
      sdap_ok e' /\ other_rules_kept 5 demo_ue e' /\ last ev = Some (NasWrite [1; 2]) /\
      (0 < zlen [6] < 9000 ->
       returns (nr_sdap_tx_entity (fun _ _ => true) e' false 1 [6] 5 true) (fun '(_, e2, evs) =>
         e2 = e' /\ exists pdu', evs = [PdcpDataReq 4 pdu']))).
Proof.
  apply (sdap_reflective_rule demo_ue 4 5 false 3 17 [1; 2] (fun _ _ => true) 1 [6] true);
    [exact demo_ue_ok|vm_compute; split; congruence|vm_compute; split; congruence].
Defined.

Lemma sdap_reflective_two_markers_witness :
  returns (reflective_mapping demo_ue 2 9) (fun '(_, ev) =>
    ev = [PdcpDataReq 1 [9]; PdcpDataReq 1 [9]]).
Proof.
  apply (sdap_reflective_two_markers demo_ue 2 9 (mk_qfi2drb 0 false false));
    [exact demo_ue_ok|vm_compute; split; congruence|vm_compute; split; congruence|vm_compute; congruence
    |reflexivity|reflexivity].
Defined.
