(* ===== verification/SdapList.v ===== *)
(** The list of SDAP entities refines a finite map from UE and PDU session to
    entity, over every sequence of calls of RRC, PDCP and GTP-U; the calls with
    undefined behaviour are exactly those of [sdap_undefined]. *)

From stdpp Require Import base tactics list numbers gmap.
From Stdlib Require Import ZArith Lia.
From S2P Require Import Prelude Sdap SdapSpec.

Abbreviation sdap_key := (Z * Z)%type.

Definition key_of (e : nr_sdap_entity_t) : sdap_key := (sdap_ue_id e, sdap_pdusession_id e).

(** the abstract state *)
Definition abs (l : list nr_sdap_entity_t) : gmap sdap_key nr_sdap_entity_t :=
  list_to_map (map (fun e => (key_of e, e)) l).

(** unique keys, tables of 64 rows, bearers among [Bs] *)
Record list_ok (Bs : Z -> Prop) (l : list nr_sdap_entity_t) : Prop := mk_list_ok {
  lo_keys : NoDup (map key_of l);
  lo_entities : Forall (sdap_rules Bs) l
}.
Arguments lo_keys {Bs l} _.

Lemma is_entity_key ue ps e : is_entity ue ps e = bool_decide (key_of e = (ue, ps)).
Proof.
  unfold is_entity, key_of.
  destruct (Z.eqb_spec (sdap_ue_id e) ue), (Z.eqb_spec (sdap_pdusession_id e) ps); simpl;
    symmetry; [apply bool_decide_eq_true|apply bool_decide_eq_false..]; congruence.
Qed.

Lemma abs_cons e l : abs (e :: l) = <[key_of e := e]> (abs l).
Proof. done. Qed.

Lemma get_abs l ue ps : nr_sdap_get_entity l ue ps = abs l !! (ue, ps).
Proof.
  induction l as [|e l IH]; [done|]. simpl nr_sdap_get_entity. rewrite abs_cons, is_entity_key.
  case_bool_decide as E.
  - by rewrite E, lookup_insert_eq.
  - by rewrite lookup_insert_ne by congruence.
Qed.

Lemma abs_none l k : k ∉ map key_of l -> abs l !! k = None.
Proof.
  intros Hk. apply not_elem_of_list_to_map_1.
  change (map (fun e => (key_of e, e)) l) with ((fun e => (key_of e, e)) <$> l).
  rewrite <- list_fmap_compose. exact Hk.
Qed.

Lemma abs_some {Bs} l k e : list_ok Bs l -> abs l !! k = Some e -> e ∈ l /\ key_of e = k /\ sdap_rules Bs e.
Proof.
  intros [Hnd Hok] He. induction l as [|x l IH]; [done|]. rewrite abs_cons in He. simpl in Hnd.
  apply NoDup_cons in Hnd as [_ Hnd]. inversion Hok; subst.
  destruct (decide (key_of x = k)) as [<-|Hne].
  - rewrite lookup_insert_eq in He. injection He as <-. split; [left|]. by split.
  - rewrite lookup_insert_ne in He by done. destruct IH as (? & ? & ?); [done|done|done|].
    split; [by right|]. by split.
Qed.

(** an entity changed in place *)
Lemma put_ok {Bs} l ue ps e e' :
  list_ok Bs l -> abs l !! (ue, ps) = Some e -> key_of e' = (ue, ps) -> sdap_rules Bs e' ->
  list_ok Bs (put_entity l ue ps e') /\ abs (put_entity l ue ps e') = <[(ue, ps) := e']> (abs l) /\
  map key_of (put_entity l ue ps e') = map key_of l.
Proof.
  intros [Hnd Hok] He Hk Hok'.
  enough (Hm : abs (put_entity l ue ps e') = <[(ue, ps) := e']> (abs l) /\
    map key_of (put_entity l ue ps e') = map key_of l /\ Forall (sdap_rules Bs) (put_entity l ue ps e')).
  { destruct Hm as (H1 & H2 & H3). split_and!; [|done|done]. constructor; [by rewrite H2|done]. }
  induction l as [|x l IH]; [done|]. simpl in Hnd. apply NoDup_cons in Hnd as [Hx Hnd].
  inversion Hok; subst. simpl put_entity. rewrite is_entity_key. rewrite abs_cons in *.
  case_bool_decide as E.
  - rewrite abs_cons, Hk, E. split_and!; [by rewrite insert_insert_eq|simpl; congruence|by constructor].
  - rewrite lookup_insert_ne in He by done. destruct (IH Hnd H2 He) as (H4 & H5 & H6).
    rewrite abs_cons, H4. split_and!; [by rewrite insert_insert_ne|simpl; congruence|by constructor].
Qed.

(** ** Deletion *)

Lemma delete_walk_ok ue ps : forall l ub,
  NoDup (map key_of l) ->
  match delete_walk ub l ue ps with
  | Some l' => is_Some (abs l !! (ue, ps)) /\ abs l' = delete (ue, ps) (abs l) /\ sublist l' l
  | None => abs l !! (ue, ps) = None \/ SDAP_MAX_NUM_OF_ENTITIES < ub + zlen l
  end.
Proof.
  induction l as [|x l IH]; intros ub Hnd; [by left|]. simpl in Hnd. apply NoDup_cons in Hnd as [Hx Hnd].
  simpl delete_walk. rewrite is_entity_key, abs_cons. case_bool_decide as E.
  - rewrite E, lookup_insert_eq, delete_insert_eq. split_and!; [done| |by constructor].
    rewrite delete_id; [done|]. rewrite <- E. by apply abs_none.
  - rewrite lookup_insert_ne, zlen_cons by done. pose proof (zlen_nonneg l).
    destruct (Z.ltb_spec ub SDAP_MAX_NUM_OF_ENTITIES) as [Hlt|Hge]; [|right; lia].
    specialize (IH (ub + 1) Hnd). destruct (delete_walk (ub + 1) l ue ps); simpl.
    + destruct IH as (H1 & H2 & H3). split_and!; [done| |by constructor].
      rewrite abs_cons, H2, delete_insert_ne by done. done.
    + destruct IH; [by left|right; lia].
Qed.

Lemma abs_size l : NoDup (map key_of l) -> Z.of_nat (size (abs l)) = zlen l.
Proof.
  induction l as [|x l IH]; intros Hnd; [done|]. simpl in Hnd. apply NoDup_cons in Hnd as [Hx Hnd].
  rewrite abs_cons, map_size_insert_None, zlen_cons, <- IH by (done || by apply abs_none). lia.
Qed.

Lemma abs_empty l : abs l = ∅ -> l = [].
Proof.
  destruct l as [|e l]; [done|]. rewrite abs_cons. intros H. by apply insert_non_empty in H.
Qed.

Lemma sublist_list_ok {Bs} l l' : sublist l' l -> list_ok Bs l -> list_ok Bs l'.
Proof.
  intros Hs [Hnd Hok]. constructor.
  - eapply sublist_NoDup; [exact Hnd|]. by apply (fmap_sublist key_of).
  - clear Hnd. induction Hs; inversion Hok; subst; auto.
Qed.

(** all entities of a UE *)
Lemma delete_ue_eq l ue :
  nr_sdap_delete_ue_entities l ue =
  (existsb (fun e => sdap_ue_id e =? ue) l, filter (fun e => sdap_ue_id e <> ue) l).
Proof.
  assert (Hrest : forall k, delete_ue_rest k ue =
    (existsb (fun e => sdap_ue_id e =? ue) k, filter (fun e => sdap_ue_id e <> ue) k)).
  { induction k as [|e k IH]; [done|]. simpl. rewrite IH, filter_cons.
    destruct (Z.eqb_spec (sdap_ue_id e) ue); [by rewrite decide_False by tauto|by rewrite decide_True]. }
  unfold nr_sdap_delete_ue_entities. induction l as [|e l IH]; [done|]. simpl delete_ue_head.
  simpl existsb. rewrite filter_cons. destruct (Z.eqb_spec (sdap_ue_id e) ue) as [E|E].
  - rewrite decide_False by tauto. destruct (delete_ue_head l ue) as [r l']. simpl.
    destruct (delete_ue_rest l' ue). injection IH as _ ->. done.
  - rewrite decide_True by done. rewrite Hrest. simpl. rewrite (proj2 (Z.eqb_neq _ _)) by done.
    by rewrite filter_cons, decide_True.
Qed.

Lemma abs_filter l ue :
  abs (filter (fun e => sdap_ue_id e <> ue) l) = filter (fun '(k, _) => k.1 <> ue) (abs l).
Proof.
  apply map_eq. intros k. rewrite map_lookup_filter. induction l as [|e l IH].
  { change (filter (fun e => sdap_ue_id e <> ue) []) with (@nil nr_sdap_entity_t).
    change (abs []) with (∅ : gmap sdap_key nr_sdap_entity_t). by rewrite lookup_empty. }
  rewrite filter_cons, abs_cons. destruct (decide (key_of e = k)) as [Ek|Ek].
  - rewrite <- Ek in *. rewrite lookup_insert_eq. simpl. case_decide as Eu.
    + rewrite abs_cons, lookup_insert_eq. by rewrite option_guard_True.
    + rewrite IH. destruct (abs l !! key_of e); simpl; rewrite ?option_guard_False by (simpl; tauto); done.
  - rewrite lookup_insert_ne, <- IH by done. case_decide; [|done]. by rewrite abs_cons, lookup_insert_ne.
Qed.

(** ** The calls with undefined behaviour *)

Lemma rd_beyond l i : zlen l <= i -> rd l i = Undef.
Proof.
  intros H. unfold rd. destruct (i <? 0); [done|]. rewrite lookup_ge_None_2; [done|].
  unfold zlen in H. lia.
Qed.

Lemma rd_cases l i : (exists x, rd l i = Ret x) \/ rd l i = Undef.
Proof. unfold rd. destruct (i <? 0); [by right|]. destruct (l !! Z.to_nat i); eauto. Qed.

Lemma rule_at_beyond {Bs} e qfi : sdap_rules Bs e -> ~ 0 <= qfi < SDAP_MAX_QFI -> rule_at e qfi = Undef.
Proof.
  intros Hok Hq. unfold rule_at. destruct (Z.ltb_spec qfi 0); [done|].
  rewrite lookup_ge_None_2; [done|]. rewrite (so_length Hok). unfold SDAP_MAX_QFI in Hq. lia.
Qed.

#[export] Instance qfis_ok_dec qfis n : Decision (qfis_ok qfis n).
Proof. unfold qfis_ok. apply _. Defined.

(** the flow a loop over the array cannot take *)
Lemma bad_flow qfis n : ~ qfis_ok qfis n ->
  exists k, (k < n)%nat /\ qfis_ok qfis k /\
    forall qfi, rd qfis (Z.of_nat k) = Ret qfi -> ~ 0 <= u8 qfi < SDAP_MAX_QFI.
Proof.
  induction n as [|n IH]; intros Hn; [destruct Hn; split; [lia|constructor]|].
  destruct (decide (qfis_ok qfis n)) as [Hok|Hbad].
  2: { destruct (IH Hbad) as (k & Hk & H). exists k. split; [lia|done]. }
  exists n. split; [lia|]. split; [done|]. intros qfi Hr Hq. destruct Hn.
  unfold rd in Hr. rewrite (proj2 (Z.ltb_ge _ _)), Nat2Z.id in Hr by lia.
  destruct (qfis !! n) as [x|] eqn:E; [|done]. injection Hr as ->. destruct Hok as [_ Hf].
  split; [by apply lookup_lt_Some in E|]. rewrite (take_S_r _ _ _ E).
  apply Forall_app. split; [done|]. constructor; [lia|constructor].
Qed.

(** a loop that stops at the flow after the first [k] *)
Lemma config_stops {Bs} `{!Bearers Bs} qfis drb rx tx k : forall n i e,
  qfis_ok qfis k -> (forall qfi, rd qfis (Z.of_nat k) = Ret qfi -> ~ 0 <= u8 qfi < SDAP_MAX_QFI) ->
  0 <= i <= Z.of_nat k -> Z.of_nat k < i + Z.of_nat n -> sdap_rules Bs e ->
  nr_sdap_ue_qfi2drb_config n i e qfis drb rx tx = Undef.
Proof.
  induction n as [|n IH]; intros i e Hk Hbad Hi Hn Hok; [lia|]. simpl.
  destruct (decide (i = Z.of_nat k)) as [->|Hne].
  - destruct (rd_cases qfis (Z.of_nat k)) as [[qfi E]|E]; rewrite E; [|done].
    rewrite bind_Ret_l. unfold qfi2drb_config_one.
    destruct (negb _); [|rewrite bind_Ret_l]; by rewrite (rule_at_beyond e (u8 qfi) Hok (Hbad qfi E)).
  - destruct (rd_qfi qfis i k Hk ltac:(lia)) as (qfi & -> & Hq). rewrite bind_Ret_l.
    destruct (config_one_ok e (u8 qfi) drb rx tx Hok Hq) as ([e1 ev] & -> & Hk1). rewrite bind_Ret_l.
    by rewrite (IH (i + 1) e1) by (done || lia || apply Hk1).
Qed.

Lemma delete_all_stops {Bs} `{!Bearers Bs} qfis k : forall n i e,
  qfis_ok qfis k -> (forall qfi, rd qfis (Z.of_nat k) = Ret qfi -> ~ 0 <= u8 qfi < SDAP_MAX_QFI) ->
  0 <= i <= Z.of_nat k -> Z.of_nat k < i + Z.of_nat n -> sdap_rules Bs e ->
  map_delete_all n i e qfis = Undef.
Proof.
  induction n as [|n IH]; intros i e Hk Hbad Hi Hn Hok; [lia|]. simpl.
  destruct (decide (i = Z.of_nat k)) as [->|Hne].
  - destruct (rd_cases qfis (Z.of_nat k)) as [[qfi E]|E]; rewrite E; [|done].
    rewrite bind_Ret_l. unfold nr_sdap_qfi2drb_map_del. by rewrite (rule_at_beyond e (u8 qfi) Hok (Hbad qfi E)).
  - destruct (rd_qfi qfis i k Hk ltac:(lia)) as (qfi & -> & Hq). rewrite bind_Ret_l.
    destruct (map_del_ok e (u8 qfi) Hok Hq) as (e1 & -> & Hk1). rewrite bind_Ret_l.
    apply (IH (i + 1) e1); done || lia || apply Hk1.
Qed.

Lemma update_all_stops {Bs} `{!Bearers Bs} qfis drb rx tx : forall n i e,
  0 <= i <= zlen qfis -> zlen qfis < i + Z.of_nat n -> sdap_rules Bs e ->
  map_update_all n i e qfis drb rx tx = Undef.
Proof.
  induction n as [|n IH]; intros i e Hi Hn Hok; [lia|]. simpl.
  destruct (decide (i = zlen qfis)) as [->|Hne]; [by rewrite rd_beyond by lia|].
  unfold rd. rewrite (proj2 (Z.ltb_ge _ _)) by lia.
  destruct (lookup_lt_is_Some_2 qfis (Z.to_nat i)) as [qfi ->]; [unfold zlen in *; lia|]. rewrite bind_Ret_l.
  destruct (map_update_keeps e (u8 qfi) drb rx tx Hok) as (e1 & -> & Hk1). rewrite bind_Ret_l.
  apply (IH (i + 1) e1); lia || apply Hk1.
Qed.

(** ** All calls *)

Inductive sdap_op :=
| NewEntity (is_gnb rx tx : bool) (ue_id pdusession_id : Z) (is_defaultDRB : bool)
    (drb : Z) (qfis : list Z) (n : nat)
| Reconfigure (c : NR_SDAP_Config_t) (ue_id pdusession_id drb : Z)
| DeleteEntity (ue_id pdusession_id : Z)
| DeleteUeEntities (ue_id : Z)
| ReleaseDrb (ue_id drb pdusession_id : Z)
| DataReq (acc : Z -> list Z -> bool) (ue_id : Z) (is_gnb : bool) (rb_id : Z) (sdu : list Z) (qfi : Z)
    (rqi : bool) (pdusession_id : Z)
| DataInd (drb : Z) (is_gnb hdr : bool) (pdusession_id ue_id : Z) (buf : list Z).

Abbreviation sdap_result := (bool * list nr_sdap_entity_t * list sdap_event)%type.

Definition sdap_step (l : list nr_sdap_entity_t) (op : sdap_op) : outcome sdap_result :=
  match op with
  | NewEntity gnb rx tx ue ps def drb qfis n =>
      '(l, ev) ← new_nr_sdap_entity l gnb rx tx ue ps def drb qfis n; Ret (true, l, ev)
  | Reconfigure c ue ps drb =>
      '(l, ev) ← nr_reconfigure_sdap_entity l c ue ps drb; Ret (true, l, ev)
  | DeleteEntity ue ps => '(ret, l) ← nr_sdap_delete_entity l ue ps; Ret (ret, l, [])
  | DeleteUeEntities ue => Ret (nr_sdap_delete_ue_entities l ue, [])
  | ReleaseDrb ue drb ps => Ret (true, nr_sdap_release_drb l ue drb ps, [])
  | DataReq acc ue gnb rb sdu qfi rqi ps => sdap_data_req acc l ue gnb rb sdu qfi rqi ps
  | DataInd drb gnb hdr ps ue buf =>
      '(l, ev) ← sdap_data_ind l drb gnb hdr ps ue buf; Ret (true, l, ev)
  end.

Abbreviation sdap_map := (gmap sdap_key nr_sdap_entity_t).

(** what reading the flows as one array from the first object on gives: the
    object itself, and nothing behind it *)
Definition flows_readable (flows : option (list Z)) : Prop :=
  match flows with
  | None | Some [] => False
  | Some (qfi :: qfis) => qfis_ok [qfi] (Z.to_nat (u8 (zlen (qfi :: qfis))))
  end.

#[export] Instance flows_readable_dec flows : Decision (flows_readable flows).
Proof. destruct flows as [[|qfi qfis]|]; simpl; apply _. Defined.

(** a reconfiguration whose flows to add, or to release, are not *)
Definition reconfigure_overreads (c : NR_SDAP_Config_t) : Prop :=
  ~ flows_readable (mappedQoS_FlowsToAdd c) \/
  mappedQoS_FlowsToRelease c <> None /\ ~ flows_readable (mappedQoS_FlowsToRelease c).

#[export] Instance reconfigure_overreads_dec c : Decision (reconfigure_overreads c).
Proof. unfold reconfigure_overreads. apply _. Defined.

(** the calls whose behaviour is undefined: a flow beyond the table or beyond
    the array, the deletion from an empty list, a PDU without its header *)
Definition sdap_undefined (m : sdap_map) (op : sdap_op) : Prop :=
  match op with
  | NewEntity gnb _ _ ue ps def _ qfis n =>
      match m !! (ue, ps) with
      | Some _ => gnb = false /\ ~ qfis_ok qfis n
      | None => def = true /\ zlen qfis < Z.of_nat n
      end
  | Reconfigure c ue ps _ =>
      is_Some (m !! (ue, ps)) /\ reconfigure_overreads c
  | DeleteEntity _ ps => m = ∅ /\ ps * (ps - NGAP_MAX_PDU_SESSION) <= 0
  | DeleteUeEntities _ | ReleaseDrb _ _ _ => False
  | DataReq _ ue _ _ _ qfi _ ps => is_Some (m !! (ue, ps)) /\ ~ (0 <= qfi < SDAP_MAX_QFI)
  | DataInd _ _ hdr ps ue buf => is_Some (m !! (ue, ps)) /\ hdr = true /\ buf = []
  end.

#[export] Instance sdap_undefined_dec m op : Decision (sdap_undefined m op).
Proof. destruct op; simpl; try case_match; apply _. Defined.

(** the bearers a call stores without a check: the default bearer, and the one
    a PDU came on (reflective mapping) *)
Definition brings (Bs : Z -> Prop) (op : sdap_op) : Prop :=
  match op with
  | NewEntity _ _ _ _ _ _ drb _ _ | DataInd drb _ _ _ _ _ => Bs drb
  | _ => True
  end.

(** the entity of [k] becomes [e'], which has the same key *)
Definition replaced (m : sdap_map) (k : sdap_key) (e' : nr_sdap_entity_t) (m' : sdap_map) : Prop :=
  key_of e' = k /\ m' = <[k := e']> m.

(** what a call does to the map, what it returns and which calls it makes *)
Definition sdap_spec (m : sdap_map) (op : sdap_op) (ret : bool) (ev : list sdap_event) (m' : sdap_map)
    : Prop :=
  match op with
  | NewEntity gnb rx tx ue ps def drb qfis n =>
      match m !! (ue, ps) with
      | Some e => if gnb then m' = m /\ ev = []
          else exists e', nr_sdap_ue_qfi2drb_config n 0 e qfis drb rx tx = Ret (e', ev) /\
                 replaced m (ue, ps) e' m'
      | None => ev = [] /\ exists e', replaced m (ue, ps) e' m' /\
          let e := mk_sdap ue (if def then drb else 0) ps empty_table in
          map_update_all (if def then n else 0) 0 e qfis drb rx tx = Ret e'
      end
  | Reconfigure c ue ps drb =>
      match m !! (ue, ps) with
      | Some e => exists e', replaced m (ue, ps) e' m' /\
          nr_reconfigure_sdap_entity [e] c ue ps drb = Ret ([e'], ev)
      | None => m' = m /\ ev = []
      end
  | DeleteEntity ue ps => ev = [] /\
      (if ret then is_Some (m !! (ue, ps)) /\ m' = delete (ue, ps) m
       else m' = m /\ (m !! (ue, ps) = None \/ SDAP_MAX_NUM_OF_ENTITIES < Z.of_nat (size m)))
  | DeleteUeEntities ue => ev = [] /\ m' = filter (fun '(k, _) => k.1 <> ue) m /\
      (ret = true <-> exists ps, is_Some (m !! (ue, ps)))
  | ReleaseDrb ue drb ps => ev = [] /\
      m' = alter (fun e => e <| qfi2drb_table ::= map (release_rule drb) |>) (ue, ps) m
  | DataReq acc ue gnb rb sdu qfi rqi ps =>
      match m !! (ue, ps) with
      | Some e => exists e', nr_sdap_tx_entity acc e gnb rb sdu qfi rqi = Ret (ret, e', ev) /\
                    replaced m (ue, ps) e' m'
      | None => m' = m /\ ret = false /\ ev = []
      end
  | DataInd drb gnb hdr ps ue buf =>
      match m !! (ue, ps) with
      | Some e => exists e', nr_sdap_rx_entity e drb gnb hdr ps ue buf = Ret (e', ev) /\
                    replaced m (ue, ps) e' m'
      | None => m' = m /\ ev = []
      end
  end.

Lemma delete_ue_ret l ue :
  existsb (fun e => sdap_ue_id e =? ue) l = true <-> exists ps, is_Some (abs l !! (ue, ps)).
Proof.
  induction l as [|e l IH]; simpl existsb.
  { split; [done|]. intros [ps [x Hx]]. done. }
  setoid_rewrite abs_cons. rewrite orb_true_iff, Z.eqb_eq, IH. split.
  - intros [<-|[ps [x Hx]]].
    + exists (sdap_pdusession_id e). unfold key_of. by rewrite lookup_insert_eq.
    + exists ps. destruct (decide (key_of e = (ue, ps))) as [->|]; [by rewrite lookup_insert_eq|].
      rewrite lookup_insert_ne by done. by exists x.
  - intros [ps Hx]. destruct (decide (key_of e = (ue, ps))) as [E|E].
    + left. unfold key_of in E. congruence.
    + right. exists ps. by rewrite lookup_insert_ne in Hx.
Qed.

Lemma release_ok {Bs} `{!Bearers Bs} l ue drb ps :
  list_ok Bs l -> list_ok Bs (nr_sdap_release_drb l ue drb ps) /\
  abs (nr_sdap_release_drb l ue drb ps)
  = alter (fun e => e <| qfi2drb_table ::= map (release_rule drb) |>) (ue, ps) (abs l).
Proof.
  intros Hl. unfold nr_sdap_release_drb. rewrite get_abs. destruct (abs l !! (ue, ps)) as [e|] eqn:E.
  - destruct (abs_some _ _ _ Hl E) as (_ & Hke & Hok). set (e' := e <| qfi2drb_table ::= _ |>).
    assert (Hok' : sdap_rules Bs e').
    { destruct Hok as [H1 H2 H3]. constructor; simpl; [by rewrite length_map|done|].
      apply Forall_map. eapply Forall_weaken; [|exact H3]. intros q Hq. unfold release_rule.
      destruct (_ =? _); simpl; [apply bearers_configured, bearer_0|done]. }
    destruct (put_ok l ue ps e e' Hl E Hke Hok') as (H1 & H2 & _). split; [done|]. rewrite H2.
    apply map_eq. intros k. destruct (decide ((ue, ps) = k)) as [<-|Hne].
    + by rewrite lookup_insert_eq, lookup_alter_eq, E.
    + by rewrite lookup_insert_ne, lookup_alter_ne.
  - split; [done|]. apply map_eq. intros k. destruct (decide ((ue, ps) = k)) as [<-|Hne].
    + by rewrite lookup_alter_eq, E.
    + by rewrite lookup_alter_ne.
Qed.

(** an entity that a call has changed in place *)
Lemma changed_ok {Bs} l ue ps e e' :
  list_ok Bs l -> abs l !! (ue, ps) = Some e -> keeps_in Bs e e' ->
  list_ok Bs (put_entity l ue ps e') /\ replaced (abs l) (ue, ps) e' (abs (put_entity l ue ps e')).
Proof.
  intros Hl E [Hok [Hu Hp]]. destruct (abs_some _ _ _ Hl E) as (_ & Hke & _).
  assert (Hk : key_of e' = (ue, ps)) by (unfold key_of in *; congruence).
  destruct (put_ok l ue ps e e' Hl E Hk Hok) as (H1 & H2 & _). by split.
Qed.

Lemma cons_ok {Bs} l e ue ps :
  list_ok Bs l -> abs l !! (ue, ps) = None -> key_of e = (ue, ps) -> sdap_rules Bs e -> list_ok Bs (e :: l).
Proof.
  intros [Hnd Hall] E Hke Hok. constructor; [|by constructor]. simpl. rewrite Hke. apply NoDup_cons.
  split; [|done]. intros (x & Hx & Hin)%list_elem_of_fmap.
  assert (Hsome : is_Some (abs l !! (ue, ps))); [|rewrite E in Hsome; by destruct Hsome].
  rewrite Hx. clear -Hin. induction l as [|y l IH]; [by apply not_elem_of_nil in Hin|]. rewrite abs_cons.
  destruct (decide (key_of y = key_of x)) as [-> |Hne]; [by rewrite lookup_insert_eq|].
  rewrite lookup_insert_ne by done. apply elem_of_cons in Hin as [->|]; [done|auto].
Qed.

Lemma new_rules {Bs} `{!Bearers Bs} ue d ps : Bs d -> sdap_rules Bs (mk_sdap ue d ps empty_table).
Proof.
  intros Hd. constructor; [done|done|]. apply Forall_replicate. apply bearers_configured, bearer_0.
Qed.

(** one call: undefined exactly where [sdap_undefined] says so *)
Definition step_sound (Bs : Z -> Prop) (l : list nr_sdap_entity_t) (op : sdap_op) : Prop :=
  if decide (sdap_undefined (abs l) op) then sdap_step l op = Undef
  else returns (sdap_step l op) (fun '(ret, l', ev) => list_ok Bs l' /\ sdap_spec (abs l) op ret ev (abs l')).

Section steps.
Context {Bs : Z -> Prop} `{!Bearers Bs}.

Lemma step_new l gnb rx tx ue ps def drb qfis n :
  list_ok Bs l -> Bs drb -> step_sound Bs l (NewEntity gnb rx tx ue ps def drb qfis n).
Proof.
  intros Hl Hd. unfold step_sound. case_decide as Hu; revert Hu; simpl;
    unfold new_nr_sdap_entity; rewrite get_abs; destruct (abs l !! (ue, ps)) as [e|] eqn:E.
  - intros [-> (k & Hk & Hok & Hbad)%bad_flow]. destruct (abs_some _ _ _ Hl E) as (_ & _ & He).
    by rewrite (config_stops qfis drb rx tx k n 0 e) by (done || lia).
  - intros [-> Hn]. pose proof (zlen_nonneg qfis).
    rewrite (update_all_stops (Bs:=Bs)) by (lia || by apply (new_rules (Bs:=Bs))). done.
  - intros Hn. destruct (abs_some _ _ _ Hl E) as (_ & _ & He). destruct gnb; [by apply returns_Ret|].
    assert (Hq : qfis_ok qfis n) by (destruct (decide (qfis_ok qfis n)); tauto).
    destruct (config_ok qfis drb rx tx n n 0 e Hq ltac:(lia) ltac:(lia) He) as ([e' ev] & Hc & Hk).
    rewrite Hc, !bind_Ret_l. apply returns_Ret. destruct (changed_ok l ue ps e e' Hl E Hk). eauto.
  - intros Hn. set (e0 := mk_sdap ue (if def then drb else 0) ps empty_table).
    assert (H0 : sdap_rules Bs e0).
    { apply new_rules. destruct def; [done|apply bearers_configured, bearer_0]. }
    assert (Hn' : 0 + Z.of_nat (if def then n else 0%nat) <= zlen qfis).
    { pose proof (zlen_nonneg qfis). destruct def; [|lia]. destruct (decide (zlen qfis < Z.of_nat n)); [tauto|lia]. }
    destruct (update_all_ok qfis drb rx tx _ 0 e0 ltac:(lia) Hn' H0) as (e1 & He1 & Hok1 & Hu1 & Hp1).
    assert (Hke : key_of e1 = (ue, ps)) by (unfold key_of; by rewrite Hu1, Hp1).
    assert (Hr : (if def then map_update_all n 0 (mk_sdap ue 0 ps empty_table <| default_drb := drb |>) qfis drb rx tx
      else Ret (mk_sdap ue 0 ps empty_table)) = Ret e1) by (by destruct def).
    rewrite Hr, !bind_Ret_l. apply returns_Ret. split; [by eapply cons_ok|]. split; [done|]. exists e1.
    split; [|done]. split; [done|]. by rewrite abs_cons, Hke.
Qed.

(** the flows of a reconfiguration, taken as the code takes them *)
Lemma reconfigure_add flows drb rx tx e :
  sdap_rules Bs e ->
  let add := '(qfis, n) ← first_object flows; nr_sdap_ue_qfi2drb_config n 0 e qfis drb rx tx in
  if decide (flows_readable flows) then returns add (fun '(e', _) => keeps_in Bs e e') else add = Undef.
Proof.
  intros Hok add. case_decide as Hf; destruct flows as [[|q qs]|]; try done; subst add;
    cbn [first_object]; rewrite bind_Ret_l.
  - eapply config_ok; [exact Hf|lia|lia|done].
  - simpl in Hf. apply bad_flow in Hf as (k & Hk & Hq & Hbad).
    by apply (config_stops _ drb rx tx k); try done; lia.
Qed.

Lemma reconfigure_release flows e :
  sdap_rules Bs e ->
  let release := '(qfis, n) ← first_object flows; map_delete_all n 0 e qfis in
  if decide (flows_readable flows) then returns release (keeps_in Bs e) else release = Undef.
Proof.
  intros Hok release. case_decide as Hf; destruct flows as [[|q qs]|]; try done; subst release;
    cbn [first_object]; rewrite bind_Ret_l.
  - eapply delete_all_ok; [exact Hf|lia|lia|done].
  - simpl in Hf. apply bad_flow in Hf as (k & Hk & Hq & Hbad).
    by apply (delete_all_stops _ k); try done; lia.
Qed.

(** a reconfiguration of one entity *)
Lemma reconfigure_one e c ue ps drb :
  sdap_rules Bs e -> key_of e = (ue, ps) ->
  if decide (reconfigure_overreads c) then nr_reconfigure_sdap_entity [e] c ue ps drb = Undef
  else exists e' ev, nr_reconfigure_sdap_entity [e] c ue ps drb = Ret ([e'], ev) /\ keeps_in Bs e e'.
Proof.
  intros Hok Hke. assert (Hi : is_entity ue ps e = true) by (rewrite is_entity_key; by apply bool_decide_eq_true).
  unfold nr_reconfigure_sdap_entity, nr_sdap_get_entity, put_entity. rewrite Hi.
  pose proof (reconfigure_add (mappedQoS_FlowsToAdd c) (u8 drb) (is_sdap_rx false c) (is_sdap_tx false c) e Hok) as Ha.
  cbv zeta in Ha.
  destruct (decide (flows_readable _)) as [Hf|Hf] in Ha.
  2: { rewrite decide_True by (by left). revert Ha. destruct (first_object _) as [[qfis n]| | |]; try done.
    rewrite !bind_Ret_l. by intros ->. }
  destruct Ha as ([e1 ev] & Ha & Hk1). revert Ha.
  destruct (first_object (mappedQoS_FlowsToAdd c)) as [[qfis n]| | |]; try done. rewrite !bind_Ret_l. intros ->.
  rewrite bind_Ret_l. destruct (mappedQoS_FlowsToRelease c) as [fl|] eqn:Er.
  - pose proof (reconfigure_release (Some fl) e1 (proj1 Hk1)) as Hd. cbv zeta in Hd.
    destruct (decide (flows_readable (Some fl))) as [Hr|Hr].
    + rewrite decide_False by (unfold reconfigure_overreads; rewrite Er; tauto).
      destruct Hd as (e2 & -> & Hk2). rewrite bind_Ret_l. eauto using keeps_trans.
    + rewrite decide_True by (unfold reconfigure_overreads; rewrite Er; by right). by rewrite Hd.
  - rewrite decide_False by (unfold reconfigure_overreads; rewrite Er; tauto). rewrite bind_Ret_l. eauto.
Qed.

(** on a list, the entity found is the one reconfigured *)
Lemma reconfigure_found l e c ue ps drb :
  list_ok Bs l -> abs l !! (ue, ps) = Some e ->
  nr_reconfigure_sdap_entity l c ue ps drb =
  ('(l1, ev) ← nr_reconfigure_sdap_entity [e] c ue ps drb;
   Ret (match l1 with e' :: _ => put_entity l ue ps e' | [] => l end, ev)).
Proof.
  intros Hl E. destruct (abs_some _ _ _ Hl E) as (_ & Hke & _).
  assert (Hi : is_entity ue ps e = true) by (rewrite is_entity_key; by apply bool_decide_eq_true).
  unfold nr_reconfigure_sdap_entity. rewrite (get_abs l), E. cbn [nr_sdap_get_entity]. rewrite Hi.
  destruct (first_object (mappedQoS_FlowsToAdd c)) as [[qfis n]| | |]; [|done..].
  rewrite !bind_Ret_l. destruct (nr_sdap_ue_qfi2drb_config _ _ _ _ _ _ _) as [[e1 ev]| | |]; [|done..].
  rewrite !bind_Ret_l. set (c2 := match mappedQoS_FlowsToRelease c with Some _ => _ | None => _ end).
  destruct c2; [|done..]. rewrite !bind_Ret_l. simpl. by rewrite Hi.
Qed.

Lemma step_reconfigure l c ue ps drb : list_ok Bs l -> step_sound Bs l (Reconfigure c ue ps drb).
Proof.
  intros Hl. unfold step_sound. simpl. destruct (abs l !! (ue, ps)) as [e|] eqn:E.
  - destruct (abs_some _ _ _ Hl E) as (_ & Hke & Hok). rewrite (reconfigure_found l e) by done.
    pose proof (reconfigure_one e c ue ps drb Hok Hke) as H.
    rewrite (decide_ext _ (reconfigure_overreads c)) by (split; [by intros [_ ?]|by split]).
    case_decide; [by rewrite H|]. destruct H as (e' & ev & H & Hk). rewrite H, !bind_Ret_l.
    apply returns_Ret. destruct (changed_ok l ue ps e e' Hl E Hk). eauto.
  - rewrite decide_False by (by intros [[? ?] _]). unfold nr_reconfigure_sdap_entity.
    rewrite get_abs, E. by apply returns_Ret.
Qed.

Lemma step_delete l ue ps : list_ok Bs l -> step_sound Bs l (DeleteEntity ue ps).
Proof.
  intros Hl. unfold step_sound. simpl. unfold nr_sdap_delete_entity. case_decide as Hu.
  - destruct Hu as [->%abs_empty Hp]. by rewrite (proj2 (Z.ltb_ge _ _)).
  - destruct l as [|x l].
    + destruct (Z.ltb_spec 0 (ps * (ps - NGAP_MAX_PDU_SESSION))); [|by destruct Hu].
      apply returns_Ret. by split_and!; [..|left].
    + pose proof (delete_walk_ok ue ps (x :: l) 0 (lo_keys Hl)) as Hw. rewrite Z.add_0_l in Hw.
      destruct (delete_walk 0 (x :: l) ue ps) as [l'|]; apply returns_Ret.
      * destruct Hw as (H1 & H2 & H3). split; [by eapply sublist_list_ok|]. by split.
      * split; [done|]. by rewrite (abs_size _ (lo_keys Hl)).
Qed.

Lemma step_data_req l acc ue gnb rb sdu qfi rqi ps :
  list_ok Bs l -> step_sound Bs l (DataReq acc ue gnb rb sdu qfi rqi ps).
Proof.
  intros Hl. unfold step_sound. simpl. unfold sdap_data_req. rewrite get_abs.
  destruct (abs l !! (ue, ps)) as [e|] eqn:E; [|by rewrite decide_False by (by intros [[? ?] _]); apply returns_Ret].
  destruct (abs_some _ _ _ Hl E) as (_ & _ & Hok). case_decide as Hu.
  - destruct Hu as [_ Hq]. unfold nr_sdap_tx_entity, nr_sdap_qfi2drb_map. by rewrite (rule_at_beyond e qfi Hok Hq).
  - assert (Hq : 0 <= qfi < SDAP_MAX_QFI) by (destruct (decide (0 <= qfi < SDAP_MAX_QFI)); [done|by destruct Hu]).
    destruct (tx_ok acc e gnb rb sdu qfi rqi Hok Hq) as ([[r e'] ev] & -> & Hk). apply returns_Ret.
    destruct (changed_ok l ue ps e e' Hl E Hk). eauto.
Qed.

Lemma step_data_ind l drb gnb hdr ps ue buf :
  list_ok Bs l -> Bs drb -> step_sound Bs l (DataInd drb gnb hdr ps ue buf).
Proof.
  intros Hl Hd. unfold step_sound. simpl. unfold sdap_data_ind. rewrite get_abs.
  destruct (abs l !! (ue, ps)) as [e|] eqn:E; [|by rewrite decide_False by (by intros [[? ?] _]); apply returns_Ret].
  destruct (abs_some _ _ _ Hl E) as (_ & _ & Hok). case_decide as Hu.
  - destruct Hu as (_ & -> & ->). by destruct gnb.
  - assert (Hb : hdr = true -> buf <> []) by (intros -> ->; by destruct Hu).
    destruct (rx_ok e drb gnb hdr ps ue buf Hok Hd Hb) as ([e' ev] & -> & Hk). rewrite !bind_Ret_l. apply returns_Ret.
    destruct (changed_ok l ue ps e e' Hl E Hk). eauto.
Qed.

Lemma sdap_step_sound l op : list_ok Bs l -> brings Bs op -> step_sound Bs l op.
Proof.
  intros Hl Hb. destruct op as [| | |ue|ue drb ps| |]; simpl in Hb;
    auto using step_new, step_reconfigure, step_delete, step_data_req, step_data_ind.
  - unfold step_sound. rewrite decide_False by (simpl; tauto). simpl. rewrite delete_ue_eq. apply returns_Ret.
    split; [eapply sublist_list_ok; [apply sublist_filter|done]|].
    split_and!; [done|apply abs_filter|apply delete_ue_ret].
  - unfold step_sound. rewrite decide_False by (simpl; tauto). simpl. apply returns_Ret.
    destruct (release_ok l ue drb ps Hl). by split_and!.
Qed.
End steps.

Fixpoint sdap_run (l : list nr_sdap_entity_t) (ops : list sdap_op) : outcome (list nr_sdap_entity_t) :=
  match ops with
  | [] => Ret l
  | op :: ops => '(_, l, _) ← sdap_step l op; sdap_run l ops
  end.

(** a run of the map *)
Fixpoint spec_run (m : sdap_map) (ops : list sdap_op) (m' : sdap_map) : Prop :=
  match ops with
  | [] => m' = m
  | op :: ops => exists ret ev m1, ~ sdap_undefined m op /\ sdap_spec m op ret ev m1 /\ spec_run m1 ops m'
  end.

(** a run of the map that comes to a call with undefined behaviour *)
Fixpoint spec_stops (m : sdap_map) (ops : list sdap_op) : Prop :=
  match ops with
  | [] => False
  | op :: ops => sdap_undefined m op \/
      exists ret ev m1, ~ sdap_undefined m op /\ sdap_spec m op ret ev m1 /\ spec_stops m1 ops
  end.


(** ** Error paths *)

(** Deleting a session from an empty list of entities dereferences NULL
    whenever the session number is valid: the guard only covers invalid ones. *)
Lemma sdap_delete_empty_null ue ps :
  0 <= ps <= NGAP_MAX_PDU_SESSION -> nr_sdap_delete_entity [] ue ps = Undef.
Proof.
  intros Hp. unfold nr_sdap_delete_entity, NGAP_MAX_PDU_SESSION in *. rewrite (proj2 (Z.ltb_ge _ _)); [done|]. nia.
Qed.

Lemma sdap_delete_empty_null_witness : nr_sdap_delete_entity [] 17 3 = Undef.
Proof. apply sdap_delete_empty_null. vm_compute. split; congruence. Defined.

(** a reconfiguration that adds two or more QoS flows to an existing
    session reads past the first flow's object: the list RRC gives holds a
    pointer per flow, and the code indexes from the first. *)
Lemma sdap_reconfigure_overread l e c ue ps drb q0 q1 qs :
  list_ok (fun _ => True) l -> abs l !! (ue, ps) = Some e ->
  mappedQoS_FlowsToAdd c = Some (q0 :: q1 :: qs) -> zlen (q0 :: q1 :: qs) < 256 ->
  nr_reconfigure_sdap_entity l c ue ps drb = Undef.
Proof.
  intros Hl He Hc Hn. destruct (abs_some _ _ _ Hl He) as (_ & Hke & Hok).
  pose proof (reconfigure_one e c ue ps drb Hok Hke) as H. rewrite decide_True in H.
  - by rewrite (reconfigure_found l e c ue ps drb Hl He), H.
  - left. rewrite Hc. intros [Hl2 _]. revert Hl2. unfold u8, zlen in *. rewrite Z.mod_small by (simpl length in *; lia).
    simpl. lia.
Qed.

Lemma sdap_reconfigure_overread_witness :
  nr_reconfigure_sdap_entity [demo_ue] (mk_sdap_config true true (Some [5; 6]) None) 17 3 2 = Undef.
Proof.
  apply (sdap_reconfigure_overread [demo_ue] demo_ue _ 17 3 2 5 6 []).
  - constructor; [apply NoDup_singleton|]. constructor; [|constructor]. destruct demo_ue_ok.
    constructor; [done|done|]. by apply list.Forall_forall.
  - reflexivity.
  - reflexivity.
  - reflexivity.
Defined.

(** ** Example: two sessions of a UE, a reconfiguration, traffic on a bearer the
    configuration cannot name, deletion, and a call that goes wrong *)

Definition demo_sdap_ops : list sdap_op :=
  [NewEntity false true true 17 3 true 1 [5; 6] 2; NewEntity false true true 17 4 false 2 [] 0;
   Reconfigure (mk_sdap_config true true (Some [7]) (Some [6])) 17 3 2;
   DataReq (fun _ _ => true) 17 false 1 [1; 2] 9 true 3;
   DataInd 21 false true 3 17 [133; 7]; ReleaseDrb 17 1 3; DeleteEntity 17 4; DeleteUeEntities 17].

Definition data_bearers (d : Z) : Prop := 0 <= d <= 32.

#[export] Instance Bearers_data : Bearers data_bearers.
Proof. intros d [H1 H2]. unfold data_bearers, AVLBL_DRB in *. lia. Qed.

Lemma demo_sdap_brings : Forall (brings data_bearers) demo_sdap_ops.
Proof. repeat (constructor; [first [exact I|vm_compute; split; congruence]|]). constructor. Qed.

Lemma demo_sdap_run :
  sdap_run [] demo_sdap_ops = Ret [] /\ sdap_run [] (demo_sdap_ops ++ [DeleteEntity 17 3]) = Undef.
Proof. split; vm_compute; reflexivity. Qed.

