(* ===== verification/Gf2.v ===== *)
(** Polynomials over the field of two elements, as non-negative integers whose
    bits are the coefficients: carry-less multiplication, degree, and
    congruence modulo a polynomial. The reference against which the CRC code is
    verified; addition is [Z.lxor], multiplication by [x^n] is [Z.shiftl]. *)

From stdpp Require Import base tactics list numbers.
From Stdlib Require Import ZArith Lia.
From S2P Require Import Prelude.

(** ** Multiplication *)

Fixpoint clmul_pos (p : positive) (b : Z) : Z :=
  match p with
  | xH => b
  | xO p => 2 * clmul_pos p b
  | xI p => Z.lxor b (2 * clmul_pos p b)
  end.

Definition clmul (a b : Z) : Z := match a with Zpos p => clmul_pos p b | _ => 0 end.

Lemma double_lxor a b : 2 * Z.lxor a b = Z.lxor (2 * a) (2 * b).
Proof.
  rewrite !(Z.mul_comm 2). change 2 with (2 ^ 1). rewrite <- !Z.shiftl_mul_pow2 by lia. apply Z.shiftl_lxor.
Qed.

(** regrouping of sums; the order of two sums of two *)
Lemma lxor_swap a b c d : Z.lxor (Z.lxor a b) (Z.lxor c d) = Z.lxor (Z.lxor a c) (Z.lxor b d).
Proof. rewrite !Z.lxor_assoc. f_equal. rewrite <- !Z.lxor_assoc. f_equal. apply Z.lxor_comm. Qed.

Lemma clmul_0_l b : clmul 0 b = 0.
Proof. reflexivity. Qed.

Lemma clmul_1_l b : clmul 1 b = b.
Proof. reflexivity. Qed.

Lemma clmul_double_l a b : 0 <= a -> clmul (2 * a) b = 2 * clmul a b.
Proof. destruct a; [done|done|lia]. Qed.

(** an odd number in terms of its half *)
Lemma clmul_odd_l a b : 0 <= a -> clmul (2 * a + 1) b = Z.lxor b (2 * clmul a b).
Proof. destruct a; simpl; [by rewrite Z.lxor_0_r|done|lia]. Qed.

(** induction on the bits of a polynomial *)
Lemma gf2_ind (P : Z -> Prop) :
  P 0 -> (forall a, 0 <= a -> P a -> P (2 * a)) -> (forall a, 0 <= a -> P a -> P (2 * a + 1)) ->
  forall a, 0 <= a -> P a.
Proof.
  intros H0 He Ho a Ha. destruct a as [|p|]; [done| |lia].
  induction p as [p IH|p IH|].
  - apply (Ho (Zpos p)); [lia|]. apply IH. lia.
  - apply (He (Zpos p)); [lia|]. apply IH. lia.
  - by apply (Ho 0).
Qed.

Lemma clmul_lxor_r a b c : 0 <= a -> clmul a (Z.lxor b c) = Z.lxor (clmul a b) (clmul a c).
Proof.
  intros Ha. revert a Ha. apply gf2_ind; [done| |]; intros a Ha IH.
  - by rewrite !clmul_double_l, IH, double_lxor.
  - by rewrite !clmul_odd_l, IH, double_lxor, lxor_swap.
Qed.

Lemma clmul_0_r a : clmul a 0 = 0.
Proof. destruct a as [|p|]; [done| |done]. simpl. induction p as [p IH|p IH|]; simpl; by rewrite ?IH. Qed.

Lemma clmul_double_r a b : 0 <= a -> clmul a (2 * b) = 2 * clmul a b.
Proof.
  intros Ha. revert a Ha. apply gf2_ind; [done| |]; intros a Ha IH.
  - by rewrite !clmul_double_l, IH.
  - by rewrite !clmul_odd_l, IH, double_lxor.
Qed.

(** the sum of an even polynomial and one *)
Lemma odd_lxor a : 2 * a + 1 = Z.lxor 1 (2 * a).
Proof.
  rewrite <- Z.add_nocarry_lxor; [lia|]. apply Z.bits_inj'. intros n Hn. rewrite Z.land_spec, Z.bits_0.
  destruct (Z.eq_dec n 0) as [->|]; [by rewrite Z.testbit_even_0, andb_false_r|].
  change 1 with (2 ^ 0). rewrite Z.pow2_bits_false; [done|lia].
Qed.

Lemma clmul_nonneg a b : 0 <= a -> 0 <= b -> 0 <= clmul a b.
Proof.
  intros Ha Hb. revert a Ha. apply gf2_ind; [done| |]; intros a Ha IH.
  - rewrite clmul_double_l; lia.
  - rewrite clmul_odd_l by done. apply Z.lxor_nonneg. lia.
Qed.

Lemma clmul_1_r a : 0 <= a -> clmul a 1 = a.
Proof.
  intros Ha. revert a Ha. apply gf2_ind; [done| |]; intros a Ha IH.
  - by rewrite clmul_double_l, IH.
  - by rewrite clmul_odd_l, IH, odd_lxor.
Qed.

Lemma clmul_comm a b : 0 <= a -> 0 <= b -> clmul a b = clmul b a.
Proof.
  intros Ha Hb. revert a Ha. apply gf2_ind; [by rewrite clmul_0_r| |]; intros a Ha IH.
  - by rewrite clmul_double_l, clmul_double_r, IH.
  - rewrite clmul_odd_l, odd_lxor, clmul_lxor_r, clmul_double_r, clmul_1_r, IH; done.
Qed.

Lemma clmul_lxor_l a b c : 0 <= a -> 0 <= b -> 0 <= c ->
  clmul (Z.lxor a b) c = Z.lxor (clmul a c) (clmul b c).
Proof.
  intros Ha Hb Hc. assert (0 <= Z.lxor a b) by (apply Z.lxor_nonneg; lia).
  rewrite !(clmul_comm _ c) by done. by apply clmul_lxor_r.
Qed.

Lemma clmul_assoc a b c : 0 <= a -> 0 <= b -> 0 <= c -> clmul (clmul a b) c = clmul a (clmul b c).
Proof.
  intros Ha Hb Hc. revert a Ha. apply gf2_ind; [done| |]; intros a Ha IH.
  - pose proof (clmul_nonneg a b). rewrite !clmul_double_l, IH; auto with lia.
  - pose proof (clmul_nonneg a b Ha Hb). rewrite !clmul_odd_l, clmul_lxor_l, clmul_double_l, IH; auto with lia.
Qed.

(** [x^n] *)
Lemma clmul_pow a n : 0 <= a -> 0 <= n -> clmul a (2 ^ n) = Z.shiftl a n.
Proof.
  intros Ha Hn. rewrite Z.shiftl_mul_pow2 by done. revert a Ha. apply gf2_ind; [done| |]; intros a Ha IH.
  - rewrite clmul_double_l, IH; lia.
  - rewrite clmul_odd_l, IH by done. rewrite <- Z.add_nocarry_lxor; [lia|].
    rewrite (Z.mul_assoc 2), <- !Z.shiftl_mul_pow2 by done. rewrite <- (Z.mul_1_l (2 ^ n)), <- Z.shiftl_mul_pow2 by done.
    rewrite <- Z.shiftl_land. replace (Z.land 1 (2 * a)) with 0; [apply Z.shiftl_0_l|].
    symmetry. rewrite Z.land_comm. change 1 with (Z.ones 1). rewrite Z.land_ones by lia. change (2 ^ 1) with 2.
    rewrite Z.mul_comm. by rewrite Z.mod_mul.
Qed.

(** ** Size *)

Lemma lxor_lt a b n : 0 <= n -> 0 <= a < 2 ^ n -> 0 <= b < 2 ^ n -> 0 <= Z.lxor a b < 2 ^ n.
Proof.
  intros Hn Ha Hb. assert (Hnn : 0 <= Z.lxor a b) by (apply Z.lxor_nonneg; lia). split; [done|].
  destruct (Z.eq_dec (Z.lxor a b) 0) as [->|]; [lia|]. apply Z.log2_lt_pow2; [lia|].
  destruct (Z.eq_dec a 0) as [->|]; [rewrite Z.lxor_0_l in *; apply Z.log2_lt_pow2; lia|].
  destruct (Z.eq_dec b 0) as [->|]; [rewrite Z.lxor_0_r in *; apply Z.log2_lt_pow2; lia|].
  pose proof (proj1 (Z.log2_lt_pow2 a n ltac:(lia)) ltac:(lia)).
  pose proof (proj1 (Z.log2_lt_pow2 b n ltac:(lia)) ltac:(lia)).
  pose proof (Z.log2_lxor a b ltac:(lia) ltac:(lia)). lia.
Qed.

Lemma clmul_lt a b m n : 0 <= m -> 0 <= n -> 0 <= a < 2 ^ (m + 1) -> 0 <= b < 2 ^ n -> 0 <= clmul a b < 2 ^ (m + n).
Proof.
  intros Hm Hn Ha Hb. destruct Ha as [Ha Hlt]. revert a Ha m Hm Hlt.
  apply (gf2_ind (fun a => forall m, 0 <= m -> a < 2 ^ (m + 1) -> 0 <= clmul a b < 2 ^ (m + n))).
  - intros m Hm _. rewrite clmul_0_l. lia.
  - intros a Ha IH m Hm Hlt. rewrite clmul_double_l by done. destruct (Z.eq_dec m 0) as [->|].
    + assert (a = 0) as -> by (simpl in Hlt; lia). rewrite clmul_0_l. lia.
    + assert (E : 2 ^ (m + 1) = 2 * 2 ^ (m - 1 + 1)) by (rewrite <- Z.pow_succ_r by lia; f_equal; lia).
      specialize (IH (m - 1) ltac:(lia) ltac:(lia)).
      replace (2 ^ (m + n)) with (2 * 2 ^ (m - 1 + n)) by (rewrite <- Z.pow_succ_r by lia; f_equal; lia). lia.
  - intros a Ha IH m Hm Hlt. rewrite clmul_odd_l by done.
    assert (Hb' : 0 <= b < 2 ^ (m + n)).
    { split; [lia|]. eapply Z.lt_le_trans; [apply Hb|]. apply Z.pow_le_mono_r; lia. }
    apply lxor_lt; [lia|done|]. destruct (Z.eq_dec m 0) as [->|].
    + assert (a = 0) as -> by (simpl in Hlt; lia). rewrite clmul_0_l. lia.
    + assert (E : 2 ^ (m + 1) = 2 * 2 ^ (m - 1 + 1)) by (rewrite <- Z.pow_succ_r by lia; f_equal; lia).
      specialize (IH (m - 1) ltac:(lia) ltac:(lia)).
      replace (2 ^ (m + n)) with (2 * 2 ^ (m - 1 + n)) by (rewrite <- Z.pow_succ_r by lia; f_equal; lia). lia.
Qed.

(** a product has at least the degree of its factors *)
Lemma clmul_ge a b n : 0 < a -> 0 <= n -> 2 ^ n <= b -> 2 ^ n <= clmul a b.
Proof.
  intros Ha Hn Hb. assert (Hpos : 0 < 2 ^ n) by lia. pose proof (Z.log2_le_pow2 b n ltac:(lia)) as Hl.
  enough (H : 0 < a -> Z.log2 (clmul a b) = Z.log2 a + Z.log2 b /\ 0 < clmul a b).
  { destruct (H Ha) as [E Hp]. apply Z.log2_le_pow2; [done|]. pose proof (Z.log2_nonneg a). lia. }
  clear Ha. assert (H0 : 0 <= a \/ a < 0) by lia. destruct H0 as [H0|]; [|lia]. revert a H0.
  apply (gf2_ind (fun a => 0 < a -> Z.log2 (clmul a b) = Z.log2 a + Z.log2 b /\ 0 < clmul a b)); [lia| |].
  - intros a Ha IH Hp. destruct (IH ltac:(lia)) as [E H1]. rewrite clmul_double_l, !Z.log2_double by lia. lia.
  - intros a Ha IH _. rewrite clmul_odd_l by done. destruct (Z.eq_dec a 0) as [->|].
    { rewrite clmul_0_l, Z.lxor_0_r. split; [done|lia]. }
    destruct (IH ltac:(lia)) as [E H1]. rewrite Z.log2_succ_double by lia.
    assert (Hd : Z.log2 (2 * clmul a b) = Z.succ (Z.log2 (clmul a b))) by (apply Z.log2_double; lia).
    pose proof (Z.log2_nonneg a).
    assert (Hbit : Z.testbit (Z.lxor b (2 * clmul a b)) (Z.log2 (2 * clmul a b)) = true).
    { rewrite Z.lxor_spec, (Z.bits_above_log2 b) by lia. rewrite Z.bit_log2 by lia. done. }
    assert (Hnn : 0 <= Z.lxor b (2 * clmul a b)) by (apply Z.lxor_nonneg; lia).
    assert (Hp : 0 < Z.lxor b (2 * clmul a b)).
    { destruct (Z.eq_dec (Z.lxor b (2 * clmul a b)) 0) as [Hz|]; [by rewrite Hz, Z.bits_0 in Hbit|lia]. }
    split; [|done]. apply Z.le_antisymm.
    + rewrite Z.log2_lxor by lia. lia.
    + destruct (Z_le_gt_dec (1 + Z.log2 (clmul a b)) (Z.log2 (Z.lxor b (2 * clmul a b)))) as [|Hgt]; [lia|].
      rewrite Z.bits_above_log2 in Hbit by lia. done.
Qed.

(** ** Congruence *)

Definition cong (P a b : Z) : Prop := exists k, 0 <= k /\ Z.lxor a b = clmul k P.

Section cong.
Context (P : Z) (HP : 0 <= P).

Lemma cong_refl a : cong P a a.
Proof. exists 0. split; [lia|]. by rewrite Z.lxor_nilpotent. Qed.

Lemma cong_sym a b : cong P a b -> cong P b a.
Proof. intros (k & Hk & E). exists k. by rewrite Z.lxor_comm. Qed.

Lemma cong_trans a b c : cong P a b -> cong P b c -> cong P a c.
Proof.
  intros (k & Hk & E1) (l & Hl & E2). exists (Z.lxor k l). split; [apply Z.lxor_nonneg; lia|].
  rewrite clmul_lxor_l, <- E1, <- E2 by done.
  rewrite Z.lxor_assoc, <- (Z.lxor_assoc b b), Z.lxor_nilpotent, Z.lxor_0_l. done.
Qed.

Lemma cong_lxor a a' b b' : cong P a a' -> cong P b b' -> cong P (Z.lxor a b) (Z.lxor a' b').
Proof.
  intros (k & Hk & E1) (l & Hl & E2). exists (Z.lxor k l). split; [apply Z.lxor_nonneg; lia|].
  rewrite clmul_lxor_l, <- E1, <- E2 by done. apply lxor_swap.
Qed.

Lemma cong_clmul a b c : 0 <= a -> 0 <= b -> 0 <= c -> cong P a b -> cong P (clmul a c) (clmul b c).
Proof.
  intros Ha Hb Hc (k & Hk & E). exists (clmul k c). split; [by apply clmul_nonneg|].
  rewrite <- clmul_lxor_l, E, !clmul_assoc by done. by rewrite (clmul_comm P c).
Qed.

Lemma cong_shiftl a b n : 0 <= a -> 0 <= b -> 0 <= n -> cong P a b -> cong P (Z.shiftl a n) (Z.shiftl b n).
Proof. intros. rewrite <- !clmul_pow by done. apply cong_clmul; try done. lia. Qed.

(** a multiple of [P] vanishes *)
Lemma cong_multiple k : 0 <= k -> cong P (clmul k P) 0.
Proof. intros. exists k. by rewrite Z.lxor_0_r. Qed.

(** a remainder is unique *)
Lemma cong_unique n a b : 0 <= n -> 2 ^ n <= P -> 0 <= a < 2 ^ n -> 0 <= b < 2 ^ n -> cong P a b -> a = b.
Proof.
  intros Hn Hp Ha Hb (k & Hk & E). destruct (Z.eq_dec k 0) as [->|].
  - apply Z.lxor_eq. by rewrite E.
  - pose proof (clmul_ge k P n ltac:(lia) Hn Hp). pose proof (lxor_lt a b n Hn Ha Hb). lia.
Qed.
End cong.
#[global] Instance cong_Equivalence P : 0 <= P -> Equivalence (cong P).
Proof.
  intros HP. split; [exact (cong_refl P)|exact (cong_sym P)|].
  intros a b c. by apply cong_trans.
Qed.
