(* ===== verification/CrcSimd.v ===== *)
(** The CRC by carry-less multiplication that the physical layer runs on x86 and
    ARM (src/openair1/PHY/CODING/crc.h and crcext.h), with the vector
    instructions it uses. A 128-bit register is a non-negative integer, byte 0
    of memory in its low bits. *)

From stdpp Require Import base tactics list numbers.
From Stdlib Require Import ZArith Lia.
From S2P Require Import Prelude Gf2.

(** ** Vector instructions *)

(** the integer of little-endian bytes *)
Fixpoint le (bs : list Z) : Z :=
  match bs with
  | [] => 0
  | b :: bs => b + 256 * le bs
  end.

Definition byte_at (r i : Z) : Z := Z.land (Z.shiftr r (8 * i)) 255.

(** [_mm_loadu_si128] of 16 bytes at offset [off] *)
Definition mm_loadu (mem : list Z) (off : Z) : outcome Z :=
  bs ← mem_read mem off 16; Ret (le bs).

(** [_mm_shuffle_epi8] *)
Definition mm_shuffle_epi8 (a mask : Z) : Z :=
  le (map (fun i => let m := byte_at mask i in
                    if Z.testbit m 7 then 0 else byte_at a (Z.land m 15)) (seqZ 0 16)).

Definition mm_slli_si128 (r n : Z) : Z := Z.land (Z.shiftl r (8 * n)) (Z.ones 128).
Definition mm_srli_si128 (r n : Z) : Z := Z.shiftr r (8 * n).

(** [_mm_insert_epi32(_mm_setzero_si128(), v, 0)] and [_mm_extract_epi32(r, 0)] *)
Definition mm_insert0_epi32 (v : Z) : Z := u32 v.
Definition mm_extract0_epi32 (r : Z) : Z := Z.land r (Z.ones 32).

(** [_mm_clmulepi64_si128]: bits 0 and 4 of [imm] choose the halves *)
Definition mm_clmulepi64 (a b imm : Z) : Z :=
  clmul (if Z.testbit imm 0 then Z.shiftr a 64 else Z.land a (Z.ones 64))
        (if Z.testbit imm 4 then Z.shiftr b 64 else Z.land b (Z.ones 64)).

(** two neighbouring 64-bit fields loaded as one register *)
Definition mm_pair (lo hi : Z) : Z := Z.lor lo (Z.shiftl hi 64).

Definition bswap4 (val : Z) : Z :=
  Z.lor (Z.lor (Z.lor (Z.shiftr val 24) (Z.shiftr (Z.land val 0xff0000) 8))
    (u32 (Z.shiftl (Z.land val 0xff00) 8))) (u32 (Z.shiftl val 24)).

(** ** Byte shifts by a variable number of bytes *)

Definition crc_xmm_shift_tab : list Z := replicate 16 0xff ++ seqZ 0 16 ++ replicate 16 0xff.

Definition xmm_shift_right (reg num : Z) : outcome Z :=
  mask ← mm_loadu crc_xmm_shift_tab (16 + num); Ret (mm_shuffle_epi8 reg mask).

Definition xmm_shift_left (reg num : Z) : outcome Z :=
  mask ← mm_loadu crc_xmm_shift_tab (16 - num); Ret (mm_shuffle_epi8 reg mask).

(** ** Folding and reduction *)

Record crc_pclmulqdq_ctx := mk_ctx { ctx_k1 : Z; ctx_k2 : Z; ctx_k3 : Z; ctx_q : Z; ctx_p : Z; ctx_res : Z }.

Definition crc32_folding_round (data_block k1_k2 fold : Z) : Z :=
  let tmp := mm_clmulepi64 fold k1_k2 0x11 in
  Z.lxor (mm_clmulepi64 fold k1_k2 0x00) (Z.lxor data_block tmp).

Definition crc32_reduce_128_to_64 (data128 k3_q : Z) : Z :=
  let tmp := Z.lxor (mm_clmulepi64 data128 k3_q 0x01) data128 in
  let data128 := Z.lxor (mm_clmulepi64 tmp k3_q 0x01) data128 in
  mm_srli_si128 (mm_slli_si128 data128 8) 8.

Definition crc32_reduce_64_to_32 (fold k3_q p_res : Z) : Z :=
  let temp := mm_clmulepi64 (mm_srli_si128 fold 4) k3_q 0x10 in
  let temp := mm_srli_si128 (Z.lxor temp fold) 4 in
  let temp := mm_clmulepi64 temp p_res 0 in
  mm_extract0_epi32 (Z.lxor temp fold).

Section calc.
(** the register set by [crcTableInit] *)
Context (crc_xmm_be_le_swap128 : Z).

(** a block of data in big-endian order *)
Definition load_be (data : list Z) (off : Z) : outcome Z :=
  r ← mm_loadu data off; Ret (mm_shuffle_epi8 r crc_xmm_be_le_swap128).

(** [for (; n < data_len - 16; n += 16)]; returns the register and [n] *)
Fixpoint fold_loop (fuel : nat) (data : list Z) (data_len k n fold : Z) : outcome (Z * Z) :=
  match fuel with
  | O => Diverge
  | S fuel =>
      if n <? u32 (data_len - 16) then
        new_data ← load_be data n;
        fold_loop fuel data data_len k (u32 (n + 16)) (crc32_folding_round new_data k fold)
      else Ret (fold, n)
  end.

(** the folding of all data into one register; [data_len] includes the four bytes
    added for the multiplication by [x^32] *)
Definition fold_short (data : list Z) (data_len crc : Z) : outcome Z :=
  fold ← load_be data 0;
  fold ← xmm_shift_right fold (20 - data_len);
  let fold := mm_slli_si128 fold 4 in
  temp ← xmm_shift_left (mm_insert0_epi32 (bswap4 crc)) (data_len - 4);
  Ret (Z.lxor fold temp).

Definition fold_long (data : list Z) (data_len crc : Z) (params : crc_pclmulqdq_ctx) : outcome Z :=
  fold ← mm_loadu data 0;
  let n := Z.land (u32 (u32 (Z.lnot data_len) + 1)) 15 in
  let fold := Z.lxor fold (mm_insert0_epi32 crc) in
  let fold := mm_shuffle_epi8 fold crc_xmm_be_le_swap128 in
  next_data ← load_be data 16;
  lo ← xmm_shift_right next_data n;
  hi ← xmm_shift_left fold (16 - n);
  let next_data := Z.lor lo hi in
  fold ← xmm_shift_right fold n;
  let next_data := if data_len <=? 32 then mm_slli_si128 (mm_srli_si128 next_data 4) 4 else next_data in
  let k := mm_pair (ctx_k1 params) (ctx_k2 params) in
  let fold := crc32_folding_round next_data k fold in
  if 32 <? data_len then
    '(fold, n) ← fold_loop (Z.to_nat data_len) data data_len k (16 + 16 - n) fold;
    new_data ← load_be data (n - 4);
    let new_data := mm_slli_si128 new_data 4 in
    Ret (crc32_folding_round new_data k fold)
  else Ret fold.

Definition crc32_calc_pclmulqdq (data : list Z) (data_len crc : Z) (params : crc_pclmulqdq_ctx) : outcome Z :=
  if data_len =? 0 then Ret crc
  else
    let data_len := u32 (data_len + 4) in
    fold ← (if data_len <=? 16 then fold_short data data_len crc else fold_long data data_len crc params);
    let k := mm_pair (ctx_k3 params) (ctx_q params) in
    let fold := crc32_reduce_128_to_64 fold k in
    Ret (crc32_reduce_64_to_32 fold k (mm_pair (ctx_p params) (ctx_res params))).
End calc.
