(* ===== verification/Crc.v ===== *)
(** The CRCs of the physical layer (src/openair1/PHY/CODING/crc_byte.c): the
    bitwise reference, the tables, the byte-wise functions with their handling
    of a last partial byte, and the check of a received block. *)

From stdpp Require Import base tactics list numbers.
From Stdlib Require Import ZArith Lia.
From S2P Require Import Prelude CrcSimd.

(** the generator polynomials, in the high bits and without their leading term *)
Definition poly24a : Z := 0x864cfb00.
Definition poly24b : Z := 0x80006300.
Definition poly24c : Z := 0xb2b11700.
Definition poly16 : Z := 0x10210000.
Definition poly12 : Z := 0x80F00000.
Definition poly8 : Z := 0x9B000000.
Definition poly6 : Z := 0x84000000.
Definition poly11 : Z := 0xc4200000.

(** ** Bit by bit *)

(** [for (i = 8; i != 0; i--)] *)
Fixpoint crcbit_bits (i : nat) (poly crc c : Z) : Z :=
  match i with
  | O => crc
  | S i =>
      let crc := if negb (Z.land (Z.shiftl 1 31) (Z.lxor c crc) =? 0)
                 then Z.lxor (u32 (Z.shiftl crc 1)) poly else u32 (Z.shiftl crc 1) in
      crcbit_bits i poly crc (u32 (Z.shiftl c 1))
  end.

(** [while (octetlen-- > 0)]; [inputptr] has advanced by [pos] *)
Fixpoint crcbit_loop (octetlen : nat) (inputptr : list Z) (poly pos crc : Z) : outcome Z :=
  match octetlen with
  | O => Ret crc
  | S octetlen =>
      b ← rd inputptr pos;
      crcbit_loop octetlen inputptr poly (pos + 1) (crcbit_bits 8 poly crc (Z.shiftl b 24))
  end.

Definition crcbit (inputptr : list Z) (octetlen poly : Z) : outcome Z :=
  crcbit_loop (Z.to_nat octetlen) inputptr poly 0 0.

(** ** Tables *)

Record crc_tables := mk_tables {
  crc24aTable : list Z; crc24bTable : list Z; crc24cTable : list Z; crc16Table : list Z;
  crc12Table : list Z; crc11Table : list Z; crc8Table : list Z; crc6Table : list Z;
  crc_xmm_be_le_swap128 : Z
}.

(** static storage before [crcTableInit] *)
Definition zero_tables : crc_tables :=
  let t := replicate 256 0 in mk_tables t t t t t t t t 0.

Definition init_entry (table : list Z) (c poly shift : Z) : outcome (list Z) :=
  v ← crcbit [c] 1 poly; wr table c (Z.shiftr v shift).

(** one round of the loop of [crcTableInit] *)
Definition init_row (T : crc_tables) (c : Z) : outcome crc_tables :=
  t24a ← init_entry (crc24aTable T) c poly24a 0;
  t24b ← init_entry (crc24bTable T) c poly24b 0;
  t24c ← init_entry (crc24cTable T) c poly24c 0;
  t16 ← init_entry (crc16Table T) c poly16 16;
  t12 ← init_entry (crc12Table T) c poly12 16;
  t11 ← init_entry (crc11Table T) c poly11 16;
  t8 ← init_entry (crc8Table T) c poly8 24;
  t6 ← init_entry (crc6Table T) c poly6 24;
  Ret (mk_tables t24a t24b t24c t16 t12 t11 t8 t6 (crc_xmm_be_le_swap128 T)).

(** [do ... while (++c)] with [c] of eight bits *)
Fixpoint init_loop (fuel : nat) (T : crc_tables) (c : Z) : outcome crc_tables :=
  match fuel with
  | O => Diverge
  | S fuel =>
      T ← init_row T c;
      let c := u8 (c + 1) in
      if negb (c =? 0) then init_loop fuel T c else Ret T
  end.

(** [_mm_setr_epi32] *)
Definition mm_setr_epi32 (a b c d : Z) : Z :=
  Z.lor (Z.lor a (Z.shiftl b 32)) (Z.lor (Z.shiftl c 64) (Z.shiftl d 96)).

Definition crcTableInit (T : crc_tables) : outcome crc_tables :=
  T ← init_loop 256 T 0;
  Ret (mk_tables (crc24aTable T) (crc24bTable T) (crc24cTable T) (crc16Table T)
         (crc12Table T) (crc11Table T) (crc8Table T) (crc6Table T)
         (mm_setr_epi32 0x0c0d0e0f 0x08090a0b 0x04050607 0x00010203)).

(** ** Byte by byte *)

(** the loop over whole bytes; [upd] combines the register and the table entry *)
Fixpoint lut_loop (octetlen : nat) (upd : Z -> Z -> Z) (table inptr : list Z) (pos crc : Z) : outcome Z :=
  match octetlen with
  | O => Ret crc
  | S octetlen =>
      b ← rd inptr pos;
      t ← rd table (Z.lxor b (Z.shiftr crc 24));
      lut_loop octetlen upd table inptr (pos + 1) (upd crc t)
  end.

(** the body the functions share; a last partial byte is in the high bits *)
Definition lut_crc (upd : Z -> Z -> Z) (shift : Z) (table inptr : list Z) (bitlen : Z) : outcome Z :=
  let octetlen := Z.quot bitlen 8 in
  let resbit := bitlen %% 8 in
  crc ← lut_loop (Z.to_nat octetlen) upd table inptr 0 0;
  if 0 <? resbit then
    b ← rd inptr octetlen;
    t ← rd table (Z.lxor (Z.shiftr b (8 - resbit)) (Z.shiftr crc (32 - resbit)));
    Ret (Z.lxor (u32 (Z.shiftl crc resbit)) (u32 (Z.shiftl t shift)))
  else Ret crc.

Definition upd24 (crc t : Z) : Z := Z.lxor (u32 (Z.shiftl crc 8)) t.
Definition upd16 (crc t : Z) : Z := Z.lxor (u32 (Z.shiftl crc 8)) (u32 (Z.shiftl t 16)).
Definition upd8 (crc t : Z) : Z := u32 (Z.shiftl t 24).

Definition lte_crc24a_pclmulqdq : crc_pclmulqdq_ctx :=
  mk_ctx 0x64e4d700 0x2c8c9d00 0xd9fe8c00 0xf845fe24 0x864cfb00 0.
Definition lte_crc24b_pclmulqdq : crc_pclmulqdq_ctx :=
  mk_ctx 0x80140500 0x42000100 0x90042100 0xffff83ff 0x80006300 0.

Section crc.
(** USE_INTEL_CRC, set by the compiler for SSE 4.1 and ARM *)
Context (USE_INTEL_CRC : bool) (T : crc_tables).

Definition crc24a (inptr : list Z) (bitlen : Z) : outcome Z :=
  if negb (bitlen %% 8 =? 0) || negb USE_INTEL_CRC
  then lut_crc upd24 0 (crc24aTable T) inptr bitlen
  else crc32_calc_pclmulqdq (crc_xmm_be_le_swap128 T) inptr (u32 (Z.quot bitlen 8)) 0 lte_crc24a_pclmulqdq.

Definition crc24b (inptr : list Z) (bitlen : Z) : outcome Z :=
  if negb (bitlen %% 8 =? 0) || negb USE_INTEL_CRC
  then lut_crc upd24 0 (crc24bTable T) inptr bitlen
  else crc32_calc_pclmulqdq (crc_xmm_be_le_swap128 T) inptr (u32 (Z.quot bitlen 8)) 0 lte_crc24b_pclmulqdq.

Definition crc24c : list Z -> Z -> outcome Z := lut_crc upd24 0 (crc24cTable T).
Definition crc16 : list Z -> Z -> outcome Z := lut_crc upd16 16 (crc16Table T).
Definition crc12 : list Z -> Z -> outcome Z := lut_crc upd16 16 (crc12Table T).
Definition crc11 : list Z -> Z -> outcome Z := lut_crc upd16 16 (crc11Table T).
Definition crc8 : list Z -> Z -> outcome Z := lut_crc upd8 24 (crc8Table T).
Definition crc6 : list Z -> Z -> outcome Z := lut_crc upd8 24 (crc6Table T).

(** ** Check of a block *)

Definition CRC24_A : Z := 0.
Definition CRC24_B : Z := 1.
Definition CRC16 : Z := 2.
Definition CRC8 : Z := 3.

(** the default case, [AssertFatal(1, ...)], never fires *)
Definition crc_len (crc_type : Z) : Z :=
  if (crc_type =? CRC24_A) || (crc_type =? CRC24_B) then 3
  else if crc_type =? CRC16 then 2
  else if crc_type =? CRC8 then 1
  else 0.

(** [for (int i = 0; i < crc_len; i++)] *)
Fixpoint read_crc (rounds : nat) (decoded_bytes : list Z) (n len i oldcrc : Z) : outcome Z :=
  match rounds with
  | O => Ret oldcrc
  | S rounds =>
      b ← rd decoded_bytes (u32 (u32 (Z.shiftr n 3 - len) + i));
      read_crc rounds decoded_bytes n len (i + 1)
        (Z.lor oldcrc (Z.shiftl b (Z.shiftl (len - 1 - i) 3)))
  end.

(** [n - 24] is unsigned and then taken as an [int] *)
Definition int_of_u32 (x : Z) : Z := if u32 x <? 2 ^ 31 then u32 x else u32 x - 2 ^ 32.

Definition check_crc (decoded_bytes : list Z) (n : Z) (crc_type : Z) : outcome bool :=
  oldcrc ← read_crc (Z.to_nat (crc_len crc_type)) decoded_bytes n (crc_len crc_type) 0 0;
  '(crc, oldcrc) ←
    (if crc_type =? CRC24_A then
       crc ← crc24a decoded_bytes (int_of_u32 (n - 24));
       Ret (Z.shiftr crc 8, Z.land oldcrc 0x00ffffff)
     else if crc_type =? CRC24_B then
       crc ← crc24b decoded_bytes (int_of_u32 (n - 24));
       Ret (Z.shiftr crc 8, Z.land oldcrc 0x00ffffff)
     else if crc_type =? CRC16 then
       crc ← crc16 decoded_bytes (int_of_u32 (n - 16));
       Ret (Z.shiftr crc 16, Z.land oldcrc 0x0000ffff)
     else if crc_type =? CRC8 then
       crc ← crc8 decoded_bytes (int_of_u32 (n - 8));
       Ret (Z.shiftr crc 24, Z.land oldcrc 0x000000ff)
     else Ret (0, oldcrc));
  Ret (crc =? oldcrc).
End crc.
