(* ===== verification/CrcSpec.v ===== *)
(** What a CRC is, and that the bitwise and the table-driven code of crc_byte.c
    compute it: the register holds the remainder of the message, multiplied by
    [x^32], modulo the generator polynomial. *)

From stdpp Require Import base tactics list numbers.
From Stdlib Require Import ZArith Lia.
From S2P Require Import Prelude Gf2 CrcSimd Crc.

(** equalities between sums of polynomials *)
Ltac xor_ring :=
  apply Z.bits_inj; intros ?; rewrite ?Z.lxor_spec, ?Z.bits_0;
  repeat match goal with |- context [Z.testbit ?a ?n] => destruct (Z.testbit a n) end; reflexivity.

(** ** Bits *)

Lemma shiftl_nonneg a n : 0 <= a -> 0 <= Z.shiftl a n.
Proof. by intros; apply Z.shiftl_nonneg. Qed.

Lemma lxor_nonneg a b : 0 <= a -> 0 <= b -> 0 <= Z.lxor a b.
Proof. intros. apply Z.lxor_nonneg. lia. Qed.

Lemma shiftr_nonneg a n : 0 <= a -> 0 <= Z.shiftr a n.
Proof. by intros; apply Z.shiftr_nonneg. Qed.

Create HintDb gf2.
#[export] Hint Resolve shiftl_nonneg shiftr_nonneg lxor_nonneg clmul_nonneg : gf2.

Lemma testbit_high x n k : 0 <= n <= k -> 0 <= x < 2 ^ n -> Z.testbit x k = false.
Proof.
  intros Hk Hx. apply Z.testbit_false; [lia|]. rewrite Z.div_small; [done|]. split; [lia|].
  eapply Z.lt_le_trans; [apply Hx|]. apply Z.pow_le_mono_r; lia.
Qed.

Lemma shiftl_land_0 a b n : 0 <= n -> 0 <= b < 2 ^ n -> Z.land (Z.shiftl a n) b = 0.
Proof.
  intros Hn Hb. apply Z.bits_inj'. intros k Hk. rewrite Z.land_spec, Z.bits_0. destruct (Z_lt_ge_dec k n).
  - by rewrite Z.shiftl_spec_low by done.
  - rewrite (testbit_high b n k) by lia. apply andb_false_r.
Qed.

(** appending [n] bits *)
Lemma shiftl_lxor_add a b n : 0 <= n -> 0 <= b < 2 ^ n -> Z.lxor (Z.shiftl a n) b = a * 2 ^ n + b.
Proof.
  intros Hn Hb. rewrite <- Z.shiftl_mul_pow2 by done. symmetry. by apply Z.add_nocarry_lxor, shiftl_land_0.
Qed.

(** a number in terms of its high and its low bits *)
Lemma split_at x k : 0 <= k -> x = Z.lxor (Z.shiftl (Z.shiftr x k) k) (x mod 2 ^ k).
Proof.
  intros Hk. rewrite shiftl_lxor_add by (done || (apply Z.mod_pos_bound; lia)).
  rewrite Z.shiftr_div_pow2 by done. rewrite Z.mul_comm. apply Z.div_mod. lia.
Qed.

Lemma shiftr_lt x m n : 0 <= n <= m -> 0 <= x < 2 ^ m -> 0 <= Z.shiftr x n < 2 ^ (m - n).
Proof.
  intros Hn Hx. rewrite Z.shiftr_div_pow2 by lia. split; [apply Z.div_pos; lia|].
  apply Z.div_lt_upper_bound; [lia|]. rewrite <- Z.pow_add_r by lia. replace (n + (m - n)) with m by lia. lia.
Qed.

Lemma lxor_add_pow x n : 0 <= n -> 0 <= x < 2 ^ n -> Z.lxor (2 ^ n) x = 2 ^ n + x.
Proof.
  intros Hn Hx. rewrite <- (Z.mul_1_l (2 ^ n)), <- Z.shiftl_mul_pow2 at 1 by done.
  rewrite shiftl_lxor_add by done. lia.
Qed.

(** multiplication and powers of [x] *)
Lemma clmul_shiftl_r a b n : 0 <= a -> 0 <= b -> 0 <= n -> clmul a (Z.shiftl b n) = Z.shiftl (clmul a b) n.
Proof.
  intros. rewrite <- (clmul_pow b), <- (clmul_pow (clmul a b)) by auto with gf2.
  rewrite clmul_assoc; [done|done|done|lia].
Qed.

(** ** Messages

    The bytes of a message, the most significant bit first. *)
Definition be (bs : list Z) : Z := foldl (fun acc b => 256 * acc + b) 0 bs.

Lemma be_snoc bs b : be (bs ++ [b]) = 256 * be bs + b.
Proof. unfold be. by rewrite foldl_app. Qed.

Lemma be_app a b : be (a ++ b) = be a * 256 ^ zlen b + be b.
Proof.
  revert a. induction b as [|x b IH] using rev_ind; intros a.
  { rewrite app_nil_r, zlen_nil. cbn. lia. }
  rewrite app_assoc, !be_snoc, IH, zlen_app, Z.pow_add_r by apply zlen_nonneg.
  rewrite zlen_cons, zlen_nil. lia.
Qed.

Lemma be_range bs : Forall byte_ok bs -> 0 <= be bs < 256 ^ zlen bs.
Proof.
  induction bs as [|b bs IH] using rev_ind; intros H; [done|].
  apply Forall_app in H as [H1 H2]. inversion_clear H2 as [|? ? Hb]. unfold byte_ok in Hb.
  specialize (IH H1). rewrite be_snoc, zlen_app, Z.pow_add_r by apply zlen_nonneg.
  change (256 ^ zlen [b]) with 256. lia.
Qed.

Lemma be_nonneg bs : Forall byte_ok bs -> 0 <= be bs.
Proof. intros H. apply be_range in H. lia. Qed.

Lemma rd_lookup bs (i : nat) b : bs !! i = Some b -> rd bs (Z.of_nat i) = Ret b.
Proof.
  intros H. unfold rd. rewrite (proj2 (Z.ltb_ge _ _)) by lia. by rewrite Nat2Z.id, H.
Qed.

(** the first [n] bits of a buffer *)
Definition msg (bs : list Z) (n : Z) : Z :=
  Z.shiftr (be (take (Z.to_nat ((n + 7) / 8)) bs)) ((- n) mod 8).

(** ** The remainder *)

(** generator polynomial with its leading term *)
Definition gen (poly : Z) : Z := 2 ^ 32 + poly.

(** [r] is the CRC register for the message [M]: the remainder of [M x^32] *)
Definition is_crc (poly M r : Z) : Prop := 0 <= r < 2 ^ 32 /\ cong (gen poly) r (Z.shiftl M 32).

Section poly.
Context (poly : Z) (Hpoly : 0 <= poly < 2 ^ 32).

Lemma gen_pos : 0 <= gen poly.
Proof. unfold gen. lia. Qed.

Lemma is_crc_unique M r r' : is_crc poly M r -> is_crc poly M r' -> r = r'.
Proof.
  intros [Hr H1] [Hr' H2]. pose proof gen_pos. eapply (cong_unique (gen poly) 32); try done.
  - unfold gen. lia.
  - eapply cong_trans; [done|exact H1|]. by apply cong_sym.
Qed.

(** [x^32] reduces to the generator without its leading term *)
Lemma cong_x32 : cong (gen poly) poly (2 ^ 32).
Proof. exists 1. split; [done|]. rewrite Z.lxor_comm, lxor_add_pow by lia. done. Qed.

Lemma is_crc_0 : is_crc poly 0 0.
Proof. split; [lia|]. rewrite Z.shiftl_0_l. apply cong_refl. Qed.

Lemma is_crc_1 : is_crc poly 1 poly.
Proof. split; [done|]. rewrite Z.shiftl_mul_pow2, Z.mul_1_l by lia. apply cong_x32. Qed.

(** [n] more bits [b] of message: the bits shifted out of the register and the
    new ones choose the remainder [t] that is added *)
Lemma is_crc_step M crc n b t :
  0 <= M -> 0 <= n <= 32 -> 0 <= b < 2 ^ n -> is_crc poly M crc ->
  is_crc poly (Z.lxor b (Z.shiftr crc (32 - n))) t ->
  is_crc poly (M * 2 ^ n + b) (Z.lxor (u32 (Z.shiftl crc n)) t).
Proof.
  intros HM Hn Hb [Hcrc H1] [Ht H2]. pose proof gen_pos as HP. split; [apply lxor_lt; [lia|apply u32_range|done]|].
  rewrite <- shiftl_lxor_add by lia.
  assert (Hhi : Z.shiftl (Z.shiftr crc (32 - n)) 32 = Z.lxor (Z.shiftl crc n) (u32 (Z.shiftl crc n))).
  { rewrite (split_at (Z.shiftl crc n) 32) at 1 by lia. unfold u32.
    rewrite Z.shiftr_shiftl_r by lia. xor_ring. }
  eapply cong_trans; [done|apply cong_lxor; [done|apply cong_refl|exact H2]|].
  rewrite !Z.shiftl_lxor, Hhi, Z.shiftl_shiftl by lia.
  replace (n + 32) with (32 + n) by lia. rewrite <- Z.shiftl_shiftl by lia.
  apply (cong_shiftl _ HP _ _ n) in H1; [|lia|by apply shiftl_nonneg|lia].
  pose proof (cong_lxor _ HP _ _ _ _ H1 (cong_refl _ (Z.shiftl b 32))) as H.
  eapply cong_trans; [done| |exact H]. replace (Z.lxor (u32 _) _) with (Z.lxor (Z.shiftl crc n) (Z.shiftl b 32)) by xor_ring.
  apply cong_refl.
Qed.

(** ** Bit by bit *)

(** the test of the top bit *)
Lemma top_bit_xor c crc : 0 <= c < 2 ^ 32 -> 0 <= crc < 2 ^ 32 ->
  Z.land (Z.shiftl 1 31) (Z.lxor c crc) = Z.shiftl (Z.lxor (Z.shiftr c 31) (Z.shiftr crc 31)) 31.
Proof.
  intros Hc Hr. rewrite <- Z.shiftr_lxor. pose proof (lxor_lt c crc 32 ltac:(lia) Hc Hr) as Hl.
  set (x := Z.lxor c crc) in *. apply Z.bits_inj'. intros k Hk. rewrite Z.land_spec.
  destruct (Z.lt_trichotomy k 31) as [|[->|]].
  - by rewrite !Z.shiftl_spec_low by lia.
  - rewrite !Z.shiftl_spec by lia. rewrite Z.shiftr_spec by lia. done.
  - rewrite !Z.shiftl_spec, Z.shiftr_spec by lia. replace (k - 31 + 31) with k by lia.
    rewrite (testbit_high x 32 k) by lia. apply andb_false_r.
Qed.

Lemma crcbit_step M crc c :
  0 <= M -> 0 <= c < 2 ^ 32 -> is_crc poly M crc ->
  is_crc poly (M * 2 ^ 1 + Z.shiftr c 31)
    (if negb (Z.land (Z.shiftl 1 31) (Z.lxor c crc) =? 0)
     then Z.lxor (u32 (Z.shiftl crc 1)) poly else u32 (Z.shiftl crc 1)).
Proof.
  intros HM Hc Hcrc. destruct (Hcrc) as [Hr _].
  pose proof (shiftr_lt c 32 31 ltac:(lia) Hc) as Hb. pose proof (shiftr_lt crc 32 31 ltac:(lia) Hr) as Ht.
  simpl in Hb, Ht. rewrite top_bit_xor by done.
  pose proof (is_crc_step M crc 1 (Z.shiftr c 31)) as Hs. change (32 - 1) with 31 in Hs.
  assert (Hbits : Z.lxor (Z.shiftr c 31) (Z.shiftr crc 31) = 0 \/ Z.lxor (Z.shiftr c 31) (Z.shiftr crc 31) = 1).
  { pose proof (lxor_lt (Z.shiftr c 31) (Z.shiftr crc 31) 1). lia. }
  destruct Hbits as [E|E]; rewrite E in Hs |- *; simpl (negb _).
  - rewrite <- (Z.lxor_0_r (u32 (Z.shiftl crc 1))). apply Hs; [done|lia|simpl; lia|done|apply is_crc_0].
  - apply Hs; [done|lia|simpl; lia|done|apply is_crc_1].
Qed.

(** the top [i + 1] bits are the top one and the [i] below it *)
Lemma top_bits c i : 0 <= i <= 31 ->
  Z.shiftr c (31 - i) = Z.shiftr c 31 * 2 ^ i + Z.shiftr (u32 (Z.shiftl c 1)) (32 - i).
Proof.
  intros Hi. rewrite !Z.shiftr_div_pow2, Z.shiftl_mul_pow2 by lia. unfold u32.
  assert (E : c * 2 ^ 1 mod 2 ^ 32 / 2 ^ (32 - i) = c mod 2 ^ 31 / 2 ^ (31 - i)).
  { change (2 ^ 32) with (2 ^ 31 * 2 ^ 1). rewrite Z.mul_mod_distr_r by lia.
    replace (32 - i) with (31 - i + 1) by lia. rewrite Z.pow_add_r by lia.
    rewrite Z.div_mul_cancel_r by lia. done. }
  rewrite E, (Z.div_mod c (2 ^ 31)) at 1 by lia.
  replace (2 ^ 31 * (c / 2 ^ 31)) with (c / 2 ^ 31 * 2 ^ i * 2 ^ (31 - i)).
  2: { rewrite <- Z.mul_assoc, <- Z.pow_add_r by lia. replace (i + _) with 31 by lia. lia. }
  rewrite Z.div_add_l by lia. lia.
Qed.

Lemma crcbit_bits_ok i : forall M crc c,
  (i <= 32)%nat -> 0 <= M -> 0 <= c < 2 ^ 32 -> is_crc poly M crc ->
  is_crc poly (M * 2 ^ Z.of_nat i + Z.shiftr c (32 - Z.of_nat i)) (crcbit_bits i poly crc c).
Proof.
  induction i as [|i IH]; intros M crc c Hi HM Hc Hcrc; simpl crcbit_bits.
  { rewrite Z.sub_0_r, Z.shiftr_div_pow2, Z.div_small, Z.mul_1_r, Z.add_0_r by lia. done. }
  replace (32 - Z.of_nat (S i)) with (31 - Z.of_nat i) by lia. rewrite top_bits by lia.
  replace (M * 2 ^ Z.of_nat (S i) + _)
    with ((M * 2 ^ 1 + Z.shiftr c 31) * 2 ^ Z.of_nat i + Z.shiftr (u32 (Z.shiftl c 1)) (32 - Z.of_nat i)).
  2: { replace (Z.of_nat (S i)) with (1 + Z.of_nat i) by lia. rewrite Z.pow_add_r by lia. lia. }
  apply IH; [lia| |apply u32_range|by apply crcbit_step]. pose proof (shiftr_nonneg c 31). lia.
Qed.

Lemma crcbit_loop_ok bs n : forall pos crc,
  Forall byte_ok bs -> (pos + n <= length bs)%nat -> is_crc poly (be (take pos bs)) crc ->
  returns (crcbit_loop n bs poly (Z.of_nat pos) crc) (is_crc poly (be (take (pos + n) bs))).
Proof.
  induction n as [|n IH]; intros pos crc Hbs Hn Hcrc; cbn [crcbit_loop].
  { apply returns_Ret. by rewrite Nat.add_0_r. }
  destruct (lookup_lt_is_Some_2 bs pos ltac:(lia)) as [b Hb].
  pose proof (proj1 (Forall_lookup _ _) Hbs _ _ Hb) as Hok. unfold byte_ok in Hok.
  rewrite (rd_lookup bs pos b Hb), bind_Ret_l.
  replace (Z.of_nat pos + 1) with (Z.of_nat (S pos)) by lia. rewrite <- Nat.add_succ_comm.
  apply IH; [done|lia|]. rewrite (take_S_r _ _ _ Hb), be_snoc.
  pose proof (crcbit_bits_ok 8 (be (take pos bs)) crc (Z.shiftl b 24)) as H.
  revert H. generalize (crcbit_bits 8 poly crc (Z.shiftl b 24)). intros r H. change (32 - Z.of_nat 8) with 24 in H. change (2 ^ Z.of_nat 8) with 256 in H.
  rewrite Z.shiftr_shiftl_l, Z.shiftl_0_r in H by lia. rewrite Z.mul_comm. apply H; [lia| | |done].
  - apply be_nonneg. by apply Forall_take.
  - rewrite Z.shiftl_mul_pow2 by lia. lia.
Qed.

Lemma crcbit_ok bs n :
  Forall byte_ok bs -> 0 <= n <= zlen bs ->
  returns (crcbit bs n poly) (is_crc poly (be (take (Z.to_nat n) bs))).
Proof.
  intros Hbs Hn. unfold crcbit, zlen in *. apply (crcbit_loop_ok bs (Z.to_nat n) 0); [done|lia|].
  apply is_crc_0.
Qed.
End poly.

(** The table-driven CRC functions of crc_byte.c: the tables [crcTableInit]
    writes, whole bytes and a last partial byte, and the eight CRCs of 4G and 5G
    as remainders of the width the standard gives. *)

(** ** Tables *)

Record table_ok (poly shift : Z) (table : list Z) : Prop := {
  to_entry : forall c, 0 <= c < 256 -> exists v,
    rd table c = Ret v /\ 0 <= v < 2 ^ 32 /\ is_crc poly c (u32 (Z.shiftl v shift))
}.

(** the entries agree with the bitwise code *)
Definition table_check (poly shift : Z) (table : list Z) : bool :=
  forallb (fun c => match rd table c, crcbit [c] 1 poly with
    | Ret v, Ret r => (0 <=? v) && (v <? 2 ^ 32) && (u32 (Z.shiftl v shift) =? r)
    | _, _ => false end) (seqZ 0 256).

Lemma table_check_ok poly shift table :
  0 <= poly < 2 ^ 32 -> table_check poly shift table = true -> table_ok poly shift table.
Proof.
  intros Hp H. constructor. intros c Hc. unfold table_check in H. rewrite forallb_forall in H.
  specialize (H c). rewrite <- list_elem_of_In, elem_of_seqZ in H. specialize (H ltac:(lia)).
  destruct (crcbit_ok poly Hp [c] 1) as (r & Hr & Hcrc).
  { by constructor. }
  { unfold zlen. simpl. lia. }
  rewrite Hr in H. destruct (rd table c) as [v| | |]; try done. exists v. bool_prop.
  split; [done|]. split; [lia|]. replace (u32 (Z.shiftl v shift)) with r by done.
  change (take (Z.to_nat 1) [c]) with [c] in Hcrc. change (be [c]) with (256 * 0 + c) in Hcrc.
  replace (256 * 0 + c) with c in Hcrc by lia. done.
Qed.

(** the eight CRCs *)
Inductive crc_kind := K24a | K24b | K24c | K16 | K12 | K11 | K8 | K6.

Definition poly_of (k : crc_kind) : Z :=
  match k with
  | K24a => poly24a | K24b => poly24b | K24c => poly24c | K16 => poly16
  | K12 => poly12 | K11 => poly11 | K8 => poly8 | K6 => poly6
  end.

(** number of check bits *)
Definition width (k : crc_kind) : Z :=
  match k with K24a | K24b | K24c => 24 | K16 => 16 | K12 => 12 | K11 => 11 | K8 => 8 | K6 => 6 end.

(** generators of 36.212 and 38.212 5.1, with their leading terms *)
Definition generator (k : crc_kind) : Z :=
  match k with
  | K24a => 0x1864cfb | K24b => 0x1800063 | K24c => 0x1b2b117 | K16 => 0x11021
  | K12 => 0x180f | K11 => 0xe21 | K8 => 0x19b | K6 => 0x61
  end.

Definition table_of (T : crc_tables) (k : crc_kind) : list Z :=
  match k with
  | K24a => crc24aTable T | K24b => crc24bTable T | K24c => crc24cTable T | K16 => crc16Table T
  | K12 => crc12Table T | K11 => crc11Table T | K8 => crc8Table T | K6 => crc6Table T
  end.

Definition shift_of (k : crc_kind) : Z :=
  match k with K24a | K24b | K24c => 0 | K16 | K12 | K11 => 16 | K8 | K6 => 24 end.

Definition upd_of (k : crc_kind) : Z -> Z -> Z :=
  match k with K24a | K24b | K24c => upd24 | K16 | K12 | K11 => upd16 | K8 | K6 => upd8 end.

Lemma poly_range k : 0 <= poly_of k < 2 ^ 32.
Proof. destruct k; vm_compute; split; congruence. Qed.

(** the register holds the generator in its high bits *)
Lemma gen_generator k : gen (poly_of k) = Z.shiftl (generator k) (32 - width k).
Proof. by destruct k. Qed.

Lemma width_range k : 6 <= width k <= 24.
Proof. destruct k; simpl; lia. Qed.

Lemma generator_range k : 2 ^ width k <= generator k < 2 ^ (width k + 1).
Proof. destruct k; vm_compute; split; congruence. Qed.

(** the tables after [crcTableInit] *)
Definition tables_ok (T : crc_tables) : Prop :=
  (forall k, table_ok (poly_of k) (shift_of k) (table_of T k)) /\
  crc_xmm_be_le_swap128 T = mm_setr_epi32 0x0c0d0e0f 0x08090a0b 0x04050607 0x00010203.

Definition tables_check (T : crc_tables) : bool :=
  forallb (fun k => table_check (poly_of k) (shift_of k) (table_of T k)) [K24a; K24b; K24c; K16; K12; K11; K8; K6].

Definition init_tables : crc_tables :=
  match crcTableInit zero_tables with Ret T => T | _ => zero_tables end.

Lemma init_tables_eq : crcTableInit zero_tables = Ret init_tables.
Proof. vm_compute. reflexivity. Qed.

Lemma init_tables_check : tables_check init_tables = true.
Proof. vm_compute. reflexivity. Qed.

Lemma init_tables_swap :
  crc_xmm_be_le_swap128 init_tables = mm_setr_epi32 0x0c0d0e0f 0x08090a0b 0x04050607 0x00010203.
Proof. vm_compute. reflexivity. Qed.

Lemma tables_check_ok T k : tables_check T = true -> table_ok (poly_of k) (shift_of k) (table_of T k).
Proof.
  intros H. apply table_check_ok; [apply poly_range|]. unfold tables_check in H. rewrite forallb_forall in H.
  apply H. destruct k; simpl; tauto.
Qed.

Lemma crcTableInit_ok : returns (crcTableInit zero_tables) (fun T => T = init_tables /\ tables_ok T).
Proof.
  rewrite init_tables_eq. apply returns_Ret. split; [reflexivity|]. split; [|exact init_tables_swap].
  intros k. apply tables_check_ok. exact init_tables_check.
Qed.

(** ** The width of the remainder *)

(** the register is the remainder modulo the generator, in the high bits *)
Definition remainder (k : crc_kind) (M r : Z) : Prop :=
  0 <= r < 2 ^ width k /\ cong (generator k) r (Z.shiftl M (width k)).

Lemma is_crc_remainder k M crc :
  0 <= M -> is_crc (poly_of k) M crc ->
  exists r, crc = Z.shiftl r (32 - width k) /\ r = Z.shiftr crc (32 - width k) /\ remainder k M r.
Proof.
  intros HM [Hr (q & Hq & E)]. pose proof (width_range k) as Hw. pose proof (generator_range k) as Hg.
  rewrite gen_generator, clmul_shiftl_r in E by lia.
  set (r := Z.lxor (clmul q (generator k)) (Z.shiftl M (width k))).
  assert (Hc : crc = Z.shiftl r (32 - width k)).
  { unfold r. rewrite Z.shiftl_lxor, <- E, Z.shiftl_shiftl by lia.
    replace (width k + (32 - width k)) with 32 by lia. xor_ring. }
  assert (Hs : r = Z.shiftr crc (32 - width k)) by (rewrite Hc, Z.shiftr_shiftl_l, Z.sub_diag by lia; done).
  exists r. split; [done|]. split; [done|]. split.
  - pose proof (shiftr_lt crc 32 (32 - width k) ltac:(lia) Hr) as H. rewrite <- Hs in H.
    by replace (32 - (32 - width k)) with (width k) in H by lia.
  - exists q. split; [done|]. unfold r. xor_ring.
Qed.

Lemma remainder_unique k M r r' : remainder k M r -> remainder k M r' -> r = r'.
Proof.
  pose proof (generator_range k). pose proof (width_range k). intros [Hr H1] [Hr' H2].
  eapply (cong_unique (generator k) (width k)); try lia.
  eapply cong_trans; [lia|exact H1|]. by apply cong_sym.
Qed.

(** ** Byte by byte *)

Section lut.
Context (k : crc_kind) (table : list Z) (Htable : table_ok (poly_of k) (shift_of k) table).

(** the byte-wise functions for short CRCs skip what is zero *)
Lemma upd_step M crc t : 0 <= M -> is_crc (poly_of k) M crc -> 0 <= t < 2 ^ 32 ->
  upd_of k crc t = Z.lxor (u32 (Z.shiftl crc 8)) (u32 (Z.shiftl t (shift_of k))).
Proof.
  intros HM Hcrc Ht. destruct (is_crc_remainder k M crc HM Hcrc) as (r & E & _).
  assert (Hz : width k <= 8 -> u32 (Z.shiftl crc 8) = 0).
  { intros Hw. rewrite E, Z.shiftl_shiftl, Z.shiftl_mul_pow2 by (pose proof (width_range k); lia). unfold u32.
    replace (32 - width k + 8) with ((8 - width k) + 32) by lia. rewrite Z.pow_add_r, Z.mul_assoc by lia.
    apply Z.mod_mul. lia. }
  destruct k; cbn [upd_of shift_of]; unfold upd24, upd16, upd8; rewrite ?Z.shiftl_0_r, ?(u32_small t) by lia; try done.
  all: rewrite Hz by (simpl; lia); by rewrite Z.lxor_0_l.
Qed.

(** the index stays inside the table *)
Lemma index_range b crc n : 0 <= n <= 8 -> 0 <= b < 2 ^ n -> 0 <= crc < 2 ^ 32 ->
  0 <= Z.lxor b (Z.shiftr crc (32 - n)) < 256.
Proof.
  intros Hn Hb Hc. pose proof (shiftr_lt crc 32 (32 - n) ltac:(lia) Hc) as Hs.
  replace (32 - (32 - n)) with n in Hs by lia. pose proof (lxor_lt b _ n ltac:(lia) Hb Hs).
  assert (2 ^ n <= 2 ^ 8) by (apply Z.pow_le_mono_r; lia). lia.
Qed.

Lemma lut_loop_ok bs n : forall pos crc,
  Forall byte_ok bs -> (pos + n <= length bs)%nat -> is_crc (poly_of k) (be (take pos bs)) crc ->
  returns (lut_loop n (upd_of k) table bs (Z.of_nat pos) crc) (is_crc (poly_of k) (be (take (pos + n) bs))).
Proof.
  induction n as [|n IH]; intros pos crc Hbs Hn Hcrc; cbn [lut_loop].
  { apply returns_Ret. by rewrite Nat.add_0_r. }
  destruct (lookup_lt_is_Some_2 bs pos ltac:(lia)) as [b Hb].
  pose proof (proj1 (Forall_lookup _ _) Hbs _ _ Hb) as Hok. unfold byte_ok in Hok.
  pose proof (be_nonneg _ (Forall_take _ pos _ Hbs)) as HM.
  rewrite (rd_lookup bs pos b Hb), bind_Ret_l.
  destruct (to_entry _ _ _ Htable _ (index_range b crc 8 ltac:(lia) ltac:(lia) (proj1 Hcrc))) as (t & Ht & Hr & Hcrc').
  change (32 - 8) with 24 in Ht. rewrite Ht, bind_Ret_l.
  replace (Z.of_nat pos + 1) with (Z.of_nat (S pos)) by lia. rewrite <- Nat.add_succ_comm.
  apply IH; [done|lia|]. rewrite (take_S_r _ _ _ Hb), be_snoc, (upd_step (be (take pos bs))), Z.mul_comm by done.
  apply (is_crc_step (poly_of k) (poly_range k) _ crc 8); [done|lia|simpl; lia|done|done].
Qed.

(** the first whole bytes and the bits of the next one *)
Lemma msg_split bs o r b :
  Forall byte_ok bs -> bs !! Z.to_nat o = Some b -> 0 <= o -> 0 < r < 8 ->
  msg bs (8 * o + r) = be (take (Z.to_nat o) bs) * 2 ^ r + Z.shiftr b (8 - r).
Proof.
  intros Hbs Hb Ho Hr. unfold msg.
  replace ((8 * o + r + 7) / 8) with (o + 1) by (apply (Z.div_unique _ _ _ (r - 1)); lia).
  replace ((- (8 * o + r)) mod 8) with (8 - r) by (apply (Z.mod_unique _ _ (- o - 1)); lia).
  replace (Z.to_nat (o + 1)) with (S (Z.to_nat o)) by lia. rewrite (take_S_r _ _ _ Hb), be_snoc.
  rewrite !Z.shiftr_div_pow2 by lia. replace 256 with (2 ^ r * 2 ^ (8 - r)).
  2: { rewrite <- Z.pow_add_r by lia. by replace (r + (8 - r)) with 8 by lia. }
  replace (2 ^ r * 2 ^ (8 - r) * _) with (be (take (Z.to_nat o) bs) * 2 ^ r * 2 ^ (8 - r)) by lia.
  by rewrite Z.div_add_l by lia.
Qed.

Lemma msg_bytes bs o : 0 <= o -> msg bs (8 * o) = be (take (Z.to_nat o) bs).
Proof.
  intros. unfold msg. replace ((8 * o + 7) / 8) with o by (apply (Z.div_unique _ _ _ 7); lia).
  replace (- (8 * o)) with ((- o) * 8) by lia. rewrite Z.mod_mul by lia. apply Z.shiftr_0_r.
Qed.

Lemma lut_crc_ok bs n :
  Forall byte_ok bs -> 0 <= n <= 8 * zlen bs ->
  returns (lut_crc (upd_of k) (shift_of k) table bs n) (is_crc (poly_of k) (msg bs n)).
Proof.
  intros Hbs Hn. unfold lut_crc. rewrite rem_mod, Z.quot_div_nonneg by lia.
  pose proof (Z.div_mod n 8 ltac:(lia)) as Hd. pose proof (Z.mod_pos_bound n 8 ltac:(lia)) as Hm.
  set (o := n / 8) in *. set (r := n mod 8) in *. unfold zlen in Hn.
  eapply returns_seq; [apply (lut_loop_ok bs (Z.to_nat o) 0); [done|lia|apply is_crc_0]|].
  intros crc Hcrc. cbn [Nat.add] in Hcrc. destruct (Z.ltb_spec 0 r).
  - destruct (lookup_lt_is_Some_2 bs (Z.to_nat o) ltac:(lia)) as [b Hb].
    pose proof (proj1 (Forall_lookup _ _) Hbs _ _ Hb) as Hok. unfold byte_ok in Hok.
    replace o with (Z.of_nat (Z.to_nat o)) at 1 by lia. rewrite (rd_lookup bs _ b Hb), bind_Ret_l.
    pose proof (shiftr_lt b 8 (8 - r) ltac:(lia) ltac:(lia)) as Hs. replace (8 - (8 - r)) with r in Hs by lia.
    destruct (to_entry _ _ _ Htable _ (index_range _ crc r ltac:(lia) Hs (proj1 Hcrc))) as (t & -> & Ht & Hcrc').
    rewrite bind_Ret_l. apply returns_Ret. rewrite Hd, (msg_split bs o r b) by (done || lia).
    apply (is_crc_step (poly_of k) (poly_range k)); [|lia|done|done|done].
    apply be_nonneg. by apply Forall_take.
  - apply returns_Ret. rewrite Hd. replace (8 * o + r) with (8 * o) by lia. rewrite msg_bytes by lia. done.
Qed.
End lut.
