(* ===== verification/CrcSimdSpec.v ===== *)
(** The CRC by carry-less multiplication computes the same remainder: the vector
    instructions in terms of integers, the folding of 16-byte blocks, the
    reductions to 64 and to 32 bits, and the loads at the ends of the data. *)

From stdpp Require Import base tactics list numbers.
From Stdlib Require Import ZArith Lia.
From S2P Require Import Prelude Gf2 CrcSimd Crc CrcSpec.

(** ** Registers and bytes *)

Lemma le_app a b : le (a ++ b) = le a + 256 ^ zlen a * le b.
Proof.
  induction a as [|x a IH]; cbn [le app]; [change (256 ^ zlen (@nil Z)) with 1; lia|].
  rewrite IH, zlen_cons, Z.pow_add_r by (pose proof (zlen_nonneg a); lia). lia.
Qed.

Lemma le_range bs : Forall byte_ok bs -> 0 <= le bs < 256 ^ zlen bs.
Proof.
  induction 1 as [|b bs Hb _ IH]; [done|]. cbn [le]. unfold byte_ok in Hb.
  rewrite zlen_cons, Z.pow_add_r by (pose proof (zlen_nonneg bs); lia). lia.
Qed.

Lemma le_zeros n : le (replicate n 0) = 0.
Proof. induction n as [|n IH]; cbn [le replicate]; lia. Qed.

Lemma be_le bs : be bs = le (rev bs).
Proof.
  induction bs as [|b bs IH] using rev_ind; [done|].
  rewrite be_snoc, IH, rev_app_distr. cbn [rev app le]. lia.
Qed.

(** the bytes of a register *)
Fixpoint bytes_of (n : nat) (r : Z) : list Z :=
  match n with
  | O => []
  | S n => r mod 256 :: bytes_of n (r / 256)
  end.

Lemma bytes_of_length n r : length (bytes_of n r) = n.
Proof. revert r. induction n as [|n IH]; intros r; simpl; auto. Qed.

Lemma bytes_of_ok n r : Forall byte_ok (bytes_of n r).
Proof. revert r. induction n as [|n IH]; intros r; constructor; [apply Z.mod_pos_bound; lia|auto]. Qed.

Lemma le_bytes_of n : forall r, 0 <= r < 256 ^ Z.of_nat n -> le (bytes_of n r) = r.
Proof.
  induction n as [|n IH]; intros r Hr; cbn [bytes_of le]; [simpl in Hr; lia|].
  rewrite IH; [pose proof (Z.div_mod r 256 ltac:(lia)); lia|].
  rewrite Nat2Z.inj_succ, Z.pow_succ_r in Hr by lia. split; [apply Z.div_pos; lia|].
  apply Z.div_lt_upper_bound; lia.
Qed.

Lemma byte_at_le bs (i : nat) : Forall byte_ok bs -> byte_at (le bs) (Z.of_nat i) = nth i bs 0.
Proof.
  intros Hbs. unfold byte_at. change 255 with (Z.ones 8). rewrite Z.land_ones by lia. revert i.
  induction Hbs as [|b bs Hb Hbs IH]; intros i; cbn [le].
  { rewrite Z.shiftr_0_l. by destruct i. }
  unfold byte_ok in Hb. destruct i as [|i].
  - rewrite Z.mul_0_r, Z.shiftr_0_r. change (2 ^ 8) with 256. rewrite Z.mul_comm, Z.mod_add by lia. by apply Z.mod_small.
  - cbn [nth]. rewrite <- IH. f_equal. replace (8 * Z.of_nat (S i)) with (8 + 8 * Z.of_nat i) by lia.
    rewrite <- Z.shiftr_shiftr by lia. f_equal. rewrite Z.shiftr_div_pow2 by lia. change (2 ^ 8) with 256.
    rewrite Z.mul_comm, Z.div_add by lia. rewrite Z.div_small by lia. done.
Qed.

(** what a shuffle selects *)
Definition select (mask : Z) (bs : list Z) : list Z :=
  map (fun i => let m := byte_at mask i in
                if Z.testbit m 7 then 0 else nth (Z.to_nat (Z.land m 15)) bs 0) (seqZ 0 16).

Lemma shuffle_le bs mask : Forall byte_ok bs -> mm_shuffle_epi8 (le bs) mask = le (select mask bs).
Proof.
  intros Hbs. unfold mm_shuffle_epi8, select. f_equal. apply map_ext. intros i. cbv zeta.
  destruct (Z.testbit _ 7); [done|]. rewrite <- byte_at_le by done. f_equal.
  rewrite Z2Nat.id; [done|]. change 15 with (Z.ones 4). rewrite Z.land_ones by lia. apply Z.mod_pos_bound. lia.
Qed.

Definition swap128 : Z := mm_setr_epi32 0x0c0d0e0f 0x08090a0b 0x04050607 0x00010203.

Ltac sixteen bs H :=
  do 16 (destruct bs as [|? bs]; [discriminate H|]); destruct bs; [|discriminate H].

(** reversal of the bytes *)
Lemma shuffle_swap bs : length bs = 16%nat -> Forall byte_ok bs -> mm_shuffle_epi8 (le bs) swap128 = be bs.
Proof.
  intros Hl Hbs. rewrite shuffle_le, be_le by done. f_equal. clear Hbs. sixteen bs Hl. by vm_compute.
Qed.

Lemma load_be_ok data off :
  Forall byte_ok data -> 0 <= off -> off + 16 <= zlen data ->
  load_be swap128 data off = Ret (be (take 16 (drop (Z.to_nat off) data))).
Proof.
  intros Hd Ho Hl. unfold load_be, mm_loadu. rewrite mem_read_ok by lia. rewrite !bind_Ret_l.
  change (Z.to_nat 16) with 16%nat. rewrite shuffle_swap; [done| |by apply Forall_take, Forall_drop].
  rewrite length_take, length_drop. unfold zlen in Hl. lia.
Qed.

(** ** Byte shifts *)

Ltac each_num num :=
  let rec go n := lazymatch n with
    | 17 => lia
    | _ => destruct (Z.eq_dec num n) as [->|]; [|let m := eval vm_compute in (n + 1) in go m]
    end in go 0.

Lemma select_right bs num : length bs = 16%nat -> 0 <= num <= 16 ->
  exists mask, mm_loadu crc_xmm_shift_tab (16 + num) = Ret mask /\
    select mask bs = drop (Z.to_nat num) bs ++ replicate (Z.to_nat num) 0.
Proof. intros Hl Hn. sixteen bs Hl. each_num num; eexists; (split; [by vm_compute|by vm_compute]). Qed.

Lemma select_left bs num : length bs = 16%nat -> 0 <= num <= 16 ->
  exists mask, mm_loadu crc_xmm_shift_tab (16 - num) = Ret mask /\
    select mask bs = replicate (Z.to_nat num) 0 ++ take (16 - Z.to_nat num) bs.
Proof. intros Hl Hn. sixteen bs Hl. each_num num; eexists; (split; [by vm_compute|by vm_compute]). Qed.

Lemma pow256 n : 0 <= n -> 256 ^ n = 2 ^ (8 * n).
Proof. intros. change 256 with (2 ^ 8). by rewrite <- Z.pow_mul_r by lia. Qed.

Lemma xmm_shift_right_ok r num : 0 <= r < 2 ^ 128 -> 0 <= num <= 16 ->
  xmm_shift_right r num = Ret (Z.shiftr r (8 * num)).
Proof.
  intros Hr Hn. rewrite <- (le_bytes_of 16 r) by done. pose proof (bytes_of_length 16 r) as Hl.
  pose proof (bytes_of_ok 16 r) as Hok. set (bs := bytes_of 16 r) in *. unfold xmm_shift_right.
  destruct (select_right bs num Hl Hn) as (mask & -> & Hs). rewrite bind_Ret_l. f_equal.
  rewrite shuffle_le, Hs, le_app, le_zeros, Z.mul_0_r, Z.add_0_r by done.
  rewrite <- (take_drop (Z.to_nat num) bs) at 2. rewrite le_app, Z.shiftr_div_pow2, <- pow256 by lia.
  replace (zlen (take (Z.to_nat num) bs)) with num by (rewrite zlen_take; unfold zlen; lia).
  pose proof (le_range _ (Forall_take _ (Z.to_nat num) _ Hok)) as Ht.
  replace (zlen (take (Z.to_nat num) bs)) with num in Ht by (rewrite zlen_take; unfold zlen; lia).
  rewrite Z.mul_comm, Z.div_add, Z.div_small by lia. done.
Qed.

Lemma xmm_shift_left_ok r num : 0 <= r < 2 ^ 128 -> 0 <= num <= 16 ->
  xmm_shift_left r num = Ret (Z.shiftl r (8 * num) mod 2 ^ 128).
Proof.
  intros Hr Hn. rewrite <- (le_bytes_of 16 r) by done. pose proof (bytes_of_length 16 r) as Hl.
  pose proof (bytes_of_ok 16 r) as Hok. set (bs := bytes_of 16 r) in *. unfold xmm_shift_left.
  destruct (select_left bs num Hl Hn) as (mask & -> & Hs). rewrite bind_Ret_l. f_equal.
  rewrite shuffle_le, Hs, le_app, le_zeros, Z.add_0_l by done. set (m := (16 - Z.to_nat num)%nat).
  rewrite <- (take_drop m bs) at 2. rewrite le_app, Z.shiftl_mul_pow2, <- pow256 by lia.
  replace (zlen (replicate (Z.to_nat num) 0)) with num by (unfold zlen; rewrite length_replicate; lia).
  pose proof (le_range _ (Forall_take _ m _ Hok)) as Ht.
  replace (zlen (take m bs)) with (16 - num) in * by (rewrite zlen_take; unfold zlen, m; lia).
  assert (E : 2 ^ 128 = 256 ^ (16 - num) * 256 ^ num) by (rewrite <- Z.pow_add_r by lia; replace (16 - num + num) with 16 by lia; reflexivity).
  rewrite E, Z.mul_mod_distr_r by lia. rewrite Z.mul_comm. f_equal.
  symmetry. rewrite (Z.mul_comm (256 ^ _) (le (drop m bs))), Z.mod_add by lia. apply Z.mod_small. done.
Qed.

Lemma slli_ok r n : 0 <= n -> mm_slli_si128 r n = Z.shiftl r (8 * n) mod 2 ^ 128.
Proof. intros. unfold mm_slli_si128. by rewrite Z.land_ones by lia. Qed.

(** ** Folding and reduction *)

(** the constants of a context belong to its polynomial *)
Record ctx_ok (poly : Z) (ctx : crc_pclmulqdq_ctx) : Prop := {
  co_k1 : is_crc poly (2 ^ 96) (ctx_k1 ctx);
  co_k2 : is_crc poly (2 ^ 160) (ctx_k2 ctx);
  co_k3 : is_crc poly (2 ^ 32) (ctx_k3 ctx);
  co_q : 0 <= ctx_q ctx < 2 ^ 32;
  co_quot : exists e, 0 <= e < 2 ^ 32 /\ clmul (2 ^ 32 + ctx_q ctx) (gen poly) = Z.lxor (2 ^ 64) e;
  co_p : ctx_p ctx = poly;
  co_res : ctx_res ctx = 0
}.

Lemma pair_lo lo hi : 0 <= lo < 2 ^ 64 -> Z.land (mm_pair lo hi) (Z.ones 64) = lo.
Proof.
  intros Hl. unfold mm_pair. rewrite Z.land_lor_distr_l, !Z.land_ones, Z.shiftl_mul_pow2, Z.mod_mul, Z.lor_0_r by lia.
  by apply Z.mod_small.
Qed.

Lemma pair_hi lo hi : 0 <= lo < 2 ^ 64 -> Z.shiftr (mm_pair lo hi) 64 = hi.
Proof.
  intros Hl. unfold mm_pair. rewrite Z.shiftr_lor, Z.shiftr_shiftl_l, Z.shiftl_0_r by lia.
  rewrite Z.shiftr_div_pow2, Z.div_small by lia. apply Z.lor_0_l.
Qed.

Section ctx.
Context (poly : Z) (Hpoly : 0 <= poly < 2 ^ 32) (ctx : crc_pclmulqdq_ctx) (Hctx : ctx_ok poly ctx).
#[local] Abbreviation P := (gen poly).

(** multiplication by a remainder of a power of [x] *)
Lemma cong_power m k h : 0 <= m -> 0 <= h -> is_crc poly (2 ^ m) k -> cong P (clmul h k) (Z.shiftl h (m + 32)).
Proof.
  intros Hm Hh [Hk Hc]. pose proof (gen_pos poly Hpoly) as HP.
  rewrite Z.shiftl_mul_pow2, <- Z.pow_add_r in Hc by lia.
  rewrite <- clmul_pow, (clmul_comm h k), (clmul_comm h) by lia. apply cong_clmul; lia || done.
Qed.

Lemma clmul_64_32 a b : 0 <= a < 2 ^ 64 -> 0 <= b < 2 ^ 32 -> 0 <= clmul a b < 2 ^ 95.
Proof. intros Ha Hb. apply (clmul_lt a b 63 32); lia. Qed.

Lemma halves r : 0 <= r < 2 ^ 128 ->
  r = Z.lxor (Z.shiftl (Z.shiftr r 64) 64) (Z.land r (Z.ones 64)) /\
  0 <= Z.shiftr r 64 < 2 ^ 64 /\ 0 <= Z.land r (Z.ones 64) < 2 ^ 64.
Proof.
  intros Hr. rewrite Z.land_ones by lia. split; [by apply split_at|].
  split; [by apply (shiftr_lt r 128 64)|apply Z.mod_pos_bound; lia].
Qed.

Lemma folding_round_ok D fold :
  0 <= D < 2 ^ 128 -> 0 <= fold < 2 ^ 128 ->
  let r := crc32_folding_round D (mm_pair (ctx_k1 ctx) (ctx_k2 ctx)) fold in
  0 <= r < 2 ^ 128 /\ cong P r (Z.lxor (Z.shiftl fold 128) D).
Proof.
  intros HD Hf. destruct Hctx as [H1 H2 _ _ _ _ _]. pose proof (gen_pos poly Hpoly) as HP.
  destruct (H1) as [Hk1 _]. destruct (H2) as [Hk2 _]. destruct (halves fold Hf) as (E & Hh & Hl).
  unfold crc32_folding_round, mm_clmulepi64. simpl (Z.testbit _ _).
  rewrite pair_lo, pair_hi by lia. set (h := Z.shiftr fold 64) in *. set (l := Z.land fold (Z.ones 64)) in *.
  pose proof (clmul_64_32 h _ Hh Hk2). pose proof (clmul_64_32 l _ Hl Hk1).
  cbv zeta. split; [repeat apply lxor_lt; lia|].
  rewrite E, Z.shiftl_lxor, Z.shiftl_shiftl by lia. change (64 + 128) with (160 + 32). change 128 with (96 + 32).
  pose proof (cong_power 96 _ l ltac:(lia) ltac:(lia) H1) as C1. pose proof (cong_power 160 _ h ltac:(lia) ltac:(lia) H2) as C2.
  pose proof (cong_lxor P HP _ _ _ _ C1 (cong_lxor P HP _ _ _ _ (cong_refl P D) C2)) as C.
  eapply cong_trans; [done|exact C|]. replace (Z.lxor (Z.lxor _ _) D) with
    (Z.lxor (Z.shiftl l (96 + 32)) (Z.lxor D (Z.shiftl h (160 + 32)))) by xor_ring. apply cong_refl.
Qed.

(** only the low half is kept; what is cut off is the part the second
    multiplication has brought in *)
Lemma reduce_128_ok fold : 0 <= fold < 2 ^ 128 ->
  let r := crc32_reduce_128_to_64 fold (mm_pair (ctx_k3 ctx) (ctx_q ctx)) in
  0 <= r < 2 ^ 64 /\ cong P r fold.
Proof.
  intros Hf. destruct Hctx as [_ _ H3 Hq _ _ _]. pose proof (gen_pos poly Hpoly) as HP.
  destruct (H3) as [Hk3 _]. destruct (halves fold Hf) as (E & Hh & Hl).
  unfold crc32_reduce_128_to_64, mm_clmulepi64. simpl (Z.testbit _ _). rewrite pair_lo by lia.
  set (k3 := ctx_k3 ctx) in *. set (h := Z.shiftr fold 64) in *. set (l := Z.land fold (Z.ones 64)) in *.
  pose proof (clmul_64_32 h k3 Hh Hk3) as Hm. set (m := clmul h k3) in *.
  rewrite Z.shiftr_lxor. fold h. destruct (halves m ltac:(lia)) as (Em & Hmh & Hml).
  assert (Hmh' : 0 <= Z.shiftr m 64 < 2 ^ 31) by (by apply (shiftr_lt m 95 64)).
  set (mh := Z.shiftr m 64) in *. set (ml := Z.land m (Z.ones 64)) in *.
  assert (Hp : 0 <= clmul mh k3 < 2 ^ 64) by (pose proof (clmul_lt mh k3 30 32); lia).
  rewrite clmul_lxor_l by lia. fold m.
  replace (mm_srli_si128 _ 8) with (Z.lxor (Z.lxor (clmul mh k3) ml) l).
  2: { unfold mm_srli_si128. rewrite slli_ok by lia. rewrite E, Em at 1.
       replace (Z.lxor (Z.lxor (clmul mh k3) (Z.lxor (Z.shiftl mh 64) ml)) (Z.lxor (Z.shiftl h 64) l))
         with (Z.lxor (Z.shiftl (Z.lxor mh h) 64) (Z.lxor (Z.lxor (clmul mh k3) ml) l))
         by (rewrite Z.shiftl_lxor; xor_ring).
       pose proof (lxor_lt (clmul mh k3) ml 64 ltac:(lia) Hp Hml) as Hx1.
       pose proof (lxor_lt _ l 64 ltac:(lia) Hx1 Hl) as Hx. set (x := Z.lxor (Z.lxor (clmul mh k3) ml) l) in *.
       rewrite shiftl_lxor_add by lia. rewrite Z.shiftl_mul_pow2, Z.shiftr_div_pow2 by lia.
       change (8 * 8) with 64. change (2 ^ 128) with (2 ^ 64 * 2 ^ 64). rewrite Z.mul_mod_distr_r, Z.div_mul by lia.
       rewrite Z.add_comm, Z.mod_add by lia. symmetry. by apply Z.mod_small. }
  cbv zeta. split; [repeat apply lxor_lt; lia|].
  pose proof (cong_power 32 k3 h ltac:(lia) ltac:(lia) H3) as C1. fold m in C1.
  pose proof (cong_power 32 k3 mh ltac:(lia) ltac:(lia) H3) as C2. change (32 + 32) with 64 in C1, C2.
  rewrite E. apply cong_lxor; [done| |apply cong_refl]. eapply cong_trans; [done| |exact C1].
  rewrite Em at 1. apply cong_lxor; [done|done|apply cong_refl].
Qed.

(** the quotient by the generator from the one of [x^64] *)
Lemma barrett h q e :
  0 <= h < 2 ^ 32 -> 0 <= q < 2 ^ 32 -> 0 <= e < 2 ^ 32 -> clmul (2 ^ 32 + q) P = Z.lxor (2 ^ 64) e ->
  let t := Z.shiftr (clmul h (2 ^ 32 + q)) 32 in
  0 <= Z.lxor (clmul t P) (Z.shiftl h 32) < 2 ^ 32.
Proof.
  intros Hh Hq He Hqe t. pose proof (gen_pos poly Hpoly) as HP.
  assert (HP33 : 0 <= P < 2 ^ 33) by (unfold gen; lia).
  pose proof (clmul_lt h (2 ^ 32 + q) 31 33 ltac:(lia) ltac:(lia) ltac:(lia) ltac:(lia)) as Hm.
  set (m := clmul h (2 ^ 32 + q)) in *. set (s := m mod 2 ^ 32).
  assert (Em : m = Z.lxor (Z.shiftl t 32) s) by (apply split_at; lia).
  assert (Hs : 0 <= s < 2 ^ 32) by (apply Z.mod_pos_bound; lia).
  assert (Ht : 0 <= t) by (apply shiftr_nonneg; lia).
  assert (HE : Z.shiftl (Z.lxor (clmul t P) (Z.shiftl h 32)) 32 = Z.lxor (clmul h e) (clmul s P)).
  { assert (Hmp : clmul m P = Z.lxor (Z.shiftl h 64) (clmul h e)).
    { unfold m. rewrite clmul_assoc, Hqe, clmul_lxor_r, clmul_pow by lia. done. }
    rewrite Em, clmul_lxor_l, (clmul_comm (Z.shiftl t 32)), clmul_shiftl_r, (clmul_comm P t) in Hmp
      by (auto with gf2; lia).
    rewrite Z.shiftl_lxor, Z.shiftl_shiftl by lia. change (32 + 32) with 64.
    apply (f_equal (fun x => Z.lxor x (Z.lxor (clmul s P) (Z.shiftl h 64)))) in Hmp.
    replace (Z.lxor (Z.lxor (Z.shiftl (clmul t P) 32) (clmul s P)) (Z.lxor (clmul s P) (Z.shiftl h 64)))
      with (Z.lxor (Z.shiftl (clmul t P) 32) (Z.shiftl h 64)) in Hmp by xor_ring.
    rewrite Hmp. xor_ring. }
  pose proof (clmul_lt h e 31 32 ltac:(lia) ltac:(lia) ltac:(lia) ltac:(lia)) as H1.
  pose proof (clmul_lt s P 31 33 ltac:(lia) ltac:(lia) ltac:(lia) ltac:(lia)) as H2.
  pose proof (lxor_lt (clmul h e) (clmul s P) 64 ltac:(lia) ltac:(lia) ltac:(lia)) as H3.
  rewrite <- HE, Z.shiftl_mul_pow2 in H3 by lia. lia.
Qed.

Lemma reduce_64_ok fold : 0 <= fold < 2 ^ 64 ->
  let r := crc32_reduce_64_to_32 fold (mm_pair (ctx_k3 ctx) (ctx_q ctx)) (mm_pair (ctx_p ctx) (ctx_res ctx)) in
  0 <= r < 2 ^ 32 /\ cong P r fold.
Proof.
  intros Hf. destruct Hctx as [_ _ [Hk3 _] Hq (e & He & Hqe) Hp Hres]. pose proof (gen_pos poly Hpoly) as HP.
  unfold crc32_reduce_64_to_32, mm_clmulepi64, mm_srli_si128. simpl (Z.testbit _ _).
  rewrite pair_hi, pair_lo, Hp by lia. change (8 * 4) with 32.
  pose proof (shiftr_lt fold 64 32 ltac:(lia) Hf) as Hh. change (2 ^ (64 - 32)) with (2 ^ 32) in Hh.
  set (h := Z.shiftr fold 32) in *. set (q := ctx_q ctx) in *.
  assert (Hland : forall x, 0 <= x < 2 ^ 64 -> Z.land x (Z.ones 64) = x).
  { intros x Hx. rewrite Z.land_ones by lia. by apply Z.mod_small. }
  rewrite (Hland h) by lia.
  assert (Ht : Z.shiftr (Z.lxor (clmul h q) fold) 32 = Z.shiftr (clmul h (2 ^ 32 + q)) 32).
  { rewrite <- lxor_add_pow, clmul_lxor_r, clmul_pow, !Z.shiftr_lxor, Z.shiftr_shiftl_l by lia.
    rewrite Z.shiftl_0_r. fold h. apply Z.lxor_comm. }
  rewrite Ht. pose proof (barrett h q e Hh Hq He Hqe) as Hb. cbv zeta in Hb.
  pose proof (clmul_lt h (2 ^ 32 + q) 31 33 ltac:(lia) ltac:(lia) ltac:(lia) ltac:(lia)) as Hm.
  pose proof (shiftr_lt _ 64 32 ltac:(lia) Hm) as Htr. set (t := Z.shiftr (clmul h (2 ^ 32 + q)) 32) in *.
  rewrite (Hland t) by lia. set (l := fold mod 2 ^ 32).
  assert (Ef : fold = Z.lxor (Z.shiftl h 32) l) by (apply split_at; lia).
  assert (Hl : 0 <= l < 2 ^ 32) by (apply Z.mod_pos_bound; lia).
  set (x := Z.lxor (clmul t P) (Z.shiftl h 32)) in *.
  assert (Er : mm_extract0_epi32 (Z.lxor (clmul t poly) fold) = Z.lxor x l).
  { assert (EY : Z.lxor (clmul t poly) fold = Z.lxor (Z.shiftl t 32) (Z.lxor x l)).
    { unfold x, gen. rewrite <- lxor_add_pow, clmul_lxor_r, clmul_pow by lia. rewrite Ef at 1. xor_ring. }
    unfold mm_extract0_epi32. rewrite EY, Z.land_ones by lia.
    pose proof (lxor_lt x l 32 ltac:(lia) Hb Hl). rewrite shiftl_lxor_add, Z.add_comm, Z.mod_add by lia.
    by apply Z.mod_small. }
  cbv zeta. rewrite Er. split; [by apply lxor_lt|]. rewrite Ef. unfold x.
  exists t. split; [lia|]. xor_ring.
Qed.

(** ** The data *)

Lemma be_take l n : Forall byte_ok l -> (n <= length l)%nat ->
  be (take n l) = Z.shiftr (be l) (8 * (zlen l - Z.of_nat n)).
Proof.
  intros Hl Hn. rewrite <- (take_drop n l) at 2. rewrite be_app.
  assert (Hz : zlen (drop n l) = zlen l - Z.of_nat n) by (rewrite zlen_drop; unfold zlen; lia).
  pose proof (be_range _ (Forall_drop _ n _ Hl)) as Hd. rewrite Hz in *. unfold zlen in *.
  rewrite Z.shiftr_div_pow2, <- pow256, Z.div_add_l, Z.div_small by lia. lia.
Qed.

(** appending a block of [n] bytes *)
Lemma be_block l i n : Forall byte_ok l -> (i + n <= length l)%nat ->
  be (take (i + n) l) = Z.lxor (Z.shiftl (be (take i l)) (8 * Z.of_nat n)) (be (take n (drop i l))).
Proof.
  intros Hl Hn. rewrite <- take_take_drop, be_app.
  pose proof (be_range _ (Forall_take _ n _ (Forall_drop _ i _ Hl))) as Hr.
  replace (zlen (take n (drop i l))) with (Z.of_nat n) in * by (rewrite zlen_take, zlen_drop; unfold zlen; lia).
  rewrite pow256 in * by lia. by rewrite shiftl_lxor_add by lia.
Qed.

Lemma be_lt l n : Forall byte_ok l -> (length l <= n)%nat -> 0 <= be l < 2 ^ (8 * Z.of_nat n).
Proof.
  intros Hl Hn. pose proof (be_range l Hl). rewrite pow256 in * by apply zlen_nonneg.
  assert (2 ^ (8 * zlen l) <= 2 ^ (8 * Z.of_nat n)) by (apply Z.pow_le_mono_r; unfold zlen; lia). lia.
Qed.

Lemma be_block_lt l i : Forall byte_ok l -> 0 <= be (take 16 (drop i l)) < 2 ^ 128.
Proof. intros. apply (be_lt _ 16); [by apply Forall_take, Forall_drop|]. rewrite length_take. lia. Qed.

(** data of at most 12 bytes *)
Lemma fold_short_ok data len :
  Forall byte_ok data -> 0 < len <= 12 -> 16 <= zlen data ->
  fold_short swap128 data (len + 4) 0 = Ret (Z.shiftl (be (take (Z.to_nat len) data)) 32).
Proof.
  intros Hd Hl Hz. unfold fold_short. rewrite load_be_ok by (done || lia). rewrite bind_Ret_l.
  change (Z.to_nat 0) with 0%nat. pose proof (be_block_lt data 0 Hd) as Hb. cbn [drop] in *.
  rewrite xmm_shift_right_ok by (done || lia). rewrite bind_Ret_l, slli_ok by lia.
  replace (20 - (len + 4)) with (zlen (take 16 data) - Z.of_nat (Z.to_nat len)) by (rewrite zlen_take; lia).
  rewrite <- be_take by (first [by apply Forall_take|rewrite length_take; unfold zlen in Hz; lia]).
  rewrite take_take, Nat.min_l by lia. change (mm_insert0_epi32 (bswap4 0)) with 0.
  rewrite xmm_shift_left_ok, bind_Ret_l, Z.shiftl_0_l, Z.mod_0_l, Z.lxor_0_r by lia. f_equal. change (8 * 4) with 32.
  apply Z.mod_small. pose proof (be_lt (take (Z.to_nat len) data) 12 (Forall_take _ _ _ Hd)) as Hr.
  rewrite length_take in Hr. specialize (Hr ltac:(lia)). simpl (8 * _) in Hr.
  rewrite Z.shiftl_mul_pow2 by lia. lia.
Qed.

(** the number of bytes missing to a multiple of 16 *)
Lemma pad_ok dl : Z.land (u32 (u32 (Z.lnot dl) + 1)) 15 = (- dl) mod 16.
Proof.
  change 15 with (Z.ones 4). rewrite Z.land_ones by lia. unfold u32, Z.lnot.
  rewrite Zplus_mod_idemp_l. replace (Z.pred (- dl) + 1) with (- dl) by lia.
  rewrite Z.mod_mod_divide; [done|]. by exists (2 ^ 28).
Qed.

(** two registers shifted to the right together *)
Lemma shift_pair F G s : 0 <= F < 2 ^ 128 -> 0 <= G < 2 ^ 128 -> 0 <= s < 128 ->
  let next := Z.lor (Z.shiftr G s) (Z.shiftl F (128 - s) mod 2 ^ 128) in
  0 <= next < 2 ^ 128 /\
  Z.lxor (Z.shiftl (Z.shiftr F s) 128) next = Z.shiftr (Z.lxor (Z.shiftl F 128) G) s.
Proof.
  intros HF HG Hs next. pose proof (shiftr_lt G 128 s ltac:(lia) HG) as Hg.
  assert (Hn : next = Z.lxor (Z.shiftr G s) (Z.shiftl F (128 - s) mod 2 ^ 128)).
  { symmetry. apply Z.lxor_lor. apply Z.bits_inj'. intros k Hk. rewrite Z.land_spec, Z.bits_0.
    destruct (Z_lt_ge_dec k (128 - s)).
    - rewrite Z.mod_pow2_bits_low, Z.shiftl_spec_low by lia. apply andb_false_r.
    - by rewrite (testbit_high _ (128 - s) k) by lia. }
  pose proof (Z.mod_pos_bound (Z.shiftl F (128 - s)) (2 ^ 128) ltac:(lia)) as Hm.
  assert (2 ^ (128 - s) <= 2 ^ 128) by (apply Z.pow_le_mono_r; lia).
  split; [rewrite Hn; apply lxor_lt; lia|].
  rewrite Hn, Z.shiftr_lxor, Z.shiftr_shiftl_l by lia.
  rewrite (split_at (Z.shiftl F (128 - s)) 128) at 2 by lia.
  rewrite Z.shiftr_shiftl_r by lia. replace (128 - (128 - s)) with s by lia. xor_ring.
Qed.

(** the register after [i] bytes *)
Definition folded (data : list Z) (i fold : Z) : Prop :=
  0 <= fold < 2 ^ 128 /\ cong P fold (be (take (Z.to_nat i) data)).

Lemma fold_step data i fold :
  Forall byte_ok data -> 0 <= i -> i + 16 <= zlen data -> folded data i fold ->
  folded data (i + 16) (crc32_folding_round (be (take 16 (drop (Z.to_nat i) data)))
                         (mm_pair (ctx_k1 ctx) (ctx_k2 ctx)) fold).
Proof.
  intros Hd Hi Hz [Hf Hc]. pose proof (gen_pos poly Hpoly) as HP.
  destruct (folding_round_ok _ fold (be_block_lt data (Z.to_nat i) Hd) Hf) as [Hr Hcong].
  split; [done|]. eapply cong_trans; [done|exact Hcong|].
  replace (Z.to_nat (i + 16)) with (Z.to_nat i + 16)%nat by lia.
  rewrite be_block by (done || (unfold zlen in Hz; lia)). change (8 * Z.of_nat 16) with 128.
  apply cong_lxor; [done| |apply cong_refl]. apply cong_shiftl; [done|lia| |lia|done].
  apply be_nonneg. by apply Forall_take.
Qed.

Lemma fold_loop_ok data len fuel : forall i fold,
  Forall byte_ok data -> len <= zlen data -> len + 4 < 2 ^ 32 ->
  12 <= i + 12 <= len -> (16 | len - 12 - i) -> len - 12 - i < 16 * Z.of_nat fuel -> folded data i fold ->
  returns (fold_loop swap128 fuel data (len + 4) (mm_pair (ctx_k1 ctx) (ctx_k2 ctx)) i fold)
    (fun '(f, n) => n = len - 12 /\ folded data n f).
Proof.
  induction fuel as [|fuel IH]; intros i fold Hd Hz H32 Hi Hdiv Hfuel Hf; [lia|]. cbn [fold_loop].
  rewrite u32_small by lia. destruct (Z.ltb_spec i (len + 4 - 16)).
  - destruct Hdiv as [q Hq]. rewrite load_be_ok by (done || lia). rewrite bind_Ret_l, u32_small by lia.
    apply IH; try done; try lia.
    + exists (q - 1). lia.
    + apply fold_step; [done|lia|lia|done].
  - apply returns_Ret. replace (len - 12) with i by lia. done.
Qed.

(** the first two blocks together hold the first [32 - n] bytes *)
Lemma two_blocks data n :
  Forall byte_ok data -> 0 <= n < 16 -> 32 <= zlen data ->
  let F := be (take 16 data) in let G := be (take 16 (drop 16 data)) in
  let next := Z.lor (Z.shiftr G (8 * n)) (Z.shiftl F (8 * (16 - n)) mod 2 ^ 128) in
  0 <= Z.shiftr F (8 * n) < 2 ^ 128 /\ 0 <= next < 2 ^ 128 /\
  Z.lxor (Z.shiftl (Z.shiftr F (8 * n)) 128) next = be (take (Z.to_nat (32 - n)) data).
Proof.
  intros Hd Hn Hz F G next. pose proof (be_block_lt data 0 Hd) as HF. cbn [drop] in HF. fold F in HF.
  pose proof (be_block_lt data 16 Hd) as HG. fold G in HG.
  destruct (shift_pair F G (8 * n) HF HG ltac:(lia)) as [Hx Hl].
  replace (128 - 8 * n) with (8 * (16 - n)) in * by lia. fold next in Hx, Hl.
  pose proof (shiftr_lt F 128 (8 * n) ltac:(lia) HF) as Hs.
  assert (2 ^ (128 - 8 * n) <= 2 ^ 128) by (apply Z.pow_le_mono_r; lia).
  split; [lia|]. split; [done|]. rewrite Hl.
  pose proof (be_block data 16 16 Hd ltac:(unfold zlen in Hz; lia)) as E. change (8 * Z.of_nat 16) with 128 in E.
  fold F G in E. rewrite <- E, <- (Nat.min_l (Z.to_nat (32 - n)) (16 + 16)), <- take_take by lia.
  rewrite (be_take (take (16 + 16) data)); [|by apply Forall_take|rewrite length_take; unfold zlen in Hz; lia].
  f_equal. rewrite zlen_take. lia.
Qed.

(** four bytes cleared at the end *)
Lemma clear_low V : 0 <= V < 2 ^ 128 -> mm_slli_si128 (mm_srli_si128 V 4) 4 = Z.shiftl (Z.shiftr V 32) 32.
Proof.
  intros HV. rewrite slli_ok by lia. unfold mm_srli_si128. change (8 * 4) with 32. apply Z.mod_small.
  rewrite Z.shiftl_mul_pow2, Z.shiftr_div_pow2 by lia. pose proof (Z.mul_div_le V (2 ^ 32) ltac:(lia)).
  pose proof (Z.div_pos V (2 ^ 32) ltac:(lia) ltac:(lia)). lia.
Qed.

(** the last twelve bytes *)
Lemma last_block data len :
  Forall byte_ok data -> 16 <= len <= zlen data ->
  mm_slli_si128 (be (take 16 (drop (Z.to_nat (len - 16)) data))) 4
  = Z.shiftl (be (take 12 (drop (Z.to_nat (len - 12)) data))) 32.
Proof.
  intros Hd Hz. rewrite slli_ok by lia. change (8 * 4) with 32. set (d := drop (Z.to_nat (len - 16)) data).
  assert (Hdd : Forall byte_ok d) by (by apply Forall_drop).
  change (take 16 d) with (take (4 + 12) d).
  rewrite (be_block d 4 12) by (done || unfold d; rewrite length_drop; unfold zlen in Hz; lia).
  unfold d at 2. rewrite drop_drop. replace (Z.to_nat (len - 16) + 4)%nat with (Z.to_nat (len - 12)) by lia.
  set (x := be (take 12 _)). assert (Hx : 0 <= x < 2 ^ 96).
  { apply (be_lt _ 12); [by apply Forall_take, Forall_drop|]. rewrite length_take. lia. }
  change (8 * Z.of_nat 12) with 96. rewrite shiftl_lxor_add by lia. rewrite !Z.shiftl_mul_pow2 by lia.
  replace ((be (take 4 d) * 2 ^ 96 + x) * 2 ^ 32) with (x * 2 ^ 32 + be (take 4 d) * 2 ^ 128) by lia.
  rewrite Z.mod_add by lia. apply Z.mod_small. lia.
Qed.

(** data of more than 12 bytes *)
Lemma fold_long_ok data len :
  Forall byte_ok data -> 12 < len -> len + 4 < 2 ^ 32 -> 32 <= zlen data -> len <= zlen data ->
  returns (fold_long swap128 data (len + 4) 0 ctx) (fun fold =>
    0 <= fold < 2 ^ 128 /\ cong P fold (Z.shiftl (be (take (Z.to_nat len) data)) 32)).
Proof.
  intros Hd Hl H32 Hz Hlen. pose proof (gen_pos poly Hpoly) as HP. unfold fold_long.
  unfold mm_loadu at 1. rewrite mem_read_ok by lia. rewrite !bind_Ret_l. change (mm_insert0_epi32 0) with 0.
  rewrite Z.lxor_0_r. change (drop (Z.to_nat 0) data) with data. change (Z.to_nat 16) with 16%nat.
  rewrite shuffle_swap by (first [by apply Forall_take|rewrite length_take; unfold zlen in Hz; lia]).
  rewrite pad_ok, load_be_ok, bind_Ret_l by (done || lia). change (Z.to_nat 16) with 16%nat.
  pose proof (Z.mod_pos_bound (- (len + 4)) 16 ltac:(lia)) as Hn.
  pose proof (Z.div_mod (- (len + 4)) 16 ltac:(lia)) as Hdm. set (n := (- (len + 4)) mod 16) in *.
  pose proof (be_block_lt data 0 Hd) as HF. cbn [drop] in HF. pose proof (be_block_lt data 16 Hd) as HG.
  rewrite !xmm_shift_right_ok, xmm_shift_left_ok by (done || lia). rewrite !bind_Ret_l.
  destruct (two_blocks data n Hd Hn Hz) as (Hf & Hnext & Hv). set (fold0 := Z.shiftr _ (8 * n)) in *.
  set (next := Z.lor _ _) in *. destruct (Z.leb_spec (len + 4) 32) as [Hs|Hs].
  - assert (En : n = 32 - (len + 4)) by lia.
    rewrite (proj2 (Z.ltb_ge 32 (len + 4))) by lia. apply returns_Ret. rewrite clear_low by done.
    assert (Hc : 0 <= Z.shiftl (Z.shiftr next 32) 32 < 2 ^ 128).
    { rewrite <- clear_low, slli_ok by lia. apply Z.mod_pos_bound. lia. }
    destruct (folding_round_ok _ fold0 Hc Hf) as [Hr Hcong]. split; [done|].
    eapply cong_trans; [done|exact Hcong|]. replace (Z.lxor _ _) with (Z.shiftl (be (take (Z.to_nat len) data)) 32);
      [apply cong_refl|]. apply (f_equal (fun v => Z.shiftl (Z.shiftr v 32) 32)) in Hv.
    rewrite Z.shiftr_lxor, Z.shiftl_lxor, Z.shiftr_shiftl_l, Z.shiftl_shiftl in Hv by lia.
    change (128 - 32 + 32) with 128 in Hv. rewrite Hv. f_equal. rewrite <- (Nat.min_l (Z.to_nat len) (Z.to_nat (32 - n))), <- take_take by lia.
    rewrite (be_take (take (Z.to_nat (32 - n)) data)); [|by apply Forall_take|rewrite length_take; unfold zlen in *; lia].
    f_equal. rewrite zlen_take. lia.
  - rewrite (proj2 (Z.ltb_lt 32 (len + 4))) by lia.
    destruct (folding_round_ok next fold0 Hnext Hf) as [Hr Hcong]. rewrite Hv in Hcong.
    eapply returns_seq; [apply (fold_loop_ok data len); try done; try lia|].
    { exists (- (- (len + 4) / 16) - 3). lia. }
    intros [f i] [-> [Hfr Hfc]]. rewrite load_be_ok, bind_Ret_l by (done || lia). apply returns_Ret.
    replace (len - 12 - 4) with (len - 16) by lia. rewrite last_block by (done || lia).
    set (x := be (take 12 (drop (Z.to_nat (len - 12)) data))).
    assert (Hx : 0 <= x < 2 ^ 96).
    { apply (be_lt _ 12); [by apply Forall_take, Forall_drop|]. rewrite length_take. lia. }
    destruct (folding_round_ok (Z.shiftl x 32) f) as [Hr' Hcong']; [rewrite Z.shiftl_mul_pow2 by lia; lia|done|].
    split; [done|]. eapply cong_trans; [done|exact Hcong'|].
    replace (Z.to_nat len) with (Z.to_nat (len - 12) + 12)%nat by lia.
    rewrite be_block by (done || (unfold zlen in Hlen; lia)). rewrite Z.shiftl_lxor, Z.shiftl_shiftl by lia.
    apply cong_lxor; [done| |apply cong_refl]. apply cong_shiftl; [done|lia| |lia|done].
    apply be_nonneg. by apply Forall_take.
Qed.

(** the bytes that are loaded: at least one or two blocks of sixteen *)
Definition readable (len : Z) : Z := if len <=? 12 then 16 else Z.max 32 len.

Lemma pclmulqdq_ok data len :
  Forall byte_ok data -> 0 < len -> len + 4 < 2 ^ 32 -> readable len <= zlen data ->
  returns (crc32_calc_pclmulqdq swap128 data len 0 ctx) (is_crc poly (be (take (Z.to_nat len) data))).
Proof.
  intros Hd Hl H32 Hz. pose proof (gen_pos poly Hpoly) as HP. unfold crc32_calc_pclmulqdq.
  rewrite (proj2 (Z.eqb_neq len 0)), u32_small by lia.
  eapply (returns_seq _ _ (fun fold => 0 <= fold < 2 ^ 128 /\
    cong P fold (Z.shiftl (be (take (Z.to_nat len) data)) 32))).
  { unfold readable in Hz. destruct (Z.leb_spec (len + 4) 16).
    - rewrite (proj2 (Z.leb_le len 12)) in Hz by lia. rewrite fold_short_ok by (done || lia).
      apply returns_Ret. split; [|apply cong_refl].
      pose proof (be_lt (take (Z.to_nat len) data) 12 (Forall_take _ _ _ Hd)) as Hr.
      rewrite length_take in Hr. specialize (Hr ltac:(lia)). simpl (8 * _) in Hr.
      rewrite Z.shiftl_mul_pow2 by lia. lia.
    - rewrite (proj2 (Z.leb_gt len 12)) in Hz by lia. apply fold_long_ok; done || lia. }
  intros fold [Hf Hc]. apply returns_Ret. destruct (reduce_128_ok fold Hf) as [Hr1 Hc1].
  destruct (reduce_64_ok _ Hr1) as [Hr2 Hc2]. split; [done|].
  eapply cong_trans; [done|exact Hc2|]. eapply cong_trans; [done|exact Hc1|done].
Qed.
End ctx.

(** ** The two contexts of the code *)

Lemma crcbit_is poly bs r :
  0 <= poly < 2 ^ 32 -> Forall byte_ok bs -> crcbit bs (zlen bs) poly = Ret r -> is_crc poly (be bs) r.
Proof.
  intros Hp Hb E. pose proof (crcbit_ok poly Hp bs (zlen bs) Hb) as H. pose proof (zlen_nonneg bs).
  specialize (H ltac:(lia)). rewrite to_nat_zlen, firstn_all in H. by eapply returns_Ret_inv in H.
Qed.

(** a power of [x] as a message *)
Lemma power_crc poly n k :
  0 <= poly < 2 ^ 32 -> crcbit (1 :: replicate n 0) (zlen (1 :: replicate n 0)) poly = Ret k ->
  is_crc poly (2 ^ (8 * Z.of_nat n)) k.
Proof.
  intros Hp E. apply crcbit_is in E; [|done|].
  - replace (be (1 :: replicate n 0)) with (2 ^ (8 * Z.of_nat n)) in E; [done|].
    change (1 :: replicate n 0) with ([1] ++ replicate n 0). rewrite be_app, <- pow256 by lia.
    assert (Hr : rev (replicate n 0) = replicate n 0) by (rewrite rev_alt; apply reverse_replicate).
    unfold zlen. rewrite length_replicate, (be_le (replicate n 0)), Hr, le_zeros.
    change (be [1]) with 1. lia.
  - constructor; [unfold byte_ok; lia|]. apply Forall_replicate. unfold byte_ok. lia.
Qed.

Lemma ctx24a_ok : ctx_ok poly24a lte_crc24a_pclmulqdq.
Proof.
  constructor; [apply (power_crc _ 12); by vm_compute|apply (power_crc _ 20); by vm_compute
    |apply (power_crc _ 4); by vm_compute|by vm_compute| |done|done].
  exists (Z.lxor (2 ^ 64) (clmul (2 ^ 32 + ctx_q lte_crc24a_pclmulqdq) (gen poly24a))).
  split; [vm_compute; split; congruence|by vm_compute].
Qed.

Lemma ctx24b_ok : ctx_ok poly24b lte_crc24b_pclmulqdq.
Proof.
  constructor; [apply (power_crc _ 12); by vm_compute|apply (power_crc _ 20); by vm_compute
    |apply (power_crc _ 4); by vm_compute|by vm_compute| |done|done].
  exists (Z.lxor (2 ^ 64) (clmul (2 ^ 32 + ctx_q lte_crc24b_pclmulqdq) (gen poly24b))).
  split; [vm_compute; split; congruence|by vm_compute].
Qed.
