(* ===== verification/CrcCheck.v ===== *)
(** The CRC functions and the check of a block, as the rest of the physical layer
    uses them: the remainder for every one of the eight CRCs, the agreement of
    the three ways to compute it, what [check_crc] accepts, and the error bursts
    it detects. *)

From stdpp Require Import base tactics list numbers.
From Stdlib Require Import ZArith Lia.
From S2P Require Import Prelude Gf2 CrcSimd Crc CrcSpec CrcSimdSpec.

Definition crc_of (intel : bool) (T : crc_tables) (k : crc_kind) : list Z -> Z -> outcome Z :=
  match k with
  | K24a => crc24a intel T | K24b => crc24b intel T | K24c => crc24c T | K16 => crc16 T
  | K12 => crc12 T | K11 => crc11 T | K8 => crc8 T | K6 => crc6 T
  end.

(** the CRCs with a vector version *)
Definition has_simd (k : crc_kind) : bool := match k with K24a | K24b => true | _ => false end.

(** the buffer holds [n] bits, and what the vector version loads beyond them *)
Record holds (intel : bool) (k : crc_kind) (bs : list Z) (n : Z) : Prop := {
  ho_bytes : Forall byte_ok bs;
  ho_len : 0 <= n <= 8 * zlen bs;
  ho_int : n < 2 ^ 31;
  ho_simd : intel = true -> has_simd k = true -> n mod 8 = 0 -> 0 < n -> readable (n / 8) <= zlen bs
}.

Lemma simd_crc_ok k ctx bs o :
  ctx_ok (poly_of k) ctx -> Forall byte_ok bs -> 0 <= o -> 8 * o < 2 ^ 31 -> (0 < o -> readable o <= zlen bs) ->
  returns (crc32_calc_pclmulqdq swap128 bs (u32 o) 0 ctx) (is_crc (poly_of k) (msg bs (8 * o))).
Proof.
  intros Hctx Hb Ho Hi Hr. rewrite u32_small, msg_bytes by lia. destruct (Z.eq_dec o 0) as [->|].
  - apply returns_Ret. apply is_crc_0.
  - apply pclmulqdq_ok; [apply poly_range|done|done|lia|lia|apply Hr; lia].
Qed.

Lemma crc_of_ok intel T k bs n :
  tables_ok T -> holds intel k bs n -> returns (crc_of intel T k bs n) (is_crc (poly_of k) (msg bs n)).
Proof.
  intros [HT Hswap] [Hb Hn Hi Hs]. pose proof (lut_crc_ok k _ (HT k) bs n Hb Hn) as Hlut.
  destruct k; try exact Hlut; cbn [crc_of]; unfold crc24a, crc24b; rewrite Hswap;
    (destruct (negb _ || _) eqn:E; [exact Hlut|]); bool_prop.
  all: rewrite rem_mod in * by lia; rewrite Z.quot_div_nonneg by lia.
  all: pose proof (Z.div_mod n 8 ltac:(lia)); replace n with (8 * (n / 8)) at 2 by lia.
  - apply (simd_crc_ok K24a); [apply ctx24a_ok|done|lia|lia|]. intros. apply Hs; done || lia.
  - apply (simd_crc_ok K24b); [apply ctx24b_ok|done|lia|lia|]. intros. apply Hs; done || lia.
Qed.

(** C34: after [crcTableInit] each of the eight CRC functions, on any number of
    bits and with or without the vector version, returns the remainder of the
    message times [x^L] modulo its generator polynomial (36.212 and 38.212 5.1)
    in the [L] high bits of its result; no table or buffer is left. *)
Theorem crc_is_remainder intel k bs n :
  holds intel k bs n ->
  returns (T ← crcTableInit zero_tables; crc_of intel T k bs n)
    (fun crc => exists r, crc = Z.shiftl r (32 - width k) /\ remainder k (msg bs n) r).
Proof.
  intros Hh. eapply returns_seq; [exact crcTableInit_ok|]. intros T [_ HT].
  eapply returns_mono; [by apply crc_of_ok|]. intros crc Hcrc.
  assert (HM : 0 <= msg bs n).
  { apply shiftr_nonneg, be_nonneg, Forall_take, (ho_bytes _ _ _ _ Hh). }
  destruct (is_crc_remainder k _ _ HM Hcrc) as (r & ? & _ & ?). by exists r.
Qed.

(** a message of five bytes and three bits, and one of 90 bytes *)
Definition demo_bytes (n : Z) : list Z := map (fun i => (i * 37 + 11) mod 256) (seqZ 0 n).

Lemma demo_bytes_ok n : Forall byte_ok (demo_bytes n).
Proof. apply Forall_map. apply list.Forall_forall. intros i _. apply Z.mod_pos_bound. lia. Qed.

Lemma demo_bytes_len n : 0 <= n -> zlen (demo_bytes n) = n.
Proof. intros. unfold zlen, demo_bytes. rewrite length_map, length_seqZ. lia. Qed.

Lemma crc_is_remainder_witness :
  returns (T ← crcTableInit zero_tables; crc_of true T K16 (demo_bytes 6) 43)
    (fun crc => exists r, crc = Z.shiftl r (32 - width K16) /\ remainder K16 (msg (demo_bytes 6) 43) r).
Proof.
  apply crc_is_remainder. constructor; [apply demo_bytes_ok|rewrite demo_bytes_len by lia; lia|lia|discriminate 2].
Defined.

(** C33: for whole bytes the folding with carry-less multiplications (the code
    that runs on x86 and ARM), the byte-wise tables and the bitwise reference
    give the same result, for data of every length. *)
Theorem crc_implementations_agree intel k bs len :
  holds intel k bs (8 * len) ->
  returns (T ← crcTableInit zero_tables; crc_of intel T k bs (8 * len))
    (fun crc => crcbit bs len (poly_of k) = Ret crc).
Proof.
  intros Hh. eapply returns_seq; [exact crcTableInit_ok|]. intros T [_ HT].
  eapply returns_mono; [by apply crc_of_ok|]. intros crc Hcrc. destruct Hh as [Hb Hn _ _].
  rewrite msg_bytes in Hcrc by lia. destruct (crcbit_ok (poly_of k) (poly_range k) bs len Hb ltac:(lia)) as (r & -> & Hr).
  f_equal. by eapply is_crc_unique; [apply poly_range| |].
Qed.

Lemma crc_implementations_agree_witness :
  returns (T ← crcTableInit zero_tables; crc_of true T K24b (demo_bytes 90) (8 * 90))
    (fun crc => crcbit (demo_bytes 90) 90 (poly_of K24b) = Ret crc).
Proof.
  apply crc_implementations_agree. constructor; [apply demo_bytes_ok|rewrite demo_bytes_len by lia; lia|lia|].
  intros. rewrite demo_bytes_len by lia. vm_compute. congruence.
Defined.

(** The vector version loads whole blocks of sixteen bytes: on data of up to
    28 bytes at the end of its buffer it reads past the end. *)
Lemma crc_simd_overread T bs len :
  0 < len <= 28 -> len <= zlen bs < readable len ->
  crc24a true T bs (8 * len) = Undef /\ crc24b true T bs (8 * len) = Undef.
Proof.
  intros Hl Hz. enough (H : forall ctx, crc32_calc_pclmulqdq (crc_xmm_be_le_swap128 T) bs (u32 len) 0 ctx = Undef).
  { unfold crc24a, crc24b. rewrite rem_mod, Z.quot_div_nonneg by lia.
    rewrite Z.mul_comm, Z.mod_mul, Z.div_mul by lia. by rewrite !H. }
  intros ctx. unfold crc32_calc_pclmulqdq. rewrite !u32_small, (proj2 (Z.eqb_neq len 0)) by lia.
  unfold readable in Hz. destruct (Z.leb_spec (len + 4) 16).
  - rewrite (proj2 (Z.leb_le len 12)) in Hz by lia. unfold fold_short, load_be, mm_loadu, mem_read.
    by rewrite (proj2 (Z.leb_gt (0 + 16) _)), !andb_false_r by lia.
  - rewrite (proj2 (Z.leb_gt len 12)) in Hz by lia. unfold fold_long, load_be, mm_loadu, mem_read.
    destruct (_ && _ && (0 + 16 <=? zlen bs)); [|done]. rewrite !bind_Ret_l.
    by rewrite (proj2 (Z.leb_gt (16 + 16) _)), !andb_false_r by lia.
Qed.

Lemma crc_simd_overread_witness :
  crc24a true init_tables (demo_bytes 20) (8 * 20) = Undef /\ crc24b true init_tables (demo_bytes 20) (8 * 20) = Undef.
Proof.
  apply crc_simd_overread; [lia|]. rewrite demo_bytes_len by lia. change (readable 20) with 32. lia.
Defined.

(** ** The check of a block *)

(** the CRC a type stands for *)
Definition kind_of_type (crc_type : Z) : option crc_kind :=
  if crc_type =? CRC24_A then Some K24a
  else if crc_type =? CRC24_B then Some K24b
  else if crc_type =? CRC16 then Some K16
  else if crc_type =? CRC8 then Some K8
  else None.

Lemma kind_of_type_cases ty k : kind_of_type ty = Some k ->
  (ty = 0 /\ k = K24a) \/ (ty = 1 /\ k = K24b) \/ (ty = 2 /\ k = K16) \/ (ty = 3 /\ k = K8).
Proof.
  unfold kind_of_type, CRC24_A, CRC24_B, CRC16, CRC8.
  repeat (case_match; bool_prop; [intros [= <-]; subst; tauto|]). done.
Qed.

Lemma crc_len_width ty k : kind_of_type ty = Some k -> 8 * crc_len ty = width k /\ 0 < crc_len ty <= 3.
Proof. intros [[-> ->]|[[-> ->]|[[-> ->]|[-> ->]]]]%kind_of_type_cases; done. Qed.

(** the CRC at the end of the block *)
Lemma read_crc_ok bs len L rounds : forall i acc,
  Forall byte_ok bs -> 0 <= L <= len -> len <= zlen bs -> 8 * len < 2 ^ 32 -> 0 <= i -> i + Z.of_nat rounds = L -> 0 <= acc ->
  returns (read_crc rounds bs (8 * len) L i (Z.shiftl acc (8 * (L - i)))) (fun c =>
    c = Z.shiftl acc (8 * (L - i)) + be (take rounds (drop (Z.to_nat (len - L + i)) bs))).
Proof.
  induction rounds as [|rounds IH]; intros i acc Hb HL Hlen H32 Hi HiL Hacc; cbn [read_crc].
  { apply returns_Ret. change (be (take 0 _)) with 0. lia. }
  assert (E3 : Z.shiftr (8 * len) 3 = len) by (rewrite Z.shiftr_div_pow2, Z.mul_comm by lia; by apply Z.div_mul).
  rewrite E3, !u32_small by (rewrite ?u32_small; lia).
  destruct (lookup_lt_is_Some_2 bs (Z.to_nat (len - L + i)) ltac:(unfold zlen in Hlen; lia)) as [b Hbi].
  pose proof (proj1 (Forall_lookup _ _) Hb _ _ Hbi) as Hok. unfold byte_ok in Hok.
  replace (len - L + i) with (Z.of_nat (Z.to_nat (len - L + i))) at 1 by lia. rewrite (rd_lookup bs _ b Hbi), bind_Ret_l.
  replace (Z.lor _ _) with (Z.shiftl (256 * acc + b) (8 * (L - (i + 1)))).
  2: { replace (8 * (L - i)) with (8 + 8 * (L - (i + 1))) by lia. rewrite <- Z.shiftl_shiftl by lia.
       replace (Z.shiftl (L - 1 - i) 3) with (8 * (L - (i + 1))) by (rewrite Z.shiftl_mul_pow2; lia).
       rewrite <- Z.shiftl_lor. f_equal. rewrite <- Z.lxor_lor, shiftl_lxor_add by (try apply shiftl_land_0; lia). lia. }
  eapply returns_mono; [apply IH; done || lia|]. intros c ->.
  rewrite (drop_S bs b _ Hbi). replace (Z.to_nat (len - L + (i + 1))) with (S (Z.to_nat (len - L + i))) by lia.
  cbn [take]. set (d := take rounds _). change (b :: d) with ([b] ++ d). rewrite be_app.
  change (be [b]) with (256 * 0 + b).
  replace (zlen d) with (L - (i + 1)).
  2: { unfold d. rewrite zlen_take, zlen_drop. lia. }
  rewrite pow256, !Z.shiftl_mul_pow2 by lia. replace (8 * (L - i)) with (8 + 8 * (L - (i + 1))) by lia.
  rewrite Z.pow_add_r by lia. change (2 ^ 8) with 256. lia.
Qed.

(** the block: [len] bytes of which the last are the CRC *)
Record block (intel : bool) (ty : Z) (k : crc_kind) (bs : list Z) (len : Z) : Prop := {
  bl_type : kind_of_type ty = Some k;
  bl_len : crc_len ty <= len <= zlen bs;
  bl_holds : holds intel k bs (8 * (len - crc_len ty));
  bl_int : 8 * len < 2 ^ 31
}.

(** the block as a polynomial *)
Definition codeword (bs : list Z) (len : Z) : Z := be (take (Z.to_nat len) bs).

Lemma codeword_split intel ty k bs len : block intel ty k bs len ->
  let M := be (take (Z.to_nat (len - crc_len ty)) bs) in
  let C := be (take (Z.to_nat (crc_len ty)) (drop (Z.to_nat (len - crc_len ty)) bs)) in
  codeword bs len = Z.lxor (Z.shiftl M (width k)) C /\ 0 <= M /\ 0 <= C < 2 ^ width k.
Proof.
  intros [Ht Hl [Hb _ _ _] _] M C. destruct (crc_len_width ty k Ht) as [Hw Hc]. unfold codeword, M, C.
  replace (Z.to_nat len) with (Z.to_nat (len - crc_len ty) + Z.to_nat (crc_len ty))%nat by lia.
  rewrite be_block by (done || (unfold zlen in Hl; lia)).
  replace (8 * Z.of_nat (Z.to_nat (crc_len ty))) with (width k) by lia. split; [done|].
  split; [by apply be_nonneg, Forall_take|].
  replace (width k) with (8 * Z.of_nat (Z.to_nat (crc_len ty))) by lia.
  apply be_lt; [by apply Forall_take, Forall_drop|]. rewrite length_take. lia.
Qed.

(** the comparison at the end of [check_crc] *)
Lemma check_crc_eq intel T ty k bs len :
  tables_ok T -> block intel ty k bs len ->
  returns (check_crc intel T bs (8 * len) ty) (fun ok => exists r,
    remainder k (be (take (Z.to_nat (len - crc_len ty)) bs)) r /\
    ok = (r =? be (take (Z.to_nat (crc_len ty)) (drop (Z.to_nat (len - crc_len ty)) bs)))).
Proof.
  intros HT Hbl. destruct (codeword_split _ _ _ _ _ Hbl) as (_ & HM & HC). destruct Hbl as [Ht Hl Hh Hi].
  pose proof (crc_of_ok intel T k bs _ HT Hh) as Hcrc. destruct Hh as [Hb Hn _ _].
  destruct (crc_len_width ty k Ht) as [Hw Hc]. unfold check_crc.
  pose proof (read_crc_ok bs len (crc_len ty) (Z.to_nat (crc_len ty)) 0 0 Hb ltac:(lia) ltac:(lia)) as Hr.
  rewrite Z.shiftl_0_l in Hr. specialize (Hr ltac:(lia) ltac:(lia) ltac:(lia) ltac:(lia)).
  rewrite Z.add_0_r in Hr. eapply returns_seq; [exact Hr|]. intros old ->. rewrite Z.add_0_l.
  set (C := be (take (Z.to_nat (crc_len ty)) (drop (Z.to_nat (len - crc_len ty)) bs))) in *.
  rewrite msg_bytes in Hcrc by lia. set (M := be (take _ bs)) in *.
  assert (Hint : int_of_u32 (8 * len - width k) = 8 * (len - crc_len ty)).
  { unfold int_of_u32. rewrite !u32_small by lia. rewrite (proj2 (Z.ltb_lt _ _)) by lia. lia. }
  assert (Hland : Z.land C (Z.ones (width k)) = C).
  { rewrite Z.land_ones by lia. by apply Z.mod_small. }
  eapply returns_seq with (P := fun '(crc, old) => remainder k M crc /\ old = C);
    [|intros [crc old] [Hrem ->]; apply returns_Ret; by exists crc].
  clear Hr. revert Hland Hint Hcrc. generalize (len - crc_len ty). intros o Hland Hint Hcrc.
  clearbody C M. clear Hb Hn Hl Hi Hw Hc.
  destruct (kind_of_type_cases ty k Ht) as [[-> ->]|[[-> ->]|[[-> ->]|[-> ->]]]]; cbn [Z.eqb CRC24_A CRC24_B CRC16 CRC8].
  all: cbn [width] in *; simpl (_ =? _); cbv iota; rewrite Hint.
  all: (eapply returns_seq; [exact Hcrc|]; intros crc Hr; apply returns_Ret; split; [|exact Hland];
    destruct (is_crc_remainder _ _ _ HM Hr) as (r & _ & -> & Hrem); exact Hrem).
Qed.

(** a block is divisible by the generator iff its CRC is the remainder *)
Lemma codeword_iff k M C r : 0 <= C < 2 ^ width k -> remainder k M r ->
  cong (generator k) (Z.lxor (Z.shiftl M (width k)) C) 0 <-> r = C.
Proof.
  intros HC Hr. pose proof (generator_range k). pose proof (width_range k). split.
  - intros (q & Hq & E). apply (remainder_unique k M); [done|]. split; [done|]. exists q. split; [done|].
    rewrite <- E. xor_ring.
  - intros <-. destruct Hr as [_ (q & Hq & E)]. exists q. split; [done|]. rewrite <- E. xor_ring.
Qed.

(** C35: [check_crc] accepts a block exactly when it is a codeword, that is when
    its bits as a polynomial are a multiple of the generator of its CRC. *)
Theorem check_crc_iff_codeword intel ty k bs len :
  block intel ty k bs len ->
  returns (T ← crcTableInit zero_tables; check_crc intel T bs (8 * len) ty)
    (fun ok => ok = true <-> cong (generator k) (codeword bs len) 0).
Proof.
  intros Hbl. eapply returns_seq; [exact crcTableInit_ok|]. intros T [_ HT].
  eapply returns_mono; [by eapply check_crc_eq|]. intros ok (r & Hr & ->).
  destruct (codeword_split _ _ _ _ _ Hbl) as (-> & _ & HC). rewrite codeword_iff by done. apply Z.eqb_eq.
Qed.

(** ** Error detection *)

(** with an odd generator a power of [x] cancels *)
Lemma cong_shift_cancel G a n : 0 <= G -> Z.odd G = true -> 0 <= a -> 0 <= n ->
  cong G (Z.shiftl a n) 0 -> cong G a 0.
Proof.
  intros HG Hodd Ha Hn. revert a Ha. pattern n. apply natlike_ind; [| |done].
  { intros a Ha. by rewrite Z.shiftl_0_r. }
  intros m Hm IH a Ha. replace (Z.succ m) with (1 + m) by lia. rewrite <- Z.shiftl_shiftl by lia.
  intros H%IH; [|by apply shiftl_nonneg]. destruct H as (q & Hq & E).
  rewrite Z.lxor_0_r, Z.shiftl_mul_pow2 in E by lia. change (2 ^ 1) with 2 in E.
  destruct (Z.Even_or_Odd q) as [[p Hp]|[p Hp]].
  - exists p. split; [lia|]. rewrite Hp, clmul_double_l in E by lia. rewrite Z.lxor_0_r. lia.
  - rewrite Hp, clmul_odd_l in E by lia. apply (f_equal Z.odd) in E.
    rewrite <- Z.bit0_odd, <- (Z.bit0_odd (Z.lxor _ _)), Z.lxor_spec, !Z.bit0_odd, Hodd in E.
    rewrite Z.odd_mul, Z.odd_mul in E. simpl in E. by rewrite andb_false_r in E.
Qed.

Lemma generator_odd k : Z.odd (generator k) = true.
Proof. by destruct k. Qed.

(** C36: an error burst is detected: when an accepted block is changed within any
    window of at most as many bits as the CRC has (the change is the non-zero
    polynomial [b] at bit position [i]), [check_crc] refuses the result. *)
Theorem crc_detects_burst intel ty k bs bs' len b i :
  block intel ty k bs len -> block intel ty k bs' len ->
  0 < b < 2 ^ width k -> 0 <= i -> codeword bs' len = Z.lxor (codeword bs len) (Z.shiftl b i) ->
  returns (T ← crcTableInit zero_tables; ok ← check_crc intel T bs (8 * len) ty;
           ok' ← check_crc intel T bs' (8 * len) ty; Ret (ok, ok'))
    (fun '(ok, ok') => ok = true -> ok' = false).
Proof.
  intros Hbl Hbl' Hb Hi Hd. eapply returns_seq; [exact crcTableInit_ok|]. intros T [_ HT].
  eapply returns_seq; [by eapply check_crc_eq|]. intros ok (r & Hr & ->).
  eapply returns_seq; [by eapply check_crc_eq|]. intros ok' (r' & Hr' & ->). apply returns_Ret.
  destruct (codeword_split _ _ _ _ _ Hbl) as (E & _ & HC). destruct (codeword_split _ _ _ _ _ Hbl') as (E' & _ & HC').
  rewrite Z.eqb_eq, <- (codeword_iff k _ _ r HC Hr), <- E. intros Hok. apply Z.eqb_neq. intros Hbad.
  rewrite <- (codeword_iff k _ _ r' HC' Hr'), <- E', Hd in Hbad.
  pose proof (generator_range k). pose proof (width_range k).
  pose proof (cong_lxor (generator k) ltac:(lia) _ _ _ _ Hok Hbad) as Hc.
  replace (Z.lxor (codeword bs len) _) with (Z.shiftl b i) in Hc by xor_ring. rewrite Z.lxor_0_l in Hc.
  apply cong_shift_cancel in Hc; [|lia|apply generator_odd|lia|lia].
  apply (cong_unique (generator k) (width k)) in Hc; lia.
Qed.

(** A CRC type other than the four known ones is accepted whatever the
    block holds: the assertion of the default case tests the constant 1. *)
Lemma check_crc_unknown_accepts intel T bs n ty :
  kind_of_type ty = None -> check_crc intel T bs n ty = Ret true.
Proof.
  unfold kind_of_type, check_crc, crc_len. intros H.
  repeat (case_match; [discriminate|]). reflexivity.
Qed.

Lemma check_crc_unknown_accepts_witness : check_crc true init_tables [1; 2; 3; 4; 5] 40 7 = Ret true.
Proof. apply check_crc_unknown_accepts. reflexivity. Defined.

(** ** Examples: 32 bytes with their CRC-24A, and the same with a burst of 24 bits *)

Definition demo_block : list Z := demo_bytes 32 ++ [52; 38; 213].

Definition demo_damaged : list Z := <[10%nat := 0x5f]> (<[11%nat := 0xff]> (<[12%nat := 0x0a]> demo_block)).

Lemma demo_block_ok bs : Forall byte_ok bs -> zlen bs = 35 -> block true CRC24_A K24a bs 35.
Proof.
  intros Hb Hl. constructor; [done|rewrite Hl; vm_compute; split; congruence| |lia].
  constructor; rewrite ?Hl; [done|vm_compute; split; congruence|vm_compute; congruence|].
  intros. vm_compute. congruence.
Qed.

Lemma check_crc_iff_codeword_witness :
  returns (T ← crcTableInit zero_tables; check_crc true T demo_block (8 * 35) CRC24_A)
    (fun ok => ok = true <-> cong (generator K24a) (codeword demo_block 35) 0).
Proof.
  apply check_crc_iff_codeword. apply demo_block_ok; [|done].
  apply Forall_app. split; [apply demo_bytes_ok|]. repeat constructor; unfold byte_ok; lia.
Defined.

(** the block is accepted *)
Lemma demo_block_accepted : check_crc true init_tables demo_block (8 * 35) CRC24_A = Ret true.
Proof. vm_compute. reflexivity. Qed.

Lemma crc_detects_burst_witness :
  returns (T ← crcTableInit zero_tables; ok ← check_crc true T demo_block (8 * 35) CRC24_A;
           ok' ← check_crc true T demo_damaged (8 * 35) CRC24_A; Ret (ok, ok'))
    (fun '(ok, ok') => ok = true -> ok' = false).
Proof.
  assert (Hb : Forall byte_ok demo_block).
  { apply Forall_app. split; [apply demo_bytes_ok|]. repeat constructor; unfold byte_ok; lia. }
  apply (crc_detects_burst true CRC24_A K24a demo_block demo_damaged 35
    (Z.shiftr (Z.lxor (codeword demo_block 35) (codeword demo_damaged 35)) 176) 176).
  - by apply demo_block_ok.
  - apply demo_block_ok; [|done]. repeat apply Forall_insert; done || (unfold byte_ok; lia).
  - vm_compute. split; reflexivity.
  - lia.
  - vm_compute. reflexivity.
Defined.
