(* ===== verification/Snow3g.v ===== *)
(** The SNOW 3G stream cipher, 128-NEA1 and 128-NIA1:
    src/openair3/SECU/snow3g.c.

    The shift register is kept in an array of twice its length, with a pointer to
    its first word, so that a step writes two words and moves none. The second half
    of the array is not initialised: it is the parameter [junk]. Tables are those of
    the source. Words are 32-bit, [u32] where an operation can overflow. *)

From stdpp Require Import base tactics list numbers.
From Stdlib Require Import ZArith Lia.
From S2P Require Import Prelude.

(** ** Tables *)

Definition s1_t0 : list Z := [
  0xA56363C6; 0x847C7CF8; 0x997777EE; 0x8D7B7BF6; 0x0DF2F2FF; 0xBD6B6BD6; 0xB16F6FDE; 0x54C5C591;
  0x50303060; 0x03010102; 0xA96767CE; 0x7D2B2B56; 0x19FEFEE7; 0x62D7D7B5; 0xE6ABAB4D; 0x9A7676EC;
  0x45CACA8F; 0x9D82821F; 0x40C9C989; 0x877D7DFA; 0x15FAFAEF; 0xEB5959B2; 0xC947478E; 0x0BF0F0FB;
  0xECADAD41; 0x67D4D4B3; 0xFDA2A25F; 0xEAAFAF45; 0xBF9C9C23; 0xF7A4A453; 0x967272E4; 0x5BC0C09B;
  0xC2B7B775; 0x1CFDFDE1; 0xAE93933D; 0x6A26264C; 0x5A36366C; 0x413F3F7E; 0x02F7F7F5; 0x4FCCCC83;
  0x5C343468; 0xF4A5A551; 0x34E5E5D1; 0x08F1F1F9; 0x937171E2; 0x73D8D8AB; 0x53313162; 0x3F15152A;
  0x0C040408; 0x52C7C795; 0x65232346; 0x5EC3C39D; 0x28181830; 0xA1969637; 0x0F05050A; 0xB59A9A2F;
  0x0907070E; 0x36121224; 0x9B80801B; 0x3DE2E2DF; 0x26EBEBCD; 0x6927274E; 0xCDB2B27F; 0x9F7575EA;
  0x1B090912; 0x9E83831D; 0x742C2C58; 0x2E1A1A34; 0x2D1B1B36; 0xB26E6EDC; 0xEE5A5AB4; 0xFBA0A05B;
  0xF65252A4; 0x4D3B3B76; 0x61D6D6B7; 0xCEB3B37D; 0x7B292952; 0x3EE3E3DD; 0x712F2F5E; 0x97848413;
  0xF55353A6; 0x68D1D1B9; 0x00000000; 0x2CEDEDC1; 0x60202040; 0x1FFCFCE3; 0xC8B1B179; 0xED5B5BB6;
  0xBE6A6AD4; 0x46CBCB8D; 0xD9BEBE67; 0x4B393972; 0xDE4A4A94; 0xD44C4C98; 0xE85858B0; 0x4ACFCF85;
  0x6BD0D0BB; 0x2AEFEFC5; 0xE5AAAA4F; 0x16FBFBED; 0xC5434386; 0xD74D4D9A; 0x55333366; 0x94858511;
  0xCF45458A; 0x10F9F9E9; 0x06020204; 0x817F7FFE; 0xF05050A0; 0x443C3C78; 0xBA9F9F25; 0xE3A8A84B;
  0xF35151A2; 0xFEA3A35D; 0xC0404080; 0x8A8F8F05; 0xAD92923F; 0xBC9D9D21; 0x48383870; 0x04F5F5F1;
  0xDFBCBC63; 0xC1B6B677; 0x75DADAAF; 0x63212142; 0x30101020; 0x1AFFFFE5; 0x0EF3F3FD; 0x6DD2D2BF;
  0x4CCDCD81; 0x140C0C18; 0x35131326; 0x2FECECC3; 0xE15F5FBE; 0xA2979735; 0xCC444488; 0x3917172E;
  0x57C4C493; 0xF2A7A755; 0x827E7EFC; 0x473D3D7A; 0xAC6464C8; 0xE75D5DBA; 0x2B191932; 0x957373E6;
  0xA06060C0; 0x98818119; 0xD14F4F9E; 0x7FDCDCA3; 0x66222244; 0x7E2A2A54; 0xAB90903B; 0x8388880B;
  0xCA46468C; 0x29EEEEC7; 0xD3B8B86B; 0x3C141428; 0x79DEDEA7; 0xE25E5EBC; 0x1D0B0B16; 0x76DBDBAD;
  0x3BE0E0DB; 0x56323264; 0x4E3A3A74; 0x1E0A0A14; 0xDB494992; 0x0A06060C; 0x6C242448; 0xE45C5CB8;
  0x5DC2C29F; 0x6ED3D3BD; 0xEFACAC43; 0xA66262C4; 0xA8919139; 0xA4959531; 0x37E4E4D3; 0x8B7979F2;
  0x32E7E7D5; 0x43C8C88B; 0x5937376E; 0xB76D6DDA; 0x8C8D8D01; 0x64D5D5B1; 0xD24E4E9C; 0xE0A9A949;
  0xB46C6CD8; 0xFA5656AC; 0x07F4F4F3; 0x25EAEACF; 0xAF6565CA; 0x8E7A7AF4; 0xE9AEAE47; 0x18080810;
  0xD5BABA6F; 0x887878F0; 0x6F25254A; 0x722E2E5C; 0x241C1C38; 0xF1A6A657; 0xC7B4B473; 0x51C6C697;
  0x23E8E8CB; 0x7CDDDDA1; 0x9C7474E8; 0x211F1F3E; 0xDD4B4B96; 0xDCBDBD61; 0x868B8B0D; 0x858A8A0F;
  0x907070E0; 0x423E3E7C; 0xC4B5B571; 0xAA6666CC; 0xD8484890; 0x05030306; 0x01F6F6F7; 0x120E0E1C;
  0xA36161C2; 0x5F35356A; 0xF95757AE; 0xD0B9B969; 0x91868617; 0x58C1C199; 0x271D1D3A; 0xB99E9E27;
  0x38E1E1D9; 0x13F8F8EB; 0xB398982B; 0x33111122; 0xBB6969D2; 0x70D9D9A9; 0x898E8E07; 0xA7949433;
  0xB69B9B2D; 0x221E1E3C; 0x92878715; 0x20E9E9C9; 0x49CECE87; 0xFF5555AA; 0x78282850; 0x7ADFDFA5;
  0x8F8C8C03; 0xF8A1A159; 0x80898909; 0x170D0D1A; 0xDABFBF65; 0x31E6E6D7; 0xC6424284; 0xB86868D0;
  0xC3414182; 0xB0999929; 0x772D2D5A; 0x110F0F1E; 0xCBB0B07B; 0xFC5454A8; 0xD6BBBB6D; 0x3A16162C].

Definition s1_t1 : list Z := [
  0x6363C6A5; 0x7C7CF884; 0x7777EE99; 0x7B7BF68D; 0xF2F2FF0D; 0x6B6BD6BD; 0x6F6FDEB1; 0xC5C59154;
  0x30306050; 0x01010203; 0x6767CEA9; 0x2B2B567D; 0xFEFEE719; 0xD7D7B562; 0xABAB4DE6; 0x7676EC9A;
  0xCACA8F45; 0x82821F9D; 0xC9C98940; 0x7D7DFA87; 0xFAFAEF15; 0x5959B2EB; 0x47478EC9; 0xF0F0FB0B;
  0xADAD41EC; 0xD4D4B367; 0xA2A25FFD; 0xAFAF45EA; 0x9C9C23BF; 0xA4A453F7; 0x7272E496; 0xC0C09B5B;
  0xB7B775C2; 0xFDFDE11C; 0x93933DAE; 0x26264C6A; 0x36366C5A; 0x3F3F7E41; 0xF7F7F502; 0xCCCC834F;
  0x3434685C; 0xA5A551F4; 0xE5E5D134; 0xF1F1F908; 0x7171E293; 0xD8D8AB73; 0x31316253; 0x15152A3F;
  0x0404080C; 0xC7C79552; 0x23234665; 0xC3C39D5E; 0x18183028; 0x969637A1; 0x05050A0F; 0x9A9A2FB5;
  0x07070E09; 0x12122436; 0x80801B9B; 0xE2E2DF3D; 0xEBEBCD26; 0x27274E69; 0xB2B27FCD; 0x7575EA9F;
  0x0909121B; 0x83831D9E; 0x2C2C5874; 0x1A1A342E; 0x1B1B362D; 0x6E6EDCB2; 0x5A5AB4EE; 0xA0A05BFB;
  0x5252A4F6; 0x3B3B764D; 0xD6D6B761; 0xB3B37DCE; 0x2929527B; 0xE3E3DD3E; 0x2F2F5E71; 0x84841397;
  0x5353A6F5; 0xD1D1B968; 0x00000000; 0xEDEDC12C; 0x20204060; 0xFCFCE31F; 0xB1B179C8; 0x5B5BB6ED;
  0x6A6AD4BE; 0xCBCB8D46; 0xBEBE67D9; 0x3939724B; 0x4A4A94DE; 0x4C4C98D4; 0x5858B0E8; 0xCFCF854A;
  0xD0D0BB6B; 0xEFEFC52A; 0xAAAA4FE5; 0xFBFBED16; 0x434386C5; 0x4D4D9AD7; 0x33336655; 0x85851194;
  0x45458ACF; 0xF9F9E910; 0x02020406; 0x7F7FFE81; 0x5050A0F0; 0x3C3C7844; 0x9F9F25BA; 0xA8A84BE3;
  0x5151A2F3; 0xA3A35DFE; 0x404080C0; 0x8F8F058A; 0x92923FAD; 0x9D9D21BC; 0x38387048; 0xF5F5F104;
  0xBCBC63DF; 0xB6B677C1; 0xDADAAF75; 0x21214263; 0x10102030; 0xFFFFE51A; 0xF3F3FD0E; 0xD2D2BF6D;
  0xCDCD814C; 0x0C0C1814; 0x13132635; 0xECECC32F; 0x5F5FBEE1; 0x979735A2; 0x444488CC; 0x17172E39;
  0xC4C49357; 0xA7A755F2; 0x7E7EFC82; 0x3D3D7A47; 0x6464C8AC; 0x5D5DBAE7; 0x1919322B; 0x7373E695;
  0x6060C0A0; 0x81811998; 0x4F4F9ED1; 0xDCDCA37F; 0x22224466; 0x2A2A547E; 0x90903BAB; 0x88880B83;
  0x46468CCA; 0xEEEEC729; 0xB8B86BD3; 0x1414283C; 0xDEDEA779; 0x5E5EBCE2; 0x0B0B161D; 0xDBDBAD76;
  0xE0E0DB3B; 0x32326456; 0x3A3A744E; 0x0A0A141E; 0x494992DB; 0x06060C0A; 0x2424486C; 0x5C5CB8E4;
  0xC2C29F5D; 0xD3D3BD6E; 0xACAC43EF; 0x6262C4A6; 0x919139A8; 0x959531A4; 0xE4E4D337; 0x7979F28B;
  0xE7E7D532; 0xC8C88B43; 0x37376E59; 0x6D6DDAB7; 0x8D8D018C; 0xD5D5B164; 0x4E4E9CD2; 0xA9A949E0;
  0x6C6CD8B4; 0x5656ACFA; 0xF4F4F307; 0xEAEACF25; 0x6565CAAF; 0x7A7AF48E; 0xAEAE47E9; 0x08081018;
  0xBABA6FD5; 0x7878F088; 0x25254A6F; 0x2E2E5C72; 0x1C1C3824; 0xA6A657F1; 0xB4B473C7; 0xC6C69751;
  0xE8E8CB23; 0xDDDDA17C; 0x7474E89C; 0x1F1F3E21; 0x4B4B96DD; 0xBDBD61DC; 0x8B8B0D86; 0x8A8A0F85;
  0x7070E090; 0x3E3E7C42; 0xB5B571C4; 0x6666CCAA; 0x484890D8; 0x03030605; 0xF6F6F701; 0x0E0E1C12;
  0x6161C2A3; 0x35356A5F; 0x5757AEF9; 0xB9B969D0; 0x86861791; 0xC1C19958; 0x1D1D3A27; 0x9E9E27B9;
  0xE1E1D938; 0xF8F8EB13; 0x98982BB3; 0x11112233; 0x6969D2BB; 0xD9D9A970; 0x8E8E0789; 0x949433A7;
  0x9B9B2DB6; 0x1E1E3C22; 0x87871592; 0xE9E9C920; 0xCECE8749; 0x5555AAFF; 0x28285078; 0xDFDFA57A;
  0x8C8C038F; 0xA1A159F8; 0x89890980; 0x0D0D1A17; 0xBFBF65DA; 0xE6E6D731; 0x424284C6; 0x6868D0B8;
  0x414182C3; 0x999929B0; 0x2D2D5A77; 0x0F0F1E11; 0xB0B07BCB; 0x5454A8FC; 0xBBBB6DD6; 0x16162C3A].

Definition s1_t2 : list Z := [
  0x63C6A563; 0x7CF8847C; 0x77EE9977; 0x7BF68D7B; 0xF2FF0DF2; 0x6BD6BD6B; 0x6FDEB16F; 0xC59154C5;
  0x30605030; 0x01020301; 0x67CEA967; 0x2B567D2B; 0xFEE719FE; 0xD7B562D7; 0xAB4DE6AB; 0x76EC9A76;
  0xCA8F45CA; 0x821F9D82; 0xC98940C9; 0x7DFA877D; 0xFAEF15FA; 0x59B2EB59; 0x478EC947; 0xF0FB0BF0;
  0xAD41ECAD; 0xD4B367D4; 0xA25FFDA2; 0xAF45EAAF; 0x9C23BF9C; 0xA453F7A4; 0x72E49672; 0xC09B5BC0;
  0xB775C2B7; 0xFDE11CFD; 0x933DAE93; 0x264C6A26; 0x366C5A36; 0x3F7E413F; 0xF7F502F7; 0xCC834FCC;
  0x34685C34; 0xA551F4A5; 0xE5D134E5; 0xF1F908F1; 0x71E29371; 0xD8AB73D8; 0x31625331; 0x152A3F15;
  0x04080C04; 0xC79552C7; 0x23466523; 0xC39D5EC3; 0x18302818; 0x9637A196; 0x050A0F05; 0x9A2FB59A;
  0x070E0907; 0x12243612; 0x801B9B80; 0xE2DF3DE2; 0xEBCD26EB; 0x274E6927; 0xB27FCDB2; 0x75EA9F75;
  0x09121B09; 0x831D9E83; 0x2C58742C; 0x1A342E1A; 0x1B362D1B; 0x6EDCB26E; 0x5AB4EE5A; 0xA05BFBA0;
  0x52A4F652; 0x3B764D3B; 0xD6B761D6; 0xB37DCEB3; 0x29527B29; 0xE3DD3EE3; 0x2F5E712F; 0x84139784;
  0x53A6F553; 0xD1B968D1; 0x00000000; 0xEDC12CED; 0x20406020; 0xFCE31FFC; 0xB179C8B1; 0x5BB6ED5B;
  0x6AD4BE6A; 0xCB8D46CB; 0xBE67D9BE; 0x39724B39; 0x4A94DE4A; 0x4C98D44C; 0x58B0E858; 0xCF854ACF;
  0xD0BB6BD0; 0xEFC52AEF; 0xAA4FE5AA; 0xFBED16FB; 0x4386C543; 0x4D9AD74D; 0x33665533; 0x85119485;
  0x458ACF45; 0xF9E910F9; 0x02040602; 0x7FFE817F; 0x50A0F050; 0x3C78443C; 0x9F25BA9F; 0xA84BE3A8;
  0x51A2F351; 0xA35DFEA3; 0x4080C040; 0x8F058A8F; 0x923FAD92; 0x9D21BC9D; 0x38704838; 0xF5F104F5;
  0xBC63DFBC; 0xB677C1B6; 0xDAAF75DA; 0x21426321; 0x10203010; 0xFFE51AFF; 0xF3FD0EF3; 0xD2BF6DD2;
  0xCD814CCD; 0x0C18140C; 0x13263513; 0xECC32FEC; 0x5FBEE15F; 0x9735A297; 0x4488CC44; 0x172E3917;
  0xC49357C4; 0xA755F2A7; 0x7EFC827E; 0x3D7A473D; 0x64C8AC64; 0x5DBAE75D; 0x19322B19; 0x73E69573;
  0x60C0A060; 0x81199881; 0x4F9ED14F; 0xDCA37FDC; 0x22446622; 0x2A547E2A; 0x903BAB90; 0x880B8388;
  0x468CCA46; 0xEEC729EE; 0xB86BD3B8; 0x14283C14; 0xDEA779DE; 0x5EBCE25E; 0x0B161D0B; 0xDBAD76DB;
  0xE0DB3BE0; 0x32645632; 0x3A744E3A; 0x0A141E0A; 0x4992DB49; 0x060C0A06; 0x24486C24; 0x5CB8E45C;
  0xC29F5DC2; 0xD3BD6ED3; 0xAC43EFAC; 0x62C4A662; 0x9139A891; 0x9531A495; 0xE4D337E4; 0x79F28B79;
  0xE7D532E7; 0xC88B43C8; 0x376E5937; 0x6DDAB76D; 0x8D018C8D; 0xD5B164D5; 0x4E9CD24E; 0xA949E0A9;
  0x6CD8B46C; 0x56ACFA56; 0xF4F307F4; 0xEACF25EA; 0x65CAAF65; 0x7AF48E7A; 0xAE47E9AE; 0x08101808;
  0xBA6FD5BA; 0x78F08878; 0x254A6F25; 0x2E5C722E; 0x1C38241C; 0xA657F1A6; 0xB473C7B4; 0xC69751C6;
  0xE8CB23E8; 0xDDA17CDD; 0x74E89C74; 0x1F3E211F; 0x4B96DD4B; 0xBD61DCBD; 0x8B0D868B; 0x8A0F858A;
  0x70E09070; 0x3E7C423E; 0xB571C4B5; 0x66CCAA66; 0x4890D848; 0x03060503; 0xF6F701F6; 0x0E1C120E;
  0x61C2A361; 0x356A5F35; 0x57AEF957; 0xB969D0B9; 0x86179186; 0xC19958C1; 0x1D3A271D; 0x9E27B99E;
  0xE1D938E1; 0xF8EB13F8; 0x982BB398; 0x11223311; 0x69D2BB69; 0xD9A970D9; 0x8E07898E; 0x9433A794;
  0x9B2DB69B; 0x1E3C221E; 0x87159287; 0xE9C920E9; 0xCE8749CE; 0x55AAFF55; 0x28507828; 0xDFA57ADF;
  0x8C038F8C; 0xA159F8A1; 0x89098089; 0x0D1A170D; 0xBF65DABF; 0xE6D731E6; 0x4284C642; 0x68D0B868;
  0x4182C341; 0x9929B099; 0x2D5A772D; 0x0F1E110F; 0xB07BCBB0; 0x54A8FC54; 0xBB6DD6BB; 0x162C3A16].

Definition s1_t3 : list Z := [
  0xC6A56363; 0xF8847C7C; 0xEE997777; 0xF68D7B7B; 0xFF0DF2F2; 0xD6BD6B6B; 0xDEB16F6F; 0x9154C5C5;
  0x60503030; 0x02030101; 0xCEA96767; 0x567D2B2B; 0xE719FEFE; 0xB562D7D7; 0x4DE6ABAB; 0xEC9A7676;
  0x8F45CACA; 0x1F9D8282; 0x8940C9C9; 0xFA877D7D; 0xEF15FAFA; 0xB2EB5959; 0x8EC94747; 0xFB0BF0F0;
  0x41ECADAD; 0xB367D4D4; 0x5FFDA2A2; 0x45EAAFAF; 0x23BF9C9C; 0x53F7A4A4; 0xE4967272; 0x9B5BC0C0;
  0x75C2B7B7; 0xE11CFDFD; 0x3DAE9393; 0x4C6A2626; 0x6C5A3636; 0x7E413F3F; 0xF502F7F7; 0x834FCCCC;
  0x685C3434; 0x51F4A5A5; 0xD134E5E5; 0xF908F1F1; 0xE2937171; 0xAB73D8D8; 0x62533131; 0x2A3F1515;
  0x080C0404; 0x9552C7C7; 0x46652323; 0x9D5EC3C3; 0x30281818; 0x37A19696; 0x0A0F0505; 0x2FB59A9A;
  0x0E090707; 0x24361212; 0x1B9B8080; 0xDF3DE2E2; 0xCD26EBEB; 0x4E692727; 0x7FCDB2B2; 0xEA9F7575;
  0x121B0909; 0x1D9E8383; 0x58742C2C; 0x342E1A1A; 0x362D1B1B; 0xDCB26E6E; 0xB4EE5A5A; 0x5BFBA0A0;
  0xA4F65252; 0x764D3B3B; 0xB761D6D6; 0x7DCEB3B3; 0x527B2929; 0xDD3EE3E3; 0x5E712F2F; 0x13978484;
  0xA6F55353; 0xB968D1D1; 0x00000000; 0xC12CEDED; 0x40602020; 0xE31FFCFC; 0x79C8B1B1; 0xB6ED5B5B;
  0xD4BE6A6A; 0x8D46CBCB; 0x67D9BEBE; 0x724B3939; 0x94DE4A4A; 0x98D44C4C; 0xB0E85858; 0x854ACFCF;
  0xBB6BD0D0; 0xC52AEFEF; 0x4FE5AAAA; 0xED16FBFB; 0x86C54343; 0x9AD74D4D; 0x66553333; 0x11948585;
  0x8ACF4545; 0xE910F9F9; 0x04060202; 0xFE817F7F; 0xA0F05050; 0x78443C3C; 0x25BA9F9F; 0x4BE3A8A8;
  0xA2F35151; 0x5DFEA3A3; 0x80C04040; 0x058A8F8F; 0x3FAD9292; 0x21BC9D9D; 0x70483838; 0xF104F5F5;
  0x63DFBCBC; 0x77C1B6B6; 0xAF75DADA; 0x42632121; 0x20301010; 0xE51AFFFF; 0xFD0EF3F3; 0xBF6DD2D2;
  0x814CCDCD; 0x18140C0C; 0x26351313; 0xC32FECEC; 0xBEE15F5F; 0x35A29797; 0x88CC4444; 0x2E391717;
  0x9357C4C4; 0x55F2A7A7; 0xFC827E7E; 0x7A473D3D; 0xC8AC6464; 0xBAE75D5D; 0x322B1919; 0xE6957373;
  0xC0A06060; 0x19988181; 0x9ED14F4F; 0xA37FDCDC; 0x44662222; 0x547E2A2A; 0x3BAB9090; 0x0B838888;
  0x8CCA4646; 0xC729EEEE; 0x6BD3B8B8; 0x283C1414; 0xA779DEDE; 0xBCE25E5E; 0x161D0B0B; 0xAD76DBDB;
  0xDB3BE0E0; 0x64563232; 0x744E3A3A; 0x141E0A0A; 0x92DB4949; 0x0C0A0606; 0x486C2424; 0xB8E45C5C;
  0x9F5DC2C2; 0xBD6ED3D3; 0x43EFACAC; 0xC4A66262; 0x39A89191; 0x31A49595; 0xD337E4E4; 0xF28B7979;
  0xD532E7E7; 0x8B43C8C8; 0x6E593737; 0xDAB76D6D; 0x018C8D8D; 0xB164D5D5; 0x9CD24E4E; 0x49E0A9A9;
  0xD8B46C6C; 0xACFA5656; 0xF307F4F4; 0xCF25EAEA; 0xCAAF6565; 0xF48E7A7A; 0x47E9AEAE; 0x10180808;
  0x6FD5BABA; 0xF0887878; 0x4A6F2525; 0x5C722E2E; 0x38241C1C; 0x57F1A6A6; 0x73C7B4B4; 0x9751C6C6;
  0xCB23E8E8; 0xA17CDDDD; 0xE89C7474; 0x3E211F1F; 0x96DD4B4B; 0x61DCBDBD; 0x0D868B8B; 0x0F858A8A;
  0xE0907070; 0x7C423E3E; 0x71C4B5B5; 0xCCAA6666; 0x90D84848; 0x06050303; 0xF701F6F6; 0x1C120E0E;
  0xC2A36161; 0x6A5F3535; 0xAEF95757; 0x69D0B9B9; 0x17918686; 0x9958C1C1; 0x3A271D1D; 0x27B99E9E;
  0xD938E1E1; 0xEB13F8F8; 0x2BB39898; 0x22331111; 0xD2BB6969; 0xA970D9D9; 0x07898E8E; 0x33A79494;
  0x2DB69B9B; 0x3C221E1E; 0x15928787; 0xC920E9E9; 0x8749CECE; 0xAAFF5555; 0x50782828; 0xA57ADFDF;
  0x038F8C8C; 0x59F8A1A1; 0x09808989; 0x1A170D0D; 0x65DABFBF; 0xD731E6E6; 0x84C64242; 0xD0B86868;
  0x82C34141; 0x29B09999; 0x5A772D2D; 0x1E110F0F; 0x7BCBB0B0; 0xA8FC5454; 0x6DD6BBBB; 0x2C3A1616].

Definition s2_t0 : list Z := [
  0x6F25254A; 0x6C242448; 0x957373E6; 0xA96767CE; 0x10D7D7C7; 0x9BAEAE35; 0xE45C5CB8; 0x50303060;
  0x85A4A421; 0x5BEEEEB5; 0xB26E6EDC; 0x34CBCBFF; 0x877D7DFA; 0xB6B5B503; 0xEF82826D; 0x04DBDBDF;
  0x45E4E4A1; 0xFB8E8E75; 0xD8484890; 0xDB494992; 0xD14F4F9E; 0xE75D5DBA; 0xBE6A6AD4; 0x887878F0;
  0x907070E0; 0xF1888879; 0x51E8E8B9; 0xE15F5FBE; 0xE25E5EBC; 0xE5848461; 0xAF6565CA; 0x4FE2E2AD;
  0x01D8D8D9; 0x52E9E9BB; 0x3DCCCCF1; 0x5EEDEDB3; 0xC0404080; 0x712F2F5E; 0x33111122; 0x78282850;
  0xF95757AE; 0x1FD2D2CD; 0x9DACAC31; 0x4CE3E3AF; 0xDE4A4A94; 0x3F15152A; 0x2D1B1B36; 0xA2B9B91B;
  0xBFB2B20D; 0xE9808069; 0xE6858563; 0x83A6A625; 0x722E2E5C; 0x06020204; 0xC947478E; 0x7B292952;
  0x0907070E; 0xDD4B4B96; 0x120E0E1C; 0x2AC1C1EB; 0xF35151A2; 0x97AAAA3D; 0xF289897B; 0x15D4D4C1;
  0x37CACAFD; 0x03010102; 0xCA46468C; 0xBCB3B30F; 0x58EFEFB7; 0x0EDDDDD3; 0xCC444488; 0x8D7B7BF6;
  0x2FC2C2ED; 0x817F7FFE; 0xABBEBE15; 0x2CC3C3EF; 0xC89F9F57; 0x60202040; 0xD44C4C98; 0xAC6464C8;
  0xEC83836F; 0x8FA2A22D; 0xB86868D0; 0xC6424284; 0x35131326; 0xB5B4B401; 0xC3414182; 0x3ECDCDF3;
  0xA7BABA1D; 0x23C6C6E5; 0xA4BBBB1F; 0xB76D6DDA; 0xD74D4D9A; 0x937171E2; 0x63212142; 0x75F4F481;
  0xFE8D8D73; 0xB9B0B009; 0x46E5E5A3; 0xDC93934F; 0x6BFEFE95; 0xF88F8F77; 0x43E6E6A5; 0x38CFCFF7;
  0xC5434386; 0xCF45458A; 0x53313162; 0x66222244; 0x5937376E; 0x5A36366C; 0xD3969645; 0x67FAFA9D;
  0xADBCBC11; 0x110F0F1E; 0x18080810; 0xF65252A4; 0x271D1D3A; 0xFF5555AA; 0x2E1A1A34; 0x26C5C5E3;
  0xD24E4E9C; 0x65232346; 0xBB6969D2; 0x8E7A7AF4; 0xDF92924D; 0x68FFFF97; 0xED5B5BB6; 0xEE5A5AB4;
  0x54EBEBBF; 0xC79A9A5D; 0x241C1C38; 0x92A9A93B; 0x1AD1D1CB; 0x827E7EFC; 0x170D0D1A; 0x6DFCFC91;
  0xF05050A0; 0xF78A8A7D; 0xB3B6B605; 0xA66262C4; 0x76F5F583; 0x1E0A0A14; 0x61F8F899; 0x0DDCDCD1;
  0x05030306; 0x443C3C78; 0x140C0C18; 0x4B393972; 0x7AF1F18B; 0xA1B8B819; 0x7CF3F38F; 0x473D3D7A;
  0x7FF2F28D; 0x16D5D5C3; 0xD0979747; 0xAA6666CC; 0xEA81816B; 0x56323264; 0x89A0A029; 0x00000000;
  0x0A06060C; 0x3BCECEF5; 0x73F6F685; 0x57EAEABD; 0xB0B7B707; 0x3917172E; 0x70F7F787; 0xFD8C8C71;
  0x8B7979F2; 0x13D6D6C5; 0x80A7A727; 0xA8BFBF17; 0xF48B8B7F; 0x413F3F7E; 0x211F1F3E; 0xF55353A6;
  0xA56363C6; 0x9F7575EA; 0x5F35356A; 0x742C2C58; 0xA06060C0; 0x6EFDFD93; 0x6927274E; 0x1CD3D3CF;
  0xD5949441; 0x86A5A523; 0x847C7CF8; 0x8AA1A12B; 0x0F05050A; 0xE85858B0; 0x772D2D5A; 0xAEBDBD13;
  0x02D9D9DB; 0x20C7C7E7; 0x98AFAF37; 0xBD6B6BD6; 0xFC5454A8; 0x1D0B0B16; 0x49E0E0A9; 0x48383870;
  0x0C040408; 0x31C8C8F9; 0xCE9D9D53; 0x40E7E7A7; 0x3C141428; 0xBAB1B10B; 0xE0878767; 0xCD9C9C51;
  0x08DFDFD7; 0xB16F6FDE; 0x62F9F99B; 0x07DADADD; 0x7E2A2A54; 0x25C4C4E1; 0xEB5959B2; 0x3A16162C;
  0x9C7474E8; 0xDA91914B; 0x94ABAB3F; 0x6A26264C; 0xA36161C2; 0x9A7676EC; 0x5C343468; 0x7D2B2B56;
  0x9EADAD33; 0xC299995B; 0x64FBFB9F; 0x967272E4; 0x5DECECB1; 0x55333366; 0x36121224; 0x0BDEDED5;
  0xC1989859; 0x4D3B3B76; 0x29C0C0E9; 0xC49B9B5F; 0x423E3E7C; 0x28181830; 0x30101020; 0x4E3A3A74;
  0xFA5656AC; 0x4AE1E1AB; 0x997777EE; 0x32C9C9FB; 0x221E1E3C; 0xCB9E9E55; 0xD6959543; 0x8CA3A32F;
  0xD9909049; 0x2B191932; 0x91A8A839; 0xB46C6CD8; 0x1B090912; 0x19D0D0C9; 0x79F0F089; 0xE3868665].

Definition s2_t1 : list Z := [
  0x25254A6F; 0x2424486C; 0x7373E695; 0x6767CEA9; 0xD7D7C710; 0xAEAE359B; 0x5C5CB8E4; 0x30306050;
  0xA4A42185; 0xEEEEB55B; 0x6E6EDCB2; 0xCBCBFF34; 0x7D7DFA87; 0xB5B503B6; 0x82826DEF; 0xDBDBDF04;
  0xE4E4A145; 0x8E8E75FB; 0x484890D8; 0x494992DB; 0x4F4F9ED1; 0x5D5DBAE7; 0x6A6AD4BE; 0x7878F088;
  0x7070E090; 0x888879F1; 0xE8E8B951; 0x5F5FBEE1; 0x5E5EBCE2; 0x848461E5; 0x6565CAAF; 0xE2E2AD4F;
  0xD8D8D901; 0xE9E9BB52; 0xCCCCF13D; 0xEDEDB35E; 0x404080C0; 0x2F2F5E71; 0x11112233; 0x28285078;
  0x5757AEF9; 0xD2D2CD1F; 0xACAC319D; 0xE3E3AF4C; 0x4A4A94DE; 0x15152A3F; 0x1B1B362D; 0xB9B91BA2;
  0xB2B20DBF; 0x808069E9; 0x858563E6; 0xA6A62583; 0x2E2E5C72; 0x02020406; 0x47478EC9; 0x2929527B;
  0x07070E09; 0x4B4B96DD; 0x0E0E1C12; 0xC1C1EB2A; 0x5151A2F3; 0xAAAA3D97; 0x89897BF2; 0xD4D4C115;
  0xCACAFD37; 0x01010203; 0x46468CCA; 0xB3B30FBC; 0xEFEFB758; 0xDDDDD30E; 0x444488CC; 0x7B7BF68D;
  0xC2C2ED2F; 0x7F7FFE81; 0xBEBE15AB; 0xC3C3EF2C; 0x9F9F57C8; 0x20204060; 0x4C4C98D4; 0x6464C8AC;
  0x83836FEC; 0xA2A22D8F; 0x6868D0B8; 0x424284C6; 0x13132635; 0xB4B401B5; 0x414182C3; 0xCDCDF33E;
  0xBABA1DA7; 0xC6C6E523; 0xBBBB1FA4; 0x6D6DDAB7; 0x4D4D9AD7; 0x7171E293; 0x21214263; 0xF4F48175;
  0x8D8D73FE; 0xB0B009B9; 0xE5E5A346; 0x93934FDC; 0xFEFE956B; 0x8F8F77F8; 0xE6E6A543; 0xCFCFF738;
  0x434386C5; 0x45458ACF; 0x31316253; 0x22224466; 0x37376E59; 0x36366C5A; 0x969645D3; 0xFAFA9D67;
  0xBCBC11AD; 0x0F0F1E11; 0x08081018; 0x5252A4F6; 0x1D1D3A27; 0x5555AAFF; 0x1A1A342E; 0xC5C5E326;
  0x4E4E9CD2; 0x23234665; 0x6969D2BB; 0x7A7AF48E; 0x92924DDF; 0xFFFF9768; 0x5B5BB6ED; 0x5A5AB4EE;
  0xEBEBBF54; 0x9A9A5DC7; 0x1C1C3824; 0xA9A93B92; 0xD1D1CB1A; 0x7E7EFC82; 0x0D0D1A17; 0xFCFC916D;
  0x5050A0F0; 0x8A8A7DF7; 0xB6B605B3; 0x6262C4A6; 0xF5F58376; 0x0A0A141E; 0xF8F89961; 0xDCDCD10D;
  0x03030605; 0x3C3C7844; 0x0C0C1814; 0x3939724B; 0xF1F18B7A; 0xB8B819A1; 0xF3F38F7C; 0x3D3D7A47;
  0xF2F28D7F; 0xD5D5C316; 0x979747D0; 0x6666CCAA; 0x81816BEA; 0x32326456; 0xA0A02989; 0x00000000;
  0x06060C0A; 0xCECEF53B; 0xF6F68573; 0xEAEABD57; 0xB7B707B0; 0x17172E39; 0xF7F78770; 0x8C8C71FD;
  0x7979F28B; 0xD6D6C513; 0xA7A72780; 0xBFBF17A8; 0x8B8B7FF4; 0x3F3F7E41; 0x1F1F3E21; 0x5353A6F5;
  0x6363C6A5; 0x7575EA9F; 0x35356A5F; 0x2C2C5874; 0x6060C0A0; 0xFDFD936E; 0x27274E69; 0xD3D3CF1C;
  0x949441D5; 0xA5A52386; 0x7C7CF884; 0xA1A12B8A; 0x05050A0F; 0x5858B0E8; 0x2D2D5A77; 0xBDBD13AE;
  0xD9D9DB02; 0xC7C7E720; 0xAFAF3798; 0x6B6BD6BD; 0x5454A8FC; 0x0B0B161D; 0xE0E0A949; 0x38387048;
  0x0404080C; 0xC8C8F931; 0x9D9D53CE; 0xE7E7A740; 0x1414283C; 0xB1B10BBA; 0x878767E0; 0x9C9C51CD;
  0xDFDFD708; 0x6F6FDEB1; 0xF9F99B62; 0xDADADD07; 0x2A2A547E; 0xC4C4E125; 0x5959B2EB; 0x16162C3A;
  0x7474E89C; 0x91914BDA; 0xABAB3F94; 0x26264C6A; 0x6161C2A3; 0x7676EC9A; 0x3434685C; 0x2B2B567D;
  0xADAD339E; 0x99995BC2; 0xFBFB9F64; 0x7272E496; 0xECECB15D; 0x33336655; 0x12122436; 0xDEDED50B;
  0x989859C1; 0x3B3B764D; 0xC0C0E929; 0x9B9B5FC4; 0x3E3E7C42; 0x18183028; 0x10102030; 0x3A3A744E;
  0x5656ACFA; 0xE1E1AB4A; 0x7777EE99; 0xC9C9FB32; 0x1E1E3C22; 0x9E9E55CB; 0x959543D6; 0xA3A32F8C;
  0x909049D9; 0x1919322B; 0xA8A83991; 0x6C6CD8B4; 0x0909121B; 0xD0D0C919; 0xF0F08979; 0x868665E3].

Definition s2_t2 : list Z := [
  0x254A6F25; 0x24486C24; 0x73E69573; 0x67CEA967; 0xD7C710D7; 0xAE359BAE; 0x5CB8E45C; 0x30605030;
  0xA42185A4; 0xEEB55BEE; 0x6EDCB26E; 0xCBFF34CB; 0x7DFA877D; 0xB503B6B5; 0x826DEF82; 0xDBDF04DB;
  0xE4A145E4; 0x8E75FB8E; 0x4890D848; 0x4992DB49; 0x4F9ED14F; 0x5DBAE75D; 0x6AD4BE6A; 0x78F08878;
  0x70E09070; 0x8879F188; 0xE8B951E8; 0x5FBEE15F; 0x5EBCE25E; 0x8461E584; 0x65CAAF65; 0xE2AD4FE2;
  0xD8D901D8; 0xE9BB52E9; 0xCCF13DCC; 0xEDB35EED; 0x4080C040; 0x2F5E712F; 0x11223311; 0x28507828;
  0x57AEF957; 0xD2CD1FD2; 0xAC319DAC; 0xE3AF4CE3; 0x4A94DE4A; 0x152A3F15; 0x1B362D1B; 0xB91BA2B9;
  0xB20DBFB2; 0x8069E980; 0x8563E685; 0xA62583A6; 0x2E5C722E; 0x02040602; 0x478EC947; 0x29527B29;
  0x070E0907; 0x4B96DD4B; 0x0E1C120E; 0xC1EB2AC1; 0x51A2F351; 0xAA3D97AA; 0x897BF289; 0xD4C115D4;
  0xCAFD37CA; 0x01020301; 0x468CCA46; 0xB30FBCB3; 0xEFB758EF; 0xDDD30EDD; 0x4488CC44; 0x7BF68D7B;
  0xC2ED2FC2; 0x7FFE817F; 0xBE15ABBE; 0xC3EF2CC3; 0x9F57C89F; 0x20406020; 0x4C98D44C; 0x64C8AC64;
  0x836FEC83; 0xA22D8FA2; 0x68D0B868; 0x4284C642; 0x13263513; 0xB401B5B4; 0x4182C341; 0xCDF33ECD;
  0xBA1DA7BA; 0xC6E523C6; 0xBB1FA4BB; 0x6DDAB76D; 0x4D9AD74D; 0x71E29371; 0x21426321; 0xF48175F4;
  0x8D73FE8D; 0xB009B9B0; 0xE5A346E5; 0x934FDC93; 0xFE956BFE; 0x8F77F88F; 0xE6A543E6; 0xCFF738CF;
  0x4386C543; 0x458ACF45; 0x31625331; 0x22446622; 0x376E5937; 0x366C5A36; 0x9645D396; 0xFA9D67FA;
  0xBC11ADBC; 0x0F1E110F; 0x08101808; 0x52A4F652; 0x1D3A271D; 0x55AAFF55; 0x1A342E1A; 0xC5E326C5;
  0x4E9CD24E; 0x23466523; 0x69D2BB69; 0x7AF48E7A; 0x924DDF92; 0xFF9768FF; 0x5BB6ED5B; 0x5AB4EE5A;
  0xEBBF54EB; 0x9A5DC79A; 0x1C38241C; 0xA93B92A9; 0xD1CB1AD1; 0x7EFC827E; 0x0D1A170D; 0xFC916DFC;
  0x50A0F050; 0x8A7DF78A; 0xB605B3B6; 0x62C4A662; 0xF58376F5; 0x0A141E0A; 0xF89961F8; 0xDCD10DDC;
  0x03060503; 0x3C78443C; 0x0C18140C; 0x39724B39; 0xF18B7AF1; 0xB819A1B8; 0xF38F7CF3; 0x3D7A473D;
  0xF28D7FF2; 0xD5C316D5; 0x9747D097; 0x66CCAA66; 0x816BEA81; 0x32645632; 0xA02989A0; 0x00000000;
  0x060C0A06; 0xCEF53BCE; 0xF68573F6; 0xEABD57EA; 0xB707B0B7; 0x172E3917; 0xF78770F7; 0x8C71FD8C;
  0x79F28B79; 0xD6C513D6; 0xA72780A7; 0xBF17A8BF; 0x8B7FF48B; 0x3F7E413F; 0x1F3E211F; 0x53A6F553;
  0x63C6A563; 0x75EA9F75; 0x356A5F35; 0x2C58742C; 0x60C0A060; 0xFD936EFD; 0x274E6927; 0xD3CF1CD3;
  0x9441D594; 0xA52386A5; 0x7CF8847C; 0xA12B8AA1; 0x050A0F05; 0x58B0E858; 0x2D5A772D; 0xBD13AEBD;
  0xD9DB02D9; 0xC7E720C7; 0xAF3798AF; 0x6BD6BD6B; 0x54A8FC54; 0x0B161D0B; 0xE0A949E0; 0x38704838;
  0x04080C04; 0xC8F931C8; 0x9D53CE9D; 0xE7A740E7; 0x14283C14; 0xB10BBAB1; 0x8767E087; 0x9C51CD9C;
  0xDFD708DF; 0x6FDEB16F; 0xF99B62F9; 0xDADD07DA; 0x2A547E2A; 0xC4E125C4; 0x59B2EB59; 0x162C3A16;
  0x74E89C74; 0x914BDA91; 0xAB3F94AB; 0x264C6A26; 0x61C2A361; 0x76EC9A76; 0x34685C34; 0x2B567D2B;
  0xAD339EAD; 0x995BC299; 0xFB9F64FB; 0x72E49672; 0xECB15DEC; 0x33665533; 0x12243612; 0xDED50BDE;
  0x9859C198; 0x3B764D3B; 0xC0E929C0; 0x9B5FC49B; 0x3E7C423E; 0x18302818; 0x10203010; 0x3A744E3A;
  0x56ACFA56; 0xE1AB4AE1; 0x77EE9977; 0xC9FB32C9; 0x1E3C221E; 0x9E55CB9E; 0x9543D695; 0xA32F8CA3;
  0x9049D990; 0x19322B19; 0xA83991A8; 0x6CD8B46C; 0x09121B09; 0xD0C919D0; 0xF08979F0; 0x8665E386].

Definition s2_t3 : list Z := [
  0x4A6F2525; 0x486C2424; 0xE6957373; 0xCEA96767; 0xC710D7D7; 0x359BAEAE; 0xB8E45C5C; 0x60503030;
  0x2185A4A4; 0xB55BEEEE; 0xDCB26E6E; 0xFF34CBCB; 0xFA877D7D; 0x03B6B5B5; 0x6DEF8282; 0xDF04DBDB;
  0xA145E4E4; 0x75FB8E8E; 0x90D84848; 0x92DB4949; 0x9ED14F4F; 0xBAE75D5D; 0xD4BE6A6A; 0xF0887878;
  0xE0907070; 0x79F18888; 0xB951E8E8; 0xBEE15F5F; 0xBCE25E5E; 0x61E58484; 0xCAAF6565; 0xAD4FE2E2;
  0xD901D8D8; 0xBB52E9E9; 0xF13DCCCC; 0xB35EEDED; 0x80C04040; 0x5E712F2F; 0x22331111; 0x50782828;
  0xAEF95757; 0xCD1FD2D2; 0x319DACAC; 0xAF4CE3E3; 0x94DE4A4A; 0x2A3F1515; 0x362D1B1B; 0x1BA2B9B9;
  0x0DBFB2B2; 0x69E98080; 0x63E68585; 0x2583A6A6; 0x5C722E2E; 0x04060202; 0x8EC94747; 0x527B2929;
  0x0E090707; 0x96DD4B4B; 0x1C120E0E; 0xEB2AC1C1; 0xA2F35151; 0x3D97AAAA; 0x7BF28989; 0xC115D4D4;
  0xFD37CACA; 0x02030101; 0x8CCA4646; 0x0FBCB3B3; 0xB758EFEF; 0xD30EDDDD; 0x88CC4444; 0xF68D7B7B;
  0xED2FC2C2; 0xFE817F7F; 0x15ABBEBE; 0xEF2CC3C3; 0x57C89F9F; 0x40602020; 0x98D44C4C; 0xC8AC6464;
  0x6FEC8383; 0x2D8FA2A2; 0xD0B86868; 0x84C64242; 0x26351313; 0x01B5B4B4; 0x82C34141; 0xF33ECDCD;
  0x1DA7BABA; 0xE523C6C6; 0x1FA4BBBB; 0xDAB76D6D; 0x9AD74D4D; 0xE2937171; 0x42632121; 0x8175F4F4;
  0x73FE8D8D; 0x09B9B0B0; 0xA346E5E5; 0x4FDC9393; 0x956BFEFE; 0x77F88F8F; 0xA543E6E6; 0xF738CFCF;
  0x86C54343; 0x8ACF4545; 0x62533131; 0x44662222; 0x6E593737; 0x6C5A3636; 0x45D39696; 0x9D67FAFA;
  0x11ADBCBC; 0x1E110F0F; 0x10180808; 0xA4F65252; 0x3A271D1D; 0xAAFF5555; 0x342E1A1A; 0xE326C5C5;
  0x9CD24E4E; 0x46652323; 0xD2BB6969; 0xF48E7A7A; 0x4DDF9292; 0x9768FFFF; 0xB6ED5B5B; 0xB4EE5A5A;
  0xBF54EBEB; 0x5DC79A9A; 0x38241C1C; 0x3B92A9A9; 0xCB1AD1D1; 0xFC827E7E; 0x1A170D0D; 0x916DFCFC;
  0xA0F05050; 0x7DF78A8A; 0x05B3B6B6; 0xC4A66262; 0x8376F5F5; 0x141E0A0A; 0x9961F8F8; 0xD10DDCDC;
  0x06050303; 0x78443C3C; 0x18140C0C; 0x724B3939; 0x8B7AF1F1; 0x19A1B8B8; 0x8F7CF3F3; 0x7A473D3D;
  0x8D7FF2F2; 0xC316D5D5; 0x47D09797; 0xCCAA6666; 0x6BEA8181; 0x64563232; 0x2989A0A0; 0x00000000;
  0x0C0A0606; 0xF53BCECE; 0x8573F6F6; 0xBD57EAEA; 0x07B0B7B7; 0x2E391717; 0x8770F7F7; 0x71FD8C8C;
  0xF28B7979; 0xC513D6D6; 0x2780A7A7; 0x17A8BFBF; 0x7FF48B8B; 0x7E413F3F; 0x3E211F1F; 0xA6F55353;
  0xC6A56363; 0xEA9F7575; 0x6A5F3535; 0x58742C2C; 0xC0A06060; 0x936EFDFD; 0x4E692727; 0xCF1CD3D3;
  0x41D59494; 0x2386A5A5; 0xF8847C7C; 0x2B8AA1A1; 0x0A0F0505; 0xB0E85858; 0x5A772D2D; 0x13AEBDBD;
  0xDB02D9D9; 0xE720C7C7; 0x3798AFAF; 0xD6BD6B6B; 0xA8FC5454; 0x161D0B0B; 0xA949E0E0; 0x70483838;
  0x080C0404; 0xF931C8C8; 0x53CE9D9D; 0xA740E7E7; 0x283C1414; 0x0BBAB1B1; 0x67E08787; 0x51CD9C9C;
  0xD708DFDF; 0xDEB16F6F; 0x9B62F9F9; 0xDD07DADA; 0x547E2A2A; 0xE125C4C4; 0xB2EB5959; 0x2C3A1616;
  0xE89C7474; 0x4BDA9191; 0x3F94ABAB; 0x4C6A2626; 0xC2A36161; 0xEC9A7676; 0x685C3434; 0x567D2B2B;
  0x339EADAD; 0x5BC29999; 0x9F64FBFB; 0xE4967272; 0xB15DECEC; 0x66553333; 0x24361212; 0xD50BDEDE;
  0x59C19898; 0x764D3B3B; 0xE929C0C0; 0x5FC49B9B; 0x7C423E3E; 0x30281818; 0x20301010; 0x744E3A3A;
  0xACFA5656; 0xAB4AE1E1; 0xEE997777; 0xFB32C9C9; 0x3C221E1E; 0x55CB9E9E; 0x43D69595; 0x2F8CA3A3;
  0x49D99090; 0x322B1919; 0x3991A8A8; 0xD8B46C6C; 0x121B0909; 0xC919D0D0; 0x8979F0F0; 0x65E38686].

Definition mula : list Z := [
  0x00000000; 0xE19FCF13; 0x6B973726; 0x8A08F835; 0xD6876E4C; 0x3718A15F; 0xBD10596A; 0x5C8F9679;
  0x05A7DC98; 0xE438138B; 0x6E30EBBE; 0x8FAF24AD; 0xD320B2D4; 0x32BF7DC7; 0xB8B785F2; 0x59284AE1;
  0x0AE71199; 0xEB78DE8A; 0x617026BF; 0x80EFE9AC; 0xDC607FD5; 0x3DFFB0C6; 0xB7F748F3; 0x566887E0;
  0x0F40CD01; 0xEEDF0212; 0x64D7FA27; 0x85483534; 0xD9C7A34D; 0x38586C5E; 0xB250946B; 0x53CF5B78;
  0x1467229B; 0xF5F8ED88; 0x7FF015BD; 0x9E6FDAAE; 0xC2E04CD7; 0x237F83C4; 0xA9777BF1; 0x48E8B4E2;
  0x11C0FE03; 0xF05F3110; 0x7A57C925; 0x9BC80636; 0xC747904F; 0x26D85F5C; 0xACD0A769; 0x4D4F687A;
  0x1E803302; 0xFF1FFC11; 0x75170424; 0x9488CB37; 0xC8075D4E; 0x2998925D; 0xA3906A68; 0x420FA57B;
  0x1B27EF9A; 0xFAB82089; 0x70B0D8BC; 0x912F17AF; 0xCDA081D6; 0x2C3F4EC5; 0xA637B6F0; 0x47A879E3;
  0x28CE449F; 0xC9518B8C; 0x435973B9; 0xA2C6BCAA; 0xFE492AD3; 0x1FD6E5C0; 0x95DE1DF5; 0x7441D2E6;
  0x2D699807; 0xCCF65714; 0x46FEAF21; 0xA7616032; 0xFBEEF64B; 0x1A713958; 0x9079C16D; 0x71E60E7E;
  0x22295506; 0xC3B69A15; 0x49BE6220; 0xA821AD33; 0xF4AE3B4A; 0x1531F459; 0x9F390C6C; 0x7EA6C37F;
  0x278E899E; 0xC611468D; 0x4C19BEB8; 0xAD8671AB; 0xF109E7D2; 0x109628C1; 0x9A9ED0F4; 0x7B011FE7;
  0x3CA96604; 0xDD36A917; 0x573E5122; 0xB6A19E31; 0xEA2E0848; 0x0BB1C75B; 0x81B93F6E; 0x6026F07D;
  0x390EBA9C; 0xD891758F; 0x52998DBA; 0xB30642A9; 0xEF89D4D0; 0x0E161BC3; 0x841EE3F6; 0x65812CE5;
  0x364E779D; 0xD7D1B88E; 0x5DD940BB; 0xBC468FA8; 0xE0C919D1; 0x0156D6C2; 0x8B5E2EF7; 0x6AC1E1E4;
  0x33E9AB05; 0xD2766416; 0x587E9C23; 0xB9E15330; 0xE56EC549; 0x04F10A5A; 0x8EF9F26F; 0x6F663D7C;
  0x50358897; 0xB1AA4784; 0x3BA2BFB1; 0xDA3D70A2; 0x86B2E6DB; 0x672D29C8; 0xED25D1FD; 0x0CBA1EEE;
  0x5592540F; 0xB40D9B1C; 0x3E056329; 0xDF9AAC3A; 0x83153A43; 0x628AF550; 0xE8820D65; 0x091DC276;
  0x5AD2990E; 0xBB4D561D; 0x3145AE28; 0xD0DA613B; 0x8C55F742; 0x6DCA3851; 0xE7C2C064; 0x065D0F77;
  0x5F754596; 0xBEEA8A85; 0x34E272B0; 0xD57DBDA3; 0x89F22BDA; 0x686DE4C9; 0xE2651CFC; 0x03FAD3EF;
  0x4452AA0C; 0xA5CD651F; 0x2FC59D2A; 0xCE5A5239; 0x92D5C440; 0x734A0B53; 0xF942F366; 0x18DD3C75;
  0x41F57694; 0xA06AB987; 0x2A6241B2; 0xCBFD8EA1; 0x977218D8; 0x76EDD7CB; 0xFCE52FFE; 0x1D7AE0ED;
  0x4EB5BB95; 0xAF2A7486; 0x25228CB3; 0xC4BD43A0; 0x9832D5D9; 0x79AD1ACA; 0xF3A5E2FF; 0x123A2DEC;
  0x4B12670D; 0xAA8DA81E; 0x2085502B; 0xC11A9F38; 0x9D950941; 0x7C0AC652; 0xF6023E67; 0x179DF174;
  0x78FBCC08; 0x9964031B; 0x136CFB2E; 0xF2F3343D; 0xAE7CA244; 0x4FE36D57; 0xC5EB9562; 0x24745A71;
  0x7D5C1090; 0x9CC3DF83; 0x16CB27B6; 0xF754E8A5; 0xABDB7EDC; 0x4A44B1CF; 0xC04C49FA; 0x21D386E9;
  0x721CDD91; 0x93831282; 0x198BEAB7; 0xF81425A4; 0xA49BB3DD; 0x45047CCE; 0xCF0C84FB; 0x2E934BE8;
  0x77BB0109; 0x9624CE1A; 0x1C2C362F; 0xFDB3F93C; 0xA13C6F45; 0x40A3A056; 0xCAAB5863; 0x2B349770;
  0x6C9CEE93; 0x8D032180; 0x070BD9B5; 0xE69416A6; 0xBA1B80DF; 0x5B844FCC; 0xD18CB7F9; 0x301378EA;
  0x693B320B; 0x88A4FD18; 0x02AC052D; 0xE333CA3E; 0xBFBC5C47; 0x5E239354; 0xD42B6B61; 0x35B4A472;
  0x667BFF0A; 0x87E43019; 0x0DECC82C; 0xEC73073F; 0xB0FC9146; 0x51635E55; 0xDB6BA660; 0x3AF46973;
  0x63DC2392; 0x8243EC81; 0x084B14B4; 0xE9D4DBA7; 0xB55B4DDE; 0x54C482CD; 0xDECC7AF8; 0x3F53B5EB].

Definition diva : list Z := [
  0x00000000; 0x180F40CD; 0x301E8033; 0x2811C0FE; 0x603CA966; 0x7833E9AB; 0x50222955; 0x482D6998;
  0xC078FBCC; 0xD877BB01; 0xF0667BFF; 0xE8693B32; 0xA04452AA; 0xB84B1267; 0x905AD299; 0x88559254;
  0x29F05F31; 0x31FF1FFC; 0x19EEDF02; 0x01E19FCF; 0x49CCF657; 0x51C3B69A; 0x79D27664; 0x61DD36A9;
  0xE988A4FD; 0xF187E430; 0xD99624CE; 0xC1996403; 0x89B40D9B; 0x91BB4D56; 0xB9AA8DA8; 0xA1A5CD65;
  0x5249BE62; 0x4A46FEAF; 0x62573E51; 0x7A587E9C; 0x32751704; 0x2A7A57C9; 0x026B9737; 0x1A64D7FA;
  0x923145AE; 0x8A3E0563; 0xA22FC59D; 0xBA208550; 0xF20DECC8; 0xEA02AC05; 0xC2136CFB; 0xDA1C2C36;
  0x7BB9E153; 0x63B6A19E; 0x4BA76160; 0x53A821AD; 0x1B854835; 0x038A08F8; 0x2B9BC806; 0x339488CB;
  0xBBC11A9F; 0xA3CE5A52; 0x8BDF9AAC; 0x93D0DA61; 0xDBFDB3F9; 0xC3F2F334; 0xEBE333CA; 0xF3EC7307;
  0xA492D5C4; 0xBC9D9509; 0x948C55F7; 0x8C83153A; 0xC4AE7CA2; 0xDCA13C6F; 0xF4B0FC91; 0xECBFBC5C;
  0x64EA2E08; 0x7CE56EC5; 0x54F4AE3B; 0x4CFBEEF6; 0x04D6876E; 0x1CD9C7A3; 0x34C8075D; 0x2CC74790;
  0x8D628AF5; 0x956DCA38; 0xBD7C0AC6; 0xA5734A0B; 0xED5E2393; 0xF551635E; 0xDD40A3A0; 0xC54FE36D;
  0x4D1A7139; 0x551531F4; 0x7D04F10A; 0x650BB1C7; 0x2D26D85F; 0x35299892; 0x1D38586C; 0x053718A1;
  0xF6DB6BA6; 0xEED42B6B; 0xC6C5EB95; 0xDECAAB58; 0x96E7C2C0; 0x8EE8820D; 0xA6F942F3; 0xBEF6023E;
  0x36A3906A; 0x2EACD0A7; 0x06BD1059; 0x1EB25094; 0x569F390C; 0x4E9079C1; 0x6681B93F; 0x7E8EF9F2;
  0xDF2B3497; 0xC724745A; 0xEF35B4A4; 0xF73AF469; 0xBF179DF1; 0xA718DD3C; 0x8F091DC2; 0x97065D0F;
  0x1F53CF5B; 0x075C8F96; 0x2F4D4F68; 0x37420FA5; 0x7F6F663D; 0x676026F0; 0x4F71E60E; 0x577EA6C3;
  0xE18D0321; 0xF98243EC; 0xD1938312; 0xC99CC3DF; 0x81B1AA47; 0x99BEEA8A; 0xB1AF2A74; 0xA9A06AB9;
  0x21F5F8ED; 0x39FAB820; 0x11EB78DE; 0x09E43813; 0x41C9518B; 0x59C61146; 0x71D7D1B8; 0x69D89175;
  0xC87D5C10; 0xD0721CDD; 0xF863DC23; 0xE06C9CEE; 0xA841F576; 0xB04EB5BB; 0x985F7545; 0x80503588;
  0x0805A7DC; 0x100AE711; 0x381B27EF; 0x20146722; 0x68390EBA; 0x70364E77; 0x58278E89; 0x4028CE44;
  0xB3C4BD43; 0xABCBFD8E; 0x83DA3D70; 0x9BD57DBD; 0xD3F81425; 0xCBF754E8; 0xE3E69416; 0xFBE9D4DB;
  0x73BC468F; 0x6BB30642; 0x43A2C6BC; 0x5BAD8671; 0x1380EFE9; 0x0B8FAF24; 0x239E6FDA; 0x3B912F17;
  0x9A34E272; 0x823BA2BF; 0xAA2A6241; 0xB225228C; 0xFA084B14; 0xE2070BD9; 0xCA16CB27; 0xD2198BEA;
  0x5A4C19BE; 0x42435973; 0x6A52998D; 0x725DD940; 0x3A70B0D8; 0x227FF015; 0x0A6E30EB; 0x12617026;
  0x451FD6E5; 0x5D109628; 0x750156D6; 0x6D0E161B; 0x25237F83; 0x3D2C3F4E; 0x153DFFB0; 0x0D32BF7D;
  0x85672D29; 0x9D686DE4; 0xB579AD1A; 0xAD76EDD7; 0xE55B844F; 0xFD54C482; 0xD545047C; 0xCD4A44B1;
  0x6CEF89D4; 0x74E0C919; 0x5CF109E7; 0x44FE492A; 0x0CD320B2; 0x14DC607F; 0x3CCDA081; 0x24C2E04C;
  0xAC977218; 0xB49832D5; 0x9C89F22B; 0x8486B2E6; 0xCCABDB7E; 0xD4A49BB3; 0xFCB55B4D; 0xE4BA1B80;
  0x17566887; 0x0F59284A; 0x2748E8B4; 0x3F47A879; 0x776AC1E1; 0x6F65812C; 0x477441D2; 0x5F7B011F;
  0xD72E934B; 0xCF21D386; 0xE7301378; 0xFF3F53B5; 0xB7123A2D; 0xAF1D7AE0; 0x870CBA1E; 0x9F03FAD3;
  0x3EA637B6; 0x26A9777B; 0x0EB8B785; 0x16B7F748; 0x5E9A9ED0; 0x4695DE1D; 0x6E841EE3; 0x768B5E2E;
  0xFEDECC7A; 0xE6D18CB7; 0xCEC04C49; 0xD6CF0C84; 0x9EE2651C; 0x86ED25D1; 0xAEFCE52F; 0xB6F3A5E2].

(** ** The generator *)

Record snow3g_t := mk_snow3g { s_array : list Z; s_ptr : Z; s_r1 : Z; s_r2 : Z; s_r3 : Z }.
#[global] Instance snow3g_eta : Eta snow3g_t := fun s => mk_snow3g (s_array s) (s_ptr s) (s_r1 s) (s_r2 s) (s_r3 s).

(** [s->s[i]] *)
Definition s_at (s : snow3g_t) (i : Z) : outcome Z := rd (s_array s) (s_ptr s + i).

(** byte [n] of a word, 0 the least significant *)
Definition byte_n (w n : Z) : Z := Z.land (Z.shiftr w (8 * n)) 0xff.

Definition s1 (w : Z) : outcome Z :=
  a ← rd s1_t0 (byte_n w 0); b ← rd s1_t1 (byte_n w 1); c ← rd s1_t2 (byte_n w 2); d ← rd s1_t3 (byte_n w 3);
  Ret (Z.lxor (Z.lxor (Z.lxor a b) c) d).

Definition s2 (w : Z) : outcome Z :=
  a ← rd s2_t0 (byte_n w 0); b ← rd s2_t1 (byte_n w 1); c ← rd s2_t2 (byte_n w 2); d ← rd s2_t3 (byte_n w 3);
  Ret (Z.lxor (Z.lxor (Z.lxor a b) c) d).

Definition MULa (c : Z) : outcome Z := rd mula c.
Definition DIVa (c : Z) : outcome Z := rd diva c.

(** the new word of the shift register, before the input of the state machine *)
Definition lfsr_word (s : snow3g_t) : outcome Z :=
  w0 ← s_at s 0; w11 ← s_at s 11; w2 ← s_at s 2;
  let v0 := Z.lor (Z.lor (Z.shiftl (byte_n w0 2) 24) (Z.shiftl (byte_n w0 1) 16)) (Z.shiftl (byte_n w0 0) 8) in
  let v11 := Z.lor (Z.lor (Z.shiftl (byte_n w11 3) 16) (Z.shiftl (byte_n w11 2) 8)) (byte_n w11 1) in
  m ← MULa (byte_n w0 3); d ← DIVa (byte_n w11 0);
  Ret (Z.lxor (Z.lxor (Z.lxor (Z.lxor v0 m) w2) v11) d).

(** the new word goes in twice and the pointer moves on *)
Definition lfsr_shift (s : snow3g_t) (v : Z) : outcome snow3g_t :=
  a ← wr (s_array s) (s_ptr s) v; a ← wr a (s_ptr s + 16) v;
  Ret (s <| s_array := a |> <| s_ptr := if s_ptr s + 1 =? 16 then 0 else s_ptr s + 1 |>).

Definition lfsr_init (s : snow3g_t) (f : Z) : outcome snow3g_t :=
  v ← lfsr_word s; lfsr_shift s (Z.lxor v f).

Definition lfsr_keystream (s : snow3g_t) : outcome snow3g_t :=
  v ← lfsr_word s; lfsr_shift s v.

Definition clock_fsm (s : snow3g_t) : outcome (Z * snow3g_t) :=
  w15 ← s_at s 15; w5 ← s_at s 5;
  let f := Z.lxor (u32 (w15 + s_r1 s)) (s_r2 s) in
  let r := u32 (s_r2 s + Z.lxor (s_r3 s) w5) in
  r3 ← s2 (s_r2 s); r2 ← s1 (s_r1 s);
  Ret (f, s <| s_r3 := r3 |> <| s_r2 := r2 |> <| s_r1 := r |>).

Definition GET32 (b : list Z) (off : Z) : outcome Z :=
  b0 ← rd b off; b1 ← rd b (off + 1); b2 ← rd b (off + 2); b3 ← rd b (off + 3);
  Ret (Z.lor (Z.lor (Z.lor (Z.shiftl b0 24) (Z.shiftl b1 16)) (Z.shiftl b2 8)) b3).

(** the rounds of initialisation *)
Fixpoint init_rounds (n : nat) (s : snow3g_t) : outcome snow3g_t :=
  match n with
  | O => Ret s
  | S n => '(f, s) ← clock_fsm s; s ← lfsr_init s f; init_rounds n s
  end.

(** the shift register filled with key and initialisation vector, [s[0]] first *)
Definition load_words (k0 k1 k2 k3 iv0 iv1 iv2 iv3 : Z) : list Z :=
  let inv := fun k => Z.lxor k 0xffffffff in
  [inv k0; inv k1; inv k2; inv k3; k0; k1; k2; k3;
   inv k0; Z.lxor (inv k1) iv3; Z.lxor (inv k2) iv2; inv k3; Z.lxor k0 iv1; k1; k2; Z.lxor k3 iv0].

Definition snow3g_init (junk k iv : list Z) : outcome snow3g_t :=
  k0 ← GET32 k 0; k1 ← GET32 k 4; k2 ← GET32 k 8; k3 ← GET32 k 12;
  iv0 ← GET32 iv 0; iv1 ← GET32 iv 4; iv2 ← GET32 iv 8; iv3 ← GET32 iv 12;
  s ← init_rounds 32 (mk_snow3g (load_words k0 k1 k2 k3 iv0 iv1 iv2 iv3 ++ junk) 0 0 0 0);
  '(_, s) ← clock_fsm s;
  lfsr_keystream s.

Definition generate_keystream_step (s : snow3g_t) : outcome (Z * snow3g_t) :=
  '(f, s) ← clock_fsm s;
  w0 ← s_at s 0;
  s ← lfsr_keystream s;
  Ret (Z.lxor f w0, s).

(** the next [n] words *)
Fixpoint keystream_words (n : nat) (s : snow3g_t) : outcome (list Z) :=
  match n with
  | O => Ret []
  | S n => '(z, s) ← generate_keystream_step s; zs ← keystream_words n s; Ret (z :: zs)
  end.

(** the key with its words in the opposite order *)
Definition reorder_key (key : list Z) : outcome (list Z) :=
  a ← mem_read key 12 4; b ← mem_read key 8 4; c ← mem_read key 4 4; d ← mem_read key 0 4;
  Ret (a ++ b ++ c ++ d).

(** the bytes of a word, most significant first *)
Definition word_bytes (w : Z) : list Z := [byte_n w 3; byte_n w 2; byte_n w 1; byte_n w 0].

(** ** Ciphering *)

Definition ciphering_iv (count bearer direction : Z) : list Z :=
  let c := word_bytes count in
  let b := u8 (Z.lor (Z.shiftl bearer 3) (Z.shiftl direction 2)) in
  [b; 0; 0; 0] ++ c ++ [b; 0; 0; 0] ++ c.

Definition snow3g_ciphering (junk : list Z) (count bearer direction : Z) (key : list Z) (length : Z) (input : list Z) : outcome (list Z) :=
  k ← reorder_key key;
  s ← snow3g_init junk k (ciphering_iv count bearer direction);
  zs ← keystream_words (Z.to_nat ((length + 3) / 4)) s;
  data ← mem_read input 0 length;
  Ret (zip_with Z.lxor data (concat (map word_bytes zs))).

(** ** Integrity *)

Definition MIN (a b : Z) : Z := if a <? b then a else b.

(** [GET64 (p + off)] of [available_bytes] bytes; 0 when their number is not in the switch *)
Definition GET64 (p : list Z) (off available_bytes : Z) : outcome Z :=
  if (1 <=? available_bytes) && (available_bytes <=? 8) then
    bytes ← mem_read p off available_bytes;
    let at_n := fun n => match bytes !! n with Some b => b | None => 0 end in
    Ret (Z.lor (Z.lor (Z.lor (Z.lor (Z.lor (Z.lor (Z.lor (Z.shiftl (at_n 0%nat) 56) (Z.shiftl (at_n 1%nat) 48)) (Z.shiftl (at_n 2%nat) 40))
      (Z.shiftl (at_n 3%nat) 32)) (Z.shiftl (at_n 4%nat) 24)) (Z.shiftl (at_n 5%nat) 16)) (Z.shiftl (at_n 6%nat) 8)) (at_n 7%nat))
  else Ret 0.

Definition MULx64 (v c : Z) : Z :=
  if negb (Z.land v (Z.shiftl 1 63) =? 0) then Z.lxor (u64 (Z.shiftl v 1)) c else u64 (Z.shiftl v 1).

Fixpoint MULxPOW64 (v : Z) (i : nat) (c : Z) : Z :=
  match i with O => v | S i => MULx64 (MULxPOW64 v i c) c end.

(** the loop of [MUL64] from bit [i] on *)
Fixpoint mul64_loop (rounds : nat) (v p c : Z) (i : nat) (result : Z) : Z :=
  match rounds with
  | O => result
  | S rounds =>
      mul64_loop rounds v p c (S i)
        (if negb (Z.land (Z.shiftr p (Z.of_nat i)) 1 =? 0) then Z.lxor result (MULxPOW64 v i c) else result)
  end.

Definition MUL64 (v p c : Z) : Z := mul64_loop 64 v p c 0 0.

(** [pm[i][j]]; the rows are 256 words each *)
Definition pm_at (pm : list Z) (i j : Z) : outcome Z := rd pm (256 * i + j).
Definition pm_set (pm : list Z) (i j v : Z) : outcome (list Z) := wr pm (256 * i + j) v.

Definition mul_p (pm : list Z) (x : Z) : outcome Z :=
  a ← pm_at pm 0 (byte_n x 0); b ← pm_at pm 1 (byte_n x 1); c ← pm_at pm 2 (byte_n x 2); d ← pm_at pm 3 (byte_n x 3);
  e ← pm_at pm 4 (byte_n x 4); f ← pm_at pm 5 (byte_n x 5); g ← pm_at pm 6 (byte_n x 6); h ← pm_at pm 7 (byte_n x 7);
  Ret (Z.lxor (Z.lxor (Z.lxor (Z.lxor (Z.lxor (Z.lxor (Z.lxor a b) c) d) e) f) g) h).

(** the rows at 0 *)
Fixpoint pm_zero (rows : nat) (i : Z) (pm : list Z) : outcome (list Z) :=
  match rows with
  | O => Ret pm
  | S rows => pm ← pm_set pm i 0 0; pm_zero rows (i + 1) pm
  end.

(** the powers of two, [i] from 1 to 63 *)
Fixpoint pm_powers (rounds : nat) (i : Z) (pm : list Z) : outcome (list Z) :=
  match rounds with
  | O => Ret pm
  | S rounds =>
      prev ← pm_at pm (Z.shiftr (i - 1) 3) (Z.shiftl 1 (Z.land (i - 1) 7));
      pm ← pm_set pm (Z.shiftr i 3) (Z.shiftl 1 (Z.land i 7)) (u64 (Z.shiftl prev 1));
      prev ← pm_at pm (Z.shiftr (i - 1) 3) (Z.shiftl 1 (Z.land (i - 1) 7));
      pm ← (if negb (Z.land prev 0x8000000000000000 =? 0) then
              v ← pm_at pm (Z.shiftr i 3) (Z.shiftl 1 (Z.land i 7));
              pm_set pm (Z.shiftr i 3) (Z.shiftl 1 (Z.land i 7)) (Z.lxor v 0x1b)
            else Ret pm);
      pm_powers rounds (i + 1) pm
  end.

(** [pm[i][(1 << j) + k]], [k] from 1 on *)
Fixpoint pm_sums (rounds : nat) (i j k : Z) (pm : list Z) : outcome (list Z) :=
  match rounds with
  | O => Ret pm
  | S rounds =>
      a ← pm_at pm i (Z.shiftl 1 j); b ← pm_at pm i k;
      pm ← pm_set pm i (Z.shiftl 1 j + k) (Z.lxor a b);
      pm_sums rounds i j (k + 1) pm
  end.

(** one row, [j] from 1 to 7 *)
Fixpoint pm_row (rounds : nat) (i j : Z) (pm : list Z) : outcome (list Z) :=
  match rounds with
  | O => Ret pm
  | S rounds => pm ← pm_sums (Z.to_nat (Z.shiftl 1 j - 1)) i j 1 pm; pm_row rounds i (j + 1) pm
  end.

Fixpoint pm_rows (rounds : nat) (i : Z) (pm : list Z) : outcome (list Z) :=
  match rounds with
  | O => Ret pm
  | S rounds => pm ← pm_row 7 i 1 pm; pm_rows rounds (i + 1) pm
  end.

Definition precompute (pm : list Z) (p : Z) : outcome (list Z) :=
  pm ← pm_zero 8 0 pm;
  pm ← pm_set pm 0 1 p;
  pm ← pm_powers 63 1 pm;
  pm_rows 8 0 pm.

(** the whole blocks *)
Fixpoint eval_blocks (rounds : nat) (pm input : list Z) (i eval : Z) : outcome Z :=
  match rounds with
  | O => Ret eval
  | S rounds => m ← GET64 input (i * 8) 8; eval ← mul_p pm (Z.lxor eval m); eval_blocks rounds pm input (i + 1) eval
  end.

Definition integrity_iv (count fresh direction : Z) : list Z :=
  let c := word_bytes count in
  let f := word_bytes fresh in
  let d := Z.shiftl (Z.land direction 1) 7 in
  [byte_n fresh 3; byte_n fresh 2; Z.lxor (byte_n fresh 1) d; byte_n fresh 0] ++
  [Z.lxor (byte_n count 3) d; byte_n count 2; byte_n count 1; byte_n count 0] ++ f ++ c.

(** [junk] and [pm] are the contents of the arrays on the stack before they are written *)
Definition snow3g_integrity_ (junk pm : list Z) (count fresh direction : Z) (key : list Z) (length : Z) (input : list Z) : outcome (list Z) :=
  k ← reorder_key key;
  s ← snow3g_init junk k (integrity_iv count fresh direction);
  z ← keystream_words 5 s;
  match z with
  | [z0; z1; z2; z3; z4] =>
      if 2 ^ 31 <=? length * 8 + 63 then Undef else
      let d := (length * 8 + 63) / 64 + 1 in
      let p := Z.lor (Z.shiftl z0 32) z1 in
      let q := Z.lor (Z.shiftl z2 32) z3 in
      pm ← precompute pm p;
      eval ← eval_blocks (Z.to_nat (d - 2)) pm input 0 0;
      m ← GET64 input ((d - 2) * 8) (MIN 8 (length - (d - 2) * 8));
      eval ← mul_p pm (Z.lxor eval m);
      let eval := Z.lxor eval (u64 (length * 8)) in
      let eval := MUL64 eval q 0x1b in
      let eval := Z.lxor (Z.shiftr eval 32) z4 in
      Ret (word_bytes eval)
  | _ => Undef
  end.

Definition snow3g_integrity (junk pm : list Z) (count bearer direction : Z) (key : list Z) (length : Z) (input : list Z) : outcome (list Z) :=
  snow3g_integrity_ junk pm count (u32 (Z.shiftl bearer 27)) direction key length input.
