(* ===== verification/Snow3gSpec.v ===== *)
(** SNOW 3G as ETSI/SAGE specifies it (UEA2 and UIA2, document 2), and that the
    generator of snow3g.c, with its tables and its shift register that moves a
    pointer instead of words, produces its key stream. *)

From stdpp Require Import base tactics list numbers.
From Stdlib Require Import ZArith Lia Btauto.
From S2P Require Import Prelude Arrays Gf2 Snow3g.

(** ** The specification *)

(** [V || W || X || Y] *)
Definition cat4 (a b c d : Z) : Z := Z.lor (Z.lor (Z.lor (Z.shiftl a 24) (Z.shiftl b 16)) (Z.shiftl c 8)) d.

(** 3.1: multiplication by [x] in the field of 256 elements given by [c] *)
Definition MULx (V c : Z) : Z := if Z.testbit V 7 then Z.lxor (u8 (Z.shiftl V 1)) c else Z.shiftl V 1.
Fixpoint MULxPOW (V : Z) (i : nat) (c : Z) : Z := match i with O => V | S i => MULx (MULxPOW V i c) c end.

(** product and power in that field *)
Definition gf_mul (c a b : Z) : Z :=
  fold_left (fun acc i => let acc := MULx acc c in if Z.testbit b i then Z.lxor acc a else acc) [7; 6; 5; 4; 3; 2; 1; 0] 0.
Fixpoint gf_pow (c a : Z) (n : positive) : Z :=
  match n with
  | xH => a
  | xO n => let h := gf_pow c a n in gf_mul c h h
  | xI n => let h := gf_pow c a n in gf_mul c a (gf_mul c h h)
  end.

(** 3.3.1: the S-box of Rijndael, the affine image of the inverse *)
Definition affine (b : Z) : Z :=
  fold_right (fun i acc =>
    let bit := fun n => Z.testbit b (Z.of_nat (Nat.modulo n 8)) in
    if xorb (xorb (xorb (xorb (bit i) (bit (i + 4)%nat)) (bit (i + 5)%nat)) (bit (i + 6)%nat)) (bit (i + 7)%nat)
    then Z.lxor acc (2 ^ Z.of_nat i) else acc) 0x63 (seq 0 8).
Definition SR (x : Z) : Z := affine (gf_pow 0x1b x 254).

(** 3.3.2: the S-box made of a Dickson polynomial *)
Definition SQ (x : Z) : Z := fold_right Z.lxor 0x25 (map (gf_pow 0x69 x) [1; 9; 13; 15; 33; 41; 45; 47; 49]%positive).

(** the mixing of columns, in the field given by [c] *)
Definition mix (c : Z) (a0 a1 a2 a3 : Z) : Z :=
  cat4 (Z.lxor (Z.lxor (Z.lxor (Z.lxor (MULx a0 c) a1) a2) (MULx a3 c)) a3)
       (Z.lxor (Z.lxor (Z.lxor (Z.lxor (MULx a0 c) a0) (MULx a1 c)) a2) a3)
       (Z.lxor (Z.lxor (Z.lxor (Z.lxor a0 (MULx a1 c)) a1) (MULx a2 c)) a3)
       (Z.lxor (Z.lxor (Z.lxor (Z.lxor a0 a1) (MULx a2 c)) a2) (MULx a3 c)).

Definition S1_spec (w : Z) : Z := mix 0x1b (SR (byte_n w 3)) (SR (byte_n w 2)) (SR (byte_n w 1)) (SR (byte_n w 0)).
Definition S2_spec (w : Z) : Z := mix 0x69 (SQ (byte_n w 3)) (SQ (byte_n w 2)) (SQ (byte_n w 1)) (SQ (byte_n w 0)).

(** 3.4.2 and 3.4.3 *)
Definition MULalpha (c : Z) : Z := cat4 (MULxPOW c 23 0xa9) (MULxPOW c 245 0xa9) (MULxPOW c 48 0xa9) (MULxPOW c 239 0xa9).
Definition DIValpha (c : Z) : Z := cat4 (MULxPOW c 16 0xa9) (MULxPOW c 39 0xa9) (MULxPOW c 6 0xa9) (MULxPOW c 64 0xa9).

(** 3.2: sixteen words of a shift register and three of a state machine *)
Record snow := mk_snow { lfsr : list Z; R1 : Z; R2 : Z; R3 : Z }.

(** 3.4.4 and 3.4.5: one clock of the shift register; [F] is 0 in key stream mode *)
Definition lfsr_clock (F : Z) (g : snow) : snow :=
  let s := at_pos (lfsr g) in
  let v := Z.lxor (Z.lxor (Z.lxor (Z.lxor (Z.lxor (cat4 (byte_n (s 0) 2) (byte_n (s 0) 1) (byte_n (s 0) 0) 0) (MULalpha (byte_n (s 0) 3)))
             (s 2)) (cat4 0 (byte_n (s 11) 3) (byte_n (s 11) 2) (byte_n (s 11) 1))) (DIValpha (byte_n (s 11) 0))) F in
  mk_snow (drop 1 (lfsr g) ++ [v]) (R1 g) (R2 g) (R3 g).

(** 3.4.6: one clock of the state machine, with its output *)
Definition fsm_clock (g : snow) : Z * snow :=
  (Z.lxor (u32 (at_pos (lfsr g) 15 + R1 g)) (R2 g),
   mk_snow (lfsr g) (u32 (R2 g + Z.lxor (R3 g) (at_pos (lfsr g) 5))) (S1_spec (R1 g)) (S2_spec (R2 g))).

(** 4.1: initialisation, and the output that 4.2 discards *)
Definition init_clock (g : snow) : snow := let '(F, g) := fsm_clock g in lfsr_clock F g.
Definition snow_init (k0 k1 k2 k3 iv0 iv1 iv2 iv3 : Z) : snow :=
  lfsr_clock 0 (snd (fsm_clock (Nat.iter 32 init_clock (mk_snow (load_words k0 k1 k2 k3 iv0 iv1 iv2 iv3) 0 0 0)))).

(** 4.2: the key stream *)
Fixpoint snow_keystream (n : nat) (g : snow) : list Z :=
  match n with
  | O => []
  | S n => let '(F, g) := fsm_clock g in Z.lxor F (at_pos (lfsr g) 0) :: snow_keystream n (lfsr_clock 0 g)
  end.

(** ** The tables *)

(** what holds of every byte is decided by looking at all of them *)
Lemma forall_byte (P : Z -> bool) : forallb P (seqZ 0 256) = true -> forall b, 0 <= b < 256 -> P b = true.
Proof. intros H b Hb. rewrite forallb_forall in H. apply H. apply list_elem_of_In, elem_of_seqZ. lia. Qed.

Definition table_is (t : list Z) (f : Z -> Z) : Prop := forall b, 0 <= b < 256 -> rd t b = Ret (f b).

Lemma table_check t f : forallb (fun b => match rd t b with Ret x => x =? f b | _ => false end) (seqZ 0 256) = true -> table_is t f.
Proof.
  intros H b Hb. apply (forall_byte _ H) in Hb. destruct (rd t b); try done. by apply Z.eqb_eq in Hb as ->.
Qed.

(** the column of [mix] for one byte, in each of the four places *)
Lemma s1_tables : table_is s1_t0 (fun b => mix 0x1b 0 0 0 (SR b)) /\ table_is s1_t1 (fun b => mix 0x1b 0 0 (SR b) 0) /\
  table_is s1_t2 (fun b => mix 0x1b 0 (SR b) 0 0) /\ table_is s1_t3 (fun b => mix 0x1b (SR b) 0 0 0).
Proof. split_and!; apply table_check; vm_compute; reflexivity. Qed.

Lemma s2_tables : table_is s2_t0 (fun b => mix 0x69 0 0 0 (SQ b)) /\ table_is s2_t1 (fun b => mix 0x69 0 0 (SQ b) 0) /\
  table_is s2_t2 (fun b => mix 0x69 0 (SQ b) 0 0) /\ table_is s2_t3 (fun b => mix 0x69 (SQ b) 0 0 0).
Proof. split_and!; apply table_check; vm_compute; reflexivity. Qed.

Lemma alpha_tables : table_is mula MULalpha /\ table_is diva DIValpha.
Proof. split; apply table_check; vm_compute; reflexivity. Qed.

Lemma sboxes_bytes b : 0 <= b < 256 -> 0 <= SR b < 256 /\ 0 <= SQ b < 256.
Proof.
  intros Hb. pose proof (forall_byte (fun b => (0 <=? SR b) && (SR b <? 256) && (0 <=? SQ b) && (SQ b <? 256)) ltac:(vm_compute; reflexivity) b Hb) as H.
  rewrite !andb_true_iff, !Z.leb_le, !Z.ltb_lt in H. lia.
Qed.

#[local] Opaque SR SQ MULalpha DIValpha.

(** ** Linearity of the column mixing *)

Ltac byte_bits := apply Z.bits_inj'; intros i Hi; unfold cat4;
  rewrite ?Z.lxor_spec, ?Z.lor_spec, ?Z.shiftl_spec, ?Z.lxor_spec by done.

Lemma byte_bit_high b i : 0 <= b < 256 -> (i < 0 \/ 8 <= i) -> Z.testbit b i = false.
Proof.
  intros Hb [Hi|Hi]; [by apply Z.testbit_neg_r|]. destruct (Z.eq_dec b 0) as [->|]; [apply Z.bits_0|].
  apply Z.bits_above_log2; [lia|]. pose proof (proj1 (Z.log2_lt_pow2 b 8 ltac:(lia)) ltac:(lia)). lia.
Qed.

(** bytes of a word do not overlap *)
Lemma cat4_lxor_form a b c d : 0 <= a < 256 -> 0 <= b < 256 -> 0 <= c < 256 -> 0 <= d < 256 ->
  cat4 a b c d = Z.lxor (Z.lxor (Z.lxor (Z.shiftl a 24) (Z.shiftl b 16)) (Z.shiftl c 8)) d.
Proof.
  intros Ha Hb Hc Hd. byte_bits.
  destruct (Z_lt_le_dec i 8); [|destruct (Z_lt_le_dec i 16); [|destruct (Z_lt_le_dec i 24)]];
    rewrite ?(byte_bit_high a), ?(byte_bit_high b), ?(byte_bit_high c), ?(byte_bit_high d) by lia; try btauto.
  all: rewrite ?(byte_bit_high b), ?(byte_bit_high c), ?(byte_bit_high d) by lia; btauto.
Qed.

Lemma cat4_lxor a b c d a' b' c' d' : 0 <= a < 256 -> 0 <= b < 256 -> 0 <= c < 256 -> 0 <= d < 256 ->
  0 <= a' < 256 -> 0 <= b' < 256 -> 0 <= c' < 256 -> 0 <= d' < 256 ->
  Z.lxor (cat4 a b c d) (cat4 a' b' c' d') = cat4 (Z.lxor a a') (Z.lxor b b') (Z.lxor c c') (Z.lxor d d').
Proof.
  intros. assert (Hx : forall x y, 0 <= x < 256 -> 0 <= y < 256 -> 0 <= Z.lxor x y < 256) by (intros; by apply (lxor_lt _ _ 8)).
  rewrite !cat4_lxor_form by auto. byte_bits. btauto.
Qed.

Lemma byte_lxor a b : 0 <= a < 256 -> 0 <= b < 256 -> 0 <= Z.lxor a b < 256.
Proof. intros. by apply (lxor_lt _ _ 8). Qed.

Lemma MULx_byte a c : 0 <= a < 256 -> 0 <= c < 256 -> 0 <= MULx a c < 256.
Proof.
  intros Ha Hc. unfold MULx. assert (Hu : 0 <= u8 (Z.shiftl a 1) < 256) by (unfold u8; apply Z.mod_pos_bound; lia).
  destruct (Z.testbit a 7) eqn:E; [by apply byte_lxor|]. rewrite Z.shiftl_mul_pow2 by lia. change (2 ^ 1) with 2.
  destruct (Z_lt_le_dec a 128); [lia|]. assert (Z.testbit a 7 = true); [|congruence].
  apply Z.testbit_true; [lia|]. change (2 ^ 7) with 128. replace (a / 128) with 1; [done|]. apply Z.div_unique with (a - 128); lia.
Qed.

Lemma MULx_0 c : MULx 0 c = 0.
Proof. reflexivity. Qed.

#[local] Hint Resolve byte_lxor MULx_byte : core.

Lemma mix_columns c a0 a1 a2 a3 : 0 <= c < 256 -> 0 <= a0 < 256 -> 0 <= a1 < 256 -> 0 <= a2 < 256 -> 0 <= a3 < 256 ->
  Z.lxor (Z.lxor (Z.lxor (mix c 0 0 0 a3) (mix c 0 0 a2 0)) (mix c 0 a1 0 0)) (mix c a0 0 0 0) = mix c a0 a1 a2 a3.
Proof.
  intros. unfold mix. rewrite !MULx_0, !Z.lxor_0_l, !Z.lxor_0_r. rewrite !cat4_lxor by auto 7.
  f_equal; apply Z.bits_inj'; intros i Hi; rewrite !Z.lxor_spec; btauto.
Qed.

Lemma byte_n_range w n : 0 <= byte_n w n < 256.
Proof. unfold byte_n. change 0xff with (Z.ones 8). rewrite Z.land_ones by lia. by apply Z.mod_pos_bound. Qed.
#[local] Hint Resolve byte_n_range : core.

(** four lookups are one substitution and mixing *)
Lemma s1_spec w : s1 w = Ret (S1_spec w).
Proof.
  destruct s1_tables as (T0 & T1 & T2 & T3). unfold s1. rewrite T0, T1, T2, T3 by auto. cbn [mbind outcome_bind].
  f_equal. apply mix_columns; [lia|by apply sboxes_bytes..].
Qed.

Lemma s2_spec w : s2 w = Ret (S2_spec w).
Proof.
  destruct s2_tables as (T0 & T1 & T2 & T3). unfold s2. rewrite T0, T1, T2, T3 by auto. cbn [mbind outcome_bind].
  f_equal. apply mix_columns; [lia|by apply sboxes_bytes..].
Qed.

(** ** The shift register *)

(** the generator in the state [g]: its words are sixteen of the array from the
    pointer on, and those below the pointer have a copy in the second half *)
Record generator (s : snow3g_t) (g : snow) : Prop := {
  gen_len : zlen (s_array s) = 32;
  gen_ptr : 0 <= s_ptr s < 16;
  gen_lfsr : lfsr g = take 16 (drop (Z.to_nat (s_ptr s)) (s_array s));
  gen_copy : forall j, 0 <= j < s_ptr s -> at_pos (s_array s) (j + 16) = at_pos (s_array s) j;
  gen_fsm : s_r1 s = R1 g /\ s_r2 s = R2 g /\ s_r3 s = R3 g
}.

Lemma gen_at s g i : generator s g -> 0 <= i < 16 -> s_at s i = Ret (at_pos (lfsr g) i).
Proof.
  intros [Hl Hp Hs _ _] Hi. unfold s_at. rewrite rd_at by lia. f_equal. rewrite Hs. change 16%nat with (Z.to_nat 16).
  by rewrite at_pos_take, at_pos_drop by lia.
Qed.

Lemma lfsr_zlen s g : generator s g -> zlen (lfsr g) = 16.
Proof. intros [Hl Hp Hs _ _]. rewrite Hs, zlen_take, zlen_drop. lia. Qed.

Lemma gen_word s g : generator s g -> lfsr_word s = Ret (at_pos (lfsr (lfsr_clock 0 g)) 15).
Proof.
  intros Hg. unfold lfsr_word. rewrite !(gen_at _ _ _ Hg) by lia. cbn [mbind outcome_bind].
  destruct alpha_tables as [M D]. unfold MULa, DIVa. rewrite M, D by auto. cbn [mbind outcome_bind]. f_equal.
  unfold lfsr_clock. cbn [lfsr]. pose proof (lfsr_zlen _ _ Hg). rewrite at_pos_app, zlen_drop by lia.
  rewrite (proj2 (Z.ltb_ge 15 _)) by lia. replace (15 - _) with 0 by lia. unfold at_pos at 13. cbn [Z.to_nat lookup_total list_lookup_total].
  rewrite Z.lxor_0_r. unfold cat4. by rewrite Z.lor_0_r, Z.shiftl_0_l, Z.lor_0_l.
Qed.

(** the pointer moves as the words of the specification do *)
Lemma gen_shift s g v : generator s g ->
  exists s', lfsr_shift s v = Ret s' /\ generator s' (mk_snow (drop 1 (lfsr g) ++ [v]) (R1 g) (R2 g) (R3 g)).
Proof.
  intros [Hl Hp Hs Hc Hr]. unfold lfsr_shift. rewrite wr_at by lia. cbn [mbind outcome_bind].
  assert (Hi : forall a i x, zlen (<[i := x]> a : list Z) = zlen a) by (intros; unfold zlen; by rewrite length_insert).
  rewrite wr_at by (rewrite Hi; lia). cbn [mbind outcome_bind]. eexists. split; [done|].
  set (a' := <[Z.to_nat (s_ptr s + 16) := v]> (<[Z.to_nat (s_ptr s) := v]> (s_array s))).
  assert (Ha : zlen a' = 32) by (unfold a'; by rewrite !Hi).
  assert (Hat : forall j, 0 <= j < 32 -> at_pos a' j = if (j =? s_ptr s) || (j =? s_ptr s + 16) then v else at_pos (s_array s) j).
  { intros j Hj. unfold a'. destruct (Z.eqb_spec j (s_ptr s + 16)) as [->|]; [rewrite orb_true_r; apply at_pos_insert_eq; rewrite Hi; lia|].
    rewrite at_pos_insert_ne by lia. destruct (Z.eqb_spec j (s_ptr s)) as [->|]; [by rewrite at_pos_insert_eq by lia|]. by rewrite at_pos_insert_ne by lia. }
  assert (Hold : forall j, 0 <= j < 16 -> at_pos (lfsr g) j = at_pos (s_array s) (s_ptr s + j)).
  { intros j Hj. rewrite Hs. change 16%nat with (Z.to_nat 16). by rewrite at_pos_take, at_pos_drop by lia. }
  assert (H16 : zlen (lfsr g) = 16) by (rewrite Hs, zlen_take, zlen_drop; lia).
  assert (Hnew : forall j, 0 <= j < 16 -> at_pos a' ((if s_ptr s + 1 =? 16 then 0 else s_ptr s + 1) + j) = at_pos (drop (Z.to_nat 1) (lfsr g) ++ [v]) j).
  { intros j Hj. rewrite at_pos_app, zlen_drop, H16 by lia. replace (_ `max` _) with 15 by lia. destruct (Z.ltb_spec j 15).
    - rewrite at_pos_drop, Hold by lia. destruct (Z.eqb_spec (s_ptr s + 1) 16) as [E|E].
      + replace (s_ptr s + (1 + j)) with (j + 16) by lia. rewrite (Hc j), Hat by lia. by replace (_ || _) with false by lia.
      + rewrite Hat by lia. replace (_ || _) with false by lia. f_equal. lia.
    - replace j with 15 by lia. cbn [Z.sub]. rewrite Hat by (destruct (_ =? 16) eqn:?; lia).
      replace (_ || _) with true; [done|]. destruct (_ =? 16) eqn:?; lia. }
  split; cbn; [done|destruct (_ =? 16) eqn:E; lia| | |done].
  - assert (Hz : zlen (drop 1 (lfsr g) ++ [v]) = 16) by (rewrite zlen_snoc, zlen_drop; lia).
    apply list_eq_at; rewrite Hz.
    + rewrite zlen_take, zlen_drop, Ha. destruct (_ =? 16) eqn:?; lia.
    + intros j Hj. change 16%nat with (Z.to_nat 16). etransitivity; [symmetry; by apply Hnew|]. by rewrite at_pos_take, at_pos_drop by (try destruct (_ =? 16) eqn:?; lia).
  - intros j Hj. destruct (Z.eqb_spec (s_ptr s + 1) 16) as [E|E]; [lia|]. rewrite !Hat by lia.
    destruct (Z.eqb_spec j (s_ptr s)) as [->|]; [by rewrite Z.eqb_refl, orb_true_r|].
    replace (_ || _) with false by lia. replace (_ || _) with false by lia. apply Hc. lia.
Qed.

(** ** The generator implements the specification *)

Lemma gen_fsm_clock s g : generator s g ->
  exists s', clock_fsm s = Ret (fst (fsm_clock g), s') /\ generator s' (snd (fsm_clock g)).
Proof.
  intros Hg. unfold clock_fsm. rewrite !(gen_at _ _ _ Hg) by lia. cbn [mbind outcome_bind].
  rewrite s1_spec, s2_spec. cbn [mbind outcome_bind]. destruct Hg as [Hl Hp Hs Hc (-> & -> & ->)].
  eexists. split; [reflexivity|]. by split.
Qed.

Lemma gen_lfsr_init s g f : generator s g -> exists s', lfsr_init s f = Ret s' /\ generator s' (lfsr_clock f g).
Proof.
  intros Hg. unfold lfsr_init. rewrite (gen_word _ _ Hg). cbn [mbind outcome_bind].
  destruct (gen_shift s g (Z.lxor (at_pos (lfsr (lfsr_clock 0 g)) 15) f) Hg) as (s' & E & Hg'). exists s'. split; [done|].
  unfold lfsr_clock in Hg' |- *. cbn [lfsr] in Hg'. pose proof (lfsr_zlen _ _ Hg). rewrite at_pos_app, zlen_drop in Hg' by lia.
  rewrite (proj2 (Z.ltb_ge 15 _)) in Hg' by lia. replace (15 - _) with 0 in Hg' by lia. unfold at_pos at 7 in Hg'.
  cbn [Z.to_nat lookup_total list_lookup_total] in Hg'. by rewrite Z.lxor_0_r in Hg'.
Qed.

Lemma gen_lfsr_keystream s g : generator s g -> exists s', lfsr_keystream s = Ret s' /\ generator s' (lfsr_clock 0 g).
Proof.
  intros Hg. destruct (gen_lfsr_init s g 0 Hg) as (s' & E & Hg'). exists s'. split; [|done]. rewrite <- E.
  unfold lfsr_init, lfsr_keystream. destruct (lfsr_word s); try done. cbn [mbind outcome_bind]. by rewrite Z.lxor_0_r.
Qed.

Lemma gen_init_rounds n s g : generator s g -> exists s', init_rounds n s = Ret s' /\ generator s' (Nat.iter n init_clock g).
Proof.
  revert s g. induction n as [|n IH]; intros s g Hg; [by exists s|]. cbn [init_rounds].
  destruct (gen_fsm_clock s g Hg) as (s1 & -> & Hg1). cbn [mbind outcome_bind].
  destruct (gen_lfsr_init s1 _ (fst (fsm_clock g)) Hg1) as (s2 & -> & Hg2). cbn [mbind outcome_bind].
  destruct (IH s2 _ Hg2) as (s' & E & Hg'). exists s'. split; [done|]. rewrite Nat.iter_succ_r. exact Hg'.
Qed.

Lemma gen_keystream n s g : generator s g -> keystream_words n s = Ret (snow_keystream n g).
Proof.
  revert s g. induction n as [|n IH]; intros s g Hg; [done|]. cbn [keystream_words snow_keystream]. unfold generate_keystream_step.
  destruct (gen_fsm_clock s g Hg) as (s1 & -> & Hg1). cbn [mbind outcome_bind]. destruct (fsm_clock g) as [F g1]. cbn [fst snd] in *.
  rewrite (gen_at _ _ _ Hg1) by lia. cbn [mbind outcome_bind]. destruct (gen_lfsr_keystream s1 g1 Hg1) as (s2 & -> & Hg2).
  cbn [mbind outcome_bind]. by rewrite (IH s2 _ Hg2).
Qed.

(** the big-endian word at an offset *)
Definition word_at (b : list Z) (off : Z) : Z := cat4 (at_pos b off) (at_pos b (off + 1)) (at_pos b (off + 2)) (at_pos b (off + 3)).

Lemma get32_at b off : 0 <= off -> off + 4 <= zlen b -> GET32 b off = Ret (word_at b off).
Proof. intros. unfold GET32. by rewrite !rd_at by lia. Qed.

Lemma gen_init junk k iv : zlen junk = 16 -> zlen k = 16 -> zlen iv = 16 ->
  exists s, snow3g_init junk k iv = Ret s /\
    generator s (snow_init (word_at k 0) (word_at k 4) (word_at k 8) (word_at k 12) (word_at iv 0) (word_at iv 4) (word_at iv 8) (word_at iv 12)).
Proof.
  intros Hj Hk Hv. unfold snow3g_init. rewrite !get32_at by lia. cbn [mbind outcome_bind].
  set (ws := load_words _ _ _ _ _ _ _ _). assert (H0 : generator (mk_snow3g (ws ++ junk) 0 0 0 0) (mk_snow ws 0 0 0)).
  { split; cbn [s_array s_ptr lfsr s_r1 s_r2 s_r3 R1 R2 R3]; [rewrite zlen_app, Hj; done|lia| |lia|done]. by rewrite drop_0, take_app_length'. }
  destruct (gen_init_rounds 32 _ _ H0) as (s1 & -> & H1). cbn [mbind outcome_bind].
  destruct (gen_fsm_clock _ _ H1) as (s2 & -> & H2). cbn [mbind outcome_bind].
  destruct (gen_lfsr_keystream _ _ H2) as (s3 & -> & H3). by exists s3.
Qed.

(** ** Bytes and words *)

Lemma byte_n_bits w n i : 0 <= n -> 0 <= i -> Z.testbit (byte_n w n) i = (i <? 8) && Z.testbit w (i + 8 * n).
Proof.
  intros Hn Hi. unfold byte_n. change 0xff with (Z.ones 8). rewrite Z.land_spec, Z.shiftr_spec, Z.testbit_ones_nonneg by lia. apply andb_comm.
Qed.

Lemma word_of_bytes w : 0 <= w < 2 ^ 32 -> cat4 (byte_n w 3) (byte_n w 2) (byte_n w 1) (byte_n w 0) = w.
Proof.
  intros Hw. apply Z.bits_inj'. intros i Hi. unfold cat4. rewrite !Z.lor_spec, !Z.shiftl_spec by lia.
  assert (H : forall n, 0 <= n < 4 -> Z.testbit (byte_n w n) (i - 8 * n) = ((8 * n <=? i) && (i <? 8 * n + 8)) && Z.testbit w i).
  { intros n Hn. destruct (Z.leb_spec (8 * n) i); [|by rewrite Z.testbit_neg_r by lia].
    rewrite byte_n_bits by lia. replace (i - 8 * n + 8 * n) with i by lia. f_equal. lia. }
  rewrite (H 3 ltac:(lia) : Z.testbit _ (i - 24) = _), (H 2 ltac:(lia) : Z.testbit _ (i - 16) = _), (H 1 ltac:(lia) : Z.testbit _ (i - 8) = _).
  replace (Z.testbit (byte_n w 0) i) with (Z.testbit (byte_n w 0) (i - 8 * 0)) by (f_equal; lia). rewrite (H 0 ltac:(lia)).
  destruct (Z_lt_le_dec i 32); [|replace (Z.testbit w i) with false; [by rewrite !andb_false_r|]].
  - destruct (Z.testbit w i); [|by rewrite !andb_false_r]. rewrite !andb_true_r. lia.
  - symmetry. destruct (Z.eq_dec w 0) as [->|]; [apply Z.bits_0|]. apply Z.bits_above_log2; [lia|].
    pose proof (proj1 (Z.log2_lt_pow2 w 32 ltac:(lia)) ltac:(lia)). lia.
Qed.

(** ** Ciphering: UEA2, document 1, 3.4 *)

Definition UEA2_generator (count bearer direction : Z) (key : list Z) : snow :=
  let iv := Z.lor (Z.shiftl bearer 27) (Z.shiftl direction 26) in
  snow_init (word_at key 12) (word_at key 8) (word_at key 4) (word_at key 0) iv count iv count.

Definition UEA2 (count bearer direction : Z) (key m : list Z) : list Z :=
  zip_with Z.lxor m (concat (map word_bytes (snow_keystream (Z.to_nat ((zlen m + 3) / 4)) (UEA2_generator count bearer direction key)))).

Lemma reorder_key_ok key : zlen key = 16 -> exists k, reorder_key key = Ret k /\ zlen k = 16 /\
  word_at k 0 = word_at key 12 /\ word_at k 4 = word_at key 8 /\ word_at k 8 = word_at key 4 /\ word_at k 12 = word_at key 0.
Proof.
  intros Hk. unfold zlen in Hk. do 17 (destruct key as [|? key]; [try (cbn in Hk; lia)|]); [|cbn [length] in Hk; lia].
  eexists. split; [reflexivity|]. done.
Qed.

Lemma ciphering_iv_words count bearer direction : 0 <= count < 2 ^ 32 -> 0 <= bearer < 32 -> 0 <= direction < 2 ->
  let iv := ciphering_iv count bearer direction in
  let w := Z.lor (Z.shiftl bearer 27) (Z.shiftl direction 26) in
  word_at iv 0 = w /\ word_at iv 4 = count /\ word_at iv 8 = w /\ word_at iv 12 = count.
Proof.
  intros Hc Hb Hd iv w.
  assert (H : Z.shiftl (u8 (Z.lor (Z.shiftl bearer 3) (Z.shiftl direction 2))) 24 = w).
  { unfold u8. rewrite Z.mod_small; [by rewrite Z.shiftl_lor, !Z.shiftl_shiftl by lia|].
    split; [apply Z.lor_nonneg; rewrite !Z.shiftl_nonneg; lia|]. change 256 with (2 ^ 8).
    apply Z.log2_lt_cancel. change (Z.log2 (2 ^ 8)) with 8. rewrite Z.log2_lor by (rewrite Z.shiftl_nonneg; lia).
    assert (Hlog : forall x n, 0 <= x < 2 ^ (8 - n) -> 0 <= n < 8 -> Z.log2 (Z.shiftl x n) < 8).
    { intros x n Hx Hn. destruct (Z.eq_dec x 0) as [->|]; [by rewrite Z.shiftl_0_l|]. rewrite Z.log2_shiftl by lia.
      pose proof (proj1 (Z.log2_lt_pow2 x (8 - n) ltac:(lia)) ltac:(lia)). lia. }
    pose proof (Hlog bearer 3 ltac:(simpl; lia) ltac:(lia)). pose proof (Hlog direction 2 ltac:(simpl; lia) ltac:(lia)). lia. }
  set (b := u8 _) in H. assert (Hb4 : cat4 b 0 0 0 = w) by (unfold cat4; by rewrite !Z.shiftl_0_l, !Z.lor_0_r, H).
  pose proof (word_of_bytes count Hc) as Hw. split_and!; [exact Hb4|exact Hw|exact Hb4|exact Hw].
Qed.

Lemma snow3g_ciphering_is junk count bearer direction key m : zlen junk = 16 -> zlen key = 16 ->
  0 <= count < 2 ^ 32 -> 0 <= bearer < 32 -> 0 <= direction < 2 ->
  snow3g_ciphering junk count bearer direction key (zlen m) m = Ret (UEA2 count bearer direction key m).
Proof.
  intros Hj Hk Hc Hb Hd. unfold snow3g_ciphering. destruct (reorder_key_ok key Hk) as (k & -> & Hk' & K0 & K1 & K2 & K3). cbn [mbind outcome_bind].
  destruct (gen_init junk k (ciphering_iv count bearer direction) Hj Hk' ltac:(done)) as (s & -> & Hg). cbn [mbind outcome_bind].
  destruct (ciphering_iv_words count bearer direction Hc Hb Hd) as (V0 & V1 & V2 & V3).
  rewrite K0, K1, K2, K3, V0, V1, V2, V3 in Hg. rewrite (gen_keystream _ _ _ Hg). cbn [mbind outcome_bind].
  pose proof (mem_read_prefix m [] (zlen m) eq_refl) as Hm. rewrite app_nil_r in Hm. by rewrite Hm.
Qed.

Lemma zip_lxor_involutive (m ks : list Z) : (length m <= length ks)%nat -> zip_with Z.lxor (zip_with Z.lxor m ks) ks = m.
Proof.
  revert ks. induction m as [|x m IH]; intros [|k ks] H; cbn in *; [done|done|lia|].
  rewrite Z.lxor_assoc, Z.lxor_nilpotent, Z.lxor_0_r. f_equal. apply IH. lia.
Qed.

Lemma keystream_length n g : length (snow_keystream n g) = n.
Proof. revert g. induction n as [|n IH]; intros g; [done|]. cbn [snow_keystream]. destruct (fsm_clock g). cbn. by rewrite IH. Qed.

Lemma keystream_enough n g m : n = Z.to_nat ((zlen m + 3) / 4) -> (length (m : list Z) <= length (concat (map word_bytes (snow_keystream n g))))%nat.
Proof.
  intros ->. set (ws := snow_keystream _ g). assert (E : length (concat (map word_bytes ws)) = (4 * length ws)%nat).
  { clear. induction ws as [|w ws IH]; [done|]. cbn [map concat]. rewrite length_app, IH. cbn. lia. }
  rewrite E. unfold ws. rewrite keystream_length. unfold zlen. pose proof (Z.div_mod (Z.of_nat (length m) + 3) 4). pose proof (Z.mod_pos_bound (Z.of_nat (length m) + 3) 4). lia.
Qed.

Lemma UEA2_length count bearer direction key m : zlen (UEA2 count bearer direction key m) = zlen m.
Proof. unfold UEA2, zlen at 1. rewrite length_zip_with_l; [done|by apply keystream_enough]. Qed.

Lemma UEA2_involutive count bearer direction key m : UEA2 count bearer direction key (UEA2 count bearer direction key m) = m.
Proof. unfold UEA2 at 1. rewrite UEA2_length. apply zip_lxor_involutive. by apply keystream_enough. Qed.
