(* ===== verification/Snow3gMac.v ===== *)
(** The integrity function of snow3g.c (UIA2) is what ETSI/SAGE specifies: the table
    of multiples of [P] that is built for every message gives the product in the
    field of 2^64 elements, for messages of any length. *)

From stdpp Require Import base tactics list numbers.
From Stdlib Require Import ZArith Lia Btauto.
From S2P Require Import Prelude Arrays Gf2 Snow3g Snow3gSpec.

(** ** Sums *)

(** the sum of [f 0] to [f (n - 1)] *)
Fixpoint xsum (n : nat) (f : nat -> Z) : Z := match n with O => 0 | S n => Z.lxor (xsum n f) (f n) end.

Lemma xsum_ext n f g : (forall k, (k < n)%nat -> f k = g k) -> xsum n f = xsum n g.
Proof. intros H. induction n as [|n IH]; [done|]. cbn. rewrite IH, H; auto with lia. Qed.

Lemma xsum_add m n f : xsum (m + n) f = Z.lxor (xsum m f) (xsum n (fun k => f (m + k)%nat)).
Proof.
  induction n as [|n IH]; [by rewrite Nat.add_0_r, Z.lxor_0_r|]. rewrite Nat.add_succ_r. cbn. by rewrite IH, Z.lxor_assoc.
Qed.

Lemma xsum_lxor n f g : xsum n (fun k => Z.lxor (f k) (g k)) = Z.lxor (xsum n f) (xsum n g).
Proof. induction n as [|n IH]; [done|]. cbn. by rewrite IH, lxor_swap. Qed.

Lemma xsum_0 n f : (forall k, (k < n)%nat -> f k = 0) -> xsum n f = 0.
Proof. intros H. induction n as [|n IH]; [done|]. cbn. rewrite IH, H; auto with lia. Qed.

Lemma xsum_lt n f b : 0 <= b -> (forall k, (k < n)%nat -> 0 <= f k < 2 ^ b) -> 0 <= xsum n f < 2 ^ b.
Proof. intros Hb H. induction n as [|n IH]; [cbn; lia|]. cbn. apply lxor_lt; [done|apply IH; auto|auto]. Qed.

Lemma clmul_xsum n p v : 0 <= p < 2 ^ Z.of_nat n -> 0 <= v ->
  clmul p v = xsum n (fun k => if Z.testbit p (Z.of_nat k) then Z.shiftl v (Z.of_nat k) else 0).
Proof.
  revert p. induction n as [|n IH]; intros p Hp Hv; [replace p with 0 by (cbn in Hp; lia); done|]. cbn [xsum].
  set (q := p mod 2 ^ Z.of_nat n). assert (Hq : 0 <= q < 2 ^ Z.of_nat n) by (apply Z.mod_pos_bound; lia).
  assert (E : p = Z.lxor q (if Z.testbit p (Z.of_nat n) then 2 ^ Z.of_nat n else 0)).
  { apply Z.bits_inj'. intros i Hi. rewrite Z.lxor_spec. unfold q.
    assert (Hhi : Z.of_nat (S n) <= i -> Z.testbit p i = false).
    { intros. destruct (Z.eq_dec p 0) as [->|]; [apply Z.bits_0|]. apply Z.bits_above_log2; [lia|].
      pose proof (proj1 (Z.log2_lt_pow2 p (Z.of_nat (S n)) ltac:(lia)) ltac:(lia)). lia. }
    destruct (Z_lt_le_dec i (Z.of_nat n)); [rewrite Z.mod_pow2_bits_low by lia|rewrite Z.mod_pow2_bits_high by lia].
    - destruct (Z.testbit p (Z.of_nat n)); rewrite ?Z.bits_0, ?Z.pow2_bits_false by lia; by rewrite xorb_false_r.
    - destruct (Z.eq_dec i (Z.of_nat n)) as [->|]; [destruct (Z.testbit p (Z.of_nat n)); by rewrite ?Z.bits_0, ?Z.pow2_bits_true by lia|].
      rewrite Hhi by lia. destruct (Z.testbit p (Z.of_nat n)); by rewrite ?Z.bits_0, ?Z.pow2_bits_false by lia. }
  rewrite E at 1. rewrite clmul_lxor_l by (try destruct (Z.testbit _ _); lia). f_equal.
  - rewrite IH by done. apply xsum_ext. intros k Hk. unfold q. by rewrite Z.mod_pow2_bits_low by lia.
  - destruct (Z.testbit p (Z.of_nat n)); [|apply clmul_0_l]. rewrite clmul_comm, clmul_pow by lia. done.
Qed.

(** ** The field *)

Definition G64 : Z := 2 ^ 64 + 0x1b.

Lemma bit63 v : 0 <= v < 2 ^ 64 -> negb (Z.land v (Z.shiftl 1 63) =? 0) = (2 ^ 63 <=? v).
Proof.
  intros Hv. change (Z.shiftl 1 63) with (2 ^ 63). destruct (Z.leb_spec (2 ^ 63) v) as [H|H].
  - apply negb_true_iff, Z.eqb_neq. intros E. assert (Hb : Z.testbit (Z.land v (2 ^ 63)) 63 = false) by (by rewrite E, Z.bits_0).
    rewrite Z.land_spec, Z.pow2_bits_true, andb_true_r in Hb by lia. apply Z.testbit_false in Hb; [|lia].
    replace (v / 2 ^ 63) with 1 in Hb; [done|]. apply Z.div_unique with (v - 2 ^ 63); lia.
  - apply negb_false_iff, Z.eqb_eq. apply Z.bits_inj'. intros i Hi. rewrite Z.land_spec, Z.bits_0.
    destruct (Z.eq_dec i 63) as [->|]; [|by rewrite Z.pow2_bits_false, andb_false_r by lia].
    replace (Z.testbit v 63) with false; [done|]. symmetry. apply Z.testbit_false; [lia|]. by rewrite Z.div_small by lia.
Qed.

Lemma MULx64_ok v : 0 <= v < 2 ^ 64 -> 0 <= MULx64 v 0x1b < 2 ^ 64 /\ cong G64 (MULx64 v 0x1b) (Z.shiftl v 1).
Proof.
  intros Hv. unfold MULx64. rewrite bit63 by done. rewrite Z.shiftl_mul_pow2 by lia. change (2 ^ 1) with 2.
  destruct (Z.leb_spec (2 ^ 63) v).
  - assert (E : u64 (v * 2) = v * 2 - 2 ^ 64) by (unfold u64; symmetry; apply Z.mod_unique with 1; lia).
    assert (Hl : Z.lxor (2 ^ 64) (v * 2 - 2 ^ 64) = v * 2).
    { rewrite <- Z.add_nocarry_lxor; [lia|]. apply Z.bits_inj'. intros i Hi. rewrite Z.land_spec, Z.bits_0.
      destruct (Z.eq_dec i 64) as [->|]; [|by rewrite Z.pow2_bits_false by lia].
      replace (Z.testbit (v * 2 - 2 ^ 64) 64) with false; [apply andb_false_r|]. symmetry. apply Z.testbit_false; [lia|]. by rewrite Z.div_small by lia. }
    split; [apply lxor_lt; [lia|unfold u64; apply Z.mod_pos_bound; lia|lia]|].
    exists 1. split; [lia|]. rewrite clmul_1_l, E. generalize dependent (v * 2 - 2 ^ 64). intros w _ <-.
    change G64 with (Z.lxor (2 ^ 64) 0x1b). apply Z.bits_inj'. intros i Hi. rewrite !Z.lxor_spec. btauto.
  - unfold u64. rewrite Z.mod_small by lia. split; [lia|apply cong_refl].
Qed.

Lemma MULxPOW64_ok v i : 0 <= v < 2 ^ 64 -> 0 <= MULxPOW64 v i 0x1b < 2 ^ 64 /\ cong G64 (MULxPOW64 v i 0x1b) (Z.shiftl v (Z.of_nat i)).
Proof.
  intros Hv. induction i as [|i [IH1 IH2]]; [cbn [MULxPOW64]; rewrite Z.shiftl_0_r; split; [done|apply cong_refl]|].
  cbn [MULxPOW64]. destruct (MULx64_ok _ IH1) as [H1 H2]. split; [done|]. eapply cong_trans; [done|exact H2|].
  replace (Z.of_nat (S i)) with (Z.of_nat i + 1) by lia. rewrite <- Z.shiftl_shiftl by lia.
  apply cong_shiftl; [done|lia|apply Z.shiftl_nonneg; lia|lia|done].
Qed.

Lemma bit_of p i : negb (Z.land (Z.shiftr p (Z.of_nat i)) 1 =? 0) = Z.testbit p (Z.of_nat i).
Proof.
  change 1 with (Z.ones 1). rewrite Z.land_ones by lia. change (2 ^ 1) with 2. rewrite <- Z.bit0_mod, Z.shiftr_spec, Z.add_0_l by lia.
  by destruct (Z.testbit p (Z.of_nat i)).
Qed.

(** a product as the sum of multiples *)
Definition multiples (v p : Z) (n : nat) : Z := xsum n (fun k => if Z.testbit p (Z.of_nat k) then MULxPOW64 v k 0x1b else 0).

Lemma mul64_loop_sum n v p i r : mul64_loop n v p 0x1b i r =
  Z.lxor r (xsum n (fun k => if Z.testbit p (Z.of_nat (i + k)) then MULxPOW64 v (i + k) 0x1b else 0)).
Proof.
  revert i r. induction n as [|n IH]; intros i r; [by rewrite Z.lxor_0_r|]. cbn [mul64_loop]. rewrite IH, bit_of.
  change (S n) with (1 + n)%nat. rewrite xsum_add. cbn [xsum]. rewrite Z.lxor_0_l, Nat.add_0_r.
  rewrite (xsum_ext n _ (fun k => if Z.testbit p (Z.of_nat (i + (1 + k))) then MULxPOW64 v (i + (1 + k)) 0x1b else 0));
    [|intros k _; by replace (S i + k)%nat with (i + (1 + k))%nat by lia].
  destruct (Z.testbit p (Z.of_nat i)); [by rewrite Z.lxor_assoc|by rewrite Z.lxor_0_l].
Qed.

Lemma MUL64_sum v p : MUL64 v p 0x1b = multiples v p 64.
Proof. unfold MUL64. rewrite mul64_loop_sum, Z.lxor_0_l. apply xsum_ext. intros k _. reflexivity. Qed.

(** the product of the field: the remainder of the product of polynomials *)
Lemma MUL64_ok v p : 0 <= v < 2 ^ 64 -> 0 <= p < 2 ^ 64 -> 0 <= MUL64 v p 0x1b < 2 ^ 64 /\ cong G64 (MUL64 v p 0x1b) (clmul p v).
Proof.
  intros Hv Hp. rewrite MUL64_sum. unfold multiples. split.
  - apply xsum_lt; [lia|]. intros k _. destruct (Z.testbit _ _); [by apply MULxPOW64_ok|lia].
  - rewrite (clmul_xsum 64) by (change (Z.of_nat 64) with 64; lia). generalize 64%nat as n. intros n.
    induction n as [|n IH]; [apply cong_refl|]. cbn [xsum]. apply cong_lxor; [done|done|].
    destruct (Z.testbit _ _); [by apply MULxPOW64_ok|apply cong_refl].
Qed.

Lemma MUL64_range v p : 0 <= v < 2 ^ 64 -> 0 <= p < 2 ^ 64 -> 0 <= MUL64 v p 0x1b < 2 ^ 64.
Proof. intros Hv Hp. exact (proj1 (MUL64_ok v p Hv Hp)). Qed.

Lemma MUL64_comm a b : 0 <= a < 2 ^ 64 -> 0 <= b < 2 ^ 64 -> MUL64 a b 0x1b = MUL64 b a 0x1b.
Proof.
  intros Ha Hb. destruct (MUL64_ok a b Ha Hb) as [H1 H2]. destruct (MUL64_ok b a Hb Ha) as [H3 H4].
  apply (cong_unique G64 64); [lia|done|done|done|]. rewrite clmul_comm in H4 by lia.
  eapply cong_trans; [done|exact H2|by apply cong_sym].
Qed.

(** ** The table *)

Section table.
Context (p : Z) (Hp : 0 <= p < 2 ^ 64).

(** [p] times [x^k], and the entry for the byte [c] at row [i] *)
Definition power (k : Z) : Z := MULxPOW64 p (Z.to_nat k) 0x1b.
Definition entry (i c : Z) : Z := xsum 8 (fun b => if Z.testbit c (Z.of_nat b) then power (8 * i + Z.of_nat b) else 0).

Definition filled (pm : list Z) (i c : Z) : Prop := at_pos pm (256 * i + c) = entry i c.

(** a step that fills entries and spoils none *)
Record fills (pm pm' : list Z) : Prop := {
  fills_len : zlen pm = 2048 -> zlen pm' = 2048;
  fills_keep : forall i c, zlen pm = 2048 -> 0 <= i < 8 -> 0 <= c < 256 -> filled pm i c -> filled pm' i c
}.

Lemma fills_refl pm : fills pm pm.
Proof. done. Qed.

Lemma fills_trans a b c : fills a b -> fills b c -> fills a c.
Proof. intros [H1 H2] [H3 H4]. split; auto. Qed.

Lemma pm_at_ok pm i c : zlen pm = 2048 -> 0 <= i < 8 -> 0 <= c < 256 -> pm_at pm i c = Ret (at_pos pm (256 * i + c)).
Proof. intros. unfold pm_at. by rewrite rd_at by lia. Qed.

Lemma pm_set_entry pm i c : zlen pm = 2048 -> 0 <= i < 8 -> 0 <= c < 256 ->
  exists pm', pm_set pm i c (entry i c) = Ret pm' /\ zlen pm' = 2048 /\ fills pm pm' /\ filled pm' i c.
Proof.
  intros Hl Hi Hc. unfold pm_set. rewrite wr_at by lia. eexists. split; [done|].
  assert (Hz : forall x, zlen (<[Z.to_nat (256 * i + c) := x]> pm) = 2048) by (intros; unfold zlen; by rewrite length_insert).
  split_and!; [by apply Hz|split; [by intros|]|by apply at_pos_insert_eq; lia].
  intros i' c' _ Hi' Hc' Hf. unfold filled. destruct (Z.eq_dec (256 * i + c) (256 * i' + c')) as [E|E].
  - assert (i' = i /\ c' = c) as [-> ->] by lia. apply at_pos_insert_eq. lia.
  - rewrite at_pos_insert_ne by lia. exact Hf.
Qed.

Lemma entry_0 i : entry i 0 = 0.
Proof. apply xsum_0. intros k _. by rewrite Z.bits_0. Qed.

Lemma entry_pow i b : 0 <= b < 8 -> entry i (2 ^ b) = power (8 * i + b).
Proof.
  intros Hb. unfold entry. replace 8%nat with (Z.to_nat b + (1 + Z.to_nat (7 - b)))%nat by lia. rewrite xsum_add, xsum_add. cbn [xsum].
  rewrite (xsum_0 (Z.to_nat b)), (xsum_0 (Z.to_nat (7 - b))), Nat.add_0_r, Z.lxor_0_l, Z.lxor_0_l, Z.lxor_0_r.
  - rewrite Z2Nat.id, Z.pow2_bits_true by lia. done.
  - intros k Hk. by rewrite Z.pow2_bits_false by lia.
  - intros k Hk. by rewrite Z.pow2_bits_false by lia.
Qed.

(** entries above a power of two *)
Lemma entry_sum i b c : 0 <= b < 8 -> 0 <= c < 2 ^ b -> entry i (2 ^ b + c) = Z.lxor (entry i (2 ^ b)) (entry i c).
Proof.
  intros Hb Hc. unfold entry. rewrite <- xsum_lxor. apply xsum_ext. intros k Hk.
  assert (E : 2 ^ b + c = Z.lxor (2 ^ b) c).
  { apply Z.add_nocarry_lxor. apply Z.bits_inj'. intros j Hj. rewrite Z.land_spec, Z.bits_0. destruct (Z.eq_dec j b) as [->|].
    - replace (Z.testbit c b) with false; [apply andb_false_r|]. symmetry. apply Z.testbit_false; [lia|]. by rewrite Z.div_small by lia.
    - by rewrite Z.pow2_bits_false by lia. }
  rewrite E, Z.lxor_spec. destruct (Z.eq_dec (Z.of_nat k) b) as [->|].
  - rewrite Z.pow2_bits_true by lia. replace (Z.testbit c b) with false; [by rewrite Z.lxor_0_r|]. symmetry. apply Z.testbit_false; [lia|]. by rewrite Z.div_small by lia.
  - rewrite Z.pow2_bits_false by lia. by rewrite xorb_false_l, Z.lxor_0_l.
Qed.

Lemma power_range k : 0 <= power k < 2 ^ 64.
Proof using Hp. by apply MULxPOW64_ok. Qed.

Lemma power_succ k : 0 <= k -> power (k + 1) = MULx64 (power k) 0x1b.
Proof. intros. unfold power. by replace (Z.to_nat (k + 1)) with (S (Z.to_nat k)) by lia. Qed.

Lemma pm_zero_ok n i pm : zlen pm = 2048 -> 0 <= i -> i + Z.of_nat n = 8 ->
  exists pm', pm_zero n i pm = Ret pm' /\ zlen pm' = 2048 /\ fills pm pm' /\ forall i', i <= i' < 8 -> filled pm' i' 0.
Proof.
  revert i pm. induction n as [|n IH]; intros i pm Hl Hi Hn; [exists pm; split_and!; [done..|intros; lia]|]. cbn [pm_zero].
  destruct (pm_set_entry pm i 0 Hl ltac:(lia) ltac:(lia)) as (pm1 & E1 & L1 & F1 & G1). rewrite entry_0 in E1. rewrite E1. cbn [mbind outcome_bind].
  destruct (IH (i + 1) pm1 L1 ltac:(lia) ltac:(lia)) as (pm2 & E2 & L2 & F2 & G2). exists pm2. split_and!; [done|done|by eapply fills_trans|].
  intros i' Hi'. destruct (Z.eq_dec i' i) as [->|]; [apply F2; [done|lia|lia|done]|apply G2; lia].
Qed.

(** the place of [power k] *)
Lemma place k : 0 <= k < 64 -> 0 <= Z.shiftr k 3 < 8 /\ Z.shiftl 1 (Z.land k 7) = 2 ^ (k mod 8) /\ 0 < 2 ^ (k mod 8) < 256 /\ Z.shiftr k 3 = k / 8 /\
  entry (k / 8) (2 ^ (k mod 8)) = power k.
Proof.
  intros Hk. rewrite Z.shiftr_div_pow2 by lia. change (2 ^ 3) with 8. change 7 with (Z.ones 3). rewrite Z.land_ones by lia. change (2 ^ 3) with 8.
  pose proof (Z.mod_pos_bound k 8 ltac:(lia)) as Hm. pose proof (Z.div_mod k 8 ltac:(lia)) as Hd.
  assert (2 ^ (k mod 8) <= 2 ^ 7) by (apply Z.pow_le_mono_r; lia). assert (0 < 2 ^ (k mod 8)) by lia.
  split_and!; [lia|lia|by rewrite Z.shiftl_1_l|done|change (2 ^ 7) with 128 in *; lia|done|].
  rewrite entry_pow by lia. f_equal. lia.
Qed.

Definition at_place (pm : list Z) (k : Z) : Prop := filled pm (k / 8) (2 ^ (k mod 8)).

Lemma pm_power_step pm i (rest : list Z -> outcome (list Z)) : zlen pm = 2048 -> 1 <= i < 64 -> at_place pm (i - 1) ->
  exists pm', zlen pm' = 2048 /\ fills pm pm' /\ at_place pm' i /\
  (prev ← pm_at pm (Z.shiftr (i - 1) 3) (Z.shiftl 1 (Z.land (i - 1) 7));
   pm ← pm_set pm (Z.shiftr i 3) (Z.shiftl 1 (Z.land i 7)) (u64 (Z.shiftl prev 1));
   prev ← pm_at pm (Z.shiftr (i - 1) 3) (Z.shiftl 1 (Z.land (i - 1) 7));
   pm ← (if negb (Z.land prev 0x8000000000000000 =? 0) then
           v ← pm_at pm (Z.shiftr i 3) (Z.shiftl 1 (Z.land i 7));
           pm_set pm (Z.shiftr i 3) (Z.shiftl 1 (Z.land i 7)) (Z.lxor v 0x1b)
         else Ret pm);
   rest pm) = rest pm'.
Proof using Hp.
  intros Hl Hi Hprev. destruct (place i ltac:(lia)) as (R1 & -> & R2 & R3 & R4). destruct (place (i - 1) ltac:(lia)) as (Q1 & -> & Q2 & Q3 & Q4).
  rewrite R3, Q3 in *. destruct (pm_set_entry pm (i / 8) (2 ^ (i mod 8)) Hl R1 ltac:(lia)) as (pm' & E & L & F & G). exists pm'. split_and!; [done..|].
  unfold pm_set in *. unfold at_place, filled in Hprev. set (c := 2 ^ (i mod 8)) in *. set (c' := 2 ^ ((i - 1) mod 8)) in *.
  assert (Hne : 256 * (i / 8) + c <> 256 * ((i - 1) / 8) + c').
  { pose proof (Z.div_mod i 8 ltac:(lia)). pose proof (Z.div_mod (i - 1) 8 ltac:(lia)). pose proof (Z.mod_pos_bound i 8 ltac:(lia)). pose proof (Z.mod_pos_bound (i - 1) 8 ltac:(lia)).
    intros Heq. assert (Hd : i / 8 = (i - 1) / 8) by lia. assert (c = c') by lia. assert (i mod 8 = (i - 1) mod 8) by (apply (Z.pow_inj_r 2); [lia|lia|lia|done]). lia. }
  rewrite pm_at_ok by (done || lia). rewrite Hprev, Q4. cbn [mbind outcome_bind]. rewrite wr_at in E |- * by lia. cbn [mbind outcome_bind].
  assert (Hz : forall l k (x : Z), zlen (<[k := x]> l) = zlen l) by (intros; unfold zlen; by rewrite length_insert).
  rewrite (pm_at_ok _ ((i - 1) / 8) c') by (rewrite ?Hz; done || lia). rewrite at_pos_insert_ne by lia. rewrite Hprev, Q4. cbn [mbind outcome_bind].
  change 0x8000000000000000 with (Z.shiftl 1 63). injection E as <-.
  rewrite R4. replace (power i) with (power (i - 1 + 1)) by (f_equal; lia). rewrite power_succ by lia. unfold MULx64.
  destruct (negb _); [|done]. rewrite pm_at_ok by (rewrite ?Hz; done || lia). rewrite at_pos_insert_eq by (rewrite ?Hz; lia). cbn [mbind outcome_bind].
  rewrite wr_at by (rewrite Hz; lia). cbn [mbind outcome_bind]. by rewrite list_insert_insert_eq.
Qed.

Lemma pm_powers_ok n i pm : zlen pm = 2048 -> 1 <= i -> i + Z.of_nat n = 64 -> at_place pm (i - 1) ->
  exists pm', pm_powers n i pm = Ret pm' /\ zlen pm' = 2048 /\ fills pm pm' /\ forall k, i - 1 <= k < 64 -> at_place pm' k.
Proof using Hp.
  revert i pm. induction n as [|n IH]; intros i pm Hl Hi Hn Hprev.
  { exists pm. split_and!; [done..|]. intros k Hk. by replace k with (i - 1) by lia. }
  destruct (pm_power_step pm i (fun pm => pm_powers n (i + 1) pm) Hl ltac:(lia) Hprev) as (pm1 & L1 & F1 & P1 & E). cbn [pm_powers]. rewrite E.
  destruct (IH (i + 1) pm1 L1 ltac:(lia) ltac:(lia) ltac:(by replace (i + 1 - 1) with i by lia)) as (pm2 & E2 & L2 & F2 & G2).
  exists pm2. split_and!; [done|done|by eapply fills_trans|]. intros k Hk. destruct (Z.eq_dec k (i - 1)) as [->|]; [|apply G2; lia].
  destruct (place (i - 1) ltac:(lia)) as (Q1 & _ & Q2 & Q3 & _). rewrite Q3 in Q1. apply F2; [done|done|lia|]. apply F1; [done|done|lia|done].
Qed.

(** entries below [n] of row [i] *)
Definition row_filled (pm : list Z) (i n : Z) : Prop := forall c, 0 <= c < n -> filled pm i c.

Lemma pm_sums_ok n i j k pm : zlen pm = 2048 -> 0 <= i < 8 -> 1 <= j < 8 -> 1 <= k -> k + Z.of_nat n = 2 ^ j ->
  row_filled pm i (2 ^ j + k) ->
  exists pm', pm_sums n i j k pm = Ret pm' /\ zlen pm' = 2048 /\ fills pm pm' /\ row_filled pm' i (2 ^ (j + 1)).
Proof.
  intros Hl Hi Hj. assert (Hpow : 2 ^ j <= 2 ^ 7) by (apply Z.pow_le_mono_r; lia). change (2 ^ 7) with 128 in Hpow.
  assert (Hs : 2 ^ (j + 1) = 2 * 2 ^ j) by (rewrite Z.pow_add_r by lia; lia).
  revert k pm Hl. induction n as [|n IH]; intros k pm Hl Hk Hn Hr.
  { exists pm. split_and!; [done..|]. rewrite Hs. by replace (2 * 2 ^ j) with (2 ^ j + k) by lia. }
  cbn [pm_sums]. rewrite Z.shiftl_1_l. rewrite !pm_at_ok by lia. cbn [mbind outcome_bind].
  rewrite (Hr (2 ^ j)), (Hr k), <- entry_sum by lia.
  destruct (pm_set_entry pm i (2 ^ j + k) Hl Hi ltac:(lia)) as (pm1 & E1 & L1 & F1 & G1). rewrite E1. cbn [mbind outcome_bind].
  destruct (IH (k + 1) pm1 L1 ltac:(lia) ltac:(lia)) as (pm2 & E2 & L2 & F2 & G2).
  - intros c Hc. destruct (Z.eq_dec c (2 ^ j + k)) as [->|]; [done|]. apply F1; [done|lia|lia|apply Hr; lia].
  - exists pm2. split_and!; [done|done|by eapply fills_trans|done].
Qed.

Lemma pm_row_ok n i j pm : zlen pm = 2048 -> 0 <= i < 8 -> 1 <= j -> j + Z.of_nat n = 8 -> row_filled pm i (2 ^ j) ->
  (forall b, 0 <= b < 8 -> filled pm i (2 ^ b)) ->
  exists pm', pm_row n i j pm = Ret pm' /\ zlen pm' = 2048 /\ fills pm pm' /\ row_filled pm' i 256.
Proof.
  intros Hl Hi. revert j pm Hl. induction n as [|n IH]; intros j pm Hl Hj Hn Hr Hb.
  { exists pm. split_and!; [done..|]. by replace 256 with (2 ^ j) by (replace j with 8 by lia; done). }
  cbn [pm_row]. rewrite Z.shiftl_1_l. assert (0 < 2 ^ j) by lia. assert (2 ^ j <= 2 ^ 7) by (apply Z.pow_le_mono_r; lia). change (2 ^ 7) with 128 in *.
  destruct (pm_sums_ok (Z.to_nat (2 ^ j - 1)) i j 1 pm Hl Hi ltac:(lia) ltac:(lia) ltac:(lia)) as (pm1 & E1 & L1 & F1 & G1).
  { intros c Hc. destruct (Z.eq_dec c (2 ^ j)) as [->|]; [apply Hb; lia|apply Hr; lia]. }
  rewrite E1. cbn [mbind outcome_bind]. destruct (IH (j + 1) pm1 L1 ltac:(lia) ltac:(lia) G1) as (pm2 & E2 & L2 & F2 & G2).
  { intros b Hb'. assert (2 ^ b <= 2 ^ 7) by (apply Z.pow_le_mono_r; lia). change (2 ^ 7) with 128 in *. apply F1; [done|done|lia|by apply Hb]. }
  exists pm2. split_and!; [done|done|by eapply fills_trans|done].
Qed.

Lemma pm_rows_ok n i pm : zlen pm = 2048 -> 0 <= i -> i + Z.of_nat n = 8 ->
  (forall i', 0 <= i' < 8 -> filled pm i' 0 /\ forall b, 0 <= b < 8 -> filled pm i' (2 ^ b)) ->
  exists pm', pm_rows n i pm = Ret pm' /\ zlen pm' = 2048 /\ fills pm pm' /\ forall i', i <= i' < 8 -> row_filled pm' i' 256.
Proof.
  revert i pm. induction n as [|n IH]; intros i pm Hl Hi Hn Hb; [exists pm; split_and!; [done..|intros; lia]|]. cbn [pm_rows].
  destruct (pm_row_ok 7 i 1 pm Hl ltac:(lia) ltac:(lia) ltac:(lia)) as (pm1 & E1 & L1 & F1 & G1).
  { intros c Hc. change (2 ^ 1) with 2 in Hc. destruct (Z.eq_dec c 0) as [->|]; [by apply Hb; lia|]. replace c with (2 ^ 0) by (change (2 ^ 0) with 1; lia). apply Hb; lia. }
  { by apply Hb; lia. }
  rewrite E1. cbn [mbind outcome_bind]. destruct (IH (i + 1) pm1 L1 ltac:(lia) ltac:(lia)) as (pm2 & E2 & L2 & F2 & G2).
  { intros i' Hi'. destruct (Hb i' Hi') as [B0 B1]. split; [by apply F1; [done|lia|lia|]|]. intros b Hb'.
    assert (0 < 2 ^ b <= 2 ^ 7) by (split; [lia|apply Z.pow_le_mono_r; lia]). change (2 ^ 7) with 128 in *. apply F1; [done|lia|lia|by apply B1]. }
  exists pm2. split_and!; [done|done|by eapply fills_trans|]. intros i' Hi'. destruct (Z.eq_dec i' i) as [->|]; [|apply G2; lia].
  intros c Hc. apply F2; [done|lia|lia|by apply G1].
Qed.

Lemma precompute_ok pm : zlen pm = 2048 ->
  exists pm', precompute pm p = Ret pm' /\ zlen pm' = 2048 /\ forall i, 0 <= i < 8 -> row_filled pm' i 256.
Proof using Hp.
  intros Hl. unfold precompute. destruct (pm_zero_ok 8 0 pm Hl ltac:(lia) ltac:(lia)) as (pm1 & -> & L1 & _ & G1). cbn [mbind outcome_bind].
  destruct (pm_set_entry pm1 0 1 L1 ltac:(lia) ltac:(lia)) as (pm2 & E2 & L2 & F2 & G2).
  change (entry 0 1) with (entry 0 (2 ^ 0)) in E2. rewrite entry_pow in E2 by lia. change (power (8 * 0 + 0)) with p in E2. rewrite E2. cbn [mbind outcome_bind].
  destruct (pm_powers_ok 63 1 pm2 L2 ltac:(lia) ltac:(lia) G2) as (pm3 & -> & L3 & F3 & G3). cbn [mbind outcome_bind].
  destruct (pm_rows_ok 8 0 pm3 L3 ltac:(lia) ltac:(lia)) as (pm4 & -> & L4 & _ & G4).
  - intros i Hi. split.
    + apply F3; [done|lia|lia|]. apply F2; [done|lia|lia|]. apply G1. lia.
    + intros b Hb. pose proof (G3 (8 * i + b) ltac:(lia)) as H. unfold at_place in H.
      replace ((8 * i + b) / 8) with i in H by (apply Z.div_unique with b; lia). by replace ((8 * i + b) mod 8) with b in H by (apply Z.mod_unique with i; lia).
  - exists pm4. split_and!; [done|done|]. intros i Hi. apply G4. lia.
Qed.

(** a product from eight entries of the table *)
Lemma mul_p_ok pm x : zlen pm = 2048 -> (forall i, 0 <= i < 8 -> row_filled pm i 256) -> mul_p pm x = Ret (MUL64 p x 0x1b).
Proof using Hp.
  intros Hl Hr. unfold mul_p. pose proof (byte_n_range x) as Hb. rewrite !pm_at_ok by (done || apply Hb || lia). cbn [mbind outcome_bind].
  assert (Hf : forall i, 0 <= i < 8 -> at_pos pm (256 * i + byte_n x i) = entry i (byte_n x i)) by (intros i Hi; by apply Hr).
  rewrite !Hf by lia. f_equal. rewrite MUL64_sum. unfold multiples.
  assert (E : forall i, 0 <= i < 8 -> entry i (byte_n x i) = xsum 8 (fun k => if Z.testbit x (Z.of_nat (Z.to_nat (8 * i) + k)) then MULxPOW64 p (Z.to_nat (8 * i) + k) 0x1b else 0)).
  { intros i Hi. unfold entry, power. apply xsum_ext. intros k Hk. rewrite byte_n_bits by lia. rewrite (proj2 (Z.ltb_lt (Z.of_nat k) 8)) by lia. cbn [andb].
    replace (Z.to_nat (8 * i + Z.of_nat k)) with (Z.to_nat (8 * i) + k)%nat by lia. by replace (Z.of_nat (Z.to_nat (8 * i) + k)) with (Z.of_nat k + 8 * i) by lia. }
  rewrite !E by lia. change (xsum 64 ?f) with (xsum (8 + (8 + (8 + (8 + (8 + (8 + (8 + 8))))))) f). rewrite !xsum_add. rewrite !Z.lxor_assoc.
  repeat (apply (f_equal2 Z.lxor); [apply xsum_ext; intros k Hk; reflexivity|]). apply xsum_ext. intros k Hk. reflexivity.
Qed.
End table.

(** ** Ranges *)

Lemma MULxPOW_byte v i c : 0 <= v < 256 -> 0 <= c < 256 -> 0 <= MULxPOW v i c < 256.
Proof. intros. induction i; [done|]. cbn [MULxPOW]. by apply MULx_byte. Qed.

#[local] Opaque SR SQ MULxPOW.

Definition word (w : Z) : Prop := 0 <= w < 2 ^ 32.

Lemma word_lxor a b : word a -> word b -> word (Z.lxor a b).
Proof. apply lxor_lt. lia. Qed.
#[local] Hint Resolve word_lxor byte_lxor MULx_byte byte_n_range : core.

Lemma cat4_word a b c d : 0 <= a < 256 -> 0 <= b < 256 -> 0 <= c < 256 -> 0 <= d < 256 -> word (cat4 a b c d).
Proof.
  intros. rewrite cat4_lxor_form by done. rewrite !Z.shiftl_mul_pow2 by lia. unfold word in *. repeat apply word_lxor; unfold word; lia.
Qed.

Lemma mix_word c a0 a1 a2 a3 : 0 <= c < 256 -> 0 <= a0 < 256 -> 0 <= a1 < 256 -> 0 <= a2 < 256 -> 0 <= a3 < 256 -> word (mix c a0 a1 a2 a3).
Proof. intros. apply cat4_word; auto 7. Qed.

Lemma S1_word w : word (S1_spec w).
Proof. unfold S1_spec. apply mix_word; [lia|exact (proj1 (sboxes_bytes _ (byte_n_range _ _)))..]. Qed.

Lemma S2_word w : word (S2_spec w).
Proof. unfold S2_spec. apply mix_word; [lia|exact (proj2 (sboxes_bytes _ (byte_n_range _ _)))..]. Qed.

Lemma alpha_word c : 0 <= c < 256 -> word (MULalpha c) /\ word (DIValpha c).
Proof. intros. unfold MULalpha, DIValpha. split; apply cat4_word; apply MULxPOW_byte; (assumption || lia). Qed.
#[local] Opaque S1_spec S2_spec MULalpha DIValpha.

Record snow_ok (g : snow) : Prop := {
  snow_len : zlen (lfsr g) = 16; snow_words : Forall word (lfsr g); snow_fsm : word (R1 g) /\ word (R2 g) /\ word (R3 g) }.

Lemma snow_at g i : snow_ok g -> 0 <= i < 16 -> word (at_pos (lfsr g) i).
Proof.
  intros [Hl Hw _] Hi. unfold at_pos. rewrite list_lookup_total_alt. destruct (lfsr g !! Z.to_nat i) as [x|] eqn:E.
  - by apply (Forall_lookup_1 _ _ _ _ Hw E).
  - apply lookup_ge_None in E. unfold zlen in Hl. lia.
Qed.

Lemma lfsr_clock_ok F g : word F -> snow_ok g -> snow_ok (lfsr_clock F g).
Proof.
  intros HF Hg. assert (H0 : 0 <= 0 < 256) by lia. split; [cbn [lfsr_clock lfsr]; rewrite zlen_snoc, zlen_drop, (snow_len _ Hg); lia| |apply Hg].
  apply Forall_app. split; [by apply Forall_drop, Hg|]. constructor; [|constructor].
  apply word_lxor; [|exact HF]. apply word_lxor; [|apply alpha_word, byte_n_range].
  apply word_lxor; [|apply cat4_word; (exact H0 || apply byte_n_range)]. apply word_lxor; [|apply snow_at; [exact Hg|lia]].
  apply word_lxor; [apply cat4_word; (exact H0 || apply byte_n_range)|apply alpha_word, byte_n_range].
Qed.

Lemma fsm_clock_ok g : snow_ok g -> word (fst (fsm_clock g)) /\ snow_ok (snd (fsm_clock g)).
Proof.
  intros Hg. destruct Hg as [Hl Hw (H1 & H2 & H3)]. cbn. split; [apply word_lxor; [apply u32_range|done]|].
  split; [done|done|]. split_and!; [apply u32_range|apply S1_word|apply S2_word].
Qed.

Lemma keystream_ok n g : snow_ok g -> Forall word (snow_keystream n g).
Proof.
  revert g. induction n as [|n IH]; intros g Hg; [done|]. cbn [snow_keystream]. destruct (fsm_clock_ok g Hg) as [HF Hg'].
  destruct (fsm_clock g) as [F g']. cbn [fst snd] in *. constructor; [apply word_lxor; [done|by apply snow_at]|].
  apply IH, lfsr_clock_ok; [unfold word; lia|done].
Qed.

Lemma snow_init_ok k0 k1 k2 k3 iv0 iv1 iv2 iv3 : word k0 -> word k1 -> word k2 -> word k3 -> word iv0 -> word iv1 -> word iv2 -> word iv3 ->
  snow_ok (snow_init k0 k1 k2 k3 iv0 iv1 iv2 iv3).
Proof.
  intros. unfold snow_init. apply lfsr_clock_ok; [unfold word; lia|]. apply fsm_clock_ok.
  assert (Hs0 : snow_ok (mk_snow (load_words k0 k1 k2 k3 iv0 iv1 iv2 iv3) 0 0 0)).
  { assert (Hf : word 0xffffffff) by (unfold word; lia). split; [done|unfold load_words; cbn [lfsr]; repeat (apply Forall_cons_2; [auto|]); apply Forall_nil_2|cbn; unfold word; lia]. }
  revert Hs0. generalize (mk_snow (load_words k0 k1 k2 k3 iv0 iv1 iv2 iv3) 0 0 0). intros g Hg.
  generalize 32%nat as n. intros n. induction n as [|n IH]; [done|]. cbn [Nat.iter nat_rect]. unfold init_clock at 1.
  pose proof (fsm_clock_ok _ IH) as [HF Hg']. unfold Nat.iter in *. destruct (fsm_clock _) as [F g']. by apply lfsr_clock_ok.
Qed.

(** ** Integrity: UIA2, document 1, 4.4 *)

(** [M_i]: eight bytes from [8 i] on, zeros behind the message *)
Definition block (m : list Z) (i : Z) : Z :=
  let b := fun n => at_pos (m ++ replicate 8 0) (8 * i + n) in
  Z.lor (Z.lor (Z.lor (Z.lor (Z.lor (Z.lor (Z.lor (Z.shiftl (b 0) 56) (Z.shiftl (b 1) 48)) (Z.shiftl (b 2) 40))
    (Z.shiftl (b 3) 32)) (Z.shiftl (b 4) 24)) (Z.shiftl (b 5) 16)) (Z.shiftl (b 6) 8)) (b 7).

Definition UIA2_generator (count fresh direction : Z) (key : list Z) : snow :=
  snow_init (word_at key 12) (word_at key 8) (word_at key 4) (word_at key 0)
    (Z.lxor fresh (Z.shiftl direction 15)) (Z.lxor count (Z.shiftl direction 31)) fresh count.

(** the polynomial of the message at [P] *)
Definition UIA2_eval (P : Z) (m : list Z) : Z :=
  fold_left (fun eval i => MUL64 (Z.lxor eval (block m i)) P 0x1b) (seqZ 0 ((8 * zlen m + 63) / 64)) 0.

Definition UIA2 (count fresh direction : Z) (key m : list Z) : list Z :=
  let z := at_pos (snow_keystream 5 (UIA2_generator count fresh direction key)) in
  let P := Z.lor (Z.shiftl (z 0) 32) (z 1) in
  let Q := Z.lor (Z.shiftl (z 2) 32) (z 3) in
  let eval := MUL64 (Z.lxor (UIA2_eval P m) (8 * zlen m)) Q 0x1b in
  word_bytes (Z.lxor (Z.shiftr eval 32) (z 4)).

Lemma lor_lt a b n : 0 <= n -> 0 <= a < 2 ^ n -> 0 <= b < 2 ^ n -> 0 <= Z.lor a b < 2 ^ n.
Proof.
  intros Hn Ha Hb. split; [apply Z.lor_nonneg; lia|]. destruct (Z.eq_dec (Z.lor a b) 0) as [->|]; [lia|].
  assert (0 <= Z.lor a b) by (apply Z.lor_nonneg; lia). apply Z.log2_lt_pow2; [lia|]. rewrite Z.log2_lor by lia.
  assert (H0 : forall x, 0 <= x < 2 ^ n -> x = 0 \/ Z.log2 x < n) by (intros x Hx; destruct (Z.eq_dec x 0); [by left|right; apply Z.log2_lt_pow2; lia]).
  pose proof (Z.log2_nonneg a). pose proof (Z.log2_nonneg b). destruct (H0 a Ha) as [->|], (H0 b Hb) as [->|]; rewrite ?Z.lor_0_l in *; change (Z.log2 0) with 0 in *; lia.
Qed.

Lemma pair_64 a b : word a -> word b -> 0 <= Z.lor (Z.shiftl a 32) b < 2 ^ 64.
Proof. unfold word. intros. rewrite Z.shiftl_mul_pow2 by lia. apply lor_lt; lia. Qed.

Lemma padded_byte m n : Forall byte_ok m -> 0 <= n < zlen m + 8 -> 0 <= at_pos (m ++ replicate 8 0) n < 256.
Proof.
  intros Hm Hn. unfold at_pos. rewrite list_lookup_total_alt. destruct ((m ++ replicate 8 0) !! Z.to_nat n) as [x|] eqn:E; [|cbn; lia].
  assert (Hf : Forall byte_ok (m ++ replicate 8 0)) by (apply Forall_app; split; [done|repeat constructor; unfold byte_ok; lia]).
  apply (Forall_lookup_1 _ _ _ _ Hf E).
Qed.

Lemma block_range m i : Forall byte_ok m -> 0 <= i -> 8 * i <= zlen m -> 0 <= block m i < 2 ^ 64.
Proof.
  intros Hm Hi Hl. unfold block. assert (Hb : forall n, 0 <= n < 8 -> 0 <= at_pos (m ++ replicate 8 0) (8 * i + n) < 256) by (intros; apply padded_byte; [done|lia]).
  rewrite !Z.shiftl_mul_pow2 by lia. pose proof (Hb 0 ltac:(lia)). pose proof (Hb 1 ltac:(lia)). pose proof (Hb 2 ltac:(lia)). pose proof (Hb 3 ltac:(lia)).
  pose proof (Hb 4 ltac:(lia)). pose proof (Hb 5 ltac:(lia)). pose proof (Hb 6 ltac:(lia)). pose proof (Hb 7 ltac:(lia)).
  repeat (apply lor_lt; [lia| |lia]). lia.
Qed.

Lemma get64_block m i n : 0 <= i -> 1 <= n <= 8 -> 8 * i + n <= zlen m -> (n = 8 \/ 8 * i + n = zlen m) -> GET64 m (i * 8) n = Ret (block m i).
Proof.
  intros Hi Hn Hl Hend. unfold GET64. replace ((1 <=? n) && (n <=? 8)) with true by lia. rewrite mem_read_ok by lia. cbn [mbind outcome_bind]. f_equal.
  set (bs := take _ _). assert (Hb : forall k, (k < 8)%nat -> match bs !! k with Some b => b | None => 0 end = at_pos (m ++ replicate 8 0) (8 * i + Z.of_nat k)).
  { intros k Hk. rewrite at_pos_app by lia. unfold bs. destruct (decide (Z.of_nat k < n)) as [Hkn|Hkn].
    - rewrite lookup_take_lt, lookup_drop by lia. rewrite (proj2 (Z.ltb_lt _ _)) by lia. unfold at_pos. rewrite list_lookup_total_alt.
      replace (Z.to_nat (i * 8) + k)%nat with (Z.to_nat (8 * i + Z.of_nat k)) by lia.
      destruct (lookup_lt_is_Some_2 m (Z.to_nat (8 * i + Z.of_nat k))) as [x ->]; [unfold zlen in Hl; lia|reflexivity].
    - rewrite lookup_take_ge by lia. rewrite (proj2 (Z.ltb_ge _ _)) by lia. change 8%nat with (Z.to_nat 8). by rewrite at_pos_replicate by lia. }
  rewrite !Hb by lia. reflexivity.
Qed.

(** the step of a fold as an equation, so that products are never unfolded *)
Lemma fold_left_cons {A B} (f : A -> B -> A) x l a : fold_left f (x :: l) a = fold_left f l (f a x).
Proof. reflexivity. Qed.

#[local] Opaque MUL64.

Lemma eval_range P m bs ev : 0 <= P < 2 ^ 64 -> Forall byte_ok m -> 0 <= ev < 2 ^ 64 -> Forall (fun i => 0 <= i /\ 8 * i <= zlen m) bs ->
  0 <= fold_left (fun eval i => MUL64 (Z.lxor eval (block m i)) P 0x1b) bs ev < 2 ^ 64.
Proof.
  intros HP Hm Hev His. revert ev Hev. induction His as [|i bs [H1 H2] _ IH]; intros ev Hev; [done|]. rewrite fold_left_cons. apply IH.
  apply MUL64_range; [|done]. apply lxor_lt; [lia|done|by apply block_range].
Qed.

(** one block: the table gives the product of the specification *)
Lemma mul_p_block P pm m i ev : 0 <= P < 2 ^ 64 -> zlen pm = 2048 -> (forall r, 0 <= r < 8 -> row_filled P pm r 256) ->
  Forall byte_ok m -> 0 <= ev < 2 ^ 64 -> 0 <= i -> 8 * i <= zlen m ->
  mul_p pm (Z.lxor ev (block m i)) = Ret (MUL64 (Z.lxor ev (block m i)) P 0x1b).
Proof.
  intros HP Hl Hr Hm Hev Hi Hz. rewrite (mul_p_ok P HP) by done. f_equal. apply MUL64_comm; [done|]. apply lxor_lt; [lia|done|by apply block_range].
Qed.

Lemma eval_blocks_ok n P pm m i ev : 0 <= P < 2 ^ 64 -> zlen pm = 2048 -> (forall r, 0 <= r < 8 -> row_filled P pm r 256) ->
  Forall byte_ok m -> 0 <= ev < 2 ^ 64 -> 0 <= i -> 8 * (i + Z.of_nat n) <= zlen m ->
  eval_blocks n pm m i ev = Ret (fold_left (fun eval i => MUL64 (Z.lxor eval (block m i)) P 0x1b) (seqZ i (Z.of_nat n)) ev).
Proof.
  intros HP Hl Hr Hm. revert i ev. induction n as [|n IH]; intros i ev Hev Hi Hz; [done|]. cbn [eval_blocks].
  rewrite (get64_block m i 8) by lia. cbn [mbind outcome_bind]. rewrite (mul_p_block P) by (done || lia). cbn [mbind outcome_bind].
  rewrite seqZ_cons by lia. rewrite fold_left_cons. replace (Z.pred (Z.of_nat (S n))) with (Z.of_nat n) by lia.
  rewrite IH; [by rewrite Z.add_1_r| |lia|lia]. apply MUL64_range; [|done]. apply lxor_lt; [lia|done|apply block_range; (done || lia)].
Qed.

Lemma integrity_iv_words count fresh direction : word count -> word fresh -> 0 <= direction < 2 ->
  let iv := integrity_iv count fresh direction in
  word_at iv 0 = Z.lxor fresh (Z.shiftl direction 15) /\ word_at iv 4 = Z.lxor count (Z.shiftl direction 31) /\ word_at iv 8 = fresh /\ word_at iv 12 = count.
Proof.
  intros Hc Hf Hd iv. set (d := Z.shiftl (Z.land direction 1) 7).
  assert (Hd' : 0 <= d < 256 /\ cat4 0 0 d 0 = Z.shiftl direction 15 /\ cat4 d 0 0 0 = Z.shiftl direction 31).
  { assert (direction = 0 \/ direction = 1) as [-> | ->] by lia; split_and!; by vm_compute. }
  destruct Hd' as (Hd1 & D1 & D2). pose proof (word_of_bytes count Hc) as Wc. pose proof (word_of_bytes fresh Hf) as Wf.
  assert (H0 : 0 <= 0 < 256) by lia. split_and!; [| |exact Wf|exact Wc].
  - rewrite <- D1, <- Wf at 1. rewrite cat4_lxor by auto. by rewrite !Z.lxor_0_r.
  - rewrite <- D2, <- Wc at 1. rewrite cat4_lxor by auto. by rewrite !Z.lxor_0_r.
Qed.

Lemma key_words key : Forall byte_ok key -> zlen key = 16 -> word (word_at key 0) /\ word (word_at key 4) /\ word (word_at key 8) /\ word (word_at key 12).
Proof.
  intros Hb Hl. assert (H : forall i, 0 <= i < 16 -> 0 <= at_pos key i < 256).
  { intros i Hi. unfold at_pos. rewrite list_lookup_total_alt. destruct (key !! Z.to_nat i) as [x|] eqn:E; [apply (Forall_lookup_1 _ _ _ _ Hb E)|].
    apply lookup_ge_None in E. unfold zlen in Hl. lia. }
  unfold word_at. refine (conj _ (conj _ (conj _ _))); apply cat4_word; apply H; lia.
Qed.

Lemma snow3g_integrity_is junk pm count fresh direction key m : zlen junk = 16 -> zlen pm = 2048 -> zlen key = 16 -> Forall byte_ok key ->
  word count -> word fresh -> 0 <= direction < 2 -> Forall byte_ok m -> 0 < zlen m < 2 ^ 28 - 8 ->
  snow3g_integrity_ junk pm count fresh direction key (zlen m) m = Ret (UIA2 count fresh direction key m).
Proof.
  intros Hj Hpm Hk Hkb Hc Hf Hd Hm Hz. unfold snow3g_integrity_. destruct (reorder_key_ok key Hk) as (k & -> & Hk' & K0 & K1 & K2 & K3). cbn [mbind outcome_bind].
  destruct (gen_init junk k (integrity_iv count fresh direction) Hj Hk' ltac:(done)) as (s & -> & Hg). cbn [mbind outcome_bind].
  destruct (integrity_iv_words count fresh direction Hc Hf Hd) as (V0 & V1 & V2 & V3). rewrite K0, K1, K2, K3, V0, V1, V2, V3 in Hg.
  rewrite (gen_keystream _ _ _ Hg). cbn [mbind outcome_bind]. unfold UIA2. fold (UIA2_generator count fresh direction key).
  destruct (key_words key Hkb Hk) as (W0 & W1 & W2 & W3). assert (Hdir : word (Z.shiftl direction 15) /\ word (Z.shiftl direction 31)).
  { unfold word. rewrite !Z.shiftl_mul_pow2 by lia. lia. }
  assert (Hks : Forall word (snow_keystream 5 (UIA2_generator count fresh direction key))).
  { destruct Hdir. apply keystream_ok. unfold UIA2_generator. apply snow_init_ok; try assumption; apply word_lxor; assumption. }
  pose proof (keystream_length 5 (UIA2_generator count fresh direction key)) as Hlen. revert Hks Hlen.
  generalize (snow_keystream 5 (UIA2_generator count fresh direction key)). intros zs Hks Hlen.
  do 5 (destruct zs as [|? zs]; [done|]). destruct zs; [|done].
  inversion_clear Hks as [|? ? Z0 Hk1]. inversion_clear Hk1 as [|? ? Z1 Hk2]. inversion_clear Hk2 as [|? ? Z2 Hk3]. inversion_clear Hk3 as [|? ? Z3 _].
  change (at_pos [z; z0; z1; z2; z3] 0) with z. change (at_pos [z; z0; z1; z2; z3] 1) with z0. change (at_pos [z; z0; z1; z2; z3] 2) with z1.
  change (at_pos [z; z0; z1; z2; z3] 3) with z2. change (at_pos [z; z0; z1; z2; z3] 4) with z3.
  pose proof (pair_64 z z0 Z0 Z1) as HP. revert HP. generalize (Z.lor (Z.shiftl z 32) z0). intros P HP.
  rewrite (proj2 (Z.leb_gt (2 ^ 31) (zlen m * 8 + 63))) by lia. cbv zeta.
  destruct (precompute_ok P HP pm Hpm) as (pm' & -> & Hpl & Hrows). cbn [mbind outcome_bind].
  set (D := (zlen m * 8 + 63) / 64). assert (HD : 1 <= D /\ 8 * (D - 1) < zlen m <= 8 * D).
  { pose proof (Z.div_mod (zlen m * 8 + 63) 64 ltac:(lia)). pose proof (Z.mod_pos_bound (zlen m * 8 + 63) 64 ltac:(lia)). fold D in H. lia. }
  replace (D + 1 - 2) with (D - 1) by lia. rewrite (eval_blocks_ok _ P) by (done || lia). cbn [mbind outcome_bind].
  rewrite Z2Nat.id by lia. rewrite get64_block by (unfold MIN; destruct (Z.ltb_spec 8 (zlen m - (D - 1) * 8)); lia). cbn [mbind outcome_bind].
  rewrite (mul_p_block P) by first [assumption|lia|apply eval_range; [assumption|assumption|lia|apply Forall_seqZ; lia]]. cbn [mbind outcome_bind].
  assert (E : UIA2_eval P m = MUL64 (Z.lxor (fold_left (fun eval i => MUL64 (Z.lxor eval (block m i)) P 0x1b) (seqZ 0 (D - 1)) 0) (block m (D - 1))) P 0x1b).
  { unfold UIA2_eval. replace ((8 * zlen m + 63) / 64) with (D - 1 + 1) by (unfold D; rewrite (Z.mul_comm 8); lia).
    rewrite seqZ_app, fold_left_app by lia. rewrite Z.add_0_l. change (seqZ (D - 1) 1) with [D - 1]. rewrite fold_left_cons. reflexivity. }
  rewrite <- E. unfold u64. rewrite Z.mod_small, (Z.mul_comm (zlen m)) by lia. reflexivity.
Qed.
