(* ===== verification/Secu.v ===== *)
(** Ciphering and integrity of messages, src/openair3/SECU: the algorithms behind
    their identifiers (secu_defs.c and the nas_stream files), the initialisation vectors
    for AES and the calls into OpenSSL (aes_128_ctr.c, aes_128_cbc_cmac.c), and that
    they give PDCP what it relies on.

    OpenSSL is a parameter: AES-128 in counter mode, and the CMAC over AES-128 of all
    that was fed to it. Contexts are keys; allocations succeed. *)

From stdpp Require Import base tactics list numbers.
From Stdlib Require Import ZArith Lia.
From S2P Require Import Prelude Arrays PdcpSdu PdcpEntity PdcpRx PdcpRoundtrip Gf2 Snow3g Snow3gSpec Snow3gMac.

(** ** Code outside the repository *)

Record openssl := mk_openssl {
  EVP_aes_128_ctr : list Z -> list Z -> list Z -> list Z;   (** key, initialisation vector, message *)
  EVP_cmac_aes128 : list Z -> list Z -> list Z              (** key, message *)
}.

(** counter mode adds a key stream, a CMAC has the size of a block *)
Class openssl_laws (ssl : openssl) : Prop := {
  ctr_involutive : forall key iv m, EVP_aes_128_ctr ssl key iv (EVP_aes_128_ctr ssl key iv m) = m;
  ctr_length : forall key iv m, zlen (EVP_aes_128_ctr ssl key iv m) = zlen m;
  cmac_length : forall key m, zlen (EVP_cmac_aes128 ssl key m) = 16
}.

(** ** Operations *)

Inductive iv_e := AES_INITIALIZATION_VECTOR_8 | AES_INITIALIZATION_VECTOR_16 | NONE_INITIALIZATION_VECTOR.

Record aes_128_t := mk_aes_128 { aes_key : list Z; aes_type : iv_e; aes_iv : list Z }.

(** [data_iv16_t] and [data_iv8_t] in memory: the count in network order, two bits of
    padding, one of direction and five of the bearer, then zeros *)
Definition iv_bytes (size count bearer direction : Z) : list Z :=
  word_bytes count ++ Z.lor (Z.shiftl (bearer mod 32) 3) (Z.shiftl (direction mod 2) 2) :: replicate (Z.to_nat (size - 5)) 0.

(** [nas_stream_cipher_t]; the length is in bits *)
Record nas_stream_cipher_t := mk_stream {
  sc_context : list Z; sc_count : Z; sc_bearer : Z; sc_direction : Z; sc_message : list Z; sc_blength : Z }.

Section secu.
Context (ssl : openssl) (junk pm : list Z).

Definition aes_128_ctr (k_iv : aes_128_t) (msg : list Z) (len_out : Z) : outcome (list Z) :=
  match aes_type k_iv with
  | AES_INITIALIZATION_VECTOR_16 =>
      let out := EVP_aes_128_ctr ssl (aes_key k_iv) (aes_iv k_iv) msg in
      if len_out <? zlen out then Exit else Ret out
  | _ => Exit
  end.

Definition cipher_aes_128_cbc_cmac (ctx : list Z) (k_iv : aes_128_t) (msg : list Z) : outcome (list Z) :=
  match aes_type k_iv with
  | NONE_INITIALIZATION_VECTOR => Exit
  | _ => Ret (EVP_cmac_aes128 ssl ctx (aes_iv k_iv ++ msg))
  end.

Definition nas_stream_encrypt_eea0 (c : nas_stream_cipher_t) : outcome (list Z) :=
  mem_read (sc_message c) 0 (Z.shiftr (u32 (sc_blength c + 7)) 3).

Definition nas_stream_encrypt_eea1 (c : nas_stream_cipher_t) : outcome (list Z) :=
  snow3g_ciphering junk (sc_count c) (sc_bearer c) (sc_direction c) (sc_context c) (sc_blength c / 8) (sc_message c).

Definition nas_stream_encrypt_eea2 (c : nas_stream_cipher_t) : outcome (list Z) :=
  if negb ((sc_bearer c <? 32) && (sc_direction c <? 2) && (7 <? sc_blength c)) then Exit
  else
    key ← mem_read (sc_context c) 0 16;
    if negb (Z.land (sc_blength c) 0x07 =? 0) then Exit
    else
      let byte_length := Z.shiftr (sc_blength c) 3 in
      msg ← mem_read (sc_message c) 0 byte_length;
      aes_128_ctr (mk_aes_128 key AES_INITIALIZATION_VECTOR_16 (iv_bytes 16 (sc_count c) (sc_bearer c) (sc_direction c))) msg byte_length.

Definition nas_stream_encrypt_eia1 (c : nas_stream_cipher_t) : outcome (list Z) :=
  snow3g_integrity junk pm (sc_count c) (sc_bearer c) (sc_direction c) (sc_context c) (sc_blength c / 8) (sc_message c).

Definition nas_stream_encrypt_eia2 (c : nas_stream_cipher_t) : outcome (list Z) :=
  if negb ((sc_bearer c <? 32) && (Z.land (sc_blength c) 0x7 =? 0)) then Exit
  else
    key ← mem_read (sc_context c) 0 16;
    msg ← mem_read (sc_message c) 0 (Z.shiftr (sc_blength c) 3);
    result ← cipher_aes_128_cbc_cmac key (mk_aes_128 key AES_INITIALIZATION_VECTOR_8 (iv_bytes 8 (sc_count c) (sc_bearer c) (sc_direction c))) msg;
    mem_read result 0 4.

(** [out] is what the four bytes of the caller hold before *)
Definition stream_compute_integrity (alg : Z) (c : nas_stream_cipher_t) (out : list Z) : outcome (list Z) :=
  if alg =? 0 then Ret out
  else if alg =? 1 then nas_stream_encrypt_eia1 c
  else if alg =? 2 then nas_stream_encrypt_eia2 c
  else Exit.

Definition stream_compute_encrypt (alg : Z) (c : nas_stream_cipher_t) : outcome (list Z) :=
  if alg =? 0 then nas_stream_encrypt_eea0 c
  else if alg =? 1 then nas_stream_encrypt_eea1 c
  else if alg =? 2 then nas_stream_encrypt_eea2 c
  else Exit.

(** the context of an algorithm: none, or a copy of the key *)
Definition stream_ciphering_init (alg : Z) (key : list Z) : outcome (option (list Z)) :=
  if alg =? 0 then Ret None
  else if (alg =? 1) || (alg =? 2) then k ← mem_read key 0 16; Ret (Some k)
  else Exit.

Definition stream_integrity_init (alg : Z) (key : list Z) : outcome (option (list Z)) := stream_ciphering_init alg key.

Record stream_security_container_t := mk_container {
  sec_integrity_algorithm : Z; sec_ciphering_algorithm : Z; sec_ciphering_context : option (list Z); sec_integrity_context : option (list Z) }.

Definition stream_security_container_init (ciphering_algorithm integrity_algorithm : Z) (ciphering_key integrity_key : list Z) : outcome stream_security_container_t :=
  i ← stream_integrity_init integrity_algorithm integrity_key;
  c ← stream_ciphering_init ciphering_algorithm ciphering_key;
  Ret (mk_container integrity_algorithm ciphering_algorithm c i).

(** what the wrappers of PDCP call: the two streams for SNOW 3G, and AES directly *)
Definition nea1_stream (key buffer : list Z) (bearer count direction : Z) : outcome (list Z) :=
  stream_compute_encrypt 1 (mk_stream key (u32 count) (u8 (bearer - 1)) (u8 direction) buffer (u32 (zlen buffer * 8))).

Definition nia1_stream (key buffer : list Z) (bearer count direction : Z) (out : list Z) : outcome (list Z) :=
  stream_compute_integrity 1 (mk_stream key (u32 count) (u8 (bearer - 1)) (u8 direction) buffer (u32 (zlen buffer * 8))) out.

Definition nea2_aes (key buffer : list Z) (bearer count direction : Z) : outcome (list Z) :=
  if negb ((0 <? zlen buffer) && (-1 <? bearer) && (bearer <? 32) && (-1 <? direction) && (direction <? 2) && (-1 <? count)) then Exit
  else
    key ← mem_read key 0 16;
    aes_128_ctr (mk_aes_128 key AES_INITIALIZATION_VECTOR_16 (iv_bytes 16 count (bearer - 1) direction)) buffer (zlen buffer).

Definition nia2_aes (key buffer : list Z) (bearer count direction : Z) : outcome (list Z) :=
  if negb ((0 <? bearer) && (bearer <? 33) && (-1 <? count)) then Exit
  else
    key ← mem_read key 0 16;
    result ← cipher_aes_128_cbc_cmac key (mk_aes_128 key AES_INITIALIZATION_VECTOR_8 (iv_bytes 8 count (bearer - 1) direction)) buffer;
    mem_read result 0 4.
End secu.

(** ** The algorithms of 33.501, annex D *)

(** the [n] bytes of a number, most significant first *)
Fixpoint be_bytes (n : nat) (v : Z) : list Z := match n with O => [] | S n => be_bytes n (v / 256) ++ [v mod 256] end.

(** [COUNT || BEARER || DIRECTION || 0 ... 0], 32, 5, 1 and the remaining bits *)
Definition aes_iv_spec (n : nat) (count bearer direction : Z) : list Z :=
  be_bytes n ((count * 2 ^ 8 + bearer * 2 ^ 3 + direction * 2 ^ 2) * 256 ^ (Z.of_nat n - 5)).

Definition spec_crypto (ssl : openssl) : crypto := {|
  snow3g_encrypt key count bearer dir m := UEA2 (u32 count) bearer dir key m;
  aes_ctr_encrypt key count bearer dir m := EVP_aes_128_ctr ssl key (aes_iv_spec 16 (u32 count) (bearer mod 32) dir) m;
  snow3g_mac key count bearer dir m := UIA2 (u32 count) (Z.shiftl bearer 27) dir key m;
  aes_cmac key count bearer dir m := EVP_cmac_aes128 ssl key (aes_iv_spec 8 (u32 count) (bearer mod 32) dir ++ m) |}.

#[export] Instance spec_crypto_laws ssl `{!openssl_laws ssl} : crypto_laws (spec_crypto ssl).
Proof.
  split; intros; cbn -[UEA2 UIA2 aes_iv_spec]; [apply UEA2_involutive|apply ctr_involutive|apply UEA2_length|apply ctr_length|reflexivity|apply cmac_length].
Qed.

Lemma be_bytes_app a b hi lo : 0 <= lo < 256 ^ Z.of_nat b -> be_bytes (a + b) (hi * 256 ^ Z.of_nat b + lo) = be_bytes a hi ++ be_bytes b lo.
Proof.
  revert lo. induction b as [|b IH]; intros lo Hlo; [rewrite Nat.add_0_r, app_nil_r; f_equal; cbn in *; lia|].
  rewrite Nat.add_succ_r. cbn [be_bytes]. replace (256 ^ Z.of_nat (S b)) with (256 * 256 ^ Z.of_nat b) in * by (rewrite Nat2Z.inj_succ, Z.pow_succ_r by lia; lia).
  replace (hi * (256 * 256 ^ Z.of_nat b) + lo) with (lo + hi * 256 ^ Z.of_nat b * 256) by lia. rewrite Z.div_add, Z.mod_add by lia.
  rewrite Z.add_comm, IH by (split; [apply Z.div_pos; lia|apply Z.div_lt_upper_bound; lia]). by rewrite app_assoc.
Qed.

Lemma be_bytes_0 n : be_bytes n 0 = replicate n 0.
Proof. induction n as [|n IH]; [done|]. cbn [be_bytes]. change (0 / 256) with 0. change (0 mod 256) with 0. rewrite IH. by rewrite <- replicate_cons_app. Qed.

Lemma byte_n_mod w n : 0 <= n -> byte_n w n = (w / 256 ^ n) mod 256.
Proof.
  intros Hn. unfold byte_n. change 0xff with (Z.ones 8). rewrite Z.land_ones, Z.shiftr_div_pow2 by lia. rewrite Z.pow_mul_r by lia. done.
Qed.

Lemma word_bytes_be w : be_bytes 4 w = word_bytes w.
Proof.
  unfold word_bytes. rewrite !byte_n_mod by lia. cbn [be_bytes app]. change (256 ^ 0) with 1. change (256 ^ 1) with 256. change (256 ^ 2) with (256 * 256).
  change (256 ^ 3) with (256 * 256 * 256). by rewrite <- !Z.div_div, Z.div_1_r by lia.
Qed.

Lemma word_bytes_u32 w : word_bytes (u32 w) = word_bytes w.
Proof.
  assert (H : forall n, 0 <= n < 4 -> byte_n (u32 w) n = byte_n w n).
  { intros n Hn. apply Z.bits_inj'. intros i Hi. rewrite !byte_n_bits by lia. destruct (Z.ltb_spec i 8); [|done]. unfold u32. by rewrite Z.mod_pow2_bits_low by lia. }
  unfold word_bytes. by rewrite !H by lia.
Qed.

Lemma iv_byte b d : 0 <= b < 256 -> 0 <= d < 2 -> Z.lor (Z.shiftl b 3) (Z.shiftl d 2) = b * 2 ^ 3 + d * 2 ^ 2.
Proof.
  intros Hb Hd. assert (d = 0 \/ d = 1) as [-> | ->] by lia; apply Z.eqb_eq.
  - apply (forall_byte (fun b => Z.lor (Z.shiftl b 3) (Z.shiftl 0 2) =? b * 2 ^ 3 + 0 * 2 ^ 2)); [by vm_compute|done].
  - apply (forall_byte (fun b => Z.lor (Z.shiftl b 3) (Z.shiftl 1 2) =? b * 2 ^ 3 + 1 * 2 ^ 2)); [by vm_compute|done].
Qed.

Lemma iv_bytes_spec n count bearer direction : (5 <= n)%nat -> 0 <= direction < 2 ->
  iv_bytes (Z.of_nat n) count bearer direction = aes_iv_spec n (u32 count) (bearer mod 32) direction.
Proof.
  intros Hn Hd. unfold iv_bytes, aes_iv_spec. pose proof (Z.mod_pos_bound bearer 32 ltac:(lia)) as Hb. set (b := bearer mod 32) in *.
  rewrite <- Z.add_assoc. replace n with (4 + (1 + (n - 5)))%nat at 2 by lia. replace (Z.of_nat n - 5) with (Z.of_nat (n - 5)) by lia.
  rewrite Nat.add_assoc, <- (Z.add_0_r (_ * 256 ^ _)), be_bytes_app, be_bytes_0 by lia.
  change (2 ^ 8) with (256 ^ Z.of_nat 1). rewrite be_bytes_app by (cbn; lia). rewrite word_bytes_be, word_bytes_u32, <- app_assoc. f_equal.
  rewrite (Z.mod_small direction) by lia. cbn [be_bytes app]. rewrite Z.mod_small by lia. rewrite iv_byte by lia. do 2 f_equal. lia.
Qed.

(** ** The code against the algorithms *)

Lemma bits_bytes n : 0 <= n < 2 ^ 28 -> u32 (n * 8) / 8 = n.
Proof. intros Hn. rewrite u32_small by lia. apply Z.div_mul. lia. Qed.

Lemma read_key key : zlen key = 16 -> mem_read key 0 16 = Ret key.
Proof. intros H. pose proof (mem_read_prefix key [] 16 ltac:(lia)) as E. by rewrite app_nil_r in E. Qed.

(** C12: SNOW 3G ciphering (snow3g.c, with its S-box and feedback tables and a shift
    register that moves a pointer over a doubled array) is UEA2 of the ETSI/SAGE
    specification: for every count, bearer, direction, key and message it returns the
    message plus the key stream of the specified generator, whatever the
    uninitialised half of the array holds, and applying it twice gives the message
    back. *)
Theorem snow3g_is_uea2 junk count bearer direction key m : zlen junk = 16 -> zlen key = 16 ->
  0 <= count < 2 ^ 32 -> 0 <= bearer < 32 -> 0 <= direction < 2 ->
  exists c, snow3g_ciphering junk count bearer direction key (zlen m) m = Ret c /\ zlen c = zlen m /\
    c = zip_with Z.lxor m (concat (map word_bytes (snow_keystream (Z.to_nat ((zlen m + 3) / 4)) (UEA2_generator count bearer direction key)))) /\
    snow3g_ciphering junk count bearer direction key (zlen c) c = Ret m.
Proof.
  intros Hj Hk Hc Hb Hd. exists (UEA2 count bearer direction key m). rewrite !snow3g_ciphering_is by done.
  split_and!; [done|apply UEA2_length|done|by rewrite UEA2_involutive].
Qed.

Definition test_key : list Z := [0x2B; 0xD6; 0x45; 0x9F; 0x82; 0xC5; 0xB3; 0x00; 0x95; 0x2C; 0x49; 0x10; 0x48; 0x81; 0xFF; 0x48].
Definition test_text : list Z := [0x7E; 0xC6; 0x12; 0x72; 0x74; 0x3B; 0xF1; 0x61; 0x47; 0x26].

(** test set 1 of the test program in snow3g.c *)
Lemma snow3g_is_uea2_witness :
  snow3g_ciphering (replicate 16 7) 0x72A4F20F 0x0c 1 test_key 10 test_text = Ret [0x8C; 0xEB; 0xA6; 0x29; 0x43; 0xDC; 0xED; 0x3A; 0x09; 0x90] /\
  snow3g_ciphering (replicate 16 7) 0x72A4F20F 0x0c 1 test_key 10 [0x8C; 0xEB; 0xA6; 0x29; 0x43; 0xDC; 0xED; 0x3A; 0x09; 0x90] = Ret test_text.
Proof.
  destruct (snow3g_is_uea2 (replicate 16 7) 0x72A4F20F 0x0c 1 test_key test_text) as (c & E & El & _ & E'); [done|done|lia|lia|lia|].
  assert (Ec : c = [0x8C; 0xEB; 0xA6; 0x29; 0x43; 0xDC; 0xED; 0x3A; 0x09; 0x90]) by (vm_compute in E; by injection E).
  subst c. split; [exact E|exact E'].
Defined.

(** C13: SNOW 3G integrity (snow3g.c, with its table of 8 by 256 multiples that is
    built for every message) is UIA2 of the specification: for every key, count,
    bearer, direction and every message that is not empty the four bytes returned
    are those of the polynomial evaluation in the field of 2^64 elements, whatever
    the arrays on the stack held before; and that multiplication is the product of
    polynomials modulo [x^64 + x^4 + x^3 + x + 1]. *)
Theorem snow3g_is_uia2 junk pm count bearer direction key m : zlen junk = 16 -> zlen pm = 2048 -> zlen key = 16 -> Forall byte_ok key ->
  0 <= count < 2 ^ 32 -> 0 <= bearer < 32 -> 0 <= direction < 2 -> Forall byte_ok m -> 0 < zlen m < 2 ^ 28 - 8 ->
  snow3g_integrity junk pm count bearer direction key (zlen m) m = Ret (UIA2 count (bearer * 2 ^ 27) direction key m) /\
  forall a b, 0 <= a < 2 ^ 64 -> 0 <= b < 2 ^ 64 -> 0 <= MUL64 a b 0x1b < 2 ^ 64 /\ cong (2 ^ 64 + 0x1b) (MUL64 a b 0x1b) (clmul a b).
Proof.
  intros Hj Hpm Hk Hkb Hc Hb Hd Hm Hz. split.
  - unfold snow3g_integrity. rewrite u32_small, Z.shiftl_mul_pow2 by (rewrite ?Z.shiftl_mul_pow2; lia). apply snow3g_integrity_is; unfold word; try done; lia.
  - intros a b Ha Hb'. rewrite (clmul_comm a b) by lia. by apply MUL64_ok.
Qed.

Definition mac_key : list Z := [0xC7; 0x36; 0xC6; 0xAA; 0xB2; 0x2B; 0xFF; 0xF9; 0x1E; 0x26; 0x98; 0xD2; 0xE2; 0x2A; 0xD5; 0x7E].

Lemma snow3g_is_uia2_witness :
  snow3g_integrity (replicate 16 7) (replicate 2048 9) 0x14793E41 5 1 mac_key 10 test_text = Ret (UIA2 0x14793E41 (5 * 2 ^ 27) 1 mac_key test_text) /\
  cong (2 ^ 64 + 0x1b) (MUL64 (2 ^ 63) 2 0x1b) (clmul (2 ^ 63) 2).
Proof.
  destruct (snow3g_is_uia2 (replicate 16 7) (replicate 2048 9) 0x14793E41 5 1 mac_key test_text) as [E H];
    [done|done|done|by repeat constructor|lia|lia|lia|by repeat constructor|done|].
  split; [exact E|]. apply (H (2 ^ 63) 2); lia.
Defined.

(** test set 4 of the test program in snow3g.c *)
Example uia2_test_set_4 : UIA2 0x14793E41 0x0397E8FD 1 mac_key
  [0xD0; 0xA7; 0xD4; 0x63; 0xDF; 0x9F; 0xB2; 0xB2; 0x78; 0x83; 0x3F; 0xA0; 0x2E; 0x23; 0x5A; 0xA1;
   0x72; 0xBD; 0x97; 0x0C; 0x14; 0x73; 0xE1; 0x29; 0x07; 0xFB; 0x64; 0x8B; 0x65; 0x99; 0xAA; 0xA0;
   0xB2; 0x4A; 0x03; 0x86; 0x65; 0x42; 0x2B; 0x20; 0xA4; 0x99; 0x27; 0x6A; 0x50; 0x42; 0x70; 0x09] = [0x38; 0xB5; 0x54; 0xC0].
Proof. vm_compute. reflexivity. Qed.

Section refinement.
Context (ssl : openssl) `{!openssl_laws ssl} (junk pm : list Z) (Hj : zlen junk = 16) (Hpm : zlen pm = 2048).
Context (key m : list Z) (bearer count direction : Z) (Hk : zlen key = 16) (Hm : zlen m < 2 ^ 28 - 8) (Hb : 1 <= bearer <= 32) (Hd : 0 <= direction < 2).

Lemma stream_fields : u8 (bearer - 1) = bearer - 1 /\ u8 direction = direction /\ u32 (zlen m * 8) / 8 = zlen m.
Proof using Hb Hd Hm. unfold u8. rewrite !Z.mod_small, bits_bytes by (pose proof (zlen_nonneg m); lia). done. Qed.

Lemma nea1_refines : nea1_stream ssl junk key m bearer count direction = nr_pdcp_security_nea1_cipher (spec_crypto ssl) key m bearer count direction.
Proof using All.
  destruct stream_fields as (E1 & E2 & E3). unfold nea1_stream, stream_compute_encrypt, nas_stream_encrypt_eea1. cbn [Z.eqb Pos.eqb sc_count sc_bearer sc_direction sc_context sc_blength sc_message].
  rewrite E1, E2, E3. apply snow3g_ciphering_is; [done|done|apply u32_range|lia|lia].
Qed.

Lemma nia1_refines out : Forall byte_ok key -> Forall byte_ok m -> 0 < zlen m ->
  nia1_stream ssl junk pm key m bearer count direction out = nr_pdcp_integrity_nia1_integrity (spec_crypto ssl) key m bearer count direction.
Proof using All.
  intros Hkb Hmb Hz. destruct stream_fields as (E1 & E2 & E3). unfold nia1_stream, stream_compute_integrity, nas_stream_encrypt_eia1.
  cbn [Z.eqb Pos.eqb sc_count sc_bearer sc_direction sc_context sc_blength sc_message]. rewrite E1, E2, E3. unfold snow3g_integrity.
  rewrite (u32_small (Z.shiftl _ _)) by (rewrite Z.shiftl_mul_pow2; lia).
  apply snow3g_integrity_is; [done|done|done|done|apply u32_range|unfold word; rewrite Z.shiftl_mul_pow2; lia|lia|done|lia].
Qed.

Lemma nea2_refines : nea2_aes ssl key m bearer count direction = nr_pdcp_security_nea2_cipher (spec_crypto ssl) key m bearer count direction.
Proof using All.
  unfold nea2_aes, nr_pdcp_security_nea2_cipher. destruct (negb _); [done|]. rewrite read_key by done. cbn [mbind outcome_bind]. unfold aes_128_ctr. cbn [aes_type aes_key aes_iv].
  rewrite (iv_bytes_spec 16) by lia. rewrite ctr_length, Z.ltb_irrefl. done.
Qed.

Lemma nia2_refines : nia2_aes ssl key m bearer count direction = nr_pdcp_integrity_nia2_integrity (spec_crypto ssl) key m bearer count direction.
Proof using All.
  unfold nia2_aes, nr_pdcp_integrity_nia2_integrity. destruct (negb _); [done|]. rewrite read_key by done. cbn [mbind outcome_bind cipher_aes_128_cbc_cmac aes_type aes_iv].
  rewrite (iv_bytes_spec 8) by lia. rewrite mem_read_ok by (rewrite ?cmac_length; lia). done.
Qed.
End refinement.

(** C11: the security functions PDCP calls do what its proofs rely on. Behind NEA1 and
    NIA1 are the stream functions of secu_defs.c over SNOW 3G, behind NEA2 and NIA2
    the initialisation vectors of aes_128.h and the calls into OpenSSL; for every key
    of 16 bytes, bearer 1 to 32, count and message each of the four returns exactly
    what the wrapper returns for the algorithms of 33.501 annex D ([spec_crypto]:
    UEA2, UIA2, and AES with [COUNT || BEARER || DIRECTION || 0...]), stopping the
    program in the same cases, and these algorithms satisfy the laws under which
    PDCP and the whole stack deliver. *)
Theorem security_refines_spec ssl `{!openssl_laws ssl} junk pm key m bearer count direction : zlen junk = 16 -> zlen pm = 2048 ->
  zlen key = 16 -> Forall byte_ok key -> Forall byte_ok m -> 0 < zlen m < 2 ^ 28 - 8 -> 1 <= bearer <= 32 -> 0 <= direction < 2 ->
  let C := spec_crypto ssl in
  crypto_laws C /\
  nea1_stream ssl junk key m bearer count direction = nr_pdcp_security_nea1_cipher C key m bearer count direction /\
  (forall out, nia1_stream ssl junk pm key m bearer count direction out = nr_pdcp_integrity_nia1_integrity C key m bearer count direction) /\
  nea2_aes ssl key m bearer count direction = nr_pdcp_security_nea2_cipher C key m bearer count direction /\
  nia2_aes ssl key m bearer count direction = nr_pdcp_integrity_nia2_integrity C key m bearer count direction.
Proof.
  intros Hj Hpm Hk Hkb Hmb Hm Hb Hd C. split; [apply _|].
  refine (conj _ (conj _ (conj _ _))); [apply (nea1_refines ssl junk pm)|intros out; apply (nia1_refines ssl junk pm)|apply (nea2_refines ssl junk pm)|apply (nia2_refines ssl junk pm)]; (done || lia).
Qed.

(** a stand-in for OpenSSL: the first byte of key and vector is added to every byte *)
Definition toy_openssl : openssl := {|
  EVP_aes_128_ctr key iv m := map (Z.lxor (Z.lxor (at_pos key 0) (at_pos iv 0))) m;
  EVP_cmac_aes128 key m := replicate 16 (Z.lxor (at_pos key 0) (zlen m)) |}.

#[export] Instance toy_openssl_laws : openssl_laws toy_openssl.
Proof.
  split; intros; cbn; [|apply zlen_map|done]. rewrite map_map. rewrite <- (map_id m) at 2. apply map_ext. intros x.
  by rewrite <- Z.lxor_assoc, Z.lxor_nilpotent, Z.lxor_0_l.
Qed.

Lemma security_refines_spec_witness :
  nea1_stream toy_openssl (replicate 16 7) test_key test_text 13 0x42A4F20F 1 =
    nr_pdcp_security_nea1_cipher (spec_crypto toy_openssl) test_key test_text 13 0x42A4F20F 1 /\
  nia2_aes toy_openssl test_key test_text 13 0x42A4F20F 1 = Ret (replicate 4 (Z.lxor 0x2B 18)).
Proof.
  destruct (security_refines_spec toy_openssl (replicate 16 7) (replicate 2048 9) test_key test_text 13 0x42A4F20F 1) as (_ & H1 & _ & _ & H4);
    [done|done|done|by repeat constructor|by repeat constructor|done|lia|lia|].
  split; [exact H1|]. rewrite H4. reflexivity.
Defined.
