(* ===== verification/Tbs.v ===== *)
(** Sizes of transport blocks and of their parts: the transport block size
    (src/openair2/LAYER2/NR_MAC_COMMON/nr_compute_tbs_common.c), the base graph
    ([get_BG] of nr_mac_common.c), the number of coded bits of a transport block and
    of its segments (src/openair1/PHY/NR_TRANSPORT/nr_tbs_tools.c), and the length and
    type of the CRCs (src/openair1/PHY/defs_gNB.h). *)

From stdpp Require Import base tactics list numbers.
From Stdlib Require Import ZArith Lia.
From S2P Require Import Prelude Crc.

(** ** Floating point *)

(** The quotient of two positive integers below [2^24] as a [float]: the 24 bits of
    the significand and the exponent, rounded to nearest, ties to even. *)
Definition float_div (a b : Z) : Z * Z :=
  let e0 := 23 - (Z.log2 a - Z.log2 b) in
  let e := if Z.shiftl a e0 / b <? 2 ^ 23 then e0 + 1 else e0 in
  let q := Z.shiftl a e / b in
  let r := Z.shiftl a e mod b in
  ((if (b <? 2 * r) || ((2 * r =? b) && Z.odd q) then q + 1 else q), e).

(** [(float)a / b < n / 10000.0]; with [0 / 0] the comparison is false *)
Definition float_lt (a b n : Z) : bool :=
  if a =? 0 then 0 <? n * b else let '(q, e) := float_div a b in 10000 * q <? Z.shiftl n e.

(** [(float)a / b <= n / 10000.0] *)
Definition float_le (a b n : Z) : bool :=
  if a =? 0 then 0 <? b else let '(q, e) := float_div a b in 10000 * q <=? Z.shiftl n e.

(** ** Transport block size *)

Definition NR_MAX_PDSCH_TBS : Z := 3824.

Definition Tbstable_nr : list Z :=
  [24; 32; 40; 48; 56; 64; 72; 80; 88; 96; 104; 112; 120; 128; 136; 144; 152; 160; 168;
   176; 184; 192; 208; 224; 240; 256; 272; 288; 304; 320; 336; 352; 368; 384; 408; 432; 456; 480;
   504; 528; 552; 576; 608; 640; 672; 704; 736; 768; 808; 848; 888; 928; 984; 1032; 1064; 1128; 1160;
   1192; 1224; 1256; 1288; 1320; 1352; 1416; 1480; 1544; 1608; 1672; 1736; 1800; 1864; 1928; 2024; 2088; 2152; 2216;
   2280; 2408; 2472; 2536; 2600; 2664; 2728; 2792; 2856; 2976; 3104; 3240; 3368; 3496; 3624; 3752; 3824].

Definition NPRB_LBRM : list Z := [32; 66; 107; 135; 162; 217; 273].

(** [for (i = 0; ...) if (table[i] >= x) { y = table[i]; break; }], [y] is 0 before *)
Fixpoint first_at_least (table : list Z) (x : Z) : Z :=
  match table with
  | [] => 0
  | t :: table => if x <=? t then t else first_at_least table x
  end.

(** the macros, on [uint32_t] *)
Definition CEILIDIV (a b : Z) : Z := Z.quot (u32 (a + b - 1)) b.
Definition ROUNDIDIV (a b : Z) : Z := Z.quot (u32 (u32 (Z.shiftl a 1) + b)) (u32 (Z.shiftl b 1)).

(** [(C << 3) * CEILIDIV(Np_info + 24, C << 3) - 24] *)
Definition tbs_of_segments (C Np_info : Z) : Z := u32 (Z.shiftl C 3 * CEILIDIV (u32 (Np_info + 24)) (Z.shiftl C 3) - 24).

(** from the intermediate number of information bits on; [low_rate] is the test of
    the code rate. [floor(log2(x))] is exact on 32-bit integers, of zero it is minus
    infinity. *)
Definition tbs_of_info (low_rate : bool) (Ninfo : Z) : Z :=
  if Ninfo <=? NR_MAX_PDSCH_TBS then
    let n := if Ninfo =? 0 then 3 else Z.max 3 (Z.log2 Ninfo - 6) in
    let Np_info := Z.max 24 (u32 (Z.shiftl (Z.shiftr Ninfo n) n)) in
    first_at_least Tbstable_nr Np_info
  else
    let n := Z.log2 (Ninfo - 24) - 5 in
    let Np_info := Z.max 3840 (u32 (Z.shiftl (ROUNDIDIV (Ninfo - 24) (Z.shiftl 1 n)) n)) in
    if low_rate then tbs_of_segments (CEILIDIV (u32 (Np_info + 24)) 3816) Np_info
    else if 8424 <? Np_info then tbs_of_segments (CEILIDIV (u32 (Np_info + 24)) 8424) Np_info
    else u32 (Z.shiftl (CEILIDIV (u32 (Np_info + 24)) 8) 3 - 24).

(** the intermediate number of information bits *)
Definition tbs_info (Qm R nb_rb nb_symb_sch nb_dmrs_prb nb_rb_oh tb_scaling Nl : Z) : Z :=
  let nbp_re := u32 (12 * nb_symb_sch - nb_dmrs_prb - nb_rb_oh) in
  let nb_re := u32 (Z.min 156 nbp_re * nb_rb) in
  let R_5 := Z.quot R 5 in
  Z.shiftr (Z.shiftr (u32 (u32 (u32 (nb_re * R_5) * Qm) * Nl)) 11) tb_scaling.

Definition nr_compute_tbs (Qm R nb_rb nb_symb_sch nb_dmrs_prb nb_rb_oh tb_scaling Nl : Z) : Z :=
  tbs_of_info (R <=? 2560) (tbs_info Qm R nb_rb nb_symb_sch nb_dmrs_prb nb_rb_oh tb_scaling Nl).

(** the product is of type [int] *)
Definition nr_compute_tbslbrm (table nb_rb Nl : Z) : outcome Z :=
  let nb_rb_lbrm := first_at_least NPRB_LBRM nb_rb in
  let Qm := if table =? 1 then 8 else 6 in
  let R := 948 in
  let nb_re := 156 * nb_rb_lbrm in
  if nb_re * R * Qm * Nl <? 2 ^ 31 then Ret (tbs_of_info (R <=? 256) (Z.shiftr (nb_re * R * Qm * Nl) 10)) else Undef.

Definition get_BG (A R : Z) : Z :=
  if (A <=? 292) || ((A <=? NR_MAX_PDSCH_TBS) && float_le R 10240 6667) || float_le R 10240 2500 then 2 else 1.

(** ** Coded bits *)

Definition nr_get_G (nb_rb nb_symb_sch nb_re_dmrs length_dmrs unav_res Qm Nl : Z) : Z :=
  let G := u32 ((12 * nb_symb_sch - nb_re_dmrs * length_dmrs) * nb_rb * Qm * Nl) in
  u32 (G - u32 (u32 (unav_res * Qm) * Nl)).

(** [C] is zero for no transport block *)
Definition nr_get_E (G C Qm Nl r : Z) : outcome Z :=
  if negb (0 <? Nl) then Exit
  else if negb (0 <? Qm) then Exit
  else if C =? 0 then Undef
  else if r <=? u32 (u32 (C - Z.quot G (Nl * Qm) %% C) - 1)
  then Ret (u32 (Nl * Qm * Z.quot G (Nl * Qm * C)))
  else Ret (u32 (Nl * Qm * (Z.quot G (Nl * Qm * C) + 1))).

(** the code rate indication of the decoder, and the number of soft bits known *)
Definition nr_get_R_ldpc_decoder (rvidx E BG Z llrLen round : Z) : outcome (BinInt.Z * BinInt.Z) :=
  if negb ((BG =? 1) || (BG =? 2)) then Exit
  else
    let Ncb := if BG =? 1 then 66 * Z else 50 * Z in
    k0 ← rd (if BG =? 1 then [0; 17; 33; 56] else [0; 13; 25; 43]) rvidx;
    let infoBits := k0 * Z + E in
    let llrLen := if round =? 0 then infoBits else llrLen in
    let infoBits := if Ncb <? infoBits then Ncb else infoBits in
    let llrLen := if llrLen <? infoBits then infoBits else llrLen in
    let sysBits := if BG =? 1 then 22 * Z else 10 * Z in
    let decoderR_lt := float_lt sysBits (infoBits + 2 * Z) in
    let R :=
      if BG =? 2 then if decoderR_lt 3333 then 15 else if decoderR_lt 6667 then 13 else 23
      else if decoderR_lt 6667 then 13
      else if decoderR_lt 8889 then 23
      else 89 in
    Ret (R, llrLen).

(** ** CRCs *)

Definition lenWithCrc (nbSeg len : Z) : Z :=
  if 1 <? nbSeg then Z.quot (len + 24 + 24 * nbSeg) nbSeg
  else len + (if NR_MAX_PDSCH_TBS <? len then 24 else 16).

Definition crcType (nbSeg len : Z) : Z :=
  if 1 <? nbSeg then CRC24_B else if NR_MAX_PDSCH_TBS <? len then CRC24_A else CRC16.
