(* ===== verification/Segmentation.v ===== *)
(** Segmentation of a transport block into code blocks
    (src/openair1/PHY/CODING/nr_segmentation.c), clause 5.2.2 of 38.212. *)

From stdpp Require Import base tactics list numbers.
From Stdlib Require Import ZArith Lia.
From S2P Require Import Prelude Crc.

(** the values behind the pointers [C], [K], [Zout] and [F] *)
Record segmentation := mk_segmentation { seg_C : Z; seg_K : Z; seg_Zout : Z; seg_F : Z }.

(** [(Z >> n) << n], and [2^n] more when that is less than [Z] *)
Definition round_to (n Z : Z) : BinInt.Z :=
  let K := u32 (Z.shiftl (Z.shiftr Z n) n) in if K <? Z then u32 (K + 2 ^ n) else K.

(** the lifting size, [None] is [return -1] *)
Definition lifting_size (Z : Z) : option BinInt.Z :=
  if Z <=? 2 then Some 2
  else if Z <=? 16 then Some Z
  else if Z <=? 32 then Some (round_to 1 Z)
  else if Z <=? 64 then Some (round_to 2 Z)
  else if Z <=? 128 then Some (round_to 3 Z)
  else if Z <=? 256 then Some (round_to 4 Z)
  else if Z <=? 384 then Some (round_to 5 Z)
  else None.

Definition max_block (BG : Z) : Z := if BG =? 1 then 8448 else 3840.

(** [L], [C] and [Bprime] *)
Definition segment_count (Kcb B : Z) : Z * Z * Z :=
  if B <=? Kcb then (0, 1, B)
  else
    let L := 24 in
    let C := Z.quot B (Kcb - L) in
    let C := if u32 ((Kcb - L) * C) <? B then u32 (C + 1) else C in
    (L, C, u32 (B + u32 (C * L))).

Definition info_columns (BG B : Z) : Z :=
  if BG =? 1 then 22 else if 640 <? B then 10 else if 560 <? B then 9 else if 192 <? B then 8 else 6.

(** [while (k < n) { out[k] = in[s]; k++; s++; }], [rounds] is [n - k] *)
Fixpoint copy_input (rounds : nat) (k s : Z) (input out : list Z) : outcome (Z * list Z) :=
  match rounds with
  | O => Ret (s, out)
  | S rounds => x ← rd input s; out ← wr out k x; copy_input rounds (k + 1) (s + 1) input out
  end.

(** [for (k = Kprime >> 3; k < K >> 3; k++) out[k] = 0] *)
Fixpoint zero_filler (rounds : nat) (k : Z) (out : list Z) : outcome (list Z) :=
  match rounds with
  | O => Ret out
  | S rounds => out ← wr out k 0; zero_filler rounds (k + 1) out
  end.

(** byte [i] of an [unsigned int] in memory, little endian *)
Definition byte_of (x i : Z) : Z := Z.land (Z.shiftr x (8 * i)) 255.

Section segmentation.
Context (USE_INTEL_CRC : bool) (T : crc_tables).

(** the body of the loop over the segments *)
Definition fill_segment (C K F Kprime L s : Z) (input out : list Z) : outcome (Z * list Z) :=
  let n := u32 (Kprime - L) in
  '(s, out) ← copy_input (Z.to_nat (Z.shiftr n 3)) 0 s input out;
  out ← (if 1 <? C then
           crc ← crc24b USE_INTEL_CRC T out (int_of_u32 n);
           let crc := Z.shiftr crc 8 in
           out ← wr out (Z.shiftr n 3) (byte_of crc 2);
           out ← wr out (1 + Z.shiftr n 3) (byte_of crc 1);
           wr out (2 + Z.shiftr n 3) (byte_of crc 0)
         else Ret out);
  out ← (if 0 <? F then zero_filler (Z.to_nat (Z.shiftr K 3 - Z.shiftr Kprime 3)) (Z.shiftr Kprime 3) out else Ret out);
  Ret (s, out).

(** [for (r = 0; r < C; r++)], [rounds] is [C - r] *)
Fixpoint fill_segments (rounds : nat) (r C K F Kprime L s : Z) (input : list Z) (outputs : list (list Z))
    : outcome (list (list Z)) :=
  match rounds with
  | O => Ret outputs
  | S rounds =>
      match outputs !! Z.to_nat r with
      | None => Undef
      | Some out =>
          '(s, out) ← fill_segment C K F Kprime L s input out;
          fill_segments rounds (r + 1) C K F Kprime L s input (<[Z.to_nat r := out]> outputs)
      end
  end.

(** [buffers] is [None] when one of the two buffer pointers is null; the result, what
    the pointers point at, and the output buffers *)
Definition nr_segmentation (buffers : option (list Z * list (list Z))) (B : Z) (p : segmentation) (BG : Z)
    : outcome (Z * segmentation * list (list Z)) :=
  let outputs := match buffers with Some (_, outputs) => outputs | None => [] end in
  let '(L, C, Bprime) := segment_count (max_block BG) B in
  let Kprime := Z.quot Bprime C in
  let Kb := info_columns BG B in
  let Z := if 0 <? Kprime %% Kb then Z.quot Kprime Kb + 1 else Z.quot Kprime Kb in
  match lifting_size Z with
  | None => Ret (-1, mk_segmentation C (seg_K p) (seg_Zout p) (seg_F p), outputs)
  | Some Zout =>
      let K := if BG =? 1 then Zout * 22 else Zout * 10 in
      let F := u32 (K - Kprime) in
      outputs ← match buffers with
                | Some (input, outputs) => fill_segments (Z.to_nat C) 0 C K F Kprime L 0 input outputs
                | None => Ret []
                end;
      Ret (Kb, mk_segmentation C K Zout F, outputs)
  end.
End segmentation.
