(* ===== verification/SegmentationSpec.v ===== *)
(** Segmentation: the sizes are those of 38.212 5.2.2, and the segments hold the
    transport block, each with a CRC that checks. *)

From stdpp Require Import base tactics list numbers.
From Stdlib Require Import ZArith Lia.
From S2P Require Import Prelude Arrays Crc CrcSpec CrcSimdSpec CrcCheck Segmentation.

(** ** Sizes *)

(** Table 5.3.2-1: the lifting sizes are [a * 2^j] up to 384 *)
Definition lifting_sizes : list Z :=
  filter (fun z => z <= 384) (a ← [2; 3; 5; 7; 9; 11; 13; 15]; j ← seqZ 0 8; [a * 2 ^ j]).

(** the least lifting size that is not below *)
Definition least_lifting (z Zc : Z) : Prop := Zc ∈ lifting_sizes /\ z <= Zc /\ forall z', z' ∈ lifting_sizes -> z <= z' -> Zc <= z'.

Definition lifting_check (z : Z) : bool :=
  match lifting_size z with
  | Some Zc => bool_decide (Zc ∈ lifting_sizes) && (z <=? Zc) && forallb (fun z' => (z' <? z) || (Zc <=? z')) lifting_sizes &&
      (2 <=? Zc) && (Zc <=? 384) && ((z <=? 1) || (2 * Zc <=? 6 * (z - 1)))
  | None => false
  end.

Lemma lifting_size_ok z : 0 <= z <= 384 ->
  exists Zc, lifting_size z = Some Zc /\ least_lifting z Zc /\ 2 <= Zc <= 384 /\ (2 <= z -> 2 * Zc <= 6 * (z - 1)).
Proof.
  intros Hz. assert (Hc : lifting_check z = true).
  { assert (Hall : forallb lifting_check (seqZ 0 385) = true) by by vm_compute.
    rewrite forallb_forall in Hall. apply Hall, list_elem_of_In, elem_of_seqZ. lia. }
  unfold lifting_check in Hc. destruct (lifting_size z) as [Zc|]; [|done]. exists Zc.
  rewrite !andb_true_iff, forallb_forall, bool_decide_eq_true in Hc. destruct Hc as (((((H1 & H2) & H3) & H4) & H5) & H6).
  split; [done|]. split; [split_and!; [done|lia|]|lia]. intros z' Hz'%list_elem_of_In%H3. lia.
Qed.

(** the number of segments and of the bits of CRCs they carry *)
Lemma segment_count_ok Kcb B : Kcb = 8448 \/ Kcb = 3840 -> 0 < B < 2 ^ 31 ->
  exists C L, segment_count Kcb B = (L, C, B + C * L) /\ 0 < C /\ C * 3816 < B + 3816 /\
    (B <= Kcb /\ C = 1 /\ L = 0 \/ Kcb < B /\ L = 24 /\ 1 < C /\ (C - 1) * (Kcb - 24) < B <= C * (Kcb - 24)).
Proof.
  intros HK HB. unfold segment_count. destruct (Z.leb_spec B Kcb).
  { exists 1, 0. split_and!; [f_equal; lia|lia..]. }
  rewrite Z.quot_div_nonneg by lia. pose proof (Z.div_mod B (Kcb - 24) ltac:(lia)) as Hd.
  pose proof (Z.mod_pos_bound B (Kcb - 24) ltac:(lia)) as Hm. set (q := B / (Kcb - 24)) in *.
  assert (Hq : 0 < q < 2 ^ 31) by nia. rewrite (u32_small ((Kcb - 24) * q)) by lia.
  exists (if (Kcb - 24) * q <? B then q + 1 else q), 24. destruct (Z.ltb_spec ((Kcb - 24) * q) B).
  - rewrite (u32_small (q + 1)) by lia. rewrite (u32_small ((q + 1) * 24)), u32_small by lia. split_and!; [done|lia..].
  - rewrite (u32_small (q * 24)), u32_small by lia. split_and!; [done|lia..].
Qed.

Definition code_block_max (BG : Z) : Z := if BG =? 1 then 22 else 10.

(** what 5.2.2 asks for: [C] segments of [Kprime] bits, as few as fit the code block
    size; the least lifting size for them; [K] columns times that, the rest filler *)
Record segmented (BG B : Z) (p : segmentation) (Kprime L : Z) : Prop := {
  sg_one : B <= max_block BG -> seg_C p = 1 /\ L = 0;
  sg_more : max_block BG < B -> 1 < seg_C p /\ L = 24 /\ (seg_C p - 1) * (max_block BG - 24) < B <= seg_C p * (max_block BG - 24);
  sg_Kprime : Kprime = (B + seg_C p * L) / seg_C p;
  sg_max : 0 < Kprime <= max_block BG;
  sg_lifting : exists z, z * info_columns BG B < Kprime + info_columns BG B /\ Kprime <= z * info_columns BG B /\ least_lifting z (seg_Zout p);
  sg_Zmax : 2 <= seg_Zout p <= 384;
  sg_K : seg_K p = code_block_max BG * seg_Zout p;
  sg_F : seg_F p = seg_K p - Kprime /\ 0 <= seg_F p;
  sg_punctured : 4 < Kprime -> 2 * seg_Zout p < Kprime
}.

Lemma info_columns_range BG B : BG = 1 \/ BG = 2 -> 6 <= info_columns BG B <= code_block_max BG.
Proof. intros HB. unfold info_columns, code_block_max. destruct (BG =? 1); [lia|]. destruct (640 <? B), (560 <? B), (192 <? B); lia. Qed.

(** a segment needs at most 384 columns *)
Lemma columns_max BG B Kprime : BG = 1 \/ BG = 2 -> 0 < Kprime <= max_block BG -> (B <= max_block BG -> Kprime = B) ->
  Kprime <= 384 * info_columns BG B.
Proof.
  unfold max_block, info_columns. intros HBG. destruct HBG as [-> | ->]; cbn [Z.eqb Pos.eqb]; [lia|]. intros HK HB.
  destruct (Z.ltb_spec 640 B), (Z.ltb_spec 560 B), (Z.ltb_spec 192 B); lia.
Qed.

(** rounding up *)
Lemma ceil_columns a k : 0 <= a -> 0 < k -> let z := if 0 <? a %% k then Z.quot a k + 1 else Z.quot a k in
  z * k < a + k /\ a <= z * k.
Proof.
  intros Ha Hk. rewrite rem_mod, Z.quot_div_nonneg by lia. pose proof (Z.div_mod a k ltac:(lia)). pose proof (Z.mod_pos_bound a k Hk).
  destruct (Z.ltb_spec 0 (a mod k)); simpl; lia.
Qed.

(** ** Contents *)

Lemma copy_input_ok rounds : forall a r s input, 0 <= s -> s + Z.of_nat rounds <= zlen input -> Z.of_nat rounds <= zlen r ->
  copy_input rounds (zlen a) s input (a ++ r) =
    Ret (s + Z.of_nat rounds, a ++ take rounds (drop (Z.to_nat s) input) ++ drop rounds r).
Proof.
  induction rounds as [|rounds IH]; intros a r s input Hs Hi Hr; cbn [copy_input].
  { rewrite Z.add_0_r. done. }
  rewrite rd_at, bind_Ret_l by lia. rewrite (wr_offset a r) by (done || apply zlen_pos_not_nil; lia).
  rewrite bind_Ret_l. replace (zlen a + 1) with (zlen (a ++ [at_pos input s])) by apply zlen_snoc.
  rewrite IH; [|lia|lia|rewrite zlen_drop; lia].
  destruct (lookup_lt_is_Some_2 input (Z.to_nat s)) as [x Hx]; [unfold zlen in Hi; lia|].
  rewrite (take_lookup_step _ _ _ _ Hx), drop_drop. unfold at_pos. rewrite (list_lookup_total_correct _ _ _ Hx).
  replace (Z.to_nat (s + 1)) with (S (Z.to_nat s)) by lia. rewrite <- app_assoc. by replace (s + 1 + Z.of_nat rounds) with (s + Z.of_nat (S rounds)) by lia.
Qed.

Lemma zero_filler_ok rounds : forall a r, Z.of_nat rounds <= zlen r ->
  zero_filler rounds (zlen a) (a ++ r) = Ret (a ++ replicate rounds 0 ++ drop rounds r).
Proof.
  induction rounds as [|rounds IH]; intros a r Hr; cbn [zero_filler]; [done|].
  rewrite (wr_offset a r) by (done || apply zlen_pos_not_nil; lia). rewrite bind_Ret_l.
  replace (zlen a + 1) with (zlen (a ++ [0])) by apply zlen_snoc. rewrite IH by (rewrite zlen_drop; lia).
  by rewrite drop_drop, <- app_assoc.
Qed.

Lemma byte_of_ok x i : byte_ok (byte_of x i).
Proof. unfold byte_ok, byte_of. rewrite (Z.land_ones _ 8) by lia. apply Z.mod_pos_bound. lia. Qed.

Lemma byte_of_div x i : 0 <= i -> byte_of x i = x / 2 ^ (8 * i) mod 256.
Proof. intros Hi. unfold byte_of. rewrite (Z.land_ones _ 8), Z.shiftr_div_pow2 by lia. done. Qed.

Lemma be_bytes3 x : 0 <= x < 2 ^ 24 -> be [byte_of x 2; byte_of x 1; byte_of x 0] = x.
Proof.
  intros Hx. rewrite !byte_of_div by lia. cbn. change (2 ^ (8 * 2)) with 65536. change (2 ^ (8 * 1)) with 256. change (2 ^ (8 * 0)) with 1.
  pose proof (Z.div_mod x 65536). pose proof (Z.div_mod x 256). pose proof (Z.div_mod (x / 256) 256). 
  rewrite Z.div_1_r. assert (x / 65536 = x / 256 / 256) as -> by (rewrite Z.div_div by lia; done).
  assert (0 <= x / 256 / 256 < 256). { split; [repeat apply Z.div_pos; lia|]. apply Z.div_lt_upper_bound; [lia|]. apply Z.div_lt_upper_bound; lia. }
  rewrite (Z.mod_small (x / 256 / 256)) by lia. lia.
Qed.

Lemma be_bytes2 x : 0 <= x < 2 ^ 16 -> be [byte_of x 1; byte_of x 0] = x.
Proof.
  intros Hx. rewrite !byte_of_div by lia. cbn. change (2 ^ (8 * 1)) with 256. change (2 ^ (8 * 0)) with 1.
  pose proof (Z.div_mod x 256). rewrite Z.div_1_r. assert (0 <= x / 256 < 256) by (split; [apply Z.div_pos; lia|apply Z.div_lt_upper_bound; lia]).
  rewrite (Z.mod_small (x / 256)) by lia. lia.
Qed.

(** a CRC that was computed over the data before it checks *)
Lemma attached_crc_checks intel T ty k data crcb rest r : tables_ok T -> kind_of_type ty = Some k ->
  remainder k (be data) r -> be crcb = r -> zlen crcb = crc_len ty -> Forall byte_ok (data ++ crcb ++ rest) ->
  8 * (zlen data + crc_len ty) < 2 ^ 31 ->
  (intel = true -> has_simd k = true -> 0 < zlen data -> readable (zlen data) <= zlen (data ++ crcb ++ rest)) ->
  check_crc intel T (data ++ crcb ++ rest) (8 * (zlen data + crc_len ty)) ty = Ret true.
Proof.
  intros HT Hk Hr Hb Hl Hbytes Hi Hs. set (out := data ++ crcb ++ rest) in *. pose proof (zlen_nonneg data). pose proof (zlen_nonneg rest).
  destruct (crc_len_width ty k Hk) as [_ Hcl].
  assert (Hzo : zlen out = zlen data + crc_len ty + zlen rest) by (unfold out; rewrite !zlen_app; lia).
  assert (Hbl : block intel ty k out (zlen data + crc_len ty)).
  { split; [done|lia| |lia]. replace (zlen data + crc_len ty - crc_len ty) with (zlen data) by lia. split; [done|lia|lia|].
    intros H1 H2 _ H4. replace (8 * zlen data / 8) with (zlen data) by (rewrite Z.mul_comm, Z.div_mul; lia). apply Hs; [done..|lia]. }
  destruct (check_crc_eq intel T ty k out (zlen data + crc_len ty) HT Hbl) as (ok & E & r' & Hr' & Hok). rewrite E. f_equal. rewrite Hok.
  replace (zlen data + crc_len ty - crc_len ty) with (zlen data) in * by lia. rewrite to_nat_zlen in *.
  assert (Hd : drop (length data) out = crcb ++ rest) by apply drop_app_length.
  assert (Ht : take (length data) out = data) by apply take_app_length.
  rewrite Ht in Hr'. rewrite Hd, <- Hl, to_nat_zlen, take_app_length, Hb. apply Z.eqb_eq. by apply (remainder_unique k (be data)).
Qed.

(** the sizes as a function of the transport block *)
Definition sizes_of (BG B : Z) : segmentation :=
  let '(L, C, Bprime) := segment_count (max_block BG) B in
  let Kprime := Z.quot Bprime C in
  let Kb := info_columns BG B in
  match lifting_size (if 0 <? Kprime %% Kb then Z.quot Kprime Kb + 1 else Z.quot Kprime Kb) with
  | Some Zc => mk_segmentation C (code_block_max BG * Zc) Zc (code_block_max BG * Zc - Kprime)
  | None => mk_segmentation C 0 0 0
  end.

Section segmentation.
Context (intel : bool) (T : crc_tables).

(** the result is [Kb], never an error; the buffers are filled by the loop *)
Lemma segmentation_sizes_ok buffers B p BG : BG = 1 \/ BG = 2 -> 0 < B < 2 ^ 31 ->
  let p' := sizes_of BG B in exists Kprime L, segmented BG B p' Kprime L /\
    nr_segmentation intel T buffers B p BG =
      (outputs ← match buffers with
                 | Some (input, outputs) =>
                     fill_segments intel T (Z.to_nat (seg_C p')) 0 (seg_C p') (seg_K p') (seg_F p') Kprime L 0 input outputs
                 | None => Ret []
                 end;
       Ret (info_columns BG B, p', outputs)).
Proof.
  intros HBG HB. destruct (segment_count_ok (max_block BG) B) as (C & L & E & HC & HCB & Hcase); [unfold max_block; destruct (BG =? 1); auto|done|].
  assert (Hmb : max_block BG = 8448 \/ max_block BG = 3840) by (unfold max_block; destruct (BG =? 1); auto).
  set (Kprime := (B + C * L) / C). set (Kb := info_columns BG B). pose proof (info_columns_range BG B HBG) as HKb. fold Kb in HKb.
  assert (HKp : 0 < Kprime <= max_block BG /\ (B <= max_block BG -> Kprime = B)).
  { unfold Kprime. destruct Hcase as [(H1 & -> & ->)|(H1 & -> & H3 & H4)].
    - rewrite Z.mul_0_r, Z.add_0_r, Z.div_1_r. lia.
    - replace (B + C * 24) with (B + 24 * C) by lia. rewrite Z.div_add by lia.
      pose proof (Z.div_pos B C ltac:(lia) ltac:(lia)). assert (B / C <= max_block BG - 24) by (apply Z.div_le_upper_bound; lia). lia. }
  destruct HKp as [HKp HKB]. pose proof (columns_max BG B Kprime HBG HKp HKB) as Hcol. fold Kb in Hcol.
  pose proof (ceil_columns Kprime Kb ltac:(lia) ltac:(lia)) as Hz. cbv zeta in Hz.
  set (z := if 0 <? Kprime %% Kb then Z.quot Kprime Kb + 1 else Z.quot Kprime Kb) in *.
  destruct (lifting_size_ok z ltac:(nia)) as (Zc & Hl & Hleast & Hr & H2Z).
  assert (HK : (if BG =? 1 then Zc * 22 else Zc * 10) = code_block_max BG * Zc) by (unfold code_block_max; destruct (BG =? 1); lia).
  assert (HF : Kprime <= code_block_max BG * Zc) by (destruct Hleast as (_ & H & _); nia).
  assert (Hcb : code_block_max BG = 22 \/ code_block_max BG = 10) by (unfold code_block_max; destruct (BG =? 1); auto).
  assert (Hsz : sizes_of BG B = mk_segmentation C (code_block_max BG * Zc) Zc (code_block_max BG * Zc - Kprime)).
  { unfold sizes_of. rewrite E, Z.quot_div_nonneg by nia. fold Kprime Kb z. by rewrite Hl. }
  cbv zeta. rewrite Hsz. exists Kprime, L. split.
  - split; cbn [seg_C seg_K seg_Zout seg_F]; try done; try lia.
    + exists z. by destruct Hz.
    + intros H4. destruct (Z.le_gt_cases 2 z); [nia|]. assert (z = 1) as -> by lia. destruct Hleast as (_ & _ & Hmin).
      specialize (Hmin 2 ltac:(by apply list_elem_of_In; vm_compute; auto) ltac:(lia)). lia.
  - unfold nr_segmentation. rewrite E, Z.quot_div_nonneg by nia. fold Kprime Kb z. rewrite Hl, HK, u32_small by nia. done.
Qed.

(** The segment of [n] bytes of [input] from [s] on: the bytes, the CRC over them if
    the transport block has more than one segment, zeros up to the size of the code
    block, and the rest of the buffer as it was. *)
Definition segment_of (C K n : Z) (input : list Z) (s : Z) (out out' : list Z) : Prop :=
  let data := take (Z.to_nat n) (drop (Z.to_nat s) input) in
  exists crcb, out' = data ++ crcb ++ replicate (Z.to_nat (K / 8 - n - zlen crcb)) 0 ++ drop (Z.to_nat (K / 8)) out /\
    Forall byte_ok crcb /\
    if 1 <? C then zlen crcb = 3 /\ remainder K24b (be data) (be crcb) else crcb = [].

(** what the segments need: whole bytes, and buffers that hold a code block and what
    the vector version of the CRC reads *)
Record segment_room (C K n : Z) (out : list Z) : Prop := {
  sr_bytes : Forall byte_ok out;
  sr_len : K / 8 <= zlen out;
  sr_simd : intel = true -> 1 < C -> 0 < n -> readable n <= zlen out }.

Lemma mul8_div x : 8 * x / 8 = x.
Proof. rewrite Z.mul_comm. by apply Z.div_mul. Qed.

Lemma shiftr3 x : Z.shiftr x 3 = x / 8.
Proof. by rewrite Z.shiftr_div_pow2 by lia. Qed.

Lemma fill_segment_ok C K n L F s input out : tables_ok T ->
  L = (if 1 <? C then 3 else 0) -> 0 <= n -> 8 * (n + L) <= K < 2 ^ 31 -> F = K - 8 * (n + L) -> 0 <= s -> s + n <= zlen input ->
  Forall byte_ok input -> segment_room C K n out ->
  exists out', fill_segment intel T C K F (8 * (n + L)) (8 * L) s input out = Ret (s + n, out') /\ segment_of C K n input s out out'.
Proof.
  intros HT HL Hn HK HF Hs Hi Hbi [Hbo Hlen Hsimd]. unfold fill_segment.
  assert (HL3 : L = 0 \/ L = 3) by (destruct (1 <? C); auto).
  replace (8 * (n + L) - 8 * L) with (8 * n) by lia. rewrite (u32_small (8 * n)) by lia. rewrite !shiftr3, !mul8_div.
  assert (HK8 : n + L <= K / 8) by (apply Z.div_le_lower_bound; lia).
  pose proof (copy_input_ok (Z.to_nat n) [] out s input Hs ltac:(lia) ltac:(lia)) as Hcopy. cbn [app] in Hcopy. rewrite zlen_nil, Z2Nat.id in Hcopy by lia.
  rewrite Hcopy, bind_Ret_l. set (data := take (Z.to_nat n) (drop (Z.to_nat s) input)). set (r := drop (Z.to_nat n) out).
  assert (Hzd : zlen data = n) by (unfold data; rewrite zlen_take, zlen_drop; lia).
  assert (Hzr : zlen r = zlen out - n) by (unfold r; rewrite zlen_drop; lia).
  assert (Hbd : Forall byte_ok data) by (by apply Forall_take, Forall_drop).
  assert (Hcrc : exists crcb, (if 1 <? C then
           crc ← crc24b intel T (data ++ r) (int_of_u32 (8 * n));
           out ← wr (data ++ r) n (byte_of (Z.shiftr crc 8) 2);
           out ← wr out (1 + n) (byte_of (Z.shiftr crc 8) 1);
           wr out (2 + n) (byte_of (Z.shiftr crc 8) 0)
         else Ret (data ++ r)) = Ret ((data ++ crcb) ++ drop (Z.to_nat L) r) /\ zlen crcb = L /\ Forall byte_ok crcb /\
         if 1 <? C then zlen crcb = 3 /\ remainder K24b (be data) (be crcb) else crcb = []).
  { destruct (Z.ltb_spec 1 C) as [H1C|]; [|exists []; subst L; rewrite app_nil_r; split_and!; done || constructor].
    assert (Hh : holds intel K24b (data ++ r) (8 * n)).
    { split; [apply Forall_app; split; [done|by apply Forall_drop]|rewrite zlen_app; lia|lia|].
      intros H2 _ _ H4. rewrite mul8_div, zlen_app, Hzd, Hzr. specialize (Hsimd H2 H1C ltac:(lia)). lia. }
    destruct (crc_of_ok intel T K24b (data ++ r) (8 * n) HT Hh) as (crc & Ec & Hc). cbn [crc_of] in Ec.
    assert (Hm : msg (data ++ r) (8 * n) = be data).
    { rewrite msg_bytes by (rewrite ?zlen_app; lia). f_equal. rewrite <- Hzd, to_nat_zlen. apply take_app_length. }
    rewrite Hm in Hc. apply is_crc_remainder in Hc as (x & Hx1 & Hx2 & Hx3); [|by apply be_nonneg]. change (32 - width K24b) with 8 in Hx2.
    assert (Hint : int_of_u32 (8 * n) = 8 * n) by (unfold int_of_u32; rewrite u32_small, (proj2 (Z.ltb_lt _ _)) by lia; done).
    rewrite Hint, Ec, bind_Ret_l, <- Hx2. 
    rewrite (wr_offset data) by (lia || (apply zlen_pos_not_nil; lia)). rewrite bind_Ret_l.
    rewrite (wr_offset (data ++ _)) by ((rewrite ?zlen_snoc; lia) || (apply zlen_pos_not_nil; rewrite zlen_drop; lia)).
    rewrite bind_Ret_l, (wr_offset ((data ++ _) ++ _)) by ((rewrite ?zlen_snoc; lia) || (apply zlen_pos_not_nil; rewrite !zlen_drop; lia)).
    exists [byte_of x 2; byte_of x 1; byte_of x 0]. split; [|split; [by subst L|split; [repeat constructor; apply byte_of_ok|]]].
    - rewrite !drop_drop, <- !app_assoc. by subst L.
    - split; [done|]. rewrite be_bytes3; [done|]. by destruct Hx3. }
  destruct Hcrc as (crcb & Ecrc & Hzc & Hbc & Hrem). rewrite Ecrc, bind_Ret_l. exists (data ++ crcb ++ replicate (Z.to_nat (K / 8 - n - L)) 0 ++ drop (Z.to_nat (K / 8)) out).
  split; [|exists crcb; split_and!; [by rewrite Hzc|done|done]].
  destruct (Z.ltb_spec 0 F) as [HF0|HF0].
  - replace (n + L) with (zlen (data ++ crcb)) by (rewrite zlen_app; lia).
    rewrite zero_filler_ok by (rewrite zlen_app, zlen_drop; lia). rewrite bind_Ret_l. unfold r. rewrite !drop_drop, <- app_assoc, zlen_app.
    rewrite Hzd, Hzc. do 6 f_equal; lia.
  - assert (K / 8 = n + L) as HKe by (replace K with (8 * (n + L)) by lia; apply mul8_div). rewrite HKe, bind_Ret_l.
    replace (n + L - n - L) with 0 by lia. cbn [Z.to_nat replicate app]. unfold r. rewrite drop_drop, <- app_assoc. by replace (Z.to_nat n + Z.to_nat L)%nat with (Z.to_nat (n + L)) by lia.
Qed.

Lemma fill_segments_ok C K n L F input rounds : forall r outputs, tables_ok T ->
  L = (if 1 <? C then 3 else 0) -> 0 <= n -> 8 * (n + L) <= K < 2 ^ 31 -> F = K - 8 * (n + L) ->
  (r + rounds) * n <= zlen input -> Forall byte_ok input -> r + rounds <= zlen outputs -> 0 <= r -> 0 <= rounds ->
  Forall (segment_room C K n) outputs ->
  exists outputs', fill_segments intel T (Z.to_nat rounds) r C K F (8 * (n + L)) (8 * L) (r * n) input outputs = Ret outputs' /\
    length outputs' = length outputs /\
    forall i out, outputs !! Z.to_nat i = Some out -> 0 <= i ->
      if bool_decide (r <= i < r + rounds) then exists out', outputs' !! Z.to_nat i = Some out' /\ segment_of C K n input (i * n) out out'
      else outputs' !! Z.to_nat i = Some out.
Proof.
  remember (Z.to_nat rounds) as m eqn:Em. revert rounds Em. induction m as [|m IH]; intros rounds Em r outputs HT HL Hn HK HF Hi Hbi Ho Hr Hro Hroom; cbn [fill_segments].
  - exists outputs. split_and!; [done..|]. intros i out Hout Hi0. rewrite bool_decide_eq_false_2 by lia. done.
  - destruct (lookup_lt_is_Some_2 outputs (Z.to_nat r)) as [o Hor]; [unfold zlen in Ho; lia|]. rewrite Hor.
    destruct (fill_segment_ok C K n L F (r * n) input o) as (o' & E1 & E2); [done..|nia|nia|done| |].
    { by apply (proj1 (Forall_lookup _ _) Hroom _ _ Hor). }
    rewrite E1, bind_Ret_l. replace (r * n + n) with ((r + 1) * n) by lia.
    destruct (IH (rounds - 1) ltac:(lia) (r + 1) (<[Z.to_nat r := o']> outputs)) as (outs & D1 & D2 & D3); try done; try lia.
    { unfold zlen in *. rewrite length_insert. lia. }
    { apply Forall_insert; [done|]. destruct (proj1 (Forall_lookup _ _) Hroom _ _ Hor) as [B1 B2 B3].
      destruct E2 as (crcb & -> & Hc & Hif).
      assert (Hzo : zlen (take (Z.to_nat n) (drop (Z.to_nat (r * n)) input) ++ crcb ++
          replicate (Z.to_nat (K / 8 - n - zlen crcb)) 0 ++ drop (Z.to_nat (K / 8)) o) = zlen o).
      { assert (n + L <= K / 8) by (apply Z.div_le_lower_bound; lia).
        assert (zlen crcb = L) by (destruct (1 <? C); [lia|by subst]).
        assert (0 <= r * n) by nia. assert (r * n + n <= zlen input) by nia.
        rewrite !zlen_app, zlen_take, !zlen_drop. rewrite zlen_replicate_Z by lia. pose proof (zlen_nonneg crcb). lia. }
      split; [|lia|intros; rewrite Hzo; auto]. rewrite !Forall_app. split_and!; [by apply Forall_take, Forall_drop|done|by apply Forall_replicate|by apply Forall_drop]. }
    exists outs. split_and!; [done|by rewrite D2, length_insert|]. intros i out Hout Hi0. destruct (decide (i = r)) as [->|Hne].
    + rewrite bool_decide_eq_true_2 by lia. assert (out = o) as -> by congruence. exists o'. split; [|done].
      specialize (D3 r o' ltac:(apply list_lookup_insert_eq; by eapply lookup_lt_Some) ltac:(lia)).
      by rewrite bool_decide_eq_false_2 in D3 by lia.
    + specialize (D3 i out ltac:(rewrite list_lookup_insert_ne by lia; done) Hi0). destruct (decide (r <= i < r + rounds)).
      * rewrite bool_decide_eq_true_2 in D3 |- * by lia. done.
      * rewrite bool_decide_eq_false_2 in D3 |- * by lia. done.
Qed.
End segmentation.

(** the number of segments of a transport block *)
Definition segments_of (BG B : Z) : Z := (segment_count (max_block BG) B).1.2.

Lemma segmented_count BG B p Kprime L : BG = 1 \/ BG = 2 -> 0 < B < 2 ^ 31 -> segmented BG B p Kprime L -> seg_C p = segments_of BG B.
Proof.
  intros HBG HB Hs. unfold segments_of.
  destruct (segment_count_ok (max_block BG) B) as (C & L' & -> & HC & _ & Hcase); [unfold max_block; destruct (BG =? 1); auto|done|]. simpl.
  destruct Hs as [S1 S2 _ _ _ _ _ _ _]. assert (3816 <= max_block BG - 24) by (unfold max_block; destruct (BG =? 1); lia).
  destruct Hcase as [(H1 & -> & _)|(H1 & _ & _ & H2)]; [by apply S1|]. destruct (S2 H1) as (_ & _ & H3). nia.
Qed.

(** the transport block put together again *)
Definition reassembled (C n : Z) (outs : list (list Z)) : list Z := concat (map (take (Z.to_nat n)) (take (Z.to_nat C) outs)).

Lemma reassembled_ok C K n input outputs outs : 0 <= C <= zlen outs -> 0 <= n -> C * n <= zlen input -> length outs = length outputs ->
  (forall i out, outputs !! Z.to_nat i = Some out -> 0 <= i < C ->
    exists out', outs !! Z.to_nat i = Some out' /\ segment_of C K n input (i * n) out out') ->
  reassembled C n outs = take (Z.to_nat (C * n)) input.
Proof.
  intros HC Hn Hi Hl H. unfold reassembled.
  assert (Hm : forall m : nat, Z.of_nat m <= C -> concat (map (take (Z.to_nat n)) (take m outs)) = take (Z.to_nat (Z.of_nat m * n)) input).
  { induction m as [|m IH]; intros HmC; [done|].
    destruct (lookup_lt_is_Some_2 outputs m) as [out Hout]; [unfold zlen in HC; lia|].
    destruct (H (Z.of_nat m) out) as (out' & Ho' & crcb & Hseg & _); [by rewrite Nat2Z.id|lia|]. rewrite Nat2Z.id in Ho'.
    rewrite (take_S_r _ _ _ Ho'), map_app, concat_app, IH by lia. cbn [map concat]. rewrite app_nil_r, Hseg.
    assert (Hd : length (take (Z.to_nat n) (drop (Z.to_nat (Z.of_nat m * n)) input)) = Z.to_nat n).
    { rewrite length_take, length_drop. unfold zlen in Hi. nia. }
    rewrite take_app_length' by done. rewrite take_take_drop. f_equal. lia. }
  rewrite Hm by lia. f_equal. lia.
Qed.

(** a segment with a CRC checks *)
Lemma segment_checks intel T C K n input s out out' : tables_ok T -> 1 < C -> 0 <= n -> 8 * (n + 3) <= K < 2 ^ 31 -> 0 <= s ->
  s + n <= zlen input -> Forall byte_ok input -> segment_room intel C K n out -> segment_of C K n input s out out' ->
  check_crc intel T out' (8 * (n + 3)) CRC24_B = Ret true.
Proof.
  intros HT HC Hn HK Hs Hi Hbi [B1 B2 B3] (crcb & -> & Hbc & Hif). rewrite (proj2 (Z.ltb_lt _ _)) in Hif by done. destruct Hif as [Hzc Hrem].
  set (data := take (Z.to_nat n) (drop (Z.to_nat s) input)) in *. set (rest := replicate _ 0 ++ drop _ out).
  assert (Hzd : zlen data = n) by (unfold data; rewrite zlen_take, zlen_drop; lia).
  assert (HK8 : n + 3 <= K / 8) by (apply Z.div_le_lower_bound; lia).
  assert (Hzo : zlen (data ++ crcb ++ rest) = zlen out).
  { unfold rest. rewrite !zlen_app, zlen_drop, zlen_replicate_Z by lia. lia. }
  rewrite <- Hzd at 1. apply (attached_crc_checks intel T CRC24_B K24b data crcb rest (be crcb)); try done.
  - unfold rest. rewrite !Forall_app. split_and!; [by apply Forall_take, Forall_drop|done|by apply Forall_replicate|by apply Forall_drop].
  - change (crc_len CRC24_B) with 3. lia.
  - intros H1 _ H2. rewrite Hzo, Hzd in *. by apply B3.
Qed.

Lemma readable_le n m : n <= m -> 32 <= m -> readable n <= m.
Proof. unfold readable. destruct (n <=? 12); lia. Qed.

(** what [nr_segmentation] leaves, for a transport block of whole bytes that splits
    into segments of whole bytes *)
Lemma segmentation_contents intel T BG B p input outputs : tables_ok T -> BG = 1 \/ BG = 2 -> 0 < B < 2 ^ 31 ->
  B mod (8 * segments_of BG B) = 0 -> Forall byte_ok input -> B <= 8 * zlen input -> segments_of BG B <= zlen outputs ->
  Forall (fun out => Forall byte_ok out /\ 1056 <= zlen out) outputs ->
  let p' := sizes_of BG B in exists n L outs, segmented BG B p' (8 * (n + L)) (8 * L) /\
    nr_segmentation intel T (Some (input, outputs)) B p BG = Ret (info_columns BG B, p', outs) /\
    0 <= n <= 1056 /\ L = (if 1 <? seg_C p' then 3 else 0) /\ seg_C p' * n = B / 8 /\ seg_C p' = segments_of BG B /\
    Forall (segment_room intel (seg_C p') (seg_K p') n) outputs /\ length outs = length outputs /\
    forall i out, outputs !! Z.to_nat i = Some out -> 0 <= i ->
      if bool_decide (i < seg_C p') then exists out', outs !! Z.to_nat i = Some out' /\ segment_of (seg_C p') (seg_K p') n input (i * n) out out'
      else outs !! Z.to_nat i = Some out.
Proof.
  intros HT HBG HB Hdiv Hbi Hzi Ho Hout.
  destruct (segmentation_sizes_ok intel T (Some (input, outputs)) B p BG HBG HB) as (Kprime & L' & Hseg & E). set (p' := sizes_of BG B) in *.
  pose proof (segmented_count _ _ _ _ _ HBG HB Hseg) as HC. set (C := seg_C p') in *. rewrite <- HC in Hdiv, Ho.
  assert (HL : exists L, L' = 8 * L /\ L = (if 1 <? C then 3 else 0) /\ 0 < C /\ 0 <= L).
  { destruct Hseg as [S1 S2 _ _ _ _ _ _ _]. fold C in S1, S2. destruct (Z.le_gt_cases B (max_block BG)) as [Hle|Hgt].
    - destruct (S1 Hle) as [-> ->]. by exists 0.
    - destruct (S2 Hgt) as (H1 & -> & _). exists 3. rewrite (proj2 (Z.ltb_lt 1 C)) by lia. split_and!; [done..|lia|lia]. }
  destruct HL as (L & -> & HL & HC0 & HL0).
  pose proof (Z.div_mod B (8 * C) ltac:(lia)) as Hd. rewrite Hdiv, Z.add_0_r in Hd. set (n := B / (8 * C)) in *.
  assert (HKp : Kprime = 8 * (n + L)).
  { rewrite (sg_Kprime _ _ _ _ _ Hseg). fold C. symmetry. apply Z.div_unique with 0; lia. }
  assert (Hn : 0 <= n) by (apply Z.div_pos; lia). subst Kprime. destruct (sg_F _ _ _ _ _ Hseg) as [HF HF0].
  pose proof (sg_max _ _ _ _ _ Hseg) as Hmax. pose proof (sg_Zmax _ _ _ _ _ Hseg) as HZ. pose proof (sg_K _ _ _ _ _ Hseg) as HK.
  assert (Hmb : max_block BG <= 8448) by (unfold max_block; destruct (BG =? 1); lia).
  assert (HKmax : seg_K p' <= 8448) by (rewrite HK; unfold code_block_max; destruct (BG =? 1); lia).
  assert (HCn : C * n = B / 8) by (apply Z.div_unique with 0; lia).
  assert (Hn2 : n <= 1056) by lia.
  assert (Hroom : Forall (segment_room intel C (seg_K p') n) outputs).
  { eapply list.Forall_impl; [exact Hout|]. intros o [Hbo Hzo]. split; [done| |intros; apply readable_le; lia].
    assert (seg_K p' / 8 <= 8448 / 8) by (apply Z.div_le_mono; lia). change (8448 / 8) with 1056 in *. lia. }
  destruct (fill_segments_ok intel T C (seg_K p') n L (seg_F p') input C 0 outputs) as (outs & E1 & E2 & E3); try done; try lia.
  exists n, L, outs. change (0 * n) with 0 in E1. rewrite E. fold C. rewrite E1, bind_Ret_l. split_and!; try done. intros i out Hio Hi0. specialize (E3 i out Hio Hi0).
  destruct (decide (i < C)).
  - rewrite bool_decide_eq_true_2 in E3 |- * by lia. done.
  - rewrite bool_decide_eq_false_2 in E3 |- * by lia. done.
Qed.

Lemma tables_init T : crcTableInit zero_tables = Ret T -> tables_ok T.
Proof. intros H. destruct crcTableInit_ok as (T' & H' & _ & Hok). congruence. Qed.

(** C19: segmentation is right for every transport block of whole bytes that splits
    into segments of whole bytes: it never fails, the number of segments, the lifting
    size, the block size and the filler are those of 38.212 5.2.2 ([segmented]: as few
    segments as fit, the least lifting size that holds them), and the segments without
    their CRCs put together are the transport block. When there is more than one
    segment, each ends with a CRC that [check_crc] accepts. *)
Theorem segmentation_roundtrip intel T BG B p input outputs : crcTableInit zero_tables = Ret T -> BG = 1 \/ BG = 2 -> 0 < B < 2 ^ 31 ->
  B mod (8 * segments_of BG B) = 0 -> Forall byte_ok input -> B <= 8 * zlen input -> segments_of BG B <= zlen outputs ->
  Forall (fun out => Forall byte_ok out /\ 1056 <= zlen out) outputs ->
  exists p' Kprime L outs, segmented BG B p' Kprime L /\
    nr_segmentation intel T (Some (input, outputs)) B p BG = Ret (info_columns BG B, p', outs) /\
    reassembled (seg_C p') ((Kprime - L) / 8) outs = take (Z.to_nat (B / 8)) input /\
    (1 < seg_C p' -> forall r out, 0 <= r < seg_C p' -> outs !! Z.to_nat r = Some out -> check_crc intel T out Kprime CRC24_B = Ret true).
Proof.
  intros HT%tables_init HBG HB Hdiv Hbi Hzi Ho Hout.
  destruct (segmentation_contents intel T BG B p input outputs HT HBG HB Hdiv Hbi Hzi Ho Hout)
    as (n & L & outs & Hseg & E & Hn & HL & HCn & HC & Hroom & Hlen & Hsegs).
  set (p' := sizes_of BG B) in *. exists p', (8 * (n + L)), (8 * L), outs.
  assert (HC0 : 0 < seg_C p') by (destruct Hseg as [S1 S2 _ _ _ _ _ _ _]; destruct (Z.le_gt_cases B (max_block BG)) as [Hle|Hgt]; [destruct (S1 Hle); lia|destruct (S2 Hgt); lia]).
  assert (Hin : seg_C p' * n <= zlen input) by (rewrite HCn; apply Z.div_le_upper_bound; lia).
  split_and!; [done..| |].
  - replace (8 * (n + L) - 8 * L) with (8 * n) by lia. rewrite mul8_div, <- HCn.
    apply (reassembled_ok _ (seg_K p') n input outputs); [unfold zlen in *; lia|lia|done|done|].
    intros i out Hio Hi. specialize (Hsegs i out Hio ltac:(lia)). by rewrite bool_decide_eq_true_2 in Hsegs by lia.
  - intros HC1 r out' Hr Ho'. rewrite (proj2 (Z.ltb_lt 1 _)) in HL by done. subst L.
    destruct (lookup_lt_is_Some_2 outputs (Z.to_nat r)) as [out Hout']; [unfold zlen in *; lia|].
    specialize (Hsegs r out Hout' ltac:(lia)). rewrite bool_decide_eq_true_2 in Hsegs by lia. destruct Hsegs as (o & Hoo & Hs).
    assert (o = out') as -> by congruence. destruct (sg_F _ _ _ _ _ Hseg) as [HF1 HF2]. pose proof (sg_K _ _ _ _ _ Hseg) as HK. pose proof (sg_Zmax _ _ _ _ _ Hseg).
    assert (seg_K p' < 2 ^ 31) by (rewrite HK; unfold code_block_max; destruct (BG =? 1); lia).
    eapply (segment_checks intel T (seg_C p') (seg_K p') n input (r * n) out); (done || (by apply (proj1 (Forall_lookup _ _) Hroom _ _ Hout')) || nia).
Qed.

Lemma buffer_room n x : 0 <= x < 256 -> 1056 <= Z.of_nat n -> Forall byte_ok (replicate n x) /\ 1056 <= zlen (replicate n x).
Proof. intros Hx Hn. split; [by apply Forall_replicate|]. unfold zlen. by rewrite length_replicate. Qed.

Lemma segmentation_roundtrip_witness :
  exists p' Kprime L outs, segmented 2 7632 p' Kprime L /\
    nr_segmentation true init_tables (Some (demo_bytes 954, [replicate 1056 0; replicate 1056 255])) 7632 (mk_segmentation 0 0 0 0) 2 =
      Ret (info_columns 2 7632, p', outs) /\
    reassembled (seg_C p') ((Kprime - L) / 8) outs = take (Z.to_nat (7632 / 8)) (demo_bytes 954) /\
    (1 < seg_C p' -> forall r out, 0 <= r < seg_C p' -> outs !! Z.to_nat r = Some out -> check_crc true init_tables out Kprime CRC24_B = Ret true).
Proof.
  apply segmentation_roundtrip; [|by right|lia|reflexivity|apply demo_bytes_ok|by vm_compute|by vm_compute|].
  - destruct crcTableInit_ok as (T & H & -> & _). exact H.
  - constructor; [by apply buffer_room|]. constructor; [by apply buffer_room|constructor].
Defined.
