(* ===== verification/TbsSpec.v ===== *)
(** Transport block sizes: every size splits into segments of whole bytes, and the
    coded bits are shared out among the segments without loss. *)

From stdpp Require Import base tactics list numbers.
From Stdlib Require Import ZArith Lia.
From S2P Require Import Prelude Crc Tbs Segmentation SegmentationSpec.

(** ** Rounding *)

Lemma CEILIDIV_ok a b : 0 <= a -> 0 < b -> a + b < 2 ^ 32 -> a <= b * CEILIDIV a b < a + b /\ 0 <= CEILIDIV a b.
Proof.
  intros Ha Hb Hw. unfold CEILIDIV. rewrite u32_small, Z.quot_div_nonneg by lia.
  pose proof (Z.div_mod (a + b - 1) b ltac:(lia)). pose proof (Z.mod_pos_bound (a + b - 1) b Hb).
  pose proof (Z.div_pos (a + b - 1) b ltac:(lia) Hb). lia.
Qed.

Lemma tbs_of_segments_ok C Np : 0 < C < 2 ^ 20 -> 0 <= Np < 2 ^ 30 ->
  let B := tbs_of_segments C Np + 24 in B mod (8 * C) = 0 /\ Np + 24 <= B < Np + 24 + 8 * C.
Proof.
  intros HC HN. cbv zeta. unfold tbs_of_segments. rewrite Z.shiftl_mul_pow2 by lia. change (2 ^ 3) with 8. rewrite (u32_small (Np + 24)) by lia.
  destruct (CEILIDIV_ok (Np + 24) (C * 8)) as [H1 H2]; [lia..|]. set (q := CEILIDIV (Np + 24) (C * 8)) in *.
  rewrite u32_small by lia. replace (C * 8 * q - 24 + 24) with (q * (8 * C)) by lia. rewrite Z.mod_mul by lia. lia.
Qed.

(** the size of segments of at most [m] bits, [m] whole bytes: they are as many as the
    segmentation makes *)
Lemma tbs_split m Np : m = 3816 \/ m = 8424 -> m < Np -> Np < 2 ^ 28 -> let C := CEILIDIV (u32 (Np + 24)) m in
  let B := tbs_of_segments C Np + 24 in 1 < C /\ B mod (8 * C) = 0 /\ (C - 1) * m < B <= C * m /\ Np + 24 <= B < 2 ^ 29.
Proof.
  intros Hm HN1 HN2. cbv zeta. rewrite u32_small by lia. destruct (CEILIDIV_ok (Np + 24) m) as [H1 H2]; [lia..|]. set (C := CEILIDIV (Np + 24) m) in *.
  assert (HC : 1 < C < 2 ^ 20) by nia. destruct (tbs_of_segments_ok C Np ltac:(lia) ltac:(lia)) as [D1 D2].
  set (B := tbs_of_segments C Np + 24) in *. split_and!; try lia.
  (* C * m is a multiple of 8 * C as well *)
  destruct (proj1 (Z.mod_divide B (8 * C) ltac:(lia)) D1) as [x Hx]. assert (exists y, m = 8 * y) as [y Hy] by (destruct Hm as [-> | ->]; [by exists 477|by exists 1053]).
  assert (x < y + 1) by nia. nia.
Qed.

Lemma segments_of_max BG B C : BG = 1 \/ BG = 2 -> 0 < B < 2 ^ 31 -> max_block BG < B -> (C - 1) * (max_block BG - 24) < B <= C * (max_block BG - 24) ->
  segments_of BG B = C.
Proof.
  intros HBG HB Hgt HC. unfold segments_of.
  destruct (segment_count_ok (max_block BG) B) as (C' & L' & -> & HC' & _ & Hcase); [unfold max_block; destruct (BG =? 1); auto|done|]. simpl.
  assert (3816 <= max_block BG - 24) by (unfold max_block; destruct (BG =? 1); lia). nia.
Qed.

Lemma segments_of_one BG B : B <= max_block BG -> segments_of BG B = 1.
Proof. intros H. unfold segments_of, segment_count. by rewrite (proj2 (Z.leb_le _ _)). Qed.

(** ** Base graph *)

(** [R] is the code rate times 10240, at most one *)

(** a test of every number in a range *)
Fixpoint all_from (n : nat) (i : Z) (p : Z -> bool) : bool :=
  match n with O => true | S n => p i && all_from n (i + 1) p end.

Lemma all_from_ok n p : forall i j, all_from n i p = true -> i <= j < i + Z.of_nat n -> p j = true.
Proof.
  induction n as [|n IH]; intros i j H Hj; [lia|]. cbn [all_from] in H. apply andb_true_iff in H as [H1 H2].
  destruct (Z.eq_dec i j) as [<-|]; [done|]. apply (IH (i + 1)); [done|lia].
Qed.

Lemma low_rate_exact R : 0 <= R <= 10240 -> float_le R 10240 2500 = (R <=? 2560).
Proof.
  intros HR. apply Bool.eqb_prop.
  apply (all_from_ok (Z.to_nat 10241) (fun R => Bool.eqb (float_le R 10240 2500) (R <=? 2560)) 0); [by vm_compute|lia].
Qed.

Lemma get_BG_cases A R : get_BG A R = 1 \/ get_BG A R = 2.
Proof. unfold get_BG. destruct (_ || _); auto. Qed.

Lemma get_BG_large A R : 0 <= R <= 10240 -> NR_MAX_PDSCH_TBS < A -> get_BG A R = if R <=? 2560 then 2 else 1.
Proof.
  unfold get_BG, NR_MAX_PDSCH_TBS. intros HR HA. rewrite (proj2 (Z.leb_gt A 292)), (proj2 (Z.leb_gt A 3824)), low_rate_exact by lia. done.
Qed.

(** ** Sizes *)

Lemma first_at_least_ok table x m : In m table -> x <= m -> In (first_at_least table x) table /\ x <= first_at_least table x.
Proof.
  induction table as [|t table IH]; [done|]. intros Hin Hx. cbn [first_at_least]. destruct (Z.leb_spec x t); [split; [by left|done]|].
  destruct Hin as [->|Hin]; [lia|]. destruct (IH Hin Hx). split; [by right|done].
Qed.

Lemma Tbstable_check : Forall (fun t => t mod 8 = 0 /\ 24 <= t <= 3824) Tbstable_nr.
Proof. repeat (constructor; [split; [done|lia]|]). constructor. Qed.

Lemma shift_down_le x n : 0 <= n -> 0 <= x -> 0 <= Z.shiftl (Z.shiftr x n) n <= x.
Proof.
  intros Hn Hx. rewrite Z.shiftl_mul_pow2, Z.shiftr_div_pow2 by lia. pose proof (Z.mul_div_le x (2 ^ n) ltac:(lia)).
  pose proof (Z.div_pos x (2 ^ n) Hx ltac:(lia)). nia.
Qed.

Lemma ROUNDIDIV_shift a n : 0 <= n -> 0 <= a < 2 ^ 28 -> 2 ^ n <= a -> 0 <= Z.shiftl (ROUNDIDIV a (Z.shiftl 1 n)) n <= 2 * a.
Proof.
  intros Hn Ha Hb. unfold ROUNDIDIV. rewrite !Z.shiftl_mul_pow2 by lia. set (b := 2 ^ n) in *. assert (0 < b) by (unfold b; lia).
  rewrite !u32_small by (rewrite ?u32_small; lia). rewrite Z.quot_div_nonneg by lia.
  pose proof (Z.mul_div_le (a * 2 ^ 1 + 1 * b) (1 * b * 2 ^ 1) ltac:(lia)). pose proof (Z.div_pos (a * 2 ^ 1 + 1 * b) (1 * b * 2 ^ 1) ltac:(lia) ltac:(lia)). nia.
Qed.

Lemma tbs_small low Ninfo : 0 <= Ninfo <= NR_MAX_PDSCH_TBS ->
  let A := tbs_of_info low Ninfo in A mod 8 = 0 /\ 24 <= A <= NR_MAX_PDSCH_TBS.
Proof.
  intros HN. cbv zeta. unfold tbs_of_info. rewrite (proj2 (Z.leb_le _ _)) by lia. set (n := if Ninfo =? 0 then 3 else _).
  assert (Hn : 0 <= n) by (unfold n; destruct (Ninfo =? 0); lia). pose proof (shift_down_le Ninfo n Hn ltac:(lia)) as Hs. unfold NR_MAX_PDSCH_TBS in *.
  rewrite u32_small by lia. destruct (first_at_least_ok Tbstable_nr (Z.max 24 (Z.shiftl (Z.shiftr Ninfo n) n)) 3824) as [H1 _]; [by vm_compute; intuition|lia|].
  apply list_elem_of_In in H1. by apply (proj1 (list.Forall_forall _ _) Tbstable_check).
Qed.

Lemma tbs_large low Ninfo : NR_MAX_PDSCH_TBS < Ninfo < 2 ^ 26 ->
  let A := tbs_of_info low Ninfo in let BG := if low then 2 else 1 in let B := A + 24 in
  NR_MAX_PDSCH_TBS < A < 2 ^ 29 /\ B mod (8 * segments_of BG B) = 0 /\ A mod 8 = 0.
Proof.
  intros HN. cbv zeta. unfold tbs_of_info, NR_MAX_PDSCH_TBS in *. rewrite (proj2 (Z.leb_gt Ninfo 3824)) by lia.
  set (n := Z.log2 (Ninfo - 24) - 5). assert (Hlog : 11 <= Z.log2 (Ninfo - 24)) by (apply Z.log2_le_pow2; lia).
  assert (Hpow : 2 ^ n <= Ninfo - 24). { transitivity (2 ^ Z.log2 (Ninfo - 24)); [apply Z.pow_le_mono_r; lia|]. apply Z.log2_spec. lia. }
  pose proof (ROUNDIDIV_shift (Ninfo - 24) n ltac:(lia) ltac:(lia) Hpow) as Hr. rewrite (u32_small (Z.shiftl _ n)) by lia.
  set (Np := Z.max 3840 _). assert (HNp : 3840 <= Np < 2 ^ 28) by (unfold Np; lia).
  destruct low.
  - destruct (tbs_split 3816 Np) as (H1 & H2 & H3 & H4); [auto|lia|lia|]. set (C := CEILIDIV (u32 (Np + 24)) 3816) in *. set (A := tbs_of_segments C Np) in *.
    rewrite (segments_of_max 2 (A + 24) C) by (auto; unfold max_block; simpl; lia). split_and!; [lia|lia|done|].
    destruct (proj1 (Z.mod_divide (A + 24) (8 * C) ltac:(lia)) H2) as [x Hx]. replace A with ((C * x - 3) * 8) by lia. by apply Z.mod_mul.
  - destruct (Z.ltb_spec 8424 Np) as [Hgt|Hle].
    + destruct (tbs_split 8424 Np) as (H1 & H2 & H3 & H4); [auto|lia|lia|]. set (C := CEILIDIV (u32 (Np + 24)) 8424) in *. set (A := tbs_of_segments C Np) in *.
      rewrite (segments_of_max 1 (A + 24) C) by (auto; unfold max_block; simpl; lia). split_and!; [lia|lia|done|].
      destruct (proj1 (Z.mod_divide (A + 24) (8 * C) ltac:(lia)) H2) as [x Hx]. replace A with ((C * x - 3) * 8) by lia. by apply Z.mod_mul.
    + rewrite (u32_small (Np + 24)) by lia. destruct (CEILIDIV_ok (Np + 24) 8) as [H1 H2]; [lia..|]. set (q := CEILIDIV (Np + 24) 8) in *.
      rewrite Z.shiftl_mul_pow2 by lia. change (2 ^ 3) with 8. rewrite u32_small by lia.
      assert (Hq : q * 8 <= 8448). { assert (q < 1057) by lia. lia. }
      rewrite segments_of_one by (unfold max_block; simpl; lia). replace (q * 8 - 24 + 24) with (q * 8) by lia.
      split_and!; [lia|lia|by apply Z.mod_mul|]. replace (q * 8 - 24) with ((q - 3) * 8) by lia. by apply Z.mod_mul.
Qed.

Lemma tbs_info_range Qm R nb_rb nb_symb nb_dmrs nb_oh tb_scaling Nl : 0 <= tb_scaling ->
  0 <= tbs_info Qm R nb_rb nb_symb nb_dmrs nb_oh tb_scaling Nl < 2 ^ 26.
Proof.
  intros Hs. unfold tbs_info. set (x := u32 (_ * Nl)). assert (Hx : 0 <= x < 2 ^ 32) by apply u32_range.
  rewrite !Z.shiftr_div_pow2 by lia. assert (Hd : 0 <= x / 2 ^ 11 < 2 ^ 21) by (split; [apply Z.div_pos; lia|apply Z.div_lt_upper_bound; lia]).
  split; [apply Z.div_pos; lia|]. apply Z.div_lt_upper_bound; [lia|]. nia.
Qed.

(** what the transport block needs: whole bytes, also in each of its segments *)
Record tbs_fits (A R : Z) : Prop := {
  tf_bytes : A mod 8 = 0;
  tf_range : 24 <= A < 2 ^ 29;
  tf_segments : lenWithCrc 1 A mod (8 * segments_of (get_BG A R) (lenWithCrc 1 A)) = 0 }.

Lemma compute_tbs_fits Qm R nb_rb nb_symb nb_dmrs nb_oh tb_scaling Nl : 0 <= R <= 10240 -> 0 <= tb_scaling ->
  tbs_fits (nr_compute_tbs Qm R nb_rb nb_symb nb_dmrs nb_oh tb_scaling Nl) R.
Proof.
  intros HR Hs. unfold nr_compute_tbs. pose proof (tbs_info_range Qm R nb_rb nb_symb nb_dmrs nb_oh tb_scaling Nl Hs) as HN.
  set (Ninfo := tbs_info _ _ _ _ _ _ _ _) in *. destruct (Z.le_gt_cases Ninfo NR_MAX_PDSCH_TBS) as [Hle|Hgt].
  - destruct (tbs_small (R <=? 2560) Ninfo ltac:(lia)) as [H1 H2]. set (A := tbs_of_info _ _) in *. unfold NR_MAX_PDSCH_TBS in *.
    assert (HB : lenWithCrc 1 A = A + 16) by (unfold lenWithCrc, NR_MAX_PDSCH_TBS; by rewrite (proj2 (Z.ltb_ge 3824 A)) by lia).
    split; [done|lia|]. rewrite HB, segments_of_one.
    + replace (A + 16) with (A + 2 * (8 * 1)) by lia. by rewrite Z.mod_add by lia.
    + unfold max_block. destruct (_ =? 1); lia.
  - destruct (tbs_large (R <=? 2560) Ninfo ltac:(lia)) as (H1 & H2 & H3). set (A := tbs_of_info _ _) in *.
    assert (HB : lenWithCrc 1 A = A + 24) by (unfold lenWithCrc; by rewrite (proj2 (Z.ltb_lt _ A)) by lia).
    split; [done|unfold NR_MAX_PDSCH_TBS in *; lia|]. rewrite HB, get_BG_large by (done || lia). done.
Qed.

(** C20: every transport block size [nr_compute_tbs] returns, for any allocation, is one
    the coder can split: it is a multiple of eight and at least 24, and with its CRC it
    divides into as many segments of whole bytes as [nr_segmentation] makes of it on
    the base graph [get_BG] gives, so that no bit of the block is lost in the division. *)
Theorem tbs_whole_segments Qm R nb_rb nb_symb nb_dmrs nb_oh tb_scaling Nl : 0 <= R <= 10240 -> 0 <= tb_scaling ->
  let A := nr_compute_tbs Qm R nb_rb nb_symb nb_dmrs nb_oh tb_scaling Nl in
  let B := lenWithCrc 1 A in
  A mod 8 = 0 /\ 24 <= A < 2 ^ 29 /\ B mod (8 * segments_of (get_BG A R) B) = 0.
Proof. intros HR Hs A B. by destruct (compute_tbs_fits Qm R nb_rb nb_symb nb_dmrs nb_oh tb_scaling Nl HR Hs). Qed.

Lemma tbs_whole_segments_witness :
  nr_compute_tbs 6 6660 106 12 6 0 0 2 = 114776 /\ segments_of 1 (114776 + 24) = 14 /\ lenWithCrc 1 114776 mod (8 * segments_of (get_BG 114776 6660) (lenWithCrc 1 114776)) = 0.
Proof.
  split; [by vm_compute|]. split; [by vm_compute|]. destruct (tbs_whole_segments 6 6660 106 12 6 0 0 2) as (_ & _ & H); [lia..|]. exact H.
Defined.

(** ** Shares of the coded bits *)

Definition share (G C Qm Nl r : Z) : Z := match nr_get_E G C Qm Nl r with Ret E => E | _ => 0 end.

Lemma get_E_ok G C Qm Nl r : 0 < C -> 0 < Qm -> 0 < Nl -> 0 <= G < 2 ^ 31 -> Nl * Qm < 2 ^ 30 -> C < 2 ^ 31 -> 0 <= r < C -> G mod (Nl * Qm) = 0 ->
  let q := G / (Nl * Qm) in
  nr_get_E G C Qm Nl r = Ret (Nl * Qm * (q / C + if r <? C - q mod C then 0 else 1)).
Proof.
  intros HC HQ HN HG Hm HC2 Hr Hd q. unfold nr_get_E. rewrite (proj2 (Z.ltb_lt 0 Nl)), (proj2 (Z.ltb_lt 0 Qm)) by lia. cbn [negb].
  assert (Hpos : 0 < Nl * Qm) by nia. rewrite (proj2 (Z.eqb_neq C 0)) by lia. rewrite !Z.quot_div_nonneg by nia.
  rewrite <- (Z.div_div G (Nl * Qm) C) by lia. fold q. assert (Hq : 0 <= q) by (apply Z.div_pos; lia). rewrite rem_mod by lia.
  pose proof (Z.mod_pos_bound q C HC) as Hmod. pose proof (Z.div_mod G (Nl * Qm) ltac:(lia)) as HGd. fold q in HGd.
  pose proof (Z.div_mod q C ltac:(lia)) as Hqd. pose proof (Z.div_pos q C Hq HC).
  assert (HqG : q < 2 ^ 31) by nia. rewrite (u32_small (C - q mod C)), (u32_small (C - q mod C - 1)) by lia.
  assert (Hle : 0 <= Nl * Qm * (q / C) <= G) by nia. set (m := Nl * Qm) in *. set (x := q / C) in *.
  destruct (Z.leb_spec r (C - q mod C - 1)), (Z.ltb_spec r (C - q mod C)); try lia; rewrite u32_small by lia; f_equal; lia.
Qed.

Lemma share_val G C Qm Nl r : 0 < C < 2 ^ 31 -> 0 < Qm -> 0 < Nl -> Nl * Qm < 2 ^ 30 -> 0 <= G < 2 ^ 31 -> G mod (Nl * Qm) = 0 -> 0 <= r < C ->
  let q := G / (Nl * Qm) in share G C Qm Nl r = Nl * Qm * (q / C + if r <? C - q mod C then 0 else 1).
Proof. intros HC HQ HN Hm HG Hd Hr q. unfold share. rewrite get_E_ok by (done || lia). done. Qed.

Lemma shares_sum G C Qm Nl : 0 < C < 2 ^ 31 -> 0 < Qm -> 0 < Nl -> Nl * Qm < 2 ^ 30 -> 0 <= G < 2 ^ 31 -> G mod (Nl * Qm) = 0 ->
  sumZ (share G C Qm Nl) (seqZ 0 C) = G.
Proof.
  intros HC HQ HN Hm HG Hd. set (q := G / (Nl * Qm)).
  pose proof (Z.mod_pos_bound q C ltac:(lia)) as Hmod. pose proof (Z.div_mod G (Nl * Qm) ltac:(nia)) as HGd. fold q in HGd. rewrite Hd in HGd.
  pose proof (Z.div_mod q C ltac:(lia)) as Hqd.
  assert (Hsum : forall m : nat, Z.of_nat m <= C -> sumZ (share G C Qm Nl) (seqZ 0 (Z.of_nat m)) =
    Nl * Qm * (Z.of_nat m * (q / C) + Z.max 0 (Z.of_nat m - (C - q mod C)))).
  { induction m as [|m IH]; intros HmC; [simpl; lia|]. replace (Z.of_nat (S m)) with (Z.of_nat m + 1) by lia.
    rewrite seqZ_app, sumZ_app, IH by lia. change (seqZ (0 + Z.of_nat m) 1) with [0 + Z.of_nat m]. cbn [sumZ].
    rewrite Z.add_0_l, share_val by (done || lia). fold q. destruct (Z.ltb_spec (Z.of_nat m) (C - q mod C)); nia. }
  specialize (Hsum (Z.to_nat C)). rewrite Z2Nat.id in Hsum by lia. rewrite Hsum by lia. nia.
Qed.

(** the coded bits of a transport block are shared out among its segments without
    loss: for [G] a multiple of the bits of a resource element over all layers, the
    shares [nr_get_E] gives add up to [G], each is a multiple of the modulation order,
    and they differ by at most one modulation symbol per layer. *)
Theorem shares_add_up G C Qm Nl : 0 < C < 2 ^ 31 -> 0 < Qm -> 0 < Nl -> Nl * Qm < 2 ^ 30 -> 0 <= G < 2 ^ 31 -> G mod (Nl * Qm) = 0 ->
  sumZ (share G C Qm Nl) (seqZ 0 C) = G /\
  forall r r', 0 <= r < C -> 0 <= r' < C ->
    nr_get_E G C Qm Nl r = Ret (share G C Qm Nl r) /\ share G C Qm Nl r mod Qm = 0 /\
    Z.abs (share G C Qm Nl r - share G C Qm Nl r') <= Nl * Qm.
Proof.
  intros HC HQ HN Hm HG Hd. split; [by apply shares_sum|]. intros r r' Hr Hr'. set (q := G / (Nl * Qm)).
  pose proof (share_val G C Qm Nl r HC HQ HN Hm HG Hd Hr) as S1. pose proof (share_val G C Qm Nl r' HC HQ HN Hm HG Hd Hr') as S2. fold q in S1, S2.
  split_and!; [rewrite S1; unfold q; apply get_E_ok; (done || lia)| |].
  - rewrite S1. set (x := q / C + _). replace (Nl * Qm * x) with (Nl * x * Qm) by lia. apply Z.mod_mul. lia.
  - rewrite S1, S2. destruct (r <? _), (r' <? _); nia.
Qed.

Lemma shares_add_up_witness :
  sumZ (share 4032 5 6 2) (seqZ 0 5) = 4032 /\ nr_get_E 4032 5 6 2 4 = Ret 816 /\ 816 mod 6 = 0.
Proof.
  destruct (shares_add_up 4032 5 6 2) as [H1 H2]; [lia..|reflexivity|]. destruct (H2 4 0) as (H3 & H4 & _); [lia..|].
  split_and!; [exact H1|exact H3|exact H4].
Defined.
