(* ===== verification/RateMatch.v ===== *)
(** Bit selection and interleaving of coded bits for transmission, and their
    inverses on the soft bits received
    (src/openair1/PHY/CODING/nrLDPC_coding/nrLDPC_coding_segment/nr_rate_matching.c),
    clauses 5.4.2.1 and 5.4.2.2 of 38.212.

    Lengths are [uint32_t], coded bits bytes, soft bits [int16_t]. *)

From stdpp Require Import base tactics list numbers.
From Stdlib Require Import ZArith Lia.
From S2P Require Import Prelude.

Definition NR_NULL : Z := 2.

(** conversion to [int16_t] *)
Definition s16 (x : Z) : Z := (x + 2 ^ 15) mod 2 ^ 16 - 2 ^ 15.

(** ** Interleaving *)

(** [*fp++ = e0[j]; *fp++ = e1[j]; ...]: the bits [j] of the rows from [i] on *)
Fixpoint put_column (rows : nat) (EQm i j p : Z) (e f : list Z) : outcome (list Z) :=
  match rows with
  | O => Ret f
  | S rows => x ← rd e (i * EQm + j); f ← wr f p x; put_column rows EQm (i + 1) j (p + 1) e f
  end.

(** [for (j = 0; j < EQm; j++)] *)
Fixpoint interleave_loop (cols : nat) (Qm EQm j : Z) (e f : list Z) : outcome (list Z) :=
  match cols with
  | O => Ret f
  | S cols => f ← put_column (Z.to_nat Qm) EQm 0 j (j * Qm) e f; interleave_loop cols Qm EQm (j + 1) e f
  end.

Definition known_Qm (Qm : Z) : bool := (Qm =? 2) || (Qm =? 4) || (Qm =? 6) || (Qm =? 8).

Definition nr_interleaving_ldpc (E Qm : Z) (e f : list Z) : outcome (list Z) :=
  if Qm =? 0 then Undef
  else
    let EQm := Z.quot E Qm in
    f ← mem_write f 0 (replicate (Z.to_nat E) 0);
    if known_Qm Qm then interleave_loop (Z.to_nat EQm) Qm EQm 0 e f else Exit.

(** [*e++ = *f++; *e1++ = *f++; ...] *)
Fixpoint get_column (rows : nat) (EQm i j p : Z) (e f : list Z) : outcome (list Z) :=
  match rows with
  | O => Ret e
  | S rows => x ← rd f p; e ← wr e (i * EQm + j) x; get_column rows EQm (i + 1) j (p + 1) e f
  end.

Fixpoint deinterleave_loop (cols : nat) (Qm EQm j : Z) (e f : list Z) : outcome (list Z) :=
  match cols with
  | O => Ret e
  | S cols => e ← get_column (Z.to_nat Qm) EQm 0 j (j * Qm) e f; deinterleave_loop cols Qm EQm (j + 1) e f
  end.

(** [while (f < end)] with [end = f + E - (Qm - 1)] goes over [E / Qm] columns *)
Definition nr_deinterleaving_ldpc (E Qm : Z) (e f : list Z) : outcome (list Z) :=
  if known_Qm Qm then
    if negb (E %% Qm =? 0) then Exit
    else deinterleave_loop (Z.to_nat (Z.quot E Qm)) Qm (Z.quot E Qm) 0 e f
  else Exit.

(** ** Bit selection *)

Definition index_k0 : list (list Z) := [[0; 17; 33; 56]; [0; 13; 25; 43]].

(** [index_k0[BG - 1][rvidx]] *)
Definition k0_factor (BG rvidx : Z) : outcome Z :=
  if BG - 1 <? 0 then Undef else match index_k0 !! Z.to_nat (BG - 1) with Some l => rd l rvidx | None => Undef end.

(** the length of the circular buffer and the position of the first bit *)
Definition bit_selection_start (Tbslbrm BG Z C rvidx : Z) : outcome (BinInt.Z * BinInt.Z) :=
  let N := u32 (if BG =? 1 then 66 * Z else 50 * Z) in
  let Ncb := if Tbslbrm =? 0 then N else Z.min N (Z.quot (u32 (3 * Tbslbrm)) (2 * C)) in
  k0 ← k0_factor BG rvidx;
  if N =? 0 then Undef else Ret (Ncb, u32 (Z.quot (u32 (k0 * Ncb)) N * Z)).

(** [for (ind = 0; (ind < Ncb) && (k < E); ind++)], [rounds] is [Ncb - ind] *)
Fixpoint repeat_pass (rounds : nat) (d : list Z) (E ind k : Z) (e : list Z) : outcome (Z * list Z) :=
  match rounds with
  | O => Ret (k, e)
  | S rounds =>
      if k <? E then
        x ← rd d ind;
        if x =? NR_NULL then repeat_pass rounds d E (ind + 1) k e
        else e ← wr e k x; repeat_pass rounds d E (ind + 1) (k + 1) e
      else Ret (k, e)
  end.

(** [while (k < E)]: a pass that adds no bit is repeated for ever *)
Fixpoint repeat_bits (passes : nat) (d : list Z) (Ncb E k : Z) (e : list Z) : outcome (list Z) :=
  if k <? E then
    match passes with
    | O => Diverge
    | S passes => '(k, e) ← repeat_pass (Z.to_nat Ncb) d E 0 k e; repeat_bits passes d Ncb E k e
    end
  else Ret e.

(** [memcpy(e + to, d + from, n)] *)
Definition copy_bits (d : list Z) (from n : Z) (e : list Z) (to : Z) : outcome (list Z) :=
  b ← mem_read d from n; mem_write e to b.

(** the bits up to the end of the circular buffer *)
Definition first_bits (d : list Z) (Ncb F Foffset ind E : Z) (e : list Z) : outcome (Z * list Z) :=
  let ind := if (Foffset <=? ind) && (ind <? u32 (F + Foffset)) then u32 (F + Foffset) else ind in
  if ind <? Foffset then
    e ← copy_bits d ind (Foffset - ind) e 0;
    if u32 (E + F) <=? u32 (Ncb - ind) then
      e ← copy_bits d (Foffset + F) (u32 (E - Foffset + ind)) e (Foffset - ind); Ret (E, e)
    else
      e ← copy_bits d (Foffset + F) (u32 (Ncb - Foffset - F)) e (Foffset - ind); Ret (u32 (Ncb - F - ind), e)
  else if E <=? u32 (Ncb - ind) then e ← copy_bits d ind E e 0; Ret (E, e)
  else e ← copy_bits d ind (u32 (Ncb - ind)) e 0; Ret (u32 (Ncb - ind), e).

Definition nr_rate_matching_ldpc (Tbslbrm BG Z : Z) (d e : list BinInt.Z) (C F Foffset rvidx E : BinInt.Z)
    : outcome (BinInt.Z * list BinInt.Z) :=
  if C =? 0 then Ret (-1, e)
  else
    '(Ncb, ind) ← bit_selection_start Tbslbrm BG Z C rvidx;
    if E <? Foffset then Ret (-1, e)
    else if Ncb <? Foffset then Ret (-1, e)
    else
      '(k, e) ← first_bits d Ncb F Foffset ind E e;
      e ← repeat_bits (Z.to_nat (E - k)) d Ncb E k e;
      Ret (0, e).

(** ** Combination of soft bits *)

(** [for (; (ind < hi) && (k < E); ind++) d[ind] += soft_input[k++]], [rounds] is [hi - ind] *)
Fixpoint combine (rounds : nat) (E ind k : Z) (soft_input d : list Z) : outcome (Z * Z * list Z) :=
  match rounds with
  | O => Ret (ind, k, d)
  | S rounds =>
      if k <? E then
        x ← rd d ind; y ← rd soft_input k; d ← wr d ind (s16 (x + y));
        combine rounds E (ind + 1) (k + 1) soft_input d
      else Ret (ind, k, d)
  end.

Fixpoint combine_repeats (passes : nat) (Ncb F Foffset E k : Z) (soft_input d : list Z) : outcome (list Z) :=
  if k <? E then
    match passes with
    | O => Diverge
    | S passes =>
        '(_, k, d) ← combine (Z.to_nat Foffset) E 0 k soft_input d;
        let ind := u32 (Foffset + F) in
        '(_, k, d) ← combine (Z.to_nat (Ncb - ind)) E ind k soft_input d;
        combine_repeats passes Ncb F Foffset E k soft_input d
    end
  else Ret d.

Definition nr_rate_matching_ldpc_rx (Tbslbrm BG Z : Z) (d soft_input : list BinInt.Z) (C rvidx clear E F Foffset : BinInt.Z)
    : outcome (BinInt.Z * list BinInt.Z) :=
  if C =? 0 then Ret (-1, d)
  else
    '(Ncb, ind) ← bit_selection_start Tbslbrm BG Z C rvidx;
    if E <? Foffset then Ret (-1, d)
    else if Ncb <? Foffset then Ret (-1, d)
    else
      d ← (if clear =? 1 then mem_write d 0 (replicate (Z.to_nat Ncb) 0) else Ret d);
      '(ind, k, d) ← combine (Z.to_nat (Foffset - ind)) E ind 0 soft_input d;
      let ind := if (Foffset <=? ind) && (ind <? u32 (Foffset + F)) then u32 (Foffset + F) else ind in
      '(_, k, d) ← combine (Z.to_nat (Ncb - ind)) E ind k soft_input d;
      d ← combine_repeats (Z.to_nat (E - k)) Ncb F Foffset E k soft_input d;
      Ret (0, d).
