(* ===== verification/RateMatchSpec.v ===== *)
(** Rate matching: which bits are sent, in which order, and what the receiver makes
    of them. *)

From stdpp Require Import base tactics list numbers sets.
From Stdlib Require Import ZArith Lia.
From S2P Require Import Prelude Arrays RateMatch.

Lemma copy_bits_ok d from n a r : 0 <= from -> 0 <= n -> from + n <= zlen d -> n <= zlen r ->
  copy_bits d from n (a ++ r) (zlen a) = Ret (a ++ map (at_pos d) (seqZ from n) ++ drop (Z.to_nat n) r).
Proof.
  intros H1 H2 H3 H4. unfold copy_bits. rewrite mem_read_ok by done. rewrite bind_Ret_l, piece_at by done.
  assert (Hl : zlen (map (at_pos d) (seqZ from n)) = n) by (unfold zlen; rewrite length_map, length_seqZ; lia).
  pose proof (zlen_nonneg a). rewrite mem_write_ok by (rewrite ?zlen_app; lia).
  assert (Hn' : length (map (at_pos d) (seqZ from n)) = Z.to_nat n) by (unfold zlen in Hl; lia).
  rewrite to_nat_zlen, take_app_length, Hn', drop_app_add. done.
Qed.

(** ** Which bits are selected *)

(** The circular buffer has [Ncb] positions, the [F] filler positions from [Fo] on
    are left out, and [s] of the others come before the first one sent. *)
Section selection.
Context (Ncb F Fo s : Z) (HF : 0 <= F) (HFo : 0 <= Fo) (Hfill : Fo + F <= Ncb) (Hn : 0 < Ncb - F) (Hs : 0 <= s).

Definition position (i : Z) : Z := if i <? Fo then i else i + F.
Definition sel (j : Z) : Z := position ((s + j) mod (Ncb - F)).

(** how many positions that are no filler come before one *)
Definition rank (ind : Z) : Z := if ind <? Fo then ind else if ind <? Fo + F then Fo else ind - F.

Definition is_filler (ind : Z) : Prop := Fo <= ind < Fo + F.

Lemma position_rank ind : ~ is_filler ind -> position (rank ind) = ind.
Proof using HF HFo.
  unfold is_filler, position, rank. intros H. destruct (Z.ltb_spec ind Fo).
  - by rewrite (proj2 (Z.ltb_lt _ _)) by lia.
  - rewrite (proj2 (Z.ltb_ge ind _)), (proj2 (Z.ltb_ge _ _)) by lia. lia.
Qed.

Lemma rank_step ind : ~ is_filler ind -> rank (ind + 1) = rank ind + 1.
Proof using HF HFo.
  unfold is_filler, rank. intros H. destruct (Z.ltb_spec (ind + 1) Fo), (Z.ltb_spec ind Fo), (Z.ltb_spec (ind + 1) (Fo + F)),
    (Z.ltb_spec ind (Fo + F)); lia.
Qed.

Lemma rank_filler ind : is_filler ind -> rank (ind + 1) = rank ind.
Proof using HF HFo.
  unfold is_filler, rank. intros H. destruct (Z.ltb_spec (ind + 1) Fo), (Z.ltb_spec ind Fo), (Z.ltb_spec (ind + 1) (Fo + F)),
    (Z.ltb_spec ind (Fo + F)); lia.
Qed.

Lemma rank_range ind : 0 <= ind < Ncb -> 0 <= rank ind /\ rank ind <= Ncb - F /\ (~ is_filler ind -> rank ind < Ncb - F).
Proof using All.
  unfold is_filler, rank. intros H. destruct (Z.ltb_spec ind Fo), (Z.ltb_spec ind (Fo + F)); split_and!; lia.
Qed.

Lemma rank_end : rank Ncb = Ncb - F.
Proof using All. unfold rank. rewrite !(proj2 (Z.ltb_ge _ _)) by lia. done. Qed.

Lemma sel_range j : 0 <= sel j < Ncb /\ ~ is_filler (sel j).
Proof using All.
  unfold sel, position, is_filler. pose proof (Z.mod_pos_bound (s + j) (Ncb - F) Hn).
  destruct (Z.ltb_spec ((s + j) mod (Ncb - F)) Fo); lia.
Qed.

(** bit [j] is at [ind] when the bits before it fill whole rounds and what comes
    before [ind] *)
Definition next_at (j ind : Z) : Prop := exists q, s + j = q * (Ncb - F) + rank ind.

Lemma sel_next j ind : next_at j ind -> 0 <= ind < Ncb -> ~ is_filler ind -> sel j = ind.
Proof using All.
  intros [q E] Hi Hf. pose proof (rank_range ind Hi) as (H1 & _ & H2). unfold sel. rewrite E.
  specialize (H2 Hf). rewrite Z.add_comm, Z.mod_add, Z.mod_small by lia. by apply position_rank.
Qed.

Lemma next_at_step j ind : next_at j ind -> ~ is_filler ind -> next_at (j + 1) (ind + 1).
Proof using HF HFo. intros [q E] Hf. exists q. rewrite rank_step by done. lia. Qed.

Lemma next_at_filler j ind : next_at j ind -> is_filler ind -> next_at j (ind + 1).
Proof using HF HFo. intros [q E] Hf. exists q. by rewrite rank_filler. Qed.

Lemma next_at_wrap j : next_at j Ncb -> next_at j 0.
Proof using All.
  intros [q E]. rewrite rank_end in E. exists (q + 1). rewrite E. unfold rank.
  destruct (Z.ltb_spec 0 Fo), (Z.ltb_spec 0 (Fo + F)); lia.
Qed.

(** a run of positions without filler *)
Lemma sel_run n : forall ind j, next_at j ind -> 0 <= ind -> ind + Z.of_nat n <= Ncb ->
  (forall i, ind <= i < ind + Z.of_nat n -> ~ is_filler i) ->
  map sel (seqZ j (Z.of_nat n)) = seqZ ind (Z.of_nat n) /\ next_at (j + Z.of_nat n) (ind + Z.of_nat n).
Proof using All.
  induction n as [|n IH]; intros ind j H Hi Hb Hf; [by rewrite !Z.add_0_r|]. rewrite (seqZ_cons j), (seqZ_cons ind) by lia.
  replace (Z.pred (Z.of_nat (S n))) with (Z.of_nat n) by lia. rewrite <- !Z.add_1_r.
  destruct (IH (ind + 1) (j + 1)) as [E1 E2]; [apply next_at_step; [done|apply Hf; lia]|lia|lia|intros; apply Hf; lia|].
  cbn [map]. rewrite E1. split; [f_equal; apply sel_next; [done|lia|apply Hf; lia]|].
  replace (j + Z.of_nat (S n)) with (j + 1 + Z.of_nat n) by lia.
  by replace (ind + Z.of_nat (S n)) with (ind + 1 + Z.of_nat n) by lia.
Qed.

(** ** Sending *)

Section send.
Context (d e0 : list Z) (E : Z) (Hd : Ncb <= zlen d) (HE : 0 <= E <= zlen e0).
Context (Hnull : forall i, 0 <= i < Ncb -> at_pos d i = NR_NULL <-> is_filler i).

(** the output buffer with the first [k] bits *)
Definition sent (k : Z) : list Z := map (fun j => at_pos d (sel j)) (seqZ 0 k).
Definition sent_buffer (k : Z) : list Z := sent k ++ drop (Z.to_nat k) e0.

Lemma zlen_sent k : 0 <= k -> zlen (sent k) = k.
Proof using All. intros H. unfold sent, zlen. rewrite length_map, length_seqZ. lia. Qed.

Lemma sent_app k n : 0 <= k -> 0 <= n -> sent (k + n) = sent k ++ map (fun j => at_pos d (sel j)) (seqZ k n).
Proof using All. intros H1 H2. unfold sent. by rewrite seqZ_app, map_app, Z.add_0_l by done. Qed.

(** a run of bits is copied *)
Lemma copy_run ind k n : next_at k ind -> 0 <= ind -> ind + n <= Ncb -> (forall i, ind <= i < ind + n -> ~ is_filler i) ->
  0 <= k -> 0 <= n -> k + n <= E ->
  copy_bits d ind n (sent_buffer k) k = Ret (sent_buffer (k + n)) /\ next_at (k + n) (ind + n).
Proof using All.
  intros Hx Hi Hb Hf Hk Hn0 HkE. destruct (sel_run (Z.to_nat n) ind k) as [E1 E2]; rewrite ?Z2Nat.id in * by lia; [done..|].
  split; [|done]. unfold sent_buffer. rewrite <- (zlen_sent k) at 3 by done. rewrite copy_bits_ok; try lia.
  - rewrite sent_app by done. rewrite <- E1, map_map, <- app_assoc, drop_drop. do 4 f_equal. lia.
  - rewrite zlen_drop. lia.
Qed.

Lemma put_bit ind k : next_at k ind -> 0 <= ind < Ncb -> ~ is_filler ind -> 0 <= k < E ->
  wr (sent_buffer k) k (at_pos d ind) = Ret (sent_buffer (k + 1)).
Proof using All.
  intros Hx Hi Hf Hk. unfold sent_buffer. rewrite <- (zlen_sent k) at 3 by lia.
  destruct (lookup_lt_is_Some_2 e0 (Z.to_nat k)) as [y Hy]; [unfold zlen in HE; lia|].
  rewrite (drop_S _ _ _ Hy), wr_next, sent_app by lia. change (seqZ k 1) with [k]. cbn [map].
  rewrite (sel_next k ind Hx Hi Hf), <- app_assoc. do 4 f_equal. lia.
Qed.

Lemma pass_ok rounds : forall ind k, ind + Z.of_nat rounds = Ncb -> 0 <= ind -> next_at k ind -> 0 <= k <= E ->
  exists k', repeat_pass rounds d E ind k (sent_buffer k) = Ret (k', sent_buffer k') /\
    k' = Z.min E (k + (Ncb - F - rank ind)) /\ (k' < E -> next_at k' 0).
Proof using All.
  induction rounds as [|rounds IH]; intros ind k Hr Hi Hx Hk; cbn [repeat_pass].
  - replace ind with Ncb in * by lia. exists k. rewrite rank_end. split_and!; [done|lia|]. intros _. by apply next_at_wrap.
  - pose proof (rank_range ind ltac:(lia)) as (R1 & R2 & R3). destruct (Z.ltb_spec k E) as [HkE|HkE].
    2:{ exists k. split_and!; [done|lia|lia]. }
    rewrite rd_at, bind_Ret_l by lia. pose proof (Hnull ind ltac:(lia)) as Hfi. destruct (Z.eqb_spec (at_pos d ind) NR_NULL) as [En|En].
    + apply Hfi in En. destruct (IH (ind + 1) k) as (k' & E1 & E2 & E3); [lia|lia|by apply next_at_filler|done|].
      exists k'. split_and!; [done|rewrite E2, rank_filler by done; done|done].
    + assert (Hf : ~ is_filler ind) by tauto. rewrite (put_bit ind k) by (done || lia). rewrite bind_Ret_l.
      destruct (IH (ind + 1) (k + 1)) as (k' & E1 & E2 & E3); [lia|lia|by apply next_at_step|lia|].
      exists k'. split_and!; [done|rewrite E2, rank_step by done; lia|done].
Qed.

Lemma repeat_ok passes : forall k, 0 <= k <= E -> E - k <= Z.of_nat passes -> (k < E -> next_at k 0) ->
  repeat_bits passes d Ncb E k (sent_buffer k) = Ret (sent_buffer E).
Proof using All.
  induction passes as [|passes IH]; intros k Hk Hp Hx; cbn [repeat_bits].
  - rewrite (proj2 (Z.ltb_ge _ _)) by lia. by replace k with E by lia.
  - destruct (Z.ltb_spec k E) as [HkE|HkE]; [|by replace k with E by lia].
    destruct (pass_ok (Z.to_nat Ncb) 0 k) as (k' & E1 & E2 & E3); [lia|lia|auto|lia|].
    assert (Hr : rank 0 = 0) by (unfold rank; destruct (Z.ltb_spec 0 Fo), (Z.ltb_spec 0 (Fo + F)); lia).
    rewrite E1, bind_Ret_l. apply IH; [lia|lia|done].
Qed.

Lemma sent_buffer_0 : sent_buffer 0 = e0.
Proof using All. unfold sent_buffer, sent. simpl. by rewrite drop_0. Qed.

Lemma first_bits_ok ind : 0 <= ind < Ncb -> s = rank ind -> Fo <= E -> Ncb < 2 ^ 31 -> E < 2 ^ 31 ->
  exists k, first_bits d Ncb F Fo ind E e0 = Ret (k, sent_buffer k) /\ 0 <= k <= E /\ (k < E -> next_at k 0).
Proof using All.
  intros Hi Hsr HFE B1 B2. unfold first_bits. rewrite (Z.add_comm F Fo), (u32_small (Fo + F)) by lia.
  assert (H0 : next_at 0 ind) by (exists 0; lia).
  destruct (Z.ltb_spec ind Fo) as [Hlt|Hge].
  - rewrite (proj2 (Z.leb_gt Fo ind)) by lia. cbn [andb]. rewrite (proj2 (Z.ltb_lt ind Fo)) by lia.
    destruct (copy_run ind 0 (Fo - ind)) as [C1 C2]; try lia; [done|unfold is_filler; lia|].
    rewrite sent_buffer_0 in C1. rewrite C1, bind_Ret_l, !Z.add_0_l in *. replace (ind + (Fo - ind)) with Fo in C2 by lia.
    assert (Hx : next_at (Fo - ind) (Fo + F)).
    { destruct C2 as [q Eq]. exists q. rewrite Eq. unfold rank. destruct (Z.ltb_spec Fo Fo), (Z.ltb_spec Fo (Fo + F)),
        (Z.ltb_spec (Fo + F) Fo), (Z.ltb_spec (Fo + F) (Fo + F)); lia. }
    rewrite (u32_small (E + F)), (u32_small (Ncb - ind)) by lia. destruct (Z.leb_spec (E + F) (Ncb - ind)) as [Hle|Hgt].
    + rewrite (u32_small (E - Fo + ind)) by lia.
      destruct (copy_run (Fo + F) (Fo - ind) (E - Fo + ind)) as [D1 D2]; try lia; [done|unfold is_filler; lia|].
      rewrite D1, bind_Ret_l. exists E. replace (Fo - ind + (E - Fo + ind)) with E by lia. split_and!; [done|lia|lia|lia].
    + rewrite (u32_small (Ncb - Fo - F)), (u32_small (Ncb - F - ind)) by lia.
      destruct (copy_run (Fo + F) (Fo - ind) (Ncb - Fo - F)) as [D1 D2]; try lia; [done|unfold is_filler; lia|].
      rewrite D1, bind_Ret_l. exists (Ncb - F - ind). replace (Fo - ind + (Ncb - Fo - F)) with (Ncb - F - ind) in * by lia.
      split_and!; [done|lia|lia|].
      intros _. apply next_at_wrap. by replace (Fo + F + (Ncb - Fo - F)) with Ncb in D2 by lia.
  - set (ind' := if (Fo <=? ind) && (ind <? Fo + F) then Fo + F else ind).
    assert (Hind : next_at 0 ind' /\ Fo + F <= ind' <= Ncb).
    { unfold ind'. destruct (Z.leb_spec Fo ind); [|lia]. destruct (Z.ltb_spec ind (Fo + F)); cbn [andb]; [|split; [done|lia]].
      split; [|lia]. exists 0. rewrite Hsr. unfold rank. destruct (Z.ltb_spec ind Fo), (Z.ltb_spec ind (Fo + F)),
        (Z.ltb_spec (Fo + F) Fo), (Z.ltb_spec (Fo + F) (Fo + F)); lia. }
    destruct Hind as [Hx Hr]. rewrite (proj2 (Z.ltb_ge ind' Fo)), (u32_small (Ncb - ind')) by lia.
    destruct (Z.leb_spec E (Ncb - ind')) as [Hle|Hgt].
    + destruct (copy_run ind' 0 E) as [C1 C2]; try lia; [done|unfold is_filler; lia|].
      rewrite sent_buffer_0 in C1. rewrite C1, bind_Ret_l. exists E. split_and!; [done|lia|lia|lia].
    + destruct (copy_run ind' 0 (Ncb - ind')) as [C1 C2]; try lia; [done|unfold is_filler; lia|].
      rewrite sent_buffer_0 in C1. rewrite C1, bind_Ret_l. exists (Ncb - ind'). rewrite !Z.add_0_l in *.
      split_and!; [done|lia|lia|]. intros _. apply next_at_wrap. by replace (ind' + (Ncb - ind')) with Ncb in C2 by lia.
Qed.
End send.

(** ** Receiving *)

Section receive.
Context (soft d0 : list Z) (E : Z) (Hd : Ncb <= zlen d0) (HE : 0 <= E <= zlen soft).

(** the soft buffer after [k] values *)
Fixpoint combined (k : nat) : list Z :=
  match k with
  | O => d0
  | S k => <[Z.to_nat (sel (Z.of_nat k)) := s16 (at_pos (combined k) (sel (Z.of_nat k)) + at_pos soft (Z.of_nat k))]> (combined k)
  end.

Lemma zlen_combined k : zlen (combined k) = zlen d0.
Proof using All. induction k as [|k IH]; [done|]. cbn [combined]. unfold zlen in *. by rewrite length_insert. Qed.

Lemma combine_ok rounds : forall ind k, 0 <= ind -> ind + Z.of_nat rounds <= Ncb ->
  (forall i, ind <= i < ind + Z.of_nat rounds -> ~ is_filler i) -> next_at k ind -> 0 <= k <= E ->
  exists k', combine rounds E ind k soft (combined (Z.to_nat k)) = Ret (ind + (k' - k), k', combined (Z.to_nat k')) /\
    k' = Z.min E (k + Z.of_nat rounds) /\ next_at k' (ind + (k' - k)).
Proof using All.
  induction rounds as [|rounds IH]; intros ind k Hi Hb Hf Hx Hk; cbn [combine].
  - exists k. rewrite Z.sub_diag, Z.add_0_r. split_and!; [done|lia|done].
  - destruct (Z.ltb_spec k E) as [HkE|HkE].
    2:{ exists k. rewrite Z.sub_diag, Z.add_0_r. split_and!; [done|lia|done]. }
    rewrite (rd_at _ ind), bind_Ret_l by (rewrite zlen_combined; lia). rewrite (rd_at soft), bind_Ret_l by lia.
    rewrite wr_at, bind_Ret_l by (rewrite zlen_combined; lia).
    assert (Hse : sel k = ind) by (apply sel_next; [done|lia|apply Hf; lia]).
    assert (Hc : <[Z.to_nat ind := s16 (at_pos (combined (Z.to_nat k)) ind + at_pos soft k)]> (combined (Z.to_nat k)) =
      combined (Z.to_nat (k + 1))).
    { replace (Z.to_nat (k + 1)) with (S (Z.to_nat k)) by lia. cbn [combined]. rewrite Z2Nat.id by lia. by rewrite Hse. }
    rewrite Hc. destruct (IH (ind + 1) (k + 1)) as (k' & E1 & E2 & E3);
      [lia|lia|intros; apply Hf; lia|apply next_at_step; [done|apply Hf; lia]|lia|].
    exists k'. replace (ind + 1 + (k' - (k + 1))) with (ind + (k' - k)) in * by lia. split_and!; [done|lia|done].
Qed.

Lemma rank_before_fill : rank Fo = Fo /\ rank (Fo + F) = Fo.
Proof using All.
  unfold rank. destruct (Z.ltb_spec Fo Fo), (Z.ltb_spec Fo (Fo + F)), (Z.ltb_spec (Fo + F) Fo), (Z.ltb_spec (Fo + F) (Fo + F)); lia.
Qed.

Lemma next_over_fill k : next_at k Fo -> next_at k (Fo + F).
Proof using All. destruct rank_before_fill as [E1 E2]. unfold next_at. by rewrite E1, E2. Qed.

Lemma combine_repeats_ok passes : forall k, 0 <= k <= E -> E - k <= Z.of_nat passes -> (k < E -> next_at k 0) -> Fo + F < 2 ^ 32 ->
  combine_repeats passes Ncb F Fo E k soft (combined (Z.to_nat k)) = Ret (combined (Z.to_nat E)).
Proof using All.
  induction passes as [|passes IH]; intros k Hk Hp Hx Hw; cbn [combine_repeats].
  - rewrite (proj2 (Z.ltb_ge _ _)) by lia. by replace k with E by lia.
  - destruct (Z.ltb_spec k E) as [HkE|HkE]; [|by replace k with E by lia]. specialize (Hx HkE).
    destruct (combine_ok (Z.to_nat Fo) 0 k) as (k1 & A1 & A2 & A3); [lia|lia|unfold is_filler; lia|done|lia|].
    rewrite Z2Nat.id in A2 by lia. rewrite A1, bind_Ret_l, (u32_small (Fo + F)) by lia.
    destruct (Z.eq_dec k1 E) as [->|Hne].
    + assert (Hdone : combine (Z.to_nat (Ncb - (Fo + F))) E (Fo + F) E soft (combined (Z.to_nat E)) =
        Ret (Fo + F, E, combined (Z.to_nat E))).
      { destruct (Z.to_nat (Ncb - (Fo + F))); [done|]. cbn [combine]. by rewrite (proj2 (Z.ltb_ge E E)) by lia. }
      rewrite Hdone, bind_Ret_l. apply IH; lia.
    + replace (0 + (k1 - k)) with Fo in A3 by lia. apply next_over_fill in A3.
      destruct (combine_ok (Z.to_nat (Ncb - (Fo + F))) (Fo + F) k1) as (k2 & B1 & B2 & B3);
        [lia|lia|unfold is_filler; lia|done|lia|].
      rewrite Z2Nat.id in B2 by lia. rewrite B1, bind_Ret_l. apply IH; [lia|lia| |lia]. intros Hlt. apply next_at_wrap.
      by replace Ncb with (Fo + F + (k2 - k1)) by lia.
Qed.

(** the combination up to the end of the circular buffer *)
Definition combine_first (ind : Z) (d : list Z) : outcome (Z * list Z) :=
  '(ind, k, d) ← combine (Z.to_nat (Fo - ind)) E ind 0 soft d;
  let ind := if (Fo <=? ind) && (ind <? u32 (Fo + F)) then u32 (Fo + F) else ind in
  '(_, k, d) ← combine (Z.to_nat (Ncb - ind)) E ind k soft d;
  Ret (k, d).

Lemma combine_first_ok ind : 0 <= ind < Ncb -> s = rank ind -> Fo <= E -> Ncb < 2 ^ 31 ->
  exists k, combine_first ind d0 = Ret (k, combined (Z.to_nat k)) /\ 0 <= k <= E /\ (k < E -> next_at k 0).
Proof using All.
  intros Hi Hsr HFE B1. unfold combine_first. assert (H0 : next_at 0 ind) by (exists 0; lia).
  assert (Hgo : exists ind' k, combine (Z.to_nat (Fo - ind)) E ind 0 soft d0 = Ret (ind', k, combined (Z.to_nat k)) /\
    0 <= k <= E /\ Fo <= ind' < Ncb + 1 /\ (ind <= Fo -> ind' = Fo) /\ next_at k ind' /\ (Fo <= ind -> ind' = ind)).
  { destruct (Z.ltb_spec ind Fo) as [Hlt|Hge].
    - destruct (combine_ok (Z.to_nat (Fo - ind)) ind 0) as (k' & A1 & A2 & A3); [lia|lia|unfold is_filler; lia|done|lia|].
      rewrite Z2Nat.id in A2 by lia. change (combined (Z.to_nat 0)) with d0 in A1. exists (ind + (k' - 0)), k'.
      split_and!; try done; lia.
    - replace (Z.to_nat (Fo - ind)) with 0%nat by lia. exists ind, 0. cbn [combine]. split_and!; try done; lia. }
  destruct Hgo as (ind1 & k1 & A1 & A2 & A3 & A4 & A5 & A6). rewrite A1, bind_Ret_l, (u32_small (Fo + F)) by lia.
  set (ind2 := if (Fo <=? ind1) && (ind1 <? Fo + F) then Fo + F else ind1).
  assert (Hind : next_at k1 ind2 /\ Fo + F <= ind2 <= Ncb).
  { unfold ind2. rewrite (proj2 (Z.leb_le Fo ind1)) by lia. cbn [andb]. destruct (Z.ltb_spec ind1 (Fo + F)); [|split; [done|lia]].
    split; [|lia]. destruct A5 as [q Eq]. exists q. rewrite Eq. unfold rank. destruct (Z.ltb_spec ind1 Fo), (Z.ltb_spec ind1 (Fo + F)),
      (Z.ltb_spec (Fo + F) Fo), (Z.ltb_spec (Fo + F) (Fo + F)); lia. }
  destruct Hind as [Hx Hr].
  destruct (combine_ok (Z.to_nat (Ncb - ind2)) ind2 k1) as (k2 & C1 & C2 & C3); [lia|lia|unfold is_filler; lia|done|lia|].
  rewrite Z2Nat.id in C2 by lia. rewrite C1, bind_Ret_l. exists k2. split_and!; [done|lia|lia|]. intros Hlt.
  apply next_at_wrap. by replace Ncb with (ind2 + (k2 - k1)) by lia.
Qed.

(** ** What is combined *)

Lemma s16_add x y : s16 (s16 x + y) = s16 (x + y).
Proof.
  unfold s16. f_equal. replace ((x + 2 ^ 15) mod 2 ^ 16 - 2 ^ 15 + y + 2 ^ 15) with ((x + 2 ^ 15) mod 2 ^ 16 + y) by lia.
  rewrite Zplus_mod_idemp_l. f_equal. lia.
Qed.

(** the values sent for a position among the first [k] *)
Definition hits (k i : Z) : list Z := filter (fun j => sel j = i) (seqZ 0 k).

Lemma hits_succ k i : 0 <= k -> hits (k + 1) i = hits k i ++ (if decide (sel k = i) then [k] else []).
Proof using All.
  intros Hk. unfold hits. rewrite seqZ_app, list.filter_app, Z.add_0_l by lia. change (seqZ k 1) with [k]. f_equal.
Qed.

Lemma combined_at k i : 0 <= i < Ncb -> -2 ^ 15 <= at_pos d0 i < 2 ^ 15 ->
  at_pos (combined k) i = s16 (at_pos d0 i + sumZ (at_pos soft) (hits (Z.of_nat k) i)).
Proof using All.
  intros Hi Hb. induction k as [|k IH]; cbn [combined].
  - simpl. unfold s16. rewrite Z.mod_small; lia.
  - replace (Z.of_nat (S k)) with (Z.of_nat k + 1) by lia. rewrite hits_succ, sumZ_app by lia.
    pose proof (sel_range (Z.of_nat k)) as [Hr _]. destruct (decide (sel (Z.of_nat k) = i)) as [->|Hne].
    + rewrite at_pos_insert_eq by (rewrite zlen_combined; lia). rewrite IH, s16_add. simpl. f_equal. lia.
    + rewrite at_pos_insert_ne by (lia || done). rewrite IH. simpl. by rewrite Z.add_0_r.
Qed.

Lemma combined_rest k i : Ncb <= i \/ is_filler i -> 0 <= i -> at_pos (combined k) i = at_pos d0 i.
Proof using All.
  intros Hi H0. induction k as [|k IH]; cbn [combined]; [done|]. pose proof (sel_range (Z.of_nat k)) as [Hr Hf].
  rewrite at_pos_insert_ne; [done|lia|done|]. intros <-. destruct Hi; [lia|done].
Qed.
End receive.

(** in a round every position that is no filler is selected once *)
Lemma sel_at i k : 0 <= i < Ncb -> ~ is_filler i -> exists j, k <= j < k + (Ncb - F) /\ sel j = i /\
  forall j', k <= j' < k + (Ncb - F) -> sel j' = i -> j' = j.
Proof using All.
  intros Hi Hf. pose proof (rank_range i Hi) as (R1 & _ & R3). specialize (R3 Hf).
  set (n := Ncb - F) in *. set (j := k + (rank i - s - k) mod n). pose proof (Z.mod_pos_bound (rank i - s - k) n Hn) as Hj.
  assert (Hsel : sel j = i).
  { apply sel_next; [|done|done]. exists (- ((rank i - s - k) / n)). fold n. unfold j.
    pose proof (Z.div_mod (rank i - s - k) n ltac:(lia)). lia. }
  exists j. split; [unfold j; lia|]. split; [done|]. intros j' Hj' Hs'. rewrite <- Hsel in Hs'. unfold sel in Hs'. fold n in Hs'.
  assert (Hm : (s + j') mod n = (s + j) mod n).
  { pose proof (Z.mod_pos_bound (s + j') n Hn). pose proof (Z.mod_pos_bound (s + j) n Hn). revert Hs'. unfold position.
    destruct (Z.ltb_spec ((s + j') mod n) Fo), (Z.ltb_spec ((s + j) mod n) Fo); lia. }
  pose proof (Z.div_mod (s + j') n ltac:(lia)) as D1. pose proof (Z.div_mod (s + j) n ltac:(lia)) as D2. rewrite Hm in D1.
  assert (Hj0 : k <= j < k + n) by (unfold j; lia). clearbody j. assert ((s + j') / n = (s + j) / n) by nia. lia.
Qed.

Lemma hits_short i k m : 0 <= i < Ncb -> ~ is_filler i -> 0 <= m <= Ncb - F ->
  zlen (filter (fun j => sel j = i) (seqZ k m)) <= 1 /\ (m = Ncb - F -> zlen (filter (fun j => sel j = i) (seqZ k m)) = 1).
Proof using All.
  intros Hi Hf Hm. destruct (sel_at i k Hi Hf) as (j & Hj & Hs' & Hu).
  assert (Hperm : filter (fun j => sel j = i) (seqZ k m) ≡ₚ if decide (j < k + m) then [j] else []).
  { apply NoDup_Permutation; [apply list.NoDup_filter, NoDup_seqZ|destruct (decide _); repeat constructor; set_solver|].
    intros x. rewrite list_elem_of_filter, elem_of_seqZ. split.
    - intros [Hx Hr]. pose proof (Hu x ltac:(lia) Hx) as ->. rewrite decide_True by lia. by apply list_elem_of_singleton.
    - destruct (decide (j < k + m)); [|set_solver]. intros ->%list_elem_of_singleton. split; [done|lia]. }
  unfold zlen. rewrite Hperm. destruct (decide (j < k + m)); simpl; lia.
Qed.

(** the number of times a position is sent *)
Lemma hits_count E i : 0 <= E -> 0 <= i < Ncb -> ~ is_filler i ->
  E / (Ncb - F) <= zlen (hits E i) <= E / (Ncb - F) + 1.
Proof using All.
  intros HE Hi Hf. set (n := Ncb - F) in *. pose proof (Z.div_mod E n ltac:(lia)) as Hdm. pose proof (Z.mod_pos_bound E n Hn) as Hr.
  assert (Hq : forall q : nat, zlen (hits (n * Z.of_nat q) i) = Z.of_nat q).
  { induction q as [|q IH]; [by rewrite Z.mul_0_r|]. unfold hits in *. replace (n * Z.of_nat (S q)) with (n * Z.of_nat q + n) by lia.
    rewrite seqZ_app, list.filter_app, zlen_app, IH by lia. destruct (hits_short i (0 + n * Z.of_nat q) n Hi Hf) as [_ H]; [lia|].
    rewrite H by done. lia. }
  pose proof (Z.div_pos E n HE Hn) as Hd. specialize (Hq (Z.to_nat (E / n))). rewrite Z2Nat.id in Hq by lia.
  rewrite Hdm at 2 3. unfold hits in *. rewrite seqZ_app, list.filter_app, zlen_app, Hq by lia.
  destruct (hits_short i (0 + n * (E / n)) (E mod n) Hi Hf) as [H _]; [lia|].
  pose proof (zlen_nonneg (filter (fun j => sel j = i) (seqZ (0 + n * (E / n)) (E mod n)))). lia.
Qed.
End selection.
