(* ===== verification/RateMatchPath.v ===== *)
(** Coded bits from the encoder to the soft buffer of the decoder: bit selection,
    interleaving, what the air makes of the bits, deinterleaving, combination. *)

From stdpp Require Import base tactics list numbers sets.
From Stdlib Require Import ZArith Lia.
From S2P Require Import Prelude Arrays RateMatch RateMatchSpec.

(** ** The start of the selection *)

(** the arguments of the two functions that the standard allows *)
Record selection_params (Tbslbrm BG Z C rvidx : Z) : Prop := {
  sp_BG : BG = 1 \/ BG = 2;
  sp_rv : 0 <= rvidx <= 3;
  sp_Z : 0 < Z <= 384;
  sp_C : 0 < C;
  sp_Tb : 0 <= Tbslbrm /\ 3 * Tbslbrm < 2 ^ 32 }.

(** [(k0 * Ncb / N) * Z] with [k0 < N / Z] *)
Lemma start_below k0 Ncb Z m : 0 < Z -> 0 <= k0 < m -> 0 < Ncb -> 0 <= k0 * Ncb / (m * Z) * Z < Ncb.
Proof.
  intros HZ Hk HN. pose proof (Z.mul_div_le (k0 * Ncb) (m * Z) ltac:(nia)) as H.
  pose proof (Z.div_pos (k0 * Ncb) (m * Z) ltac:(nia) ltac:(nia)). nia.
Qed.

Lemma bit_selection_start_ok Tbslbrm BG Z C rvidx : selection_params Tbslbrm BG Z C rvidx ->
  exists Ncb ind, bit_selection_start Tbslbrm BG Z C rvidx = Ret (Ncb, ind) /\ 0 <= Ncb <= 66 * 384 /\ (0 < Ncb -> 0 <= ind < Ncb).
Proof.
  intros [HB Hr HZ HC [HT1 HT2]]. unfold bit_selection_start.
  set (m := if BG =? 1 then 66 else 50).
  assert (Hm : (if BG =? 1 then 66 * Z else 50 * Z) = m * Z) by (unfold m; by destruct (BG =? 1)).
  assert (Hm2 : m = 66 \/ m = 50) by (unfold m; destruct (BG =? 1); auto).
  rewrite Hm, (u32_small (m * Z)), (u32_small (3 * Tbslbrm)) by lia.
  assert (Hk : exists k0, k0_factor BG rvidx = Ret k0 /\ 0 <= k0 < m).
  { assert (Hc : rvidx = 0 \/ rvidx = 1 \/ rvidx = 2 \/ rvidx = 3) by lia.
    destruct HB as [-> | ->], Hc as [-> | [-> | [-> | ->]]]; eexists; (split; [reflexivity|]); unfold m; simpl; lia. }
  destruct Hk as (k0 & -> & Hk0). rewrite bind_Ret_l, (proj2 (Z.eqb_neq (m * Z) 0)) by lia.
  set (Ncb := if Tbslbrm =? 0 then m * Z else Z.min (m * Z) (Z.quot (3 * Tbslbrm) (2 * C))).
  assert (HN : 0 <= Ncb <= 66 * 384).
  { assert (0 <= Z.quot (3 * Tbslbrm) (2 * C)) by (apply Z.quot_pos; lia). unfold Ncb. destruct (Tbslbrm =? 0); nia. }
  eexists Ncb, _. split; [reflexivity|]. split; [done|]. intros Hpos.
  rewrite (u32_small (k0 * Ncb)) by nia. rewrite Z.quot_div_nonneg by nia.
  pose proof (start_below k0 Ncb Z m ltac:(lia) Hk0 Hpos) as Hb. rewrite u32_small by lia. done.
Qed.

(** ** The two functions *)

Section matching.
Context (Tbslbrm BG Z C rvidx Ncb ind F Fo E : BinInt.Z).
Context (Hparams : selection_params Tbslbrm BG Z C rvidx) (Hstart : bit_selection_start Tbslbrm BG Z C rvidx = Ret (Ncb, ind)).
Context (HF : 0 <= F) (HFo : 0 <= Fo) (Hfill : Fo + F <= Ncb) (Hn : 0 < Ncb - F) (HE : Fo <= E < 2 ^ 31).

Local Abbreviation s := (rank F Fo ind).

Lemma start_range : 0 <= ind < Ncb /\ Ncb <= 66 * 384.
Proof using All.
  destruct (bit_selection_start_ok _ _ _ _ _ Hparams) as (N' & i' & Eq & HN & Hi). rewrite Hstart in Eq. injection Eq as <- <-.
  split; [apply Hi; lia|lia].
Qed.

Lemma start_rank : 0 <= s.
Proof using All. destruct start_range as [H _]. unfold rank. destruct (Z.ltb_spec ind Fo), (Z.ltb_spec ind (Fo + F)); lia. Qed.

(** the bits sent are those at the positions [sel] selects *)
Lemma rate_matching_sends d e0 : Ncb <= zlen d -> E <= zlen e0 ->
  (forall i, 0 <= i < Ncb -> at_pos d i = NR_NULL <-> is_filler F Fo i) ->
  nr_rate_matching_ldpc Tbslbrm BG Z d e0 C F Fo rvidx E = Ret (0, sent_buffer Ncb F Fo s d e0 E).
Proof using All.
  intros Hd He Hnull. destruct start_range as [Hi HN]. pose proof start_rank as Hs. pose proof (sp_C _ _ _ _ _ Hparams).
  unfold nr_rate_matching_ldpc. rewrite (proj2 (Z.eqb_neq C 0)) by lia. rewrite Hstart, bind_Ret_l.
  rewrite (proj2 (Z.ltb_ge E Fo)), (proj2 (Z.ltb_ge Ncb Fo)) by lia.
  destruct (first_bits_ok Ncb F Fo s HF HFo Hfill Hn Hs d e0 E Hd ltac:(lia) Hnull ind) as (k & E1 & Hk & Hx); [lia..|].
  rewrite E1, bind_Ret_l. rewrite (repeat_ok Ncb F Fo s HF HFo Hfill Hn Hs d e0 E) by (done || lia). done.
Qed.

(** what the combination starts from *)
Definition cleared (clear : BinInt.Z) (d : list BinInt.Z) : list BinInt.Z :=
  if clear =? 1 then replicate (Z.to_nat Ncb) 0 ++ drop (Z.to_nat Ncb) d else d.

Lemma zlen_cleared clear d : Ncb <= zlen d -> zlen (cleared clear d) = zlen d.
Proof using Hn HF. intros H. unfold cleared. destruct (clear =? 1); [|done]. rewrite zlen_app, zlen_drop. unfold zlen at 1. rewrite length_replicate. lia. Qed.

Lemma at_cleared clear d i : 0 <= i < Ncb -> at_pos (cleared clear d) i = if clear =? 1 then 0 else at_pos d i.
Proof using Hn HF.
  intros H. unfold cleared. destruct (clear =? 1); [|done]. unfold at_pos. apply list_lookup_total_correct.
  rewrite lookup_app_l by (rewrite length_replicate; lia). apply lookup_replicate. lia.
Qed.

Lemma at_cleared_rest clear d i : Ncb <= zlen d -> Ncb <= i -> at_pos (cleared clear d) i = at_pos d i.
Proof using Hn HF.
  intros Hd H. unfold cleared. destruct (clear =? 1); [|done]. unfold at_pos. rewrite !list_lookup_total_alt, lookup_app_r by (rewrite length_replicate; lia).
  rewrite length_replicate, lookup_drop. do 2 f_equal. lia.
Qed.

Lemma rate_matching_rx_combines clear d soft : Ncb <= zlen d -> E <= zlen soft ->
  nr_rate_matching_ldpc_rx Tbslbrm BG Z d soft C rvidx clear E F Fo =
    Ret (0, combined Ncb F Fo s soft (cleared clear d) (Z.to_nat E)).
Proof using All.
  intros Hd He. destruct start_range as [Hi HN]. pose proof start_rank as Hs. pose proof (sp_C _ _ _ _ _ Hparams).
  unfold nr_rate_matching_ldpc_rx. rewrite (proj2 (Z.eqb_neq C 0)) by lia. rewrite Hstart, bind_Ret_l.
  rewrite (proj2 (Z.ltb_ge E Fo)), (proj2 (Z.ltb_ge Ncb Fo)) by lia.
  assert (Hclear : (if clear =? 1 then mem_write d 0 (replicate (Z.to_nat Ncb) 0) else Ret d) = Ret (cleared clear d)).
  { unfold cleared. destruct (clear =? 1); [|done]. rewrite mem_write_ok by (unfold zlen; rewrite ?length_replicate; unfold zlen in Hd; lia).
    by rewrite length_replicate, Nat.add_0_l. }
  rewrite Hclear, bind_Ret_l.
  destruct (combine_first_ok Ncb F Fo s HF HFo Hfill Hn Hs soft (cleared clear d) E ltac:(rewrite zlen_cleared; lia) ltac:(lia) ind)
    as (k & E1 & Hk & Hx); [lia..|].
  unfold combine_first in E1. apply bind_Ret_inv in E1 as ([[i1 k1] d1] & A1 & E1). rewrite A1, bind_Ret_l.
  apply bind_Ret_inv in E1 as ([[i2 k2] d2] & A2 & E1). injection E1 as -> ->. rewrite A2, bind_Ret_l.
  rewrite (combine_repeats_ok Ncb F Fo s HF HFo Hfill Hn Hs soft (cleared clear d) E); [done|..];
    (done || rewrite ?zlen_cleared; lia || done).
Qed.
End matching.

(** ** Interleaving *)

Lemma put_column_ok rows : forall EQm i j p e f, 0 <= i -> 0 <= j < EQm -> 0 <= p -> (i + Z.of_nat rows) * EQm <= zlen e ->
  p + Z.of_nat rows <= zlen f ->
  exists f', put_column rows EQm i j p e f = Ret f' /\ zlen f' = zlen f /\
    forall q, 0 <= q -> at_pos f' q = if bool_decide (p <= q < p + Z.of_nat rows) then at_pos e ((i + (q - p)) * EQm + j) else at_pos f q.
Proof.
  induction rows as [|rows IH]; intros EQm i j p e f Hi Hj Hp He Hf; cbn [put_column].
  - exists f. split_and!; [done..|]. intros q Hq. by rewrite bool_decide_eq_false_2 by lia.
  - rewrite rd_at, bind_Ret_l, wr_at, bind_Ret_l by nia. destruct (IH EQm (i + 1) j (p + 1) e (<[Z.to_nat p := at_pos e (i * EQm + j)]> f))
      as (f' & E1 & E2 & E3); [lia|lia|lia|nia|unfold zlen in *; rewrite length_insert; lia|].
    exists f'. split_and!; [done|rewrite E2; unfold zlen; by rewrite length_insert|]. intros q Hq. rewrite E3 by done.
    destruct (decide (p = q)) as [->|Hne].
    + rewrite bool_decide_eq_false_2, bool_decide_eq_true_2 by lia. rewrite at_pos_insert_eq by lia. f_equal; lia.
    + rewrite at_pos_insert_ne by done. destruct (decide (p + 1 <= q < p + 1 + Z.of_nat rows)).
      * rewrite !bool_decide_eq_true_2 by lia. f_equal; lia.
      * by rewrite !bool_decide_eq_false_2 by lia.
Qed.

Lemma interleave_loop_ok cols : forall Qm EQm j e f, 0 < Qm -> 0 <= j -> j + Z.of_nat cols <= EQm -> Qm * EQm <= zlen e ->
  Qm * EQm <= zlen f ->
  exists f', interleave_loop cols Qm EQm j e f = Ret f' /\ zlen f' = zlen f /\
    forall q, 0 <= q -> at_pos f' q =
      if bool_decide (j * Qm <= q < (j + Z.of_nat cols) * Qm) then at_pos e (q mod Qm * EQm + q / Qm) else at_pos f q.
Proof.
  induction cols as [|cols IH]; intros Qm EQm j e f HQ Hj Hc He Hf; cbn [interleave_loop].
  - exists f. split_and!; [done..|]. intros q Hq. by rewrite bool_decide_eq_false_2 by lia.
  - destruct (put_column_ok (Z.to_nat Qm) EQm 0 j (j * Qm) e f) as (f1 & E1 & E2 & E3); [lia|lia|lia|lia|nia|].
    rewrite Z2Nat.id in E3 by lia. rewrite E1, bind_Ret_l.
    destruct (IH Qm EQm (j + 1) e f1) as (f' & D1 & D2 & D3); [lia|lia|lia|lia|lia|].
    exists f'. split_and!; [done|lia|]. intros q Hq. rewrite D3, E3 by done.
    destruct (decide (j * Qm <= q < j * Qm + Qm)) as [Hin|Hout].
    + rewrite bool_decide_eq_false_2, !bool_decide_eq_true_2 by lia.
      assert (q / Qm = j) as -> by (symmetry; apply Z.div_unique with (q - j * Qm); lia).
      assert (q mod Qm = q - j * Qm) as -> by (symmetry; apply Z.mod_unique with j; lia). f_equal; lia.
    + rewrite (bool_decide_eq_false_2 (j * Qm <= q < j * Qm + Qm)) by done.
      destruct (decide ((j + 1) * Qm <= q < (j + 1 + Z.of_nat cols) * Qm)).
      * by rewrite !bool_decide_eq_true_2 by lia.
      * by rewrite !bool_decide_eq_false_2 by lia.
Qed.

Lemma known_Qm_pos Qm : known_Qm Qm = true -> 0 < Qm.
Proof. unfold known_Qm. rewrite !orb_true_iff, !Z.eqb_eq. lia. Qed.

Lemma interleaving_ok E Qm e f : known_Qm Qm = true -> 0 <= E -> E mod Qm = 0 -> E <= zlen e -> E <= zlen f ->
  exists f', nr_interleaving_ldpc E Qm e f = Ret f' /\ zlen f' = zlen f /\
    (forall q, 0 <= q < E -> at_pos f' q = at_pos e (q mod Qm * (E / Qm) + q / Qm)) /\
    (forall q, E <= q -> at_pos f' q = at_pos f q).
Proof.
  intros HQ HE Hm He Hf. pose proof (known_Qm_pos _ HQ) as HQ0. unfold nr_interleaving_ldpc.
  rewrite (proj2 (Z.eqb_neq Qm 0)) by lia. rewrite Z.quot_div_nonneg by lia.
  assert (Hl : length (replicate (Z.to_nat E) 0) = Z.to_nat E) by apply length_replicate.
  rewrite mem_write_ok by (unfold zlen in *; rewrite ?Hl; lia). rewrite bind_Ret_l, HQ. rewrite Hl, Nat.add_0_l. cbn [take app Z.to_nat].
  pose proof (Z.div_mod E Qm ltac:(lia)) as Hdm. pose proof (Z.div_pos E Qm HE HQ0). rewrite Hm, Z.add_0_r in Hdm.
  set (f0 := replicate (Z.to_nat E) 0 ++ drop (Z.to_nat E) f).
  assert (Hf0 : zlen f0 = zlen f) by (unfold f0; rewrite zlen_app, zlen_drop; unfold zlen at 1; rewrite Hl; lia).
  destruct (interleave_loop_ok (Z.to_nat (E / Qm)) Qm (E / Qm) 0 e f0) as (f' & E1 & E2 & E3); [lia..|].
  exists f'. split_and!; [done|lia| |]; intros q Hq; rewrite E3 by lia.
  - by rewrite bool_decide_eq_true_2 by nia.
  - rewrite bool_decide_eq_false_2 by nia. unfold f0, at_pos. rewrite !list_lookup_total_alt, lookup_app_r by (rewrite Hl; lia).
    rewrite Hl, lookup_drop. do 2 f_equal. lia.
Qed.

Lemma get_column_ok rows : forall EQm i j p e f, 0 <= i -> 0 <= j < EQm -> 0 <= p -> (i + Z.of_nat rows) * EQm <= zlen e ->
  p + Z.of_nat rows <= zlen f ->
  exists e', get_column rows EQm i j p e f = Ret e' /\ zlen e' = zlen e /\
    forall x c, 0 <= x -> 0 <= c < EQm -> at_pos e' (x * EQm + c) =
      if bool_decide (c = j /\ i <= x < i + Z.of_nat rows) then at_pos f (p + (x - i)) else at_pos e (x * EQm + c).
Proof.
  induction rows as [|rows IH]; intros EQm i j p e f Hi Hj Hp He Hf; cbn [get_column].
  - exists e. split_and!; [done..|]. intros x c Hx Hc. by rewrite bool_decide_eq_false_2 by lia.
  - rewrite rd_at, bind_Ret_l, wr_at, bind_Ret_l by nia. destruct (IH EQm (i + 1) j (p + 1) (<[Z.to_nat (i * EQm + j) := at_pos f p]> e) f)
      as (e' & E1 & E2 & E3); [lia|lia|lia|unfold zlen in *; rewrite length_insert; nia|lia|].
    exists e'. split_and!; [done|rewrite E2; unfold zlen; by rewrite length_insert|]. intros x c Hx Hc. rewrite E3 by done.
    destruct (decide (c = j /\ x = i)) as [[-> ->]|Hne].
    + rewrite bool_decide_eq_false_2, bool_decide_eq_true_2 by lia. rewrite at_pos_insert_eq by nia. f_equal; lia.
    + rewrite at_pos_insert_ne; [|nia|nia|].
      2:{ intros Heq. apply Hne. destruct (Z.lt_trichotomy x i) as [|[|]]; nia. }
      destruct (decide (c = j /\ i + 1 <= x < i + 1 + Z.of_nat rows)).
      * rewrite !bool_decide_eq_true_2 by lia. f_equal; lia.
      * by rewrite !bool_decide_eq_false_2 by lia.
Qed.

Lemma deinterleave_loop_ok cols : forall Qm EQm j e f, 0 < Qm -> 0 <= j -> j + Z.of_nat cols <= EQm -> Qm * EQm <= zlen e ->
  Qm * EQm <= zlen f ->
  exists e', deinterleave_loop cols Qm EQm j e f = Ret e' /\ zlen e' = zlen e /\
    forall x c, 0 <= x < Qm -> 0 <= c < EQm -> at_pos e' (x * EQm + c) =
      if bool_decide (j <= c < j + Z.of_nat cols) then at_pos f (c * Qm + x) else at_pos e (x * EQm + c).
Proof.
  induction cols as [|cols IH]; intros Qm EQm j e f HQ Hj Hc He Hf; cbn [deinterleave_loop].
  - exists e. split_and!; [done..|]. intros x c Hx Hcc. by rewrite bool_decide_eq_false_2 by lia.
  - destruct (get_column_ok (Z.to_nat Qm) EQm 0 j (j * Qm) e f) as (e1 & E1 & E2 & E3); [lia|lia|lia|lia|nia|].
    rewrite Z2Nat.id in E3 by lia. rewrite E1, bind_Ret_l.
    destruct (IH Qm EQm (j + 1) e1 f) as (e' & D1 & D2 & D3); [lia|lia|lia|lia|lia|].
    exists e'. split_and!; [done|lia|]. intros x c Hx Hcc. rewrite D3, E3 by (done || lia).
    destruct (decide (c = j)) as [->|Hne].
    + rewrite bool_decide_eq_false_2, !bool_decide_eq_true_2 by lia. f_equal; lia.
    + rewrite (bool_decide_eq_false_2 (c = j /\ _)) by lia. destruct (decide (j + 1 <= c < j + 1 + Z.of_nat cols)).
      * by rewrite !bool_decide_eq_true_2 by lia.
      * by rewrite !bool_decide_eq_false_2 by lia.
Qed.

Lemma deinterleaving_ok E Qm e f : known_Qm Qm = true -> 0 <= E -> E mod Qm = 0 -> E <= zlen e -> E <= zlen f ->
  exists e', nr_deinterleaving_ldpc E Qm e f = Ret e' /\ zlen e' = zlen e /\
    forall x c, 0 <= x < Qm -> 0 <= c < E / Qm -> at_pos e' (x * (E / Qm) + c) = at_pos f (c * Qm + x).
Proof.
  intros HQ HE Hm He Hf. pose proof (known_Qm_pos _ HQ) as HQ0. unfold nr_deinterleaving_ldpc. rewrite HQ.
  rewrite rem_mod, Hm by lia. cbn [negb Z.eqb]. rewrite Z.quot_div_nonneg by lia.
  pose proof (Z.div_mod E Qm ltac:(lia)) as Hdm. pose proof (Z.div_pos E Qm HE HQ0). rewrite Hm, Z.add_0_r in Hdm.
  destruct (deinterleave_loop_ok (Z.to_nat (E / Qm)) Qm (E / Qm) 0 e f) as (e' & E1 & E2 & E3); [lia..|].
  exists e'. split_and!; [done..|]. intros x c Hx Hc. rewrite E3 by done. by rewrite bool_decide_eq_true_2 by lia.
Qed.

(** the receiver has the soft values in the order of the bits *)
Lemma deinterleave_interleave E Qm e f e0 llr : known_Qm Qm = true -> 0 <= E -> E mod Qm = 0 -> E <= zlen e -> E <= zlen f ->
  E <= zlen e0 ->
  exists fi, nr_interleaving_ldpc E Qm e f = Ret fi /\ zlen fi = zlen f /\ (forall q, E <= q -> at_pos fi q = at_pos f q) /\
    forall rx, E <= zlen rx -> (forall q, 0 <= q < E -> at_pos rx q = llr (at_pos fi q)) ->
    exists soft, nr_deinterleaving_ldpc E Qm e0 rx = Ret soft /\
      zlen soft = zlen e0 /\ forall q, 0 <= q < E -> at_pos soft q = llr (at_pos e q).
Proof.
  intros HQ HE Hm He Hf He0. pose proof (known_Qm_pos _ HQ) as HQ0.
  destruct (interleaving_ok E Qm e f HQ HE Hm He Hf) as (fi & E1 & E2 & E3 & E4).
  exists fi. split_and!; [done..|]. intros rx Hrx Hllr.
  destruct (deinterleaving_ok E Qm e0 rx HQ HE Hm He0 Hrx) as (soft & D1 & D2 & D3).
  exists soft. split_and!; [done..|]. intros q Hq.
  pose proof (Z.div_mod E Qm ltac:(lia)) as Hdm. rewrite Hm, Z.add_0_r in Hdm. set (n := E / Qm) in *.
  assert (Hn : 0 < n) by nia. pose proof (Z.div_mod q n ltac:(lia)) as Hq2. pose proof (Z.mod_pos_bound q n Hn) as Hc.
  assert (Hx : 0 <= q / n < Qm) by (split; [apply Z.div_pos; lia|apply Z.div_lt_upper_bound; lia]).
  rewrite Hq2, Z.mul_comm, D3 by lia. set (p := q mod n * Qm + q / n).
  assert (Hp : 0 <= p < E) by (unfold p; nia). rewrite Hllr, E3 by done.
  assert (p / Qm = q mod n) as -> by (symmetry; apply Z.div_unique with (q / n); unfold p; lia).
  assert (p mod Qm = q / n) as -> by (symmetry; apply Z.mod_unique with (q mod n); unfold p; lia). done.
Qed.

(** ** The path *)

Lemma at_sent_buffer Ncb F Fo s d e E j : 0 <= j < E -> at_pos (sent_buffer Ncb F Fo s d e E) j = at_pos d (sel Ncb F Fo s j).
Proof.
  intros Hj. unfold at_pos at 1, sent_buffer, sent. apply list_lookup_total_correct. rewrite lookup_app_l by (rewrite length_map, length_seqZ; lia).
  rewrite list_lookup_fmap, lookup_seqZ_lt by lia. cbn [option_map fmap option_fmap]. by replace (0 + Z.of_nat (Z.to_nat j)) with j by lia.
Qed.

Lemma sumZ_const {A} (f : A -> Z) c l : Forall (fun x => f x = c) l -> sumZ f l = zlen l * c.
Proof. induction 1 as [|x l Hx _ IH]; [done|]. cbn [sumZ]. rewrite zlen_cons, IH, Hx. lia. Qed.

Lemma s16_small x : - 2 ^ 15 <= x < 2 ^ 15 -> s16 x = x.
Proof. intros H. unfold s16. rewrite Z.mod_small; lia. Qed.

(** a filler is never selected *)
Lemma hits_filler Ncb F Fo s E i : 0 <= F -> 0 <= Fo -> Fo + F <= Ncb -> 0 < Ncb - F -> 0 <= s -> Fo <= i < Fo + F ->
  zlen (hits Ncb F Fo s E i) = 0.
Proof.
  intros HF HFo Hfill Hn Hs Hi. unfold hits. assert (filter (fun j => sel Ncb F Fo s j = i) (seqZ 0 E) = []) as ->; [|done].
  destruct (filter _ _) as [|j l] eqn:Ej; [done|]. exfalso.
  assert (Hj : j ∈ filter (fun j => sel Ncb F Fo s j = i) (seqZ 0 E)) by (rewrite Ej; left).
  apply list_elem_of_filter in Hj as [Hj _]. destruct (sel_range Ncb F Fo s HF HFo Hfill Hn Hs j) as [_ Hnf]. apply Hnf. by rewrite Hj.
Qed.

(** what arrives of [f] when the air turns a bit into [llr] of it *)
Definition received (llr : Z -> Z) (E : Z) (f rx : list Z) : Prop :=
  E <= zlen rx /\ forall q, 0 <= q < E -> at_pos rx q = llr (at_pos f q).

(** the path of the bits, with the number of times each is received *)
Lemma path_soft Tbslbrm BG Z C rvidx F Foffset E Qm d e f e0 d0 clear llr Ncb ind :
  selection_params Tbslbrm BG Z C rvidx -> bit_selection_start Tbslbrm BG Z C rvidx = Ret (Ncb, ind) ->
  0 <= F -> 0 <= Foffset -> Foffset + F <= Ncb -> F < Ncb -> Foffset <= E < 2 ^ 31 ->
  known_Qm Qm = true -> E mod Qm = 0 ->
  Ncb <= zlen d -> E <= zlen e -> E <= zlen f -> E <= zlen e0 -> Ncb <= zlen d0 ->
  (forall i, 0 <= i < Ncb -> at_pos d i = NR_NULL <-> Foffset <= i < Foffset + F) ->
  (forall i, 0 <= i < Ncb -> clear <> 1 -> -2 ^ 15 <= at_pos d0 i < 2 ^ 15) ->
  exists e' f',
    nr_rate_matching_ldpc Tbslbrm BG Z d e C F Foffset rvidx E = Ret (0, e') /\
    nr_interleaving_ldpc E Qm e' f = Ret f' /\ zlen f' = zlen f /\ (forall q, E <= q -> at_pos f' q = at_pos f q) /\
    forall rx, received llr E f' rx -> exists soft d',
      nr_deinterleaving_ldpc E Qm e0 rx = Ret soft /\
      nr_rate_matching_ldpc_rx Tbslbrm BG Z d0 soft C rvidx clear E F Foffset = Ret (0, d') /\
      zlen d' = zlen d0 /\
      (forall i, 0 <= i < Ncb ->
        let base := if clear =? 1 then 0 else at_pos d0 i in
        if bool_decide (Foffset <= i < Foffset + F) then at_pos d' i = base
        else at_pos d' i = s16 (base + zlen (hits Ncb F Foffset (rank F Foffset ind) E i) * llr (at_pos d i))) /\
      (forall i, Ncb <= i -> at_pos d' i = at_pos d0 i).
Proof.
  intros Hp Hst HF HFo Hfill Hn HE HQ Hm Hd He Hf He0 Hd0 Hnull Hrange. assert (Hn' : 0 < Ncb - F) by lia.
  pose proof (start_rank _ _ _ _ _ _ _ _ _ _ Hp Hst HF HFo Hfill Hn' HE) as Hs. set (s := rank F Foffset ind) in *.
  pose proof (rate_matching_sends _ _ _ _ _ _ _ _ _ _ Hp Hst HF HFo Hfill Hn' HE d e Hd He Hnull) as T1.
  set (e' := sent_buffer Ncb F Foffset s d e E) in *.
  assert (He' : zlen e' = zlen e) by (unfold e', sent_buffer; rewrite zlen_app, (zlen_sent Ncb F Foffset s HF HFo Hfill Hn' Hs d e E Hd), zlen_drop by (done || lia); lia).
  destruct (deinterleave_interleave E Qm e' f e0 llr HQ ltac:(lia) Hm ltac:(lia) Hf He0) as (f' & T2 & Hf' & Hrest & Hrx).
  exists e', f'. split_and!; [done..|]. intros rx [Hz Hr0]. destruct (Hrx rx Hz Hr0) as (soft & T3 & Hsl & Hsoft).
  pose proof (rate_matching_rx_combines _ _ _ _ _ _ _ _ _ _ Hp Hst HF HFo Hfill Hn' HE clear d0 soft Hd0 ltac:(lia)) as T4.
  pose proof (zlen_cleared Ncb F HF Hn' clear d0 Hd0) as Hzc. assert (Hc0 : Ncb <= zlen (cleared Ncb clear d0)) by lia.
  exists soft. eexists. split_and!; [exact T3|exact T4| | |].
  - rewrite (zlen_combined Ncb F Foffset s HF HFo Hfill Hn' Hs soft _ E Hc0 ltac:(lia)). done.
  - intros i Hi base.
    assert (Hb : base = at_pos (cleared Ncb clear d0) i) by (by rewrite (at_cleared Ncb F HF Hn' clear d0 i Hi)). clearbody base. subst base.
    case_bool_decide as Hfi; [apply (combined_rest Ncb F Foffset s HF HFo Hfill Hn' Hs soft _ E Hc0); [lia|by right|lia]|].
    rewrite (combined_at Ncb F Foffset s HF HFo Hfill Hn' Hs soft _ E Hc0)
      by (done || lia || (rewrite (at_cleared Ncb F HF Hn'); [destruct (Z.eqb_spec clear 1); [lia|auto]|done])).
    rewrite Z2Nat.id by lia. rewrite (sumZ_const _ (llr (at_pos d i))); [done|].
    apply list.Forall_forall. intros j [Hj Hr]%list_elem_of_filter. apply elem_of_seqZ in Hr. rewrite Hsoft by lia. subst i.
    unfold e'. by rewrite at_sent_buffer by lia.
  - intros i Hi. rewrite (combined_rest Ncb F Foffset s HF HFo Hfill Hn' Hs soft _ E Hc0) by (lia || by left). by apply (at_cleared_rest Ncb F HF Hn').
Qed.

Lemma received_map llr E f : 0 <= E <= zlen f -> received llr E f (map llr f).
Proof.
  intros H. split; [unfold zlen in *; rewrite length_map; lia|]. intros p Hp. unfold at_pos, zlen in *.
  destruct (lookup_lt_is_Some_2 f (Z.to_nat p)) as [y Hy]; [lia|].
  rewrite (list_lookup_total_correct _ _ _ Hy). apply list_lookup_total_correct. by rewrite list_lookup_fmap, Hy.
Qed.

(** C18: the coded bits of a segment through rate matching, interleaving, the air and
    back. [d] holds the coded bits with [NR_NULL] at the [F] filler positions from
    [Foffset] on, [llr] is what the demodulator makes of a bit. Every call returns. Bit
    [j] that is sent is the one at the position [sel j]: the fillers left out, the
    positions follow each other around the circular buffer from where the redundancy
    version starts. In the soft buffer every position has gained the soft value of its
    own bit once for each [j] below [E] with [sel j] there, modulo the width of
    [int16_t], so never the value of another bit: it starts from zero when [clear] is set
    and from what earlier transmissions left when it is not. Filler positions, and those
    whose bit was not sent, gain nothing; every other one was sent as often as [E] bits
    go around the buffer, or once more. What lies behind the circular buffer is left as
    it was. *)
Theorem rate_matching_path Tbslbrm BG Z C rvidx F Foffset E Qm d e f e0 d0 clear llr Ncb ind :
  selection_params Tbslbrm BG Z C rvidx -> bit_selection_start Tbslbrm BG Z C rvidx = Ret (Ncb, ind) ->
  0 <= F -> 0 <= Foffset -> Foffset + F <= Ncb -> F < Ncb -> Foffset <= E < 2 ^ 31 ->
  known_Qm Qm = true -> E mod Qm = 0 ->
  Ncb <= zlen d -> E <= zlen e -> E <= zlen f -> E <= zlen e0 -> Ncb <= zlen d0 ->
  (forall i, 0 <= i < Ncb -> at_pos d i = NR_NULL <-> Foffset <= i < Foffset + F) ->
  (forall i, 0 <= i < Ncb -> -2 ^ 15 <= at_pos d0 i < 2 ^ 15) ->
  let sel := sel Ncb F Foffset (rank F Foffset ind) in
  let times i := zlen (filter (fun j => sel j = i) (seqZ 0 E)) in
  exists e' f' soft d',
    nr_rate_matching_ldpc Tbslbrm BG Z d e C F Foffset rvidx E = Ret (0, e') /\
    (forall j, 0 <= j < E -> at_pos e' j = at_pos d (sel j)) /\
    nr_interleaving_ldpc E Qm e' f = Ret f' /\
    nr_deinterleaving_ldpc E Qm e0 (map llr f') = Ret soft /\
    nr_rate_matching_ldpc_rx Tbslbrm BG Z d0 soft C rvidx clear E F Foffset = Ret (0, d') /\
    zlen d' = zlen d0 /\
    (forall i, 0 <= i < Ncb ->
      let base := if clear =? 1 then 0 else at_pos d0 i in
      at_pos d' i = s16 (base + times i * llr (at_pos d i)) /\
      if bool_decide (Foffset <= i < Foffset + F) then times i = 0 else E / (Ncb - F) <= times i <= E / (Ncb - F) + 1) /\
    (forall i, Ncb <= i -> at_pos d' i = at_pos d0 i).
Proof.
  intros Hp Hst HF HFo Hfill Hn HE HQ Hm Hd He Hf He0 Hd0 Hnull Hrange sel times.
  pose proof (rate_matching_sends _ _ _ _ _ _ _ _ _ _ Hp Hst HF HFo Hfill ltac:(lia) HE d e Hd He Hnull) as T0.
  destruct (path_soft Tbslbrm BG Z C rvidx F Foffset E Qm d e f e0 d0 clear llr Ncb ind)
    as (e' & f' & T1 & T2 & Hzf & _ & Hrx); try done; [by intros; apply Hrange|].
  destruct (Hrx (map llr f')) as (soft & d' & T3 & T4 & Hz & Hd' & Hrest); [by apply received_map; lia|].
  exists e', f', soft, d'. split_and!; [done| |done..| |done].
  { intros j Hj. rewrite T1 in T0. injection T0 as ->. by apply at_sent_buffer. }
  assert (Hs : 0 <= rank F Foffset ind) by (eapply start_rank; (done || lia)).
  intros i Hi base. specialize (Hd' i Hi). cbv zeta in Hd'. fold base in Hd'. case_bool_decide as Hfi.
  - assert (Ht : times i = 0) by (apply hits_filler; (done || lia)).
    rewrite Ht, Hd', Z.mul_0_l, Z.add_0_r. split; [|done]. symmetry. apply s16_small. unfold base.
    destruct (clear =? 1); [lia|by apply Hrange].
  - split; [exact Hd'|]. apply hits_count; (done || lia).
Qed.

(** ** An example *)

(** a hundred coded bits with ten fillers, sent from the third redundancy version on
    in 120 bits *)
Definition demo_coded : list Z := map (fun i => if (16 <=? i) && (i <? 26) then NR_NULL else i * i mod 3 mod 2) (seqZ 0 100).
Definition demo_llr (b : Z) : Z := if b =? 0 then 5 else -5.

Lemma below_forallb (P : Z -> Prop) (p : Z -> bool) n : (forall i, p i = true -> P i) -> forallb p (seqZ 0 n) = true ->
  forall i, 0 <= i < n -> P i.
Proof. intros H Hp i Hi. apply H. rewrite forallb_forall in Hp. apply Hp, list_elem_of_In, elem_of_seqZ. lia. Qed.

Lemma demo_coded_null i : 0 <= i < 100 -> at_pos demo_coded i = NR_NULL <-> 16 <= i < 16 + 10.
Proof.
  revert i. apply (below_forallb _ (fun i => Bool.eqb (at_pos demo_coded i =? NR_NULL) ((16 <=? i) && (i <? 26)))); [|by vm_compute].
  intros j H%Bool.eqb_prop. rewrite <- Z.eqb_eq, H. lia.
Qed.

Lemma rate_matching_path_witness :
  exists e' f' soft d',
    nr_rate_matching_ldpc 0 2 2 demo_coded (replicate 120 0) 1 10 16 2 120 = Ret (0, e') /\
    nr_interleaving_ldpc 120 4 e' (replicate 120 0) = Ret f' /\
    nr_deinterleaving_ldpc 120 4 (replicate 120 0) (map demo_llr f') = Ret soft /\
    nr_rate_matching_ldpc_rx 0 2 2 (replicate 100 7) soft 1 2 0 120 10 16 = Ret (0, d') /\
    at_pos d' 20 = 7 /\ at_pos e' 0 = at_pos demo_coded 50 /\ at_pos d' 50 = s16 (7 + 2 * demo_llr (at_pos demo_coded 50)).
Proof.
  destruct (rate_matching_path 0 2 2 1 2 10 16 120 4 demo_coded (replicate 120 0) (replicate 120 0) (replicate 120 0) (replicate 100 7)
    0 demo_llr 100 50) as (e' & f' & soft & d' & H1 & H2 & H3 & H4 & H5 & _ & H6 & _);
    [split; lia|reflexivity|lia|lia|lia|lia|lia|reflexivity|reflexivity|by vm_compute..|exact demo_coded_null| |].
  - apply (below_forallb _ (fun i => at_pos (replicate 100 7) i =? 7)); [|by vm_compute].
    intros j Hj%Z.eqb_eq. rewrite Hj. lia.
  - exists e', f', soft, d'. split_and!; [done..| | |].
    + exact (proj1 (H6 20 ltac:(lia))).
    + exact (H2 0 ltac:(lia)).
    + exact (proj1 (H6 50 ltac:(lia))).
Defined.
