(* ===== verification/LdpcSegment.v ===== *)
(** Encoding and decoding of the segments of transport blocks
    (nrLDPC_coding_segment_encoder.c and nrLDPC_coding_segment_decoder.c in
    src/openair1/PHY/CODING/nrLDPC_coding/nrLDPC_coding_segment). The LDPC encoder and
    decoder proper are loaded at run time and called through the function pointers of
    [ldpc_interface_segment]; here they are parameters.

    The work is handed to a thread pool. An encoding task covers eight segments of one
    transport block and writes its part of the output of that block; a decoding task
    has the buffers of one segment to itself. *)

From stdpp Require Import base tactics list numbers.
From Stdlib Require Import ZArith Lia.
From S2P Require Import Prelude Crc RateMatch Tbs.

Definition u16 (x : Z) : Z := x mod 2 ^ 16.

(** the values of an array from an offset on *)
Definition from_offset {A} (b : list Z) (off : Z) (f : list Z -> outcome (list Z)) (k : list Z -> outcome A) : outcome A :=
  if (0 <=? off) && (off <=? zlen b) then
    r ← f (drop (Z.to_nat off) b); k (take (Z.to_nat off) b ++ r)
  else Undef.

(** ** Encoding *)

(** [encoder_implemparams_t] as the encoder library sees it *)
Record encoder_implemparams := mk_impp {
  n_segments : Z; macro_num : Z; impp_K : Z; impp_Kb : Z; impp_Zc : Z; impp_F : Z; impp_BG : Z }.

(** [nrLDPC_TB_encoding_parameters_t], each segment with its share of coded bits and
    its code block *)
Record TB_encoding_parameters := mk_tbe {
  te_Qm : Z; te_BG : Z; te_rv_index : Z; te_tbslbrm : Z; te_Kb : Z; te_K : Z; te_Z : Z; te_F : Z; te_C : Z;
  te_E : list Z; te_c : list (list Z) }.

(** the first segments of a transport block, their shares added up *)
Definition offset_of (tb : TB_encoding_parameters) (rr : Z) : Z := u32 (sumZ id (take (Z.to_nat rr) (te_E tb))).

Section encoder.
(** [LDPCencoder(c, d, impp)]: the code blocks, and the buffers for the coded bits of
    the segments of the task *)
Context (LDPCencoder : encoder_implemparams -> list (list Z) -> list (list Z) -> outcome (list (list Z))).

(** the loop over the segments of a task; [ds] are the buffers [d[rr]] on *)
Fixpoint code_segments (ds : list (list Z)) (rr : Z) (tb : TB_encoding_parameters) (impp : encoder_implemparams)
    (r_offset : Z) (output : list Z) : outcome (list Z) :=
  match ds with
  | [] => Ret output
  | d :: ds =>
      let Foffset := u32 (impp_K impp - impp_F impp - 2 * impp_Zc impp) in
      d ← (if 0 <? impp_F impp then mem_write d Foffset (replicate (Z.to_nat (impp_F impp)) NR_NULL) else Ret d);
      match te_E tb !! Z.to_nat rr with
      | None => Undef
      | Some E =>
          let e := replicate (Z.to_nat E) 0 in
          '(_, e) ← nr_rate_matching_ldpc (te_tbslbrm tb) (impp_BG impp) (u16 (impp_Zc impp)) d e (u8 (n_segments impp))
                      (impp_F impp) Foffset (te_rv_index tb) E;
          from_offset output r_offset (nr_interleaving_ldpc E (te_Qm tb) e)
            (code_segments ds (rr + 1) tb impp (u32 (r_offset + E)))
      end
  end.

(** [tmp] is what the automatic array of eight buffers holds *)
Definition ldpc8blocks_coding_segment (tmp : list (list Z)) (tb : TB_encoding_parameters) (impp : encoder_implemparams)
    (output : list Z) : outcome (list Z) :=
  let first := u32 (macro_num impp * 8) in
  let count := Z.min (n_segments impp - first) 8 in
  ds ← LDPCencoder impp (take (Z.to_nat (te_C tb)) (te_c tb)) (take (Z.to_nat count) tmp);
  code_segments (take (Z.to_nat count) ds) first tb impp (offset_of tb first) output.

(** the parameters of task [j] *)
Definition task_impp (tb : TB_encoding_parameters) (j : Z) : encoder_implemparams :=
  mk_impp (te_C tb) j (te_K tb) (te_Kb tb) (te_Z tb) (te_F tb) (te_BG tb).

(** the number of tasks *)
Definition task_count (C : Z) : Z := Z.quot C 8 + (if Z.land C 7 =? 0 then 0 else 1).

(** [nrLDPC_prepare_TB_encoding]: the tasks [j < n_seg], which the pool runs in some
    order *)
Fixpoint run_tasks (tmp : list (list Z)) (tb : TB_encoding_parameters) (order : list Z) (output : list Z) : outcome (list Z) :=
  match order with
  | [] => Ret output
  | j :: order => output ← ldpc8blocks_coding_segment tmp tb (task_impp tb j) output; run_tasks tmp tb order output
  end.

Definition nrLDPC_prepare_TB_encoding (tmp : list (list Z)) (tb : TB_encoding_parameters) (order output : list Z) : outcome (list Z) :=
  if bool_decide (order ≡ₚ seqZ 0 (task_count (te_C tb))) then run_tasks tmp tb order output else Undef.

(** the transport blocks of a slot, each with the order of its tasks and its output *)
Fixpoint nrLDPC_coding_encoder (tmp : list (list Z)) (TBs : list (TB_encoding_parameters * list Z * list Z))
    : outcome (list (list Z)) :=
  match TBs with
  | [] => Ret []
  | (tb, order, output) :: TBs =>
      output ← nrLDPC_prepare_TB_encoding tmp tb order output;
      outputs ← nrLDPC_coding_encoder tmp TBs;
      Ret (output :: outputs)
  end.
End encoder.

(** ** Decoding *)

(** [t_nrLDPC_dec_params] *)
Record dec_params := mk_dec_params { dec_BG : Z; dec_Z : Z; dec_R : Z; dec_numMaxIter : Z; dec_crc_type : Z; dec_Kprime : Z }.

(** what the segments of a transport block share, [nrLDPC_TB_decoding_parameters_t] *)
Record TB_decoding_parameters := mk_tbd {
  td_Qm : Z; td_BG : Z; td_rv_index : Z; td_max_ldpc_iterations : Z; td_tbslbrm : Z;
  td_A : Z; td_K : Z; td_Z : Z; td_F : Z; td_C : Z }.

(** [nrLDPC_segment_decoding_parameters_t] *)
Record segment_decoding := mk_sd {
  sd_E : Z; sd_R : Z; sd_llr : list Z; sd_d : list Z; sd_clear : bool; sd_c : list Z; sd_success : bool }.

(** saturation of [int16_t] to [int8_t] *)
Definition sat8 (x : Z) : Z := Z.max (-128) (Z.min 127 x).

(** what the automatic arrays of a task hold at first *)
Record garbage := mk_garbage { g_harq_e : Z -> list Z; g_z : list Z; g_l : list Z }.

Definition Z_MAX : Z := 68 * 384 + 16.

Record garbage_ok (g : garbage) : Prop := {
  gk_e : forall E, 0 <= E -> zlen (g_harq_e g E) = E; gk_z : zlen (g_z g) = Z_MAX; gk_l : zlen (g_l g) = Z_MAX }.

Section decoder.
(** [LDPCdecoder(p_decParams, ..., p_llr, p_out, ...)]: the number of iterations and
    what it leaves in [p_out] *)
Context (LDPCdecoder : dec_params -> list Z -> outcome (Z * list Z)) (g : garbage).

(** the input of the decoder: the soft bits with the punctured ones and the filler in
    place, in 8 bits *)
Definition decoder_input (Kc Z K F : Z) (d : list BinInt.Z) : outcome (list BinInt.Z) :=
  let Kprime := K - F in
  z ← mem_write (g_z g) 0 (replicate (Z.to_nat (2 * Z)) 0);
  z ← mem_write z Kprime (replicate (Z.to_nat F) 0x7f7f);
  b ← mem_read d 0 (u32 (Kprime - 2 * Z));
  z ← mem_write z (2 * Z) b;
  b ← mem_read d (u32 (K - 2 * Z)) (u32 (Kc * Z - K));
  z ← mem_write z K b;
  b ← mem_read z 0 (16 * (Z.shiftr (Kc * Z) 4 + 1));
  mem_write (g_l g) 0 (map sat8 b).

(** a segment whose rate matching fails keeps its code block and its flag *)
Definition nr_process_decode_segment (tb : TB_decoding_parameters) (s : segment_decoding) : outcome segment_decoding :=
  let K := td_K tb in
  let Kc := if td_BG tb =? 2 then 52 else 68 in
  harq_e ← nr_deinterleaving_ldpc (sd_E s) (td_Qm tb) (g_harq_e g (sd_E s)) (sd_llr s);
  '(ret, d) ← nr_rate_matching_ldpc_rx (td_tbslbrm tb) (td_BG tb) (u16 (td_Z tb)) (sd_d s) harq_e (u8 (td_C tb)) (td_rv_index tb)
                (if sd_clear s then 1 else 0) (sd_E s) (td_F tb) (u32 (K - td_F tb - 2 * u16 (td_Z tb)));
  if ret =? -1 then Ret (mk_sd (sd_E s) (sd_R s) (sd_llr s) d (sd_clear s) (sd_c s) (sd_success s))
  else
    l ← decoder_input Kc (td_Z tb) K (td_F tb) d;
    let p := mk_dec_params (td_BG tb) (u16 (td_Z tb)) (sd_R s) (td_max_ldpc_iterations tb)
               (crcType (td_C tb) (td_A tb)) (lenWithCrc (td_C tb) (td_A tb)) in
    '(iterations, out) ← LDPCdecoder p l;
    if iterations <=? td_max_ldpc_iterations tb then
      b ← mem_read out 0 (Z.shiftr K 3);
      c ← mem_write (sd_c s) 0 b;
      Ret (mk_sd (sd_E s) (sd_R s) (sd_llr s) d false c true)
    else
      c ← mem_write (sd_c s) 0 (replicate (Z.to_nat (Z.shiftr K 3)) 0);
      Ret (mk_sd (sd_E s) (sd_R s) (sd_llr s) d false c false).

(** the tasks of a transport block, each on its own segment *)
Fixpoint decode_segments (tb : TB_decoding_parameters) (segments : list segment_decoding) : outcome (list segment_decoding) :=
  match segments with
  | [] => Ret []
  | s :: segments => s ← nr_process_decode_segment tb s; segments ← decode_segments tb segments; Ret (s :: segments)
  end.

(** the number of segments decoded, counted when every task is done *)
Definition count_processed (segments : list segment_decoding) : Z := sumZ (fun s => if sd_success s then 1 else 0) segments.

(** a transport block of the slot: its segments and [*processedSegments] *)
Definition nrLDPC_decode_TB (tb : TB_decoding_parameters) (segments : list segment_decoding) : outcome (list segment_decoding * Z) :=
  segments ← decode_segments tb (take (Z.to_nat (td_C tb)) segments);
  Ret (segments, count_processed segments).

(** the transport blocks of a slot *)
Fixpoint nrLDPC_coding_decoder (TBs : list (TB_decoding_parameters * list segment_decoding))
    : outcome (list (list segment_decoding * Z)) :=
  match TBs with
  | [] => Ret []
  | (tb, segments) :: TBs => r ← nrLDPC_decode_TB tb segments; rs ← nrLDPC_coding_decoder TBs; Ret (r :: rs)
  end.
End decoder.
