(* ===== verification/Gold.v ===== *)
(** Pseudo-random sequences: the generator of Gold sequences
    (src/openair1/PHY/LTE_TRANSPORT/transport_proto.h, [lte_gold_generic]) and the cache
    of a thread for the sequences in use (src/openair1/PHY/NR_REFSIG/refsig.c). The
    table of the cache is its memory, word by word. The counter [iterate], which is only
    printed, is left out, and memory is taken to be available. *)

From stdpp Require Import base tactics list numbers sets.
From Stdlib Require Import ZArith Lia.
From S2P Require Import Prelude Arrays Gf2 Crc CrcSpec.

(** ** The generator *)

Definition step_x1 (x1 : Z) : Z :=
  let x1 := Z.lxor (Z.shiftr x1 1) (Z.shiftr x1 4) in
  Z.lxor (Z.lxor x1 (u32 (Z.shiftl x1 31))) (u32 (Z.shiftl x1 28)).

Definition step_x2 (x2 : Z) : Z :=
  let x2 := Z.lxor (Z.lxor (Z.lxor (Z.shiftr x2 1) (Z.shiftr x2 2)) (Z.shiftr x2 3)) (Z.shiftr x2 4) in
  Z.lxor (Z.lxor (Z.lxor (Z.lxor x2 (u32 (Z.shiftl x2 31))) (u32 (Z.shiftl x2 30))) (u32 (Z.shiftl x2 29))) (u32 (Z.shiftl x2 28)).

Definition gold_reset (x2 : Z) : Z * Z :=
  let x1 := 1 + 2 ^ 31 in
  let x2 := Z.lxor x2 (u32 (Z.shiftl (Z.lxor (Z.lxor (Z.lxor x2 (Z.shiftr x2 1)) (Z.shiftr x2 2)) (Z.shiftr x2 3)) 31)) in
  (Nat.iter 49 step_x1 x1, Nat.iter 49 step_x2 x2).

(** the next 32 bits, and both registers *)
Definition lte_gold_generic (x1 x2 : Z) (reset : bool) : Z * Z * Z :=
  let '(x1, x2) := if reset then gold_reset x2 else (x1, x2) in
  let x1 := step_x1 x1 in
  let x2 := step_x2 x2 in
  (Z.lxor x1 x2, x1, x2).

(** ** The cache *)

Definition REFRESH_RATE : Z := 1000 * 100.
Definition roundedHeaderSz : Z := 16.
Definition grain : Z := 16.
Definition PAGE_WORDS : Z := 4096 / 4.

(** [gold_cache_table_t]: [None] is a null table. An entry has its key, its length and
    its usage in the first three words of a header of 16, and then the sequence. *)
Record gold_cache_table_t := mk_gold { gt_table : option (list Z); gt_tblSz : Z; gt_calls : Z }.

(** a field of type [int] *)
Definition rd_int (table : list Z) (p : Z) : outcome Z := x ← rd table p; Ret (int_of_u32 x).

(** [for (searchmax = old; ...)]: the entry that is used most, from [p] on *)
Fixpoint find_max (fuel : nat) (old : list Z) (oldSz p maxUsage : Z) (entryToCopy : option Z) : outcome (Z * option Z) :=
  match fuel with
  | O => Diverge
  | S fuel =>
      if p <? oldSz then
        len ← rd_int old (p + 1);
        if len =? 0 then Ret (maxUsage, entryToCopy)
        else
          usage ← rd_int old (p + 2);
          let '(maxUsage, entryToCopy) := if maxUsage <? usage then (usage, Some p) else (maxUsage, entryToCopy) in
          find_max fuel old oldSz (p + len + roundedHeaderSz) maxUsage entryToCopy
      else Ret (maxUsage, entryToCopy)
  end.

(** [do ... while (maxUsage)]: the entries go to the new table, the most used first *)
Fixpoint copy_entries (fuel : nat) (old : list Z) (oldSz : Z) (table : list Z) (currentTmp : Z) : outcome (list Z * Z) :=
  match fuel with
  | O => Diverge
  | S fuel =>
      '(maxUsage, entry) ← find_max (S (Z.to_nat oldSz)) old oldSz 0 0 None;
      if maxUsage =? 0 then Ret (table, currentTmp)
      else
        match entry with
        | None => Undef
        | Some e =>
            len ← rd_int old (e + 1);
            x ← mem_read old e (roundedHeaderSz + len);
            table ← mem_write table currentTmp x;
            old ← wr old (e + 2) 0;
            copy_entries fuel old oldSz table (currentTmp + (roundedHeaderSz + len))
        end
  end.

Section cache.
(** what newly allocated memory holds *)
Context (junk : Z -> list Z).

Definition refresh_table (t : gold_cache_table_t) (sizeIncrease : Z) : outcome gold_cache_table_t :=
  let old := default [] (gt_table t) in
  let oldSz := gt_tblSz t in
  let tblSz := if oldSz =? 0 then PAGE_WORDS else oldSz in
  let tblSz := if sizeIncrease =? 0 then tblSz else u32 (tblSz + Z.max sizeIncrease PAGE_WORDS) in
  '(table, usedSz) ← copy_entries (S (Z.to_nat oldSz)) old oldSz (junk tblSz) 0;
  table ← mem_write table usedSz (replicate (Z.to_nat (tblSz - usedSz)) 0);
  Ret (mk_gold (Some table) tblSz 0).

(** the search for the key from [ptr] on: where the sequence is, if it is there and long
    enough, the table, where the search ended and the counter of calls *)
Fixpoint search_cache (fuel : nat) (table : list Z) (tblSz ptr key length calls : Z) : outcome (option Z * list Z * Z * Z) :=
  match fuel with
  | O => Diverge
  | S fuel =>
      if ptr <? tblSz then
        k ← rd table ptr;
        len ← rd_int table (ptr + 1);
        if (length <=? len) && (k =? key) then
          usage ← rd_int table (ptr + 2);
          if usage + 1 =? 2 ^ 31 then Undef
          else table ← wr table (ptr + 2) (u32 (usage + 1)); Ret (Some (ptr + roundedHeaderSz), table, ptr, calls)
        else
          '(table, calls) ← (if k =? key then table ← wr table (ptr + 2) 0; Ret (table, calls + REFRESH_RATE) else Ret (table, calls));
          if len =? 0 then Ret (None, table, ptr, calls)
          else search_cache fuel table tblSz (ptr + len + roundedHeaderSz) key length calls
      else Ret (None, table, ptr, calls)
  end.

(** the first header that is free *)
Fixpoint first_free (fuel : nat) (table : list Z) (tblSz p : Z) : outcome Z :=
  match fuel with
  | O => Diverge
  | S fuel =>
      if p <? tblSz then
        len ← rd_int table (p + 1);
        if len =? 0 then Ret p else first_free fuel table tblSz (p + len + roundedHeaderSz)
      else Ret p
  end.

(** [for (int n = 1; n < length; n++) *sequence++ = lte_gold_generic(&x1, &x2, 0)] *)
Fixpoint write_sequence (rounds : nat) (table : list Z) (p x1 x2 : Z) : outcome (list Z) :=
  match rounds with
  | O => Ret table
  | S rounds =>
      let '(c, x1, x2) := lte_gold_generic x1 x2 false in
      table ← wr table p c; write_sequence rounds table (p + 1) x1 x2
  end.

(** a new entry at the end *)
Definition add_entry (t : gold_cache_table_t) (key length : Z) : outcome (Z * gold_cache_table_t) :=
  let table := default [] (gt_table t) in
  firstFree ← first_free (S (Z.to_nat (gt_tblSz t))) table (gt_tblSz t) 0;
  table ← wr table firstFree key;
  table ← wr table (firstFree + 1) length;
  table ← wr table (firstFree + 2) 1;
  let '(c, x1, x2) := lte_gold_generic 0 key true in
  table ← wr table (firstFree + roundedHeaderSz) c;
  table ← write_sequence (Z.to_nat (length - 1)) table (firstFree + roundedHeaderSz + 1) x1 x2;
  Ret (firstFree + roundedHeaderSz, mk_gold (Some table) (gt_tblSz t) (gt_calls t)).

(** where the sequence is in the table, and the table *)
Definition gold_cache (t : gold_cache_table_t) (key length : Z) : outcome (Z * gold_cache_table_t) :=
  let length := Z.quot (length + grain - 1) grain * grain in
  let t := mk_gold (gt_table t) (gt_tblSz t) (gt_calls t + 1) in
  t ← (if REFRESH_RATE <? gt_calls t then refresh_table t 0 else Ret t);
  '(hit, table, ptr, calls) ← search_cache (S (Z.to_nat (gt_tblSz t))) (default [] (gt_table t)) (gt_tblSz t) 0 key length (gt_calls t);
  let t := mk_gold (match gt_table t with None => None | Some _ => Some table end) (gt_tblSz t) calls in
  match hit with
  | Some p => Ret (p, t)
  | None =>
      t ← (match gt_table t with
           | Some _ => if gt_tblSz t - (2 * roundedHeaderSz + length) <? ptr then refresh_table t (2 * roundedHeaderSz + length) else Ret t
           | None => refresh_table t (2 * roundedHeaderSz + length)
           end);
      add_entry t key length
  end.

(** ** The sequences of the reference signals: the initial value and the number of words *)

Definition nr_gold_pbch (t : gold_cache_table_t) (Lmax Nid n_hf l : Z) : outcome (Z * gold_cache_table_t) :=
  let i_ssb := Z.land l (Lmax - 1) in
  let i_ssb2 := i_ssb + Z.shiftl n_hf 2 in
  gold_cache t (u32 (2 ^ 11 * (i_ssb2 + 1) * (Z.shiftr Nid 2 + 1) + 2 ^ 6 * (i_ssb2 + 1) + Z.land Nid 3)) 10.

Definition nr_gold_pdcch (t : gold_cache_table_t) (N_RB_DL symbols_per_slot nid ns l : Z) : outcome (Z * gold_cache_table_t) :=
  let x2tmp0 := u64 (Z.shiftl (u64 ((symbols_per_slot * ns + l + 1) * (Z.shiftl nid 1 + 1))) 17) in
  gold_cache t (u64 (x2tmp0 + Z.shiftl nid 1) mod 2 ^ 31) (Z.shiftr (Z.shiftl N_RB_DL 1 * 3) 5 + 1).

Definition nr_gold_pdsch (t : gold_cache_table_t) (N_RB_DL symbols_per_slot nid nscid slot symbol : Z) : outcome (Z * gold_cache_table_t) :=
  let x2tmp0 := u64 (Z.shiftl (u64 ((symbols_per_slot * slot + symbol + 1) * (Z.shiftl nid 1 + 1))) 17) in
  gold_cache t (u64 (x2tmp0 + Z.shiftl nid 1 + nscid) mod 2 ^ 31) (Z.shiftr (N_RB_DL * 24) 5 + 1).

Definition nr_gold_pusch (t : gold_cache_table_t) (N_RB_UL symbols_per_slot Nid nscid slot symbol : Z) : outcome (Z * gold_cache_table_t) :=
  nr_gold_pdsch t N_RB_UL symbols_per_slot Nid nscid slot symbol.

Definition nr_gold_csi_rs (t : gold_cache_table_t) (N_RB_DL symbols_per_slot slot symb Nid : Z) : outcome (Z * gold_cache_table_t) :=
  let temp_x2 := u64 (2 ^ 10 * (symbols_per_slot * slot + symb + 1) * u32 (u32 (Z.shiftl Nid 1) + 1) + Nid) in
  gold_cache t (temp_x2 mod 2 ^ 31) (Z.shiftr (Z.shiftl N_RB_DL 4) 5 + 1).

(** the slot is not multiplied by the number of symbols *)
Definition nr_gold_prs (t : gold_cache_table_t) (Nid slotNum symNum : Z) : outcome (Z * gold_cache_table_t) :=
  let c_init1 := u32 (2 ^ 22 * Z.quot Nid 1024) in
  let c_init2 := u32 (2 ^ 10 * u32 (slotNum + symNum + 1) * u32 (2 * Z.rem Nid 1024 + 1)) in
  let c_init3 := u32 (Z.rem Nid 1024) in
  gold_cache t (u32 (c_init1 + c_init2 + c_init3)) 102.
End cache.

(** ** The reference generator *)

(** A register of 31 bits: bit [i] is [x(n + i)], and the new bit is the sum of the bits
    the polynomial names (38.211, 5.2.1). *)
Definition lfsr (taps : list Z) (r : Z) : Z :=
  Z.lor (Z.shiftr r 1) (Z.shiftl (Z.b2z (foldr (fun t b => xorb (Z.testbit r t) b) false taps)) 30).

Definition lfsr_bit (taps : list Z) (init : Z) (n : nat) : bool := Z.testbit (Nat.iter n (lfsr taps) init) 0.

Definition x1_bit : nat -> bool := lfsr_bit [0; 3] 1.
Definition x2_bit (cinit : Z) : nat -> bool := lfsr_bit [0; 1; 2; 3] cinit.

(** [c(n) = x1(n + 1600) + x2(n + 1600)] *)
Definition gold_bit (cinit : Z) (n : nat) : bool := xorb (x1_bit (n + 1600)) (x2_bit cinit (n + 1600)).

(** An initial value has 31 bits, a key of the cache 32. With the highest bit of the key
    set, x2(31) is inverted and the register goes on from there: that adds the sequence of
    the register that holds only this bit. *)
Definition stray_bit (n : nat) : bool := lfsr_bit [0; 1; 2; 3] (2 ^ 30) (n + 1599).

(** the sequence of a key of 32 bits *)
Definition key_bit (key : Z) (n : nat) : bool := xorb (gold_bit (key mod 2 ^ 31) n) ((2 ^ 31 <=? key) && stray_bit n).

Lemma lfsr_range taps r : 0 <= r < 2 ^ 31 -> 0 <= lfsr taps r < 2 ^ 31.
Proof.
  intros Hr. unfold lfsr. set (b := foldr _ _ _). assert (Hs : 0 <= Z.shiftr r 1 < 2 ^ 30).
  { rewrite Z.shiftr_div_pow2 by lia. split; [apply Z.div_pos; lia|apply Z.div_lt_upper_bound; lia]. }
  assert (Hb : Z.shiftl (Z.b2z b) 30 = if b then 2 ^ 30 else 0) by by destruct b.
  split; [apply Z.lor_nonneg; split; [lia|rewrite Hb; destruct b; lia]|].
  destruct (Z.eq_dec (Z.lor (Z.shiftr r 1) (Z.shiftl (Z.b2z b) 30)) 0) as [->|Hne]; [lia|].
  apply Z.log2_lt_pow2; [assert (0 <= Z.lor (Z.shiftr r 1) (Z.shiftl (Z.b2z b) 30)) by (apply Z.lor_nonneg; rewrite Hb; destruct b; lia); lia|].
  rewrite Z.log2_lor by (rewrite ?Hb; destruct b; lia). apply Z.max_lub_lt; [|rewrite Hb; by destruct b].
  destruct (Z.eq_dec (Z.shiftr r 1) 0) as [->|]; [done|]. assert (Z.log2 (Z.shiftr r 1) < 30) by (apply Z.log2_lt_pow2; lia). lia.
Qed.

Lemma lfsr_iter_range taps init n : 0 <= init < 2 ^ 31 -> 0 <= Nat.iter n (lfsr taps) init < 2 ^ 31.
Proof. intros H. induction n as [|n IH]; [done|]. by apply lfsr_range. Qed.

Lemma lfsr_shift_bit taps r i : 0 <= i < 30 -> Z.testbit (lfsr taps r) i = Z.testbit r (i + 1).
Proof. intros Hi. unfold lfsr. rewrite Z.lor_spec, Z.shiftr_spec, Z.shiftl_spec_low, orb_false_r by lia. done. Qed.

(** the register is a window of the sequence *)
Lemma lfsr_window taps init n i : (i < 31)%nat -> Z.testbit (Nat.iter n (lfsr taps) init) (Z.of_nat i) = lfsr_bit taps init (n + i).
Proof.
  revert n. induction i as [|i IH]; intros n Hi; [by rewrite Nat.add_0_r|]. rewrite <- Nat.add_succ_comm, <- IH by lia. rewrite Nat.iter_succ.
  rewrite lfsr_shift_bit by lia. f_equal. lia.
Qed.

Lemma lfsr_recurrence taps init n : 0 <= init < 2 ^ 31 -> Forall (fun t => 0 <= t < 31) taps ->
  lfsr_bit taps init (n + 31) = foldr (fun t b => xorb (lfsr_bit taps init (n + Z.to_nat t)) b) false taps.
Proof.
  intros Hinit Ht. replace (n + 31)%nat with (S n + 30)%nat by lia. rewrite <- lfsr_window by lia. rewrite Nat.iter_succ. set (r := Nat.iter n _ init).
  assert (Hr : 0 <= r < 2 ^ 31) by by apply lfsr_iter_range. unfold lfsr. rewrite Z.lor_spec, Z.shiftr_spec, Z.shiftl_spec by lia. change (Z.of_nat 30) with 30.
  rewrite (testbit_high r 31 (30 + 1)) by lia.
  rewrite orb_false_l, Z.sub_diag, Z.b2z_bit0. assert (Hfold : forall l, Forall (fun t => 0 <= t < 31) l ->
    foldr (fun t b => xorb (Z.testbit r t) b) false l = foldr (fun t b => xorb (lfsr_bit taps init (n + Z.to_nat t)) b) false l).
  { induction 1 as [|t l Hlt _ IH]; [done|]. cbn [foldr]. rewrite IH. f_equal. rewrite <- lfsr_window by lia. unfold r. by rewrite Z2Nat.id by lia. }
  by apply Hfold.
Qed.

(** ** Thirty-two bits at a time *)

(** a word that holds the bits from [n] on *)
Definition word_at (X : nat -> bool) (n : nat) (w : Z) : Prop := 0 <= w < 2 ^ 32 /\ forall i, (i < 32)%nat -> Z.testbit w (Z.of_nat i) = X (n + i)%nat.

Lemma shiftr_range w k : 0 <= w < 2 ^ 32 -> 0 <= k -> 0 <= Z.shiftr w k < 2 ^ 32.
Proof.
  intros Hw Hk. rewrite Z.shiftr_div_pow2 by lia. pose proof (Z.pow_pos_nonneg 2 k ltac:(lia) Hk). split; [apply Z.div_pos; lia|]. apply Z.div_lt_upper_bound; nia.
Qed.

Lemma step_x1_range w : 0 <= w < 2 ^ 32 -> 0 <= step_x1 w < 2 ^ 32.
Proof.
  intros Hw. unfold step_x1. repeat apply lxor_lt; try lia; try (apply shiftr_range; lia); apply u32_range.
Qed.

Lemma step_x2_range w : 0 <= w < 2 ^ 32 -> 0 <= step_x2 w < 2 ^ 32.
Proof.
  intros Hw. unfold step_x2. repeat apply lxor_lt; try lia; try (apply shiftr_range; lia); apply u32_range.
Qed.

Lemma shl_bit y k i : 0 <= i < 32 -> 0 <= k -> Z.testbit (u32 (Z.shiftl y k)) i = if k <=? i then Z.testbit y (i - k) else false.
Proof.
  intros Hi Hk. unfold u32. rewrite Z.mod_pow2_bits_low by lia. destruct (Z.leb_spec k i); [apply Z.shiftl_spec; lia|apply Z.shiftl_spec_low; lia].
Qed.

Lemma word_bit X n w i : word_at X n w -> 0 <= i -> Z.testbit w i = if i <? 32 then X (n + Z.to_nat i)%nat else false.
Proof.
  intros [Hw Hb] Hi. destruct (Z.ltb_spec i 32); [|apply (testbit_high w 32); lia]. rewrite <- Hb by lia. by rewrite Z2Nat.id by lia.
Qed.

(** the bits of a step, in the bits of the word before *)
Ltac step_bits w Hw :=
  rewrite ?Z.lxor_spec, ?shl_bit by lia; cbn [Z.leb Z.compare Pos.compare Pos.compare_cont]; rewrite ?Z.lxor_spec, ?Z.shiftr_spec by lia;
  rewrite ?(word_bit _ _ w _ Hw) by lia.

(** numerals for closed numbers *)
Ltac num_of_nat :=
  repeat match goal with
  | |- context [Z.of_nat ?k] => let v := eval vm_compute in (Z.of_nat k) in change (Z.of_nat k) with v
  | |- context [Z.sub (Zpos ?a) (Zpos ?b)] => let v := eval vm_compute in (Z.sub (Zpos a) (Zpos b)) in change (Z.sub (Zpos a) (Zpos b)) with v
  | H : context [Z.of_nat ?k] |- _ => is_ground k; let v := eval vm_compute in (Z.of_nat k) in change (Z.of_nat k) with v in H
  end.

Section words.
Context (X : nat -> bool) (n : nat) (w : Z) (Hw : word_at X n w).

Lemma x1_step : (forall m, X (m + 31)%nat = xorb (X m) (X (m + 3)%nat)) -> word_at X (n + 32) (step_x1 w).
Proof using Hw.
  intros HX. split; [apply step_x1_range, Hw|]. intros i Hi. unfold step_x1. set (y := Z.lxor (Z.shiftr w 1) (Z.shiftr w 4)).
  assert (Hy : forall k, (k < 28)%nat -> Z.testbit y (Z.of_nat k) = X (n + 32 + k)%nat).
  { intros k Hk. unfold y. step_bits w Hw. rewrite !(proj2 (Z.ltb_lt _ _)) by lia. replace (n + 32 + k)%nat with ((n + k + 1) + 31)%nat by lia. rewrite HX. f_equal; f_equal; lia. }
  assert (Hrec : forall k, (28 <= k < 32)%nat -> X (n + 32 + k)%nat = xorb (X (n + k + 1)%nat) (X (n + 32 + (k - 28))%nat)).
  { intros k Hk. replace (n + 32 + k)%nat with ((n + k + 1) + 31)%nat by lia. rewrite HX. f_equal. f_equal. lia. }
  rewrite !Z.lxor_spec, !shl_bit by lia. destruct (decide (i < 28)%nat) as [Hlo|Hhi].
  - rewrite !(proj2 (Z.leb_gt _ (Z.of_nat i))) by lia. by rewrite Hy, !xorb_false_r by done.
  - rewrite (proj2 (Z.leb_le 28 _)) by lia. replace (Z.of_nat i - 28) with (Z.of_nat (i - 28)) by lia. rewrite (Hy (i - 28)%nat), (Hrec i) by lia. unfold y at 1. step_bits w Hw.
    rewrite (proj2 (Z.ltb_ge (_ + 4) 32)) by lia. destruct (Z.leb_spec 31 (Z.of_nat i)).
    + assert (i = 31)%nat as -> by lia. change (Z.of_nat 31 - 31) with (Z.of_nat 0). rewrite (Hy 0%nat) by lia. rewrite (proj2 (Z.ltb_ge _ 32)) by lia.
      cbn [xorb]. f_equal. f_equal. lia.
    + rewrite (proj2 (Z.ltb_lt _ 32)) by lia. rewrite !xorb_false_r. f_equal. f_equal. lia.
Qed.

Lemma x2_step : (forall m, (n < m)%nat -> X (m + 31)%nat = xorb (X m) (xorb (X (m + 1)%nat) (xorb (X (m + 2)%nat) (X (m + 3)%nat)))) -> word_at X (n + 32) (step_x2 w).
Proof using Hw.
  intros HX. split; [apply step_x2_range, Hw|]. intros i Hi. unfold step_x2.
  set (y := Z.lxor (Z.lxor (Z.lxor (Z.shiftr w 1) (Z.shiftr w 2)) (Z.shiftr w 3)) (Z.shiftr w 4)).
  assert (HX' : forall k, X (n + 32 + k)%nat = xorb (X (n + (k + 1))%nat) (xorb (X (n + (k + 2))%nat) (xorb (X (n + (k + 3))%nat) (X (n + (k + 4))%nat)))).
  { intros k. replace (n + 32 + k)%nat with ((n + (k + 1)) + 31)%nat by lia. rewrite HX by lia. repeat apply (f_equal2 xorb); f_equal; lia. }
  assert (Hwb : forall k, (k < 32)%nat -> Z.testbit w (Z.of_nat k) = X (n + k)%nat) by apply Hw.
  assert (Hhi : forall k, 32 <= k -> Z.testbit w k = false) by (intros k Hk; apply (testbit_high w 32); [lia|apply Hw]).
  assert (Hyb : forall k, (k < 32)%nat -> Z.testbit y (Z.of_nat k) = xorb (xorb (xorb (Z.testbit w (Z.of_nat (k + 1))) (Z.testbit w (Z.of_nat (k + 2)))) (Z.testbit w (Z.of_nat (k + 3)))) (Z.testbit w (Z.of_nat (k + 4)))).
  { intros k Hk. unfold y. rewrite !Z.lxor_spec, !Z.shiftr_spec by lia. repeat apply (f_equal2 xorb); f_equal; lia. }
  assert (Hy : forall k, (k < 28)%nat -> Z.testbit y (Z.of_nat k) = X (n + 32 + k)%nat).
  { intros k Hk. rewrite Hyb, HX', !Hwb by lia. by rewrite !xorb_assoc. }
  rewrite !Z.lxor_spec, !shl_bit by lia. destruct (decide (i < 28)%nat) as [Hlo|Hge].
  - rewrite !(proj2 (Z.leb_gt _ (Z.of_nat i))) by lia. by rewrite Hy, !xorb_false_r by done.
  - pose proof (Hy 0%nat ltac:(lia)) as H0. pose proof (Hy 1%nat ltac:(lia)) as H1. pose proof (Hy 2%nat ltac:(lia)) as H2. pose proof (Hy 3%nat ltac:(lia)) as H3.
    assert (Hi' : i = 28%nat \/ i = 29%nat \/ i = 30%nat \/ i = 31%nat) by lia. rewrite HX', Hyb by lia.
    pose proof (Hwb 29%nat ltac:(lia)) as W29. pose proof (Hwb 30%nat ltac:(lia)) as W30. pose proof (Hwb 31%nat ltac:(lia)) as W31. clear Hyb Hwb Hy.
    destruct Hi' as [-> | [-> | [-> | ->]]]; cbn [Nat.add] in *; num_of_nat; cbn [Z.leb Z.compare Pos.compare Pos.compare_cont];
      rewrite ?H0, ?H1, ?H2, ?H3, ?W29, ?W30, ?W31, ?(Hhi 32), ?(Hhi 33), ?(Hhi 34), ?(Hhi 35) by lia;
      rewrite <- ?Nat.add_assoc; cbn [Nat.add];
      repeat match goal with |- context [X ?k] => generalize (X k); intros [] end; reflexivity.
Qed.
End words.

(** ** The sequence *)

Fixpoint gold_run (n : nat) (x1 x2 : Z) : list Z :=
  match n with
  | O => []
  | S n => let '(c, x1, x2) := lte_gold_generic x1 x2 false in c :: gold_run n x1 x2
  end.

(** the first [n] words of the sequence of a key *)
Definition gold_seq (key : Z) (n : nat) : list Z := let '(x1, x2) := gold_reset key in gold_run n x1 x2.

Lemma gold_run_length n x1 x2 : length (gold_run n x1 x2) = n.
Proof. revert x1 x2. induction n as [|n IH]; intros x1 x2; cbn; [done|by rewrite IH]. Qed.

Lemma gold_seq_length key n : length (gold_seq key n) = n.
Proof. unfold gold_seq. destruct (gold_reset key). apply gold_run_length. Qed.

Lemma gold_run_take n m x1 x2 : (n <= m)%nat -> take n (gold_run m x1 x2) = gold_run n x1 x2.
Proof.
  revert m x1 x2. induction n as [|n IH]; intros m x1 x2 Hle; [done|]. destruct m as [|m]; [lia|]. cbn. by rewrite IH by lia.
Qed.

Lemma gold_seq_take key n m : (n <= m)%nat -> take n (gold_seq key m) = gold_seq key n.
Proof. unfold gold_seq. destruct (gold_reset key). apply gold_run_take. Qed.

Lemma x1_recurrence m : x1_bit (m + 31) = xorb (x1_bit m) (x1_bit (m + 3)).
Proof. unfold x1_bit. rewrite lfsr_recurrence; [|lia|repeat constructor; lia]. cbn [foldr]. rewrite xorb_false_r. by rewrite Nat.add_0_r. Qed.

Lemma x2_recurrence key m : 0 <= key < 2 ^ 31 ->
  x2_bit key (m + 31) = xorb (x2_bit key m) (xorb (x2_bit key (m + 1)) (xorb (x2_bit key (m + 2)) (x2_bit key (m + 3)))).
Proof. intros Hk. unfold x2_bit. rewrite lfsr_recurrence; [|lia|repeat constructor; lia]. cbn [foldr]. rewrite xorb_false_r. by rewrite Nat.add_0_r. Qed.

Lemma x1_init : word_at x1_bit 0 (1 + 2 ^ 31).
Proof.
  split; [lia|]. intros i Hi. do 32 (destruct i as [|i]; [by vm_compute|]). lia.
Qed.

Lemma x2_init key : 0 <= key < 2 ^ 31 ->
  word_at (x2_bit key) 0 (Z.lxor key (u32 (Z.shiftl (Z.lxor (Z.lxor (Z.lxor key (Z.shiftr key 1)) (Z.shiftr key 2)) (Z.shiftr key 3)) 31))).
Proof.
  intros Hk. split; [apply lxor_lt; [lia|lia|apply u32_range]|]. intros i Hi. rewrite Z.lxor_spec, shl_bit by lia. rewrite Nat.add_0_l.
  assert (Hw : forall j, (j < 31)%nat -> Z.testbit key (Z.of_nat j) = x2_bit key j) by (intros j Hj; apply (lfsr_window [0; 1; 2; 3] key 0 j Hj)).
  destruct (decide (i < 31)%nat) as [Hlt|Hge].
  - rewrite (proj2 (Z.leb_gt _ _)) by lia. by rewrite xorb_false_r, Hw.
  - assert (i = 31)%nat as -> by lia. rewrite (proj2 (Z.leb_le _ _)) by lia. change (Z.of_nat 31 - 31) with 0. rewrite (testbit_high key 31) by lia.
    rewrite xorb_false_l, !Z.lxor_spec, !Z.shiftr_spec by lia. change (x2_bit key 31) with (x2_bit key (0 + 31)). rewrite (x2_recurrence key 0 Hk).
    rewrite <- (Hw 0%nat), <- (Hw (0 + 1)%nat), <- (Hw (0 + 2)%nat), <- (Hw (0 + 3)%nat) by lia. by rewrite !xorb_assoc.
Qed.

Lemma steps_at X step n w m : word_at X n w -> (forall n w, word_at X n w -> word_at X (n + 32) (step w)) -> word_at X (n + 32 * m) (Nat.iter m step w).
Proof.
  intros Hw Hs. induction m as [|m IH]; [by rewrite Nat.mul_0_r, Nat.add_0_r|]. rewrite Nat.iter_succ. replace (n + 32 * S m)%nat with (n + 32 * m + 32)%nat by lia. by apply Hs.
Qed.

Lemma run_bits key n : 0 <= key < 2 ^ 31 -> forall m x1 x2 i, word_at x1_bit m x1 -> word_at (x2_bit key) m x2 -> (i < 32 * n)%nat ->
  Z.testbit (gold_run n x1 x2 !!! (i / 32)%nat) (Z.of_nat (i mod 32)) = xorb (x1_bit (m + 32 + i)) (x2_bit key (m + 32 + i)).
Proof.
  intros Hk. induction n as [|n IH]; intros m x1 x2 i H1 H2 Hi; [lia|]. cbn [gold_run lte_gold_generic].
  assert (S1 : word_at x1_bit (m + 32) (step_x1 x1)) by (apply x1_step; [done|apply x1_recurrence]).
  assert (S2 : word_at (x2_bit key) (m + 32) (step_x2 x2)) by (apply x2_step; [done|intros k _; by apply x2_recurrence]).
  destruct (decide (i < 32)%nat) as [Hlt|Hge].
  - rewrite Nat.div_small, Nat.mod_small by lia. cbn [lookup_total list_lookup_total]. rewrite Z.lxor_spec. by rewrite (proj2 S1), (proj2 S2) by lia.
  - replace i with (i - 32 + 1 * 32)%nat by lia. rewrite Nat.div_add, Nat.Div0.mod_add, Nat.add_1_r by lia. cbn [lookup_total list_lookup_total].
    etransitivity; [apply (IH (m + 32)%nat _ _ (i - 32)%nat S1 S2); lia|]. f_equal; f_equal; lia.
Qed.

(** the words are those of the reference *)
Lemma gold_seq_bits key n i : 0 <= key < 2 ^ 31 -> (i < 32 * n)%nat -> Z.testbit (gold_seq key n !!! (i / 32)%nat) (Z.of_nat (i mod 32)) = gold_bit key i.
Proof.
  intros Hk Hi. unfold gold_seq, gold_reset. cbv zeta.
  pose proof (steps_at _ step_x1 _ _ 49 x1_init (fun n w H => x1_step _ n w H x1_recurrence)) as H1.
  pose proof (steps_at _ step_x2 _ _ 49 (x2_init key Hk) (fun n w H => x2_step _ n w H (fun m _ => x2_recurrence key m Hk))) as H2.
  rewrite (run_bits key n Hk _ _ _ i H1 H2 Hi). unfold gold_bit. f_equal; f_equal; lia.
Qed.

Lemma run_words key n : 0 <= key < 2 ^ 31 -> forall m x1 x2, word_at x1_bit m x1 -> word_at (x2_bit key) m x2 -> Forall (fun c => 0 <= c < 2 ^ 32) (gold_run n x1 x2).
Proof.
  intros Hk. induction n as [|n IH]; intros m x1 x2 H1 H2; cbn [gold_run lte_gold_generic]; constructor.
  - apply lxor_lt; [lia|apply step_x1_range, H1|apply step_x2_range, H2].
  - apply (IH (m + 32)%nat); [apply x1_step; [done|apply x1_recurrence]|apply x2_step; [done|intros k _; by apply x2_recurrence]].
Qed.

(** ** Keys of 32 bits *)

Lemma u32_lxor a b : u32 (Z.lxor a b) = Z.lxor (u32 a) (u32 b).
Proof.
  unfold u32. apply Z.bits_inj'. intros i Hi. rewrite Z.lxor_spec, !Z.testbit_mod_pow2, Z.lxor_spec by lia. by destruct (i <? 32).
Qed.

(** functions of words that respect the sum *)
Definition additive (f : Z -> Z) : Prop := forall a b, f (Z.lxor a b) = Z.lxor (f a) (f b).

Lemma additive_lxor f g : additive f -> additive g -> additive (fun x => Z.lxor (f x) (g x)).
Proof. intros Hf Hg a b. rewrite Hf, Hg. xor_ring. Qed.

Lemma additive_shiftr f k : additive f -> additive (fun x => Z.shiftr (f x) k).
Proof. intros Hf a b. by rewrite Hf, Z.shiftr_lxor. Qed.

Lemma additive_shl f k : additive f -> additive (fun x => u32 (Z.shiftl (f x) k)).
Proof. intros Hf a b. by rewrite Hf, Z.shiftl_lxor, u32_lxor. Qed.

Lemma additive_id : additive (fun x => x).
Proof. done. Qed.

Ltac additive :=
  repeat first [apply additive_id|apply additive_lxor|apply additive_shiftr|apply additive_shl].

Lemma step_x2_lxor : additive step_x2.
Proof. unfold step_x2. cbv zeta. additive. Qed.

Lemma steps_x2_lxor n a b : Nat.iter n step_x2 (Z.lxor a b) = Z.lxor (Nat.iter n step_x2 a) (Nat.iter n step_x2 b).
Proof. induction n as [|n IH]; [done|]. by rewrite !Nat.iter_succ, IH, step_x2_lxor. Qed.

Lemma gold_reset_lxor a b : (gold_reset (Z.lxor a b)).2 = Z.lxor (gold_reset a).2 (gold_reset b).2.
Proof.
  unfold gold_reset. cbv zeta. cbn [snd]. rewrite <- steps_x2_lxor. apply (f_equal (Nat.iter 49 step_x2)). revert a b.
  change (additive (fun x => Z.lxor x (u32 (Z.shiftl (Z.lxor (Z.lxor (Z.lxor x (Z.shiftr x 1)) (Z.shiftr x 2)) (Z.shiftr x 3)) 31)))). additive.
Qed.

Lemma gold_reset_fst a b : (gold_reset a).1 = (gold_reset b).1.
Proof. reflexivity. Qed.

Lemma gold_run_lxor n : forall x1 x2 d i, (i < n)%nat ->
  gold_run n x1 (Z.lxor x2 d) !!! i = Z.lxor (gold_run n x1 x2 !!! i) (Nat.iter (S i) step_x2 d).
Proof.
  induction n as [|n IH]; intros x1 x2 d i Hi; [lia|]. cbn [gold_run lte_gold_generic]. rewrite step_x2_lxor. destruct i as [|i].
  - cbn [lookup_total list_lookup_total]. change (Nat.iter 1 step_x2 d) with (step_x2 d). by rewrite Z.lxor_assoc.
  - cbn [lookup_total list_lookup_total]. etransitivity; [apply IH; lia|]. by rewrite <- Nat.iter_succ_r.
Qed.

(** the register that starts with the bit x2(31) alone *)
Definition stray (n : nat) : bool := match n with O => false | S n => lfsr_bit [0; 1; 2; 3] (2 ^ 30) n end.

Lemma stray_recurrence n m : (n < m)%nat -> stray (m + 31) = xorb (stray m) (xorb (stray (m + 1)) (xorb (stray (m + 2)) (stray (m + 3)))).
Proof.
  intros Hm. destruct m as [|m]; [lia|]. cbn [Nat.add stray]. rewrite lfsr_recurrence; [|lia|repeat constructor; lia]. cbn [foldr]. by rewrite xorb_false_r, Nat.add_0_r.
Qed.

Lemma stray_init : word_at stray 0 (2 ^ 31).
Proof. split; [lia|]. intros i Hi. do 32 (destruct i as [|i]; [by vm_compute|]). lia. Qed.

Lemma stray_word i k : (k < 32)%nat -> Z.testbit (Nat.iter (S i) step_x2 (gold_reset (2 ^ 31)).2) (Z.of_nat k) = stray_bit (32 * i + k).
Proof.
  intros Hk. assert ((gold_reset (2 ^ 31)).2 = Nat.iter 49 step_x2 (2 ^ 31)) as -> by reflexivity. rewrite <- Nat.iter_add.
  destruct (steps_at _ step_x2 _ _ (S i + 49) stray_init (fun n w H => x2_step _ n w H (stray_recurrence n))) as [_ ->]; [|done].
  unfold stray_bit. replace (0 + 32 * (S i + 49) + k)%nat with (S (32 * i + k + 1599)) by lia. done.
Qed.

Lemma high_key key : 2 ^ 31 <= key < 2 ^ 32 -> key = Z.lxor (key mod 2 ^ 31) (2 ^ 31).
Proof.
  intros Hk. rewrite <- Z.add_nocarry_lxor.
  - pose proof (Z.div_mod key (2 ^ 31) ltac:(lia)). assert (key / 2 ^ 31 = 1) by (symmetry; apply Z.div_unique with (key - 2 ^ 31); lia). lia.
  - apply Z.bits_inj'. intros i Hi. rewrite Z.land_spec, Z.testbit_mod_pow2, Z.bits_0, Z.pow2_bits_eqb by lia.
    destruct (Z.eqb_spec 31 i) as [<-|]; [done|by rewrite andb_false_r].
Qed.

(** the words of every key *)
Lemma gold_seq_key_bits key n i : 0 <= key < 2 ^ 32 -> (i < 32 * n)%nat -> Z.testbit (gold_seq key n !!! (i / 32)%nat) (Z.of_nat (i mod 32)) = key_bit key i.
Proof.
  intros Hk Hi. unfold key_bit. pose proof (Z.mod_pos_bound key (2 ^ 31) ltac:(lia)) as Hr. destruct (Z.leb_spec (2 ^ 31) key) as [Hge|Hlt].
  2: { rewrite Z.mod_small, andb_false_l, xorb_false_r by lia. apply gold_seq_bits; [lia|done]. }
  rewrite <- (gold_seq_bits (key mod 2 ^ 31) n i) by done. rewrite andb_true_l. set (k0 := key mod 2 ^ 31) in *.
  assert (E : gold_reset key = ((gold_reset k0).1, Z.lxor (gold_reset k0).2 (gold_reset (2 ^ 31)).2)).
  { rewrite (surjective_pairing (gold_reset key)), (gold_reset_fst key k0), <- gold_reset_lxor. do 3 f_equal. apply high_key. lia. }
  unfold gold_seq. rewrite E, (surjective_pairing (gold_reset k0)). assert (Hw : (i / 32 < n)%nat) by (apply Nat.Div0.div_lt_upper_bound; lia).
  rewrite gold_run_lxor by done. pose proof (Nat.mod_upper_bound i 32 ltac:(lia)). rewrite Z.lxor_spec. f_equal. rewrite stray_word by done. f_equal.
  symmetry. apply Nat.div_mod_eq.
Qed.

(** ** The memory of the cache *)

Record centry := mk_centry { ce_key : Z; ce_len : Z; ce_usage : Z; ce_pad : list Z }.
#[global] Instance centry_eta : Eta centry := fun e => mk_centry (ce_key e) (ce_len e) (ce_usage e) (ce_pad e).

(** the words of an entry: its header and its sequence *)
Definition entry_words (e : centry) : list Z := ce_key e :: ce_len e :: ce_usage e :: ce_pad e ++ gold_seq (ce_key e) (Z.to_nat (ce_len e)).

Definition entry_size (e : centry) : Z := roundedHeaderSz + ce_len e.

(** [m] bounds the usage *)
Record entry_ok (m : Z) (e : centry) : Prop := {
  eo_len : 0 < ce_len e < 2 ^ 31; eo_usage : 0 <= ce_usage e <= m; eo_pad : length (ce_pad e) = 13%nat }.

Local Abbreviation layout es := (mjoin (map entry_words es)).
Local Abbreviation used es := (sumZ entry_size es).

Lemma entry_words_len m e : entry_ok m e -> zlen (entry_words e) = entry_size e.
Proof.
  intros [Hl _ Hp]. unfold entry_words, entry_size, roundedHeaderSz. rewrite !zlen_cons, zlen_app. unfold zlen. rewrite gold_seq_length. lia.
Qed.

Lemma layout_len m es : Forall (entry_ok m) es -> zlen (layout es) = used es.
Proof. induction 1 as [|e es He _ IH]; [done|]. change (layout (e :: es)) with (entry_words e ++ layout es). cbn [sumZ]. by rewrite zlen_app, (entry_words_len m), IH. Qed.

Lemma layout_app a b : layout (a ++ b) = layout a ++ layout b.
Proof. by rewrite map_app, join_app. Qed.

Lemma rd_off a b p i : p = zlen a + i -> 0 <= i -> rd (a ++ b) p = rd b i.
Proof.
  intros -> Hi. pose proof (zlen_nonneg a). unfold rd. rewrite !(proj2 (Z.ltb_ge _ 0)) by lia. rewrite lookup_app_r by (unfold zlen; lia). by replace (Z.to_nat (zlen a + i) - length a)%nat with (Z.to_nat i) by (unfold zlen; lia).
Qed.

Lemma wr_off a b p i v : p = zlen a + i -> 0 <= i -> wr (a ++ b) p v = (b ← wr b i v; Ret (a ++ b)).
Proof.
  intros -> Hi. pose proof (zlen_nonneg a). unfold wr. rewrite zlen_app. rewrite !(proj2 (Z.leb_le 0 _)) by lia. cbn [andb].
  destruct (Z.ltb_spec i (zlen b)), (Z.ltb_spec (zlen a + i) (zlen a + zlen b)); try lia; [|done]. rewrite bind_Ret_l. f_equal.
  replace (Z.to_nat (zlen a + i)) with (length a + Z.to_nat i)%nat by (unfold zlen; lia). by rewrite insert_app_r.
Qed.

(** the fields of an entry behind [a] *)
Lemma entry_fields m a e b p : entry_ok m e -> m < 2 ^ 31 -> p = zlen a -> let w := a ++ entry_words e ++ b in
  rd w p = Ret (ce_key e) /\ rd_int w (p + 1) = Ret (ce_len e) /\ rd_int w (p + 2) = Ret (ce_usage e) /\
  forall u, wr w (p + 2) u = Ret (a ++ entry_words (e <| ce_usage := u |>) ++ b).
Proof.
  intros [Hl Hu _] Hm Hp w. assert (Hint : forall x, 0 <= x < 2 ^ 31 -> int_of_u32 x = x).
  { intros x Hx. unfold int_of_u32. by rewrite u32_small, (proj2 (Z.ltb_lt _ _)) by lia. }
  unfold w, rd_int. split_and!.
  - by rewrite (rd_off _ _ _ 0) by lia.
  - rewrite (rd_off _ _ _ 1) by lia. change (rd (entry_words e ++ b) 1) with (Ret (ce_len e)). by rewrite bind_Ret_l, Hint by lia.
  - rewrite (rd_off _ _ _ 2) by lia. change (rd (entry_words e ++ b) 2) with (Ret (ce_usage e)). by rewrite bind_Ret_l, Hint by lia.
  - intros u. rewrite (wr_off _ _ _ 2) by lia. unfold wr. cbn [entry_words app]. rewrite (proj2 (Z.ltb_lt _ _)); [done|].
    rewrite !zlen_cons. pose proof (zlen_nonneg ((ce_pad e ++ gold_seq (ce_key e) (Z.to_nat (ce_len e))) ++ b)). lia.
Qed.

(** a free header *)
Lemma free_fields a n p : 16 <= n -> p = zlen a -> let w := a ++ replicate (Z.to_nat n) 0 in
  rd w p = Ret 0 /\ rd_int w (p + 1) = Ret 0 /\ wr w (p + 2) 0 = Ret w.
Proof.
  intros Hn Hp w. assert (Hr : forall i, 0 <= i < n -> rd (replicate (Z.to_nat n) 0) i = Ret 0).
  { intros i Hi. rewrite rd_at, at_pos_replicate by (rewrite ?zlen_replicate_Z; lia). done. }
  unfold w, rd_int. split_and!.
  - rewrite (rd_off _ _ _ 0) by lia. by rewrite Hr by lia.
  - rewrite (rd_off _ _ _ 1) by lia. by rewrite Hr by lia.
  - rewrite (wr_off _ _ _ 2) by lia. unfold wr. rewrite zlen_replicate_Z by lia. rewrite (proj2 (Z.ltb_lt _ _)), (proj2 (Z.leb_le _ _)) by lia. cbn [andb]. rewrite bind_Ret_l.
    do 2 f_equal. apply list_insert_id. apply lookup_replicate_2. lia.
Qed.

Lemma layout_at pre e es z : layout (pre ++ e :: es) ++ z = layout pre ++ entry_words e ++ layout es ++ z.
Proof. rewrite layout_app, <- app_assoc. change (layout (e :: es)) with (entry_words e ++ layout es). by rewrite <- app_assoc. Qed.

Section walks.
Context (m : Z) (Hm : m < 2 ^ 31) (n : Z) (Hn : 16 <= n).
Local Abbreviation zeros := (replicate (Z.to_nat n) 0).

Lemma used_nonneg es : Forall (entry_ok m) es -> 0 <= used es.
Proof using. intros H. apply sumZ_nonneg. eapply Forall_impl; [exact H|]. intros e [He _ _]. unfold entry_size, roundedHeaderSz. lia. Qed.

Lemma entry_at pre e es : Forall (entry_ok m) (pre ++ e :: es) -> let w := layout (pre ++ e :: es) ++ zeros in let p := used pre in
  p < zlen w /\ rd w p = Ret (ce_key e) /\ rd_int w (p + 1) = Ret (ce_len e) /\ rd_int w (p + 2) = Ret (ce_usage e) /\ p + ce_len e + roundedHeaderSz = used (pre ++ [e]) /\
  forall u, wr w (p + 2) u = Ret (layout (pre ++ e <| ce_usage := u |> :: es) ++ zeros).
Proof using Hm Hn.
  intros H w p. pose proof H as [H1 H2]%Forall_app. inversion_clear H2 as [|? ? He H3].
  destruct (entry_fields m (layout pre) e (layout es ++ zeros) p He Hm) as (F1 & F2 & F3 & F4); [by rewrite (layout_len m)|]. rewrite <- layout_at in F1, F2, F3.
  split_and!; [|done..| |].
  - unfold w, p. rewrite zlen_app, (layout_len m) by done. rewrite sumZ_app. cbn [sumZ]. pose proof (used_nonneg es H3). rewrite zlen_replicate_Z by lia.
    assert (0 <= entry_size e) by (destruct He; unfold entry_size, roundedHeaderSz; lia). lia.
  - unfold p. rewrite sumZ_app. cbn [sumZ]. change (entry_size e) with (roundedHeaderSz + ce_len e). lia.
  - intros u. unfold w. rewrite !layout_at. apply F4.
Qed.

Lemma free_at es : Forall (entry_ok m) es -> let w := layout es ++ zeros in let p := used es in
  p < zlen w /\ rd w p = Ret 0 /\ rd_int w (p + 1) = Ret 0 /\ wr w (p + 2) 0 = Ret w.
Proof using Hn.
  intros H w p. destruct (free_fields (layout es) n p Hn) as (F1 & F2 & F3); [by rewrite (layout_len m)|]. split_and!; [|done..].
  unfold w, p. rewrite zlen_app, (layout_len m), zlen_replicate_Z by (done || lia). lia.
Qed.

Lemma find_max_ok es : forall fuel pre mu e0, Forall (entry_ok m) (pre ++ es) -> (length es < fuel)%nat ->
  exists mu' e', find_max fuel (layout (pre ++ es) ++ zeros) (zlen (layout (pre ++ es) ++ zeros)) (used pre) mu e0 = Ret (mu', e') /\ mu <= mu' /\
    Forall (fun e => ce_usage e <= mu') es /\
    (mu' = mu /\ e' = e0 \/ exists a e b, es = a ++ e :: b /\ ce_usage e = mu' /\ mu < mu' /\ e' = Some (used (pre ++ a))).
Proof using Hm Hn.
  induction es as [|e es IH]; intros fuel pre mu e0 H Hf; (destruct fuel as [|fuel]; [simpl in Hf; lia|]); cbn [find_max].
  - rewrite app_nil_r in *. destruct (free_at pre H) as (P1 & _ & P2 & _). rewrite (proj2 (Z.ltb_lt _ _)), P2, bind_Ret_l by lia. exists mu, e0. split_and!; [done|lia|constructor|by left].
  - destruct (entry_at pre e es H) as (P1 & _ & P2 & P3 & P4 & _). rewrite (proj2 (Z.ltb_lt _ _)), P2, bind_Ret_l by lia.
    pose proof (proj1 (Forall_app _ _ _) H) as [_ H2]. inversion_clear H2 as [|? ? He H3]. destruct (eo_len _ _ He). rewrite (proj2 (Z.eqb_neq _ _)) by lia. rewrite P3, bind_Ret_l, P4.
    assert (Hshift : pre ++ e :: es = (pre ++ [e]) ++ es) by by rewrite <- app_assoc. rewrite Hshift in *. destruct (Z.ltb_spec mu (ce_usage e)) as [Hlt|Hge].
    + destruct (IH fuel (pre ++ [e]) (ce_usage e) (Some (used pre)) H) as (mu' & e' & E1 & E2 & E3 & E4); [simpl in Hf; lia|]. exists mu', e'. split_and!; [done|lia|by constructor; [lia|]|].
      right. destruct E4 as [[-> ->]|(a & x & b & -> & E5 & E6 & ->)]; [exists [], e, es; by rewrite app_nil_r|]. exists (e :: a), x, b. split_and!; [done|done|lia|]. by rewrite <- app_assoc.
    + destruct (IH fuel (pre ++ [e]) mu e0 H) as (mu' & e' & E1 & E2 & E3 & E4); [simpl in Hf; lia|]. exists mu', e'. split_and!; [done|lia|by constructor; [lia|]|].
      destruct E4 as [[-> ->]|(a & x & b & -> & E5 & E6 & ->)]; [by left|right]. exists (e :: a), x, b. split_and!; [done|done|lia|]. by rewrite <- app_assoc.
Qed.

Lemma first_free_ok es : forall fuel pre, Forall (entry_ok m) (pre ++ es) -> (length es < fuel)%nat ->
  first_free fuel (layout (pre ++ es) ++ zeros) (zlen (layout (pre ++ es) ++ zeros)) (used pre) = Ret (used (pre ++ es)).
Proof using Hm Hn.
  induction es as [|e es IH]; intros fuel pre H Hf; (destruct fuel as [|fuel]; [simpl in Hf; lia|]); cbn [first_free].
  - rewrite app_nil_r in *. destruct (free_at pre H) as (P1 & _ & P2 & _). by rewrite (proj2 (Z.ltb_lt _ _)), P2, bind_Ret_l by lia.
  - destruct (entry_at pre e es H) as (P1 & _ & P2 & P3 & P4 & _). rewrite (proj2 (Z.ltb_lt _ _)), P2, bind_Ret_l by lia.
    pose proof (proj1 (Forall_app _ _ _) H) as [_ H2]. inversion_clear H2 as [|? ? He H3]. destruct (eo_len _ _ He). rewrite (proj2 (Z.eqb_neq _ _)), P4 by lia.
    assert (Hshift : pre ++ e :: es = (pre ++ [e]) ++ es) by by rewrite <- app_assoc. rewrite Hshift in *. apply IH; [done|simpl in Hf; lia].
Qed.

(** entries with another key are passed *)
Lemma search_skip es : forall fuel pre rest key len calls, Forall (entry_ok m) (pre ++ es ++ rest) -> Forall (fun e => ce_key e <> key) es ->
  let w := layout (pre ++ es ++ rest) ++ zeros in
  search_cache (length es + fuel) w (zlen w) (used pre) key len calls = search_cache fuel w (zlen w) (used (pre ++ es)) key len calls.
Proof using Hm Hn.
  induction es as [|e es IH]; intros fuel pre rest key len calls H Hk w; cbn [length Nat.add app]; [by rewrite app_nil_r|]. inversion_clear Hk as [|? ? Hne Hk'].
  cbn [search_cache]. cbn [app] in *. destruct (entry_at pre e (es ++ rest) H) as (P1 & P0 & P2 & P3 & P4 & _). fold w in P1, P0, P2, P3.
  pose proof (proj1 (Forall_app _ _ _) H) as [_ H2]. inversion_clear H2 as [|? ? He H3]. destruct (eo_len _ _ He).
  rewrite (proj2 (Z.ltb_lt _ _)), P0, bind_Ret_l, P2, bind_Ret_l by lia. rewrite (proj2 (Z.eqb_neq _ key)) by done. rewrite andb_false_r, bind_Ret_l, (proj2 (Z.eqb_neq _ 0)), P4 by lia.
  unfold w. assert (Hshift : pre ++ e :: es ++ rest = (pre ++ [e]) ++ es ++ rest) by by rewrite <- app_assoc.
  assert (Hshift' : pre ++ e :: es = (pre ++ [e]) ++ es) by by rewrite <- app_assoc. rewrite Hshift in *. rewrite Hshift'. apply IH; done.
Qed.

Local Abbreviation live es := (filter (fun e => 0 < ce_usage e) es).

Lemma entries_count es : Forall (entry_ok m) es -> Z.of_nat (length es) <= used es.
Proof using. induction 1 as [|e es [He _ _] _ IH]; cbn [length sumZ]; [done|]. change (entry_size e) with (roundedHeaderSz + ce_len e). unfold roundedHeaderSz. lia. Qed.

Lemma live_nil es : Forall (fun e => ce_usage e <= 0) es -> live es = [].
Proof using. induction 1 as [|x l Hx _ IH]; [done|]. by rewrite filter_cons_False by lia. Qed.

Lemma live_all es : Forall (fun e => 0 < ce_usage e) es -> live es = es.
Proof using. induction 1 as [|x l Hx _ IH]; [done|]. by rewrite filter_cons_True, IH by done. Qed.

Lemma live_ok es : Forall (entry_ok m) es -> Forall (entry_ok m) (live es).
Proof using. intros H. apply Forall_forall. intros e [_ He]%list_elem_of_filter. by apply (proj1 (Forall_forall _ _) H). Qed.

Lemma entry_set m' e u : entry_ok m e -> 0 <= u <= m' -> entry_ok m' (e <| ce_usage := u |>).
Proof using. intros [H1 _ H3] Hu. by split. Qed.

(** the entries in use are copied, the most used first *)
Lemma copy_ok fuel : forall es cs j, Forall (entry_ok m) es -> Forall (entry_ok m) cs -> (length (live es) < fuel)%nat -> used (live es) <= zlen j ->
  exists cs' j', copy_entries fuel (layout es ++ zeros) (zlen (layout es ++ zeros)) (layout cs ++ j) (used cs) = Ret (layout (cs ++ cs') ++ j', used (cs ++ cs')) /\
    cs' ≡ₚ live es /\ zlen j' = zlen j - used cs'.
Proof using Hm Hn.
  induction fuel as [|fuel IH]; intros es cs j Hes Hcs Hf Hj; [lia|]. cbn [copy_entries].
  assert (Hlen : (length es < S (Z.to_nat (zlen (layout es ++ zeros))))%nat).
  { pose proof (entries_count es Hes). rewrite zlen_app, (layout_len m), zlen_replicate_Z by (done || lia). lia. }
  destruct (find_max_ok es (S (Z.to_nat (zlen (layout es ++ zeros)))) [] 0 None Hes Hlen) as (mu & e' & E1 & E2 & E3 & E4). cbn [app sumZ] in E1. rewrite E1, bind_Ret_l.
  destruct E4 as [[-> ->]|(a & e & b & -> & Eu & Epos & ->)].
  - rewrite live_nil by done. exists [], j. rewrite app_nil_r. split_and!; [done|done|cbn [sumZ]; lia].
  - rewrite (proj2 (Z.eqb_neq mu 0)) by lia. cbn [app]. pose proof Hes as [Ha Hb]%Forall_app. inversion_clear Hb as [|? ? He Hb'].
    destruct (entry_at a e b Hes) as (_ & _ & P2 & _ & _ & P5). rewrite P2, bind_Ret_l. change (roundedHeaderSz + ce_len e) with (entry_size e).
    assert (Hrd : mem_read (layout (a ++ e :: b) ++ zeros) (used a) (entry_size e) = Ret (entry_words e)).
    { rewrite layout_at. apply mem_read_mid; [by rewrite (layout_len m)|by rewrite (entry_words_len m)]. }
    rewrite Hrd, bind_Ret_l.
    assert (Hlive : live (a ++ e :: b) = live a ++ e :: live b) by (rewrite filter_app, filter_cons_True by lia; done).
    rewrite Hlive in Hf, Hj |- *. rewrite length_app in Hf. cbn [length] in Hf. rewrite sumZ_app in Hj. cbn [sumZ] in Hj.
    pose proof (used_nonneg _ (live_ok a Ha)). pose proof (used_nonneg _ (live_ok b Hb')). pose proof (entry_words_len m e He) as Hew.
    rewrite mem_write_ok by (rewrite ?Hew, ?zlen_app, ?(layout_len m) by done; apply used_nonneg in Hcs; lia).
    assert (Hcl : Z.to_nat (used cs) = length (layout cs)) by (pose proof (layout_len m cs Hcs); unfold zlen in *; lia).
    rewrite Hcl, take_app_length, drop_app_add, bind_Ret_l, P5, bind_Ret_l.
    assert (Hes' : Forall (entry_ok m) (a ++ e <| ce_usage := 0 |> :: b)) by (apply Forall_app; split; [done|constructor; [apply entry_set; [done|destruct He; lia]|done]]).
    assert (Hlive' : live (a ++ e <| ce_usage := 0 |> :: b) = live a ++ live b) by (rewrite filter_app, filter_cons_False by (cbn; lia); done).
    assert (Hsz : zlen (layout (a ++ e :: b) ++ zeros) = zlen (layout (a ++ e <| ce_usage := 0 |> :: b) ++ zeros)).
    { rewrite !zlen_app, !(layout_len m), !sumZ_app by done. done. }
    assert (Hlay : forall z, layout cs ++ entry_words e ++ z = layout (cs ++ [e]) ++ z). { intros z. rewrite layout_app, <- app_assoc. do 2 f_equal. change (layout [e]) with (entry_words e ++ []). by rewrite app_nil_r. }
    rewrite Hsz, Hlay. replace (used cs + entry_size e) with (used (cs ++ [e])) by (rewrite sumZ_app; cbn [sumZ]; lia).
    destruct (IH (a ++ e <| ce_usage := 0 |> :: b) (cs ++ [e]) (drop (length (entry_words e)) j)) as (cs' & j' & F1 & F2 & F3); [done|by apply Forall_app; split; [|constructor]|..].
    + rewrite Hlive', length_app. lia.
    + rewrite Hlive', sumZ_app, zlen_drop. unfold zlen in *. lia.
    + rewrite F1. exists (e :: cs'), j'. rewrite <- !app_assoc. split_and!; [done| |].
      * rewrite F2, Hlive'. apply Permutation_middle.
      * cbn [sumZ]. rewrite F3, zlen_drop. unfold zlen in *. lia.
Qed.
End walks.

Local Abbreviation live es := (filter (fun e => 0 < ce_usage e) es).
Local Abbreviation zeros n := (replicate (Z.to_nat n) 0).

(** the table holds the entries and free words, with room for a header at least *)
Definition holds_entries (t : gold_cache_table_t) (es : list centry) : Prop :=
  match gt_table t with
  | None => gt_tblSz t = 0 /\ es = []
  | Some w => exists n, 16 <= n /\ w = layout es ++ zeros n /\ gt_tblSz t = zlen w
  end.

Definition grown (sz inc : Z) : Z :=
  let sz := if sz =? 0 then PAGE_WORDS else sz in if inc =? 0 then sz else sz + Z.max inc PAGE_WORDS.

Lemma live_used m es : Forall (entry_ok m) es -> used (live es) <= used es.
Proof.
  induction 1 as [|e l He Hl IH]; [done|]. pose proof (used_nonneg m l Hl). assert (0 <= entry_size e) by (destruct He; unfold entry_size, roundedHeaderSz; lia).
  rewrite filter_cons. destruct (decide _); cbn [sumZ]; lia.
Qed.

Section state.
Context (junk : Z -> list Z) (Hjunk : forall n, 0 <= n -> zlen (junk n) = n).

(** a refresh keeps the entries in use *)
Lemma refresh_ok m t es inc : m < 2 ^ 31 -> holds_entries t es -> Forall (entry_ok m) es -> 0 <= inc -> grown (gt_tblSz t) inc < 2 ^ 32 ->
  exists cs n, refresh_table junk t inc = Ret (mk_gold (Some (layout cs ++ zeros n)) (grown (gt_tblSz t) inc) 0) /\ cs ≡ₚ live es /\
    n = grown (gt_tblSz t) inc - used cs /\ 16 <= n.
Proof using Hjunk.
  intros Hm Hsh Hes Hinc Hw. unfold refresh_table. set (sz' := grown (gt_tblSz t) inc) in *.
  assert (Hsz0 : 0 <= gt_tblSz t) by (unfold holds_entries in Hsh; destruct (gt_table t); [destruct Hsh as (n & _ & _ & ->); apply zlen_nonneg|destruct Hsh; lia]).
  assert (Hsz : (if inc =? 0 then (if gt_tblSz t =? 0 then PAGE_WORDS else gt_tblSz t) else u32 ((if gt_tblSz t =? 0 then PAGE_WORDS else gt_tblSz t) + Z.max inc PAGE_WORDS)) = sz').
  { unfold sz', grown in *. cbv zeta in *. change PAGE_WORDS with 1024 in *. destruct (inc =? 0); [done|]. apply u32_small. destruct (gt_tblSz t =? 0); lia. }
  rewrite Hsz. assert (Hge : gt_tblSz t <= sz' /\ 16 <= sz' /\ 0 <= sz').
  { unfold sz', grown. cbv zeta. change PAGE_WORDS with 1024. unfold holds_entries in Hsh. destruct (gt_table t) as [w|].
    - destruct Hsh as (n & Hn & -> & ->). pose proof (zlen_nonneg (layout es)). rewrite zlen_app, zlen_replicate_Z by lia.
      rewrite (proj2 (Z.eqb_neq (zlen (layout es) + n) 0)) by lia. destruct (inc =? 0); lia.
    - destruct Hsh as [-> _]. destruct (inc =? 0); cbn; lia. }
  assert (Hcopy : exists cs j, copy_entries (S (Z.to_nat (gt_tblSz t))) (default [] (gt_table t)) (gt_tblSz t) (junk sz') 0 = Ret (layout cs ++ j, used cs) /\ cs ≡ₚ live es /\ zlen j = sz' - used cs /\ 16 <= zlen j).
  { unfold holds_entries in Hsh. destruct (gt_table t) as [w|].
    - destruct Hsh as (n & Hn & -> & Hz). rewrite Hz in Hge |- *. cbn [default]. pose proof (layout_len m es Hes) as Hll. rewrite zlen_app, zlen_replicate_Z, Hll in Hge by lia.
      pose proof (live_used m es Hes) as Hle.
      destruct (copy_ok m Hm n Hn (S (Z.to_nat (zlen (layout es ++ zeros n)))) es [] (junk sz') Hes) as (cs & j & E1 & E2 & E3); [constructor| |rewrite Hjunk; lia|].
      { pose proof (entries_count m _ (live_ok m es Hes)). rewrite zlen_app, zlen_replicate_Z, Hll by lia. lia. }
      exists cs, j. split_and!; [exact E1|done|by rewrite E3, Hjunk by lia|]. rewrite E3, Hjunk by lia. rewrite (sumZ_perm _ _ _ E2). lia.
    - destruct Hsh as [-> ->]. exists [], (junk sz'). cbn. split_and!; [done|done|by rewrite Hjunk, Z.sub_0_r by lia|rewrite Hjunk by lia; lia]. }
  destruct Hcopy as (cs & j & -> & Hp & Hj & Hj16). rewrite bind_Ret_l. exists cs, (zlen j).
  assert (Hcs : Forall (entry_ok m) cs) by (rewrite Hp; by apply live_ok).
  rewrite mem_write_suffix; [|by rewrite (layout_len m)|rewrite zlen_replicate_Z; lia]. rewrite bind_Ret_l, <- Hj. split_and!; [done|done|done|done].
Qed.
End state.

(** ** New entries *)

Lemma write_sequence_ok rounds : forall a z p x1 x2, p = zlen a -> (rounds <= length z)%nat ->
  write_sequence rounds (a ++ z) p x1 x2 = Ret (a ++ gold_run rounds x1 x2 ++ drop rounds z).
Proof.
  induction rounds as [|rounds IH]; intros a z p x1 x2 Hp Hz; [done|]. cbn [write_sequence gold_run]. destruct (lte_gold_generic x1 x2 false) as [[c x1'] x2'].
  destruct z as [|y z]; [simpl in Hz; lia|]. rewrite wr_offset, bind_Ret_l by done.
  change (drop 1 (y :: z)) with z. rewrite IH; [by rewrite <- !app_assoc|by rewrite zlen_snoc, Hp|cbn [length] in Hz; lia].
Qed.

Lemma wr_zeros a n p i v : p = zlen a + i -> 0 <= i < n -> wr (a ++ zeros n) p v = Ret (a ++ <[Z.to_nat i := v]> (zeros n)).
Proof.
  intros Hp Hi. rewrite (wr_off _ _ _ i) by (done || lia). unfold wr. rewrite zlen_replicate_Z by lia. by rewrite (proj2 (Z.leb_le _ _)), (proj2 (Z.ltb_lt _ _)) by lia.
Qed.

Lemma add_entry_ok m es n sz calls key L : m < 2 ^ 31 -> Forall (entry_ok m) es -> 0 < L -> 32 + L <= n -> sz = used es + n ->
  let w := layout (es ++ [mk_centry key L 1 (replicate 13 0)]) ++ zeros (n - (16 + L)) in
  add_entry (mk_gold (Some (layout es ++ zeros n)) sz calls) key L = Ret (used es + roundedHeaderSz, mk_gold (Some w) sz calls).
Proof.
  intros Hm Hes HL Hn Hsz w. unfold add_entry. cbn [gt_table gt_tblSz gt_calls from_option id]. pose proof (layout_len m es Hes) as Hll. pose proof (used_nonneg m es Hes) as Hu0.
  assert (Hz : zlen (layout es ++ zeros n) = sz) by (rewrite zlen_app, zlen_replicate_Z, Hll by lia; lia).
  pose proof (entries_count m es Hes). pose proof (first_free_ok m Hm n ltac:(lia) es (S (Z.to_nat (zlen (layout es ++ zeros n)))) [] Hes ltac:(lia)) as Hff.
  cbn [app sumZ] in Hff. rewrite Hz in Hff. rewrite Hff, bind_Ret_l. clear Hff Hz. set (a := layout es) in *.
  assert (Hsplit : zeros n = 0 :: 0 :: 0 :: replicate 13 0 ++ replicate (Z.to_nat L) 0 ++ zeros (n - (16 + L))).
  { replace (Z.to_nat n) with (3 + (13 + (Z.to_nat L + Z.to_nat (n - (16 + L)))))%nat by lia. by rewrite !replicate_add. }
  rewrite Hsplit. replace (used es) with (zlen a) by done.
  rewrite (wr_offset a) by done. rewrite bind_Ret_l, (wr_offset (a ++ _)) by (rewrite ?zlen_snoc; done). rewrite bind_Ret_l, (wr_offset ((a ++ _) ++ _)) by (rewrite ?zlen_snoc; lia || done).
  cbn [drop]. rewrite drop_0, bind_Ret_l. unfold lte_gold_generic at 1. destruct (gold_reset key) as [x1 x2] eqn:Hreset.
  destruct (Z.to_nat L) as [|l] eqn:HLn; [lia|]. change (replicate (S l) 0) with (0 :: replicate l 0). rewrite (app_assoc _ (replicate 13 0)). set (hd := (((a ++ [key]) ++ [L]) ++ [1]) ++ replicate 13 0).
  assert (Hhd : zlen hd = zlen a + 16) by (unfold hd; rewrite zlen_app, !zlen_snoc; change (zlen (replicate 13 0)) with 13; lia).
  cbn [app]. rewrite (wr_offset hd) by (done || (unfold roundedHeaderSz; lia)). cbn [drop]. rewrite drop_0, bind_Ret_l.
  rewrite write_sequence_ok; [|rewrite zlen_snoc; unfold roundedHeaderSz; lia|rewrite length_app, length_replicate; lia]. rewrite bind_Ret_l. do 3 f_equal. f_equal.
  unfold w. rewrite layout_app. fold a. change (layout [mk_centry key L 1 (replicate 13 0)]) with (entry_words (mk_centry key L 1 (replicate 13 0)) ++ []). rewrite app_nil_r.
  unfold entry_words, gold_seq. cbn [ce_key ce_len ce_usage ce_pad]. rewrite Hreset, HLn. cbn [gold_run lte_gold_generic].
  replace (Z.to_nat (L - 1)) with l by lia. rewrite drop_app_length' by (by rewrite length_replicate). unfold hd. rewrite <- !app_assoc. cbn [app]. by rewrite <- ?app_assoc.
Qed.

(** ** The invariant *)

Definition pair_of (e : centry) : Z * Z := (ce_key e, ce_len e).

(** the words that sequences of these keys and lengths take *)
Definition budget (U : list (Z * Z)) : Z := sumZ (fun p => roundedHeaderSz + p.2) U.

Lemma sumZ_submseteq {A} (f : A -> Z) l k : (forall x, 0 <= f x) -> l ⊆+ k -> sumZ f l <= sumZ f k.
Proof. intros Hf. induction 1; cbn [sumZ]; try lia. pose proof (Hf x). lia. Qed.

Lemma budget_max U : Forall (fun p => 0 < p.2) U -> budget U = sumZ (fun p => roundedHeaderSz + Z.max 0 p.2) U.
Proof. induction 1 as [|p l Hp _ IH]; [done|]. unfold budget in *. cbn [sumZ]. rewrite IH. lia. Qed.

(** at most one entry of a key is in use; keys and lengths are among those of [U] *)
Record entries_ok (U : list (Z * Z)) (m : Z) (es : list centry) : Prop := {
  es_ok : Forall (entry_ok m) es;
  es_pairs : NoDup (map pair_of es);
  es_in : Forall (fun e => pair_of e ∈ U) es;
  es_keys : NoDup (map ce_key (live es)) }.

Section inv.
Context (U : list (Z * Z)) (HU : Forall (fun p => 0 < p.2) U).

Lemma used_budget m es : entries_ok U m es -> used es <= budget U.
Proof using HU.
  intros [Hok Hnd Hin _]. assert (E : used es = sumZ (fun p => roundedHeaderSz + Z.max 0 p.2) (map pair_of es)).
  { clear Hnd Hin. induction Hok as [|e es [He _ _] _ IH]; [done|]. cbn [map sumZ]. rewrite IH. change (entry_size e) with (roundedHeaderSz + ce_len e). cbn [pair_of snd]. lia. }
  rewrite E, (budget_max U HU). apply sumZ_submseteq; [unfold roundedHeaderSz; lia|]. apply NoDup_submseteq; [done|].
  intros p (e & -> & He)%list_elem_of_fmap. by apply (proj1 (Forall_forall _ _) Hin).
Qed.

Lemma length_budget key L : (key, L) ∈ U -> L + 16 <= budget U.
Proof using HU.
  intros (i & Hi)%list_elem_of_lookup. rewrite (budget_max U HU). pose proof (sumZ_lookup_le (fun p : Z * Z => roundedHeaderSz + Z.max 0 p.2) U i (key, L) ltac:(unfold roundedHeaderSz; lia) Hi) as H. unfold roundedHeaderSz in *. cbn [snd] in H. lia.
Qed.

Lemma entries_live m es cs : entries_ok U m es -> cs ≡ₚ live es -> entries_ok U m cs /\ Forall (fun e => 0 < ce_usage e) cs.
Proof using.
  intros [Hok Hnd Hin Hk] Hp. assert (Hpos : Forall (fun e => 0 < ce_usage e) cs) by (rewrite Hp; apply Forall_forall; by intros e [He _]%list_elem_of_filter).
  split; [|done]. split.
  - rewrite Hp. by apply live_ok.
  - rewrite Hp. eapply sublist_NoDup; [exact Hnd|]. apply (fmap_sublist pair_of), sublist_filter.
  - rewrite Hp. apply Forall_forall. intros e [_ He]%list_elem_of_filter. by apply (proj1 (Forall_forall _ _) Hin).
  - rewrite live_all by done. by rewrite Hp.
Qed.
End inv.

Section search.
Context (m : Z) (Hm : m < 2 ^ 31) (n : Z) (Hn : 16 <= n) (key L : Z) (HL : 0 < L).

Lemma fuel_split es : Forall (entry_ok m) es -> exists k, S (Z.to_nat (zlen (layout es ++ zeros n))) = (length es + S k)%nat.
Proof using Hn.
  intros H. pose proof (entries_count m es H). pose proof (layout_len m es H). exists (Z.to_nat (zlen (layout es ++ zeros n)) - length es)%nat.
  rewrite zlen_app, zlen_replicate_Z by lia. lia.
Qed.

(** the end of the search, at the free header *)
Lemma search_end es k calls : Forall (entry_ok m) es -> let w := layout es ++ zeros n in
  search_cache (S k) w (zlen w) (used es) key L calls = Ret (None, w, used es, calls + if key =? 0 then REFRESH_RATE else 0).
Proof using Hm Hn HL.
  intros H w. destruct (free_at m n Hn es H) as (P1 & P0 & P2 & P3). fold w in P1, P0, P2, P3. cbn [search_cache].
  rewrite (proj2 (Z.ltb_lt _ _)), P0, bind_Ret_l, P2, bind_Ret_l by lia. rewrite (proj2 (Z.leb_gt L 0)) by lia. cbn [andb]. rewrite (Z.eqb_sym 0 key).
  destruct (key =? 0); [by rewrite P3, !bind_Ret_l|]. rewrite !bind_Ret_l. cbn [Z.eqb]. by rewrite Z.add_0_r.
Qed.

Lemma search_none es calls : Forall (entry_ok m) es -> Forall (fun e => ce_key e <> key) es -> let w := layout es ++ zeros n in
  search_cache (S (Z.to_nat (zlen w))) w (zlen w) 0 key L calls = Ret (None, w, used es, calls + if key =? 0 then REFRESH_RATE else 0).
Proof using Hm Hn HL.
  intros H Hk w. destruct (fuel_split es H) as [k Hf]. fold w in Hf. rewrite Hf.
  pose proof (search_skip m Hm n Hn es (S k) [] [] key L calls) as Hs. rewrite app_nil_r in Hs. cbn [app sumZ] in Hs. fold w in Hs. rewrite Hs by done. by apply search_end.
Qed.

(** the entry of the key *)
Lemma search_entry a e b calls : Forall (entry_ok m) (a ++ e :: b) -> Forall (fun e => ce_key e <> key) a -> Forall (fun e => ce_key e <> key) b ->
  ce_key e = key -> ce_usage e + 1 < 2 ^ 31 -> let w := layout (a ++ e :: b) ++ zeros n in
  search_cache (S (Z.to_nat (zlen w))) w (zlen w) 0 key L calls =
    if L <=? ce_len e then Ret (Some (used a + roundedHeaderSz), layout (a ++ e <| ce_usage := ce_usage e + 1 |> :: b) ++ zeros n, used a, calls)
    else Ret (None, layout (a ++ e <| ce_usage := 0 |> :: b) ++ zeros n, used (a ++ e :: b), calls + REFRESH_RATE + if key =? 0 then REFRESH_RATE else 0).
Proof using Hm Hn HL.
  intros H Ha Hb Hk Hu w. destruct (fuel_split _ H) as [k Hf]. fold w in Hf. rewrite Hf, length_app. cbn [length].
  pose proof (search_skip m Hm n Hn a (S (length b + S k)) [] (e :: b) key L calls) as Hs. cbn [app sumZ] in Hs. fold w in Hs.
  replace (length a + S (length b) + S k)%nat with (length a + S (length b + S k))%nat by lia. rewrite Hs by done. clear Hs. cbn [search_cache].
  destruct (entry_at m Hm n Hn a e b H) as (P1 & P0 & P2 & P3 & P4 & P5). fold w in P1, P0, P2, P3, P5.
  pose proof H as [H1 H2]%Forall_app. inversion_clear H2 as [|? ? He H3]. destruct (eo_len _ _ He). destruct (eo_usage _ _ He).
  rewrite (proj2 (Z.ltb_lt _ _)), P0, bind_Ret_l, P2, bind_Ret_l by lia. rewrite Hk, Z.eqb_refl, andb_true_r. destruct (L <=? ce_len e) eqn:HLe.
  - rewrite P3, bind_Ret_l, (proj2 (Z.eqb_neq _ _)) by lia. by rewrite u32_small, P5, bind_Ret_l by lia.
  - rewrite P5, !bind_Ret_l, (proj2 (Z.eqb_neq _ 0)), P4 by lia. set (e0 := e <| ce_usage := 0 |>). set (w' := layout (a ++ e0 :: b) ++ zeros n).
    assert (H' : Forall (entry_ok m) (a ++ e0 :: b)) by (apply Forall_app; split; [done|constructor; [apply (entry_set m); [done|lia]|done]]).
    assert (Hz : zlen w = zlen w') by (unfold w, w'; rewrite !zlen_app, !(layout_len m), !sumZ_app by done; done). rewrite Hz.
    assert (Hua : used (a ++ [e]) = used (a ++ [e0])) by (rewrite !sumZ_app; done). assert (Hub : used (a ++ e :: b) = used (a ++ e0 :: b)) by (rewrite !sumZ_app; done). rewrite Hua, Hub.
    assert (Hsh : a ++ e0 :: b = (a ++ [e0]) ++ b ++ []) by by rewrite app_nil_r, <- app_assoc.
    pose proof (search_skip m Hm n Hn b (S k) (a ++ [e0]) [] key L (calls + REFRESH_RATE)) as Hs. rewrite <- Hsh in Hs. rewrite app_nil_r in Hsh. rewrite <- Hsh in Hs. fold w' in Hs.
    rewrite Hs by done. rewrite (search_end (a ++ e0 :: b) k _ H'). done.
Qed.
End search.

Lemma key_cases key es : NoDup (map ce_key es) -> Forall (fun e => ce_key e <> key) es \/
  exists a e b, es = a ++ e :: b /\ ce_key e = key /\ Forall (fun e => ce_key e <> key) a /\ Forall (fun e => ce_key e <> key) b.
Proof.
  intros Hnd. destruct (decide (Exists (fun e => ce_key e = key) es)) as [(e & He & Hk)%Exists_exists|Hno].
  - right. apply list_elem_of_split in He as (a & b & ->). exists a, e, b. split_and!; [done|done|..]; rewrite map_app in Hnd; cbn [map] in Hnd; apply NoDup_app in Hnd as (_ & Hab & Hb);
      inversion_clear Hb as [|? ? Hn _]; apply Forall_forall; intros x Hx Hkx.
    + apply (Hab key); [apply list_elem_of_fmap; by exists x|]. rewrite Hk. by left.
    + apply Hn. apply list_elem_of_fmap. exists x. by rewrite Hk.
  - left. apply Forall_forall. intros e He Hk. apply Hno, Exists_exists. by exists e.
Qed.

(** what a change of the usage of one entry keeps *)
Lemma entries_set U m m' a e b u : entries_ok U m (a ++ e :: b) -> Forall (fun e => 0 < ce_usage e) (a ++ e :: b) -> m <= m' -> 0 <= u <= m' ->
  entries_ok U m' (a ++ e <| ce_usage := u |> :: b).
Proof.
  intros [Hok Hp Hin Hk] Hpos Hm Hu. assert (Hmap : map pair_of (a ++ e <| ce_usage := u |> :: b) = map pair_of (a ++ e :: b)) by by rewrite !map_app.
  split.
  - apply Forall_app in Hok as [Ha Hb]. inversion_clear Hb as [|? ? He Hb']. assert (Hmono : forall l, Forall (entry_ok m) l -> Forall (entry_ok m') l).
    { intros l Hl. eapply Forall_impl; [exact Hl|]. intros x [X1 X2 X3]. split; [done|lia|done]. }
    apply Forall_app. split; [by apply Hmono|]. constructor; [by apply (entry_set m)|by apply Hmono].
  - by rewrite Hmap.
  - apply Forall_app in Hin as [Ha Hb]. inversion_clear Hb as [|? ? He Hb']. apply Forall_app. split; [done|by constructor].
  - rewrite live_all in Hk by done. eapply sublist_NoDup; [exact Hk|]. assert (map ce_key (a ++ e :: b) = map ce_key (a ++ e <| ce_usage := u |> :: b)) as -> by by rewrite !map_app.
    apply (fmap_sublist ce_key), sublist_filter.
Qed.

Lemma entries_mono U m m' es : entries_ok U m es -> m <= m' -> entries_ok U m' es.
Proof. intros [Hok Hp Hin Hk] Hm. split; try done. eapply Forall_impl; [exact Hok|]. intros x [X1 X2 X3]. split; [done|lia|done]. Qed.

(** a miss leaves the entries without the key in use *)
Definition missed (U : list (Z * Z)) (m key L : Z) (es : list centry) (calls : Z) : Prop :=
  entries_ok U m es /\ ~ ((key, L) ∈ map pair_of es) /\ Forall (fun e => ce_key e <> key) (live es) /\ (calls < REFRESH_RATE -> Forall (fun e => 0 < ce_usage e) es).

Lemma search_cases U m n key L es calls : m + 1 < 2 ^ 31 -> 16 <= n -> 0 < L -> entries_ok U m es -> Forall (fun e => 0 < ce_usage e) es -> 0 <= calls ->
  let w := layout es ++ zeros n in
  exists hit es' ptr calls', search_cache (S (Z.to_nat (zlen w))) w (zlen w) 0 key L calls = Ret (hit, layout es' ++ zeros n, ptr, calls') /\ used es' = used es /\
    calls <= calls' <= calls + 2 * REFRESH_RATE /\
    match hit with
    | Some p => calls' = calls /\ entries_ok U (m + 1) es' /\ Forall (fun e => 0 < ce_usage e) es' /\
        exists a e b, es' = a ++ e :: b /\ ce_key e = key /\ L <= ce_len e /\ p = used a + roundedHeaderSz
    | None => ptr = used es' /\ missed U m key L es' calls'
    end.
Proof.
  intros Hm Hn HL Hes Hpos Hc w. pose proof Hes as [Hok Hp Hin Hk]. rewrite live_all in Hk by done. unfold REFRESH_RATE in *. destruct (key_cases key es Hk) as [Hnone|(a & e & b & -> & Hke & Ha & Hb)].
  - exists None, es, (used es), (calls + if key =? 0 then REFRESH_RATE else 0). split_and!; [apply (search_none m); (done || lia)|done|unfold REFRESH_RATE; destruct (key =? 0); lia..|done|].
    split_and!; [done| |rewrite live_all by done; done|done]. intros (e & [= E1 E2] & He)%list_elem_of_fmap. by apply (proj1 (Forall_forall _ _) Hnone e He).
  - pose proof Hok as [_ Hoe]%Forall_app. inversion_clear Hoe as [|? ? He _]. destruct (eo_usage _ _ He).
    pose proof (search_entry m ltac:(lia) n Hn key L HL a e b calls Hok Ha Hb Hke ltac:(lia)) as Hs. fold w in Hs. destruct (Z.leb_spec L (ce_len e)) as [Hle|Hgt].
    + eexists _, (a ++ e <| ce_usage := ce_usage e + 1 |> :: b), _, _. split_and!; [exact Hs|by rewrite !sumZ_app|lia|lia|]. split_and!; [done|apply (entries_set U m); (done || lia)| |].
      * apply Forall_app in Hpos as [H1 H2]. inversion_clear H2. apply Forall_app. split; [done|]. constructor; [cbn; lia|done].
      * eexists a, _, b. split_and!; [reflexivity|done|done|done].
    + eexists _, (a ++ e <| ce_usage := 0 |> :: b), _, _. split_and!; [exact Hs|by rewrite !sumZ_app|unfold REFRESH_RATE; destruct (key =? 0); lia..|]. split; [by rewrite !sumZ_app|]. split_and!.
      * apply (entries_set U m); (done || lia).
      * intros Hin'. rewrite map_app in Hin'. apply elem_of_app in Hin' as [(x & [= E1 E2] & Hx)%list_elem_of_fmap|Hin']; [by apply (proj1 (Forall_forall _ _) Ha x Hx)|].
        cbn [map] in Hin'. apply elem_of_cons in Hin' as [[= E1 E2]|(x & [= E1 E2] & Hx)%list_elem_of_fmap]; [lia|by apply (proj1 (Forall_forall _ _) Hb x Hx)].
      * rewrite filter_app, filter_cons_False by (cbn; lia). apply Forall_app in Hpos as [H1 H2]. inversion_clear H2. rewrite !live_all by done. by apply Forall_app.
      * unfold REFRESH_RATE. destruct (key =? 0); lia.
Qed.

Definition roundup (len : Z) : Z := Z.quot (len + grain - 1) grain * grain.

Lemma roundup_range len : 0 < len -> len <= roundup len < len + 16.
Proof.
  intros H. unfold roundup, grain. rewrite Z.quot_div_nonneg by lia. pose proof (Z.div_mod (len + 16 - 1) 16 ltac:(lia)). pose proof (Z.mod_pos_bound (len + 16 - 1) 16 ltac:(lia)). lia.
Qed.

(** the cache after [m] calls for keys and lengths of [U]; entries that are not in use
    are there only until the next call, which refreshes the table *)
Record cache_ok (U : list (Z * Z)) (m : Z) (t : gold_cache_table_t) (es : list centry) : Prop := {
  co_holds : holds_entries t es;
  co_entries : entries_ok U m es;
  co_live : gt_calls t < REFRESH_RATE -> Forall (fun e => 0 < ce_usage e) es;
  co_calls : 0 <= gt_calls t <= 4 * REFRESH_RATE;
  co_size : gt_tblSz t <= 3 * budget U + 2112 }.

Section calls.
Context (junk : Z -> list Z) (Hjunk : forall n, 0 <= n -> zlen (junk n) = n).
Context (U : list (Z * Z)) (HU : Forall (fun p => 0 < p.2) U) (Hbudget : budget U < 2 ^ 29).

Lemma budget_nonneg : 0 <= budget U.
Proof using HU. rewrite (budget_max U HU). apply sumZ_nonneg. apply Forall_forall. intros p _. unfold roundedHeaderSz. lia. Qed.

(** the periodic refresh *)
Lemma periodic m t es : m < 2 ^ 31 -> cache_ok U m t es -> let t' := mk_gold (gt_table t) (gt_tblSz t) (gt_calls t + 1) in
  exists t1 es1, (if REFRESH_RATE <? gt_calls t' then refresh_table junk t' 0 else Ret t') = Ret t1 /\ holds_entries t1 es1 /\ entries_ok U m es1 /\
    Forall (fun e => 0 < ce_usage e) es1 /\ 0 <= gt_calls t1 <= REFRESH_RATE /\ gt_tblSz t1 <= 3 * budget U + 2112.
Proof using Hbudget Hjunk HU.
  intros Hm [Hh He Hl Hc Hs] t'. pose proof budget_nonneg. cbn [t' gt_calls]. destruct (Z.ltb_spec REFRESH_RATE (gt_calls t + 1)) as [Hlt|Hge].
  - destruct (refresh_ok junk Hjunk m t' es 0 Hm Hh (es_ok _ _ _ He) ltac:(lia)) as (cs & n & -> & Hp & Hn & Hn16).
    { unfold t', grown. cbn [gt_tblSz]. change PAGE_WORDS with 1024. cbn [Z.eqb]. destruct (gt_tblSz t =? 0); lia. }
    destruct (entries_live U m es cs He Hp) as [He' Hpos]. eexists _, cs. split; [done|]. pose proof (layout_len m cs (es_ok _ _ _ He')) as Hll. split_and!; [|done|done|cbn; unfold REFRESH_RATE; lia..|].
    + exists n. split_and!; [done|done|]. cbn [gt_tblSz]. rewrite zlen_app, zlen_replicate_Z, Hll by lia. lia.
    + cbn [gt_tblSz]. unfold t', grown. cbn [gt_tblSz]. change PAGE_WORDS with 1024. cbn [Z.eqb]. destruct (gt_tblSz t =? 0); lia.
  - exists t', es. split_and!; [done|done|done|apply Hl; lia|unfold t'; cbn [gt_calls]; lia..|done].
Qed.

(** room for a new entry *)
Lemma make_room m t es key L : m < 2 ^ 31 -> (key, L) ∈ U -> 0 < L -> holds_entries t es -> missed U m key L es (gt_calls t) -> gt_tblSz t <= 3 * budget U + 2112 ->
  0 <= gt_calls t <= 4 * REFRESH_RATE ->
  exists t' es' n, (match gt_table t with
      | Some _ => if gt_tblSz t - (2 * roundedHeaderSz + L) <? used es then refresh_table junk t (2 * roundedHeaderSz + L) else Ret t
      | None => refresh_table junk t (2 * roundedHeaderSz + L)
      end) = Ret t' /\ gt_table t' = Some (layout es' ++ zeros n) /\ gt_tblSz t' = used es' + n /\ 32 + L <= n /\ missed U m key L es' (gt_calls t') /\
    gt_tblSz t' <= 3 * budget U + 2112 /\ 0 <= gt_calls t' <= 4 * REFRESH_RATE.
Proof using Hbudget Hjunk HU.
  intros Hm Hin HL Hh (He & Hni & Hk & Hl) Hs Hc. pose proof (length_budget U HU key L Hin) as HLb. pose proof (used_budget U HU m es He) as Hub. unfold roundedHeaderSz.
  pose proof (layout_len m es (es_ok _ _ _ He)) as Hll. pose proof (used_nonneg m es (es_ok _ _ _ He)) as Hu0.
  assert (Href : gt_tblSz t < budget U + 32 + L -> exists t' es' n, refresh_table junk t (2 * 16 + L) = Ret t' /\ gt_table t' = Some (layout es' ++ zeros n) /\ gt_tblSz t' = used es' + n /\ 32 + L <= n /\
    missed U m key L es' (gt_calls t') /\ gt_tblSz t' <= 3 * budget U + 2112 /\ 0 <= gt_calls t' <= 4 * REFRESH_RATE).
  { intros Hsmall. set (G := grown (gt_tblSz t) (2 * 16 + L)). assert (HG : gt_tblSz t + 32 + L <= G <= 3 * budget U + 2112 /\ 0 <= gt_tblSz t).
    { unfold G, grown. cbv zeta. rewrite (proj2 (Z.eqb_neq (2 * 16 + L) 0)) by lia. change PAGE_WORDS with 1024.
      assert (0 <= gt_tblSz t) by (unfold holds_entries in Hh; destruct (gt_table t); [destruct Hh as (? & _ & _ & ->); apply zlen_nonneg|destruct Hh; lia]). destruct (Z.eqb_spec (gt_tblSz t) 0); lia. }
    destruct (refresh_ok junk Hjunk m t es (2 * 16 + L) Hm Hh (es_ok _ _ _ He) ltac:(lia)) as (cs & n & -> & Hp & Hn & Hn16); [fold G; lia|]. fold G in Hn |- *.
    destruct (entries_live U m es cs He Hp) as [He' Hpos]. assert (Hfit : used cs + 16 <= gt_tblSz t \/ cs = []).
    { rewrite (sumZ_perm _ _ _ Hp). pose proof (live_used m es (es_ok _ _ _ He)). unfold holds_entries in Hh. destruct (gt_table t).
      - left. destruct Hh as (n0 & Hn0 & -> & ->). rewrite zlen_app, zlen_replicate_Z, Hll by lia. lia.
      - right. destruct Hh as [_ ->]. by apply Permutation_nil_r in Hp. }
    eexists _, cs, n. split_and!; [done|done|cbn [gt_tblSz]; lia|destruct Hfit as [Hfit|Hnil]; [lia|subst cs; cbn [sumZ] in *; lia]| |cbn [gt_tblSz]; lia|cbn; unfold REFRESH_RATE; lia..].
    split_and!; [done| |rewrite live_all by done; by rewrite Hp|done]. intros (e & Ee & He0)%list_elem_of_fmap. rewrite Hp in He0. apply list_elem_of_filter in He0 as [_ He0]. apply Hni, list_elem_of_fmap. by exists e. }
  unfold holds_entries in Hh. destruct (gt_table t) as [w|] eqn:Ht.
  - destruct Hh as (n & Hn & -> & Hz). rewrite zlen_app, zlen_replicate_Z, Hll in Hz by lia. destruct (Z.ltb_spec (gt_tblSz t - (2 * 16 + L)) (used es)); [apply Href; lia|].
    exists t, es, n. split_and!; try done; lia.
  - destruct Hh as [Hz ->]. apply Href. rewrite Hz. pose proof budget_nonneg. lia.
Qed.

(** the sequence in the table *)
Lemma entry_read m a e b n L : Forall (entry_ok m) (a ++ e :: b) -> 0 <= L <= ce_len e ->
  mem_read (layout (a ++ e :: b) ++ zeros n) (used a + roundedHeaderSz) L = Ret (gold_seq (ce_key e) (Z.to_nat L)).
Proof using.
  intros H HL. pose proof H as [Ha Hb]%Forall_app. inversion_clear Hb as [|? ? He Hb']. destruct He as [_ _ Hpad]. rewrite layout_at.
  set (s := gold_seq (ce_key e) (Z.to_nat (ce_len e))). assert (Hs : s = take (Z.to_nat L) s ++ drop (Z.to_nat L) s) by by rewrite take_drop.
  set (z := layout b ++ zeros n). set (hd := layout a ++ ce_key e :: ce_len e :: ce_usage e :: ce_pad e).
  assert (E : layout a ++ entry_words e ++ z = hd ++ take (Z.to_nat L) s ++ (drop (Z.to_nat L) s ++ z)).
  { unfold entry_words, hd. fold s. rewrite (app_assoc (take _ s)), <- Hs. rewrite <- !app_assoc. cbn [app]. by rewrite <- !app_assoc. }
  assert (Ht : take (Z.to_nat L) s = gold_seq (ce_key e) (Z.to_nat L)) by (apply gold_seq_take; lia). rewrite E, Ht. apply mem_read_mid.
  - unfold hd. rewrite zlen_app, !zlen_cons, (layout_len m) by done. unfold zlen at 1. rewrite Hpad. unfold roundedHeaderSz. lia.
  - unfold zlen. rewrite gold_seq_length. lia.
Qed.

(** a new entry with the key *)
Lemma entries_added m key L es calls : (key, L) ∈ U -> 0 < L < 2 ^ 31 -> 0 <= m -> missed U m key L es calls -> entries_ok U (m + 1) (es ++ [mk_centry key L 1 (replicate 13 0)]).
Proof using.
  intros Hin HL Hm (He & Hni & Hk & _). set (e := mk_centry _ _ _ _). destruct (entries_mono U m (m + 1) es He ltac:(lia)) as [H1 H2 H3 H4]. split.
  - apply Forall_app. split; [done|]. constructor; [|constructor]. split; cbn; lia || done.
  - rewrite map_app. apply NoDup_app. split_and!; [done| |apply NoDup_singleton]. intros x Hx Hx'. apply list_elem_of_singleton in Hx'. subst x. by apply Hni.
  - apply Forall_app. split; [done|by constructor; [|constructor]].
  - rewrite filter_app, map_app. rewrite filter_cons_True by (cbn; lia). apply NoDup_app. split_and!; [done| |apply NoDup_singleton].
    intros x (y & -> & Hy)%list_elem_of_fmap Hx'. apply list_elem_of_singleton in Hx'. by apply (proj1 (Forall_forall _ _) Hk y Hy).
Qed.

(** a call *)
Lemma gold_cache_ok m t es key len : 0 <= m -> m + 1 < 2 ^ 31 -> cache_ok U m t es -> 0 < len -> (key, roundup len) ∈ U ->
  exists p t' es' w, gold_cache junk t key len = Ret (p, t') /\ cache_ok U (m + 1) t' es' /\ gt_table t' = Some w /\
    mem_read w p (roundup len) = Ret (gold_seq key (Z.to_nat (roundup len))).
Proof using Hbudget Hjunk HU.
  intros Hm0 Hm Hok Hlen Hin. pose proof (roundup_range len Hlen) as HL. set (L := roundup len) in *. pose proof (length_budget U HU key L Hin) as HLb.
  destruct (periodic m t es ltac:(lia) Hok) as (t1 & es1 & E1 & Hh1 & He1 & Hpos1 & Hc1 & Hs1). unfold gold_cache. fold (roundup len). fold L. cbv zeta in E1. cbv zeta. rewrite E1, bind_Ret_l.
  assert (Hmiss : forall t2 es2, holds_entries t2 es2 -> missed U m key L es2 (gt_calls t2) -> gt_tblSz t2 <= 3 * budget U + 2112 -> 0 <= gt_calls t2 <= 4 * REFRESH_RATE ->
    exists p t' es' w, (t ← match gt_table t2 with
        | Some _ => if gt_tblSz t2 - (2 * roundedHeaderSz + L) <? used es2 then refresh_table junk t2 (2 * roundedHeaderSz + L) else Ret t2
        | None => refresh_table junk t2 (2 * roundedHeaderSz + L)
        end; add_entry t key L) = Ret (p, t') /\ cache_ok U (m + 1) t' es' /\ gt_table t' = Some w /\ mem_read w p L = Ret (gold_seq key (Z.to_nat L))).
  { intros t2 es2 Hh2 Hmi Hs2 Hc2. destruct (make_room m t2 es2 key L ltac:(lia) Hin ltac:(lia) Hh2 Hmi Hs2 Hc2) as (t3 & es3 & n & -> & T3 & S3 & Hn & Hmi3 & Hs3 & Hc3). rewrite bind_Ret_l.
    destruct t3 as [tb sz c3]. cbn [gt_table gt_tblSz gt_calls] in *. subst tb. pose proof Hmi3 as (He3 & _ & _ & Hl3). pose proof (es_ok _ _ _ He3) as Hok3.
    rewrite (add_entry_ok m es3 n sz c3 key L) by (done || lia). pose proof (entries_added m key L es3 c3 Hin ltac:(lia) Hm0 Hmi3) as He4. set (es4 := es3 ++ [_]) in *.
    eexists _, _, es4, _. split_and!; [reflexivity| |reflexivity|].
    - split; cbn [gt_calls gt_tblSz]; [|done| |done|done].
      + exists (n - (16 + L)). split_and!; [lia|done|]. cbn [gt_tblSz]. rewrite zlen_app, zlen_replicate_Z, (layout_len (m + 1)) by (apply He4 || lia). unfold es4. rewrite sumZ_app. cbn [sumZ].
        change (entry_size _) with (roundedHeaderSz + L). unfold roundedHeaderSz. lia.
      + intros Hc. apply Forall_app. split; [by apply Hl3|]. constructor; [cbn; lia|constructor].
    - apply (entry_read (m + 1) es3 (mk_centry key L 1 (replicate 13 0)) []); [apply He4|cbn; lia]. }
  pose proof Hh1 as Hh1'. unfold holds_entries in Hh1. destruct t1 as [tb sz c1]. cbn [gt_table gt_tblSz gt_calls] in *. destruct tb as [w1|].
  - destruct Hh1 as (n & Hn & -> & Hz). cbn [from_option id]. rewrite Hz. pose proof (layout_len m es1 (es_ok _ _ _ He1)) as Hll.
    destruct (search_cases U m n key L es1 c1 ltac:(lia) Hn ltac:(lia) He1 Hpos1 ltac:(lia)) as (hit & es2 & ptr & c2 & -> & Hu2 & Hc2 & Hres). rewrite bind_Ret_l.
    assert (Hh2 : forall m', entries_ok U m' es2 -> holds_entries (mk_gold (Some (layout es2 ++ zeros n)) (zlen (layout es1 ++ zeros n)) c2) es2).
    { intros m' He2. exists n. split_and!; [done|done|]. cbn [gt_tblSz]. by rewrite !zlen_app, Hll, (layout_len m'), Hu2 by apply He2. }
    unfold REFRESH_RATE in *. destruct hit as [p|].
    + destruct Hres as (-> & He2 & Hp2 & a & e & b & -> & Hke & HLe & ->). eexists _, _, (a ++ e :: b), _. split_and!; [reflexivity| |reflexivity|].
      * split; cbn [gt_calls gt_tblSz]; [by apply (Hh2 (m + 1))|done|done|unfold REFRESH_RATE; lia|lia].
      * rewrite <- Hke. apply (entry_read (m + 1)); [apply He2|lia].
    + destruct Hres as [-> Hmi]. apply (Hmiss (mk_gold (Some (layout es2 ++ zeros n)) (zlen (layout es1 ++ zeros n)) c2) es2); cbn [gt_calls gt_tblSz]; [apply (Hh2 m), Hmi|done|lia|unfold REFRESH_RATE; lia].
  - destruct Hh1 as [-> ->]. cbn [from_option id Z.to_nat search_cache Z.ltb Z.compare]. rewrite bind_Ret_l. apply (Hmiss (mk_gold None 0 c1) []); cbn [gt_calls gt_tblSz]; [done| |lia|unfold REFRESH_RATE in *; lia].
    split_and!; [done|by apply not_elem_of_nil|constructor|done].
Qed.
End calls.

(** ** Sequences of calls *)

(** the words that a caller reads, up to its next call *)
Definition read_words (t : gold_cache_table_t) (p len : Z) : outcome (list Z) :=
  match gt_table t with Some w => mem_read w p len | None => Undef end.

Fixpoint run_calls (junk : Z -> list Z) (t : gold_cache_table_t) (ks : list (Z * Z)) : outcome (list (list Z) * gold_cache_table_t) :=
  match ks with
  | [] => Ret ([], t)
  | (key, len) :: ks => '(p, t) ← gold_cache junk t key len; x ← read_words t p len; '(xs, t) ← run_calls junk t ks; Ret (x :: xs, t)
  end.

Definition requests (ks : list (Z * Z)) : list (Z * Z) := remove_dups (map (fun k => (k.1, roundup k.2)) ks).

(** words that hold the bits [X] *)
Definition holds_bits (X : nat -> bool) (len : Z) (ws : list Z) : Prop :=
  zlen ws = len /\ forall i, (i < 32 * Z.to_nat len)%nat -> Z.testbit (ws !!! (i / 32)%nat) (Z.of_nat (i mod 32)) = X i.

(** words that are the reference sequence *)
Abbreviation is_gold cinit := (holds_bits (gold_bit cinit)).

(** what a call promises: the sequence of the key, which is the one of the standard
    exactly when the key is an initial value of 31 bits *)
Definition answers (key len : Z) (ws : list Z) : Prop :=
  holds_bits (key_bit key) len ws /\ (is_gold (key mod 2 ^ 31) len ws <-> key < 2 ^ 31).

Lemma stray_shows : exists n, (n < 32)%nat /\ stray_bit n = true.
Proof. exists 8%nat. split; [lia|]. vm_compute. reflexivity. Qed.

Lemma gold_seq_answers key len : 0 <= key < 2 ^ 32 -> 0 < len -> answers key len (gold_seq key (Z.to_nat len)).
Proof.
  intros Hk Hl. assert (Hz : zlen (gold_seq key (Z.to_nat len)) = len) by (unfold zlen; rewrite gold_seq_length; lia).
  split; [split; [done|]; intros i Hi; by apply gold_seq_key_bits|]. split.
  - intros [_ H]. destruct (Z.lt_ge_cases key (2 ^ 31)) as [|Hge]; [done|]. exfalso. destruct stray_shows as (n & Hn & Hs). specialize (H n ltac:(lia)).
    rewrite gold_seq_key_bits in H by (done || lia). unfold key_bit in H. rewrite (proj2 (Z.leb_le _ _)), Hs in H by lia. by destruct (gold_bit _ n).
  - intros Hlt. rewrite Z.mod_small by lia. split; [done|]. intros i Hi. apply gold_seq_bits; [lia|done].
Qed.

Lemma cache_returns junk U m t es key len : (forall n, 0 <= n -> zlen (junk n) = n) -> Forall (fun p => 0 < p.2) U -> budget U < 2 ^ 29 -> 0 <= m -> m + 1 < 2 ^ 31 ->
  cache_ok U m t es -> 0 < len -> (key, roundup len) ∈ U ->
  exists p t' es', gold_cache junk t key len = Ret (p, t') /\ cache_ok U (m + 1) t' es' /\ read_words t' p len = Ret (gold_seq key (Z.to_nat len)).
Proof.
  intros Hj HU Hb Hm0 Hm Hok Hlen Hin. destruct (gold_cache_ok junk Hj U HU Hb m t es key len Hm0 Hm Hok Hlen Hin) as (p & t' & es' & w & E & Hok' & Ht & Hrd).
  exists p, t', es'. split_and!; [done|done|]. unfold read_words. rewrite Ht. apply mem_read_inv in Hrd as (H1 & H2 & H3 & H4 & _). pose proof (roundup_range len Hlen).
  rewrite mem_read_ok by lia. f_equal. rewrite <- (gold_seq_take key (Z.to_nat len) (Z.to_nat (roundup len))) by lia. rewrite H4, take_take. f_equal. lia.
Qed.

Lemma run_calls_ok junk U ks : (forall n, 0 <= n -> zlen (junk n) = n) -> Forall (fun p => 0 < p.2) U -> budget U < 2 ^ 29 ->
  forall m t es, 0 <= m -> m + zlen ks < 2 ^ 31 -> cache_ok U m t es -> Forall (fun k => 0 < k.2 /\ (k.1, roundup k.2) ∈ U) ks ->
  exists t', run_calls junk t ks = Ret (map (fun k => gold_seq k.1 (Z.to_nat k.2)) ks, t').
Proof.
  intros Hj HU Hb. induction ks as [|[key len] ks IH]; intros m t es Hm0 Hm Hok Hks; [by exists t|]. inversion_clear Hks as [|? ? [Hl Hin] Hks']. rewrite zlen_cons in Hm. pose proof (zlen_nonneg ks).
  cbn [fst snd] in *. destruct (cache_returns junk U m t es key len Hj HU Hb Hm0 ltac:(lia) Hok Hl Hin) as (p & t1 & es1 & E1 & Hok1 & R1).
  destruct (IH (m + 1) t1 es1 ltac:(lia) ltac:(lia) Hok1 Hks') as (t' & E2). exists t'. cbn [run_calls map fst snd]. by rewrite E1, bind_Ret_l, R1, bind_Ret_l, E2, bind_Ret_l.
Qed.

Lemma empty_cache_ok U : Forall (fun p => 0 < p.2) U -> cache_ok U 0 (mk_gold None 0 0) [].
Proof.
  intros HU. pose proof (budget_nonneg U HU). split; cbn; [done| |constructor|unfold REFRESH_RATE; lia|lia]. split; [constructor|constructor|constructor|constructor].
Qed.

Lemma requests_ok ks : Forall (fun k => 0 <= k.1 < 2 ^ 32 /\ 0 < k.2) ks ->
  Forall (fun p => 0 < p.2) (requests ks) /\ Forall (fun k => 0 < k.2 /\ (k.1, roundup k.2) ∈ requests ks) ks.
Proof.
  intros H. split; apply Forall_forall.
  - intros p Hp. unfold requests in Hp. rewrite elem_of_remove_dups in Hp. apply list_elem_of_fmap in Hp as (k & -> & Hk). apply (proj1 (Forall_forall _ _) H) in Hk as [_ Hk].
    pose proof (roundup_range _ Hk). cbn [snd]. lia.
  - intros k Hk. split; [by apply (proj1 (Forall_forall _ _) H)|]. unfold requests. rewrite elem_of_remove_dups. apply list_elem_of_fmap. by exists k.
Qed.

(** C16: the cache of Gold sequences answers as the generator does. For every sequence of
    32-bit keys and positive lengths that a thread asks for, as long as the distinct ones
    take less than 2 GiB and there are fewer than 2^31 calls, every call returns, reads
    and writes stay within the table, and the words at the pointer it returns are, up to
    the next call, the sequence of the key, bit by bit, through hits, sequences that
    replace a shorter one of the same key, growth, and the periodic reordering of the
    table. For a key below 2^31 that is the sequence of 38.211,
    [c(n) = x1(n + 1600) + x2(n + 1600)] with the two shift registers of the standard; for
    a key of 2^31 or more (the PDCCH of an RNTI of 0x8000 or more, positioning signals)
    it is that sequence with [stray_bit] added, and never the one of 38.211. *)
Theorem gold_cache_transparent junk ks : (forall n, 0 <= n -> zlen (junk n) = n) -> Forall (fun k => 0 <= k.1 < 2 ^ 32 /\ 0 < k.2) ks ->
  budget (requests ks) < 2 ^ 29 -> zlen ks < 2 ^ 31 ->
  exists ws t, run_calls junk (mk_gold None 0 0) ks = Ret (ws, t) /\ Forall2 (fun k w => answers k.1 k.2 w) ks ws.
Proof.
  intros Hj Hks Hb Hn. destruct (requests_ok ks Hks) as [HU Hin].
  destruct (run_calls_ok junk (requests ks) ks Hj HU Hb 0 _ [] ltac:(lia) ltac:(lia) (empty_cache_ok _ HU) Hin) as (t & E). eexists _, t. split; [exact E|].
  apply Forall2_fmap_r, Forall_Forall2_diag. eapply Forall_impl; [exact Hks|]. intros k [H1 H2]. by apply gold_seq_answers.
Qed.

Lemma gold_cache_transparent_witness : let ks := [(5, 20); (0, 3); (5, 40); (77, 2000); (5, 1); (2 ^ 31 + 7, 4)] in
  exists ws t, run_calls (fun n => replicate (Z.to_nat n) 7) (mk_gold None 0 0) ks = Ret (ws, t) /\ Forall2 (fun k w => answers k.1 k.2 w) ks ws.
Proof.
  intros ks. apply gold_cache_transparent.
  - intros n Hn. by apply zlen_replicate_Z.
  - repeat constructor; cbn; lia.
  - by vm_compute.
  - by vm_compute.
Defined.
