(* ===== verification/Scrambling.v ===== *)
(** Scrambling of the shared channels: src/openair1/PHY/NR_TRANSPORT/nr_scrambling.c and
    the table of src/openair1/PHY/NR_REFSIG/scrambling_luts.c, with the branch that the
    x86 and ARM builds take. The vector instructions are given on lists of their lanes. *)

From stdpp Require Import base tactics list numbers.
From Stdlib Require Import ZArith Lia.
From S2P Require Import Prelude Arrays Crc CrcSpec RateMatch RateMatchPath LdpcSegment Gold.

(** ** The instructions *)

(** [simde_mm256_slli_epi16] on bytes: lanes of two, the low one first *)
Fixpoint mm256_slli_epi16 (c : list Z) (k : Z) : list Z :=
  match c with
  | lo :: hi :: c => let v := u16 (Z.shiftl (lo + 256 * hi) k) in v mod 256 :: v / 256 :: mm256_slli_epi16 c k
  | c => c
  end.

(** [simde_mm256_movemask_epi8]: the high bits of the bytes *)
Fixpoint mm256_movemask_epi8 (c : list Z) : Z :=
  match c with
  | [] => 0
  | b :: c => Z.lor (Z.shiftr b 7) (Z.shiftl (mm256_movemask_epi8 c) 1)
  end.

(** [simde_mm_mullo_epi16]: the low halves of the products, signed *)
Definition mm_mullo_epi16 (a b : list Z) : list Z := zip_with (fun x y => s16 (x * y)) a b.

(** ** The functions *)

(** [byte2m128i[s]] as [init_byte2m128i] fills it *)
Definition byte2m128i (s : Z) : list Z := map (fun k => 1 - 2 * Z.land (Z.shiftr s k) 1) (seqZ 0 8).

(** byte [b] of a word in memory *)
Definition s8 (seq b : Z) : Z := Z.land (Z.shiftr seq (8 * b)) 255.

Definition roundedSz (size : Z) : Z := Z.quot (u32 (size + 31)) 32.
Definition scrambling_key (q Nid n_RNTI : Z) : Z := u32 (u32 (Z.shiftl n_RNTI 15) + Z.shiftl q 14 + Nid).

(** the loop over the words from [i] on, with the sequence at [p] of the table *)
Fixpoint scramble_words (rounds : nat) (i : Z) (t : gold_cache_table_t) (p : Z) (input out : list Z) : outcome (list Z) :=
  match rounds with
  | O => Ret out
  | S rounds =>
      c ← mem_read input (32 * i) 32;
      let in32 := mm256_movemask_epi8 (mm256_slli_epi16 c 7) in
      seq ← read_words t (p + i) 1;
      out ← wr out i (Z.lxor in32 (seq !!! 0%nat));
      scramble_words rounds (i + 1) t p input out
  end.

(** four vectors of eight soft values are multiplied by the signs of a word *)
Fixpoint unscramble_word (bs : list Z) (j : Z) (seq : Z) (llr : list Z) : outcome (list Z) :=
  match bs with
  | [] => Ret llr
  | b :: bs =>
      v ← mem_read llr (8 * (j + b)) 8;
      llr ← mem_write llr (8 * (j + b)) (mm_mullo_epi16 v (byte2m128i (s8 seq b)));
      unscramble_word bs j seq llr
  end.

Fixpoint unscramble_words (rounds : nat) (i : Z) (t : gold_cache_table_t) (p : Z) (llr : list Z) : outcome (list Z) :=
  match rounds with
  | O => Ret llr
  | S rounds =>
      seq ← read_words t (p + i) 1;
      llr ← unscramble_word [0; 1; 2; 3] (4 * i) (seq !!! 0%nat) llr;
      unscramble_words rounds (i + 1) t p llr
  end.

(** the signs alone, eight for each byte *)
Fixpoint sign_words (rounds : nat) (i : Z) (t : gold_cache_table_t) (p : Z) (s2 : list Z) : outcome (list Z) :=
  match rounds with
  | O => Ret s2
  | S rounds =>
      seq ← read_words t (p + i) 1;
      s2 ← mem_write s2 (32 * i) (mjoin (map (fun b => byte2m128i (s8 (seq !!! 0%nat) b)) [0; 1; 2; 3]));
      sign_words rounds (i + 1) t p s2
  end.

Section scrambling.
Context (junk : Z -> list Z).

Definition nr_codeword_scrambling (t : gold_cache_table_t) (input : list Z) (size q Nid n_RNTI : Z) (out : list Z) : outcome (list Z * gold_cache_table_t) :=
  '(p, t) ← gold_cache junk t (scrambling_key q Nid n_RNTI) (roundedSz size);
  out ← scramble_words (Z.to_nat (roundedSz size)) 0 t p input out;
  Ret (out, t).

Definition nr_codeword_unscrambling (t : gold_cache_table_t) (llr : list Z) (size q Nid n_RNTI : Z) : outcome (list Z * gold_cache_table_t) :=
  '(p, t) ← gold_cache junk t (scrambling_key q Nid n_RNTI) (roundedSz size);
  llr ← unscramble_words (Z.to_nat (roundedSz size)) 0 t p llr;
  Ret (llr, t).

Definition nr_codeword_unscrambling_init (t : gold_cache_table_t) (s2 : list Z) (size q Nid n_RNTI : Z) : outcome (list Z * gold_cache_table_t) :=
  '(p, t) ← gold_cache junk t (scrambling_key q Nid n_RNTI) (roundedSz size);
  s2 ← sign_words (Z.to_nat (roundedSz size)) 0 t p s2;
  Ret (s2, t).
End scrambling.

(** ** The bits *)

Lemma slli_mask_pair lo hi : byte_ok lo -> byte_ok hi -> let v := u16 (Z.shiftl (lo + 256 * hi) 7) in
  Z.shiftr (v mod 256) 7 = lo mod 2 /\ Z.shiftr (v / 256) 7 = hi mod 2.
Proof.
  intros Hlo Hhi v. unfold byte_ok in *. rewrite !Z.shiftr_div_pow2 by lia. unfold v, u16. rewrite Z.shiftl_mul_pow2 by lia. change (2 ^ 7) with 128. change (2 ^ 16) with 65536.
  pose proof (Z.div_mod hi 2 ltac:(lia)) as H2. pose proof (Z.mod_pos_bound hi 2 ltac:(lia)). pose proof (Z.div_mod lo 2 ltac:(lia)) as H3. pose proof (Z.mod_pos_bound lo 2 ltac:(lia)).
  assert (E : ((lo + 256 * hi) * 128) mod 65536 = lo * 128 + (hi mod 2) * 32768) by (symmetry; apply Z.mod_unique with (hi / 2); lia). rewrite E. split.
  - assert ((lo * 128 + hi mod 2 * 32768) mod 256 = lo mod 2 * 128) as -> by (symmetry; apply Z.mod_unique with (lo / 2 + hi mod 2 * 128); lia). apply Z.div_mul. lia.
  - assert ((lo * 128 + hi mod 2 * 32768) / 256 = lo / 2 + hi mod 2 * 128) as -> by (symmetry; apply Z.div_unique with (lo mod 2 * 128); lia).
    symmetry. apply Z.div_unique with (lo / 2); lia.
Qed.

(** the mask has the low bit of each byte *)
Lemma mask_bits n : forall c, length c = (2 * n)%nat -> Forall byte_ok c -> forall i, (i < 2 * n)%nat ->
  Z.testbit (mm256_movemask_epi8 (mm256_slli_epi16 c 7)) (Z.of_nat i) = Z.odd (c !!! i).
Proof.
  induction n as [|n IH]; intros c Hl Hb i Hi; [lia|]. destruct c as [|lo [|hi c]]; cbn [length] in Hl; try lia. inversion_clear Hb as [|? ? Hlo Hb']. inversion_clear Hb' as [|? ? Hhi Hc].
  cbn [mm256_slli_epi16 mm256_movemask_epi8]. destruct (slli_mask_pair lo hi Hlo Hhi) as [-> ->]. rewrite (Zmod_odd lo), (Zmod_odd hi).
  assert (Hb : forall (x : bool) k, Z.testbit (if x then 1 else 0) (Z.succ k) = false \/ k < 0) by (intros [] k; [destruct (Z.le_gt_cases 0 k); [left; apply Z.bits_above_log2; cbn; lia|by right]|left; apply Z.bits_0]).
  destruct i as [|[|i]].
  - rewrite Z.lor_spec, Z.shiftl_spec_low, orb_false_r by lia. cbn [lookup_total list_lookup_total Z.of_nat]. by destruct (Z.odd lo).
  - change (Z.of_nat 1) with (Z.succ 0). rewrite Z.lor_spec. destruct (Hb (Z.odd lo) 0) as [->|]; [|lia]. rewrite orb_false_l, Z.shiftl_spec, Z.lor_spec by lia. change (Z.succ 0 - 1) with 0.
    rewrite Z.shiftl_spec_low, orb_false_r by lia. cbn [lookup_total list_lookup_total]. by destruct (Z.odd hi).
  - replace (Z.of_nat (S (S i))) with (Z.succ (Z.succ (Z.of_nat i))) by lia. rewrite Z.lor_spec. destruct (Hb (Z.odd lo) (Z.succ (Z.of_nat i))) as [->|]; [|lia].
    rewrite orb_false_l, Z.shiftl_spec by lia. replace (Z.succ (Z.succ (Z.of_nat i)) - 1) with (Z.succ (Z.of_nat i)) by lia. rewrite Z.lor_spec. destruct (Hb (Z.odd hi) (Z.of_nat i)) as [->|]; [|lia].
    rewrite orb_false_l, Z.shiftl_spec by lia. replace (Z.succ (Z.of_nat i) - 1) with (Z.of_nat i) by lia. cbn [lookup_total list_lookup_total]. apply IH; [lia|done|lia].
Qed.

Lemma sign_bit seq b k : 0 <= b < 4 -> 0 <= k < 8 -> at_pos (byte2m128i (s8 seq b)) k = if Z.testbit seq (8 * b + k) then -1 else 1.
Proof.
  intros Hb Hk. unfold byte2m128i. rewrite at_pos_map by (unfold zlen; rewrite length_seqZ; lia).
  assert (at_pos (seqZ 0 8) k = k) as -> by (unfold at_pos; apply list_lookup_total_correct; rewrite lookup_seqZ_lt by lia; f_equal; lia).
  rewrite (Z.land_ones _ 1) by lia. change (2 ^ 1) with 2. rewrite Zmod_odd, <- Z.bit0_odd, Z.shiftr_spec by lia. unfold s8. rewrite Z.add_0_l, (Z.land_ones _ 8), Z.mod_pow2_bits_low, Z.shiftr_spec by lia.
  rewrite (Z.add_comm k). by destruct (Z.testbit _ _).
Qed.

(** ** The loops *)

(** a word of the sequence *)
Lemma read_word t p len ws i : read_words t p len = Ret ws -> 0 <= i < len -> read_words t (p + i) 1 = Ret [at_pos ws i].
Proof.
  unfold read_words. destruct (gt_table t) as [w|]; [|done]. intros (H1 & H2 & H3 & -> & H5)%mem_read_inv Hi. rewrite mem_read_ok by lia. f_equal.
  apply list_eq_at; [rewrite zlen_take, zlen_drop; change (zlen [_]) with 1; lia|]. intros j Hj. rewrite zlen_take, zlen_drop in Hj. assert (j = 0) as -> by lia.
  rewrite at_pos_take, at_pos_drop by lia. change (at_pos [?x] 0) with x. cbn. rewrite at_pos_take, at_pos_drop by lia. f_equal. lia.
Qed.

Section loops.
Context (t : gold_cache_table_t) (p len : Z) (ws : list Z) (Hws : read_words t p len = Ret ws).

Lemma scramble_ok input rounds : Forall byte_ok input -> forall i out, 0 <= i -> i + Z.of_nat rounds <= len -> 32 * (i + Z.of_nat rounds) <= zlen input -> i + Z.of_nat rounds <= zlen out ->
  exists out', scramble_words rounds i t p input out = Ret out' /\ zlen out' = zlen out /\ (forall j, 0 <= j < i -> at_pos out' j = at_pos out j) /\
    forall j k, i <= j < i + Z.of_nat rounds -> 0 <= k < 32 -> Z.testbit (at_pos out' j) k = xorb (Z.odd (at_pos input (32 * j + k))) (Z.testbit (at_pos ws j) k).
Proof using Hws.
  intros Hb. induction rounds as [|rounds IH]; intros i out Hi Hlen Hzi Hzo; cbn [scramble_words]. { exists out. split_and!; [done..|]. intros j k Hj. lia. }
  destruct (mem_read_at input (32 * i) 32 ltac:(lia) ltac:(lia) ltac:(lia)) as (c & Ec & Hzc & Hc). rewrite Ec, bind_Ret_l, (read_word t p len ws i Hws), bind_Ret_l by lia.
  cbn [lookup_total list_lookup_total]. set (v := Z.lxor _ _). rewrite wr_at, bind_Ret_l by lia.
  destruct (IH (i + 1) (<[Z.to_nat i := v]> out)) as (out' & E1 & E2 & E3 & E4); [lia|lia|lia|unfold zlen in *; rewrite length_insert; lia|].
  exists out'. split_and!; [done|rewrite E2; unfold zlen; by rewrite length_insert| |].
  - intros j Hj. rewrite E3 by lia. by apply at_pos_insert_ne; lia.
  - intros j k Hj Hk. destruct (Z.eq_dec j i) as [->|Hne]; [|apply E4; lia]. rewrite E3, at_pos_insert_eq by lia. unfold v. rewrite Z.lxor_spec. f_equal.
    assert (Hbc : Forall byte_ok c) by (apply mem_read_inv in Ec as (_ & _ & _ & -> & _); by apply Forall_take, Forall_drop).
    rewrite <- (Z2Nat.id k), (mask_bits 16 c) by (done || (unfold zlen in Hzc; lia)). rewrite <- Hc by lia. by rewrite Z2Nat.id by lia.
Qed.

Lemma unscramble_word_ok seq bs : forall llr j, 0 <= j -> Forall (fun b => 0 <= b < 4) bs -> NoDup bs -> 8 * (j + 4) <= zlen llr ->
  exists llr', unscramble_word bs j seq llr = Ret llr' /\ zlen llr' = zlen llr /\
    forall b k, 0 <= b -> 0 <= k < 8 -> at_pos llr' (8 * b + k) = if bool_decide (b - j ∈ bs) then s16 (at_pos llr (8 * b + k) * if Z.testbit seq (8 * (b - j) + k) then -1 else 1)
                                                               else at_pos llr (8 * b + k).
Proof using.
  induction bs as [|b0 bs IH]; intros llr j Hj Hbs Hnd Hz; cbn [unscramble_word]. { exists llr. split_and!; [done..|]. intros b k _ _. by rewrite bool_decide_eq_false_2 by apply not_elem_of_nil. }
  inversion_clear Hbs as [|? ? Hb0 Hbs']. inversion_clear Hnd as [|? ? Hni Hnd'].
  destruct (mem_read_at llr (8 * (j + b0)) 8 ltac:(lia) ltac:(lia) ltac:(lia)) as (v & Ev & Hzv & Hv). rewrite Ev, bind_Ret_l. set (x := mm_mullo_epi16 _ _).
  assert (Hzx : zlen x = 8) by (unfold x, mm_mullo_epi16, zlen in *; rewrite length_zip_with; change (length (byte2m128i _)) with 8%nat; lia).
  destruct (mem_write_at llr (8 * (j + b0)) x ltac:(lia) ltac:(lia)) as (llr1 & Ew & Hz1 & H1). rewrite Ew, bind_Ret_l.
  destruct (IH llr1 j Hj Hbs' Hnd' ltac:(lia)) as (llr' & E & Hz' & H'). exists llr'. split_and!; [done|lia|]. intros b k Hb Hk. rewrite H', !H1, Hzx by lia.
  destruct (Z.eq_dec (b - j) b0) as [He|Hne].
  - rewrite He, (bool_decide_eq_false_2 _ Hni), bool_decide_eq_true_2 by by left. replace b with (j + b0) by lia. rewrite (proj2 (Z.leb_le _ _)), (proj2 (Z.ltb_lt _ _)) by lia. cbn [andb].
    replace (8 * (j + b0) + k - 8 * (j + b0)) with k by lia. rewrite <- Hv, <- (sign_bit seq b0 k) by lia. unfold x, mm_mullo_epi16, at_pos.
    destruct (lookup_lt_is_Some_2 v (Z.to_nat k)) as [y Hy]; [unfold zlen in Hzv; lia|]. destruct (lookup_lt_is_Some_2 (byte2m128i (s8 seq b0)) (Z.to_nat k)) as [z Hz0]; [change (length (byte2m128i _)) with 8%nat; lia|].
    rewrite (list_lookup_total_correct _ _ _ Hy), (list_lookup_total_correct _ _ _ Hz0). apply list_lookup_total_correct. by rewrite lookup_zip_with, Hy, Hz0.
  - assert (Hout : (8 * (j + b0) <=? 8 * b + k) && (8 * b + k <? 8 * (j + b0) + 8) = false) by (destruct (Z.leb_spec (8 * (j + b0)) (8 * b + k)), (Z.ltb_spec (8 * b + k) (8 * (j + b0) + 8)); done || lia).
    rewrite Hout. erewrite bool_decide_ext; [done|]. rewrite elem_of_cons. tauto.
Qed.

Lemma unscramble_ok rounds : forall i llr, 0 <= i -> i + Z.of_nat rounds <= len -> 32 * (i + Z.of_nat rounds) <= zlen llr ->
  exists llr', unscramble_words rounds i t p llr = Ret llr' /\ zlen llr' = zlen llr /\ (forall k, 0 <= k < 32 * i -> at_pos llr' k = at_pos llr k) /\
    forall j k, i <= j < i + Z.of_nat rounds -> 0 <= k < 32 -> at_pos llr' (32 * j + k) = s16 (at_pos llr (32 * j + k) * if Z.testbit (at_pos ws j) k then -1 else 1).
Proof using Hws.
  induction rounds as [|rounds IH]; intros i llr Hi Hlen Hz; cbn [unscramble_words]. { exists llr. split_and!; [done..|]. intros j k Hj. lia. }
  rewrite (read_word t p len ws i Hws), bind_Ret_l by lia. cbn [lookup_total list_lookup_total].
  destruct (unscramble_word_ok (at_pos ws i) [0; 1; 2; 3] llr (4 * i)) as (llr1 & E1 & Hz1 & H1); [lia|repeat constructor; lia|apply (bool_decide_unpack _); by vm_compute|lia|]. rewrite E1, bind_Ret_l.
  destruct (IH (i + 1) llr1 ltac:(lia) ltac:(lia) ltac:(lia)) as (llr' & E2 & Hz2 & H2 & H3). exists llr'.
  assert (Hw : forall k, 0 <= k -> at_pos llr1 k = if bool_decide (32 * i <= k < 32 * i + 32) then s16 (at_pos llr k * if Z.testbit (at_pos ws i) (k - 32 * i) then -1 else 1) else at_pos llr k).
  { intros k Hk. pose proof (Z.div_mod k 8 ltac:(lia)) as Hd. pose proof (Z.mod_pos_bound k 8 ltac:(lia)) as Hr. pose proof (Z.div_pos k 8 ltac:(lia) ltac:(lia)). rewrite Hd at 1. rewrite H1, <- Hd by lia.
    replace (8 * (k / 8 - 4 * i) + k mod 8) with (k - 32 * i) by lia. erewrite bool_decide_ext; [done|]. rewrite !elem_of_cons, elem_of_nil. lia. }
  split_and!; [done|lia| |].
  - intros k Hk. rewrite H2, Hw, bool_decide_eq_false_2 by lia. done.
  - intros j k Hj Hk. destruct (Z.eq_dec j i) as [->|Hne]; [|].
    + rewrite H2, Hw, bool_decide_eq_true_2 by lia. by replace (32 * i + k - 32 * i) with k by lia.
    + rewrite H3, Hw, bool_decide_eq_false_2 by lia. done.
Qed.
End loops.

(** ** A codeword *)

Lemma key_value q Nid n_RNTI : 0 <= q <= 1 -> 0 <= Nid < 2 ^ 14 -> 0 <= n_RNTI < 2 ^ 16 ->
  scrambling_key q Nid n_RNTI = n_RNTI * 2 ^ 15 + q * 2 ^ 14 + Nid /\ 0 <= scrambling_key q Nid n_RNTI < 2 ^ 31.
Proof. intros Hq HN HR. unfold scrambling_key. rewrite !Z.shiftl_mul_pow2, (u32_small (n_RNTI * 2 ^ 15)), u32_small by lia. lia. Qed.

Lemma rounded size : 0 < size < 2 ^ 31 -> size <= 32 * roundedSz size < size + 32.
Proof.
  intros H. unfold roundedSz. rewrite u32_small, Z.quot_div_nonneg by lia. pose proof (Z.div_mod (size + 31) 32 ltac:(lia)). pose proof (Z.mod_pos_bound (size + 31) 32 ltac:(lia)). lia.
Qed.

Lemma word_and_bit size i : 0 < size < 2 ^ 31 -> 0 <= i < size -> 0 <= i / 32 < roundedSz size /\ 0 <= i mod 32 < 32 /\ 32 * (i / 32) + i mod 32 = i.
Proof.
  intros Hs Hi. pose proof (rounded size Hs). pose proof (Z.div_mod i 32 ltac:(lia)). pose proof (Z.mod_pos_bound i 32 ltac:(lia)). pose proof (Z.div_pos i 32 ltac:(lia) ltac:(lia)). lia.
Qed.

(** a bit of the sequence *)
Lemma gold_at key n i : 0 <= key < 2 ^ 31 -> 0 <= i < 32 * n -> Z.testbit (at_pos (gold_seq key (Z.to_nat n)) (i / 32)) (i mod 32) = gold_bit key (Z.to_nat i).
Proof.
  intros Hk Hi. rewrite <- (gold_seq_bits key (Z.to_nat n)) by (done || lia). unfold at_pos. f_equal; [|by rewrite Nat2Z.inj_mod, Z2Nat.id by lia].
  f_equal. apply Nat2Z.inj. rewrite Nat2Z.inj_div, !Z2Nat.id; [done|lia|apply Z.div_pos; lia].
Qed.

(** what both sides know, and the states of their caches *)
Record codeword_ok (U : list (Z * Z)) (m : Z) (t : gold_cache_table_t) (size q Nid n_RNTI : Z) : Prop := {
  cw_U : Forall (fun p => 0 < p.2) U /\ budget U < 2 ^ 29;
  cw_cache : exists es, cache_ok U m t es;
  cw_calls : 0 <= m /\ m + 1 < 2 ^ 31;
  cw_size : 0 < size < 2 ^ 31;
  cw_key : 0 <= q <= 1 /\ 0 <= Nid < 2 ^ 14 /\ 0 <= n_RNTI < 2 ^ 16;
  cw_in : (scrambling_key q Nid n_RNTI, roundup (roundedSz size)) ∈ U }.

Lemma codeword_sequence junk U m t size q Nid n_RNTI : (forall n, 0 <= n -> zlen (junk n) = n) -> codeword_ok U m t size q Nid n_RNTI ->
  exists p t', gold_cache junk t (scrambling_key q Nid n_RNTI) (roundedSz size) = Ret (p, t') /\ (exists es, cache_ok U (m + 1) t' es) /\
    read_words t' p (roundedSz size) = Ret (gold_seq (scrambling_key q Nid n_RNTI) (Z.to_nat (roundedSz size))).
Proof.
  intros Hj [[HU Hb] [es Hc] [Hm0 Hm] Hs Hk Hin]. pose proof (rounded size Hs).
  assert (Hpos : 0 < roundedSz size) by lia. destruct (cache_returns junk U m t es _ _ Hj HU Hb Hm0 Hm Hc Hpos Hin) as (p & t' & es' & E & Hc' & R). exists p, t'. split_and!; [done|by exists es'|done].
Qed.

(** C17: unscrambling undoes scrambling. [nr_codeword_scrambling] packs the bits of a
    codeword, 32 bytes to a word, and adds the Gold sequence of 38.211 for the RNTI, the
    codeword and the cell. A receiver that gets a soft value for every bit sent, of the
    same size for both values of the bit and of opposite sign, and multiplies by the
    signs of the sequence ([nr_codeword_unscrambling], eight values at a time in 16
    bits), is left with the soft values of the bits of the codeword themselves: what
    [nr_ulsch_decoding] and [nr_dlsch_decoding] take. That holds for every state of the
    caches of both sides that calls lead to, and the caches stay in such a state. *)
Theorem scrambling_roundtrip junk U m m' t t' input out size q Nid n_RNTI llr : (forall n, 0 <= n -> zlen (junk n) = n) ->
  codeword_ok U m t size q Nid n_RNTI -> codeword_ok U m' t' size q Nid n_RNTI ->
  Forall byte_ok input -> (forall i, 0 <= i < size -> at_pos input i = 0 \/ at_pos input i = 1) -> 32 * roundedSz size <= zlen input -> roundedSz size <= zlen out ->
  llr 1 = - llr 0 -> - 2 ^ 15 < llr 0 < 2 ^ 15 ->
  exists out' t1, nr_codeword_scrambling junk t input size q Nid n_RNTI out = Ret (out', t1) /\ (exists es, cache_ok U (m + 1) t1 es) /\
    (forall i, 0 <= i < size -> Z.testbit (at_pos out' (i / 32)) (i mod 32) = xorb (Z.odd (at_pos input i)) (gold_bit (n_RNTI * 2 ^ 15 + q * 2 ^ 14 + Nid) (Z.to_nat i))) /\
    forall rx, 32 * roundedSz size <= zlen rx -> (forall i, 0 <= i < size -> at_pos rx i = llr (Z.b2z (Z.testbit (at_pos out' (i / 32)) (i mod 32)))) ->
      exists rx' t2, nr_codeword_unscrambling junk t' rx size q Nid n_RNTI = Ret (rx', t2) /\ (exists es, cache_ok U (m' + 1) t2 es) /\ received llr size input rx'.
Proof.
  intros Hj Hcw Hcw' Hb Hbit Hzi Hzo Hl1 Hl0. pose proof (cw_size _ _ _ _ _ _ _ Hcw) as Hs. pose proof (cw_key _ _ _ _ _ _ _ Hcw) as (Hq & HN & HR). pose proof (rounded size Hs) as Hr.
  destruct (key_value q Nid n_RNTI Hq HN HR) as [Ekey Hkey]. destruct (codeword_sequence junk U m t _ _ _ _ Hj Hcw) as (p & t1 & E1 & Hc1 & R1).
  set (key := scrambling_key q Nid n_RNTI) in *. set (ws := gold_seq key (Z.to_nat (roundedSz size))) in *. rewrite <- Ekey.
  destruct (scramble_ok t1 p (roundedSz size) ws R1 input (Z.to_nat (roundedSz size)) Hb 0 out ltac:(lia) ltac:(lia) ltac:(lia) ltac:(lia)) as (out' & S1 & S2 & _ & S3).
  assert (Hout : forall i, 0 <= i < size -> Z.testbit (at_pos out' (i / 32)) (i mod 32) = xorb (Z.odd (at_pos input i)) (gold_bit key (Z.to_nat i))).
  { intros i Hi. destruct (word_and_bit size i Hs Hi) as (W1 & W2 & W3). rewrite S3, W3 by lia. f_equal. unfold ws. apply gold_at; [done|lia]. }
  exists out', t1. split_and!; [unfold nr_codeword_scrambling; fold key; by rewrite E1, bind_Ret_l, S1, bind_Ret_l|done|done|].
  intros rx Hzr Hrx. destruct (codeword_sequence junk U m' t' _ _ _ _ Hj Hcw') as (p' & t2 & E2 & Hc2 & R2). fold key in E2, R2. fold ws in R2.
  destruct (unscramble_ok t2 p' (roundedSz size) ws R2 (Z.to_nat (roundedSz size)) 0 rx ltac:(lia) ltac:(lia) ltac:(lia)) as (rx' & U1 & U2 & _ & U3).
  exists rx', t2. split_and!; [unfold nr_codeword_unscrambling; fold key; by rewrite E2, bind_Ret_l, U1, bind_Ret_l|done|]. split; [lia|].
  intros i Hi. destruct (word_and_bit size i Hs Hi) as (W1 & W2 & W3). specialize (U3 (i / 32) (i mod 32) ltac:(lia) W2). rewrite W3 in U3.
  rewrite U3, Hrx, Hout by done. unfold ws. rewrite gold_at by (done || lia).
  destruct (Hbit i Hi) as [-> | ->], (gold_bit key (Z.to_nat i)); cbn [xorb Z.odd Z.b2z]; rewrite ?Hl1, s16_small by lia; lia.
Qed.

Lemma scrambling_roundtrip_witness : let U := [(scrambling_key 0 5 1000, roundup (roundedSz 40))] in let input := replicate (Z.to_nat 64) 1 in
  exists out' t1, nr_codeword_scrambling (fun n => replicate (Z.to_nat n) 7) (mk_gold None 0 0) input 40 0 5 1000 [0; 0] = Ret (out', t1) /\
    exists rx' t2, nr_codeword_unscrambling (fun n => replicate (Z.to_nat n) 7) (mk_gold None 0 0)
      (map (fun i => if Z.testbit (at_pos out' (i / 32)) (i mod 32) then -9 else 9) (seqZ 0 64)) 40 0 5 1000 = Ret (rx', t2) /\
      received (fun b => if b =? 1 then -9 else 9) 40 input rx'.
Proof.
  intros U input. assert (HU : Forall (fun p => 0 < p.2) U) by (constructor; [by vm_compute|constructor]).
  assert (Hcw : codeword_ok U 0 (mk_gold None 0 0) 40 0 5 1000).
  { split; [split; [done|by vm_compute]|exists []; by apply empty_cache_ok|lia|lia|lia|left]. }
  destruct (scrambling_roundtrip (fun n => replicate (Z.to_nat n) 7) U 0 0 (mk_gold None 0 0) (mk_gold None 0 0) input [0; 0] 40 0 5 1000 (fun b => if b =? 1 then -9 else 9))
    as (out' & t1 & E1 & _ & _ & Hrx).
  - intros n Hn. by apply zlen_replicate_Z.
  - exact Hcw.
  - exact Hcw.
  - apply Forall_replicate. unfold byte_ok. lia.
  - intros i Hi. right. unfold input. apply at_pos_replicate. lia.
  - by vm_compute.
  - by vm_compute.
  - reflexivity.
  - by vm_compute.
  - exists out', t1. split; [exact E1|]. destruct (Hrx (map (fun i => if Z.testbit (at_pos out' (i / 32)) (i mod 32) then -9 else 9) (seqZ 0 64))) as (rx' & t2 & E2 & _ & R).
    + rewrite zlen_map. by vm_compute.
    + intros i Hi. rewrite at_pos_map by (change (zlen (seqZ 0 64)) with 64; lia).
      assert (at_pos (seqZ 0 64) i = i) as -> by (unfold at_pos; apply list_lookup_total_correct; rewrite lookup_seqZ_lt by lia; f_equal; lia). by destruct (Z.testbit _ _).
    + exists rx', t2. split; [exact E2|exact R].
Defined.
