(* ===== verification/LdpcSegmentSpec.v ===== *)
(** Segments through the air: what the encoding tasks put out, the decoding task of
    the segment turns back into the code block. *)

From stdpp Require Import base tactics list numbers sets.
From Stdlib Require Import ZArith Lia.
From S2P Require Import Prelude Arrays Crc CrcSpec CrcCheck Tbs Segmentation SegmentationSpec RateMatch RateMatchSpec RateMatchPath.
From S2P Require Import LdpcSegment.

(** the coded bits per lifting size that are not punctured *)
Definition columns (BG : Z) : Z := if BG =? 1 then 66 else 50.

(** a code block whose first [len] bytes end with a CRC of type [ty] that checks *)
Definition crc_ok (ty len : Z) (blk : list Z) : Prop :=
  exists k data crcb rest, blk = data ++ crcb ++ rest /\ zlen data + zlen crcb = len /\ kind_of_type ty = Some k /\
    zlen crcb = crc_len ty /\ remainder k (be data) (be crcb).

(** the soft bit has the sign of the bit *)
Definition signed_as (b x : Z) : Prop := (b = 0 -> 0 < x) /\ (b = 1 -> x < 0).

(** ** The codec

    What the code expects of the library behind [LDPCencoder] and [LDPCdecoder]: a code
    of [columns BG * Zc] bits for blocks of [K] bits; the encoder writes the bits of
    the blocks of the task; the decoder, given soft bits with the right sign at the
    positions of a set it can decode from and zero at the others, returns the block
    within the number of iterations allowed. *)
Class ldpc_codec (enc : encoder_implemparams -> list (list Z) -> list (list Z) -> outcome (list (list Z)))
    (dec : dec_params -> list Z -> outcome (Z * list Z)) := {
  codeword : Z -> Z -> list Z -> Z -> Z;
  decodable : Z -> Z -> Z -> (Z -> Prop) -> Prop;
  codeword_bit : forall BG Zc blk k, codeword BG Zc blk k = 0 \/ codeword BG Zc blk k = 1;
  enc_codes : forall impp c bufs,
    impp_BG impp = 1 \/ impp_BG impp = 2 -> 2 <= impp_Zc impp <= 384 -> impp_K impp = code_block_max (impp_BG impp) * impp_Zc impp ->
    zlen c = n_segments impp -> Forall (fun blk => impp_K impp / 8 <= zlen blk) c ->
    0 <= macro_num impp -> 8 * macro_num impp + zlen bufs <= n_segments impp -> Forall (fun b => zlen b = 68 * 384) bufs ->
    exists ds, enc impp c bufs = Ret ds /\ length ds = length bufs /\
      forall i d, ds !! i = Some d -> zlen d = 68 * 384 /\ exists blk, c !! (Z.to_nat (8 * macro_num impp) + i)%nat = Some blk /\
        forall k, 0 <= k < columns (impp_BG impp) * impp_Zc impp ->
          at_pos d k = codeword (impp_BG impp) (impp_Zc impp) (take (Z.to_nat (impp_K impp / 8)) blk) k;
  dec_decodes : forall p l blk F (known : Z -> Prop),
    let K := code_block_max (dec_BG p) * dec_Z p in
    dec_BG p = 1 \/ dec_BG p = 2 -> 2 <= dec_Z p <= 384 -> 0 < dec_numMaxIter p -> 0 <= F -> 2 * dec_Z p <= K - F ->
    dec_Kprime p = K - F -> (K - F) mod 8 = 0 ->
    zlen blk = K / 8 -> Forall byte_ok blk -> Forall (fun b => b = 0) (drop (Z.to_nat ((K - F) / 8)) blk) ->
    crc_ok (dec_crc_type p) ((K - F) / 8) blk ->
    decodable (dec_BG p) (dec_Z p) F known ->
    zlen l = Z_MAX -> (forall i, 0 <= i < 2 * dec_Z p -> at_pos l i = 0) -> (forall i, K - F <= i < K -> at_pos l i = 127) ->
    (forall k, 0 <= k < columns (dec_BG p) * dec_Z p -> ~ (K - F <= 2 * dec_Z p + k < K) ->
      (known k -> signed_as (codeword (dec_BG p) (dec_Z p) blk k) (at_pos l (2 * dec_Z p + k))) /\
      (~ known k -> at_pos l (2 * dec_Z p + k) = 0)) ->
    exists iterations out, dec p l = Ret (iterations, out) /\ iterations <= dec_numMaxIter p /\ K / 8 <= zlen out /\
      take (Z.to_nat (K / 8)) out = blk }.

(** ** The input of the decoder *)

Lemma sat8_sign x : (0 < x -> 0 < sat8 x) /\ (x < 0 -> sat8 x < 0) /\ (x = 0 -> sat8 x = 0).
Proof. unfold sat8. lia. Qed.

Lemma code_block_max_cases BG : BG = 1 \/ BG = 2 -> code_block_max BG = 22 /\ columns BG = 66 /\ (if BG =? 2 then 52 else 68) = 68 \/
  code_block_max BG = 10 /\ columns BG = 50 /\ (if BG =? 2 then 52 else 68) = 52.
Proof. intros [-> | ->]; [left|right]; done. Qed.

Lemma decoder_input_ok g BG Z F d : garbage_ok g -> BG = 1 \/ BG = 2 -> 2 <= Z <= 384 -> 0 <= F ->
  let K := code_block_max BG * Z in 2 * Z <= K - F -> columns BG * Z <= zlen d ->
  exists l, decoder_input g (if BG =? 2 then 52 else 68) Z K F d = Ret l /\ zlen l = Z_MAX /\
    (forall i, 0 <= i < 2 * Z -> at_pos l i = 0) /\ (forall i, K - F <= i < K -> at_pos l i = 127) /\
    forall k, 0 <= k < columns BG * Z -> ~ (K - F <= 2 * Z + k < K) -> at_pos l (2 * Z + k) = sat8 (at_pos d k).
Proof.
  intros [Gh Gz Gl] HBG HZ HF K HK Hd. unfold decoder_input. unfold Z_MAX in *.
  assert (Hcols : K = code_block_max BG * Z /\ (code_block_max BG = 22 /\ columns BG = 66 /\ (if BG =? 2 then 52 else 68) = 68 \/
    code_block_max BG = 10 /\ columns BG = 50 /\ (if BG =? 2 then 52 else 68) = 52)) by (split; [done|by apply code_block_max_cases]).
  set (Kc := if BG =? 2 then 52 else 68) in *. clearbody K Kc.
  assert (Hb : 10 * Z <= K <= 22 * Z /\ Kc * Z = columns BG * Z + 2 * Z /\ K <= Kc * Z /\ 50 * Z <= columns BG * Z <= 66 * Z) by (destruct Hcols as [-> [(-> & -> & ->)|(-> & -> & ->)]]; lia).
  rewrite Z.shiftr_div_pow2 by lia. change (2 ^ 4) with 16.
  pose proof (Z.mul_div_le (Kc * Z) 16 ltac:(lia)) as Hd16. pose proof (Z.mul_succ_div_gt (Kc * Z) 16 ltac:(lia)) as Hd16'.
  set (n16 := 16 * (Kc * Z / 16 + 1)) in *.
  destruct (mem_write_at (g_z g) 0 (replicate (Z.to_nat (2 * Z)) 0)) as (z1 & E1 & L1 & A1); [lia|rewrite zlen_replicate_Z; lia|].
  destruct (mem_write_at z1 (K - F) (replicate (Z.to_nat F) 0x7f7f)) as (z2 & E2 & L2 & A2); [lia|rewrite zlen_replicate_Z; lia|].
  rewrite zlen_replicate_Z in A1, A2 by lia. rewrite E1, bind_Ret_l, E2, bind_Ret_l. rewrite (u32_small (K - F - 2 * Z)) by lia.
  destruct (mem_read_at d 0 (K - F - 2 * Z)) as (b1 & R1 & LR1 & AR1); [lia..|]. rewrite R1, bind_Ret_l.
  destruct (mem_write_at z2 (2 * Z) b1) as (z3 & E3 & L3 & A3); [lia..|]. rewrite E3, bind_Ret_l. rewrite LR1 in A3.
  rewrite (u32_small (K - 2 * Z)), (u32_small (Kc * Z - K)) by lia.
  destruct (mem_read_at d (K - 2 * Z) (Kc * Z - K)) as (b2 & R2 & LR2 & AR2); [lia..|]. rewrite R2, bind_Ret_l.
  destruct (mem_write_at z3 K b2) as (z4 & E4 & L4 & A4); [lia..|]. rewrite E4, bind_Ret_l. rewrite LR2 in A4.
  destruct (mem_read_at z4 0 n16) as (b3 & R3 & LR3 & AR3); [lia..|]. rewrite R3, bind_Ret_l.
  destruct (mem_write_at (g_l g) 0 (map sat8 b3)) as (l & E5 & L5 & A5); [lia|rewrite zlen_map; lia|]. rewrite E5. rewrite zlen_map, LR3 in A5.
  assert (Hl : forall i, 0 <= i < Kc * Z -> at_pos l i = sat8 (at_pos z4 i)).
  { intros i Hi. rewrite A5 by lia. rewrite (proj2 (Z.leb_le 0 i)), (proj2 (Z.ltb_lt i (0 + n16))) by lia. cbn [andb].
    rewrite Z.sub_0_r, at_pos_map, AR3 by lia. done. }
  exists l. split; [done|]. split; [lia|]. split_and!.
  - intros i Hi. rewrite Hl, A4, A3, A2, A1 by lia. destruct (Z.leb_spec K i), (Z.leb_spec (2 * Z) i), (Z.leb_spec (K - F) i), (Z.leb_spec 0 i); try lia.
    cbn [andb]. rewrite (proj2 (Z.ltb_lt i (0 + 2 * Z))), at_pos_replicate by lia. done.
  - intros i Hi. rewrite Hl, A4, A3, A2 by lia. destruct (Z.leb_spec K i), (Z.leb_spec (2 * Z) i), (Z.leb_spec (K - F) i); try lia. cbn [andb].
    rewrite (proj2 (Z.ltb_ge i (2 * Z + (K - F - 2 * Z)))), (proj2 (Z.ltb_lt i (K - F + F))), at_pos_replicate by lia. done.
  - intros k Hk Hnf. rewrite Hl, A4 by lia. destruct (Z.leb_spec K (2 * Z + k)).
    + cbn [andb]. rewrite (proj2 (Z.ltb_lt (2 * Z + k) (K + (Kc * Z - K)))), AR2 by lia. do 2 f_equal. lia.
    + cbn [andb]. rewrite A3 by lia. rewrite (proj2 (Z.leb_le (2 * Z) (2 * Z + k))), (proj2 (Z.ltb_lt (2 * Z + k) (2 * Z + (K - F - 2 * Z)))) by lia. cbn [andb].
      rewrite AR1 by lia. do 2 f_equal. lia.
Qed.

(** ** One segment *)

(** the two sides agree on the parameters *)
Record same_coding (te : TB_encoding_parameters) (td : TB_decoding_parameters) : Prop := {
  sc_Qm : te_Qm te = td_Qm td; sc_BG : te_BG te = td_BG td; sc_rv : te_rv_index te = td_rv_index td;
  sc_lbrm : te_tbslbrm te = td_tbslbrm td; sc_K : te_K te = td_K td; sc_Z : te_Z te = td_Z td; sc_F : te_F te = td_F td;
  sc_C : te_C te = td_C td }.

(** the parameters are those of a segmentation, and the circular buffer reaches beyond
    the filler *)
Record coding_ok (td : TB_decoding_parameters) (Ncb ind : Z) : Prop := {
  co_BG : td_BG td = 1 \/ td_BG td = 2;
  co_Z : 2 <= td_Z td <= 384;
  co_K : td_K td = code_block_max (td_BG td) * td_Z td;
  co_F : 0 <= td_F td;
  co_Kp : 2 * td_Z td < td_K td - td_F td;
  co_bytes : (td_K td - td_F td) mod 8 = 0;
  co_C : 0 < td_C td < 256;
  co_sel : selection_params (td_tbslbrm td) (td_BG td) (td_Z td) (td_C td) (td_rv_index td);
  co_start : bit_selection_start (td_tbslbrm td) (td_BG td) (td_Z td) (td_C td) (td_rv_index td) = Ret (Ncb, ind);
  co_room : td_K td - 2 * td_Z td <= Ncb;
  co_Qm : known_Qm (td_Qm td) = true;
  co_iter : 0 < td_max_ldpc_iterations td;
  co_len : lenWithCrc (td_C td) (td_A td) = td_K td - td_F td }.

Definition filler_offset (td : TB_decoding_parameters) : Z := td_K td - td_F td - 2 * td_Z td.

(** the positions sent in [E] bits *)
Definition sent_positions (td : TB_decoding_parameters) (Ncb ind E k : Z) : Prop :=
  hits Ncb (td_F td) (filler_offset td) (rank (td_F td) (filler_offset td) ind) E k <> [] /\ 0 <= k < Ncb.

(** a code block: the bytes up to the filler end with the CRC, the filler is zero *)
Record code_block (td : TB_decoding_parameters) (blk : list Z) : Prop := {
  cb_len : zlen blk = td_K td / 8;
  cb_bytes : Forall byte_ok blk;
  cb_filler : Forall (fun b => b = 0) (drop (Z.to_nat ((td_K td - td_F td) / 8)) blk);
  cb_crc : crc_ok (crcType (td_C td) (td_A td)) ((td_K td - td_F td) / 8) blk }.

Lemma bit_selection_Ncb Tb BG Z C rv Ncb ind : selection_params Tb BG Z C rv -> bit_selection_start Tb BG Z C rv = Ret (Ncb, ind) ->
  Ncb <= columns BG * Z.
Proof.
  intros [HB Hr HZ HC [HT1 HT2]]. unfold bit_selection_start. intros H. apply bind_Ret_inv in H as (k0 & _ & H).
  destruct (_ =? 0) in H; [done|]. injection H as <- _. unfold columns.
  assert (Hu : u32 (if BG =? 1 then 66 * Z else 50 * Z) = (if BG =? 1 then 66 else 50) * Z) by (destruct (BG =? 1); rewrite u32_small; lia).
  rewrite Hu. destruct (Tb =? 0); lia.
Qed.

(** What the decoder is given: the circular buffer of a grant can be smaller than the
    soft buffer (limited buffer rate matching), the flag to clear the buffer zeroes only
    that part, and so every soft value that an earlier block left behind it is handed to
    the decoder, whichever it is, for new data too. *)
Theorem stale_soft_bits g td Ncb ind s : garbage_ok g -> coding_ok td Ncb ind ->
  filler_offset td <= sd_E s < 2 ^ 31 -> sd_E s mod td_Qm td = 0 -> sd_E s <= zlen (sd_llr s) -> columns (td_BG td) * td_Z td <= zlen (sd_d s) ->
  exists p l (rest : Z * list Z -> outcome segment_decoding), (forall dec, nr_process_decode_segment dec g td s = (r ← dec p l; rest r)) /\
    forall k, Ncb <= k < columns (td_BG td) * td_Z td -> at_pos l (2 * td_Z td + k) = sat8 (at_pos (sd_d s) k).
Proof.
  intros Hg [HBG HZ HK HF HKp _ HC Hsel Hst Hroom HQm _ _] HE Hm Hllr Hd. pose proof (bit_selection_Ncb _ _ _ _ _ _ _ Hsel Hst) as HN.
  assert (Hfo : 0 < filler_offset td /\ filler_offset td + td_F td = td_K td - 2 * td_Z td) by (unfold filler_offset; lia).
  assert (HFo : 0 <= filler_offset td) by lia. assert (Hfill : filler_offset td + td_F td <= Ncb) by lia.
  assert (HKZ : td_K td <= 22 * td_Z td) by (destruct (code_block_max_cases _ HBG) as [(E1 & _)|(E1 & _)]; rewrite E1 in HK; lia).
  destruct (deinterleaving_ok (sd_E s) (td_Qm td) (g_harq_e g (sd_E s)) (sd_llr s) HQm ltac:(lia) Hm ltac:(rewrite (gk_e _ Hg); lia) Hllr) as (soft & D1 & D2 & _).
  rewrite (gk_e _ Hg) in D2 by lia. assert (Hn : 0 < Ncb - td_F td) by lia. set (clear := if sd_clear s then 1 else 0).
  pose proof (start_rank _ _ _ _ _ _ _ _ _ _ Hsel Hst HF HFo Hfill Hn HE) as Hs. set (st := rank (td_F td) (filler_offset td) ind) in *.
  pose proof (rate_matching_rx_combines _ _ _ _ _ _ _ _ _ _ Hsel Hst HF HFo Hfill Hn HE clear (sd_d s) soft ltac:(lia) ltac:(lia)) as R1. fold st in R1.
  pose proof (zlen_cleared Ncb (td_F td) HF Hn clear (sd_d s) ltac:(lia)) as Hzc. assert (Hc0 : Ncb <= zlen (cleared Ncb clear (sd_d s))) by lia.
  pose proof (zlen_combined Ncb (td_F td) (filler_offset td) st HF HFo Hfill Hn Hs soft _ (sd_E s) Hc0 ltac:(lia)) as Hzd. set (d' := combined _ _ _ _ _ _ _) in *.
  destruct (decoder_input_ok g (td_BG td) (td_Z td) (td_F td) d' Hg HBG HZ HF) as (l & Hl & _ & _ & _ & L3); [lia|unfold d'; rewrite Hzd; lia|]. rewrite <- HK in Hl, L3.
  eexists _, l, _. split.
  - intros dec. unfold nr_process_decode_segment. rewrite D1, bind_Ret_l. unfold u16, u8. rewrite (Z.mod_small (td_Z td)), (Z.mod_small (td_C td)) by lia.
    rewrite (u32_small (td_K td - td_F td - 2 * td_Z td)) by lia. fold (filler_offset td). fold clear. rewrite R1, bind_Ret_l. cbn [Z.eqb]. rewrite Hl, bind_Ret_l. reflexivity.
  - intros k Hk. rewrite L3 by lia. unfold d'. rewrite (combined_rest Ncb (td_F td) (filler_offset td) st HF HFo Hfill Hn Hs soft _ (sd_E s) Hc0) by (lia || (left; lia)).
    f_equal. apply (at_cleared_rest Ncb (td_F td) HF Hn); lia.
Qed.

Section delivery.
Context {enc dec} `{Hcodec : !ldpc_codec enc dec} (g : garbage) (Hg : garbage_ok g) (llr : Z -> Z).
Context (te : TB_encoding_parameters) (td : TB_decoding_parameters) (Ncb ind : Z).
Context (Hsame : same_coding te td) (Hok : coding_ok td Ncb ind).

Local Abbreviation K := (td_K td).
Local Abbreviation F := (td_F td).
Local Abbreviation Zc := (td_Z td).
Local Abbreviation BG := (td_BG td).

(** a share of the coded bits that is enough to decode, received without loss *)
Record share_ok (E : Z) : Prop := {
  sh_range : filler_offset td <= E < 2 ^ 31;
  sh_Qm : E mod td_Qm td = 0;
  sh_sign : 0 < llr 0 /\ llr 1 < 0;
  sh_width : (E / (Ncb - F) + 1) * Z.max (llr 0) (- llr 1) < 2 ^ 15;
  sh_decodable : decodable BG Zc F (sent_positions td Ncb ind E) }.

(** the buffers of a segment for a first transmission *)
Record segment_ready (s : segment_decoding) : Prop := {
  ry_clear : sd_clear s = true;
  ry_d : columns BG * Zc <= zlen (sd_d s);
  ry_rest : forall i, Ncb <= i < columns BG * Zc -> at_pos (sd_d s) i = 0;
  ry_c : K / 8 <= zlen (sd_c s) }.

(** the bits from [off] on carry the block to the decoding task *)
Definition carries (E : Z) (blk f : list Z) : Prop :=
  forall rx s, received llr E f rx -> sd_E s = E -> sd_llr s = rx -> segment_ready s ->
  exists s', nr_process_decode_segment dec g td s = Ret s' /\ sd_success s' = true /\ take (Z.to_nat (K / 8)) (sd_c s') = blk.

Lemma coding_bounds : 10 * Zc <= K <= 22 * Zc /\ K <= columns BG * Zc /\ columns BG * Zc + 2 * Zc <= 68 * 384 /\
  Ncb <= columns BG * Zc /\ 0 < filler_offset td /\ F < Ncb /\ filler_offset td + F <= Ncb.
Proof using Hok.
  destruct Hok as [HBG HZ HK HF HKp _ _ Hsel Hst Hr _ _ _]. pose proof (bit_selection_Ncb _ _ _ _ _ _ _ Hsel Hst) as HN. unfold filler_offset.
  destruct (code_block_max_cases BG HBG) as [(E1 & E2 & _)|(E1 & E2 & _)]; rewrite E1, E2 in *; lia.
Qed.

(** the filler of the coded bits is marked *)
Lemma mark_filler d blk : zlen d = 68 * 384 -> (forall k, 0 <= k < columns BG * Zc -> at_pos d k = codeword BG Zc blk k) ->
  exists d', (if 0 <? F then mem_write d (filler_offset td) (replicate (Z.to_nat F) NR_NULL) else Ret d) = Ret d' /\ zlen d' = 68 * 384 /\
    forall k, 0 <= k < columns BG * Zc -> at_pos d' k = if (filler_offset td <=? k) && (k <? filler_offset td + F) then NR_NULL else codeword BG Zc blk k.
Proof using Hok.
  intros Hz Hd. pose proof coding_bounds as Hb. destruct (Z.ltb_spec 0 F) as [HF|HF].
  - destruct (mem_write_at d (filler_offset td) (replicate (Z.to_nat F) NR_NULL)) as (d' & E1 & E2 & E3); [lia|rewrite zlen_replicate_Z; lia|].
    rewrite zlen_replicate_Z in E3 by lia. exists d'. split_and!; [done|lia|]. intros k Hk. rewrite E3, Hd by lia.
    destruct ((filler_offset td <=? k) && (k <? filler_offset td + F)) eqn:Hf; [|done]. apply at_pos_replicate. bool_prop. lia.
  - exists d. split_and!; [done..|]. intros k Hk. rewrite Hd by done. pose proof (co_F _ _ _ Hok).
    destruct ((filler_offset td <=? k) && (k <? filler_offset td + F)) eqn:Hf; [|done]. bool_prop. lia.
Qed.

(** a soft bit has the sign of the bit, or is zero when it was not sent *)
Lemma soft_sign E n k b x : share_ok E -> n = zlen (hits Ncb F (filler_offset td) (rank F (filler_offset td) ind) E k) ->
  0 <= k < Ncb -> ~ (filler_offset td <= k < filler_offset td + F) ->
  x = s16 (0 + n * llr b) -> b = 0 \/ b = 1 ->
  (sent_positions td Ncb ind E k -> signed_as b (sat8 x)) /\ (~ sent_positions td Ncb ind E k -> sat8 x = 0).
Proof using Hok.
  intros [[S1 S2] S3 [S4 S4'] S5 S6] Hn Hk Hnf Hx Hb. pose proof coding_bounds as Hcb. pose proof (co_F _ _ _ Hok) as HF.
  assert (Hst : 0 <= rank F (filler_offset td) ind).
  { eapply (start_rank (td_tbslbrm td) BG Zc (td_C td) (td_rv_index td) Ncb ind F (filler_offset td) E); try lia; [apply (co_sel _ _ _ Hok)|apply (co_start _ _ _ Hok)]. }
  pose proof (hits_count Ncb F (filler_offset td) (rank F (filler_offset td) ind) HF ltac:(lia) ltac:(lia) ltac:(lia) Hst E k ltac:(lia) Hk Hnf) as Hcount.
  rewrite <- Hn in Hcount.
  assert (Hn0 : 0 <= n) by (rewrite Hn; apply zlen_nonneg).
  set (m := Z.max (llr 0) (- llr 1)) in *.
  assert (Hm : - m <= llr b <= m) by (destruct Hb as [-> | ->]; lia).
  assert (Hw : - 2 ^ 15 <= n * llr b < 2 ^ 15) by nia. rewrite Z.add_0_l, s16_small in Hx by done.
  destruct (sat8_sign x) as (H1 & H2 & H3). split.
  - intros [Hh _]. assert (Hn1 : 0 < n). { rewrite Hn. destruct (hits _ _ _ _ _ _); [done|]. rewrite zlen_cons. pose proof (zlen_nonneg l). lia. }
    split; intros ->; [apply H1|apply H2]; nia.
  - intros Hns. apply H3. assert (n = 0) as ->; [|lia]. rewrite Hn. destruct (hits _ _ _ _ _ _) eqn:Eh; [done|]. destruct Hns. split; [by rewrite Eh|done].
Qed.

(** the decoder task on soft bits that are right *)
Lemma segment_decode_ok E blk s soft d' : share_ok E -> code_block td blk -> sd_E s = E -> segment_ready s ->
  nr_deinterleaving_ldpc E (td_Qm td) (g_harq_e g E) (sd_llr s) = Ret soft ->
  nr_rate_matching_ldpc_rx (td_tbslbrm td) BG Zc (sd_d s) soft (td_C td) (td_rv_index td) 1 E F (filler_offset td) = Ret (0, d') ->
  zlen d' = zlen (sd_d s) ->
  (forall i, 0 <= i < Ncb -> ~ (filler_offset td <= i < filler_offset td + F) ->
    at_pos d' i = s16 (0 + zlen (hits Ncb F (filler_offset td) (rank F (filler_offset td) ind) E i) * llr (codeword BG Zc blk i))) ->
  (forall i, Ncb <= i -> at_pos d' i = at_pos (sd_d s) i) ->
  exists s', nr_process_decode_segment dec g td s = Ret s' /\ sd_success s' = true /\ take (Z.to_nat (K / 8)) (sd_c s') = blk.
Proof using Hok Hg.
  intros Hsh [Cl Cb Cf Cc] HE [R1 R2 R3 R4] Hdei Hrx Hzd Hsoft Hrest. pose proof coding_bounds as Hcb.
  destruct Hok as [HBG HZ HK HF HKp Hby HC Hsel Hst Hroom HQm Hit Hlen]. unfold nr_process_decode_segment.
  rewrite HE, Hdei, bind_Ret_l, R1. unfold u16, u8. rewrite (Z.mod_small Zc), (Z.mod_small (td_C td)) by lia.
  rewrite (u32_small (K - F - 2 * Zc)) by lia. fold (filler_offset td). rewrite Hrx, bind_Ret_l. cbn [Z.eqb].
  destruct (decoder_input_ok g BG Zc F d' Hg HBG HZ HF) as (l & Hl & Hzl & L1 & L2 & L3); [lia|lia|]. rewrite <- HK in Hl, L2, L3.
  rewrite Hl, bind_Ret_l. set (p := mk_dec_params _ _ _ _ _ _).
  destruct (dec_decodes p l blk F (sent_positions td Ncb ind E)) as (it & out & D1 & D2 & D3 & D4);
    cbn [p dec_BG dec_Z dec_numMaxIter dec_Kprime dec_crc_type]; rewrite <- ?HK; try done; [lia|by destruct Hsh| |].
  { intros k Hk Hnf. rewrite L3 by done. assert (Hnf' : ~ (filler_offset td <= k < filler_offset td + F)) by (unfold filler_offset; lia).
    destruct (Z.lt_ge_cases k Ncb) as [Hlt|Hge].
    - eapply soft_sign; [done|done|lia|done|by apply Hsoft; [lia|]|apply codeword_bit].
    - split; [intros [_ ?]; lia|]. intros _. rewrite Hrest, R3 by lia. done. }
  cbn [p dec_BG dec_Z dec_numMaxIter] in D2, D3, D4. rewrite <- HK in D3, D4. rewrite D1, bind_Ret_l.
  rewrite (proj2 (Z.leb_le it (td_max_ldpc_iterations td))) by lia. rewrite shiftr3. assert (HK8 : 0 <= K / 8) by (apply Z.div_pos; lia).
  rewrite mem_read_ok by lia. rewrite drop_0, D4, bind_Ret_l, mem_write_ok by lia. rewrite bind_Ret_l. eexists. split; [done|]. split; [done|].
  cbn [sd_c]. change (take (Z.to_nat 0) (sd_c s)) with (@nil Z). cbn [app]. apply take_app_length'. unfold zlen in Cl. lia.
Qed.

(** one segment is coded, and what is put out carries it *)
Lemma segment_coded E blk d f : share_ok E -> code_block td blk -> zlen d = 68 * 384 ->
  (forall k, 0 <= k < columns BG * Zc -> at_pos d k = codeword BG Zc blk k) -> E <= zlen f ->
  exists d1 e f', (if 0 <? F then mem_write d (filler_offset td) (replicate (Z.to_nat F) NR_NULL) else Ret d) = Ret d1 /\
    nr_rate_matching_ldpc (td_tbslbrm td) BG Zc d1 (replicate (Z.to_nat E) 0) (td_C td) F (filler_offset td) (td_rv_index td) E = Ret (0, e) /\
    nr_interleaving_ldpc E (td_Qm td) e f = Ret f' /\ zlen f' = zlen f /\ (forall q, E <= q -> at_pos f' q = at_pos f q) /\
    carries E blk f'.
Proof using Hok Hg.
  intros Hsh Hblk Hzd Hd Hf. pose proof coding_bounds as Hcb. destruct (mark_filler d blk Hzd Hd) as (d1 & E1 & Hz1 & Hd1).
  pose proof (co_sel _ _ _ Hok) as Hsel. pose proof (co_start _ _ _ Hok) as Hst. pose proof (co_F _ _ _ Hok) as HF. destruct (sh_range _ Hsh) as [Hr1 Hr2].
  pose proof (codeword_bit BG Zc blk) as Hbit.
  assert (Hnull : forall i, 0 <= i < Ncb -> at_pos d1 i = NR_NULL <-> filler_offset td <= i < filler_offset td + F).
  { intros i Hi. rewrite Hd1 by lia. destruct ((filler_offset td <=? i) && (i <? filler_offset td + F)) eqn:Hfi; bool_prop; [split; [lia|done]|].
    destruct (Hbit i) as [-> | ->]; split; (done || lia). }
  (* the encoder does not depend on the soft buffer: take the one of the task *)
  assert (Hpath : forall d0, Ncb <= zlen d0 -> _) by
    (intros d0 Hd0; exact (path_soft (td_tbslbrm td) BG Zc (td_C td) (td_rv_index td) F (filler_offset td) E (td_Qm td) d1 (replicate (Z.to_nat E) 0) f
      (g_harq_e g E) d0 1 llr Ncb ind Hsel Hst HF ltac:(lia) ltac:(lia) ltac:(lia) (conj Hr1 Hr2) (co_Qm _ _ _ Hok) (sh_Qm _ Hsh) ltac:(lia)
      ltac:(rewrite zlen_replicate_Z; lia) Hf ltac:(rewrite (gk_e _ Hg); lia) Hd0 Hnull ltac:(done))).
  destruct (Hpath (replicate (Z.to_nat Ncb) 0)) as (e & f' & T1 & T2 & T3 & T4 & _); [rewrite zlen_replicate_Z; lia|].
  exists d1, e, f'. split_and!; [done..|]. intros rx s Hrx HsE Hsl Hready.
  destruct (Hpath (sd_d s)) as (e2 & f2 & U1 & U2 & _ & _ & U3); [pose proof (ry_d _ Hready); lia|].
  rewrite T1 in U1. injection U1 as <-. rewrite T2 in U2. injection U2 as <-. destruct (U3 rx Hrx) as (soft & d' & V1 & V2 & V3 & V4 & V5).
  apply (segment_decode_ok E blk s soft d' Hsh Hblk HsE Hready); [by rewrite Hsl|done|done| |done].
  intros i Hi Hnf. specialize (V4 i Hi). cbv zeta in V4. rewrite bool_decide_eq_false_2 in V4 by done. cbn [Z.eqb Pos.eqb] in V4. rewrite V4.
  rewrite Hd1 by lia. destruct ((filler_offset td <=? i) && (i <? filler_offset td + F)) eqn:Hfi; bool_prop; [lia|done].
Qed.
End delivery.

(** The encoding tasks of a transport block: whatever the order in which the pool runs
    them, the output carries every segment to its decoding task. *)

Section tasks.
Context {enc dec} `{Hcodec : !ldpc_codec enc dec} (g : garbage) (Hg : garbage_ok g) (llr : Z -> Z).
Context (te : TB_encoding_parameters) (td : TB_decoding_parameters) (Ncb ind : Z).
Context (Hsame : same_coding te td) (Hok : coding_ok td Ncb ind).

Local Abbreviation C := (Z.to_nat (td_C td)).
Local Abbreviation carries := (carries (dec := dec) g llr td Ncb).

(** where the bits of segment [r] start *)
Definition start_of (r : nat) : Z := sumZ id (take r (te_E te)).
Definition share_of (r : nat) : Z := te_E te !!! r.
Definition block_of (r : nat) : list Z := take (Z.to_nat (td_K td / 8)) (te_c te !!! r).

(** what the transport block needs *)
Record transport_ok : Prop := {
  to_E : length (te_E te) = C;
  to_c : length (te_c te) = C;
  to_share : forall r, (r < C)%nat -> share_ok llr td Ncb ind (share_of r);
  to_room : forall r, (r < C)%nat -> td_K td / 8 <= zlen (te_c te !!! r);
  to_block : forall r, (r < C)%nat -> code_block td (block_of r);
  to_total : start_of C < 2 ^ 31 }.
Context (Ht : transport_ok).

Lemma share_lookup r : (r < C)%nat -> te_E te !! r = Some (share_of r).
Proof using Ht. intros Hr. apply list_lookup_lookup_total_lt. rewrite (to_E Ht). lia. Qed.

Lemma start_succ r : (r < C)%nat -> start_of (S r) = start_of r + share_of r.
Proof using Ht. intros Hr. unfold start_of. rewrite (take_S_r _ _ _ (share_lookup r Hr)), sumZ_app. simpl. lia. Qed.

Lemma share_nonneg r : (r < C)%nat -> 0 < share_of r.
Proof using Ht Hok. intros Hr. destruct (sh_range _ _ _ _ _ (to_share Ht r Hr)). pose proof (coding_bounds td Ncb ind Hok). lia. Qed.

Lemma start_mono r r' : (r <= r')%nat -> (r' <= C)%nat -> start_of r <= start_of r'.
Proof using Ht Hok.
  intros Hle. induction Hle as [|r' Hle IH]; intros Hr; [lia|]. pose proof (share_nonneg r' ltac:(lia)). rewrite start_succ by lia. lia.
Qed.

Lemma start_of_range r : (r <= C)%nat -> 0 <= start_of r < 2 ^ 31.
Proof using Ht Hok.
  intros Hr. pose proof (start_mono 0 r ltac:(lia) Hr). pose proof (start_mono r C Hr ltac:(lia)). pose proof (to_total Ht). change (start_of 0) with 0 in *. lia.
Qed.

Lemma carries_ext E blk f f' : (forall q, 0 <= q < E -> at_pos f' q = at_pos f q) -> carries E blk f -> carries E blk f'.
Proof.
  intros Hf Hc rx s [Hz Hrx] HE Hl Hr. apply (Hc rx s); [|done..]. split; [done|]. intros q Hq. by rewrite Hrx, Hf.
Qed.

(** segment [r] is carried by the output *)
Definition carried (r : nat) (output : list Z) : Prop := carries (share_of r) (block_of r) (drop (Z.to_nat (start_of r)) output).

Lemma carried_ext r output output' : (r < C)%nat -> (forall q, start_of r <= q < start_of (S r) -> at_pos output' q = at_pos output q) ->
  carried r output -> carried r output'.
Proof using Ht Hok.
  intros Hr Hq. apply carries_ext. intros q Hq'. pose proof (start_of_range r ltac:(lia)). rewrite !at_pos_drop by lia. apply Hq. rewrite start_succ by done. lia.
Qed.

(** a buffer that holds the coded bits of segment [r] *)
Definition coded_as (r : nat) (d : list Z) : Prop :=
  zlen d = 68 * 384 /\ forall k, 0 <= k < columns (td_BG td) * td_Z td -> at_pos d k = codeword (td_BG td) (td_Z td) (block_of r) k.

Lemma from_offset_ok {A} output off f f' (k : list Z -> outcome A) : 0 <= off <= zlen output -> f (drop (Z.to_nat off) output) = Ret f' ->
  from_offset output off f k = k (take (Z.to_nat off) output ++ f').
Proof. intros Ho Hf. unfold from_offset. by rewrite (proj2 (Z.leb_le 0 off)), (proj2 (Z.leb_le off _)), Hf, bind_Ret_l by lia. Qed.

Lemma code_segments_ok j ds : forall r output, (forall i d, ds !! i = Some d -> coded_as (r + i) d) -> (r + length ds <= C)%nat ->
  start_of C <= zlen output ->
  exists output', code_segments ds (Z.of_nat r) te (task_impp te j) (start_of r) output = Ret output' /\ zlen output' = zlen output /\
    (forall q, 0 <= q -> ~ (start_of r <= q < start_of (r + length ds)) -> at_pos output' q = at_pos output q) /\
    forall i, (i < length ds)%nat -> carried (r + i) output'.
Proof using Ht Hok Hsame Hg.
  induction ds as [|d ds IH]; intros r output Hds Hlen Hz; cbn [code_segments].
  { exists output. split_and!; [done..|]. simpl. lia. }
  cbn [length] in Hlen. assert (Hr : (r < C)%nat) by lia. pose proof (start_of_range r ltac:(lia)) as Hs. pose proof (start_of_range (S r) ltac:(lia)) as Hs'.
  pose proof (start_mono (S r) C ltac:(lia) ltac:(lia)) as Hmono. pose proof (start_succ r Hr) as Hsucc. pose proof (share_nonneg r Hr) as Hsh.
  pose proof (coding_bounds td Ncb ind Hok) as Hcb. pose proof (co_Z _ _ _ Hok) as HZ. pose proof (co_C _ _ _ Hok) as HC. pose proof (co_F _ _ _ Hok) as HF.
  destruct (Hds 0%nat d eq_refl) as [Hzd Hd]. rewrite Nat.add_0_r in Hd.
  destruct (segment_coded g Hg llr td Ncb ind Hok (share_of r) (block_of r) d (drop (Z.to_nat (start_of r)) output))
    as (d1 & e & f' & T1 & T2 & T3 & T4 & T5 & T6); [by apply (to_share Ht)|by apply (to_block Ht)|done|done|rewrite zlen_drop; lia|].
  cbn [task_impp impp_F impp_K impp_Zc impp_BG n_segments]. destruct Hsame as [Q1 Q2 Q3 Q4 Q5 Q6 Q7 Q8]. rewrite Q1, Q2, Q3, Q4, Q5, Q6, Q7, Q8.
  unfold u8, u16. rewrite (Z.mod_small (td_C td)), (Z.mod_small (td_Z td)) by lia. rewrite (u32_small (td_K td - td_F td - 2 * td_Z td)) by (unfold filler_offset in Hcb; lia).
  fold (filler_offset td). rewrite T1, bind_Ret_l, Nat2Z.id, (share_lookup r Hr), T2, bind_Ret_l. rewrite (from_offset_ok _ _ _ f') by (done || lia).
  rewrite u32_small, <- Hsucc by lia. rewrite zlen_drop in T4. set (output1 := take (Z.to_nat (start_of r)) output ++ f').
  assert (Hz1 : zlen output1 = zlen output) by (unfold output1; rewrite zlen_app, zlen_take; lia).
  assert (Hat : forall q, 0 <= q -> at_pos output1 q = if q <? start_of r then at_pos output q else at_pos f' (q - start_of r)).
  { intros q Hq. unfold output1. rewrite at_pos_app, zlen_take by done. rewrite Z2Nat.id, Z.min_l by lia.
    destruct (Z.ltb_spec q (start_of r)); [by rewrite at_pos_take by lia|done]. }
  replace (Z.of_nat r + 1) with (Z.of_nat (S r)) by lia.
  destruct (IH (S r) output1) as (output' & U1 & U2 & U3 & U4).
  { intros i d' Hi. rewrite Nat.add_succ_comm. by apply Hds. } { lia. } { lia. }
  exists output'. split_and!; [done|lia| |].
  - intros q Hq Hout. cbn [length] in Hout. rewrite Nat.add_succ_r in Hout. pose proof (start_mono (S r) (S r + length ds) ltac:(lia) ltac:(lia)) as Hm2.
    rewrite U3 by (try lia; simpl in *; lia). rewrite Hat by done.
    destruct (Z.ltb_spec q (start_of r)); [done|]. rewrite T5 by (simpl in *; lia). rewrite at_pos_drop by lia. f_equal. lia.
  - intros [|i] Hi; [|rewrite <- Nat.add_succ_comm; apply U4; simpl in Hi; lia]. rewrite Nat.add_0_r. apply (carried_ext r output1); [done| |].
    + intros q Hq. apply U3; lia.
    + unfold carried. replace (drop (Z.to_nat (start_of r)) output1) with f'; [done|]. unfold output1.
      rewrite drop_app_length'; [done|]. rewrite length_take. unfold zlen in Hz. lia.
Qed.

(** the segments of task [j] *)
Definition first_of (j : nat) : nat := (8 * j)%nat.
Definition last_of (j : nat) : nat := Nat.min (8 * j + 8) C.
Definition tasks : nat := Z.to_nat (task_count (td_C td)).

Lemma tasks_ok j : (j < tasks)%nat <-> (first_of j < C)%nat.
Proof using Hok.
  pose proof (co_C _ _ _ Hok) as HC. unfold tasks, first_of, task_count. rewrite Z.quot_div_nonneg, (Z.land_ones _ 3) by lia. change (2 ^ 3) with 8.
  pose proof (Z.div_mod (td_C td) 8 ltac:(lia)). pose proof (Z.mod_pos_bound (td_C td) 8 ltac:(lia)).
  destruct (Z.eqb_spec (td_C td mod 8) 0); lia.
Qed.

Context (tmp : list (list Z)) (Htmp : length tmp = 8%nat) (Hbuf : Forall (fun b => zlen b = 68 * 384) tmp).

Lemma task_ok j output : (j < tasks)%nat -> start_of C <= zlen output ->
  exists output', ldpc8blocks_coding_segment enc tmp te (task_impp te (Z.of_nat j)) output = Ret output' /\ zlen output' = zlen output /\
    (forall q, 0 <= q -> ~ (start_of (first_of j) <= q < start_of (last_of j)) -> at_pos output' q = at_pos output q) /\
    forall r, (first_of j <= r < last_of j)%nat -> carried r output'.
Proof using Ht Hok Hsame Hg Htmp Hbuf.
  intros Hj Hz. apply tasks_ok in Hj. pose proof (co_C _ _ _ Hok) as HC. pose proof Hsame as [Q1 Q2 Q3 Q4 Q5 Q6 Q7 Q8].
  unfold ldpc8blocks_coding_segment. cbn [task_impp macro_num n_segments]. rewrite Q8. unfold first_of, last_of in *.
  rewrite u32_small by lia. set (count := (Nat.min 8 (C - 8 * j))%nat).
  replace (Z.to_nat (Z.min (td_C td - Z.of_nat j * 8) 8)) with count by lia.
  assert (Hcount : length (take count tmp) = count) by (rewrite length_take; lia).
  rewrite (take_ge (te_c te)) by (rewrite (to_c Ht); lia).
  destruct (enc_codes (task_impp te (Z.of_nat j)) (te_c te) (take count tmp)) as (ds & D1 & D2 & D3);
    cbn [task_impp impp_BG impp_Zc impp_K n_segments macro_num] in *; rewrite ?Q2, ?Q5, ?Q6, ?Q8 in *;
    [apply (co_BG _ _ _ Hok)|apply (co_Z _ _ _ Hok)|apply (co_K _ _ _ Hok)|unfold zlen; rewrite (to_c Ht); lia| |lia|unfold zlen; lia|by apply Forall_take|].
  { apply Forall_lookup. intros i blk Hi. pose proof (lookup_lt_Some _ _ _ Hi) as Hlt. rewrite (to_c Ht) in Hlt. pose proof (to_room Ht i Hlt) as Hroom.
    by rewrite (list_lookup_total_correct _ _ _ Hi) in Hroom. }
  rewrite D1, bind_Ret_l. rewrite (take_ge ds) by lia.
  assert (Hoff : offset_of te (Z.of_nat j * 8) = start_of (8 * j)).
  { unfold offset_of, start_of. replace (Z.to_nat (Z.of_nat j * 8)) with (8 * j)%nat by lia. apply u32_small. pose proof (start_of_range (8 * j) ltac:(lia)). unfold start_of in *. lia. }
  rewrite Hoff. replace (Z.of_nat j * 8) with (Z.of_nat (8 * j)) by lia.
  destruct (code_segments_ok (Z.of_nat j) ds (8 * j) output) as (output' & E1 & E2 & E3 & E4); [|lia|done|].
  { intros i d Hi. destruct (D3 i d Hi) as (Hzd & blk & Hblk & Hbits). split; [done|]. intros k Hk. rewrite Hbits by done.
    replace (Z.to_nat (8 * Z.of_nat j) + i)%nat with (8 * j + i)%nat in Hblk by lia. unfold block_of. by rewrite (list_lookup_total_correct _ _ _ Hblk). }
  exists output'. replace (8 * j + length ds)%nat with (Nat.min (8 * j + 8) C) in E3 by lia. split_and!; [done..|].
  intros r Hr. replace r with (8 * j + (r - 8 * j))%nat by lia. apply E4. lia.
Qed.

Lemma run_tasks_ok order : forall output, NoDup order -> Forall (fun j => 0 <= j < Z.of_nat tasks) order -> start_of C <= zlen output ->
  exists output', run_tasks enc tmp te order output = Ret output' /\ zlen output' = zlen output /\
    (forall q, 0 <= q -> (forall j, In j order -> ~ (start_of (first_of (Z.to_nat j)) <= q < start_of (last_of (Z.to_nat j)))) -> at_pos output' q = at_pos output q) /\
    forall j r, In j order -> (first_of (Z.to_nat j) <= r < last_of (Z.to_nat j))%nat -> carried r output'.
Proof using Ht Hok Hsame Hg Htmp Hbuf.
  induction order as [|j order IH]; intros output Hnd Hr Hz; cbn [run_tasks].
  { exists output. split_and!; [done..|]. done. }
  inversion Hnd as [|? ? Hnot Hnd']; subst. inversion Hr as [|? ? Hj Hr']; subst.
  destruct (task_ok (Z.to_nat j) output) as (o1 & E1 & E2 & E3 & E4); [lia|done|]. rewrite Z2Nat.id in E1 by lia. rewrite E1, bind_Ret_l.
  destruct (IH o1) as (o2 & F1 & F2 & F3 & F4); [done|done|lia|]. exists o2. split_and!; [done|lia| |].
  - intros q Hq Hout. rewrite F3, E3; [done|done| |done|]; [apply Hout; by left|]. intros j' Hj'. apply Hout. by right.
  - intros j' r [<-|Hin] Hrr; [|by apply (F4 j')]. apply (carried_ext r o1); [unfold last_of in Hrr; lia| |by apply E4].
    intros q Hq. pose proof (start_of_range r ltac:(unfold last_of in Hrr; lia)) as Hs. apply F3; [lia|]. intros j' Hj' Hin.
    assert (Hne : j' <> j) by (intros ->; apply Hnot; by apply list_elem_of_In).
    pose proof (proj1 (list.Forall_forall _ _) Hr' j' ltac:(by apply list_elem_of_In)) as Hj2. unfold first_of, last_of in *.
    assert (Hcase : (r < 8 * Z.to_nat j')%nat \/ (8 * Z.to_nat j' + 8 <= r)%nat) by lia.
    pose proof (proj1 (tasks_ok (Z.to_nat j')) ltac:(lia)) as Hfirst. unfold first_of in Hfirst. destruct Hcase as [Hlt|Hge].
    + pose proof (start_mono (S r) (8 * Z.to_nat j') ltac:(lia) ltac:(lia)). lia.
    + pose proof (start_mono (Nat.min (8 * Z.to_nat j' + 8) C) r ltac:(lia) ltac:(lia)). lia.
Qed.

(** every segment is carried, in whatever order the tasks run *)
Lemma encoding_carries order output : order ≡ₚ seqZ 0 (task_count (td_C td)) -> start_of C <= zlen output ->
  exists output', nrLDPC_prepare_TB_encoding enc tmp te order output = Ret output' /\ zlen output' = zlen output /\
    forall r, (r < C)%nat -> carried r output'.
Proof using Ht Hok Hsame Hg Htmp Hbuf.
  intros Hperm Hz. unfold nrLDPC_prepare_TB_encoding. rewrite (sc_C _ _ Hsame). rewrite bool_decide_eq_true_2 by done.
  destruct (run_tasks_ok order output) as (o & E1 & E2 & _ & E4).
  - rewrite Hperm. apply NoDup_seqZ.
  - rewrite Hperm. apply list.Forall_forall. intros j Hj%elem_of_seqZ. unfold tasks. lia.
  - done.
  - exists o. split_and!; [done..|]. intros r Hr. pose proof (Nat.div_mod r 8 ltac:(lia)) as Hd. pose proof (Nat.mod_upper_bound r 8 ltac:(lia)).
    assert (Hj : (r / 8 < tasks)%nat) by (apply tasks_ok; unfold first_of; lia).
    apply (E4 (Z.of_nat (r / 8))); [|unfold first_of, last_of; rewrite Nat2Z.id; lia].
    apply list_elem_of_In. rewrite Hperm. apply elem_of_seqZ. unfold tasks in Hj. lia.
Qed.
End tasks.
