(* ===== verification/Ulsch.v ===== *)
(** The uplink shared channel: coding of transport blocks in the UE
    (src/openair1/PHY/NR_UE_TRANSPORT/nr_ulsch_coding.c), decoding in the gNB
    (src/openair1/PHY/NR_TRANSPORT/nr_ulsch_decoding.c), and the verdict on the
    transport block (src/openair1/SCHED_NR/phy_procedures_nr_gNB.c). Measurements and
    statistics are left out. *)

From stdpp Require Import base tactics list numbers.
From Stdlib Require Import ZArith Lia.
From S2P Require Import Prelude Crc RateMatch Tbs Segmentation LdpcSegment.

(** ** Coding in the UE *)

(** [nfapi_nr_ue_pusch_pdu_t] *)
Record ue_pusch_pdu := mk_ue_pdu {
  up_rb_size : Z; up_tb_size : Z; up_Qm : Z; up_nrOfLayers : Z; up_rv_index : Z; up_ldpcBaseGraph : Z; up_tbslbrm : Z;
  up_harq_process_id : Z }.

(** [NR_UL_UE_HARQ_t] *)
Record ue_harq := mk_ue_harq {
  uh_payload_AB : list Z; uh_c : list (list Z); uh_f : list Z; uh_BG : Z; uh_seg : segmentation }.
#[global] Instance ue_harq_eta : Eta ue_harq := fun h => mk_ue_harq (uh_payload_AB h) (uh_c h) (uh_f h) (uh_BG h) (uh_seg h).

Definition MAX_NUM_NR_ULSCH_SEGMENTS_PER_LAYER : Z := 34.
Definition MAX_NUM_NR_DLSCH_SEGMENTS_PER_LAYER : Z := 36.

Section ue.
Context (USE_INTEL_CRC : bool) (T : crc_tables).

(** the CRC of the transport block is put after the payload; the number of bits *)
Definition attach_crc (max_payload_bytes A : Z) (payload : list Z) : outcome (Z * list Z) :=
  if NR_MAX_PDSCH_TBS <? A then
    crc ← crc24a USE_INTEL_CRC T payload (int_of_u32 A);
    let crc := Z.shiftr crc 8 in
    payload ← wr payload (Z.shiftr A 3) (byte_of crc 2);
    payload ← wr payload (1 + Z.shiftr A 3) (byte_of crc 1);
    payload ← wr payload (2 + Z.shiftr A 3) (byte_of crc 0);
    if Z.quot A 8 + 4 <=? max_payload_bytes then Ret (A + 24, payload) else Exit
  else
    crc ← crc16 T payload (int_of_u32 A);
    let crc := Z.shiftr crc 16 in
    payload ← wr payload (Z.shiftr A 3) (byte_of crc 1);
    payload ← wr payload (1 + Z.shiftr A 3) (byte_of crc 0);
    if Z.quot A 8 + 3 <=? max_payload_bytes then Ret (A + 16, payload) else Exit.

Definition attach_tb_crc (A nrOfLayers : Z) (payload : list Z) : outcome (Z * list Z) :=
  attach_crc (MAX_NUM_NR_ULSCH_SEGMENTS_PER_LAYER * nrOfLayers * 1056) A payload.

(** a transport block up to its segments; [None] is [return -1] *)
Definition ulsch_segment (pdu : ue_pusch_pdu) (h : ue_harq) : outcome (option TB_encoding_parameters * ue_harq) :=
  let A := u32 (Z.shiftl (up_tb_size pdu) 3) in
  '(B, payload) ← attach_tb_crc A (up_nrOfLayers pdu) (uh_payload_AB h);
  let BG := up_ldpcBaseGraph pdu in
  '(Kb, p, c) ← nr_segmentation USE_INTEL_CRC T (Some (payload, uh_c h)) B (uh_seg h) BG;
  let h := mk_ue_harq payload c (uh_f h) BG p in
  if MAX_NUM_NR_DLSCH_SEGMENTS_PER_LAYER * up_nrOfLayers pdu <? seg_C p then Ret (None, h)
  else Ret (Some (mk_tbe (up_Qm pdu) BG (up_rv_index pdu) (up_tbslbrm pdu) (u32 Kb) (seg_K p) (seg_Zout p) (seg_F p) (seg_C p) [] c), h).
End ue.

(** the shares of the segments from [r] on *)
Fixpoint segment_shares (rounds : nat) (G C Qm Nl r : Z) : outcome (list Z) :=
  match rounds with
  | O => Ret []
  | S rounds => E ← nr_get_E G (u8 C) Qm Nl (u8 r); Es ← segment_shares rounds G C Qm Nl (r + 1); Ret (E :: Es)
  end.

Definition ulsch_shares (G : Z) (pdu : ue_pusch_pdu) (tb : TB_encoding_parameters) : outcome TB_encoding_parameters :=
  Es ← segment_shares (Z.to_nat (te_C tb)) G (te_C tb) (te_Qm tb) (up_nrOfLayers pdu) 0;
  Ret (mk_tbe (te_Qm tb) (te_BG tb) (te_rv_index tb) (te_tbslbrm tb) (te_Kb tb) (te_K tb) (te_Z tb) (te_F tb) (te_C tb) Es
         (take (Z.to_nat (te_C tb)) (te_c tb))).

Section ue_slot.
Context (USE_INTEL_CRC : bool) (T : crc_tables)
  (LDPCencoder : encoder_implemparams -> list (list Z) -> list (list Z) -> outcome (list (list Z))) (tmp : list (list Z)).

(** the HARQ process of an ULSCH; the PDU of its parameters is that of the first ULSCH *)
Definition ulsch_harq_pid (ulsch : list ue_pusch_pdu) (id : Z) : outcome nat :=
  match ulsch !! Z.to_nat id with Some pdu => Ret (Z.to_nat (up_harq_process_id pdu)) | None => Undef end.

(** the first loop; what was done before [return -1] stays *)
Fixpoint segment_loop (ids : list Z) (ulsch : list ue_pusch_pdu) (harq : list ue_harq)
    : outcome (option (list TB_encoding_parameters) * list ue_harq) :=
  match ids with
  | [] => Ret (Some [], harq)
  | id :: ids =>
      pid ← ulsch_harq_pid ulsch id;
      match ulsch !! 0%nat, harq !! pid with
      | Some pdu, Some h =>
          '(tb, h) ← ulsch_segment USE_INTEL_CRC T pdu h;
          let harq := <[pid := h]> harq in
          match tb with
          | None => Ret (None, harq)
          | Some tb => '(tbs, harq) ← segment_loop ids ulsch harq; Ret (option_map (cons tb) tbs, harq)
          end
      | _, _ => Undef
      end
  end.

(** the second loop, and the outputs of the segments *)
Fixpoint share_loop (ids G : list Z) (orders : list (list Z)) (tbs : list TB_encoding_parameters) (ulsch : list ue_pusch_pdu) (harq : list ue_harq)
    : outcome (list (TB_encoding_parameters * list Z * list Z)) :=
  match ids, tbs with
  | id :: ids, tb :: tbs =>
      pid ← ulsch_harq_pid ulsch id;
      match G, orders, ulsch !! 0%nat, harq !! pid with
      | g :: G, order :: orders, Some pdu, Some h =>
          tb ← ulsch_shares g pdu tb;
          rest ← share_loop ids G orders tbs ulsch harq;
          Ret ((tb, order, uh_f h) :: rest)
      | _, _, _, _ => Undef
      end
  | _, _ => Ret []
  end.

Fixpoint store_outputs (ids : list Z) (outputs : list (list Z)) (ulsch : list ue_pusch_pdu) (harq : list ue_harq) : outcome (list ue_harq) :=
  match ids, outputs with
  | id :: ids, f :: outputs =>
      pid ← ulsch_harq_pid ulsch id;
      match harq !! pid with
      | Some h => store_outputs ids outputs ulsch (<[pid := h <| uh_f := f |>]> harq)
      | None => Undef
      end
  | _, _ => Ret harq
  end.

(** [orders] is how the pool orders the tasks of each transport block *)
Definition nr_ulsch_encoding (ulsch : list ue_pusch_pdu) (G ULSCH_ids : list Z) (orders : list (list Z)) (harq : list ue_harq)
    : outcome (Z * list ue_harq) :=
  '(tbs, harq) ← segment_loop ULSCH_ids ulsch harq;
  match tbs with
  | None => Ret (-1, harq)
  | Some tbs =>
      TBs ← share_loop ULSCH_ids G orders tbs ulsch harq;
      outputs ← nrLDPC_coding_encoder LDPCencoder tmp TBs;
      harq ← store_outputs ULSCH_ids outputs ulsch harq;
      Ret (0, harq)
  end.
End ue_slot.

(** ** Decoding in the gNB *)

(** [nfapi_nr_pusch_pdu_t] *)
Record gnb_pusch_pdu := mk_gnb_pdu {
  gp_rb_size : Z; gp_Qm : Z; gp_nrOfLayers : Z; gp_tb_size : Z; gp_ldpcBaseGraph : Z; gp_rv_index : Z; gp_tbSizeLbrmBytes : Z }.

(** [NR_UL_gNB_HARQ_t] *)
Record gnb_harq := mk_gnb_harq {
  gh_TBS : Z; gh_seg : segmentation; gh_d : list (list Z); gh_d_to_be_cleared : list bool; gh_c : list (list Z); gh_b : list Z;
  gh_harq_to_be_cleared : bool; gh_round : Z; gh_llrLen : Z; gh_processedSegments : Z }.
#[global] Instance gnb_harq_eta : Eta gnb_harq := fun h =>
  mk_gnb_harq (gh_TBS h) (gh_seg h) (gh_d h) (gh_d_to_be_cleared h) (gh_c h) (gh_b h) (gh_harq_to_be_cleared h) (gh_round h) (gh_llrLen h)
    (gh_processedSegments h).

(** an ULSCH of the slot: its PDU, the number of iterations, its HARQ process, its soft
    bits ([None] for a null pointer) and the number of coded bits *)
Record gnb_ulsch := mk_gnb_ulsch {
  gu_pdu : gnb_pusch_pdu; gu_max_ldpc_iterations : Z; gu_harq : gnb_harq; gu_llr : option (list Z); gu_G : Z }.
#[global] Instance gnb_ulsch_eta : Eta gnb_ulsch := fun u =>
  mk_gnb_ulsch (gu_pdu u) (gu_max_ldpc_iterations u) (gu_harq u) (gu_llr u) (gu_G u).

(** the number of segments that are allocated *)
Definition NR_MAX_NB_LAYERS : Z := 4.
Definition ulsch_a_segments (N_RB_UL : Z) : Z :=
  let a_segments := MAX_NUM_NR_ULSCH_SEGMENTS_PER_LAYER * NR_MAX_NB_LAYERS in
  if N_RB_UL =? 273 then a_segments else u16 (Z.quot (u16 (a_segments * N_RB_UL)) 273 + 1).

(** a new ULSCH: every buffer is zero *)
Definition new_gNB_ulsch (max_ldpc_iterations N_RB_UL : Z) : gnb_ulsch :=
  let n := Z.to_nat (ulsch_a_segments N_RB_UL) in
  let b := replicate (Z.to_nat (u32 (ulsch_a_segments N_RB_UL * 1056))) 0 in
  mk_gnb_ulsch (mk_gnb_pdu 0 0 0 0 0 0 0) max_ldpc_iterations
    (mk_gnb_harq 0 (mk_segmentation 0 0 0 0) (replicate n (replicate (Z.to_nat (68 * 384)) 0)) (replicate n false)
       (replicate n (replicate (Z.to_nat 8448) 0)) b false 0 0 0) None 0.

(** the parameters of the transport block; [false] is [return -1] *)
Definition ulsch_parameters (u : gnb_ulsch) : outcome (bool * gnb_ulsch * TB_decoding_parameters) :=
  let pdu := gu_pdu u in
  let A := u32 (Z.shiftl (gp_tb_size pdu) 3) in
  '(_, p, _) ← nr_segmentation false zero_tables None (lenWithCrc 1 A) (mk_segmentation 0 0 0 0) (gp_ldpcBaseGraph pdu);
  let u := u <| gu_harq ::= (fun h => h <| gh_TBS := gp_tb_size pdu |> <| gh_seg := p |>) |> in
  let a_segments := u16 (MAX_NUM_NR_ULSCH_SEGMENTS_PER_LAYER * gp_nrOfLayers pdu) in
  let tb := mk_tbd (gp_Qm pdu) (gp_ldpcBaseGraph pdu) (gp_rv_index pdu) (gu_max_ldpc_iterations u) (gp_tbSizeLbrmBytes pdu)
              A (seg_K p) (seg_Zout p) (seg_F p) (seg_C p) in
  if a_segments <? seg_C p then Ret (false, u, tb)
  else
    let a_segments := if gp_rb_size pdu =? 273 then a_segments else u16 (Z.quot (u16 (a_segments * gp_rb_size pdu)) 273 + 1) in
    if a_segments <? seg_C p then Ret (false, u, tb) else Ret (true, u, tb).

(** [for (int r = 0; r < C; r++)] over the segments, from [r] on; [ds], [clears] and [cs]
    are the soft buffers, the flags to clear them and the code blocks *)
Fixpoint build_segments (rounds : nat) (r r_offset : Z) (tb : TB_decoding_parameters) (G Nl round llrLen : Z) (llr : list Z)
    (ds : list (list Z)) (clears : list bool) (cs : list (list Z)) : outcome (list segment_decoding * Z) :=
  match rounds with
  | O => Ret ([], llrLen)
  | S rounds =>
      E ← nr_get_E G (u8 (td_C tb)) (td_Qm tb) Nl (u8 r);
      '(R, llrLen) ← nr_get_R_ldpc_decoder (td_rv_index tb) E (td_BG tb) (td_Z tb) llrLen round;
      match ds !! Z.to_nat r, clears !! Z.to_nat r, cs !! Z.to_nat r with
      | Some d, Some clear, Some c =>
          let s := mk_sd E R (drop (Z.to_nat r_offset) llr) d clear c false in
          '(ss, llrLen) ← build_segments rounds (r + 1) (u32 (r_offset + E)) tb G Nl round llrLen llr ds clears cs;
          Ret (s :: ss, llrLen)
      | _, _, _ => Undef
      end
  end.

(** [harq_to_be_cleared]: the flags of the segments of the transport block are set *)
Definition mark_cleared (C : Z) (h : gnb_harq) : list bool :=
  if gh_harq_to_be_cleared h then imap (fun r clear => bool_decide (Z.of_nat r < C) || clear) (gh_d_to_be_cleared h) else gh_d_to_be_cleared h.

(** [None] is [return -1]; the segments see the flags of the HARQ process, which are set
    before the decoder runs and stay set when a later ULSCH makes the call return *)
Definition ulsch_segments (u : gnb_ulsch) (tb : TB_decoding_parameters) : outcome (option (list segment_decoding * gnb_ulsch)) :=
  match gu_llr u with
  | None => Ret None
  | Some llr =>
      let h := gu_harq u in
      let clears := mark_cleared (td_C tb) h in
      '(ss, llrLen) ← build_segments (Z.to_nat (td_C tb)) 0 0 tb (gu_G u) (gp_nrOfLayers (gu_pdu u)) (gh_round h) (gh_llrLen h) llr
                        (gh_d h) clears (gh_c h);
      Ret (Some (ss, u <| gu_harq := h <| gh_llrLen := llrLen |> <| gh_d_to_be_cleared := clears |> <| gh_harq_to_be_cleared := false |> |>))
  end.

(** the bytes of a segment in the transport block *)
Definition segment_bytes (p : segmentation) : Z := u32 (Z.shiftr (seg_K p) 3 - Z.shiftr (seg_F p) 3 - (if 1 <? seg_C p then 3 else 0)).

(** the code blocks that were decoded go into the transport block *)
Fixpoint collect_segments (ss : list segment_decoding) (p : segmentation) (offset : Z) (b : list Z) : outcome (list Z) :=
  match ss with
  | [] => Ret b
  | s :: ss =>
      b ← (if sd_success s then x ← mem_read (sd_c s) 0 (segment_bytes p); mem_write b offset x else Ret b);
      collect_segments ss p (u32 (offset + segment_bytes p)) b
  end.

(** the HARQ process after the decoding of its segments *)
Definition ulsch_finish (u : gnb_ulsch) (ss : list segment_decoding) (processed : Z) : outcome gnb_ulsch :=
  let h := gu_harq u in
  b ← collect_segments ss (gh_seg h) 0 (gh_b h);
  let n := length ss in
  Ret (u <| gu_harq := h <| gh_d := map sd_d ss ++ drop n (gh_d h) |> <| gh_d_to_be_cleared := map sd_clear ss ++ drop n (gh_d_to_be_cleared h) |>
                          <| gh_c := map sd_c ss ++ drop n (gh_c h) |> <| gh_b := b |> <| gh_processedSegments := processed |> |>).

(** the loops over the ULSCHs of the slot; after an early return the ULSCHs before it are
    as the loop left them *)
Fixpoint parameter_loop (us : list gnb_ulsch) : outcome (option (list TB_decoding_parameters) * list gnb_ulsch) :=
  match us with
  | [] => Ret (Some [], [])
  | u :: us =>
      '(ok, u, tb) ← ulsch_parameters u;
      if ok : bool then '(tbs, us) ← parameter_loop us; Ret (option_map (cons tb) tbs, u :: us) else Ret (None, u :: us)
  end.

Fixpoint segments_loop (us : list gnb_ulsch) (tbs : list TB_decoding_parameters)
    : outcome (option (list (TB_decoding_parameters * list segment_decoding)) * list gnb_ulsch) :=
  match us, tbs with
  | u :: us, tb :: tbs =>
      r ← ulsch_segments u tb;
      match r with
      | None => Ret (None, u :: us)
      | Some (ss, u) => '(TBs, us) ← segments_loop us tbs; Ret (option_map (cons (tb, ss)) TBs, u :: us)
      end
  | _, _ => Ret (Some [], us)
  end.

Fixpoint finish_loop (us : list gnb_ulsch) (rs : list (list segment_decoding * Z)) : outcome (list gnb_ulsch) :=
  match us, rs with
  | u :: us, (ss, processed) :: rs => u ← ulsch_finish u ss processed; us ← finish_loop us rs; Ret (u :: us)
  | _, _ => Ret us
  end.

Section gnb.
Context (USE_INTEL_CRC : bool) (T : crc_tables) (LDPCdecoder : dec_params -> list Z -> outcome (Z * list Z)) (g : garbage).

Definition nr_ulsch_decoding (us : list gnb_ulsch) : outcome (Z * list gnb_ulsch) :=
  '(tbs, us) ← parameter_loop us;
  match tbs with
  | None => Ret (-1, us)
  | Some tbs =>
      '(TBs, us) ← segments_loop us tbs;
      match TBs with
      | None => Ret (-1, us)
      | Some TBs =>
          rs ← nrLDPC_coding_decoder LDPCdecoder g TBs;
          us ← finish_loop us rs;
          Ret (0, us)
      end
  end.

(** [crc_valid] of an ULSCH after the decoding *)
Definition ulsch_crc_valid (h : gnb_harq) : outcome bool :=
  if gh_processedSegments h =? seg_C (gh_seg h) then
    if 1 <? seg_C (gh_seg h) then
      let A := u32 (Z.shiftl (gh_TBS h) 3) in check_crc USE_INTEL_CRC T (gh_b h) (lenWithCrc 1 A) (crcType 1 A)
    else Ret true
  else Ret false.
End gnb.
