(* ===== verification/UlschSpec.v ===== *)
(** The uplink shared channel end to end: the parts of one transport block. *)

From stdpp Require Import base tactics list numbers sets.
From Stdlib Require Import ZArith Lia.
From S2P Require Import Prelude Arrays Crc CrcSpec CrcSimdSpec CrcCheck RateMatch RateMatchPath Tbs Segmentation SegmentationSpec TbsSpec LdpcSegment LdpcSegmentSpec Ulsch.

(** ** The CRC of the transport block *)

(** [data], the CRC of type [ty] over it, and whatever comes after *)
Definition with_crc (ty : Z) (data crcb rest b : list Z) : Prop :=
  b = data ++ crcb ++ rest /\ Forall byte_ok b /\
  exists k, kind_of_type ty = Some k /\ zlen crcb = crc_len ty /\ remainder k (be data) (be crcb).

Lemma int_of_u32_small A : 0 <= A < 2 ^ 31 -> int_of_u32 A = A.
Proof. intros H. unfold int_of_u32. by rewrite u32_small, (proj2 (Z.ltb_lt _ _)) by lia. Qed.

(** the remainder in the high bits of the value of a CRC function *)
Lemma crc_value intel T k b n : tables_ok T -> holds intel k b (8 * n) -> 0 <= n ->
  exists x, crc_of intel T k b (8 * n) = Ret (Z.shiftl x (32 - width k)) /\ remainder k (be (take (Z.to_nat n) b)) x /\
    Z.shiftr (Z.shiftl x (32 - width k)) (32 - width k) = x.
Proof.
  intros HT Hh Hn. destruct (crc_of_ok intel T k b (8 * n) HT Hh) as (crc & Ec & Hc). rewrite msg_bytes in Hc by done.
  apply is_crc_remainder in Hc as (x & Hx1 & Hx2 & Hx3); [|apply be_nonneg, Forall_take, (ho_bytes _ _ _ _ Hh)].
  exists x. rewrite <- Hx1. split_and!; [done..|]. by rewrite <- Hx2.
Qed.

Lemma attach_crc_ok intel T max A payload : tables_ok T -> 0 < A < 2 ^ 29 -> A mod 8 = 0 -> Forall byte_ok payload ->
  A / 8 + 3 <= zlen payload -> A / 8 + 4 <= max ->
  exists payload' crcb rest, attach_crc intel T max A payload = Ret (lenWithCrc 1 A, payload') /\ zlen payload' = zlen payload /\
    with_crc (crcType 1 A) (take (Z.to_nat (A / 8)) payload) crcb rest payload'.
Proof.
  intros HT HA Hmod Hb Hz Hmax. unfold attach_crc, lenWithCrc, crcType, with_crc. cbn [Z.ltb Z.compare Pos.compare Pos.compare_cont].
  pose proof (Z.div_mod A 8 ltac:(lia)) as Hd. rewrite Hmod, Z.add_0_r in Hd. set (n := A / 8) in *. rewrite shiftr3. fold n.
  rewrite Z.quot_div_nonneg, int_of_u32_small by lia. fold n. set (data := take (Z.to_nat n) payload). set (r := drop (Z.to_nat n) payload).
  assert (Hsplit : payload = data ++ r) by (symmetry; apply take_drop).
  assert (Hzd : zlen data = n) by (unfold data; rewrite zlen_take; lia). assert (Hzr : zlen r = zlen payload - n) by (unfold r; rewrite zlen_drop; lia).
  assert (Hbd : Forall byte_ok data) by by apply Forall_take. assert (Hbr : Forall byte_ok r) by by apply Forall_drop.
  assert (Hnext : forall a m y i, Z.of_nat m < zlen r -> i = zlen a -> wr (a ++ drop m r) i y = Ret ((a ++ [y]) ++ drop (S m) r)).
  { intros a m y i Hm ->. rewrite (wr_offset a) by (done || apply zlen_pos_not_nil; rewrite zlen_drop; lia). by rewrite drop_drop, Nat.add_1_r. }
  assert (Hfirst : forall y, 0 < zlen r -> wr payload n y = Ret ((data ++ [y]) ++ drop 1 r)).
  { intros y Hr0. etransitivity; [|by apply (Hnext data 0%nat y n)]. by rewrite drop_0, <- Hsplit. }
  destruct (NR_MAX_PDSCH_TBS <? A) eqn:Hlarge.
  - assert (Hh : holds intel K24a payload (8 * n)).
    { split; [done|lia|lia|]. intros _ _ _ _. rewrite mul8_div. unfold readable, NR_MAX_PDSCH_TBS in *. bool_prop. rewrite (proj2 (Z.leb_gt n 12)) by lia. lia. }
    destruct (crc_value intel T K24a payload n HT Hh ltac:(lia)) as (x & Ec & Hx & Hsh). cbn [crc_of] in Ec. rewrite <- Hd in Ec. rewrite Ec, bind_Ret_l.
    change (32 - width K24a) with 8 in *. rewrite Hsh, Hfirst by lia. rewrite bind_Ret_l, (Hnext (data ++ _)) by (rewrite ?zlen_snoc; lia). rewrite bind_Ret_l, (Hnext ((data ++ _) ++ _)) by (rewrite ?zlen_snoc; lia).
    rewrite bind_Ret_l, (proj2 (Z.leb_le (n + 4) _)) by lia. rewrite <- !app_assoc. cbn [app].
    exists (data ++ [byte_of x 2; byte_of x 1; byte_of x 0] ++ drop 3 r), [byte_of x 2; byte_of x 1; byte_of x 0], (drop 3 r). split; [done|]. split.
    { rewrite !zlen_app, zlen_drop. change (zlen [_; _; _]) with 3. lia. }
    split; [done|]. split; [rewrite !Forall_app; split_and!; [done|repeat constructor; apply byte_of_ok|by apply Forall_drop]|].
    exists K24a. split_and!; [done..|]. rewrite be_bytes3; [done|]. by destruct Hx.
  - assert (Hh : holds intel K16 payload (8 * n)) by (split; [done|lia|lia|done]).
    destruct (crc_value intel T K16 payload n HT Hh ltac:(lia)) as (x & Ec & Hx & Hsh). cbn [crc_of] in Ec. rewrite <- Hd in Ec. rewrite Ec, bind_Ret_l.
    change (32 - width K16) with 16 in *. rewrite Hsh, Hfirst by lia. rewrite bind_Ret_l, (Hnext (data ++ _)) by (rewrite ?zlen_snoc; lia).
    rewrite bind_Ret_l, (proj2 (Z.leb_le (n + 3) _)) by lia. rewrite <- !app_assoc. cbn [app].
    exists (data ++ [byte_of x 1; byte_of x 0] ++ drop 2 r), [byte_of x 1; byte_of x 0], (drop 2 r). split; [done|]. split.
    { rewrite !zlen_app, zlen_drop. change (zlen [_; _]) with 2. lia. }
    split; [done|]. split; [rewrite !Forall_app; split_and!; [done|repeat constructor; apply byte_of_ok|by apply Forall_drop]|].
    exists K16. split_and!; [done..|]. rewrite be_bytes2; [done|]. by destruct Hx.
Qed.

(** ** Code blocks *)

(** the parameters of a transport block of [A] bits *)
Definition tb_sizes (BG A : Z) : segmentation := sizes_of BG (lenWithCrc 1 A).

Definition td_of (Qm BG rv iterations lbrm A : Z) : TB_decoding_parameters :=
  let p := tb_sizes BG A in mk_tbd Qm BG rv iterations lbrm A (seg_K p) (seg_Zout p) (seg_F p) (seg_C p).

(** the payload of a segment and where it ends *)
Definition piece (n : Z) (tb : list Z) (r : nat) : list Z := take (Z.to_nat n) (drop (Z.to_nat (Z.of_nat r * n)) tb).

Lemma lenWithCrc_one A : lenWithCrc 1 A = A + 8 * crc_len (crcType 1 A).
Proof. unfold lenWithCrc, crcType. cbn [Z.ltb Z.compare Pos.compare Pos.compare_cont]. by destruct (NR_MAX_PDSCH_TBS <? A). Qed.

(** more than one segment, and the size of the transport block is that of a large one *)
Lemma several_large BG A : BG = 1 \/ BG = 2 -> max_block BG < lenWithCrc 1 A -> lenWithCrc 1 A = A + 24.
Proof.
  intros HBG. unfold lenWithCrc, max_block, NR_MAX_PDSCH_TBS. cbn [Z.ltb Z.compare Pos.compare Pos.compare_cont]. destruct (Z.ltb_spec 3824 A); [done|]. destruct (BG =? 1); lia.
Qed.

Lemma len_of_segments BG A Kprime L : BG = 1 \/ BG = 2 -> 0 < lenWithCrc 1 A < 2 ^ 31 -> 0 <= A ->
  segmented BG (lenWithCrc 1 A) (tb_sizes BG A) Kprime L -> lenWithCrc (seg_C (tb_sizes BG A)) A = Kprime.
Proof.
  intros HBG HB HA Hs. pose proof (sg_Kprime _ _ _ _ _ Hs) as HK. set (p := tb_sizes BG A) in *. destruct (Z.le_gt_cases (lenWithCrc 1 A) (max_block BG)) as [Hle|Hgt].
  - destruct (sg_one _ _ _ _ _ Hs Hle) as [HC HL]. rewrite HC, HL in *. rewrite HK, Z.mul_0_r, Z.add_0_r, Z.div_1_r. done.
  - destruct (sg_more _ _ _ _ _ Hs Hgt) as (HC & HL & _). rewrite (several_large BG A HBG Hgt) in HK. rewrite HK, HL. unfold lenWithCrc.
    rewrite (proj2 (Z.ltb_lt 1 _)) by done. rewrite Z.quot_div_nonneg by lia. f_equal. lia.
Qed.

Section block.
Context (Qm BG rv iterations lbrm A : Z) (n L : Z) (tb crcb data rest : list Z).
Local Abbreviation td := (td_of Qm BG rv iterations lbrm A).
Local Abbreviation p := (tb_sizes BG A).
Context (HBG : BG = 1 \/ BG = 2) (HB : 0 < lenWithCrc 1 A < 2 ^ 31) (HA : 0 <= A).
Context (Hseg : segmented BG (lenWithCrc 1 A) p (8 * (n + L)) (8 * L)) (HL : L = if 1 <? seg_C p then 3 else 0) (Hn : 0 <= n).
Context (HCn : seg_C p * n = lenWithCrc 1 A / 8) (Htb : with_crc (crcType 1 A) data crcb rest tb) (Hdata : 8 * zlen data = A) (Hroom : lenWithCrc 1 A / 8 <= zlen tb).

Lemma seg_C_pos : 0 < seg_C p.
Proof using Hseg.
  destruct Hseg as [S1 S2 _ _ _ _ _ _ _]. destruct (Z.le_gt_cases (lenWithCrc 1 A) (max_block BG)) as [Hle|Hgt]; [destruct (S1 Hle); lia|destruct (S2 Hgt); lia].
Qed.

Lemma K_minus_F : td_K td - td_F td = 8 * (n + L) /\ 0 <= td_F td /\ td_K td <= 8448 /\ n + L <= td_K td / 8.
Proof using Hseg.
  unfold td_of. cbn [td_K td_F]. destruct (sg_F _ _ _ _ _ Hseg) as [F1 F2]. pose proof (sg_K _ _ _ _ _ Hseg) as HK. pose proof (sg_Zmax _ _ _ _ _ Hseg).
  split_and!; [lia|lia| |apply Z.div_le_lower_bound; lia]. rewrite HK. unfold code_block_max. destruct (BG =? 1); lia.
Qed.

(** the block that the segmentation leaves in the buffer *)
Lemma segment_is_block r out out' : (Z.of_nat r < seg_C p) -> td_K td / 8 <= zlen out -> Forall byte_ok out -> segment_of (seg_C p) (td_K td) n tb (Z.of_nat r * n) out out' ->
  code_block td (take (Z.to_nat (td_K td / 8)) out') /\ td_K td / 8 <= zlen out' /\ take (Z.to_nat n) out' = piece n tb r.
Proof using All.
  intros Hr Hzo Hbo (cb & -> & Hbc & Hif). pose proof K_minus_F as (HKF & HF0 & HK & HnL). destruct Htb as (Etb & Hbtb & k & Hk & Hzc & Hrem).
  fold (piece n tb r) in *. assert (Hzp : zlen (piece n tb r) = n).
  { unfold piece. rewrite zlen_take, zlen_drop. assert (Z.of_nat r * n + n <= seg_C p * n) by nia. assert (0 <= Z.of_nat r * n) by nia. lia. }
  assert (HzL : zlen cb = L) by (destruct (1 <? seg_C p); [lia|by subst]).
  set (zeros := replicate (Z.to_nat (td_K td / 8 - n - zlen cb)) 0). set (tail := drop (Z.to_nat (td_K td / 8)) out).
  assert (Hzz : zlen zeros = td_K td / 8 - n - L) by (unfold zeros; rewrite zlen_replicate_Z; lia).
  assert (Hblk : take (Z.to_nat (td_K td / 8)) (piece n tb r ++ cb ++ zeros ++ tail) = piece n tb r ++ cb ++ zeros).
  { rewrite !app_assoc. rewrite take_app_length'; [by rewrite <- !app_assoc|]. rewrite !length_app. unfold zlen in *. lia. }
  rewrite Hblk. split_and!.
  - split.
    + rewrite !zlen_app. lia.
    + rewrite !Forall_app. split_and!; [by apply Forall_take, Forall_drop|done|by apply Forall_replicate].
    + rewrite HKF, mul8_div. rewrite app_assoc, drop_app_length'; [by apply Forall_replicate|]. rewrite length_app. unfold zlen in *. lia.
    + rewrite HKF, mul8_div. unfold td_of. cbn [td_C td_A]. unfold crcType at 1. destruct (Z.ltb_spec 1 (seg_C p)) as [HC|HC].
      * destruct Hif as [H3 Hr3]. exists K24b, (piece n tb r), cb, zeros. split_and!; [done|lia|done|done|done].
      * pose proof seg_C_pos. assert (HC1 : seg_C p = 1) by lia. assert (Z.of_nat r = 0) as Hr0 by lia. rewrite HC1 in HCn.
        exists k, data, crcb, zeros. subst cb L. assert (Hp : piece n tb r = data ++ crcb).
        { unfold piece. rewrite Hr0, Etb, app_assoc. cbn [Z.mul Z.to_nat drop]. apply take_app_length'. rewrite length_app. rewrite lenWithCrc_one in HCn.
          replace (A + 8 * crc_len (crcType 1 A)) with (8 * (zlen data + crc_len (crcType 1 A))) in HCn by lia. rewrite mul8_div in HCn. unfold zlen in *. lia. }
        rewrite Hp, app_nil_l, <- app_assoc. change (crcType 1 A) with (if NR_MAX_PDSCH_TBS <? A then CRC24_A else CRC16) in *.
        split_and!; [done| |done|done|done]. rewrite <- zlen_app, <- Hp. lia.
  - rewrite !zlen_app. pose proof (zlen_nonneg tail). lia.
  - apply take_app_length'. unfold zlen in Hzp. lia.
Qed.
End block.

(** ** A transmission *)

Record share_params (G C Qm Nl : Z) : Prop := {
  sp_C256 : 0 < C < 256; sp_Qm : 0 < Qm; sp_Nl : 0 < Nl; sp_G : 0 <= G < 2 ^ 31; sp_QN : Nl * Qm < 2 ^ 30; sp_div : G mod (Nl * Qm) = 0 }.

Lemma share_eq G C Qm Nl r : share_params G C Qm Nl -> 0 <= r < C -> nr_get_E G C Qm Nl r = Ret (share G C Qm Nl r).
Proof. intros [H1 H2 H3 H4 H5 H6] Hr. unfold share. rewrite get_E_ok by (done || lia). done. Qed.

Lemma segment_shares_ok G C Qm Nl rounds : share_params G C Qm Nl -> forall r, 0 <= r -> r + Z.of_nat rounds <= C ->
  segment_shares rounds G C Qm Nl r = Ret (map (share G C Qm Nl) (seqZ r (Z.of_nat rounds))).
Proof.
  intros Hp. pose proof (sp_C256 _ _ _ _ Hp). induction rounds as [|rounds IH]; intros r Hr Hle; cbn [segment_shares]; [done|].
  unfold u8. rewrite (Z.mod_small C), (Z.mod_small r), share_eq, bind_Ret_l by (done || lia). rewrite IH, bind_Ret_l by lia.
  rewrite (seqZ_cons r) by lia. cbn [map]. replace (Z.pred (Z.of_nat (S rounds))) with (Z.of_nat rounds) by lia. by rewrite Z.add_1_r.
Qed.

(** A grant: the size is one of [nr_compute_tbs], the base graph the one for it, there
    is room for the segments, the coded bits are whole symbols on every layer, the
    circular buffer holds the systematic bits, and the share of every segment is enough
    to decode it ([share_ok]). *)
Record grant_ok {enc dec} `{!ldpc_codec enc dec} (llr : Z -> Z) (pdu : ue_pusch_pdu) (R G Ncb ind iterations : Z) : Prop := {
  gr_size : 0 < up_tb_size pdu < 2 ^ 26 /\ tbs_fits (8 * up_tb_size pdu) R;
  gr_BG : up_ldpcBaseGraph pdu = get_BG (8 * up_tb_size pdu) R;
  gr_Qm : known_Qm (up_Qm pdu) = true;
  gr_share : share_params G (seg_C (tb_sizes (up_ldpcBaseGraph pdu) (8 * up_tb_size pdu))) (up_Qm pdu) (up_nrOfLayers pdu);
  gr_select : let td := td_of (up_Qm pdu) (up_ldpcBaseGraph pdu) (up_rv_index pdu) iterations (up_tbslbrm pdu) (8 * up_tb_size pdu) in
    selection_params (td_tbslbrm td) (td_BG td) (td_Z td) (td_C td) (td_rv_index td) /\
    bit_selection_start (td_tbslbrm td) (td_BG td) (td_Z td) (td_C td) (td_rv_index td) = Ret (Ncb, ind) /\ td_K td - 2 * td_Z td <= Ncb /\
    forall r, 0 <= r < td_C td -> share_ok llr td Ncb ind (share G (td_C td) (up_Qm pdu) (up_nrOfLayers pdu) r);
  gr_iter : 0 < iterations }.

(** the sizes for which the uplink has room *)
Record ul_room (pdu : ue_pusch_pdu) : Prop := {
  gr_payload : up_tb_size pdu + 4 <= MAX_NUM_NR_ULSCH_SEGMENTS_PER_LAYER * up_nrOfLayers pdu * 1056;
  gr_segments : seg_C (tb_sizes (up_ldpcBaseGraph pdu) (8 * up_tb_size pdu)) <= u16 (MAX_NUM_NR_ULSCH_SEGMENTS_PER_LAYER * up_nrOfLayers pdu) /\
    (up_rb_size pdu = 273 \/ seg_C (tb_sizes (up_ldpcBaseGraph pdu) (8 * up_tb_size pdu)) <=
      u16 (Z.quot (u16 (u16 (MAX_NUM_NR_ULSCH_SEGMENTS_PER_LAYER * up_nrOfLayers pdu) * up_rb_size pdu)) 273 + 1)) }.

Section uplink.
Context {enc dec} `{Hcodec : !ldpc_codec enc dec} (intel : bool) (T : crc_tables) (HT : tables_ok T).
Context (g : garbage) (Hg : garbage_ok g).
Context (llr : Z -> Z) (pdu : ue_pusch_pdu) (R G Ncb ind iterations : Z) (Hgr : grant_ok llr pdu R G Ncb ind iterations).

Local Abbreviation A := (8 * up_tb_size pdu).
Local Abbreviation BG := (up_ldpcBaseGraph pdu).
Local Abbreviation p := (tb_sizes BG A).
Local Abbreviation td := (td_of (up_Qm pdu) BG (up_rv_index pdu) iterations (up_tbslbrm pdu) A).

Lemma grant_BG : BG = 1 \/ BG = 2.
Proof using Hgr. rewrite (gr_BG _ _ _ _ _ _ _ Hgr). apply get_BG_cases. Qed.

Lemma grant_B : 0 < lenWithCrc 1 A < 2 ^ 31 /\ lenWithCrc 1 A mod (8 * segments_of BG (lenWithCrc 1 A)) = 0 /\ u32 (Z.shiftl (up_tb_size pdu) 3) = A.
Proof using Hgr.
  destruct (gr_size _ _ _ _ _ _ _ Hgr) as [Hsz [H1 H2 H3]]. rewrite <- (gr_BG _ _ _ _ _ _ _ Hgr) in H3. split; [|split; [done|]].
  - unfold lenWithCrc. cbn [Z.ltb Z.compare Pos.compare Pos.compare_cont]. destruct (NR_MAX_PDSCH_TBS <? A); lia.
  - rewrite Z.shiftl_mul_pow2, u32_small by lia. lia.
Qed.

(** the parameters are those of a segmentation *)
Lemma grant_coding Kprime L : segmented BG (lenWithCrc 1 A) p Kprime L -> 4 < Kprime -> Kprime mod 8 = 0 -> coding_ok td Ncb ind.
Proof using Hgr.
  intros Hs Hk4 Hk8. pose proof grant_BG as HBG. destruct grant_B as (HB & _ & _). destruct (gr_select _ _ _ _ _ _ _ Hgr) as (S1 & S2 & S3 & _).
  destruct (sg_F _ _ _ _ _ Hs) as [F1 F2]. pose proof (sg_punctured _ _ _ _ _ Hs Hk4). pose proof (gr_size _ _ _ _ _ _ _ Hgr) as [Hsz _].
  assert (HKF : td_K td - td_F td = Kprime) by (unfold td_of; cbn [td_K td_F]; lia).
  split; try done.
  - apply (sg_Zmax _ _ _ _ _ Hs).
  - apply (sg_K _ _ _ _ _ Hs).
  - unfold td_of. cbn [td_K td_F td_Z]. lia.
  - by rewrite HKF.
  - apply (sp_C256 _ _ _ _ (gr_share _ _ _ _ _ _ _ Hgr)).
  - apply (gr_Qm _ _ _ _ _ _ _ Hgr).
  - apply (gr_iter _ _ _ _ _ _ _ Hgr).
  - rewrite HKF. unfold td_of. cbn [td_C td_A]. eapply len_of_segments; (done || lia).
Qed.

(** ** The UE *)

Local Abbreviation C := (seg_C p).
Local Abbreviation share_r := (share G C (up_Qm pdu) (up_nrOfLayers pdu)).

(** where the coded bits of a segment start *)
Definition begin_of (r : nat) : Z := sumZ share_r (seqZ 0 (Z.of_nat r)).

(** the bits put out carry the segments of [tb] *)
Definition on_air (n : Z) (tb f : list Z) : Prop :=
  forall r, (r < Z.to_nat C)%nat -> exists blk, take (Z.to_nat n) blk = piece n tb r /\
    carries (dec := dec) g llr td Ncb (share_r (Z.of_nat r)) blk (drop (Z.to_nat (begin_of r)) f).

(** the buffers of the HARQ process *)
Record ue_ready (h : ue_harq) : Prop := {
  ur_payload : Forall byte_ok (uh_payload_AB h);
  ur_room : up_tb_size pdu + 3 <= zlen (uh_payload_AB h);
  ur_c : C <= zlen (uh_c h);
  ur_blocks : Forall (fun out => Forall byte_ok out /\ 1056 <= zlen out) (uh_c h);
  ur_f : G <= zlen (uh_f h) }.

(** what both sides know of the transport block *)
Record transport (n L : Z) (payload tb crcb rest : list Z) : Prop := {
  tr_seg : segmented BG (lenWithCrc 1 A) p (8 * (n + L)) (8 * L);
  tr_L : L = if 1 <? C then 3 else 0;
  tr_n : 0 <= n <= 1056;
  tr_bytes : C * n = lenWithCrc 1 A / 8;
  tr_room : lenWithCrc 1 A / 8 <= zlen tb;
  tr_crc : with_crc (crcType 1 A) (take (Z.to_nat (up_tb_size pdu)) payload) crcb rest tb }.

Lemma transport_coding n L payload tb crcb rest : transport n L payload tb crcb rest -> coding_ok td Ncb ind.
Proof using Hgr.
  intros [Hs HL Hn HCn Hroom _]. apply (grant_coding (8 * (n + L)) (8 * L) Hs).
  - pose proof (sg_max _ _ _ _ _ Hs). lia.
  - rewrite Z.mul_comm. apply Z.mod_mul. lia.
Qed.

Lemma take_map_seqZ {B} (f : Z -> B) (r : nat) m : Z.of_nat r <= m -> take r (map f (seqZ 0 m)) = map f (seqZ 0 (Z.of_nat r)).
Proof.
  intros H. replace m with (Z.of_nat r + (m - Z.of_nat r)) by lia. rewrite seqZ_app, map_app by lia. apply take_app_length'.
  rewrite length_map, length_seqZ. lia.
Qed.

Lemma sumZ_map {B} (f : B -> Z) l : sumZ id (map f l) = sumZ f l.
Proof. induction l as [|x l IH]; [done|]. cbn [map sumZ]. by rewrite IH. Qed.

(** the segments of a transport block with its CRC, coded by tasks in any order *)
Lemma blocks_carry tmp payload tb crcb rest seg0 c order output : length tmp = 8%nat -> Forall (fun b => zlen b = 68 * 384) tmp ->
  with_crc (crcType 1 A) (take (Z.to_nat (up_tb_size pdu)) payload) crcb rest tb -> up_tb_size pdu <= zlen payload -> lenWithCrc 1 A <= 8 * zlen tb ->
  C <= zlen c -> Forall (fun out => Forall byte_ok out /\ 1056 <= zlen out) c -> order ≡ₚ seqZ 0 (task_count C) -> G <= zlen output ->
  exists outs te f' n L, nr_segmentation intel T (Some (tb, c)) (lenWithCrc 1 A) seg0 BG = Ret (info_columns BG (lenWithCrc 1 A), p, outs) /\
    te = mk_tbe (up_Qm pdu) BG (up_rv_index pdu) (up_tbslbrm pdu) (u32 (info_columns BG (lenWithCrc 1 A))) (seg_K p) (seg_Zout p) (seg_F p) C
           (map share_r (seqZ 0 C)) (take (Z.to_nat C) outs) /\
    nrLDPC_prepare_TB_encoding enc tmp te order output = Ret f' /\ zlen f' = zlen output /\ transport n L payload tb crcb rest /\ on_air n tb f'.
Proof using Hgr HT Hg.
  intros Htmp Hbuf Hcrc Hzpay HBz U3 U4 Hperm U5. pose proof grant_BG as HBG. destruct grant_B as (HB & HBdiv & Hu32). destruct (gr_size _ _ _ _ _ _ _ Hgr) as [Hsz [Hf1 Hf2 Hf3]].
  pose proof (gr_share _ _ _ _ _ _ _ Hgr) as Hsp. pose proof (sp_C256 _ _ _ _ Hsp) as HC256. pose proof Hcrc as (_ & Hbtb & _).
  assert (HCs : segments_of BG (lenWithCrc 1 A) <= zlen c).
  { destruct (segmentation_sizes_ok intel T None (lenWithCrc 1 A) seg0 BG HBG HB) as (Kp & L0 & Hs & _). by rewrite <- (segmented_count _ _ _ _ _ HBG HB Hs). }
  destruct (segmentation_contents intel T BG (lenWithCrc 1 A) seg0 tb c HT HBG HB HBdiv Hbtb HBz HCs U4)
    as (n & L & outs & Hs & Eseg & Hn & HL & HCn & _ & Hroom & Hlen & Hsegs). fold (tb_sizes BG A) in *.
  assert (Htr : transport n L payload tb crcb rest) by (split; try done; apply Z.div_le_upper_bound; lia).
  pose proof (transport_coding _ _ _ _ _ _ Htr) as Hok.
  set (te := mk_tbe (up_Qm pdu) BG (up_rv_index pdu) (up_tbslbrm pdu) (u32 (info_columns BG (lenWithCrc 1 A))) (seg_K p) (seg_Zout p) (seg_F p) C
               (map share_r (seqZ 0 C)) (take (Z.to_nat C) outs)).
  assert (Hsame : same_coding te td) by (split; done).
  assert (Hblocks : forall r, (r < Z.to_nat C)%nat -> exists out', te_c te !! r = Some out' /\ code_block td (take (Z.to_nat (td_K td / 8)) out') /\
    td_K td / 8 <= zlen out' /\ take (Z.to_nat n) out' = piece n tb r).
  { intros r Hr. destruct (lookup_lt_is_Some_2 c r) as [out Hout]; [unfold zlen in U3; lia|].
    destruct (proj1 (Forall_lookup _ _) Hroom _ _ Hout) as [Rb Rl _].
    specialize (Hsegs (Z.of_nat r) out ltac:(by rewrite Nat2Z.id) ltac:(lia)). rewrite bool_decide_eq_true_2, Nat2Z.id in Hsegs by lia. destruct Hsegs as (out' & Ho' & Hso).
    exists out'. split; [unfold te; cbn [te_c]; by rewrite lookup_take_lt by lia|].
    assert (Hdz : 8 * zlen (take (Z.to_nat (up_tb_size pdu)) (payload)) = A) by (rewrite zlen_take; lia).
    assert (Hrm : lenWithCrc 1 A / 8 <= zlen tb) by (apply Z.div_le_upper_bound; lia).
    eapply (segment_is_block (up_Qm pdu) BG (up_rv_index pdu) iterations (up_tbslbrm pdu) A n L tb crcb _ rest HBG HB ltac:(lia) Hs HL ltac:(lia) HCn Hcrc Hdz Hrm r out out'); (done || lia). }
  assert (HlenE : length (te_E te) = Z.to_nat (td_C td)) by (unfold te; cbn [te_E]; rewrite length_map, length_seqZ; done).
  assert (Hshare : forall r, (r < Z.to_nat C)%nat -> share_of te r = share_r (Z.of_nat r)).
  { intros r Hr. unfold share_of, te. cbn [te_E]. apply list_lookup_total_correct. rewrite list_lookup_fmap, lookup_seqZ_lt by lia. simpl. f_equal. }
  assert (Hstart : forall r, (r <= Z.to_nat C)%nat -> start_of te r = begin_of r).
  { intros r Hr. unfold start_of, begin_of, te. cbn [te_E]. rewrite take_map_seqZ, sumZ_map by lia. done. }
  assert (Htotal : begin_of (Z.to_nat C) = G).
  { unfold begin_of. rewrite Z2Nat.id by lia. destruct Hsp as [P1 P2 P3 P4 P5 P6]. apply shares_sum; (done || lia). }
  assert (Ht : transport_ok llr te td Ncb ind).
  { destruct (gr_select _ _ _ _ _ _ _ Hgr) as (_ & _ & _ & Hshok). split.
    - done.
    - unfold te. cbn [te_c td_C td_of]. rewrite length_take. unfold zlen in *. cbn [td_C]. lia.
    - intros r Hr. rewrite Hshare by done. apply Hshok. cbn [td_C td_of]. cbn [td_C td_of] in Hr. lia.
    - intros r Hr. destruct (Hblocks r Hr) as (out' & Ho' & _ & Hz & _). by rewrite (list_lookup_total_correct _ _ _ Ho').
    - intros r Hr. destruct (Hblocks r Hr) as (out' & Ho' & Hcb & _ & _). unfold block_of. by rewrite (list_lookup_total_correct _ _ _ Ho').
    - change (Z.to_nat (td_C td)) with (Z.to_nat C). rewrite Hstart, Htotal by lia. apply (sp_G _ _ _ _ Hsp). }
  destruct (encoding_carries g Hg llr te td Ncb ind Hsame Hok Ht tmp Htmp Hbuf order output Hperm) as (f' & Ef & Hzf & Hcar).
  { change (Z.to_nat (td_C td)) with (Z.to_nat C). rewrite Hstart, Htotal by lia. done. }
  exists outs, te, f', n, L. split_and!; try done.
  - intros r Hr. specialize (Hcar r Hr). unfold carried in Hcar. rewrite Hshare, Hstart in Hcar by lia. destruct (Hblocks r Hr) as (out' & Ho' & _ & Hz & Hp).
    exists (block_of te td r). split; [|done]. unfold block_of. rewrite (list_lookup_total_correct _ _ _ Ho'), take_take.
    pose proof (K_minus_F (up_Qm pdu) BG (up_rv_index pdu) iterations (up_tbslbrm pdu) A n L Hs) as (_ & _ & _ & HnL). rewrite Nat.min_l by (destruct (1 <? C); lia). done.
Qed.

Lemma ue_encodes tmp h order : ul_room pdu -> length tmp = 8%nat -> Forall (fun b => zlen b = 68 * 384) tmp -> ue_ready h -> order ≡ₚ seqZ 0 (task_count C) ->
  exists tb0 te h' f' n L tb crcb rest, ulsch_segment intel T pdu h = Ret (Some tb0, h') /\ uh_f h' = uh_f h /\ ulsch_shares G pdu tb0 = Ret te /\
    nrLDPC_prepare_TB_encoding enc tmp te order (uh_f h) = Ret f' /\ zlen f' = zlen (uh_f h) /\
    transport n L (uh_payload_AB h) tb crcb rest /\ on_air n tb f'.
Proof using Hgr HT Hg.
  intros [Hpay Hsegm] Htmp Hbuf [U1 U2 U3 U4 U5] Hperm. destruct grant_B as (HB & HBdiv & Hu32). destruct (gr_size _ _ _ _ _ _ _ Hgr) as [Hsz [Hf1 Hf2 Hf3]].
  pose proof (gr_share _ _ _ _ _ _ _ Hgr) as Hsp. pose proof (sp_C256 _ _ _ _ Hsp) as HC256.
  destruct (attach_crc_ok intel T (MAX_NUM_NR_ULSCH_SEGMENTS_PER_LAYER * up_nrOfLayers pdu * 1056) A (uh_payload_AB h) HT) as (tb & crcb & rest & Hatt & Hztb & Hcrc); try done; try lia.
  { rewrite mul8_div. lia. } { by rewrite mul8_div. }
  rewrite mul8_div in Hcrc.
  assert (HBz : lenWithCrc 1 A <= 8 * zlen tb) by (unfold lenWithCrc; cbn [Z.ltb Z.compare Pos.compare Pos.compare_cont]; destruct (NR_MAX_PDSCH_TBS <? A); lia).
  destruct (blocks_carry tmp (uh_payload_AB h) tb crcb rest (uh_seg h) (uh_c h) order (uh_f h)) as (outs & te & f' & n & L & Eseg & Ete & Ef & Hzf & Htr & Hair); try done; [lia|].
  assert (HCu : C <= MAX_NUM_NR_DLSCH_SEGMENTS_PER_LAYER * up_nrOfLayers pdu).
  { destruct Hsegm as [Hseg _]. unfold u16, MAX_NUM_NR_ULSCH_SEGMENTS_PER_LAYER, MAX_NUM_NR_DLSCH_SEGMENTS_PER_LAYER in *.
    pose proof (sp_Nl _ _ _ _ Hsp). pose proof (Z.mod_le (34 * up_nrOfLayers pdu) (2 ^ 16) ltac:(lia) ltac:(lia)). lia. }
  exists (mk_tbe (up_Qm pdu) BG (up_rv_index pdu) (up_tbslbrm pdu) (u32 (info_columns BG (lenWithCrc 1 A))) (seg_K p) (seg_Zout p) (seg_F p) C [] outs), te,
    (mk_ue_harq tb outs (uh_f h) BG p), f', n, L, tb, crcb, rest. split_and!; try done.
  - unfold ulsch_segment, attach_tb_crc. rewrite Hu32, Hatt, bind_Ret_l, Eseg, bind_Ret_l. by rewrite (proj2 (Z.ltb_ge _ _)) by done.
  - unfold ulsch_shares. cbn [te_C te_Qm te_BG te_rv_index te_tbslbrm te_Kb te_K te_Z te_F te_c]. rewrite segment_shares_ok by (done || lia).
    by rewrite bind_Ret_l, Z2Nat.id, Ete by lia.
Qed.

(** ** The gNB *)

(** No soft value of an earlier transport block is left in the part of the buffer that
    the circular buffer of this grant does not reach. The rate matching clears the first
    [Ncb] values only, and the decoder reads all of them; with the full buffer (no
    limited buffer rate matching, [Ncb] all the columns) nothing is asked. *)
Definition no_stale_bits (d : list Z) : Prop := forall i, Ncb <= i < columns BG * td_Z td -> at_pos d i = 0.

(** the ULSCH is the one of the grant, for new data ([gn_first], as [nr_fill_ulsch] sets
    it from the new data indicator), with buffers that are large enough and no stale
    soft bits *)
Record gnb_ready (u : gnb_ulsch) : Prop := {
  gn_pdu : gu_pdu u = mk_gnb_pdu (up_rb_size pdu) (up_Qm pdu) (up_nrOfLayers pdu) (up_tb_size pdu) BG (up_rv_index pdu) (up_tbslbrm pdu);
  gn_iter : gu_max_ldpc_iterations u = iterations;
  gn_G : gu_G u = G;
  gn_first : gh_harq_to_be_cleared (gu_harq u) = true;
  gn_clear : C <= zlen (gh_d_to_be_cleared (gu_harq u));
  gn_d : C <= zlen (gh_d (gu_harq u)) /\ Forall (fun d => columns BG * td_Z td <= zlen d /\ no_stale_bits d) (take (Z.to_nat C) (gh_d (gu_harq u)));
  gn_c : C <= zlen (gh_c (gu_harq u)) /\ Forall (fun c => td_K td / 8 <= zlen c) (take (Z.to_nat C) (gh_c (gu_harq u)));
  gn_b : Forall byte_ok (gh_b (gu_harq u)) /\ lenWithCrc 1 A / 8 <= zlen (gh_b (gu_harq u)) }.

Lemma begin_succ r : begin_of (S r) = begin_of r + share_r (Z.of_nat r).
Proof using.
  unfold begin_of. replace (Z.of_nat (S r)) with (Z.of_nat r + 1) by lia. rewrite seqZ_app, sumZ_app by lia.
  change (seqZ (0 + Z.of_nat r) 1) with [0 + Z.of_nat r]. cbn [sumZ]. rewrite Z.add_0_l. lia.
Qed.

Lemma begin_range n L payload tb crcb rest r : transport n L payload tb crcb rest -> (r <= Z.to_nat C)%nat -> 0 <= begin_of r <= G.
Proof using Hgr.
  intros Htr Hr. pose proof (transport_coding _ _ _ _ _ _ Htr) as Hok. pose proof (coding_bounds td Ncb ind Hok) as Hcb.
  destruct (gr_select _ _ _ _ _ _ _ Hgr) as (_ & _ & _ & Hsh). pose proof (gr_share _ _ _ _ _ _ _ Hgr) as [P1 P2 P3 P4 P5 P6].
  assert (Hpos : forall r, 0 <= r < C -> 0 <= share_r r) by (intros x Hx; pose proof (sh_range _ _ _ _ _ (Hsh x Hx)) as Hr0; change (td_C td) with C in Hr0; lia).
  assert (Hmono : forall m, (r + m <= Z.to_nat C)%nat -> begin_of r <= begin_of (r + m)).
  { induction m as [|m IH]; intros Hm; [rewrite Nat.add_0_r; lia|]. rewrite Nat.add_succ_r, begin_succ. specialize (IH ltac:(lia)). specialize (Hpos (Z.of_nat (r + m)) ltac:(lia)). lia. }
  assert (H0 : forall m, (m <= Z.to_nat C)%nat -> 0 <= begin_of m).
  { induction m as [|m IH]; intros Hm; [done|]. rewrite begin_succ. specialize (IH ltac:(lia)). specialize (Hpos (Z.of_nat m) ltac:(lia)). lia. }
  split; [by apply H0|]. specialize (Hmono (Z.to_nat C - r)%nat ltac:(lia)). replace (r + (Z.to_nat C - r))%nat with (Z.to_nat C) in Hmono by lia.
  unfold begin_of in Hmono at 2. rewrite Z2Nat.id, shares_sum in Hmono by (done || lia). done.
Qed.

Lemma get_R_returns rv E Z llrLen round : 0 <= rv <= 3 -> BG = 1 \/ BG = 2 -> exists x, nr_get_R_ldpc_decoder rv E BG Z llrLen round = Ret x.
Proof using.
  intros Hrv HBG. unfold nr_get_R_ldpc_decoder. assert (Hc : rv = 0 \/ rv = 1 \/ rv = 2 \/ rv = 3) by lia.
  destruct HBG as [-> | ->], Hc as [-> | [-> | [-> | ->]]]; cbn [Z.eqb Pos.eqb orb negb]; eexists; reflexivity.
Qed.

(** the buffers of the receiver, all to be cleared *)
Record rx_ready (ds : list (list Z)) (clears : list bool) (cs : list (list Z)) : Prop := {
  rx_clear : forall r, (r < Z.to_nat C)%nat -> clears !! r = Some true;
  rx_d : C <= zlen ds /\ Forall (fun d => columns BG * td_Z td <= zlen d /\ no_stale_bits d) (take (Z.to_nat C) ds);
  rx_c : C <= zlen cs /\ Forall (fun c => td_K td / 8 <= zlen c) (take (Z.to_nat C) cs) }.

Lemma build_ok n L payload tb crcb rest ds clears cs rx round rounds : transport n L payload tb crcb rest -> rx_ready ds clears cs ->
  forall r llrLen, (r + rounds <= Z.to_nat C)%nat ->
  exists ss llrLen', build_segments rounds (Z.of_nat r) (begin_of r) td G (up_nrOfLayers pdu) round llrLen rx ds clears cs = Ret (ss, llrLen') /\
    length ss = rounds /\ forall i s, ss !! i = Some s -> sd_E s = share_r (Z.of_nat (r + i)) /\ sd_llr s = drop (Z.to_nat (begin_of (r + i))) rx /\
      segment_ready td Ncb s.
Proof using Hgr.
  intros Htr Hu. pose proof (gr_share _ _ _ _ _ _ _ Hgr) as Hsp. pose proof (sp_C256 _ _ _ _ Hsp) as HC. pose proof (sp_G _ _ _ _ Hsp) as HG.
  destruct (gr_select _ _ _ _ _ _ _ Hgr) as ([_ Hrv _ _ _] & _ & _ & Hsh). pose proof (coding_bounds td Ncb ind (transport_coding _ _ _ _ _ _ Htr)) as Hcb.
  induction rounds as [|rounds IH]; intros r llrLen Hr; cbn [build_segments].
  { exists [], llrLen. split_and!; [done..|]. intros i s Hi. done. }
  unfold u8. change (td_C td) with C. change (td_Qm td) with (up_Qm pdu). rewrite (Z.mod_small C), (Z.mod_small (Z.of_nat r)) by lia.
  rewrite share_eq, bind_Ret_l by (done || lia). change (td_rv_index td) with (up_rv_index pdu) in *. change (td_BG td) with BG.
  destruct (get_R_returns (up_rv_index pdu) (share_r (Z.of_nat r)) (td_Z td) llrLen round Hrv grant_BG) as [[R' ll'] ->]. rewrite bind_Ret_l, Nat2Z.id.
  destruct Hu as [Hcl [Hd1 Hd2] [Hc1 Hc2]].
  destruct (lookup_lt_is_Some_2 ds r) as [d Hd]; [unfold zlen in *; lia|]. pose proof (Hcl r ltac:(lia)) as Hclr.
  destruct (lookup_lt_is_Some_2 cs r) as [c Hc]; [unfold zlen in *; lia|]. rewrite Hd, Hclr, Hc.
  assert (Hd' : take (Z.to_nat C) ds !! r = Some d) by (by rewrite lookup_take_lt by lia). assert (Hc' : take (Z.to_nat C) cs !! r = Some c) by (by rewrite lookup_take_lt by lia).
  pose proof (begin_range _ _ _ _ _ _ r Htr ltac:(lia)) as Hb. pose proof (begin_range _ _ _ _ _ _ (S r) Htr ltac:(lia)) as Hb'. pose proof (begin_succ r) as Hs.
  rewrite u32_small, <- Hs by lia. replace (Z.of_nat r + 1) with (Z.of_nat (S r)) by lia.
  destruct (IH (S r) ll' ltac:(lia)) as (ss & ll2 & E1 & E2 & E3). rewrite E1, bind_Ret_l. eexists (_ :: ss), ll2. split; [done|]. split; [simpl; lia|].
  intros [|i] s Hi; [|rewrite <- Nat.add_succ_comm; by apply E3]. injection Hi as <-. rewrite Nat.add_0_r. split_and!; [done..|].
  destruct (proj1 (Forall_lookup _ _) Hd2 _ _ Hd') as [D1 D2]. split; cbn [sd_clear sd_d sd_c]; [done|done|done|by apply (proj1 (Forall_lookup _ _) Hc2 _ _ Hc')].
Qed.

Lemma received_from off E E' f rx : received llr E' f rx -> 0 <= off -> 0 <= E -> off + E <= E' ->
  received llr E (drop (Z.to_nat off) f) (drop (Z.to_nat off) rx).
Proof using.
  intros [H1 H2] Ho HE Hle. split; [rewrite zlen_drop; lia|]. intros q Hq. rewrite !at_pos_drop by lia. apply H2. lia.
Qed.

(** every task succeeds *)
Lemma decode_segments_ok ss : forall r n tb, 
  (forall i s, ss !! i = Some s -> exists s', nr_process_decode_segment dec g td s = Ret s' /\ sd_success s' = true /\
    take (Z.to_nat n) (sd_c s') = piece n tb (r + i) /\ n <= zlen (sd_c s')) ->
  exists ss', decode_segments dec g td ss = Ret ss' /\ length ss' = length ss /\ count_processed ss' = zlen ss /\
    forall i s', ss' !! i = Some s' -> sd_success s' = true /\ take (Z.to_nat n) (sd_c s') = piece n tb (r + i) /\ n <= zlen (sd_c s').
Proof using.
  induction ss as [|s ss IH]; intros r n tb H; cbn [decode_segments]; [by exists []|].
  destruct (H 0%nat s eq_refl) as (s' & E1 & E2 & E3 & E4). rewrite E1, bind_Ret_l.
  destruct (IH (S r) n tb) as (ss' & F1 & F2 & F3 & F4). { intros i x Hi. destruct (H (S i) x Hi) as (x' & ?). exists x'. by rewrite Nat.add_succ_comm. }
  rewrite F1, bind_Ret_l. exists (s' :: ss'). split_and!; [done|simpl; lia| |].
  - unfold count_processed in *. cbn [sumZ]. rewrite E2, F3, zlen_cons. done.
  - intros [|i] x Hi; [|rewrite <- Nat.add_succ_comm; by apply F4]. injection Hi as <-. rewrite Nat.add_0_r in *. done.
Qed.

Lemma segment_bytes_eq n L payload tb crcb rest : transport n L payload tb crcb rest -> segment_bytes p = n.
Proof using.
  intros [Hs HL Hn _ _ _]. unfold segment_bytes. rewrite !shiftr3, <- HL. destruct (sg_F _ _ _ _ _ Hs) as [-> F2].
  replace (seg_K p - 8 * (n + L)) with (seg_K p + (- (n + L)) * 8) by lia. rewrite Z.div_add by lia. rewrite u32_small by lia. lia.
Qed.

Lemma piece_at_pos n tb r q : 0 <= n -> 0 <= q < n -> at_pos (piece n tb r) q = at_pos tb (Z.of_nat r * n + q).
Proof using. intros Hn Hq. unfold piece. rewrite at_pos_take, at_pos_drop by (lia || nia). done. Qed.

Lemma collect_ok n L payload tb crcb rest ss : transport n L payload tb crcb rest -> forall r b, 
  (forall i s, ss !! i = Some s -> sd_success s = true /\ take (Z.to_nat n) (sd_c s) = piece n tb (r + i) /\ n <= zlen (sd_c s)) ->
  Z.of_nat (r + length ss) * n <= zlen b -> Z.of_nat (r + length ss) * n < 2 ^ 31 ->
  exists b', collect_segments ss p (Z.of_nat r * n) b = Ret b' /\ zlen b' = zlen b /\
    forall q, 0 <= q -> at_pos b' q = if bool_decide (Z.of_nat r * n <= q < Z.of_nat (r + length ss) * n) then at_pos tb q else at_pos b q.
Proof using.
  intros Htr. pose proof (segment_bytes_eq _ _ _ _ _ _ Htr) as Hsb. pose proof (tr_n _ _ _ _ _ _ Htr) as Hn.
  induction ss as [|s ss IH]; intros r b Hss Hzb Hw; cbn [collect_segments].
  { exists b. split_and!; [done..|]. intros q Hq. rewrite bool_decide_eq_false_2; [done|]. simpl. rewrite Nat.add_0_r. lia. }
  cbn [length] in *. destruct (Hss 0%nat s eq_refl) as (S1 & S2 & S3). rewrite Nat.add_0_r in S2. rewrite S1, Hsb.
  assert (0 <= Z.of_nat r * n) by nia. assert (Hnext : Z.of_nat (S r) * n = Z.of_nat r * n + n) by lia.
  assert (Hnle : Z.of_nat (S r) * n <= Z.of_nat (r + S (length ss)) * n) by nia.
  rewrite mem_read_ok, drop_0, bind_Ret_l, S2 by lia.
  assert (Hzp : zlen (piece n tb r) = n) by (rewrite <- S2, zlen_take; lia).
  destruct (mem_write_at b (Z.of_nat r * n) (piece n tb r)) as (b1 & W1 & W2 & W3); [lia|lia|]. rewrite W1, bind_Ret_l.
  rewrite u32_small by lia. rewrite <- Hnext.
  destruct (IH (S r) b1) as (b' & E1 & E2 & E3). { intros i x Hi. rewrite Nat.add_succ_comm. by apply Hss. }
  { replace (S r + length ss)%nat with (r + S (length ss))%nat by lia. lia. } { replace (S r + length ss)%nat with (r + S (length ss))%nat by lia. lia. }
  exists b'. split_and!; [done|lia|]. intros q Hq. rewrite E3, W3, Hzp by done. replace (S r + length ss)%nat with (r + S (length ss))%nat by lia.
  destruct (decide (Z.of_nat (S r) * n <= q < Z.of_nat (r + S (length ss)) * n)).
  - rewrite !bool_decide_eq_true_2 by lia. done.
  - rewrite bool_decide_eq_false_2 by done. destruct (decide (Z.of_nat r * n <= q < Z.of_nat r * n + n)).
    + rewrite (proj2 (Z.leb_le _ q)), (proj2 (Z.ltb_lt q _)) by lia. cbn [andb]. rewrite bool_decide_eq_true_2, piece_at_pos by lia. f_equal. lia.
    + rewrite bool_decide_eq_false_2 by lia. destruct ((_ <=? q) && (q <? _)) eqn:Hx; [bool_prop; lia|done].
Qed.

(** an ULSCH goes through the steps of the slot *)
Definition decodes (u u' : gnb_ulsch) : Prop :=
  exists u1 tb ss u2 ss' k, ulsch_parameters u = Ret (true, u1, tb) /\ ulsch_segments u1 tb = Ret (Some (ss, u2)) /\
    nrLDPC_decode_TB dec g tb ss = Ret (ss', k) /\ ulsch_finish u2 ss' k = Ret u'.

(** the transport block is there and is accepted *)
Definition delivered (payload : list Z) (u : gnb_ulsch) : Prop :=
  take (Z.to_nat (up_tb_size pdu)) (gh_b (gu_harq u)) = take (Z.to_nat (up_tb_size pdu)) payload /\
  ulsch_crc_valid intel T (gu_harq u) = Ret true.

Lemma gnb_parameters u : ul_room pdu -> gnb_ready u -> ulsch_parameters u =
  Ret (true, u <| gu_harq ::= (fun h => h <| gh_TBS := up_tb_size pdu |> <| gh_seg := p |>) |>, td).
Proof using Hgr.
  intros [_ Hsegm] [Hp Hi _ _ _ _ _ _]. destruct u as [pd it hq ll g0]. cbn [gu_pdu gu_max_ldpc_iterations] in Hp, Hi. subst pd it. unfold ulsch_parameters. cbn [gu_pdu gp_tb_size gp_ldpcBaseGraph gp_nrOfLayers gp_Qm gp_rv_index gp_tbSizeLbrmBytes gp_rb_size].
  destruct grant_B as (HB & _ & Hu32). rewrite Hu32.
  destruct (segmentation_sizes_ok false zero_tables None (lenWithCrc 1 A) (mk_segmentation 0 0 0 0) BG grant_BG HB) as (Kp & L0 & _ & ->).
  rewrite !bind_Ret_l. fold p. destruct Hsegm as [H1 H2]. rewrite (proj2 (Z.ltb_ge _ _)) by done.
  destruct (Z.eqb_spec (up_rb_size pdu) 273) as [He|He]; [by rewrite (proj2 (Z.ltb_ge _ _)) by done|].
  destruct H2 as [|H2]; [done|]. by rewrite (proj2 (Z.ltb_ge _ _)) by done.
Qed.

Lemma full_block n L payload tb crcb rest b b' : transport n L payload tb crcb rest -> zlen b' = zlen b -> lenWithCrc 1 A / 8 <= zlen b ->
  (forall q, 0 <= q -> at_pos b' q = if bool_decide (0 <= q < C * n) then at_pos tb q else at_pos b q) ->
  b' = take (Z.to_nat (C * n)) tb ++ drop (Z.to_nat (C * n)) b.
Proof using.
  intros [Hs HL Hn HCn Hroom _] Hz Hzb Hat. assert (HC0 : 0 < C) by (eapply seg_C_pos; exact Hs). assert (0 <= C * n) by nia.
  apply list_eq_at; [rewrite zlen_app, zlen_take, zlen_drop; lia|]. intros i Hi. rewrite Hat by lia. rewrite at_pos_app, zlen_take by lia. rewrite Z2Nat.id, Z.min_l by lia.
  destruct (Z.ltb_spec i (C * n)).
  - rewrite bool_decide_eq_true_2, at_pos_take by lia. done.
  - rewrite bool_decide_eq_false_2, at_pos_drop by lia. f_equal. lia.
Qed.

(** the transport block with its CRC *)
Lemma block_prefix n L payload tb crcb rest : transport n L payload tb crcb rest -> up_tb_size pdu <= zlen payload ->
  take (Z.to_nat (C * n)) tb = take (Z.to_nat (up_tb_size pdu)) payload ++ crcb /\ zlen (take (Z.to_nat (up_tb_size pdu)) payload) = up_tb_size pdu /\
  C * n = up_tb_size pdu + crc_len (crcType 1 A) /\ Forall byte_ok (take (Z.to_nat (C * n)) tb).
Proof using Hgr.
  intros [Hs HL Hn HCn Hroom (Etb & Hb & k & Hk & Hzc & Hrem)] Hzp. destruct (gr_size _ _ _ _ _ _ _ Hgr) as [Hsz _].
  assert (Hzd : zlen (take (Z.to_nat (up_tb_size pdu)) payload) = up_tb_size pdu) by (rewrite zlen_take; lia).
  assert (HCn' : C * n = up_tb_size pdu + crc_len (crcType 1 A)).
  { rewrite HCn, lenWithCrc_one. replace (A + 8 * crc_len (crcType 1 A)) with (8 * (up_tb_size pdu + crc_len (crcType 1 A))) by lia. apply mul8_div. }
  split_and!; [|done|done|by apply Forall_take]. rewrite Etb, app_assoc. apply take_app_length'. rewrite length_app. unfold zlen in *. lia.
Qed.

(** a transport block of several segments put together passes the check of its CRC *)
Lemma block_crc_checks n L payload tb crcb rest b : transport n L payload tb crcb rest -> up_tb_size pdu <= zlen payload -> Forall byte_ok b -> 1 < C ->
  check_crc intel T (take (Z.to_nat (C * n)) tb ++ drop (Z.to_nat (C * n)) b) (lenWithCrc 1 A) (crcType 1 A) = Ret true.
Proof using Hgr HT.
  intros Htr Hzp Hbb HC1. destruct (block_prefix _ _ _ _ _ _ Htr Hzp) as (Hpre & Hzd & HCn & Hbt). set (data := take (Z.to_nat (up_tb_size pdu)) payload) in *.
  pose proof Htr as [Hs HL Hn HCn' Hroom (Etb & Hb & k & Hk & Hzc & Hrem)]. fold data in Etb, Hrem. destruct (gr_size _ _ _ _ _ _ _ Hgr) as [Hsz [_ HA _]]. destruct grant_B as (HB & _ & _).
  rewrite lenWithCrc_one. replace (A + 8 * crc_len (crcType 1 A)) with (8 * (zlen data + crc_len (crcType 1 A))) by lia.
  rewrite Hpre, <- app_assoc. destruct (crc_len_width _ _ Hk) as [_ Hcl].
  apply (attached_crc_checks intel T (crcType 1 A) k data crcb _ (be crcb)); try done.
  - rewrite app_assoc, <- Hpre. apply Forall_app. split; [done|by apply Forall_drop].
  - lia.
  - intros _ _ _. assert (Hlarge : max_block BG < lenWithCrc 1 A).
    { destruct (Z.le_gt_cases (lenWithCrc 1 A) (max_block BG)) as [Hle|]; [|lia]. destruct (sg_one _ _ _ _ _ Hs Hle). lia. }
    pose proof (several_large BG A grant_BG Hlarge) as HL24. assert (3840 <= max_block BG) by (unfold max_block; destruct (BG =? 1); lia).
    unfold readable. rewrite (proj2 (Z.leb_gt _ _)) by lia. rewrite !zlen_app. pose proof (zlen_nonneg crcb). pose proof (zlen_nonneg (drop (Z.to_nat (C * n)) b)). lia.
Qed.

Lemma delivered_ok n L payload tb crcb rest u : transport n L payload tb crcb rest -> up_tb_size pdu <= zlen payload ->
  gh_seg (gu_harq u) = p -> gh_TBS (gu_harq u) = up_tb_size pdu -> gh_processedSegments (gu_harq u) = C ->
  (exists b, Forall byte_ok b /\ gh_b (gu_harq u) = take (Z.to_nat (C * n)) tb ++ drop (Z.to_nat (C * n)) b) -> delivered payload u.
Proof using Hgr HT.
  intros Htr Hzp Hseg Htbs Hproc (b & Hbb & Hgb). destruct (block_prefix _ _ _ _ _ _ Htr Hzp) as (Hpre & Hzd & _ & _). split.
  - rewrite Hgb, Hpre, <- app_assoc. apply take_app_length'. unfold zlen in *. lia.
  - unfold ulsch_crc_valid. rewrite Hproc, Hseg, Htbs, Z.eqb_refl. destruct (Z.ltb_spec 1 C) as [HC1|]; [|done]. destruct grant_B as (_ & _ & ->).
    rewrite Hgb. by eapply block_crc_checks.
Qed.

(** the segments of a transport block decoded and put together *)
Lemma segments_decoded n L payload tb crcb rest f rx ds clears cs round llrLen b : transport n L payload tb crcb rest -> on_air n tb f ->
  rx_ready ds clears cs -> received llr G f rx -> lenWithCrc 1 A / 8 <= zlen b ->
  exists ss llrLen' ss', build_segments (Z.to_nat C) 0 0 td G (up_nrOfLayers pdu) round llrLen rx ds clears cs = Ret (ss, llrLen') /\
    nrLDPC_decode_TB dec g td ss = Ret (ss', C) /\ collect_segments ss' p 0 b = Ret (take (Z.to_nat (C * n)) tb ++ drop (Z.to_nat (C * n)) b).
Proof using Hgr HT.
  intros Htr Hair Hrd Hrec Hzb. pose proof (gr_share _ _ _ _ _ _ _ Hgr) as Hsp. pose proof (sp_C256 _ _ _ _ Hsp) as HC.
  destruct (build_ok _ _ _ _ _ _ ds clears cs rx round (Z.to_nat C) Htr Hrd 0%nat llrLen ltac:(lia)) as (ss & ll & B1 & B2 & B3).
  change (Z.of_nat 0) with 0 in B1. change (begin_of 0) with 0 in B1.
  pose proof (K_minus_F (up_Qm pdu) BG (up_rv_index pdu) iterations (up_tbslbrm pdu) A n L (tr_seg _ _ _ _ _ _ Htr)) as (_ & _ & _ & HnL).
  pose proof (tr_n _ _ _ _ _ _ Htr) as Hn. pose proof (tr_L _ _ _ _ _ _ Htr) as HL.
  assert (Hnroom : C * n <= zlen tb) by (rewrite (tr_bytes _ _ _ _ _ _ Htr); apply (tr_room _ _ _ _ _ _ Htr)).
  destruct (decode_segments_ok ss 0%nat n tb) as (ss' & D1 & D2 & D3 & D4).
  { intros i s Hi. assert (Hlt : (i < Z.to_nat C)%nat) by (rewrite <- B2; by eapply lookup_lt_Some). destruct (B3 i s Hi) as (E1 & E2 & E3). simpl in E1, E2.
    destruct (Hair i Hlt) as (blk & Hblk & Hcar). pose proof (begin_range _ _ _ _ _ _ i Htr ltac:(lia)) as Hbi.
    pose proof (begin_range _ _ _ _ _ _ (S i) Htr ltac:(lia)) as Hbs. rewrite begin_succ in Hbs.
    destruct (gr_select _ _ _ _ _ _ _ Hgr) as (_ & _ & _ & Hsh). pose proof (sh_range _ _ _ _ _ (Hsh (Z.of_nat i) ltac:(change (td_C td) with C; lia))) as Hrg.
    change (td_C td) with C in Hrg. pose proof (coding_bounds td Ncb ind (transport_coding _ _ _ _ _ _ Htr)) as Hcb.
    destruct (Hcar (sd_llr s) s) as (s' & P1 & P2 & P3); [rewrite E2; apply (received_from _ _ G); (done || lia)|done..|].
    exists s'. assert (Htk : take (Z.to_nat n) (sd_c s') = piece n tb i).
    { rewrite <- Hblk, <- P3, take_take. f_equal. destruct (1 <? C); lia. }
    split_and!; [done|done|done|]. assert (Hzpc : zlen (piece n tb i) = n).
    { unfold piece. rewrite zlen_take, zlen_drop. assert (Z.of_nat i * n + n <= C * n) by nia. assert (0 <= Z.of_nat i * n) by nia. lia. }
    rewrite <- Htk, zlen_take in Hzpc. lia. }
  assert (Hlen : length ss' = Z.to_nat C) by lia. pose proof (tr_bytes _ _ _ _ _ _ Htr) as HCn. pose proof grant_B as (HB & _ & _).
  assert (HCnw : C * n < 2 ^ 31) by (rewrite HCn; apply Z.div_lt_upper_bound; lia).
  destruct (collect_ok _ _ _ _ _ _ ss' Htr 0%nat b) as (b' & C1 & C2 & C3).
  { intros i s Hi. by apply D4. } { rewrite Hlen. simpl. rewrite Z2Nat.id by lia. lia. } { rewrite Hlen. simpl. rewrite Z2Nat.id by lia. lia. }
  rewrite Hlen in C3. change (Z.of_nat 0 * n) with 0 in C1, C3. change (0 + Z.to_nat C)%nat with (Z.to_nat C) in C3. rewrite Z2Nat.id in C3 by lia.
  pose proof (full_block _ _ _ _ _ _ b b' Htr C2 ltac:(lia) C3) as Hb'.
  exists ss, ll, ss'. split_and!; [done| |by rewrite C1, Hb'].
  unfold nrLDPC_decode_TB. change (td_C td) with C. rewrite take_ge by lia. rewrite D1, bind_Ret_l, D3. do 2 f_equal. unfold zlen. lia.
Qed.

Lemma gnb_decodes n L payload tb crcb rest f rx u : ul_room pdu -> transport n L payload tb crcb rest -> up_tb_size pdu <= zlen payload -> on_air n tb f ->
  gnb_ready u -> gu_llr u = Some rx -> received llr G f rx -> exists u', decodes u u' /\ delivered payload u'.
Proof using Hgr HT.
  intros Hroom Htr Hzp Hair Hu Hrx Hrec. pose proof (gnb_parameters u Hroom Hu) as Hpar. pose proof Hu as [Hpdu Hit HG Hfirst Hcl [Hd1 Hd2] [Hc1 Hc2] [Hb1 Hb2]].
  set (u1 := u <| gu_harq ::= _ |>) in *. set (h := gu_harq u).
  assert (Hrd : rx_ready (gh_d h) (mark_cleared C h) (gh_c h)).
  { split; [|split; done..]. intros r Hr. destruct (lookup_lt_is_Some_2 (gh_d_to_be_cleared h) r) as [cl Hclr]; [unfold zlen, h in *; lia|].
    unfold mark_cleared, h. rewrite Hfirst, list_lookup_imap. fold h. rewrite Hclr. cbn. by rewrite bool_decide_eq_true_2 by lia. }
  destruct (segments_decoded _ _ _ _ _ _ f rx _ _ _ (gh_round h) (gh_llrLen h) (gh_b h) Htr Hair Hrd Hrec Hb2) as (ss & ll & ss' & B1 & D1 & C1).
  set (u2 := u1 <| gu_harq := gu_harq u1 <| gh_llrLen := ll |> <| gh_d_to_be_cleared := mark_cleared C (gu_harq u1) |> <| gh_harq_to_be_cleared := false |> |>). eexists. split.
  - exists u1, td, ss, u2, ss', C. split_and!; [done| |exact D1|].
    + unfold ulsch_segments. change (gu_llr u1) with (gu_llr u). rewrite Hrx. change (gu_G u1) with (gu_G u). rewrite HG.
      change (gu_pdu u1) with (gu_pdu u). rewrite Hpdu. cbn [gp_nrOfLayers]. change (td_C td) with C. cbv zeta.
      change (gh_d (gu_harq u1)) with (gh_d h). change (gh_c (gu_harq u1)) with (gh_c h). change (gh_round (gu_harq u1)) with (gh_round h).
      change (gh_llrLen (gu_harq u1)) with (gh_llrLen h). change (mark_cleared C (gu_harq u1)) with (mark_cleared C h). rewrite B1. done.
    + unfold ulsch_finish. change (gh_seg (gu_harq u2)) with p. change (gh_b (gu_harq u2)) with (gh_b h). rewrite C1, bind_Ret_l. done.
  - eapply (delivered_ok n L payload tb crcb rest); [done|done|done|done|done|]. exists (gh_b h). split; [done|reflexivity].
Qed.
End uplink.
