(* ===== verification/Uplink.v ===== *)
(** The uplink shared channel end to end: transport blocks that UEs encode and a gNB
    receives and decodes in a slot. *)

From stdpp Require Import base tactics list numbers sets.
From Stdlib Require Import ZArith Lia.
From S2P Require Import Prelude Arrays Crc CrcSpec CrcCheck RateMatch RateMatchSpec RateMatchPath Tbs Segmentation SegmentationSpec TbsSpec LdpcSegment LdpcSegmentSpec Ulsch UlschSpec.

(** ** The slot *)

Section slot.
Context (dec : dec_params -> list Z -> outcome (Z * list Z)) (g : garbage).

(** the loops of the slot take every ULSCH through its steps *)
Lemma slot_decodes us us' : Forall2 (decodes (dec := dec) g) us us' -> nr_ulsch_decoding dec g us = Ret (0, us').
Proof.
  intros H. enough (Hloops : exists tbs us1 TBs us2 rs, parameter_loop us = Ret (Some tbs, us1) /\ segments_loop us1 tbs = Ret (Some TBs, us2) /\
    nrLDPC_coding_decoder dec g TBs = Ret rs /\ finish_loop us2 rs = Ret us').
  { destruct Hloops as (tbs & us1 & TBs & us2 & rs & E1 & E2 & E3 & E4). unfold nr_ulsch_decoding. by rewrite E1, bind_Ret_l, E2, bind_Ret_l, E3, bind_Ret_l, E4, bind_Ret_l. }
  induction H as [|u u' us us' (u1 & tb & ss & u2 & ss' & k & P1 & P2 & P3 & P4) _ (tbs & us1 & TBs & us2 & rs & E1 & E2 & E3 & E4)].
  { by exists [], [], [], [], []. }
  exists (tb :: tbs), (u1 :: us1), ((tb, ss) :: TBs), (u2 :: us2), ((ss', k) :: rs).
  cbn [parameter_loop segments_loop nrLDPC_coding_decoder finish_loop].
  by rewrite P1, !bind_Ret_l, E1, bind_Ret_l, P2, bind_Ret_l, E2, bind_Ret_l, P3, bind_Ret_l, E3, bind_Ret_l, P4, bind_Ret_l, E4, bind_Ret_l.
Qed.
End slot.

(** ** The channel *)

(** what a UE sends: its grant, the bits available, the HARQ processes and the order of
    its encoding tasks; and the circular buffer of the grant *)
Record transmission := mk_tx {
  tx_pdu : ue_pusch_pdu; tx_R : Z; tx_G : Z; tx_harq : list ue_harq; tx_order : list Z; tx_Ncb : Z; tx_ind : Z }.

#[global] Instance ue_harq_inhabited : Inhabited ue_harq := populate (mk_ue_harq [] [] [] 0 (mk_segmentation 0 0 0 0)).

Definition tx_pid (tx : transmission) : nat := Z.to_nat (up_harq_process_id (tx_pdu tx)).
Definition tx_payload (tx : transmission) : list Z := uh_payload_AB (tx_harq tx !!! tx_pid tx).

Section channel.
Context {enc dec} `{Hcodec : !ldpc_codec enc dec} (intel : bool) (T : crc_tables) (g : garbage) (tmp : list (list Z)) (llr : Z -> Z).

Definition encode (tx : transmission) : outcome (Z * list ue_harq) :=
  nr_ulsch_encoding intel T enc tmp [tx_pdu tx] [tx_G tx] [0] [tx_order tx] (tx_harq tx).

(** the grant is in order, the UE has the buffers, the gNB has the ULSCH of the grant
    for new data and without stale soft values, and its soft bits are what the air makes of the bits the UE put out *)
Record linked (tx : transmission) (u : gnb_ulsch) : Prop := {
  li_room : ul_room (tx_pdu tx);
  li_grant : grant_ok llr (tx_pdu tx) (tx_R tx) (tx_G tx) (tx_Ncb tx) (tx_ind tx) (gu_max_ldpc_iterations u);
  li_harq : exists h, tx_harq tx !! tx_pid tx = Some h /\ ue_ready (tx_pdu tx) (tx_G tx) h;
  li_order : tx_order tx ≡ₚ seqZ 0 (task_count (seg_C (tb_sizes (up_ldpcBaseGraph (tx_pdu tx)) (8 * up_tb_size (tx_pdu tx)))));
  li_gnb : gnb_ready (tx_pdu tx) (tx_G tx) (tx_Ncb tx) (gu_max_ldpc_iterations u) u;
  li_air : exists rx, gu_llr u = Some rx /\ forall harq h, encode tx = Ret (0, harq) -> harq !! tx_pid tx = Some h -> received llr (tx_G tx) (uh_f h) rx }.

Lemma encode_eq tx tb0 te h h' f' : tx_harq tx !! tx_pid tx = Some h -> ulsch_segment intel T (tx_pdu tx) h = Ret (Some tb0, h') -> uh_f h' = uh_f h ->
  ulsch_shares (tx_G tx) (tx_pdu tx) tb0 = Ret te -> nrLDPC_prepare_TB_encoding enc tmp te (tx_order tx) (uh_f h) = Ret f' ->
  encode tx = Ret (0, <[tx_pid tx := h' <| uh_f := f' |>]> (<[tx_pid tx := h']> (tx_harq tx))).
Proof.
  intros Hh Hs Hf Hsh Hp. unfold encode, nr_ulsch_encoding. cbn [segment_loop share_loop].
  assert (Hpid : ulsch_harq_pid [tx_pdu tx] 0 = Ret (tx_pid tx)) by reflexivity. change ([tx_pdu tx] !! 0%nat) with (Some (tx_pdu tx)).
  assert (Hlt : (tx_pid tx < length (tx_harq tx))%nat) by by eapply lookup_lt_Some.
  rewrite Hpid, bind_Ret_l, Hh, Hs, !bind_Ret_l. cbn [option_map share_loop]. change ([tx_pdu tx] !! 0%nat) with (Some (tx_pdu tx)).
  rewrite bind_Ret_l, list_lookup_insert_eq by done.
  rewrite Hsh, !bind_Ret_l, Hf. cbn [nrLDPC_coding_encoder]. rewrite Hp, !bind_Ret_l. cbn [store_outputs].
  by rewrite Hpid, bind_Ret_l, list_lookup_insert_eq by done.
Qed.

Lemma one_delivered tx u : tables_ok T -> garbage_ok g -> length tmp = 8%nat -> Forall (fun b => zlen b = 68 * 384) tmp -> linked tx u ->
  (exists harq, encode tx = Ret (0, harq)) /\ exists u', decodes (dec := dec) g u u' /\ delivered intel T (tx_pdu tx) (tx_payload tx) u'.
Proof.
  intros HT Hg Htmp Hbuf [Hroom Hgr (h & Hh & Hready) Hord Hgnb (rx & Hrx & Hair)].
  destruct (ue_encodes intel T HT g Hg llr (tx_pdu tx) (tx_R tx) (tx_G tx) (tx_Ncb tx) (tx_ind tx) _ Hgr tmp h (tx_order tx) Hroom Htmp Hbuf Hready Hord)
    as (tb0 & te & h' & f' & n & L & tb & crcb & rest & E1 & E2 & E3 & E4 & E5 & Htr & Hon).
  pose proof (encode_eq tx tb0 te h h' f' Hh E1 E2 E3 E4) as Henc. split; [by eexists|].
  assert (Hlt : (tx_pid tx < length (tx_harq tx))%nat) by by eapply lookup_lt_Some.
  specialize (Hair _ (h' <| uh_f := f' |>) Henc ltac:(apply list_lookup_insert_eq; by rewrite length_insert)).
  unfold tx_payload. rewrite (list_lookup_total_correct _ _ _ Hh).
  eapply (gnb_decodes intel T HT g llr (tx_pdu tx) (tx_R tx) (tx_G tx) (tx_Ncb tx) (tx_ind tx) _ Hgr n L (uh_payload_AB h) tb crcb rest f' rx u);
    [done|done| |done|done|done|exact Hair]. pose proof (ur_room _ _ _ Hready). lia.
Qed.
End channel.

(** C15: the uplink shared channel delivers transport blocks. Any number of UEs each
    have a grant of a slot with one ULSCH (the build has at most four layers, so one
    codeword per UE); each encodes its transport block ([nr_ulsch_encoding]: CRC,
    segmentation, LDPC encoding, rate matching and interleaving of the segments, in
    whatever order the thread pool runs the tasks), and the gNB decodes those of all UEs
    in one call: [nr_ulsch_decoding] returns 0, every transport block is in the buffer
    of its HARQ process, and the gNB accepts it: all segments are decoded and the CRC of
    the block checks. The conditions on each link ([linked]):
    the grant is a size of [nr_compute_tbs] with its base graph, whole symbols on every
    layer, room for its segments and shares from which the segments can be decoded
    ([grant_ok], [ul_room]); the buffers of both sides are large enough; the gNB has the
    PDU of the grant for new data, with the soft buffers to be cleared; the soft buffers
    hold no stale values beyond the circular buffer of the grant, which only a new HARQ
    process or a full circular buffer guarantees, since the clearing stops there
    ([no_stale_bits]); the soft bits have the signs of the bits sent. The LDPC library
    is taken to decode what its encoder encoded ([ldpc_codec]); everything else, the
    sizes both sides compute, the offsets of the segments, the filler, the CRCs and the
    reassembly, follows from the code. *)
Theorem uplink_delivers {enc dec} `{Hcodec : !ldpc_codec enc dec} intel T g tmp llr txs us : crcTableInit zero_tables = Ret T -> garbage_ok g ->
  length tmp = 8%nat -> Forall (fun b => zlen b = 68 * 384) tmp -> Forall2 (linked intel T tmp llr) txs us ->
  Forall (fun tx => exists harq, encode (enc := enc) intel T tmp tx = Ret (0, harq)) txs /\
  exists us', nr_ulsch_decoding dec g us = Ret (0, us') /\ Forall2 (fun tx u => delivered intel T (tx_pdu tx) (tx_payload tx) u) txs us'.
Proof.
  intros HT%tables_init Hg Htmp Hbuf Hall. assert (Hone : Forall2 (fun tx u => (exists harq, encode (enc := enc) intel T tmp tx = Ret (0, harq)) /\
    exists u', decodes (dec := dec) g u u' /\ delivered intel T (tx_pdu tx) (tx_payload tx) u') txs us).
  { eapply Forall2_impl; [exact Hall|]. intros tx u Hl. by apply (one_delivered (dec := dec) intel T g tmp llr). }
  clear Hall. split.
  - induction Hone as [|tx u txs us [H _] _ IH]; constructor; done.
  - enough (H : exists us', Forall2 (decodes (dec := dec) g) us us' /\ Forall2 (fun tx u => delivered intel T (tx_pdu tx) (tx_payload tx) u) txs us').
    { destruct H as (us' & H1 & H2). exists us'. split; [by apply slot_decodes|done]. }
    induction Hone as [|tx u txs us [_ (u' & H1 & H2)] _ (us' & IH1 & IH2)]; [by exists []|]. exists (u' :: us'). split; by constructor.
Qed.

(** ** An example *)

(** A code that sends the block itself: the bits after the punctured ones, then the
    punctured ones, then zeros. *)
Definition bit_at (blk : list Z) (i : Z) : Z := Z.land (Z.shiftr (at_pos blk (i / 8)) (7 - i mod 8)) 1.

Definition plain_word (BG Zc : Z) (blk : list Z) (k : Z) : Z :=
  let K := code_block_max BG * Zc in
  if k <? K - 2 * Zc then bit_at blk (2 * Zc + k) else if k <? K then bit_at blk (k - (K - 2 * Zc)) else 0.

Definition plain_encoder (impp : encoder_implemparams) (c bufs : list (list Z)) : outcome (list (list Z)) :=
  let N := columns (impp_BG impp) * impp_Zc impp in
  Ret (zip_with (fun blk b => map (plain_word (impp_BG impp) (impp_Zc impp) (take (Z.to_nat (impp_K impp / 8)) blk)) (seqZ 0 N) ++ drop (Z.to_nat N) b)
         (drop (Z.to_nat (8 * macro_num impp)) c) bufs).

(** the bit at [i] of the block *)
Definition plain_bit (K Zc : Z) (l : list Z) (i : Z) : Z := if at_pos l (if i <? 2 * Zc then K + i else i) <? 0 then 1 else 0.

Definition byte_of_bits (f : Z -> Z) (j : Z) : Z := sumZ (fun t => Z.shiftl (f (8 * j + t)) (7 - t)) (seqZ 0 8).

Definition plain_decoder (p : dec_params) (l : list Z) : outcome (Z * list Z) :=
  let K := code_block_max (dec_BG p) * dec_Z p in
  Ret (1, map (byte_of_bits (plain_bit K (dec_Z p) l)) (seqZ 0 (K / 8))).

Lemma bit_at_bit blk i : bit_at blk i = 0 \/ bit_at blk i = 1.
Proof. unfold bit_at. rewrite (Z.land_ones _ 1) by lia. pose proof (Z.mod_pos_bound (Z.shiftr (at_pos blk (i / 8)) (7 - i mod 8)) (2 ^ 1)). lia. Qed.

(** a byte from its bits *)
Lemma byte_bits blk f j : Forall byte_ok blk -> 0 <= j < zlen blk -> (forall t, 0 <= t < 8 -> f (8 * j + t) = bit_at blk (8 * j + t)) -> byte_of_bits f j = at_pos blk j.
Proof.
  intros Hb Hj Hf. unfold byte_of_bits.
  assert (Hbit : forall t, 0 <= t < 8 -> f (8 * j + t) = Z.land (Z.shiftr (at_pos blk j) (7 - t)) 1).
  { intros t Ht. rewrite Hf by done. unfold bit_at. 
    assert ((8 * j + t) / 8 = j) as -> by (symmetry; apply Z.div_unique with t; lia).
    by assert ((8 * j + t) mod 8 = t) as -> by (symmetry; apply Z.mod_unique with j; lia). }
  change (seqZ 0 8) with [0; 1; 2; 3; 4; 5; 6; 7]. cbn [sumZ]. rewrite !Hbit by lia.
  assert (Hok : byte_ok (at_pos blk j)).
  { destruct (lookup_lt_is_Some_2 blk (Z.to_nat j)) as [x Hx]; [unfold zlen in Hj; lia|]. unfold at_pos. rewrite (list_lookup_total_correct _ _ _ Hx). by apply (proj1 (Forall_lookup _ _) Hb _ _ Hx). }
  generalize (at_pos blk j), Hok. clear. intros b Hb. unfold byte_ok in Hb.
  pose (v := fun b => Z.shiftl (Z.land (Z.shiftr b (7 - 0)) 1) (7 - 0) + (Z.shiftl (Z.land (Z.shiftr b (7 - 1)) 1) (7 - 1) + (Z.shiftl (Z.land (Z.shiftr b (7 - 2)) 1) (7 - 2) +
    (Z.shiftl (Z.land (Z.shiftr b (7 - 3)) 1) (7 - 3) + (Z.shiftl (Z.land (Z.shiftr b (7 - 4)) 1) (7 - 4) + (Z.shiftl (Z.land (Z.shiftr b (7 - 5)) 1) (7 - 5) +
    (Z.shiftl (Z.land (Z.shiftr b (7 - 6)) 1) (7 - 6) + (Z.shiftl (Z.land (Z.shiftr b (7 - 7)) 1) (7 - 7) + 0)))))))).
  change (v b = b). apply Z.eqb_eq. apply (all_from_ok 256 (fun b => v b =? b) 0); [by vm_compute|lia].
Qed.

Lemma bit_at_zero blk i n : 0 <= n -> 8 * n <= i < 8 * zlen blk -> Forall (fun b => b = 0) (drop (Z.to_nat n) blk) -> bit_at blk i = 0.
Proof.
  intros Hn Hi Hz. unfold bit_at. assert (Hj : n <= i / 8 < zlen blk) by (split; [apply Z.div_le_lower_bound; lia|apply Z.div_lt_upper_bound; lia]).
  assert (at_pos blk (i / 8) = 0) as ->; [|by rewrite Z.shiftr_0_l].
  replace (i / 8) with (n + (i / 8 - n)) by lia. rewrite <- at_pos_drop by lia.
  destruct (lookup_lt_is_Some_2 (drop (Z.to_nat n) blk) (Z.to_nat (i / 8 - n))) as [x Hx]; [rewrite length_drop; unfold zlen in *; lia|].
  unfold at_pos. rewrite (list_lookup_total_correct _ _ _ Hx). by apply (proj1 (Forall_lookup _ _) Hz _ _ Hx).
Qed.

Definition plain_decodable (BG Zc F : Z) (known : Z -> Prop) : Prop :=
  forall k, 0 <= k < code_block_max BG * Zc -> ~ (code_block_max BG * Zc - F <= 2 * Zc + k < code_block_max BG * Zc) -> known k.

Lemma signed_bit b x : b = 0 \/ b = 1 -> signed_as b x -> (if x <? 0 then 1 else 0) = b.
Proof. intros [-> | ->] [H1 H2]; [specialize (H1 eq_refl)|specialize (H2 eq_refl)]; destruct (Z.ltb_spec x 0); lia. Qed.

#[global] Program Instance plain_codec : ldpc_codec plain_encoder plain_decoder := {
  codeword := plain_word;
  decodable := plain_decodable }.
Next Obligation.
  intros BG Zc blk k. unfold plain_word. destruct (k <? _); [apply bit_at_bit|]. destruct (k <? _); [apply bit_at_bit|by left].
Qed.
Next Obligation.
  intros impp c bufs HBG HZ HK Hc Hcb Hm Hle Hb. set (N := columns (impp_BG impp) * impp_Zc impp).
  assert (HN : 0 <= N <= 68 * 384) by (unfold N, columns; destruct (impp_BG impp =? 1); lia).
  eexists. split; [reflexivity|]. split; [rewrite length_zip_with, length_drop; unfold zlen in *; lia|].
  intros i d Hi. apply lookup_zip_with_Some in Hi as (blk & b & -> & Hblk & Hbi). rewrite lookup_drop in Hblk.
  pose proof (proj1 (Forall_lookup _ _) Hb _ _ Hbi) as Hzb. cbn beta in Hzb.
  assert (Hzs : zlen (seqZ 0 N) = N) by (unfold zlen; rewrite length_seqZ; lia). split.
  - fold N. rewrite zlen_app, zlen_map, zlen_drop. lia.
  - exists blk. split; [done|]. intros k Hk. fold N in Hk |- *. rewrite at_pos_app, zlen_map, Hzs, (proj2 (Z.ltb_lt k N)), at_pos_map by lia. f_equal.
    unfold at_pos. apply list_lookup_total_correct. rewrite lookup_seqZ_lt by lia. f_equal. lia.
Qed.
Next Obligation.
  intros p l blk F known K HBG HZ Hit HF HKF HKp Hmod Hzb Hbb Hfill _ Hdec Hzl L1 L2 L3. exists 1. eexists. split; [reflexivity|]. fold K. split; [lia|].
  assert (HK : 2 * dec_Z p <= K /\ 0 <= K / 8 /\ K + 2 * dec_Z p <= columns (dec_BG p) * dec_Z p + 2 * dec_Z p).
  { split; [lia|]. split; [apply Z.div_pos; lia|]. unfold K. destruct (code_block_max_cases _ HBG) as [(-> & -> & _)|(-> & -> & _)]; lia. }
  split; [rewrite zlen_map; unfold zlen; rewrite length_seqZ; lia|].
  pose proof (Z.mul_div_le K 8 ltac:(lia)) as HK8. apply list_eq_at; [rewrite zlen_take, zlen_map; unfold zlen in *; rewrite length_seqZ; lia|].
  intros j Hj. rewrite zlen_take, zlen_map in Hj. assert (Hzs : zlen (seqZ 0 (K / 8)) = K / 8) by (unfold zlen; rewrite length_seqZ; lia).
  rewrite at_pos_take, at_pos_map by lia. assert (at_pos (seqZ 0 (K / 8)) j = j) as ->.
  { unfold at_pos. apply list_lookup_total_correct. rewrite lookup_seqZ_lt by lia. f_equal. lia. }
  apply byte_bits; [done|lia|]. intros t Ht. set (i := 8 * j + t). assert (Hi : 0 <= i < K) by (unfold i; lia). unfold plain_bit.
  destruct (Z.ltb_spec i (2 * dec_Z p)) as [Hpunct|Hsys].
  - destruct (L3 (K - 2 * dec_Z p + i)) as [Hs _]; [lia|lia|]. specialize (Hs ltac:(apply Hdec; fold K; lia)).
    replace (2 * dec_Z p + (K - 2 * dec_Z p + i)) with (K + i) in Hs by lia. apply signed_bit; [apply bit_at_bit|].
    cbn [codeword] in Hs. unfold plain_word in Hs. fold K in Hs. rewrite (proj2 (Z.ltb_ge _ _)), (proj2 (Z.ltb_lt _ _)) in Hs by lia.
    by replace (K - 2 * dec_Z p + i - (K - 2 * dec_Z p)) with i in Hs by lia.
  - destruct (Z.le_gt_cases (K - F) i) as [Hf|Hf].
    + rewrite L2 by lia. symmetry. apply (bit_at_zero blk i ((K - F) / 8)); [apply Z.div_pos; lia| |done].
      pose proof (Z.div_mod (K - F) 8 ltac:(lia)). rewrite Hzb. unfold i in *. lia.
    + destruct (L3 (i - 2 * dec_Z p)) as [Hs _]; [lia|lia|]. specialize (Hs ltac:(apply Hdec; fold K; lia)).
      replace (2 * dec_Z p + (i - 2 * dec_Z p)) with i in Hs by lia. apply signed_bit; [apply bit_at_bit|].
      cbn [codeword] in Hs. unfold plain_word in Hs. fold K in Hs. rewrite (proj2 (Z.ltb_lt _ _)) in Hs by lia.
      by replace (2 * dec_Z p + (i - 2 * dec_Z p)) with i in Hs by lia.
Qed.

(** a share that goes once around the circular buffer has every bit *)
Lemma full_share td Ncb ind E k : coding_ok td Ncb ind -> filler_offset td <= E < 2 ^ 31 -> Ncb - td_F td <= E -> 0 <= k < Ncb ->
  ~ (filler_offset td <= k < filler_offset td + td_F td) -> sent_positions td Ncb ind E k.
Proof.
  intros Hok HE Hfull Hk Hnf. pose proof (coding_bounds td Ncb ind Hok) as Hcb. split; [|done]. pose proof (co_F _ _ _ Hok) as HF.
  assert (Hst : 0 <= rank (td_F td) (filler_offset td) ind).
  { eapply (start_rank (td_tbslbrm td) (td_BG td) (td_Z td) (td_C td) (td_rv_index td) Ncb ind (td_F td) (filler_offset td) E); try lia; [apply (co_sel _ _ _ Hok)|apply (co_start _ _ _ Hok)]. }
  pose proof (hits_count Ncb (td_F td) (filler_offset td) (rank (td_F td) (filler_offset td) ind) HF ltac:(lia) ltac:(lia) ltac:(lia) Hst E k ltac:(lia) Hk Hnf) as Hc.
  intros Hnil. rewrite Hnil, zlen_nil in Hc. assert (1 <= E / (Ncb - td_F td)) by (apply Z.div_le_lower_bound; lia). lia.
Qed.

(** a new ULSCH is ready for a first transmission *)
Lemma new_ulsch_ready iterations N_RB_UL pdu G Ncb u : let td := td_of (up_Qm pdu) (up_ldpcBaseGraph pdu) (up_rv_index pdu) iterations (up_tbslbrm pdu) (8 * up_tb_size pdu) in
  gu_pdu u = mk_gnb_pdu (up_rb_size pdu) (up_Qm pdu) (up_nrOfLayers pdu) (up_tb_size pdu) (up_ldpcBaseGraph pdu) (up_rv_index pdu) (up_tbslbrm pdu) ->
  gu_max_ldpc_iterations u = iterations -> gu_G u = G -> gu_harq u = gu_harq (new_gNB_ulsch iterations N_RB_UL) <| gh_harq_to_be_cleared := true |> ->
  seg_C (tb_sizes (up_ldpcBaseGraph pdu) (8 * up_tb_size pdu)) <= ulsch_a_segments N_RB_UL -> 0 <= td_Z td <= 384 ->
  up_ldpcBaseGraph pdu = 1 \/ up_ldpcBaseGraph pdu = 2 -> td_K td <= 8448 ->
  lenWithCrc 1 (8 * up_tb_size pdu) / 8 <= u32 (ulsch_a_segments N_RB_UL * 1056) -> gnb_ready pdu G Ncb iterations u.
Proof.
  intros td H1 H2 H3 H4 Hseg HZ HBG HK Hb.
  assert (Ha : 0 <= ulsch_a_segments N_RB_UL) by (unfold ulsch_a_segments, u16; destruct (N_RB_UL =? 273); [done|apply Z.mod_pos_bound; lia]).
  assert (Hz : forall {A} (x : A), zlen (replicate (Z.to_nat (ulsch_a_segments N_RB_UL)) x) = ulsch_a_segments N_RB_UL) by (intros; by apply zlen_replicate_Z).
  assert (Hcol : columns (up_ldpcBaseGraph pdu) * td_Z td <= 68 * 384) by (unfold columns; destruct (_ =? 1); lia).
  split; [done|done|done|..]; rewrite H4; [reflexivity|..]; cbn [new_gNB_ulsch gu_harq gh_harq_to_be_cleared gh_d_to_be_cleared gh_d gh_c gh_b set]; rewrite ?Hz; [done|..].
  - unfold no_stale_bits. fold td. split; [done|]. apply Forall_take, Forall_replicate. split; [rewrite zlen_replicate_Z; lia|]. intros i Hi. destruct (Z.le_gt_cases 0 i); [apply at_pos_replicate; lia|].
    unfold at_pos. by replace (Z.to_nat i) with 0%nat by lia.
  - split; [done|]. apply Forall_take, Forall_replicate. rewrite zlen_replicate_Z by lia. assert (td_K td / 8 <= 8448 / 8) by (apply Z.div_le_mono; lia). change (8448 / 8) with 1056 in *. fold td. lia.
  - split; [by apply Forall_replicate|]. rewrite zlen_replicate_Z; [done|]. apply u32_range.
Qed.

Definition demo_pdu : ue_pusch_pdu := mk_ue_pdu 1 (nr_compute_tbs 2 1200 1 2 0 0 0 1 / 8) 2 1 0 (get_BG 24 1200) 0 0.
Definition demo_room : list Z := replicate (Z.to_nat 1056) 0.
Definition demo_harq : ue_harq := mk_ue_harq ([17; 34; 51] ++ replicate 40 0) [demo_room] (replicate 400 9) 0 (mk_segmentation 0 0 0 0).
Definition demo_tmp : list (list Z) := replicate 8 (replicate (Z.to_nat (68 * 384)) 0).
Definition demo_tx : transmission := mk_tx demo_pdu 1200 352 [demo_harq] [0] 350 0.
Definition first_output (r : outcome (Z * list ue_harq)) : list Z := match r with Ret (_, h :: _) => uh_f h | _ => [] end.
Definition demo_f : list Z := first_output (encode (enc := plain_encoder) true init_tables demo_tmp demo_tx).
Definition demo_ulsch : gnb_ulsch :=
  let u := new_gNB_ulsch 5 2 in
  mk_gnb_ulsch (mk_gnb_pdu 1 2 1 3 2 0 0) (gu_max_ldpc_iterations u) (gu_harq u <| gh_harq_to_be_cleared := true |>) (Some (map demo_llr demo_f)) 352.
Definition demo_garbage : garbage := mk_garbage (fun E => replicate (Z.to_nat E) 3) (replicate (Z.to_nat Z_MAX) 4) (replicate (Z.to_nat Z_MAX) 5).

Lemma demo_garbage_ok : garbage_ok demo_garbage.
Proof. split; [intros E HE|..]; unfold demo_garbage; cbn [g_harq_e g_z g_l]; by rewrite zlen_replicate_Z. Qed.

Lemma demo_tmp_ok : Forall (fun b => zlen b = 68 * 384) demo_tmp.
Proof. apply Forall_replicate. by rewrite zlen_replicate_Z. Qed.

Definition demo_td : TB_decoding_parameters := mk_tbd 2 2 0 5 0 24 70 7 30 1.

Lemma demo_td_eq : td_of 2 2 0 5 0 24 = demo_td.
Proof. by vm_compute. Qed.

Lemma demo_coding : coding_ok demo_td 350 0.
Proof.
  split; unfold demo_td; cbn [td_BG td_Z td_K td_F td_C td_tbslbrm td_rv_index td_Qm td_max_ldpc_iterations td_A];
    [by right|lia|reflexivity|lia|lia|reflexivity|lia|split; lia|reflexivity|lia|reflexivity|lia|reflexivity].
Qed.

Lemma demo_share r : 0 <= r < 1 -> share_ok demo_llr demo_td 350 0 (share 352 1 2 1 r).
Proof.
  intros Hr. assert (r = 0) as -> by lia. change (share 352 1 2 1 0) with 352. split; [by vm_compute|reflexivity|by vm_compute|by vm_compute|].
  cbn [decodable plain_codec]. intros k Hk Hnf. change (code_block_max (td_BG demo_td) * td_Z demo_td) with 70 in *. change (td_F demo_td) with 30 in *. change (td_Z demo_td) with 7 in *.
  apply full_share; [exact demo_coding|change (filler_offset demo_td) with 26; lia|change (td_F demo_td) with 30; lia|lia|].
  change (filler_offset demo_td) with 26. change (td_F demo_td) with 30. lia.
Qed.

Lemma demo_pdu_eq : demo_pdu = mk_ue_pdu 1 3 2 1 0 2 0 0.
Proof. by vm_compute. Qed.

Lemma demo_grant_rb rb : grant_ok demo_llr (mk_ue_pdu rb 3 2 1 0 2 0 0) 1200 352 350 0 5.
Proof.
  split; cbn [up_tb_size up_ldpcBaseGraph up_Qm up_nrOfLayers up_rb_size up_rv_index up_tbslbrm].
  - split; [lia|]. change (8 * 3) with (nr_compute_tbs 2 1200 1 2 0 0 0 1). apply compute_tbs_fits; lia.
  - by vm_compute.
  - reflexivity.
  - split; (by vm_compute) || lia.
  - change (8 * 3) with 24. rewrite demo_td_eq. split; [apply (co_sel _ _ _ demo_coding)|]. split; [apply (co_start _ _ _ demo_coding)|].
    split; [apply (co_room _ _ _ demo_coding)|exact demo_share].
  - lia.
Qed.

Lemma demo_grant : grant_ok demo_llr (tx_pdu demo_tx) (tx_R demo_tx) (tx_G demo_tx) (tx_Ncb demo_tx) (tx_ind demo_tx) (gu_max_ldpc_iterations demo_ulsch).
Proof. change (tx_pdu demo_tx) with demo_pdu. rewrite demo_pdu_eq. exact (demo_grant_rb 1). Qed.

Lemma demo_room_ok : ul_room demo_pdu.
Proof. rewrite demo_pdu_eq. split; [by vm_compute|]. split; [by vm_compute|right; by vm_compute]. Qed.

Lemma demo_sizes : tb_sizes 2 24 = mk_segmentation 1 70 7 30.
Proof. by vm_compute. Qed.

Lemma demo_gnb : gnb_ready (mk_ue_pdu 1 3 2 1 0 2 0 0) 352 350 5 demo_ulsch.
Proof.
  change 5 with (gu_max_ldpc_iterations (new_gNB_ulsch 5 2)). apply (new_ulsch_ready 5 2); [reflexivity..| | |by right| |];
    cbn [up_tb_size up_ldpcBaseGraph up_Qm up_nrOfLayers up_rb_size up_rv_index up_tbslbrm gu_max_ldpc_iterations new_gNB_ulsch];
    change (8 * 3) with 24; rewrite ?demo_td_eq, ?demo_sizes; by vm_compute.
Qed.

Lemma demo_linked : linked true init_tables demo_tmp demo_llr demo_tx demo_ulsch.
Proof.
  assert (Hp : tb_sizes (up_ldpcBaseGraph demo_pdu) (8 * up_tb_size demo_pdu) = mk_segmentation 1 70 7 30) by by vm_compute.
  split.
  - exact demo_room_ok.
  - exact demo_grant.
  - exists demo_harq. split; [reflexivity|]. change (tx_pdu demo_tx) with demo_pdu. split; cbn [demo_harq uh_payload_AB uh_c uh_f]; rewrite ?Hp.
    + repeat constructor; (unfold byte_ok; lia) || idtac. 
    + by vm_compute.
    + by vm_compute.
    + constructor; [|constructor]. unfold demo_room. split; [apply Forall_replicate; unfold byte_ok; lia|by rewrite zlen_replicate_Z].
    + by vm_compute.
  - change (tx_pdu demo_tx) with demo_pdu. rewrite Hp. reflexivity.
  - change (tx_pdu demo_tx) with demo_pdu. rewrite demo_pdu_eq. apply demo_gnb.
  - exists (map demo_llr demo_f). split; [reflexivity|]. intros harq h Henc Hh.
    assert (Hf : demo_f = uh_f h). { unfold demo_f. rewrite Henc. cbn [first_output]. destruct harq as [|h0 harq]; [done|]. by injection Hh as ->. }
    rewrite <- Hf. apply received_map. assert (zlen demo_f = 400) as -> by by vm_compute. cbn [demo_tx tx_G]. lia.
Qed.

Lemma uplink_delivers_witness :
  exists us', nr_ulsch_decoding plain_decoder demo_garbage [demo_ulsch] = Ret (0, us') /\
    Forall2 (fun tx u => delivered true init_tables (tx_pdu tx) (tx_payload tx) u) [demo_tx] us'.
Proof.
  apply (uplink_delivers true init_tables demo_garbage demo_tmp demo_llr [demo_tx] [demo_ulsch]).
  - exact init_tables_eq.
  - exact demo_garbage_ok.
  - reflexivity.
  - exact demo_tmp_ok.
  - constructor; [exact demo_linked|constructor].
Defined.
