(* ===== verification/Dlsch.v ===== *)
(** The downlink shared channel: coding of transport blocks in the gNB
    (src/openair1/PHY/NR_TRANSPORT/nr_dlsch_coding.c), the HARQ processes of the UE
    (src/openair1/SCHED_NR_UE/harq_nr.c, fapi_nr_ue_l1.c, PHY/INIT/nr_init_ue.c) and
    decoding in the UE (src/openair1/PHY/NR_UE_TRANSPORT/nr_dlsch_decoding.c). Traces,
    measurements and statistics are left out. *)

From stdpp Require Import base tactics list numbers.
From Stdlib Require Import ZArith Lia.
From S2P Require Import Prelude Crc RateMatch Tbs Segmentation LdpcSegment Ulsch.

(** ** Coding in the gNB *)

(** what the code reads of [nfapi_nr_dl_tti_pdsch_pdu_rel15_t]; the first codeword *)
Record pdsch_pdu := mk_pdsch {
  dp_TBSize : Z; dp_nrOfLayers : Z; dp_qamModOrder : Z; dp_rvIndex : Z; dp_rbSize : Z; dp_NrOfSymbols : Z;
  dp_dmrsConfigType : Z; dp_numDmrsCdmGrpsNoData : Z; dp_dlDmrsSymbPos : Z; dp_ldpcBaseGraph : Z; dp_tbSizeLbrmBytes : Z }.

(** [NR_gNB_DLSCH_t]: [pdu] is the payload with room for its CRC *)
Record gnb_dlsch := mk_gnb_dlsch {
  gd_rel15 : pdsch_pdu; gd_pdu : list Z; gd_b : list Z; gd_c : list (list Z); gd_Z : Z; gd_unav_res : Z }.
#[global] Instance gnb_dlsch_eta : Eta gnb_dlsch := fun d => mk_gnb_dlsch (gd_rel15 d) (gd_pdu d) (gd_b d) (gd_c d) (gd_Z d) (gd_unav_res d).

Definition NR_SYMBOLS_PER_SLOT : Z := 14.
Definition NR_NB_SC_PER_RB : Z := 12.
Definition NFAPI_NR_DMRS_TYPE1 : Z := 0.

(** the number of segments that are allocated *)
Definition dlsch_a_segments (nb_antennas_tx N_RB : Z) : Z :=
  let max_layers := if nb_antennas_tx <? NR_MAX_NB_LAYERS then nb_antennas_tx else NR_MAX_NB_LAYERS in
  let a_segments := u16 (MAX_NUM_NR_DLSCH_SEGMENTS_PER_LAYER * max_layers) in
  if N_RB =? 273 then a_segments else u16 (Z.quot (u16 (a_segments * N_RB)) 273 + 1).

(** the process is cleared, and its PDU with it *)
Definition new_gNB_dlsch (nb_antennas_tx N_RB : Z) : gnb_dlsch :=
  let a_segments := dlsch_a_segments nb_antennas_tx N_RB in
  mk_gnb_dlsch (mk_pdsch 0 0 0 0 0 0 0 0 0 0 0) [] (replicate (Z.to_nat (u32 (a_segments * 1056))) 0)
    (replicate (Z.to_nat a_segments) (replicate (Z.to_nat 8448) 0)) 0 0.

Definition get_num_dmrs (dmrs_mask : Z) : Z := sumZ (fun i => Z.land (Z.shiftr dmrs_mask i) 1) (seqZ 0 16).

(** the resource elements of a DMRS symbol in a resource block *)
Definition nb_re_dmrs (rel15 : pdsch_pdu) : Z :=
  u8 (if dp_dmrsConfigType rel15 =? NFAPI_NR_DMRS_TYPE1 then 6 * dp_numDmrsCdmGrpsNoData rel15 else 4 * dp_numDmrsCdmGrpsNoData rel15).

(** the number of coded bits *)
Definition dlsch_G (d : gnb_dlsch) : Z :=
  let rel15 := gd_rel15 d in
  nr_get_G (dp_rbSize rel15) (dp_NrOfSymbols rel15) (nb_re_dmrs rel15) (get_num_dmrs (dp_dlDmrsSymbPos rel15)) (gd_unav_res d)
    (dp_qamModOrder rel15) (dp_nrOfLayers rel15).

(** the room of a DLSCH in the output, a multiple of 64 bytes *)
Definition dlsch_room (d : gnb_dlsch) : Z :=
  let rel15 := gd_rel15 d in
  let dlsch_size := dp_rbSize rel15 * NR_SYMBOLS_PER_SLOT * NR_NB_SC_PER_RB * dp_qamModOrder rel15 * dp_nrOfLayers rel15 in
  dlsch_size + 63 - (dlsch_size + 63) mod 64.

Section gnb.
Context (USE_INTEL_CRC : bool) (T : crc_tables)
  (LDPCencoder : encoder_implemparams -> list (list Z) -> list (list Z) -> outcome (list (list Z))) (tmp : list (list Z)).

(** a transport block up to its segments; [None] is [return -1] *)
Definition dlsch_segment (d : gnb_dlsch) : outcome (option TB_encoding_parameters * gnb_dlsch) :=
  let rel15 := gd_rel15 d in
  let A := u32 (Z.shiftl (dp_TBSize rel15) 3) in
  let max_bytes := MAX_NUM_NR_DLSCH_SEGMENTS_PER_LAYER * dp_nrOfLayers rel15 * 1056 in
  '(B, a) ← attach_crc USE_INTEL_CRC T max_bytes A (gd_pdu d);
  x ← mem_read a 0 (Z.quot A 8 + (if NR_MAX_PDSCH_TBS <? A then 4 else 3));
  b ← mem_write (gd_b d) 0 x;
  let BG := dp_ldpcBaseGraph rel15 in
  '(Kb, p, c) ← nr_segmentation USE_INTEL_CRC T (Some (b, gd_c d)) B (mk_segmentation 0 0 (gd_Z d) 0) BG;
  let d := d <| gd_pdu := a |> <| gd_b := b |> <| gd_c := c |> in
  if MAX_NUM_NR_DLSCH_SEGMENTS_PER_LAYER * dp_nrOfLayers rel15 <? seg_C p then Ret (None, d)
  else Ret (Some (mk_tbe (dp_qamModOrder rel15) BG (dp_rvIndex rel15) (dp_tbSizeLbrmBytes rel15) (u32 Kb) (seg_K p) (seg_Zout p) (seg_F p) (seg_C p) [] c), d).

(** the first loop; what was done before [return -1] stays *)
Fixpoint dlsch_segment_loop (ds : list gnb_dlsch) : outcome (option (list TB_encoding_parameters) * list gnb_dlsch) :=
  match ds with
  | [] => Ret (Some [], [])
  | d :: ds =>
      '(tb, d) ← dlsch_segment d;
      match tb with
      | None => Ret (None, d :: ds)
      | Some tb => '(tbs, ds) ← dlsch_segment_loop ds; Ret (option_map (cons tb) tbs, d :: ds)
      end
  end.

(** the shares of the segments *)
Definition dlsch_shares (d : gnb_dlsch) (tb : TB_encoding_parameters) : outcome TB_encoding_parameters :=
  Es ← segment_shares (Z.to_nat (te_C tb)) (dlsch_G d) (te_C tb) (te_Qm tb) (dp_nrOfLayers (gd_rel15 d)) 0;
  Ret (mk_tbe (te_Qm tb) (te_BG tb) (te_rv_index tb) (te_tbslbrm tb) (te_Kb tb) (te_K tb) (te_Z tb) (te_F tb) (te_C tb) Es
         (take (Z.to_nat (te_C tb)) (gd_c d))).

(** the second loop: the parameters of each transport block and where its bits go, from
    [dlsch_offset] on *)
Fixpoint dlsch_share_loop (ds : list gnb_dlsch) (tbs : list TB_encoding_parameters) (orders : list (list Z)) (dlsch_offset : Z)
    : outcome (list (TB_encoding_parameters * list Z * Z)) :=
  match ds, tbs with
  | d :: ds, tb :: tbs =>
      match orders with
      | order :: orders =>
          tb ← dlsch_shares d tb;
          rest ← dlsch_share_loop ds tbs orders (dlsch_offset + dlsch_room d);
          Ret ((tb, order, dlsch_offset) :: rest)
      | [] => Undef
      end
  | _, _ => Ret []
  end.

(** [nrLDPC_coding_encoder] on transport blocks that share the output *)
Fixpoint encode_in_place (TBs : list (TB_encoding_parameters * list Z * Z)) (output : list Z) : outcome (list Z) :=
  match TBs with
  | [] => Ret output
  | (tb, order, offset) :: TBs =>
      f ← nrLDPC_prepare_TB_encoding LDPCencoder tmp tb order (drop (Z.to_nat offset) output);
      encode_in_place TBs (take (Z.to_nat offset) output ++ f)
  end.

(** [orders] is how the pool orders the tasks of each transport block *)
Definition nr_dlsch_encoding (ds : list gnb_dlsch) (orders : list (list Z)) (output : list Z) : outcome (Z * list gnb_dlsch * list Z) :=
  '(tbs, ds) ← dlsch_segment_loop ds;
  match tbs with
  | None => Ret (-1, ds, output)
  | Some tbs =>
      TBs ← dlsch_share_loop ds tbs orders 0;
      output ← encode_in_place TBs output;
      Ret (0, ds, output)
  end.
End gnb.

(** ** The HARQ processes of the UE *)

Inductive SCH_status_t := SCH_IDLE | ACTIVE | CBA_ACTIVE | DISABLED.

(** [NR_DL_UE_HARQ_t]; its buffer [b] is an argument of [nr_dlsch_decoding] *)
Record ue_dl_harq := mk_dl_harq {
  dh_first_rx : Z; dh_status : SCH_status_t; dh_c : list (list Z); dh_d : list (list Z); dh_DLround : Z; dh_seg : segmentation;
  dh_decodeResult : bool; dh_llrLen : Z; dh_processedSegments : Z }.
#[global] Instance ue_dl_harq_eta : Eta ue_dl_harq := fun h =>
  mk_dl_harq (dh_first_rx h) (dh_status h) (dh_c h) (dh_d h) (dh_DLround h) (dh_seg h) (dh_decodeResult h) (dh_llrLen h) (dh_processedSegments h).

(** what the code reads of [fapi_nr_dl_config_dlsch_pdu_rel15_t] *)
Record dlsch_config := mk_dl_config {
  dc_TBS : Z; dc_qamModOrder : Z; dc_rv : Z; dc_ldpcBaseGraph : Z; dc_tbslbrm : Z; dc_dmrsConfigType : Z; dc_harq_process_nbr : Z;
  dc_dmrs_ports : Z; dc_new_data_indicator : bool }.

(** [NR_UE_DLSCH_t] *)
Record ue_dlsch := mk_ue_dlsch {
  ud_active : bool; ud_rnti_type : Z; ud_config : dlsch_config; ud_Nl : Z; ud_max_ldpc_iterations : Z; ud_last_iteration_cnt : Z }.
#[global] Instance ue_dlsch_eta : Eta ue_dlsch := fun d =>
  mk_ue_dlsch (ud_active d) (ud_rnti_type d) (ud_config d) (ud_Nl d) (ud_max_ldpc_iterations d) (ud_last_iteration_cnt d).

Definition init_downlink_harq_status (h : ue_dl_harq) : ue_dl_harq :=
  h <| dh_status := SCH_IDLE |> <| dh_first_rx := 1 |> <| dh_DLround := 0 |> <| dh_decodeResult := false |>.

Definition SOFT_BITS : Z := 5 * 8448.

Definition ue_a_segments (num_rb : Z) : Z :=
  let a_segments := MAX_NUM_NR_DLSCH_SEGMENTS_PER_LAYER * NR_MAX_NB_LAYERS in
  if num_rb =? 273 then a_segments else Z.quot (a_segments * num_rb) 273 + 1.

(** a process that [nr_init_dl_harq_processes] leaves, and its buffer [b] *)
Definition new_dl_harq (num_rb : Z) : ue_dl_harq * list Z :=
  let n := Z.to_nat (ue_a_segments num_rb) in
  (init_downlink_harq_status
     (mk_dl_harq 0 SCH_IDLE (replicate n (replicate (Z.to_nat 1056) 0)) (replicate n (replicate (Z.to_nat SOFT_BITS) 0))
        0 (mk_segmentation 0 0 0 0) false 0 0),
   replicate (Z.to_nat (ue_a_segments num_rb * 1056)) 0).

Definition nr_init_dl_harq_processes (number_of_processes : nat) (num_rb : Z) : list (list (ue_dl_harq * list Z)) :=
  replicate 2 (replicate number_of_processes (new_dl_harq num_rb)).

Definition TYPE_C_RNTI_ : Z := 0.
Definition TYPE_P_RNTI_ : Z := 3.
Definition TYPE_SI_RNTI_ : Z := 4.
Definition TYPE_RA_RNTI_ : Z := 5.

Definition downlink_harq_process (h : ue_dl_harq) (rv rnti_type : Z) : outcome ue_dl_harq :=
  if (rnti_type =? TYPE_SI_RNTI_) || (rnti_type =? TYPE_P_RNTI_) || (rnti_type =? TYPE_RA_RNTI_) then
    Ret (h <| dh_DLround := 0 |> <| dh_status := ACTIVE |> <| dh_first_rx := 1 |>)
  else if (rv <? 4) && (0 <=? rv) then Ret (h <| dh_status := ACTIVE |>) else Exit.

(** the part of [configure_dlsch] that sets up the DLSCH and its HARQ process; the
    Boolean is what is given to [update_harq_status], if it is called *)
Definition configure_dlsch (d : ue_dlsch) (h : ue_dl_harq) (cfg : dlsch_config) : outcome (ue_dlsch * ue_dl_harq * option bool) :=
  let d := d <| ud_active := true |> in
  let Nl := sumZ (fun i => Z.land (Z.shiftr (dc_dmrs_ports cfg) i) 1) (seqZ 0 12) in
  if Nl =? 0 then Ret (d <| ud_active := false |>, h, Some false)
  else
    let d := d <| ud_Nl := Nl |> in
    let h := if dc_new_data_indicator cfg then h <| dh_first_rx := 1 |> <| dh_DLround := 0 |>
             else h <| dh_first_rx := 0 |> <| dh_DLround := u8 (dh_DLround h + 1) |> in
    h ← downlink_harq_process h (dc_rv cfg) (ud_rnti_type d);
    match dh_status h with
    | ACTIVE => Ret (d, h, None)
    | _ => Ret (d <| ud_active := false |>, h, Some (dh_decodeResult h))
    end.

(** ** Decoding in the UE *)

(** [for (int i = 0; i < C; i++) memset(d[i], 0, ...)], from [i] on *)
Fixpoint clear_soft_bits (rounds : nat) (i : nat) (ds : list (list Z)) : outcome (list (list Z)) :=
  match rounds with
  | O => Ret ds
  | S rounds =>
      match ds !! i with
      | Some d => d ← mem_write d 0 (replicate (Z.to_nat SOFT_BITS) 0); clear_soft_bits rounds (S i) (<[i := d]> ds)
      | None => Undef
      end
  end.

(** the parameters of the transport block; [None] is the return of
    [max_ldpc_iterations + 1] *)
Definition dlsch_parameters (d : ue_dlsch) (h : ue_dl_harq) : outcome (option TB_decoding_parameters * ue_dl_harq) :=
  let cfg := ud_config d in
  if negb ((dc_dmrsConfigType cfg =? 0) || (dc_dmrsConfigType cfg =? 1)) then Exit
  else
    let tb p := mk_tbd (dc_qamModOrder cfg) (dc_ldpcBaseGraph cfg) (dc_rv cfg) (ud_max_ldpc_iterations d) (dc_tbslbrm cfg)
                  (dc_TBS cfg) (seg_K p) (seg_Zout p) (seg_F p) (seg_C p) in
    if dh_first_rx h =? 1 then
      '(_, p, _) ← nr_segmentation false zero_tables None (lenWithCrc 1 (dc_TBS cfg)) (mk_segmentation 0 0 0 0) (dc_ldpcBaseGraph cfg);
      let h := h <| dh_seg := p |> in
      if MAX_NUM_NR_DLSCH_SEGMENTS_PER_LAYER * ud_Nl d <? seg_C p then Ret (None, h)
      else
        ds ← clear_soft_bits (Z.to_nat (seg_C p)) 0 (dh_d h);
        Ret (Some (tb p), h <| dh_d := ds |>)
    else Ret (Some (tb (dh_seg h)), h).

(** the segments; their flags are new in every call *)
Definition dlsch_segments (d : ue_dlsch) (h : ue_dl_harq) (G : Z) (llr : list Z) (tb : TB_decoding_parameters)
    : outcome (list segment_decoding * ue_dl_harq) :=
  let n := Z.to_nat (td_C tb) in
  '(ss, llrLen) ← build_segments n 0 0 tb G (ud_Nl d) (dh_DLround h) (dh_llrLen h) llr
                    (dh_d h) (replicate n (dh_first_rx h =? 1)) (dh_c h);
  Ret (ss, h <| dh_llrLen := llrLen |>).

(** [while (b[i] == 0 && i < sz) i++] *)
Fixpoint skip_zeros (fuel : nat) (b : list Z) (i sz : Z) : outcome Z :=
  match fuel with
  | O => Undef
  | S fuel => x ← rd b i; if (x =? 0) && (i <? sz) then skip_zeros fuel b (i + 1) sz else Ret i
  end.

(** a transport block of zeros with a CRC of zeros *)
Definition all_zero_block (b : list Z) (sz : Z) : outcome bool :=
  x ← rd b sz;
  if x =? 0 then
    y ← rd b (sz + 1);
    if y =? 0 then i ← skip_zeros (S (Z.to_nat sz)) b 0 sz; Ret (i =? sz) else Ret false
  else Ret false.

Section ue.
Context (USE_INTEL_CRC : bool) (T : crc_tables) (LDPCdecoder : dec_params -> list Z -> outcome (Z * list Z)) (g : garbage).

(** [decodeResult] for the transport block in [b]; [A] is its size in bits *)
Definition dlsch_result (h : ue_dl_harq) (A : Z) (b : list Z) : outcome bool :=
  let C := seg_C (dh_seg h) in
  let result := dh_processedSegments h =? C in
  result ← (if result && (1 <? C) then check_crc USE_INTEL_CRC T b (lenWithCrc 1 A) (crcType 1 A) else Ret result);
  if result : bool then zero ← all_zero_block b (A / 8); Ret (negb zero) else Ret false.

(** the HARQ process and [b] after the decoding, and whether the block is taken; the
    size is that of the first DLSCH of the slot *)
Definition dlsch_finish (d0 : ue_dlsch) (h : ue_dl_harq) (b : list Z) (ss : list segment_decoding) (processed : Z)
    : outcome (bool * ue_dl_harq * list Z) :=
  b ← collect_segments ss (dh_seg h) 0 b;
  let n := length ss in
  let h := h <| dh_d := map sd_d ss ++ drop n (dh_d h) |> <| dh_c := map sd_c ss ++ drop n (dh_c h) |> <| dh_processedSegments := processed |> in
  result ← dlsch_result h (dc_TBS (ud_config d0)) b;
  let h := h <| dh_decodeResult := result |> in
  Ret (result, if result then h <| dh_status := SCH_IDLE |> else h, b).

(** the HARQ process of a DLSCH *)
Definition dl_harq_at (dlsch : list ue_dlsch) (harq : list (list ue_dl_harq)) (id : nat) : outcome (ue_dlsch * nat * ue_dl_harq) :=
  match dlsch !! id with
  | Some d =>
      let pid := Z.to_nat (dc_harq_process_nbr (ud_config d)) in
      match harq !! id with
      | Some l => match l !! pid with Some h => Ret (d, pid, h) | None => Undef end
      | None => Undef
      end
  | None => Undef
  end.

Definition store_dl_harq (harq : list (list ue_dl_harq)) (id pid : nat) (h : ue_dl_harq) : list (list ue_dl_harq) :=
  alter (fun l => <[pid := h]> l) id harq.

(** the three loops over the DLSCHs of the slot; [inr] is an early return *)
Fixpoint dlsch_parameter_loop (ids : list nat) (dlsch : list ue_dlsch) (harq : list (list ue_dl_harq))
    : outcome ((list TB_decoding_parameters + Z) * list (list ue_dl_harq)) :=
  match ids with
  | [] => Ret (inl [], harq)
  | id :: ids =>
      '(d, pid, h) ← dl_harq_at dlsch harq id;
      '(tb, h) ← dlsch_parameters d h;
      let harq := store_dl_harq harq id pid h in
      match tb with
      | None => Ret (inr (ud_max_ldpc_iterations d + 1), harq)
      | Some tb =>
          '(tbs, harq) ← dlsch_parameter_loop ids dlsch harq;
          Ret (match tbs with inl tbs => inl (tb :: tbs) | inr r => inr r end, harq)
      end
  end.

Fixpoint dlsch_segments_loop (ids : list nat) (dlsch : list ue_dlsch) (G : list Z) (llr : list (list Z)) (tbs : list TB_decoding_parameters)
    (harq : list (list ue_dl_harq)) : outcome (list (TB_decoding_parameters * list segment_decoding) * list (list ue_dl_harq)) :=
  match ids, tbs with
  | id :: ids, tb :: tbs =>
      '(d, pid, h) ← dl_harq_at dlsch harq id;
      match G !! id, llr !! id with
      | Some g, Some l =>
          '(ss, h) ← dlsch_segments d h g l tb;
          '(TBs, harq) ← dlsch_segments_loop ids dlsch G llr tbs (store_dl_harq harq id pid h);
          Ret ((tb, ss) :: TBs, harq)
      | _, _ => Undef
      end
  | _, _ => Ret ([], harq)
  end.

(** [last_iteration_cnt] of the first DLSCH tells of the DLSCH seen last *)
Fixpoint dlsch_finish_loop (ids : list nat) (rs : list (list segment_decoding * Z)) (dlsch : list ue_dlsch) (harq : list (list ue_dl_harq)) (b : list (list Z))
    : outcome (list ue_dlsch * list (list ue_dl_harq) * list (list Z)) :=
  match ids, rs with
  | id :: ids, (ss, processed) :: rs =>
      '(_, pid, h) ← dl_harq_at dlsch harq id;
      match dlsch !! 0%nat, b !! id with
      | Some d0, Some bid =>
          '(result, h, bid) ← dlsch_finish d0 h bid ss processed;
          let cnt := if result : bool then ud_max_ldpc_iterations d0 else u8 (ud_max_ldpc_iterations d0 + 1) in
          dlsch_finish_loop ids rs (<[0%nat := d0 <| ud_last_iteration_cnt := cnt |>]> dlsch) (store_dl_harq harq id pid h) (<[id := bid]> b)
      | _, _ => Undef
      end
  | _, _ => Ret (dlsch, harq, b)
  end.

(** the decoder of the slot always returns 0 *)
Definition nr_dlsch_decoding (dlsch : list ue_dlsch) (llr : list (list Z)) (b : list (list Z)) (G : list Z) (DLSCH_ids : list nat) (harq : list (list ue_dl_harq))
    : outcome (Z * list ue_dlsch * list (list ue_dl_harq) * list (list Z)) :=
  '(tbs, harq) ← dlsch_parameter_loop DLSCH_ids dlsch harq;
  match tbs with
  | inr r => Ret (r, dlsch, harq, b)
  | inl tbs =>
      '(TBs, harq) ← dlsch_segments_loop DLSCH_ids dlsch G llr tbs harq;
      rs ← nrLDPC_coding_decoder LDPCdecoder g TBs;
      '(dlsch, harq, b) ← dlsch_finish_loop DLSCH_ids rs dlsch harq b;
      match dlsch !! 0%nat with Some d0 => Ret (ud_last_iteration_cnt d0, dlsch, harq, b) | None => Undef end
  end.
End ue.
