(* ===== verification/Downlink.v ===== *)
(** The downlink shared channel end to end: transport blocks that a gNB encodes in a slot
    and UEs receive and decode. *)

From stdpp Require Import base tactics list numbers sets.
From Stdlib Require Import ZArith Lia.
From S2P Require Import Prelude Arrays Gf2 Crc CrcSpec CrcCheck RateMatch RateMatchSpec RateMatchPath Tbs Segmentation SegmentationSpec TbsSpec LdpcSegment LdpcSegmentSpec Ulsch UlschSpec Uplink Dlsch.

(** ** Blocks of zeros *)

Lemma skip_zeros_ok b sz fuel : sz < zlen b -> forall i, 0 <= i <= sz -> (Z.to_nat (sz - i) < fuel)%nat ->
  exists j, skip_zeros fuel b i sz = Ret j /\ i <= j <= sz /\ (j = sz <-> forall k, i <= k < sz -> at_pos b k = 0).
Proof.
  intros Hsz. induction fuel as [|fuel IH]; intros i Hi Hf; [lia|]. cbn [skip_zeros]. rewrite rd_at, bind_Ret_l by lia.
  destruct (Z.eqb_spec (at_pos b i) 0) as [H0|H0], (Z.ltb_spec i sz) as [Hlt|Hlt]; cbn [andb].
  - destruct (IH (i + 1) ltac:(lia) ltac:(lia)) as (j & E & Hj & Hiff). exists j. split_and!; [done|lia..|]. rewrite Hiff. split; intros H k Hk; [|apply H; lia].
    destruct (Z.eq_dec k i) as [->|]; [done|apply H; lia].
  - exists i. split_and!; [done|lia..|]. split; [intros _ k Hk; lia|lia].
  - exists i. split_and!; [done|lia..|]. split; [lia|]. intros H. by specialize (H i ltac:(lia)).
  - exists i. split_and!; [done|lia..|]. split; [intros _ k Hk; lia|lia].
Qed.

(** the CRC of zeros is zero *)
Lemma zero_remainder k r : remainder k 0 r -> r = 0.
Proof.
  intros H. apply (remainder_unique k 0 r 0 H). split; [by destruct k|]. rewrite Z.shiftl_0_l. apply cong_refl.
Qed.

Lemma be_zero l : Forall byte_ok l -> be l = 0 <-> Forall (fun x => x = 0) l.
Proof.
  induction l as [|x l IH] using rev_ind; intros H; [done|]. apply Forall_app in H as [H1 H2]. rewrite be_snoc, Forall_app, Forall_singleton, <- IH by done.
  pose proof (be_nonneg l H1). apply (proj1 (Forall_singleton _ _)) in H2. unfold byte_ok in H2. cbv beta. lia.
Qed.

Lemma zeros_at l : Forall (fun x => x = 0) l <-> forall k, 0 <= k < zlen l -> at_pos l k = 0.
Proof.
  rewrite Forall_lookup. split.
  - intros H k Hk. destruct (lookup_lt_is_Some_2 l (Z.to_nat k)) as [x Hx]; [unfold zlen in Hk; lia|]. rewrite (at_pos_lookup l k x) by (done || lia). by eapply H.
  - intros H i x Hx. pose proof (lookup_lt_Some _ _ _ Hx). specialize (H (Z.of_nat i) ltac:(unfold zlen; lia)). by rewrite (at_pos_lookup _ _ x) in H by (rewrite ?Nat2Z.id; done || lia).
Qed.

(** the test for zeros, on a block with its CRC *)
Lemma all_zero_ok k data crcb r : Forall byte_ok data -> Forall byte_ok crcb -> 2 <= zlen crcb -> remainder k (be data) (be crcb) ->
  all_zero_block (data ++ crcb ++ r) (zlen data) = Ret (bool_decide (Forall (fun x => x = 0) data)).
Proof.
  intros Hd Hc Hz Hrem. set (b := data ++ crcb ++ r). pose proof (zlen_nonneg data) as Hd0. pose proof (zlen_nonneg r).
  assert (Hzb : zlen b = zlen data + zlen crcb + zlen r) by (unfold b; rewrite !zlen_app; lia).
  assert (Hcrc : forall i, 0 <= i < zlen crcb -> at_pos b (zlen data + i) = at_pos crcb i).
  { intros i Hi. unfold b. rewrite at_pos_app, (proj2 (Z.ltb_ge _ _)) by lia. replace (zlen data + i - zlen data) with i by lia. rewrite at_pos_app, (proj2 (Z.ltb_lt _ _)) by lia. done. }
  assert (Hdat : forall i, 0 <= i < zlen data -> at_pos b i = at_pos data i) by (intros i Hi; unfold b; by rewrite at_pos_app, (proj2 (Z.ltb_lt _ _)) by lia).
  assert (Hzero : Forall (fun x => x = 0) data -> Forall (fun x => x = 0) crcb).
  { intros H0%be_zero; [|done]. apply be_zero; [done|]. rewrite H0 in Hrem. by eapply zero_remainder. }
  assert (Hno : forall i, 0 <= i < zlen crcb -> at_pos crcb i <> 0 -> bool_decide (Forall (fun x => x = 0) data) = false).
  { intros i Hi Hne. apply bool_decide_eq_false_2. intros H0. by apply Hne, (proj1 (zeros_at crcb) (Hzero H0)). }
  pose proof (Hcrc 0 ltac:(lia)) as H0. rewrite Z.add_0_r in H0. pose proof (Hcrc 1 ltac:(lia)) as H1.
  unfold all_zero_block. rewrite (rd_at b (zlen data)), H0, bind_Ret_l by lia. destruct (Z.eqb_spec (at_pos crcb 0) 0) as [Hx|Hx]; [|by rewrite (Hno 0) by (done || lia)].
  rewrite (rd_at b (zlen data + 1)), H1, bind_Ret_l by lia. destruct (Z.eqb_spec (at_pos crcb 1) 0) as [Hy|Hy]; [|by rewrite (Hno 1) by (done || lia)].
  destruct (skip_zeros_ok b (zlen data) (S (Z.to_nat (zlen data))) ltac:(lia) 0 ltac:(lia) ltac:(lia)) as (j & -> & Hj & Hiff). rewrite bind_Ret_l. f_equal.
  apply eq_true_iff_eq. rewrite bool_decide_eq_true, Z.eqb_eq, Hiff, zeros_at. split; intros H2 i Hi; [rewrite <- Hdat by lia|rewrite Hdat by lia]; by apply H2.
Qed.

(** ** The gNB *)

(** the grant of a DLSCH, in the form both directions share *)
Definition dl_grant (d : gnb_dlsch) : ue_pusch_pdu :=
  let r := gd_rel15 d in
  mk_ue_pdu (dp_rbSize r) (dp_TBSize r) (dp_qamModOrder r) (dp_nrOfLayers r) (dp_rvIndex r) (dp_ldpcBaseGraph r) (dp_tbSizeLbrmBytes r) 0.

Local Abbreviation dl_segments d := (seg_C (tb_sizes (dp_ldpcBaseGraph (gd_rel15 d)) (8 * dp_TBSize (gd_rel15 d)))).

(** the DLSCH has the payload, with room for its CRC, and buffers for the segments *)
Record dlsch_ready (d : gnb_dlsch) : Prop := {
  dr_payload : Forall byte_ok (gd_pdu d) /\ dp_TBSize (gd_rel15 d) + 4 <= zlen (gd_pdu d);
  dr_limit : dp_TBSize (gd_rel15 d) + 4 <= MAX_NUM_NR_DLSCH_SEGMENTS_PER_LAYER * dp_nrOfLayers (gd_rel15 d) * 1056;
  dr_segments : dl_segments d <= MAX_NUM_NR_DLSCH_SEGMENTS_PER_LAYER * dp_nrOfLayers (gd_rel15 d);
  dr_b : Forall byte_ok (gd_b d) /\ dp_TBSize (gd_rel15 d) + 4 <= zlen (gd_b d);
  dr_c : dl_segments d <= zlen (gd_c d) /\ Forall (fun out => Forall byte_ok out /\ 1056 <= zlen out) (gd_c d) }.

(** the resource elements that are left for data and other signals *)
Definition data_res (d : gnb_dlsch) : Z :=
  let r := gd_rel15 d in (12 * dp_NrOfSymbols r - nb_re_dmrs r * get_num_dmrs (dp_dlDmrsSymbPos r)) * dp_rbSize r.

(** the other signals leave something of them *)
Record dl_allocation (d : gnb_dlsch) : Prop := {
  da_rb : 0 <= dp_rbSize (gd_rel15 d);
  da_symbols : dp_NrOfSymbols (gd_rel15 d) <= 14;
  da_unav : 0 <= gd_unav_res d <= data_res d;
  da_width : data_res d * dp_qamModOrder (gd_rel15 d) * dp_nrOfLayers (gd_rel15 d) < 2 ^ 32 }.

Lemma num_dmrs_nonneg mask : 0 <= get_num_dmrs mask.
Proof.
  unfold get_num_dmrs. induction (seqZ 0 16) as [|i l IH]; cbn [sumZ]; [done|]. pose proof (Z.mod_pos_bound (Z.shiftr mask i) (2 ^ 1) ltac:(lia)).
  rewrite (Z.land_ones _ 1) by lia. lia.
Qed.

(** the coded bits are the ones of the resource elements left, and fit the room *)
Lemma G_in_room d : dl_allocation d -> 0 < dp_qamModOrder (gd_rel15 d) -> 0 < dp_nrOfLayers (gd_rel15 d) ->
  dlsch_G d = (data_res d - gd_unav_res d) * dp_qamModOrder (gd_rel15 d) * dp_nrOfLayers (gd_rel15 d) /\ dlsch_G d <= dlsch_room d.
Proof.
  intros [H1 H2 H3 H4] HQ HN. set (r := gd_rel15 d) in *. set (Q := dp_qamModOrder r) in *. set (N := dp_nrOfLayers r) in *. set (U := gd_unav_res d) in *.
  assert (HG : dlsch_G d = (data_res d - U) * Q * N).
  { unfold dlsch_G, nr_get_G. fold r. fold Q. fold N. fold U. change ((12 * dp_NrOfSymbols r - nb_re_dmrs r * get_num_dmrs (dp_dlDmrsSymbPos r)) * dp_rbSize r) with (data_res d).
    assert (0 <= U * Q) by nia. assert (U * Q <= data_res d * Q) by nia. assert (U * Q <= U * Q * N) by nia. assert (U * Q * N <= data_res d * Q * N) by nia.
    rewrite (u32_small (U * Q)), (u32_small (U * Q * N)), (u32_small (data_res d * Q * N)), u32_small by lia. lia. }
  split; [done|]. rewrite HG. unfold dlsch_room. fold r. fold Q. fold N. set (x := dp_rbSize r * NR_SYMBOLS_PER_SLOT * NR_NB_SC_PER_RB * Q * N).
  assert (Hd : data_res d <= dp_rbSize r * NR_SYMBOLS_PER_SLOT * NR_NB_SC_PER_RB).
  { unfold data_res, NR_SYMBOLS_PER_SLOT, NR_NB_SC_PER_RB. fold r. pose proof (num_dmrs_nonneg (dp_dlDmrsSymbPos r)). assert (0 <= nb_re_dmrs r) by (apply Z.mod_pos_bound; lia).
    assert (12 * dp_NrOfSymbols r - nb_re_dmrs r * get_num_dmrs (dp_dlDmrsSymbPos r) <= 168) by nia. nia. }
  assert ((data_res d - U) * (Q * N) <= dp_rbSize r * NR_SYMBOLS_PER_SLOT * NR_NB_SC_PER_RB * (Q * N)) by (apply Z.mul_le_mono_nonneg_r; nia).
  pose proof (Z.mod_pos_bound (x + 63) 64 ltac:(lia)). unfold x in *. lia.
Qed.

(** the copy of the payload with its CRC to [b] *)
Lemma copied A a b m data crcb rest ty : with_crc ty data crcb rest a -> zlen data + crc_len ty <= m -> m <= zlen a -> m <= zlen b -> Forall byte_ok b ->
  0 <= A -> exists b' rest', mem_write b 0 (take (Z.to_nat m) a) = Ret b' /\ zlen b' = zlen b /\ with_crc ty data crcb rest' b'.
Proof.
  intros (Ea & Hba & k & Hk & Hzc & Hrem) Hm Hza Hzb Hbb HA. pose proof (zlen_nonneg data). destruct (crc_len_width _ _ Hk) as [_ Hcl].
  assert (Hzt : zlen (take (Z.to_nat m) a) = m) by (rewrite zlen_take; lia).
  rewrite mem_write_ok by lia. cbn [Z.to_nat take app]. rewrite Nat.add_0_l. set (tl := drop (length (take (Z.to_nat m) a)) b).
  exists (take (Z.to_nat m) a ++ tl), (take (Z.to_nat m - length (data ++ crcb)) rest ++ tl).
  assert (Hlen : Z.of_nat (length (data ++ crcb)) = zlen data + crc_len ty) by (rewrite length_app; unfold zlen in *; lia).
  assert (Et : take (Z.to_nat m) a = data ++ crcb ++ take (Z.to_nat m - length (data ++ crcb)) rest).
  { rewrite Ea, (app_assoc data crcb rest), take_app, take_ge by lia. by rewrite <- app_assoc. }
  split_and!; [done| |]. { unfold tl. rewrite zlen_app, Hzt, zlen_drop. unfold zlen in *. lia. }
  split_and!; [by rewrite Et, <- !app_assoc|by apply Forall_app; split; [apply Forall_take|apply Forall_drop]|by exists k].
Qed.

Section gnb.
Context {enc dec} `{Hcodec : !ldpc_codec enc dec} (intel : bool) (T : crc_tables) (HT : tables_ok T).
Context (g : garbage) (Hg : garbage_ok g) (tmp : list (list Z)) (Htmp : length tmp = 8%nat) (Hbuf : Forall (fun b => zlen b = 68 * 384) tmp) (llr : Z -> Z).

(** a transport block is in the output, from [off] on *)
Definition sent (d : gnb_dlsch) (Ncb iterations : Z) (off : Z) (output : list Z) : Prop :=
  exists n L tb crcb rest f, transport (dl_grant d) n L (gd_pdu d) tb crcb rest /\
    on_air (dec := dec) g llr (dl_grant d) (dlsch_G d) Ncb iterations n tb f /\
    forall q, 0 <= q < dlsch_G d -> at_pos output (off + q) = at_pos f q.

Lemma dlsch_encodes d order R Ncb ind iterations : grant_ok llr (dl_grant d) R (dlsch_G d) Ncb ind iterations -> dlsch_ready d ->
  order ≡ₚ seqZ 0 (task_count (dl_segments d)) ->
  exists tb0 d' te, dlsch_segment intel T d = Ret (Some tb0, d') /\ gd_rel15 d' = gd_rel15 d /\ dlsch_G d' = dlsch_G d /\ dlsch_shares d' tb0 = Ret te /\
    forall output, dlsch_G d <= zlen output -> exists f, nrLDPC_prepare_TB_encoding enc tmp te order output = Ret f /\ zlen f = zlen output /\
      exists n L tb crcb rest, transport (dl_grant d) n L (gd_pdu d) tb crcb rest /\ on_air (dec := dec) g llr (dl_grant d) (dlsch_G d) Ncb iterations n tb f.
Proof using Hbuf Hg HT Htmp.
  intros Hgr [[Hp1 Hp2] Hlim Hsegm [Hb1 Hb2] [Hc1 Hc2]] Hperm. destruct (grant_B llr (dl_grant d) R (dlsch_G d) Ncb ind iterations Hgr) as (HB & _ & Hu32).
  destruct (gr_size _ _ _ _ _ _ _ Hgr) as [Hsz [Hf1 Hf2 Hf3]]. pose proof (gr_share _ _ _ _ _ _ _ Hgr) as Hsp. pose proof (sp_C256 _ _ _ _ Hsp) as HC256.
  cbn [dl_grant up_tb_size up_ldpcBaseGraph up_Qm up_nrOfLayers] in *. set (n0 := dp_TBSize (gd_rel15 d)) in *. set (A := 8 * n0) in *.
  destruct (attach_crc_ok intel T (MAX_NUM_NR_DLSCH_SEGMENTS_PER_LAYER * dp_nrOfLayers (gd_rel15 d) * 1056) A (gd_pdu d) HT) as (a & crcb & rest & Hatt & Hza & Hcrc); try done; try lia.
  { unfold A. rewrite mul8_div. lia. } { unfold A. by rewrite mul8_div. }
  assert (HA8 : A / 8 = n0) by apply mul8_div. rewrite HA8 in Hcrc.
  set (m := n0 + (if NR_MAX_PDSCH_TBS <? A then 4 else 3)). assert (Hm : n0 + 3 <= m <= n0 + 4) by (unfold m; destruct (_ <? A); lia).
  assert (Hzd : zlen (take (Z.to_nat n0) (gd_pdu d)) = n0) by (rewrite zlen_take; lia).
  assert (Hcl3 : crc_len (crcType 1 A) <= 3) by (unfold crcType; destruct (1 <? 1), (NR_MAX_PDSCH_TBS <? A); by vm_compute).
  destruct (copied A a (gd_b d) m _ _ _ _ Hcrc) as (b & rest' & Hw & Hzb & Hcrc'); [lia|lia|lia|done|lia|].
  assert (HBz : lenWithCrc 1 A <= 8 * zlen b) by (rewrite lenWithCrc_one; lia).
  pose proof (blocks_carry intel T HT g Hg llr (dl_grant d) R (dlsch_G d) Ncb ind iterations Hgr tmp (gd_pdu d) b crcb rest' (mk_segmentation 0 0 (gd_Z d) 0) (gd_c d) order) as Hblk.
  cbn [dl_grant up_tb_size up_ldpcBaseGraph up_Qm up_nrOfLayers up_rv_index up_tbslbrm] in Hblk. fold n0 in Hblk. fold A in Hblk.
  assert (HG : 0 <= dlsch_G d) by apply (sp_G _ _ _ _ Hsp).
  destruct (Hblk (replicate (Z.to_nat (dlsch_G d)) 0)) as (outs & te & _ & _ & _ & Eseg & Ete & _); try done; [lia|rewrite zlen_replicate_Z; lia|].
  eexists _, (d <| gd_pdu := a |> <| gd_b := b |> <| gd_c := outs |>), te. split_and!; [|done|done| |].
  - unfold dlsch_segment. fold n0. rewrite Hu32, Hatt, bind_Ret_l. rewrite Z.quot_div_nonneg, HA8 by lia. fold m.
    rewrite mem_read_ok, drop_0, bind_Ret_l, Hw, bind_Ret_l, Eseg, bind_Ret_l by lia. by rewrite (proj2 (Z.ltb_ge _ _)) by done.
  - unfold dlsch_shares. cbn [te_C te_Qm te_BG te_rv_index te_tbslbrm te_Kb te_K te_Z te_F gd_rel15 gd_c set]. rewrite segment_shares_ok by (done || lia).
    by rewrite bind_Ret_l, Z2Nat.id, Ete by lia.
  - intros output Hout. destruct (Hblk output) as (outs' & te' & f & n & L & Eseg' & Ete' & Ef & Hzf & Htr & Hair); try done; [lia|].
    rewrite Eseg in Eseg'. injection Eseg' as <-. rewrite <- Ete in Ete'. subst te'. exists f. split_and!; [done..|]. by exists n, L, b, crcb, rest'.
Qed.

(** a transmission: the DLSCH, the order of its encoding tasks, and the code rate, the
    circular buffer and the iterations of its grant *)
Record dl_tx := mk_dl_tx { dt_dlsch : gnb_dlsch; dt_order : list Z; dt_R : Z; dt_Ncb : Z; dt_ind : Z; dt_iterations : Z }.

Record dl_tx_ok (tx : dl_tx) : Prop := {
  dt_grant : grant_ok llr (dl_grant (dt_dlsch tx)) (dt_R tx) (dlsch_G (dt_dlsch tx)) (dt_Ncb tx) (dt_ind tx) (dt_iterations tx);
  dt_ready : dlsch_ready (dt_dlsch tx);
  dt_tasks : dt_order tx ≡ₚ seqZ 0 (task_count (dl_segments (dt_dlsch tx)));
  dt_allocation : dl_allocation (dt_dlsch tx) }.

Lemma dt_room tx : dl_tx_ok tx -> 0 <= dlsch_G (dt_dlsch tx) <= dlsch_room (dt_dlsch tx).
Proof using.
  intros [Hgr _ _ Ha]. pose proof (gr_share _ _ _ _ _ _ _ Hgr) as [_ HQ HN [HG _] _ _]. split; [exact HG|]. by apply (G_in_room _ Ha HQ HN).
Qed.

Local Abbreviation rooms txs := (sumZ (fun tx => dlsch_room (dt_dlsch tx)) txs).

Lemma rooms_nonneg txs : Forall dl_tx_ok txs -> 0 <= rooms txs.
Proof using.
  clear Htmp. induction 1 as [|tx txs Htx _ IH]; cbn [sumZ]; [done|]. pose proof (dt_room _ Htx). pose proof (sp_G _ _ _ _ (gr_share _ _ _ _ _ _ _ (dt_grant _ Htx))). lia.
Qed.

Lemma dlsch_room_cong d d' : gd_rel15 d' = gd_rel15 d -> dlsch_room d' = dlsch_room d.
Proof using. intros H. unfold dlsch_room. by rewrite H. Qed.

(** the transport blocks of a slot, one after the other in the output *)
Lemma slot_encodes txs : Forall dl_tx_ok txs ->
  exists tbs ds, dlsch_segment_loop intel T (map dt_dlsch txs) = Ret (Some tbs, ds) /\
    forall off output, 0 <= off -> off + rooms txs <= zlen output ->
    exists TBs output', dlsch_share_loop ds tbs (map dt_order txs) off = Ret TBs /\ encode_in_place enc tmp TBs output = Ret output' /\
      zlen output' = zlen output /\ (forall q, 0 <= q < off -> at_pos output' q = at_pos output q) /\
      forall i tx, txs !! i = Some tx -> sent (dt_dlsch tx) (dt_Ncb tx) (dt_iterations tx) (off + rooms (take i txs)) output'.
Proof using Hbuf Hg HT Htmp.
  intros Hall. induction Hall as [|tx txs Htx Hall (tbs & ds & E1 & E2)].
  { exists [], []. split; [done|]. intros off output _ _. exists [], output. by split_and!. }
  destruct (dlsch_encodes (dt_dlsch tx) (dt_order tx) _ _ _ _ (dt_grant _ Htx) (dt_ready _ Htx) (dt_tasks _ Htx)) as (tb0 & d' & te & S1 & S2 & S3 & S4 & S5).
  exists (tb0 :: tbs), (d' :: ds). split. { cbn [map dlsch_segment_loop]. by rewrite S1, bind_Ret_l, E1, bind_Ret_l. }
  intros off output Hoff Hz. cbn [sumZ] in Hz. pose proof (rooms_nonneg txs Hall) as Hr0. pose proof (dt_room _ Htx) as HG.
  pose proof (sp_G _ _ _ _ (gr_share _ _ _ _ _ _ _ (dt_grant _ Htx))) as HG0.
  destruct (S5 (drop (Z.to_nat off) output)) as (f & F1 & F2 & n & L & tb & crcb & rest & Htr & Hair); [rewrite zlen_drop; lia|]. rewrite zlen_drop in F2.
  set (out1 := take (Z.to_nat off) output ++ f). assert (Hz1 : zlen out1 = zlen output) by (unfold out1; rewrite zlen_app, zlen_take; lia).
  assert (Hzt : zlen (take (Z.to_nat off) output) = off) by (rewrite zlen_take; lia).
  destruct (E2 (off + dlsch_room (dt_dlsch tx)) out1) as (TBs & output' & L1 & L2 & L3 & L4 & L5); [lia|lia|].
  exists ((te, dt_order tx, off) :: TBs), output'. split_and!.
  - cbn [map dlsch_share_loop]. by rewrite S4, bind_Ret_l, (dlsch_room_cong _ _ S2), L1, bind_Ret_l.
  - cbn [encode_in_place]. by rewrite F1, bind_Ret_l.
  - lia.
  - intros q Hq. rewrite L4 by lia. unfold out1. rewrite at_pos_app, (proj2 (Z.ltb_lt _ _)), at_pos_take by lia. done.
  - intros [|i] tx' Hi; cbn [take sumZ].
    + injection Hi as <-. exists n, L, tb, crcb, rest, f. split_and!; [done..|]. intros q Hq. rewrite Z.add_0_r, L4 by lia. unfold out1.
      rewrite at_pos_app, (proj2 (Z.ltb_ge _ _)) by lia. f_equal. lia.
    + rewrite Z.add_assoc. by apply L5.
Qed.
End gnb.

(** ** The UE *)

Lemma soft_zeros : zlen (replicate (Z.to_nat SOFT_BITS) 0) = SOFT_BITS /\ forall q, 0 <= q < SOFT_BITS -> at_pos (replicate (Z.to_nat SOFT_BITS) 0) q = 0.
Proof. split; [apply zlen_replicate_Z; discriminate|]. intros q Hq. by apply at_pos_replicate. Qed.

#[local] Opaque SOFT_BITS.

Lemma clear_soft_ok rounds : forall i ds, (i + rounds <= length ds)%nat -> Forall (fun d => SOFT_BITS <= zlen d) ds ->
  exists ds', clear_soft_bits rounds i ds = Ret ds' /\ length ds' = length ds /\ Forall (fun d => SOFT_BITS <= zlen d) ds' /\
    (forall j, (j < i)%nat -> ds' !! j = ds !! j) /\ forall j d, (i <= j < i + rounds)%nat -> ds' !! j = Some d -> forall q, 0 <= q < SOFT_BITS -> at_pos d q = 0.
Proof.
  destruct soft_zeros as [Hs Hz0]. induction rounds as [|rounds IH]; intros i ds Hlen Hall; cbn [clear_soft_bits].
  { exists ds. split_and!; [reflexivity|reflexivity|exact Hall|reflexivity|]. intros j d Hj. lia. }
  revert Hs Hz0. generalize (replicate (Z.to_nat SOFT_BITS) 0) at 1 2 3. intros zs Hs Hz0.
  destruct (lookup_lt_is_Some_2 ds i) as [d Hd]; [lia|]. rewrite Hd. pose proof (proj1 (Forall_lookup _ _) Hall _ _ Hd) as Hzd. cbn beta in Hzd.
  destruct (mem_write_at d 0 zs) as (d1 & W1 & W2 & W3); [lia|lia|]. rewrite W1, bind_Ret_l.
  destruct (IH (S i) (<[i := d1]> ds)) as (ds' & E1 & E2 & E3 & E4 & E5).
  { rewrite length_insert. lia. } { apply Forall_insert; [exact Hall|]. rewrite W2. exact Hzd. }
  rewrite length_insert in E2. exists ds'. split_and!; [exact E1|exact E2|exact E3| |].
  - intros j Hj. rewrite E4 by lia. apply list_lookup_insert_ne. lia.
  - intros j x Hj Hx q Hq. destruct (decide (j = i)) as [->|Hne]; [|eapply (E5 j x); [lia|exact Hx|lia]].
    rewrite E4, list_lookup_insert_eq in Hx by lia. injection Hx as <-. rewrite W3, Hs by lia. rewrite (proj2 (Z.leb_le _ _)), (proj2 (Z.ltb_lt _ _)) by lia.
    cbn [andb]. apply Hz0. lia.
Qed.

#[local] Opaque clear_soft_bits.

(** a process in the array of the UE *)
Lemma dl_harq_stored d d' harq pid h h' : dl_harq_at [d] harq 0 = Ret (d, pid, h) -> ud_config d' = ud_config d ->
  dl_harq_at [d'] (store_dl_harq harq 0 pid h') 0 = Ret (d', pid, h').
Proof.
  unfold dl_harq_at. cbn [lookup list_lookup]. intros H Hc. rewrite Hc. set (p := Z.to_nat _) in *. unfold store_dl_harq.
  destruct harq as [|l harq]; [done|]. cbn in *. destruct (l !! p) as [h0|] eqn:Hl; [|done]. injection H as <- <-.
  assert (Hlt : (p < length l)%nat) by by eapply lookup_lt_Some. change (list_insert p h' l) with (<[p := h']> l). by rewrite list_lookup_insert_eq by done.
Qed.

(** the UE has the configuration of the DLSCH, as a new transmission, and its process
    the buffers *)
Record ue_ready (gd : gnb_dlsch) (iterations : Z) (d : ue_dlsch) (h : ue_dl_harq) (b : list Z) : Prop := {
  uc_TBS : dc_TBS (ud_config d) = 8 * dp_TBSize (gd_rel15 gd);
  uc_Qm : dc_qamModOrder (ud_config d) = dp_qamModOrder (gd_rel15 gd);
  uc_rv : dc_rv (ud_config d) = dp_rvIndex (gd_rel15 gd);
  uc_BG : dc_ldpcBaseGraph (ud_config d) = dp_ldpcBaseGraph (gd_rel15 gd);
  uc_lbrm : dc_tbslbrm (ud_config d) = dp_tbSizeLbrmBytes (gd_rel15 gd);
  uc_dmrs : dc_dmrsConfigType (ud_config d) = 0 \/ dc_dmrsConfigType (ud_config d) = 1;
  uc_layers : sumZ (fun i => Z.land (Z.shiftr (dc_dmrs_ports (ud_config d)) i) 1) (seqZ 0 12) = dp_nrOfLayers (gd_rel15 gd);
  uc_new : dc_new_data_indicator (ud_config d) = true;
  uc_iterations : ud_max_ldpc_iterations d = iterations;
  uc_d : dl_segments gd <= zlen (dh_d h) /\ Forall (fun d => SOFT_BITS <= zlen d) (dh_d h);
  uc_c : dl_segments gd <= zlen (dh_c h) /\ Forall (fun c => 1056 <= zlen c) (dh_c h);
  uc_b : Forall byte_ok b /\ lenWithCrc 1 (8 * dp_TBSize (gd_rel15 gd)) / 8 <= zlen b }.

(** a process is prepared for a new transmission *)
Lemma configured gd iterations d h b : ue_ready gd iterations d h b -> 0 < dp_nrOfLayers (gd_rel15 gd) -> 0 <= dp_rvIndex (gd_rel15 gd) <= 3 ->
  exists d1 h1, configure_dlsch d h (ud_config d) = Ret (d1, h1, None) /\ ud_config d1 = ud_config d /\ ud_Nl d1 = dp_nrOfLayers (gd_rel15 gd) /\
    ud_max_ldpc_iterations d1 = iterations /\ dh_first_rx h1 = 1 /\ dh_status h1 = ACTIVE /\ dh_DLround h1 = 0 /\ dh_d h1 = dh_d h /\ dh_c h1 = dh_c h.
Proof.
  intros Hu HN Hrv. unfold configure_dlsch. rewrite (uc_layers _ _ _ _ _ Hu), (proj2 (Z.eqb_neq _ _)), (uc_new _ _ _ _ _ Hu) by lia.
  unfold downlink_harq_process. rewrite (uc_rv _ _ _ _ _ Hu), (proj2 (Z.ltb_lt _ 4)), (proj2 (Z.leb_le 0 _)) by lia. cbn [andb].
  pose proof (uc_iterations _ _ _ _ _ Hu) as Hit. destruct (_ || _ || _); rewrite bind_Ret_l; cbn [dh_status set]; eexists _, _; (split; [reflexivity|]); by split_and!.
Qed.

Section ue.
Context {enc dec} `{Hcodec : !ldpc_codec enc dec} (intel : bool) (T : crc_tables) (HT : tables_ok T) (g : garbage) (llr : Z -> Z).
Context (gd : gnb_dlsch) (R Ncb ind iterations : Z) (Hgr : grant_ok llr (dl_grant gd) R (dlsch_G gd) Ncb ind iterations).

Local Abbreviation pdu := (dl_grant gd).
Local Abbreviation size := (dp_TBSize (gd_rel15 gd)).
Local Abbreviation p := (tb_sizes (dp_ldpcBaseGraph (gd_rel15 gd)) (8 * size)).
Local Abbreviation C := (seg_C p).
Local Abbreviation td := (td_of (dp_qamModOrder (gd_rel15 gd)) (dp_ldpcBaseGraph (gd_rel15 gd)) (dp_rvIndex (gd_rel15 gd)) iterations (dp_tbSizeLbrmBytes (gd_rel15 gd)) (8 * size)).

(** the parameters of the decoder, and the buffers all cleared *)
Lemma parameters_ok d h d1 h1 b : ue_ready gd iterations d h b -> C <= MAX_NUM_NR_DLSCH_SEGMENTS_PER_LAYER * dp_nrOfLayers (gd_rel15 gd) ->
  ud_config d1 = ud_config d -> ud_Nl d1 = dp_nrOfLayers (gd_rel15 gd) -> ud_max_ldpc_iterations d1 = iterations ->
  dh_first_rx h1 = 1 -> dh_d h1 = dh_d h -> dh_c h1 = dh_c h ->
  exists ds, dlsch_parameters d1 h1 = Ret (Some td, h1 <| dh_seg := p |> <| dh_d := ds |>) /\
    rx_ready pdu Ncb iterations ds (replicate (Z.to_nat C) true) (dh_c h1).
Proof using Hgr.
  intros Hu HC E1 E2 E3 F1 F2 F3. destruct (grant_B llr pdu R (dlsch_G gd) Ncb ind iterations Hgr) as (HB & _ & _). cbn [dl_grant up_tb_size] in HB.
  pose proof (grant_BG llr pdu R (dlsch_G gd) Ncb ind iterations Hgr) as HBG. cbn [dl_grant up_ldpcBaseGraph] in HBG. destruct (uc_d _ _ _ _ _ Hu) as [Hd1 Hd2]. destruct (uc_c _ _ _ _ _ Hu) as [Hc1 Hc2].
  assert (HC0 : 0 <= C) by (pose proof (sp_C256 _ _ _ _ (gr_share _ _ _ _ _ _ _ Hgr)) as H; cbn [dl_grant up_ldpcBaseGraph up_tb_size] in H; lia).
  destruct (segmentation_sizes_ok false zero_tables None (lenWithCrc 1 (8 * size)) (mk_segmentation 0 0 0 0) _ HBG HB) as (Kp & L0 & Hs & Eseg).
  destruct (clear_soft_ok (Z.to_nat C) 0 (dh_d h)) as (ds & Eds & L1 & L2 & _ & L3); [unfold zlen in Hd1; lia|exact Hd2|]. exists ds. split.
  { unfold dlsch_parameters. rewrite E1, E2, E3, F1. rewrite (uc_TBS _ _ _ _ _ Hu), (uc_Qm _ _ _ _ _ Hu), (uc_rv _ _ _ _ _ Hu), (uc_BG _ _ _ _ _ Hu), (uc_lbrm _ _ _ _ _ Hu).
    assert (negb _ = false) as -> by (by destruct (uc_dmrs _ _ _ _ _ Hu) as [-> | ->]). cbn [Z.eqb Pos.eqb].
    rewrite Eseg, !bind_Ret_l. fold p. rewrite (proj2 (Z.ltb_ge _ _)) by exact HC. cbn [dh_d set]. rewrite F2, Eds, bind_Ret_l. reflexivity. }
  rewrite F3. cbn [dl_grant up_Qm up_ldpcBaseGraph up_rv_index up_tbslbrm up_tb_size].
  fold (tb_sizes (dp_ldpcBaseGraph (gd_rel15 gd)) (8 * size)) in Hs.   pose proof (sg_Zmax _ _ _ _ _ Hs) as HZ. pose proof (sg_K _ _ _ _ _ Hs) as HK.
  destruct (gr_select _ _ _ _ _ _ _ Hgr) as (_ & _ & HNcb & _). cbn [dl_grant up_Qm up_ldpcBaseGraph up_rv_index up_tbslbrm up_tb_size] in HNcb.
  change (td_Z td) with (seg_Zout p) in *. change (td_K td) with (seg_K p) in *.
  assert (HK' : 2 * seg_Zout p <= seg_K p <= 8448).
  { rewrite HK. unfold code_block_max. destruct (_ =? 1); lia. }
  split; cbn [dl_grant up_Qm up_ldpcBaseGraph up_rv_index up_tbslbrm up_tb_size]; change (td_Z td) with (seg_Zout p); change (td_K td) with (seg_K p).
  - intros r Hr. by apply lookup_replicate_2.
  - split; [unfold zlen in *; lia|]. apply Forall_lookup. intros r x Hx. apply lookup_take_Some in Hx as [Hx Hr].
    pose proof (proj1 (Forall_lookup _ _) L2 _ _ Hx) as Hzx. cbn beta in Hzx. assert (Hcol : columns (dp_ldpcBaseGraph (gd_rel15 gd)) * seg_Zout p <= SOFT_BITS).
    { change SOFT_BITS with 42240. unfold columns. destruct (_ =? 1); lia. }
    split; [lia|]. intros i Hi. cbn [dl_grant up_ldpcBaseGraph up_Qm up_rv_index up_tbslbrm up_tb_size] in Hi. change (td_Z td) with (seg_Zout p) in Hi.
    apply (L3 r x ltac:(lia) Hx). lia.
  - split; [exact Hc1|]. apply Forall_take. eapply Forall_impl; [exact Hc2|]. intros c Hc. cbn beta in Hc. assert (seg_K p / 8 <= 8448 / 8) by (apply Z.div_le_mono; lia).
    change (8448 / 8) with 1056 in *. lia.
Qed.
(** a UE with one codeword takes a transmission: its process is prepared and the soft bits
    are decoded *)
Definition receive_dlsch (d : ue_dlsch) (harq : list (list ue_dl_harq)) (b rx : list Z) (G : Z) : outcome (Z * list ue_dlsch * list (list ue_dl_harq) * list (list Z)) :=
  '(_, pid, h) ← dl_harq_at [d] harq 0;
  '(d, h, _) ← configure_dlsch d h (ud_config d);
  nr_dlsch_decoding intel T dec g [d] [rx] [b] [G] [0%nat] (store_dl_harq harq 0 pid h).

(** what the UE makes of a transport block: the block is in [b], and it is taken unless
    it is all zero *)
Definition dl_delivered (payload : list Z) (d : ue_dlsch) (pid : nat) (r : Z * list ue_dlsch * list (list ue_dl_harq) * list (list Z)) : Prop :=
  let zero := bool_decide (Forall (fun x => x = 0) (take (Z.to_nat size) payload)) in
  exists dlsch harq b h, r = (if zero then u8 (ud_max_ldpc_iterations d + 1) else ud_max_ldpc_iterations d, dlsch, harq, [b]) /\
    take (Z.to_nat size) b = take (Z.to_nat size) payload /\ dl_harq_at [d] harq 0 = Ret (d, pid, h) /\
    dh_decodeResult h = negb zero /\ dh_status h = if zero then ACTIVE else SCH_IDLE.

Lemma result_ok n L tb crcb rest h b : transport pdu n L (gd_pdu gd) tb crcb rest -> size <= zlen (gd_pdu gd) -> Forall byte_ok b ->
  dh_seg h = p -> dh_processedSegments h = C ->
  dlsch_result intel T h (8 * size) (take (Z.to_nat (C * n)) tb ++ drop (Z.to_nat (C * n)) b) =
    Ret (negb (bool_decide (Forall (fun x => x = 0) (take (Z.to_nat size) (gd_pdu gd))))).
Proof using Hgr HT.
  intros Htr Hzp Hbb Hseg Hproc. destruct (block_prefix llr pdu R (dlsch_G gd) Ncb ind iterations Hgr n L (gd_pdu gd) tb crcb rest Htr Hzp) as (Hpre & Hzd & _ & Hbt).
  pose proof (block_crc_checks intel T HT llr pdu R (dlsch_G gd) Ncb ind iterations Hgr n L (gd_pdu gd) tb crcb rest b Htr Hzp Hbb) as Hcrc.
  pose proof (tr_crc _ _ _ _ _ _ _ Htr) as (_ & _ & k & Hk & Hzc & Hrem).
  cbn [dl_grant up_tb_size up_ldpcBaseGraph] in *. set (data := take (Z.to_nat size) (gd_pdu gd)) in *. rewrite Hpre in Hbt. apply Forall_app in Hbt as [Hbd Hbc].
  unfold dlsch_result. rewrite Hproc, Hseg, Z.eqb_refl. cbn [andb].
  assert ((if 1 <? C then check_crc intel T (take (Z.to_nat (C * n)) tb ++ drop (Z.to_nat (C * n)) b) (lenWithCrc 1 (8 * size)) (crcType 1 (8 * size)) else Ret true) = Ret true) as ->.
  { destruct (Z.ltb_spec 1 C); [by apply Hcrc|done]. }
  rewrite bind_Ret_l, mul8_div, Hpre, <- app_assoc, <- Hzd. erewrite all_zero_ok; [by rewrite bind_Ret_l|done|done| |exact Hrem].
  rewrite Hzc. unfold crcType. cbn [Z.ltb Z.compare Pos.compare Pos.compare_cont]. by destruct (NR_MAX_PDSCH_TBS <? _).
Qed.

Lemma ue_decodes n L tb crcb rest f rx d harq pid h b : transport pdu n L (gd_pdu gd) tb crcb rest ->
  on_air (dec := dec) g llr pdu (dlsch_G gd) Ncb iterations n tb f -> received llr (dlsch_G gd) f rx ->
  size <= zlen (gd_pdu gd) -> C <= MAX_NUM_NR_DLSCH_SEGMENTS_PER_LAYER * dp_nrOfLayers (gd_rel15 gd) ->
  dl_harq_at [d] harq 0 = Ret (d, pid, h) -> ue_ready gd iterations d h b ->
  exists r, receive_dlsch d harq b rx (dlsch_G gd) = Ret r /\ dl_delivered (gd_pdu gd) d pid r.
Proof using Hgr HT.
  intros Htr Hair Hrec Hzp HC Hat Hu. pose proof (gr_share _ _ _ _ _ _ _ Hgr) as Hsp. pose proof (sp_Nl _ _ _ _ Hsp) as HNl.
  destruct (gr_select _ _ _ _ _ _ _ Hgr) as ([_ Hrv _ _ _] & _). cbn [dl_grant up_nrOfLayers up_rv_index td_of td_rv_index] in HNl, Hrv.
  destruct (configured _ _ _ _ _ Hu HNl Hrv) as (d1 & h1 & Hcfg & E1 & E2 & E3 & F1 & F2 & F3 & F4 & F5).
  destruct (parameters_ok d h d1 h1 b Hu HC E1 E2 E3 F1 F4 F5) as (ds & Hpar & Hrd). destruct (uc_b _ _ _ _ _ Hu) as [Hb1 Hb2].
  set (h2 := h1 <| dh_seg := p |> <| dh_d := ds |>) in *.
  destruct (segments_decoded T HT g llr pdu R (dlsch_G gd) Ncb ind iterations Hgr n L (gd_pdu gd) tb crcb rest f rx ds _ (dh_c h1) (dh_DLround h1) (dh_llrLen h1) b Htr Hair Hrd Hrec Hb2)
    as (ss & ll & ss' & B1 & D1 & C1). cbn [dl_grant up_tb_size up_ldpcBaseGraph up_nrOfLayers up_Qm up_rv_index up_tbslbrm] in B1, D1, C1.
  set (b' := take (Z.to_nat (C * n)) tb ++ drop (Z.to_nat (C * n)) b) in *.
  set (h3 := h2 <| dh_llrLen := ll |>). set (h4 := h3 <| dh_d := map sd_d ss' ++ drop (length ss') (dh_d h3) |> <| dh_c := map sd_c ss' ++ drop (length ss') (dh_c h3) |> <| dh_processedSegments := C |>).
  pose proof (result_ok n L tb crcb rest h4 b Htr Hzp Hb1 eq_refl eq_refl) as Hres. fold b' in Hres. set (zero := bool_decide _) in Hres.
  set (h5 := if negb zero then h4 <| dh_decodeResult := negb zero |> <| dh_status := SCH_IDLE |> else h4 <| dh_decodeResult := negb zero |>).
  set (harq1 := store_dl_harq harq 0 pid h1). assert (H1 : dl_harq_at [d1] harq1 0 = Ret (d1, pid, h1)) by by apply (dl_harq_stored d d1 harq pid h h1 Hat).
  set (harq2 := store_dl_harq harq1 0 pid h2). assert (H2 : dl_harq_at [d1] harq2 0 = Ret (d1, pid, h2)) by by apply (dl_harq_stored d1 d1 harq1 pid h1 h2 H1).
  set (harq3 := store_dl_harq harq2 0 pid h3). assert (H3 : dl_harq_at [d1] harq3 0 = Ret (d1, pid, h3)) by by apply (dl_harq_stored d1 d1 harq2 pid h2 h3 H2).
  pose proof (dl_harq_stored d1 d harq3 pid h3 h5 H3 (eq_sym E1)) as H5. set (harq5 := store_dl_harq harq3 0 pid h5) in *.
  assert (Hsegs : dlsch_segments d1 h2 (dlsch_G gd) rx td = Ret (ss, h3)).
  { unfold dlsch_segments. change (td_C td) with C. change (dh_first_rx h2) with (dh_first_rx h1). rewrite F1, E2. change (1 =? 1) with true.
    change (dh_DLround h2) with (dh_DLround h1). change (dh_llrLen h2) with (dh_llrLen h1). change (dh_d h2) with ds. change (dh_c h2) with (dh_c h1). by rewrite B1, bind_Ret_l. }
  assert (Hfin : dlsch_finish intel T d1 h3 b ss' C = Ret (negb zero, h5, b')).
  { unfold dlsch_finish. change (dh_seg h3) with p. rewrite C1, bind_Ret_l. rewrite E1, (uc_TBS _ _ _ _ _ Hu). fold h4. rewrite Hres, bind_Ret_l. done. }
  set (cnt := if negb zero then ud_max_ldpc_iterations d1 else u8 (ud_max_ldpc_iterations d1 + 1)).
  exists (cnt, [d1 <| ud_last_iteration_cnt := cnt |>], harq5, [b']). split.
  - unfold receive_dlsch. rewrite Hat, bind_Ret_l, Hcfg, bind_Ret_l. fold harq1. unfold nr_dlsch_decoding. cbn [dlsch_parameter_loop].
    rewrite H1, bind_Ret_l, Hpar, !bind_Ret_l. fold harq2. cbn [dlsch_segments_loop]. rewrite H2, bind_Ret_l. cbn [lookup list_lookup].
    rewrite Hsegs, !bind_Ret_l. fold harq3. cbn [nrLDPC_coding_decoder]. rewrite D1, !bind_Ret_l. cbn [dlsch_finish_loop]. rewrite H3, bind_Ret_l. cbn [lookup list_lookup].
    rewrite Hfin, bind_Ret_l. fold cnt. cbn [insert list_insert dlsch_finish_loop]. rewrite bind_Ret_l. reflexivity.
  - unfold dl_delivered. fold zero. exists [d1 <| ud_last_iteration_cnt := cnt |>], harq5, b', h5. split_and!; [| |exact H5| |].
    + assert (cnt = if zero then u8 (ud_max_ldpc_iterations d + 1) else ud_max_ldpc_iterations d) as <-; [|done].
      unfold cnt. rewrite (uc_iterations _ _ _ _ _ Hu), E3. by destruct zero.
    + destruct (block_prefix llr pdu R (dlsch_G gd) Ncb ind iterations Hgr n L (gd_pdu gd) tb crcb rest Htr Hzp) as (Hpre & Hzd & _ & _). cbn [dl_grant up_tb_size up_ldpcBaseGraph] in Hpre, Hzd.
      unfold b'. rewrite Hpre, <- app_assoc. apply take_app_length'. unfold zlen in Hzd. lia.
    + unfold h5. by destruct zero.
    + unfold h5. destruct zero; cbn [negb]; [exact F2|done].
Qed.
End ue.

(** where the bits of a transport block of the slot start in the output *)
Definition dl_start (txs : list dl_tx) (i : nat) : Z := sumZ (fun tx => dlsch_room (dt_dlsch tx)) (take i txs).

(** C14: the downlink shared channel delivers transport blocks. The gNB encodes any
    number of DLSCHs in a slot ([nr_dlsch_encoding]: CRC, segmentation, shares, LDPC
    encoding, rate matching and interleaving, in whatever order the pool runs the tasks),
    one after the other in one output, and none overwrites another's bits. A UE with one
    codeword (the build has at most four layers, so a UE has one) prepares its HARQ
    process for new data ([configure_dlsch]), whatever the process held, and decodes
    ([nr_dlsch_decoding]): the transport block is in its buffer. Unless the block is all
    zero, the UE returns its number of iterations, takes the block and sets the process
    idle; a block of zeros, whose CRC is zero too, is always refused, as if it had not
    been decoded. The conditions: every DLSCH has a size of [nr_compute_tbs] with its
    base graph, whole symbols on every layer and shares from which its segments can be
    decoded ([grant_ok]), a payload and buffers of the size ([dlsch_ready]) and resource
    elements left for data ([dl_allocation]); the output holds them all; the UE has the
    parameters of the DLSCH with the new data indicator set, and buffers of the size
    ([ue_ready]); its soft bits have the signs of the bits sent ([received]). The LDPC
    library is taken to decode what its encoder encoded ([ldpc_codec]). *)
Theorem downlink_delivers {enc dec} `{Hcodec : !ldpc_codec enc dec} intel T g tmp llr txs output : crcTableInit zero_tables = Ret T -> garbage_ok g ->
  length tmp = 8%nat -> Forall (fun b => zlen b = 68 * 384) tmp -> Forall (dl_tx_ok llr) txs -> dl_start txs (length txs) <= zlen output ->
  exists ds output', nr_dlsch_encoding intel T enc tmp (map dt_dlsch txs) (map dt_order txs) output = Ret (0, ds, output') /\ zlen output' = zlen output /\
    forall i tx d harq pid h b rx, txs !! i = Some tx -> dl_harq_at [d] harq 0 = Ret (d, pid, h) -> ue_ready (dt_dlsch tx) (dt_iterations tx) d h b ->
      received llr (dlsch_G (dt_dlsch tx)) (drop (Z.to_nat (dl_start txs i)) output') rx ->
      exists r, receive_dlsch (dec := dec) intel T g d harq b rx (dlsch_G (dt_dlsch tx)) = Ret r /\ dl_delivered (dt_dlsch tx) (gd_pdu (dt_dlsch tx)) d pid r.
Proof.
  intros HT%tables_init Hg Htmp Hbuf Hall Hz. unfold dl_start in Hz. rewrite firstn_all in Hz.
  destruct (slot_encodes intel T HT g Hg tmp Htmp Hbuf llr txs Hall) as (tbs & ds & E1 & E2). destruct (E2 0 output ltac:(lia) ltac:(lia)) as (TBs & output' & L1 & L2 & L3 & _ & L5).
  exists ds, output'. split_and!; [|done|].
  - unfold nr_dlsch_encoding. by rewrite E1, bind_Ret_l, L1, bind_Ret_l, L2, bind_Ret_l.
  - intros i tx d harq pid h b rx Hi Hat Hu [Hr1 Hr2]. destruct (L5 i tx Hi) as (n & L & tb & crcb & rest & f & Htr & Hair & Hf).
    pose proof (proj1 (Forall_lookup _ _) Hall _ _ Hi) as [Hgr Hrd _ _]. destruct (dr_payload _ Hrd) as [_ Hp].
    assert (Hoff : 0 <= dl_start txs i) by (unfold dl_start; apply (rooms_nonneg llr), Forall_take, Hall).
    apply (ue_decodes intel T HT g llr _ _ _ _ _ Hgr n L tb crcb rest f rx d harq pid h b Htr Hair); [|lia|apply (dr_segments _ Hrd)|done|done].
    split; [done|]. intros q Hq. rewrite Hr2, at_pos_drop by lia. f_equal. unfold dl_start. rewrite <- Hf by lia. done.
Qed.

(** ** An example *)

Definition demo_dlsch : gnb_dlsch :=
  (new_gNB_dlsch 1 2) <| gd_rel15 := mk_pdsch 3 1 2 0 2 8 1 2 4 2 0 |> <| gd_pdu := [17; 34; 51; 0; 0; 0; 0] |>.
Definition demo_dl_tx : dl_tx := mk_dl_tx demo_dlsch [0] 1200 350 0 5.
Definition demo_output : list Z := replicate (Z.to_nat 704) 0.
Definition demo_ue : ue_dlsch := mk_ue_dlsch false TYPE_C_RNTI_ (mk_dl_config 24 2 0 2 0 1 0 1 true) 0 5 0.
Definition demo_harqs : list (list ue_dl_harq) := map (map fst) (nr_init_dl_harq_processes 1 2).

Lemma demo_dl_sizes : seg_C (tb_sizes (dp_ldpcBaseGraph (gd_rel15 demo_dlsch)) (8 * dp_TBSize (gd_rel15 demo_dlsch))) = 1.
Proof. by vm_compute. Qed.

Lemma demo_dl_ok : dl_tx_ok demo_llr demo_dl_tx.
Proof.
  split; cbn [demo_dl_tx dt_dlsch dt_order dt_R dt_Ncb dt_ind dt_iterations].
  - change (dlsch_G demo_dlsch) with 352. exact (demo_grant_rb 2).
  - split; rewrite ?demo_dl_sizes.
    + split; [|by vm_compute]. repeat constructor; unfold byte_ok; lia.
    + by vm_compute.
    + by vm_compute.
    + split; [|by vm_compute]. apply Forall_replicate. unfold byte_ok. lia.
    + split; [by vm_compute|]. apply Forall_replicate. split; [apply Forall_replicate; unfold byte_ok; lia|]. by rewrite zlen_replicate_Z.
  - rewrite demo_dl_sizes. reflexivity.
  - split; by vm_compute.
Qed.

Lemma demo_ue_ready : ue_ready demo_dlsch 5 demo_ue (fst (new_dl_harq 2)) (snd (new_dl_harq 2)).
Proof.
  split; rewrite ?demo_dl_sizes; try reflexivity.
  - by right.
  - split; [by vm_compute|]. apply Forall_replicate. rewrite zlen_replicate_Z by discriminate. lia.
  - split; [by vm_compute|]. apply Forall_replicate. by rewrite zlen_replicate_Z.
  - split; [apply Forall_replicate; unfold byte_ok; lia|by vm_compute].
Qed.

Lemma downlink_delivers_witness :
  exists ds output' r, nr_dlsch_encoding true init_tables plain_encoder demo_tmp [demo_dlsch] [[0]] demo_output = Ret (0, ds, output') /\
    receive_dlsch (dec := plain_decoder) true init_tables demo_garbage demo_ue demo_harqs (snd (new_dl_harq 2)) (map demo_llr output') 352 = Ret r /\
    dl_delivered demo_dlsch [17; 34; 51; 0; 0; 0; 0] demo_ue 0 r.
Proof.
  destruct (downlink_delivers (dec := plain_decoder) true init_tables demo_garbage demo_tmp demo_llr [demo_dl_tx] demo_output) as (ds & output' & E & Hz & Hrx).
  - exact init_tables_eq.
  - exact demo_garbage_ok.
  - reflexivity.
  - exact demo_tmp_ok.
  - constructor; [exact demo_dl_ok|constructor].
  - by vm_compute.
  - destruct (Hrx 0%nat demo_dl_tx demo_ue demo_harqs 0%nat (fst (new_dl_harq 2)) (snd (new_dl_harq 2)) (map demo_llr output')) as (r & E' & D).
    + reflexivity.
    + reflexivity.
    + exact demo_ue_ready.
    + change (drop (Z.to_nat (dl_start [demo_dl_tx] 0)) output') with output'. apply received_map. rewrite Hz.
      change (zlen demo_output) with 704. change (dlsch_G (dt_dlsch demo_dl_tx)) with 352. lia.
    + exists ds, output', r. split; [exact E|]. split; [exact E'|exact D].
Defined.
