(* ===== verification/DataQueue.v ===== *)
(** The two queues between PDCP and RLC and the threads on them
    (src/openair2/LAYER2/nr_pdcp/nr_pdcp_oai_api.c): [rlc_data_req] requests
    leave PDCP through the first, [pdcp_data_ind] indications enter it through
    the second. Both are the same code: a ring of 10000 items, a mutex and ONE
    condition variable on which the consumer waits while the ring is empty and
    the producers while it is full.

    The threads are interleaved: an action is one step of one thread, between
    two points where another thread can see a difference. The scheduler picks
    the thread and, for [pthread_cond_signal], the waiting thread that it wakes
    up; a waiting thread may also wake up on its own. *)

From stdpp Require Import base tactics list numbers.
From Stdlib Require Import ZArith Lia.
From S2P Require Import Prelude.

Definition RLC_DATA_REQ_QUEUE_SIZE : Z := 10000.
Definition PDCP_DATA_IND_QUEUE_SIZE : Z := 10000.

Inductive thread := Consumer | Producer (i : nat).

#[global] Instance thread_eq_dec : EqDecision thread.
Proof. solve_decision. Defined.

Section queue.
Context {A : Type}.

(** where the consumer is: before its first lock; in the critical section that
    waits for an item; in [pthread_cond_wait]; woken up, before it has the lock
    again; using item [i] without the lock; before its second lock; removing the
    item; about to signal *)
Inductive consumer_pc :=
| C_lock | C_test | C_waiting | C_woken | C_use (i : Z) | C_lock_again | C_pop | C_signal.

(** where a producer with item [a] is; [P_idle]: outside the queue *)
Inductive producer_pc :=
| P_idle | P_lock (a : A) | P_test (a : A) | P_waiting (a : A) | P_woken (a : A) | P_put (a : A) | P_signal.

Record data_queue := mk_queue {
  q_q : list A;
  q_start : Z;
  q_length : Z;
  q_m : option thread;
  q_consumer : consumer_pc;
  q_producers : list producer_pc
}.

#[global] Instance eta_queue : Eta data_queue := fun s =>
  mk_queue (q_q s) (q_start s) (q_length s) (q_m s) (q_consumer s) (q_producers s).

(** what the rest of the program sees of a step: a thread has an item for the
    queue, the item enters it, the consumer passes an item on *)
Inductive label := Req (a : A) | Put (a : A) | Call (a : A) | Tau.

(** the zeroed queue after [init_nr_rlc_data_req_queue], with [n] threads that
    may call [enqueue_rlc_data_req] *)
Definition init_queue (size : Z) (zero : A) (n : nat) : data_queue :=
  mk_queue (replicate (Z.to_nat size) zero) 0 0 None C_lock (replicate n P_idle).

(** ** pthreads *)

Definition lock (s : data_queue) (t : thread) : option data_queue :=
  match q_m s with
  | None => Some (s <| q_m := Some t |>)
  | Some _ => None
  end.

Definition unlock (s : data_queue) : data_queue := s <| q_m := None |>.

Definition set_producer (s : data_queue) (i : nat) (pc : producer_pc) : data_queue :=
  s <| q_producers ::= <[i := pc]> |>.

(** thread [t] leaves [pthread_cond_wait], if it is in it *)
Definition wake_up (s : data_queue) (t : thread) : option data_queue :=
  match t with
  | Consumer => match q_consumer s with C_waiting => Some (s <| q_consumer := C_woken |>) | _ => None end
  | Producer i => match q_producers s !! i with
                  | Some (P_waiting a) => Some (set_producer s i (P_woken a))
                  | _ => None
                  end
  end.

Definition is_waiting (pc : producer_pc) : bool := match pc with P_waiting _ => true | _ => false end.

Definition someone_waits (s : data_queue) : bool :=
  match q_consumer s with C_waiting => true | _ => existsb is_waiting (q_producers s) end.

(** [pthread_cond_signal]: one of the waiting threads wakes up, if there is one *)
Definition cond_signal (s : data_queue) (wake : option thread) : option data_queue :=
  match wake with
  | Some t => wake_up s t
  | None => if someone_waits s then None else Some s
  end.

(** ** The threads *)

Definition with_pc (pc : consumer_pc) (s : data_queue) : data_queue := s <| q_consumer := pc |>.

Definition consumer_step (size : Z) (s : data_queue) (wake : option thread) : option (label * data_queue) :=
  match q_consumer s with
  | C_lock | C_woken => s ← lock s Consumer; Some (Tau, with_pc C_test s)
  | C_test =>
      if q_length s =? 0 then Some (Tau, unlock (with_pc C_waiting s))
      else Some (Tau, unlock (with_pc (C_use (q_start s)) s))
  | C_waiting => None
  | C_use i => a ← q_q s !! Z.to_nat i; Some (Call a, with_pc C_lock_again s)
  | C_lock_again => s ← lock s Consumer; Some (Tau, with_pc C_pop s)
  | C_pop => Some (Tau, with_pc C_signal
                 (s <| q_length ::= Z.add (-1) |> <| q_start := (q_start s + 1) %% size |>))
  | C_signal => s ← cond_signal s wake; Some (Tau, unlock (with_pc C_lock s))
  end.

Definition producer_step (size : Z) (s : data_queue) (i : nat) (wake : option thread)
  : option (label * data_queue) :=
  match q_producers s !! i with
  | Some (P_lock a) | Some (P_woken a) => s ← lock s (Producer i); Some (Tau, set_producer s i (P_test a))
  | Some (P_test a) =>
      if q_length s =? size then Some (Tau, unlock (set_producer s i (P_waiting a)))
      else Some (Tau, set_producer s i (P_put a))
  | Some (P_put a) =>
      let k := (q_start s + q_length s) %% size in
      Some (Put a, set_producer (s <| q_length ::= Z.add 1 |> <| q_q ::= <[Z.to_nat k := a]> |>) i P_signal)
  | Some P_signal => s ← cond_signal s wake; Some (Tau, unlock (set_producer s i P_idle))
  | Some P_idle | Some (P_waiting _) | None => None
  end.

(** ** Runs *)

Inductive action :=
| Run (t : thread) (wake : option thread)
| Spurious (t : thread)
| Request (i : nat) (a : A).

Definition exec (size : Z) (s : data_queue) (act : action) : option (label * data_queue) :=
  match act with
  | Run Consumer wake => consumer_step size s wake
  | Run (Producer i) wake => producer_step size s i wake
  | Spurious t => s ← wake_up s t; Some (Tau, s)
  | Request i a => match q_producers s !! i with
                   | Some P_idle => Some (Req a, set_producer s i (P_lock a))
                   | _ => None
                   end
  end.

(** a schedule and its trace *)
Fixpoint run (size : Z) (s : data_queue) (acts : list action) : option (list label * data_queue) :=
  match acts with
  | [] => Some ([], s)
  | act :: acts => '(l, s) ← exec size s act; '(tr, s) ← run size s acts; Some (l :: tr, s)
  end.

End queue.

#[global] Instance consumer_pc_eq_dec : EqDecision consumer_pc.
Proof. solve_decision. Defined.

Arguments consumer_pc : clear implicits.
Arguments producer_pc : clear implicits.
Arguments data_queue : clear implicits.
Arguments label : clear implicits.
Arguments action : clear implicits.

(** ** The two queues *)

(** [protocol_ctxt_t], the fields that are read *)
Record protocol_ctxt_t := mk_ctxt {
  module_id : Z; enb_flag : Z; instance : Z; rntiMaybeUEid : Z; eNB_index : Z; brOption : Z
}.

Record rlc_data_req_queue_item := mk_rlc_item {
  ri_ctxt_pP : protocol_ctxt_t; ri_srb_flagP : bool; ri_MBMS_flagP : bool; ri_rb_idP : Z;
  ri_muiP : Z; ri_confirmP : Z; ri_sdu_sizeP : Z; ri_sdu_pP : list Z
}.

Record pdcp_data_ind_queue_item := mk_ind_item {
  pi_ctxt_pP : protocol_ctxt_t; pi_srb_flagP : bool; pi_MBMS_flagP : bool; pi_rb_id : Z;
  pi_sdu_buffer_size : Z; pi_sdu_buffer : list Z
}.

Definition rlc_data_req_thread : data_queue rlc_data_req_queue_item -> option thread ->
    option (label rlc_data_req_queue_item * data_queue rlc_data_req_queue_item) :=
  consumer_step RLC_DATA_REQ_QUEUE_SIZE.

Definition enqueue_rlc_data_req : data_queue rlc_data_req_queue_item -> nat -> option thread ->
    option (label rlc_data_req_queue_item * data_queue rlc_data_req_queue_item) :=
  producer_step RLC_DATA_REQ_QUEUE_SIZE.

Definition pdcp_data_ind_thread : data_queue pdcp_data_ind_queue_item -> option thread ->
    option (label pdcp_data_ind_queue_item * data_queue pdcp_data_ind_queue_item) :=
  consumer_step PDCP_DATA_IND_QUEUE_SIZE.

Definition enqueue_pdcp_data_ind : data_queue pdcp_data_ind_queue_item -> nat -> option thread ->
    option (label pdcp_data_ind_queue_item * data_queue pdcp_data_ind_queue_item) :=
  producer_step PDCP_DATA_IND_QUEUE_SIZE.
