(* ===== verification/DataQueueSpec.v ===== *)
(** The queues between PDCP and RLC: items come out once and in order, a slot is
    never overwritten while its item is in use, and no wake-up is lost although
    producers and consumer share one condition variable. *)

From stdpp Require Import base tactics list numbers.
From Stdlib Require Import ZArith Lia.
From S2P Require Import Prelude DataQueue.

Section queue.
Context {A : Type} (size : Z).

Definition waits (pc : producer_pc A) : Z := if is_waiting pc then 1 else 0.

(** how many producers are in [pthread_cond_wait] *)
Definition waiters (s : data_queue A) : Z := sumZ waits (q_producers s).

Definition consumer_holds (pc : consumer_pc) : bool :=
  match pc with C_test | C_pop | C_signal => true | _ => false end.

Definition producer_holds (pc : producer_pc A) : bool :=
  match pc with P_test _ | P_put _ | P_signal => true | _ => false end.

(** a signal is owed for an item that has been removed *)
Definition owed (pc : consumer_pc) : Z := match pc with C_signal => 1 | _ => 0 end.

(** ** Invariant *)

Record queue_ok (s : data_queue A) : Prop := {
  qo_slots : zlen (q_q s) = size;
  qo_start : 0 <= q_start s < size;
  qo_length : 0 <= q_length s <= size;
  qo_threads : zlen (q_producers s) <= size;
  qo_consumer_lock : q_m s = Some Consumer <-> consumer_holds (q_consumer s) = true;
  qo_producer_lock : forall i, q_m s = Some (Producer i) <->
    exists pc, q_producers s !! i = Some pc /\ producer_holds pc = true;
  qo_use : forall i, q_consumer s = C_use i -> i = q_start s;
  qo_item : match q_consumer s with C_use _ | C_lock_again | C_pop => 0 < q_length s | _ => True end;
  qo_room : forall i a, q_producers s !! i = Some (P_put a) -> q_length s < size;
  qo_waiters : waiters s <= q_length s + owed (q_consumer s);
  qo_idle : q_consumer s = C_waiting -> waiters s = 0 /\
    (q_length s = 0 \/ exists i, q_producers s !! i = Some P_signal)
}.

Lemma waits_range pc : 0 <= waits pc <= 1.
Proof. destruct pc; unfold waits; simpl; lia. Qed.

Lemma waiters_nonneg s : 0 <= waiters s.
Proof. apply sumZ_nonneg, list.Forall_forall. intros pc _. apply waits_range. Qed.

Lemma waiters_le s : waiters s <= zlen (q_producers s).
Proof.
  unfold waiters. induction (q_producers s) as [|pc l IH]; simpl; [done|].
  rewrite zlen_cons. pose proof (waits_range pc). lia.
Qed.

Lemma waiters_set s i pc pc' :
  q_producers s !! i = Some pc -> waiters (set_producer s i pc') = waiters s - waits pc + waits pc'.
Proof. apply sumZ_insert. Qed.

Lemma waiting_counts s i a : q_producers s !! i = Some (P_waiting a) -> 0 < waiters s.
Proof.
  intros H. pose proof (sumZ_lookup_le waits _ _ _ (fun x => proj1 (waits_range x)) H) as Hw.
  change (waits (P_waiting a)) with 1 in Hw. unfold waiters. lia.
Qed.

(** only one thread is in a critical section *)
Lemma one_owner s i pc : queue_ok s -> q_producers s !! i = Some pc -> producer_holds pc = true ->
  consumer_holds (q_consumer s) = false /\
  forall j pc', q_producers s !! j = Some pc' -> producer_holds pc' = true -> j = i.
Proof.
  intros H Hi Hp. assert (E : q_m s = Some (Producer i)) by (apply (qo_producer_lock _ H); eauto). split.
  - apply not_true_iff_false. intros Hc. apply (qo_consumer_lock _ H) in Hc. congruence.
  - intros j pc' Hj Hp'. assert (q_m s = Some (Producer j)) by (apply (qo_producer_lock _ H); eauto). congruence.
Qed.

Lemma consumer_owner s : queue_ok s -> consumer_holds (q_consumer s) = true ->
  forall i pc, q_producers s !! i = Some pc -> producer_holds pc = false.
Proof.
  intros H Hc i pc Hi. destruct (producer_holds pc) eqn:E; [|done].
  destruct (one_owner s i pc H Hi E). congruence.
Qed.

Lemma nobody_holds s : queue_ok s -> q_m s = None ->
  consumer_holds (q_consumer s) = false /\
  forall i pc, q_producers s !! i = Some pc -> producer_holds pc = false.
Proof.
  intros H E. split; [|intros i pc Hi]; apply not_true_iff_false; intros Hc.
  - apply (qo_consumer_lock _ H) in Hc. congruence.
  - assert (q_m s = Some (Producer i)) by (apply (qo_producer_lock _ H); eauto). congruence.
Qed.

(** ** Every action keeps the invariant *)

Lemma set_lookup (s : data_queue A) i pc' j pc :
  q_producers (set_producer s i pc') !! j = Some pc ->
  (j = i /\ pc = pc' /\ (i < length (q_producers s))%nat) \/ (j <> i /\ q_producers s !! j = Some pc).
Proof.
  simpl. destruct (decide (j = i)) as [->|Hne]; [|rewrite list_lookup_insert_ne by done; by right].
  intros H. left. destruct (decide (i < length (q_producers s))%nat) as [Hl|Hl].
  - rewrite list_lookup_insert_eq in H by done. by simplify_eq.
  - rewrite list_insert_ge, lookup_ge_None_2 in H by lia. done.
Qed.

Lemma set_self (s : data_queue A) i pc pc' : q_producers s !! i = Some pc -> q_producers (set_producer s i pc') !! i = Some pc'.
Proof. intros H. simpl. apply list_lookup_insert_eq. by eapply lookup_lt_Some. Qed.

Lemma set_other (s : data_queue A) i pc' j : j <> i -> q_producers (set_producer s i pc') !! j = q_producers s !! j.
Proof. intros H. simpl. by apply list_lookup_insert_ne. Qed.

(** a step of the consumer that does not touch the producers *)
Lemma consumer_moves s pc' m' start' len' :
  queue_ok s ->
  (forall i, m' = Some (Producer i) <-> q_m s = Some (Producer i)) ->
  (m' = Some Consumer <-> consumer_holds pc' = true) ->
  0 <= start' < size -> 0 <= len' <= size -> len' <= q_length s ->
  (forall i, pc' = C_use i -> i = start') ->
  match pc' with C_use _ | C_lock_again | C_pop => 0 < len' | _ => True end ->
  waiters s <= len' + owed pc' ->
  (pc' = C_waiting -> waiters s = 0 /\ len' = 0) ->
  queue_ok (mk_queue (q_q s) start' len' m' pc' (q_producers s)).
Proof.
  intros H Hp Hc Hst Hlen Hle Huse Hitem Hw Hidle. destruct H. constructor; simpl; try done.
  - intros i. rewrite Hp. apply qo_producer_lock0.
  - intros i a Hi. specialize (qo_room0 i a Hi). lia.
  - intros E. destruct (Hidle E). split; [done|]. by left.
Qed.

Lemma consumer_step_ok s wake l s' :
  queue_ok s -> consumer_step size s wake = Some (l, s') -> q_consumer s <> C_signal -> queue_ok s'.
Proof.
  intros H Hstep Hns. pose proof H as [Hsl Hst Hle _ Hcl _ Huse Hit _ Hwt _]. unfold consumer_step, lock in Hstep.
  pose proof (waiters_nonneg s) as Hw0.
  destruct (q_consumer s) as [| | | |i| | |] eqn:E; try done; simpl in Hcl, Hwt;
    try (assert (q_m s = Some Consumer) by (by apply Hcl));
    [| | |destruct (q_q s !! _)| |]; simplify_eq/=; repeat (case_match; simplify_eq/=); bool_prop;
    apply (consumer_moves s); simpl; try done; try lia;
    try (intros; split; congruence || lia); try (apply rem_range; lia).
  intros i. congruence.
Qed.

(** a step of producer [i] *)
Lemma producer_moves s i pc pc' m' q' len' :
  queue_ok s -> q_producers s !! i = Some pc -> zlen q' = size ->
  (m' = Some Consumer <-> q_m s = Some Consumer) ->
  (m' = Some (Producer i) <-> producer_holds pc' = true) ->
  (forall j, j <> i -> m' = Some (Producer j) <-> q_m s = Some (Producer j)) ->
  q_length s <= len' <= size ->
  (forall j a, j <> i -> q_producers s !! j = Some (P_put a) -> len' = q_length s) ->
  (forall a, pc' = P_put a -> len' < size) ->
  waiters s - waits pc + waits pc' <= len' + owed (q_consumer s) ->
  (q_consumer s = C_waiting -> waits pc' <= waits pc /\
    (len' = 0 \/ pc' = P_signal \/ exists j, j <> i /\ q_producers s !! j = Some P_signal)) ->
  queue_ok (mk_queue q' (q_start s) len' m' (q_consumer s) (<[i := pc']> (q_producers s))).
Proof.
  intros H Hi Hq Hc Hp Ho Hlen Hput Hroom Hw Hidle. pose proof (set_self s i pc pc' Hi) as Hself.
  pose proof (fun j => set_other s i pc' j) as Hoth. pose proof (waiters_set s i pc pc' Hi) as HW.
  simpl in Hself, Hoth. destruct H. constructor; simpl; try done.
  - lia.
  - unfold zlen. by rewrite length_insert.
  - by rewrite Hc.
  - intros j. destruct (decide (j = i)) as [->|Hne]; [rewrite Hself, Hp; split; [eauto|by intros (? & [= <-] & ?)]|].
    rewrite Hoth, Ho by done. apply qo_producer_lock0.
  - destruct (q_consumer s); done || lia.
  - intros j a Hj. destruct (decide (j = i)) as [->|Hne]; [rewrite Hself in Hj; simplify_eq; eauto|].
    rewrite Hoth in Hj by done. rewrite (Hput j a Hne Hj). eauto.
  - change (waiters (set_producer s i pc') <= len' + owed (q_consumer s)). lia.
  - intros E. change (waiters (set_producer s i pc') = 0 /\
      (len' = 0 \/ exists j, q_producers (set_producer s i pc') !! j = Some P_signal)).
    destruct (qo_idle0 E) as [W0 _], (Hidle E) as [Hle Hor].
    pose proof (waiters_nonneg (set_producer s i pc')). split; [lia|].
    destruct Hor as [->|[->|(j & Hne & Hj)]]; [by left|right; eauto|right]. exists j. by rewrite set_other.
Qed.

Lemma wake_up_ok s t s' : queue_ok s -> wake_up s t = Some s' ->
  queue_ok s' /\ q_m s' = q_m s /\ q_length s' = q_length s /\ q_q s' = q_q s /\ q_start s' = q_start s /\
  waiters s' = waiters s - match t with Consumer => 0 | _ => 1 end /\
  q_consumer s' = match t with Consumer => C_woken | _ => q_consumer s end /\
  forall i pc, q_producers s !! i = Some pc -> is_waiting pc = false -> q_producers s' !! i = Some pc.
Proof.
  intros H Hw. pose proof (qo_consumer_lock _ H) as Hcl. destruct t as [|i]; simpl in Hw.
  - pose proof (qo_waiters _ H) as Hwt. pose proof (qo_start _ H). pose proof (qo_length _ H).
    destruct (q_consumer s) eqn:E; simplify_eq. split; [|by rewrite Z.sub_0_r].
    apply (consumer_moves s); simpl; try done || lia.
  - destruct (q_producers s !! i) as [[]|] eqn:Hi; simplify_eq.
    pose proof (waiters_set s i _ (P_woken a) Hi) as HW.
    change (waits (P_waiting a)) with 1 in HW. change (waits (P_woken a)) with 0 in HW.
    assert (Hm : q_m s <> Some (Producer i)).
    { intros Hm. apply (qo_producer_lock _ H) in Hm as (pc & Hpc & Hh). rewrite Hi in Hpc. by simplify_eq. }
    split; [|split_and!; try done; [lia|]].
    + destruct (qo_length _ H). apply (producer_moves s i _ _ _ _ _ H Hi); try done.
      * apply (qo_slots _ H).
      * change (waits (P_waiting a)) with 1. change (waits (P_woken a)) with 0. pose proof (qo_waiters _ H). lia.
      * intros E. destruct (qo_idle _ H E) as [W0 _]. pose proof (waiting_counts s i a Hi). lia.
    + intros j pc Hj Hn. destruct (decide (j = i)) as [->|Hne]; [by simplify_eq|]. by rewrite set_other.
Qed.

Lemma nobody_waits s : someone_waits s = false -> q_consumer s <> C_waiting /\ waiters s = 0.
Proof.
  unfold someone_waits, waiters. intros H.
  assert (E : existsb is_waiting (q_producers s) = false) by (by destruct (q_consumer s)).
  split; [by intros Hc; rewrite Hc in H|]. clear H. induction (q_producers s) as [|pc l IH]; [done|].
  simpl in *. apply orb_false_iff in E as [E1 E2]. unfold waits at 1. rewrite E1. by apply IH.
Qed.

(** what a signal does: the consumer no longer waits, or a producer less does *)
Lemma signal_ok s wake s' : queue_ok s -> cond_signal s wake = Some s' ->
  queue_ok s' /\ q_m s' = q_m s /\ q_length s' = q_length s /\ q_q s' = q_q s /\ q_start s' = q_start s /\
  waiters s' = Z.max 0 (waiters s - 1) /\
  q_consumer s' = match q_consumer s with C_waiting => C_woken | pc => pc end /\
  forall i pc, q_producers s !! i = Some pc -> is_waiting pc = false -> q_producers s' !! i = Some pc.
Proof.
  intros H Hs. destruct wake as [t|]; simpl in Hs.
  - pose proof (wake_up_ok s t s' H Hs) as (H' & ? & ? & ? & ? & HW & Hc & Hp). split_and!; try done.
    + destruct t as [|i]; simpl in Hs.
      * destruct (q_consumer s) eqn:E; simplify_eq. destruct (qo_idle _ H E). lia.
      * destruct (q_producers s !! i) as [[]|] eqn:Hi; simplify_eq. pose proof (waiting_counts s i a Hi). lia.
    + destruct t as [|i]; simpl in Hs; [by destruct (q_consumer s)|].
      destruct (q_producers s !! i) as [[]|] eqn:Hi; simplify_eq. destruct (q_consumer s) eqn:E; try done.
      destruct (qo_idle _ H E). pose proof (waiting_counts s i a Hi). lia.
  - destruct (someone_waits s) eqn:E; simplify_eq. destruct (nobody_waits s' E) as [Hc W0].
    split_and!; try done; [lia|by destruct (q_consumer s')].
Qed.

Lemma consumer_signal_ok s wake l s' :
  queue_ok s -> consumer_step size s wake = Some (l, s') -> q_consumer s = C_signal -> queue_ok s'.
Proof.
  intros H Hstep E. unfold consumer_step in Hstep. rewrite E in Hstep.
  destruct (cond_signal s wake) as [s1|] eqn:Hs; simplify_eq/=.
  destruct (signal_ok s wake s1 H Hs) as (H1 & Hm & Hl & _ & _ & HW & Hc & _). rewrite E in Hc.
  pose proof (qo_waiters _ H) as Hw. rewrite E in Hw. simpl in Hw. destruct (qo_length _ H), (qo_start _ H1).
  assert (q_m s = Some Consumer) by (apply (qo_consumer_lock _ H); by rewrite E).
  apply (consumer_moves s1); simpl; try done || lia. intros i. split; congruence.
Qed.

(** a thread in the critical section of the test sees an empty queue when the
    consumer waits *)
Lemma waiting_empty s : queue_ok s -> q_consumer s = C_waiting ->
  (forall i, q_producers s !! i <> Some P_signal) -> q_length s = 0.
Proof. intros H E Hn. destruct (qo_idle _ H E) as [_ [|[i Hi]]]; [done|]. by destruct (Hn i). Qed.

Lemma producer_lock_ok s i pc a : queue_ok s -> q_producers s !! i = Some pc -> producer_holds pc = false ->
  is_waiting pc = false -> q_m s = None ->
  queue_ok (set_producer (s <| q_m := Some (Producer i) |>) i (P_test a)).
Proof.
  intros H Hi Hh Hw Hm. destruct (nobody_holds s H Hm) as [Hc Hp]. destruct (qo_length _ H).
  assert (W : waits pc = 0) by (unfold waits; by rewrite Hw).
  apply (producer_moves s i pc _ _ _ _ H Hi); try done; simpl.
  - apply (qo_slots _ H).
  - rewrite Hm. split; congruence.
  - intros j Hne. rewrite Hm. split; congruence.
  - rewrite W. change (waits (P_test a)) with 0. pose proof (qo_waiters _ H). lia.
  - intros E. rewrite W. split; [done|]. left. apply waiting_empty; [done|done|].
    intros j Hj. by specialize (Hp j _ Hj).
Qed.

Lemma producer_test_ok s i a l s' : queue_ok s -> q_producers s !! i = Some (P_test a) ->
  producer_step size s i None = Some (l, s') -> queue_ok s'.
Proof.
  intros H Hi Hstep. destruct (one_owner s i _ H Hi eq_refl) as [Hc Hp].
  assert (Hm : q_m s = Some (Producer i)) by (apply (qo_producer_lock _ H); eauto).
  assert (Hz : q_consumer s = C_waiting -> q_length s = 0).
  { intros E. apply waiting_empty; [done|done|]. intros j Hj. assert (j = i) by (by eapply Hp). congruence. }
  pose proof (qo_length _ H) as Hle. pose proof (qo_waiters _ H) as Hw. pose proof (qo_start _ H).
  assert (HW : waiters s + 1 <= size).
  { pose proof (waiters_set s i _ (P_waiting a) Hi) as HW. pose proof (waiters_le (set_producer s i (P_waiting a))) as HL.
    change (waits (P_test a)) with 0 in HW. change (waits (P_waiting a)) with 1 in HW. simpl in HL.
    unfold zlen in HL. rewrite length_insert in HL. pose proof (qo_threads _ H) as Ht. unfold zlen in Ht. lia. }
  assert (Ho : 0 <= owed (q_consumer s)) by (destruct (q_consumer s); simpl; lia).
  unfold producer_step in Hstep. rewrite Hi in Hstep.
  destruct (Z.eqb_spec (q_length s) size) as [Hf|Hf]; simplify_eq;
    apply (producer_moves s i _ _ _ _ _ H Hi); try done; try apply (qo_slots _ H);
    change (waits (P_test a)) with 0; change (waits (P_waiting a)) with 1; change (waits (P_put a)) with 0;
    simpl; try rewrite Hm; try lia; try (intros; split; congruence).
  - intros E. specialize (Hz E). lia.
  - intros E. split; [done|]. left. auto.
Qed.

Lemma producer_put_ok s i a l s' : queue_ok s -> q_producers s !! i = Some (P_put a) ->
  producer_step size s i None = Some (l, s') -> queue_ok s'.
Proof.
  intros H Hi Hstep. destruct (one_owner s i _ H Hi eq_refl) as [Hc Hp].
  assert (Hm : q_m s = Some (Producer i)) by (apply (qo_producer_lock _ H); eauto).
  pose proof (qo_room _ H i a Hi). pose proof (qo_length _ H). pose proof (qo_waiters _ H).
  unfold producer_step in Hstep. rewrite Hi in Hstep. simplify_eq.
  apply (producer_moves s i _ _ _ _ _ H Hi); simpl; try done; try lia.
  - unfold zlen. rewrite length_insert. apply (qo_slots _ H).
  - intros j b Hne Hj. by destruct Hne; eapply Hp.
  - change (waits (P_put a)) with 0. change (waits P_signal) with 0. lia.
  - intros _. split; [done|]. right. by left.
Qed.

Lemma producer_signal_ok s i wake l s' : queue_ok s -> q_producers s !! i = Some P_signal ->
  producer_step size s i wake = Some (l, s') -> queue_ok s'.
Proof.
  intros H Hi Hstep. unfold producer_step in Hstep. rewrite Hi in Hstep.
  assert (Hm : q_m s = Some (Producer i)) by (apply (qo_producer_lock _ H); eauto).
  destruct (cond_signal s wake) as [s1|] eqn:Hs; simplify_eq/=.
  destruct (signal_ok s wake s1 H Hs) as (H1 & Hm1 & Hl & _ & _ & HW & Hc & Hps). specialize (Hps i _ Hi eq_refl).
  rewrite Hm in Hm1. destruct (qo_length _ H1). pose proof (qo_waiters _ H1).
  apply (producer_moves s1 i _ _ _ _ _ H1 Hps); simpl; try done; try apply (qo_slots _ H1).
  - rewrite Hm1. split; congruence.
  - intros j Hne. rewrite Hm1. split; congruence.
  - change (waits P_signal) with 0. change (waits P_idle) with 0. lia.
  - rewrite Hc. by destruct (q_consumer s).
Qed.

Lemma producer_step_ok s i wake l s' :
  queue_ok s -> producer_step size s i wake = Some (l, s') -> queue_ok s'.
Proof.
  intros H Hstep. destruct (q_producers s !! i) as [pc|] eqn:Hi; [|unfold producer_step in Hstep; by rewrite Hi in Hstep].
  destruct pc; [|..|by eapply producer_signal_ok].
  all: unfold producer_step in Hstep; rewrite Hi in Hstep; try done; unfold lock in Hstep.
  1,3: destruct (q_m s) eqn:Hm; simplify_eq/=; by eapply producer_lock_ok.
  - apply (producer_test_ok s i a l); [done|done|]. unfold producer_step. by rewrite Hi.
  - apply (producer_put_ok s i a l); [done|done|]. unfold producer_step. by rewrite Hi.
Qed.

Lemma request_ok s i a : queue_ok s -> q_producers s !! i = Some P_idle -> queue_ok (set_producer s i (P_lock a)).
Proof.
  intros H Hi. destruct (qo_length _ H). pose proof (qo_waiters _ H).
  assert (Hm : q_m s <> Some (Producer i)).
  { intros Hm. apply (qo_producer_lock _ H) in Hm as (pc & Hpc & Hh). rewrite Hi in Hpc. by simplify_eq. }
  apply (producer_moves s i _ _ _ _ _ H Hi); simpl; try done; try apply (qo_slots _ H).
  - change (waits P_idle) with 0. change (waits (P_lock a)) with 0. lia.
  - intros E. split; [done|]. destruct (qo_idle _ H E) as [_ [|[j Hj]]]; [by left|]. right. right.
    exists j. split; [congruence|done].
Qed.

(** ** All runs *)

Lemma exec_ok s act l s' : queue_ok s -> exec size s act = Some (l, s') -> queue_ok s'.
Proof.
  intros H Hx. destruct act as [[|i] wake|t|i a]; simpl in Hx.
  - destruct (decide (q_consumer s = C_signal)); [by eapply consumer_signal_ok|by eapply consumer_step_ok].
  - by eapply producer_step_ok.
  - destruct (wake_up s t) as [s1|] eqn:E; simplify_eq/=. by apply (wake_up_ok s t).
  - destruct (q_producers s !! i) as [[]|] eqn:Hi; simplify_eq. by apply request_ok.
Qed.

(** ** The items of the queue *)

(** the ring holds [xs], the oldest first *)
Definition ring_holds (s : data_queue A) (xs : list A) : Prop :=
  zlen xs = q_length s /\
  forall k a, xs !! k = Some a -> q_q s !! Z.to_nat ((q_start s + Z.of_nat k) mod size) = Some a.

Definition puts (tr : list (label A)) : list A := omap (fun l => match l with Put a => Some a | _ => None end) tr.
Definition calls (tr : list (label A)) : list A := omap (fun l => match l with Call a => Some a | _ => None end) tr.

(** the consumer has passed on the first item and not removed it yet *)
Definition in_use (pc : consumer_pc) : nat := match pc with C_lock_again | C_pop => 1 | _ => 0 end.

(** what has been put and not been passed on is what the ring holds *)
Definition in_order (s : data_queue A) (tr : list (label A)) : Prop :=
  exists xs, ring_holds s xs /\ puts tr = calls tr ++ drop (in_use (q_consumer s)) xs.

Lemma trace_snoc (f : label A -> option A) tr l :
  omap f (tr ++ [l]) = omap f tr ++ match f l with Some a => [a] | None => [] end.
Proof. rewrite omap_app. simpl. by destruct (f l). Qed.

(** an action that moves no item *)
Lemma in_order_same s s' tr :
  q_q s' = q_q s -> q_start s' = q_start s -> q_length s' = q_length s ->
  in_use (q_consumer s') = in_use (q_consumer s) -> in_order s tr ->
  forall l, l = Tau \/ (exists a, l = Req a) -> in_order s' (tr ++ [l]).
Proof.
  intros H1 H2 H3 H4 (xs & [Hl Hs] & Hp) l Hlab. exists xs. unfold puts, calls, ring_holds.
  rewrite !trace_snoc, H1, H2, H3, H4. destruct Hlab as [->|[a ->]]; by rewrite !app_nil_r.
Qed.

Lemma in_order_call s tr i a :
  queue_ok s -> q_consumer s = C_use i -> q_q s !! Z.to_nat i = Some a -> in_order s tr ->
  in_order (with_pc C_lock_again s) (tr ++ [Call a]).
Proof.
  intros H E Ha (xs & [Hl Hs] & Hp). pose proof (qo_item _ H) as Hit. rewrite E in Hit, Hp.
  pose proof (qo_use _ H i E) as ->. destruct xs as [|x xs]; [rewrite zlen_nil in Hl; lia|].
  specialize (Hs 0%nat x eq_refl) as Hx. rewrite Z.add_0_r, Z.mod_small in Hx by apply (qo_start _ H).
  exists (x :: xs). split; [done|]. unfold puts, calls in *. rewrite !trace_snoc, app_nil_r, Hp. simpl.
  rewrite <- app_assoc. simpl. rewrite drop_0. replace a with x by congruence. done.
Qed.

Lemma in_order_pop s tr : queue_ok s -> q_consumer s = C_pop -> in_order s tr ->
  in_order (with_pc C_signal (s <| q_length ::= Z.add (-1) |> <| q_start := (q_start s + 1) %% size |>)) (tr ++ [Tau]).
Proof.
  intros H E (xs & [Hl Hs] & Hp). pose proof (qo_item _ H) as Hit. rewrite E in Hit, Hp. pose proof (qo_start _ H).
  destruct xs as [|x xs]; [rewrite zlen_nil in Hl; lia|]. rewrite zlen_cons in Hl. exists xs. split.
  - split; simpl; [lia|]. intros k a Hk. specialize (Hs (S k) a Hk).
    rewrite rem_mod, Zplus_mod_idemp_l by lia. rewrite <- Hs. do 3 f_equal. lia.
  - unfold puts, calls in *. by rewrite !trace_snoc, !app_nil_r.
Qed.

Lemma in_order_put s tr i a :
  queue_ok s -> q_producers s !! i = Some (P_put a) -> in_order s tr ->
  in_order (set_producer (s <| q_length ::= Z.add 1 |>
    <| q_q ::= <[Z.to_nat ((q_start s + q_length s) %% size) := a]> |>) i P_signal) (tr ++ [Put a]).
Proof.
  intros H Hi (xs & [Hl Hs] & Hp). pose proof (qo_room _ H i a Hi) as Hr. pose proof (qo_start _ H) as Hst.
  pose proof (qo_length _ H) as Hln. pose proof (qo_slots _ H) as Hsl. exists (xs ++ [a]). split.
  - split; simpl; [rewrite zlen_app, zlen_cons, zlen_nil; lia|]. intros k b Hk. rewrite rem_mod by lia.
    pose proof (Z.mod_pos_bound (q_start s + q_length s) size ltac:(lia)).
    destruct (decide (k < length xs)%nat) as [Hlt|Hge].
    + rewrite lookup_app_l in Hk by done. rewrite list_lookup_insert_ne; [by apply Hs|]. intros E.
      pose proof (Z.mod_pos_bound (q_start s + Z.of_nat k) size ltac:(lia)). unfold zlen in Hl.
      assert (q_length s = Z.of_nat k); [|lia]. apply (mod_window_inj size (q_start s)); lia.
    + rewrite lookup_app_r in Hk by lia. destruct (k - length xs)%nat eqn:Ek; [|by destruct n]. simplify_eq/=.
      replace (Z.of_nat k) with (q_length s) by (unfold zlen in Hl; lia).
      apply list_lookup_insert_eq. unfold zlen in Hsl. lia.
  - unfold puts, calls in *. rewrite !trace_snoc, app_nil_r, Hp. simpl. rewrite <- app_assoc. f_equal.
    pose proof (qo_item _ H) as Hit. unfold zlen in Hl.
    destruct (q_consumer s); simpl; try done; destruct xs; simpl in *; done || lia.
Qed.

Lemma exec_in_order s act l s' tr :
  queue_ok s -> exec size s act = Some (l, s') -> in_order s tr -> in_order s' (tr ++ [l]).
Proof.
  intros H Hx Ho. destruct act as [[|i] wake|t|i a]; simpl in Hx.
  - unfold consumer_step, lock in Hx. destruct (q_consumer s) as [| | | |i| | |] eqn:E; try done.
    4: { destruct (q_q s !! Z.to_nat i) eqn:Hq; simplify_eq/=. by eapply in_order_call. }
    5: { simplify_eq/=. by apply in_order_pop. }
    5: { destruct (cond_signal s wake) as [s1|] eqn:Hs; simplify_eq/=.
         pose proof (signal_ok s wake s1 H Hs) as (_ & _ & ? & ? & ? & _ & Hc & _). rewrite E in Hc.
         eapply (in_order_same s); eauto. simpl. by rewrite E. }
    all: repeat (case_match; simplify_eq/=); eapply (in_order_same s); eauto; simpl; by rewrite E.
  - unfold producer_step, lock in Hx. destruct (q_producers s !! i) as [[|a|a|a|a|a|]|] eqn:Hi; try done.
    4: { simplify_eq/=. by apply in_order_put. }
    4: { destruct (cond_signal s wake) as [s1|] eqn:Hs; simplify_eq/=.
         pose proof (signal_ok s wake s1 H Hs) as (_ & _ & ? & ? & ? & _ & Hc & _).
         eapply (in_order_same s); eauto. simpl. rewrite Hc. by destruct (q_consumer s). }
    all: repeat (case_match; simplify_eq/=); eapply (in_order_same s); eauto.
  - destruct (wake_up s t) as [s1|] eqn:E; simplify_eq/=.
    pose proof (wake_up_ok s t s' H E) as (_ & _ & ? & ? & ? & _ & Hc & _). eapply (in_order_same s); eauto.
    rewrite Hc. destruct t; [|done]. simpl in E. by destruct (q_consumer s).
  - destruct (q_producers s !! i) as [[]|] eqn:Hi; simplify_eq. eapply (in_order_same s); eauto.
Qed.

(** ** No request is lost *)

Definition item (pc : producer_pc A) : option A :=
  match pc with P_lock a | P_test a | P_waiting a | P_woken a | P_put a => Some a | P_idle | P_signal => None end.

Definition pending (s : data_queue A) : list A := omap item (q_producers s).

Definition requests (tr : list (label A)) : list A := omap (fun l => match l with Req a => Some a | _ => None end) tr.

Definition none_lost (s : data_queue A) (tr : list (label A)) : Prop := requests tr ≡ₚ puts tr ++ pending s.

Lemma pending_set s i pc pc' : q_producers s !! i = Some pc ->
  option_list (item pc) ++ pending (set_producer s i pc') ≡ₚ option_list (item pc') ++ pending s.
Proof. apply omap_insert. Qed.

Lemma pending_keep s i pc pc' : q_producers s !! i = Some pc -> item pc' = item pc ->
  pending (set_producer s i pc') ≡ₚ pending s.
Proof. intros Hi E. pose proof (pending_set s i pc pc' Hi) as H. rewrite E in H. by apply Permutation_app_inv_l in H. Qed.

Lemma pending_wake_up s t s' : wake_up s t = Some s' -> pending s' ≡ₚ pending s.
Proof.
  intros H. destruct t as [|i]; simpl in H; [by destruct (q_consumer s); simplify_eq|].
  destruct (q_producers s !! i) as [[]|] eqn:Hi; simplify_eq. by eapply pending_keep.
Qed.

Lemma pending_signal s wake s' : cond_signal s wake = Some s' -> pending s' ≡ₚ pending s.
Proof. destruct wake; simpl; [apply pending_wake_up|]. destruct (someone_waits s); intros; by simplify_eq. Qed.

Lemma none_lost_same s s' tr l : pending s' ≡ₚ pending s ->
  match l with Req _ | Put _ => False | _ => True end -> none_lost s tr -> none_lost s' (tr ++ [l]).
Proof.
  intros Hs Hl Hn. unfold none_lost, requests, puts in *. rewrite !trace_snoc, Hs, Hn.
  destruct l; try done; by rewrite !app_nil_r.
Qed.

Lemma exec_none_lost s act l s' tr :
  queue_ok s -> exec size s act = Some (l, s') -> none_lost s tr -> none_lost s' (tr ++ [l]).
Proof.
  intros H Hx Hn. destruct act as [[|i] wake|t|i a]; simpl in Hx.
  - unfold consumer_step, lock in Hx. destruct (q_consumer s) as [| | | |i| | |] eqn:E; try done.
    4: { destruct (q_q s !! Z.to_nat i) eqn:Hq; simplify_eq/=. by apply (none_lost_same s). }
    6: { destruct (cond_signal s wake) as [s1|] eqn:Hs; simplify_eq/=. apply (none_lost_same s); [|done|done].
         exact (pending_signal s wake s1 Hs). }
    all: repeat (case_match; simplify_eq/=); simplify_eq/=; by apply (none_lost_same s).
  - unfold producer_step, lock in Hx. destruct (q_producers s !! i) as [[|a|a|a|a|a|]|] eqn:Hi; try done.
    4: { simplify_eq. pose proof (pending_set s i _ P_signal Hi) as Hp. simpl in Hp.
         unfold none_lost, requests, puts in *. rewrite !trace_snoc, app_nil_r, Hn, <- app_assoc.
         apply Permutation_app_head. symmetry. exact Hp. }
    4: { destruct (cond_signal s wake) as [s1|] eqn:Hs; simplify_eq/=. apply (none_lost_same s); [|done|done].
         destruct (signal_ok s wake s1 H Hs) as (_ & _ & _ & _ & _ & _ & _ & Hps).
         rewrite <- (pending_signal s wake s1 Hs). apply (pending_keep s1 i P_signal); [by apply Hps|done]. }
    all: repeat (case_match; simplify_eq/=); apply (none_lost_same s); try done; by eapply (pending_keep s).
  - destruct (wake_up s t) as [s1|] eqn:E; simplify_eq/=. apply (none_lost_same s); [|done|done].
    by eapply pending_wake_up.
  - destruct (q_producers s !! i) as [[]|] eqn:Hi; simplify_eq.
    pose proof (pending_set s i _ (P_lock a) Hi) as Hp. simpl in Hp.
    unfold none_lost, requests, puts in *. rewrite !trace_snoc, app_nil_r, Hn, Hp. solve_Permutation.
Qed.

(** ** Progress *)

Lemma signal_possible (s : data_queue A) : exists wake s', cond_signal s wake = Some s'.
Proof.
  destruct (someone_waits s) eqn:E; [|exists None, s; simpl; by rewrite E].
  destruct (decide (q_consumer s = C_waiting)) as [Hc|Hc].
  { exists (Some Consumer). simpl. rewrite Hc. eauto. }
  assert (Hx : existsb is_waiting (q_producers s) = true) by (unfold someone_waits in E; by destruct (q_consumer s)).
  apply existsb_exists in Hx as (pc & Hin & Hw). apply list_elem_of_In, list_elem_of_lookup_1 in Hin as [i Hi].
  exists (Some (Producer i)). simpl. rewrite Hi. destruct pc; try done. eauto.
Qed.

(** nothing left to do: the ring is empty, the consumer waits, nobody else is
    inside *)
Definition drained (s : data_queue A) : Prop :=
  q_consumer s = C_waiting /\ q_length s = 0 /\ Forall (eq P_idle) (q_producers s).

Definition stuck (s : data_queue A) : Prop := forall t wake, exec size s (Run t wake) = None.

Lemma stuck_unlocked s : queue_ok s -> stuck s -> q_m s = None.
Proof.
  intros H Hs. destruct (q_m s) as [[|i]|] eqn:Hm; [| |done].
  - pose proof (proj1 (qo_consumer_lock _ H) Hm) as Hc. destruct (signal_possible s) as (wake & s' & Hsig).
    specialize (Hs Consumer wake). simpl in Hs. unfold consumer_step in Hs. rewrite Hsig in Hs.
    destruct (q_consumer s); try done. by destruct (_ =? _).
  - destruct (proj1 (qo_producer_lock _ H i) Hm) as (pc & Hi & Hp). destruct (signal_possible s) as (wake & s' & Hsig).
    specialize (Hs (Producer i) wake). simpl in Hs. unfold producer_step in Hs. rewrite Hi, Hsig in Hs.
    destruct pc; try done. by destruct (_ =? _).
Qed.

Lemma stuck_drained s : queue_ok s -> stuck s -> drained s.
Proof.
  intros H Hs. pose proof (stuck_unlocked s H Hs) as Hm. destruct (nobody_holds s H Hm) as [Hc Hp].
  assert (E : q_consumer s = C_waiting).
  { pose proof (Hs Consumer None) as Hx. simpl in Hx. unfold consumer_step, lock in Hx. rewrite Hm in Hx.
    destruct (q_consumer s) as [| | | |i| | |] eqn:E; try done. pose proof (qo_use _ H i E) as ->.
    destruct (q_q s !! _) eqn:Hq; [done|]. apply lookup_ge_None in Hq. pose proof (qo_start _ H).
    pose proof (qo_slots _ H) as Hl. unfold zlen in Hl. lia. }
  destruct (qo_idle _ H E) as [HW _]. split_and!; [done| |].
  - apply (waiting_empty s H E). intros i Hi. by specialize (Hp i _ Hi).
  - apply Forall_lookup. intros i pc Hi. pose proof (Hs (Producer i) None) as Hx. simpl in Hx.
    unfold producer_step, lock in Hx. rewrite Hi, Hm in Hx. specialize (Hp i _ Hi).
    destruct pc; try done. pose proof (waiting_counts s i a Hi). lia.
Qed.

(** ** Termination *)

(** how many steps a thread can still take on its own: each item costs a round
    of the consumer, each signal wakes one thread *)
Definition consumer_weight (pc : consumer_pc) : Z :=
  match pc with
  | C_waiting => 0 | C_pop => 1 | C_lock_again => 2 | C_use _ => 3 | C_test => 4 | C_woken | C_lock => 5 | C_signal => 11
  end.

Definition producer_weight (pc : producer_pc A) : Z :=
  match pc with P_idle => 0 | P_signal => 6 | P_waiting _ => 32 | P_put _ => 33 | P_test _ => 34 | _ => 35 end.

Definition steps_left (s : data_queue A) : Z :=
  16 * q_length s + consumer_weight (q_consumer s) + sumZ producer_weight (q_producers s).

Lemma steps_left_set s i pc pc' : q_producers s !! i = Some pc ->
  steps_left (set_producer s i pc') = steps_left s - producer_weight pc + producer_weight pc'.
Proof. intros H. unfold steps_left. simpl. rewrite (sumZ_insert _ _ _ _ _ H). lia. Qed.

Lemma steps_left_signal s wake s' : cond_signal s wake = Some s' ->
  steps_left s' <= steps_left s + match q_consumer s with C_waiting => 5 | _ => 3 end.
Proof.
  intros H. destruct wake as [[|i]|]; simpl in H.
  - unfold steps_left. destruct (q_consumer s); simplify_eq. simpl. lia.
  - destruct (q_producers s !! i) as [[]|] eqn:Hi; simplify_eq. rewrite (steps_left_set s i _ _ Hi). simpl.
    destruct (q_consumer s); lia.
  - destruct (someone_waits s); simplify_eq. destruct (q_consumer s'); lia.
Qed.

Lemma run_decreases s t wake l s' : queue_ok s -> exec size s (Run t wake) = Some (l, s') ->
  steps_left s' < steps_left s.
Proof.
  intros H Hx. destruct t as [|i]; simpl in Hx.
  - unfold consumer_step, lock in Hx. destruct (q_consumer s) as [| | | |i| | |] eqn:E; try done.
    4: destruct (q_q s !! Z.to_nat i) eqn:Hq; simplify_eq/=.
    7: { destruct (cond_signal s wake) as [s1|] eqn:Hs; simplify_eq/=.
         pose proof (steps_left_signal s wake s1 Hs) as Hw.
         destruct (signal_ok s wake s1 H Hs) as (_ & _ & _ & _ & _ & _ & Hc & _). rewrite E in Hc, Hw.
         unfold steps_left in *. simpl. rewrite E, Hc in *. simpl in *. lia. }
    all: repeat (case_match; simplify_eq/=); simplify_eq/=; unfold steps_left; rewrite E; simpl; lia.
  - unfold producer_step, lock in Hx. destruct (q_producers s !! i) as [[|a|a|a|a|a|]|] eqn:Hi; try done.
    4: { simplify_eq. match goal with |- steps_left (set_producer ?s1 _ _) < _ =>
           rewrite (steps_left_set s1 i (P_put a)) by done end. unfold steps_left. simpl. lia. }
    4: { destruct (cond_signal s wake) as [s1|] eqn:Hs; simplify_eq/=.
         pose proof (steps_left_signal s wake s1 Hs) as Hw.
         destruct (signal_ok s wake s1 H Hs) as (_ & _ & _ & _ & _ & _ & _ & Hps). specialize (Hps i _ Hi eq_refl).
         change (steps_left (set_producer s1 i P_idle) < steps_left s). rewrite (steps_left_set s1 i _ _ Hps). simpl.
         destruct (q_consumer s); lia. }
    all: repeat (case_match; simplify_eq/=);
      match goal with |- steps_left (?f (set_producer ?s1 _ ?pc)) < _ =>
           change (steps_left (set_producer s1 i pc) < steps_left s)
      | _ => idtac end; match goal with |- steps_left (set_producer ?s1 _ ?pc) < _ =>
           rewrite (steps_left_set s1 i _ pc Hi) end; unfold steps_left; simpl; lia.
Qed.

Lemma steps_left_bound s : queue_ok s -> 0 <= steps_left s <= 16 * size + 35 * zlen (q_producers s) + 11.
Proof.
  intros H. pose proof (qo_length _ H). unfold steps_left.
  assert (0 <= consumer_weight (q_consumer s) <= 11) by (destruct (q_consumer s); simpl; lia).
  assert (0 <= sumZ producer_weight (q_producers s) <= 35 * zlen (q_producers s)); [|lia].
  induction (q_producers s) as [|pc ps IH]; [done|]. simpl. rewrite zlen_cons.
  assert (0 <= producer_weight pc <= 35) by (destruct pc; simpl; lia). lia.
Qed.

(** ** The theorems *)

Lemma run_invariant (P : list (label A) -> data_queue A -> Prop) :
  (forall tr s act l s', P tr s -> exec size s act = Some (l, s') -> P (tr ++ [l]) s') ->
  forall acts tr s tr' s', P tr s -> run size s acts = Some (tr', s') -> P (tr ++ tr') s'.
Proof.
  intros Hstep acts. induction acts as [|act acts IH]; intros tr s tr' s' HP Hr; simpl in Hr.
  { simplify_eq. by rewrite app_nil_r. }
  destruct (exec size s act) as [[l s1]|] eqn:E; simplify_eq/=.
  destruct (run size s1 acts) as [[tr1 s2]|] eqn:E'; simplify_eq/=.
  replace (tr ++ l :: tr1) with ((tr ++ [l]) ++ tr1) by (by rewrite <- app_assoc). eauto.
Qed.

Record history (tr : list (label A)) (s : data_queue A) : Prop := {
  hi_ok : queue_ok s;
  hi_order : in_order s tr;
  hi_none_lost : none_lost s tr
}.

Lemma exec_history tr s act l s' : history tr s -> exec size s act = Some (l, s') -> history (tr ++ [l]) s'.
Proof.
  intros [H1 H2 H3] Hx. constructor; [by eapply exec_ok|by eapply exec_in_order|by eapply exec_none_lost].
Qed.

Lemma init_history zero n : 0 < size -> Z.of_nat n <= size -> history [] (init_queue size zero n).
Proof.
  intros Hs Hn. assert (Hidle : forall i pc, replicate n (@P_idle A) !! i = Some pc -> pc = P_idle)
    by (intros i pc Hi; by apply lookup_replicate_1 in Hi as [? _]).
  assert (W : sumZ waits (replicate n (@P_idle A)) = 0) by (clear; induction n as [|n IH]; simpl; [done|by rewrite IH]).
  assert (Pd : omap item (replicate n (@P_idle A)) = []) by (clear; induction n; simpl; done).
  constructor; [constructor; unfold waiters; simpl; try done; try lia|..].
  - unfold zlen. rewrite length_replicate. lia.
  - unfold zlen. by rewrite length_replicate.
  - intros i. split; [done|]. intros (pc & Hpc & Hh). by rewrite (Hidle i pc Hpc) in Hh.
  - exists []. by split.
  - unfold none_lost, pending. simpl. by rewrite Pd.
Qed.

Lemma reachable_history zero n acts tr s : 0 < size -> Z.of_nat n <= size ->
  run size (init_queue size zero n) acts = Some (tr, s) -> history tr s.
Proof.
  intros Hs Hn Hr. apply (run_invariant history exec_history acts [] _ tr s (init_history zero n Hs Hn) Hr).
Qed.

(** C27: The queue between PDCP and RLC loses, repeats and reorders nothing.
    Whatever threads call enqueue (no more than the queue has slots) and however
    they, the consumer and its wake-ups are interleaved, the items passed on are
    the first ones that entered the queue, in that order; at most a ring of items
    is in between; every request has entered the queue or is still held by its
    thread; and the slot a producer writes is never the one whose item the
    consumer uses outside the lock. *)
Theorem data_queue_fifo zero n acts tr s :
  0 < size -> Z.of_nat n <= size ->
  run size (init_queue size zero n) acts = Some (tr, s) ->
  (exists rest, puts tr = calls tr ++ rest /\ zlen rest <= size) /\
  requests tr ≡ₚ puts tr ++ pending s /\
  (forall k i a, q_consumer s = C_use k -> q_producers s !! i = Some (P_put a) ->
    (q_start s + q_length s) %% size <> k).
Proof.
  intros Hs Hn Hr. destruct (reachable_history zero n acts tr s Hs Hn Hr) as [H (xs & [Hl _] & Hp) Hnl].
  pose proof (qo_start _ H) as Hst. pose proof (qo_length _ H) as Hle. split_and!; [|done|].
  - eexists. split; [exact Hp|]. rewrite zlen_drop. lia.
  - intros k i a E Hi. pose proof (qo_use _ H k E) as ->. pose proof (qo_item _ H) as Hit. rewrite E in Hit.
    pose proof (qo_room _ H i a Hi). rewrite rem_mod by lia. intros Eq.
    assert (q_length s = 0); [|lia]. apply (mod_window_inj size (q_start s)); [lia..|].
    by rewrite Z.add_0_r, (Z.mod_small (q_start s)) by lia.
Qed.

(** C28: No wake-up is lost although the consumer and the producers wait on one
    condition variable and each signal wakes one thread only. From every
    reachable state, whichever runnable thread goes next, the threads stop after
    a bounded number of steps, and when none can go on the consumer waits on an
    empty ring, no producer is left inside and every item requested so far has
    been passed on. *)
Theorem data_queue_drains zero n acts tr s sched tr' s' :
  0 < size -> Z.of_nat n <= size ->
  run size (init_queue size zero n) acts = Some (tr, s) ->
  run size s (map (fun x => Run x.1 x.2) sched) = Some (tr', s') ->
  zlen sched <= 51 * size + 11 /\
  ((forall t wake, exec size s' (Run t wake) = None) ->
    drained s' /\ puts (tr ++ tr') = calls (tr ++ tr') /\ requests (tr ++ tr') ≡ₚ calls (tr ++ tr')).
Proof.
  intros Hs Hn Hr Hr'. pose proof (reachable_history zero n acts tr s Hs Hn Hr) as H. split.
  - destruct (steps_left_bound s (hi_ok _ _ H)) as [_ Hb]. pose proof (qo_threads _ (hi_ok _ _ H)).
    enough (zlen sched <= steps_left s) by lia. clear Hr Hb H0. revert tr s tr' H Hr'.
    induction sched as [|[t w] sched IH]; intros tr s tr' H Hr'.
    { apply (steps_left_bound s (hi_ok _ _ H)). }
    cbn [map run] in Hr'. destruct (exec size s _) as [[l s1]|] eqn:E; simplify_eq/=.
    destruct (run size s1 _) as [[tr1 s2]|] eqn:E'; simplify_eq/=.
    pose proof (run_decreases s t w l s1 (hi_ok _ _ H) E). rewrite zlen_cons.
    specialize (IH _ _ _ (exec_history tr s (Run t w) l s1 H E) E'). lia.
  - intros Hstuck. pose proof (run_invariant history exec_history _ tr s tr' s' H Hr') as [H' (xs & [Hl _] & Hp) Hnl].
    pose proof (stuck_drained s' H' Hstuck) as (E & El & Hid). split; [done|].
    assert (xs = []) as -> by (rewrite El in Hl; destruct xs; [done|]; rewrite zlen_cons in Hl; pose proof (zlen_nonneg xs); lia).
    rewrite drop_nil, app_nil_r in Hp. split; [done|]. rewrite <- Hp.
    unfold none_lost, pending in Hnl. rewrite Hnl.
    replace (omap item (q_producers s')) with (@nil A); [by rewrite app_nil_r|].
    clear -Hid. induction Hid as [|pc ps <- _ IH]; simpl; done.
Qed.
End queue.

(** ** Runs of the queue of RLC requests *)

Definition request_to (ue : Z) : rlc_data_req_queue_item :=
  mk_rlc_item (mk_ctxt 0 1 0 ue 0 0) false false 1 0 0 2 [128; 0].

(** two threads enter with a request each while the consumer waits; its item is
    passed on while the second thread writes *)
Definition sample_schedule : list (action rlc_data_req_queue_item) :=
  [Run Consumer None; Run Consumer None; Request 0 (request_to 1); Request 1 (request_to 2);
   Run (Producer 0) None; Run (Producer 0) None; Run (Producer 0) None; Run (Producer 0) (Some Consumer);
   Run Consumer None; Run Consumer None; Run (Producer 1) None; Run (Producer 1) None].

Definition sample_rest : list (thread * option thread) :=
  [(Consumer, None); (Producer 1%nat, None); (Producer 1%nat, None)] ++ replicate 3 (Consumer, None) ++
  replicate 8 (Consumer, None).

Lemma data_queue_fifo_witness : exists tr s,
  run 4 (init_queue 4 (request_to 0) 2) sample_schedule = Some (tr, s) /\
  q_consumer s = C_use 0 /\ q_producers s !! 1%nat = Some (P_put (request_to 2)) /\
  (q_start s + q_length s) %% 4 <> 0.
Proof.
  destruct (run 4 (init_queue 4 (request_to 0) 2) sample_schedule) as [[tr s]|] eqn:E; [|by vm_compute in E]. exists tr, s.
  assert (Hc : q_consumer s = C_use 0 /\ q_producers s !! 1%nat = Some (P_put (request_to 2))).
  { vm_compute in E. injection E as <- <-. by split. }
  destruct Hc as [Hc Hp]. split_and!; [done|done|done|].
  exact (proj2 (proj2 (data_queue_fifo 4 (request_to 0) 2 sample_schedule tr s ltac:(done) ltac:(done) E))
    0 1%nat (request_to 2) Hc Hp).
Defined.

Lemma data_queue_drains_witness : exists tr s tr' s',
  run 4 (init_queue 4 (request_to 0) 2) sample_schedule = Some (tr, s) /\ run 4 s (map (fun x => Run x.1 x.2) sample_rest) = Some (tr', s') /\
  drained s' /\ puts (tr ++ tr') = calls (tr ++ tr').
Proof.
  destruct (run 4 (init_queue 4 (request_to 0) 2) sample_schedule) as [[tr s]|] eqn:E; [|by vm_compute in E].
  destruct (run 4 s (map (fun x => Run x.1 x.2) sample_rest)) as [[tr' s']|] eqn:E';
    [|vm_compute in E; injection E as <- <-; by vm_compute in E'].
  exists tr, s, tr', s'. split_and!; [done|done|..];
    apply (proj2 (data_queue_drains 4 (request_to 0) 2 sample_schedule tr s sample_rest tr' s'
      ltac:(done) ltac:(done) E E'));
    vm_compute in E; injection E as <- <-; vm_compute in E'; injection E' as <- <-;
    intros [|[|[|i]]] wake; reflexivity.
Defined.

(** the bound on the number of threads is needed: with a ring of one slot and two
    producers the signal of a producer can wake the other producer instead of the
    consumer, and everything stops with an item in the ring *)
Definition lost_wake_up : list (action Z) :=
  [Run Consumer None; Run Consumer None;
   Request 0 1; Run (Producer 0) None; Run (Producer 0) None; Run (Producer 0) None; Run (Producer 0) (Some Consumer);
   Request 0 2; Run (Producer 0) None; Run (Producer 0) None;
   Request 1 3; Run (Producer 1) None; Run (Producer 1) None] ++
  replicate 5 (Run Consumer None) ++
  [Run Consumer (Some (Producer 0%nat)); Run Consumer None; Run Consumer None;
   Run (Producer 0) None; Run (Producer 0) None; Run (Producer 0) None; Run (Producer 0) (Some (Producer 1%nat));
   Run (Producer 1) None; Run (Producer 1) None].

Example one_slot_loses_wake_up : exists tr s,
  run 1 (init_queue 1 0 2) lost_wake_up = Some (tr, s) /\ stuck 1 s /\ q_length s = 1.
Proof.
  destruct (run 1 (init_queue 1 0 2) lost_wake_up) as [[tr s]|] eqn:E; [|by vm_compute in E].
  exists tr, s. vm_compute in E. injection E as <- <-. split_and!; [done| |done].
  intros [|[|[|i]]] wake; reflexivity.
Qed.
