(* ===== verification/HashTable.v ===== *)
(** The hash table of src/common/utils/hashtable/hashtable.c: an array of linked
    lists, with the data as pointers that the table frees when it drops them.

    Allocations succeed. A pointer is a number, NULL is 0; what the operations give
    to [freefunc] is part of their result. *)

From stdpp Require Import base tactics list numbers gmap.
From Stdlib Require Import ZArith Lia.
From S2P Require Import Prelude.

Inductive hashtable_rc_t :=
| HASH_TABLE_OK
| HASH_TABLE_INSERT_OVERWRITTEN_DATA
| HASH_TABLE_KEY_NOT_EXISTS
| HASH_TABLE_KEY_ALREADY_EXISTS
| HASH_TABLE_BAD_PARAMETER_HASHTABLE
| HASH_TABLE_SYSTEM_ERROR.

#[export] Instance hashtable_rc_eq_dec : EqDecision hashtable_rc_t.
Proof. solve_decision. Defined.

(** a node of a list; [next] is the rest of the list *)
Record hash_node_t := mk_hash_node { node_key : Z; node_data : Z }.

Record hash_table_t := mk_hash_table { ht_size : Z; ht_nodes : list (list hash_node_t); ht_hashfunc : Z -> Z }.

Definition with_nodes (t : hash_table_t) (nodes : list (list hash_node_t)) : hash_table_t :=
  mk_hash_table (ht_size t) nodes (ht_hashfunc t).

Definition def_hashfunc (keyP : Z) : Z := u64 keyP.

Definition hashtable_create (sizeP : Z) (hashfuncP : option (Z -> Z)) : hash_table_t :=
  mk_hash_table sizeP (replicate (Z.to_nat sizeP) []) (default def_hashfunc hashfuncP).

(** [hashfunc(key) % size] *)
Definition hash_of (t : hash_table_t) (keyP : Z) : outcome nat :=
  if ht_size t =? 0 then Undef else Ret (Z.to_nat (ht_hashfunc t keyP mod ht_size t)).

(** [nodes[hash]] *)
Definition list_at (t : hash_table_t) (hash : nat) : outcome (list hash_node_t) :=
  match ht_nodes t !! hash with Some l => Ret l | None => Undef end.

Definition get_list (t : hash_table_t) (keyP : Z) : outcome (nat * list hash_node_t) :=
  hash ← hash_of t keyP; l ← list_at t hash; Ret (hash, l).

(** [if (p) freefunc(p)] *)
Definition free_data (p : Z) : list Z := if p =? 0 then [] else [p].

Definition free_list (l : list hash_node_t) : list Z := flat_map (fun n => free_data (node_data n)) l.

Definition hashtable_destroy (hashtblP : option hash_table_t) : hashtable_rc_t * option hash_table_t * list Z :=
  match hashtblP with
  | None => (HASH_TABLE_BAD_PARAMETER_HASHTABLE, None, [])
  | Some t => (HASH_TABLE_OK, None, flat_map free_list (take (Z.to_nat (ht_size t)) (ht_nodes t)))
  end.

Fixpoint find_node (l : list hash_node_t) (keyP : Z) : option Z :=
  match l with
  | [] => None
  | n :: l => if node_key n =? keyP then Some (node_data n) else find_node l keyP
  end.

Definition hashtable_is_key_exists (hashtblP : option hash_table_t) (keyP : Z) : outcome hashtable_rc_t :=
  match hashtblP with
  | None => Ret HASH_TABLE_BAD_PARAMETER_HASHTABLE
  | Some t =>
      '(_, l) ← get_list t keyP;
      Ret (match find_node l keyP with Some _ => HASH_TABLE_OK | None => HASH_TABLE_KEY_NOT_EXISTS end)
  end.

(** a node with the key gets the data *)
Fixpoint overwrite_node (l : list hash_node_t) (keyP dataP : Z) : option (list hash_node_t * list Z) :=
  match l with
  | [] => None
  | n :: l =>
      if node_key n =? keyP then Some (mk_hash_node keyP dataP :: l, free_data (node_data n))
      else match overwrite_node l keyP dataP with Some (l, f) => Some (n :: l, f) | None => None end
  end.

Definition hashtable_insert (hashtblP : option hash_table_t) (keyP dataP : Z)
    : outcome (hashtable_rc_t * option hash_table_t * list Z) :=
  match hashtblP with
  | None => Ret (HASH_TABLE_BAD_PARAMETER_HASHTABLE, None, [])
  | Some t =>
      '(hash, l) ← get_list t keyP;
      Ret (match overwrite_node l keyP dataP with
           | Some (l, freed) => (HASH_TABLE_INSERT_OVERWRITTEN_DATA, Some (with_nodes t (<[hash := l]> (ht_nodes t))), freed)
           | None => (HASH_TABLE_OK, Some (with_nodes t (<[hash := mk_hash_node keyP dataP :: l]> (ht_nodes t))), [])
           end)
  end.

(** [prevnode->next = node->next], or the head of the list *)
Fixpoint remove_node (l : list hash_node_t) (keyP : Z) : option (list hash_node_t * list Z) :=
  match l with
  | [] => None
  | n :: l =>
      if node_key n =? keyP then Some (l, free_data (node_data n))
      else match remove_node l keyP with Some (l, f) => Some (n :: l, f) | None => None end
  end.

Definition hashtable_remove (hashtblP : option hash_table_t) (keyP : Z)
    : outcome (hashtable_rc_t * option hash_table_t * list Z) :=
  match hashtblP with
  | None => Ret (HASH_TABLE_BAD_PARAMETER_HASHTABLE, None, [])
  | Some t =>
      '(hash, l) ← get_list t keyP;
      Ret (match remove_node l keyP with
           | Some (l, freed) => (HASH_TABLE_OK, Some (with_nodes t (<[hash := l]> (ht_nodes t))), freed)
           | None => (HASH_TABLE_KEY_NOT_EXISTS, Some t, [])
           end)
  end.

(** the code and [*dataP] *)
Definition hashtable_get (hashtblP : option hash_table_t) (keyP : Z) : outcome (hashtable_rc_t * Z) :=
  match hashtblP with
  | None => Ret (HASH_TABLE_BAD_PARAMETER_HASHTABLE, 0)
  | Some t =>
      '(_, l) ← get_list t keyP;
      Ret (match find_node l keyP with Some p => (HASH_TABLE_OK, p) | None => (HASH_TABLE_KEY_NOT_EXISTS, 0) end)
  end.

(** ** Iterators *)

(** [it_node]: the list from [node] on *)
Record hash_table_iterator_s := mk_iterator { it_index : nat; it_node : list hash_node_t; it_hashtbl : hash_table_t }.

Definition hashtable_get_iterator (t : hash_table_t) : outcome hash_table_iterator_s :=
  l ← list_at t 0; Ret (mk_iterator 0 l t).

(** to the next list that is not empty *)
Fixpoint iterator_seek (fuel : nat) (it : hash_table_iterator_s) : outcome hash_table_iterator_s :=
  match it_node it with
  | _ :: _ => Ret it
  | [] =>
      let it := mk_iterator (S (it_index it)) [] (it_hashtbl it) in
      if ht_size (it_hashtbl it) <=? Z.of_nat (it_index it) then Ret it
      else match fuel with
           | O => Diverge
           | S fuel => l ← list_at (it_hashtbl it) (it_index it); iterator_seek fuel (mk_iterator (it_index it) l (it_hashtbl it))
           end
  end.

(** [None]: false, and [*dataP] is NULL *)
Definition hashtable_iterator_getnext (it : hash_table_iterator_s) : outcome (option Z * hash_table_iterator_s) :=
  it ← iterator_seek (length (ht_nodes (it_hashtbl it))) it;
  Ret (match it_node it with
       | n :: l => (Some (node_data n), mk_iterator (it_index it) l (it_hashtbl it))
       | [] => (None, it)
       end).

(** The hash table is a finite map from keys to pointers: every operation returns
    what the map says, frees exactly what the map loses, and an iterator meets
    every entry once. *)

(** ** One list *)

Definition keys (l : list hash_node_t) : list Z := map node_key l.

Lemma find_node_None l k : find_node l k = None <-> k ∉ keys l.
Proof.
  induction l as [|n l IH]; simpl; [split; [intros _; apply not_elem_of_nil|done]|].
  rewrite not_elem_of_cons. destruct (Z.eqb_spec (node_key n) k); [split; [done|intros [? _]; congruence]|].
  rewrite IH. split; [auto|tauto].
Qed.

Lemma find_node_elem l k p : find_node l k = Some p -> mk_hash_node k p ∈ l.
Proof.
  induction l as [|[k' p'] l IH]; simpl; [done|]. destruct (Z.eqb_spec k' k); [intros [= ->]; subst; left|].
  intros H. right. auto.
Qed.

Lemma elem_find_node l k p : NoDup (keys l) -> mk_hash_node k p ∈ l -> find_node l k = Some p.
Proof.
  induction l as [|[k' p'] l IH]; intros Hn Hin; [by apply not_elem_of_nil in Hin|]. simpl in *.
  apply list.NoDup_cons in Hn as [Hk Hn]. apply elem_of_cons in Hin as [[= -> ->]|Hin]; [by rewrite Z.eqb_refl|].
  rewrite (proj2 (Z.eqb_neq _ _)); [auto|]. intros ->. apply Hk, list_elem_of_fmap. by exists (mk_hash_node k p).
Qed.

Lemma overwrite_node_spec l k p :
  match overwrite_node l k p with
  | Some (l', freed) => exists old, find_node l k = Some old /\ freed = free_data old /\ keys l' = keys l /\
      forall k', find_node l' k' = if k' =? k then Some p else find_node l k'
  | None => find_node l k = None
  end.
Proof.
  induction l as [|[k0 p0] l IH]; simpl; [done|]. destruct (Z.eqb_spec k0 k) as [->|E].
  - exists p0. split_and!; try done. intros k'. simpl. by destruct (Z.eqb_spec k k'), (Z.eqb_spec k' k); try congruence.
  - destruct (overwrite_node l k p) as [[l' freed]|]; [|done]. destruct IH as (old & H1 & H2 & H3 & H4).
    exists old. split_and!; try done; [simpl; by rewrite H3|]. intros k'. simpl. rewrite H4.
    destruct (Z.eqb_spec k0 k'), (Z.eqb_spec k' k); congruence.
Qed.

Lemma remove_node_spec l k : NoDup (keys l) ->
  match remove_node l k with
  | Some (l', freed) => exists old, find_node l k = Some old /\ freed = free_data old /\ keys l' `sublist_of` keys l /\
      forall k', find_node l' k' = if k' =? k then None else find_node l k'
  | None => find_node l k = None
  end.
Proof.
  induction l as [|[k0 p0] l IH]; simpl; intros Hn; [done|]. apply list.NoDup_cons in Hn as [Hk Hn].
  destruct (Z.eqb_spec k0 k) as [->|E].
  - exists p0. split_and!; try done; [by apply sublist_cons|]. intros k'. simpl.
    destruct (Z.eqb_spec k k'), (Z.eqb_spec k' k); try congruence. subst. by apply find_node_None.
  - specialize (IH Hn). destruct (remove_node l k) as [[l' freed]|]; [|done]. destruct IH as (old & H1 & H2 & H3 & H4).
    exists old. split_and!; try done; [simpl; by apply sublist_skip|]. intros k'. simpl. rewrite H4.
    destruct (Z.eqb_spec k0 k'), (Z.eqb_spec k' k); congruence.
Qed.

(** ** The table and the map *)

(** the index of a key *)
Definition key_index (t : hash_table_t) (k : Z) : nat := Z.to_nat (ht_hashfunc t k mod ht_size t).

Record ht_repr (t : hash_table_t) (m : gmap Z Z) : Prop := {
  hr_size : 0 < ht_size t;
  hr_length : length (ht_nodes t) = Z.to_nat (ht_size t);
  hr_nodup : forall i l, ht_nodes t !! i = Some l -> NoDup (keys l);
  hr_index : forall i l k, ht_nodes t !! i = Some l -> k ∈ keys l -> key_index t k = i;
  hr_map : forall k l, ht_nodes t !! key_index t k = Some l -> find_node l k = m !! k
}.

Lemma ht_create_repr size h : 0 < size -> ht_repr (hashtable_create size h) ∅.
Proof.
  intros Hs. assert (E : forall i (l : list hash_node_t), replicate (Z.to_nat size) [] !! i = Some l -> l = []).
  { intros i l H. by apply lookup_replicate in H as [-> _]. }
  constructor; simpl; [done|by rewrite length_replicate|..].
  - intros i l H. rewrite (E _ _ H). constructor.
  - intros i l k H. rewrite (E _ _ H). by intros ?%not_elem_of_nil.
  - intros k l H. by rewrite (E _ _ H).
Qed.

Section repr.
Context (t : hash_table_t) (m : gmap Z Z) (Hr : ht_repr t m).

Lemma key_list k : exists l, ht_nodes t !! key_index t k = Some l /\ get_list t k = Ret (key_index t k, l).
Proof using Hr.
  destruct Hr as [H1 H2 _ _ _]. pose proof (Z.mod_pos_bound (ht_hashfunc t k) (ht_size t) H1).
  destruct (lookup_lt_is_Some_2 (ht_nodes t) (key_index t k)) as [l Hl]; [unfold key_index; lia|].
  exists l. split; [done|]. unfold get_list, hash_of, list_at. rewrite (proj2 (Z.eqb_neq _ _)) by lia.
  fold (key_index t k). by rewrite bind_Ret_l, Hl.
Qed.

(** a list gets other nodes, of the same or fewer keys and one that belongs there *)
Lemma ht_update_repr k l l' m' :
  ht_nodes t !! key_index t k = Some l -> NoDup (keys l') -> (forall x, x ∈ keys l' -> x ∈ keys l \/ x = k) ->
  (forall x, find_node l' x = if x =? k then m' !! k else find_node l x) ->
  (forall x, x <> k -> m' !! x = m !! x) ->
  ht_repr (with_nodes t (<[key_index t k := l']> (ht_nodes t))) m'.
Proof using Hr.
  intros Hl Hn Hk Hf Hm. destruct Hr as [H1 H2 H3 H4 H5]. constructor; cbn [with_nodes ht_nodes ht_size]; [done|by rewrite length_insert|..].
  - intros i x [(_ & -> & _)|[_ Hx]]%list_lookup_insert_Some; [done|eauto].
  - intros i x y [(<- & -> & _)|[_ Hx]]%list_lookup_insert_Some Hy; [|by eapply H4].
    destruct (Hk y Hy) as [Hy'| ->]; [by eapply (H4 _ l)|done].
  - intros y x [(E & -> & _)|[E Hx]]%list_lookup_insert_Some.
    + change (key_index _ y) with (key_index t y) in E. rewrite Hf. destruct (Z.eqb_spec y k) as [->|Ey]; [done|].
      rewrite Hm by done. apply H5. by rewrite <- E.
    + change (key_index _ y) with (key_index t y) in *. rewrite Hm by (intros ->; done). by apply H5.
Qed.

Lemma ht_insert_ok k p :
  exists t', hashtable_insert (Some t) k p =
    Ret (match m !! k with
         | Some old => (HASH_TABLE_INSERT_OVERWRITTEN_DATA, Some t', free_data old)
         | None => (HASH_TABLE_OK, Some t', [])
         end) /\ ht_repr t' (<[k := p]> m).
Proof using Hr.
  destruct (key_list k) as (l & Hl & Hg). pose proof (hr_map _ _ Hr k l Hl) as Hm. pose proof (hr_nodup _ _ Hr _ _ Hl) as Hn.
  unfold hashtable_insert. rewrite Hg, bind_Ret_l. pose proof (overwrite_node_spec l k p) as Ho.
  destruct (overwrite_node l k p) as [[l' freed]|].
  - destruct Ho as (old & E1 & -> & E3 & E4). rewrite <- Hm, E1. eexists. split; [reflexivity|].
    apply (ht_update_repr k l l'); try done; [by rewrite E3| |intros x|].
    + intros x. rewrite E3. auto.
    + by rewrite E4, lookup_insert_eq.
    + intros x Hx. by rewrite lookup_insert_ne.
  - rewrite <- Hm, Ho. eexists. split; [reflexivity|]. apply (ht_update_repr k l); try done.
    + simpl. constructor; [|done]. by apply find_node_None.
    + intros x Hx. apply elem_of_cons in Hx as [->|Hx]; auto.
    + intros x. simpl. rewrite lookup_insert_eq. destruct (Z.eqb_spec k x), (Z.eqb_spec x k); congruence.
    + intros x Hx. by rewrite lookup_insert_ne.
Qed.

Lemma ht_remove_ok k :
  exists t', hashtable_remove (Some t) k =
    Ret (match m !! k with
         | Some old => (HASH_TABLE_OK, Some t', free_data old)
         | None => (HASH_TABLE_KEY_NOT_EXISTS, Some t', [])
         end) /\ ht_repr t' (delete k m).
Proof using Hr.
  destruct (key_list k) as (l & Hl & Hg). pose proof (hr_map _ _ Hr k l Hl) as Hm. pose proof (hr_nodup _ _ Hr _ _ Hl) as Hn.
  unfold hashtable_remove. rewrite Hg, bind_Ret_l. pose proof (remove_node_spec l k Hn) as Ho.
  destruct (remove_node l k) as [[l' freed]|].
  - destruct Ho as (old & E1 & -> & E3 & E4). rewrite <- Hm, E1. eexists. split; [reflexivity|].
    apply (ht_update_repr k l l'); try done; [by eapply sublist_NoDup| |intros x|].
    + intros x Hx. left. by eapply elem_of_sublist.
    + by rewrite E4, lookup_delete_eq.
    + intros x Hx. by rewrite lookup_delete_ne.
  - rewrite <- Hm, Ho. exists t. split; [done|]. by rewrite delete_id by (by rewrite <- Hm).
Qed.

Lemma ht_get_ok k : hashtable_get (Some t) k =
  Ret (match m !! k with Some p => (HASH_TABLE_OK, p) | None => (HASH_TABLE_KEY_NOT_EXISTS, 0) end).
Proof using Hr.
  destruct (key_list k) as (l & Hl & Hg). unfold hashtable_get. rewrite Hg, bind_Ret_l. by rewrite (hr_map _ _ Hr k l Hl).
Qed.

Lemma ht_exists_ok k : hashtable_is_key_exists (Some t) k =
  Ret (match m !! k with Some _ => HASH_TABLE_OK | None => HASH_TABLE_KEY_NOT_EXISTS end).
Proof using Hr.
  destruct (key_list k) as (l & Hl & Hg). unfold hashtable_is_key_exists. rewrite Hg, bind_Ret_l.
  by rewrite (hr_map _ _ Hr k l Hl).
Qed.
End repr.

(** ** Iterating and destroying *)

Definition entry_of (n : hash_node_t) : Z * Z := (node_key n, node_data n).

Lemma elem_concat {A} (x : A) ls : x ∈ concat ls <-> exists l, x ∈ l /\ l ∈ ls.
Proof.
  rewrite list_elem_of_In, in_concat. split; intros (l & H1 & H2); exists l; rewrite !list_elem_of_In in *; tauto.
Qed.

(** all entries in the order of the array *)
Definition ht_entries (t : hash_table_t) : list (Z * Z) := map entry_of (concat (ht_nodes t)).

Lemma ht_entries_map t m : ht_repr t m -> ht_entries t ≡ₚ map_to_list m.
Proof.
  intros [H1 H2 H3 H4 H5].
  assert (Hin : forall k p, (k, p) ∈ ht_entries t <-> m !! k = Some p).
  { intros k p. unfold ht_entries. rewrite list_elem_of_fmap. split.
    - intros ([k' p'] & [= <- <-] & Hin). apply elem_concat in Hin as (l & Hin & Hl).
      apply list_elem_of_lookup_1 in Hl as [i Hi].
      assert (E : key_index t k = i) by (eapply H4; [done|]; apply list_elem_of_fmap; by exists (mk_hash_node k p)).
      rewrite <- (H5 k l) by (by rewrite E). apply elem_find_node; eauto.
    - intros Hm. destruct (lookup_lt_is_Some_2 (ht_nodes t) (key_index t k)) as [l Hl].
      { pose proof (Z.mod_pos_bound (ht_hashfunc t k) (ht_size t) H1). unfold key_index. lia. }
      rewrite <- (H5 k l Hl) in Hm. exists (mk_hash_node k p). split; [done|]. apply elem_concat.
      exists l. split; [by apply find_node_elem|by eapply list_elem_of_lookup_2]. }
  apply NoDup_Permutation; [|apply NoDup_map_to_list|].
  - apply (NoDup_fmap_1 fst). unfold ht_entries. rewrite <- list_fmap_compose. change (fst ∘ entry_of) with node_key.
    assert (Hsuf : forall ls i, (forall j l, ls !! j = Some l -> NoDup (keys l) /\ forall k, k ∈ keys l -> key_index t k = (i + j)%nat) ->
      NoDup (keys (concat ls)) /\ forall k, k ∈ keys (concat ls) -> (i <= key_index t k)%nat).
    { intros ls. induction ls as [|l ls IH]; intros i H; simpl.
      { split; [constructor|by intros k ?%not_elem_of_nil]. }
      destruct (H 0%nat l eq_refl) as [Hl Hk]. destruct (IH (S i)) as [Hls Hks].
      { intros j l' Hj. destruct (H (S j) l' Hj) as [? Hk']. split; [done|]. intros k Hk2. rewrite (Hk' k Hk2). lia. }
      unfold keys in *. rewrite map_app. split.
      - apply list.NoDup_app. split_and!; [done| |done]. intros k Ha Hb. specialize (Hk k Ha). specialize (Hks k Hb). lia.
      - intros k Ha. apply elem_of_app in Ha as [Ha|Ha]; [rewrite (Hk k Ha); lia|specialize (Hks k Ha); lia]. }
    apply (Hsuf (ht_nodes t) 0%nat). intros j l Hj. split; [eauto|]. intros k Hk. by eapply H4.
  - intros [k p]. by rewrite Hin, elem_of_map_to_list.
Qed.

(** what is left for an iterator *)
Definition it_rest (it : hash_table_iterator_s) : list hash_node_t :=
  it_node it ++ concat (drop (S (it_index it)) (ht_nodes (it_hashtbl it))).

Lemma iterator_seek_ok fuel : forall it,
  length (ht_nodes (it_hashtbl it)) = Z.to_nat (ht_size (it_hashtbl it)) ->
  (length (ht_nodes (it_hashtbl it)) <= fuel + S (it_index it))%nat ->
  exists it', iterator_seek fuel it = Ret it' /\ it_hashtbl it' = it_hashtbl it /\ it_rest it' = it_rest it /\
    (it_node it' = [] -> it_rest it = []).
Proof.
  induction fuel as [|fuel IH]; intros [i [|n l] t] Hlen Hf; simpl in *; try (by eexists; split_and!).
  - rewrite (proj2 (Z.leb_le _ _)) by lia. eexists. split_and!; try done; unfold it_rest; simpl;
      by rewrite !drop_ge by lia.
  - destruct (Z.leb_spec (ht_size t) (Z.of_nat (S i))).
    + eexists. split_and!; try done; unfold it_rest; simpl; by rewrite !drop_ge by lia.
    + destruct (lookup_lt_is_Some_2 (ht_nodes t) (S i)) as [l Hl]; [lia|]. unfold list_at. rewrite Hl, bind_Ret_l.
      destruct (IH (mk_iterator (S i) l t)) as (it' & H1 & H2 & H3 & H4); simpl; [done|lia|].
      assert (E : it_rest (mk_iterator (S i) l t) = it_rest (mk_iterator i [] t)).
      { unfold it_rest. simpl. by rewrite (drop_S (ht_nodes t) l (S i) Hl). }
      exists it'. rewrite <- E. by split_and!.
Qed.

Lemma ht_getnext_ok it : length (ht_nodes (it_hashtbl it)) = Z.to_nat (ht_size (it_hashtbl it)) ->
  exists it', hashtable_iterator_getnext it = Ret (node_data <$> head (it_rest it), it') /\
    it_hashtbl it' = it_hashtbl it /\ it_rest it' = tail (it_rest it).
Proof.
  intros Hlen. unfold hashtable_iterator_getnext. 
  destruct (iterator_seek_ok (length (ht_nodes (it_hashtbl it))) it Hlen ltac:(lia)) as (it1 & H1 & H2 & H3 & H4).
  rewrite H1, bind_Ret_l. destruct it1 as [i [|n l] t]; simpl in *.
  - specialize (H4 eq_refl). eexists. rewrite H4. split_and!; try done. by rewrite H3, H4.
  - eexists. rewrite <- H3. by split_and!.
Qed.

(** calls of [hashtable_iterator_getnext] until it returns false *)
Fixpoint iterate (fuel : nat) (it : hash_table_iterator_s) : outcome (list Z) :=
  match fuel with
  | O => Diverge
  | S fuel =>
      '(r, it) ← hashtable_iterator_getnext it;
      match r with Some p => l ← iterate fuel it; Ret (p :: l) | None => Ret [] end
  end.

Lemma iterate_ok fuel : forall it, length (ht_nodes (it_hashtbl it)) = Z.to_nat (ht_size (it_hashtbl it)) ->
  (length (it_rest it) < fuel)%nat -> iterate fuel it = Ret (map node_data (it_rest it)).
Proof.
  induction fuel as [|fuel IH]; intros it Hlen Hf; [lia|]. cbn [iterate].
  destruct (ht_getnext_ok it Hlen) as (it' & H1 & H2 & H3). rewrite H1, bind_Ret_l.
  destruct (it_rest it) as [|n l]; simpl in *; [done|]. rewrite IH; [by rewrite H3|by rewrite H2|rewrite H3; simpl; lia].
Qed.

(** ** Runs *)

Inductive ht_op := HtInsert (k p : Z) | HtRemove (k : Z) | HtGet (k : Z) | HtExists (k : Z).

(** the code, [*dataP], what is freed *)
Definition ht_result : Type := hashtable_rc_t * Z * list Z.

Definition ht_exec (t : option hash_table_t) (op : ht_op) : outcome (ht_result * option hash_table_t) :=
  match op with
  | HtInsert k p => '(rc, t, f) ← hashtable_insert t k p; Ret ((rc, 0, f), t)
  | HtRemove k => '(rc, t, f) ← hashtable_remove t k; Ret ((rc, 0, f), t)
  | HtGet k => '(rc, p) ← hashtable_get t k; Ret ((rc, p, []), t)
  | HtExists k => rc ← hashtable_is_key_exists t k; Ret ((rc, 0, []), t)
  end.

Fixpoint ht_run (t : option hash_table_t) (ops : list ht_op) : outcome (list ht_result * option hash_table_t) :=
  match ops with
  | [] => Ret ([], t)
  | op :: ops => '(r, t) ← ht_exec t op; '(rs, t) ← ht_run t ops; Ret (r :: rs, t)
  end.

(** the same of a map *)
Definition map_exec (m : gmap Z Z) (op : ht_op) : ht_result * gmap Z Z :=
  match op with
  | HtInsert k p =>
      (match m !! k with
       | Some old => (HASH_TABLE_INSERT_OVERWRITTEN_DATA, 0, free_data old)
       | None => (HASH_TABLE_OK, 0, [])
       end, <[k := p]> m)
  | HtRemove k =>
      (match m !! k with
       | Some old => (HASH_TABLE_OK, 0, free_data old)
       | None => (HASH_TABLE_KEY_NOT_EXISTS, 0, [])
       end, delete k m)
  | HtGet k =>
      (match m !! k with Some p => (HASH_TABLE_OK, p, []) | None => (HASH_TABLE_KEY_NOT_EXISTS, 0, []) end, m)
  | HtExists k =>
      (match m !! k with Some _ => (HASH_TABLE_OK, 0, []) | None => (HASH_TABLE_KEY_NOT_EXISTS, 0, []) end, m)
  end.

Fixpoint map_run (m : gmap Z Z) (ops : list ht_op) : list ht_result * gmap Z Z :=
  match ops with
  | [] => ([], m)
  | op :: ops => let '(r, m) := map_exec m op in let '(rs, m) := map_run m ops in (r :: rs, m)
  end.

Lemma ht_exec_refines t m op : ht_repr t m ->
  exists t', ht_exec (Some t) op = Ret ((map_exec m op).1, Some t') /\ ht_repr t' (map_exec m op).2.
Proof.
  intros H. destruct op as [k p|k|k|k]; cbn [ht_exec map_exec fst snd].
  - destruct (ht_insert_ok t m H k p) as (t' & E & H'). exists t'. split; [|done]. rewrite E. by destruct (m !! k).
  - destruct (ht_remove_ok t m H k) as (t' & E & H'). exists t'. split; [|done]. rewrite E. by destruct (m !! k).
  - exists t. split; [|done]. rewrite (ht_get_ok t m H k). by destruct (m !! k).
  - exists t. split; [|done]. rewrite (ht_exists_ok t m H k). by destruct (m !! k).
Qed.

Lemma ht_run_refines ops : forall t m, ht_repr t m ->
  exists t', ht_run (Some t) ops = Ret ((map_run m ops).1, Some t') /\ ht_repr t' (map_run m ops).2.
Proof.
  induction ops as [|op ops IH]; intros t m H; cbn [ht_run map_run]; [by exists t|].
  destruct (ht_exec_refines t m op H) as (t1 & E1 & H1). destruct (map_exec m op) as [r m1]. simpl in *.
  destruct (IH t1 m1 H1) as (t2 & E2 & H2). destruct (map_run m1 ops) as [rs m2]. simpl in *.
  exists t2. by rewrite E1, bind_Ret_l, E2, bind_Ret_l.
Qed.

Lemma ht_data_map t m : ht_repr t m -> map node_data (concat (ht_nodes t)) ≡ₚ (map_to_list m).*2.
Proof.
  intros H. rewrite <- (ht_entries_map t m H). unfold ht_entries. by rewrite <- list_fmap_compose.
Qed.

Lemma ht_destroy_ok t m : ht_repr t m -> (hashtable_destroy (Some t)).2 ≡ₚ flat_map free_data (map_to_list m).*2.
Proof.
  intros H. rewrite <- (ht_data_map t m H). simpl. rewrite <- (hr_length _ _ H), firstn_all.
  induction (ht_nodes t) as [|l ls IH]; [done|]. simpl. rewrite IH, map_app, flat_map_app. f_equiv.
  unfold free_list. clear. induction l as [|n l IH]; [done|]. simpl. by rewrite IH.
Qed.

Lemma ht_iterate_ok t m : ht_repr t m ->
  returns (it ← hashtable_get_iterator t; iterate (S (base.size m)) it) (fun ps => ps ≡ₚ (map_to_list m).*2).
Proof.
  intros H. pose proof (hr_size _ _ H). pose proof (hr_length _ _ H) as Hlen.
  destruct (ht_nodes t) as [|l ls] eqn:E; [simpl in Hlen; lia|].
  assert (Hr : it_rest (mk_iterator 0 l t) = concat (ht_nodes t)).
  { unfold it_rest. cbn [it_node it_index it_hashtbl]. rewrite E. simpl. by rewrite drop_0. }
  unfold hashtable_get_iterator, list_at. rewrite E. cbn [lookup list_lookup]. rewrite !bind_Ret_l.
  pose proof (ht_data_map t m H) as Hd. rewrite iterate_ok.
  - apply returns_Ret. by rewrite Hr.
  - cbn [it_hashtbl]. by rewrite E.
  - rewrite Hr, <- (length_map node_data), Hd, length_fmap, length_map_to_list. lia.
Qed.

(** C25: The hash table implements a finite map. For every size, every hash function
    and every sequence of insertions, removals and lookups, each call returns the
    code and the data a map gives and frees exactly the data the map loses; at the
    end an iterator meets the data of every key exactly once and stops, and
    destroying the table frees that data and nothing else. *)
Theorem hashtable_refines_map size h ops :
  0 < size ->
  returns (ht_run (Some (hashtable_create size h)) ops) (fun '(rs, t) =>
    let m := (map_run ∅ ops).2 in
    rs = (map_run ∅ ops).1 /\
    (hashtable_destroy t).2 ≡ₚ flat_map free_data (map_to_list m).*2 /\
    exists t', t = Some t' /\
      returns (it ← hashtable_get_iterator t'; iterate (S (base.size m)) it) (fun ps => ps ≡ₚ (map_to_list m).*2)).
Proof.
  intros Hs. destruct (ht_run_refines ops _ _ (ht_create_repr size h Hs)) as (t & E & H). rewrite E. apply returns_Ret.
  cbv zeta. split_and!; [done|by apply ht_destroy_ok|]. exists t. split; [done|]. by apply ht_iterate_ok.
Qed.

(** three keys of one list of a table of four, one of another *)
Definition demo_ht_ops : list ht_op :=
  [HtInsert 1 100; HtInsert 5 101; HtInsert 9 102; HtInsert 2 103; HtInsert 5 104; HtRemove 1; HtGet 5; HtGet 1; HtExists 9].

Lemma hashtable_refines_map_witness :
  returns (ht_run (Some (hashtable_create 4 None)) demo_ht_ops) (fun '(rs, t) =>
    drop 4 rs = [(HASH_TABLE_INSERT_OVERWRITTEN_DATA, 0, [101]); (HASH_TABLE_OK, 0, [100]); (HASH_TABLE_OK, 104, []);
                 (HASH_TABLE_KEY_NOT_EXISTS, 0, []); (HASH_TABLE_OK, 0, [])] /\
    (hashtable_destroy t).2 ≡ₚ [102; 103; 104]).
Proof.
  eapply returns_mono; [apply (hashtable_refines_map 4 None demo_ht_ops); done|].
  intros [rs t] (-> & H & _). split; [by vm_compute|]. rewrite H. by apply (bool_decide_unpack _).
Defined.
