(* ===== verification/F1Ids.v ===== *)
(** The identities a UE has at the other end of F1
    (src/openair2/F1AP/f1ap_ids.c): one hash table for the CU and one for the DU,
    both also used when CU and DU are in one process. The functions of the CU and
    of the DU are the same but for the table; here [cu] tells which it is.

    The data are objects of the heap, copied into the table and out of it. A call
    holds the mutex of its table and is one step. *)

From stdpp Require Import base tactics list numbers gmap.
From Stdlib Require Import ZArith Lia.
From S2P Require Import Prelude HashTable.

Record f1_ue_data_t := mk_f1_ue_data { secondary_ue : Z; e1_assoc_id : Z; du_assoc_id : Z }.

(** [f1_tbl cu]: cu2du_ue_mapping or du2cu_ue_mapping, NULL before its creation *)
Record f1_state := mk_f1 {
  f1_cu : option hash_table_t;
  f1_du : option hash_table_t;
  f1_heap : gmap Z f1_ue_data_t;
  f1_next : Z
}.

Definition f1_tbl (s : f1_state) (cu : bool) : option hash_table_t := if cu then f1_cu s else f1_du s.
Definition set_tbl (s : f1_state) (cu : bool) (t : option hash_table_t) : f1_state :=
  if cu then mk_f1 t (f1_du s) (f1_heap s) (f1_next s) else mk_f1 (f1_cu s) t (f1_heap s) (f1_next s).

Definition f1_start : f1_state := mk_f1 None None ∅ 1.

(** [malloc] and [free] of an object *)
Definition f1_malloc (s : f1_state) (d : f1_ue_data_t) : Z * f1_state :=
  (f1_next s, mk_f1 (f1_cu s) (f1_du s) (<[f1_next s := d]> (f1_heap s)) (f1_next s + 1)).

Fixpoint f1_free (s : f1_state) (ps : list Z) : outcome f1_state :=
  match ps with
  | [] => Ret s
  | p :: ps =>
      match f1_heap s !! p with
      | None => Undef
      | Some _ => f1_free (mk_f1 (f1_cu s) (f1_du s) (delete p (f1_heap s)) (f1_next s)) ps
      end
  end.

Definition get_hashtable_data (s : f1_state) (ht : option hash_table_t) (ue_id : Z) : outcome f1_ue_data_t :=
  '(ret, data) ← hashtable_get ht ue_id;
  if negb (bool_decide (ret = HASH_TABLE_OK)) || (data =? 0) then Exit
  else match f1_heap s !! data with Some d => Ret d | None => Undef end.

Definition add_hashtable_data (s : f1_state) (cu : bool) (ue_id : Z) (data : f1_ue_data_t) : outcome (bool * f1_state) :=
  let '(idata, s) := f1_malloc s data in
  '(ret, t, freed) ← hashtable_insert (f1_tbl s cu) ue_id idata;
  s ← f1_free (set_tbl s cu t) freed;
  Ret (bool_decide (ret = HASH_TABLE_OK), s).

Definition dev_assert {A} (t : option A) : outcome () := match t with Some _ => Ret () | None => Exit end.

Definition init_f1_ue_data (s : f1_state) (cu : bool) : outcome f1_state :=
  match f1_tbl s cu with
  | Some _ => Exit
  | None => Ret (set_tbl s cu (Some (hashtable_create 1319 None)))
  end.

Definition add_f1_ue_data (s : f1_state) (cu : bool) (ue_id : Z) (data : f1_ue_data_t) : outcome (bool * f1_state) :=
  _ ← dev_assert (f1_tbl s cu);
  rc ← hashtable_is_key_exists (f1_tbl s cu) ue_id;
  if bool_decide (rc = HASH_TABLE_OK) then Ret (false, s) else add_hashtable_data s cu ue_id data.

Definition exists_f1_ue_data (s : f1_state) (cu : bool) (ue_id : Z) : outcome bool :=
  _ ← dev_assert (f1_tbl s cu);
  rc ← hashtable_is_key_exists (f1_tbl s cu) ue_id;
  Ret (bool_decide (rc = HASH_TABLE_OK)).

Definition cu_update_f1_ue_data (s : f1_state) (ue_id : Z) (data : f1_ue_data_t) : outcome (bool * f1_state) :=
  _ ← dev_assert (f1_tbl s true);
  '(retrm, t, freed) ← hashtable_remove (f1_tbl s true) ue_id;
  s ← f1_free (set_tbl s true t) freed;
  if negb (bool_decide (retrm = HASH_TABLE_OK)) then Exit else add_hashtable_data s true ue_id data.

Definition get_f1_ue_data (s : f1_state) (cu : bool) (ue_id : Z) : outcome f1_ue_data_t :=
  _ ← dev_assert (f1_tbl s cu); get_hashtable_data s (f1_tbl s cu) ue_id.

Definition remove_f1_ue_data (s : f1_state) (cu : bool) (ue_id : Z) : outcome (bool * f1_state) :=
  _ ← dev_assert (f1_tbl s cu);
  '(ret, t, freed) ← hashtable_remove (f1_tbl s cu) ue_id;
  s ← f1_free (set_tbl s cu t) freed;
  Ret (bool_decide (ret = HASH_TABLE_OK), s).

(** *** The CU *)

Definition cu_init_f1_ue_data (s : f1_state) := init_f1_ue_data s true.
Definition cu_add_f1_ue_data (s : f1_state) := add_f1_ue_data s true.
Definition cu_exists_f1_ue_data (s : f1_state) := exists_f1_ue_data s true.
Definition cu_get_f1_ue_data (s : f1_state) := get_f1_ue_data s true.
Definition cu_remove_f1_ue_data (s : f1_state) := remove_f1_ue_data s true.

(** *** The DU *)

Definition du_init_f1_ue_data (s : f1_state) := init_f1_ue_data s false.
Definition du_add_f1_ue_data (s : f1_state) := add_f1_ue_data s false.
Definition du_exists_f1_ue_data (s : f1_state) := exists_f1_ue_data s false.
Definition du_get_f1_ue_data (s : f1_state) := get_f1_ue_data s false.
Definition du_remove_f1_ue_data (s : f1_state) := remove_f1_ue_data s false.

(** ** The calls *)

Inductive f1_op :=
| F1Init (cu : bool)
| F1Add (cu : bool) (ue_id : Z) (data : f1_ue_data_t)
| F1Exists (cu : bool) (ue_id : Z)
| F1Update (ue_id : Z) (data : f1_ue_data_t)
| F1Get (cu : bool) (ue_id : Z)
| F1Remove (cu : bool) (ue_id : Z).

(** what a call returns: nothing, a truth value or an entry *)
Inductive f1_result := F1Void | F1Bool (b : bool) | F1Data (d : f1_ue_data_t).

Definition f1_exec (s : f1_state) (op : f1_op) : outcome (f1_result * f1_state) :=
  match op with
  | F1Init cu => s ← (if cu then cu_init_f1_ue_data s else du_init_f1_ue_data s); Ret (F1Void, s)
  | F1Add cu ue d => '(b, s) ← (if cu then cu_add_f1_ue_data s else du_add_f1_ue_data s) ue d; Ret (F1Bool b, s)
  | F1Exists cu ue => b ← (if cu then cu_exists_f1_ue_data s else du_exists_f1_ue_data s) ue; Ret (F1Bool b, s)
  | F1Update ue d => '(b, s) ← cu_update_f1_ue_data s ue d; Ret (F1Bool b, s)
  | F1Get cu ue => d ← (if cu then cu_get_f1_ue_data s else du_get_f1_ue_data s) ue; Ret (F1Data d, s)
  | F1Remove cu ue => '(b, s) ← (if cu then cu_remove_f1_ue_data s else du_remove_f1_ue_data s) ue; Ret (F1Bool b, s)
  end.

Fixpoint f1_run (s : f1_state) (ops : list f1_op) : outcome (list f1_result * f1_state) :=
  match ops with
  | [] => Ret ([], s)
  | op :: ops => '(r, s) ← f1_exec s op; '(rs, s) ← f1_run s ops; Ret (r :: rs, s)
  end.

(** The two F1 tables are finite maps from UE identities to entries, every object
    of the heap belongs to one entry, and the lookups the RLC layer makes through
    them never leave defined behaviour. *)

(** ** Abstract state *)

Record f1_maps := mk_f1_maps { ma_cu : option (gmap Z f1_ue_data_t); ma_du : option (gmap Z f1_ue_data_t) }.

Definition ma_tbl (a : f1_maps) (cu : bool) : option (gmap Z f1_ue_data_t) := if cu then ma_cu a else ma_du a.
Definition set_ma (a : f1_maps) (cu : bool) (m : gmap Z f1_ue_data_t) : f1_maps :=
  if cu then mk_f1_maps (Some m) (ma_du a) else mk_f1_maps (ma_cu a) (Some m).

(** what a call does to the maps *)
Definition maps_exec (a : f1_maps) (op : f1_op) : outcome (f1_result * f1_maps) :=
  match op with
  | F1Init cu => match ma_tbl a cu with Some _ => Exit | None => Ret (F1Void, set_ma a cu ∅) end
  | F1Add cu ue d =>
      match ma_tbl a cu with
      | None => Exit
      | Some m => match m !! ue with Some _ => Ret (F1Bool false, a) | None => Ret (F1Bool true, set_ma a cu (<[ue := d]> m)) end
      end
  | F1Exists cu ue => match ma_tbl a cu with None => Exit | Some m => Ret (F1Bool (bool_decide (is_Some (m !! ue))), a) end
  | F1Update ue d =>
      match ma_cu a with
      | None => Exit
      | Some m => match m !! ue with None => Exit | Some _ => Ret (F1Bool true, set_ma a true (<[ue := d]> m)) end
      end
  | F1Get cu ue =>
      match ma_tbl a cu with
      | None => Exit
      | Some m => match m !! ue with None => Exit | Some d => Ret (F1Data d, a) end
      end
  | F1Remove cu ue =>
      match ma_tbl a cu with
      | None => Exit
      | Some m => Ret (F1Bool (bool_decide (is_Some (m !! ue))), set_ma a cu (delete ue m))
      end
  end.

Fixpoint maps_run (a : f1_maps) (ops : list f1_op) : outcome (list f1_result * f1_maps) :=
  match ops with
  | [] => Ret ([], a)
  | op :: ops => '(r, a) ← maps_exec a op; '(rs, a) ← maps_run a ops; Ret (r :: rs, a)
  end.

(** ** Representation *)

(** [ptr cu]: the pointers in a table *)
Definition set_ptr (ptr : bool -> gmap Z Z) (cu : bool) (m : gmap Z Z) : bool -> gmap Z Z :=
  fun b => if Bool.eqb b cu then m else ptr b.

Record f1_repr (s : f1_state) (ptr : bool -> gmap Z Z) (a : f1_maps) : Prop := {
  fr_tbl : forall cu t, f1_tbl s cu = Some t -> ht_repr t (ptr cu);
  fr_null : forall cu, f1_tbl s cu = None -> ptr cu = ∅ /\ ma_tbl a cu = None;
  fr_map : forall cu t, f1_tbl s cu = Some t -> exists m, ma_tbl a cu = Some m /\
    forall k, m !! k = ptr cu !! k ≫= fun p => f1_heap s !! p;
  fr_live : forall cu k p, ptr cu !! k = Some p -> 0 < p < f1_next s /\ is_Some (f1_heap s !! p);
  fr_inj : forall cu k cu' k' p, ptr cu !! k = Some p -> ptr cu' !! k' = Some p -> cu = cu' /\ k = k';
  fr_heap : forall p, is_Some (f1_heap s !! p) -> exists cu k, ptr cu !! k = Some p;
  fr_next : 0 < f1_next s
}.

Definition f1_inv (s : f1_state) (a : f1_maps) : Prop := exists ptr, f1_repr s ptr a.

Lemma f1_start_inv : f1_inv f1_start (mk_f1_maps None None).
Proof.
  exists (fun _ => ∅). constructor; try done; try (by intros []).
  intros p [d H]. simpl in H. by rewrite lookup_empty in H.
Qed.

Lemma set_ptr_eq ptr cu m : set_ptr ptr cu m cu = m.
Proof. unfold set_ptr. by rewrite Bool.eqb_reflx. Qed.

Lemma set_ptr_lookup ptr cu m b k p : set_ptr ptr cu m b !! k = Some p ->
  (b = cu /\ m !! k = Some p) \/ (b <> cu /\ ptr b !! k = Some p).
Proof. unfold set_ptr. destruct (Bool.eqb b cu) eqn:E; [apply Bool.eqb_prop in E as ->|apply Bool.eqb_false_iff in E]; auto. Qed.

Lemma tbl_set s cu t b : f1_tbl (set_tbl s cu t) b = if Bool.eqb b cu then t else f1_tbl s b.
Proof. by destruct cu, b. Qed.

Lemma ma_set a cu m b : ma_tbl (set_ma a cu m) b = if Bool.eqb b cu then Some m else ma_tbl a b.
Proof. by destruct cu, b. Qed.

Section step.
Context (s : f1_state) (ptr : bool -> gmap Z Z) (a : f1_maps) (H : f1_repr s ptr a).
Context (cu : bool) (t : hash_table_t) (Ht : f1_tbl s cu = Some t) (m : gmap Z f1_ue_data_t) (Hm : ma_tbl a cu = Some m).

Lemma f1_lookup k : m !! k = ptr cu !! k ≫= fun p => f1_heap s !! p.
Proof using All. destruct (fr_map _ _ _ H cu t Ht) as (m' & Hm' & E). rewrite Hm in Hm'. by injection Hm' as <-. Qed.

Lemma f1_lookup_Some k p : ptr cu !! k = Some p -> exists d, f1_heap s !! p = Some d /\ m !! k = Some d.
Proof using All.
  intros Hp. destruct (fr_live _ _ _ H _ _ _ Hp) as [_ [d Hd]]. exists d. split; [done|]. by rewrite f1_lookup, Hp.
Qed.

Lemma f1_lookup_None k : ptr cu !! k = None -> m !! k = None.
Proof using All. intros Hp. by rewrite f1_lookup, Hp. Qed.

(** a key gets a new object *)
Lemma f1_add_repr k d t' : ptr cu !! k = None -> ht_repr t' (<[k := f1_next s]> (ptr cu)) ->
  f1_repr (set_tbl (f1_malloc s d).2 cu (Some t')) (set_ptr ptr cu (<[k := f1_next s]> (ptr cu))) (set_ma a cu (<[k := d]> m)).
Proof using All.
  intros Hk Ht'. set (s' := set_tbl _ _ _).
  assert (Hh : f1_heap s' = <[f1_next s := d]> (f1_heap s)) by (unfold s'; by destruct cu).
  assert (Hn : f1_next s' = f1_next s + 1) by (unfold s'; by destruct cu).
  assert (Htb : forall b, f1_tbl s' b = if Bool.eqb b cu then Some t' else f1_tbl s b) by (intros; unfold s'; by destruct cu, b).
  assert (Hfresh : f1_heap s !! f1_next s = None).
  { destruct (f1_heap s !! f1_next s) eqn:E; [|done]. destruct (fr_heap _ _ _ H (f1_next s)) as (b & x & Hx); [by rewrite E|].
    destruct (fr_live _ _ _ H _ _ _ Hx). lia. }
  assert (Hold : forall b x p, ptr b !! x = Some p -> f1_heap s' !! p = f1_heap s !! p).
  { intros b x p Hp. destruct (fr_live _ _ _ H _ _ _ Hp). rewrite Hh, lookup_insert_ne by lia. done. }
  assert (Hcase : forall b x p, set_ptr ptr cu (<[k := f1_next s]> (ptr cu)) b !! x = Some p ->
    (b = cu /\ x = k /\ p = f1_next s) \/ ptr b !! x = Some p).
  { intros b x p [[-> [[<- <-]|[_ Hp]]%lookup_insert_Some]|[_ Hp]]%set_ptr_lookup; auto. }
  constructor.
  - intros b t0. rewrite Htb. unfold set_ptr. destruct (Bool.eqb b cu); [by intros [= <-]|apply (fr_tbl _ _ _ H)].
  - intros b. rewrite Htb, ma_set. unfold set_ptr. destruct (Bool.eqb b cu); [done|apply (fr_null _ _ _ H)].
  - intros b t0. rewrite Htb, ma_set. unfold set_ptr. destruct (Bool.eqb b cu) eqn:Eb.
    + intros _. eexists. split; [done|]. intros x. destruct (decide (x = k)) as [->|Hx].
      * rewrite !lookup_insert_eq. simpl. by rewrite Hh, lookup_insert_eq.
      * rewrite !lookup_insert_ne by done. rewrite f1_lookup. destruct (ptr cu !! x) as [p|] eqn:Ep; [|done]. simpl.
        by rewrite (Hold cu x p).
    + intros E. destruct (fr_map _ _ _ H b t0 E) as (m0 & E1 & E2). exists m0. split; [done|]. intros x. rewrite E2.
      destruct (ptr b !! x) as [p|] eqn:Ep; [|done]. simpl. by rewrite (Hold b x p).
  - intros b x p Hp. rewrite Hn. pose proof (fr_next _ _ _ H). apply Hcase in Hp as [(_ & _ & E)|Hp].
    + rewrite E. split; [lia|]. rewrite Hh, lookup_insert_eq. eauto.
    + rewrite (Hold b x p Hp). destruct (fr_live _ _ _ H _ _ _ Hp). split; [lia|done].
  - assert (Hne : forall b x, ptr b !! x <> Some (f1_next s)).
    { intros b x Hx. destruct (fr_live _ _ _ H _ _ _ Hx). lia. }
    intros b x b' x' p Hp Hp'. apply Hcase in Hp as [(E1 & E2 & E3)|Hp]; apply Hcase in Hp' as [(E4 & E5 & E6)|Hp'];
      [split; congruence|by rewrite E3 in Hp'; apply Hne in Hp'|by rewrite E6 in Hp; apply Hne in Hp|by eapply (fr_inj _ _ _ H)].
  - intros p. rewrite Hh. intros [d' [[<- _]|[_ Hp]]%lookup_insert_Some].
    + exists cu, k. by rewrite set_ptr_eq, lookup_insert_eq.
    + destruct (fr_heap _ _ _ H p) as (b & x & Hx); [eauto|]. exists b, x. unfold set_ptr.
      destruct (Bool.eqb b cu) eqn:Eb; [apply Bool.eqb_prop in Eb as ->|done]. rewrite lookup_insert_ne; [done|]. intros ->. congruence.
  - rewrite Hn. pose proof (fr_next _ _ _ H). lia.
Qed.

(** a key loses its object, if it has one *)
Lemma f1_remove_repr k t' freed : ht_repr t' (delete k (ptr cu)) ->
  freed = match ptr cu !! k with Some p => free_data p | None => [] end ->
  exists s', f1_free (set_tbl s cu (Some t')) freed = Ret s' /\
    f1_repr s' (set_ptr ptr cu (delete k (ptr cu))) (set_ma a cu (delete k m)) /\ f1_tbl s' cu = Some t'.
Proof using All.
  intros Ht' ->.
  assert (Hs' : exists s', f1_free (set_tbl s cu (Some t')) (match ptr cu !! k with Some p => free_data p | None => [] end) = Ret s' /\
    (forall b, f1_tbl s' b = if Bool.eqb b cu then Some t' else f1_tbl s b) /\ f1_next s' = f1_next s /\
    forall p, f1_heap s' !! p = if decide (ptr cu !! k = Some p) then None else f1_heap s !! p).
  { destruct (ptr cu !! k) as [p|] eqn:Ek.
    - destruct (fr_live _ _ _ H _ _ _ Ek) as [Hp [d Hd]]. unfold free_data. rewrite (proj2 (Z.eqb_neq _ _)) by lia.
      cbn [f1_free]. assert (E : f1_heap (set_tbl s cu (Some t')) = f1_heap s) by (by destruct cu). rewrite E, Hd.
      eexists. split; [done|]. split_and!; [intros b; by destruct cu, b|by destruct cu|]. intros p'. cbn [f1_heap].
      destruct (decide (Some p = Some p')) as [[= <-]|Hn]; [apply lookup_delete_eq|by rewrite lookup_delete_ne by congruence].
    - eexists. split; [done|]. split_and!; [intros b; by destruct cu, b|by destruct cu|]. intros p'.
      rewrite decide_False by done. by destruct cu. }
  destruct Hs' as (s' & E & Htb & Hn & Hh). exists s'. split; [done|]. split; [|by rewrite Htb, Bool.eqb_reflx].
  assert (Hcase : forall b x p, set_ptr ptr cu (delete k (ptr cu)) b !! x = Some p -> ptr b !! x = Some p /\ ptr cu !! k <> Some p).
  { intros b x p [[-> [Hx Hp]%lookup_delete_Some]|[Hb Hp]]%set_ptr_lookup; (split; [done|]); intros Hk;
      destruct (fr_inj _ _ _ H _ _ _ _ _ Hp Hk); congruence. }
  assert (Hold : forall b x p, set_ptr ptr cu (delete k (ptr cu)) b !! x = Some p -> f1_heap s' !! p = f1_heap s !! p).
  { intros b x p Hp. apply Hcase in Hp as [_ Hp]. by rewrite Hh, decide_False. }
  constructor.
  - intros b t0. rewrite Htb. unfold set_ptr. destruct (Bool.eqb b cu); [by intros [= <-]|apply (fr_tbl _ _ _ H)].
  - intros b. rewrite Htb, ma_set. unfold set_ptr. destruct (Bool.eqb b cu); [done|apply (fr_null _ _ _ H)].
  - intros b t0. rewrite Htb, ma_set. destruct (Bool.eqb b cu) eqn:Eb.
    + apply Bool.eqb_prop in Eb as ->. intros _. eexists. split; [done|]. intros x.
      destruct (set_ptr ptr cu (delete k (ptr cu)) cu !! x) as [p|] eqn:Ep.
      * simpl. rewrite (Hold _ _ _ Ep). rewrite set_ptr_eq in Ep. apply lookup_delete_Some in Ep as [Hx Ep].
        by rewrite lookup_delete_ne, f1_lookup, Ep by done.
      * simpl. rewrite set_ptr_eq in Ep. apply lookup_delete_None in Ep as [->|Ep]; [apply lookup_delete_eq|].
        destruct (decide (k = x)) as [->|Hx]; [apply lookup_delete_eq|]. by rewrite lookup_delete_ne, f1_lookup, Ep by done.
    + intros E0. destruct (fr_map _ _ _ H b t0 E0) as (m0 & E1 & E2). exists m0. split; [done|]. intros x. rewrite E2.
      assert (Ex : set_ptr ptr cu (delete k (ptr cu)) b = ptr b) by (unfold set_ptr; by rewrite Eb). rewrite Ex.
      destruct (ptr b !! x) as [p|] eqn:Ep; [|done]. simpl. symmetry. apply (Hold b x p). by rewrite Ex.
  - intros b x p Hp. rewrite Hn, (Hold _ _ _ Hp). apply Hcase in Hp as [Hp _]. by apply (fr_live _ _ _ H b x).
  - intros b x b' x' p Hp Hp'. apply Hcase in Hp as [Hp _]. apply Hcase in Hp' as [Hp' _]. by eapply (fr_inj _ _ _ H).
  - intros p. rewrite Hh. destruct (decide _) as [|Hne]; [by intros [? ?]|]. intros Hp.
    destruct (fr_heap _ _ _ H p Hp) as (b & x & Hx). exists b, x. unfold set_ptr.
    destruct (Bool.eqb b cu) eqn:Eb; [apply Bool.eqb_prop in Eb as ->|done]. rewrite lookup_delete_ne; [done|]. by intros <-.
  - rewrite Hn. apply (fr_next _ _ _ H).
Qed.
End step.

(** ** Every call *)

(** the table and the map of a side: both are there or neither *)
Lemma f1_side s a cu : f1_inv s a ->
  (f1_tbl s cu = None /\ ma_tbl a cu = None) \/
  exists ptr t m, f1_repr s ptr a /\ f1_tbl s cu = Some t /\ ma_tbl a cu = Some m.
Proof.
  intros [ptr H]. destruct (f1_tbl s cu) as [t|] eqn:E.
  - destruct (fr_map _ _ _ H cu t E) as (m & Hm & _). right. by exists ptr, t, m.
  - left. split; [done|]. by apply (fr_null _ _ _ H).
Qed.

(** the key is there or not *)
Lemma f1_key s ptr a cu t m k : f1_repr s ptr a -> f1_tbl s cu = Some t -> ma_tbl a cu = Some m ->
  (exists p d, ptr cu !! k = Some p /\ m !! k = Some d /\ f1_heap s !! p = Some d /\ 0 < p) \/ (ptr cu !! k = None /\ m !! k = None).
Proof.
  intros H Ht Hm. destruct (ptr cu !! k) as [p|] eqn:E.
  - left. destruct (f1_lookup_Some s ptr a H cu t Ht m Hm k p E) as (d & H1 & H2). destruct (fr_live _ _ _ H _ _ _ E) as [? _].
    exists p, d. split_and!; try done. lia.
  - right. split; [done|]. by apply (f1_lookup_None s ptr a H cu t Ht m Hm).
Qed.

Lemma f1_insert_ok s ptr a cu t m k d : f1_repr s ptr a -> f1_tbl s cu = Some t -> ma_tbl a cu = Some m -> ptr cu !! k = None ->
  exists s', add_hashtable_data s cu k d = Ret (true, s') /\ f1_inv s' (set_ma a cu (<[k := d]> m)).
Proof.
  intros H Ht Hm Hk. unfold add_hashtable_data. cbn [f1_malloc].
  destruct (ht_insert_ok t (ptr cu) (fr_tbl _ _ _ H cu t Ht) k (f1_next s)) as (t' & E & Ht'). rewrite Hk in E.
  set (s1 := mk_f1 _ _ _ _). assert (Et : f1_tbl s1 cu = Some t) by (rewrite <- Ht; by destruct cu).
  rewrite Et, E, bind_Ret_l. cbn [f1_free]. rewrite bind_Ret_l. eexists. split; [reflexivity|].
  eexists. by apply (f1_add_repr s ptr a H cu t Ht m Hm k d t' Hk Ht').
Qed.

Lemma set_ma_same a cu m : ma_tbl a cu = Some m -> set_ma a cu m = a.
Proof. by destruct a as [c d], cu; simpl; intros ->. Qed.

Lemma set_ma_twice a cu m m' : set_ma (set_ma a cu m) cu m' = set_ma a cu m'.
Proof. by destruct cu. Qed.

Lemma f1_init_repr s ptr a cu : f1_repr s ptr a -> f1_tbl s cu = None ->
  f1_inv (set_tbl s cu (Some (hashtable_create 1319 None))) (set_ma a cu ∅).
Proof.
  intros H Ht. destruct (fr_null _ _ _ H cu Ht) as [Hp _]. exists ptr. set (s' := set_tbl _ _ _).
  assert (Hh : f1_heap s' = f1_heap s) by (unfold s'; by destruct cu).
  assert (Hn : f1_next s' = f1_next s) by (unfold s'; by destruct cu).
  constructor; rewrite ?Hh, ?Hn; try apply H.
  - intros b t0. unfold s'. rewrite tbl_set. destruct (Bool.eqb b cu) eqn:Eb; [|apply (fr_tbl _ _ _ H)].
    apply Bool.eqb_prop in Eb as ->. intros [= <-]. rewrite Hp. by apply ht_create_repr.
  - intros b. unfold s'. rewrite tbl_set, ma_set. destruct (Bool.eqb b cu); [done|apply (fr_null _ _ _ H)].
  - intros b t0. unfold s'. rewrite tbl_set, ma_set. destruct (Bool.eqb b cu) eqn:Eb; [|apply (fr_map _ _ _ H)].
    apply Bool.eqb_prop in Eb as ->. intros _. exists ∅. split; [done|]. intros k. by rewrite Hp, !lookup_empty.
Qed.

(** the outcome of a call on the tables and on the maps *)
Definition f1_agree {A} (c : outcome (A * f1_state)) (c' : outcome (A * f1_maps)) : Prop :=
  match c' with
  | Ret (r, a) => exists s, c = Ret (r, s) /\ f1_inv s a
  | Exit => c = Exit
  | Undef | Diverge => False
  end.

Lemma f1_removed s ptr a cu t m k : f1_repr s ptr a -> f1_tbl s cu = Some t -> ma_tbl a cu = Some m ->
  exists t' freed s', hashtable_remove (Some t) k =
      Ret (if decide (is_Some (m !! k)) then HASH_TABLE_OK else HASH_TABLE_KEY_NOT_EXISTS, Some t', freed) /\
    f1_free (set_tbl s cu (Some t')) freed = Ret s' /\ f1_tbl s' cu = Some t' /\
    f1_repr s' (set_ptr ptr cu (delete k (ptr cu))) (set_ma a cu (delete k m)).
Proof.
  intros H Ht Hm. destruct (ht_remove_ok t (ptr cu) (fr_tbl _ _ _ H cu t Ht) k) as (t' & E & Ht').
  destruct (f1_remove_repr s ptr a H cu t Ht m Hm k t' _ Ht' eq_refl) as (s' & Hs & Hr & Htb).
  destruct (f1_key s ptr a cu t m k H Ht Hm) as [(p & d & K1 & K2 & _)|[K1 K2]]; rewrite K1 in E, Hs; rewrite K2.
  - exists t', (free_data p), s'. rewrite E. by split_and!.
  - exists t', [], s'. rewrite E. by split_and!.
Qed.

(** the functions of one side *)
Lemma f1_side_fn (s : f1_state) (cu : bool) :
  (if cu then cu_init_f1_ue_data s else du_init_f1_ue_data s) = init_f1_ue_data s cu /\
  (if cu then cu_add_f1_ue_data s else du_add_f1_ue_data s) = add_f1_ue_data s cu /\
  (if cu then cu_exists_f1_ue_data s else du_exists_f1_ue_data s) = exists_f1_ue_data s cu /\
  (if cu then cu_get_f1_ue_data s else du_get_f1_ue_data s) = get_f1_ue_data s cu /\
  (if cu then cu_remove_f1_ue_data s else du_remove_f1_ue_data s) = remove_f1_ue_data s cu.
Proof. by destruct cu. Qed.

Lemma f1_exec_agree s a op : f1_inv s a -> f1_agree (f1_exec s op) (maps_exec a op).
Proof.
  intros Hi. destruct op as [cu|cu ue d|cu ue|ue d|cu ue|cu ue]; cbn [f1_exec maps_exec];
    try (destruct (f1_side_fn s cu) as (F1 & F2 & F3 & F4 & F5); rewrite ?F1, ?F2, ?F3, ?F4, ?F5; clear F1 F2 F3 F4 F5).
  - unfold init_f1_ue_data. destruct (f1_side s a cu Hi) as [[E1 E2]|(ptr & t & m & H & E1 & E2)]; rewrite E1, E2; [|done].
    destruct Hi as [ptr H]. eexists. split; [reflexivity|]. by apply (f1_init_repr s ptr).
  - unfold add_f1_ue_data. destruct (f1_side s a cu Hi) as [[E1 E2]|(ptr & t & m & H & E1 & E2)]; rewrite E1, E2; [done|].
    cbn [dev_assert]. rewrite bind_Ret_l, (ht_exists_ok t (ptr cu) (fr_tbl _ _ _ H cu t E1) ue), bind_Ret_l.
    destruct (f1_key s ptr a cu t m ue H E1 E2) as [(p & d' & K1 & K2 & K3 & K4)|[K1 K2]]; rewrite K1, K2; cbn [bool_decide].
    + exists s. split; [done|by exists ptr].
    + rewrite bool_decide_eq_false_2 by done. destruct (f1_insert_ok s ptr a cu t m ue d H E1 E2 K1) as (s' & Hs & Hinv).
      rewrite Hs, bind_Ret_l. by exists s'.
  - unfold exists_f1_ue_data. destruct (f1_side s a cu Hi) as [[E1 E2]|(ptr & t & m & H & E1 & E2)]; rewrite E1, E2; [done|].
    cbn [dev_assert]. rewrite bind_Ret_l, (ht_exists_ok t (ptr cu) (fr_tbl _ _ _ H cu t E1) ue), !bind_Ret_l.
    destruct (f1_key s ptr a cu t m ue H E1 E2) as [(p & d' & K1 & K2 & K3 & K4)|[K1 K2]]; rewrite K1, K2.
    + exists s. split; [by rewrite !bool_decide_eq_true_2 by eauto|by exists ptr].
    + exists s. split; [by rewrite !bool_decide_eq_false_2 by (try intros [? ?]; done)|by exists ptr].
  - unfold cu_update_f1_ue_data. change (ma_cu a) with (ma_tbl a true).
    destruct (f1_side s a true Hi) as [[E1 E2]|(ptr & t & m & H & E1 & E2)]; rewrite E1, E2; [done|].
    destruct (f1_removed s ptr a true t m ue H E1 E2) as (t' & freed & s' & R1 & R2 & R3 & R4).
    cbn [dev_assert]. rewrite bind_Ret_l, R1, bind_Ret_l, R2, bind_Ret_l.
    destruct (f1_key s ptr a true t m ue H E1 E2) as [(p & d' & K1 & K2 & K3 & K4)|[K1 K2]]; rewrite K2.
    + rewrite decide_True by eauto. rewrite bool_decide_eq_true_2 by done. cbn [negb].
      destruct (f1_insert_ok s' _ _ true t' (delete ue m) ue d R4 R3) as (s2 & Hs2 & Hinv).
      { by rewrite ma_set. }
      { rewrite set_ptr_eq. apply lookup_delete_eq. }
      rewrite Hs2, bind_Ret_l. exists s2. split; [done|]. by rewrite set_ma_twice, insert_delete_eq in Hinv.
    + rewrite decide_False by (intros [? ?]; done). by rewrite bool_decide_eq_false_2 by done.
  - unfold get_f1_ue_data, get_hashtable_data.
    destruct (f1_side s a cu Hi) as [[E1 E2]|(ptr & t & m & H & E1 & E2)]; rewrite E1, E2; [done|].
    cbn [dev_assert]. rewrite bind_Ret_l, (ht_get_ok t (ptr cu) (fr_tbl _ _ _ H cu t E1) ue).
    destruct (f1_key s ptr a cu t m ue H E1 E2) as [(p & d' & K1 & K2 & K3 & K4)|[K1 K2]]; rewrite K1, K2, bind_Ret_l.
    + rewrite bool_decide_eq_true_2, (proj2 (Z.eqb_neq p 0)), K3 by (done || lia). exists s. split; [done|by exists ptr].
    + by rewrite bool_decide_eq_false_2 by done.
  - unfold remove_f1_ue_data. destruct (f1_side s a cu Hi) as [[E1 E2]|(ptr & t & m & H & E1 & E2)]; rewrite E1, E2; [done|].
    destruct (f1_removed s ptr a cu t m ue H E1 E2) as (t' & freed & s' & R1 & R2 & R3 & R4).
    cbn [dev_assert]. rewrite bind_Ret_l, R1, bind_Ret_l, R2, !bind_Ret_l. exists s'. split; [|by eexists].
    destruct (m !! ue) eqn:E; [by rewrite decide_True, !bool_decide_eq_true_2 by eauto|].
    rewrite decide_False by (by intros [? ?]). rewrite !bool_decide_eq_false_2; [done|by intros [? ?]|done].
Qed.

Lemma f1_run_agree ops : forall s a, f1_inv s a -> f1_agree (f1_run s ops) (maps_run a ops).
Proof.
  induction ops as [|op ops IH]; intros s a Hi; cbn [f1_run maps_run]; [by exists s|].
  pose proof (f1_exec_agree s a op Hi) as Hs. unfold f1_agree in Hs. destruct (maps_exec a op) as [[r a1]| | |]; [|by rewrite Hs|done|done].
  destruct Hs as (s1 & -> & H1). rewrite !bind_Ret_l. specialize (IH s1 a1 H1). unfold f1_agree in IH.
  destruct (maps_run a1 ops) as [[rs a2]| | |]; [|by rewrite IH|done|done]. destruct IH as (s2 & -> & H2). by exists s2.
Qed.

(** C26: The F1 tables are two maps from UE identities to entries. Whatever calls are
    made for the CU and for the DU, in whatever order, each returns what the two
    maps give, and stops the program exactly where they say: a second creation, a
    call before the creation, the lookup or update of a UE without entry. No object
    is freed twice, read after its release, leaked or shared between entries. *)
Theorem f1_ids_refine_maps ops :
  match maps_run (mk_f1_maps None None) ops with
  | Ret (rs, a) => exists s, f1_run f1_start ops = Ret (rs, s) /\ exists ptr : bool -> gmap Z Z,
      (forall p d, f1_heap s !! p = Some d <-> exists cu k m, ma_tbl a cu = Some m /\ m !! k = Some d /\ ptr cu !! k = Some p) /\
      (forall cu k cu' k' p, ptr cu !! k = Some p -> ptr cu' !! k' = Some p -> cu = cu' /\ k = k')
  | Exit => f1_run f1_start ops = Exit
  | Undef | Diverge => False
  end.
Proof.
  pose proof (f1_run_agree ops _ _ f1_start_inv) as H. unfold f1_agree in H.
  destruct (maps_run (mk_f1_maps None None) ops) as [[rs a]| | |]; [|done..]. destruct H as (s & -> & ptr & H).
  exists s. split; [done|]. exists ptr. split; [|apply (fr_inj _ _ _ H)]. intros p d. split.
  - intros Hp. destruct (fr_heap _ _ _ H p) as (cu & k & Hk); [by eauto|].
    destruct (f1_tbl s cu) as [t|] eqn:Et; [|destruct (fr_null _ _ _ H cu Et) as [E _]; by rewrite E, lookup_empty in Hk].
    destruct (fr_map _ _ _ H cu t Et) as (m & Hm & _). destruct (f1_lookup_Some s ptr a H cu t Et m Hm k p Hk) as (d' & E1 & E2).
    exists cu, k, m. split_and!; [done|congruence|done].
  - intros (cu & k & m & Hm & Hk & Hp). destruct (f1_tbl s cu) as [t|] eqn:Et; [|destruct (fr_null _ _ _ H cu Et); congruence].
    destruct (f1_lookup_Some s ptr a H cu t Et m Hm k p Hp) as (d' & E1 & E2). congruence.
Qed.

(** ** The lookup of another layer *)

(** the identity of a UE at the other side, as PDCP (the CU) and RLC (the DU) ask for it *)
Definition secondary_of (s : f1_state) (cu : bool) (ue_id : Z) : outcome Z :=
  d ← (if cu then cu_get_f1_ue_data s else du_get_f1_ue_data s) ue_id; Ret (secondary_ue d).

Lemma secondary_of_ok s a cu ue : f1_inv s a ->
  secondary_of s cu ue = match ma_tbl a cu ≫= fun m => m !! ue with Some d => Ret (secondary_ue d) | None => Exit end.
Proof.
  intros Hi. pose proof (f1_exec_agree s a (F1Get cu ue) Hi) as H. unfold f1_agree in H. cbn [f1_exec maps_exec] in H.
  unfold secondary_of. set (c := (if cu then cu_get_f1_ue_data s else du_get_f1_ue_data s) ue) in *. destruct (ma_tbl a cu) as [m|]; simpl in *.
  - destruct (m !! ue) as [d|].
    + destruct H as (s' & H & _). destruct c; try done. by injection H as -> _.
    + by destruct c.
  - by destruct c.
Qed.

(** the entry of a UE on both sides *)
Definition demo_f1_ops (cu_id du_id : Z) : list f1_op :=
  [F1Init true; F1Init false; F1Add true cu_id (mk_f1_ue_data du_id 0 0); F1Add false du_id (mk_f1_ue_data cu_id 0 0)].
