(* ===== verification/PdcpUe.v ===== *)
(** The PDCP layer of a node: the table of UEs and their radio bearers
    (src/openair2/LAYER2/nr_pdcp/nr_pdcp_ue_manager.c), the calls RRC, RLC, SDAP
    and the timer make into it (nr_pdcp_oai_api.c, nr_pdcp_timer_thread.c), and
    the callbacks that join the PDCP entities to SDAP above and to RLC, F1 and
    RRC around.

    A call holds the lock of the manager while it works, so that it is one step
    here. The callbacks of an entity run inside its operation. All they may do to
    the entity is to send an SDU (SDAP answers with an end marker), which uses
    the sending side only: they are run when the operation is complete, in the
    order in which they were called. A suspension, which ends by closing the
    sending side, runs them before that. *)

From stdpp Require Import base tactics list numbers.
From Stdlib Require Import ZArith Lia.
From S2P Require Import Prelude DataQueue Sdap PdcpSdu PdcpEntity.

(** ** Configuration from RRC: asn1_utils.c *)

Definition t_reordering_tab : list Z :=
  [0; 1; 2; 4; 5; 8; 10; 15; 20; 30; 40; 50; 60; 80; 100; 120; 140; 160;
   180; 200; 220; 240; 260; 280; 300; 500; 750; 1000; 1250; 1500; 1750; 2000; 2250; 2500; 2750; 3000].

Definition decode_t_reordering (v : Z) : outcome Z :=
  if (v <? 0) || (35 <? v) then Exit else rd t_reordering_tab v.

Definition decode_sn_size_ul (s : Z) : outcome Z :=
  if s =? 0 then Ret SHORT_SN_SIZE else if s =? 1 then Ret LONG_SN_SIZE else Exit.

Definition decode_sn_size_dl (s : Z) : outcome Z :=
  if s =? 0 then Ret SHORT_SN_SIZE else if s =? 1 then Ret LONG_SN_SIZE else Exit.

Definition discard_timer_tab : list Z := [10; 20; 30; 40; 50; 60; 75; 100; 150; 200; 250; 300; 500; 750; 1500; -1].

Definition decode_discard_timer (v : Z) : outcome Z :=
  if (v <? 0) || (15 <? v) then Exit else rd discard_timer_tab v.

(** the optional fields are pointers; reading through NULL is undefined *)
Definition ptr {A} (p : option A) : outcome A := match p with Some a => Ret a | None => Undef end.

Record NR_PDCP_Config__drb := mk_drb_config {
  discardTimer : option Z;
  pdcp_SN_SizeUL : option Z;
  pdcp_SN_SizeDL : option Z;
  integrityProtection : bool          (** the pointer is not NULL *)
}.

Record NR_PDCP_Config_t := mk_pdcp_config {
  pc_drb : option NR_PDCP_Config__drb;
  pc_t_Reordering : option Z;
  cipheringDisabled : bool            (** in ext1, both pointers not NULL *)
}.

Record NR_SRB_ToAddMod := mk_srb_add { srb_Identity : Z; srb_pdcp_Config : option NR_PDCP_Config_t }.

Record sdap_Config := mk_sdap_cfg { pdu_Session : Z; defaultDRB : bool; sdap_cfg : Sdap.NR_SDAP_Config_t }.

Inductive NR_DRB_ToAddMod__cnAssociation :=
| cnAssociation_PR_NOTHING
| cnAssociation_PR_eps_BearerIdentity (eps_BearerIdentity : Z)
| cnAssociation_PR_sdap_Config (c : option sdap_Config).

Record NR_DRB_ToAddMod := mk_drb_add {
  drb_Identity : Z;
  cnAssociation : option NR_DRB_ToAddMod__cnAssociation;
  drb_pdcp_Config : option NR_PDCP_Config_t
}.

(** ** UEs and bearers *)

Definition MAX_DRBS_PER_UE : Z := 32.

(** an entity and its address; [deliver_sdu_drb] compares addresses *)
Record rb_t := mk_rb { rb_addr : Z; rb_entity : nr_pdcp_entity_t }.

Record nr_pdcp_ue_t := mk_ue { ue_id : Z; srb : list (option rb_t); drb : list (option rb_t) }.

#[export] Instance ue_eta : Eta nr_pdcp_ue_t := fun u => mk_ue (ue_id u) (srb u) (drb u).

(** a UE from [calloc] *)
Definition new_ue (id : Z) : nr_pdcp_ue_t := mk_ue id (replicate 3 None) (replicate 32 None).

(** the calls that leave the layer *)
Inductive layer_call :=
| EnqueueRlcDataReq (it : rlc_data_req_queue_item)
| GtpSendDirect (ue_id rb_id : Z) (buf : list Z)              (** F1-U, to the DU *)
| F1apUlRrcMessage (cu_ue_id du_ue_id srb_id : Z) (buf : list Z)
| RrcDcchDataInd (ue_id srb_id : Z) (buf : list Z) (msg_integrity : nr_pdcp_integrity_data_t)
| SrbDeliverPdu (ue_id srb_id : Z) (buf : list Z) (mui : Z)   (** the callback of the caller *)
| GtpSendSdu (ue_id pdusession_id : Z) (buf : list Z)         (** N3, to the core network *)
| NasSocketWrite (buf : list Z).

(** [deleted]: the addresses given to [delete_entity] *)
Record pdcp_layer := mk_layer {
  ue_list : list nr_pdcp_ue_t;
  next_entity : Z;
  deleted : list Z;
  sdap_entities : list Sdap.nr_sdap_entity_t;
  calls : list layer_call
}.

#[export] Instance layer_eta : Eta pdcp_layer :=
  fun L => mk_layer (ue_list L) (next_entity L) (deleted L) (sdap_entities L) (calls L).

Definition new_nr_pdcp_ue_manager : pdcp_layer := mk_layer [] 0 [] [] [].

Fixpoint find_ue (l : list nr_pdcp_ue_t) (id : Z) : option nr_pdcp_ue_t :=
  match l with
  | [] => None
  | u :: l => if ue_id u =? id then Some u else find_ue l id
  end.

(** a UE that is not in the table is added to it *)
Definition nr_pdcp_manager_get_ue (L : pdcp_layer) (id : Z) : pdcp_layer * nr_pdcp_ue_t :=
  match find_ue (ue_list L) id with
  | Some u => (L, u)
  | None => (L <| ue_list ::= (fun l => l ++ [new_ue id]) |>, new_ue id)
  end.

(** the object behind the pointer is changed *)
Fixpoint put_ue (l : list nr_pdcp_ue_t) (u : nr_pdcp_ue_t) : list nr_pdcp_ue_t :=
  match l with
  | [] => []
  | v :: l => if ue_id v =? ue_id u then u :: l else v :: put_ue l u
  end.

Definition nr_pdcp_get_rb (ue : nr_pdcp_ue_t) (rb_id : Z) (srb_flag : bool) : option rb_t :=
  if srb_flag then
    if (rb_id <? 1) || (2 <? rb_id) then None else mjoin (srb ue !! Z.to_nat (rb_id - 1))
  else
    if (rb_id <? 1) || (MAX_DRBS_PER_UE <? rb_id) then None else mjoin (drb ue !! Z.to_nat (rb_id - 1)).

Definition set_slot (ue : nr_pdcp_ue_t) (srb_flag : bool) (i : nat) (rb : option rb_t) : nr_pdcp_ue_t :=
  if srb_flag then ue <| srb ::= <[i := rb]> |> else ue <| drb ::= <[i := rb]> |>.

Definition nr_pdcp_ue_add_srb_pdcp_entity (ue : nr_pdcp_ue_t) (srb_id : Z) (entity : rb_t) : outcome nr_pdcp_ue_t :=
  if (srb_id <? 1) || (2 <? srb_id) then Exit
  else match srb ue !! Z.to_nat (srb_id - 1) with
       | None => Undef
       | Some (Some _) => Exit
       | Some None => Ret (set_slot ue true (Z.to_nat (srb_id - 1)) (Some entity))
       end.

Definition nr_pdcp_ue_add_drb_pdcp_entity (ue : nr_pdcp_ue_t) (drb_id : Z) (entity : rb_t) : outcome nr_pdcp_ue_t :=
  if (drb_id <? 1) || (5 <? drb_id) then Exit
  else match drb ue !! Z.to_nat (drb_id - 1) with
       | None => Undef
       | Some (Some _) => Exit
       | Some None => Ret (set_slot ue false (Z.to_nat (drb_id - 1)) (Some entity))
       end.

Definition slot_addrs (l : list (option rb_t)) : list Z := omap (fun s => rb_addr <$> s) l.

(** the entities [nr_pdcp_manager_remove_ue] deletes *)
Definition removed_addrs (u : nr_pdcp_ue_t) : list Z := slot_addrs (take 2 (srb u)) ++ slot_addrs (take 5 (drb u)).

Fixpoint remove_first (l : list nr_pdcp_ue_t) (id : Z) : list nr_pdcp_ue_t :=
  match l with
  | [] => []
  | u :: l => if ue_id u =? id then l else u :: remove_first l id
  end.

Definition nr_pdcp_manager_remove_ue (L : pdcp_layer) (id : Z) : pdcp_layer :=
  match find_ue (ue_list L) id with
  | None => L
  | Some u => L <| deleted ::= (fun d => d ++ removed_addrs u) |> <| ue_list ::= (fun l => remove_first l id) |>
  end.

Definition nr_pdcp_get_first_ue_id (L : pdcp_layer) : option Z := ue_id <$> head (ue_list L).

(** ** Callbacks

    What the layer takes from the node it runs on: the ciphers, the mode of the
    program and the table of F1 UE identities of the CU. *)
Record node_t := mk_node {
  nd_crypto : crypto;
  nos1_or_tun : bool;                 (** IS_SOFTMODEM_NOS1 || UE_NAS_USE_TUN *)
  NODE_IS_CU : bool;
  secondary_ue : Z -> outcome Z       (** cu_get_f1_ue_data *)
}.

Section layer.
Context (node : node_t).

Definition emit (c : layer_call) (L : pdcp_layer) : pdcp_layer := L <| calls ::= (fun l => l ++ [c]) |>.

Definition rlc_request (enb : Z) (ue : Z) (srb_flag : bool) (rb_id sdu_id : Z) (buf : list Z) : layer_call :=
  EnqueueRlcDataReq (mk_rlc_item (mk_ctxt 0 enb 0 ue 0 0) srb_flag false rb_id sdu_id 0 (zlen buf) buf).

Definition deliver_pdu_drb_ue (ue_id rb_id : Z) (buf : list Z) (sdu_id : Z) (L : pdcp_layer) : outcome pdcp_layer :=
  Ret (emit (rlc_request 0 ue_id false rb_id sdu_id buf) L).

Definition deliver_pdu_drb_gnb (ue_id rb_id : Z) (buf : list Z) (sdu_id : Z) (L : pdcp_layer) : outcome pdcp_layer :=
  secondary ← secondary_ue node ue_id;
  if NODE_IS_CU node then Ret (emit (GtpSendDirect ue_id rb_id buf) L)
  else Ret (emit (rlc_request 1 secondary false rb_id sdu_id buf) L).

Definition deliver_pdu_srb_rlc (ue_id srb_id : Z) (buf : list Z) (sdu_id : Z) (L : pdcp_layer) : pdcp_layer :=
  emit (rlc_request 1 ue_id true srb_id sdu_id buf) L.

(** the entity behind a bearer is changed *)
Definition with_entity (rb : rb_t) (entity : nr_pdcp_entity_t) : rb_t :=
  mk_rb (rb_addr rb) (entity <| events := [] |>).

Definition put_rb (L : pdcp_layer) (ue : nr_pdcp_ue_t) (srb_flag : bool) (rb_id : Z) (rb : option rb_t) : pdcp_layer :=
  L <| ue_list ::= (fun l => put_ue l (set_slot ue srb_flag (Z.to_nat (rb_id - 1)) rb)) |>.

Definition nr_pdcp_data_req_drb (L : pdcp_layer) (ctxt : protocol_ctxt_t) (srb_flag : bool) (rb_id muiP : Z)
    (sdu : list Z) : outcome (bool * pdcp_layer) :=
  if srb_flag then Exit
  else if negb (module_id ctxt =? 0) || negb (instance ctxt =? 0) || negb (eNB_index ctxt =? 0) then Exit
  else
    let '(L, ue) := nr_pdcp_manager_get_ue L (rntiMaybeUEid ctxt) in
    match nr_pdcp_get_rb ue rb_id false with
    | None => Ret (false, L)
    | Some rb =>
        '(pdu_size, entity, pdu) ← nr_pdcp_entity_process_sdu (nd_crypto node) (rb_entity rb) sdu muiP
                                     (nr_max_pdcp_pdu_size (zlen sdu));
        let L := put_rb L ue false rb_id (Some (with_entity rb entity)) in
        if pdu_size =? -1 then Ret (false, L)
        else
          L ← (if is_gnb entity then deliver_pdu_drb_gnb (rntiMaybeUEid ctxt) rb_id pdu muiP L
               else deliver_pdu_drb_ue (rntiMaybeUEid ctxt) rb_id pdu muiP L);
          Ret (true, L)
    end.

(** RLC_MUI_UNDEFINED *)
Definition RLC_MUI_UNDEFINED : Z := 0.

(** the calls SDAP makes while it works for UE [id] *)
Fixpoint run_sdap_calls (L : pdcp_layer) (ctxt : protocol_ctxt_t) (muiP : Z) (evs : list Sdap.sdap_event)
    : outcome pdcp_layer :=
  match evs with
  | [] => Ret L
  | Sdap.PdcpDataReq rb_id sdu :: evs =>
      '(_, L) ← nr_pdcp_data_req_drb L ctxt false rb_id muiP sdu; run_sdap_calls L ctxt muiP evs
  | Sdap.GtpSend ue session buf :: evs => run_sdap_calls (emit (GtpSendSdu ue session buf) L) ctxt muiP evs
  | Sdap.NasWrite buf :: evs => run_sdap_calls (emit (NasSocketWrite buf) L) ctxt muiP evs
  end.

Definition ue_ctxt (id : Z) : protocol_ctxt_t := mk_ctxt 0 0 0 id 0 0.

(** SDAP hands an SDU of the core network or of the UE to PDCP *)
Definition sdap_data_req (L : pdcp_layer) (ctxt : protocol_ctxt_t) (ue_id rb_id muiP : Z) (sdu : list Z)
    (qfi : Z) (rqi : bool) (pdusession_id : Z) : outcome (bool * pdcp_layer) :=
  let pdcp_accepts drb pdu :=
    match nr_pdcp_data_req_drb L ctxt false drb muiP pdu with Ret (b, _) => b | _ => false end in
  '(ret, l, evs) ← Sdap.sdap_data_req pdcp_accepts (sdap_entities L) ue_id
    (negb (enb_flag ctxt =? 0)) rb_id sdu qfi rqi pdusession_id;
  L ← run_sdap_calls (L <| sdap_entities := l |>) ctxt muiP evs;
  Ret (ret, L).

(** PDCP hands an SDU to SDAP *)
Definition sdap_data_ind (L : pdcp_layer) (rb_id : Z) (is_gnb has_sdap : bool) (pdusession_id ue_id : Z) (buf : list Z)
    : outcome pdcp_layer :=
  '(l, evs) ← Sdap.sdap_data_ind (sdap_entities L) rb_id is_gnb has_sdap pdusession_id ue_id buf;
  run_sdap_calls (L <| sdap_entities := l |>) (ue_ctxt ue_id) RLC_MUI_UNDEFINED evs.

(** [entity == ue->drb[i]]: the first slot with this address *)
Fixpoint find_rb (l : list (option rb_t)) (addr : Z) (i : Z) : option (Z * rb_t) :=
  match l with
  | [] => None
  | Some rb :: l => if rb_addr rb =? addr then Some (i, rb) else find_rb l addr (i + 1)
  | None :: l => find_rb l addr (i + 1)
  end.

Definition deliver_sdu_drb (L : pdcp_layer) (ue : nr_pdcp_ue_t) (rb : rb_t) (ev : pdcp_event) : outcome pdcp_layer :=
  let entity := rb_entity rb in
  if nos1_or_tun node then
    sdap_data_ind L (rb_id entity) false (has_sdap_rx entity) (pdusession_id entity) (ue_id ue) (ev_buf ev)
  else
    match find_rb (drb ue) (rb_addr rb) 0 with
    | None => Exit
    | Some (i, rb) =>
        sdap_data_ind L (i + 1) (is_gnb (rb_entity rb)) (has_sdap_rx (rb_entity rb)) (pdusession_id (rb_entity rb))
          (ue_id ue) (ev_buf ev)
    end.

Definition deliver_sdu_srb (L : pdcp_layer) (ue : nr_pdcp_ue_t) (rb : rb_t) (ev : pdcp_event) : outcome pdcp_layer :=
  match find_rb (srb ue) (rb_addr rb) 0 with
  | None => Exit
  | Some (i, _) =>
      if is_gnb (rb_entity rb) then
        secondary ← secondary_ue node (ue_id ue);
        Ret (emit (F1apUlRrcMessage (ue_id ue) secondary (i + 1) (ev_buf ev)) L)
      else Ret (emit (RrcDcchDataInd (ue_id ue) (i + 1) (ev_buf ev) (ev_msg_integrity ev)) L)
  end.

(** the SDUs an operation of bearer [rb_id] of [ue] handed up, in order *)
Fixpoint deliver_sdus (L : pdcp_layer) (ue : nr_pdcp_ue_t) (srb_flag : bool) (rb : rb_t) (evs : list pdcp_event)
    : outcome pdcp_layer :=
  match evs with
  | [] => Ret L
  | ev :: evs =>
      L ← (if srb_flag then deliver_sdu_srb L ue rb ev else deliver_sdu_drb L ue rb ev);
      deliver_sdus L ue srb_flag rb evs
  end.

(** an operation has turned the entity of a bearer into [entity] *)
Definition finish_rb (L : pdcp_layer) (ue : nr_pdcp_ue_t) (srb_flag : bool) (rb_id : Z) (rb : rb_t)
    (entity : nr_pdcp_entity_t) : outcome pdcp_layer :=
  let rb := with_entity rb entity in
  deliver_sdus (put_rb L ue srb_flag rb_id (Some rb)) (set_slot ue srb_flag (Z.to_nat (rb_id - 1)) (Some rb))
    srb_flag rb (events entity).

(** ** Data *)

Definition do_pdcp_data_ind (L : pdcp_layer) (ctxt : protocol_ctxt_t) (srb_flag : bool) (rb_id : Z) (pdu : list Z)
    : outcome pdcp_layer :=
  if negb (module_id ctxt =? 0) || negb (instance ctxt =? 0) || negb (eNB_index ctxt =? 0)
     || negb (brOption ctxt =? 0) then Exit
  else
    let '(L, ue) := nr_pdcp_manager_get_ue L (rntiMaybeUEid ctxt) in
    match nr_pdcp_get_rb ue rb_id srb_flag with
    | None => Ret L
    | Some rb =>
        entity ← nr_pdcp_entity_recv_pdu (nd_crypto node) (rb_entity rb) pdu;
        finish_rb L ue srb_flag rb_id rb entity
    end.

Definition nr_pdcp_data_req_srb (L : pdcp_layer) (ue_id rb_id muiP : Z) (sdu : list Z) : outcome (bool * pdcp_layer) :=
  let '(L, ue) := nr_pdcp_manager_get_ue L ue_id in
  match nr_pdcp_get_rb ue rb_id true with
  | None => Ret (false, L)
  | Some rb =>
      '(pdu_size, entity, pdu) ← nr_pdcp_entity_process_sdu (nd_crypto node) (rb_entity rb) sdu muiP
                                   (nr_max_pdcp_pdu_size (zlen sdu));
      let L := put_rb L ue true rb_id (Some (with_entity rb entity)) in
      if pdu_size =? -1 then Ret (false, L)
      else match type entity with
           | NR_PDCP_SRB => Ret (true, emit (SrbDeliverPdu ue_id rb_id pdu muiP) L)
           | _ => Exit                     (* rb->deliver_pdu is set *)
           end
  end.

(** ** Life cycle of the bearers *)

Definition alloc_rb (L : pdcp_layer) (entity : nr_pdcp_entity_t) : pdcp_layer * rb_t :=
  (L <| next_entity ::= Z.add 1 |>, mk_rb (next_entity L) entity).

Definition put_ue_of (L : pdcp_layer) (ue : nr_pdcp_ue_t) : pdcp_layer := L <| ue_list ::= (fun l => put_ue l ue) |>.

Definition add_srb (L : pdcp_layer) (is_gnb : bool) (UEid : Z) (s : NR_SRB_ToAddMod)
    (security_parameters : nr_pdcp_entity_security_keys_and_algos_t) : outcome pdcp_layer :=
  let srb_id := srb_Identity s in
  t_Reordering ← match srb_pdcp_Config s ≫= pc_t_Reordering with
                 | Some v => decode_t_reordering v
                 | None => Ret (-1)
                 end;
  let '(L, ue) := nr_pdcp_manager_get_ue L UEid in
  match nr_pdcp_get_rb ue srb_id true with
  | Some _ => Ret L
  | None =>
      entity ← new_nr_pdcp_entity NR_PDCP_SRB is_gnb srb_id 0 false false SHORT_SN_SIZE t_Reordering (-1)
                 security_parameters;
      let '(L, rb) := alloc_rb L entity in
      ue ← nr_pdcp_ue_add_srb_pdcp_entity ue srb_id rb;
      Ret (put_ue_of L ue)
  end.

(** what [add_drb] reads from the association with the core network: session,
    presence of the SDAP headers, default bearer, flows *)
Definition read_cnAssociation (is_gnb : bool) (a : option NR_DRB_ToAddMod__cnAssociation)
    : outcome (Z * bool * bool * bool * list Z * nat) :=
  match a with
  | None | Some cnAssociation_PR_NOTHING | Some (cnAssociation_PR_sdap_Config None) => Exit
  | Some (cnAssociation_PR_eps_BearerIdentity id) => Ret (id, false, false, false, [], 0%nat)
  | Some (cnAssociation_PR_sdap_Config (Some c)) =>
      '(qfis, n) ← Sdap.first_object (Sdap.mappedQoS_FlowsToAdd (sdap_cfg c));
      Ret (pdu_Session c, Sdap.is_sdap_rx is_gnb (sdap_cfg c), Sdap.is_sdap_tx is_gnb (sdap_cfg c), defaultDRB c, qfis, n)
  end.

Definition actual_security_parameters (c : NR_PDCP_Config_t) (d : NR_PDCP_Config__drb)
    (p : nr_pdcp_entity_security_keys_and_algos_t) : nr_pdcp_entity_security_keys_and_algos_t :=
  p <| ciphering_algorithm := if cipheringDisabled c then 0 else ciphering_algorithm p |>
    <| integrity_algorithm := if integrityProtection d then integrity_algorithm p else 0 |>.

Definition add_drb (L : pdcp_layer) (is_gnb : bool) (UEid : Z) (s : NR_DRB_ToAddMod)
    (security_parameters : nr_pdcp_entity_security_keys_and_algos_t) : outcome pdcp_layer :=
  let drb_id := drb_Identity s in
  c ← ptr (drb_pdcp_Config s);
  d ← ptr (pc_drb c);
  sn_size_ul ← (ptr (pdcp_SN_SizeUL d) ≫= decode_sn_size_ul);
  sn_size_dl ← (ptr (pdcp_SN_SizeDL d) ≫= decode_sn_size_dl);
  discard ← (ptr (discardTimer d) ≫= decode_discard_timer);
  t_reordering ← match pc_t_Reordering c with Some v => decode_t_reordering v | None => Ret (-1) end;
  '(session, has_rx, has_tx, is_default, qfis, n) ← read_cnAssociation is_gnb (cnAssociation s);
  if negb (sn_size_ul =? sn_size_dl) then Exit
  else
    let '(L, ue) := nr_pdcp_manager_get_ue L UEid in
    match nr_pdcp_get_rb ue drb_id false with
    | Some _ => Ret L
    | None =>
        entity ← new_nr_pdcp_entity NR_PDCP_DRB_AM is_gnb drb_id session has_rx has_tx sn_size_dl t_reordering discard
                   (actual_security_parameters c d security_parameters);
        let '(L, rb) := alloc_rb L entity in
        ue ← nr_pdcp_ue_add_drb_pdcp_entity ue drb_id rb;
        let L := put_ue_of L ue in
        '(l, evs) ← Sdap.new_nr_sdap_entity (sdap_entities L) is_gnb has_rx has_tx UEid session is_default drb_id qfis n;
        run_sdap_calls (L <| sdap_entities := l |>) (ue_ctxt UEid) RLC_MUI_UNDEFINED evs
    end.

Fixpoint nr_pdcp_add_srbs (L : pdcp_layer) (is_gnb : bool) (UEid : Z) (l : list NR_SRB_ToAddMod)
    (p : nr_pdcp_entity_security_keys_and_algos_t) : outcome pdcp_layer :=
  match l with
  | [] => Ret L
  | s :: l => L ← add_srb L is_gnb UEid s p; nr_pdcp_add_srbs L is_gnb UEid l p
  end.

Fixpoint nr_pdcp_add_drbs (L : pdcp_layer) (is_gnb : bool) (UEid : Z) (l : list NR_DRB_ToAddMod)
    (p : nr_pdcp_entity_security_keys_and_algos_t) : outcome pdcp_layer :=
  match l with
  | [] => Ret L
  | s :: l => L ← add_drb L is_gnb UEid s p; nr_pdcp_add_drbs L is_gnb UEid l p
  end.

Definition nr_pdcp_remove_UE (L : pdcp_layer) (ue_id : Z) : pdcp_layer := nr_pdcp_manager_remove_ue L ue_id.

(** [ue->srb[srb_id - 1]], without a test of [srb_id] *)
Definition nr_pdcp_release_srb (L : pdcp_layer) (ue_id srb_id : Z) : outcome pdcp_layer :=
  let '(L, ue) := nr_pdcp_manager_get_ue L ue_id in
  if (srb_id <? 1) then Undef
  else match srb ue !! Z.to_nat (srb_id - 1) with
       | None => Undef
       | Some None => Ret L
       | Some (Some rb) => Ret (put_rb L ue true srb_id None <| deleted ::= (fun d => d ++ [rb_addr rb]) |>)
       end.

Definition nr_pdcp_release_drb (L : pdcp_layer) (ue_id drb_id : Z) : outcome pdcp_layer :=
  let '(L, ue) := nr_pdcp_manager_get_ue L ue_id in
  if (drb_id <? 1) then Undef
  else match drb ue !! Z.to_nat (drb_id - 1) with
       | None => Undef
       | Some None => Ret L
       | Some (Some rb) =>
           let L := L <| sdap_entities ::= (fun l => Sdap.nr_sdap_release_drb l ue_id drb_id (pdusession_id (rb_entity rb))) |> in
           L ← finish_rb L ue false drb_id rb (nr_pdcp_entity_release (rb_entity rb));
           let '(L, ue) := nr_pdcp_manager_get_ue L ue_id in
           Ret (put_rb L ue false drb_id None <| deleted ::= (fun d => d ++ [rb_addr rb]) |>)
       end.

(** ** Control of a bearer *)

Definition nr_pdcp_config_set_security (L : pdcp_layer) (ue_id rb_id : Z) (is_srb : bool)
    (parameters : nr_pdcp_entity_security_keys_and_algos_t) : outcome pdcp_layer :=
  let '(L, ue) := nr_pdcp_manager_get_ue L ue_id in
  match nr_pdcp_get_rb ue rb_id is_srb with
  | None => Ret L
  | Some rb =>
      entity ← nr_pdcp_entity_set_security (rb_entity rb) parameters;
      finish_rb L ue is_srb rb_id rb entity
  end.

Definition nr_pdcp_check_integrity_srb (L : pdcp_layer) (ue_id srb_id : Z) (msg : list Z)
    (msg_integrity : nr_pdcp_integrity_data_t) : outcome (bool * pdcp_layer) :=
  let '(L, ue) := nr_pdcp_manager_get_ue L ue_id in
  match nr_pdcp_get_rb ue srb_id true with
  | None => Ret (false, L)
  | Some rb =>
      ret ← nr_pdcp_entity_check_integrity (nd_crypto node) (rb_entity rb) msg msg_integrity;
      Ret (ret, L)
  end.

(** the callbacks run before the bearer counts as suspended *)
Definition suspend_rb (L : pdcp_layer) (ue : nr_pdcp_ue_t) (srb_flag : bool) (rb_id : Z) (rb : rb_t) : outcome pdcp_layer :=
  L ← finish_rb L ue srb_flag rb_id rb (suspend_flush (rb_entity rb));
  let '(L, ue) := nr_pdcp_manager_get_ue L (ue_id ue) in
  match nr_pdcp_get_rb ue rb_id srb_flag with
  | None => Ret L
  | Some rb => Ret (put_rb L ue srb_flag rb_id (Some (with_entity rb (suspend_reset (rb_entity rb)))))
  end.

Definition nr_pdcp_suspend_srb (L : pdcp_layer) (ue_id srb_id : Z) : outcome pdcp_layer :=
  let '(L, ue) := nr_pdcp_manager_get_ue L ue_id in
  match nr_pdcp_get_rb ue srb_id true with
  | None => Ret L
  | Some rb => suspend_rb L ue true srb_id rb
  end.

Definition nr_pdcp_suspend_drb (L : pdcp_layer) (ue_id drb_id : Z) : outcome pdcp_layer :=
  let '(L, ue) := nr_pdcp_manager_get_ue L ue_id in
  match nr_pdcp_get_rb ue drb_id false with
  | None => Ret L
  | Some rb => suspend_rb L ue false drb_id rb
  end.

Definition nr_pdcp_reconfigure_srb (L : pdcp_layer) (ue_id srb_id t_Reordering : Z) : outcome pdcp_layer :=
  let '(L, ue) := nr_pdcp_manager_get_ue L ue_id in
  match nr_pdcp_get_rb ue srb_id true with
  | None => Ret L
  | Some rb =>
      v ← decode_t_reordering t_Reordering;
      finish_rb L ue true srb_id rb (rb_entity rb <| t_reordering := v |>)
  end.

(** the new parameters of the entity of a DRB *)
Definition reconfigure_entity (drb : nr_pdcp_entity_t) (pdcp_config : option NR_PDCP_Config_t)
    : outcome nr_pdcp_entity_t :=
  match pdcp_config with
  | None => Ret drb
  | Some c =>
      v ← match pc_t_Reordering c with Some v => decode_t_reordering v | None => Ret (-1) end;
      let drb := drb <| t_reordering := v |> in
      match pc_drb c with
      | None => Ret drb
      | Some d =>
          drb ← match discardTimer d with
                | Some v => v ← decode_discard_timer v; Ret (drb <| discard_timer := v |>)
                | None => Ret drb
                end;
          drb ← match pdcp_SN_SizeUL d with
                | Some v => v ← decode_sn_size_ul v; Ret (drb <| sn_size := v |>)
                | None => Ret drb
                end;
          match pdcp_SN_SizeDL d with
          | Some v =>
              size ← decode_sn_size_dl v;
              if (match pdcp_SN_SizeUL d with Some _ => true | None => false end) && negb (size =? sn_size drb) then Exit
              else Ret (drb <| sn_size := size |>)
          | None => Ret drb
          end
      end
  end.

Definition nr_pdcp_reconfigure_drb (L : pdcp_layer) (ue_id drb_id : Z) (pdcp_config : option NR_PDCP_Config_t)
    : outcome pdcp_layer :=
  let '(L, ue) := nr_pdcp_manager_get_ue L ue_id in
  match nr_pdcp_get_rb ue drb_id false with
  | None => Ret L
  | Some rb => entity ← reconfigure_entity (rb_entity rb) pdcp_config; finish_rb L ue false drb_id rb entity
  end.

Definition nr_pdcp_reestablishment (L : pdcp_layer) (ue_id rb_id : Z) (srb_flag : bool)
    (security_parameters : nr_pdcp_entity_security_keys_and_algos_t) : outcome pdcp_layer :=
  let '(L, ue) := nr_pdcp_manager_get_ue L ue_id in
  match nr_pdcp_get_rb ue rb_id srb_flag with
  | None => Ret L
  | Some rb =>
      entity ← reestablish_entity (rb_entity rb) security_parameters;
      finish_rb L ue srb_flag rb_id rb entity
  end.

(** ** Time *)

Definition set_time_rb (L : pdcp_layer) (ue_id : Z) (srb_flag : bool) (rb_id now : Z) : outcome pdcp_layer :=
  match find_ue (ue_list L) ue_id with
  | None => Ret L
  | Some ue =>
      match nr_pdcp_get_rb ue rb_id srb_flag with
      | None => Ret L
      | Some rb => finish_rb L ue srb_flag rb_id rb (nr_pdcp_entity_set_time (rb_entity rb) now)
      end
  end.

Fixpoint set_time_rbs (L : pdcp_layer) (rbs : list (Z * bool * Z)) (now : Z) : outcome pdcp_layer :=
  match rbs with
  | [] => Ret L
  | (ue_id, srb_flag, rb_id) :: rbs => L ← set_time_rb L ue_id srb_flag rb_id now; set_time_rbs L rbs now
  end.

(** one round of the timer thread: SRB 1 and 2, DRB 1 to 5 of every UE *)
Definition nr_pdcp_timer_thread (L : pdcp_layer) (curtime : Z) : outcome pdcp_layer :=
  set_time_rbs L (flat_map (fun u =>
    map (fun j => (ue_id u, true, j)) [1; 2] ++ map (fun j => (ue_id u, false, j)) [1; 2; 3; 4; 5]) (ue_list L)) curtime.

(** ** Queries *)

Definition nr_pdcp_get_statistics (L : pdcp_layer) (ue_id : Z) (srb_flag : bool) (rb_id : Z)
    : option nr_pdcp_statistics_t * pdcp_layer :=
  let '(L, ue) := nr_pdcp_manager_get_ue L ue_id in
  (nr_pdcp_entity_get_stats ∘ rb_entity <$> nr_pdcp_get_rb ue rb_id srb_flag, L).

Definition nr_pdcp_get_num_ues (L : pdcp_layer) (len : Z) : list Z * Z :=
  (take (Z.to_nat len) (map ue_id (ue_list L)), zlen (ue_list L)).

End layer.

(** [nr_pdcp_tick]: the time in subframes, and the last frame and subframe seen *)
Record pdcp_clock := mk_clock { nr_pdcp_current_time : Z; last_frame : Z; last_subframe : Z }.

(** the time the timer thread is woken with, if it is *)
Definition nr_pdcp_tick (c : pdcp_clock) (frame subframe : Z) : option Z * pdcp_clock :=
  if negb (frame =? last_frame c) || negb (subframe =? last_subframe c) then
    let now := u64 (nr_pdcp_current_time c + 1) in (Some now, mk_clock now frame subframe)
  else (None, c).
