(* ===== verification/PdcpUeSpec.v ===== *)
(** The table of UEs and bearers of the PDCP layer: every bearer sits in the slot
    of its identity, every entity that was created is in one slot or has been
    deleted once, and the calls for one UE leave the others alone. *)

From stdpp Require Import base tactics list numbers.
From Stdlib Require Import ZArith Lia.
From S2P Require Import Prelude DataQueue Sdap PdcpSdu PdcpEntity PdcpUe.

(** ** What an operation never changes of an entity *)

Definition bearer (e : nr_pdcp_entity_t) :=
  (type e, rb_id e, pdusession_id e, has_sdap_rx e, has_sdap_tx e, is_gnb e).

Lemma deliver_consecutive_bearer l : forall e c, bearer (deliver_consecutive e l c).2 = bearer e.
Proof. induction l as [|s l IH]; intros e c; simpl; [done|]. destruct (_ =? _); [|done]. by rewrite IH. Qed.

Lemma deliver_below_bearer l : forall e, bearer (deliver_below e l) = bearer e.
Proof. induction l as [|s l IH]; intros e; simpl; [done|]. destruct (_ <? _); [|done]. by rewrite IH. Qed.

Lemma deliver_all_loop_bearer l : forall e, bearer (deliver_all_loop e l) = bearer e.
Proof. induction l as [|s l IH]; intros e; simpl; [done|]. by rewrite IH. Qed.

Lemma free_rx_loop_bearer l : forall e, bearer (free_rx_loop e l) = bearer e.
Proof. induction l as [|s l IH]; intros e; simpl; [done|]. by rewrite IH. Qed.

Lemma update_t_reordering_bearer e : bearer (update_t_reordering e) = bearer e.
Proof. unfold update_t_reordering. repeat case_match; done. Qed.

Lemma store_and_deliver_bearer e sdu size h : bearer (store_and_deliver e sdu size h) = bearer e.
Proof.
  unfold store_and_deliver. rewrite update_t_reordering_bearer. set (e1 := if _ <=? _ then _ else _).
  assert (H1 : bearer e1 = bearer e) by (unfold e1; by case_match). clearbody e1. simpl.
  case_match; [|done]. pose proof (deliver_consecutive_bearer (rx_list e1) e1 (rx_deliv e1)) as H2.
  destruct (deliver_consecutive _ _ _) as [c e2]. simpl in *. by rewrite <- H1, <- H2.
Qed.

Lemma recv_pdu_bearer C e buf e' : nr_pdcp_entity_recv_pdu C e buf = Ret e' -> bearer e' = bearer e.
Proof.
  unfold nr_pdcp_entity_recv_pdu. intros H. repeat (case_match; [by simplify_eq|]).
  inv_bind H. inv_bind H. case_match. case_match; [by simplify_eq|]. do 3 inv_bind H.
  case_match; [by simplify_eq|]. case_match; [by simplify_eq|]. inv_bind H. simplify_eq.
  by rewrite store_and_deliver_bearer.
Qed.

Lemma process_sdu_bearer C e buf id m r e' pdu :
  nr_pdcp_entity_process_sdu C e buf id m = Ret (r, e', pdu) -> bearer e' = bearer e /\ events e' = events e.
Proof.
  unfold nr_pdcp_entity_process_sdu. intros H. case_match; [done|]. case_match; [by simplify_eq|].
  inv_bind H. inv_bind H. by simplify_eq.
Qed.

Lemma set_security_bearer e p e' : nr_pdcp_entity_set_security e p = Ret e' -> bearer e' = bearer e.
Proof.
  unfold nr_pdcp_entity_set_security. intros H. inv_bind H. revert Hv H. unfold set_integrity, set_ciphering.
  repeat case_match; intros; by simplify_eq.
Qed.

Lemma set_time_bearer e now : bearer (nr_pdcp_entity_set_time e now) = bearer e.
Proof.
  unfold nr_pdcp_entity_set_time, check_t_reordering. repeat (case_match; [done|]).
  match goal with |- context [deliver_below ?e1 ?l] =>
    pose proof (deliver_below_bearer l e1) as H1; set (e2 := deliver_below e1 l) in * end. clearbody e2.
  pose proof (deliver_consecutive_bearer (rx_list e2) e2 (rx_reord e2)) as H2.
  destruct (deliver_consecutive _ _ _) as [c e3]. simpl in *. case_match; exact (eq_trans H2 H1).
Qed.

Lemma suspend_flush_bearer e : bearer (suspend_flush e) = bearer e.
Proof. unfold suspend_flush, deliver_all_sdus. case_match; [|done]. by rewrite deliver_all_loop_bearer. Qed.

Lemma reestablish_bearer e p e' : reestablish_entity e p = Ret e' -> bearer e' = bearer e.
Proof.
  unfold reestablish_entity, nr_pdcp_entity_reestablish_drb_am, nr_pdcp_entity_reestablish_drb_um,
    nr_pdcp_entity_reestablish_srb, free_rx_list, deliver_all_sdus.
  intros H. destruct (type e); inv_bind H; apply set_security_bearer in Hv; injection H as <-;
    (transitivity (bearer v); [done|]); rewrite Hv.
  - done.
  - case_match; [|done]. exact (deliver_all_loop_bearer _ _).
  - exact (free_rx_loop_bearer _ _).
Qed.

Lemma reconfigure_bearer e c e' : reconfigure_entity e c = Ret e' -> bearer e' = bearer e.
Proof.
  unfold reconfigure_entity. intros H. destruct c as [c|]; [|by simplify_eq]. inv_bind H.
  destruct (pc_drb c) as [d|]; [|by simplify_eq]. inv_bind H. inv_bind H.
  assert (bearer v0 = bearer e) by (destruct (discardTimer d); [inv_bind Hv0|]; by simplify_eq).
  assert (bearer v1 = bearer v0) by (destruct (pdcp_SN_SizeUL d); [inv_bind Hv1|]; by simplify_eq).
  assert (E : bearer v1 = bearer e) by congruence.
  destruct (pdcp_SN_SizeDL d); [|by injection H as <-]. inv_bind H. case_match; [done|]. by injection H as <-.
Qed.

Lemma new_entity_bearer ty g rb se rx tx sn t d p e :
  new_nr_pdcp_entity ty g rb se rx tx sn t d p = Ret e -> bearer e = (ty, rb, se, rx, tx, g).
Proof. intros H. apply set_security_bearer in H. by rewrite H. Qed.

(** ** Invariant of the table *)

Definition slots (f : bool) (u : nr_pdcp_ue_t) : list (option rb_t) := if f then srb u else drb u.

(** what sits in slot [i] of the SRBs ([f]) or the DRBs *)
Record slot_ok (f : bool) (i : nat) (rb : rb_t) : Prop := {
  sk_limit : (i < if f then 2 else 5)%nat;
  sk_id : rb_id (rb_entity rb) = Z.of_nat i + 1;
  sk_type : type (rb_entity rb) = if f then NR_PDCP_SRB else NR_PDCP_DRB_AM;
  sk_events : events (rb_entity rb) = []
}.

Record ue_ok (u : nr_pdcp_ue_t) : Prop := {
  uo_srb : length (srb u) = 3%nat;
  uo_drb : length (drb u) = 32%nat;
  uo_slots : forall f i rb, slots f u !! i = Some (Some rb) -> slot_ok f i rb
}.

(** addresses of the entities of a UE, of all UEs *)
Definition live_ue (u : nr_pdcp_ue_t) : list Z := slot_addrs (srb u) ++ slot_addrs (drb u).
Definition live (l : list nr_pdcp_ue_t) : list Z := flat_map live_ue l.

Record layer_ok (L : pdcp_layer) : Prop := {
  lo_ids : NoDup (map ue_id (ue_list L));
  lo_ues : Forall ue_ok (ue_list L);
  lo_next : 0 <= next_entity L;
  lo_alloc : live (ue_list L) ++ deleted L ≡ₚ seqZ 0 (next_entity L)
}.

Lemma new_ue_ok id : ue_ok (new_ue id).
Proof. constructor; [done|done|]. intros [] i rb H; apply lookup_replicate_1 in H as [? _]; done. Qed.

Lemma find_split l id u : find_ue l id = Some u ->
  ue_id u = id /\ exists l1 l2, l = l1 ++ u :: l2 /\ remove_first l id = l1 ++ l2 /\
  (forall v, ue_id v = id -> put_ue l v = l1 ++ v :: l2) /\ Forall (fun v => ue_id v <> id) l1.
Proof.
  induction l as [|w l IH]; intros H; simpl in H; [done|]. destruct (Z.eqb_spec (ue_id w) id) as [E|E].
  - simplify_eq. split; [done|]. exists [], l. simpl. rewrite Z.eqb_refl. split_and!; try done.
    intros v Hv. by rewrite Hv, Z.eqb_refl.
  - destruct (IH H) as (Hid & l1 & l2 & -> & Hr & Hp & Hf). split; [done|]. exists (w :: l1), l2.
    simpl. rewrite (proj2 (Z.eqb_neq _ _) E), Hr. split_and!; try done; [|by constructor].
    intros v Hv. by rewrite Hv, (proj2 (Z.eqb_neq _ _) E), Hp.
Qed.

Lemma find_app_ne l1 l2 id : Forall (fun v => ue_id v <> id) l1 -> find_ue (l1 ++ l2) id = find_ue l2 id.
Proof. induction 1 as [|v l1 Hv _ IH]; simpl; [done|]. by rewrite (proj2 (Z.eqb_neq _ _) Hv). Qed.

Lemma find_middle_ne l1 u l2 id : ue_id u <> id -> find_ue (l1 ++ u :: l2) id = find_ue (l1 ++ l2) id.
Proof.
  intros H. induction l1 as [|v l1 IH]; simpl; [by rewrite (proj2 (Z.eqb_neq _ _) H)|]. by rewrite IH.
Qed.

Lemma find_none l id : find_ue l id = None -> id ∉ map ue_id l.
Proof.
  induction l as [|v l IH]; simpl; [intros _; apply not_elem_of_nil|]. destruct (Z.eqb_spec (ue_id v) id); [done|].
  intros H. rewrite not_elem_of_cons. auto.
Qed.

Lemma live_middle l1 u l2 : live (l1 ++ u :: l2) ≡ₚ live_ue u ++ live (l1 ++ l2).
Proof. unfold live. rewrite !flat_map_app. simpl. solve_Permutation. Qed.

(** ** UEs that only one call changes *)

(** the UEs other than [id] are as they were *)
Definition others_kept (id : Z) (L L' : pdcp_layer) : Prop :=
  forall id', id' <> id -> find_ue (ue_list L') id' = find_ue (ue_list L) id'.

(** a UE of the table is replaced; [gone] and [fresh] are the addresses it loses
    and gains *)
Lemma put_ue_ok L L' u u' gone fresh :
  layer_ok L -> find_ue (ue_list L) (ue_id u) = Some u -> ue_id u' = ue_id u -> ue_ok u' ->
  ue_list L' = put_ue (ue_list L) u' ->
  deleted L' = deleted L ++ gone -> 0 <= next_entity L' ->
  seqZ 0 (next_entity L') ≡ₚ fresh ++ seqZ 0 (next_entity L) -> live_ue u' ++ gone ≡ₚ fresh ++ live_ue u ->
  layer_ok L' /\ others_kept (ue_id u) L L' /\ find_ue (ue_list L') (ue_id u) = Some u'.
Proof.
  intros [H1 H2 H3 H4] Hf Hid Hu Hl Hd Hn Hs Hlive. destruct (find_split _ _ _ Hf) as (_ & l1 & l2 & E & _ & Hp & Hne).
  rewrite (Hp u' Hid) in Hl. rewrite E in H1, H2, H4. unfold others_kept. rewrite Hl, E. split_and!.
  - constructor; rewrite ?Hl; [| |done|].
    + rewrite map_app in *. simpl in *. by rewrite Hid.
    + rewrite Forall_app in *. destruct H2 as [? H2]. inversion H2; subst. split; [done|]. by constructor.
    + rewrite Hs, <- H4, Hd, !live_middle.
      transitivity ((live_ue u' ++ gone) ++ live (l1 ++ l2) ++ deleted L); [solve_Permutation|].
      rewrite Hlive. solve_Permutation.
  - intros id' Hid'. rewrite !find_middle_ne by congruence. done.
  - rewrite find_app_ne by done. simpl. by rewrite Hid, Z.eqb_refl.
Qed.

Lemma slots_set f i s u : slots f (set_slot u f i s) = <[i := s]> (slots f u) /\
  slots (negb f) (set_slot u f i s) = slots (negb f) u /\ ue_id (set_slot u f i s) = ue_id u.
Proof. by destruct f. Qed.

Lemma set_slot_ok f i s u : ue_ok u -> (forall rb, s = Some rb -> slot_ok f i rb) -> ue_ok (set_slot u f i s).
Proof.
  intros [H1 H2 H3] Hs. destruct (slots_set f i s u) as (E1 & E2 & _). constructor.
  - destruct f; simpl; [by rewrite length_insert|done].
  - destruct f; simpl; [done|by rewrite length_insert].
  - intros g j rb Hj. destruct (decide (g = f)) as [->|Hne].
    + rewrite E1 in Hj. apply list_lookup_insert_Some in Hj as [(<- & -> & _)|(? & Hj)]; eauto.
    + replace g with (negb f) in * by (by destruct f, g). rewrite E2 in Hj. eauto.
Qed.

Lemma live_set f i s s' u : slots f u !! i = Some s ->
  option_list (rb_addr <$> s) ++ live_ue (set_slot u f i s') ≡ₚ option_list (rb_addr <$> s') ++ live_ue u.
Proof.
  intros H. pose proof (omap_insert (fun s : option rb_t => rb_addr <$> s) _ i s s' H) as Hp.
  unfold live_ue, slot_addrs in *. destruct f; simpl in *.
  - rewrite !app_assoc. by rewrite Hp.
  - rewrite (Permutation_app_comm (omap _ (srb u))), app_assoc, Hp. solve_Permutation.
Qed.

Lemma get_ue_ok L id L' u : layer_ok L -> nr_pdcp_manager_get_ue L id = (L', u) ->
  layer_ok L' /\ others_kept id L L' /\ find_ue (ue_list L') id = Some u /\ ue_ok u /\ ue_id u = id /\
  (forall v, find_ue (ue_list L) id = Some v -> L' = L /\ u = v).
Proof.
  intros H Hg. unfold nr_pdcp_manager_get_ue in Hg. destruct (find_ue (ue_list L) id) as [v|] eqn:E; simplify_eq.
  - destruct (find_split _ _ _ E) as (Hid & l1 & l2 & El & _). pose proof (lo_ues _ H) as Hu. rewrite El in Hu.
    apply Forall_app in Hu as [_ Hu]. inversion Hu; subst. split_and!; try done. intros v ?. by simplify_eq.
  - pose proof (find_none _ _ E) as Hn. destruct H as [H1 H2 H3 H4]. split_and!; try done; try apply new_ue_ok.
    + constructor; simpl; try done.
      * rewrite map_app. apply list.NoDup_app. split_and!; [done| |simpl; apply NoDup_singleton].
        intros x Hx. simpl. rewrite list_elem_of_singleton. intros ->. done.
      * apply Forall_app. split; [done|]. constructor; [apply new_ue_ok|constructor].
      * rewrite <- H4. unfold live. rewrite flat_map_app. simpl. by rewrite app_nil_r.
    + intros id' Hne. simpl. clear -Hne. induction (ue_list L) as [|v l IH]; simpl; [|by rewrite IH].
      by rewrite (proj2 (Z.eqb_neq _ _)) by congruence.
    + simpl. clear -E. induction (ue_list L) as [|v l IH]; simpl in *; [by rewrite Z.eqb_refl|].
      destruct (_ =? _); [done|]. by apply IH.
Qed.

Lemma get_rb_slot u r f rb : nr_pdcp_get_rb u r f = Some rb ->
  slots f u !! Z.to_nat (r - 1) = Some (Some rb) /\ 1 <= r.
Proof.
  unfold nr_pdcp_get_rb, slots.
  destruct f; (destruct (_ || _) eqn:E; [done|]); bool_prop; intros Hx; (split; [|lia]);
    match type of Hx with mjoin ?o = _ => destruct o as [[rb1|]|]; simpl in Hx; congruence end.
Qed.

(** ** Calls that neither create nor delete entities *)

Definition rb_key (rb : rb_t) := (rb_addr rb, bearer (rb_entity rb)).

Definition same_shape (u u' : nr_pdcp_ue_t) : Prop :=
  forall f i, (fmap rb_key <$> slots f u' !! i) = (fmap rb_key <$> slots f u !! i).

Record kept (id : Z) (L L' : pdcp_layer) : Prop := {
  ke_ok : layer_ok L';
  ke_others : others_kept id L L';
  ke_shape : forall u, find_ue (ue_list L) id = Some u ->
    exists u', find_ue (ue_list L') id = Some u' /\ same_shape u u'
}.

Lemma kept_trans id L1 L2 L3 : kept id L1 L2 -> kept id L2 L3 -> kept id L1 L3.
Proof.
  intros [_ Ho Hs] [Hok Ho' Hs']. constructor; [done| |].
  - intros id' Hne. by rewrite Ho', Ho.
  - intros u Hu. destruct (Hs u Hu) as (u1 & Hu1 & E1), (Hs' u1 Hu1) as (u2 & Hu2 & E2).
    exists u2. split; [done|]. intros f i. by rewrite E2, E1.
Qed.

(** only SDAP and the calls to other layers change *)
Lemma kept_same id L L' : layer_ok L -> ue_list L' = ue_list L -> next_entity L' = next_entity L ->
  deleted L' = deleted L -> kept id L L'.
Proof.
  intros [H1 H2 H3 H4] E1 E2 E3. constructor; [constructor; by rewrite ?E1, ?E2, ?E3|intros id' _; by rewrite E1|].
  intros u Hu. exists u. by rewrite E1.
Qed.

Lemma kept_refl id L : layer_ok L -> kept id L L.
Proof. intros H. by apply kept_same. Qed.

Lemma slot_ok_with f i rb e : slot_ok f i rb -> bearer e = bearer (rb_entity rb) -> slot_ok f i (with_entity rb e).
Proof. intros [H1 H2 H3 H4] Hb. injection Hb as E1 E2 _ _ _ _. constructor; simpl; congruence. Qed.

Lemma put_rb_kept L u f r rb e :
  layer_ok L -> find_ue (ue_list L) (ue_id u) = Some u -> slots f u !! Z.to_nat (r - 1) = Some (Some rb) ->
  bearer e = bearer (rb_entity rb) ->
  kept (ue_id u) L (put_rb L u f r (Some (with_entity rb e))) /\
  find_ue (ue_list (put_rb L u f r (Some (with_entity rb e)))) (ue_id u)
  = Some (set_slot u f (Z.to_nat (r - 1)) (Some (with_entity rb e))).
Proof.
  intros H Hf Hs Hb. set (i := Z.to_nat (r - 1)) in *. set (u' := set_slot u f i (Some (with_entity rb e))).
  assert (Hu : ue_ok u) by (by destruct (get_ue_ok L (ue_id u) L u H) as (_ & _ & _ & ? & _);
    [unfold nr_pdcp_manager_get_ue; by rewrite Hf|]).
  destruct (slots_set f i (Some (with_entity rb e)) u) as (E1 & E2 & Hid).
  assert (Hu' : ue_ok u').
  { apply set_slot_ok; [done|]. intros rb' [= <-]. apply slot_ok_with; [|done]. by apply (uo_slots u). }
  destruct (put_ue_ok L (put_rb L u f r (Some (with_entity rb e))) u u' [] []) as (Hok & Ho & Hfind); try done.
  - simpl. by rewrite app_nil_r.
  - apply (lo_next _ H).
  - pose proof (live_set f i _ (Some (with_entity rb e)) u Hs) as Hp. simpl in Hp.
    apply Permutation_cons_inv in Hp. by rewrite app_nil_r.
  - split; [|done]. constructor; [done|done|]. intros v Hv. rewrite Hf in Hv. injection Hv as <-.
    exists u'. split; [done|]. intros g j. destruct (decide (g = f)) as [->|Hne].
    + unfold u'. rewrite E1. destruct (decide (j = i)) as [->|Hj]; [|by rewrite list_lookup_insert_ne].
      rewrite list_lookup_insert_eq by (by eapply lookup_lt_Some). rewrite Hs. simpl. unfold rb_key. simpl.
      change (bearer (e <| events := [] |>)) with (bearer e). by rewrite Hb.
    + replace g with (negb f) by (by destruct f, g). unfold u'. by rewrite E2.
Qed.

Section calls.
Context (node : node_t).

Lemma data_req_drb_kept L ctxt f r m sdu b L' :
  layer_ok L -> nr_pdcp_data_req_drb node L ctxt f r m sdu = Ret (b, L') -> kept (rntiMaybeUEid ctxt) L L'.
Proof.
  intros H Hr. unfold nr_pdcp_data_req_drb in Hr. destruct f; [done|]. case_match; [done|].
  destruct (nr_pdcp_manager_get_ue L (rntiMaybeUEid ctxt)) as [L1 u] eqn:Hg.
  destruct (get_ue_ok _ _ _ _ H Hg) as (H1 & Ho & Hf & Hu & Hid & Hsame).
  assert (K1 : kept (rntiMaybeUEid ctxt) L L1).
  { constructor; [done|done|]. intros v Hv. destruct (Hsame v Hv) as [-> ->]. exists v. done. }
  destruct (nr_pdcp_get_rb u r false) as [rb|] eqn:Hrb; [|by simplify_eq].
  destruct (get_rb_slot _ _ _ _ Hrb) as [Hs _]. inv_bind Hr. destruct v as [[size e] pdu].
  destruct (process_sdu_bearer _ _ _ _ _ _ _ _ Hv) as [Hb _]. rewrite <- Hid in Hf.
  destruct (put_rb_kept L1 u false r rb e H1 Hf Hs Hb) as [K2 _]. rewrite Hid in K2.
  pose proof (kept_trans _ _ _ _ K1 K2) as K. case_match; [by simplify_eq|].
  inv_bind Hr. simplify_eq. eapply kept_trans; [exact K|].
  assert (E : exists c, L' = emit c (put_rb L1 u false r (Some (with_entity rb e)))).
  { destruct (is_gnb e); [|injection Hv0 as <-; by eexists]. unfold deliver_pdu_drb_gnb in Hv0. inv_bind Hv0.
    case_match; injection Hv0 as <-; by eexists. }
  destruct E as [c ->]. by apply kept_same; [apply (ke_ok _ _ _ K)|..].
Qed.

Lemma run_sdap_calls_kept ctxt m evs : forall L L',
  layer_ok L -> run_sdap_calls node L ctxt m evs = Ret L' -> kept (rntiMaybeUEid ctxt) L L'.
Proof.
  induction evs as [|[r sdu|ue s buf|buf] evs IH]; intros L L' H Hr; cbn [run_sdap_calls] in Hr.
  - injection Hr as <-. by apply kept_refl.
  - inv_bind Hr. destruct v as [b L1]. pose proof (data_req_drb_kept _ _ _ _ _ _ _ _ H Hv) as K.
    eapply kept_trans; [exact K|]. apply (IH L1 L' (ke_ok _ _ _ K) Hr).
  - eapply kept_trans; [|eapply IH; [|exact Hr]]; [by apply kept_same|]. by apply (kept_same 0 L).
  - eapply kept_trans; [|eapply IH; [|exact Hr]]; [by apply kept_same|]. by apply (kept_same 0 L).
Qed.

Lemma sdap_data_ind_kept L r g h s id buf L' :
  layer_ok L -> sdap_data_ind node L r g h s id buf = Ret L' -> kept id L L'.
Proof.
  intros H Hr. unfold sdap_data_ind in Hr. inv_bind Hr. destruct v as [l evs].
  assert (K : kept id L (L <| sdap_entities := l |>)) by (by apply kept_same).
  eapply kept_trans; [exact K|]. exact (run_sdap_calls_kept (ue_ctxt id) _ _ _ _ (ke_ok _ _ _ K) Hr).
Qed.

Lemma deliver_sdus_kept u f rb evs : forall L L',
  layer_ok L -> deliver_sdus node L u f rb evs = Ret L' -> kept (ue_id u) L L'.
Proof.
  induction evs as [|ev evs IH]; intros L L' H Hr; cbn [deliver_sdus] in Hr;
    [injection Hr as <-; by apply kept_refl|].
  inv_bind Hr. rename v into L1. assert (K : kept (ue_id u) L L1).
  { destruct f.
    - unfold deliver_sdu_srb in Hv. case_match; [|done]. destruct p as [i rb']. case_match.
      + inv_bind Hv. injection Hv as <-. by apply kept_same.
      + injection Hv as <-. by apply kept_same.
    - unfold deliver_sdu_drb in Hv. case_match; [by eapply sdap_data_ind_kept|]. case_match; [|done].
      destruct p as [i rb']. by eapply sdap_data_ind_kept. }
  eapply kept_trans; [exact K|]. apply (IH L1 L' (ke_ok _ _ _ K) Hr).
Qed.

Lemma finish_rb_kept L u f r rb e L' :
  layer_ok L -> find_ue (ue_list L) (ue_id u) = Some u -> slots f u !! Z.to_nat (r - 1) = Some (Some rb) ->
  bearer e = bearer (rb_entity rb) -> finish_rb node L u f r rb e = Ret L' -> kept (ue_id u) L L'.
Proof.
  intros H Hf Hs Hb Hr. destruct (put_rb_kept L u f r rb e H Hf Hs Hb) as [K _]. unfold finish_rb in Hr.
  eapply kept_trans; [exact K|]. apply deliver_sdus_kept in Hr; [|apply (ke_ok _ _ _ K)].
  by destruct (slots_set f (Z.to_nat (r - 1)) (Some (with_entity rb e)) u) as (_ & _ & <-).
Qed.

Lemma get_ue_kept L id L' u : layer_ok L -> nr_pdcp_manager_get_ue L id = (L', u) -> kept id L L'.
Proof.
  intros H Hg. destruct (get_ue_ok _ _ _ _ H Hg) as (H1 & Ho & _ & _ & _ & Hs). constructor; [done|done|].
  intros v Hv. destruct (Hs v Hv) as [-> ->]. by exists v.
Qed.

(** the shape of most calls: look the bearer up, run [g] on its entity *)
Lemma on_bearer_kept L id r f g L' : layer_ok L ->
  (forall e e', g e = Ret e' -> bearer e' = bearer e) ->
  (let '(L, u) := nr_pdcp_manager_get_ue L id in
   match nr_pdcp_get_rb u r f with
   | None => Ret L
   | Some rb => e ← g (rb_entity rb); finish_rb node L u f r rb e
   end) = Ret L' -> kept id L L'.
Proof.
  intros H Hg Hr. destruct (nr_pdcp_manager_get_ue L id) as [L1 u] eqn:E.
  pose proof (get_ue_kept _ _ _ _ H E) as K. destruct (get_ue_ok _ _ _ _ H E) as (H1 & _ & Hf & _ & Hid & _).
  destruct (nr_pdcp_get_rb u r f) as [rb|] eqn:Hrb; [|by injection Hr as <-]. inv_bind Hr.
  eapply kept_trans; [exact K|]. rewrite <- Hid in *. destruct (get_rb_slot _ _ _ _ Hrb) as [Hs _].
  exact (finish_rb_kept L1 u f r rb v L' H1 Hf Hs (Hg _ _ Hv) Hr).
Qed.

Lemma suspend_kept L id r f L' : layer_ok L ->
  (let '(L, u) := nr_pdcp_manager_get_ue L id in
   match nr_pdcp_get_rb u r f with None => Ret L | Some rb => suspend_rb node L u f r rb end) = Ret L' -> kept id L L'.
Proof.
  intros H Hr. destruct (nr_pdcp_manager_get_ue L id) as [L1 u] eqn:E.
  pose proof (get_ue_kept _ _ _ _ H E) as K. destruct (get_ue_ok _ _ _ _ H E) as (H1 & _ & Hf & _ & Hid & _).
  destruct (nr_pdcp_get_rb u r f) as [rb|] eqn:Hrb; [|by injection Hr as <-].
  eapply kept_trans; [exact K|]. rewrite <- Hid in *. destruct (get_rb_slot _ _ _ _ Hrb) as [Hs _].
  unfold suspend_rb in Hr. inv_bind Hr. rename v into L2.
  pose proof (finish_rb_kept _ _ _ _ _ _ _ H1 Hf Hs (suspend_flush_bearer _) Hv) as K2.
  eapply kept_trans; [exact K2|]. pose proof (ke_ok _ _ _ K2) as H2.
  destruct (nr_pdcp_manager_get_ue L2 (ue_id u)) as [L3 u3] eqn:E3. pose proof (get_ue_kept _ _ _ _ H2 E3) as K3.
  destruct (get_ue_ok _ _ _ _ H2 E3) as (H3 & _ & Hf3 & _ & Hid3 & _).
  destruct (nr_pdcp_get_rb u3 r f) as [rb3|] eqn:Hrb3; [|by injection Hr as <-]. injection Hr as <-.
  eapply kept_trans; [exact K3|]. rewrite <- Hid3 in *. destruct (get_rb_slot _ _ _ _ Hrb3) as [Hs3 _].
  by apply put_rb_kept.
Qed.

Lemma set_time_rbs_ok now rbs : forall L L', layer_ok L -> set_time_rbs node L rbs now = Ret L' -> layer_ok L'.
Proof.
  induction rbs as [|[[id f] r] rbs IH]; intros L L' H Hr; cbn [set_time_rbs] in Hr; [by injection Hr as <-|].
  inv_bind Hr. refine (IH _ _ _ Hr). clear Hr IH. unfold set_time_rb in Hv.
  destruct (find_ue (ue_list L) id) as [u|] eqn:E; [|by injection Hv as <-].
  apply (ke_ok id L), (on_bearer_kept L id r f (fun e => Ret (nr_pdcp_entity_set_time e now))); [done| |].
  - intros e e' [= <-]. apply set_time_bearer.
  - unfold nr_pdcp_manager_get_ue. rewrite E. exact Hv.
Qed.

(** ** Calls that create and delete entities *)

(** the new entity of a bearer *)
Lemma add_rb_ok L u f i e L' :
  layer_ok L -> find_ue (ue_list L) (ue_id u) = Some u -> ue_ok u -> slots f u !! i = Some None ->
  slot_ok f i (mk_rb (next_entity L) e) ->
  L' = put_ue_of (alloc_rb L e).1 (set_slot u f i (Some (alloc_rb L e).2)) ->
  layer_ok L' /\ others_kept (ue_id u) L L'.
Proof.
  intros H Hf Hu Hs Hk ->. pose proof (lo_next _ H).
  destruct (put_ue_ok L (put_ue_of (alloc_rb L e).1 (set_slot u f i (Some (alloc_rb L e).2))) u
    (set_slot u f i (Some (alloc_rb L e).2)) [] [next_entity L]) as (Hok & Ho & _); try done.
  - by destruct f.
  - apply set_slot_ok; [done|]. by intros rb [= <-].
  - simpl. by rewrite app_nil_r.
  - simpl. lia.
  - simpl. rewrite Z.add_comm. rewrite seqZ_app by lia. simpl. rewrite Permutation_app_comm. done.
  - rewrite app_nil_r. exact (live_set f i None (Some (alloc_rb L e).2) u Hs).
Qed.

(** the entity of a bearer is deleted *)
Lemma delete_rb_ok L u f r rb : layer_ok L -> find_ue (ue_list L) (ue_id u) = Some u -> ue_ok u ->
  slots f u !! Z.to_nat (r - 1) = Some (Some rb) ->
  let L' := put_rb L u f r None <| deleted ::= (fun d => d ++ [rb_addr rb]) |> in
  layer_ok L' /\ others_kept (ue_id u) L L'.
Proof.
  intros H Hf Hu Hs L'. destruct (put_ue_ok L L' u (set_slot u f (Z.to_nat (r - 1)) None) [rb_addr rb] [])
    as (Hok & Ho & _); try done.
  - by destruct f.
  - by apply set_slot_ok.
  - apply (lo_next _ H).
  - rewrite Permutation_app_comm. exact (live_set f (Z.to_nat (r - 1)) (Some rb) None u Hs).
Qed.
End calls.
