(* ===== verification/PdcpLayer.v ===== *)
(** The calls into the PDCP layer in any order: the table of UEs and bearers keeps
    its invariant, no entity is leaked or deleted twice, and a call for one UE
    leaves the bearers of the others alone. *)

From stdpp Require Import base tactics list numbers.
From Stdlib Require Import ZArith Lia.
From S2P Require Import Prelude DataQueue Sdap PdcpSdu PdcpEntity PdcpRx PdcpRoundtrip PdcpControl PdcpUe PdcpUeSpec.

(** ** One step of the layer *)

Inductive pdcp_call :=
| AddSrbs (is_gnb : bool) (ue : Z) (l : list NR_SRB_ToAddMod) (p : nr_pdcp_entity_security_keys_and_algos_t)
| AddDrbs (is_gnb : bool) (ue : Z) (l : list NR_DRB_ToAddMod) (p : nr_pdcp_entity_security_keys_and_algos_t)
| RemoveUE (ue : Z)
| ReleaseSrb (ue srb : Z)
| ReleaseDrb (ue drb : Z)
| SetSecurity (ue rb : Z) (is_srb : bool) (p : nr_pdcp_entity_security_keys_and_algos_t)
| CheckIntegritySrb (ue srb : Z) (msg : list Z) (mi : nr_pdcp_integrity_data_t)
| SuspendSrb (ue srb : Z)
| SuspendDrb (ue drb : Z)
| ReconfigureSrb (ue srb t_reordering : Z)
| ReconfigureDrb (ue drb : Z) (c : option NR_PDCP_Config_t)
| Reestablishment (ue rb : Z) (is_srb : bool) (p : nr_pdcp_entity_security_keys_and_algos_t)
| DataReqDrb (ctxt : protocol_ctxt_t) (srb_flag : bool) (rb mui : Z) (sdu : list Z)
| DataReqSrb (ue rb mui : Z) (sdu : list Z)
| SdapDataReq (ctxt : protocol_ctxt_t) (ue rb mui : Z) (sdu : list Z) (qfi : Z) (rqi : bool) (session : Z)
| DataInd (ctxt : protocol_ctxt_t) (srb_flag : bool) (rb : Z) (pdu : list Z)
| GetStatistics (ue : Z) (srb_flag : bool) (rb : Z)
| TimerRound (now : Z).

(** the UE a call is for; the timer works for all *)
Definition call_ue (c : pdcp_call) : option Z :=
  match c with
  | AddSrbs _ ue _ _ | AddDrbs _ ue _ _ | RemoveUE ue | ReleaseSrb ue _ | ReleaseDrb ue _ | SetSecurity ue _ _ _
  | CheckIntegritySrb ue _ _ _ | SuspendSrb ue _ | SuspendDrb ue _ | ReconfigureSrb ue _ _ | ReconfigureDrb ue _ _
  | Reestablishment ue _ _ _ | DataReqSrb ue _ _ _ | GetStatistics ue _ _ => Some ue
  | DataReqDrb ctxt _ _ _ _ | SdapDataReq ctxt _ _ _ _ _ _ _ | DataInd ctxt _ _ _ => Some (rntiMaybeUEid ctxt)
  | TimerRound _ => None
  end.

Section steps.
Context (node : node_t).

Definition layer_step (L : pdcp_layer) (c : pdcp_call) : outcome pdcp_layer :=
  match c with
  | AddSrbs g ue l p => nr_pdcp_add_srbs L g ue l p
  | AddDrbs g ue l p => nr_pdcp_add_drbs node L g ue l p
  | RemoveUE ue => Ret (nr_pdcp_remove_UE L ue)
  | ReleaseSrb ue s => nr_pdcp_release_srb L ue s
  | ReleaseDrb ue d => nr_pdcp_release_drb node L ue d
  | SetSecurity ue rb f p => nr_pdcp_config_set_security node L ue rb f p
  | CheckIntegritySrb ue s msg mi => snd <$> nr_pdcp_check_integrity_srb node L ue s msg mi
  | SuspendSrb ue s => nr_pdcp_suspend_srb node L ue s
  | SuspendDrb ue d => nr_pdcp_suspend_drb node L ue d
  | ReconfigureSrb ue s t => nr_pdcp_reconfigure_srb node L ue s t
  | ReconfigureDrb ue d c => nr_pdcp_reconfigure_drb node L ue d c
  | Reestablishment ue rb f p => nr_pdcp_reestablishment node L ue rb f p
  | DataReqDrb ctxt f rb mui sdu => snd <$> nr_pdcp_data_req_drb node L ctxt f rb mui sdu
  | DataReqSrb ue rb mui sdu => snd <$> nr_pdcp_data_req_srb node L ue rb mui sdu
  | SdapDataReq ctxt ue rb mui sdu qfi rqi s => snd <$> sdap_data_req node L ctxt ue rb mui sdu qfi rqi s
  | DataInd ctxt f rb pdu => do_pdcp_data_ind node L ctxt f rb pdu
  | GetStatistics ue f rb => Ret (nr_pdcp_get_statistics L ue f rb).2
  | TimerRound now => nr_pdcp_timer_thread node L now
  end.

Fixpoint layer_run (L : pdcp_layer) (cs : list pdcp_call) : outcome pdcp_layer :=
  match cs with
  | [] => Ret L
  | c :: cs => L ← layer_step L c; layer_run L cs
  end.

Definition step_ok (c : pdcp_call) (L L' : pdcp_layer) : Prop :=
  layer_ok L' /\ forall id, call_ue c = Some id -> others_kept id L L'.

Lemma kept_step c id L L' : call_ue c = Some id -> kept id L L' -> step_ok c L L'.
Proof. intros E [H1 H2 _]. split; [done|]. intros id' E'. rewrite E in E'. by injection E' as <-. Qed.

Lemma fmap_snd_inv {A B} (c : outcome (A * B)) b : snd <$> c = Ret b -> exists a, c = Ret (a, b).
Proof. destruct c as [[a b']| | |]; [|done..]. intros [= <-]. by exists a. Qed.

(** ** Adding bearers *)

Lemma others_kept_trans id L1 L2 L3 : others_kept id L1 L2 -> others_kept id L2 L3 -> others_kept id L1 L3.
Proof. intros H1 H2 id' Hne. by rewrite H2, H1. Qed.

Lemma add_srb_entity_inv u s rb u' : nr_pdcp_ue_add_srb_pdcp_entity u s rb = Ret u' ->
  1 <= s <= 2 /\ slots true u !! Z.to_nat (s - 1) = Some None /\ u' = set_slot u true (Z.to_nat (s - 1)) (Some rb).
Proof.
  unfold nr_pdcp_ue_add_srb_pdcp_entity. destruct (_ || _) eqn:E; [done|]. bool_prop.
  destruct (srb u !! _) as [[]|] eqn:Es; [done| |done]. intros [= <-]. done.
Qed.

Lemma add_drb_entity_inv u d rb u' : nr_pdcp_ue_add_drb_pdcp_entity u d rb = Ret u' ->
  1 <= d <= 5 /\ slots false u !! Z.to_nat (d - 1) = Some None /\ u' = set_slot u false (Z.to_nat (d - 1)) (Some rb).
Proof.
  unfold nr_pdcp_ue_add_drb_pdcp_entity. destruct (_ || _) eqn:E; [done|]. bool_prop.
  destruct (drb u !! _) as [[]|] eqn:Es; [done| |done]. intros [= <-]. done.
Qed.

Lemma new_entity_slot (f : bool) ty g rb se rx tx sn t d p e a :
  new_nr_pdcp_entity ty g rb se rx tx sn t d p = Ret e -> ty = (if f then NR_PDCP_SRB else NR_PDCP_DRB_AM) ->
  1 <= rb <= (if f then 2 else 5) -> slot_ok f (Z.to_nat (rb - 1)) (mk_rb a e).
Proof.
  intros H Ht Hr. pose proof (new_entity_bearer _ _ _ _ _ _ _ _ _ _ _ H) as Hb. injection Hb as E1 E2 _ _ _ _.
  constructor; simpl.
  - destruct f; lia.
  - rewrite E2. lia.
  - congruence.
  - apply set_security_dyn in H. by injection H.
Qed.

Lemma add_srb_ok L g ue s p L' : layer_ok L -> add_srb L g ue s p = Ret L' -> layer_ok L' /\ others_kept ue L L'.
Proof.
  intros H Hr. unfold add_srb in Hr. inv_bind Hr. clear Hv.
  destruct (nr_pdcp_manager_get_ue L ue) as [L1 u] eqn:E.
  destruct (get_ue_ok _ _ _ _ H E) as (H1 & Ho & Hf & Hu & Hid & _).
  destruct (nr_pdcp_get_rb u _ true); [by injection Hr as <-|]. inv_bind Hr. rename v0 into e.
  destruct (alloc_rb L1 e) as [L2 rb] eqn:Ea. inv_bind Hr. injection Hr as <-.
  destruct (add_srb_entity_inv _ _ _ _ Hv0) as (Hs & Hsl & ->). rewrite <- Hid in *.
  destruct (add_rb_ok L1 u true _ e (put_ue_of L2 (set_slot u true (Z.to_nat (srb_Identity s - 1)) (Some rb))) H1 Hf Hu Hsl)
    as [Hok Ho2]; [by eapply new_entity_slot|by rewrite Ea|]. split; [done|by eapply others_kept_trans].
Qed.

Lemma add_drb_ok L g ue s p L' :
  layer_ok L -> add_drb node L g ue s p = Ret L' -> layer_ok L' /\ others_kept ue L L'.
Proof.
  intros H Hr. unfold add_drb in Hr. do 7 inv_bind Hr. destruct v5 as [[[[[se rx] tx] df] qfis] n].
  case_match; [done|]. destruct (nr_pdcp_manager_get_ue L ue) as [L1 u] eqn:E.
  destruct (get_ue_ok _ _ _ _ H E) as (H1 & Ho & Hf & Hu & Hid & _).
  destruct (nr_pdcp_get_rb u _ false); [by injection Hr as <-|]. inv_bind Hr. rename v5 into e.
  destruct (alloc_rb L1 e) as [L2 rb] eqn:Ea. inv_bind Hr. inv_bind Hr. destruct v6 as [l evs].
  destruct (add_drb_entity_inv _ _ _ _ Hv7) as (Hs & Hsl & ->). rewrite <- Hid in *.
  destruct (add_rb_ok L1 u false _ e (put_ue_of L2 (set_slot u false (Z.to_nat (drb_Identity s - 1)) (Some rb))) H1 Hf Hu Hsl)
    as [Hok Ho2]; [by eapply new_entity_slot|by rewrite Ea|].
  apply run_sdap_calls_kept in Hr; [|by apply (kept_same 0 _ _ Hok)].
  split; [apply (ke_ok _ _ _ Hr)|]. do 2 (eapply others_kept_trans; [eassumption|]). exact (ke_others _ _ _ Hr).
Qed.

(** a loop over a list of bearers to add *)
Lemma add_list_ok {A} (add : pdcp_layer -> A -> outcome pdcp_layer) (adds : pdcp_layer -> list A -> outcome pdcp_layer) ue :
  (forall L, adds L [] = Ret L) -> (forall L s l, adds L (s :: l) = L ← add L s; adds L l) ->
  (forall L s L', layer_ok L -> add L s = Ret L' -> layer_ok L' /\ others_kept ue L L') ->
  forall l L L', layer_ok L -> adds L l = Ret L' -> layer_ok L' /\ others_kept ue L L'.
Proof.
  intros Hnil Hcons Hadd l. induction l as [|s l IH]; intros L L' H Hr.
  { rewrite Hnil in Hr. injection Hr as <-. by split. }
  rewrite Hcons in Hr. inv_bind Hr. destruct (Hadd _ _ _ H Hv) as [H1 Ho1], (IH _ _ H1 Hr) as [H2 Ho2].
  split; [done|by eapply others_kept_trans].
Qed.

(** ** Releasing bearers and UEs *)

Lemma release_srb_ok L ue s L' :
  layer_ok L -> nr_pdcp_release_srb L ue s = Ret L' -> layer_ok L' /\ others_kept ue L L'.
Proof.
  intros H Hr. unfold nr_pdcp_release_srb in Hr. destruct (nr_pdcp_manager_get_ue L ue) as [L1 u] eqn:E.
  destruct (get_ue_ok _ _ _ _ H E) as (H1 & Ho & Hf & Hu & Hid & _). case_match; [done|].
  destruct (srb u !! _) as [[rb|]|] eqn:Es; [| |done]; injection Hr as <-; [|done].
  rewrite <- Hid in *. destruct (delete_rb_ok L1 u true s rb H1 Hf Hu Es) as [Hok Ho2].
  split; [done|by eapply others_kept_trans].
Qed.

Lemma release_drb_ok L ue d L' :
  layer_ok L -> nr_pdcp_release_drb node L ue d = Ret L' -> layer_ok L' /\ others_kept ue L L'.
Proof.
  intros H Hr. unfold nr_pdcp_release_drb in Hr. destruct (nr_pdcp_manager_get_ue L ue) as [L1 u] eqn:E.
  destruct (get_ue_ok _ _ _ _ H E) as (H1 & Ho & Hf & Hu & Hid & _). case_match; [done|].
  destruct (drb u !! _) as [[rb|]|] eqn:Es; [| |done]; [|by injection Hr as <-].
  set (L2 := L1 <| sdap_entities ::= _ |>) in Hr. assert (H2 : layer_ok L2) by (by apply (kept_same 0 L1)).
  inv_bind Hr. rename v into L3. rewrite <- Hid in *.
  assert (K : kept (ue_id u) L2 L3).
  { eapply (finish_rb_kept node L2 u false d rb); [done|exact Hf|exact Es| |exact Hv].
    unfold nr_pdcp_entity_release, deliver_all_sdus. by rewrite deliver_all_loop_bearer. }
  destruct (nr_pdcp_manager_get_ue L3 (ue_id u)) as [L4 u4] eqn:E4. injection Hr as <-.
  destruct (get_ue_ok _ _ _ _ (ke_ok _ _ _ K) E4) as (H4 & Ho4 & Hf4 & Hu4 & Hid4 & Hsame).
  destruct (ke_shape _ _ _ K u Hf) as (u3 & Hu3 & Hshape). destruct (Hsame u3 Hu3) as [-> ->].
  specialize (Hshape false (Z.to_nat (d - 1))). simpl in Hshape. rewrite Es in Hshape. simpl in Hshape.
  destruct (drb u3 !! Z.to_nat (d - 1)) as [[rb3|]|] eqn:Es3; try done.
  assert (Ha : rb_addr rb3 = rb_addr rb) by (by injection Hshape). rewrite <- Hid4 in *.
  destruct (delete_rb_ok L3 u3 false d rb3 H4 Hf4 Hu4 Es3) as [Hok Ho5]. rewrite <- Ha.
  split; [done|]. eapply others_kept_trans; [exact Ho|]. eapply others_kept_trans; [|exact Ho5].
  exact (ke_others _ _ _ K).
Qed.

Lemma slot_addrs_take n l : (forall i rb, l !! i = Some (Some rb) -> (i < n)%nat) -> slot_addrs (take n l) = slot_addrs l.
Proof.
  intros H. rewrite <- (take_drop n l) at 2. unfold slot_addrs. rewrite omap_app.
  replace (omap _ (drop n l)) with (@nil Z); [by rewrite app_nil_r|]. symmetry.
  assert (Hd : forall i rb, drop n l !! i <> Some (Some rb)).
  { intros i rb Hi. rewrite lookup_drop in Hi. apply H in Hi. lia. }
  clear H. induction (drop n l) as [|s k IH]; [done|]. destruct s as [rb|]; [by destruct (Hd 0%nat rb)|].
  simpl. apply IH. intros i rb Hi. by apply (Hd (S i) rb).
Qed.

Lemma remove_ue_ok L ue : layer_ok L -> layer_ok (nr_pdcp_remove_UE L ue) /\ others_kept ue L (nr_pdcp_remove_UE L ue).
Proof.
  intros H. unfold nr_pdcp_remove_UE, nr_pdcp_manager_remove_ue. destruct (find_ue (ue_list L) ue) as [u|] eqn:E; [|done].
  destruct (find_split _ _ _ E) as (Hid & l1 & l2 & El & Hrm & _ & Hne). destruct H as [H1 H2 H3 H4].
  assert (Hu : ue_ok u) by (rewrite El, Forall_app in H2; destruct H2 as [_ H2]; by inversion H2).
  assert (Hra : removed_addrs u = live_ue u).
  { unfold removed_addrs, live_ue. f_equal; apply slot_addrs_take; intros i rb Hi.
    - exact (sk_limit _ _ _ (uo_slots u Hu true i rb Hi)).
    - exact (sk_limit _ _ _ (uo_slots u Hu false i rb Hi)). }
  split; [constructor; simpl; rewrite ?Hrm|].
  - rewrite El, map_app in H1. simpl in H1. rewrite map_app.
    apply list.NoDup_app in H1 as (? & Hd & Hn). apply list.NoDup_cons in Hn as [_ ?].
    apply list.NoDup_app. split_and!; try done. intros x Hx Hx'. apply (Hd x Hx). by right.
  - rewrite El, Forall_app in H2. destruct H2 as [? H2]. inversion H2; subst. by apply Forall_app.
  - done.
  - rewrite <- H4, El, live_middle, Hra. solve_Permutation.
  - intros id' Hne'. simpl. rewrite Hrm, El. symmetry. apply find_middle_ne. congruence.
Qed.

Lemma data_req_srb_kept L ue r m sdu b L' :
  layer_ok L -> nr_pdcp_data_req_srb node L ue r m sdu = Ret (b, L') -> kept ue L L'.
Proof.
  intros H Hr. unfold nr_pdcp_data_req_srb in Hr. destruct (nr_pdcp_manager_get_ue L ue) as [L1 u] eqn:E.
  pose proof (get_ue_kept _ _ _ _ H E) as K. destruct (get_ue_ok _ _ _ _ H E) as (H1 & _ & Hf & _ & Hid & _).
  destruct (nr_pdcp_get_rb u r true) as [rb|] eqn:Hrb; [|by simplify_eq]. inv_bind Hr. destruct v as [[size e] pdu].
  destruct (process_sdu_bearer _ _ _ _ _ _ _ _ Hv) as [Hb _]. destruct (get_rb_slot _ _ _ _ Hrb) as [Hs _].
  rewrite <- Hid in *. destruct (put_rb_kept L1 u true r rb e H1 Hf Hs Hb) as [K2 _].
  pose proof (kept_trans _ _ _ _ K K2) as K3. case_match; [by simplify_eq|].
  destruct (type e); [done|done|]. injection Hr as <- <-. eapply kept_trans; [exact K3|].
  by apply kept_same; [apply (ke_ok _ _ _ K3)|..].
Qed.

Lemma layer_step_ok L c L' : layer_ok L -> layer_step L c = Ret L' -> step_ok c L L'.
Proof.
  intros H Hr. assert (Hown : forall id, call_ue c = Some id -> layer_ok L' /\ others_kept id L L' -> step_ok c L L').
  { intros id E [H1 H2]. split; [done|]. intros id' E'. rewrite E in E'. by injection E' as <-. }
  destruct c; simpl in Hr.
  - eapply Hown; [done|]. revert Hr. eapply (add_list_ok (fun L s => add_srb L is_gnb ue s p)
      (fun L l => nr_pdcp_add_srbs L is_gnb ue l p)); eauto. intros. by eapply add_srb_ok.
  - eapply Hown; [done|]. revert Hr. eapply (add_list_ok (fun L s => add_drb node L is_gnb ue s p)
      (fun L l => nr_pdcp_add_drbs node L is_gnb ue l p)); eauto. intros. by eapply add_drb_ok.
  - injection Hr as <-. eapply Hown; [done|]. by apply remove_ue_ok.
  - eapply Hown; [done|]. by eapply release_srb_ok.
  - eapply Hown; [done|]. by eapply release_drb_ok.
  - eapply kept_step; [done|]. eapply (on_bearer_kept node L ue rb is_srb
      (fun e => nr_pdcp_entity_set_security e p)); eauto using set_security_bearer.
  - apply fmap_snd_inv in Hr as [b Hr]. eapply kept_step; [done|]. unfold nr_pdcp_check_integrity_srb in Hr.
    destruct (nr_pdcp_manager_get_ue L ue) as [L1 u] eqn:E. pose proof (get_ue_kept _ _ _ _ H E) as K.
    case_match; [inv_bind Hr|]; by simplify_eq.
  - eapply kept_step; [done|]. by eapply suspend_kept.
  - eapply kept_step; [done|]. by eapply suspend_kept.
  - eapply kept_step; [done|]. eapply (on_bearer_kept node L ue srb true
      (fun e => v ← decode_t_reordering t_reordering; Ret (e <| PdcpEntity.t_reordering := v |>))); [done| |].
    + intros e e' He. inv_bind He. by injection He as <-.
    + unfold nr_pdcp_reconfigure_srb in Hr. rewrite <- Hr. destruct (nr_pdcp_manager_get_ue L ue) as [L1 u].
      case_match; [|done]. by rewrite bind_bind.
  - eapply kept_step; [done|]. eapply (on_bearer_kept node L ue drb false (fun e => reconfigure_entity e c));
      eauto using reconfigure_bearer.
  - eapply kept_step; [done|]. eapply (on_bearer_kept node L ue rb is_srb (fun e => reestablish_entity e p));
      eauto using reestablish_bearer.
  - apply fmap_snd_inv in Hr as [b Hr]. eapply kept_step; [done|]. by eapply data_req_drb_kept.
  - apply fmap_snd_inv in Hr as [b Hr]. eapply kept_step; [done|]. by eapply data_req_srb_kept.
  - apply fmap_snd_inv in Hr as [b Hr]. eapply kept_step; [done|]. unfold sdap_data_req in Hr. inv_bind Hr.
    destruct v as [[r l] evs]. inv_bind Hr. injection Hr as <- <-.
    assert (K : kept (rntiMaybeUEid ctxt) L (L <| sdap_entities := l |>)) by (by apply kept_same).
    eapply kept_trans; [exact K|]. exact (run_sdap_calls_kept node ctxt _ _ _ _ (ke_ok _ _ _ K) Hv0).
  - eapply kept_step; [done|]. unfold do_pdcp_data_ind in Hr. case_match; [done|].
    eapply (on_bearer_kept node L _ rb srb_flag (fun e => nr_pdcp_entity_recv_pdu (nd_crypto node) e pdu));
      eauto using recv_pdu_bearer.
  - injection Hr as <-. eapply kept_step; [done|]. unfold nr_pdcp_get_statistics.
    destruct (nr_pdcp_manager_get_ue L ue) as [L1 u] eqn:E. by apply (get_ue_kept _ _ _ u).
  - split; [|done]. by eapply set_time_rbs_ok.
Qed.

Lemma layer_run_ok cs : forall L L', layer_ok L -> layer_run L cs = Ret L' -> layer_ok L'.
Proof.
  induction cs as [|c cs IH]; intros L L' H Hr; cbn [layer_run] in Hr; [by injection Hr as <-|].
  inv_bind Hr. by destruct (layer_step_ok _ _ _ H Hv); eauto.
Qed.

Lemma new_manager_ok : layer_ok new_nr_pdcp_ue_manager.
Proof. by constructor; [constructor|constructor|..]. Qed.
End steps.

(** C22: Whatever calls RRC, RLC, SDAP and the timer make into the PDCP layer, in
    whatever order, the table stays well formed: UEs are in it once, SRB 1 and 2
    and DRB 1 to 5 sit in the slot of their identity with an entity of that
    identity and kind, and every entity ever created is either in exactly one
    slot or has been deleted exactly once (none is leaked, deleted twice or
    reachable after its deletion). A call for one UE changes nothing of the
    bearers of another. *)
Theorem pdcp_layer_sound node cs L c L' :
  layer_run node new_nr_pdcp_ue_manager cs = Ret L -> layer_step node L c = Ret L' ->
  layer_ok L' /\
  forall id id', call_ue c = Some id -> id' <> id -> find_ue (ue_list L') id' = find_ue (ue_list L) id'.
Proof.
  intros Hr Hs. pose proof (layer_run_ok node cs _ _ new_manager_ok Hr) as H.
  destruct (layer_step_ok node L c L' H Hs) as [H1 H2]. split; [done|]. intros id id' E Hne. by apply (H2 id E).
Qed.

(** ** A run *)

Definition demo_node : node_t := mk_node toy_crypto false false (fun id => Ret (id + 1000)).

Definition demo_keys : nr_pdcp_entity_security_keys_and_algos_t := mk_keys 2 1 (replicate 16 7) (replicate 16 9).

(** a DRB with 18-bit SNs, integrity and both SDAP headers, for flow 5 of session 10 *)
Definition demo_drb (d : Z) : NR_DRB_ToAddMod :=
  mk_drb_add d (Some (cnAssociation_PR_sdap_Config (Some (mk_sdap_cfg 10 true (mk_sdap_config true true (Some [5]) None)))))
    (Some (mk_pdcp_config (Some (mk_drb_config (Some 15) (Some 1) (Some 1) true)) (Some 20) false)).

Definition demo_calls : list pdcp_call :=
  [AddSrbs true 1 [mk_srb_add 1 None; mk_srb_add 2 None] demo_keys; AddDrbs true 1 [demo_drb 1; demo_drb 2] demo_keys;
   AddDrbs true 2 [demo_drb 1] demo_keys;
   SdapDataReq (mk_ctxt 0 1 0 1 0 0) 1 1 0 [69; 0; 0] 5 false 10; DataReqSrb 1 2 0 [1; 2; 3];
   TimerRound 3; ReleaseDrb 1 2; SuspendDrb 2 1; RemoveUE 2].

Lemma pdcp_layer_sound_witness : exists L L',
  layer_run demo_node new_nr_pdcp_ue_manager demo_calls = Ret L /\
  layer_step demo_node L (ReleaseSrb 1 2) = Ret L' /\ deleted L' = [3; 4; 1] /\ layer_ok L'.
Proof.
  destruct (layer_run demo_node new_nr_pdcp_ue_manager demo_calls) as [L| | |] eqn:E; try by vm_compute in E.
  destruct (layer_step demo_node L (ReleaseSrb 1 2)) as [L'| | |] eqn:E'.
  2,3,4: vm_compute in E; injection E as <-; by vm_compute in E'.
  exists L, L'. split_and!; [done|done| |exact (proj1 (pdcp_layer_sound demo_node demo_calls L (ReleaseSrb 1 2) L' E E'))].
  vm_compute in E. injection E as <-. vm_compute in E'. by injection E' as <-.
Defined.

(** ** Reconfiguration of the SN size *)

(** Reconfiguring a DRB from 12 to 18-bit SNs changes the size of the SN field
    but not the mask and the window derived from it. Once more than a hyper frame
    has been sent, the sender still writes the low 12 bits of COUNT, and the
    receiver, reading them as an 18-bit SN, reconstructs a COUNT of long ago: the
    next PDU in sequence is taken for a duplicate and dropped. *)
Lemma pdcp_reconfigure_sn_size e c d e' n :
  sn_size e = SHORT_SN_SIZE -> sn_max e = 2 ^ 12 - 1 -> window_size e = 2 ^ 11 ->
  pc_drb c = Some d -> pdcp_SN_SizeUL d = Some 1 -> reconfigure_entity e (Some c) = Ret e' ->
  rx_deliv e = n -> 2 ^ 12 <= n < 2 ^ 18 ->
  sn_size e' = LONG_SN_SIZE /\ sn_max e' = 2 ^ 12 - 1 /\
  compute_rcvd_count e' (Z.land n (sn_max e')) = n mod 2 ^ 12 /\
  compute_rcvd_count e' (Z.land n (sn_max e')) < rx_deliv e'.
Proof.
  intros Hsn Hmax Hw Hd Hul Hr Hn Hb.
  assert (H : sn_size e' = LONG_SN_SIZE /\ sn_max e' = sn_max e /\ window_size e' = window_size e /\ rx_deliv e' = rx_deliv e).
  { unfold reconfigure_entity in Hr. inv_bind Hr. rewrite Hd in Hr. inv_bind Hr. rewrite Hul in Hr. inv_bind Hr.
    injection Hv1 as <-.
    assert (Hf : sn_max v0 = sn_max e /\ window_size v0 = window_size e /\ rx_deliv v0 = rx_deliv e).
    { destruct (discardTimer d); [inv_bind Hv0|]; by injection Hv0 as <-. }
    destruct Hf as (F1 & F2 & F3). destruct (pdcp_SN_SizeDL d); [|injection Hr as <-; by split_and!].
    inv_bind Hr. destruct (_ && _) eqn:E; [done|]. injection Hr as <-. cbn in E. apply negb_false_iff, Z.eqb_eq in E.
    by split_and!. }
  destruct H as (H1 & H2 & H3 & H4). rewrite H2, Hmax. split; [done|]. split; [done|].
  unfold compute_rcvd_count. rewrite H1, H2, H3, H4, Hmax, Hw, Hn. rewrite !land_mask by lia.
  pose proof (Z.mod_pos_bound n (2 ^ 12) ltac:(lia)) as Hm. pose proof (Z.mod_le n (2 ^ 12) ltac:(lia) ltac:(lia)).
  rewrite (proj2 (Z.ltb_ge _ _)), (proj2 (Z.leb_gt _ _)) by lia.
  assert (E : Z.shiftr n LONG_SN_SIZE = 0) by (rewrite Z.shiftr_div_pow2 by done; apply Z.div_small; unfold LONG_SN_SIZE; lia).
  rewrite E. change (u32 (Z.shiftl 0 LONG_SN_SIZE)) with 0. rewrite Z.lor_0_l. split; lia.
Qed.

Lemma pdcp_reconfigure_sn_size_witness :
  let e := PdcpRoundtrip.demo_ue <| rx_deliv := 4100 |> <| rx_next := 4100 |> in
  let c := mk_pdcp_config (Some (mk_drb_config None (Some 1) (Some 1) false)) None false in
  exists e', reconfigure_entity e (Some c) = Ret e' /\ compute_rcvd_count e' (Z.land 4100 (sn_max e')) = 4.
Proof.
  intros e c. eexists. split; [reflexivity|].
  apply (pdcp_reconfigure_sn_size e c (mk_drb_config None (Some 1) (Some 1) false)); try reflexivity. lia.
Defined.
