(* ===== verification/RlcConfig.v ===== *)
(** The configuration of RLC bearers: the parts of the RRC messages that RLC reads
    and the meaning of their enumerated values
    (src/openair2/LAYER2/nr_rlc/asn1_utils.c), as nr_rlc_oai_api.c reads them. *)

From stdpp Require Import base tactics list numbers.
From Stdlib Require Import ZArith Lia.
From S2P Require Import Prelude.

(** ** Enumerated values: asn1_utils.c *)

Definition t_reassembly_tab : list Z :=
  [0; 5; 10; 15; 20; 25; 30; 35; 40; 45; 50; 55; 60; 65; 70; 75;
   80; 85; 90; 95; 100; 110; 120; 130; 140; 150; 160; 170; 180; 190; 200].

Definition decode_t_reassembly (v : Z) : outcome Z :=
  if (v <? 0) || (30 <? v) then Exit else rd t_reassembly_tab v.

Definition t_status_prohibit_tab : list Z :=
  [0; 5; 10; 15; 20; 25; 30; 35; 40; 45; 50; 55; 60; 65; 70; 75;
   80; 85; 90; 95; 100; 105; 110; 115; 120; 125; 130; 135; 140; 145; 150; 155;
   160; 165; 170; 175; 180; 185; 190; 195; 200; 205; 210; 215; 220; 225; 230; 235;
   240; 245; 250; 300; 350; 400; 450; 500; 800; 1000; 1200; 1600; 2000; 2400].

Definition decode_t_status_prohibit (v : Z) : outcome Z :=
  if (v <? 0) || (61 <? v) then Exit else rd t_status_prohibit_tab v.

Definition t_poll_retransmit_tab : list Z :=
  [5; 10; 15; 20; 25; 30; 35; 40; 45; 50; 55; 60; 65; 70; 75; 80; 85; 90; 95; 100;
   105; 110; 115; 120; 125; 130; 135; 140; 145; 150; 155; 160; 165; 170; 175; 180; 185; 190; 195; 200;
   205; 210; 215; 220; 225; 230; 235; 240; 245; 250; 300; 350; 400; 450; 500; 800; 1000; 2000; 4000].

Definition decode_t_poll_retransmit (v : Z) : outcome Z :=
  if (v <? 0) || (58 <? v) then Exit else rd t_poll_retransmit_tab v.

Definition poll_pdu_tab : list Z :=
  [4; 8; 16; 32; 64; 128; 256; 512; 1024; 2048; 4096; 6144;
   8192; 12288; 16384; 20480; 24576; 28672; 32768; 40960; 49152; 57344; 65536; -1].

Definition decode_poll_pdu (v : Z) : outcome Z :=
  if (v <? 0) || (23 <? v) then Exit else rd poll_pdu_tab v.

Definition poll_byte_tab : list Z :=
  map (Z.mul 1024) [1; 2; 5; 8; 10; 15; 25; 50; 75; 100; 125; 250; 375; 500; 750; 1000; 1250; 1500; 2000; 3000;
                    4000; 4500; 5000; 5500; 6000; 6500; 7000; 7500] ++
  map (Z.mul (1024 * 1024)) [8; 9; 10; 11; 12; 13; 14; 15; 16; 17; 18; 20; 25; 30; 40] ++ [-1].

Definition decode_poll_byte (v : Z) : outcome Z :=
  if (v <? 0) || (43 <? v) then Exit else rd poll_byte_tab v.

Definition max_retx_threshold_tab : list Z := [1; 2; 3; 4; 6; 8; 16; 32].

Definition decode_max_retx_threshold (v : Z) : outcome Z :=
  if (v <? 0) || (7 <? v) then Exit else rd max_retx_threshold_tab v.

Definition decode_sn_field_length_um (v : Z) : outcome Z :=
  if (v <? 0) || (1 <? v) then Exit else rd [6; 12] v.

Definition decode_sn_field_length_am (v : Z) : outcome Z :=
  if (v <? 0) || (1 <? v) then Exit else rd [12; 18] v.

(** ** Messages

    Optional fields are pointers: [None] is NULL. *)

Record NR_UL_AM_RLC := mk_ul_am {
  ul_am_sn_FieldLength : option Z; ul_t_PollRetransmit : Z; ul_pollPDU : Z; ul_pollByte : Z; ul_maxRetxThreshold : Z
}.
Record NR_DL_AM_RLC := mk_dl_am { dl_am_sn_FieldLength : option Z; dl_am_t_Reassembly : Z; dl_t_StatusProhibit : Z }.
Record NR_DL_UM_RLC := mk_dl_um { dl_um_sn_FieldLength : option Z; dl_um_t_Reassembly : Z }.

Inductive NR_RLC_Config_t :=
| NR_RLC_Config_PR_NOTHING
| NR_RLC_Config_PR_am (ul : NR_UL_AM_RLC) (dl : NR_DL_AM_RLC)
| NR_RLC_Config_PR_um_Bi_Directional (ul_um_sn_FieldLength : option Z) (dl : NR_DL_UM_RLC)
| NR_RLC_Config_PR_um_Uni_Directional_UL (ul_um_sn_FieldLength : option Z)
| NR_RLC_Config_PR_um_Uni_Directional_DL (dl : NR_DL_UM_RLC).

Inductive servedRadioBearer_t :=
| servedRadioBearer_PR_NOTHING
| servedRadioBearer_PR_srb_Identity (id : Z)
| servedRadioBearer_PR_drb_Identity (id : Z).

Record NR_RLC_BearerConfig_t := mk_bearer_config {
  logicalChannelIdentity : Z;
  servedRadioBearer : option servedRadioBearer_t;
  rlc_Config : option NR_RLC_Config_t
}.

(** reading through a pointer *)
Definition deref_ptr {A} (p : option A) : outcome A := match p with Some a => Ret a | None => Undef end.

(** ** What an acknowledged-mode entity is configured with *)
Record am_config := mk_am_config {
  cfg_t_poll_retransmit : Z; cfg_t_reassembly : Z; cfg_t_status_prohibit : Z;
  cfg_poll_pdu : Z; cfg_poll_byte : Z; cfg_max_retx_threshold : Z; cfg_sn_field_length : Z
}.

(** the default values of 9.2.1 of 38.331 *)
Definition default_am_config : am_config := mk_am_config 45 35 0 (-1) (-1) 8 12.

(** the decoded values but the length of the sequence numbers *)
Definition read_am_values (ul : NR_UL_AM_RLC) (dl : NR_DL_AM_RLC) (sn : outcome Z) : outcome am_config :=
  t_reassembly ← decode_t_reassembly (dl_am_t_Reassembly dl);
  t_status_prohibit ← decode_t_status_prohibit (dl_t_StatusProhibit dl);
  t_poll_retransmit ← decode_t_poll_retransmit (ul_t_PollRetransmit ul);
  poll_pdu ← decode_poll_pdu (ul_pollPDU ul);
  poll_byte ← decode_poll_byte (ul_pollByte ul);
  max_retx_threshold ← decode_max_retx_threshold (ul_maxRetxThreshold ul);
  sn_field_length ← sn;
  Ret (mk_am_config t_poll_retransmit t_reassembly t_status_prohibit poll_pdu poll_byte max_retx_threshold
         sn_field_length).

(** a new bearer: both lengths are read through their pointers and must agree *)
Definition new_sn_field_length (decode : Z -> outcome Z) (dl ul : option Z) : outcome Z :=
  d ← deref_ptr dl;
  u ← deref_ptr ul;
  if negb (d =? u) then Exit else decode d.

Definition read_am (ul : NR_UL_AM_RLC) (dl : NR_DL_AM_RLC) : outcome am_config :=
  read_am_values ul dl (new_sn_field_length decode_sn_field_length_am (dl_am_sn_FieldLength dl) (ul_am_sn_FieldLength ul)).

Definition read_um (ul_sn : option Z) (dl : NR_DL_UM_RLC) : outcome (Z * Z) :=
  t_reassembly ← decode_t_reassembly (dl_um_t_Reassembly dl);
  sn_field_length ← new_sn_field_length decode_sn_field_length_um (dl_um_sn_FieldLength dl) ul_sn;
  Ret (t_reassembly, sn_field_length).

(** a reconfiguration: both lengths or none *)
Definition reconf_sn_field_length (decode : Z -> outcome Z) (dl ul : option Z) : outcome (option Z) :=
  match dl, ul with
  | Some d, Some u => if negb (d =? u) then Exit else n ← decode d; Ret (Some n)
  | None, None => Ret None
  | _, _ => Exit
  end.

(** ** The decoded values are those an entity can work with *)

Lemma rd_elem l i x : rd l i = Ret x -> x ∈ l.
Proof.
  unfold rd. destruct (i <? 0); [done|]. destruct (l !! Z.to_nat i) eqn:E; [|done]. intros [= <-].
  by eapply list_elem_of_lookup_2.
Qed.

(** a table whose bound is the length of its array is read inside it *)
Lemma decode_in_table (tab : list Z) (max v : Z) : zlen tab = max + 1 -> 0 <= v <= max ->
  returns (if (v <? 0) || (max <? v) then Exit else rd tab v) (fun x => x ∈ tab).
Proof.
  intros Hl Hv. rewrite (proj2 (Z.ltb_ge v 0)), (proj2 (Z.ltb_ge max v)) by lia. simpl.
  destruct (lookup_lt_is_Some_2 tab (Z.to_nat v)) as [x Hx]; [unfold zlen in Hl; lia|].
  exists x. split; [|by eapply list_elem_of_lookup_2]. unfold rd. by rewrite (proj2 (Z.ltb_ge v 0)), Hx by lia.
Qed.

Lemma decode_sn_am_range v n : decode_sn_field_length_am v = Ret n -> n = 12 \/ n = 18.
Proof.
  unfold decode_sn_field_length_am. destruct (_ || _); [done|]. intros H%rd_elem.
  apply list_elem_of_In in H as [<-|[<-|[]]]; auto.
Qed.

Lemma decode_sn_um_range v n : decode_sn_field_length_um v = Ret n -> n = 6 \/ n = 12.
Proof.
  unfold decode_sn_field_length_um. destruct (_ || _); [done|]. intros H%rd_elem.
  apply list_elem_of_In in H as [<-|[<-|[]]]; auto.
Qed.

Lemma new_sn_decoded decode dl ul n : new_sn_field_length decode dl ul = Ret n -> exists v, decode v = Ret n.
Proof. unfold new_sn_field_length. intros H. inv_bind H. inv_bind H. destruct (negb _); [done|]. by eexists. Qed.

Lemma read_am_sn ul dl c : read_am ul dl = Ret c -> cfg_sn_field_length c = 12 \/ cfg_sn_field_length c = 18.
Proof.
  unfold read_am, read_am_values. intros H. do 7 inv_bind H. injection H as <-. simpl.
  destruct (new_sn_decoded _ _ _ _ Hv5) as [v' Hv']. by eapply decode_sn_am_range.
Qed.

Lemma read_um_sn ul dl t n : read_um ul dl = Ret (t, n) -> n = 6 \/ n = 12.
Proof.
  unfold read_um. intros H. do 2 inv_bind H. injection H as -> ->.
  destruct (new_sn_decoded _ _ _ _ Hv0) as [v' Hv']. by eapply decode_sn_um_range.
Qed.
