(* ===== verification/RlcAny.v ===== *)
(** An RLC entity of any mode behind its function pointers
    (src/openair2/LAYER2/nr_rlc/nr_rlc_entity.h and nr_rlc_entity.c): the call of
    an operation of the entity goes to the function the constructor of the mode
    stored. *)

From stdpp Require Import base tactics list numbers gmap.
From Stdlib Require Import ZArith Lia.
From S2P Require Import Prelude TimeStat RlcPdu RlcSdu RlcEntity RlcAmState RlcAmRx RlcAmControl RlcAmTx.
From S2P Require Import RlcAmStatus RlcAm RlcUm RlcTm.

Inductive rlc_entity :=
| EntityAm (e : nr_rlc_entity_am_t)
| EntityUm (e : nr_rlc_entity_um_t)
| EntityTm (e : nr_rlc_entity_tm_t).

(** [&entity->common] *)
Definition entity_common (e : rlc_entity) : nr_rlc_entity_t :=
  match e with EntityAm e => common e | EntityUm e => um_common e | EntityTm e => tm_common e end.

Definition upd_common (f : nr_rlc_entity_t -> nr_rlc_entity_t) (e : rlc_entity) : rlc_entity :=
  match e with
  | EntityAm e => EntityAm (e <| common ::= f |>)
  | EntityUm e => EntityUm (e <| um_common ::= f |>)
  | EntityTm e => EntityTm (e <| tm_common ::= f |>)
  end.

Definition recv_pdu (e : rlc_entity) (buffer : list Z) : outcome rlc_entity :=
  match e with
  | EntityAm e => EntityAm <$> nr_rlc_entity_am_recv_pdu e buffer
  | EntityUm e => EntityUm <$> nr_rlc_entity_um_recv_pdu e buffer
  | EntityTm e => Ret (EntityTm (nr_rlc_entity_tm_recv_pdu e buffer))
  end.

Definition buffer_status (e : rlc_entity) (maxsize : Z) : outcome nr_rlc_entity_buffer_status_t :=
  match e with
  | EntityAm e => nr_rlc_entity_am_buffer_status e maxsize
  | EntityUm e => Ret (nr_rlc_entity_um_buffer_status e maxsize)
  | EntityTm e => Ret (nr_rlc_entity_tm_buffer_status e maxsize)
  end.

(** the MAC's buffer has the size of the grant *)
Definition generate_pdu (e : rlc_entity) (buffer : list Z) (time_now : Z) : outcome (Z * rlc_entity * list Z) :=
  match e with
  | EntityAm e => '(n, e, b) ← nr_rlc_entity_am_generate_pdu e buffer time_now; Ret (n, EntityAm e, b)
  | EntityUm e => '(n, e, b) ← nr_rlc_entity_um_generate_pdu e buffer time_now; Ret (n, EntityUm e, b)
  | EntityTm e => '(n, e, b) ← nr_rlc_entity_tm_generate_pdu e buffer time_now; Ret (n, EntityTm e, b)
  end.

Definition recv_sdu (e : rlc_entity) (buffer : list Z) (sdu_id time_now : Z) : outcome rlc_entity :=
  match e with
  | EntityAm e => EntityAm <$> nr_rlc_entity_am_recv_sdu e buffer sdu_id time_now
  | EntityUm e => EntityUm <$> nr_rlc_entity_um_recv_sdu e buffer sdu_id time_now
  | EntityTm e => EntityTm <$> nr_rlc_entity_tm_recv_sdu e buffer sdu_id time_now
  end.

Definition set_time (e : rlc_entity) (now : Z) : outcome rlc_entity :=
  match e with
  | EntityAm e => EntityAm <$> nr_rlc_entity_am_set_time e now
  | EntityUm e => EntityUm <$> nr_rlc_entity_um_set_time e now
  | EntityTm e => Ret (EntityTm (nr_rlc_entity_tm_set_time e now))
  end.

Definition reestablishment (e : rlc_entity) : outcome rlc_entity :=
  match e with
  | EntityAm e => EntityAm <$> nr_rlc_entity_am_reestablishment e
  | EntityUm e => EntityUm <$> nr_rlc_entity_um_reestablishment e
  | EntityTm e => EntityTm <$> nr_rlc_entity_tm_reestablishment e
  end.

(** what is left of the SDUs of the entity *)
Definition delete_entity (e : rlc_entity) : outcome sdu_heap :=
  match e with
  | EntityAm e => nr_rlc_entity_am_delete e
  | EntityUm e => nr_rlc_entity_um_delete e
  | EntityTm e => nr_rlc_entity_tm_delete e
  end.

Definition available_tx_space (e : rlc_entity) : Z :=
  match e with
  | EntityAm e => nr_rlc_entity_am_available_tx_space e
  | EntityUm e => nr_rlc_entity_um_available_tx_space e
  | EntityTm e => nr_rlc_entity_tm_available_tx_space e
  end.

(** the head of line: the SDU that waits longest, with the SDUs it is among *)
Definition head_of_line (e : rlc_entity) : option (sdu_heap * nr_rlc_sdu_segment_t) :=
  match e with
  | EntityAm e => pair (heap e) <$> head (if list_is_null (retransmit_list e) then tx_list e else retransmit_list e)
  | EntityUm e => pair (um_heap e) <$> head (um_tx_list e)
  | EntityTm e => pair (tm_heap e) <$> head (tm_tx_list e)
  end.

(** the average drops what has left its window *)
Definition nr_rlc_entity_get_stats (e : rlc_entity) (time_now : Z) : outcome (nr_rlc_statistics_t * rlc_entity) :=
  let out := stats (entity_common e) in
  wt ← match head_of_line e with
       | Some (h, s) => sdu ← deref h s; Ret (u32 (time_now - sdu_time_of_arrival sdu))
       | None => Ret 0
       end;
  let out := out <| txsdu_wt_us := wt |> in
  if avg_time_is_on (entity_common e) then
    '(avg, ta) ← time_average_get_average (txsdu_avg_time_to_tx (entity_common e)) time_now;
    Ret (out <| stat_txsdu_avg_time_to_tx := avg |>, upd_common (fun c => c <| txsdu_avg_time_to_tx := ta |>) e)
  else Ret (out <| stat_txsdu_avg_time_to_tx := (0, 1) |>, e).

(** ** Which mode an entity has never changes *)

Definition entity_mode (e : rlc_entity) : nr_rlc_mode_t :=
  match e with EntityAm _ => NR_RLC_AM | EntityUm _ => NR_RLC_UM | EntityTm _ => NR_RLC_TM end.

Lemma fmap_Ret_inv {A B} (f : A -> B) (c : outcome A) b : f <$> c = Ret b -> exists a, c = Ret a /\ b = f a.
Proof. destruct c; cbn; [intros [= <-]; eauto|done..]. Qed.

(** opens the dispatch of an operation [op] *)
Ltac inv_dispatch op e H :=
  unfold op in H; destruct e;
  first [apply fmap_Ret_inv in H as (? & _ & ->)|injection H as <-]; reflexivity.

Lemma recv_pdu_mode e b e' : recv_pdu e b = Ret e' -> entity_mode e' = entity_mode e.
Proof. intros H. inv_dispatch recv_pdu e H. Qed.
Lemma recv_sdu_mode e b i t e' : recv_sdu e b i t = Ret e' -> entity_mode e' = entity_mode e.
Proof. intros H. inv_dispatch recv_sdu e H. Qed.
Lemma set_time_mode e now e' : set_time e now = Ret e' -> entity_mode e' = entity_mode e.
Proof. intros H. inv_dispatch set_time e H. Qed.
Lemma reestablishment_mode e e' : reestablishment e = Ret e' -> entity_mode e' = entity_mode e.
Proof. intros H. inv_dispatch reestablishment e H. Qed.
Lemma generate_pdu_mode e b t n e' b' : generate_pdu e b t = Ret (n, e', b') -> entity_mode e' = entity_mode e.
Proof. intros H. unfold generate_pdu in H. destruct e; inv_bind H; destruct v as [[? ?] ?]; injection H as _ <- _; reflexivity. Qed.
Lemma upd_common_mode f e : entity_mode (upd_common f e) = entity_mode e.
Proof. destruct e; reflexivity. Qed.
Lemma get_stats_mode e t out e' : nr_rlc_entity_get_stats e t = Ret (out, e') -> entity_mode e' = entity_mode e.
Proof.
  unfold nr_rlc_entity_get_stats. intros H. inv_bind H. destruct (avg_time_is_on _).
  - inv_bind H. destruct v0 as [? ?]. injection H as _ <-. apply upd_common_mode.
  - injection H as _ <-. reflexivity.
Qed.
