(* ===== verification/RlcUe.v ===== *)
(** The RLC layer of a node: the table of UEs and their RLC entities
    (src/openair2/LAYER2/nr_rlc/nr_rlc_ue_manager.c) and the calls that the MAC,
    PDCP, RRC, F1 and the timer make into it, with the callbacks of the entities
    (nr_rlc_oai_api.c).

    A call holds the lock of the manager while it works, and is one step here. A
    UE is an element of the table; the pointer to it that the entities of the UE
    keep for their callbacks is the position in the table during that step. The
    callbacks run inside an operation of an entity; they change neither the
    entity nor the table, and are run when the operation is complete, in the order
    in which they were called. *)

From stdpp Require Import base tactics list numbers gmap.
From Stdlib Require Import ZArith Lia.
From S2P Require Import Prelude TimeStat RlcSdu RlcEntity RlcAmState RlcUm RlcTm DataQueue RlcConfig RlcAny.

(** ** Constants: src/common/platform_constants.h *)

Definition RLC_MAX_DRBS_PER_UE : Z := 32.
Definition RLC_TX_MAXSIZE : Z := 10000000.
Definition RLC_RX_MAXSIZE : Z := 10000000.

(** conversion to [int] *)
Definition s32 (x : Z) : Z := (x + 2 ^ 31) mod 2 ^ 32 - 2 ^ 31.

(** ** UEs and entities *)

(** the callback of SRB 0 with what it is given: the handler and its data stand
    for what the caller passed *)
Record srb0_data := mk_srb0_data { s0_ue_id : Z; s0_data : Z; s0_send_initial_ul_rrc_message : Z }.

(** an entity, its address, which the callbacks compare, and [deliver_sdu_data]
    of SRB 0; the other entities have the UE they belong to *)
Record rlc_rb := mk_rlc_rb { re_addr : Z; re_entity : rlc_entity; re_srb0 : option srb0_data }.

Inductive nr_rlc_rb_t := NR_RLC_NONE | NR_RLC_SRB (srb_id : Z) | NR_RLC_DRB (drb_id : Z).

Record nr_rlc_ue_t := mk_rlc_ue {
  ru_ue_id : Z;
  ru_srb0 : option rlc_rb;
  ru_srb : list (option rlc_rb);
  ru_drb : list (option rlc_rb);
  ru_lcid2rb : list nr_rlc_rb_t;
  ru_rlf_handler : option Z
}.
#[export] Instance rlc_ue_eta : Eta nr_rlc_ue_t := fun u =>
  mk_rlc_ue (ru_ue_id u) (ru_srb0 u) (ru_srb u) (ru_drb u) (ru_lcid2rb u) (ru_rlf_handler u).

(** a UE from [calloc] *)
Definition new_rlc_ue (id : Z) : nr_rlc_ue_t :=
  mk_rlc_ue id None (replicate 3 None) (replicate 32 None) (replicate 32 NR_RLC_NONE) None.

(** the calls that leave the layer *)
Inductive rlc_call :=
| NrPdcpDataInd (it : pdcp_data_ind_queue_item)
| DuUlRrcMessage (gNB_CU_ue_id gNB_DU_ue_id srb_id : Z) (buf : list Z)
| DuGtpSendDirect (ue_id rb_id : Z) (buf : list Z)
| RlfHandler (handler ue_id : Z)
| SendInitialUlRrcMessage (handler data ue_id : Z) (sdu : list Z).

(** [rl_deleted]: the addresses given to [delete_entity] *)
Record rlc_layer := mk_rlc_layer {
  rl_enb_flag : bool;
  rl_ue_list : list nr_rlc_ue_t;
  rl_current_time : Z;
  rl_last_frame : Z;
  rl_last_subframe : Z;
  rl_next_entity : Z;
  rl_deleted : list Z;
  rl_calls : list rlc_call
}.
#[export] Instance rlc_layer_eta : Eta rlc_layer := fun L =>
  mk_rlc_layer (rl_enb_flag L) (rl_ue_list L) (rl_current_time L) (rl_last_frame L) (rl_last_subframe L)
    (rl_next_entity L) (rl_deleted L) (rl_calls L).

Definition new_nr_rlc_ue_manager (enb_flag : bool) : rlc_layer := mk_rlc_layer enb_flag [] 0 0 0 0 [] [].

(** the flags [inited] and [inited_ue] *)
Definition rlc_module_init (inited inited_ue : bool) (enb_flag : Z) : outcome (bool * bool * rlc_layer) :=
  if (enb_flag =? 1) && inited then Exit
  else if (enb_flag =? 0) && inited_ue then Exit
  else Ret (inited || (enb_flag =? 1), inited_ue || (enb_flag =? 0), new_nr_rlc_ue_manager (negb (enb_flag =? 0))).

(** position of the first UE with this identity *)
Fixpoint find_rlc_ue (l : list nr_rlc_ue_t) (ue_id : Z) : option nat :=
  match l with
  | [] => None
  | u :: l => if ru_ue_id u =? ue_id then Some 0%nat else S <$> find_rlc_ue l ue_id
  end.

(** a UE that is not in the table is added to it *)
Definition nr_rlc_manager_get_ue (L : rlc_layer) (ue_id : Z) : rlc_layer * nat * nr_rlc_ue_t :=
  let fresh := (L <| rl_ue_list ::= (fun l => l ++ [new_rlc_ue ue_id]) |>, length (rl_ue_list L), new_rlc_ue ue_id) in
  match find_rlc_ue (rl_ue_list L) ue_id with
  | Some n => match rl_ue_list L !! n with Some u => (L, n, u) | None => fresh end
  | None => fresh
  end.

(** ** The slots of a UE *)

Inductive slot_id := Srb0 | Srb (i : Z) | Drb (i : Z).

(** [a[i]] *)
Definition rd_slot {A} (a : list A) (i : Z) : outcome A :=
  if i <? 0 then Undef else match a !! Z.to_nat i with Some x => Ret x | None => Undef end.

Definition get_slot (u : nr_rlc_ue_t) (s : slot_id) : outcome (option rlc_rb) :=
  match s with Srb0 => Ret (ru_srb0 u) | Srb i => rd_slot (ru_srb u) i | Drb i => rd_slot (ru_drb u) i end.

Definition set_slot (u : nr_rlc_ue_t) (s : slot_id) (rb : option rlc_rb) : nr_rlc_ue_t :=
  match s with
  | Srb0 => u <| ru_srb0 := rb |>
  | Srb i => u <| ru_srb ::= <[Z.to_nat i := rb]> |>
  | Drb i => u <| ru_drb ::= <[Z.to_nat i := rb]> |>
  end.

Definition put_rlc_ue (L : rlc_layer) (n : nat) (u : nr_rlc_ue_t) : rlc_layer := L <| rl_ue_list ::= <[n := u]> |>.

(** the object is freed *)
Definition delete_rb (L : rlc_layer) (rb : rlc_rb) : outcome rlc_layer :=
  _ ← delete_entity (re_entity rb); Ret (L <| rl_deleted ::= (fun d => d ++ [re_addr rb]) |>).

Fixpoint delete_slots (L : rlc_layer) (slots : list (option rlc_rb)) : outcome rlc_layer :=
  match slots with
  | [] => Ret L
  | Some rb :: slots => L ← delete_rb L rb; delete_slots L slots
  | None :: slots => delete_slots L slots
  end.

Definition nr_rlc_manager_remove_ue (L : rlc_layer) (ue_id : Z) : outcome rlc_layer :=
  match find_rlc_ue (rl_ue_list L) ue_id with
  | None => Ret L
  | Some n =>
      match rl_ue_list L !! n with
      | None => Ret L
      | Some u =>
          L ← delete_slots L (ru_srb0 u :: take 3 (ru_srb u) ++ take 32 (ru_drb u));
          Ret (L <| rl_ue_list ::= (fun l => take n l ++ drop (S n) l) |>)
      end
  end.

Definition nr_rlc_ue_add_srb_rlc_entity (u : nr_rlc_ue_t) (srb_id : Z) (rb : rlc_rb) : outcome nr_rlc_ue_t :=
  if (srb_id <? 0) || (3 <? srb_id) then Exit
  else if srb_id =? 0 then
    match ru_srb0 u with Some _ => Exit | None => Ret (set_slot u Srb0 (Some rb)) end
  else
    old ← get_slot u (Srb (srb_id - 1));
    match old with Some _ => Exit | None => Ret (set_slot u (Srb (srb_id - 1)) (Some rb)) end.

Definition nr_rlc_ue_add_drb_rlc_entity (u : nr_rlc_ue_t) (drb_id : Z) (rb : rlc_rb) : outcome nr_rlc_ue_t :=
  if (drb_id <? 1) || (RLC_MAX_DRBS_PER_UE <? drb_id) then Exit
  else
    old ← get_slot u (Drb (drb_id - 1));
    match old with Some _ => Exit | None => Ret (set_slot u (Drb (drb_id - 1)) (Some rb)) end.

(** ** Callbacks

    What the layer takes from the node it runs on: its role and the table of F1
    UE identities of the DU. *)
Record rlc_node := mk_rlc_node {
  rn_is_cu : bool;                           (** NODE_IS_CU(type) *)
  rn_is_du : bool;                           (** NODE_IS_DU(type) *)
  rn_secondary_ue : Z -> outcome Z           (** du_get_f1_ue_data *)
}.

Section layer.
Context (node : rlc_node).

Definition rlc_emit (c : rlc_call) (L : rlc_layer) : rlc_layer := L <| rl_calls ::= (fun l => l ++ [c]) |>.

(** [entity == a[i]] *)
Fixpoint find_addr (a : list (option rlc_rb)) (addr : Z) (i : Z) : option Z :=
  match a with
  | [] => None
  | Some rb :: a => if re_addr rb =? addr then Some i else find_addr a addr (i + 1)
  | None :: a => find_addr a addr (i + 1)
  end.

(** the bearer of an entity: SRB or not, and its identity; the search goes over
    the first [nsrb] SRBs *)
Definition find_bearer (u : nr_rlc_ue_t) (nsrb : nat) (addr : Z) : option (bool * Z) :=
  match find_addr (take nsrb (ru_srb u)) addr 0 with
  | Some i => Some (true, i + 1)
  | None => match find_addr (ru_drb u) addr 0 with Some i => Some (false, i + 1) | None => None end
  end.

Definition deliver_sdu (L : rlc_layer) (u : nr_rlc_ue_t) (addr : Z) (buf : list Z) : outcome rlc_layer :=
  match find_bearer u 3 addr with
  | None => Exit
  | Some (is_srb, rb_id) =>
      rnti ← (if rl_enb_flag L then rn_secondary_ue node (u32 (ru_ue_id u)) else Ret (u64 (ru_ue_id u)));
      if rl_enb_flag L && rn_is_cu node then Exit
      else if rl_enb_flag L && rn_is_du node then
        Ret (rlc_emit (if is_srb then DuUlRrcMessage rnti (ru_ue_id u) rb_id buf
                       else DuGtpSendDirect (ru_ue_id u) rb_id buf) L)
      else
        Ret (rlc_emit (NrPdcpDataInd (mk_ind_item (mk_ctxt 0 (Z.b2z (rl_enb_flag L)) 0 rnti 0 0) is_srb false rb_id
                         (zlen buf) buf)) L)
  end.

(** nothing is done but to look for the bearer *)
Definition successful_delivery (L : rlc_layer) (u : nr_rlc_ue_t) (addr sdu_id : Z) : outcome rlc_layer :=
  match find_bearer u 2 addr with None => Exit | Some _ => Ret L end.

Definition max_retx_reached (L : rlc_layer) (u : nr_rlc_ue_t) (addr : Z) : outcome rlc_layer :=
  match find_bearer u 2 addr with
  | None => Exit
  | Some _ =>
      match ru_rlf_handler u with
      | Some h => Ret (rlc_emit (RlfHandler h (ru_ue_id u)) L)
      | None => Ret L
      end
  end.

Definition deliver_sdu_srb0 (L : rlc_layer) (s0 : srb0_data) (buf : list Z) : rlc_layer :=
  rlc_emit (SendInitialUlRrcMessage (s0_send_initial_ul_rrc_message s0) (s0_data s0) (s0_ue_id s0) buf) L.

(** the callback of an event; unacknowledged and transparent mode have only the
    first *)
Definition callback (L : rlc_layer) (u : nr_rlc_ue_t) (rb : rlc_rb) (ev : rlc_event) : outcome rlc_layer :=
  match ev, re_srb0 rb with
  | DeliverSdu buf, Some s0 => Ret (deliver_sdu_srb0 L s0 buf)
  | DeliverSdu buf, None => deliver_sdu L u (re_addr rb) buf
  | SduSuccessfulDelivery id, None => successful_delivery L u (re_addr rb) id
  | MaxRetxReached, None => max_retx_reached L u (re_addr rb)
  | _, Some _ => Undef                       (* a NULL function pointer *)
  end.

Fixpoint callbacks (L : rlc_layer) (u : nr_rlc_ue_t) (rb : rlc_rb) (evs : list rlc_event) : outcome rlc_layer :=
  match evs with
  | [] => Ret L
  | ev :: evs => L ← callback L u rb ev; callbacks L u rb evs
  end.

(** an operation has turned the entity in slot [s] of UE [n] into [e] *)
Definition with_entity (rb : rlc_rb) (e : rlc_entity) : rlc_rb :=
  mk_rlc_rb (re_addr rb) (upd_common (fun c => c <| events := [] |>) e) (re_srb0 rb).

Definition finish_rb (L : rlc_layer) (n : nat) (u : nr_rlc_ue_t) (s : slot_id) (rb : rlc_rb) (e : rlc_entity)
    : outcome rlc_layer :=
  let rb := with_entity rb e in
  let u := set_slot u s (Some rb) in
  callbacks (put_rlc_ue L n u) u rb (events (entity_common e)).

(** ** Logical channels *)

Definition slot_of_rb (rb : nr_rlc_rb_t) : outcome (option slot_id) :=
  match rb with
  | NR_RLC_NONE => Ret None
  | NR_RLC_SRB id => if 0 <? id then Ret (Some (Srb (id - 1))) else Exit
  | NR_RLC_DRB id => Ret (Some (Drb (id - 1)))
  end.

Definition in_slot (s : slot_id) (rb : option rlc_rb) : option (slot_id * rlc_rb) :=
  match rb with Some rb => Some (s, rb) | None => None end.

(** the entity and its slot *)
Definition get_rlc_entity_from_lcid (u : nr_rlc_ue_t) (channel_id : Z) : outcome (option (slot_id * rlc_rb)) :=
  if channel_id =? 0 then Ret (in_slot Srb0 (ru_srb0 u))
  else
    lrb ← rd_slot (ru_lcid2rb u) (channel_id - 1);
    s ← slot_of_rb lrb;
    match s with
    | None => Ret None
    | Some s => rb ← get_slot u s; Ret (in_slot s rb)
    end.

(** the slot is emptied, the entry of the logical channel stays *)
Definition release_slot (L : rlc_layer) (n : nat) (u : nr_rlc_ue_t) (s : slot_id) : outcome (rlc_layer * nr_rlc_ue_t) :=
  rb ← get_slot u s;
  match rb with
  | None => Ret (L, u)
  | Some rb => L ← delete_rb L rb; let u := set_slot u s None in Ret (put_rlc_ue L n u, u)
  end.

Definition release_rlc_entity_from_lcid (L : rlc_layer) (n : nat) (u : nr_rlc_ue_t) (channel_id : Z) : outcome rlc_layer :=
  if channel_id =? 0 then Exit
  else
    lrb ← rd_slot (ru_lcid2rb u) (channel_id - 1);
    s ← slot_of_rb lrb;
    match s with None => Ret L | Some s => '(L, _) ← release_slot L n u s; Ret L end.

Definition nr_rlc_release_entity (L : rlc_layer) (ue_id channel_id : Z) : outcome rlc_layer :=
  let '(L, n, u) := nr_rlc_manager_get_ue L ue_id in
  if channel_id =? 0 then '(L, _) ← release_slot L n u Srb0; Ret L
  else release_rlc_entity_from_lcid L n u channel_id.

Definition is_rb (is_srb : bool) (rb_id : Z) (rb : nr_rlc_rb_t) : bool :=
  match rb with
  | NR_RLC_SRB id => is_srb && (id =? rb_id)
  | NR_RLC_DRB id => negb is_srb && (id =? rb_id)
  | NR_RLC_NONE => false
  end.

Fixpoint lcid_loop (a : list nr_rlc_rb_t) (is_srb : bool) (rb_id id : Z) : Z :=
  match a with
  | [] => 0
  | rb :: a => if is_rb is_srb rb_id rb then id else lcid_loop a is_srb rb_id (id + 1)
  end.

Definition nr_rlc_get_lcid_from_rb (L : rlc_layer) (ue_id : Z) (is_srb : bool) (rb_id : Z) : Z * rlc_layer :=
  let '(L, _, u) := nr_rlc_manager_get_ue L ue_id in
  (lcid_loop (take 32 (ru_lcid2rb u)) is_srb rb_id 1, L).

(** ** Data *)

Definition mac_rlc_data_ind (L : rlc_layer) (ue_id eNB_index MBMS_flag channel_id : Z) (buffer : list Z) : outcome rlc_layer :=
  if negb (eNB_index =? 0) || negb (MBMS_flag =? 0) then Exit
  else
    let '(L, n, u) := nr_rlc_manager_get_ue L ue_id in
    r ← get_rlc_entity_from_lcid u channel_id;
    match r with
    | None => Ret L
    | Some (s, rb) =>
        e ← set_time (re_entity rb) (rl_current_time L);
        e ← recv_pdu e buffer;
        finish_rb L n u s rb e
    end.

(** [buffer]: the MAC's buffer, of the size of the grant; the size of the PDU is
    returned with it *)
Definition mac_rlc_data_req (L : rlc_layer) (ue_id channel_id : Z) (buffer : list Z) (time_now : Z)
    : outcome (Z * rlc_layer * list Z) :=
  let '(L, n, u) := nr_rlc_manager_get_ue L ue_id in
  r ← get_rlc_entity_from_lcid u channel_id;
  match r with
  | None => Ret (0, L, buffer)
  | Some (s, rb) =>
      e ← set_time (re_entity rb) (rl_current_time L);
      '(ret, e, buffer) ← generate_pdu e buffer time_now;
      L ← finish_rb L n u s rb e;
      Ret (ret, L, buffer)
  end.

Definition bytes_in_buffer (b : nr_rlc_entity_buffer_status_t) : Z := bs_status_size b + bs_retx_size b + bs_tx_size b.

Definition mac_rlc_status_ind (L : rlc_layer) (ue_id channel_id : Z) : outcome (Z * rlc_layer) :=
  let '(L, n, u) := nr_rlc_manager_get_ue L ue_id in
  r ← get_rlc_entity_from_lcid u channel_id;
  match r with
  | None => Ret (0, L)
  | Some (s, rb) =>
      e ← set_time (re_entity rb) (rl_current_time L);
      b ← buffer_status e (1000 * 1000);
      L ← finish_rb L n u s rb e;
      Ret (bytes_in_buffer b, L)
  end.

(** a new frame or subframe is a millisecond *)
Definition nr_rlc_tick (L : rlc_layer) (frame subframe : Z) : rlc_layer :=
  if negb (u32 frame =? u32 (rl_last_frame L)) || negb (u32 subframe =? u32 (rl_last_subframe L)) then
    L <| rl_last_frame := frame |> <| rl_last_subframe := subframe |> <| rl_current_time ::= (fun t => u64 (t + 1)) |>
  else L.

Definition mac_rlc_get_buffer_occupancy_ind (L : rlc_layer) (ue_id frame subframe enb_flag channel_id : Z)
    : outcome (Z * rlc_layer) :=
  if negb (enb_flag =? 0) then Exit
  else mac_rlc_status_ind (nr_rlc_tick L frame subframe) ue_id channel_id.

(** a bearer by its identity *)
Definition get_rb (u : nr_rlc_ue_t) (srb_flag : bool) (rb_id max_srb max_drb : Z) : outcome (option (slot_id * rlc_rb)) :=
  if srb_flag then
    if (1 <=? rb_id) && (rb_id <=? max_srb) then rb ← get_slot u (Srb (rb_id - 1)); Ret (in_slot (Srb (rb_id - 1)) rb)
    else Ret None
  else
    if (1 <=? rb_id) && (rb_id <=? max_drb) then rb ← get_slot u (Drb (rb_id - 1)); Ret (in_slot (Drb (rb_id - 1)) rb)
    else Ret None.

Definition rlc_data_req (L : rlc_layer) (ctxt : protocol_ctxt_t) (srb_flag : bool) (rb_id mui : Z) (sdu : list Z)
    (time_now : Z) : outcome rlc_layer :=
  let '(L, n, u) := nr_rlc_manager_get_ue L (s32 (rntiMaybeUEid ctxt)) in
  r ← get_rb u srb_flag rb_id 2 RLC_MAX_DRBS_PER_UE;
  match r with
  | None => Ret L
  | Some (s, rb) =>
      e ← set_time (re_entity rb) (rl_current_time L);
      e ← recv_sdu e sdu mui time_now;
      finish_rb L n u s rb e
  end.

Definition nr_rlc_get_available_tx_space (L : rlc_layer) (ue_id channel_id : Z) : outcome (Z * rlc_layer) :=
  let '(L, n, u) := nr_rlc_manager_get_ue L ue_id in
  r ← get_rlc_entity_from_lcid u channel_id;
  Ret (match r with None => -1 | Some (_, rb) => available_tx_space (re_entity rb) end, L).

(** an SDU of RRC for an SRB *)
Definition nr_rlc_srb_recv_sdu (L : rlc_layer) (ue_id channel_id : Z) (buf : list Z) (time_now : Z) : outcome rlc_layer :=
  let '(L, n, u) := nr_rlc_manager_get_ue L ue_id in
  let s := if channel_id =? 0 then Srb0 else Srb (channel_id - 1) in
  rb ← get_slot u s;
  match rb with
  | None => Exit
  | Some rb =>
      e ← set_time (re_entity rb) (rl_current_time L);
      e ← recv_sdu e buf (-1) time_now;
      finish_rb L n u s rb e
  end.

(** ** Life cycle of the bearers *)

Definition nr_rlc_set_rlf_handler (L : rlc_layer) (ue_id : Z) (rlf_h : option Z) : rlc_layer :=
  let '(L, n, u) := nr_rlc_manager_get_ue L ue_id in
  put_rlc_ue L n (u <| ru_rlf_handler := rlf_h |>).

Definition nr_rlc_reestablish_entity (L : rlc_layer) (ue_id lc_id : Z) : outcome rlc_layer :=
  let '(L, n, u) := nr_rlc_manager_get_ue L ue_id in
  r ← get_rlc_entity_from_lcid u lc_id;
  match r with
  | None => Ret L
  | Some (s, rb) => e ← reestablishment (re_entity rb); finish_rb L n u s rb e
  end.

Definition reconfigure_am (e : nr_rlc_entity_am_t) (c : am_config) (sn : option Z) : nr_rlc_entity_am_t :=
  nr_rlc_entity_am_reconfigure e (cfg_t_poll_retransmit c) (cfg_t_reassembly c) (cfg_t_status_prohibit c)
    (cfg_poll_pdu c) (cfg_poll_byte c) (cfg_max_retx_threshold c) sn.

Definition reconfigured (e : rlc_entity) (c : option NR_RLC_Config_t) : outcome rlc_entity :=
  match c, e with
  | Some _, EntityTm _ => Exit
  | Some (NR_RLC_Config_PR_am ul dl), EntityAm e =>
      c ← read_am_values ul dl (Ret 0);
      sn ← reconf_sn_field_length decode_sn_field_length_am (dl_am_sn_FieldLength dl) (ul_am_sn_FieldLength ul);
      Ret (EntityAm (reconfigure_am e c sn))
  | Some (NR_RLC_Config_PR_um_Bi_Directional ul_sn dl), EntityUm e =>
      t_reassembly ← decode_t_reassembly (dl_um_t_Reassembly dl);
      sn ← reconf_sn_field_length decode_sn_field_length_um (dl_um_sn_FieldLength dl) ul_sn;
      Ret (EntityUm (nr_rlc_entity_um_reconfigure e t_reassembly sn))
  | Some _, _ => Exit
  | None, EntityAm e => Ret (EntityAm (reconfigure_am e default_am_config (Some 12)))
  | None, _ => Exit
  end.

(** [rb->stats.mode] is read in every case *)
Definition nr_rlc_reconfigure_entity (L : rlc_layer) (ue_id lc_id : Z) (c : option NR_RLC_Config_t) : outcome rlc_layer :=
  let '(L, n, u) := nr_rlc_manager_get_ue L ue_id in
  r ← get_rlc_entity_from_lcid u lc_id;
  match r with
  | None => Undef
  | Some (s, rb) => e ← reconfigured (re_entity rb) c; finish_rb L n u s rb e
  end.

(** [ue->lcid2rb[logicalChannelIdentity - 1] = ...] *)
Definition set_lcid (u : nr_rlc_ue_t) (lcid : Z) (rb : nr_rlc_rb_t) : outcome nr_rlc_ue_t :=
  _ ← rd_slot (ru_lcid2rb u) (lcid - 1);
  Ret (u <| ru_lcid2rb ::= <[Z.to_nat (lcid - 1) := rb]> |>).

Definition alloc_rb (L : rlc_layer) (e : rlc_entity) (s0 : option srb0_data) : rlc_layer * rlc_rb :=
  (L <| rl_next_entity ::= Z.add 1 |>, mk_rlc_rb (rl_next_entity L) e s0).

Definition new_am (c : am_config) : outcome rlc_entity :=
  EntityAm <$> new_nr_rlc_entity_am RLC_RX_MAXSIZE RLC_TX_MAXSIZE (cfg_t_poll_retransmit c) (cfg_t_reassembly c)
    (cfg_t_status_prohibit c) (cfg_poll_pdu c) (cfg_poll_byte c) (cfg_max_retx_threshold c) (cfg_sn_field_length c).

Definition nr_rlc_add_srb (L : rlc_layer) (ue_id srb_id : Z) (bc : NR_RLC_BearerConfig_t) : outcome rlc_layer :=
  if negb ((0 <? srb_id) && (srb_id <? 4)) then Exit
  else
    c ← match rlc_Config bc with
        | Some (NR_RLC_Config_PR_am ul dl) => read_am ul dl
        | _ => Ret default_am_config
        end;
    let '(L, n, u) := nr_rlc_manager_get_ue L ue_id in
    match servedRadioBearer bc with
    | Some (servedRadioBearer_PR_srb_Identity id) =>
        u ← set_lcid u (logicalChannelIdentity bc) (NR_RLC_SRB id);
        let L := put_rlc_ue L n u in
        old ← get_slot u (Srb (srb_id - 1));
        match old with
        | Some _ => Ret L
        | None =>
            e ← new_am c;
            let '(L, rb) := alloc_rb L e None in
            u ← nr_rlc_ue_add_srb_rlc_entity u srb_id rb;
            Ret (put_rlc_ue L n u)
        end
    | _ => Exit
    end.

(** the common end of [add_drb_am] and [add_drb_um] *)
Definition add_drb (L : rlc_layer) (ue_id drb_id : Z) (bc : NR_RLC_BearerConfig_t) (entity : outcome rlc_entity)
    : outcome rlc_layer :=
  let '(L, n, u) := nr_rlc_manager_get_ue L ue_id in
  match servedRadioBearer bc with
  | Some (servedRadioBearer_PR_drb_Identity id) =>
      u ← set_lcid u (logicalChannelIdentity bc) (NR_RLC_DRB id);
      let L := put_rlc_ue L n u in
      old ← get_slot u (Drb (drb_id - 1));
      match old with
      | Some _ => Ret L
      | None =>
          e ← entity;
          let '(L, rb) := alloc_rb L e None in
          u ← nr_rlc_ue_add_drb_rlc_entity u drb_id rb;
          Ret (put_rlc_ue L n u)
      end
  | _ => Exit
  end.

Definition add_drb_am (L : rlc_layer) (ue_id drb_id : Z) (bc : NR_RLC_BearerConfig_t) : outcome rlc_layer :=
  if negb ((0 <? drb_id) && (drb_id <=? RLC_MAX_DRBS_PER_UE)) then Exit
  else
    r ← deref_ptr (rlc_Config bc);
    match r with
    | NR_RLC_Config_PR_am ul dl => c ← read_am ul dl; add_drb L ue_id drb_id bc (new_am c)
    | _ => Exit
    end.

Definition add_drb_um (L : rlc_layer) (ue_id drb_id : Z) (bc : NR_RLC_BearerConfig_t) : outcome rlc_layer :=
  if negb ((0 <? drb_id) && (drb_id <=? RLC_MAX_DRBS_PER_UE)) then Exit
  else
    r ← deref_ptr (rlc_Config bc);
    match r with
    | NR_RLC_Config_PR_um_Bi_Directional ul_sn dl =>
        '(t_reassembly, sn_field_length) ← read_um ul_sn dl;
        add_drb L ue_id drb_id bc
          (EntityUm <$> new_nr_rlc_entity_um RLC_RX_MAXSIZE RLC_TX_MAXSIZE t_reassembly sn_field_length)
    | _ => Exit
    end.

Definition nr_rlc_add_drb (L : rlc_layer) (ue_id drb_id : Z) (bc : NR_RLC_BearerConfig_t) : outcome rlc_layer :=
  r ← deref_ptr (rlc_Config bc);
  match r with
  | NR_RLC_Config_PR_am _ _ => add_drb_am L ue_id drb_id bc
  | NR_RLC_Config_PR_um_Bi_Directional _ _ => add_drb_um L ue_id drb_id bc
  | _ => Exit
  end.

Definition nr_rlc_activate_srb0 (L : rlc_layer) (ue_id data handler : Z) : outcome (bool * rlc_layer) :=
  let '(L, n, u) := nr_rlc_manager_get_ue L ue_id in
  match ru_srb0 u with
  | Some _ => Ret (false, L)
  | None =>
      e ← new_nr_rlc_entity_tm 10000;
      let '(L, rb) := alloc_rb L (EntityTm e) (Some (mk_srb0_data ue_id data handler)) in
      u ← nr_rlc_ue_add_srb_rlc_entity u 0 rb;
      Ret (true, put_rlc_ue L n u)
  end.

Definition all_null (a : list (option rlc_rb)) : bool :=
  forallb (fun s => match s with None => true | Some _ => false end) a.

(** only the removal of a bearer is supported; a UE whose first two SRBs and all
    DRBs are gone is removed *)
Definition rrc_rlc_config_req (L : rlc_layer) (ctxt : protocol_ctxt_t) (srb_flag mbms_flag action_is_remove : bool)
    (rb_id : Z) : outcome rlc_layer :=
  if mbms_flag then Exit
  else if negb action_is_remove then Exit
  else if negb (module_id ctxt =? 0) then Exit
  else if (if srb_flag then negb ((1 <=? rb_id) && (rb_id <=? 2))
           else negb ((1 <=? rb_id) && (rb_id <=? RLC_MAX_DRBS_PER_UE))) then Exit
  else
    let ue_id := s32 (rntiMaybeUEid ctxt) in
    let '(L, n, u) := nr_rlc_manager_get_ue L ue_id in
    '(L, u) ← release_slot L n u (if srb_flag then Srb (rb_id - 1) else Drb (rb_id - 1));
    if all_null (take 2 (ru_srb u)) && all_null (ru_drb u) then nr_rlc_manager_remove_ue L ue_id
    else Ret L.

Definition nr_rlc_remove_ue (L : rlc_layer) (ue_id : Z) : outcome rlc_layer := nr_rlc_manager_remove_ue L ue_id.

Definition rrc_rlc_remove_ue (L : rlc_layer) (x : protocol_ctxt_t) : outcome rlc_layer :=
  nr_rlc_remove_ue L (s32 (rntiMaybeUEid x)).

(** the UE gets another identity and its SRB 1 starts anew *)
Definition nr_rlc_update_id (L : rlc_layer) (from_id to_id : Z) : outcome rlc_layer :=
  let '(L, n, u) := nr_rlc_manager_get_ue L from_id in
  let u := u <| ru_ue_id := to_id |> in
  let L := put_rlc_ue L n u in
  rb ← get_slot u (Srb 0);
  match rb with
  | None => Ret L
  | Some rb => e ← reestablishment (re_entity rb); finish_rb L n u (Srb 0) rb e
  end.

Definition nr_rlc_test_trigger_reestablishment (L : rlc_layer) (ue_id : Z) : outcome rlc_layer :=
  let '(L, n, u) := nr_rlc_manager_get_ue L ue_id in
  rb ← (get_slot u (Srb 0) ≫= deref_ptr);
  e ← reestablishment (re_entity rb);
  L ← finish_rb L n u (Srb 0) rb e;
  let '(L, n, u) := nr_rlc_manager_get_ue L ue_id in
  rb ← (get_slot u (Drb 0) ≫= deref_ptr);
  e ← reestablishment (re_entity rb);
  finish_rb L n u (Drb 0) rb e.

(** ** Statistics *)

Definition nr_rlc_activate_avg_time_to_tx (L : rlc_layer) (ue_id channel_id : Z) (is_on : bool) : outcome rlc_layer :=
  let '(L, n, u) := nr_rlc_manager_get_ue L ue_id in
  let s := if (1 <=? channel_id) && (channel_id <=? 3) then Some (Srb (channel_id - 1))
           else if (4 <=? channel_id) && (channel_id <=? 8) then Some (Drb (channel_id - 4))
           else None in
  match s with
  | None => Ret L
  | Some s =>
      rb ← get_slot u s;
      match rb with
      | None => Ret L
      | Some rb =>
          finish_rb L n u s rb
            (upd_common (fun c => c <| avg_time_is_on := is_on |> <| txsdu_avg_time_to_tx ::= time_average_reset |>)
               (re_entity rb))
      end
  end.

Definition nr_rlc_get_statistics (L : rlc_layer) (ue_id : Z) (srb_flag : bool) (rb_id time_now : Z)
    : outcome (option nr_rlc_statistics_t * rlc_layer) :=
  let '(L, n, u) := nr_rlc_manager_get_ue L ue_id in
  r ← get_rb u srb_flag rb_id 2 5;
  match r with
  | None => Ret (None, L)
  | Some (s, rb) =>
      '(out, e) ← nr_rlc_entity_get_stats (re_entity rb) time_now;
      b ← buffer_status e (1000 * 1000);
      L ← finish_rb L n u s rb e;
      Ret (Some (out <| rxbuf_occ_bytes := u32 (bs_status_size b) |>
                     <| txbuf_occ_bytes := u32 (bs_tx_size b + bs_retx_size b) |>), L)
  end.

(** ** The calls into the layer *)

Inductive rlc_op :=
| MacDataInd (ue_id eNB_index MBMS_flag channel_id : Z) (buffer : list Z)
| MacDataReq (ue_id channel_id : Z) (buffer : list Z) (time_now : Z)
| MacStatusInd (ue_id channel_id : Z)
| MacBufferOccupancy (ue_id frame subframe enb_flag channel_id : Z)
| RlcDataReq (ctxt : protocol_ctxt_t) (srb_flag : bool) (rb_id mui : Z) (sdu : list Z) (time_now : Z)
| SrbRecvSdu (ue_id channel_id : Z) (buf : list Z) (time_now : Z)
| AvailableTxSpace (ue_id channel_id : Z)
| LcidFromRb (ue_id : Z) (is_srb : bool) (rb_id : Z)
| Tick (frame subframe : Z)
| SetRlfHandler (ue_id : Z) (h : option Z)
| AddSrb (ue_id srb_id : Z) (bc : NR_RLC_BearerConfig_t)
| AddDrb (ue_id drb_id : Z) (bc : NR_RLC_BearerConfig_t)
| ActivateSrb0 (ue_id data handler : Z)
| ReestablishEntity (ue_id lc_id : Z)
| ReconfigureEntity (ue_id lc_id : Z) (c : option NR_RLC_Config_t)
| ReleaseEntity (ue_id channel_id : Z)
| ConfigReq (ctxt : protocol_ctxt_t) (srb_flag mbms_flag action_is_remove : bool) (rb_id : Z)
| RemoveUe (ue_id : Z)
| UpdateId (from_id to_id : Z)
| TestReestablishment (ue_id : Z)
| ActivateAvgTime (ue_id channel_id : Z) (is_on : bool)
| GetStatistics (ue_id : Z) (srb_flag : bool) (rb_id time_now : Z).

Definition rlc_step (L : rlc_layer) (op : rlc_op) : outcome rlc_layer :=
  match op with
  | MacDataInd ue enb mbms ch b => mac_rlc_data_ind L ue enb mbms ch b
  | MacDataReq ue ch b t => '(_, L, _) ← mac_rlc_data_req L ue ch b t; Ret L
  | MacStatusInd ue ch => '(_, L) ← mac_rlc_status_ind L ue ch; Ret L
  | MacBufferOccupancy ue f sf enb ch => '(_, L) ← mac_rlc_get_buffer_occupancy_ind L ue f sf enb ch; Ret L
  | RlcDataReq ctxt srb rb mui sdu t => rlc_data_req L ctxt srb rb mui sdu t
  | SrbRecvSdu ue ch b t => nr_rlc_srb_recv_sdu L ue ch b t
  | AvailableTxSpace ue ch => '(_, L) ← nr_rlc_get_available_tx_space L ue ch; Ret L
  | LcidFromRb ue srb rb => Ret (nr_rlc_get_lcid_from_rb L ue srb rb).2
  | Tick f sf => Ret (nr_rlc_tick L f sf)
  | SetRlfHandler ue h => Ret (nr_rlc_set_rlf_handler L ue h)
  | AddSrb ue srb bc => nr_rlc_add_srb L ue srb bc
  | AddDrb ue drb bc => nr_rlc_add_drb L ue drb bc
  | ActivateSrb0 ue d h => '(_, L) ← nr_rlc_activate_srb0 L ue d h; Ret L
  | ReestablishEntity ue lc => nr_rlc_reestablish_entity L ue lc
  | ReconfigureEntity ue lc c => nr_rlc_reconfigure_entity L ue lc c
  | ReleaseEntity ue ch => nr_rlc_release_entity L ue ch
  | ConfigReq ctxt srb mbms rm rb => rrc_rlc_config_req L ctxt srb mbms rm rb
  | RemoveUe ue => nr_rlc_remove_ue L ue
  | UpdateId a b => nr_rlc_update_id L a b
  | TestReestablishment ue => nr_rlc_test_trigger_reestablishment L ue
  | ActivateAvgTime ue ch on => nr_rlc_activate_avg_time_to_tx L ue ch on
  | GetStatistics ue srb rb t => '(_, L) ← nr_rlc_get_statistics L ue srb rb t; Ret L
  end.

Fixpoint rlc_run (L : rlc_layer) (ops : list rlc_op) : outcome rlc_layer :=
  match ops with
  | [] => Ret L
  | op :: ops => L ← rlc_step L op; rlc_run L ops
  end.
End layer.
