(* ===== verification/RlcUeSpec.v ===== *)
(** The table of UEs and entities of the RLC layer: the slots keep their shape,
    every entity that was created is in one slot or has been deleted once, and the
    calls for one UE leave the others alone.

    The lemmas are stated for an invariant [P] of the entities and for two readings
    of a call at once ([spec]): what holds if it completes, and that it does not
    run into undefined behaviour. *)

From stdpp Require Import base tactics list numbers gmap.
From Stdlib Require Import ZArith Lia.
From S2P Require Import Prelude TimeStat RlcSdu RlcEntity DataQueue RlcConfig RlcAny RlcUe.

(** ** Partial correctness and safety

    [exit] is always allowed; undefined behaviour only if [safe] is not asked for. *)
Definition spec {A} (safe : bool) (c : outcome A) (Q : A -> Prop) : Prop :=
  match c with Ret a => Q a | Exit => True | Undef | Diverge => safe = false end.

Section spec.
Context {A B : Type} (safe : bool).

Lemma spec_Ret (a : A) (Q : A -> Prop) : Q a -> spec safe (Ret a) Q.
Proof. done. Qed.

Lemma spec_bind (c : outcome A) (k : A -> outcome B) (Q : A -> Prop) (R : B -> Prop) :
  spec safe c Q -> (forall a, c = Ret a -> Q a -> spec safe (k a) R) -> spec safe (c ≫= k) R.
Proof. destruct c; cbn; auto. Qed.

Lemma spec_bind_inv (c : outcome A) (k : A -> outcome B) (R : B -> Prop) :
  spec safe (c ≫= k) R -> spec safe c (fun a => spec safe (k a) R).
Proof. by destruct c. Qed.

Lemma spec_mono (c : outcome A) (Q R : A -> Prop) : spec safe c Q -> (forall a, Q a -> R a) -> spec safe c R.
Proof. destruct c; cbn; auto. Qed.

Lemma spec_fmap (c : outcome A) (f : A -> B) (R : B -> Prop) :
  spec safe c (fun a => R (f a)) -> spec safe (f <$> c) R.
Proof. by destruct c. Qed.

Lemma spec_returns (c : outcome A) (Q : A -> Prop) : returns c Q -> spec safe c Q.
Proof. by intros (a & -> & H). Qed.

(** only partial correctness is asked for *)
Lemma spec_partial (c : outcome A) (Q : A -> Prop) : safe = false -> (forall a, c = Ret a -> Q a) -> spec safe c Q.
Proof. intros -> H. destruct c; cbn; auto. Qed.

Lemma spec_inv (c : outcome A) (Q : A -> Prop) a : spec safe c Q -> c = Ret a -> Q a.
Proof. by intros H ->. Qed.
End spec.

(** runs the goal to the next bind *)
Ltac spec_step Q := eapply (spec_bind _ _ _ Q).

(** ** Invariant of the table *)

Definition slot_addrs (l : list (option rlc_rb)) : list Z := omap (fun s => re_addr <$> s) l.
Definition live_ue (u : nr_rlc_ue_t) : list Z :=
  option_list (re_addr <$> ru_srb0 u) ++ slot_addrs (ru_srb u) ++ slot_addrs (ru_drb u).
Definition live (l : list nr_rlc_ue_t) : list Z := flat_map live_ue l.

(** the first UE with this identity *)
Fixpoint ue_of (l : list nr_rlc_ue_t) (id : Z) : option nr_rlc_ue_t :=
  match l with
  | [] => None
  | u :: l => if ru_ue_id u =? id then Some u else ue_of l id
  end.

Definition others_kept (ids : list Z) (L L' : rlc_layer) : Prop :=
  forall id, id ∉ ids -> ue_of (rl_ue_list L') id = ue_of (rl_ue_list L) id.

Definition clear_events (e : rlc_entity) : rlc_entity := upd_common (fun c => c <| events := [] |>) e.

(** the kind of entity a slot holds: transparent mode with a callback of its own
    for SRB 0, acknowledged mode for the SRBs, no transparent mode for the DRBs *)
Definition kind_ok (s : slot_id) (rb : rlc_rb) : Prop :=
  match s with
  | Srb0 => entity_mode (re_entity rb) = NR_RLC_TM /\ is_Some (re_srb0 rb)
  | Srb _ => entity_mode (re_entity rb) = NR_RLC_AM /\ re_srb0 rb = None
  | Drb _ => entity_mode (re_entity rb) <> NR_RLC_TM /\ re_srb0 rb = None
  end.

(** a logical channel leads to a slot that exists *)
Definition lcid_ok (r : nr_rlc_rb_t) : Prop :=
  match r with NR_RLC_NONE => True | NR_RLC_SRB id => 1 <= id <= 3 | NR_RLC_DRB id => 1 <= id <= 32 end.

Section table.
Context (safe : bool) (P : Z -> rlc_entity -> Prop).

Record rb_ok (s : slot_id) (rb : rlc_rb) : Prop := {
  rk_kind : kind_ok s rb;
  rk_events : events (entity_common (re_entity rb)) = [];
  rk_inv : P (re_addr rb) (re_entity rb)
}.

Record rlc_ue_ok (u : nr_rlc_ue_t) : Prop := {
  uo_srb : length (ru_srb u) = 3%nat;
  uo_drb : length (ru_drb u) = 32%nat;
  uo_lcid : length (ru_lcid2rb u) = 32%nat;
  uo_map : safe = true -> Forall lcid_ok (ru_lcid2rb u);
  uo_slots : forall s rb, get_slot u s = Ret (Some rb) -> rb_ok s rb
}.

Record rlc_layer_ok (L : rlc_layer) : Prop := {
  lo_ues : Forall rlc_ue_ok (rl_ue_list L);
  lo_next : 0 <= rl_next_entity L;
  lo_alloc : live (rl_ue_list L) ++ rl_deleted L ≡ₚ seqZ 0 (rl_next_entity L)
}.

Lemma rd_slot_Ret {A} (a : list A) i x : rd_slot a i = Ret x <-> 0 <= i /\ a !! Z.to_nat i = Some x.
Proof.
  unfold rd_slot. destruct (Z.ltb_spec i 0); [split; [done|lia]|].
  destruct (a !! Z.to_nat i); split; try done; [by intros [= ->]|by intros [_ [= ->]]|by intros [_ ?]].
Qed.

Lemma new_ue_empty id s rb : get_slot (new_rlc_ue id) s <> Ret (Some rb).
Proof.
  intros H. destruct s as [|i|i]; [done| |]; apply rd_slot_Ret in H as [_ H]; apply lookup_replicate_1 in H as [? _]; done.
Qed.

Lemma new_rlc_ue_ok id : rlc_ue_ok (new_rlc_ue id).
Proof.
  constructor; [done..|by intros; apply Forall_replicate|]. intros s rb H. by apply new_ue_empty in H.
Qed.

(** ** The list of UEs *)

Lemma find_ue_lookup l id n : find_rlc_ue l id = Some n -> exists u, l !! n = Some u /\ ru_ue_id u = id /\ ue_of l id = Some u.
Proof.
  revert n. induction l as [|u l IH]; intros n H; simpl in *; [done|]. destruct (Z.eqb_spec (ru_ue_id u) id).
  - injection H as <-. by exists u.
  - destruct (find_rlc_ue l id) as [m|]; [|done]. injection H as <-. by apply IH.
Qed.

Lemma find_ue_None l id : find_rlc_ue l id = None -> ue_of l id = None.
Proof. induction l as [|u l IH]; simpl; [done|]. destruct (_ =? _); [done|]. destruct (find_rlc_ue l id); [done|auto]. Qed.

Lemma find_ue_insert l id n u' : find_rlc_ue l id = Some n -> ru_ue_id u' = id -> find_rlc_ue (<[n := u']> l) id = Some n.
Proof.
  revert n. induction l as [|u l IH]; intros n H Hid; simpl in *; [done|]. destruct (Z.eqb_spec (ru_ue_id u) id).
  - injection H as <-. simpl. by rewrite Hid, Z.eqb_refl.
  - destruct (find_rlc_ue l id) as [m|]; [|done]. injection H as <-. simpl.
    rewrite (proj2 (Z.eqb_neq _ _)) by done. by rewrite (IH m).
Qed.

Lemma ue_of_insert l n u u' id : l !! n = Some u -> id <> ru_ue_id u -> id <> ru_ue_id u' -> ue_of (<[n := u']> l) id = ue_of l id.
Proof.
  revert n. induction l as [|v l IH]; intros n H H1 H2; [done|]. destruct n as [|n]; simpl in *.
  - injection H as ->. by rewrite !(proj2 (Z.eqb_neq _ _)) by congruence.
  - by rewrite (IH n).
Qed.

Lemma ue_of_app l u id : id <> ru_ue_id u -> ue_of (l ++ [u]) id = ue_of l id.
Proof.
  intros H. induction l as [|v l IH]; simpl; [by rewrite (proj2 (Z.eqb_neq _ _)) by congruence|]. by rewrite IH.
Qed.

Lemma find_ue_app l u id : find_rlc_ue l id = None -> ru_ue_id u = id -> find_rlc_ue (l ++ [u]) id = Some (length l).
Proof.
  intros H Hid. induction l as [|v l IH]; simpl in *; [by rewrite Hid, Z.eqb_refl|].
  destruct (_ =? _); [done|]. destruct (find_rlc_ue l id); [done|]. by rewrite IH.
Qed.

Lemma ue_of_remove l n u id : l !! n = Some u -> id <> ru_ue_id u -> ue_of (take n l ++ drop (S n) l) id = ue_of l id.
Proof.
  revert n. induction l as [|v l IH]; intros n H Hid; [done|]. destruct n as [|n]; simpl in *.
  - injection H as ->. rewrite drop_0. by rewrite (proj2 (Z.eqb_neq _ _)) by congruence.
  - by rewrite (IH n).
Qed.

Lemma live_insert l n u u' : l !! n = Some u -> live_ue u ++ live (<[n := u']> l) ≡ₚ live_ue u' ++ live l.
Proof.
  revert n. induction l as [|v l IH]; intros n H; [done|]. destruct n as [|n]; simpl in *.
  - injection H as ->. solve_Permutation.
  - specialize (IH n H). rewrite !(Permutation_app_swap_app _ (live_ue v)), IH. done.
Qed.

Lemma live_remove l n u : l !! n = Some u -> live l ≡ₚ live_ue u ++ live (take n l ++ drop (S n) l).
Proof.
  revert n. induction l as [|v l IH]; intros n H; [done|]. destruct n as [|n]; simpl in *.
  - injection H as ->. by rewrite drop_0.
  - specialize (IH n H). rewrite IH. apply Permutation_app_swap_app.
Qed.

(** ** Where a call finds its UE *)

(** position [n] of the table is the one [id] is found at, and holds [u] *)
Record at_ue (L : rlc_layer) (id : Z) (n : nat) (u : nr_rlc_ue_t) : Prop := {
  au_find : find_rlc_ue (rl_ue_list L) id = Some n;
  au_lookup : rl_ue_list L !! n = Some u
}.

Lemma at_ue_id L id n u : at_ue L id n u -> ru_ue_id u = id.
Proof. intros [H1 H2]. destruct (find_ue_lookup _ _ _ H1) as (v & Hv & Hid & _). by simplify_eq. Qed.

Lemma at_ue_ok L id n u : rlc_layer_ok L -> at_ue L id n u -> rlc_ue_ok u.
Proof. intros [H _ _] [_ Hl]. rewrite Forall_lookup in H. by eapply H. Qed.

Lemma rlc_get_ue_ok L id L1 n u : rlc_layer_ok L -> nr_rlc_manager_get_ue L id = (L1, n, u) ->
  rlc_layer_ok L1 /\ others_kept [id] L L1 /\ at_ue L1 id n u /\
  (forall m v, at_ue L id m v -> L1 = L /\ n = m /\ u = v).
Proof.
  intros H Hg. unfold nr_rlc_manager_get_ue in Hg. destruct (find_rlc_ue (rl_ue_list L) id) as [m|] eqn:E.
  - destruct (find_ue_lookup _ _ _ E) as (v & Hv & Hid & _). rewrite Hv in Hg. simplify_eq.
    split_and!; try done. intros m' v' [E1 E2]. by simplify_eq.
  - simplify_eq. destruct H as [H1 H2 H3]. split_and!.
    + constructor; simpl; [|done|].
      * apply Forall_app. split; [done|]. constructor; [apply new_rlc_ue_ok|constructor].
      * rewrite <- H3. unfold live. rewrite flat_map_app. simpl. by rewrite app_nil_r.
    + intros id' Hid. apply not_elem_of_cons in Hid as [Hid _]. by apply ue_of_app.
    + constructor; simpl; [by apply find_ue_app|]. by rewrite list_lookup_middle.
    + intros m v [E1 _]. congruence.
Qed.

(** a UE of the table is replaced; [gone] and [fresh] are the addresses it loses
    and gains *)
Lemma rlc_put_ue_ok L L' id n u u' gone fresh :
  rlc_layer_ok L -> at_ue L id n u -> rlc_ue_ok u' -> rl_ue_list L' = <[n := u']> (rl_ue_list L) ->
  rl_deleted L' = rl_deleted L ++ gone -> 0 <= rl_next_entity L' ->
  seqZ 0 (rl_next_entity L') ≡ₚ fresh ++ seqZ 0 (rl_next_entity L) -> live_ue u' ++ gone ≡ₚ fresh ++ live_ue u ->
  rlc_layer_ok L' /\ others_kept [id; ru_ue_id u'] L L' /\ (ru_ue_id u' = id -> at_ue L' id n u').
Proof.
  intros [H1 H2 H3] Hat Hu Hl Hd Hn Hs Hlive. pose proof (at_ue_id _ _ _ _ Hat) as Hid. destruct Hat as [Hf Hlk].
  split_and!.
  - constructor; [|done|].
    + rewrite Hl. by apply Forall_insert.
    + rewrite Hl, Hd, Hs, <- H3. pose proof (live_insert _ _ _ u' Hlk) as Hp.
      apply (Permutation_app_inv_l (live_ue u)). rewrite app_assoc, Hp.
      transitivity ((live_ue u' ++ gone) ++ live (rl_ue_list L) ++ rl_deleted L); [solve_Permutation|].
      rewrite Hlive. solve_Permutation.
  - intros id' Hne. rewrite !not_elem_of_cons in Hne. destruct Hne as (Hne1 & Hne2 & _). rewrite Hl.
    eapply ue_of_insert; [done|congruence|done].
  - intros Hid'. constructor; rewrite Hl; [by apply find_ue_insert|]. apply list_lookup_insert_eq. by eapply lookup_lt_Some.
Qed.

Lemma put_put L n u u' : put_rlc_ue (put_rlc_ue L n u) n u' = put_rlc_ue L n u'.
Proof.
  transitivity (L <| rl_ue_list := <[n := u']> (<[n := u]> (rl_ue_list L)) |>); [done|]. by rewrite list_insert_insert_eq.
Qed.

Lemma set_slot_id u s rb : ru_ue_id (set_slot u s rb) = ru_ue_id u.
Proof. by destruct s. Qed.

Lemma get_set_slot u s old rb s' rb' : get_slot u s = Ret old -> get_slot (set_slot u s rb) s' = Ret (Some rb') ->
  (s' = s /\ rb = Some rb') \/ get_slot u s' = Ret (Some rb').
Proof.
  intros Ho H. destruct s as [|i|i], s' as [|j|j]; try (by right); simpl in *; [left; by simplify_eq|..];
    apply rd_slot_Ret in Ho as [Hi Ho]; apply rd_slot_Ret in H as [Hj H];
    apply list_lookup_insert_Some in H as [(E & -> & _)|[_ H]];
    solve [left; split; [f_equal; lia|done]|right; by apply rd_slot_Ret].
Qed.

Lemma get_slot_set u s old rb : get_slot u s = Ret old -> get_slot (set_slot u s rb) s = Ret rb.
Proof.
  intros Ho. destruct s as [|i|i]; simpl in *; [done|..]; apply rd_slot_Ret in Ho as [Hi Ho]; apply rd_slot_Ret;
    (split; [done|]); apply list_lookup_insert_eq; by eapply lookup_lt_Some.
Qed.

Lemma rlc_set_slot_ok u s old rb : rlc_ue_ok u -> get_slot u s = Ret old -> (forall r, rb = Some r -> rb_ok s r) ->
  rlc_ue_ok (set_slot u s rb).
Proof.
  intros [H1 H2 H3 Hm H4] Ho Hr. constructor.
  - destruct s; simpl; [done|by rewrite length_insert|done].
  - destruct s; simpl; [done|done|by rewrite length_insert].
  - by destruct s.
  - by destruct s.
  - intros s' rb' H. destruct (get_set_slot _ _ _ _ _ _ Ho H) as [[-> ->]|H']; auto.
Qed.

Lemma rlc_live_set u s old rb : get_slot u s = Ret old ->
  option_list (re_addr <$> old) ++ live_ue (set_slot u s rb) ≡ₚ option_list (re_addr <$> rb) ++ live_ue u.
Proof.
  intros Ho. unfold live_ue, slot_addrs. destruct s as [|i|i]; simpl in *.
  - simplify_eq. solve_Permutation.
  - apply rd_slot_Ret in Ho as [_ Ho]. pose proof (omap_insert (fun s : option rlc_rb => re_addr <$> s) _ _ _ rb Ho) as Hp.
    rewrite !(Permutation_app_swap_app _ (option_list (re_addr <$> ru_srb0 u))), !app_assoc, <- !app_assoc.
    rewrite (app_assoc _ (omap _ (<[_ := _]> _))), Hp. by rewrite <- app_assoc.
  - apply rd_slot_Ret in Ho as [_ Ho]. pose proof (omap_insert (fun s : option rlc_rb => re_addr <$> s) _ _ _ rb Ho) as Hp.
    rewrite !(Permutation_app_swap_app _ (option_list (re_addr <$> ru_srb0 u))).
    rewrite !(Permutation_app_swap_app _ (omap _ (ru_srb u))), Hp. done.
Qed.

(** the entity of a slot is replaced, its address kept *)
Lemma put_slot_ok L id n u s rb rb' :
  rlc_layer_ok L -> at_ue L id n u -> get_slot u s = Ret (Some rb) -> re_addr rb' = re_addr rb -> rb_ok s rb' ->
  let u' := set_slot u s (Some rb') in
  rlc_layer_ok (put_rlc_ue L n u') /\ others_kept [id] L (put_rlc_ue L n u') /\ at_ue (put_rlc_ue L n u') id n u'.
Proof.
  intros H Hat Hs Ha Hrb u'. pose proof (at_ue_id _ _ _ _ Hat) as Hid.
  assert (Hid' : ru_ue_id u' = id) by (unfold u'; by rewrite set_slot_id).
  destruct (rlc_put_ue_ok L (put_rlc_ue L n u') id n u u' [] []) as (H1 & H2 & H3); try done.
  - eapply rlc_set_slot_ok; [by eapply at_ue_ok|done|]. by intros r [= <-].
  - simpl. by rewrite app_nil_r.
  - apply (lo_next _ H).
  - pose proof (rlc_live_set u s (Some rb) (Some rb') Hs) as Hp. simpl in Hp. rewrite Ha in Hp.
    apply Permutation_cons_inv in Hp. by rewrite app_nil_r.
  - split_and!; [done| |by apply H3]. intros id' Hne. apply H2. rewrite Hid'. rewrite !not_elem_of_cons in *. tauto.
Qed.

(** only the calls and the clock change *)
Definition same_table (L L' : rlc_layer) : Prop :=
  rl_ue_list L' = rl_ue_list L /\ rl_next_entity L' = rl_next_entity L /\ rl_deleted L' = rl_deleted L.

Lemma same_table_ok L L' : same_table L L' -> rlc_layer_ok L -> rlc_layer_ok L'.
Proof. intros (E1 & E2 & E3) [H1 H2 H3]. constructor; by rewrite ?E1, ?E2, ?E3. Qed.

Lemma same_table_others ids L L' : same_table L L' -> others_kept ids L L'.
Proof. intros (E1 & _) id _. by rewrite E1. Qed.

Lemma same_table_at L L' id n u : same_table L L' -> at_ue L id n u -> at_ue L' id n u.
Proof. intros (E1 & _) [H1 H2]. constructor; by rewrite E1. Qed.

Lemma rlc_others_kept_trans ids L1 L2 L3 : others_kept ids L1 L2 -> others_kept ids L2 L3 -> others_kept ids L1 L3.
Proof. intros H1 H2 id Hne. by rewrite H2, H1. Qed.

(** ** Callbacks *)

(** a lookup in the F1 table finds the UE or stops the program *)
Definition node_ok (node : rlc_node) : Prop := forall id, spec true (rn_secondary_ue node id) (fun _ => True).

Definition is_deliver (ev : rlc_event) : Prop := match ev with DeliverSdu _ => True | _ => False end.

Lemma callback_ok node L u rb ev : (safe = true -> is_Some (re_srb0 rb) -> is_deliver ev) ->
  (safe = true -> node_ok node) ->
  spec safe (callback node L u rb ev) (same_table L).
Proof.
  intros Hev Hn. unfold callback. destruct ev as [buf|id|], (re_srb0 rb) as [s0|]; try done.
  - unfold deliver_sdu. destruct (find_bearer u 3 (re_addr rb)) as [[f r]|]; [|done].
    spec_step (fun _ : Z => True).
    + destruct (rl_enb_flag L); [|done]. destruct safe; [by apply Hn|]. by destruct (rn_secondary_ue node _).
    + intros a _ _. repeat case_match; done.
  - destruct safe; [|done]. destruct (Hev eq_refl); eauto.
  - unfold successful_delivery. by case_match.
  - destruct safe; [|done]. destruct (Hev eq_refl); eauto.
  - unfold max_retx_reached. repeat case_match; done.
Qed.

Lemma same_table_trans L1 L2 L3 : same_table L1 L2 -> same_table L2 L3 -> same_table L1 L3.
Proof. intros (? & ? & ?) (? & ? & ?). split_and!; congruence. Qed.

Lemma callbacks_ok node evs : forall L u rb,
  (safe = true -> node_ok node) ->
  (safe = true -> is_Some (re_srb0 rb) -> Forall is_deliver evs) -> spec safe (callbacks node L u rb evs) (same_table L).
Proof.
  induction evs as [|ev evs IH]; intros L u rb Hn Hev; [done|]. cbn [callbacks].
  spec_step (same_table L).
  - apply callback_ok; [|done]. intros E1 E2. specialize (Hev E1 E2). by inversion Hev.
  - intros L1 _ H1. eapply spec_mono; [apply IH; [done|]|].
    + intros E1 E2. specialize (Hev E1 E2). by inversion Hev.
    + intros L2 H2. by eapply same_table_trans.
Qed.
End table.
