(* ===== verification/RlcLayer.v ===== *)
(** The calls into the RLC layer in any order: the table of UEs and entities keeps
    its invariant, no entity is leaked or deleted twice, a call for one UE leaves
    the others alone, and a layer whose entities keep their invariant never runs
    into undefined behaviour. *)

From stdpp Require Import base tactics list numbers gmap.
From Stdlib Require Import ZArith Lia.
From S2P Require Import Prelude TimeStat RlcSdu RlcEntity RlcAmState RlcUm RlcTm DataQueue RlcConfig RlcAny RlcUe RlcUeSpec.

(** ** What a call asks of an entity *)

Section entities.
Context (safe : bool) (P : Z -> rlc_entity -> Prop) (node : rlc_node).

(** an operation has turned the entity of [rb] into [e] *)
Record entity_after (rb : rlc_rb) (e : rlc_entity) : Prop := {
  ea_mode : entity_mode e = entity_mode (re_entity rb);
  ea_inv : P (re_addr rb) e;
  ea_events : safe = true -> entity_mode e = NR_RLC_TM -> Forall is_deliver (events (entity_common e))
}.

(** the UE of a call is looked up, then an entity of it, which does [f] *)
Definition on_target (L : rlc_layer) (id : Z) (get : nr_rlc_ue_t -> outcome (option (slot_id * rlc_rb)))
    (f : rlc_entity -> outcome rlc_entity) : Prop :=
  forall L1 n u, nr_rlc_manager_get_ue L id = (L1, n, u) ->
    spec safe (get u) (fun r => forall s rb, r = Some (s, rb) -> spec safe (f (re_entity rb)) (entity_after rb)).

(** a new entity at the next address *)
Definition new_ok (L : rlc_layer) (mode : nr_rlc_mode_t -> Prop) (c : outcome rlc_entity) : Prop :=
  spec safe c (fun e => P (rl_next_entity L) e /\ mode (entity_mode e) /\ events (entity_common e) = []).

Definition by_lcid (ch : Z) (u : nr_rlc_ue_t) : outcome (option (slot_id * rlc_rb)) := get_rlc_entity_from_lcid u ch.

Definition by_slot (s : slot_id) (u : nr_rlc_ue_t) : outcome (option (slot_id * rlc_rb)) :=
  rb ← get_slot u s; Ret (in_slot s rb).

Definition with_time (L : rlc_layer) (f : rlc_entity -> outcome rlc_entity) (e : rlc_entity) : outcome rlc_entity :=
  e ← set_time e (rl_current_time L); f e.

Definition pdu_effect (b : list Z) (t : Z) (e : rlc_entity) : outcome rlc_entity :=
  '(_, e, _) ← generate_pdu e b t; Ret e.

Definition status_effect (e : rlc_entity) : outcome rlc_entity := _ ← buffer_status e (1000 * 1000); Ret e.

Definition stats_effect (t : Z) (e : rlc_entity) : outcome rlc_entity :=
  '(_, e) ← nr_rlc_entity_get_stats e t; status_effect e.

Definition avg_effect (is_on : bool) (e : rlc_entity) : outcome rlc_entity :=
  Ret (upd_common (fun c => c <| avg_time_is_on := is_on |> <| txsdu_avg_time_to_tx ::= time_average_reset |>) e).

(** the slot [nr_rlc_activate_avg_time_to_tx] takes a logical channel for *)
Definition avg_slot (ch : Z) : option slot_id :=
  if (1 <=? ch) && (ch <=? 3) then Some (Srb (ch - 1))
  else if (4 <=? ch) && (ch <=? 8) then Some (Drb (ch - 4)) else None.

(** the configuration of a new bearer can be read, the logical channel exists,
    and the identity of the bearer it is mapped to too *)
Definition map_ok (lcid id max : Z) : Prop := safe = true -> 1 <= lcid <= 32 /\ 1 <= id <= max.

Definition am_of (bc : NR_RLC_BearerConfig_t) : outcome am_config :=
  match rlc_Config bc with Some (NR_RLC_Config_PR_am ul dl) => read_am ul dl | _ => Ret default_am_config end.

Definition add_srb_contract (L : rlc_layer) (bc : NR_RLC_BearerConfig_t) : Prop :=
  spec safe (am_of bc) (fun c => new_ok L (eq NR_RLC_AM) (new_am c)) /\
  forall id, servedRadioBearer bc = Some (servedRadioBearer_PR_srb_Identity id) -> map_ok (logicalChannelIdentity bc) id 3.

Definition add_drb_contract (L : rlc_layer) (bc : NR_RLC_BearerConfig_t) : Prop :=
  match rlc_Config bc with
  | Some (NR_RLC_Config_PR_am ul dl) => spec safe (read_am ul dl) (fun c => new_ok L (eq NR_RLC_AM) (new_am c))
  | Some (NR_RLC_Config_PR_um_Bi_Directional ul dl) =>
      spec safe (read_um ul dl) (fun '(t, sn) => new_ok L (eq NR_RLC_UM)
        (EntityUm <$> new_nr_rlc_entity_um RLC_RX_MAXSIZE RLC_TX_MAXSIZE t sn))
  | Some _ => True
  | None => safe = false
  end /\
  forall id, servedRadioBearer bc = Some (servedRadioBearer_PR_drb_Identity id) -> map_ok (logicalChannelIdentity bc) id 32.

(** what the layer relies on at a call *)
Definition op_contract (L : rlc_layer) (op : rlc_op) : Prop :=
  match op with
  | MacDataInd id _ _ ch b => on_target L id (by_lcid ch) (with_time L (fun e => recv_pdu e b))
  | MacDataReq id ch b t => on_target L id (by_lcid ch) (with_time L (pdu_effect b t))
  | MacStatusInd id ch => on_target L id (by_lcid ch) (with_time L status_effect)
  | MacBufferOccupancy id f sf _ ch =>
      on_target (nr_rlc_tick L f sf) id (by_lcid ch) (with_time (nr_rlc_tick L f sf) status_effect)
  | RlcDataReq ctxt srb rb mui sdu t =>
      on_target L (s32 (rntiMaybeUEid ctxt)) (fun u => get_rb u srb rb 2 RLC_MAX_DRBS_PER_UE)
        (with_time L (fun e => recv_sdu e sdu mui t))
  | SrbRecvSdu id ch b t =>
      on_target L id (by_slot (if ch =? 0 then Srb0 else Srb (ch - 1))) (with_time L (fun e => recv_sdu e b (-1) t))
  | AvailableTxSpace id ch => on_target L id (by_lcid ch) Ret
  | LcidFromRb _ _ _ | Tick _ _ | SetRlfHandler _ _ | RemoveUe _ => True
  | AddSrb id srb bc => add_srb_contract L bc
  | AddDrb id drb bc => add_drb_contract L bc
  | ActivateSrb0 id d h => new_ok L (eq NR_RLC_TM) (EntityTm <$> new_nr_rlc_entity_tm 10000)
  | ReestablishEntity id ch => on_target L id (by_lcid ch) reestablishment
  | ReconfigureEntity id ch c =>
      on_target L id (by_lcid ch) (fun e => reconfigured e c) /\
      (safe = true -> forall L1 n u, nr_rlc_manager_get_ue L id = (L1, n, u) -> by_lcid ch u <> Ret None)
  | ReleaseEntity id ch => on_target L id (by_lcid ch) Ret
  | ConfigReq _ _ _ _ _ => True
  | UpdateId a b => on_target L a (by_slot (Srb 0)) reestablishment
  | TestReestablishment id =>
      on_target L id (by_slot (Srb 0)) reestablishment /\ on_target L id (by_slot (Drb 0)) reestablishment /\
      (safe = true -> exists n u r r', at_ue L id n u /\ get_slot u (Srb 0) = Ret (Some r) /\ get_slot u (Drb 0) = Ret (Some r'))
  | ActivateAvgTime id ch on =>
      match avg_slot ch with Some s => on_target L id (by_slot s) (avg_effect on) | None => True end
  | GetStatistics id srb rb t => on_target L id (fun u => get_rb u srb rb 2 5) (stats_effect t)
  end.

(** the UEs a call is for *)
Definition op_ues (op : rlc_op) : list Z :=
  match op with
  | MacDataInd id _ _ _ _ | MacDataReq id _ _ _ | MacStatusInd id _ | MacBufferOccupancy id _ _ _ _
  | SrbRecvSdu id _ _ _ | AvailableTxSpace id _ | LcidFromRb id _ _ | SetRlfHandler id _ | AddSrb id _ _
  | AddDrb id _ _ | ActivateSrb0 id _ _ | ReestablishEntity id _ | ReconfigureEntity id _ _ | ReleaseEntity id _
  | RemoveUe id | TestReestablishment id | ActivateAvgTime id _ _ | GetStatistics id _ _ _ => [id]
  | RlcDataReq ctxt _ _ _ _ _ | ConfigReq ctxt _ _ _ _ => [s32 (rntiMaybeUEid ctxt)]
  | UpdateId a b => [a; b]
  | Tick _ _ => []
  end.

Definition upd (ids : list Z) (L L' : rlc_layer) : Prop := rlc_layer_ok safe P L' /\ others_kept ids L L'.

(** ** Calls that neither create nor delete entities *)

Context (Pev : forall a e, P a e -> P a (clear_events e)) (Hnode : safe = true -> node_ok node).
Context (Pdel : forall a e, P a e -> spec safe (delete_entity e) (fun _ => True)).

Lemma with_entity_ok s rb e : rb_ok P s rb -> entity_after rb e -> rb_ok P s (with_entity rb e).
Proof.
  intros [H1 H2 H3] [E1 E2 _]. constructor.
  - unfold kind_ok in *. simpl. destruct s; by rewrite upd_common_mode, E1.
  - by destruct e.
  - by apply Pev.
Qed.

Lemma finish_rb_ok L id n u s rb e :
  rlc_layer_ok safe P L -> at_ue L id n u -> get_slot u s = Ret (Some rb) -> entity_after rb e ->
  spec safe (finish_rb node L n u s rb e) (fun L' => upd [id] L L' /\ at_ue L' id n (set_slot u s (Some (with_entity rb e)))).
Proof.
  intros H Hat Hs He. pose proof (uo_slots _ _ _ (at_ue_ok safe P _ _ _ _ H Hat) _ _ Hs) as Hrb.
  destruct (put_slot_ok safe P L id n u s rb (with_entity rb e)) as (H1 & H2 & H3); try done; [by apply with_entity_ok|].
  unfold finish_rb. eapply spec_mono; [apply callbacks_ok; [done|]|].
  - intros E1 E2. apply (ea_events _ _ He E1). rewrite (ea_mode _ _ He). destruct Hrb as [Hk _ _]. unfold kind_ok in Hk.
    destruct s; [tauto|..]; destruct Hk as [_ Hk]; simpl in E2; rewrite Hk in E2; by destruct E2.
  - intros L' Hst. split; [split|].
    + by eapply same_table_ok.
    + eapply rlc_others_kept_trans; [done|by apply same_table_others].
    + by eapply same_table_at.
Qed.

(** a call that lets one entity work; [k] is what it does then *)
Lemma entity_call_ok {A} L id n u s rb (c : outcome rlc_entity) (k : rlc_layer -> outcome A) (Q : A -> Prop) :
  rlc_layer_ok safe P L -> at_ue L id n u -> get_slot u s = Ret (Some rb) -> spec safe c (entity_after rb) ->
  (forall L', upd [id] L L' -> spec safe (k L') Q) ->
  spec safe (e ← c; L' ← finish_rb node L n u s rb e; k L') Q.
Proof.
  intros H Hat Hs Hc Hk. spec_step (entity_after rb); [done|]. intros e _ He.
  eapply spec_bind; [by apply (finish_rb_ok L id n u s rb e)|]. intros L' _ [Hu _]. by apply Hk.
Qed.

Lemma bind_Ret_r {A} (c : outcome A) : c = a ← c; Ret a.
Proof. by destruct c. Qed.

Lemma entity_call_ok' L id n u s rb (c : outcome rlc_entity) :
  rlc_layer_ok safe P L -> at_ue L id n u -> get_slot u s = Ret (Some rb) -> spec safe c (entity_after rb) ->
  spec safe (e ← c; finish_rb node L n u s rb e) (upd [id] L).
Proof.
  intros H Hat Hs Hc. spec_step (entity_after rb); [done|]. intros e _ He.
  eapply spec_mono; [by apply (finish_rb_ok L id n u s rb e)|]. by intros L' [? _].
Qed.

(** what a lookup finds is in its slot *)
Definition finds (u : nr_rlc_ue_t) (r : option (slot_id * rlc_rb)) : Prop :=
  forall s rb, r = Some (s, rb) -> get_slot u s = Ret (Some rb).

Lemma in_slot_finds u s rb : get_slot u s = Ret rb -> finds u (in_slot s rb).
Proof. intros H s' rb' E. destruct rb; [|done]. by injection E as <- <-. Qed.

Lemma by_slot_finds s u r : by_slot s u = Ret r -> finds u r.
Proof. unfold by_slot. intros H. inv_bind H. injection H as <-. by apply in_slot_finds. Qed.

Lemma by_lcid_finds ch u r : by_lcid ch u = Ret r -> finds u r.
Proof.
  unfold by_lcid, get_rlc_entity_from_lcid. intros H. destruct (ch =? 0).
  { injection H as <-. by apply in_slot_finds. }
  inv_bind H. inv_bind H. destruct v0 as [s|]; [|by injection H as <-].
  inv_bind H. injection H as <-. by apply in_slot_finds.
Qed.

Lemma get_rb_finds u f rb m1 m2 r : get_rb u f rb m1 m2 = Ret r -> finds u r.
Proof.
  unfold get_rb. intros H. repeat (case_match; try (by injection H as <-)); inv_bind H; injection H as <-; by apply in_slot_finds.
Qed.

(** a call that looks up a UE and an entity of it *)
Lemma target_ok {A} L id get f (none : rlc_layer -> outcome A) (some : rlc_layer -> nat -> nr_rlc_ue_t -> slot_id -> rlc_rb -> outcome A)
    (Q : A -> Prop) :
  rlc_layer_ok safe P L -> on_target L id get f -> (forall u r, get u = Ret r -> finds u r) ->
  (forall L1, upd [id] L L1 -> spec safe (none L1) Q) ->
  (forall L1 n u s rb, upd [id] L L1 -> at_ue L1 id n u -> get_slot u s = Ret (Some rb) ->
     spec safe (f (re_entity rb)) (entity_after rb) -> rl_current_time L1 = rl_current_time L ->
     spec safe (some L1 n u s rb) Q) ->
  spec safe (let '(L, n, u) := nr_rlc_manager_get_ue L id in
             r ← get u; match r with None => none L | Some (s, rb) => some L n u s rb end) Q.
Proof.
  intros H Ht Hf Hn Hs. destruct (nr_rlc_manager_get_ue L id) as [[L1 n] u] eqn:E.
  destruct (rlc_get_ue_ok safe P L id L1 n u H E) as (H1 & Ho & Hat & _).
  eapply spec_bind; [by apply (Ht L1 n u)|]. intros [[s rb]|] Hr Hq; [|by apply Hn].
  apply Hs; [done|done|exact (Hf u _ Hr s rb eq_refl)|by apply (Hq s rb)|].
  unfold nr_rlc_manager_get_ue in E. repeat case_match; by simplify_eq.
Qed.

Lemma upd_trans ids L1 L2 L3 : upd ids L1 L2 -> upd ids L2 L3 -> upd ids L1 L3.
Proof. intros [_ H1] [H2 H3]. split; [done|]. by eapply rlc_others_kept_trans. Qed.

Lemma tick_same L f sf : same_table L (nr_rlc_tick L f sf).
Proof. unfold nr_rlc_tick. by case_match. Qed.

Lemma upd_same ids L L' : rlc_layer_ok safe P L -> same_table L L' -> upd ids L L'.
Proof. intros H Hs. split; [by eapply same_table_ok|by apply same_table_others]. Qed.

Lemma upd_refl ids L : rlc_layer_ok safe P L -> upd ids L L.
Proof. intros H. by apply upd_same. Qed.

(** [target_ok] when the entity works and the call ends *)
Lemma entity_op_ok L id get f :
  rlc_layer_ok safe P L -> on_target L id get f -> (forall u r, get u = Ret r -> finds u r) ->
  spec safe (let '(L, n, u) := nr_rlc_manager_get_ue L id in
             r ← get u;
             match r with None => Ret L | Some (s, rb) => e ← f (re_entity rb); finish_rb node L n u s rb e end) (upd [id] L).
Proof.
  intros H Ht Hf. eapply (target_ok L id get f); [done|done|done|done|].
  intros L1 n u s rb Hu Hat Hg He _. eapply spec_mono; [by apply (entity_call_ok' L1 id n u s rb); [apply Hu|..]|].
  intros L' HL'. by eapply upd_trans.
Qed.

(** the same with the clock of the layer given to the entity first *)
Lemma timed_op_ok L id get f :
  rlc_layer_ok safe P L -> on_target L id get (with_time L f) -> (forall u r, get u = Ret r -> finds u r) ->
  spec safe (let '(L, n, u) := nr_rlc_manager_get_ue L id in
             r ← get u;
             match r with
             | None => Ret L
             | Some (s, rb) => e ← set_time (re_entity rb) (rl_current_time L); e ← f e; finish_rb node L n u s rb e
             end) (upd [id] L).
Proof.
  intros H Ht Hf. eapply (target_ok L id get (with_time L f)); [done|done|done|done|].
  intros L1 n u s rb Hu Hat Hg He Et. rewrite Et, <- bind_bind.
  eapply spec_mono; [by apply (entity_call_ok' L1 id n u s rb); [apply Hu|..]|]. intros L' HL'. by eapply upd_trans.
Qed.

Lemma rlc_data_req_ok L id ch b t :
  rlc_layer_ok safe P L -> op_contract L (MacDataReq id ch b t) ->
  spec safe (mac_rlc_data_req node L id ch b t) (fun '(_, L', _) => upd [id] L L').
Proof.
  intros H Hc. unfold mac_rlc_data_req.
  eapply (target_ok L id (by_lcid ch) _ (fun L1 => Ret (0, L1, b))); [done|exact Hc|apply by_lcid_finds|done|].
  intros L1 n u s rb Hu Hat Hg He Et. rewrite Et. apply spec_bind_inv in He. eapply spec_bind; [exact He|].
  intros e _ He1. apply spec_bind_inv in He1. eapply spec_bind; [exact He1|]. intros [[ret e1] b1] _ He2.
  eapply spec_bind; [by apply (finish_rb_ok L1 id n u s rb e1); [apply Hu|..]|]. intros L2 _ [HL2 _]. by eapply upd_trans.
Qed.

Lemma status_ind_ok L id ch :
  rlc_layer_ok safe P L -> on_target L id (by_lcid ch) (with_time L status_effect) ->
  spec safe (mac_rlc_status_ind node L id ch) (fun '(_, L') => upd [id] L L').
Proof.
  intros H Hc. unfold mac_rlc_status_ind.
  eapply (target_ok L id (by_lcid ch) _ (fun L1 => Ret (0, L1))); [done|exact Hc|apply by_lcid_finds|done|].
  intros L1 n u s rb Hu Hat Hg He Et. rewrite Et. apply spec_bind_inv in He. eapply spec_bind; [exact He|].
  intros e _ He1. apply spec_bind_inv in He1. eapply spec_bind; [exact He1|]. intros bs _ He2.
  eapply spec_bind; [by apply (finish_rb_ok L1 id n u s rb e); [apply Hu|..]|]. intros L2 _ [HL2 _]. by eapply upd_trans.
Qed.

Lemma get_statistics_ok L id f rb t :
  rlc_layer_ok safe P L -> op_contract L (GetStatistics id f rb t) ->
  spec safe (nr_rlc_get_statistics node L id f rb t) (fun '(_, L') => upd [id] L L').
Proof.
  intros H Hc. unfold nr_rlc_get_statistics.
  eapply (target_ok L id (fun u => get_rb u f rb 2 5) _ (fun L1 => Ret (None, L1)));
    [done|exact Hc|intros ? ?; apply get_rb_finds|done|].
  intros L1 n u s r Hu Hat Hg He Et. apply spec_bind_inv in He. eapply spec_bind; [exact He|].
  intros [out e] _ He1. apply spec_bind_inv in He1. eapply spec_bind; [exact He1|]. intros bs _ He2.
  eapply spec_bind; [by apply (finish_rb_ok L1 id n u s r e); [apply Hu|..]|]. intros L2 _ [HL2 _]. by eapply upd_trans.
Qed.

Lemma available_ok L id ch :
  rlc_layer_ok safe P L -> op_contract L (AvailableTxSpace id ch) ->
  spec safe (nr_rlc_get_available_tx_space L id ch) (fun '(_, L') => upd [id] L L').
Proof.
  intros H Hc. unfold nr_rlc_get_available_tx_space. destruct (nr_rlc_manager_get_ue L id) as [[L1 n] u] eqn:E.
  destruct (rlc_get_ue_ok safe P L id L1 n u H E) as (H1 & Ho & _).
  eapply spec_bind; [by apply (Hc L1 n u)|]. by intros r _ _.
Qed.

Lemma srb_recv_sdu_ok L id ch b t :
  rlc_layer_ok safe P L -> op_contract L (SrbRecvSdu id ch b t) ->
  spec safe (nr_rlc_srb_recv_sdu node L id ch b t) (upd [id] L).
Proof.
  intros H Hc. unfold nr_rlc_srb_recv_sdu. cbn [op_contract] in Hc. set (s := if ch =? 0 then _ else _) in *.
  destruct (nr_rlc_manager_get_ue L id) as [[L1 n] u] eqn:E. destruct (rlc_get_ue_ok safe P L id L1 n u H E) as (H1 & Ho & Hat & _).
  assert (Et : rl_current_time L1 = rl_current_time L)
    by (unfold nr_rlc_manager_get_ue in E; repeat case_match; by simplify_eq).
  pose proof (Hc L1 n u E) as Hs. unfold by_slot in Hs. apply spec_bind_inv in Hs. eapply spec_bind; [exact Hs|].
  intros [rb|] Hg Hq; [|done]. rewrite Et, <- bind_bind. eapply spec_mono.
  - apply (entity_call_ok' L1 id n u s rb); [done|done|done|]. by apply (Hq s rb).
  - intros L2 HL2. by eapply upd_trans.
Qed.

(** the entity of a slot, if there is one, does [f] *)
Lemma slot_op_ok L id n u s f :
  rlc_layer_ok safe P L -> at_ue L id n u ->
  spec safe (by_slot s u) (fun r => forall s' rb, r = Some (s', rb) -> spec safe (f (re_entity rb)) (entity_after rb)) ->
  spec safe (rb ← get_slot u s; match rb with None => Ret L | Some rb => e ← f (re_entity rb); finish_rb node L n u s rb e end)
    (upd [id] L).
Proof.
  intros H Hat Hs. unfold by_slot in Hs. apply spec_bind_inv in Hs. eapply spec_bind; [exact Hs|].
  intros [rb|] Hg Hq; [|by apply upd_refl]. apply (entity_call_ok' L id n u s rb); [done|done|done|]. by apply (Hq s rb).
Qed.

Lemma activate_avg_ok L id ch on :
  rlc_layer_ok safe P L -> op_contract L (ActivateAvgTime id ch on) ->
  spec safe (nr_rlc_activate_avg_time_to_tx node L id ch on) (upd [id] L).
Proof.
  intros H Hc. unfold nr_rlc_activate_avg_time_to_tx. fold (avg_slot ch). cbn [op_contract] in Hc.
  destruct (nr_rlc_manager_get_ue L id) as [[L1 n] u] eqn:E. destruct (rlc_get_ue_ok safe P L id L1 n u H E) as (H1 & Ho & Hat & _).
  destruct (avg_slot ch) as [s|]; [|done]. eapply spec_mono; [by apply (slot_op_ok L1 id n u s (avg_effect on)); [..|apply (Hc L1 n u)]|].
  intros L2 HL2. by eapply upd_trans.
Qed.

(** ** Fields of a UE other than its slots *)

Lemma put_ue_field L id n u u' :
  rlc_layer_ok safe P L -> at_ue L id n u -> ru_srb0 u' = ru_srb0 u -> ru_srb u' = ru_srb u -> ru_drb u' = ru_drb u ->
  length (ru_lcid2rb u') = 32%nat -> (safe = true -> Forall lcid_ok (ru_lcid2rb u')) ->
  upd [id; ru_ue_id u'] L (put_rlc_ue L n u') /\ rlc_ue_ok safe P u' /\ (ru_ue_id u' = id -> at_ue (put_rlc_ue L n u') id n u').
Proof.
  intros H Hat E1 E2 E3 Hl Hm. destruct (at_ue_ok safe P _ _ _ _ H Hat) as [H1 H2 H3 _ H5].
  assert (Hu : rlc_ue_ok safe P u').
  { constructor; [by rewrite E2|by rewrite E3|done|done|]. intros s rb Hs. apply H5. rewrite <- Hs.
    destruct s; simpl; by rewrite ?E1, ?E2, ?E3. }
  destruct (rlc_put_ue_ok safe P L (put_rlc_ue L n u') id n u u' [] []) as (K1 & K2 & K3); try done.
  - simpl. by rewrite app_nil_r.
  - apply (lo_next _ _ _ H).
  - unfold live_ue. by rewrite E1, E2, E3, app_nil_r.
Qed.

Lemma upd_dup id L L' : upd [id; id] L L' -> upd [id] L L'.
Proof. intros [H1 H2]. split; [done|]. intros id' Hne. apply H2. rewrite !not_elem_of_cons in *. tauto. Qed.

Lemma set_rlf_ok L id h : rlc_layer_ok safe P L -> upd [id] L (nr_rlc_set_rlf_handler L id h).
Proof.
  intros H. unfold nr_rlc_set_rlf_handler. destruct (nr_rlc_manager_get_ue L id) as [[L1 n] u] eqn:E.
  destruct (rlc_get_ue_ok safe P L id L1 n u H E) as (H1 & Ho & Hat & _). pose proof (at_ue_id _ _ _ _ Hat) as Hid.
  pose proof (at_ue_ok safe P _ _ _ _ H1 Hat) as Hu.
  destruct (put_ue_field L1 id n u (u <| ru_rlf_handler := h |>)) as [HL _]; try done; [apply Hu|apply Hu|].
  simpl in HL. rewrite Hid in HL. eapply upd_trans; [|by apply upd_dup]. done.
Qed.

Lemma update_id_ok L a b :
  rlc_layer_ok safe P L -> op_contract L (UpdateId a b) -> spec safe (nr_rlc_update_id node L a b) (upd [a; b] L).
Proof.
  intros H Hc. unfold nr_rlc_update_id. destruct (nr_rlc_manager_get_ue L a) as [[L1 n] u] eqn:E.
  destruct (rlc_get_ue_ok safe P L a L1 n u H E) as (H1 & Ho & Hat & _). pose proof (at_ue_ok safe P _ _ _ _ H1 Hat) as Hu.
  set (u' := u <| ru_ue_id := b |>).
  destruct (put_ue_field L1 a n u u') as (HL & Hu' & _); try done; [apply Hu|apply Hu|].
  assert (HL' : upd [a; b] L (put_rlc_ue L1 n u')).
  { destruct HL as [? HL]. split; [done|]. eapply rlc_others_kept_trans; [|exact HL]. intros id' Hne. apply Ho.
    rewrite !not_elem_of_cons in *. tauto. }
  set (L2 := put_rlc_ue L1 n u') in *.
  pose proof (Hc L1 n u E) as Hs. unfold by_slot in Hs. apply spec_bind_inv in Hs.
  change (get_slot u' (Srb 0)) with (get_slot u (Srb 0)). eapply spec_bind; [exact Hs|].
  intros [rb|] Hg Hq; [|by apply HL']. specialize (Hq (Srb 0) rb eq_refl). eapply spec_bind; [exact Hq|]. intros e _ He.
  destruct (at_ue_ok safe P L1 a n u H1 Hat) as [_ _ _ _ H5].
  (* the position is not the one [b] is found at when another UE has that identity *)
  assert (Hput : forall rb', re_addr rb' = re_addr rb -> rb_ok P (Srb 0) rb' ->
    upd [a; b] L (put_rlc_ue L2 n (set_slot u' (Srb 0) (Some rb')))).
  { intros rb' Ha Hrb'. replace (put_rlc_ue L2 n (set_slot u' (Srb 0) (Some rb')))
      with (put_rlc_ue L1 n (set_slot u' (Srb 0) (Some rb'))).
    2:{ symmetry. apply put_put. }
    assert (Hg' : get_slot u' (Srb 0) = Ret (Some rb)) by done.
    destruct (rlc_put_ue_ok safe P L1 (put_rlc_ue L1 n (set_slot u' (Srb 0) (Some rb'))) a n u
      (set_slot u' (Srb 0) (Some rb')) [] []) as (K1 & K2 & _); try done.
    - eapply rlc_set_slot_ok; [done|done|]. by intros r [= <-].
    - simpl. by rewrite app_nil_r.
    - apply (lo_next _ _ _ H1).
    - pose proof (rlc_live_set u' (Srb 0) (Some rb) (Some rb') Hg') as Hp. simpl in Hp. rewrite Ha in Hp.
      apply Permutation_cons_inv in Hp. by rewrite app_nil_r.
    - split; [done|]. eapply rlc_others_kept_trans; [|exact K2]. intros id' Hne. apply Ho.
      rewrite !not_elem_of_cons in *. tauto. }
  unfold finish_rb. eapply spec_mono; [apply callbacks_ok; [done|]|].
  - intros _ E2. destruct (H5 _ _ Hg) as [[_ Hk] _ _]. simpl in E2. rewrite Hk in E2. by destruct E2.
  - intros L3 Hst. destruct (Hput (with_entity rb e) eq_refl) as [K1 K2]; [by apply with_entity_ok; [apply H5|]|].
    split; [by eapply same_table_ok|]. eapply rlc_others_kept_trans; [exact K2|by apply same_table_others].
Qed.

Lemma reconfigure_ok L id ch c :
  rlc_layer_ok safe P L -> op_contract L (ReconfigureEntity id ch c) ->
  spec safe (nr_rlc_reconfigure_entity node L id ch c) (upd [id] L).
Proof.
  intros H [Hc Hex]. unfold nr_rlc_reconfigure_entity. destruct (nr_rlc_manager_get_ue L id) as [[L1 n] u] eqn:E.
  destruct (rlc_get_ue_ok safe P L id L1 n u H E) as (H1 & Ho & Hat & _).
  eapply spec_bind; [by apply (Hc L1 n u)|]. intros [[s rb]|] Hg Hq.
  - eapply spec_mono; [apply (entity_call_ok' L1 id n u s rb); [done|done| |by apply (Hq s rb)]|].
    + by apply (by_lcid_finds ch u _ Hg).
    + intros L' HL'. by eapply upd_trans.
  - destruct safe; [|done]. by destruct (Hex eq_refl L1 n u).
Qed.

Lemma at_get_ue L id n u : at_ue L id n u -> nr_rlc_manager_get_ue L id = (L, n, u).
Proof. intros [H1 H2]. unfold nr_rlc_manager_get_ue. by rewrite H1, H2. Qed.

Lemma test_reestablishment_ok L id :
  rlc_layer_ok safe P L -> op_contract L (TestReestablishment id) ->
  spec safe (nr_rlc_test_trigger_reestablishment node L id) (upd [id] L).
Proof.
  intros H (Hc1 & Hc2 & Hex). unfold nr_rlc_test_trigger_reestablishment.
  destruct (nr_rlc_manager_get_ue L id) as [[L1 n] u] eqn:E. destruct (rlc_get_ue_ok safe P L id L1 n u H E) as (H1 & Ho & Hat & Hsame).
  assert (Hslot : forall i : slot_id, (safe = true -> exists r, get_slot u i = Ret (Some r)) ->
    spec safe (by_slot i u) (fun r => forall s rb, r = Some (s, rb) -> spec safe (reestablishment (re_entity rb)) (entity_after rb)) ->
    spec safe (get_slot u i ≫= deref_ptr) (fun rb => get_slot u i = Ret (Some rb) /\
      spec safe (reestablishment (re_entity rb)) (entity_after rb))).
  { intros i Hi Hq. unfold by_slot in Hq. apply spec_bind_inv in Hq. eapply spec_bind; [exact Hq|].
    intros [rb|] Hg Hr; [split; [done|by apply (Hr i rb)]|]. simpl. destruct safe; [|done].
    destruct (Hi eq_refl) as [r Hr']. congruence. }
  assert (Hex' : safe = true -> (exists r, get_slot u (Srb 0) = Ret (Some r)) /\ (exists r, get_slot u (Drb 0) = Ret (Some r))).
  { intros Es. destruct (Hex Es) as (m & v & r & r' & Hm & Hr & Hr'). destruct (Hsame m v Hm) as (_ & _ & ->). eauto. }
  eapply spec_bind; [apply (Hslot (Srb 0)); [apply Hex'|apply (Hc1 L1 n u E)]|]. intros rb _ [Hg Hq].
  eapply spec_bind; [exact Hq|]. intros e _ He.
  eapply spec_bind; [by apply (finish_rb_ok L1 id n u (Srb 0) rb e)|]. intros L2 _ [HL2 Hat2].
  rewrite (at_get_ue _ _ _ _ Hat2). set (u2 := set_slot u _ _) in *.
  change (get_slot u2 (Drb 0)) with (get_slot u (Drb 0)).
  eapply spec_bind; [apply (Hslot (Drb 0)); [apply Hex'|apply (Hc2 L1 n u E)]|]. intros rb' _ [Hg' Hq'].
  eapply spec_mono; [apply (entity_call_ok' L2 id n u2 (Drb 0) rb'); [apply HL2|done|done|done]|].
  intros L3 HL3. do 2 (eapply upd_trans; [|eassumption]). done.
Qed.

(** ** New entities *)

Lemma add_slot_ok L id n u s e s0 :
  rlc_layer_ok safe P L -> at_ue L id n u -> get_slot u s = Ret None ->
  P (rl_next_entity L) e -> events (entity_common e) = [] -> kind_ok s (mk_rlc_rb (rl_next_entity L) e s0) ->
  let '(L', rb) := alloc_rb L e s0 in upd [id] L (put_rlc_ue L' n (set_slot u s (Some rb))).
Proof.
  intros H Hat Hs HP Hev Hk. cbn. set (rb := mk_rlc_rb _ _ _) in *. set (L' := L <| rl_next_entity ::= Z.add 1 |>).
  pose proof (lo_next _ _ _ H) as Hn. pose proof (at_ue_id _ _ _ _ Hat) as Hid.
  destruct (rlc_put_ue_ok safe P L (put_rlc_ue L' n (set_slot u s (Some rb))) id n u (set_slot u s (Some rb)) [] [rl_next_entity L])
    as (K1 & K2 & _); try done.
  - eapply rlc_set_slot_ok; [by eapply at_ue_ok|done|]. intros r [= <-]. by constructor.
  - simpl. by rewrite app_nil_r.
  - simpl. lia.
  - simpl. rewrite Z.add_comm. rewrite seqZ_app by lia. simpl. by rewrite Permutation_app_comm.
  - pose proof (rlc_live_set u s None (Some rb) Hs) as Hp. simpl in Hp. by rewrite app_nil_r.
  - split; [done|]. rewrite set_slot_id, Hid in K2. intros id' Hne. apply K2. rewrite !not_elem_of_cons in *. tauto.
Qed.

Lemma set_lcid_ok L id n u lcid r :
  rlc_layer_ok safe P L -> at_ue L id n u -> (safe = true -> 1 <= lcid <= 32 /\ lcid_ok r) ->
  spec safe (set_lcid u lcid r) (fun u' => upd [id] L (put_rlc_ue L n u') /\ at_ue (put_rlc_ue L n u') id n u' /\
    forall s, get_slot u' s = get_slot u s).
Proof.
  intros H Hat Hm. pose proof (at_ue_ok safe P _ _ _ _ H Hat) as Hu. pose proof (at_ue_id _ _ _ _ Hat) as Hid.
  unfold set_lcid. spec_step (fun _ : nr_rlc_rb_t => True).
  - destruct (rd_slot _ _) eqn:Er; try done; destruct safe; try done; exfalso;
      destruct (lookup_lt_is_Some_2 (ru_lcid2rb u) (Z.to_nat (lcid - 1))) as [x Hx];
      try (rewrite (uo_lcid _ _ _ Hu); specialize (Hm eq_refl); lia);
      (rewrite (proj2 (rd_slot_Ret _ _ x)) in Er; [done|split; [specialize (Hm eq_refl); lia|done]]).
  - intros x _ _. destruct (put_ue_field L id n u (u <| ru_lcid2rb ::= <[Z.to_nat (lcid - 1) := r]> |>)) as (K1 & _ & K3); try done.
    + simpl. rewrite length_insert. apply Hu.
    + intros Es. simpl. apply Forall_insert; [by apply Hu|]. by apply Hm.
    + simpl in K1, K3. rewrite Hid in K1, K3. split_and!; [by apply upd_dup|by apply K3|]. by intros [].
Qed.

Lemma get_ue_next L id L1 n u : nr_rlc_manager_get_ue L id = (L1, n, u) -> rl_next_entity L1 = rl_next_entity L.
Proof. unfold nr_rlc_manager_get_ue. repeat case_match; intros; by simplify_eq. Qed.

(** slots within the bounds can be read *)
Lemma slot_read u s : rlc_ue_ok safe P u ->
  match s with Srb0 => True | Srb i => 0 <= i < 3 | Drb i => 0 <= i < 32 end -> exists rb, get_slot u s = Ret rb.
Proof.
  intros Hu Hs. destruct s as [|i|i]; simpl; [by eexists|..].
  - destruct (lookup_lt_is_Some_2 (ru_srb u) (Z.to_nat i)) as [x Hx]; [rewrite (uo_srb _ _ _ Hu); lia|].
    exists x. apply rd_slot_Ret. split; [lia|done].
  - destruct (lookup_lt_is_Some_2 (ru_drb u) (Z.to_nat i)) as [x Hx]; [rewrite (uo_drb _ _ _ Hu); lia|].
    exists x. apply rd_slot_Ret. split; [lia|done].
Qed.

(** the end of the calls that add an SRB or a DRB: the logical channel is mapped
    to the identity [r], and an empty slot gets the entity *)
Lemma rlc_add_rb_ok L id n u s lcid r c (add : nr_rlc_ue_t -> rlc_rb -> outcome nr_rlc_ue_t) :
  rlc_layer_ok safe P L -> at_ue L id n u -> (safe = true -> 1 <= lcid <= 32 /\ lcid_ok r) ->
  match s with Srb0 => False | Srb i => 0 <= i < 3 | Drb i => 0 <= i < 32 end ->
  new_ok L (fun m => match s with Drb _ => m <> NR_RLC_TM | _ => m = NR_RLC_AM end) c ->
  (forall u rb, get_slot u s = Ret None -> add u rb = Ret (set_slot u s (Some rb))) ->
  spec safe (u ← set_lcid u lcid r;
             let L := put_rlc_ue L n u in
             old ← get_slot u s;
             match old with
             | Some _ => Ret L
             | None => e ← c; let '(L, rb) := alloc_rb L e None in u ← add u rb; Ret (put_rlc_ue L n u)
             end) (upd [id] L).
Proof.
  intros H Hat Hm Hs Hc Hadd. eapply spec_bind; [by apply (set_lcid_ok L id n u)|]. intros u1 _ (HL1 & Hat1 & Hsl).
  set (L1 := put_rlc_ue L n u1) in *. cbv zeta.
  destruct (slot_read u1 s) as [old Hold]; [eapply at_ue_ok; [apply HL1|exact Hat1]|by destruct s|].
  rewrite Hold, bind_Ret_l. destruct old as [rb|]; [done|]. eapply spec_bind; [exact Hc|]. intros e _ (HP & Hmode & Hev).
  destruct (alloc_rb L1 e None) as [L2 rb] eqn:Ea. rewrite (Hadd u1 rb Hold), bind_Ret_l.
  pose proof (add_slot_ok L1 id n u1 s e None) as Hput. rewrite Ea in Hput. eapply upd_trans; [exact HL1|].
  apply Hput; [apply HL1|done|done|done|done|]. destruct s; [done|by split|by split].
Qed.

Lemma rlc_add_srb_ok L id srb bc :
  rlc_layer_ok safe P L -> op_contract L (AddSrb id srb bc) -> spec safe (nr_rlc_add_srb L id srb bc) (upd [id] L).
Proof.
  intros H [Hc Hm]. unfold nr_rlc_add_srb. destruct (negb _) eqn:Eb; [done|]. bool_prop.
  assert (Hb : 1 <= srb <= 3) by lia. fold (am_of bc).
  eapply spec_bind; [exact Hc|]. intros c _ Hnew. destruct (nr_rlc_manager_get_ue L id) as [[L1 n] u] eqn:E.
  destruct (rlc_get_ue_ok safe P L id L1 n u H E) as (Hok & Ho & Hat & _).
  destruct (servedRadioBearer bc) as [[|srb_id|drb_id]|]; try done.
  eapply spec_mono; [apply (rlc_add_rb_ok L1 id n u (Srb (srb - 1))); [done|done| |lia| |]|].
  - intros Es. by apply (Hm srb_id).
  - unfold new_ok in *. rewrite (get_ue_next _ _ _ _ _ E). eapply spec_mono; [exact Hnew|]. by intros e (? & <- & ?).
  - intros u0 rb Hs. unfold nr_rlc_ue_add_srb_rlc_entity.
    rewrite (proj2 (Z.ltb_ge srb 0)), (proj2 (Z.ltb_ge 3 srb)), (proj2 (Z.eqb_neq srb 0)) by lia. by rewrite Hs.
  - intros L2 HL2. by eapply upd_trans.
Qed.

Lemma add_drb_end_ok L id drb bc c :
  rlc_layer_ok safe P L -> 1 <= drb <= 32 -> new_ok L (fun m => m <> NR_RLC_TM) c ->
  (forall i, servedRadioBearer bc = Some (servedRadioBearer_PR_drb_Identity i) -> map_ok (logicalChannelIdentity bc) i 32) ->
  spec safe (add_drb L id drb bc c) (upd [id] L).
Proof.
  intros H Hd Hnew Hm. unfold add_drb. destruct (nr_rlc_manager_get_ue L id) as [[L1 n] u] eqn:E.
  destruct (rlc_get_ue_ok safe P L id L1 n u H E) as (H1 & Ho & Hat & _).
  destruct (servedRadioBearer bc) as [[|srb_id|drb_id]|]; try done.
  eapply spec_mono; [apply (rlc_add_rb_ok L1 id n u (Drb (drb - 1))); [done|done| |lia| |]|].
  - intros Es. by apply (Hm drb_id).
  - unfold new_ok in *. by rewrite (get_ue_next _ _ _ _ _ E).
  - intros u0 rb Hs. unfold nr_rlc_ue_add_drb_rlc_entity, RLC_MAX_DRBS_PER_UE.
    rewrite (proj2 (Z.ltb_ge drb 1)), (proj2 (Z.ltb_ge 32 drb)) by lia. by rewrite Hs.
  - intros L2 HL2. by eapply upd_trans.
Qed.

Lemma rlc_add_drb_ok L id drb bc :
  rlc_layer_ok safe P L -> op_contract L (AddDrb id drb bc) -> spec safe (nr_rlc_add_drb L id drb bc) (upd [id] L).
Proof.
  intros H [Hc Hm]. unfold nr_rlc_add_drb, add_drb_am, add_drb_um. destruct (rlc_Config bc) as [r|] eqn:Er; [|done].
  cbn [deref_ptr]. rewrite bind_Ret_l. destruct r as [|ul dl|ul dl| |]; try done;
    (destruct (negb _) eqn:Eb; [done|]); bool_prop; unfold RLC_MAX_DRBS_PER_UE in *; rewrite bind_Ret_l.
  - eapply spec_bind; [exact Hc|]. intros c _ Hnew. apply add_drb_end_ok; [done|lia| |done].
    eapply spec_mono; [exact Hnew|]. by intros e (? & <- & ?).
  - eapply spec_bind; [exact Hc|]. intros [t sn] _ Hnew. apply add_drb_end_ok; [done|lia| |done].
    eapply spec_mono; [exact Hnew|]. by intros e (? & <- & ?).
Qed.

Lemma activate_srb0_ok L id d h :
  rlc_layer_ok safe P L -> op_contract L (ActivateSrb0 id d h) ->
  spec safe (nr_rlc_activate_srb0 L id d h) (fun '(_, L') => upd [id] L L').
Proof.
  intros H Hc. unfold nr_rlc_activate_srb0. destruct (nr_rlc_manager_get_ue L id) as [[L1 n] u] eqn:E.
  destruct (rlc_get_ue_ok safe P L id L1 n u H E) as (H1 & Ho & Hat & _).
  destruct (ru_srb0 u) eqn:Es; [done|]. cbn [op_contract] in Hc. unfold new_ok in Hc.
  destruct (new_nr_rlc_entity_tm 10000) as [e| | |]; try done. cbn in Hc. destruct Hc as (HP & _ & Hev).
  rewrite bind_Ret_l. pose proof (add_slot_ok L1 id n u Srb0 (EntityTm e) (Some (mk_srb0_data id d h)) H1 Hat) as Hput.
  destruct (alloc_rb L1 _ _) as [L2 rb] eqn:Ea. unfold nr_rlc_ue_add_srb_rlc_entity. cbn [Z.ltb Z.eqb Z.compare orb].
  rewrite Es, bind_Ret_l. eapply upd_trans; [by split|]. apply Hput; [simpl; by rewrite Es| |done|split; [done|by eexists]].
  by rewrite (get_ue_next _ _ _ _ _ E).
Qed.

(** ** Entities that go *)

Lemma rlc_delete_rb_ok L rb : P (re_addr rb) (re_entity rb) ->
  spec safe (delete_rb L rb) (fun L' => L' = L <| rl_deleted ::= (fun d => d ++ [re_addr rb]) |>).
Proof. intros H. unfold delete_rb. eapply spec_bind; [by apply (Pdel (re_addr rb))|]. done. Qed.

Lemma delete_slots_ok slots : forall L, Forall (fun s => forall rb, s = Some rb -> P (re_addr rb) (re_entity rb)) slots ->
  spec safe (delete_slots L slots) (fun L' => rl_ue_list L' = rl_ue_list L /\ rl_next_entity L' = rl_next_entity L /\
    rl_deleted L' = rl_deleted L ++ slot_addrs slots).
Proof.
  induction slots as [|[rb|] slots IH]; intros L Hf; cbn [delete_slots].
  - simpl. by rewrite app_nil_r.
  - inversion Hf as [|? ? Hrb Hf']; subst. eapply spec_bind; [by apply rlc_delete_rb_ok, Hrb|]. intros L1 _ ->.
    eapply spec_mono; [by apply IH|]. intros L2 (E1 & E2 & E3). split_and!; [done|done|]. rewrite E3. simpl. by rewrite <- app_assoc.
  - inversion Hf; subst. by apply IH.
Qed.

Lemma ue_slots_inv u rb : rlc_ue_ok safe P u ->
  Some rb ∈ ru_srb0 u :: take 3 (ru_srb u) ++ take 32 (ru_drb u) -> P (re_addr rb) (re_entity rb).
Proof.
  intros Hu. assert (Hin : forall l n, Some rb ∈ take n l -> exists i : Z, rd_slot l i = Ret (Some rb)).
  { intros l n Hl. apply list_elem_of_lookup_1 in Hl as [i Hi]. apply lookup_take_Some in Hi as [Hi _].
    exists (Z.of_nat i). apply rd_slot_Ret. rewrite Nat2Z.id. split; [lia|done]. }
  rewrite elem_of_cons, elem_of_app. intros [E|[E|E]].
  - apply (rk_inv P Srb0), (uo_slots _ _ _ Hu). simpl. by rewrite <- E.
  - destruct (Hin _ _ E) as [i Hi]. by apply (rk_inv P (Srb i)), (uo_slots _ _ _ Hu).
  - destruct (Hin _ _ E) as [i Hi]. by apply (rk_inv P (Drb i)), (uo_slots _ _ _ Hu).
Qed.

Lemma rlc_remove_ue_ok L id : rlc_layer_ok safe P L -> spec safe (nr_rlc_manager_remove_ue L id) (upd [id] L).
Proof.
  intros H. unfold nr_rlc_manager_remove_ue. destruct (find_rlc_ue (rl_ue_list L) id) as [n|] eqn:E; [|by apply upd_refl].
  destruct (find_ue_lookup _ _ _ E) as (u & Hu & Hid & _). rewrite Hu. assert (Hat : at_ue L id n u) by done.
  pose proof (at_ue_ok safe P _ _ _ _ H Hat) as Hok. eapply spec_bind.
  - apply delete_slots_ok. apply list.Forall_forall. intros s Hs rb ->. by eapply ue_slots_inv.
  - intros L1 _ (E1 & E2 & E3). destruct H as [H1 H2 H3]. split.
    + constructor; simpl; rewrite ?E1.
      * rewrite Forall_app. split; [by apply Forall_take|by apply Forall_drop].
      * by rewrite E2.
      * rewrite E2, E3, <- H3, (live_remove _ _ _ Hu). unfold live_ue, slot_addrs. simpl.
        rewrite !(take_ge _ 3), !(take_ge _ 32) by (rewrite ?(uo_srb _ _ _ Hok), ?(uo_drb _ _ _ Hok); lia).
        destruct (ru_srb0 u); simpl; rewrite omap_app; solve_Permutation.
    + intros id' Hne. apply not_elem_of_cons in Hne as [Hne _]. simpl. rewrite E1. eapply ue_of_remove; [done|congruence].
Qed.

Lemma release_slot_ok L id n u s : rlc_layer_ok safe P L -> at_ue L id n u -> spec safe (get_slot u s) (fun _ => True) ->
  spec safe (release_slot L n u s) (fun '(L', u') => upd [id] L L' /\ at_ue L' id n u').
Proof.
  intros H Hat Hs. pose proof (at_ue_id _ _ _ _ Hat) as Hid. pose proof (at_ue_ok safe P _ _ _ _ H Hat) as Hu.
  unfold release_slot. eapply spec_bind; [exact Hs|]. intros [rb|] Hg _; [|by split; [apply upd_refl|]].
  eapply spec_bind; [apply rlc_delete_rb_ok, (rk_inv P s), (uo_slots _ _ _ Hu _ _ Hg)|]. intros L1 _ ->. cbv zeta.
  set (L1 := L <| rl_deleted ::= _ |>). set (u' := set_slot u s None).
  destruct (rlc_put_ue_ok safe P L (put_rlc_ue L1 n u') id n u u' [re_addr rb] []) as (K1 & K2 & K3); try done.
  - by eapply rlc_set_slot_ok.
  - apply (lo_next _ _ _ H).
  - pose proof (rlc_live_set u s (Some rb) None Hg) as Hp. simpl in Hp. by rewrite Permutation_app_comm.
  - unfold u' in K2, K3. rewrite set_slot_id in K2, K3. rewrite Hid in K2. split; [|by apply K3]. split; [done|].
    intros id' Hne. apply K2. rewrite !not_elem_of_cons in *. tauto.
Qed.

Lemma release_entity_ok L id ch :
  rlc_layer_ok safe P L -> op_contract L (ReleaseEntity id ch) -> spec safe (nr_rlc_release_entity L id ch) (upd [id] L).
Proof.
  intros H Hc. unfold nr_rlc_release_entity, release_rlc_entity_from_lcid.
  destruct (nr_rlc_manager_get_ue L id) as [[L1 n] u] eqn:E. destruct (rlc_get_ue_ok safe P L id L1 n u H E) as (H1 & Ho & Hat & _).
  assert (Hrel : forall s, spec safe (get_slot u s) (fun _ => True) ->
    spec safe ('(L, _) ← release_slot L1 n u s; Ret L) (upd [id] L)).
  { intros s Hs. eapply spec_bind; [by apply (release_slot_ok L1 id n u s)|]. intros [L2 u2] _ [HL2 _]. by eapply upd_trans. }
  specialize (Hc L1 n u E). unfold by_lcid, get_rlc_entity_from_lcid in Hc.
  destruct (Z.eqb_spec ch 0) as [E0|E0]; [by apply Hrel|].
  apply spec_bind_inv in Hc. eapply spec_bind; [exact Hc|]. intros lrb _ Hc1.
  apply spec_bind_inv in Hc1. eapply spec_bind; [exact Hc1|]. intros [s|] _ Hc2; [|by split]. apply Hrel.
  apply spec_bind_inv in Hc2. eapply spec_mono; [exact Hc2|]. done.
Qed.

Lemma config_req_ok L ctxt f m a rb :
  rlc_layer_ok safe P L -> spec safe (rrc_rlc_config_req L ctxt f m a rb) (upd [s32 (rntiMaybeUEid ctxt)] L).
Proof.
  intros H. unfold rrc_rlc_config_req. destruct m; [done|]. destruct a; [|done]. destruct (negb (module_id ctxt =? 0)); [done|].
  change (negb true) with false. cbv iota. set (id := s32 _). set (s := if f then Srb (rb - 1) else Drb (rb - 1)).
  match goal with |- spec _ (if ?b then Exit else _) _ => destruct b eqn:Eb; [done|] end.
  destruct (nr_rlc_manager_get_ue L id) as [[L1 n] u] eqn:E. destruct (rlc_get_ue_ok safe P L id L1 n u H E) as (H1 & Ho & Hat & _).
  eapply spec_bind; [apply (release_slot_ok L1 id n u s H1 Hat)|].
  - destruct (slot_read u s (at_ue_ok safe P _ _ _ _ H1 Hat)) as [x ->]; [|done].
    unfold s, RLC_MAX_DRBS_PER_UE in *. destruct f; apply negb_false_iff, andb_true_iff in Eb as [?%Z.leb_le ?%Z.leb_le]; lia.
  - intros [L2 u2] _ [HL2 _]. destruct (all_null _ && _); [|by eapply upd_trans].
    eapply spec_mono; [apply rlc_remove_ue_ok, HL2|]. intros L3 HL3. eapply upd_trans; [by split|]. by eapply upd_trans.
Qed.

(** ** All calls *)

Lemma spec_snd {A B} (c : outcome (A * B)) (Q : B -> Prop) :
  spec safe c (fun '(_, b) => Q b) -> spec safe ('(_, b) ← c; Ret b) Q.
Proof. destruct c as [[a b]| | |]; done. Qed.

Lemma rlc_step_spec L op :
  rlc_layer_ok safe P L -> op_contract L op -> spec safe (rlc_step node L op) (upd (op_ues op) L).
Proof.
  intros H Hc. destruct op; cbn [rlc_step op_ues].
  - unfold mac_rlc_data_ind. case_match; [done|]. exact (timed_op_ok L ue_id _ _ H Hc (by_lcid_finds channel_id)).
  - eapply spec_bind; [by apply rlc_data_req_ok|]. by intros [[? ?] ?] _ ?.
  - apply spec_snd. by apply status_ind_ok.
  - apply spec_snd. unfold mac_rlc_get_buffer_occupancy_ind. case_match; [done|].
    pose proof (tick_same L frame subframe) as Ht. eapply spec_mono; [apply status_ind_ok; [by eapply same_table_ok|done]|].
    intros [x L'] HL'. eapply upd_trans; [by apply (upd_same _ L)|done].
  - exact (timed_op_ok L _ _ (fun e => recv_sdu e sdu mui time_now) H Hc (fun u => get_rb_finds u _ _ _ _)).
  - by apply srb_recv_sdu_ok.
  - apply spec_snd. by apply available_ok.
  - unfold nr_rlc_get_lcid_from_rb. destruct (nr_rlc_manager_get_ue L ue_id) as [[L1 n] u] eqn:E.
    by destruct (rlc_get_ue_ok safe P L ue_id L1 n u H E) as (? & ? & _).
  - apply upd_same; [done|apply tick_same].
  - by apply set_rlf_ok.
  - by apply rlc_add_srb_ok.
  - by apply rlc_add_drb_ok.
  - apply spec_snd. by apply activate_srb0_ok.
  - exact (entity_op_ok L ue_id _ _ H Hc (by_lcid_finds lc_id)).
  - by apply reconfigure_ok.
  - by apply release_entity_ok.
  - by apply config_req_ok.
  - by apply rlc_remove_ue_ok.
  - by apply update_id_ok.
  - by apply test_reestablishment_ok.
  - by apply activate_avg_ok.
  - apply spec_snd. by apply get_statistics_ok.
Qed.
End entities.

(** ** Whatever the entities do: the table *)

Definition any_entity (a : Z) (e : rlc_entity) : Prop := True.

Definition table_ok (L : rlc_layer) : Prop := rlc_layer_ok false any_entity L.

Definition mode_kept (f : rlc_entity -> outcome rlc_entity) : Prop :=
  forall e e', f e = Ret e' -> entity_mode e' = entity_mode e.

Lemma on_target_partial L id get f : mode_kept f -> on_target false any_entity L id get f.
Proof.
  intros Hf L1 n u _. apply spec_partial; [done|]. intros r _ s rb _. apply spec_partial; [done|].
  intros e He. by constructor; [apply Hf|..].
Qed.

Lemma with_time_mode L f : mode_kept f -> mode_kept (with_time L f).
Proof.
  intros Hf e e' H. unfold with_time in H. inv_bind H. transitivity (entity_mode v); [by apply Hf|by eapply set_time_mode].
Qed.

Lemma status_effect_mode : mode_kept status_effect.
Proof. intros e e' H. unfold status_effect in H. inv_bind H. by injection H as <-. Qed.

Lemma reconfigured_mode c : mode_kept (fun e => reconfigured e c).
Proof.
  intros e e' H. unfold reconfigured in H.
  destruct c as [[]|], e; try done; repeat inv_bind H; injection H as <-; reflexivity.
Qed.

Lemma new_am_fresh L c : new_ok false any_entity L (eq NR_RLC_AM) (new_am c).
Proof.
  unfold new_ok. apply spec_partial; [done|]. intros e H. unfold new_am in H. apply fmap_Ret_inv in H as (x & H & ->).
  unfold new_nr_rlc_entity_am in H. case_match; [done|]. inv_bind H. by injection H as <-.
Qed.

Lemma new_um_fresh L t sn : new_ok false any_entity L (eq NR_RLC_UM)
  (EntityUm <$> new_nr_rlc_entity_um RLC_RX_MAXSIZE RLC_TX_MAXSIZE t sn).
Proof.
  unfold new_ok. apply spec_partial; [done|]. intros e H. apply fmap_Ret_inv in H as (x & H & ->).
  unfold new_nr_rlc_entity_um in H. case_match; [done|]. inv_bind H. by injection H as <-.
Qed.

Lemma any_contract L op : op_contract false any_entity L op.
Proof.
  destruct op; cbn [op_contract]; try done.
  - apply on_target_partial, with_time_mode. intros e e'. apply recv_pdu_mode.
  - apply on_target_partial, with_time_mode. intros e e' H. unfold pdu_effect in H. inv_bind H. destruct v as [[? ?] ?].
    injection H as <-. by eapply generate_pdu_mode.
  - apply on_target_partial, with_time_mode, status_effect_mode.
  - apply on_target_partial, with_time_mode, status_effect_mode.
  - apply on_target_partial, with_time_mode. intros e e'. apply recv_sdu_mode.
  - apply on_target_partial, with_time_mode. intros e e'. apply recv_sdu_mode.
  - apply on_target_partial. by intros e e' [= <-].
  - split; [|by intros ? _]. apply spec_partial; [done|]. intros c _. apply new_am_fresh.
  - split; [|by intros ? _]. repeat case_match; try done; apply spec_partial; try done.
    + intros c _. apply new_am_fresh.
    + intros [t sn] _. apply new_um_fresh.
  - apply on_target_partial. intros e e'. apply reestablishment_mode.
  - split; [|done]. apply on_target_partial, reconfigured_mode.
  - apply on_target_partial. by intros e e' [= <-].
  - apply on_target_partial. intros e e'. apply reestablishment_mode.
  - split_and!; [| |done]; apply on_target_partial; intros e e'; apply reestablishment_mode.
  - case_match; [|done]. apply on_target_partial. intros e e' [= <-]. apply upd_common_mode.
  - apply on_target_partial. intros e e' H. unfold stats_effect in H. inv_bind H. destruct v as [out e1].
    apply status_effect_mode in H. rewrite H. by eapply get_stats_mode.
Qed.

Lemma table_step node L op L' : table_ok L -> rlc_step node L op = Ret L' -> table_ok L' /\ others_kept (op_ues op) L L'.
Proof.
  intros H Hs. refine (spec_inv false _ _ _ (rlc_step_spec false any_entity node _ _ _ L op H (any_contract L op)) Hs); try done.
  intros a e _. by apply spec_partial.
Qed.

Lemma new_manager_table enb : table_ok (new_nr_rlc_ue_manager enb).
Proof. by constructor; [constructor|..]. Qed.

Lemma table_run node ops : forall L L', table_ok L -> rlc_run node L ops = Ret L' -> table_ok L'.
Proof.
  induction ops as [|op ops IH]; intros L L' H Hr; cbn [rlc_run] in Hr; [by injection Hr as <-|].
  inv_bind Hr. destruct (table_step node L op v H Hv) as [? _]. eauto.
Qed.

(** C23: Whatever calls the MAC, PDCP, RRC, F1 and the timer make into the RLC layer,
    in whatever order, the table stays well formed: SRB 0 has a transparent-mode
    entity, SRB 1 to 3 acknowledged-mode entities and the DRBs entities of one of
    the two other modes, no delivery to the upper layers is left undone, and every
    entity ever created is either in exactly one slot of one UE or has been deleted
    exactly once (none is leaked, deleted twice or reachable after its deletion).
    A call changes nothing of the UEs it is not for. *)
Theorem rlc_layer_sound node enb ops L op L' :
  rlc_run node (new_nr_rlc_ue_manager enb) ops = Ret L -> rlc_step node L op = Ret L' ->
  table_ok L' /\ forall id, id ∉ op_ues op -> ue_of (rl_ue_list L') id = ue_of (rl_ue_list L) id.
Proof.
  intros Hr Hs. pose proof (table_run node ops _ _ (new_manager_table enb) Hr) as H.
  by apply (table_step node L op L').
Qed.

(** ** A run *)

Definition demo_rlc_node : rlc_node := mk_rlc_node false false (fun id => Ret (id + 1000)).

Definition demo_am_config : NR_RLC_Config_t :=
  NR_RLC_Config_PR_am (mk_ul_am (Some 1) 8 23 43 5) (mk_dl_am (Some 1) 7 0).
Definition demo_um_config : NR_RLC_Config_t := NR_RLC_Config_PR_um_Bi_Directional (Some 1) (mk_dl_um (Some 1) 7).

Definition demo_srb_config (lcid srb : Z) : NR_RLC_BearerConfig_t :=
  mk_bearer_config lcid (Some (servedRadioBearer_PR_srb_Identity srb)) None.
Definition demo_drb_config (lcid drb : Z) (c : NR_RLC_Config_t) : NR_RLC_BearerConfig_t :=
  mk_bearer_config lcid (Some (servedRadioBearer_PR_drb_Identity drb)) (Some c).

(** UE 1 has SRB 0 and 1 and two DRBs, UE 2 has one *)
Definition demo_rlc_ops : list rlc_op :=
  [ActivateSrb0 1 0 7; AddSrb 1 1 (demo_srb_config 1 1); AddDrb 1 1 (demo_drb_config 4 1 demo_am_config);
   AddDrb 1 2 (demo_drb_config 5 2 demo_um_config); AddDrb 2 1 (demo_drb_config 4 1 demo_um_config);
   Tick 1 0; RlcDataReq (mk_ctxt 0 1 0 1 0 0) false 2 0 [1; 2; 3] 0; MacDataReq 1 5 (replicate 10 0) 0;
   MacDataInd 1 0 0 0 [9; 9]; MacDataInd 1 0 0 5 [0; 1; 2; 3]; ReleaseEntity 1 4; RemoveUe 2; UpdateId 1 17].

Lemma rlc_layer_sound_witness : exists L L',
  rlc_run demo_rlc_node (new_nr_rlc_ue_manager true) demo_rlc_ops = Ret L /\
  rlc_step demo_rlc_node L (ReleaseEntity 17 0) = Ret L' /\ rl_deleted L' = [2; 4; 0] /\ table_ok L'.
Proof.
  destruct (rlc_run demo_rlc_node (new_nr_rlc_ue_manager true) demo_rlc_ops) as [L| | |] eqn:E; try by vm_compute in E.
  destruct (rlc_step demo_rlc_node L (ReleaseEntity 17 0)) as [L'| | |] eqn:E'.
  2,3,4: vm_compute in E; injection E as <-; by vm_compute in E'.
  exists L, L'. split_and!; [done|done| |exact (proj1 (rlc_layer_sound demo_rlc_node true demo_rlc_ops L (ReleaseEntity 17 0) L' E E'))].
  vm_compute in E. injection E as <-. vm_compute in E'. by injection E' as <-.
Defined.
