(* ===== verification/RlcLayerSafe.v ===== *)
(** The RLC layer as a whole, when its bearers are in acknowledged mode (SRB 0 in
    transparent mode): the invariants of the entities, of their heaps and of the
    table carry each other over every sequence of calls, and the calls that end
    this are described exactly. *)

From stdpp Require Import base tactics list numbers gmap.
From Stdlib Require Import ZArith Lia.
From S2P Require Import Prelude TimeStat RlcPdu RlcSdu RlcEntity RlcRxList.
From S2P Require Import RlcAmState RlcAmRx RlcAmControl RlcAmTx RlcAmStatus RlcAm RlcAmRxInv RlcAmRxSpec.
From S2P Require Import RlcAmTransfer RlcAmStatusSpec RlcAmTxInv RlcAmSafe RlcTm.
From S2P Require Import HashTable F1Ids DataQueue RlcConfig RlcAny RlcUe RlcUeSpec RlcLayer.

(** ** Transparent mode *)

Lemma tm_common_repr e e' q : tm_repr e q -> tm_heap e' = tm_heap e -> tm_tx_list e' = tm_tx_list e ->
  tm_tx_end e' = tm_tx_end e -> tm_tx_size e' = tm_tx_size e ->
  bs_tx_size (bstatus (tm_common e')) = bs_tx_size (bstatus (tm_common e)) ->
  avg_time_is_on (tm_common e') = avg_time_is_on (tm_common e) -> tm_repr e' q.
Proof. intros [] E1 E2 E3 E4 E5 E6. constructor; by rewrite ?E1, ?E2, ?E3, ?E4, ?E5, ?E6. Qed.

Lemma tm_recv_pdu_repr e q b : tm_repr e q -> tm_repr (nr_rlc_entity_tm_recv_pdu e b) q /\
  events (tm_common (nr_rlc_entity_tm_recv_pdu e b)) = events (tm_common e) ++ [DeliverSdu b].
Proof. intros H. split; [|done]. by apply (tm_common_repr e). Qed.

Lemma tm_recv_sdu_events e b i t e' : nr_rlc_entity_tm_recv_sdu e b i t = Ret e' -> events (tm_common e') = events (tm_common e).
Proof.
  unfold nr_rlc_entity_tm_recv_sdu. intros H. case_match; [done|]. cbv zeta in H.
  set (e1 := if negb _ && _ then _ else _) in H.
  assert (E : events (tm_common e1) = events (tm_common e)) by (subst e1; by destruct (negb _ && _)). clearbody e1. rewrite <- E.
  case_match; [by injection H as <-|]. destruct (nr_rlc_new_sdu _ _ _) as [sdu h]. inv_bind H. destruct v as [l en].
  case_match; [inv_bind H|]; by injection H as <-.
Qed.

Lemma tm_recv_sdu_spec e q b i t : tm_repr e q -> spec true (nr_rlc_entity_tm_recv_sdu e b i t) (fun e' =>
  (exists q', tm_repr e' q') /\ events (tm_common e') = events (tm_common e)).
Proof.
  intros H. destruct (Z.lt_ge_cases NR_SDU_MAX (zlen b)) as [Hb|Hb].
  { unfold nr_rlc_entity_tm_recv_sdu. by rewrite (proj2 (Z.ltb_lt _ _)). }
  assert (Hr : returns (nr_rlc_entity_tm_recv_sdu e b i t) (fun e' => exists q', tm_repr e' q')).
  { destruct (Z.lt_ge_cases (tm_tx_maxsize e) (tm_tx_size e + zlen b)) as [Hf|Hf].
    - eapply returns_mono; [by apply (tm_reject e q)|]. intros e' [? _]. eauto.
    - eapply returns_mono; [by apply (tm_accept e q)|]. intros e' [? _]. eauto. }
  destruct Hr as (e' & He & Hq). rewrite He. split; [done|]. by eapply tm_recv_sdu_events.
Qed.

Lemma tm_generate_events e b t n e' b' : RlcTm.generate_tx_pdu e b t = Ret (n, e', b') -> events (tm_common e') = events (tm_common e).
Proof.
  unfold RlcTm.generate_tx_pdu. intros H. destruct (tm_tx_list e) as [|s l]; [by injection H as _ <- _|].
  case_match; [by injection H as _ <- _|]. cbv zeta in H. set (e1 := match l with [] => _ | _ => _ end) in H.
  assert (E : tm_common e1 = tm_common e) by (unfold e1; by destruct l). clearbody e1. rewrite <- E.
  do 4 inv_bind H. inv_bind H. destruct v3 as [f h]. injection H as _ <- _. simpl.
  unfold account_waiting_time in Hv2. case_match; [inv_bind Hv2|]; by injection Hv2 as <-.
Qed.

Lemma tm_generate_spec e q b t : tm_repr e q -> returns (nr_rlc_entity_tm_generate_pdu e b t) (fun '(_, e', _) =>
  (exists q', tm_repr e' q') /\ events (tm_common e') = events (tm_common e)).
Proof.
  intros H. assert (Hr : returns (nr_rlc_entity_tm_generate_pdu e b t) (fun '(_, e', _) => exists q', tm_repr e' q')).
  { pose proof (tm_entries _ _ H) as He. unfold nr_rlc_entity_tm_generate_pdu. destruct q as [|d q].
    - inversion He as [Hnil|]; subst. unfold RlcTm.generate_tx_pdu. rewrite <- Hnil. apply returns_Ret. by exists [].
    - destruct (Z.le_gt_cases (zlen d) (zlen b)) as [Hf|Hf].
      + eapply returns_mono; [by apply (tm_send e d q)|]. intros [[n e'] b'] (_ & _ & _ & ? & _). eauto.
      + inversion He as [|s ? l ? [Hsz _] _ Htx]; subst. unfold RlcTm.generate_tx_pdu. rewrite <- Htx, Hsz.
        rewrite (proj2 (Z.ltb_lt _ _)) by done. apply returns_Ret. eauto. }
  destruct Hr as ([[n e'] b'] & He & Hq). exists (n, e', b'). split; [done|]. split; [done|]. by eapply tm_generate_events.
Qed.

(** every SDU is freed, once *)
Lemma tm_free_list l : forall h q, Forall2 (tm_holds h) l q -> NoDup (map seg_sdu l) ->
  (forall a, is_Some (heap_sdus h !! a) <-> a ∈ map seg_sdu l) ->
  returns (nr_rlc_free_sdu_segment_list h l) (fun h' => heap_sdus h' = ∅ /\ heap_next h' = heap_next h).
Proof.
  induction l as [|s l IH]; intros h q Hh Hn Hl; cbn [nr_rlc_free_sdu_segment_list].
  - apply returns_Ret. split; [|done]. apply map_empty. intros a. destruct (heap_sdus h !! a) eqn:E; [|done].
    assert (Hin : a ∈ map seg_sdu []) by (apply Hl; by eexists). by apply not_elem_of_nil in Hin.
  - inversion Hh as [|? d ? q' [Hsz (u & Hu & Hd & Hrc & Hfc)] Hh']; subst. simpl in Hn.
    apply NoDup_cons in Hn as [Hns Hn]. unfold nr_rlc_free_sdu_segment, deref. rewrite Hu, bind_Ret_l. simpl.
    rewrite Hrc, Hfc. simpl. eapply returns_mono; [apply (IH _ q')|].
    + eapply Forall2_impl_in; [exact Hh'|]. intros x y Hx _ [Hxs (v & Hv & Hvd)]. split; [done|]. exists v.
      split; [|done]. simpl. rewrite lookup_delete_ne; [done|]. intros Heq. apply Hns. rewrite Heq.
      apply list_elem_of_fmap. eauto.
    + done.
    + intros a. simpl. rewrite lookup_delete_is_Some, Hl. simpl. rewrite elem_of_cons. split; [intuition congruence|].
      intros Hin. split; [|by right]. by intros <-.
    + simpl. by intros h' [? ?].
Qed.

Lemma tm_clear_ok e q : tm_repr e q -> returns (RlcTm.clear_entity e) (fun e' => tm_repr e' [] /\
  events (tm_common e') = events (tm_common e)).
Proof.
  intros [He Hn Hl Hb Hend Hs Ho Ha]. unfold RlcTm.clear_entity. eapply returns_seq; [by apply (tm_free_list _ _ q)|].
  intros h [Hh Hx]. apply returns_Ret. split; [|done]. constructor; simpl; rewrite ?Hh; try done; try constructor.
  - by intros [? ?].
  - intros Hin. by apply not_elem_of_nil in Hin.
  - done.
  - constructor.
  - constructor.
Qed.

(** ** The invariant of an entity of the layer *)

(** an acknowledged-mode entity is consistent with some peer and has given out at
    most [k] sequence numbers since it was established *)
Definition entity_inv (k a : Z) (e : rlc_entity) : Prop :=
  match e with
  | EntityAm e => exists S, am_inv S e /\ numbering k e
  | EntityTm e => exists q, tm_repr e q
  | EntityUm _ => False
  end.

Lemma entity_inv_mono k k' a e : k <= k' -> entity_inv k a e -> entity_inv k' a e.
Proof. intros Hk. destruct e; simpl; [|done|done]. intros (S & H & Hn). exists S. split; [done|by eapply numbering_mono]. Qed.

(** statistics, the average and the record of the callbacks do not matter to the
    rest *)
Lemma am_common_inv S e c : am_inv S e -> (exists q, avg_repr (txsdu_avg_time_to_tx c) q) -> am_inv S (e <| common := c |>).
Proof. intros H Hc. eapply tx_step; [exact H| |done]. destruct (ai_tx _ _ H). by constructor. Qed.

(** a peer that has not sent anything *)
Lemma no_sdus : sdus_bounded (fun _ => []).
Proof. intros sn. unfold zlen, NR_SDU_MAX. simpl. lia. Qed.

#[local] Strategy opaque [RlcAm.clear_entity RlcTm.clear_entity].

Lemma am_delete_ok S e : am_inv S e -> returns (nr_rlc_entity_am_delete e) (fun _ => True).
Proof.
  intros H. pose proof (reestablishment_ok S _ e H no_sdus) as Hr. unfold nr_rlc_entity_am_reestablishment in Hr.
  unfold nr_rlc_entity_am_delete. eapply returns_seq; [exact Hr|]. intros e' _. by apply returns_Ret.
Qed.

Lemma tm_delete_ok e q : tm_repr e q -> returns (nr_rlc_entity_tm_delete e) (fun _ => True).
Proof.
  intros H. unfold nr_rlc_entity_tm_delete. eapply returns_seq; [by apply (tm_clear_ok e q)|].
  intros e' _. by apply returns_Ret.
Qed.

Section entities.
Context (k : Z).

Abbreviation after := (entity_after true (entity_inv k)).

Lemma clear_events_inv a e : entity_inv k a e -> entity_inv k a (clear_events e).
Proof.
  destruct e as [e|e|e]; simpl; [|done|].
  - intros (S & H & Hn). exists S. split; [|by apply (view_numbering k e)]. apply am_common_inv; [done|].
    exact (tx_avg_ok _ (ai_tx _ _ H)).
  - intros [q H]. exists q. by apply (tm_common_repr e).
Qed.

Lemma delete_inv a e : entity_inv k a e -> spec true (delete_entity e) (fun _ => True).
Proof.
  destruct e as [e|e|e]; simpl entity_inv; cbn [delete_entity]; [intros (S & H & _)|done|intros [q H]]; apply spec_returns.
  - by apply (am_delete_ok S).
  - by apply (tm_delete_ok e q).
Qed.

Lemma after_am rb e S e' : re_entity rb = EntityAm e -> am_inv S e' -> numbering k e' -> after rb (EntityAm e').
Proof. intros E H Hn. constructor; [by rewrite E|by exists S|done]. Qed.

Lemma after_tm rb e e' : re_entity rb = EntityTm e -> (exists q, tm_repr e' q) -> Forall is_deliver (events (tm_common e')) ->
  after rb (EntityTm e').
Proof. intros E H Hev. by constructor; [rewrite E|..]. Qed.

(** ** What the entities do *)

(** a call of an acknowledged-mode entity *)
Lemma am_step_after rb e S e1 op : re_entity rb = EntityAm e -> am_inv S e1 -> numbering k e1 ->
  input_ok (sn_field_length e1) S op -> state_ok e1 op -> (forall b t, op <> GeneratePdu b t) -> op <> Reestablishment ->
  returns (am_step e1 op) (fun e' => after rb (EntityAm e')).
Proof.
  intros E Hi Hn Hin Hst Hop Hre. assert (Hp : peer_after S op S) by (by destruct op).
  destruct (am_step_ok S S e1 op Hi Hin Hst Hp) as (e' & He' & Hi'). exists e'. split; [done|].
  destruct (am_step_numbering S k e1 op e' Hi Hin Hst Hn He') as [Hn' _]. apply (after_am rb e S); [done|done|].
  destruct op; try done. by destruct (Hop buffer time_now).
Qed.

Lemma recv_pdu_after rb e S e1 b : re_entity rb = EntityAm e -> am_inv S e1 -> numbering k e1 ->
  input_ok (sn_field_length e1) S (RecvPdu b) -> spec true (recv_pdu (EntityAm e1) b) (after rb).
Proof. intros E Hi Hn Hc. unfold recv_pdu. apply spec_fmap, spec_returns. by apply (am_step_after rb e S e1 (RecvPdu b)). Qed.

(** an SDU that is too long stops the program *)
Lemma recv_sdu_after rb e S e1 b i t : re_entity rb = EntityAm e -> am_inv S e1 -> numbering k e1 -> b <> [] ->
  spec true (recv_sdu (EntityAm e1) b i t) (after rb).
Proof.
  intros E Hi Hn Hb. unfold recv_sdu. apply spec_fmap. destruct (Z.lt_ge_cases NR_SDU_MAX (zlen b)) as [Hl|Hl].
  - unfold nr_rlc_entity_am_recv_sdu. by rewrite (proj2 (Z.ltb_lt _ _)).
  - apply spec_returns. apply (am_step_after rb e S e1 (RecvSdu b i t)); try done. simpl.
    destruct b; [done|]. rewrite zlen_cons in *. pose proof (zlen_nonneg b). lia.
Qed.

(** a PDU that is asked for may use up a sequence number *)
Lemma generate_after rb e S e1 b t : re_entity rb = EntityAm e -> am_inv S e1 -> numbering k e1 -> next_apart e1 ->
  spec true (pdu_effect b t (EntityAm e1)) (entity_after true (entity_inv (k + 1)) rb).
Proof.
  intros E Hi Hn Ha. unfold pdu_effect, generate_pdu. apply spec_returns. rewrite bind_bind.
  destruct (generate_pdu_ok S e1 b t Hi Ha) as ([[m e'] b'] & Hg & Hi' & _). rewrite Hg, !bind_Ret_l. apply returns_Ret.
  destruct (generate_numbering S k e1 b t m e' b' Hi Ha Hn Hg) as [Hn' _].
  constructor; [by rewrite E|by exists S|done].
Qed.

Lemma status_size_ok S e n : am_inv S e -> 3 <= n -> returns (status_size e n) (fun _ => True).
Proof.
  intros [[Hl HM] Hr _ _] Hn. assert (En : zlen (replicate (Z.to_nat n) 0) = n) by (unfold zlen; rewrite length_replicate; lia).
  destruct (generate_status_ok (rx_core _ _ Hr) Hl HM (replicate (Z.to_nat n) 0) ltac:(lia)) as (e' & buf & ack & bs & _ & Hs & _).
  rewrite En in Hs. rewrite Hs. by apply returns_Ret.
Qed.

Lemma status_after rb e S e1 : re_entity rb = EntityAm e -> am_inv S e1 -> numbering k e1 ->
  spec true (status_effect (EntityAm e1)) (after rb).
Proof.
  intros E Hi Hn. unfold status_effect, buffer_status, nr_rlc_entity_am_buffer_status. apply spec_returns. rewrite bind_bind.
  eapply (returns_seq _ _ (fun _ => True)).
  - destruct (status_to_report e1); [by apply (status_size_ok S)|by apply returns_Ret].
  - intros n _. rewrite bind_Ret_l. apply returns_Ret. by apply (after_am rb e S).
Qed.

Lemma reestablishment_after rb e S : re_entity rb = EntityAm e -> am_inv S e -> 0 <= k ->
  spec true (reestablishment (re_entity rb)) (after rb).
Proof.
  intros E Hi Hk. rewrite E. unfold reestablishment. apply spec_fmap, spec_returns.
  destruct (reestablishment_ok S _ e Hi no_sdus) as (e' & He' & Hi'). exists e'. split; [done|].
  destruct (reestablishment_numbering S e e' Hi He') as [Hn _]. apply (after_am rb e (fun _ => [])); [done|done|].
  by eapply numbering_mono.
Qed.

Lemma reset_repr t q : avg_repr t q -> avg_repr (time_average_reset t) [].
Proof.
  intros [[H1 H2 H3 H4 H5 H6] _]. split; [|done]. constructor; simpl; try done; try lia.
  - split; [done|unfold zlen; simpl; lia].
  - apply Z.mod_unique with (-1); [lia|unfold zlen; simpl; lia].
Qed.

Lemma avg_after rb e S on : re_entity rb = EntityAm e -> am_inv S e -> numbering k e ->
  spec true (avg_effect on (re_entity rb)) (after rb).
Proof.
  intros E Hi Hn. rewrite E. apply (after_am rb e S); [done| |by apply (view_numbering k e)]. apply am_common_inv; [done|].
  destruct (tx_avg_ok _ (ai_tx _ _ Hi)) as [q Hq]. exists []. by apply (reset_repr _ q).
Qed.

Lemma stats_after rb e S t : re_entity rb = EntityAm e -> am_inv S e -> numbering k e ->
  spec true (stats_effect t (re_entity rb)) (after rb).
Proof.
  intros E Hi Hn. rewrite E. unfold stats_effect, nr_rlc_entity_get_stats. rewrite bind_bind.
  spec_step (fun _ : Z => True).
  - apply spec_returns. unfold head_of_line. set (l := if list_is_null (retransmit_list e) then _ else _).
    assert (Hl : forall s, s ∈ l -> s ∈ am_segs e).
    { intros s. unfold l, am_segs. rewrite !elem_of_app. destruct (list_is_null _); tauto. }
    destruct l as [|s l]; simpl; [by apply returns_Ret|].
    destruct (owned_deref _ _ s (tx_owned _ (ai_tx _ _ Hi))) as (u & Hu & _); [apply Hl; left|].
    rewrite Hu, bind_Ret_l. by apply returns_Ret.
  - intros wt _ _. cbv zeta. destruct (avg_time_is_on _).
    + destruct (tx_avg_ok _ (ai_tx _ _ Hi)) as [q Hq]. rewrite bind_bind. unfold time_average_get_average. rewrite bind_bind.
      eapply spec_bind; [apply spec_returns, (remove_old_repr _ q t Hq)|]. intros ta _ [Hta _]. rewrite bind_Ret_l.
      destruct (if ring_size _ =? 0 then _ else _) as [a b]. rewrite bind_Ret_l. unfold upd_common.
      apply (status_after rb e S); [done| |by apply (view_numbering k e)]. apply am_common_inv; [done|]. by eexists.
    + rewrite bind_Ret_l. by apply (status_after rb e S).
Qed.
End entities.

(** ** Lookups *)

Abbreviation ue_ok k := (rlc_ue_ok true (entity_inv k)).
Abbreviation layer_ok k := (rlc_layer_ok true (entity_inv k)).

Lemma layer_ok_mono k k' L : k <= k' -> layer_ok k L -> layer_ok k' L.
Proof.
  intros Hk [H1 H2 H3]. constructor; [|done|done]. eapply Forall_weaken; [|exact H1]. intros u [U1 U2 U3 U4 U5].
  constructor; try done. intros s rb Hs. destruct (U5 s rb Hs) as [R1 R2 R3]. constructor; [done|done|by eapply entity_inv_mono].
Qed.

(** the entity that a call reaches *)
Definition target (L : rlc_layer) (id : Z) (get : nr_rlc_ue_t -> outcome (option (slot_id * rlc_rb))) : option rlc_entity :=
  let '(_, _, u) := nr_rlc_manager_get_ue L id in
  match get u with Ret (Some (_, rb)) => Some (re_entity rb) | _ => None end.

Definition am_target (L : rlc_layer) (id : Z) (get : nr_rlc_ue_t -> outcome (option (slot_id * rlc_rb))) : option nr_rlc_entity_am_t :=
  match target L id get with Some (EntityAm e) => Some e | _ => None end.

Section lookups.
Context (k : Z).

Lemma on_target_safe P L id get f : layer_ok k L -> (forall u, ue_ok k u -> spec true (get u) (finds u)) ->
  (forall s rb, target L id get = Some (re_entity rb) -> rb_ok (entity_inv k) s rb ->
     spec true (f (re_entity rb)) (entity_after true P rb)) ->
  on_target true P L id get f.
Proof.
  intros H Hg Hf L1 n u E. destruct (rlc_get_ue_ok true (entity_inv k) L id L1 n u H E) as (H1 & _ & Hat & _).
  pose proof (at_ue_ok _ _ _ _ _ _ H1 Hat) as Hu. pose proof (Hg u Hu) as Hs.
  destruct (get u) as [r| | |] eqn:Er; try done. intros s rb ->. apply (Hf s).
  - unfold target. by rewrite E, Er.
  - apply (uo_slots _ _ _ Hu). by apply Hs.
Qed.

Lemma get_slot_spec u s : ue_ok k u -> match s with Srb0 => True | Srb i => 0 <= i < 3 | Drb i => 0 <= i < 32 end ->
  spec true (get_slot u s) (fun rb => finds u (in_slot s rb)).
Proof. intros Hu Hs. destruct (slot_read _ _ u s Hu Hs) as [rb E]. rewrite E. by apply in_slot_finds. Qed.

Lemma by_slot_spec s u : match s with Srb0 => True | Srb i => 0 <= i < 3 | Drb i => 0 <= i < 32 end ->
  ue_ok k u -> spec true (by_slot s u) (finds u).
Proof. intros Hs Hu. unfold by_slot. eapply spec_bind; [by apply get_slot_spec|]. done. Qed.

Lemma by_lcid_spec ch u : 0 <= ch <= 32 -> ue_ok k u -> spec true (by_lcid ch u) (finds u).
Proof.
  intros Hch Hu. unfold by_lcid, get_rlc_entity_from_lcid. destruct (Z.eqb_spec ch 0); [by apply in_slot_finds|].
  destruct (lookup_lt_is_Some_2 (ru_lcid2rb u) (Z.to_nat (ch - 1))) as [r Hr]; [rewrite (uo_lcid _ _ _ Hu); lia|].
  rewrite (proj2 (rd_slot_Ret _ _ r)) by (split; [lia|done]). rewrite bind_Ret_l.
  pose proof (Forall_lookup_1 _ _ _ _ (uo_map _ _ _ Hu eq_refl) Hr) as Hok. destruct r as [|i|i]; simpl in Hok; [done| |];
    cbn [slot_of_rb].
  - rewrite (proj2 (Z.ltb_lt _ _)) by lia. rewrite bind_Ret_l. eapply spec_bind; [apply get_slot_spec; [done|lia]|]. done.
  - rewrite bind_Ret_l. eapply spec_bind; [apply get_slot_spec; [done|lia]|]. done.
Qed.

Lemma get_rb_spec u f rb m1 m2 : m1 <= 3 -> m2 <= 32 -> ue_ok k u -> spec true (get_rb u f rb m1 m2) (finds u).
Proof.
  intros H1 H2 Hu. unfold get_rb. destruct f.
  - destruct (Z.leb_spec 1 rb), (Z.leb_spec rb m1); cbn [andb]; try done.
    eapply (spec_bind _ _ _ (fun x => finds u (in_slot (Srb (rb - 1)) x))); [apply get_slot_spec; [done|lia]|]. done.
  - destruct (Z.leb_spec 1 rb), (Z.leb_spec rb m2); cbn [andb]; try done.
    eapply (spec_bind _ _ _ (fun x => finds u (in_slot (Drb (rb - 1)) x))); [apply get_slot_spec; [done|lia]|]. done.
Qed.

(** behind the array of the logical channels, or before it *)
Lemma by_lcid_beyond ch u : ~ 0 <= ch <= 32 -> ue_ok k u -> get_rlc_entity_from_lcid u ch = Undef.
Proof.
  intros Hch Hu. unfold get_rlc_entity_from_lcid. rewrite (proj2 (Z.eqb_neq _ _)) by lia. unfold rd_slot.
  destruct (Z.ltb_spec (ch - 1) 0); [done|]. rewrite lookup_ge_None_2; [done|]. rewrite (uo_lcid _ _ _ Hu). lia.
Qed.
End lookups.

(** ** Configurations *)

Lemma decode_ok (tab : list Z) (max v : Z) : zlen tab = max + 1 ->
  spec true (if (v <? 0) || (max <? v) then Exit else rd tab v) (fun _ => True).
Proof.
  intros Hl. destruct (Z.ltb_spec v 0) as [?|H0]; [done|]. destruct (Z.ltb_spec max v) as [?|H1]; [done|].
  pose proof (decode_in_table tab max v Hl ltac:(lia)) as Hd.
  rewrite (proj2 (Z.ltb_ge v 0)), (proj2 (Z.ltb_ge max v)) in Hd by lia. eapply spec_mono; [by apply spec_returns|]. done.
Qed.

Lemma decode_sn_ok v : spec true (decode_sn_field_length_am v) (fun n => n = 12 \/ n = 18).
Proof.
  destruct (decode_sn_field_length_am v) as [n| | |] eqn:E; try done; [by eapply decode_sn_am_range| |].
  all: pose proof (decode_ok [12; 18] 1 v eq_refl) as Hk; unfold decode_sn_field_length_am in E; by rewrite E in Hk.
Qed.

Lemma read_am_values_ok ul dl sn Q : spec true sn Q ->
  spec true (read_am_values ul dl sn) (fun c => Q (cfg_sn_field_length c)).
Proof.
  intros Hsn. unfold read_am_values. do 6 (eapply (spec_bind _ _ _ (fun _ => True)); [by apply decode_ok|intros ? _ _]).
  eapply spec_bind; [exact Hsn|]. done.
Qed.

(** both lengths of the sequence numbers are present *)
Definition has_sn (c : NR_RLC_Config_t) : Prop :=
  match c with
  | NR_RLC_Config_PR_am ul dl => is_Some (ul_am_sn_FieldLength ul) /\ is_Some (dl_am_sn_FieldLength dl)
  | _ => True
  end.

Lemma read_am_ok ul dl : has_sn (NR_RLC_Config_PR_am ul dl) ->
  spec true (read_am ul dl) (fun c => cfg_sn_field_length c = 12 \/ cfg_sn_field_length c = 18).
Proof.
  intros [[u Hu] [d Hd]]. unfold read_am. apply (read_am_values_ok ul dl _ (fun n => n = 12 \/ n = 18)).
  unfold new_sn_field_length. rewrite Hu, Hd. cbn [deref_ptr]. rewrite !bind_Ret_l. destruct (negb _); [done|].
  apply decode_sn_ok.
Qed.

Lemma new_am_ok k L c : 0 <= k -> cfg_sn_field_length c = 12 \/ cfg_sn_field_length c = 18 ->
  new_ok true (entity_inv k) L (eq NR_RLC_AM) (new_am c).
Proof.
  intros Hk Hc. unfold new_ok, new_am. apply spec_fmap, spec_returns.
  destruct (new_am_inv (fun _ => []) RLC_RX_MAXSIZE RLC_TX_MAXSIZE (cfg_t_poll_retransmit c) (cfg_t_reassembly c)
    (cfg_t_status_prohibit c) (cfg_poll_pdu c) (cfg_poll_byte c) (cfg_max_retx_threshold c) (cfg_sn_field_length c) Hc no_sdus)
    as (e & He & Hi); [unfold RLC_RX_MAXSIZE; lia|].
  exists e. split; [exact He|]. assert (Hm : 0 < sn_modulus e) by (destruct (rx_cfg _ _ (rx_core _ _ (ai_rx _ _ Hi))); lia).
  unfold new_nr_rlc_entity_am in He. destruct (negb _); [done|]. inv_bind He. injection He as <-. split; [|done].
  exists (fun _ => []). split; [done|]. right. exists 0. split; [done|]. by apply empty_numbered.
Qed.

Lemma reconfigure_inv S e c : am_inv S e -> am_inv S (reconfigure_am e c None).
Proof. intros H. eapply tx_step; [exact H| |done]. destruct (ai_tx _ _ H). by constructor. Qed.

Lemma set_same_sn S e c : am_inv S e -> am_inv S (reconfigure_am e c (Some (sn_field_length e))).
Proof.
  intros H. destruct (ai_tx _ _ H). destruct H as [[Hl HM] Hr Ht Hx]. constructor; [| |done|by constructor].
  - by split.
  - by eapply rx_part_inv; [|exact Hr].
Qed.

(** a reconfiguration that changes the length of the sequence numbers *)
Definition changes_sn (e : nr_rlc_entity_am_t) (c : option NR_RLC_Config_t) : Prop :=
  match c with
  | Some (NR_RLC_Config_PR_am ul dl) =>
      match reconf_sn_field_length decode_sn_field_length_am (dl_am_sn_FieldLength dl) (ul_am_sn_FieldLength ul) with
      | Ret (Some n) => n <> sn_field_length e
      | _ => False
      end
  | Some _ => False
  | None => sn_field_length e <> 12
  end.

#[export] Instance changes_sn_dec e c : Decision (changes_sn e c).
Proof. unfold changes_sn. repeat case_match; apply _. Defined.

Lemma reconfigured_after k rb e S c : re_entity rb = EntityAm e -> am_inv S e -> numbering k e -> ~ changes_sn e c ->
  spec true (reconfigured (re_entity rb) c) (entity_after true (entity_inv k) rb).
Proof.
  intros E Hi Hn Hk. rewrite E. unfold reconfigured. destruct c as [[|ul dl| | |]|]; try done.
  - eapply (spec_bind _ _ _ (fun _ => True)); [by apply (read_am_values_ok ul dl _ (fun _ => True))|]. intros v _ _.
    simpl in Hk. unfold reconf_sn_field_length in *.
    destruct (dl_am_sn_FieldLength dl) as [d|], (ul_am_sn_FieldLength ul) as [u|]; try done.
    + destruct (negb (d =? u)); [done|]. rewrite bind_bind. eapply spec_bind; [apply decode_sn_ok|]. intros n En _.
      rewrite En, bind_Ret_l in Hk. rewrite bind_Ret_l.
      destruct (decide (n = sn_field_length e)) as [->|]; [|done]. apply (after_am k rb e S); [done|by apply set_same_sn|].
      by apply (view_numbering k e).
    + rewrite bind_Ret_l. apply (after_am k rb e S); [done|by apply reconfigure_inv|by apply (view_numbering k e)].
  - simpl in Hk. destruct (decide (sn_field_length e = 12)) as [E12|]; [|done]. rewrite <- E12.
    apply (after_am k rb e S); [done|by apply set_same_sn|by apply (view_numbering k e)].
Qed.

(** ** What a caller gives, and what may go wrong *)

(** the identities in the configuration of a bearer are those of slots, and its
    mode is the acknowledged mode *)
Definition bearer_config_ok (bc : NR_RLC_BearerConfig_t) (drb : bool) : Prop :=
  1 <= logicalChannelIdentity bc <= 32 /\
  match servedRadioBearer bc with
  | Some (servedRadioBearer_PR_srb_Identity id) => 1 <= id <= 3
  | Some (servedRadioBearer_PR_drb_Identity id) => 1 <= id <= 32
  | _ => True
  end /\
  match rlc_Config bc with
  | Some (NR_RLC_Config_PR_um_Bi_Directional _ _) => drb = false
  | Some c => has_sn c
  | None => drb = false
  end.

(** a STATUS PDU, or a data PDU of a peer that is consistent with what the entity
    has received so far *)
Definition peer_sends (now : Z) (b : list Z) (e : nr_rlc_entity_am_t) : Prop :=
  is_status b = true \/
  forall e1, nr_rlc_entity_am_set_time e now = Ret e1 -> exists S, am_inv S e1 /\ sent S (sn_field_length e1) b.

(** what the peer, PDCP and RRC give; nothing is asked of the MAC, of the clock,
    of F1 or of the state of the layer *)
Definition call_input (L : rlc_layer) (op : rlc_op) : Prop :=
  match op with
  | MacDataInd id _ _ ch b =>
      match am_target L id (by_lcid ch) with Some e => peer_sends (rl_current_time L) b e | None => True end
  | RlcDataReq _ _ _ _ sdu _ => sdu <> []
  | SrbRecvSdu _ _ b _ => b <> []
  | AddSrb _ _ bc => bearer_config_ok bc false
  | AddDrb _ _ bc => bearer_config_ok bc true
  | _ => True
  end.

(** a logical channel outside the array of the UE *)
Definition wrong_channel (op : rlc_op) : Prop :=
  match op with
  | MacDataInd _ _ _ ch _ | MacDataReq _ ch _ _ | MacStatusInd _ ch | MacBufferOccupancy _ _ _ _ ch
  | AvailableTxSpace _ ch | ReestablishEntity _ ch | ReleaseEntity _ ch | ReconfigureEntity _ ch _ => ~ 0 <= ch <= 32
  | SrbRecvSdu _ ch _ _ => ~ 0 <= ch <= 3
  | _ => False
  end.

(** a bearer that has not been established *)
Definition missing_bearer (L : rlc_layer) (op : rlc_op) : Prop :=
  match op with
  | ReconfigureEntity id ch _ => target L id (by_lcid ch) = None
  | TestReestablishment id => target L id (by_slot (Srb 0)) = None \/ target L id (by_slot (Drb 0)) = None
  | _ => False
  end.

(** the acknowledged-mode entity that is given the time at a call *)
Definition timed_am (L : rlc_layer) (op : rlc_op) : option (Z * nr_rlc_entity_am_t) :=
  let at_time L e := option_map (pair (rl_current_time L)) e in
  match op with
  | MacDataInd id _ _ ch _ | MacDataReq id ch _ _ | MacStatusInd id ch => at_time L (am_target L id (by_lcid ch))
  | MacBufferOccupancy id f sf _ ch => let L := nr_rlc_tick L f sf in at_time L (am_target L id (by_lcid ch))
  | RlcDataReq ctxt srb rb _ _ _ =>
      at_time L (am_target L (s32 (rntiMaybeUEid ctxt)) (fun u => get_rb u srb rb 2 RLC_MAX_DRBS_PER_UE))
  | SrbRecvSdu id ch _ _ => at_time L (am_target L id (by_slot (if ch =? 0 then Srb0 else Srb (ch - 1))))
  | _ => None
  end.

Definition idle_poll (L : rlc_layer) (op : rlc_op) : Prop :=
  match timed_am L op with Some (now, e) => poll_finds_nothing e now | None => False end.

Definition undefined_call (L : rlc_layer) (op : rlc_op) : Prop :=
  wrong_channel op \/ missing_bearer L op \/ idle_poll L op.

(** a PDU is asked for when the segment to be sent has the number of one in flight *)
Definition sn_collision (L : rlc_layer) (op : rlc_op) : Prop :=
  match op, timed_am L op with
  | MacDataReq _ _ _ _, Some (now, e) =>
      match nr_rlc_entity_am_set_time e now with Ret e1 => ~ next_apart e1 | _ => False end
  | _, _ => False
  end.

Definition sn_length_changed (L : rlc_layer) (op : rlc_op) : Prop :=
  match op with
  | ReconfigureEntity id ch c => match am_target L id (by_lcid ch) with Some e => changes_sn e c | None => False end
  | _ => False
  end.

#[export] Instance wrong_channel_dec op : Decision (wrong_channel op).
Proof. destruct op; apply _. Defined.

#[export] Instance missing_bearer_dec L op : Decision (missing_bearer L op).
Proof. destruct op; apply _. Defined.

#[export] Instance idle_poll_dec L op : Decision (idle_poll L op).
Proof. unfold idle_poll. destruct (timed_am L op) as [[now e]|]; apply _. Defined.

#[export] Instance sn_collision_dec L op : Decision (sn_collision L op).
Proof. unfold sn_collision. destruct op; try apply _. destruct (timed_am L _) as [[now e]|]; [|apply _]. case_match; apply _. Defined.

#[export] Instance sn_length_changed_dec L op : Decision (sn_length_changed L op).
Proof. destruct op; simpl; try apply _. case_match; apply _. Defined.

(** ** The calls that are not undefined *)

Section calls.
Context (k : Z) (Hk : 0 <= k).

Abbreviation after := (entity_after true (entity_inv k)).

Lemma any_slot s rb : rb_ok (entity_inv k) s rb ->
  (exists e S, re_entity rb = EntityAm e /\ am_inv S e /\ numbering k e) \/
  (exists e q, re_entity rb = EntityTm e /\ tm_repr e q /\ events (tm_common e) = []).
Proof.
  intros [_ Hev Hi]. destruct (re_entity rb) as [e|e|e]; simpl in Hi, Hev; [|done|].
  - destruct Hi as (S & Hi & Hn). left. eauto 6.
  - destruct Hi as [q Hq]. right. eauto 6.
Qed.

(** a slot of the SRBs or DRBs holds an acknowledged-mode entity *)
Lemma am_slot s rb : rb_ok (entity_inv k) s rb -> s <> Srb0 ->
  exists e S, re_entity rb = EntityAm e /\ am_inv S e /\ numbering k e.
Proof.
  intros Hrb Hs. destruct (any_slot s rb Hrb) as [H|(e & q & E & _)]; [done|].
  destruct Hrb as [Hkind _ _]. destruct s; simpl in Hkind; rewrite ?E in Hkind; [done|by destruct Hkind..].
Qed.

Lemma timed_am_ok P L rb e S f : re_entity rb = EntityAm e -> am_inv S e -> numbering k e -> poll_safe e (rl_current_time L) ->
  (forall e1, nr_rlc_entity_am_set_time e (rl_current_time L) = Ret e1 -> am_inv S e1 -> numbering k e1 ->
     spec true (f (EntityAm e1)) (entity_after true P rb)) ->
  spec true (with_time L f (re_entity rb)) (entity_after true P rb).
Proof.
  intros E Hi Hn Hp Hf. rewrite E. unfold with_time, set_time.
  destruct (set_time_ok S e _ Hi Hp) as (e1 & He1 & Hi1). rewrite He1. apply Hf; [done|done|].
  eapply shrinks_numbering; [by eapply set_time_shrinks|done].
Qed.

Lemma timed_tm_ok P L rb e q f : re_entity rb = EntityTm e -> tm_repr e q ->
  (forall e1, tm_repr e1 q -> events (tm_common e1) = events (tm_common e) -> spec true (f (EntityTm e1)) (entity_after true P rb)) ->
  spec true (with_time L f (re_entity rb)) (entity_after true P rb).
Proof.
  intros E Hq Hf. rewrite E. unfold with_time, set_time. rewrite bind_Ret_l. apply Hf; [|done]. by apply (tm_common_repr e).
Qed.

(** a timed operation on whatever entity is reached *)
Lemma timed_contract P L id get f : layer_ok k L -> (forall u, ue_ok k u -> spec true (get u) (finds u)) ->
  (forall e, am_target L id get = Some e -> poll_safe e (rl_current_time L)) ->
  (forall rb e S e1, am_target L id get = Some e -> re_entity rb = EntityAm e ->
     nr_rlc_entity_am_set_time e (rl_current_time L) = Ret e1 -> am_inv S e1 -> numbering k e1 ->
     spec true (f (EntityAm e1)) (entity_after true P rb)) ->
  (forall rb e q e1, re_entity rb = EntityTm e -> tm_repr e1 q -> events (tm_common e1) = [] ->
     spec true (f (EntityTm e1)) (entity_after true P rb)) ->
  on_target true P L id get (with_time L f).
Proof.
  intros H Hg Ha Hf Ht. apply (on_target_safe k); [done|done|]. intros s rb Hr Hrb.
  destruct (any_slot _ _ Hrb) as [(e & S & E & Hi & Hn)|(e & q & E & Hq & Hev)].
  - assert (Hat : am_target L id get = Some e) by (unfold am_target; by rewrite Hr, E).
    apply (timed_am_ok P L rb e S); [done|done|done|by apply Ha|]. intros e1. by apply (Hf rb e S).
  - eapply (timed_tm_ok P L rb e q); [done|done|]. intros e1 Hq1 Hev1. apply (Ht rb e q); [done|done|congruence].
Qed.

Lemma clock_contract L id get : layer_ok k L -> (forall u, ue_ok k u -> spec true (get u) (finds u)) ->
  (forall e, am_target L id get = Some e -> poll_safe e (rl_current_time L)) ->
  on_target true (entity_inv k) L id get (with_time L status_effect).
Proof.
  intros H Hg Ha. apply timed_contract; [done|done|done| |].
  - intros rb e S e1 _ E _ Hi Hn. by apply (status_after k rb e S).
  - intros rb e q e1 E Hq Hev. apply (after_tm k rb e); [done|eauto|]. rewrite Hev. constructor.
Qed.

Lemma recv_sdu_tm rb e q e1 b i t : re_entity rb = EntityTm e -> tm_repr e1 q -> events (tm_common e1) = [] ->
  spec true (recv_sdu (EntityTm e1) b i t) (after rb).
Proof.
  intros E Hq Hev. unfold recv_sdu. apply spec_fmap. eapply spec_mono; [by apply (tm_recv_sdu_spec e1 q)|].
  intros e' [Hq' Hev']. apply (after_tm k rb e); [done|done|]. rewrite Hev', Hev. constructor.
Qed.

Lemma reestablishment_contract L id get : layer_ok k L -> (forall u, ue_ok k u -> spec true (get u) (finds u)) ->
  on_target true (entity_inv k) L id get reestablishment.
Proof using Hk.
  intros H Hg. apply (on_target_safe k); [done|done|]. intros s rb _ Hrb.
  destruct (any_slot _ _ Hrb) as [(e & S & E & Hi & _)|(e & q & E & Hq & Hev)].
  - by apply (reestablishment_after k rb e S).
  - rewrite E. unfold reestablishment, nr_rlc_entity_tm_reestablishment. apply spec_fmap.
    eapply spec_mono; [apply spec_returns, (tm_clear_ok e q Hq)|]. intros e' [Hq' Hev'].
    apply (after_tm k rb e); [done|eauto|]. rewrite Hev', Hev. constructor.
Qed.

Lemma kept_contract L id get : layer_ok k L -> (forall u, ue_ok k u -> spec true (get u) (finds u)) ->
  on_target true (entity_inv k) L id get Ret.
Proof.
  intros H Hg. apply (on_target_safe k); [done|done|]. intros s rb _ Hrb. constructor; [done|apply Hrb|].
  intros _ _. rewrite (rk_events _ _ _ Hrb). constructor.
Qed.

Lemma slot_contract L id get f : layer_ok k L -> (forall u, ue_ok k u -> spec true (get u) (finds u)) ->
  (forall u s rb, get u = Ret (Some (s, rb)) -> s <> Srb0) ->
  (forall rb e S, re_entity rb = EntityAm e -> am_inv S e -> numbering k e -> spec true (f (re_entity rb)) (after rb)) ->
  on_target true (entity_inv k) L id get f.
Proof.
  intros H Hg Hs Hf L1 n u E. destruct (rlc_get_ue_ok true (entity_inv k) L id L1 n u H E) as (H1 & _ & Hat & _).
  pose proof (at_ue_ok _ _ _ _ _ _ H1 Hat) as Hu. pose proof (Hg u Hu) as Hf'. destruct (get u) as [r| | |] eqn:Er; try done.
  intros s rb ->. destruct (am_slot s rb) as (e & S & Ee & Hi & Hn); [|by eapply Hs|by apply (Hf rb e S)].
  apply (uo_slots _ _ _ Hu). by apply Hf'.
Qed.

Lemma by_slot_is s u s' rb : by_slot s u = Ret (Some (s', rb)) -> s' = s.
Proof. unfold by_slot. intros H. inv_bind H. destruct v; [|done]. by injection H. Qed.

Lemma get_rb_is u f rb m1 m2 s r : get_rb u f rb m1 m2 = Ret (Some (s, r)) -> s <> Srb0.
Proof.
  unfold get_rb. intros H. destruct f; (destruct (_ && _); [|done]); inv_bind H; destruct v; try done; by injection H as <- _.
Qed.

(** the clock finds the entity of a timed call ready *)
Lemma not_idle L op now e : ~ undefined_call L op -> timed_am L op = Some (now, e) -> poll_safe e now.
Proof.
  intros Hu E. apply poll_safe_iff. intros Hp. apply Hu. right. right. unfold idle_poll. by rewrite E.
Qed.

Lemma target_found L id get : target L id get <> None ->
  exists L1 n u s rb, nr_rlc_manager_get_ue L id = (L1, n, u) /\ get u = Ret (Some (s, rb)) /\ target L id get = Some (re_entity rb).
Proof.
  unfold target. destruct (nr_rlc_manager_get_ue L id) as [[L1 n] u]. intros H. destruct (get u) as [[[s rb]|]| | |] eqn:E; try done.
  by exists L1, n, u, s, rb.
Qed.

(** the UE of an entity that is found is in the table *)
Lemma found_ue L id get : (forall u r, get u = Ret r -> finds u r) -> target L id get <> None ->
  exists n u s rb, at_ue L id n u /\ get u = Ret (Some (s, rb)).
Proof.
  intros Hg H. destruct (target_found L id get H) as (L1 & n & u & s & rb & E & Hr & _).
  unfold nr_rlc_manager_get_ue in E. destruct (find_rlc_ue (rl_ue_list L) id) as [m|] eqn:Em.
  - destruct (find_ue_lookup _ _ _ Em) as (v & Hv & _). rewrite Hv in E. simplify_eq. exists n, u, s, rb. by split.
  - simplify_eq. exfalso. by apply (new_ue_empty id s rb), (Hg _ _ Hr s rb).
Qed.

Lemma add_contract L op : layer_ok k L -> call_input L op ->
  match op with
  | AddSrb _ _ _ | AddDrb _ _ _ | ActivateSrb0 _ _ _ => op_contract true (entity_inv k) L op
  | _ => True
  end.
Proof using Hk.
  intros H Hin. destruct op; cbn [op_contract call_input] in *; try done.
  - destruct Hin as (Hl & Hs & Hc). split.
    + unfold am_of. destruct (rlc_Config bc) as [[|ul dl| | |]|]; try (by apply new_am_ok; [|left]).
      eapply spec_mono; [by apply read_am_ok|]. intros c. by apply new_am_ok.
    + intros id E. rewrite E in Hs. intros _. done.
  - destruct Hin as (Hl & Hs & Hc). split.
    + destruct (rlc_Config bc) as [[|ul dl| | |]|]; try done. eapply spec_mono; [by apply read_am_ok|]. intros c. by apply new_am_ok.
    + intros id E. rewrite E in Hs. intros _. done.
  - unfold new_ok. apply spec_fmap, spec_returns. destruct (tm_new_repr 10000) as (e & He & Hq & _). exists e. split; [done|].
    split; [by exists []|]. split; [done|]. unfold new_nr_rlc_entity_tm in He. inv_bind He. by injection He as <-.
Qed.

Lemma reconfigure_contract L id ch c : layer_ok k L ->
  ~ undefined_call L (ReconfigureEntity id ch c) -> ~ sn_length_changed L (ReconfigureEntity id ch c) ->
  op_contract true (entity_inv k) L (ReconfigureEntity id ch c).
Proof.
  intros H Hu Hs. assert (Hch : 0 <= ch <= 32).
  { destruct (decide (0 <= ch <= 32)); [done|]. destruct Hu. by left. }
  assert (Hex : target L id (by_lcid ch) <> None) by (intros E; destruct Hu; right; by left).
  split.
  - apply (on_target_safe k); [done|intros; by apply (by_lcid_spec k)|]. intros s rb Hr Hrb.
    destruct (any_slot _ _ Hrb) as [(e & S & E & Hi & Hn)|(e & q & E & Hq & Hev)].
    + apply (reconfigured_after k rb e S); [done|done|done|]. intros Hc. destruct Hs. unfold sn_length_changed, am_target.
      by rewrite Hr, E.
    + rewrite E. by destruct c as [[| | | |]|].
  - intros _ L1 n u E Hg. destruct (target_found L id _ Hex) as (L2 & n2 & u2 & s & rb & E2 & Hr & _). congruence.
Qed.

Lemma test_contract L id : layer_ok k L -> ~ undefined_call L (TestReestablishment id) ->
  op_contract true (entity_inv k) L (TestReestablishment id).
Proof using Hk.
  intros H Hu. cbn [op_contract].
  split_and!; [(apply reestablishment_contract; [done|intros; apply (by_slot_spec k); [lia|done]])..|].
  intros _. assert (Hs : forall s, (forall u r, by_slot s u = Ret r -> finds u r)) by (intros s; apply by_slot_finds).
  destruct (found_ue L id (by_slot (Srb 0)) (Hs _)) as (n & u & s1 & r1 & Hat1 & Hg1).
  { intros E. destruct Hu. right. left. by left. }
  destruct (found_ue L id (by_slot (Drb 0)) (Hs _)) as (n2 & u2 & s2 & r2 & Hat2 & Hg2).
  { intros E. destruct Hu. right. left. by right. }
  destruct Hat1 as [A1 A2], Hat2 as [B1 B2]. simplify_eq. exists n, u, r1, r2. split; [done|].
  pose proof (by_slot_is _ _ _ _ Hg1) as ->. pose proof (by_slot_is _ _ _ _ Hg2) as ->.
  split; [exact (by_slot_finds _ _ _ Hg1 _ _ eq_refl)|exact (by_slot_finds _ _ _ Hg2 _ _ eq_refl)].
Qed.

(** the requests for a PDU *)
Definition requests_after (op : rlc_op) : Z := match op with MacDataReq _ _ _ _ => k + 1 | _ => k end.

Lemma in_range L op ch : ~ undefined_call L op -> (wrong_channel op <-> ~ 0 <= ch <= 32) -> 0 <= ch <= 32.
Proof. intros Hu Hw. destruct (decide (0 <= ch <= 32)); [done|]. destruct Hu. left. by apply Hw. Qed.

Lemma data_req_contract L id ch b t :
  layer_ok k L -> ~ undefined_call L (MacDataReq id ch b t) -> ~ sn_collision L (MacDataReq id ch b t) ->
  op_contract true (entity_inv (k + 1)) L (MacDataReq id ch b t).
Proof.
  intros H Hu Hs. pose proof (in_range L _ ch Hu (iff_refl _)) as Hch.
  assert (Ht : forall e, am_target L id (by_lcid ch) = Some e ->
    timed_am L (MacDataReq id ch b t) = Some (rl_current_time L, e)) by (intros e E; simpl; by rewrite E).
  apply timed_contract; [done|intros; by apply (by_lcid_spec k)| | |].
  - intros e E. by apply (not_idle L _ _ e Hu), Ht.
  - intros rb e S e1 E Er He1 Hi Hn. apply (generate_after k rb e S); [done|done|done|].
    destruct (decide (next_apart e1)) as [|Ha]; [done|]. destruct Hs. unfold sn_collision. by rewrite (Ht e E), He1.
  - intros rb e q e1 E Hq Hev. unfold pdu_effect, generate_pdu. apply spec_returns. rewrite bind_bind.
    eapply returns_seq; [by apply (tm_generate_spec e1 q)|]. intros [[n e'] b'] [Hq' Hev']. apply returns_Ret.
    apply (after_tm (k + 1) rb e); [done|done|]. rewrite Hev', Hev. constructor.
Qed.

Lemma recv_sdu_contract L id get op b i t : layer_ok k L -> (forall u, ue_ok k u -> spec true (get u) (finds u)) ->
  ~ undefined_call L op -> (forall e, am_target L id get = Some e -> timed_am L op = Some (rl_current_time L, e)) -> b <> [] ->
  on_target true (entity_inv k) L id get (with_time L (fun e => recv_sdu e b i t)).
Proof.
  intros H Hg Hu Ht Hb. apply timed_contract; [done|done| | |].
  - intros e E. by apply (not_idle L _ _ e Hu), Ht.
  - intros rb e S e1 _ E _ Hi Hn. by apply (recv_sdu_after k rb e S).
  - intros rb e q e1. by apply recv_sdu_tm.
Qed.

Lemma data_ind_contract L id x y ch b :
  layer_ok k L -> call_input L (MacDataInd id x y ch b) -> ~ undefined_call L (MacDataInd id x y ch b) ->
  op_contract true (entity_inv k) L (MacDataInd id x y ch b).
Proof.
  intros H Hin Hu. pose proof (in_range L _ ch Hu (iff_refl _)) as Hch.
  apply timed_contract; [done|intros; by apply (by_lcid_spec k)| | |].
  - intros e E. apply (not_idle L _ _ e Hu). simpl. by rewrite E.
  - intros rb e S e1 E Er He1 Hi Hn. simpl in Hin. rewrite E in Hin. destruct Hin as [Hst|Hs].
    + apply (recv_pdu_after k rb e S); [done|done|done|by left].
    + destruct (Hs e1 He1) as (S' & Hi' & Hs'). apply (recv_pdu_after k rb e S'); [done|done|done|by right].
  - intros rb e q e1 E Hq Hev. destruct (tm_recv_pdu_repr e1 q b Hq) as [Hq' Hev']. apply (after_tm k rb e); [done|eauto|].
    rewrite Hev', Hev. by repeat constructor.
Qed.

Lemma status_contract L op : layer_ok k L -> ~ undefined_call L op ->
  match op with
  | MacStatusInd _ _ | MacBufferOccupancy _ _ _ _ _ => op_contract true (entity_inv k) L op
  | _ => True
  end.
Proof.
  intros H Hu. destruct op; try done; cbn [op_contract].
  - pose proof (in_range L _ channel_id Hu (iff_refl _)). apply clock_contract; [done|intros; by apply (by_lcid_spec k)|].
    intros e E. apply (not_idle L _ _ e Hu). simpl. by rewrite E.
  - pose proof (in_range L _ channel_id Hu (iff_refl _)). pose proof (tick_same L frame subframe) as Ht.
    apply clock_contract; [by eapply same_table_ok|intros; by apply (by_lcid_spec k)|].
    intros e E. apply (not_idle L _ _ e Hu). simpl. by rewrite E.
Qed.

Lemma call_contract L op : layer_ok k L -> call_input L op -> ~ undefined_call L op -> ~ sn_collision L op ->
  ~ sn_length_changed L op -> op_contract true (entity_inv (requests_after op)) L op.
Proof using Hk.
  intros H Hin Hu Hs Hl. pose proof (add_contract L op H Hin) as Hadd. pose proof (status_contract L op H Hu) as Hst.
  destruct op; cbn [requests_after]; try done.
  - by apply data_ind_contract.
  - by apply data_req_contract.
  - eapply recv_sdu_contract; [done| |exact Hu| |done].
    + intros u Hue. apply (get_rb_spec k); [lia|unfold RLC_MAX_DRBS_PER_UE; lia|done].
    + intros e E. simpl. by rewrite E.
  - eapply recv_sdu_contract; [done| |exact Hu| |done].
    + intros u Hue. apply (by_slot_spec k); [|done]. destruct (Z.eqb_spec channel_id 0); [done|].
      destruct (decide (0 <= channel_id <= 3)); [lia|]. destruct Hu. by left.
    + intros e E. simpl. by rewrite E.
  - pose proof (in_range L _ channel_id Hu (iff_refl _)). by apply kept_contract; [|intros; apply (by_lcid_spec k)].
  - pose proof (in_range L _ lc_id Hu (iff_refl _)). by apply reestablishment_contract; [|intros; apply (by_lcid_spec k)].
  - by apply reconfigure_contract.
  - pose proof (in_range L _ channel_id Hu (iff_refl _)). by apply kept_contract; [|intros; apply (by_lcid_spec k)].
  - by apply reestablishment_contract; [|intros; apply (by_slot_spec k); [lia|]].
  - by apply test_contract.
  - cbn [op_contract]. destruct (avg_slot channel_id) as [s|] eqn:Es; [|done]. unfold avg_slot in Es.
    assert (Hr : match s with Srb0 => False | Srb i => 0 <= i < 3 | Drb i => 0 <= i < 32 end).
    { destruct (Z.leb_spec 1 channel_id), (Z.leb_spec channel_id 3), (Z.leb_spec 4 channel_id), (Z.leb_spec channel_id 8);
        simpl in Es; simplify_eq; lia. }
    eapply slot_contract; [done|intros; apply (by_slot_spec k); [by destruct s|done]| |].
    + intros u s' rb E%by_slot_is ->. by subst.
    + intros rb e S. apply (avg_after k).
  - eapply slot_contract; [done|intros; apply (get_rb_spec k); [lia|lia|done]| |].
    + intros u s rb. apply get_rb_is.
    + intros rb e S. apply (stats_after k).
Qed.

Lemma call_safe node L op : node_ok node -> layer_ok k L -> call_input L op -> ~ undefined_call L op -> ~ sn_collision L op ->
  ~ sn_length_changed L op -> spec true (rlc_step node L op) (layer_ok (requests_after op)).
Proof using Hk.
  intros Hn H Hin Hu Hs Hl. assert (Hle : k <= requests_after op) by (unfold requests_after; case_match; lia).
  eapply spec_mono.
  - apply (rlc_step_spec true (entity_inv (requests_after op)) node (clear_events_inv _) (fun _ => Hn) (delete_inv _) L op).
    + by eapply layer_ok_mono.
    + by apply call_contract.
  - by intros L' [HL' _].
Qed.
End calls.

(** ** The calls that are undefined *)

Section undefined.
Context (k : Z) (Hk : 0 <= k) (node : rlc_node) (Hnode : node_ok node).

Lemma looked_up L id : layer_ok k L -> exists L1 n u, nr_rlc_manager_get_ue L id = (L1, n, u) /\ layer_ok k L1 /\ at_ue L1 id n u /\
  ue_ok k u /\ rl_current_time L1 = rl_current_time L.
Proof.
  intros H. destruct (nr_rlc_manager_get_ue L id) as [[L1 n] u] eqn:E.
  destruct (rlc_get_ue_ok true (entity_inv k) L id L1 n u H E) as (H1 & _ & Hat & _). exists L1, n, u. split_and!; try done.
  - by eapply at_ue_ok.
  - unfold nr_rlc_manager_get_ue in E. repeat case_match; by simplify_eq.
Qed.

Lemma slot_beyond i (l : list (option rlc_rb)) : ~ 0 <= i < Z.of_nat (length l) -> rd_slot l i = Undef.
Proof. intros Hi. unfold rd_slot. destruct (Z.ltb_spec i 0); [done|]. rewrite lookup_ge_None_2; [done|lia]. Qed.

Lemma wrong_channel_stops L op : layer_ok k L -> wrong_channel op ->
  rlc_step node L op = Undef \/ rlc_step node L op = Exit.
Proof.
  intros H Hw.
  destruct op; simpl in Hw; try done; cbn [rlc_step];
    unfold mac_rlc_data_ind, mac_rlc_data_req, mac_rlc_get_buffer_occupancy_ind, mac_rlc_status_ind, nr_rlc_srb_recv_sdu,
      nr_rlc_get_available_tx_space, nr_rlc_reestablish_entity, nr_rlc_reconfigure_entity, nr_rlc_release_entity,
      release_rlc_entity_from_lcid;
    try (destruct (negb _ || negb _); [by right|]); try (destruct (negb _); [by right|]); left;
    match goal with |- context [nr_rlc_manager_get_ue ?L0 ?id] =>
      destruct (looked_up L0 id) as (L1 & n & u & -> & H1 & Hat & Hu & _);
        [first [done|exact (same_table_ok _ _ _ _ (tick_same _ _ _) H)]|]
    end; try (by rewrite (by_lcid_beyond k)).
  - rewrite (proj2 (Z.eqb_neq _ _)) by lia. cbn [get_slot]. rewrite slot_beyond; [done|]. rewrite (uo_srb _ _ _ Hu). lia.
  - rewrite (proj2 (Z.eqb_neq _ _)) by lia. unfold rd_slot. destruct (Z.ltb_spec (channel_id - 1) 0); [done|].
    rewrite lookup_ge_None_2; [done|]. rewrite (uo_lcid _ _ _ Hu). lia.
Qed.

Lemma am_target_found L id get e : layer_ok k L -> am_target L id get = Some e ->
  exists L1 n u s rb, nr_rlc_manager_get_ue L id = (L1, n, u) /\ get u = Ret (Some (s, rb)) /\ re_entity rb = EntityAm e /\
    rl_current_time L1 = rl_current_time L /\ ue_ok k u.
Proof.
  intros H E. destruct (looked_up L id H) as (L1 & n & u & Eg & _ & _ & Hu & Et).
  assert (Ht : target L id get <> None) by (intros E'; unfold am_target in E; by rewrite E' in E).
  destruct (target_found L id get Ht) as (L2 & n2 & u2 & s & rb & E2 & Hr & Er). rewrite Eg in E2. simplify_eq.
  exists L2, n2, u2, s, rb. split_and!; try done. unfold am_target in E. rewrite Er in E. destruct (re_entity rb); congruence.
Qed.

Lemma set_time_null e now : poll_finds_nothing e now -> set_time (EntityAm e) now = Undef.
Proof. intros Hp. unfold set_time. by rewrite poll_null. Qed.

Lemma idle_poll_stops L op : layer_ok k L -> idle_poll L op ->
  rlc_step node L op = Undef \/ rlc_step node L op = Exit.
Proof.
  intros H Hp. unfold idle_poll in Hp. destruct (timed_am L op) as [[now e]|] eqn:Et; [|done].
  destruct op; simpl in Et; try done; cbn [rlc_step];
    unfold mac_rlc_data_ind, mac_rlc_data_req, mac_rlc_get_buffer_occupancy_ind, mac_rlc_status_ind, nr_rlc_srb_recv_sdu, rlc_data_req;
    try (destruct (negb _ || negb _); [by right|]); try (destruct (negb _); [by right|]); left;
    match type of Et with
    | option_map _ (am_target ?L' ?id ?get) = _ =>
        destruct (am_target L' id get) as [e0|] eqn:Ea; [|done]; injection Et as <- <-;
        destruct (am_target_found L' id get e0) as (L1 & n & u & s & rb & -> & Hg & Er & Ec & _);
          [first [done|exact (same_table_ok _ _ _ _ (tick_same _ _ _) H)]|done|]
    end.
  all: try (unfold by_lcid in Hg; rewrite Hg, bind_Ret_l, Er, Ec, set_time_null by done; done).
  all: try (rewrite Hg, bind_Ret_l, Er, Ec, set_time_null by done; done).
  pose proof (by_slot_is _ _ _ _ Hg) as ->. pose proof (by_slot_finds _ _ _ Hg _ _ eq_refl) as Hs.
  by rewrite Hs, bind_Ret_l, Er, Ec, set_time_null by done.
Qed.

Lemma slot_empty L id s : layer_ok k L -> match s with Srb0 => True | Srb i => 0 <= i < 3 | Drb i => 0 <= i < 32 end ->
  forall L1 n u, nr_rlc_manager_get_ue L id = (L1, n, u) -> ue_ok k u -> target L id (by_slot s) = None -> get_slot u s = Ret None.
Proof.
  intros H Hs L1 n u E Hu Ht. destruct (slot_read _ _ u s Hu Hs) as [[rb|] Hr]; [|done].
  unfold target, by_slot in Ht. by rewrite E, Hr in Ht.
Qed.

Lemma missing_bearer_stops L op : layer_ok k L -> missing_bearer L op ->
  rlc_step node L op = Undef \/ rlc_step node L op = Exit.
Proof using Hk Hnode.
  intros H Hm. destruct op; simpl in Hm; try done; cbn [rlc_step].
  - destruct (decide (0 <= lc_id <= 32)) as [Hch|Hch]; [|by apply (wrong_channel_stops L (ReconfigureEntity ue_id lc_id c))].
    unfold nr_rlc_reconfigure_entity. destruct (looked_up L ue_id H) as (L1 & n & u & E & H1 & Hat & Hu & _). rewrite E.
    pose proof (by_lcid_spec k lc_id u Hch Hu) as Hs. unfold target in Hm. rewrite E in Hm. unfold by_lcid in *.
    destruct (get_rlc_entity_from_lcid u lc_id) as [[[s rb]|]| | |]; try done; [by left|by right].
  - unfold nr_rlc_test_trigger_reestablishment. destruct (looked_up L ue_id H) as (L1 & n & u & E & H1 & Hat & Hu & _). rewrite E.
    destruct (slot_read _ _ u (Srb 0) Hu) as [[rb|] Hr]; [simpl; lia| |rewrite Hr; by left]. rewrite Hr, bind_Ret_l.
    cbn [deref_ptr]. rewrite bind_Ret_l. destruct Hm as [Hm|Hm].
    { pose proof (slot_empty L ue_id (Srb 0) H ltac:(simpl; lia) L1 n u E Hu Hm). congruence. }
    pose proof (slot_empty L ue_id (Drb 0) H ltac:(simpl; lia) L1 n u E Hu Hm) as Hd.
    destruct (am_slot k (Srb 0) rb) as (e & S & Ee & Hi & _); [by apply (uo_slots _ _ _ Hu)|done|].
    pose proof (reestablishment_after k rb e S Ee Hi Hk) as Hre. destruct (reestablishment (re_entity rb)) as [e1| | |]; try done;
      [|by right]. rewrite bind_Ret_l.
    pose proof (finish_rb_ok true (entity_inv k) node (clear_events_inv k) (fun _ => Hnode) L1 ue_id n u (Srb 0) rb e1 H1 Hat Hr Hre) as Hf.
    destruct (finish_rb node L1 n u (Srb 0) rb e1) as [L2| | |]; try done; [|by right]. destruct Hf as [_ Hat2].
    rewrite bind_Ret_l, (at_get_ue _ _ _ _ Hat2). left. set (u2 := set_slot u _ _).
    change (get_slot u2 (Drb 0)) with (get_slot u (Drb 0)). by rewrite Hd.
Qed.

Lemma undefined_stops L op : layer_ok k L -> undefined_call L op ->
  rlc_step node L op = Undef \/ rlc_step node L op = Exit.
Proof using Hk Hnode.
  intros H [Hu|[Hu|Hu]]; [by apply wrong_channel_stops|by apply missing_bearer_stops|by apply idle_poll_stops].
Qed.

(** a collision takes as many requests as there are sequence numbers *)
Lemma collision_requests L op : layer_ok k L -> sn_collision L op -> ~ undefined_call L op -> 2 ^ 12 <= k.
Proof.
  intros H Hs Hu. destruct op; try done. unfold sn_collision in Hs. simpl in Hs.
  destruct (am_target L ue_id (by_lcid channel_id)) as [e|] eqn:Ea; [|done]. simpl in Hs.
  destruct (am_target_found L ue_id _ e H Ea) as (L1 & n & u & s & rb & E & Hg & Er & _ & Hue).
  assert (Hrb : rb_ok (entity_inv k) s rb) by (apply (uo_slots _ _ _ Hue), (by_lcid_finds channel_id u _ Hg); done).
  destruct Hrb as [_ _ Hi]. rewrite Er in Hi. destruct Hi as (S & Hi & Hn).
  destruct (nr_rlc_entity_am_set_time e (rl_current_time L)) as [e1| | |] eqn:Et; try done.
  assert (Hi1 : am_inv S e1).
  { apply (returns_Ret_inv _ _ _ Et), set_time_ok; [done|]. apply (not_idle L _ _ e Hu). simpl. by rewrite Ea. }
  pose proof (collision_late k e1 (ai_tx _ _ Hi1)) as Hl. destruct (ai_config _ _ Hi1) as [Hlen HM]. rewrite HM in Hl.
  assert (Hc : 2 ^ sn_field_length e1 <= k).
  { apply Hl; [|done]. eapply shrinks_numbering; [by eapply set_time_shrinks|done]. }
  destruct Hlen as [E12|E18]; [by rewrite E12 in Hc|]. rewrite E18 in Hc. lia.
Qed.
End undefined.

(** ** All calls *)

(** what is given at every call that is made *)
Fixpoint calls_input (node : rlc_node) (L : rlc_layer) (ops : list rlc_op) : Prop :=
  match ops with
  | [] => True
  | op :: ops => call_input L op /\ forall L', rlc_step node L op = Ret L' -> calls_input node L' ops
  end.

Definition requests (k : Z) (ops : list rlc_op) : Z := foldl requests_after k ops.

Lemma requests_after_nonneg k op : 0 <= k -> 0 <= requests_after k op.
Proof. unfold requests_after. case_match; lia. Qed.

(** the call [op] ends what can be said of the layer [L] after [k] requests *)
Definition layer_hazard (node : rlc_node) (k : Z) (L : rlc_layer) (op : rlc_op) : Prop :=
  (undefined_call L op /\ rlc_step node L op = Undef) \/ (sn_collision L op /\ 2 ^ 12 <= k) \/ sn_length_changed L op.

Lemma call_or_hazard k node L op : 0 <= k -> node_ok node -> layer_ok k L -> call_input L op ->
  spec true (rlc_step node L op) (layer_ok (requests_after k op)) \/ layer_hazard node k L op.
Proof.
  intros Hk Hn H Hin. destruct (decide (undefined_call L op)) as [Hu|Hu].
  { destruct (undefined_stops k Hk node Hn L op H Hu) as [E|E]; [right; by left|left; by rewrite E]. }
  destruct (decide (sn_collision L op)) as [Hs|Hs].
  { right. right. left. split; [done|]. by eapply (collision_requests k). }
  destruct (decide (sn_length_changed L op)) as [Hl|Hl]; [right; right; by right|]. left. by apply call_safe.
Qed.

Lemma run_or_hazard node ops : node_ok node -> forall k L, 0 <= k -> layer_ok k L -> calls_input node L ops ->
  spec true (rlc_run node L ops) (layer_ok (requests k ops)) \/
  exists before op after L1, ops = before ++ op :: after /\ rlc_run node L before = Ret L1 /\
    layer_ok (requests k before) L1 /\ layer_hazard node (requests k before) L1 op.
Proof.
  intros Hn. induction ops as [|op ops IH]; intros k L Hk H Hin; [by left|]. destruct Hin as [Hop Hnext].
  destruct (call_or_hazard k node L op Hk Hn H Hop) as [Hs|Hh]; [|right; by exists [], op, ops, L].
  cbn [rlc_run]. destruct (rlc_step node L op) as [L1| | |] eqn:E; try done; [|by left]. rewrite bind_Ret_l.
  destruct (IH _ L1 (requests_after_nonneg k op Hk) Hs (Hnext L1 eq_refl)) as [Hr|(before & op' & after & L2 & -> & Hrun & HL2)];
    [by left|right].
  exists (op :: before), op', after, L2. split; [done|]. cbn [rlc_run]. by rewrite E, bind_Ret_l.
Qed.

Lemma new_layer_ok enb : layer_ok 0 (new_nr_rlc_ue_manager enb).
Proof. by constructor; [constructor|..]. Qed.


(** ** A run *)

Definition demo_safe_ops : list rlc_op :=
  [AddSrb 1 1 (demo_srb_config 1 1); SrbRecvSdu 1 1 [1; 2; 3] 0; MacDataReq 1 1 (replicate 10 0) 0;
   MacDataInd 1 0 0 1 [0; 0; 16]; ActivateAvgTime 1 1 true; GetStatistics 1 true 1 5; RemoveUe 1].

(** a node that looks its UEs up in the F1 table of the DU *)
Lemma f1_node_ok s a cu du : f1_inv s a -> node_ok (mk_rlc_node cu du (secondary_of s false)).
Proof. intros H id. cbn [rn_secondary_ue]. rewrite (secondary_of_ok s a false id H). by case_match. Qed.

Lemma demo_node_ok : node_ok demo_rlc_node.
Proof. by intros id. Qed.

Lemma demo_calls_input : calls_input demo_rlc_node (new_nr_rlc_ue_manager true) demo_safe_ops.
Proof.
  unfold demo_safe_ops. split; [split_and!; simpl; try lia; done|intros L1 _]. split; [done|intros L2 _].
  split; [done|intros L3 _]. split; [|intros L4 _; repeat (split; [done|intros ? _]); done].
  simpl. destruct (am_target L3 1 (by_lcid 1)); [by left|done].
Qed.


(** a request for a logical channel behind the array is one of the calls described *)
Lemma demo_wrong_channel : rlc_step demo_rlc_node (new_nr_rlc_ue_manager true) (MacStatusInd 1 33) = Undef.
Proof. vm_compute. reflexivity. Qed.
