(* ===== verification/RlcLayerLimits.v ===== *)
(** Where the RLC layer does not do what its callers expect: the signalling bearer
    its callbacks forget, and a reconfiguration that changes the length of the
    sequence numbers but not what depends on it. *)

From stdpp Require Import base tactics list numbers gmap.
From Stdlib Require Import ZArith Lia.
From S2P Require Import Prelude TimeStat RlcPdu RlcSdu RlcEntity RlcAmState RlcAmRx RlcAmControl RlcUm RlcTm DataQueue.
From S2P Require Import RlcAmRxSpec RlcAmWire RlcAmTransfer RlcAmSafe RlcConfig RlcAny RlcUe RlcUeSpec RlcLayer.

(** ** SRB 3 *)

Lemma find_addr_None l addr i : addr ∉ slot_addrs l -> find_addr l addr i = None.
Proof.
  revert i. induction l as [|[rb|] l IH]; intros i H; simpl in *; [done| |by apply IH].
  apply not_elem_of_cons in H as [H1 H2]. rewrite (proj2 (Z.eqb_neq _ _)) by congruence. by apply IH.
Qed.

Lemma live_ue_NoDup safe P L id n u : rlc_layer_ok safe P L -> at_ue L id n u -> NoDup (live_ue u).
Proof.
  intros [_ _ Ha] [_ Hl]. assert (Hn : NoDup (live (rl_ue_list L) ++ rl_deleted L)) by (rewrite Ha; apply NoDup_seqZ).
  apply list.NoDup_app in Hn as (Hn & _ & _). rewrite (live_remove _ _ _ Hl) in Hn. by apply list.NoDup_app in Hn as (Hn & _ & _).
Qed.

Lemma srb3_not_found safe P L id n u rb :
  rlc_layer_ok safe P L -> at_ue L id n u -> get_slot u (Srb 2) = Ret (Some rb) -> find_bearer u 2 (re_addr rb) = None.
Proof.
  intros H Hat Hs. pose proof (live_ue_NoDup _ _ _ _ _ _ H Hat) as Hnd. pose proof (at_ue_ok _ _ _ _ _ _ H Hat) as Hu.
  pose proof (uo_srb _ _ _ Hu) as Hlen. apply rd_slot_Ret in Hs as [_ Hs]. change (Z.to_nat 2) with 2%nat in Hs.
  assert (E : ru_srb u = take 2 (ru_srb u) ++ [Some rb]).
  { rewrite <- (take_drop 2 (ru_srb u)) at 1. f_equal. rewrite (drop_S _ _ _ Hs), drop_ge by lia. done. }
  unfold live_ue, slot_addrs in Hnd. rewrite E, omap_app in Hnd.
  apply list.NoDup_app in Hnd as (_ & _ & Hnd). apply list.NoDup_app in Hnd as (Hnd & Hd & _).
  apply list.NoDup_app in Hnd as (_ & Hn & _). unfold find_bearer. rewrite find_addr_None, find_addr_None; [done| |].
  - apply Hd, elem_of_app. right. left.
  - intros Hin. apply (Hn _ Hin). left.
Qed.

Lemma srb3_finish node L id n u rb e ev evs :
  table_ok L -> at_ue L id n u -> get_slot u (Srb 2) = Ret (Some rb) ->
  events (entity_common e) = ev :: evs -> ~ is_deliver ev -> finish_rb node L n u (Srb 2) rb e = Exit.
Proof.
  intros H Hat Hs Hev Hd. destruct (at_ue_ok _ _ _ _ _ _ H Hat) as [_ _ _ _ Hslots].
  destruct (rk_kind _ _ _ (Hslots _ _ Hs)) as [_ H0]. unfold finish_rb. rewrite Hev. cbn [callbacks].
  set (rb' := with_entity rb e). set (u' := set_slot u (Srb 2) (Some rb')).
  assert (Hf : find_bearer u' 2 (re_addr rb') = None).
  { rewrite <- (srb3_not_found _ _ _ _ _ _ _ H Hat Hs). unfold find_bearer.
    change (ru_srb u') with (<[2%nat := Some rb']> (ru_srb u)). by rewrite take_insert_ge by lia. }
  assert (Hc : callback node (put_rlc_ue L n u') u' rb' ev = Exit).
  { unfold callback. change (re_srb0 rb') with (re_srb0 rb). rewrite H0.
    destruct ev; [done|unfold successful_delivery|unfold max_retx_reached]; by rewrite Hf. }
  by rewrite Hc.
Qed.

(** SRB 3 cannot be used. The callbacks for a delivered SDU and for too many
    retransmissions look for their entity among the first two SRBs and the DRBs
    only: in every well-formed table, a PDU for the channel of SRB 3 whose first
    effect is one of these two callbacks, such as the acknowledgement of an SDU,
    stops the program. *)
Lemma rlc_srb3_exits node L id n u ch rb pdu e0 e ev evs :
  table_ok L -> at_ue L id n u -> get_rlc_entity_from_lcid u ch = Ret (Some (Srb 2, rb)) ->
  set_time (re_entity rb) (rl_current_time L) = Ret e0 -> recv_pdu e0 pdu = Ret e ->
  events (entity_common e) = ev :: evs -> ~ is_deliver ev -> mac_rlc_data_ind node L id 0 0 ch pdu = Exit.
Proof.
  intros H Hat Hg Ht Hr Hev Hd. pose proof Hat as [Hf Hl]. unfold mac_rlc_data_ind. cbn [Z.eqb negb orb].
  unfold nr_rlc_manager_get_ue. rewrite Hf, Hl, Hg, bind_Ret_l, Ht, bind_Ret_l, Hr, bind_Ret_l.
  eapply srb3_finish; [done|done| |done|done]. by apply (by_lcid_finds ch u _ Hg).
Qed.

Definition demo_srb3_ops : list rlc_op :=
  [AddSrb 1 3 (demo_srb_config 3 3); SrbRecvSdu 1 3 [1; 2; 3] 0; MacDataReq 1 3 (replicate 20 0) 0].

Definition demo_srb3_ue (L : rlc_layer) : nr_rlc_ue_t := default (new_rlc_ue 0) (head (rl_ue_list L)).
Definition demo_srb3_rb (u : nr_rlc_ue_t) : rlc_rb :=
  match get_slot u (Srb 2) with Ret (Some rb) => rb | _ => mk_rlc_rb 0 (EntityTm demo_tm) None end.

(** a STATUS PDU with ACK_SN 1 *)
Definition srb3_ack : list Z := [0; 1; 0].

Lemma rlc_srb3_exits_witness : exists L,
  rlc_run demo_rlc_node (new_nr_rlc_ue_manager true) demo_srb3_ops = Ret L /\
  mac_rlc_data_ind demo_rlc_node L 1 0 0 3 srb3_ack = Exit.
Proof.
  destruct (rlc_run demo_rlc_node (new_nr_rlc_ue_manager true) demo_srb3_ops) as [L| | |] eqn:E; try by vm_compute in E.
  exists L. split; [done|]. pose proof (table_run _ _ _ _ (new_manager_table true) E) as H.
  set (u := demo_srb3_ue L). set (rb := demo_srb3_rb u).
  destruct (set_time (re_entity rb) (rl_current_time L)) as [e0| | |] eqn:E0.
  2,3,4: vm_compute in E; injection E as <-; by vm_compute in E0.
  destruct (recv_pdu e0 srb3_ack) as [e| | |] eqn:E1.
  2,3,4: vm_compute in E; injection E as <-; vm_compute in E0; injection E0 as <-; by vm_compute in E1.
  apply (rlc_srb3_exits demo_rlc_node L 1 0%nat u 3 rb srb3_ack e0 e (SduSuccessfulDelivery (-1)) []);
    [exact H| | |exact E0|exact E1| |intros []]; clear H; vm_compute in E; injection E as <-.
  - constructor; vm_compute; reflexivity.
  - vm_compute. reflexivity.
  - vm_compute in E0. injection E0 as <-. vm_compute in E1. injection E1 as <-. vm_compute. reflexivity.
Defined.

(** ** Another length of the sequence numbers *)

(** a data PDU, whatever it holds, in a receiver that refuses every SN it can carry *)
Lemma data_pdu_refused e b :
  sn_field_length e = 12 -> is_status b = false -> (forall v, 0 <= v < 2 ^ 12 -> sn_in_recv_window e v = false) ->
  returns (nr_rlc_entity_am_recv_pdu e b) (fun e' =>
    rx_part e' = rx_part e /\ am_events e' = am_events e /\ sn_field_length e' = 12).
Proof.
  intros Hl Hb Hw. unfold nr_rlc_entity_am_recv_pdu. fold (count_pdu e (zlen b)). set (e0 := count_pdu e (zlen b)).
  set (Q := fun e' => rx_part e' = rx_part e /\ am_events e' = am_events e /\ sn_field_length e' = 12).
  assert (Hdis : forall e1 p, Q e1 -> Q (RlcAmControl.recv_discard e1 p (zlen b))) by (intros e1 p H; unfold RlcAmControl.recv_discard; by destruct (p =? 0)).
  assert (H0 : Q e0) by by split_and!.
  assert (Hdata : forall h, 0 <= dp_sn h < 2 ^ 12 -> returns (recv_data_pdu e0 b h) Q).
  { intros h Hsn. unfold recv_data_pdu. destruct (_ <=? 0); [by apply returns_Ret, Hdis|]. destruct (_ <? _); [by apply returns_Ret, Hdis|].
    change (sn_in_recv_window e0 (dp_sn h)) with (sn_in_recv_window e (dp_sn h)). rewrite Hw by done. cbn [negb]. by apply returns_Ret, Hdis. }
  destruct b as [|x b]; [done|]. cbn [is_status] in Hb. apply negb_false_iff in Hb.
  rewrite dec_at_0. set (pdu := x :: b) in *.
  assert (Hbits : bits_of_bytes pdu = [] ++ bits_of_Z 1 1 ++ (bits_of_Z 7 x ++ bits_of_bytes b)).
  { change (bits_of_bytes pdu) with (Z.testbit x 7 :: bits_of_Z 7 x ++ bits_of_bytes b). by rewrite Hb. }
  assert (Hlen : (8 <= 8 * length pdu)%nat) by (unfold pdu; simpl; lia).
  eassert (get_bits_R (dec_at pdu 0) 1 _ _ = _) as ->; [eapply (read_step pdu [] _ 1 1); [exact Hbits|done|lia|lia|]; intros _; reflexivity|].
  change (sn_field_length e0) with (sn_field_length e). rewrite Hl. cbn [Z.eqb Pos.eqb length app bits_of_Z].
  apply (get_bits_R_total pdu 1 1); [lia|lia|by apply returns_Ret, Hdis|]. intros p _ Hp1.
  apply (get_bits_R_total pdu _ 2); [lia|lia|by apply returns_Ret, Hdis|]. intros si _ Hp2.
  apply (get_bits_R_total pdu _ 12); [lia|lia|by apply returns_Ret, Hdis|]. intros sn Hsn Hp3.
  destruct (negb _); [|by apply Hdata].
  apply (get_bits_R_total pdu _ 16); [lia|lia|by apply returns_Ret, Hdis|]. intros so _ Hp4.
  destruct (so =? 0); [by apply returns_Ret, Hdis|by apply Hdata].
Qed.

Lemma data_pdus_refused pdus : forall e,
  sn_field_length e = 12 -> Forall (fun b => is_status b = false) pdus -> (forall v, 0 <= v < 2 ^ 12 -> sn_in_recv_window e v = false) ->
  returns (recv_all e pdus) (fun e' => rx_part e' = rx_part e /\ am_events e' = am_events e).
Proof.
  induction pdus as [|b pdus IH]; intros e Hl Hb Hw; cbn [recv_all]; [by apply returns_Ret|]. inversion_clear Hb.
  eapply returns_seq; [by apply data_pdu_refused|]. intros e1 (Hp & Hev & Hl1).
  eapply returns_mono; [apply IH; [done|done|]|].
  - intros v Hv. rewrite <- (Hw v Hv). unfold rx_part in Hp. injection Hp as P1 P2 P3 _ _ _ _ _.
    unfold sn_in_recv_window, RlcAmState.modulus_rx. by rewrite P1, P2, P3.
  - intros e2 [Hp2 Hev2]. split; congruence.
Qed.

(** C40: a reconfiguration of an acknowledged-mode bearer from 18 to 12-bit sequence
    numbers leaves modulus and window of 18 bits in place. Once the receiver has passed
    SN 4095, the 12 bits that a PDU now carries are a number below RX_Next, and in the
    window only if RX_Next is more than a window above it: from 4096 up to half of the
    18-bit space every PDU is outside the window, so that whatever sequence of data PDUs
    arrives, each is dropped, nothing is delivered and RX_Next never moves again; beyond,
    the PDUs that are taken are those below RX_Next - 2^17, as SNs of the next cycle. *)
Theorem rlc_reconfigure_sn_length e c :
  sn_modulus e = 2 ^ 18 -> window_size e = 2 ^ 17 -> 2 ^ 12 <= rx_next e < 2 ^ 18 ->
  let e' := reconfigure_am e c (Some 12) in
  sn_field_length e' = 12 /\ sn_modulus e' = 2 ^ 18 /\ window_size e' = 2 ^ 17 /\ rx_part e' = rx_part e /\
  (forall v, 0 <= v < 2 ^ 12 -> sn_in_recv_window e' v = (2 ^ 17 + v <? rx_next e)) /\
  (rx_next e <= 2 ^ 17 -> forall pdus, Forall (fun b => is_status b = false) pdus ->
     returns (recv_all e' pdus) (fun e'' => rx_part e'' = rx_part e /\ am_events e'' = am_events e)).
Proof.
  intros Hm Hw Hr e'.
  assert (Hwin : forall v, 0 <= v < 2 ^ 12 -> sn_in_recv_window e' v = (2 ^ 17 + v <? rx_next e)).
  { intros v Hv. unfold sn_in_recv_window, RlcAmState.modulus_rx.
    change (sn_modulus e') with (sn_modulus e). change (window_size e') with (window_size e). change (rx_next e') with (rx_next e).
    rewrite Hm, Hw, (proj2 (Z.ltb_lt _ 0)) by lia. destruct (Z.ltb_spec (2 ^ 17 + v) (rx_next e)); [apply Z.ltb_lt|apply Z.ltb_ge]; lia. }
  split_and!; [done|done|done|done|done|]. intros Hhalf pdus Hp.
  eapply returns_mono; [apply data_pdus_refused; [done|done|]|].
  - intros v Hv. rewrite Hwin by done. apply Z.ltb_ge. lia.
  - intros e2 [H1 H2]. by split.
Qed.

Lemma rlc_reconfigure_sn_length_witness : exists e,
  new_am (mk_am_config 45 35 0 (-1) (-1) 8 18) = Ret (EntityAm e) /\
  sn_in_recv_window (e <| rx_next := 5000 |>) 5000 = true /\
  sn_in_recv_window (reconfigure_am (e <| rx_next := 5000 |>) default_am_config (Some 12)) (5000 mod 2 ^ 12) = false /\
  returns (recv_all (reconfigure_am (e <| rx_next := 5000 |>) default_am_config (Some 12)) [[131; 136; 1; 2]; [131; 137; 3]])
    (fun e' => rx_next e' = 5000 /\ am_events e' = am_events e).
Proof.
  destruct (new_am (mk_am_config 45 35 0 (-1) (-1) 8 18)) as [[e|e|e]| | |] eqn:E; try by vm_compute in E.
  exists e. assert (Hm : sn_modulus e = 2 ^ 18 /\ window_size e = 2 ^ 17) by (vm_compute in E; by injection E as <-). destruct Hm as [Hm Hw].
  set (e1 := e <| rx_next := 5000 |>). assert (Hn : rx_next e1 = 5000) by reflexivity.
  destruct (rlc_reconfigure_sn_length e1 default_am_config Hm Hw) as (_ & _ & _ & _ & H1 & H2); [rewrite Hn; lia|].
  split_and!; [done|vm_compute in E; by injection E as <-|rewrite H1 by (vm_compute; split; congruence); reflexivity|].
  eapply returns_mono; [apply H2; [rewrite Hn; lia|by repeat constructor]|]. intros e' [Hp Hev]. unfold rx_part in Hp. injection Hp as _ _ P3 _ _ _ _ _. by split.
Defined.
