(* ===== verification/RlcPath.v ===== *)
(** The path of the user plane between the PDCP layers of two nodes: requests to
    the RLC layer of one node, grants of the MAC on an unacknowledged-mode bearer,
    PDUs to the RLC layer of the other node, and its indications to PDCP. It keeps
    the promise of a [carrier]. *)

From stdpp Require Import base tactics list numbers gmap.
From Stdlib Require Import ZArith Lia.
From S2P Require Import Prelude RlcPdu RlcSdu TimeStat RlcEntity RlcRxList RlcUm RlcUmSpec RlcUmLinkRx RlcUmLinkTx RlcUmLink.
From S2P Require Import DataQueue RlcConfig RlcAny RlcUe RlcUeSpec RlcLayer RlcLayerLimits.

(** What PDCP expects of the layers below it: the PDUs it hands to RLC for a bearer
    come out as indications at the other end once, unchanged and in order, as long
    as the buffers below have room for them. *)

(** a DRB seen from both ends: how the sending PDCP addresses it, and how the
    receiving PDCP is told of its data *)
Record rlc_flow := mk_flow { fl_drb : Z; fl_tx_enb : Z; fl_tx_ue : Z; fl_rx_enb : Z; fl_rx_ue : Z }.

Definition request (f : rlc_flow) (pdu : list Z) : rlc_data_req_queue_item :=
  mk_rlc_item (mk_ctxt 0 (fl_tx_enb f) 0 (fl_tx_ue f) 0 0) false false (fl_drb f) 0 0 (zlen pdu) pdu.

Definition indication (f : rlc_flow) (pdu : list Z) : pdcp_data_ind_queue_item :=
  mk_ind_item (mk_ctxt 0 (fl_rx_enb f) 0 (fl_rx_ue f) 0 0) false false (fl_drb f) (zlen pdu) pdu.

Class carrier (S : Type) := mk_carrier {
  carry : S -> list rlc_data_req_queue_item -> outcome (S * list pdcp_data_ind_queue_item);
  carrier_flow : S -> rlc_flow;
  carrier_ready : S -> Prop;
  carrier_room : S -> Z;
  carrier_in_order : forall s pdus,
    carrier_ready s -> Forall (fun p => 0 < zlen p <= NR_SDU_MAX) pdus -> sumZ zlen pdus <= carrier_room s ->
    returns (carry s (map (request (carrier_flow s)) pdus)) (fun '(s', out) =>
      out = map (indication (carrier_flow s)) pdus /\
      carrier_ready s' /\ carrier_room s' = carrier_room s /\ carrier_flow s' = carrier_flow s)
}.

(** ** An entity in a table *)

Definition um_at (e : nr_rlc_entity_um_t) (now : Z) : nr_rlc_entity_um_t := e <| um_t_current := now |>.
Definition um_clear (e : nr_rlc_entity_um_t) : nr_rlc_entity_um_t := e <| um_common ::= (fun c => c <| events := [] |>) |>.

(** the timer is off or started at the current time, and does not wrap around *)
Record um_clock (e : nr_rlc_entity_um_t) (now : Z) : Prop := {
  uk_start : um_t_reassembly_start e = 0 \/ um_t_reassembly_start e = now;
  uk_period : 0 <= um_t_reassembly e;
  uk_now : 0 <= now;
  uk_wrap : now + um_t_reassembly e < 2 ^ 64
}.

(** DRB [d] of UE [id] is an unacknowledged-mode entity [e], on channel [ch] *)
Record um_bearer (L : rlc_layer) (id d ch : Z) (e : nr_rlc_entity_um_t) (n : nat) (u : nr_rlc_ue_t) (rb : rlc_rb) : Prop := {
  ub_table : table_ok L;
  ub_ue : at_ue L id n u;
  ub_slot : get_slot u (Drb (d - 1)) = Ret (Some rb);
  ub_entity : re_entity rb = EntityUm e;
  ub_channel : ch <> 0 /\ rd_slot (ru_lcid2rb u) (ch - 1) = Ret (NR_RLC_DRB d);
  ub_clock : um_clock e (rl_current_time L)
}.

Definition has_um (L : rlc_layer) (id d ch : Z) (e : nr_rlc_entity_um_t) : Prop := exists n u rb, um_bearer L id d ch e n u rb.

(** what the delivery of an SDU says of its UE: [rnti] *)
Definition delivers_as (node : rlc_node) (L : rlc_layer) (id rnti : Z) : Prop :=
  if rl_enb_flag L then rn_secondary_ue node (u32 id) = Ret rnti /\ rn_is_cu node = false /\ rn_is_du node = false
  else rnti = u64 id.

(** a step that only adds calls and changes the table *)
Definition same_clock (L L' : rlc_layer) : Prop :=
  rl_current_time L' = rl_current_time L /\ rl_enb_flag L' = rl_enb_flag L.

Lemma find_addr_slot l i0 i rb : NoDup (slot_addrs l) -> l !! i = Some (Some rb) ->
  find_addr l (re_addr rb) i0 = Some (i0 + Z.of_nat i).
Proof.
  revert i i0. induction l as [|s l IH]; intros i i0 Hn Hi; [done|]. destruct i as [|i]; simpl in Hi.
  - injection Hi as ->. simpl. rewrite Z.eqb_refl. f_equal. lia.
  - destruct s as [rb0|]; simpl in *.
    + apply list.NoDup_cons in Hn as [Hn Hnd]. rewrite (proj2 (Z.eqb_neq _ _)).
      * rewrite (IH i) by done. f_equal. lia.
      * intros E. apply Hn. rewrite E. apply list_elem_of_omap. exists (Some rb). split; [by eapply list_elem_of_lookup_2|done].
    + rewrite (IH i) by done. f_equal. lia.
Qed.

(** the callbacks find a DRB by its entity *)
Lemma drb_found L id n u d rb : table_ok L -> at_ue L id n u -> get_slot u (Drb (d - 1)) = Ret (Some rb) ->
  find_bearer u 3 (re_addr rb) = Some (false, d).
Proof.
  intros H Hat Hs. pose proof (live_ue_NoDup _ _ _ _ _ _ H Hat) as Hnd. apply rd_slot_Ret in Hs as [Hd Hs].
  unfold live_ue in Hnd. apply list.NoDup_app in Hnd as (_ & _ & Hnd). apply list.NoDup_app in Hnd as (_ & Hd1 & Hd2).
  unfold find_bearer. rewrite take_ge by (rewrite (uo_srb _ _ _ (at_ue_ok _ _ _ _ _ _ H Hat)); lia).
  rewrite find_addr_None, (find_addr_slot _ 0 _ _ Hd2 Hs).
  - do 2 f_equal. lia.
  - intros Hin. apply (Hd1 _ Hin). apply list_elem_of_omap. exists (Some rb). split; [by eapply list_elem_of_lookup_2|done].
Qed.

(** ** Callbacks *)

(** the item of an indication of [L] *)
Definition ind_item (enb : bool) (rnti d : Z) (buf : list Z) : pdcp_data_ind_queue_item :=
  mk_ind_item (mk_ctxt 0 (Z.b2z enb) 0 rnti 0 0) false false d (zlen buf) buf.

Lemma deliveries node L u rb d rnti bufs :
  find_bearer u 3 (re_addr rb) = Some (false, d) -> re_srb0 rb = None -> delivers_as node L (ru_ue_id u) rnti ->
  callbacks node L u rb (map DeliverSdu bufs) =
    Ret (L <| rl_calls ::= (fun cs => cs ++ map (fun b => NrPdcpDataInd (ind_item (rl_enb_flag L) rnti d b)) bufs) |>).
Proof.
  intros Hf H0. revert L. induction bufs as [|b bufs IH]; intros L Hr; cbn [map callbacks].
  - transitivity (Ret (L <| rl_calls := rl_calls L ++ [] |>)); [rewrite app_nil_r; by destruct L|done].
  - assert (E : callback node L u rb (DeliverSdu b) = Ret (rlc_emit (NrPdcpDataInd (ind_item (rl_enb_flag L) rnti d b)) L)).
    { unfold callback. rewrite H0. unfold deliver_sdu. rewrite Hf. unfold delivers_as in Hr.
      destruct (rl_enb_flag L) eqn:E.
      - destruct Hr as (-> & -> & ->). by rewrite bind_Ret_l.
      - by rewrite bind_Ret_l, Hr. }
    rewrite E, bind_Ret_l, IH by done. f_equal.
    transitivity (L <| rl_calls := (rl_calls L ++ [NrPdcpDataInd (ind_item (rl_enb_flag L) rnti d b)]) ++
      map (fun b => NrPdcpDataInd (ind_item (rl_enb_flag L) rnti d b)) bufs |>); [done|]. by rewrite <- app_assoc.
Qed.

Lemma finish_um node L id d ch e n u rb e' bufs rnti :
  um_bearer L id d ch e n u rb -> um_events e' = map DeliverSdu bufs -> delivers_as node L id rnti \/ bufs = [] ->
  um_clock e' (rl_current_time L) ->
  exists L', finish_rb node L n u (Drb (d - 1)) rb (EntityUm e') = Ret L' /\ has_um L' id d ch (um_clear e') /\
    same_clock L L' /\ rl_calls L' = rl_calls L ++ map (fun b => NrPdcpDataInd (ind_item (rl_enb_flag L) rnti d b)) bufs.
Proof.
  intros [Ht Hat Hs He [Hc0 Hch] Hclk] Hev Hr Hclk'. set (rb' := with_entity rb (EntityUm e')). set (u' := set_slot u (Drb (d - 1)) (Some rb')).
  destruct (rk_kind _ _ _ (uo_slots _ _ _ (at_ue_ok _ _ _ _ _ _ Ht Hat) _ _ Hs)) as [_ H0].
  assert (Hfin : exists L', finish_rb node L n u (Drb (d - 1)) rb (EntityUm e') = Ret L' /\ same_clock L L' /\
    rl_calls L' = rl_calls L ++ map (fun b => NrPdcpDataInd (ind_item (rl_enb_flag L) rnti d b)) bufs).
  { unfold finish_rb. fold rb' u'. change (events (entity_common (EntityUm e'))) with (um_events e'). rewrite Hev.
    destruct Hr as [Hr| ->].
    - eexists. split; [apply (deliveries node _ u' rb' d rnti bufs)|by split]; [|done|].
      + assert (E : at_ue (put_rlc_ue L n u') id n u' /\ table_ok (put_rlc_ue L n u')); [|destruct E as [E1 E2]].
        * destruct (put_slot_ok false any_entity L id n u (Drb (d - 1)) rb rb') as (K1 & _ & K3); try done.
        * apply (drb_found _ id n u' d rb' E2 E1). by eapply get_slot_set.
      + change (ru_ue_id u') with (ru_ue_id u). by rewrite (at_ue_id _ _ _ _ Hat).
    - eexists. split; [reflexivity|]. split; [by split|]. simpl. by rewrite app_nil_r. }
  destruct Hfin as (L' & Hf & Hsc & Hcalls). exists L'. split_and!; [done| |done|done].
  assert (Hsp := finish_rb_ok false any_entity node (fun a e _ => I) (fun E => match Bool.diff_false_true E with end)
    L id n u (Drb (d - 1)) rb (EntityUm e') Ht Hat Hs).
  rewrite Hf in Hsp. destruct Hsp as [[Ht' _] Hat'].
  { constructor; [by rewrite He|done|done]. }
  exists n, u', rb'. constructor; [done|done|by eapply get_slot_set|done|done|]. rewrite (proj1 Hsc). by destruct Hclk'.
Qed.

(** ** The calls on the bearer *)

Section calls.
Context (node : rlc_node) (L : rlc_layer) (id d ch : Z) (e : nr_rlc_entity_um_t) (Hum : has_um L id d ch e).
Let now := rl_current_time L.

Lemma um_no_events : um_events e = [].
Proof using Hum.
  destruct Hum as (n & u & rb & [Ht Hat Hs He _ _]).
  pose proof (rk_events _ _ _ (uo_slots _ _ _ (at_ue_ok _ _ _ _ _ _ Ht Hat) _ _ Hs)) as H. by rewrite He in H.
Qed.

Lemma um_get_clock : um_clock e now.
Proof using Hum. destruct Hum as (n & u & rb & []). done. Qed.

Lemma um_set_time : set_time (EntityUm e) now = Ret (EntityUm (um_at e now)).
Proof using Hum.
  destruct um_get_clock as [H1 H2 H3 H4]. unfold set_time. by rewrite (set_time_same e now H1 H2 H3 H4).
Qed.

Lemma clock_frame e' : um_rx_frame e' = um_rx_frame (um_at e now) -> um_clock e' now /\ um_events e' = map DeliverSdu [].
Proof using Hum.
  intros E. injection E as E1 E2 E3 E4. destruct um_get_clock as [H1 H2 H3 H4]. simpl in *. split.
  - constructor; rewrite ?E1, ?E3; done.
  - rewrite E4. exact um_no_events.
Qed.

Lemma clock_timed e' : um_timed (um_at e now) e' -> um_clock e' now.
Proof using Hum.
  intros [E1 E2 E3]. destruct um_get_clock as [H1 H2 H3 H4]. simpl in *. constructor; rewrite ?E1; [|done..].
  unfold um_fresh in E3. rewrite E2 in E3. by apply E3.
Qed.

Lemma um_request enb sdu t e' : 0 <= id < 2 ^ 31 ->
  nr_rlc_entity_um_recv_sdu (um_at e now) sdu 0 t = Ret e' ->
  exists L', rlc_data_req node L (mk_ctxt 0 enb 0 id 0 0) false d 0 sdu t = Ret L' /\ has_um L' id d ch (um_clear e') /\
    same_clock L L' /\ rl_calls L' = rl_calls L.
Proof using Hum.
  intros Hid Hr. destruct (clock_frame e' (recv_sdu_frame _ _ _ _ _ Hr)) as [Hclk Hev].
  pose proof um_set_time as Hset. destruct Hum as (n & u & rb & Hb). pose proof Hb as [Ht [Hf Hl] Hs He _ _].
  destruct (finish_um node L id d ch e n u rb e' [] 0 Hb Hev (or_intror eq_refl) Hclk) as (L' & Hfin & H1 & H2 & H3).
  exists L'. split_and!; [|done|done|by rewrite H3, app_nil_r].
  assert (Hd : 1 <= d <= 32).
  { pose proof Hs as Hs'. apply rd_slot_Ret in Hs' as [? Hi]. apply lookup_lt_Some in Hi.
    rewrite (uo_drb _ _ _ (at_ue_ok _ _ _ _ _ _ Ht (Build_at_ue _ _ _ _ Hf Hl))) in Hi. lia. }
  unfold rlc_data_req. cbn [rntiMaybeUEid]. replace (s32 id) with id by (unfold s32; rewrite Z.mod_small; lia).
  unfold nr_rlc_manager_get_ue. rewrite Hf, Hl. unfold get_rb.
  rewrite (proj2 (Z.leb_le 1 d)), (proj2 (Z.leb_le d _)) by (unfold RLC_MAX_DRBS_PER_UE; lia). cbn [andb].
  rewrite Hs, !bind_Ret_l. cbn [in_slot]. rewrite He. fold now. rewrite Hset, bind_Ret_l. unfold recv_sdu. rewrite Hr. exact Hfin.
Qed.

Lemma um_by_lcid n u rb : um_bearer L id d ch e n u rb -> get_rlc_entity_from_lcid u ch = Ret (Some (Drb (d - 1), rb)).
Proof.
  intros [_ _ Hs _ [Hc Hch] _]. unfold get_rlc_entity_from_lcid. rewrite (proj2 (Z.eqb_neq _ _)) by done.
  rewrite Hch, bind_Ret_l. cbn [slot_of_rb]. by rewrite bind_Ret_l, Hs, bind_Ret_l.
Qed.

Lemma um_grant buf t k e' buf' : nr_rlc_entity_um_generate_pdu (um_at e now) buf t = Ret (k, e', buf') ->
  exists L', mac_rlc_data_req node L id ch buf t = Ret (k, L', buf') /\ has_um L' id d ch (um_clear e') /\
    same_clock L L' /\ rl_calls L' = rl_calls L.
Proof using Hum.
  intros Hr. destruct (clock_frame e' (generate_frame _ _ _ _ _ _ Hr)) as [Hclk Hev].
  pose proof um_set_time as Hset. destruct Hum as (n & u & rb & Hb). pose proof Hb as [Ht [Hf Hl] Hs He _ _].
  destruct (finish_um node L id d ch e n u rb e' [] 0 Hb Hev (or_intror eq_refl) Hclk) as (L' & Hfin & H1 & H2 & H3).
  exists L'. split_and!; [|done|done|by rewrite H3, app_nil_r].
  unfold mac_rlc_data_req, nr_rlc_manager_get_ue. rewrite Hf, Hl, (um_by_lcid n u rb Hb), bind_Ret_l, He.
  fold now. rewrite Hset, bind_Ret_l. unfold generate_pdu. by rewrite Hr, !bind_Ret_l, Hfin, bind_Ret_l.
Qed.

Lemma um_indication pdu e' bufs rnti : delivers_as node L id rnti ->
  nr_rlc_entity_um_recv_pdu (um_at e now) pdu = Ret e' -> um_events e' = map DeliverSdu bufs ->
  exists L', mac_rlc_data_ind node L id 0 0 ch pdu = Ret L' /\ has_um L' id d ch (um_clear e') /\ same_clock L L' /\
    rl_calls L' = rl_calls L ++ map (fun b => NrPdcpDataInd (ind_item (rl_enb_flag L) rnti d b)) bufs.
Proof using Hum.
  intros Hdel Hr Hev. pose proof (clock_timed e' (recv_pdu_timed _ _ _ Hr)) as Hclk.
  pose proof um_set_time as Hset. destruct Hum as (n & u & rb & Hb). pose proof Hb as [Ht [Hf Hl] Hs He _ _].
  destruct (finish_um node L id d ch e n u rb e' bufs rnti Hb Hev (or_introl Hdel) Hclk) as (L' & Hfin & H1 & H2 & H3).
  exists L'. split_and!; [|done|done|done].
  unfold mac_rlc_data_ind, nr_rlc_manager_get_ue. cbn [Z.eqb negb orb].
  rewrite Hf, Hl, (um_by_lcid n u rb Hb), bind_Ret_l, He. fold now. rewrite Hset, bind_Ret_l.
  unfold recv_pdu. by rewrite Hr.
Qed.
End calls.

(** ** Entities that differ in their clock and in what they have reported *)

Definition um_norm (e : nr_rlc_entity_um_t) : nr_rlc_entity_um_t := um_at (um_clear e) 0.
Record um_sim (e e' : nr_rlc_entity_um_t) : Prop := { us_norm : um_norm e = um_norm e' }.

#[export] Instance um_sim_equivalence : Equivalence um_sim.
Proof. split; [by constructor|intros ? ? []; by constructor|intros ? ? ? [] []; constructor; congruence]. Qed.

Lemma um_at_sim e now : um_sim (um_at e now) e.
Proof. done. Qed.

Lemma um_clear_sim e : um_sim (um_clear e) e.
Proof. done. Qed.

Lemma link_norm tx rx q so : um_link tx rx q so <-> um_link (um_norm tx) (um_norm rx) q so.
Proof.
  assert (Hrx : forall x sdu so, um_rx_sync rx x sdu so <-> um_rx_sync (um_norm rx) x sdu so)
    by (intros; split; by apply sync_eq).
  assert (Htx : um_tx_sync tx q so <-> um_tx_sync (um_norm tx) q so)
    by (split; intros [[] ? ? ? ? ? ? ?]; constructor; try done; by constructor).
  split; intros [H1 H2 H3 H4]; constructor; [by apply Htx| |done|done|by apply Htx| |done|done];
    destruct q; intros; by apply Hrx.
Qed.

#[export] Instance um_link_proper : Proper (um_sim ==> um_sim ==> eq ==> eq ==> iff) um_link.
Proof. intros tx tx' Ht rx rx' Hr q ? <- so ? <-. by rewrite (link_norm tx), (link_norm tx'), (us_norm _ _ Ht), (us_norm _ _ Hr). Qed.

#[export] Instance same_room_proper : Proper (um_sim ==> um_sim ==> um_sim ==> um_sim ==> iff) same_room.
Proof.
  assert (E1 : forall e e', um_sim e e' -> um_tx_maxsize e = um_tx_maxsize e') by (intros e e' H; exact (f_equal um_tx_maxsize (us_norm _ _ H))).
  assert (E2 : forall e e', um_sim e e' -> um_rx_maxsize e = um_rx_maxsize e') by (intros e e' H; exact (f_equal um_rx_maxsize (us_norm _ _ H))).
  intros a a' Ha b b' Hb c c' Hc f f' Hf. unfold same_room. by rewrite (E1 _ _ Ha), (E1 _ _ Hc), (E2 _ _ Hb), (E2 _ _ Hf).
Qed.

(** ** The path *)

(** the RLC layers of both nodes; [pa_rx_id] is the UE in the receiving one *)
Record rlc_path := mk_path {
  pa_tx_node : rlc_node; pa_rx_node : rlc_node;
  pa_flow : rlc_flow; pa_rx_id : Z; pa_channel : Z;
  pa_tx : rlc_layer; pa_rx : rlc_layer
}.

Definition with_layers (p : rlc_path) (tx rx : rlc_layer) : rlc_path :=
  mk_path (pa_tx_node p) (pa_rx_node p) (pa_flow p) (pa_rx_id p) (pa_channel p) tx rx.

(** the thread that takes the requests of PDCP from their queue *)
Fixpoint rlc_requests (node : rlc_node) (L : rlc_layer) (items : list rlc_data_req_queue_item) : outcome rlc_layer :=
  match items with
  | [] => Ret L
  | it :: items =>
      L ← rlc_data_req node L (ri_ctxt_pP it) (ri_srb_flagP it) (ri_rb_idP it) (ri_muiP it) (ri_sdu_pP it) 0;
      rlc_requests node L items
  end.

(** a grant of five bytes on the channel, and the way of its PDU *)
Definition mac_grant (p : rlc_path) : outcome rlc_path :=
  '(k, tx, buffer) ← mac_rlc_data_req (pa_tx_node p) (pa_tx p) (fl_tx_ue (pa_flow p)) (pa_channel p) (replicate 5 0) 0;
  rx ← (if 0 <? k then mac_rlc_data_ind (pa_rx_node p) (pa_rx p) (pa_rx_id p) 0 0 (pa_channel p) (take (Z.to_nat k) buffer)
        else Ret (pa_rx p));
  Ret (with_layers p tx rx).

Fixpoint mac_grants (n : nat) (p : rlc_path) : outcome rlc_path :=
  match n with O => Ret p | S n => p ← mac_grant p; mac_grants n p end.

(** what PDCP is told *)
Definition pdcp_items (cs : list rlc_call) : list pdcp_data_ind_queue_item :=
  omap (fun c => match c with NrPdcpDataInd it => Some it | _ => None end) cs.

Definition path_carry (p : rlc_path) (items : list rlc_data_req_queue_item)
    : outcome (rlc_path * list pdcp_data_ind_queue_item) :=
  tx ← rlc_requests (pa_tx_node p) (pa_tx p) items;
  p' ← mac_grants (Z.to_nat (sumZ ri_sdu_sizeP items)) (with_layers p tx (pa_rx p));
  Ret (p', pdcp_items (drop (length (rl_calls (pa_rx p))) (rl_calls (pa_rx p')))).

(** [tx] and [rx] are the entities of the flow at both ends *)
Record path_ends (p : rlc_path) (tx rx : nr_rlc_entity_um_t) : Prop := {
  pe_tx : has_um (pa_tx p) (fl_tx_ue (pa_flow p)) (fl_drb (pa_flow p)) (pa_channel p) tx;
  pe_rx : has_um (pa_rx p) (pa_rx_id p) (fl_drb (pa_flow p)) (pa_channel p) rx;
  pe_id : 0 <= fl_tx_ue (pa_flow p) < 2 ^ 31;
  pe_rnti : delivers_as (pa_rx_node p) (pa_rx p) (pa_rx_id p) (fl_rx_ue (pa_flow p));
  pe_enb : fl_rx_enb (pa_flow p) = Z.b2z (rl_enb_flag (pa_rx p));
  pe_room : um_tx_maxsize tx = RLC_TX_MAXSIZE /\ um_rx_maxsize rx = RLC_RX_MAXSIZE
}.

Definition path_ready (p : rlc_path) : Prop := exists tx rx, path_ends p tx rx /\ um_link tx rx [] 0.

(** the calls the delivery of [q] makes *)
Definition path_calls (p : rlc_path) (q : list (list Z)) : list rlc_call :=
  map (fun b => NrPdcpDataInd (indication (pa_flow p) b)) q.

Lemma tti_inv tx rx size now tx' rx' : um_tti tx rx size now = Ret (tx', rx') ->
  exists k b, nr_rlc_entity_um_generate_pdu tx (replicate (Z.to_nat size) 0) now = Ret (k, tx', b) /\
    if 0 <? k then nr_rlc_entity_um_recv_pdu rx (take (Z.to_nat k) b) = Ret rx' else rx' = rx.
Proof.
  unfold um_tti. intros H. inv_bind H. destruct v as [[k tx1] b]. exists k, b. destruct (0 <? k).
  - inv_bind H. injection H as <- <-. by split.
  - injection H as <- <-. by split.
Qed.

Lemma delivers_same node L L' id rnti : same_clock L L' -> delivers_as node L id rnti -> delivers_as node L' id rnti.
Proof. intros [_ E]. unfold delivers_as. by rewrite E. Qed.

Lemma calls_of_flow p q : fl_rx_enb (pa_flow p) = Z.b2z (rl_enb_flag (pa_rx p)) ->
  map (fun b => NrPdcpDataInd (ind_item (rl_enb_flag (pa_rx p)) (fl_rx_ue (pa_flow p)) (fl_drb (pa_flow p)) b)) q = path_calls p q.
Proof. intros E. unfold path_calls, indication, ind_item. by rewrite E. Qed.

(** a grant moves the entities as a grant of the link does *)
Lemma mac_grant_ok p tx rx tx' rx' bufs :
  path_ends p tx rx ->
  um_tti (um_at tx (rl_current_time (pa_tx p))) (um_at rx (rl_current_time (pa_rx p))) 5 0 = Ret (tx', rx') ->
  same_room tx rx tx' rx' -> um_events rx' = map DeliverSdu bufs ->
  exists p' tx2 rx2, mac_grant p = Ret p' /\ path_ends p' tx2 rx2 /\ um_sim tx2 tx' /\ um_sim rx2 rx' /\
    pa_flow p' = pa_flow p /\ rl_calls (pa_rx p') = rl_calls (pa_rx p) ++ path_calls p bufs.
Proof.
  intros [H1 H2 H3 H4 H5 [H6 H7]] Ht [Hr1 Hr2] Hev. destruct (tti_inv _ _ _ _ _ _ Ht) as (k & b & Hg & Hk).
  destruct (um_grant (pa_tx_node p) _ _ _ _ _ H1 _ _ _ _ _ Hg) as (Ltx & Hq & Ltx1 & Ltx2 & Ltx3).
  unfold mac_grant. change (replicate (Z.to_nat 5) 0) with (replicate 5 0) in Hq. rewrite Hq, bind_Ret_l.
  destruct (0 <? k).
  - destruct (um_indication (pa_rx_node p) _ _ _ _ _ H2 _ _ bufs _ H4 Hk Hev) as (Lrx & Hi & Lrx1 & Lrx2 & Lrx3).
    rewrite Hi, bind_Ret_l. exists (with_layers p Ltx Lrx), (um_clear tx'), (um_clear rx').
    split_and!; [done| |done|done|done|by rewrite <- calls_of_flow].
    constructor; [done|done|done|by apply (delivers_same _ (pa_rx p))|cbn [pa_rx with_layers pa_flow]; by rewrite (proj2 Lrx2)|].
    split; [by rewrite <- H6, <- Hr1|by rewrite <- H7, <- Hr2].
  - subst rx'. rewrite bind_Ret_l. exists (with_layers p Ltx (pa_rx p)), (um_clear tx'), rx.
    assert (bufs = []) as ->.
    { pose proof (um_no_events _ _ _ _ _ H2) as E. change (um_events rx = map DeliverSdu bufs) in Hev. rewrite E in Hev.
      by destruct bufs. }
    split_and!; [done| |done|done|done|by rewrite app_nil_r]. constructor; try done. split; [by rewrite <- H6, <- Hr1|done].
Qed.

Lemma mac_grants_deliver n : forall p tx rx q so,
  path_ends p tx rx -> um_link tx rx q so -> bytes_left q so <= Z.of_nat n ->
  returns (mac_grants n p) (fun p' => path_ready p' /\ pa_flow p' = pa_flow p /\
    rl_calls (pa_rx p') = rl_calls (pa_rx p) ++ path_calls p q).
Proof.
  unfold bytes_left. induction n as [|n IH]; intros p tx rx q so Hp Hli Hb; cbn [mac_grants].
  - apply returns_Ret. destruct q as [|d q].
    + rewrite (link_empty _ _ _ Hli) in Hli. split; [by exists tx, rx|]. by rewrite app_nil_r.
    + pose proof (head_left _ _ _ _ _ Hli). pose proof (sum_zlen_nonneg q). simpl in Hb. lia.
  - set (tx0 := um_at tx (rl_current_time (pa_tx p))). set (rx0 := um_at rx (rl_current_time (pa_rx p))).
    assert (Hli0 : um_link tx0 rx0 q so) by (unfold tx0, rx0; by rewrite !um_at_sim).
    pose proof (um_no_events _ _ _ _ _ (pe_rx _ _ _ Hp)) as Hev0. change (um_events rx0 = []) in Hev0. destruct q as [|d q].
    + pose proof (link_empty _ _ _ Hli0) as ->.
      destruct (mac_grant_ok p tx rx tx0 rx0 [] Hp) as (p' & tx2 & rx2 & Hg & Hp' & S1 & S2 & Hfl & Hc);
        [by apply tti_idle|done|done|].
      rewrite Hg, bind_Ret_l. eapply returns_mono; [apply (IH p' tx2 rx2 [] 0 Hp'); [by rewrite S1, S2|simpl; lia]|].
      intros p2 (K1 & K2 & K3). split_and!; [done|congruence|]. rewrite K3, Hc. by rewrite !app_nil_r.
    + pose proof (head_left _ _ _ _ _ Hli0) as Hh. simpl in Hb.
      destruct (tti_ok tx0 rx0 d q so 5 0 Hli0 ltac:(lia)) as ([tx' rx'] & Ht & Hroom & Hcase).
      assert (Hnext : exists q' so' bufs, um_link tx' rx' q' so' /\ um_events rx' = map DeliverSdu bufs /\
        d :: q = bufs ++ q' /\ sumZ zlen q' - so' <= Z.of_nat n).
      { destruct Hcase as [[Hl He]|(k & Hk & Hl & He)]; rewrite Hev0 in He.
        - exists q, 0, [d]. split_and!; [done|done|done|lia].
        - exists (d :: q), (so + k), []. split_and!; [done|done|done|simpl; lia]. }
      destruct Hnext as (q' & so' & bufs & Hl & He & Eq & Hb').
      destruct (mac_grant_ok p tx rx tx' rx' bufs Hp Ht Hroom He) as (p' & tx2 & rx2 & Hg & Hp' & S1 & S2 & Hfl & Hc).
      rewrite Hg, bind_Ret_l. eapply returns_mono; [apply (IH p' tx2 rx2 q' so' Hp'); [by rewrite S1, S2|done]|].
      intros p2 (K1 & K2 & K3). split_and!; [done|congruence|]. rewrite K3, Hc, Eq. unfold path_calls.
      by rewrite Hfl, map_app, app_assoc.
Qed.

Lemma rlc_requests_ok pdus : forall p tx rx q so,
  path_ends p tx rx -> um_link tx rx q so -> Forall (fun d => 0 < zlen d <= NR_SDU_MAX) pdus ->
  bytes_left q so + sumZ zlen pdus <= RLC_TX_MAXSIZE ->
  returns (rlc_requests (pa_tx_node p) (pa_tx p) (map (request (pa_flow p)) pdus)) (fun L =>
    exists tx', path_ends (with_layers p L (pa_rx p)) tx' rx /\ um_link tx' rx (q ++ pdus) so).
Proof.
  unfold bytes_left. induction pdus as [|d pdus IH]; intros p tx rx q so Hp Hli Hf Hroom; cbn [rlc_requests map].
  { apply returns_Ret. exists tx. rewrite app_nil_r. split; [by destruct p, Hp|done]. }
  inversion Hf as [|? ? Hd Hf']; subst. pose proof Hp as [H1 H2 H3 H4 H5 [H6 H7]]. simpl in Hroom.
  pose proof (sum_zlen_nonneg pdus). set (tx0 := um_at tx (rl_current_time (pa_tx p))).
  assert (Hli0 : um_link tx0 rx q so) by (unfold tx0; by rewrite um_at_sim).
  pose proof Hli0 as [Htx Hrx Hlen Hrm].
  destruct (um_recv_sdu_ok tx0 q so d 0 0 Htx) as (tx' & Hr & Htx' & Hc & Hn & Hm); [done| |].
  { rewrite (tq_size _ _ _ Htx). change (um_tx_maxsize tx0) with (um_tx_maxsize tx). lia. }
  destruct (um_request (pa_tx_node p) _ _ _ _ _ H1 (fl_tx_enb (pa_flow p)) d 0 tx' H3 Hr) as (L & Hq & L1 & L2 & L3).
  cbn [request ri_ctxt_pP ri_srb_flagP ri_rb_idP ri_muiP ri_sdu_pP]. rewrite Hq, bind_Ret_l.
  injection Hc as C1 C2 C3 C4.
  eapply returns_mono; [apply (IH (with_layers p L (pa_rx p)) (um_clear tx') rx (q ++ [d]) so)|].
  - constructor; try done. split; [|done]. change (um_tx_maxsize (um_clear tx')) with (um_tx_maxsize tx'). by rewrite Hm.
  - rewrite um_clear_sim. constructor; [done| |by rewrite C1|].
    + rewrite Hn. destruct q; [|done]. simpl. rewrite (link_empty _ _ _ Hli0). apply Hrx.
    + apply Forall_app. split; [done|]. constructor; [|done]. rewrite H7. unfold RLC_RX_MAXSIZE, NR_SDU_MAX in *. lia.
  - done.
  - rewrite sumZ_app. simpl. lia.
  - intros L' (tx2 & K1 & K2). exists tx2. split; [done|]. by rewrite <- app_assoc in K2.
Qed.

Lemma pdcp_items_calls p q : pdcp_items (path_calls p q) = map (indication (pa_flow p)) q.
Proof. unfold path_calls, pdcp_items. induction q as [|d q IH]; [done|]. cbn [map omap list_omap]. by rewrite <- IH. Qed.

Lemma sum_requests f pdus : sumZ ri_sdu_sizeP (map (request f) pdus) = sumZ zlen pdus.
Proof. induction pdus as [|d pdus IH]; [done|]. cbn [map sumZ]. by rewrite IH. Qed.

#[export] Program Instance path_carrier : carrier rlc_path :=
  mk_carrier _ path_carry pa_flow path_ready (fun _ => RLC_TX_MAXSIZE) _.
Next Obligation.
  intros p pdus (tx & rx & Hp & Hli) Hf Hr. unfold path_carry.
  eapply returns_seq; [by apply (rlc_requests_ok pdus p tx rx [] 0 Hp Hli Hf)|]. intros L (tx' & Hp' & Hli').
  rewrite sum_requests. pose proof (sum_zlen_nonneg pdus).
  eapply returns_seq; [apply (mac_grants_deliver _ _ tx' rx _ 0 Hp' Hli'); unfold bytes_left; simpl; lia|].
  intros p' (H1 & H2 & H3). apply returns_Ret. split_and!; [|done|done|done].
  rewrite H3. cbn [with_layers pa_rx]. rewrite drop_app_length.
  exact (pdcp_items_calls (with_layers p L (pa_rx p)) pdus).
Qed.

(** ** Example: a downlink bearer *)

(** a layer with one UE, whose DRB 1 is on channel 4 *)
Definition demo_um_ops (id : Z) : list rlc_op := [AddDrb id 1 (demo_drb_config 4 1 demo_um_config)].

Definition demo_tx_layer : rlc_layer := Eval vm_compute in
  the (rlc_run demo_rlc_node (new_nr_rlc_ue_manager true) (demo_um_ops 1001)).
Definition demo_rx_layer : rlc_layer := Eval vm_compute in
  the (rlc_run demo_rlc_node (new_nr_rlc_ue_manager false) (demo_um_ops 1)).

Definition demo_path : rlc_path := mk_path demo_rlc_node demo_rlc_node (mk_flow 1 1 1001 0 1) 1 4 demo_tx_layer demo_rx_layer.

Definition demo_drb_entity : nr_rlc_entity_um_t := the (new_nr_rlc_entity_um RLC_RX_MAXSIZE RLC_TX_MAXSIZE 35 12).

Lemma demo_drb_link : um_link demo_drb_entity demo_drb_entity [] 0.
Proof.
  assert (Hc : um_config_ok demo_drb_entity) by (constructor; [by right|done|done]).
  constructor; [|intros d|done|constructor].
  - constructor; try done.
    + constructor; [|constructor|constructor]. constructor; [constructor|done|done].
    + exists []. destruct (new_repr (100 * 1000) 1024 ltac:(lia) eq_refl) as (t & [= <-] & H & _). exact H.
  - constructor; try done; constructor.
Qed.

Lemma demo_has_um enb id L : rlc_run demo_rlc_node (new_nr_rlc_ue_manager enb) (demo_um_ops id) = Ret L ->
  find_rlc_ue (rl_ue_list L) id = Some 0%nat -> rl_current_time L = 0 ->
  (exists u rb, rl_ue_list L = [u] /\ get_slot u (Drb 0) = Ret (Some rb) /\ re_entity rb = EntityUm demo_drb_entity /\
    rd_slot (ru_lcid2rb u) 3 = Ret (NR_RLC_DRB 1)) ->
  has_um L id 1 4 demo_drb_entity.
Proof.
  intros E Hf H0 (u & rb & Hl & Hs & He & Hc). exists 0%nat, u, rb. constructor; try done.
  - exact (table_run _ _ _ _ (new_manager_table enb) E).
  - constructor; [done|by rewrite Hl].
  - rewrite H0. constructor; [by left|done|done|done].
Qed.

Lemma demo_path_ready : path_ready demo_path.
Proof.
  exists demo_drb_entity, demo_drb_entity. split; [|exact demo_drb_link]. constructor; try done.
  - apply (demo_has_um true); [by vm_compute|done|done|]. eexists _, _.
    split; [reflexivity|]. split; [reflexivity|]. split; vm_compute; reflexivity.
  - apply (demo_has_um false); [by vm_compute|done|done|]. eexists _, _.
    split; [reflexivity|]. split; [reflexivity|]. split; vm_compute; reflexivity.
Qed.
