(* ===== verification/Stack.v ===== *)
(** The user plane from end to end: SDUs handed to SDAP on one node, through the
    PDCP layer, the layers below and the PDCP layer of the other node, to the top
    of its SDAP. What is below is any [carrier]; the RLC layers of both nodes are
    one. *)

From stdpp Require Import base tactics list numbers.
From Stdlib Require Import ZArith Lia.
From S2P Require Import Prelude HashTable F1Ids DataQueue Sdap SdapSpec RlcEntity RlcUe RlcUeSpec RlcLayer RlcPath.
From S2P Require Import PdcpSdu PdcpEntity PdcpRx PdcpRoundtrip PdcpUe PdcpUeSpec PdcpLayer.

(** ** The two ends of a bearer in their layers *)

Definition has_bearer (L : pdcp_layer) (id d : Z) (e : nr_pdcp_entity_t) : Prop :=
  exists u rb, find_ue (ue_list L) id = Some u /\ nr_pdcp_get_rb u d false = Some rb /\ rb_entity rb = e.

(** the identity [ue] that RLC knows the UE by: on the gNB the entry in the F1
    table *)
Definition rlc_ue (nd : node_t) (id ue : Z) (g : bool) : Prop :=
  if g then NODE_IS_CU nd = false /\ secondary_ue nd id = Ret ue else ue = id.

(** the sending node: the bearer, the rule that maps the flow to it, and the UE *)
Record sender (nd : node_t) (L : pdcp_layer) (id ue d ps qfi : Z) (e : nr_pdcp_entity_t) : Prop := {
  sd_ok : layer_ok L;
  sd_rb : has_bearer L id d e;
  sd_sdap : exists se q, nr_sdap_get_entity (sdap_entities L) id ps = Some se /\ rule_at se qfi = Ret q /\
    Sdap.drb_id q = d /\ Sdap.has_sdap_tx q = has_sdap_tx e;
  sd_f1 : rlc_ue nd id ue (is_gnb e)
}.

Record receiver (nd : node_t) (L : pdcp_layer) (id d : Z) (e : nr_pdcp_entity_t) : Prop := {
  rv_ok : layer_ok L;
  rv_rb : has_bearer L id d e;
  rv_sdap : exists se, nr_sdap_get_entity (sdap_entities L) id (pdusession_id e) = Some se;
  rv_mode : nos1_or_tun nd = true -> is_gnb e = false
}.

Lemma get_rb_set u d f rb rb' : nr_pdcp_get_rb u d f = Some rb ->
  nr_pdcp_get_rb (set_slot u f (Z.to_nat (d - 1)) (Some rb')) d f = Some rb'.
Proof.
  intros H. destruct (get_rb_slot _ _ _ _ H) as [Hs _]. unfold nr_pdcp_get_rb in *. simpl in Hs.
  destruct f; (destruct (_ || _); [done|]); simpl in *; by rewrite list_lookup_insert_eq by (by eapply lookup_lt_Some).
Qed.

Lemma put_same l ue ps e : nr_sdap_get_entity l ue ps = Some e -> put_entity l ue ps e = l.
Proof.
  induction l as [|x l IH]; [done|]. simpl. destruct (is_entity ue ps x); [by intros [= ->]|]. intros H. by rewrite IH.
Qed.

Lemma sdap_same L : L <| sdap_entities := sdap_entities L |> = L.
Proof. by destruct L. Qed.

(** changing the entity of a bearer *)
Lemma put_bearer L id u d rb e : layer_ok L -> find_ue (ue_list L) id = Some u -> nr_pdcp_get_rb u d false = Some rb ->
  bearer e = bearer (rb_entity rb) ->
  let L' := put_rb L u false d (Some (with_entity rb e)) in
  layer_ok L' /\ has_bearer L' id d (e <| events := [] |>) /\
  sdap_entities L' = sdap_entities L /\ calls L' = calls L.
Proof.
  intros H Hf Hrb Hb. destruct (find_split _ _ _ Hf) as [<- _]. destruct (get_rb_slot _ _ _ _ Hrb) as [Hs _].
  destruct (put_rb_kept L u false d rb e H Hf Hs Hb) as [K Hfind]. split_and!; [apply (ke_ok _ _ _ K)| |done|done].
  exists (set_slot u false (Z.to_nat (d - 1)) (Some (with_entity rb e))), (with_entity rb e).
  split; [exact Hfind|]. split; [by apply (get_rb_set u d false rb)|done].
Qed.

Section ends.
Context (nd : node_t) (id d : Z).

(** ** Sending *)

Lemma data_req_ok L ue ctxt e sdu e' pdu :
  layer_ok L -> has_bearer L id d e -> rlc_ue nd id ue (is_gnb e) ->
  ctxt = mk_ctxt 0 (enb_flag ctxt) 0 id 0 0 ->
  nr_pdcp_entity_process_sdu (nd_crypto nd) e sdu 0 (nr_max_pdcp_pdu_size (zlen sdu)) = Ret (zlen pdu, e', pdu) ->
  returns (nr_pdcp_data_req_drb nd L ctxt false d 0 sdu) (fun '(ret, L') => ret = true /\
    layer_ok L' /\ has_bearer L' id d (e' <| events := [] |>) /\ sdap_entities L' = sdap_entities L /\
    calls L' = calls L ++ [rlc_request (Z.b2z (is_gnb e)) ue false d 0 pdu]).
Proof.
  intros H (u & rb & Hf & Hrb & <-) Hf1 Hc Hp. destruct (process_sdu_bearer _ _ _ _ _ _ _ _ Hp) as [Hb _].
  destruct (put_bearer L id u d rb e' H Hf Hrb Hb) as (H1 & H2 & H3 & H4).
  unfold nr_pdcp_data_req_drb. rewrite Hc. cbn [module_id instance eNB_index rntiMaybeUEid enb_flag].
  rewrite !Z.eqb_refl. cbn [negb orb]. unfold nr_pdcp_manager_get_ue. rewrite Hf, Hrb, Hp, bind_Ret_l.
  pose proof (zlen_nonneg pdu). rewrite (proj2 (Z.eqb_neq _ _)) by lia.
  assert (Hg : is_gnb e' = is_gnb (rb_entity rb)) by (by injection Hb). rewrite Hg.
  set (L1 := put_rb L u false d _) in *. clearbody L1.
  assert (Hemit : forall c, layer_ok (emit c L1) /\ has_bearer (emit c L1) id d (e' <| events := [] |>) /\
    sdap_entities (emit c L1) = sdap_entities L /\ calls (emit c L1) = calls L ++ [c]).
  { intros c. split_and!; [by apply (kept_same 0 L1)|done|done|]. simpl. by rewrite H4. }
  unfold rlc_ue in Hf1. destruct (is_gnb (rb_entity rb)).
  - destruct Hf1 as [Hcu Hsec]. unfold deliver_pdu_drb_gnb. rewrite Hsec, bind_Ret_l, Hcu, bind_Ret_l.
    apply returns_Ret. split; [done|]. exact (Hemit (rlc_request 1 ue false d 0 pdu)).
  - rewrite Hf1. unfold deliver_pdu_drb_ue. rewrite bind_Ret_l. apply returns_Ret. split; [done|].
    exact (Hemit (rlc_request 0 id false d 0 pdu)).
Qed.

Definition node_ctxt (g : bool) : protocol_ctxt_t := mk_ctxt 0 (Z.b2z g) 0 id 0 0.

(** SDAP with a rule for the flow *)
Lemma tx_with_rule acc se g q sdu qfi rqi : rule_at se qfi = Ret q -> 1 <= Sdap.drb_id q -> 0 < zlen sdu < 9000 ->
  let pdu := sdap_pdu g (Sdap.has_sdap_tx q) qfi rqi sdu in
  nr_sdap_tx_entity acc se g d sdu qfi rqi = Ret (acc (Sdap.drb_id q) pdu, se, [PdcpDataReq (Sdap.drb_id q) pdu]).
Proof.
  intros Hr Hd Hs pdu. unfold nr_sdap_tx_entity, nr_sdap_qfi2drb_map. rewrite Hr. cbn [mbind outcome_bind].
  rewrite (proj2 (Z.eqb_neq (Sdap.drb_id q) 0)) by lia. cbn [mbind outcome_bind negb].
  rewrite (proj2 (Z.eqb_neq (Sdap.drb_id q) 0)) by lia. cbn [negb]. rewrite Hr. cbn [mbind outcome_bind].
  unfold pdu, sdap_pdu. destruct (Sdap.has_sdap_tx q); cbn [negb]; [|done].
  by rewrite (proj2 (Z.eqb_neq _ _)), (proj2 (Z.ltb_ge _ _)) by lia.
Qed.

(** an SDU handed to SDAP becomes a request to RLC with the PDU of PDCP *)
Lemma send_one L ue ps qfi rqi e sdu e' pdu :
  sender nd L id ue d ps qfi e -> 1 <= d -> 0 < zlen sdu < 9000 ->
  let sp := sdap_pdu (is_gnb e) (has_sdap_tx e) qfi rqi sdu in
  nr_pdcp_entity_process_sdu (nd_crypto nd) e sp 0 (nr_max_pdcp_pdu_size (zlen sp)) = Ret (zlen pdu, e', pdu) ->
  returns (sdap_data_req nd L (node_ctxt (is_gnb e)) id d 0 sdu qfi rqi ps) (fun '(ret, L') => ret = true /\
    sender nd L' id ue d ps qfi (e' <| events := [] |>) /\
    calls L' = calls L ++ [rlc_request (Z.b2z (is_gnb e)) ue false d 0 pdu]).
Proof.
  intros [H1 H2 (se & q & Hse & Hr & Hd & Ht) H4] Hd1 Hs sp Hp.
  destruct (process_sdu_bearer _ _ _ _ _ _ _ _ Hp) as [Hb _]. injection Hb as _ _ _ _ Hbt Hbg.
  destruct (data_req_ok L ue (node_ctxt (is_gnb e)) e sp e' pdu H1 H2 H4 eq_refl Hp) as ([ret L'] & Hreq & -> & K1 & K2 & K3 & K4).
  unfold sdap_data_req, Sdap.sdap_data_req. rewrite Hse.
  replace (negb (enb_flag (node_ctxt (is_gnb e)) =? 0)) with (is_gnb e) by (by destruct (is_gnb e)).
  rewrite (tx_with_rule _ se _ q) by (done || lia). rewrite Hd, Ht, !bind_Ret_l. rewrite (put_same _ _ _ _ Hse), sdap_same.
  fold sp. cbn [run_sdap_calls]. rewrite Hreq, !bind_Ret_l. apply returns_Ret. split; [done|]. split; [|done].
  constructor; [done|done| |].
  - exists se, q. simpl. rewrite K3. by rewrite Hbt.
  - change (is_gnb (e' <| events := [] |>)) with (is_gnb e'). by rewrite Hbg.
Qed.

(** ** Receiving *)

Lemma find_rb_slot l a i0 i rb : NoDup (slot_addrs l) -> l !! i = Some (Some rb) -> rb_addr rb = a ->
  find_rb l a i0 = Some (i0 + Z.of_nat i, rb).
Proof.
  intros Hnd. revert i i0. induction l as [|s l IH]; intros i i0 Hi Ha; [done|]. destruct i as [|i]; simpl in Hi.
  - injection Hi as ->. simpl. rewrite Ha, Z.eqb_refl. do 2 f_equal. lia.
  - destruct s as [rb0|]; simpl in *.
    + apply list.NoDup_cons in Hnd as [Hn Hnd]. rewrite (proj2 (Z.eqb_neq _ _)).
      * rewrite (IH Hnd i) by done. do 2 f_equal. lia.
      * intros E. apply Hn. rewrite E, <- Ha. apply list_elem_of_omap. exists (Some rb). split; [|done].
        by eapply list_elem_of_lookup_2.
    + rewrite (IH Hnd i) by done. do 2 f_equal. lia.
Qed.

Lemma slot_addrs_NoDup L u : layer_ok L -> find_ue (ue_list L) id = Some u -> NoDup (slot_addrs (drb u)).
Proof.
  intros H Hf. destruct (find_split _ _ _ Hf) as (_ & l1 & l2 & El & _). pose proof (lo_alloc _ H) as Ha.
  assert (Hn : NoDup (live (ue_list L) ++ deleted L)) by (rewrite Ha; apply NoDup_seqZ).
  apply list.NoDup_app in Hn as (Hn & _ & _). rewrite El, live_middle in Hn. apply list.NoDup_app in Hn as (Hn & _ & _).
  by apply list.NoDup_app in Hn as (_ & _ & Hn).
Qed.

Definition top_call (g : bool) (ps : Z) (sdu : list Z) : layer_call :=
  if g then NasSocketWrite sdu else GtpSendSdu id ps sdu.

(** SDAP passes the SDU on *)
Lemma sdap_ind_ok L rb g hdr ps qfi rqi sdu se :
  nr_sdap_get_entity (sdap_entities L) id ps = Some se -> 0 <= qfi < SDAP_MAX_QFI ->
  sdap_data_ind nd L rb (negb g) hdr ps id (sdap_pdu g hdr qfi rqi sdu) = Ret (emit (top_call g ps sdu) L).
Proof.
  intros Hse Hq. unfold sdap_data_ind, Sdap.sdap_data_ind. rewrite Hse, rx_sdap_pdu by done.
  rewrite !bind_Ret_l. rewrite (put_same _ _ _ _ Hse), sdap_same. by destruct g.
Qed.

Lemma has_bearer_events L e : layer_ok L -> has_bearer L id d e -> events e = [].
Proof.
  intros H (u & rb & Hf & Hrb & <-). destruct (get_rb_slot _ _ _ _ Hrb) as [Hs _].
  destruct (get_ue_ok L id L u H) as (_ & _ & _ & Hu & _); [unfold nr_pdcp_manager_get_ue; by rewrite Hf|].
  exact (sk_events _ _ _ (uo_slots u Hu _ _ _ Hs)).
Qed.

(** a PDU received for the bearer ends as a call of the layer above SDAP *)
Lemma recv_one L e pdu e' g qfi rqi sdu :
  receiver nd L id d e -> 1 <= d -> is_gnb e = negb g -> 0 <= qfi < SDAP_MAX_QFI ->
  nr_pdcp_entity_recv_pdu (nd_crypto nd) e pdu = Ret e' ->
  map ev_buf (events e') = [sdap_pdu g (has_sdap_rx e) qfi rqi sdu] ->
  returns (do_pdcp_data_ind nd L (node_ctxt (is_gnb e)) false d pdu) (fun L' =>
    receiver nd L' id d (e' <| events := [] |>) /\ calls L' = calls L ++ [top_call g (pdusession_id e) sdu]).
Proof.
  intros [H1 (u & rb & Hf & Hrb & Erb) (se & Hse) Hmode] Hd Hg Hq Hp Hev. subst e.
  pose proof (recv_pdu_bearer _ _ _ _ Hp) as Hb. destruct (put_bearer L id u d rb e' H1 Hf Hrb Hb) as (K1 & K2 & K3 & K4).
  destruct (get_rb_slot _ _ _ _ Hrb) as [Hs _]. destruct (find_split _ _ _ Hf) as [Hid _].
  pose proof Hb as Hb'. injection Hb' as _ Hrbid Hps Hrx _ Hgn.
  unfold do_pdcp_data_ind, node_ctxt. cbn [module_id instance eNB_index rntiMaybeUEid brOption]. cbn [Z.eqb negb orb].
  unfold nr_pdcp_manager_get_ue. rewrite Hf, Hrb, Hp, bind_Ret_l. unfold finish_rb.
  set (L1 := put_rb L u false d _) in *. destruct (events e') as [|ev [|]]; try done. injection Hev as Hev.
  assert (Hfin : deliver_sdu_drb nd L1 (set_slot u false (Z.to_nat (d - 1)) (Some (with_entity rb e')))
    (with_entity rb e') ev = Ret (emit (top_call g (pdusession_id (rb_entity rb)) sdu) L1)).
  { unfold deliver_sdu_drb. cbn [rb_entity with_entity rb_addr].
    change (ue_id (set_slot u false _ _)) with (ue_id u). rewrite Hid, Hev.
    change (has_sdap_rx (e' <| events := [] |>)) with (has_sdap_rx e').
    change (pdusession_id (e' <| events := [] |>)) with (pdusession_id e').
    destruct (nos1_or_tun nd) eqn:En.
    - rewrite (Hmode eq_refl) in Hg. destruct g; [|done]. rewrite Hrx, Hps.
      exact (sdap_ind_ok L1 (rb_id e') true _ _ qfi rqi sdu se Hse Hq).
    - rewrite (find_rb_slot _ _ 0 (Z.to_nat (d - 1)) (with_entity rb e')); [| | |done].
      + cbn [rb_entity with_entity]. change (is_gnb (e' <| events := [] |>)) with (is_gnb e').
        change (has_sdap_rx (e' <| events := [] |>)) with (has_sdap_rx e').
        change (pdusession_id (e' <| events := [] |>)) with (pdusession_id e').
        rewrite Hrx, Hps, Hgn, Hg. exact (sdap_ind_ok L1 _ g _ _ qfi rqi sdu se Hse Hq).
      + apply (slot_addrs_NoDup L1); [done|]. rewrite <- Hid. apply put_rb_kept; try done. by rewrite Hid.
      + simpl. apply list_lookup_insert_eq. by eapply lookup_lt_Some. }
  cbn [deliver_sdus]. rewrite Hfin, bind_Ret_l. apply returns_Ret. split; [|done].
  constructor.
  - by apply (kept_same 0 L1).
  - exact K2.
  - exists se. simpl. change (pdusession_id (e' <| events := [] |>)) with (pdusession_id e'). by rewrite Hps.
  - intros En. change (is_gnb (e' <| events := [] |>)) with (is_gnb e'). rewrite Hgn. by apply Hmode.
Qed.
End ends.

(** ** A batch of SDUs *)

Fixpoint send_all (nd : node_t) (L : pdcp_layer) (id d ps qfi : Z) (rqi g : bool) (sdus : list (list Z))
    : outcome pdcp_layer :=
  match sdus with
  | [] => Ret L
  | sdu :: sdus =>
      '(_, L) ← sdap_data_req nd L (node_ctxt id g) id d 0 sdu qfi rqi ps; send_all nd L id d ps qfi rqi g sdus
  end.

(** the thread that takes the indications of RLC from their queue *)
Fixpoint recv_all (nd : node_t) (L : pdcp_layer) (items : list pdcp_data_ind_queue_item) : outcome pdcp_layer :=
  match items with
  | [] => Ret L
  | it :: items =>
      L ← do_pdcp_data_ind nd L (pi_ctxt_pP it) (pi_srb_flagP it) (pi_rb_id it) (pi_sdu_buffer it);
      recv_all nd L items
  end.

(** the calls of a layer that go to RLC *)
Definition rlc_items (cs : list layer_call) : list rlc_data_req_queue_item :=
  omap (fun c => match c with EnqueueRlcDataReq it => Some it | _ => None end) cs.

(** the SDUs of a flow from one node ([g]: the gNB) to the other *)
Definition transfer {S} `{!carrier S} (nd_tx nd_rx : node_t) (L_tx L_rx : pdcp_layer) (s : S)
    (id_tx d ps qfi : Z) (rqi g : bool) (sdus : list (list Z)) : outcome (pdcp_layer * pdcp_layer * S) :=
  L_tx' ← send_all nd_tx L_tx id_tx d ps qfi rqi g sdus;
  '(s, out) ← carry s (rlc_items (drop (length (calls L_tx)) (calls L_tx')));
  L_rx ← recv_all nd_rx L_rx out;
  Ret (L_tx', L_rx, s).

(** the bearer as the layers below know it *)
Definition flow_of (ue_tx id_rx d : Z) (g : bool) : rlc_flow := mk_flow d (Z.b2z g) ue_tx (Z.b2z (negb g)) id_rx.

(** both nodes are ready for the flow, and their entities in step *)
Record stack_ready (nd_tx nd_rx : node_t) (L_tx L_rx : pdcp_layer) (id_tx ue_tx id_rx d ps qfi : Z) (g : bool)
    (tx rx : nr_pdcp_entity_t) : Prop := {
  st_sender : sender nd_tx L_tx id_tx ue_tx d ps qfi tx;
  st_receiver : receiver nd_rx L_rx id_rx d rx;
  st_side : is_gnb tx = g;
  st_sync : in_sync tx rx;
  st_d : 1 <= d
}.

Lemma sync_no_events tx rx : in_sync tx rx -> in_sync (tx <| events := [] |>) (rx <| events := [] |>).
Proof. intros [[] ? [[] ?] ? ?]. constructor; [by constructor|done|split; [by constructor|done]|done|done]. Qed.

Section batch.
Context (nd_tx nd_rx : node_t) `{!crypto_laws (nd_crypto nd_tx)} (Hcrypto : nd_crypto nd_rx = nd_crypto nd_tx).
Context (id_tx ue_tx id_rx d ps qfi : Z) (rqi g : bool) (Hq : 0 <= qfi < SDAP_MAX_QFI).

Lemma step_both L_tx L_rx tx rx sdu :
  stack_ready nd_tx nd_rx L_tx L_rx id_tx ue_tx id_rx d ps qfi g tx rx -> tx_next tx < 2 ^ 31 -> 0 < zlen sdu < 9000 ->
  exists L_tx' L_rx' tx' rx' pdu,
    sdap_data_req nd_tx L_tx (node_ctxt id_tx g) id_tx d 0 sdu qfi rqi ps = Ret (true, L_tx') /\
    calls L_tx' = calls L_tx ++ [EnqueueRlcDataReq (request (flow_of ue_tx id_rx d g) pdu)] /\ 0 < zlen pdu <= zlen sdu + 8 /\
    do_pdcp_data_ind nd_rx L_rx (node_ctxt id_rx (negb g)) false d pdu = Ret L_rx' /\
    calls L_rx' = calls L_rx ++ [top_call id_rx g (pdusession_id rx) sdu] /\
    stack_ready nd_tx nd_rx L_tx' L_rx' id_tx ue_tx id_rx d ps qfi g tx' rx' /\
    tx_next tx' = tx_next tx + 1 /\ pdusession_id rx' = pdusession_id rx.
Proof.
  intros [Hs Hr Hg Hsync Hd] Hn Hz. set (sp := sdap_pdu g (has_sdap_tx tx) qfi rqi sdu).
  pose proof (sdap_pdu_length g (has_sdap_tx tx) qfi rqi sdu) as Hlen. fold sp in Hlen.
  destruct (session_step (nd_crypto nd_tx) tx rx sp Hsync Hn) as
    (tx' & rx' & pdu & Hp & Hv & Hev & Hsync' & Hn' & _ & Hb1 & Hb2).
  { rewrite Hlen. unfold clear_len. destruct (has_sdap_tx tx); simpl; lia. }
  assert (Hside : is_gnb rx = negb g).
  { pose proof (peer_side _ _ (sync_peers _ _ Hsync)) as Hpg. rewrite Hg in Hpg. rewrite Hpg. by rewrite negb_involutive. }
  rewrite (has_bearer_events id_rx d L_rx rx (rv_ok _ _ _ _ _ Hr) (rv_rb _ _ _ _ _ Hr)) in Hev. simpl in Hev.
  pose proof (peer_sdap _ _ (sync_peers _ _ Hsync)) as Hhdr.
  destruct (send_one nd_tx id_tx d L_tx ue_tx ps qfi rqi tx sdu tx' pdu Hs Hd Hz) as ([ret L_tx'] & Hsend & -> & Hs' & Hc).
  { by rewrite Hg. }
  destruct (recv_one nd_rx id_rx d L_rx rx pdu rx' g qfi rqi sdu Hr Hd Hside Hq) as (L_rx' & Hrecv & Hr' & Hc').
  { by rewrite Hcrypto. }
  { rewrite Hev. unfold sp. by rewrite Hhdr. }
  rewrite Hside in Hrecv. rewrite Hg in Hsend, Hc. pose proof (zlen_nonneg sp).
  pose proof (recv_pdu_bearer _ _ _ _ Hv) as Hbr. injection Hbr as _ _ Hps _ _ _.
  destruct (process_sdu_bearer _ _ _ _ _ _ _ _ Hp) as [Hbt _]. injection Hbt as _ _ _ _ _ Hgt.
  exists L_tx', L_rx', (tx' <| events := [] |>), (rx' <| events := [] |>), pdu. split_and!; try done.
  - lia.
  - unfold nr_max_pdcp_pdu_size, LONG_PDCP_HEADER_SIZE, PDCP_INTEGRITY_SIZE in Hb2. destruct (has_sdap_tx tx); simpl in Hlen; lia.
  - constructor; [done|done| |by apply sync_no_events|done]. change (is_gnb (tx' <| events := [] |>)) with (is_gnb tx').
    congruence.
Qed.

Lemma batch_both sdus : forall L_tx L_rx tx rx,
  stack_ready nd_tx nd_rx L_tx L_rx id_tx ue_tx id_rx d ps qfi g tx rx -> tx_next tx + zlen sdus <= 2 ^ 31 ->
  Forall (fun sdu => 0 < zlen sdu < 9000) sdus ->
  exists L_tx' L_rx' tx' rx' pdus,
    send_all nd_tx L_tx id_tx d ps qfi rqi g sdus = Ret L_tx' /\
    calls L_tx' = calls L_tx ++ map (fun p => EnqueueRlcDataReq (request (flow_of ue_tx id_rx d g) p)) pdus /\
    Forall (fun p => 0 < zlen p <= NR_SDU_MAX) pdus /\ sumZ zlen pdus <= sumZ (fun sdu => zlen sdu + 8) sdus /\
    recv_all nd_rx L_rx (map (indication (flow_of ue_tx id_rx d g)) pdus) = Ret L_rx' /\
    calls L_rx' = calls L_rx ++ map (top_call id_rx g (pdusession_id rx)) sdus /\
    stack_ready nd_tx nd_rx L_tx' L_rx' id_tx ue_tx id_rx d ps qfi g tx' rx'.
Proof.
  induction sdus as [|sdu sdus IH]; intros L_tx L_rx tx rx Hst Hn Hf.
  { exists L_tx, L_rx, tx, rx, []. simpl. rewrite !app_nil_r. split_and!; try done. }
  inversion Hf as [|? ? Hz Hf']; subst. rewrite zlen_cons in Hn. pose proof (zlen_nonneg sdus).
  destruct (step_both L_tx L_rx tx rx sdu Hst) as
    (L_tx1 & L_rx1 & tx1 & rx1 & pdu & H1 & H2 & H3 & H4 & H5 & H6 & H7 & H8); [lia|done|].
  destruct (IH L_tx1 L_rx1 tx1 rx1 H6) as (L_tx2 & L_rx2 & tx2 & rx2 & pdus & K1 & K2 & K3 & K4 & K5 & K6 & K7); [lia|done|].
  exists L_tx2, L_rx2, tx2, rx2, (pdu :: pdus).
  change (node_ctxt id_rx (negb g)) with (pi_ctxt_pP (indication (flow_of ue_tx id_rx d g) pdu)) in H4.
  cbn [send_all recv_all sumZ map]. change (pi_srb_flagP _) with false. change (pi_rb_id _) with d.
  change (pi_sdu_buffer _) with pdu. rewrite H1, H4, !bind_Ret_l. split_and!; try done.
  - by rewrite K2, H2, <- app_assoc.
  - constructor; [unfold NR_SDU_MAX; lia|done].
  - lia.
  - by rewrite K6, H5, H8, <- app_assoc.
Qed.
End batch.

Lemma rlc_items_requests f pdus : rlc_items (map (fun p => EnqueueRlcDataReq (request f p)) pdus) = map (request f) pdus.
Proof. unfold rlc_items. induction pdus as [|p pdus IH]; [done|]. cbn [map omap list_omap]. by rewrite <- IH. Qed.

(** C21: The user plane delivers end to end. SDUs of a flow handed to SDAP on one
    node (downlink from the gNB or uplink from the UE), with any mixture of SDAP
    headers, ciphering and integrity protection that both ends share, go through
    the PDCP layer, through any carrier below that keeps its promise (the RLC
    layers of both nodes with an unacknowledged-mode bearer do) and through the
    PDCP layer and SDAP of the other node, and leave it unchanged, once and in
    order, at the NAS socket or in the GTP tunnel of the UE and its session; both
    nodes are then ready for more. *)
Theorem stack_delivers {S} `{!carrier S} nd_tx nd_rx `{!crypto_laws (nd_crypto nd_tx)}
    L_tx L_rx (s : S) id_tx ue_tx id_rx d ps qfi rqi g tx rx sdus :
  nd_crypto nd_rx = nd_crypto nd_tx -> 0 <= qfi < SDAP_MAX_QFI ->
  stack_ready nd_tx nd_rx L_tx L_rx id_tx ue_tx id_rx d ps qfi g tx rx ->
  carrier_ready s -> carrier_flow s = flow_of ue_tx id_rx d g ->
  Forall (fun sdu => 0 < zlen sdu < 9000) sdus ->
  sumZ (fun sdu => zlen sdu + 8) sdus <= carrier_room s -> tx_next tx + zlen sdus <= 2 ^ 31 ->
  returns (transfer nd_tx nd_rx L_tx L_rx s id_tx d ps qfi rqi g sdus) (fun '(L_tx', L_rx', s') =>
    calls L_rx' = calls L_rx ++
      map (fun sdu => if g then NasSocketWrite sdu else GtpSendSdu id_rx (pdusession_id rx) sdu) sdus /\
    carrier_ready s' /\ carrier_room s' = carrier_room s /\ carrier_flow s' = carrier_flow s /\
    exists tx' rx', stack_ready nd_tx nd_rx L_tx' L_rx' id_tx ue_tx id_rx d ps qfi g tx' rx').
Proof.
  intros Hc Hq Hst Hs Hfl Hf Hroom Hn.
  destruct (batch_both nd_tx nd_rx Hc id_tx ue_tx id_rx d ps qfi rqi g Hq sdus L_tx L_rx tx rx Hst Hn Hf)
    as (L_tx' & L_rx' & tx' & rx' & pdus & H1 & H2 & H3 & H4 & H5 & H6 & H7).
  unfold transfer. rewrite H1, bind_Ret_l, H2, drop_app_length.
  rewrite rlc_items_requests, <- Hfl. eapply returns_seq; [apply (carrier_in_order s pdus Hs H3); lia|].
  intros [s' out] (-> & Hs' & Hr' & Hf'). rewrite Hfl, H5, bind_Ret_l. apply returns_Ret.
  split_and!; [by rewrite H6|done|done|congruence|]. by exists tx', rx'.
Qed.

(** ** Identities over F1

    PDCP and RLC of a gNB ask the F1 tables for the identity of a UE at the other
    one. *)

Lemma rlc_ue_from_f1 s a m nd id d :
  f1_inv s a -> ma_tbl a true = Some m -> m !! id = Some d -> NODE_IS_CU nd = false ->
  (forall x, PdcpUe.secondary_ue nd x = secondary_of s true x) -> rlc_ue nd id (F1Ids.secondary_ue d) true.
Proof. intros H Hm Hd Hc Hs. split; [done|]. by rewrite Hs, (secondary_of_ok s a true id H), Hm; simpl; rewrite Hd. Qed.

Lemma delivers_as_from_f1 s a m L id d :
  f1_inv s a -> ma_tbl a false = Some m -> m !! id = Some d -> rl_enb_flag L = true -> 0 <= id < 2 ^ 32 ->
  delivers_as (mk_rlc_node false false (secondary_of s false)) L id (F1Ids.secondary_ue d).
Proof.
  intros H Hm Hd Hg Hid. unfold delivers_as. rewrite Hg. split_and!; [|done|done]. cbn [rn_secondary_ue].
  unfold u32. rewrite Z.mod_small by done. by rewrite (secondary_of_ok s a false id H), Hm; simpl; rewrite Hd.
Qed.

(** ** Two nodes, their PDCP and RLC layers

    The UE is 1 at the CU and 1001 at the DU. *)

Definition demo_f1 : f1_state := match f1_run f1_start (demo_f1_ops 1 1001) with Ret (_, s) => s | _ => f1_start end.

Lemma demo_f1_entry : exists a m, f1_inv demo_f1 a /\ ma_tbl a true = Some m /\ m !! 1 = Some (mk_f1_ue_data 1001 0 0).
Proof.
  pose proof (f1_run_agree (demo_f1_ops 1 1001) _ _ f1_start_inv) as H.
  destruct (maps_run (mk_f1_maps None None) (demo_f1_ops 1 1001)) as [[rs a]| | |] eqn:E; [|by vm_compute in E..].
  destruct H as (s & Hs & Hi). exists a. unfold demo_f1. rewrite Hs. injection E as _ <-. by eexists.
Qed.

Definition demo_f1_node : node_t := mk_node toy_crypto false false (secondary_of demo_f1 true).

Definition demo_side_calls (g : bool) : list pdcp_call :=
  [AddDrbs g 1 [demo_drb 1] PdcpLayer.demo_keys; TimerRound 3].

Definition demo_gnb_side : pdcp_layer := Eval vm_compute in
  the (layer_run demo_f1_node new_nr_pdcp_ue_manager (demo_side_calls true)).
Definition demo_ue_side : pdcp_layer := Eval vm_compute in
  the (layer_run demo_f1_node new_nr_pdcp_ue_manager (demo_side_calls false)).

Definition entity_of (L : pdcp_layer) : nr_pdcp_entity_t :=
  match find_ue (ue_list L) 1 ≫= (fun u => nr_pdcp_get_rb u 1 false) with
  | Some rb => rb_entity rb
  | None => PdcpRoundtrip.demo_gnb
  end.

Lemma demo_stack_ready :
  stack_ready demo_f1_node demo_f1_node demo_gnb_side demo_ue_side 1 1001 1 1 10 5 true (entity_of demo_gnb_side) (entity_of demo_ue_side).
Proof.
  assert (Hg : layer_ok demo_gnb_side)
    by (apply (layer_run_ok demo_f1_node (demo_side_calls true) _ _ new_manager_ok); reflexivity).
  assert (Hu : layer_ok demo_ue_side)
    by (apply (layer_run_ok demo_f1_node (demo_side_calls false) _ _ new_manager_ok); reflexivity).
  constructor; [| |done| |done].
  - constructor; [done| | |].
    + eexists _, _. by split_and!.
    + eexists _, _. by split_and!.
    + destruct demo_f1_entry as (a & m & H1 & H2 & H3). by apply (rlc_ue_from_f1 demo_f1 a m _ 1 _ H1 H2 H3).
  - constructor; [done| | |done].
    + eexists _, _. by split_and!.
    + by eexists.
  - constructor; [|by split| |done|done].
    + constructor; try done; unfold pdcp_config_ok; try (repeat split; auto; done).
    + split; [|done]. constructor; simpl; try lia; try constructor; done.
Qed.

Lemma stack_delivers_witness :
  returns (transfer demo_f1_node demo_f1_node demo_gnb_side demo_ue_side demo_path 1 1 10 5 false true
             [[69; 1; 2]; [69; 3]]) (fun '(_, L_rx, _) =>
    calls L_rx = [NasSocketWrite [69; 1; 2]; NasSocketWrite [69; 3]]).
Proof.
  eapply returns_mono.
  - apply (stack_delivers demo_f1_node demo_f1_node demo_gnb_side demo_ue_side demo_path 1 1001 1 1 10 5 false true
      (entity_of demo_gnb_side) (entity_of demo_ue_side) [[69; 1; 2]; [69; 3]]).
    + done.
    + done.
    + exact demo_stack_ready.
    + exact demo_path_ready.
    + done.
    + repeat constructor.
    + vm_compute. discriminate.
    + vm_compute. discriminate.
  - intros [[L_tx L_rx] s'] (H & _). exact H.
Defined.
